(* ===== verification/_CoqProject ===== *)
-Q . S2P
Prelude.v
Pmm.v
Vmm.v
VmmTree.v
VmmSpec.v
VmmUser.v
UserSpace.v
Block.v
RamDisk.v
Gpt.v
GptSpec.v
Fat32.v
FatView.v
FatChain.v
FatDir.v
FatWrite.v
FatDelete.v
FatSpec.v
FatRepair.v
FatMount.v
Iso.v
IsoSpec.v
Net.v
NetCheck.v
NetApi.v
NetSafe.v
NetTalk.v
NetArp.v
NetStream.v
NetSpec.v
NetHandler.v
Socket.v
SocketSpec.v
Ipc.v
Ring.v
Tty.v
Fd.v
FdInv.v
FdSpec.v
FdFile.v
UnixSock.v
UnixSpec.v
UnixObj.v
MemfdSpec.v
EventSpec.v
Evdev.v
EvdevSpec.v
Elf.v
ElfSpec.v
Kea.v
KeaSpec.v
Files.v
Update.v
UpdateSpec.v
Kpm.v
KpmSpec.v
Syscall.v
SyscallSpec.v
LinuxSyscall.v
LinuxCalls.v
LinuxSpec.v
Klog.v
KlogSpec.v
Random.v
RandomSpec.v
Uwindow.v
UwindowSpec.v
Service.v
ServiceSpec.v
ServiceManifest.v
Proc.v
ProcSpec.v
ProcSpawn.v
ProcSignals.v
ProcVm.v
ProcVmSpec.v
Vfs.v
VfsSpec.v
VfsFile.v
