(* ===== verification/Prelude.v ===== *)
(** * KeshOS: the kernel, its file systems, its network and its supervision

    A model of the parts of KeshOS ([kernel/], [src/drivers/], [kpm/] under [src/]) that
    keep state other parts rely on, with the theorems that make them correct.  Every
    operation is a total, executable function on an explicit state, written in the order of
    the C function of the same name; the examples of the files run it by computation.

    ** How the program is put together

    Physical frames ([memory.c]) feed page tables ([memory.c]), which hold the address
    spaces the loader ([elf.c]) and the process calls ([process.c]) fill; packages are
    verified ([kea_verify.c]) before they are started.  Descriptors ([fd.c]) give processes
    files of the virtual file system ([vfs.c]), pipes, terminals ([tty.c]), UNIX sockets,
    shared memory, event counters and epoll ([unix_ipc.c]) and input devices ([evdev.c]).
    Below the virtual file system are FAT32 and ISO 9660 ([fat32.c], [iso9660.c]) on
    partitions ([gpt.c]) of block devices ([block.c]).  Sockets ([socket.c]) sit on the network
    stack ([net_stack.c]).  The package manager ([kpm_os.c]) downloads packages and system
    updates ([system_update.c]), verifies them and stores them as files.  System calls ([syscall.c])
    check permissions and copy between a process and the kernel; those of Linux programs
    ([linux_syscall.c]) check no permissions.  Messages ([ipc.c]) and the service manager ([service.c]) use
    processes only by their numbers.  Programs draw into windows ([uwindow.c]), which are put
    together on the screen; the kernel log ([log.c]) and the seed of the random numbers
    ([random.c]) are kept in files.

    ** Conventions

    - A [w]-bit integer is a [Z] in range; [u8] ... [u64] and [i32], [i64] are the C conversions
      and are written wherever C can wrap around.  Bytes are [Z] below 256.
    - A static array is a list; "array plus count" is the live prefix; a pointer into an array
      is its index, or its index plus one where 0 is the null pointer.  A C string is the list
      of its characters up to the zero.
    - [option] is the result of code that reads or writes memory of bounded size: [None] is an
      access outside it, and the safety theorems say that it does not happen.  Where it can
      happen, the theorem named in the list of findings gives the input.
    - Locks and disabled interrupts make an operation one step; the locks are not modelled.
      Serial output is left out, and so are the log messages of other parts than the log itself.
    - An interface is a type class: the operations of the other component, over a state of its
      own that is threaded through the calls, and a second class with the laws relied on.

    ** Interfaces and who implements them

    - [Vmm.FrameAllocator] / [FrameAllocatorLaws]: frames for page tables; implemented by [Pmm]
      ([Vmm.pmm_frames], [pmm_frames_laws]).
    - [Block.BlockDevice] / [BlockLaws]: sectors that survive a loss of power between writes; the
      operations are implemented by [Block.block_layer] over [Block.Drivers], the laws by the RAM disk of [RamDisk] and
      the disc of [IsoSpec].
    - [Net.NetDev] / [NetSafe.NetLaws] (network card and clock), [Net.UdpHandler] (who gets datagrams;
      implemented by the socket table in [Socket]); [NetTalk] gives a device that keeps the laws.
    - [Fd.FdEnv], [FdFile.FileStore], [Tty.PtyEnv], [UnixSock.UserMem], [UnixObj.ProcessVm], [Vfs.DiskFs],
      [Proc.ProcEnv], [Service.ServiceEnv], [Evdev.EventClock]: what a component calls in the others.  Each
      has a concrete instance next to the theorems that use it, on which their witnesses run.
    - [Files.Files], [Files.Https] / [FilesLaws]: files by path and downloads, for the package manager
      and the system updates; implemented by the [store] of the same file.
    - [Random.Drbg] / [RandomSpec.DrbgLaws]: the generator and the hash of BearSSL; [Random.Hardware]: the
      instructions of the processor; [Uwindow.Painter] / [UwindowSpec.PainterLaws]: drawing on the screen.
    - [Kea.Crypto] / [CryptoLaws]: SHA-256 and ECDSA of BearSSL, a library that is not under [src/].
    - Running user code between two entries of the kernel is a parameter of the scheduler in [Proc].

    ** Files

    - [Prelude]: integers, arrays, loops ([find_z], [iterate]), bit masks, little-endian
      fields, byte images read with bounds checks.
    - Memory: [Pmm] (free ranges, best fit, coalescing); [Vmm] (page tables, copies to and from
      user memory); [VmmTree], [VmmSpec] (page tables as trees, W^X); [VmmUser] (range checks and
      copies); [UserSpace] (the bytes of an address space).
    - Disks: [Block], [RamDisk]; [Gpt], [GptSpec]; [Fat32] (the driver) with [FatView] (a volume as a
      table and clusters), [FatChain], [FatDir], [FatWrite], [FatDelete] (what each layer
      does), [FatSpec] (the promises), [FatRepair] and [FatMount] (checking and mounting);
      [Iso], [IsoSpec].
    - Network: [Net] (input), [NetApi] (calls), [NetCheck] (checksums), [NetSafe] (headers,
      bounds and termination), [NetTalk] (a device), [NetArp], [NetStream] (conversations),
      [NetSpec] (the promises), [NetHandler]; [Socket], [SocketSpec].
    - Communication: [Ipc]; [Ring]; [Tty]; [Fd], [FdInv], [FdSpec], [FdFile]; [UnixSock], [UnixSpec];
      [UnixObj], [MemfdSpec], [EventSpec]; [Evdev], [EvdevSpec].
    - Programs: [Elf], [ElfSpec]; [Kea], [KeaSpec]; [Proc], [ProcSpec], [ProcSpawn], [ProcSignals]; [ProcVm],
      [ProcVmSpec]; [Service], [ServiceSpec], [ServiceManifest].
    - Packages: [Files] (the interface); [Update], [UpdateSpec]; [Kpm], [KpmSpec].
    - Files of programs: [Vfs], [VfsSpec], [VfsFile].
    - Services of the kernel: [Klog], [KlogSpec]; [Random], [RandomSpec]; [Uwindow] (the windows of
      programs and drawing them), [UwindowSpec].
    - System calls: [Syscall] (the native calls as programs over the operations of the kernel),
      [SyscallSpec] (what monitors of their requests accept); [LinuxSyscall], [LinuxCalls] (the Linux
      calls), [LinuxSpec].

    ** What the theorems show

    - Memory: an allocation is free memory of the right size, a release returns exactly it and
      refuses everything else; mapping installs exactly one translation or changes nothing; no
      page is ever writable and executable; the page-wise user checks mean what they say
      byte by byte; what is copied out is read back in.
    - Disks: replacing a file is atomic under a loss of power at any write; what was written
      is read back; deletion changes one entry; partitions and boot sectors that are accepted
      describe areas inside the device; a file of a disc is read exactly.
    - Network: no frame makes the stack read outside it, every waiting call returns, ARP, ping,
      UDP and the TCP receive side do what their peers expect, sockets of different processes
      do not disturb each other.
    - Communication: message queues refine bounded lists; descriptors are counted exactly in
      every reachable state; pipes, socket pairs and epoll refine their specifications; input
      devices refine queues of the newest events.
    - Programs: the loader and the package check are safe on all bytes and accept exactly what
      they should; every thread that can run is run; processes that are not root cannot touch
      others; process memory is fresh and disjoint; services are started after what they
      depend on, are restarted a bounded number of times, and a manifest registers what is
      written in it.
    - Packages: no command of the package manager ever installs a package that is not properly
      signed; an installation that succeeds stores exactly what was verified; an update is
      staged without touching the active system.
    - System calls: a native call asks only for what the permissions of the process allow, keeps to
      its buffers and releases them; a Linux call keeps to its buffers too, and a mapping that fails
      leaves nothing mapped.
    - Files: the tree of nodes stays well formed, and files read back what was written.
    - Services of the kernel: a snapshot of the log is the text of its newest records, and earlier
      logs are kept in order; random bytes are given out only by a generator that was seeded from
      hardware that passed its test; drawing the windows never leaves the screen or the pixels of a
      window, and a program is told of the mouse only inside its window.

    ** Fuel

    Loops over a list or a known count recurse on it.  The others take fuel that the theorems
    show to be enough: the walk along a cluster chain has one step per cluster
    ([chain_fuel]), the repair queue one per possible entry ([QUEUE_MAX]); a directory sector
    holds at most 64 records of 33 bytes ([record_fuel]); starting a service descends at most
    once per service ([start_fuel] = 17, shown by [service_operations_total]); the manifest
    parser takes its length, as every round consumes a byte; a chain of dependencies is followed
    9 packages deep, as in the source; random bytes are copied in at most 256 pieces
    ([random_enough]); the loops of the Linux calls have a round per piece of what is left ([console_enough],
    [remap_enough], [getrandom_enough], [getdents_enough], [rounds_enough]); messages are copied in chunks,
    each at least a byte or a failed round ([CHUNK_FUEL]); a wait of the network stack polls at
    most once per reading of the clock, which [NetLaws] lets advance.  [iterate] runs a loop for
    up to [2 ^ d] rounds without building that many.

    ** Not modelled

    Device drivers, interrupt and descriptor-table set-up, the timer and ACPI code (registers,
    privileged instructions, tables at physical addresses); TLS (glue around BearSSL); the
    drawing primitives, the desktop and its programs; DOOM and the Wayland protocol files
    (third-party and generated); user-space programs.  Of [block.c] the registration of devices is left out, which calls
    the probes of the drivers.  Concurrency of several processors is represented only as far
    as the locks of the source make each operation a step. *)
From Stdlib Require Export ZArith Lia Bool.
From stdpp Require Export base tactics list sorting gmap.
#[global] Open Scope Z_scope.

(** Case analysis on the outermost condition of the goal. *)
Ltac split_if E := match goal with |- context [if ?b then _ else _] => destruct b eqn:E end.

(** ** Machine integers *)

(** A [w]-bit unsigned C integer is a [Z] in [0, 2^w); every C operation that
    can leave the range is followed by one of these conversions. *)
Definition uwrap (w x : Z) : Z := x mod 2 ^ w.
Abbreviation u8 := (uwrap 8).
Abbreviation u16 := (uwrap 16).
Abbreviation u32 := (uwrap 32).
Abbreviation u64 := (uwrap 64).

(** Two's-complement reading of the low [w] bits. *)
Definition swrap (w x : Z) : Z := (x + 2 ^ (w - 1)) mod 2 ^ w - 2 ^ (w - 1).
Abbreviation i32 := (swrap 32).
Abbreviation i64 := (swrap 64).

Definition fits (w x : Z) : Prop := 0 <= x < 2 ^ w.

(** C's truth value of [flags & mask]. *)
Definition has (flags mask : Z) : bool := negb (Z.land flags mask =? 0).

(** C's [?:] on an [int] result. *)
Definition b2z (b : bool) : Z := if b then 1 else 0.

Lemma uwrap_id w x : fits w x -> uwrap w x = x.
Proof. intros H. apply Z.mod_small, H. Qed.

Lemma uwrap_fits w x : 0 <= w -> fits w (uwrap w x).
Proof. intros H. apply Z.mod_pos_bound. apply Z.pow_pos_nonneg; lia. Qed.

Lemma uwrap_add_lt w x y :
  0 <= w -> fits w x -> fits w y -> uwrap w (x + y) < x <-> 2 ^ w <= x + y.
Proof.
  unfold fits, uwrap. intros Hw Hx Hy. split; intros H.
  - destruct (decide (2 ^ w <= x + y)) as [|Hn]; [done|].
    rewrite Z.mod_small in H; lia.
  - replace (x + y) with ((x + y - 2 ^ w) + 1 * 2 ^ w) by lia.
    rewrite Z.mod_add, Z.mod_small; lia.
Qed.

(** ** Lists *)

(** The C idiom "array plus count": the live prefix of the array is the list. *)

(** Remove the element at [i], shifting the tail down. *)
Abbreviation remove_at := (delete (M := list _)).

Definition insert_at {A} (i : nat) (x : A) (l : list A) : list A :=
  take i l ++ x :: drop i l.

Lemma insert_at_app {A} (l1 l2 : list A) x :
  insert_at (length l1) x (l1 ++ l2) = l1 ++ x :: l2.
Proof. unfold insert_at. by rewrite take_app_length, drop_app_length. Qed.

Lemma delete_second {A} (l1 l2 : list A) x y :
  delete (S (length l1)) (l1 ++ x :: y :: l2) = l1 ++ x :: l2.
Proof. induction l1 as [|z l1 IH]; simpl; [done|]. by f_equal. Qed.

(** Sum of a measure over a list. *)
Definition zsum {A} (f : A -> Z) (l : list A) : Z := foldr (fun x s => f x + s) 0 l.

Lemma zsum_app {A} (f : A -> Z) l1 l2 : zsum f (l1 ++ l2) = zsum f l1 + zsum f l2.
Proof. induction l1 as [|x l1 IH]; simpl; [done|]. rewrite IH. lia. Qed.

Lemma zsum_nonneg {A} (f : A -> Z) l : Forall (fun x => 0 <= f x) l -> 0 <= zsum f l.
Proof. induction 1; simpl; lia. Qed.

(** Longest prefix whose elements all satisfy a boolean test. *)
Fixpoint span_len {A} (p : A -> bool) (l : list A) : nat :=
  match l with
  | [] => 0
  | x :: l' => if p x then S (span_len p l') else 0
  end.

Lemma span_len_spec {A} (p : A -> bool) (l : list A) :
  exists l1 l2, l = l1 ++ l2 /\ length l1 = span_len p l /\
    Forall (fun x => p x = true) l1 /\
    match l2 with [] => True | y :: _ => p y = false end.
Proof.
  induction l as [|x l IH]; simpl.
  - by exists [], [].
  - destruct (p x) eqn:E.
    + destruct IH as (l1 & l2 & -> & Hlen & Hf & Hh).
      exists (x :: l1), l2. simpl. repeat split; auto.
    + by exists [], (x :: l).
Qed.

(** C's search loop [for (k = i; k < i + n; ++k) if (p(k)) return k;] *)
Fixpoint find_z (p : Z -> bool) (i : Z) (n : nat) : option Z :=
  match n with
  | O => None
  | S n' => if p i then Some i else find_z p (i + 1) n'
  end.

Lemma find_z_Some p n : forall i k,
  find_z p i n = Some k -> i <= k < i + Z.of_nat n /\ p k = true /\ forall j, i <= j < k -> p j = false.
Proof.
  induction n as [|n IH]; intros i k; cbn [find_z]; [done|]. destruct (p i) eqn:Hp.
  - intros [= <-]. split; [lia|]. split; [done|]. lia.
  - intros H. destruct (IH _ _ H) as (H1 & H2 & H3). split; [lia|]. split; [done|].
    intros j Hj. destruct (decide (j = i)) as [->|]; [done|]. apply H3. lia.
Qed.

Lemma find_z_None p n : forall i,
  find_z p i n = None -> forall j, i <= j < i + Z.of_nat n -> p j = false.
Proof.
  induction n as [|n IH]; intros i; cbn [find_z]; [lia|]. destruct (p i) eqn:Hp; [done|].
  intros H j Hj. destruct (decide (j = i)) as [->|]; [done|]. apply (IH (i + 1)); [done|lia].
Qed.

(** A loop that either continues with a new state or stops with a result, run for at
    most [2 ^ d] rounds. *)
Fixpoint iterate {S R} (step : S -> S + R) (d : nat) (s : S) : S + R :=
  match d with
  | O => step s
  | S d => match iterate step d s with inl s => iterate step d s | inr r => inr r end
  end.

(** A loop whose measure falls stops; its result is that of the last round. *)
Lemma iterate_stops {S R} (step : S -> S + R) (I : S -> Prop) (mu : S -> Z) :
  (forall s s', I s -> step s = inl s' -> I s' /\ 0 <= mu s' < mu s) ->
  forall d s, I s -> 0 <= mu s < 2 ^ Z.of_nat d ->
    exists s' r, iterate step d s = inr r /\ I s' /\ step s' = inr r.
Proof.
  intros Hstep.
  assert (G : forall d s, I s -> match iterate step d s with
    | inl s' => I s' /\ 0 <= mu s' <= mu s - 2 ^ Z.of_nat d
    | inr r => exists s', I s' /\ step s' = inr r end).
  { induction d as [|d IH]; intros s Hs; cbn [iterate].
    - destruct (step s) as [s'|r] eqn:E; [|by exists s]. destruct (Hstep _ _ Hs E). split; [done|]. lia.
    - pose proof (IH s Hs) as H1. destruct (iterate step d s) as [s'|r]; [|done]. destruct H1 as [Hs' Hm].
      pose proof (IH s' Hs') as H2. destruct (iterate step d s') as [s''|r]; [|done]. destruct H2 as [Hs'' Hm'].
      split; [done|]. rewrite Nat2Z.inj_succ, Z.pow_succ_r by lia. lia. }
  intros d s Hs Hm. pose proof (G d s Hs) as H. destruct (iterate step d s) as [s'|r]; [lia|].
  destruct H as (s' & Hs' & E). by exists s', r.
Qed.

(** Reading and updating a C array of [T] by a [Z] index; [d] only totalises. *)
Definition at_z {T} (d : T) (l : list T) (i : Z) : T := nth (Z.to_nat i) l d.

Lemma at_z_insert {T} (d : T) l i j x :
  0 <= i < Z.of_nat (length l) -> 0 <= j ->
  at_z d (<[Z.to_nat i := x]> l) j = if j =? i then x else at_z d l j.
Proof.
  intros Hi Hj. unfold at_z. rewrite !nth_lookup. destruct (Z.eqb_spec j i) as [->|Hne].
  - rewrite list_lookup_insert_eq by lia. done.
  - rewrite list_lookup_insert_ne by lia. done.
Qed.

Lemma at_z_lookup {T} (d : T) l i :
  0 <= i < Z.of_nat (length l) -> l !! Z.to_nat i = Some (at_z d l i).
Proof.
  intros Hi. unfold at_z. destruct (lookup_lt_is_Some_2 l (Z.to_nat i)) as [x Hx]; [lia|].
  by rewrite (nth_lookup_Some _ _ d _ Hx).
Qed.

(** Replacing one element changes a sum by the difference. *)
Lemma zsum_insert {T} (g : T -> Z) (d : T) l i x :
  0 <= i < Z.of_nat (length l) ->
  zsum g (<[Z.to_nat i := x]> l) = zsum g l - g (at_z d l i) + g x.
Proof.
  intros Hi. rewrite insert_take_drop by lia.
  rewrite <-(take_drop_middle l (Z.to_nat i) (at_z d l i)) at 3 by (by apply at_z_lookup).
  rewrite !zsum_app. cbn [zsum foldr]. fold (zsum g (drop (S (Z.to_nat i)) l)). lia.
Qed.

(** ** Bit masks *)

Lemma land_ones_mod x k : 0 <= k -> Z.land x (2 ^ k - 1) = x mod 2 ^ k.
Proof. intros Hk. rewrite <-Z.land_ones by done. f_equal. rewrite Z.ones_equiv. lia. Qed.

(** [x & ~(2^k - 1)] on a [w]-bit value clears the low [k] bits. *)
Lemma land_clear_low w x k :
  0 <= k <= w -> fits w x -> Z.land x (uwrap w (Z.lnot (2 ^ k - 1))) = x - x mod 2 ^ k.
Proof.
  intros Hk Hx. unfold uwrap. rewrite <-Z.land_ones by lia.
  rewrite (Z.land_comm (Z.lnot _)), Z.land_assoc, Z.land_ones, (Z.mod_small x) by (lia || apply Hx).
  replace (2 ^ k - 1) with (Z.ones k) by (rewrite Z.ones_equiv; lia).
  rewrite <-Z.ldiff_land, Z.ldiff_ones_r, Z.shiftl_mul_pow2, Z.shiftr_div_pow2 by lia.
  pose proof (Z.div_mod x (2 ^ k)). lia.
Qed.

Lemma has_low_iff x k : 0 <= k -> has x (2 ^ k - 1) = negb (x mod 2 ^ k =? 0).
Proof. intros Hk. unfold has. by rewrite land_ones_mod. Qed.

Lemma has_lor a b m : has (Z.lor a b) m = has a m || has b m.
Proof.
  unfold has. rewrite Z.land_lor_distr_l.
  destruct (Z.eqb_spec (Z.land a m) 0) as [->|Ha]; [by rewrite Z.lor_0_l|].
  destruct (Z.eqb_spec (Z.lor (Z.land a m) (Z.land b m)) 0) as [Hz|]; [|done].
  by apply Z.lor_eq_0_iff in Hz as [].
Qed.

Lemma has_land a b m : has (Z.land a b) m = has a (Z.land b m).
Proof. unfold has. by rewrite Z.land_assoc. Qed.

Lemma has_0_l m : has 0 m = false.
Proof. unfold has. by rewrite Z.land_0_l. Qed.

(** A multiple of [2^k] has no bit in common with a mask below [2^k]. *)
Lemma land_aligned_low x k c : 0 <= k -> 0 <= c < 2 ^ k -> x mod 2 ^ k = 0 -> Z.land x c = 0.
Proof.
  intros Hk Hc Hx. replace c with (Z.land (2 ^ k - 1) c).
  - rewrite Z.land_assoc, land_ones_mod, Hx by done. apply Z.land_0_l.
  - rewrite Z.land_comm, land_ones_mod, Z.mod_small by done. done.
Qed.

Lemma has_aligned_low x k c : 0 <= k -> 0 <= c < 2 ^ k -> x mod 2 ^ k = 0 -> has x c = false.
Proof. intros. unfold has. by rewrite (land_aligned_low x k). Qed.

(** ** Little-endian data *)

(** Little-endian fields of C structures. *)
Fixpoint le_get (bs : list Z) : Z :=
  match bs with [] => 0 | b :: bs => b + 256 * le_get bs end.

Fixpoint le_put (n : nat) (x : Z) : list Z :=
  match n with O => [] | S n => x mod 256 :: le_put n (x / 256) end.

Definition field (off n : nat) (bs : list Z) : Z := le_get (take n (drop off bs)).
Lemma le_get_put n x : 0 <= x < 256 ^ Z.of_nat n -> le_get (le_put n x) = x.
Proof.
  revert x. induction n as [|n IH]; intros x Hx; cbn [le_put le_get].
  { rewrite Z.pow_0_r in Hx. lia. }
  rewrite Nat2Z.inj_succ, Z.pow_succ_r in Hx by lia. rewrite IH; Z.to_euclidean_division_equations; lia.
Qed.

Lemma length_le_put n x : length (le_put n x) = n.
Proof. revert x. induction n; intros x; cbn; auto. Qed.

Lemma field_le_put n x bs : 0 <= x < 256 ^ Z.of_nat n -> field 0 n (le_put n x ++ bs) = x.
Proof.
  intros Hx. unfold field. rewrite drop_0, take_app_length' by (symmetry; apply length_le_put). by apply le_get_put.
Qed.

Lemma le_get_nonneg bs : Forall (fun b => 0 <= b < 256) bs -> 0 <= le_get bs < 256 ^ Z.of_nat (length bs).
Proof.
  induction 1 as [|b bs Hb Hbs IH]; cbn [le_get length]; [done|]. rewrite Nat2Z.inj_succ, Z.pow_succ_r by lia. lia.
Qed.

(** ** Reading a byte image *)

(** A C string in an array. *)
Definition c_string (l : list Z) : list Z := take (span_len (fun c => negb (c =? 0)) l) l.

(** [n] bytes at [off]; [None] is an access outside the image. *)
Definition slice (img : list Z) (off n : Z) : option (list Z) :=
  if (0 <=? off) && (0 <=? n) && (off + n <=? Z.of_nat (length img))
  then Some (take (Z.to_nat n) (drop (Z.to_nat off) img)) else None.

Definition rd (img : list Z) (off n : Z) : option Z := le_get <$> slice img off n.

Definition image (img : list Z) : Prop := Forall (fun b => 0 <= b < 256) img /\ Z.of_nat (length img) < 2 ^ 64.

Lemma slice_some img off n :
  0 <= off -> 0 <= n -> off + n <= Z.of_nat (length img) ->
  slice img off n = Some (take (Z.to_nat n) (drop (Z.to_nat off) img)).
Proof.
  intros. unfold slice. by rewrite (proj2 (Z.leb_le 0 off)), (proj2 (Z.leb_le 0 n)), (proj2 (Z.leb_le (off + n) _)).
Qed.

Lemma slice_inv img off n bs :
  slice img off n = Some bs ->
  0 <= off /\ 0 <= n /\ off + n <= Z.of_nat (length img) /\ Z.of_nat (length bs) = n /\
  forall k, 0 <= k < n -> nth (Z.to_nat k) bs 0 = nth (Z.to_nat (off + k)) img 0.
Proof.
  unfold slice. destruct (Z.leb_spec 0 off), (Z.leb_spec 0 n), (Z.leb_spec (off + n) (Z.of_nat (length img))); try done.
  cbn [andb]. intros [= <-]. split_and!; try done.
  - rewrite length_take, length_drop. lia.
  - intros k Hk. rewrite !nth_lookup, lookup_take, lookup_drop by lia. rewrite decide_True by lia.
    by replace (Z.to_nat off + Z.to_nat k)%nat with (Z.to_nat (off + k)) by lia.
Qed.

Lemma rd_some img off n :
  image img -> 0 <= off -> 0 <= n -> off + n <= Z.of_nat (length img) ->
  exists x, rd img off n = Some x /\ 0 <= x < 256 ^ n.
Proof.
  intros [Hb _] Ho Hn Hl. unfold rd. rewrite slice_some by done. cbn [fmap option_fmap option_map]. eexists. split; [done|].
  pose proof (le_get_nonneg (take (Z.to_nat n) (drop (Z.to_nat off) img)) ltac:(by apply Forall_take, Forall_drop)) as H.
  rewrite length_take, length_drop in H. by replace (Z.of_nat (Z.to_nat n `min` (length img - Z.to_nat off))) with n in H by lia.
Qed.

(** A concrete image. *)
Lemma bytes_image l : forallb (fun b => (0 <=? b) && (b <? 256)) l = true -> Z.of_nat (length l) < 2 ^ 64 -> image l.
Proof.
  intros H Hl. split; [|done]. apply Forall_forall. intros b Hb.
  rewrite forallb_forall in H. specialize (H b (proj1 (list_elem_of_In _ _) Hb)). lia.
Qed.

(** Read the next field of an image, with its range. *)
Ltac read_field H :=
  match goal with
  | |- context [rd ?img ?o ?n] =>
      let x := fresh "x" in let E := fresh "E" in let R := fresh "R" in
      destruct (rd_some img o n H ltac:(lia) ltac:(lia) ltac:(lia)) as (x & E & R); rewrite E; cbn [mbind option_bind]
  end.
