(* ===== verification/Pmm.v ===== *)
(** Physical memory manager: the free-range allocator of [kernel/memory.c].

    The static arrays [g_regions] and [g_free_ranges] with their counts are the
    lists [regions] and [free]; every other global is a field of [pmm].  Each
    operation runs between [pmm_lock] and [pmm_unlock], so it is one atomic
    function on the state.  Zeroing the pages handed out is an effect on memory
    and lives with the memory, in [Vmm]. *)
From S2P Require Import Prelude.

Definition PAGE_SIZE : Z := 4096.
Definition PMM_MAX_REGIONS : nat := 64.
Definition PMM_MAX_FREE_RANGES : nat := Z.to_nat 16384.
Definition LIMINE_MEMMAP_USABLE : Z := 0.

(** [pmm_region_t] and [pmm_range_t]: half-open address intervals. *)
Record range := Range { base : Z; limit : Z }.

#[export] Instance range_eq_dec : EqDecision range.
Proof. solve_decision. Defined.

Record pmm := Pmm {
  regions : list range;
  free : list range;
  total_usable_ram : Z;
  allocated_bytes : Z;
  peak_allocated_bytes : Z;
  allocation_count : Z;
  free_count : Z;
  failed_allocations : Z
}.

Definition set_free (fr : list range) (s : pmm) : pmm :=
  Pmm (regions s) fr (total_usable_ram s) (allocated_bytes s)
      (peak_allocated_bytes s) (allocation_count s) (free_count s) (failed_allocations s).

Definition range_overlaps (a_base a_end b_base b_end : Z) : bool :=
  (a_base <? b_end) && (b_base <? a_end).

Definition pmm_managed_range (s : pmm) (b e : Z) : bool :=
  existsb (fun r => (base r <=? b) && (e <=? limit r)) (regions s).

(** *** Inserting a free range *)

(** The two coalescing steps, on the array after the new range was stored at
    [pos]: first with the predecessor, then with the successor. *)
Definition coalesce_prev (fr : list range) (pos : nat) : list range * nat :=
  match pos with
  | O => (fr, pos)
  | S p =>
      match fr !! p, fr !! pos with
      | Some q, Some r =>
          if limit q =? base r
          then (delete pos (<[p := Range (base q) (limit r)]> fr), p)
          else (fr, pos)
      | _, _ => (fr, pos)
      end
  end.

Definition coalesce_next (fr : list range) (pos : nat) : list range :=
  match fr !! pos, fr !! S pos with
  | Some r, Some n =>
      if limit r =? base n
      then delete (S pos) (<[pos := Range (base r) (limit n)]> fr)
      else fr
  | _, _ => fr
  end.

(** [None] is the code's [-1]. *)
Definition pmm_insert_free_range (fr : list range) (b e : Z) : option (list range) :=
  if (e <=? b) || bool_decide (PMM_MAX_FREE_RANGES <= length fr)%nat then None
  else
    let pos := span_len (fun r => base r <? b) fr in
    if match pos with
       | O => false
       | S p => match fr !! p with Some q => b <? limit q | None => false end
       end then None
    else if match fr !! pos with Some n => base n <? e | None => false end then None
    else
      let '(fr', pos') := coalesce_prev (insert_at pos (Range b e) fr) pos in
      Some (coalesce_next fr' pos').

(** *** Initialisation from the boot memory map *)

(** [struct limine_memmap_entry]. *)
Record memmap_entry := MemmapEntry { e_base : Z; e_length : Z; e_type : Z }.

Definition page_up (x : Z) : Z := Z.land (u64 (x + PAGE_SIZE - 1)) (u64 (Z.lnot (PAGE_SIZE - 1))).
Definition page_down (x : Z) : Z := Z.land x (u64 (Z.lnot (PAGE_SIZE - 1))).

(** One iteration of the region loop of [pmm_init]. *)
Definition add_region (acc : list range * Z) (e : memmap_entry) : list range * Z :=
  let '(rs, total) := acc in
  if negb (e_type e =? LIMINE_MEMMAP_USABLE) then acc
  else if bool_decide (PMM_MAX_REGIONS <= length rs)%nat then acc
  else
    let end_raw := u64 (e_base e + e_length e) in
    if end_raw <? e_base e then acc
    else
      let b := page_up (e_base e) in
      let en := page_down end_raw in
      if en <=? b then acc
      else (rs ++ [Range b en], u64 (total + (en - b))).

Definition fallback_region : range := Range 0x02000000 0x02200000.

(** [memmap] is [None] when the bootloader gave no response. *)
Definition pmm_init (memmap : option (list memmap_entry)) : pmm :=
  let '(rs, total) := foldl add_region ([], 0) (default [] memmap) in
  let '(rs, total) :=
    match rs with
    | [] => ([fallback_region], limit fallback_region - base fallback_region)
    | _ => (rs, total)
    end in
  let fr := foldl (fun fr r => default fr (pmm_insert_free_range fr (base r) (limit r))) [] rs in
  Pmm rs fr total 0 0 0 0 0.

(** *** Allocation *)

Definition max_pages : Z := (2 ^ 64 - 1) / PAGE_SIZE.

(** The best-fit scan: index and size of the smallest range that fits. *)
Fixpoint best_fit (fr : list range) (i : nat) (bytes : Z) (best : nat) (best_size : Z) : nat :=
  match fr with
  | [] => best
  | r :: fr' =>
      let size := u64 (limit r - base r) in
      if (bytes <=? size) && (size <? best_size)
      then best_fit fr' (S i) bytes i size
      else best_fit fr' (S i) bytes best best_size
  end.

Definition note_failure (s : pmm) : pmm :=
  Pmm (regions s) (free s) (total_usable_ram s) (allocated_bytes s) (peak_allocated_bytes s)
      (allocation_count s) (free_count s) (u64 (failed_allocations s + 1)).

Definition take_front (fr : list range) (best : nat) (r : range) (bytes : Z) : list range :=
  let b := u64 (base r + bytes) in
  if b =? limit r then delete best fr else <[best := Range b (limit r)]> fr.

(** The allocator part of [pmm_alloc_pages]: the address returned, 0 on failure. *)
Definition pmm_alloc_pages (s : pmm) (count : Z) : pmm * Z :=
  if (count =? 0) || (max_pages <? count) then (note_failure s, 0)
  else
    let bytes := u64 (count * PAGE_SIZE) in
    let best := best_fit (free s) 0 bytes (length (free s)) (2 ^ 64 - 1) in
    match free s !! best with
    | Some r =>
        let allocated := u64 (allocated_bytes s + bytes) in
        (Pmm (regions s) (take_front (free s) best r bytes) (total_usable_ram s) allocated
             (if peak_allocated_bytes s <? allocated then allocated else peak_allocated_bytes s)
             (u64 (allocation_count s + 1)) (free_count s) (failed_allocations s),
         base r)
    | None => (note_failure s, 0)
    end.

Definition pmm_alloc_page (s : pmm) : pmm * Z := pmm_alloc_pages s 1.

(** *** Release *)

Definition pmm_free_pages (s : pmm) (phys count : Z) : pmm * Z :=
  if (count =? 0) || has phys (PAGE_SIZE - 1) then (s, -1)
  else if max_pages <? count then (s, -1)
  else
    let bytes := u64 (count * PAGE_SIZE) in
    let e := u64 (phys + bytes) in
    if e <? phys then (s, -1)
    else if negb (pmm_managed_range s phys e) then (s, -1)
    else if existsb (fun r => range_overlaps phys e (base r) (limit r)) (free s) then (s, -1)
    else
      match pmm_insert_free_range (free s) phys e with
      | None => (s, -1)
      | Some fr =>
          (Pmm (regions s) fr (total_usable_ram s)
               (if bytes <=? allocated_bytes s then allocated_bytes s - bytes else 0)
               (peak_allocated_bytes s) (allocation_count s) (u64 (free_count s + 1))
               (failed_allocations s), 0)
      end.

Definition pmm_free_page (s : pmm) (phys : Z) : pmm * Z := pmm_free_pages s phys 1.

(** *** Statistics *)

Definition pmm_get_stats (s : pmm) : Z * Z :=
  (total_usable_ram s,
   if total_usable_ram s <? allocated_bytes s then total_usable_ram s else allocated_bytes s).

(** [pmm_diagnostics_t]. *)
Record pmm_diagnostics := PmmDiagnostics {
  d_total_bytes : Z; d_allocated_bytes : Z; d_free_bytes : Z; d_largest_free_run : Z;
  d_peak_allocated_bytes : Z; d_allocation_count : Z; d_free_count : Z;
  d_failed_allocations : Z; d_free_range_count : Z
}.

Definition pmm_get_diagnostics (s : pmm) : pmm_diagnostics :=
  let '(free_bytes, largest) :=
    foldl (fun '(fb, lg) r =>
             let size := u64 (limit r - base r) in
             (u64 (fb + size), if lg <? size then size else lg)) (0, 0) (free s) in
  PmmDiagnostics (total_usable_ram s) (allocated_bytes s) free_bytes largest
    (peak_allocated_bytes s) (allocation_count s) (free_count s) (failed_allocations s)
    (u32 (Z.of_nat (length (free s)))).

(** ** The invariant *)

(** Ranges in increasing order with a gap between neighbours (adjacent ranges
    are always merged), starting strictly above [lo]. *)
Fixpoint chain (lo : Z) (fr : list range) : Prop :=
  match fr with
  | [] => True
  | r :: fr' => lo < base r /\ base r < limit r /\ chain (limit r) fr'
  end.

Fixpoint chain_end (lo : Z) (fr : list range) : Z :=
  match fr with
  | [] => lo
  | r :: fr' => chain_end (limit r) fr'
  end.

Definition page_aligned (a : Z) : Prop := a mod PAGE_SIZE = 0.

Definition range_ok (r : range) : Prop :=
  0 <= base r < limit r /\ limit r < 2 ^ 64 /\ page_aligned (base r) /\ page_aligned (limit r).

(** Well-formed free list. *)
Definition free_wf (fr : list range) : Prop := chain (-1) fr /\ Forall range_ok fr.

(** Address [a] lies in one of the ranges. *)
Definition covers (fr : list range) (a : Z) : Prop := Exists (fun r => base r <= a < limit r) fr.

Definition range_size (r : range) : Z := limit r - base r.
Definition total_size (fr : list range) : Z := zsum range_size fr.
Arguments total_size : simpl never.

Lemma chain_app lo l1 l2 : chain lo (l1 ++ l2) <-> chain lo l1 /\ chain (chain_end lo l1) l2.
Proof. revert lo; induction l1 as [|r l1 IH]; intros lo; simpl; [tauto|]. rewrite IH. tauto. Qed.

Lemma chain_end_app lo l1 l2 : chain_end lo (l1 ++ l2) = chain_end (chain_end lo l1) l2.
Proof. revert lo; induction l1; simpl; auto. Qed.

Lemma chain_weaken lo lo' fr : lo' <= lo -> chain lo fr -> chain lo' fr.
Proof. destruct fr; simpl; intuition lia. Qed.

Lemma chain_end_le lo fr : chain lo fr -> lo <= chain_end lo fr.
Proof.
  revert lo; induction fr as [|r fr IH]; simpl; intros lo H; [lia|].
  destruct H as (?&?&H). specialize (IH _ H). lia.
Qed.

Lemma chain_covers_gt lo fr a : chain lo fr -> covers fr a -> lo < a < chain_end lo fr.
Proof.
  intros H Hc. revert lo H. induction Hc as [r fr Ha|r fr Hc IH]; simpl; intros lo (?&?&H).
  - pose proof (chain_end_le _ _ H). lia.
  - specialize (IH _ H). lia.
Qed.

Lemma covers_app l1 l2 a : covers (l1 ++ l2) a <-> covers l1 a \/ covers l2 a.
Proof. apply Exists_app. Qed.

Lemma covers_cons r l a : covers (r :: l) a <-> base r <= a < limit r \/ covers l a.
Proof. apply Exists_cons. Qed.

Lemma covers_nil a : covers [] a <-> False.
Proof. apply Exists_nil. Qed.

Lemma total_size_app l1 l2 : total_size (l1 ++ l2) = total_size l1 + total_size l2.
Proof. apply zsum_app. Qed.

Lemma total_size_cons r l : total_size (r :: l) = limit r - base r + total_size l.
Proof. reflexivity. Qed.

Lemma total_size_nil : total_size [] = 0.
Proof. reflexivity. Qed.

Create Rewrite HintDb pmm.
Create HintDb pmm_inv.
#[export] Hint Rewrite chain_app chain_end_app covers_app covers_cons covers_nil
  total_size_app total_size_cons total_size_nil (@Forall_app range) (@Forall_cons range) : pmm.

(** ** Inserting a free range *)

(** A range list seen from the position where [b] belongs. *)
Lemma split_at_base (fr : list range) (b : Z) :
  exists l1 l2, fr = l1 ++ l2 /\ length l1 = span_len (fun r => base r <? b) fr /\
    Forall (fun r => base r < b) l1 /\ (forall n l, l2 = n :: l -> b <= base n).
Proof.
  destruct (span_len_spec (fun r => base r <? b) fr) as (l1 & l2 & -> & Hl & Hf & Hh).
  exists l1, l2. split; [done|]. split; [done|]. split.
  - eapply Forall_impl; [exact Hf|]. simpl. lia.
  - intros n l ->. lia.
Qed.

(** Merging with the predecessor, on explicit list shapes. *)
Definition glue_prev (l1 : list range) (x : range) : list range * range :=
  match last l1 with
  | Some p => if limit p =? base x then (removelast l1, Range (base p) (limit x)) else (l1, x)
  | None => (l1, x)
  end.

Lemma coalesce_prev_shape l1 x l2 :
  let '(l1', x') := glue_prev l1 x in
  coalesce_prev (l1 ++ x :: l2) (length l1) = (l1' ++ x' :: l2, length l1').
Proof.
  unfold glue_prev. destruct l1 as [|p l1 _] using rev_ind; [done|].
  rewrite last_snoc, length_app, Nat.add_comm. simpl.
  rewrite lookup_app_l by (rewrite length_app; simpl; lia).
  rewrite list_lookup_middle by done.
  replace (S (length l1)) with (length (l1 ++ [p])) by (rewrite length_app; simpl; lia).
  rewrite (list_lookup_middle (l1 ++ [p])) by done.
  destruct (limit p =? base x); [|by rewrite length_app, Nat.add_comm].
  rewrite removelast_last, <-app_assoc. simpl. f_equal.
  rewrite insert_app_r_alt, Nat.sub_diag, length_app, Nat.add_comm by lia. simpl.
  by rewrite delete_second.
Qed.

Definition glue_next (x : range) (l2 : list range) : list range :=
  match l2 with
  | n :: l => if limit x =? base n then Range (base x) (limit n) :: l else x :: l2
  | [] => [x]
  end.

Lemma coalesce_next_shape l1 x l2 :
  coalesce_next (l1 ++ x :: l2) (length l1) = l1 ++ glue_next x l2.
Proof.
  unfold coalesce_next. rewrite list_lookup_middle by done.
  rewrite lookup_app_r, Nat.sub_succ_l, Nat.sub_diag by lia. simpl.
  destruct l2 as [|n l]; simpl; [done|].
  destruct (limit x =? base n); [|done].
  rewrite insert_app_r_alt, Nat.sub_diag by lia. simpl.
  by rewrite delete_second.
Qed.

(** Where the insertion of [b, e) succeeds, on the split list. *)
Lemma pmm_insert_shape l1 l2 b e :
  Forall (fun r => base r < b) l1 -> (forall n l, l2 = n :: l -> b <= base n) ->
  pmm_insert_free_range (l1 ++ l2) b e =
    if (e <=? b) || bool_decide (PMM_MAX_FREE_RANGES <= length (l1 ++ l2))%nat then None
    else if match last l1 with Some q => b <? limit q | None => false end then None
    else if match l2 with n :: _ => base n <? e | [] => false end then None
    else let '(l1', x) := glue_prev l1 (Range b e) in Some (l1' ++ glue_next x l2).
Proof.
  intros H1 H2. unfold pmm_insert_free_range.
  destruct (_ || _); [done|].
  assert (Hpos : span_len (fun r => base r <? b) (l1 ++ l2) = length l1).
  { clear e. induction H1 as [|r l1 Hr H1 IH]; simpl.
    - destruct l2 as [|n l]; simpl; [done|].
      specialize (H2 n l eq_refl). destruct (Z.ltb_spec (base n) b); [lia|done].
    - destruct (Z.ltb_spec (base r) b); [|lia]. by rewrite IH. }
  rewrite Hpos. rewrite insert_at_app.
  pose proof (coalesce_prev_shape l1 (Range b e) l2) as Hp.
  destruct (glue_prev l1 (Range b e)) as [l1' x] eqn:Hg. rewrite Hp.
  rewrite coalesce_next_shape.
  replace ((l1 ++ l2) !! length l1) with (head l2).
  2:{ rewrite lookup_app_r, Nat.sub_diag by lia. by destruct l2. }
  replace (match length l1 with
           | O => false
           | S p => match (l1 ++ l2) !! p with Some q => b <? limit q | None => false end
           end) with (match last l1 with Some q => b <? limit q | None => false end).
  2:{ destruct l1 as [|q l1 _] using rev_ind; [done|].
      rewrite last_snoc, length_app, Nat.add_comm, <-app_assoc. simpl.
      by rewrite list_lookup_middle by done. }
  destruct (match last l1 with Some _ => _ | None => _ end); [done|].
  by destruct l2.
Qed.

Lemma range_ok_unfold r :
  range_ok r <-> 0 <= base r < limit r /\ limit r < 2 ^ 64 /\
    base r mod PAGE_SIZE = 0 /\ limit r mod PAGE_SIZE = 0.
Proof. reflexivity. Qed.
#[export] Hint Rewrite range_ok_unfold : pmm.

(** Goals about concrete range lists: rewrite with the list equations, split,
    and leave arithmetic to [lia]. *)
Ltac ranges :=
  intros; autorewrite with pmm in *; simpl in *; rewrite ?Forall_nil in *;
  repeat match goal with H : _ /\ _ |- _ => destruct H end;
  split_and?; intros; autorewrite with pmm; simpl; auto; try lia; try (intuition lia).

(** What gluing does to coverage, size and the invariant. *)
Lemma glue_prev_spec l1 x l2 lo :
  chain lo l1 -> Forall range_ok l1 -> range_ok x ->
  match last l1 with Some q => limit q <= base x | None => lo < base x end ->
  chain (limit x) l2 ->
  let '(l1', x') := glue_prev l1 x in
  chain lo (l1' ++ x' :: l2) /\ Forall range_ok (l1' ++ [x']) /\ limit x' = limit x /\
  (forall a, covers (l1' ++ [x']) a <-> covers (l1 ++ [x]) a) /\
  total_size (l1' ++ [x']) = total_size (l1 ++ [x]).
Proof.
  unfold glue_prev. intros Hc Hf Hx Hl Hc2. destruct l1 as [|q l1 _] using rev_ind; simpl.
  - ranges.
  - rewrite last_snoc in *.
    destruct (Z.eqb_spec (limit q) (base x)); rewrite ?removelast_last; ranges.
Qed.

Lemma glue_next_spec l1 x l2 lo :
  chain lo (l1 ++ [x]) -> Forall range_ok (l1 ++ [x]) -> Forall range_ok l2 ->
  match l2 with n :: _ => limit x <= base n | [] => True end -> chain (-1) l2 ->
  chain lo (l1 ++ glue_next x l2) /\ Forall range_ok (l1 ++ glue_next x l2) /\
  (forall a, covers (l1 ++ glue_next x l2) a <-> covers (l1 ++ [x]) a \/ covers l2 a) /\
  total_size (l1 ++ glue_next x l2) = total_size (l1 ++ [x]) + total_size l2.
Proof.
  unfold glue_next. intros Hc Hf Hf2 Hl Hc2. destruct l2 as [|n l2].
  - ranges.
  - destruct (Z.eqb_spec (limit x) (base n)); ranges.
Qed.

(** The two acceptance tests say that [b, e) is disjoint from the neighbours;
    sortedness extends this to every range. *)
Lemma insert_tests_disjoint l1 l2 b e :
  free_wf (l1 ++ l2) -> b < e ->
  Forall (fun r => base r < b) l1 -> (forall n l, l2 = n :: l -> b <= base n) ->
  (match last l1 with Some q => b <? limit q | None => false end = false /\
   match l2 with n :: _ => base n <? e | [] => false end = false) <->
  (forall a, b <= a < e -> ~ covers (l1 ++ l2) a).
Proof.
  intros [Hc Hf] Hbe H1 H2. apply chain_app in Hc as [Hc1 Hc2].
  split.
  - intros [T1 T2] a Ha. rewrite covers_app. intros [Hcov|Hcov].
    + destruct l1 as [|q l1 _] using rev_ind; [by apply covers_nil in Hcov|].
      rewrite last_snoc in T1. apply (chain_covers_gt _ _ _ Hc1) in Hcov.
      rewrite chain_end_app in Hcov. simpl in Hcov. lia.
    + destruct l2 as [|n l2]; [by apply covers_nil in Hcov|].
      apply covers_cons in Hcov as [?|Hcov]; [lia|].
      destruct Hc2 as (_ & ? & Hc2). apply (chain_covers_gt _ _ _ Hc2) in Hcov. lia.
  - intros Hd. split.
    + destruct l1 as [|q l1 _] using rev_ind; [done|]. rewrite last_snoc.
      apply Z.ltb_ge. apply Forall_app in H1 as [_ Hq]. inversion_clear Hq.
      destruct (decide (limit q <= b)) as [|Hn]; [lia|]. exfalso.
      apply (Hd b); [lia|]. ranges.
    + destruct l2 as [|n l2]; [done|]. apply Z.ltb_ge.
      pose proof (H2 _ _ eq_refl). destruct Hc2 as (_ & Hn & _).
      destruct (decide (e <= base n)) as [|Hn']; [done|]. exfalso.
      apply (Hd (base n)); [lia|]. ranges.
Qed.

(** Inserting [b, e) adds exactly those addresses and keeps the invariant. *)
Lemma pmm_insert_spec fr b e fr' :
  free_wf fr -> range_ok (Range b e) -> pmm_insert_free_range fr b e = Some fr' ->
  free_wf fr' /\ (forall a, covers fr' a <-> covers fr a \/ b <= a < e) /\
  total_size fr' = total_size fr + (e - b).
Proof.
  intros [Hc Hf] Hr Hi. destruct (split_at_base fr b) as (l1 & l2 & -> & _ & H1 & H2).
  rewrite (pmm_insert_shape _ _ _ _ H1 H2) in Hi.
  destruct (_ || _); [done|].
  destruct (match last l1 with Some _ => _ | None => _ end) eqn:T1; [done|].
  destruct (match l2 with [] => _ | _ :: _ => _ end) eqn:T2; [done|].
  apply chain_app in Hc as [Hc1 Hc2]. apply Forall_app in Hf as [Hf1 Hf2].
  assert (Hc2' : chain (-1) l2).
  { destruct l2; simpl in *; [done|]. inversion Hf2; ranges. }
  assert (Hle : match l2 with n :: _ => e <= base n | [] => True end).
  { destruct l2; [done|]. lia. }
  destruct (glue_prev l1 (Range b e)) as [l1' x'] eqn:G.
  pose proof (glue_prev_spec l1 (Range b e) [] (-1) Hc1 Hf1 Hr) as S1. rewrite G in S1.
  destruct S1 as (C1 & F1 & L1 & V1 & Z1); [destruct (last l1); ranges|done|].
  simpl in L1. injection Hi as <-.
  destruct (glue_next_spec l1' x' l2 (-1)) as (C2 & F2 & V2 & Z2); auto.
  { destruct l2; [done|]. lia. }
  split; [done|]. split.
  - intros a. rewrite V2, V1. ranges.
  - rewrite Z2, Z1. ranges.
Qed.

Lemma pmm_insert_Some_iff fr b e :
  free_wf fr -> range_ok (Range b e) ->
  is_Some (pmm_insert_free_range fr b e) <->
  (length fr < PMM_MAX_FREE_RANGES)%nat /\ (forall a, b <= a < e -> ~ covers fr a).
Proof.
  intros Hwf Hr. destruct (split_at_base fr b) as (l1 & l2 & -> & _ & H1 & H2).
  assert (Hbe : b < e) by (destruct Hr; simpl in *; lia).
  rewrite (pmm_insert_shape _ _ _ _ H1 H2), <-(insert_tests_disjoint l1 l2 b e) by done.
  destruct (Z.leb_spec e b); [lia|]. simpl.
  case_bool_decide; [rewrite is_Some_alt; split; [done|lia]|].
  destruct (match last l1 with Some _ => _ | None => _ end);
    [rewrite is_Some_alt; split; [done|intuition congruence]|].
  destruct (match l2 with [] => _ | _ :: _ => _ end);
    [rewrite is_Some_alt; split; [done|intuition congruence]|].
  destruct (glue_prev _ _). rewrite is_Some_alt. split; [|done]. intros _. split; [lia|done].
Qed.

(** ** The state invariant *)

(** Regions lie above address 0 and below the architectural physical limit. *)
Definition region_ok (r : range) : Prop := range_ok r /\ 0 < base r /\ limit r <= 2 ^ 52.

Record pmm_wf (s : pmm) : Prop := PmmWf {
  wf_free : free_wf (free s);
  wf_regions : Forall region_ok (regions s);
  wf_managed : forall a, covers (free s) a -> covers (regions s) a;
  wf_total : total_usable_ram s = total_size (regions s);
  wf_total_fits : total_usable_ram s < 2 ^ 64;
  wf_balance : allocated_bytes s + total_size (free s) = total_usable_ram s
}.

(** Every address of a range list, one by one: a ghost used for counting. *)
Definition addresses (fr : list range) : list Z :=
  concat (map (fun r => seqZ (base r) (range_size r)) fr).

Lemma elem_of_addresses fr a : a ∈ addresses fr <-> covers fr a.
Proof.
  induction fr as [|r fr IH]; simpl.
  - rewrite covers_nil. split; [inversion 1|done].
  - unfold addresses in *. simpl. rewrite covers_cons, elem_of_app, elem_of_seqZ, IH.
    unfold range_size. intuition lia.
Qed.

Lemma NoDup_addresses lo fr : chain lo fr -> NoDup (addresses fr).
Proof.
  revert lo. induction fr as [|r fr IH]; intros lo; simpl; [constructor|].
  intros (_ & Hr & Hc). unfold addresses. simpl. apply NoDup_app. split_and!.
  - apply NoDup_seqZ.
  - intros a Ha%elem_of_seqZ Hin. apply elem_of_addresses in Hin.
    apply (chain_covers_gt _ _ _ Hc) in Hin. unfold range_size in Ha. lia.
  - by apply (IH (limit r)).
Qed.

Lemma length_addresses fr :
  Forall (fun r => base r <= limit r) fr -> Z.of_nat (length (addresses fr)) = total_size fr.
Proof.
  unfold addresses. induction 1 as [|r fr Hr _ IH]; simpl; [done|].
  rewrite length_app, length_seqZ, total_size_cons, Nat2Z.inj_add, IH. unfold range_size. lia.
Qed.

(** A sorted range list inside another one is no larger. *)
Lemma total_size_le lo fr rs :
  chain lo fr -> Forall range_ok fr -> Forall range_ok rs ->
  (forall a, covers fr a -> covers rs a) -> total_size fr <= total_size rs.
Proof.
  intros Hc Hf Hr Hsub.
  rewrite <-!length_addresses by (eapply Forall_impl; [done|]; unfold range_ok; simpl; lia).
  apply Nat2Z.inj_le, submseteq_length, NoDup_submseteq.
  - eapply NoDup_addresses, Hc.
  - intros a. rewrite !elem_of_addresses. apply Hsub.
Qed.

Lemma total_size_nonneg fr : Forall range_ok fr -> 0 <= total_size fr.
Proof.
  intros H. apply zsum_nonneg. eapply Forall_impl; [done|].
  unfold range_ok, range_size. simpl. lia.
Qed.

Lemma region_range_ok rs : Forall region_ok rs -> Forall range_ok rs.
Proof. intros H. eapply Forall_impl; [done|]. by intros ? [? _]. Qed.
#[export] Hint Resolve region_range_ok : pmm_inv.

Lemma covers_region_bound rs a : Forall region_ok rs -> covers rs a -> 0 < a < 2 ^ 52.
Proof.
  intros H Hc. apply Exists_exists in Hc as (r & Hr & Ha).
  rewrite Forall_forall in H. destruct (H r Hr) as (? & ? & ?). lia.
Qed.

(** ** Allocation *)

Lemma best_fit_spec fr i bytes best best_size :
  Forall range_ok fr ->
  let j := best_fit fr i bytes best best_size in
  (j = best /\ (forall k r, fr !! k = Some r -> bytes <= range_size r -> best_size <= range_size r)) \/
  (exists k r, j = (i + k)%nat /\ fr !! k = Some r /\ bytes <= range_size r < best_size /\
     forall k' r', fr !! k' = Some r' -> bytes <= range_size r' -> range_size r <= range_size r').
Proof.
  intros Hf. revert i best best_size. induction Hf as [|r fr Hr Hf IH]; intros i best bsz; simpl.
  { left. split; [done|]. intros k r Hk. by rewrite lookup_nil in Hk. }
  assert (Hsz : u64 (limit r - base r) = range_size r).
  { apply uwrap_id. unfold fits, range_size, range_ok in *. lia. }
  rewrite Hsz. destruct (Z.leb_spec bytes (range_size r)); simpl;
    [destruct (Z.ltb_spec (range_size r) bsz)|].
  { right. destruct (IH (S i) i (range_size r)) as [[-> Hmin]|(k & r' & -> & Hk & Hb & Hmin)].
    - exists 0%nat, r. split; [lia|]. split; [done|]. split; [lia|].
      intros [|k'] r' Hk'; simpl in Hk'; [simplify_eq; lia|]. eauto.
    - exists (S k), r'. split; [lia|]. split; [done|]. split; [lia|].
      intros [|k'] r'' Hk'; simpl in Hk'; [simplify_eq; lia|]. eauto. }
  all: specialize (IH (S i) best bsz) as [[-> Hmin]|(k & r' & -> & Hk & Hb & Hmin)].
  all: try (left; split; [done|]; intros [|k'] r'' Hk'; simpl in Hk'; simplify_eq; [lia|by eauto]).
  all: right; exists (S k), r'; (split; [lia|]); (split; [done|]); (split; [lia|]).
  all: intros [|k'] r'' Hk'; simpl in Hk'; simplify_eq; try lia; by eauto.
Qed.

Definition in_block (p n a : Z) : Prop := p <= a < p + n * PAGE_SIZE.

Lemma take_front_shape l1 r l2 bytes :
  fits 64 (base r + bytes) ->
  take_front (l1 ++ r :: l2) (length l1) r bytes =
    l1 ++ (if base r + bytes =? limit r then [] else [Range (base r + bytes) (limit r)]) ++ l2.
Proof.
  intros Hf. unfold take_front. rewrite uwrap_id by done.
  destruct (_ =? _); [by rewrite delete_middle|].
  by rewrite insert_app_r_alt, Nat.sub_diag.
Qed.

Lemma take_front_spec fr best r n :
  free_wf fr -> fr !! best = Some r -> 0 < n -> n * PAGE_SIZE <= range_size r ->
  let fr' := take_front fr best r (n * PAGE_SIZE) in
  free_wf fr' /\
  (forall a, covers fr' a <-> covers fr a /\ ~ in_block (base r) n a) /\
  (forall a, in_block (base r) n a -> covers fr a) /\
  total_size fr' = total_size fr - n * PAGE_SIZE.
Proof.
  intros [Hc Hf] Hr Hn Hle fr'. subst fr'.
  apply list_elem_of_split_length in Hr as (l1 & l2 & -> & ->).
  apply chain_app in Hc as [Hc1 (Hc2 & Hc3 & Hc4)].
  apply Forall_app in Hf as [Hf1 [Hr Hf2]%Forall_cons].
  assert (Hok := Hr). destruct Hok as (Hb & Hl & Ha1 & Ha2). unfold range_size in Hle.
  rewrite take_front_shape by (unfold fits, PAGE_SIZE in *; lia).
  assert (Hal : page_aligned (base r + n * PAGE_SIZE)).
  { unfold page_aligned. by rewrite Z.mod_add. }
  assert (D1 : forall a, covers l1 a -> a < base r).
  { intros a Ha. pose proof (chain_covers_gt _ _ _ Hc1 Ha). lia. }
  assert (D2 : forall a, covers l2 a -> limit r < a).
  { intros a Ha. pose proof (chain_covers_gt _ _ _ Hc4 Ha). lia. }
  assert (Hpos : 0 < n * PAGE_SIZE) by (unfold PAGE_SIZE; lia).
  unfold in_block, free_wf, page_aligned in *.
  destruct (Z.eqb_spec (base r + n * PAGE_SIZE) (limit r)) as [Heq|Hne]; split_and!; ranges.
  all: try (specialize (D1 a); specialize (D2 a); intuition lia).
  eapply chain_weaken; [|done]. lia.
Qed.

Lemma max_pages_bytes n : 0 <= n <= max_pages -> u64 (n * PAGE_SIZE) = n * PAGE_SIZE.
Proof.
  change max_pages with 4503599627370495. intros H. apply uwrap_id.
  unfold fits, PAGE_SIZE. lia.
Qed.

Lemma wf_regions_ok s : pmm_wf s -> Forall range_ok (regions s).
Proof. intros H. apply region_range_ok, H. Qed.
#[export] Hint Resolve wf_regions_ok wf_free wf_regions wf_managed : pmm_inv.

Lemma wf_allocated_bounds s : pmm_wf s -> 0 <= allocated_bytes s <= total_usable_ram s.
Proof.
  intros H. destruct (H.(wf_free _)) as [Hc Hf].
  pose proof (total_size_nonneg _ Hf).
  pose proof (total_size_le _ _ _ Hc Hf (wf_regions_ok _ H) (wf_managed _ H)).
  pose proof (wf_balance _ H). pose proof (wf_total _ H). lia.
Qed.

Lemma wf_range_bound s r : pmm_wf s -> r ∈ free s -> 0 < base r < limit r /\ limit r <= 2 ^ 52.
Proof.
  intros H Hr. destruct (wf_free _ H) as [_ Hf]. rewrite Forall_forall in Hf.
  destruct (Hf r Hr) as (? & _).
  assert (Hc : forall a, base r <= a < limit r -> 0 < a < 2 ^ 52).
  { intros a Ha. eapply covers_region_bound; [apply wf_regions, H|]. apply wf_managed; [done|].
    apply Exists_exists. eauto. }
  pose proof (Hc (base r)). pose proof (Hc (limit r - 1)). lia.
Qed.

Lemma note_failure_wf s : pmm_wf s -> pmm_wf (note_failure s).
Proof. intros []. by constructor. Qed.
#[export] Hint Resolve note_failure_wf : pmm_inv.

(** What a successful or failed allocation of [n] pages does to the allocator. *)
Definition alloc_post (s : pmm) (n : Z) (s' : pmm) (p : Z) : Prop :=
  (p = 0 /\ s' = note_failure s /\
     (n = 0 \/ max_pages < n \/ forall r, r ∈ free s -> range_size r < n * PAGE_SIZE)) \/
  (0 < p /\ page_aligned p /\ p + n * PAGE_SIZE <= 2 ^ 52 /\
     (forall a, in_block p n a -> covers (free s) a) /\
     (forall a, covers (free s') a <-> covers (free s) a /\ ~ in_block p n a) /\
     (exists r, r ∈ free s /\ base r = p /\ n * PAGE_SIZE <= range_size r /\
        forall r', r' ∈ free s -> n * PAGE_SIZE <= range_size r' -> range_size r <= range_size r') /\
     allocated_bytes s' = allocated_bytes s + n * PAGE_SIZE).

Lemma pmm_alloc_pages_inv s n s' p :
  pmm_wf s -> 0 <= n -> pmm_alloc_pages s n = (s', p) ->
  pmm_wf s' /\ regions s' = regions s /\ alloc_post s n s' p.
Proof.
  intros Hwf Hn. unfold pmm_alloc_pages, alloc_post.
  destruct (Z.eqb_spec n 0) as [->|Hn0]; simpl.
  { intros [= <- <-]. auto 8 with pmm_inv. }
  destruct (Z.ltb_spec max_pages n); simpl.
  { intros [= <- <-]. auto 9 with pmm_inv. }
  rewrite max_pages_bytes by lia.
  destruct (wf_free _ Hwf) as [Hc Hf].
  destruct (best_fit_spec (free s) 0 (n * PAGE_SIZE) (length (free s)) (2 ^ 64 - 1) Hf)
    as [[-> Hmin]|(k & r & -> & Hk & Hb & Hmin)].
  { rewrite (proj2 (lookup_ge_None (free s) _)) by lia. intros [= <- <-].
    split; [auto with pmm_inv|]. split; [done|]. left. split; [done|]. split; [done|]. do 2 right.
    intros r Hr. destruct (decide (range_size r < n * PAGE_SIZE)) as [|Hge]; [done|].
    pose proof (wf_range_bound s r Hwf Hr).
    apply list_elem_of_lookup in Hr as [k Hk]. specialize (Hmin k r Hk). unfold range_size in *. lia. }
  simpl. rewrite Hk. intros [= <- <-].
  destruct (take_front_spec (free s) k r n (wf_free _ Hwf) Hk) as (W & V & B & Z); [lia|lia|].
  pose proof (wf_allocated_bounds s Hwf). pose proof (wf_total_fits s Hwf). pose proof (wf_balance s Hwf).
  assert (Hin : r ∈ free s) by (apply list_elem_of_lookup; eauto).
  assert (Hle : n * PAGE_SIZE <= total_size (free s)).
  { destruct W as [_ W]. pose proof (total_size_nonneg _ W). lia. }
  assert (Hnew : u64 (allocated_bytes s + n * PAGE_SIZE) = allocated_bytes s + n * PAGE_SIZE).
  { apply uwrap_id. unfold fits, PAGE_SIZE in *. lia. }
  rewrite Hnew. split; [|split; [done|right]].
  - constructor; simpl; auto using wf_regions, wf_total; [|lia].
    intros a [Ha _]%V. by apply wf_managed.
  - pose proof (wf_range_bound s r Hwf Hin).
    rewrite Forall_forall in Hf. destruct (Hf r Hin) as (_ & _ & ? & _).
    unfold range_size in *. split_and!; auto; [lia|lia|].
    exists r. split_and!; auto; [unfold range_size; lia|].
    intros r' Hr' Hfit. apply list_elem_of_lookup in Hr' as [k' Hk']. eauto.
Qed.

(** What [pmm_free_pages] does. *)
Definition free_post (s : pmm) (p n : Z) (s' : pmm) (rc : Z) : Prop :=
  (rc = -1 /\ s' = s) \/
  (rc = 0 /\ page_aligned p /\ 0 < n /\
     (forall a, in_block p n a -> covers (regions s) a /\ ~ covers (free s) a) /\
     (forall a, covers (free s') a <-> covers (free s) a \/ in_block p n a) /\
     allocated_bytes s' = allocated_bytes s - n * PAGE_SIZE).

(** The caller passes a 64-bit address and a [size_t] count. *)
Lemma free_checks s p n :
  0 <= p -> 0 <= n -> page_aligned p -> 0 < n <= max_pages -> p + n * PAGE_SIZE < 2 ^ 64 ->
  pmm_free_pages s p n =
    let e := p + n * PAGE_SIZE in
    if negb (pmm_managed_range s p e) then (s, -1)
    else if existsb (fun r => range_overlaps p e (base r) (limit r)) (free s) then (s, -1)
    else match pmm_insert_free_range (free s) p e with
         | None => (s, -1)
         | Some fr =>
             (Pmm (regions s) fr (total_usable_ram s)
               (if n * PAGE_SIZE <=? allocated_bytes s then allocated_bytes s - n * PAGE_SIZE else 0)
               (peak_allocated_bytes s) (allocation_count s) (u64 (free_count s + 1))
               (failed_allocations s), 0)
         end.
Proof.
  intros Hp Hn Ha Hm Hend. unfold pmm_free_pages.
  change (PAGE_SIZE - 1) with (2 ^ 12 - 1). rewrite has_low_iff by lia.
  change (2 ^ 12) with PAGE_SIZE. rewrite Ha. simpl.
  destruct (Z.eqb_spec n 0); [lia|]. simpl. destruct (Z.ltb_spec max_pages n); [lia|].
  rewrite max_pages_bytes by lia. rewrite uwrap_id by (unfold fits, PAGE_SIZE in *; lia).
  destruct (Z.ltb_spec (p + n * PAGE_SIZE) p); [unfold PAGE_SIZE in *; lia|]. done.
Qed.

Lemma pmm_managed_range_spec s b e :
  pmm_managed_range s b e = true <-> exists r, r ∈ regions s /\ base r <= b /\ e <= limit r.
Proof.
  unfold pmm_managed_range. rewrite existsb_exists.
  split; intros (r & Hr & H); exists r; (split; [by apply list_elem_of_In|lia]).
Qed.

Lemma overlaps_spec fr b e :
  Forall range_ok fr -> b < e ->
  existsb (fun r => range_overlaps b e (base r) (limit r)) fr = false <->
  forall a, b <= a < e -> ~ covers fr a.
Proof.
  intros Hf Hbe. induction Hf as [|r fr Hr Hf IH]; simpl.
  { split; [|done]. intros _ a _ Hc. by apply covers_nil in Hc. }
  rewrite orb_false_iff, IH. unfold range_overlaps, range_ok in *.
  rewrite andb_false_iff, !Z.ltb_ge. split.
  - intros [H1 H2] a Ha [Hc|Hc]%covers_cons; [lia|]. by apply (H2 a).
  - intros H. split.
    + destruct (decide (limit r <= b \/ e <= base r)); [lia|]. exfalso.
      apply (H (Z.max b (base r))); [lia|]. apply covers_cons. lia.
    + intros a Ha Hc. apply (H a Ha). apply covers_cons. auto.
Qed.

(** Everything the allocator never hands out stays put: a refused release
    changes nothing, an accepted one returns exactly the block. *)
Lemma pmm_free_pages_inv s p n s' rc :
  pmm_wf s -> fits 64 p -> 0 <= n -> pmm_free_pages s p n = (s', rc) ->
  pmm_wf s' /\ regions s' = regions s /\ free_post s p n s' rc.
Proof.
  intros Hwf Hp Hn. unfold free_post.
  destruct (decide (page_aligned p /\ 0 < n <= max_pages /\ p + n * PAGE_SIZE < 2 ^ 64))
    as [(Ha & Hm & He)|Hbad].
  2:{ enough (pmm_free_pages s p n = (s, -1)) as -> by (intros [= <- <-]; auto).
      unfold pmm_free_pages. change (PAGE_SIZE - 1) with (2 ^ 12 - 1).
      rewrite has_low_iff by lia. change (2 ^ 12) with PAGE_SIZE.
      destruct (Z.eqb_spec n 0); [done|]. simpl.
      destruct (Z.eqb_spec (p mod PAGE_SIZE) 0); [|done]. simpl.
      destruct (Z.ltb_spec max_pages n); [done|]. rewrite max_pages_bytes by lia.
      assert (Hover : 2 ^ 64 <= p + n * PAGE_SIZE).
      { destruct (decide (2 ^ 64 <= p + n * PAGE_SIZE)); [done|]. exfalso. apply Hbad.
        unfold page_aligned. lia. }
      change max_pages with 4503599627370495 in *.
      apply (uwrap_add_lt 64 p (n * PAGE_SIZE)) in Hover;
        [|done|done|unfold fits, PAGE_SIZE; lia].
      destruct (Z.ltb_spec (u64 (p + n * PAGE_SIZE)) p); [done|lia]. }
  rewrite free_checks by first [done | unfold fits in *; lia]. cbv zeta.
  destruct (pmm_managed_range s p (p + n * PAGE_SIZE)) eqn:Hman; simpl; [|intros [= <- <-]; auto].
  apply pmm_managed_range_spec in Hman as (g & Hg & Hg1 & Hg2).
  destruct (existsb _ _) eqn:Hov; [intros [= <- <-]; auto|].
  destruct (wf_free _ Hwf) as [Hc Hf].
  assert (0 < n * PAGE_SIZE) by (unfold PAGE_SIZE; lia).
  rewrite overlaps_spec in Hov by (done || lia).
  destruct (pmm_insert_free_range _ _ _) as [fr|] eqn:Hi; [|intros [= <- <-]; auto].
  intros [= <- <-].
  assert (Hr : range_ok (Range p (p + n * PAGE_SIZE))).
  { unfold range_ok, page_aligned, fits in *; simpl. rewrite Z.mod_add by done.
    split_and!; auto; lia. }
  destruct (pmm_insert_spec _ _ _ _ (wf_free _ Hwf) Hr Hi) as (W & V & Z).
  assert (Hcov : forall a, in_block p n a -> covers (regions s) a).
  { intros a Hin. apply Exists_exists. exists g. split; [done|]. unfold in_block in Hin. lia. }
  assert (Hin : forall a, covers fr a -> covers (regions s) a).
  { intros a [Hca|Hb]%V; [by apply wf_managed|by apply Hcov]. }
  pose proof (total_size_le _ _ _ (proj1 W) (proj2 W) (wf_regions_ok _ Hwf) Hin) as Hle.
  pose proof (wf_balance s Hwf). pose proof (wf_total s Hwf).
  assert (Hge : n * PAGE_SIZE <= allocated_bytes s) by lia.
  apply Z.leb_le in Hge as ->.
  split; [|split; [done|right]].
  - constructor; simpl; auto using wf_regions, wf_total, wf_total_fits. lia.
  - split_and!; auto; lia.
Qed.

(** With in-range arguments, success is the conjunction of the three tests. *)
Lemma free_accept_iff s p n :
  pmm_wf s -> 0 <= p -> page_aligned p -> 0 < n -> p + n * PAGE_SIZE <= 2 ^ 52 ->
  snd (pmm_free_pages s p n) = 0 <->
  (exists r, r ∈ regions s /\ base r <= p /\ p + n * PAGE_SIZE <= limit r) /\
  (forall a, in_block p n a -> ~ covers (free s) a) /\
  (length (free s) < PMM_MAX_FREE_RANGES)%nat.
Proof.
  intros Hwf Hp Ha Hn Hle. destruct (wf_free _ Hwf) as [_ Hf].
  assert (Hbytes : 0 < n * PAGE_SIZE) by (unfold PAGE_SIZE; lia).
  rewrite free_checks
    by first [done | change max_pages with 4503599627370495; unfold PAGE_SIZE in *; lia].
  cbv zeta. rewrite <-pmm_managed_range_spec.
  destruct (pmm_managed_range _ _ _); simpl; [|intuition congruence].
  unfold in_block. rewrite <-(overlaps_spec (free s) p (p + n * PAGE_SIZE)) by (done || lia).
  destruct (existsb _ _) eqn:Hov; simpl; [intuition congruence|].
  rewrite overlaps_spec in Hov by (done || lia).
  assert (Hro : range_ok (Range p (p + n * PAGE_SIZE))).
  { unfold range_ok, page_aligned in *; simpl. rewrite Z.mod_add by done. split_and!; auto; lia. }
  pose proof (pmm_insert_Some_iff (free s) p (p + n * PAGE_SIZE) (wf_free _ Hwf) Hro) as Hiff.
  destruct (pmm_insert_free_range _ _ _) as [fr|]; simpl.
  - destruct (proj1 Hiff) as [? ?]; [by eexists|]. tauto.
  - split; [done|]. intros (_ & _ & H2). destruct (proj2 Hiff) as [? ?]; [auto|done].
Qed.

(** ** Properties *)


(** C2. Release, errors included.  [pmm_free_pages] succeeds exactly when the
    address is page aligned, the count positive, the block lies inside one
    managed region, overlaps no free range (so double frees are refused) and the
    range table has room; then exactly the block becomes free and its bytes are
    credited.  Otherwise it returns -1 and changes nothing. *)
Theorem pmm_free_pages_correct s p n s' rc :
  pmm_wf s -> fits 64 p -> 0 <= n -> pmm_free_pages s p n = (s', rc) ->
  pmm_wf s' /\ free_post s p n s' rc /\
  (rc = 0 <-> page_aligned p /\ 0 < n /\
     (exists r, r ∈ regions s /\ base r <= p /\ p + n * PAGE_SIZE <= limit r) /\
     (forall a, in_block p n a -> ~ covers (free s) a) /\
     (length (free s) < PMM_MAX_FREE_RANGES)%nat).
Proof.
  intros Hwf Hp Hn Hfree. destruct (pmm_free_pages_inv _ _ _ _ _ Hwf Hp Hn Hfree) as (Hwf' & _ & Hpost).
  split; [done|]. split; [done|].
  assert (Hrc : snd (pmm_free_pages s p n) = rc) by by rewrite Hfree.
  unfold fits in Hp. split.
  - intros ->. destruct Hpost as [[? _]|(_ & Ha & Hn' & Hcov & _)]; [done|].
    assert (p + n * PAGE_SIZE - 1 < 2 ^ 52).
    { eapply covers_region_bound; [apply Hwf|]. apply Hcov. unfold in_block, PAGE_SIZE. lia. }
    apply free_accept_iff in Hrc; [tauto|done|lia|done|done|lia].
  - intros (Ha & Hn' & Hman & Hd & Hlen). rewrite <-Hrc.
    destruct Hman as (r & Hr & Hr1 & Hr2).
    assert (limit r <= 2 ^ 52).
    { pose proof (wf_regions s Hwf) as H. rewrite Forall_forall in H. by apply H. }
    apply free_accept_iff; [done|lia|done|done|lia|]. split; [by exists r|done].
Qed.

(** *** Blocks in flight *)

(** Callers' view: the blocks handed out and not yet given back. *)
Definition block_of (b : Z * Z) (a : Z) : Prop := in_block b.1 b.2 a.

(** One allocator call by some client: it asks for pages, or gives back a block
    it owns (whether or not the release is accepted, it stops using it). *)
Inductive pmm_step : pmm * list (Z * Z) -> pmm * list (Z * Z) -> Prop :=
| step_alloc s own n s' p :
    0 <= n -> pmm_alloc_pages s n = (s', p) ->
    pmm_step (s, own) (s', if p =? 0 then own else (p, n) :: own)
| step_free s own1 own2 p n s' rc :
    pmm_free_pages s p n = (s', rc) ->
    pmm_step (s, own1 ++ (p, n) :: own2) (s', own1 ++ own2).

Definition pmm_steps := rtc pmm_step.

(** Outstanding blocks are managed memory, not free, and pairwise disjoint. *)
Record own_ok (s : pmm) (own : list (Z * Z)) : Prop := OwnOk {
  own_bounds : Forall (fun b => fits 64 b.1 /\ 0 <= b.2) own;
  own_taken : Forall (fun b => forall a, block_of b a ->
                covers (regions s) a /\ ~ covers (free s) a) own;
  own_disjoint : StronglySorted (fun b c => forall a, ~ (block_of b a /\ block_of c a)) own
}.

Lemma own_ok_alloc s own n s' p :
  pmm_wf s -> own_ok s own -> 0 <= n -> pmm_alloc_pages s n = (s', p) ->
  own_ok s' (if p =? 0 then own else (p, n) :: own).
Proof.
  intros Hwf [Hb Ht Hd] Hn Ha.
  destruct (pmm_alloc_pages_inv _ _ _ _ Hwf Hn Ha) as (_ & Hreg & [(-> & -> & _)|
    (Hp & Hal & Hle & Hin & Hfr & _ & _)]); [by constructor|].
  destruct (Z.eqb_spec p 0) as [|_]; [lia|].
  assert (Ht' : Forall (fun b => forall a, block_of b a ->
                  covers (regions s') a /\ ~ covers (free s') a) own).
  { eapply Forall_impl; [exact Ht|]. intros b Hcov a Hba. rewrite Hreg, Hfr.
    destruct (Hcov a Hba). tauto. }
  constructor; [| |].
  - constructor; [|done]. unfold fits, PAGE_SIZE in *. simpl. lia.
  - constructor; [|done]. intros a Hba. rewrite Hreg, Hfr. split; [|tauto].
    by apply wf_managed, Hin.
  - constructor; [done|]. apply Forall_forall. intros c Hc a [Hpa Hca].
    rewrite Forall_forall in Ht. destruct (Ht c Hc a Hca) as [_ Hn']. by apply Hn', Hin.
Qed.

Lemma own_ok_free s own1 own2 p n s' rc :
  pmm_wf s -> own_ok s (own1 ++ (p, n) :: own2) -> pmm_free_pages s p n = (s', rc) ->
  pmm_wf s' /\ own_ok s' (own1 ++ own2).
Proof.
  intros Hwf [Hb Ht Hd] Hf.
  apply Forall_app in Hb as [Hb1 [[Hp Hn] Hb2]%Forall_cons].
  apply Forall_app in Ht as [Ht1 [Htp Ht2]%Forall_cons].
  apply StronglySorted_app in Hd as (Hd12 & Hd1 & Hd2).
  apply StronglySorted_inv in Hd2 as [Hd2 Hdp].
  destruct (pmm_free_pages_inv _ _ _ _ _ Hwf Hp Hn Hf) as (Hwf' & Hreg & Hpost).
  split; [done|].
  assert (Hsub : forall a, covers (free s') a -> covers (free s) a \/ block_of (p, n) a).
  { destruct Hpost as [(_ & ->)|(_ & _ & _ & _ & Hfr & _)]; [auto|]. intros a. apply Hfr. }
  constructor.
  - by apply Forall_app.
  - rewrite Forall_forall in Ht1, Ht2, Hdp.
    apply Forall_app; split; apply Forall_forall; intros c Hc a Hca; rewrite Hreg.
    + destruct (Ht1 c Hc a Hca) as [? Hnc]. split; [done|]. intros [?|Hb]%Hsub; [done|].
      eapply (Hd12 c (p, n)); [done|by left|]. eauto.
    + destruct (Ht2 c Hc a Hca) as [? Hnc]. split; [done|]. intros [?|Hb]%Hsub; [done|].
      eapply (Hdp c); eauto.
  - apply StronglySorted_app. split_and!; auto. intros b c Hb Hc. apply Hd12; [done|by right].
Qed.

(** Memory safety of the allocator across every sequence of client calls:
    starting from a well-formed allocator with nothing handed out, the blocks
    outstanding never overlap each other or free memory, always lie in memory
    the allocator manages, and the byte accounting (allocated + free = total)
    stays exact. *)
Theorem pmm_blocks_disjoint s0 s own :
  pmm_wf s0 -> pmm_steps (s0, []) (s, own) -> pmm_wf s /\ own_ok s own.
Proof.
  intros Hwf0 Hsteps.
  enough (forall x y, pmm_steps x y -> pmm_wf x.1 -> own_ok x.1 x.2 -> pmm_wf y.1 /\ own_ok y.1 y.2) as H.
  { apply (H _ _ Hsteps); [done|]. by constructor; constructor. }
  clear. intros x y Hxy. induction Hxy as [x|x y z Hstep _ IH]; [auto|].
  intros Hwf Hown. destruct Hstep as [s own n s' p Hn Ha|s own1 own2 p n s' rc Hf]; apply IH; simpl in *.
  - by apply (pmm_alloc_pages_inv _ _ _ _ Hwf Hn Ha).
  - eauto using own_ok_alloc.
  - eapply own_ok_free; eauto.
  - eapply own_ok_free; eauto.
Qed.

(** *** Allocation followed by release *)

(** The remainder left by an allocation glues back onto the block. *)
Lemma glue_restore l1 r l2 bytes :
  chain (limit r) l2 -> base r + bytes <= limit r ->
  let rest := (if base r + bytes =? limit r then [] else [Range (base r + bytes) (limit r)]) ++ l2 in
  (if match rest with n :: _ => base n <? base r + bytes | [] => false end then None
   else Some (l1 ++ glue_next (Range (base r) (base r + bytes)) rest)) = Some (l1 ++ r :: l2).
Proof.
  intros Hc Hle. destruct r as [b e]. simpl in *.
  destruct (Z.eqb_spec (b + bytes) e) as [->|Hne]; simpl.
  - destruct l2 as [|n l2]; [done|]. destruct Hc as (? & _).
    destruct (Z.ltb_spec (base n) e); [lia|]. simpl.
    by destruct (Z.eqb_spec e (base n)); [lia|].
  - rewrite Z.ltb_irrefl, Z.eqb_refl. done.
Qed.

Lemma take_front_insert fr k r n :
  free_wf fr -> fr !! k = Some r -> 0 < n -> n * PAGE_SIZE <= range_size r -> limit r < 2 ^ 64 ->
  let fr1 := take_front fr k r (n * PAGE_SIZE) in
  (length fr1 < PMM_MAX_FREE_RANGES)%nat ->
  pmm_insert_free_range fr1 (base r) (base r + n * PAGE_SIZE) = Some fr.
Proof.
  intros [Hc Hf] Hk Hn Hsz Hlim fr1 Hlen. subst fr1.
  apply list_elem_of_split_length in Hk as (l1 & l2 & -> & ->).
  apply chain_app in Hc as [Hc1 (Hc2 & Hc3 & Hc4)].
  apply Forall_app in Hf as [Hf1 [Hr Hf2]%Forall_cons]. unfold range_size in Hsz.
  assert (Hb : 0 < n * PAGE_SIZE) by (unfold PAGE_SIZE; lia).
  rewrite take_front_shape in * by (unfold fits, range_ok in *; lia).
  assert (H1 : Forall (fun q => base q < base r) l1).
  { apply Forall_forall. intros q Hq.
    assert (Hcov : covers l1 (base q)).
    { apply Exists_exists. exists q. rewrite Forall_forall in Hf1. destruct (Hf1 q Hq). split; [done|lia]. }
    pose proof (chain_covers_gt _ _ _ Hc1 Hcov). lia. }
  rewrite pmm_insert_shape; [|done|].
  2:{ intros q l. destruct (_ =? _); simpl; [|intros [= <- _]; simpl; lia].
      intros ->. destruct Hc4. lia. }
  destruct (Z.leb_spec (base r + n * PAGE_SIZE) (base r)); [lia|]. simpl.
  rewrite bool_decide_eq_false_2 by lia.
  unfold glue_prev. simpl.
  assert (Hlast : match last l1 with Some q => limit q < base r | None => True end).
  { destruct l1 as [|q l1 _] using rev_ind; [done|]. rewrite last_snoc. by rewrite chain_end_app in Hc2. }
  destruct (last l1) as [q|].
  - destruct (Z.ltb_spec (base r) (limit q)); [lia|]. destruct (Z.eqb_spec (limit q) (base r)); [lia|].
    apply (glue_restore l1 r l2 (n * PAGE_SIZE)); [done|lia].
  - apply (glue_restore l1 r l2 (n * PAGE_SIZE)); [done|lia].
Qed.

Lemma alloc_takes_front s n s1 p :
  pmm_wf s -> 0 <= n -> pmm_alloc_pages s n = (s1, p) -> p <> 0 ->
  exists k r, free s !! k = Some r /\ p = base r /\ 0 < n /\ n * PAGE_SIZE <= range_size r /\
    free s1 = take_front (free s) k r (n * PAGE_SIZE).
Proof.
  intros Hwf Hn Ha Hp. unfold pmm_alloc_pages in Ha.
  destruct (Z.eqb_spec n 0) as [|Hn0]; simpl in Ha; [congruence|].
  destruct (Z.ltb_spec max_pages n) as [|Hmax]; simpl in Ha; [congruence|].
  rewrite max_pages_bytes in Ha by lia.
  destruct (free s !! _) as [r|] eqn:Hk; [|congruence].
  injection Ha as <- <-. do 2 eexists. split; [exact Hk|]. split_and!; [done|lia| |done].
  destruct (best_fit_spec (free s) 0 (n * PAGE_SIZE) (length (free s)) (2 ^ 64 - 1))
    as [[Hj _]|(k & r' & Hj & Hk' & Hb & _)]; [apply Hwf| |]; rewrite Hj in Hk.
  - rewrite (proj2 (lookup_ge_None (free s) _)) in Hk by lia. done.
  - simpl in Hk. simplify_eq. lia.
Qed.

(** Allocation followed by release is the identity on the free list: if the
    block lies in a single region and the table is not full after the
    allocation, [pmm_free_pages] accepts the block back, coalescing rebuilds the
    very same list of ranges, and the byte accounting returns to its old value. *)
Theorem pmm_alloc_free_roundtrip s n s1 p :
  pmm_wf s -> 0 <= n -> pmm_alloc_pages s n = (s1, p) -> p <> 0 ->
  (length (free s1) < PMM_MAX_FREE_RANGES)%nat ->
  (exists g, g ∈ regions s /\ base g <= p /\ p + n * PAGE_SIZE <= limit g) ->
  exists s2, pmm_free_pages s1 p n = (s2, 0) /\ free s2 = free s /\
    regions s2 = regions s /\ allocated_bytes s2 = allocated_bytes s.
Proof.
  intros Hwf Hn Ha Hp Hlen Hg.
  destruct (pmm_alloc_pages_inv _ _ _ _ Hwf Hn Ha) as
    (Hwf1 & Hreg & [(-> & _)|(Hp0 & Hal & Hle & Hin & Hfr & _ & Hall)]); [done|].
  destruct (alloc_takes_front _ _ _ _ Hwf Hn Ha Hp) as (k & r & Hk & -> & Hn0 & Hsz & Hs1).
  assert (Hr : r ∈ free s) by (apply list_elem_of_lookup; eauto).
  pose proof (wf_range_bound s r Hwf Hr) as Hrb.
  assert (Hins : pmm_insert_free_range (free s1) (base r) (base r + n * PAGE_SIZE) = Some (free s)).
  { rewrite Hs1 in *. apply take_front_insert; auto with pmm_inv; lia. }
  destruct (pmm_free_pages s1 (base r) n) as [s2 rc] eqn:Hf.
  assert (Hrc : rc = 0).
  { change rc with (s2, rc).2. rewrite <-Hf. apply free_accept_iff; [done|lia|done|lia|done|].
    rewrite Hreg. split; [done|]. split; [|done]. intros a Hba Hc. by apply Hfr in Hc as [_ ?]. }
  subst rc. exists s2. split; [done|].
  assert (H64 : fits 64 (base r)) by (unfold fits; lia).
  destruct (pmm_free_pages_inv _ _ _ _ _ Hwf1 H64 Hn Hf) as (_ & Hreg2 & [[? _]|Hpost]); [done|].
  split; [|split; [congruence|]].
  - rewrite free_checks in Hf
      by first [done|change max_pages with 4503599627370495; unfold PAGE_SIZE in *; lia].
    cbv zeta in Hf.
    rewrite Hins in Hf. destruct (negb _); [done|]. destruct (existsb _ _); [done|].
    by injection Hf as <-.
  - destruct Hpost as (_ & _ & _ & _ & _ & ->). lia.
Qed.

(** *** Initialisation *)

Definition usable (e : memmap_entry) : bool := e_type e =? LIMINE_MEMMAP_USABLE.

(** What the Limine protocol guarantees about usable entries: sorted by base,
    disjoint, never below the first page, inside physical memory. *)
Fixpoint memmap_ok (lo : Z) (es : list memmap_entry) : Prop :=
  match es with
  | [] => True
  | e :: es' =>
      if usable e
      then lo <= e_base e /\ 0 <= e_length e /\ e_base e + e_length e <= 2 ^ 52 /\
           memmap_ok (e_base e + e_length e) es'
      else memmap_ok lo es'
  end.

(** The whole pages inside a usable entry. *)
Definition whole_pages (e : memmap_entry) : option range :=
  let b := (e_base e + (PAGE_SIZE - 1)) / PAGE_SIZE * PAGE_SIZE in
  let l := (e_base e + e_length e) / PAGE_SIZE * PAGE_SIZE in
  if usable e && (b <? l) then Some (Range b l) else None.

(** Regions in increasing order, possibly touching. *)
Fixpoint wchain (lo : Z) (rs : list range) : Prop :=
  match rs with
  | [] => True
  | r :: rs' => lo <= base r /\ base r < limit r /\ wchain (limit r) rs'
  end.

Lemma wchain_weaken lo lo' rs : lo' <= lo -> wchain lo rs -> wchain lo' rs.
Proof. destruct rs; simpl; intuition lia. Qed.

Lemma page_up_spec x : 0 <= x <= 2 ^ 52 ->
  page_up x = (x + (PAGE_SIZE - 1)) / PAGE_SIZE * PAGE_SIZE.
Proof.
  intros H. unfold page_up. rewrite <-Z.add_sub_assoc, uwrap_id by (unfold fits, PAGE_SIZE; lia).
  change (Z.lnot (PAGE_SIZE - 1)) with (Z.lnot (2 ^ 12 - 1)).
  rewrite land_clear_low by (unfold fits, PAGE_SIZE; lia). change (2 ^ 12) with PAGE_SIZE.
  pose proof (Z.div_mod (x + (PAGE_SIZE - 1)) PAGE_SIZE). unfold PAGE_SIZE in *. lia.
Qed.

Lemma page_down_spec x : 0 <= x <= 2 ^ 52 -> page_down x = x / PAGE_SIZE * PAGE_SIZE.
Proof.
  intros H. unfold page_down. change (PAGE_SIZE - 1) with (2 ^ 12 - 1).
  rewrite land_clear_low by (unfold fits; lia). change (2 ^ 12) with PAGE_SIZE.
  pose proof (Z.div_mod x PAGE_SIZE). unfold PAGE_SIZE in *. lia.
Qed.

Lemma whole_pages_ok lo e r :
  usable e = true -> PAGE_SIZE <= lo -> lo <= e_base e -> 0 <= e_length e ->
  e_base e + e_length e <= 2 ^ 52 -> whole_pages e = Some r ->
  region_ok r /\ e_base e <= base r /\ limit r <= e_base e + e_length e.
Proof.
  unfold whole_pages, region_ok, range_ok, page_aligned. intros -> Hlo Hb Hl Hend. simpl.
  destruct (Z.ltb_spec ((e_base e + (PAGE_SIZE - 1)) / PAGE_SIZE * PAGE_SIZE)
             ((e_base e + e_length e) / PAGE_SIZE * PAGE_SIZE)); intros [= <-]; simpl.
  rewrite !Z.mod_mul by done.
  pose proof (Z.div_mod (e_base e + (PAGE_SIZE - 1)) PAGE_SIZE).
  pose proof (Z.mod_pos_bound (e_base e + (PAGE_SIZE - 1)) PAGE_SIZE).
  pose proof (Z.div_mod (e_base e + e_length e) PAGE_SIZE).
  pose proof (Z.mod_pos_bound (e_base e + e_length e) PAGE_SIZE).
  unfold PAGE_SIZE in *. lia.
Qed.

Lemma wchain_whole_pages lo es :
  PAGE_SIZE <= lo -> memmap_ok lo es ->
  wchain lo (omap whole_pages es) /\ Forall region_ok (omap whole_pages es).
Proof.
  revert lo. induction es as [|e es IH]; intros lo Hlo Hok; simpl in *; [by split|].
  destruct (usable e) eqn:Hu.
  - destruct Hok as (Hb & Hl & Hend & Hok).
    destruct (IH (e_base e + e_length e)) as [Hw Hf]; [lia|done|].
    destruct (whole_pages e) as [r|] eqn:Hp; simpl.
    + destruct (whole_pages_ok lo e r) as (Hr & H1 & H2); auto.
      destruct Hr as ((? & ?) & ? & ?).
      split; [|by constructor]. split; [lia|]. split; [lia|].
      eapply wchain_weaken; [|exact Hw]. lia.
    + split; [|done]. eapply wchain_weaken; [|exact Hw]. lia.
  - unfold whole_pages. rewrite Hu. simpl. by apply IH.
Qed.

Arguments add_region : simpl never.

Lemma add_region_fold lo es rs total :
  PAGE_SIZE <= lo -> memmap_ok lo es ->
  (length rs <= PMM_MAX_REGIONS)%nat -> Forall range_ok rs -> total = u64 (total_size rs) ->
  foldl add_region (rs, total) es =
    let rs' := take PMM_MAX_REGIONS (rs ++ omap whole_pages es) in (rs', u64 (total_size rs')).
Proof.
  revert lo rs total. induction es as [|e es IH]; intros lo rs total Hlo Hok Hlen Hrs Ht; simpl.
  { rewrite app_nil_r, take_ge by done. by subst. }
  unfold add_region at 2. simpl in Hok. cbv zeta. fold (usable e). destruct (usable e) eqn:Hu; simpl.
  2:{ unfold whole_pages. rewrite Hu. simpl. by eapply IH. }
  destruct Hok as (Hb & Hl & Hend & Hok). unfold PAGE_SIZE in Hlo.
  case_bool_decide as Hfull.
  { rewrite (IH (e_base e + e_length e)); [|unfold PAGE_SIZE; lia|done|done|done|done].
    by rewrite !take_app_le by lia. }
  rewrite uwrap_id by (unfold fits; lia).
  destruct (Z.ltb_spec (e_base e + e_length e) (e_base e)); [lia|].
  rewrite page_up_spec, page_down_spec by lia.
  unfold whole_pages. rewrite Hu. simpl.
  destruct (Z.leb_spec ((e_base e + e_length e) / PAGE_SIZE * PAGE_SIZE)
    ((e_base e + (PAGE_SIZE - 1)) / PAGE_SIZE * PAGE_SIZE)) as [Hle|Hgt].
  - rewrite (proj2 (Z.ltb_ge _ _)) by done. eapply IH; [|done..]. unfold PAGE_SIZE; lia.
  - rewrite (proj2 (Z.ltb_lt _ _)) by done. simpl.
    destruct (whole_pages_ok lo e (Range ((e_base e + (PAGE_SIZE - 1)) / PAGE_SIZE * PAGE_SIZE)
      ((e_base e + e_length e) / PAGE_SIZE * PAGE_SIZE))) as ([Hr _] & _); auto; try lia.
    { unfold whole_pages. rewrite Hu. simpl. by rewrite (proj2 (Z.ltb_lt _ _)). }
    rewrite (IH (e_base e + e_length e)); [|unfold PAGE_SIZE; lia|done| | |].
    + by rewrite <-app_assoc.
    + rewrite length_app. simpl. lia.
    + apply Forall_app. split; [done|by constructor].
    + subst total. rewrite total_size_app, total_size_cons, total_size_nil. simpl.
      unfold uwrap. rewrite Z.add_mod_idemp_l by done. f_equal. lia.
Qed.

Lemma pmm_insert_length fr b e fr' :
  pmm_insert_free_range fr b e = Some fr' -> (length fr' <= S (length fr))%nat.
Proof.
  destruct (split_at_base fr b) as (l1 & l2 & -> & _ & H1 & H2).
  rewrite (pmm_insert_shape _ _ _ _ H1 H2). destruct (_ || _); [done|].
  destruct (match last l1 with Some _ => _ | None => _ end); [done|].
  destruct (match l2 with [] => _ | _ :: _ => _ end); [done|].
  assert (Hg : (length (glue_prev l1 (Range b e)).1 <= length l1)%nat).
  { unfold glue_prev. destruct l1 as [|q l1 _] using rev_ind; [done|]. rewrite last_snoc.
    destruct (_ =? _); simpl; [|done]. rewrite removelast_last, length_app. simpl. lia. }
  destruct (glue_prev l1 (Range b e)) as [l1' x]. intros [= <-]. simpl in Hg.
  rewrite !length_app. enough (length (glue_next x l2) <= S (length l2))%nat by lia.
  destruct l2; simpl; [done|]. by destruct (_ =? _); simpl; lia.
Qed.

(** Inserting sorted disjoint regions never fails and covers exactly them. *)
Lemma insert_regions rs fr lo :
  free_wf fr -> (forall a, covers fr a -> a < lo) -> wchain lo rs -> Forall range_ok rs ->
  (length fr + length rs < PMM_MAX_FREE_RANGES)%nat ->
  let fr' := foldl (fun fr r => default fr (pmm_insert_free_range fr (base r) (limit r))) fr rs in
  free_wf fr' /\ (forall a, covers fr' a <-> covers fr a \/ covers rs a) /\
  total_size fr' = total_size fr + total_size rs.
Proof.
  revert fr lo. induction rs as [|r rs IH]; intros fr lo Hwf Hlt Hw Hok Hlen; simpl.
  { split; [done|]. split; [|rewrite total_size_nil; lia]. intros a. rewrite covers_nil. tauto. }
  destruct Hw as (Hlo & Hr & Hw). apply Forall_cons in Hok as [Hrok Hok].
  destruct r as [b e]. simpl in *.
  assert (Hs : is_Some (pmm_insert_free_range fr b e)).
  { apply pmm_insert_Some_iff; [done..|]. split; [lia|]. intros a Ha Hc%Hlt. lia. }
  destruct Hs as [fr1 Hs]. rewrite Hs. simpl.
  destruct (pmm_insert_spec _ _ _ _ Hwf Hrok Hs) as (Hwf1 & Hcov & Hsz).
  apply pmm_insert_length in Hs.
  destruct (IH fr1 e Hwf1) as (Hwf' & Hcov' & Hsz'); [|done|done|lia|].
  { intros a [Hc%Hlt|Hc]%Hcov; lia. }
  split; [done|]. split.
  - intros a. rewrite Hcov', Hcov, covers_cons. simpl. tauto.
  - rewrite Hsz', Hsz, total_size_cons. simpl. lia.
Qed.

Lemma wchain_total lo rs : wchain lo rs -> Forall region_ok rs -> lo <= 2 ^ 52 ->
  0 <= total_size rs <= 2 ^ 52 - lo.
Proof.
  intros Hw Hf. revert lo Hw. induction Hf as [|r rs [? [? ?]] Hf IH]; simpl; intros lo Hw Hlo.
  - rewrite total_size_nil. lia.
  - destruct Hw as (? & ? & Hw). specialize (IH _ Hw). rewrite total_size_cons. lia.
Qed.

Lemma wchain_take lo rs k : wchain lo rs -> wchain lo (take k rs).
Proof. revert lo k; induction rs; intros lo [|k]; simpl; intuition eauto. Qed.

(** The regions of a memory map: the whole pages of its first 64 usable entries
    that contain one, or the fixed fallback. *)
Definition managed_regions (es : list memmap_entry) : list range :=
  match take PMM_MAX_REGIONS (omap whole_pages es) with
  | [] => [fallback_region]
  | r :: rs => r :: rs
  end.

Lemma managed_regions_ok lo es :
  PAGE_SIZE <= lo -> memmap_ok lo es ->
  wchain PAGE_SIZE (managed_regions es) /\ Forall region_ok (managed_regions es) /\
  (length (managed_regions es) <= PMM_MAX_REGIONS)%nat.
Proof.
  intros Hlo Hok. unfold managed_regions. destruct (wchain_whole_pages _ _ Hlo Hok) as [Hw Hf].
  apply (wchain_take _ _ PMM_MAX_REGIONS) in Hw. apply (Forall_take _ PMM_MAX_REGIONS) in Hf.
  pose proof (length_take (omap whole_pages es) PMM_MAX_REGIONS).
  destruct (take _ _) as [|r rs].
  - split_and!; [simpl; unfold PAGE_SIZE; lia| |simpl; unfold PMM_MAX_REGIONS; lia].
    constructor; [|done]. unfold region_ok, range_ok, page_aligned. simpl. by split_and!.
  - split_and!; [|done|lia]. eapply wchain_weaken; [|exact Hw]. done.
Qed.

Lemma pmm_init_inv es :
  memmap_ok PAGE_SIZE es ->
  let s := pmm_init (Some es) in
  pmm_wf s /\ regions s = managed_regions es /\
  (forall a, covers (free s) a <-> covers (regions s) a) /\ allocated_bytes s = 0.
Proof.
  intros Hok.
  destruct (managed_regions_ok PAGE_SIZE es) as (Hw & Hf & Hlen); [done|done|].
  destruct (wchain_total _ _ Hw Hf) as [Ht0 Ht1]; [done|].
  destruct (insert_regions (managed_regions es) [] PAGE_SIZE) as (Hwf & Hcov & Hsz); auto with pmm_inv.
  { by split; constructor. }
  { intros a Ha. by apply covers_nil in Ha. }
  { unfold PMM_MAX_FREE_RANGES, PMM_MAX_REGIONS in *. cbn [length]. lia. }
  rewrite total_size_nil in Hsz.
  assert (Hinit : pmm_init (Some es) = Pmm (managed_regions es)
    (foldl (fun fr r => default fr (pmm_insert_free_range fr (base r) (limit r))) []
       (managed_regions es)) (total_size (managed_regions es)) 0 0 0 0 0).
  { unfold pmm_init. simpl.
    rewrite (add_region_fold PAGE_SIZE) by (done || apply Forall_nil_2 || (simpl; lia)).
    unfold managed_regions in *. simpl.
    destruct (take _ _); [done|]. rewrite uwrap_id; [done|].
    split; [exact Ht0|]. eapply Z.le_lt_trans; [exact Ht1|]. done. }
  rewrite Hinit. split; [|split_and!; [done| |done]].
  - constructor; simpl; auto.
    1: intros a [Ha|]%Hcov; [by apply covers_nil in Ha|done].
    all: unfold PAGE_SIZE in *; lia.
  - simpl. intros a. rewrite Hcov, covers_nil. tauto.
Qed.

(** Boot.  From any memory map obeying the Limine protocol, [pmm_init]
    builds a well-formed allocator managing exactly the whole pages of the
    first 64 usable entries that contain one (a fixed 2 MiB region when there
    are none), all of them free and none charged. *)
Theorem pmm_init_correct es :
  memmap_ok PAGE_SIZE es ->
  let s := pmm_init (Some es) in
  pmm_wf s /\ regions s = managed_regions es /\
  (forall a, covers (free s) a <-> covers (regions s) a) /\ allocated_bytes s = 0.
Proof. apply pmm_init_inv. Qed.

(** ** Witnesses on a concrete machine *)

(** Two usable entries around a reserved one. *)
Definition demo_map : list memmap_entry :=
  [MemmapEntry 0x1000 0x4000 0; MemmapEntry 0x5000 0x1000 1; MemmapEntry 0x6000 0x2800 0].

Definition demo_pmm : pmm := pmm_init (Some demo_map).

Lemma demo_map_ok : memmap_ok PAGE_SIZE demo_map.
Proof. unfold PAGE_SIZE. simpl. lia. Qed.

Lemma demo_pmm_wf : pmm_wf demo_pmm.
Proof. apply pmm_init_inv, demo_map_ok. Qed.
#[export] Hint Resolve demo_map_ok demo_pmm_wf : pmm_inv.


Lemma pmm_free_pages_correct_witness :
  let s := fst (pmm_alloc_pages demo_pmm 1) in
  pmm_wf (fst (pmm_free_pages s 0x6000 1)) /\ snd (pmm_free_pages s 0x6000 1) = 0 /\
  snd (pmm_free_pages demo_pmm 0x6000 1) = -1.
Proof.
  set (s := fst (pmm_alloc_pages demo_pmm 1)).
  assert (Hs : pmm_wf s).
  { apply (pmm_alloc_pages_inv demo_pmm 1 _ 0x6000); [apply demo_pmm_wf|lia|reflexivity]. }
  split; [|split; reflexivity].
  apply (pmm_free_pages_correct s 0x6000 1 _ 0);
    [exact Hs|unfold fits; lia|lia|reflexivity].
Defined.

Lemma pmm_blocks_disjoint_witness :
  let s1 := fst (pmm_alloc_pages demo_pmm 1) in
  let s2 := fst (pmm_alloc_pages s1 3) in
  let s3 := fst (pmm_free_pages s2 0x6000 1) in
  pmm_wf s3 /\ own_ok s3 [(0x1000, 3)].
Proof.
  intros s1 s2 s3. apply (pmm_blocks_disjoint demo_pmm); [apply demo_pmm_wf|].
  eapply rtc_l; [apply (step_alloc demo_pmm [] 1 s1 0x6000); [lia|reflexivity]|].
  eapply rtc_l; [apply (step_alloc s1 [(0x6000, 1)] 3 s2 0x1000); [lia|reflexivity]|].
  eapply rtc_l; [apply (step_free s2 [(0x1000, 3)] [] 0x6000 1 s3 0); reflexivity|].
  apply rtc_refl.
Defined.

Lemma pmm_alloc_free_roundtrip_witness :
  exists s2, pmm_free_pages (fst (pmm_alloc_pages demo_pmm 2)) 0x6000 2 = (s2, 0) /\
    free s2 = free demo_pmm /\ regions s2 = regions demo_pmm /\
    allocated_bytes s2 = allocated_bytes demo_pmm.
Proof.
  apply pmm_alloc_free_roundtrip; [apply demo_pmm_wf|lia|reflexivity|lia| |].
  - apply Nat.ltb_lt. vm_compute. reflexivity.
  - exists (Range 0x6000 0x8000). split; [vm_compute; right; left|]. unfold PAGE_SIZE. simpl. lia.
Defined.

Lemma pmm_init_correct_witness :
  pmm_wf demo_pmm /\ regions demo_pmm = [Range 0x1000 0x5000; Range 0x6000 0x8000] /\
  (forall a, covers (free demo_pmm) a <-> covers (regions demo_pmm) a) /\
  allocated_bytes demo_pmm = 0.
Proof. exact (pmm_init_correct demo_map demo_map_ok). Defined.
