(* ===== verification/Vmm.v ===== *)
(** Virtual memory: page tables and user-memory access of [kernel/memory.c].

    Physical memory is a map from 8-byte-aligned physical addresses to 64-bit
    words; the kernel reaches it through the higher-half direct map, so
    [phys_to_virt] is the identity here.  The frame allocator is used through
    the interface [FrameAllocator], which [Pmm] implements. *)
From S2P Require Import Prelude Pmm.

(** ** The interface the page tables need from the frame allocator *)

Class FrameAllocator (A : Type) := {
  fa_alloc_pages : A -> Z -> A * Z;
  fa_free_pages : A -> Z -> Z -> A * Z
}.

Definition fa_free_page `{FrameAllocator A} (s : A) (p : Z) : A * Z := fa_free_pages s p 1.

(** Its contract, over a predicate telling which addresses are free. *)
Class FrameAllocatorLaws (A : Type) `{FrameAllocator A} := {
  fa_wf : A -> Prop;
  fa_free : A -> Z -> Prop;
  fa_alloc_law s n s' p :
    fa_wf s -> 0 <= n -> fa_alloc_pages s n = (s', p) ->
    fa_wf s' /\
    ((p = 0 /\ forall a, fa_free s' a <-> fa_free s a) \/
     (0 < p /\ p mod PAGE_SIZE = 0 /\ p + n * PAGE_SIZE <= 2 ^ 52 /\
      (forall a, in_block p n a -> fa_free s a) /\
      (forall a, fa_free s' a <-> fa_free s a /\ ~ in_block p n a)));
  fa_free_law s p n s' rc :
    fa_wf s -> fits 64 p -> 0 <= n -> fa_free_pages s p n = (s', rc) ->
    fa_wf s' /\
    ((rc = -1 /\ s' = s) \/
     (rc = 0 /\ (forall a, in_block p n a -> ~ fa_free s a) /\
      (forall a, fa_free s' a <-> fa_free s a \/ in_block p n a)))
}.

(** [kernel/memory.c]'s allocator implements the interface. *)
#[export] Instance pmm_frames : FrameAllocator pmm := {
  fa_alloc_pages := pmm_alloc_pages;
  fa_free_pages := pmm_free_pages
}.

#[export] Instance pmm_frames_laws : FrameAllocatorLaws pmm.
Proof.
  refine {| fa_wf := pmm_wf; fa_free := fun s a => covers (free s) a |}.
  - intros s n s' p Hwf Hn Ha.
    destruct (pmm_alloc_pages_inv _ _ _ _ Hwf Hn Ha) as (Hwf' & _ & [(-> & -> & _)|
      (Hp & Hal & Hle & Hin & Hfr & _)]); split; auto. right. auto.
  - intros s p n s' rc Hwf Hp Hn Hf.
    destruct (pmm_free_pages_inv _ _ _ _ _ Hwf Hp Hn Hf) as (Hwf' & _ & [(-> & ->)|
      (-> & _ & _ & Hin & Hfr & _)]); split; auto.
    right. split_and!; auto. intros a Ha. by apply Hin.
Defined.

(** ** Constants of [memory.h] *)

Definition PTE_PRESENT : Z := 2 ^ 0.
Definition PTE_WRITABLE : Z := 2 ^ 1.
Definition PTE_USER : Z := 2 ^ 2.
Definition PTE_HUGE : Z := 2 ^ 7.
Definition PTE_NO_EXECUTE : Z := 2 ^ 63.
Definition PTE_ADDR_MASK : Z := 0x000FFFFFFFFFF000.
Definition USER_ACCESS_READ : Z := 1.
Definition USER_ACCESS_WRITE : Z := 2.
Definition USER_ACCESS_EXEC : Z := 4.
Definition USER_VA_LIMIT : Z := 0x0000800000000000.

(** ** Physical memory *)

Abbreviation memory := (gmap Z Z).

Definition ld64 (m : memory) (a : Z) : Z := default 0 (m !! a).
Definition st64 (m : memory) (a v : Z) : memory := <[a := v]> m.

(** Byte access to little-endian 64-bit words. *)
Definition ld8 (m : memory) (a : Z) : Z :=
  Z.land (Z.shiftr (ld64 m (a - a mod 8)) (8 * (a mod 8))) 255.
Definition st8 (m : memory) (a b : Z) : memory :=
  let w := ld64 m (a - a mod 8) in
  let k := 8 * (a mod 8) in
  st64 m (a - a mod 8) (Z.lor (Z.ldiff w (Z.shiftl 255 k)) (Z.shiftl (Z.land b 255) k)).

(** [for (q = 0; q < n; q++) ptr[q] = 0] *)
Fixpoint zero_qwords (m : memory) (ptr : Z) (n : nat) : memory :=
  match n with
  | O => m
  | S n' => zero_qwords (st64 m ptr 0) (ptr + 8) n'
  end.

(** The machine as the memory manager sees it. *)
Record mm (A : Type) := Mm { frames : A; mem : memory; cr3 : Z; kernel_pml4 : Z }.
Arguments Mm {A}.
Arguments frames {A}.
Arguments mem {A}.
Arguments cr3 {A}.
Arguments kernel_pml4 {A}.

Section Vmm.
Context {A : Type} `{FrameAllocator A}.
Implicit Types st : mm A.

Definition set_frames (f : A) st : mm A := Mm f (mem st) (cr3 st) (kernel_pml4 st).
Definition set_mem (m : memory) st : mm A := Mm (frames st) m (cr3 st) (kernel_pml4 st).
Definition set_cr3 (c : Z) st : mm A := Mm (frames st) (mem st) c (kernel_pml4 st).

(** [table[i]] for a page table at a physical address. *)
Definition entry st (tbl i : Z) : Z := ld64 (mem st) (tbl + 8 * i).
Definition set_entry (tbl i v : Z) st : mm A := set_mem (st64 (mem st) (tbl + 8 * i) v) st.

(** [pmm_alloc_pages] with its zeroing loop. *)
Definition alloc_pages st (n : Z) : mm A * Z :=
  let '(f, p) := fa_alloc_pages (frames st) n in
  let st := set_frames f st in
  if p =? 0 then (st, 0)
  else (set_mem (zero_qwords (mem st) p (Z.to_nat (u64 (n * PAGE_SIZE) / 8))) st, p).

Definition alloc_page st : mm A * Z := alloc_pages st 1.

Definition free_page st (p : Z) : mm A * Z :=
  let '(f, rc) := fa_free_page (frames st) p in (set_frames f st, rc).

Definition vmm_get_current_pml4 st : Z := Z.land (cr3 st) PTE_ADDR_MASK.
Definition vmm_switch_pml4 st (pml4_phys : Z) : mm A := set_cr3 (Z.land pml4_phys PTE_ADDR_MASK) st.

(** [for (i = lo; i < lo + n; i++) body] over a state. *)
Fixpoint for_range {T} (n : nat) (i : Z) (body : Z -> T -> T) (st : T) : T :=
  match n with
  | O => st
  | S n' => for_range n' (i + 1) body (body i st)
  end.

Definition vmm_create_user_pml4 st : mm A * Z :=
  let '(st, user) := alloc_page st in
  if user =? 0 then (st, 0)
  else
    let st := for_range 256 0 (fun i st => set_entry user i 0 st) st in
    let st := for_range 256 256 (fun i st => set_entry user i (entry st (kernel_pml4 st) i) st) st in
    (st, user).

(** Index of level [l] (3 = PML4 .. 0 = PT) in a virtual address. *)
Definition index (l virt : Z) : Z := Z.land (Z.shiftr virt (12 + 9 * l)) 0x1FF.

(** One step down: the table a present, non-huge entry points to. *)
Definition child (m : memory) (tbl i : Z) : option Z :=
  let e := ld64 m (tbl + 8 * i) in
  if negb (has e PTE_PRESENT) || has e PTE_HUGE then None else Some (Z.land e PTE_ADDR_MASK).

Definition vmm_get_pt st (pml4_phys virt : Z) : option Z :=
  match child (mem st) pml4_phys (index 3 virt) with
  | None => None
  | Some pdpt =>
      match child (mem st) pdpt (index 2 virt) with
      | None => None
      | Some pd => child (mem st) pd (index 1 virt)
      end
  end.

Definition vmm_get_page_phys st (pml4_phys virt : Z) : Z :=
  match vmm_get_pt st pml4_phys virt with
  | None => 0
  | Some pt =>
      let pte := entry st pt (index 0 virt) in
      if negb (has pte PTE_PRESENT) then 0 else Z.land pte PTE_ADDR_MASK
  end.

Definition vmm_get_page_flags st (pml4_phys virt : Z) : Z :=
  match vmm_get_pt st pml4_phys virt with
  | None => 0
  | Some pt => entry st pt (index 0 virt)
  end.

(** *** Mapping *)

(** The W^X test shared by [vmm_map_page] and [vmm_set_page_flags]: a user
    mapping may be writable only if it is not executable. *)
Definition wx_violation (flags : Z) : bool :=
  (Z.land flags (Z.lor PTE_USER PTE_WRITABLE) =? Z.lor PTE_USER PTE_WRITABLE)
  && negb (has flags PTE_NO_EXECUTE).

(** One level of [vmm_map_page]: make entry [i] of [tbl] point to a table.
    [None]: out of memory.  [Some p]: [p] is the table just created, 0 if
    there was one already (which is made user-accessible if needed). *)
Definition ensure_table st (tbl i flags : Z) : mm A * option Z :=
  let table_flags := Z.lor (Z.lor PTE_PRESENT PTE_WRITABLE) (Z.land flags PTE_USER) in
  let e := entry st tbl i in
  if negb (has e PTE_PRESENT) then
    let '(st, p) := alloc_page st in
    if p =? 0 then (st, None)
    else (set_entry tbl i (Z.lor p table_flags) st, Some p)
  else if has flags PTE_USER then (set_entry tbl i (Z.lor e PTE_USER) st, Some 0)
  else (st, Some 0).

(** One [if (new_x_phys) { table[i] = 0; pmm_free_page(new_x_phys); }] *)
Definition undo_table st (tbl i new : Z) : mm A :=
  if new =? 0 then st else fst (free_page (set_entry tbl i 0 st) new).

Definition next st (tbl i : Z) : Z := Z.land (entry st tbl i) PTE_ADDR_MASK.

Definition vmm_map_page st (pml4_phys virt phys flags : Z) : mm A * Z :=
  if (pml4_phys =? 0) || has virt (PAGE_SIZE - 1) || has phys (PAGE_SIZE - 1) then (st, -1)
  else if negb (Z.shiftr virt 47 =? 0) && negb (Z.shiftr virt 47 =? 0x1FFFF) then (st, -1)
  else if (pml4_phys =? kernel_pml4 st) && has flags PTE_USER then (st, -1)
  else if has flags PTE_USER && (USER_VA_LIMIT <=? virt) then (st, -1)
  else if wx_violation flags then (st, -1)
  else
    let '(st, r) := ensure_table st pml4_phys (index 3 virt) flags in
    match r with
    | None => (st, -1)
    | Some new_pdpt =>
        let pdpt := next st pml4_phys (index 3 virt) in
        let '(st, r) := ensure_table st pdpt (index 2 virt) flags in
        match r with
        | None => (undo_table st pml4_phys (index 3 virt) new_pdpt, -1)
        | Some new_pd =>
            let pd := next st pdpt (index 2 virt) in
            let '(st, r) := ensure_table st pd (index 1 virt) flags in
            match r with
            | None =>
                let st := undo_table st pdpt (index 2 virt) new_pd in
                (undo_table st pml4_phys (index 3 virt) new_pdpt, -1)
            | Some _ =>
                let pt := next st pd (index 1 virt) in
                if has (entry st pt (index 0 virt)) PTE_PRESENT then (st, -1)
                else
                  let pte := Z.lor (Z.lor (Z.land phys PTE_ADDR_MASK) PTE_PRESENT)
                               (Z.land flags (Z.lor 0xFFF PTE_NO_EXECUTE)) in
                  (set_entry pt (index 0 virt) pte st, 0)
            end
        end
    end.

Definition vmm_set_page_flags st (pml4_phys virt flags : Z) : mm A * Z :=
  if (pml4_phys =? 0) || has virt (PAGE_SIZE - 1) then (st, -1)
  else if (pml4_phys =? kernel_pml4 st) && has flags PTE_USER then (st, -1)
  else if has flags PTE_USER && (USER_VA_LIMIT <=? virt) then (st, -1)
  else if wx_violation flags then (st, -1)
  else
    match vmm_get_pt st pml4_phys virt with
    | None => (st, -1)
    | Some pt =>
        let old := entry st pt (index 0 virt) in
        if negb (has old PTE_PRESENT) then (st, -1)
        else
          let pte := Z.lor (Z.lor (Z.land old PTE_ADDR_MASK) PTE_PRESENT)
                       (Z.land flags (Z.lor 0xFFF PTE_NO_EXECUTE)) in
          (set_entry pt (index 0 virt) pte st, 0)
    end.

(** *** Unmapping *)

Definition table_empty st (tbl : Z) : bool :=
  forallb (fun i => negb (has (entry st tbl i) PTE_PRESENT)) (seqZ 0 512).

(** [table[i] = 0; if (pmm_free_page(sub) != 0) result = -1;] *)
Definition drop_table st (tbl i sub result : Z) : mm A * Z :=
  let '(st, rc) := free_page (set_entry tbl i 0 st) sub in
  (st, if rc =? 0 then result else -1).

Definition vmm_unmap_page st (pml4_phys virt : Z) (free_phys : bool) : mm A * Z :=
  if (pml4_phys =? 0) || has virt (PAGE_SIZE - 1) then (st, -1)
  else
    match child (mem st) pml4_phys (index 3 virt) with
    | None => (st, -1)
    | Some pdpt =>
        match child (mem st) pdpt (index 2 virt) with
        | None => (st, -1)
        | Some pd =>
            match child (mem st) pd (index 1 virt) with
            | None => (st, -1)
            | Some pt =>
                let old := entry st pt (index 0 virt) in
                if negb (has old PTE_PRESENT) then (st, -1)
                else
                  let st := set_entry pt (index 0 virt) 0 st in
                  let '(st, result) :=
                    if free_phys then free_page st (Z.land old PTE_ADDR_MASK) else (st, 0) in
                  if negb (table_empty st pt) then (st, result)
                  else
                    let '(st, result) := drop_table st pd (index 1 virt) pt result in
                    if negb (table_empty st pd) then (st, result)
                    else
                      let '(st, result) := drop_table st pdpt (index 2 virt) pd result in
                      if (index 3 virt <? 256) && table_empty st pdpt
                      then drop_table st pml4_phys (index 3 virt) pdpt result
                      else (st, result)
            end
        end
    end.

(** *** Destroying an address space *)

Definition vmm_free_pt st (pt_phys : Z) : mm A :=
  for_range 512 0 (fun i st =>
    let e := entry st pt_phys i in
    if negb (has e PTE_PRESENT) then st
    else fst (free_page (set_entry pt_phys i 0 st) (Z.land e PTE_ADDR_MASK))) st.

(** The shape shared by [vmm_free_pd], [vmm_free_pdpt] and the PML4 loop. *)
Definition free_level (free_sub : mm A -> Z -> mm A) (n : nat) st (tbl : Z) : mm A :=
  for_range n 0 (fun i st =>
    let e := entry st tbl i in
    if negb (has e PTE_PRESENT) then st
    else if has e PTE_HUGE then set_entry tbl i 0 st
    else
      let sub := Z.land e PTE_ADDR_MASK in
      let st := free_sub st sub in
      fst (free_page (set_entry tbl i 0 st) sub)) st.

Definition vmm_free_pd : mm A -> Z -> mm A := free_level vmm_free_pt 512.
Definition vmm_free_pdpt : mm A -> Z -> mm A := free_level vmm_free_pd 512.

Definition vmm_destroy_user_pml4 st (pml4_phys : Z) : mm A * Z :=
  if (pml4_phys =? 0) || (pml4_phys =? kernel_pml4 st) then (st, -1)
  else
    let st := if vmm_get_current_pml4 st =? pml4_phys
              then vmm_switch_pml4 st (kernel_pml4 st) else st in
    let st := free_level vmm_free_pdpt 256 st pml4_phys in
    (fst (free_page st pml4_phys), 0).

(** *** User memory *)

Definition page_of (a : Z) : Z := Z.land a (u64 (Z.lnot (PAGE_SIZE - 1))).
Definition page_offset (a : Z) : Z := Z.land a (PAGE_SIZE - 1).

(** The checks of one iteration of [user_range_valid]. *)
Definition user_page_ok st (root page access : Z) : bool :=
  let bad e := negb (has e PTE_PRESENT) || negb (has e PTE_USER) || has e PTE_HUGE in
  let pml4e := entry st root (index 3 page) in
  if bad pml4e then false
  else
    let pdpt := Z.land pml4e PTE_ADDR_MASK in
    let pdpte := entry st pdpt (index 2 page) in
    if bad pdpte then false
    else
      let pd := Z.land pdpte PTE_ADDR_MASK in
      let pde := entry st pd (index 1 page) in
      if bad pde then false
      else
        let pte := vmm_get_page_flags st root page in
        if negb (has pte PTE_PRESENT) || negb (has pte PTE_USER) then false
        else if has access USER_ACCESS_WRITE && negb (has pte PTE_WRITABLE) then false
        else if has access USER_ACCESS_EXEC && has pte PTE_NO_EXECUTE then false
        else true.

(** [for (;;) { ...; if (page == last) break; page += PAGE_SIZE; }];
    [None] only if the fuel runs out. *)
Fixpoint check_pages st (root access : Z) (fuel : nat) (page last : Z) : option bool :=
  match fuel with
  | O => None
  | S fuel' =>
      if negb (user_page_ok st root page access) then Some false
      else if page =? last then Some true
      else check_pages st root access fuel' (u64 (page + PAGE_SIZE)) last
  end.

Definition user_range_valid st (addr size access : Z) : option bool :=
  if size =? 0 then Some true
  else
    let e := u64 (addr + size) in
    if (e <? addr) || (USER_VA_LIMIT <=? addr) || (USER_VA_LIMIT <? e) then Some false
    else
      let root := vmm_get_current_pml4 st in
      if (root =? 0) || (root =? kernel_pml4 st) then Some false
      else
        let page := page_of addr in
        let last := page_of (e - 1) in
        check_pages st root access (S (Z.to_nat ((last - page) / PAGE_SIZE))) page last.

Fixpoint read_bytes (m : memory) (a : Z) (n : nat) : list Z :=
  match n with
  | O => []
  | S n' => ld8 m a :: read_bytes m (a + 1) n'
  end.

Fixpoint write_bytes (m : memory) (a : Z) (bs : list Z) : memory :=
  match bs with
  | [] => m
  | b :: bs' => write_bytes (st8 m a b) (a + 1) bs'
  end.

(** [chunk]: up to the end of the page, at most [left]. *)
Definition chunk_of (a left : Z) : Z :=
  let c := PAGE_SIZE - page_offset a in if left <? c then left else c.

(** The copy loops; every iteration moves at least one byte, so [left]
    iterations are enough. *)
Fixpoint copy_in st (root src left : Z) (fuel : nat) : list Z :=
  match fuel with
  | O => []
  | S fuel' =>
      if left <=? 0 then []
      else
        let phys := vmm_get_page_phys st root (page_of src) in
        let chunk := chunk_of src left in
        read_bytes (mem st) (phys + page_offset src) (Z.to_nat chunk)
          ++ copy_in st root (u64 (src + chunk)) (left - chunk) fuel'
  end.

(** [dst] is [None] for a null pointer; [size] bytes of it are overwritten. *)
Definition copy_from_user st (dst : option (list Z)) (user_src size : Z)
  : option (list Z) * Z :=
  if size =? 0 then (dst, 0)
  else
    match dst with
    | None => (dst, -1)
    | Some buf =>
        if user_src =? 0 then (dst, -1)
        else
          match user_range_valid st user_src size USER_ACCESS_READ with
          | Some true =>
              (Some (copy_in st (vmm_get_current_pml4 st) user_src size (Z.to_nat size)
                       ++ drop (Z.to_nat size) buf), 0)
          | _ => (dst, -1)
          end
    end.

Fixpoint copy_out st (root dst : Z) (src : list Z) (left : Z) (fuel : nat) : mm A :=
  match fuel with
  | O => st
  | S fuel' =>
      if left <=? 0 then st
      else
        let phys := vmm_get_page_phys st root (page_of dst) in
        let chunk := chunk_of dst left in
        let st := set_mem (write_bytes (mem st) (phys + page_offset dst)
                             (take (Z.to_nat chunk) src)) st in
        copy_out st root (u64 (dst + chunk)) (drop (Z.to_nat chunk) src) (left - chunk) fuel'
  end.

Definition copy_to_user st (user_dst : Z) (src : option (list Z)) (size : Z) : mm A * Z :=
  if size =? 0 then (st, 0)
  else
    match src with
    | None => (st, -1)
    | Some bytes =>
        if user_dst =? 0 then (st, -1)
        else
          match user_range_valid st user_dst size USER_ACCESS_WRITE with
          | Some true =>
              (copy_out st (vmm_get_current_pml4 st) user_dst (take (Z.to_nat size) bytes)
                 size (Z.to_nat size), 0)
          | _ => (st, -1)
          end
    end.

(** Position of the first NUL among [n] bytes at [a]. *)
Fixpoint find_nul (m : memory) (a : Z) (n : nat) (i : Z) : option Z :=
  match n with
  | O => None
  | S n' => if ld8 m a =? 0 then Some i else find_nul m (a + 1) n' (i + 1)
  end.

Fixpoint strnlen_loop st (root addr checked max_len : Z) (fuel : nat) : Z :=
  match fuel with
  | O => -2
  | S fuel' =>
      if max_len <=? checked then -2
      else
        let pte := vmm_get_page_flags st root (page_of addr) in
        if negb (has pte PTE_PRESENT) || negb (has pte PTE_USER) then -1
        else
          let phys := Z.land pte PTE_ADDR_MASK in
          let chunk := chunk_of addr (max_len - checked) in
          match find_nul (mem st) (phys + page_offset addr) (Z.to_nat chunk) 0 with
          | Some i => checked + i
          | None => strnlen_loop st root (u64 (addr + chunk)) (checked + chunk) max_len fuel'
          end
  end.

Definition user_strnlen st (user_str max_len : Z) : Z :=
  if (user_str =? 0) || (max_len =? 0) then -1
  else
    let root := vmm_get_current_pml4 st in
    if (root =? 0) || (root =? kernel_pml4 st) then -1
    else strnlen_loop st root user_str 0 max_len (Z.to_nat max_len).
End Vmm.
