(* ===== verification/VmmTree.v ===== *)
(** Page tables as trees: the invariant of an address space, and what mapping,
    re-protecting and unmapping a page do to its translations. *)
From S2P Require Import Prelude Pmm Vmm.

(** ** Paths in a page-table tree *)

Definition valid_index (i : Z) : Prop := 0 <= i < 512.

(** The table reached from [t] along a list of entry indices. *)
Fixpoint walk (m : memory) (t : Z) (p : list Z) : option Z :=
  match p with
  | [] => Some t
  | i :: p' => match child m t i with Some t' => walk m t' p' | None => None end
  end.

Definition vpath (virt : Z) : list Z := [index 3 virt; index 2 virt; index 1 virt].

(** A page usable as a table. *)
Definition table_page (t : Z) : Prop := 0 < t /\ t mod PAGE_SIZE = 0 /\ t + PAGE_SIZE <= 2 ^ 52.

Definition entry_addr (t i : Z) : Z := t + 8 * i.

Lemma index_valid l v : valid_index (index l v).
Proof.
  unfold valid_index, index. change 0x1FF with (2 ^ 9 - 1). rewrite land_ones_mod by lia.
  apply Z.mod_pos_bound. lia.
Qed.

Lemma vpath_valid v : Forall valid_index (vpath v).
Proof. repeat constructor; apply index_valid. Qed.

Lemma entry_addr_inj t1 t2 i j :
  table_page t1 -> table_page t2 -> valid_index i -> valid_index j ->
  entry_addr t1 i = entry_addr t2 j -> t1 = t2 /\ i = j.
Proof.
  unfold table_page, valid_index, entry_addr. intros (_ & H1 & _) (_ & H2 & _) Hi Hj He.
  apply Z.mod_divide in H1 as [k1 ->]; [|done]. apply Z.mod_divide in H2 as [k2 ->]; [|done].
  unfold PAGE_SIZE in *. lia.
Qed.

Lemma walk_snoc m t p i :
  walk m t (p ++ [i]) = match walk m t p with Some t' => child m t' i | None => None end.
Proof.
  revert t. induction p as [|j p IH]; intros t; simpl.
  - by destruct (child m t i).
  - by destruct (child m t j).
Qed.

Lemma walk_app m t p q :
  walk m t (p ++ q) = match walk m t p with Some t' => walk m t' q | None => None end.
Proof.
  revert t. induction p as [|j p IH]; intros t; simpl; [done|]. by destruct (child m t j).
Qed.

Lemma child_ext m m' t i :
  ld64 m' (entry_addr t i) = ld64 m (entry_addr t i) -> child m' t i = child m t i.
Proof. unfold child, entry_addr. by intros ->. Qed.

(** Same [child] for entries differing only in flags other than P and PS. *)
Lemma child_same_bits m m' t i :
  let e := ld64 m (entry_addr t i) in let e' := ld64 m' (entry_addr t i) in
  has e' PTE_PRESENT = has e PTE_PRESENT -> has e' PTE_HUGE = has e PTE_HUGE ->
  Z.land e' PTE_ADDR_MASK = Z.land e PTE_ADDR_MASK -> child m' t i = child m t i.
Proof. unfold child, entry_addr. simpl. by intros -> -> ->. Qed.

Lemma vmm_get_pt_walk {A} `{FrameAllocator A} (st : mm A) root v :
  vmm_get_pt st root v = walk (mem st) root (vpath v).
Proof.
  unfold vmm_get_pt, vpath. simpl. destruct (child _ root _) as [pdpt|]; [|done].
  destruct (child _ pdpt _) as [pd|]; [|done]. by destruct (child _ pd _).
Qed.

(** Memory changes that no walk of length at most [n] can see. *)
Lemma walk_agree m m' root n :
  (forall q t j, (length q < n)%nat -> Forall valid_index q -> valid_index j ->
     walk m root q = Some t -> child m' t j = child m t j) ->
  forall q, (length q <= n)%nat -> Forall valid_index q -> walk m' root q = walk m root q.
Proof.
  intros Hag q. induction q as [|j q IH] using rev_ind; intros Hlen Hv; [done|].
  rewrite length_app in Hlen. simpl in Hlen. apply Forall_app in Hv as [Hv Hj].
  rewrite !walk_snoc, IH by (done || lia).
  destruct (walk m root q) as [t|] eqn:Hw; [|done].
  apply Hag with q; [lia|done| |done]. by inversion Hj.
Qed.

(** ** Entries *)

(** [PTE_ADDR_MASK] selects bits 12..51. *)
Lemma land_addr_mask x : 0 <= x < 2 ^ 52 -> x mod PAGE_SIZE = 0 -> Z.land x PTE_ADDR_MASK = x.
Proof.
  intros Hx Ha. change PTE_ADDR_MASK with (Z.land (2 ^ 52 - 1) (Z.lnot (2 ^ 12 - 1))).
  rewrite Z.land_assoc, land_ones_mod, Z.mod_small by lia.
  rewrite <-Z.ldiff_land. replace (2 ^ 12 - 1) with (Z.ones 12) by done.
  rewrite Z.ldiff_ones_r, Z.shiftl_mul_pow2, Z.shiftr_div_pow2 by lia.
  change (2 ^ 12) with PAGE_SIZE. pose proof (Z.div_mod x PAGE_SIZE). unfold PAGE_SIZE in *. lia.
Qed.

Lemma land_flags_mask f c : Z.land c PTE_ADDR_MASK = 0 -> Z.land (Z.land f c) PTE_ADDR_MASK = 0.
Proof. intros Hc. by rewrite <-Z.land_assoc, Hc, Z.land_0_r. Qed.

Lemma table_entry_bits t flags :
  table_page t ->
  let e := Z.lor t (Z.lor (Z.lor PTE_PRESENT PTE_WRITABLE) (Z.land flags PTE_USER)) in
  has e PTE_PRESENT = true /\ has e PTE_HUGE = false /\ Z.land e PTE_ADDR_MASK = t.
Proof.
  intros (H0 & Ha & Hl). simpl. rewrite !has_lor, !has_land. split; [|split].
  - by rewrite !orb_true_r.
  - rewrite (has_aligned_low t 12) by (done || split; done).
    change (Z.land PTE_USER PTE_HUGE) with 0. unfold has. by rewrite Z.land_0_r.
  - rewrite !Z.land_lor_distr_l, land_flags_mask by done.
    rewrite land_addr_mask by (done || unfold PAGE_SIZE in *; lia).
    change (Z.land PTE_PRESENT _) with 0. change (Z.land PTE_WRITABLE _) with 0.
    by rewrite !Z.lor_0_r.
Qed.

(** Setting [PTE_USER] in an entry does not change where it points. *)
Lemma user_entry_bits e :
  let e' := Z.lor e PTE_USER in
  has e' PTE_PRESENT = has e PTE_PRESENT /\ has e' PTE_HUGE = has e PTE_HUGE /\
  Z.land e' PTE_ADDR_MASK = Z.land e PTE_ADDR_MASK.
Proof.
  simpl. rewrite !has_lor. change (has PTE_USER PTE_PRESENT) with false.
  change (has PTE_USER PTE_HUGE) with false. rewrite !orb_false_r.
  rewrite Z.land_lor_distr_l. change (Z.land PTE_USER PTE_ADDR_MASK) with 0.
  by rewrite Z.lor_0_r.
Qed.

Lemma same_page t1 t2 a :
  table_page t1 -> table_page t2 -> in_block t1 1 a -> in_block t2 1 a -> t1 = t2.
Proof.
  unfold table_page, in_block. intros (_ & H1 & _) (_ & H2 & _) Ha1 Ha2.
  apply Z.mod_divide in H1 as [k1 ->]; [|done]. apply Z.mod_divide in H2 as [k2 ->]; [|done].
  unfold PAGE_SIZE in *. lia.
Qed.

Lemma entry_in_block t i : valid_index i -> in_block t 1 (entry_addr t i).
Proof. unfold valid_index, in_block, entry_addr, PAGE_SIZE. lia. Qed.

(** ** The invariant *)

Section Tree.
Context {A : Type} `{FA : FrameAllocator A, !FrameAllocatorLaws A}.
Implicit Types st : mm A.

(** Every table reachable from the root (the root included) is an allocated
    page, and different paths reach different tables. *)
Record tree_wf st (root : Z) : Prop := TreeWf {
  tree_frames : fa_wf (frames st);
  tree_tables p t : (length p <= 3)%nat -> Forall valid_index p ->
    walk (mem st) root p = Some t ->
    table_page t /\ forall a, in_block t 1 a -> ~ fa_free (frames st) a;
  tree_inj p q t : (length p <= 3)%nat -> (length q <= 3)%nat ->
    Forall valid_index p -> Forall valid_index q ->
    walk (mem st) root p = Some t -> walk (mem st) root q = Some t -> p = q
}.

(** A leaf: the raw 64-bit entry, 0 where there is no page table. *)
Definition leaf (m : memory) (root : Z) (p : list Z) (i : Z) : Z :=
  match walk m root p with Some t => ld64 m (entry_addr t i) | None => 0 end.

Lemma vmm_get_page_flags_leaf st root v :
  vmm_get_page_flags st root v = leaf (mem st) root (vpath v) (index 0 v).
Proof. unfold vmm_get_page_flags, leaf. by rewrite vmm_get_pt_walk. Qed.

Lemma tree_table_page st root p t :
  tree_wf st root -> (length p <= 3)%nat -> Forall valid_index p ->
  walk (mem st) root p = Some t -> table_page t.
Proof. intros Hwf Hl Hv Hw. by apply (tree_tables _ _ Hwf p t). Qed.

(** Different (table, index) pairs of the tree are different addresses. *)
Lemma tree_entry_inj st root p q tp tq i j :
  tree_wf st root -> (length p <= 3)%nat -> (length q <= 3)%nat ->
  Forall valid_index p -> Forall valid_index q -> valid_index i -> valid_index j ->
  walk (mem st) root p = Some tp -> walk (mem st) root q = Some tq ->
  entry_addr tp i = entry_addr tq j -> p = q /\ i = j.
Proof.
  intros Hwf Hp Hq Hvp Hvq Hi Hj Hwp Hwq He.
  apply entry_addr_inj in He as [-> ->]; eauto using tree_table_page.
  split; [|done]. eapply tree_inj; eauto.
Qed.

(** Writing entry [i] of the table at path [p] leaves every walk that does not
    go through that entry unchanged. *)
Lemma walk_store st root p tp i v q :
  tree_wf st root -> (length p <= 3)%nat -> Forall valid_index p -> valid_index i ->
  walk (mem st) root p = Some tp -> (length q <= 3)%nat -> Forall valid_index q ->
  ~ (p ++ [i]) `prefix_of` q ->
  walk (st64 (mem st) (entry_addr tp i) v) root q = walk (mem st) root q.
Proof.
  intros Hwf Hp Hvp Hi Hwp. induction q as [|j q IH] using rev_ind; intros Hq Hvq Hnp; [done|].
  rewrite length_app in Hq. simpl in Hq. apply Forall_app in Hvq as [Hvq Hj].
  rewrite Forall_singleton in Hj.
  rewrite !walk_snoc, IH; [|lia|done|].
  2:{ intros Hpre. apply Hnp. by apply prefix_app_r. }
  destruct (walk (mem st) root q) as [tq|] eqn:Hwq; [|done].
  apply child_ext. unfold ld64, st64. rewrite lookup_insert_ne; [done|].
  intros He. eapply (tree_entry_inj st root p q) in He as [-> ->]; eauto; try lia.
Qed.

(** ** Allocation of a table *)

Lemma ld64_st64_eq m a v : ld64 (st64 m a v) a = v.
Proof. unfold ld64, st64. by rewrite lookup_insert_eq. Qed.

Lemma ld64_st64_ne m a b v : a <> b -> ld64 (st64 m a v) b = ld64 m b.
Proof. intros. unfold ld64, st64. by rewrite lookup_insert_ne. Qed.

Lemma zero_qwords_out m ptr n a :
  (forall k, (k < n)%nat -> a <> ptr + 8 * Z.of_nat k) -> ld64 (zero_qwords m ptr n) a = ld64 m a.
Proof.
  revert m ptr. induction n as [|n IH]; intros m ptr Ha; simpl; [done|].
  rewrite IH.
  - apply ld64_st64_ne. specialize (Ha 0%nat). lia.
  - intros k Hk. specialize (Ha (S k)). lia.
Qed.

Lemma zero_qwords_in m ptr n k :
  (k < n)%nat -> ld64 (zero_qwords m ptr n) (ptr + 8 * Z.of_nat k) = 0.
Proof.
  revert m ptr k. induction n as [|n IH]; intros m ptr k Hk; simpl; [lia|].
  destruct k as [|k].
  - rewrite Z.add_0_r, zero_qwords_out; [apply ld64_st64_eq|]. intros. lia.
  - replace (ptr + 8 * Z.of_nat (S k)) with (ptr + 8 + 8 * Z.of_nat k) by lia. apply IH. lia.
Qed.

#[local] Opaque zero_qwords.

Definition same_regs st st' : Prop := cr3 st' = cr3 st /\ kernel_pml4 st' = kernel_pml4 st.

Lemma alloc_page_spec st st' p :
  fa_wf (frames st) -> alloc_page st = (st', p) ->
  fa_wf (frames st') /\ same_regs st st' /\
  ((p = 0 /\ mem st' = mem st /\ forall a, fa_free (frames st') a <-> fa_free (frames st) a) \/
   (table_page p /\ (forall a, in_block p 1 a -> fa_free (frames st) a) /\
    (forall a, fa_free (frames st') a <-> fa_free (frames st) a /\ ~ in_block p 1 a) /\
    (forall i, valid_index i -> ld64 (mem st') (entry_addr p i) = 0) /\
    (forall a, ~ in_block p 1 a -> ld64 (mem st') a = ld64 (mem st) a))).
Proof.
  intros Hwf. unfold alloc_page, alloc_pages.
  destruct (fa_alloc_pages (frames st) 1) as [f q] eqn:Ha.
  destruct (fa_alloc_law _ _ _ _ Hwf Z.le_0_1 Ha) as (Hwf' & [(-> & Hfr)|(Hq & Hal & Hle & Hin & Hfr)]).
  { simpl. intros [= <- <-]. simpl. split; [done|]. split; [by split|]. left. auto. }
  set (n := Z.to_nat (u64 (1 * PAGE_SIZE) / 8)). assert (Hn : n = 512%nat) by done. clearbody n.
  destruct (Z.eqb_spec q 0); [lia|]. intros [= <- <-]. simpl. subst n.
  split; [done|]. split; [by split|]. right.
  split; [unfold table_page; split_and!; [lia|done|unfold PAGE_SIZE in *; lia]|].
  split; [done|]. split; [done|].
  unfold entry_addr, valid_index, in_block, PAGE_SIZE. split.
  - intros i Hi. rewrite <-(Z2Nat.id i) by lia. apply zero_qwords_in. lia.
  - intros a Ha'. apply zero_qwords_out. intros k Hk. lia.
Qed.

(** ** One level of [vmm_map_page] *)

(** Entry [i] of the table at path [q] is not a huge page. *)
Definition not_huge st (root : Z) (q : list Z) (i : Z) : Prop :=
  forall t, walk (mem st) root q = Some t -> has (entry st t i) PTE_PRESENT = true ->
    has (entry st t i) PTE_HUGE = false.

(** [st'] extends the tree of [st]: it is well formed, keeps every table where
    it was, adds no huge page and shows the same leaves. *)
Record extends st st' (root : Z) : Prop := Extends {
  ext_wf : tree_wf st' root;
  ext_regs : same_regs st st';
  ext_walk q t : (length q <= 3)%nat -> Forall valid_index q ->
    walk (mem st) root q = Some t -> walk (mem st') root q = Some t;
  ext_huge q i : (length q <= 2)%nat -> Forall valid_index q -> valid_index i ->
    not_huge st root q i -> not_huge st' root q i;
  ext_leaf q i : length q = 3%nat -> Forall valid_index q -> valid_index i ->
    leaf (mem st') root q i = leaf (mem st) root q i
}.

Lemma extends_refl st root : tree_wf st root -> extends st st root.
Proof. constructor; auto. by split. Qed.

Lemma extends_trans st1 st2 st3 root :
  extends st1 st2 root -> extends st2 st3 root -> extends st1 st3 root.
Proof.
  intros [W1 [R1 R1'] K1 G1 L1] [W2 [R2 R2'] K2 G2 L2]. constructor; auto.
  - split; congruence.
  - intros. rewrite L2, L1; auto.
Qed.

(** Same tables, same free set, same leaves: still a tree. *)
Lemma tree_wf_agree st st' root :
  tree_wf st root -> fa_wf (frames st') ->
  (forall a, fa_free (frames st') a -> fa_free (frames st) a) ->
  (forall q, (length q <= 3)%nat -> Forall valid_index q ->
     walk (mem st') root q = walk (mem st) root q) ->
  tree_wf st' root.
Proof.
  intros Hwf Hfw Hfr Hw. constructor; [done| |].
  - intros p t Hp Hv Hwp. rewrite Hw in Hwp by done.
    destruct (tree_tables _ _ Hwf p t Hp Hv Hwp) as [Ht Hnf]. split; [done|].
    intros a Ha Hfa. by apply (Hnf a Ha), Hfr.
  - intros p q t Hp Hq Hvp Hvq Hwp Hwq. rewrite Hw in Hwp, Hwq by done.
    eapply tree_inj; eauto.
Qed.

(** The fresh page of a successful allocation is disjoint from the tree, so no
    walk notices the allocation or the zeroing. *)
Lemma alloc_walk st st' root p :
  tree_wf st root -> alloc_page st = (st', p) -> p <> 0 ->
  forall q, (length q <= 3)%nat -> Forall valid_index q ->
    walk (mem st') root q = walk (mem st) root q.
Proof.
  intros Hwf Ha Hp. destruct (alloc_page_spec _ _ _ (tree_frames _ _ Hwf) Ha) as
    (_ & _ & [(-> & _)|(Ht & Hin & _ & _ & Hsame)]); [done|].
  apply walk_agree. intros q t j Hq Hv Hj Hw.
  destruct (tree_tables _ _ Hwf q t) as [Htp Hnf]; [lia|done|done|].
  apply child_ext, Hsame. intros Hb. apply (Hnf (entry_addr t j)); [by apply entry_in_block|auto].
Qed.

Lemma prefix_snoc_inv {T} (p q : list T) i : (p ++ [i]) `prefix_of` q ->
  q = p ++ [i] \/ exists j r, q = p ++ [i] ++ j :: r.
Proof.
  intros [r ->]. rewrite <-app_assoc. destruct r as [|j r]; [left|right; eauto].
  by rewrite app_nil_r.
Qed.

(** Linking a zeroed page under entry [i] of the table at [p]: the walks of the
    new tree. *)
Lemma walk_link st root p tp i new v q :
  tree_wf st root -> (length p <= 2)%nat -> Forall valid_index p -> valid_index i ->
  walk (mem st) root p = Some tp -> child (mem st) tp i = None ->
  table_page new -> new <> tp -> (forall j, valid_index j -> ld64 (mem st) (entry_addr new j) = 0) ->
  has v PTE_PRESENT = true -> has v PTE_HUGE = false -> Z.land v PTE_ADDR_MASK = new ->
  (length q <= 3)%nat -> Forall valid_index q ->
  walk (st64 (mem st) (entry_addr tp i) v) root q =
    if decide (q = p ++ [i]) then Some new else walk (mem st) root q.
Proof.
  intros Hwf Hp Hvp Hi Hwp Hnone Htn Hne Hz H1 H2 H3 Hq Hvq.
  set (m' := st64 _ _ _).
  assert (Hroot : walk m' root p = Some tp).
  { rewrite <-Hwp. unfold m'. apply (walk_store st root p); auto; try lia.
    intros [r Hr]. apply (f_equal length) in Hr. rewrite !length_app in Hr. simpl in Hr. lia. }
  assert (Hlink : child m' tp i = Some new).
  { unfold child, m'. fold (entry_addr tp i). by rewrite ld64_st64_eq, H1, H2, H3. }
  destruct (decide (q = p ++ [i])) as [->|Hneq]; [by rewrite walk_snoc, Hroot|].
  destruct (decide ((p ++ [i]) `prefix_of` q)) as [Hpre|Hpre].
  - apply prefix_snoc_inv in Hpre as [?|(j & r & ->)]; [done|].
    rewrite !walk_app, Hroot, Hwp. simpl. rewrite Hlink, Hnone.
    rewrite !Forall_app, !Forall_cons in Hvq. destruct Hvq as (_ & (_ & _) & Hj & _).
    replace (child m' new j) with (@None Z); [done|].
    unfold child, m'. fold (entry_addr new j). rewrite ld64_st64_ne, Hz by
      (done || intros [-> _]%entry_addr_inj; eauto using tree_table_page). done.
  - apply (walk_store st root p); auto; lia.
Qed.

Lemma entry_ld64 st t i : entry st t i = ld64 (mem st) (entry_addr t i).
Proof. reflexivity. Qed.

Lemma child_absent m t i : has (ld64 m (entry_addr t i)) PTE_PRESENT = false -> child m t i = None.
Proof. unfold child, entry_addr. by intros ->. Qed.

Lemma child_present st t i :
  has (entry st t i) PTE_PRESENT = true -> has (entry st t i) PTE_HUGE = false ->
  child (mem st) t i = Some (next st t i).
Proof. unfold child, next, entry. by intros -> ->. Qed.

Lemma leaf_ext m m' root q i :
  (length q <= 3)%nat -> Forall valid_index q ->
  (forall q, (length q <= 3)%nat -> Forall valid_index q -> walk m' root q = walk m root q) ->
  (forall t, walk m root q = Some t -> ld64 m' (entry_addr t i) = ld64 m (entry_addr t i)) ->
  leaf m' root q i = leaf m root q i.
Proof.
  intros Hq Hv Hw He. unfold leaf. rewrite Hw by done.
  destruct (walk m root q) as [t|]; [by apply He|done].
Qed.

(** The allocation that precedes a link keeps the tree as it is. *)
Lemma alloc_extends st st' root p :
  tree_wf st root -> alloc_page st = (st', p) -> extends st st' root.
Proof.
  intros Hwf Ha. destruct (alloc_page_spec _ _ _ (tree_frames _ _ Hwf) Ha) as
    (Hfw & Hr & [(-> & Hm & Hfr)|(Ht & Hin & Hfr & _ & Hsame)]).
  { constructor; unfold not_huge, entry; rewrite ?Hm; auto. apply (tree_wf_agree st); auto.
    - intros a. apply Hfr.
    - intros. by rewrite Hm. }
  assert (Hp : p <> 0) by (destruct Ht; lia).
  pose proof (alloc_walk _ _ _ _ Hwf Ha Hp) as Hw.
  assert (Hent : forall q t i, (length q <= 3)%nat -> Forall valid_index q -> valid_index i ->
    walk (mem st) root q = Some t -> ld64 (mem st') (entry_addr t i) = ld64 (mem st) (entry_addr t i)).
  { intros q t i Hq Hv Hi Hwq. destruct (tree_tables _ _ Hwf q t Hq Hv Hwq) as [_ Hnf].
    apply Hsame. intros Hb. eapply Hnf; [by apply entry_in_block|auto]. }
  constructor; auto.
  - apply (tree_wf_agree st); auto. intros a. rewrite Hfr. tauto.
  - intros q t Hq Hv <-. by apply Hw.
  - intros q i Hq Hv Hi Hnh t. rewrite Hw by (done || lia). intros Hwq.
    rewrite !entry_ld64, (Hent q) by (done || lia). by apply Hnh.
  - intros q i Hq Hv Hi. apply leaf_ext; auto; [lia|]. intros t Hwq. apply (Hent q); auto; lia.
Qed.

(** Linking the freshly allocated page. *)
Section Link.
Context (st st1 : mm A) (root tp i new v : Z) (p : list Z).
Context (Hwf : tree_wf st root) (Ha : alloc_page st = (st1, new)) (Hn0 : new <> 0).
Context (Hp : (length p <= 2)%nat) (Hvp : Forall valid_index p) (Hi : valid_index i).
Context (Hwp : walk (mem st) root p = Some tp).
Context (Habs : has (entry st tp i) PTE_PRESENT = false).
Context (H1 : has v PTE_PRESENT = true) (H2 : has v PTE_HUGE = false).
Context (H3 : Z.land v PTE_ADDR_MASK = new).
Let st2 := set_entry tp i v st1.

Lemma link_alloc :
  fa_wf (frames st1) /\ same_regs st st1 /\ table_page new /\
  (forall a, in_block new 1 a -> fa_free (frames st) a) /\
  (forall a, fa_free (frames st1) a <-> fa_free (frames st) a /\ ~ in_block new 1 a) /\
  (forall j, valid_index j -> ld64 (mem st1) (entry_addr new j) = 0) /\
  (forall a, ~ in_block new 1 a -> ld64 (mem st1) a = ld64 (mem st) a).
Proof.
  destruct (alloc_page_spec _ _ _ (tree_frames _ _ Hwf) Ha) as
    (Hfw & Hr & [(? & _)|(Ht & Hin & Hfr & Hz & Hsame)]); [done|]. auto 10.
Qed.

Lemma link_fresh q : (length q <= 3)%nat -> Forall valid_index q ->
  walk (mem st) root q <> Some new.
Proof.
  intros Hq Hv Hwq. destruct link_alloc as (_ & _ & _ & Hin & _).
  destruct (tree_tables _ _ Hwf q new Hq Hv Hwq) as [_ Hnf].
  apply (Hnf new); [|apply Hin]; unfold in_block, PAGE_SIZE; lia.
Qed.

Lemma link_entries q t j : (length q <= 3)%nat -> Forall valid_index q -> valid_index j ->
  walk (mem st) root q = Some t -> ld64 (mem st1) (entry_addr t j) = ld64 (mem st) (entry_addr t j).
Proof.
  intros Hq Hv Hj Hwq. destruct link_alloc as (_ & _ & _ & Hin & _ & _ & Hsame).
  destruct (tree_tables _ _ Hwf q t Hq Hv Hwq) as [_ Hnf].
  apply Hsame. intros Hb. eapply Hnf; [by apply entry_in_block|auto].
Qed.

Lemma link_walk q : (length q <= 3)%nat -> Forall valid_index q ->
  walk (mem st2) root q = if decide (q = p ++ [i]) then Some new else walk (mem st) root q.
Proof.
  destruct link_alloc as (_ & _ & Ht & _ & _ & Hz & _).
  intros Hq Hv. rewrite <-(alloc_walk st st1 root new) by done.
  apply (walk_link st1 root p); auto.
  - apply (alloc_extends _ _ _ _ Hwf Ha).
  - rewrite (alloc_walk st st1 root new) by (done || lia). done.
  - apply child_absent. rewrite (link_entries p) by (done || lia). done.
  - intros Heq. apply (link_fresh p); [lia|done|]. by rewrite Heq.
Qed.

Lemma link_tree : tree_wf st2 root.
Proof.
  destruct link_alloc as (Hfw & _ & Ht & _ & Hfr & _). constructor; [done| |].
  - intros q t Hq Hv. rewrite link_walk by done. case_decide as Hd.
    + intros [= <-]. split; [done|]. intros a Hb Hfa. by apply Hfr in Hfa as [_ ?].
    + intros Hwq. destruct (tree_tables _ _ Hwf q t Hq Hv Hwq) as [Htq Hnfq].
      split; [done|]. intros a Hb Hfa. apply Hfr in Hfa as [? _]. by apply (Hnfq a).
  - intros q1 q2 t Hq1 Hq2 Hv1 Hv2. rewrite !link_walk by done.
    repeat case_decide; intros Ha1 Ha2; [congruence| | |].
    + exfalso. apply (link_fresh q2); [done|done|congruence].
    + exfalso. apply (link_fresh q1); [done|done|congruence].
    + eapply (tree_inj _ _ Hwf); eauto.
Qed.

Lemma link_leaf q j : length q = 3%nat -> Forall valid_index q -> valid_index j ->
  leaf (mem st2) root q j = leaf (mem st) root q j.
Proof.
  destruct link_alloc as (_ & _ & Ht & _ & _ & Hz & _).
  assert (Htp : table_page tp) by (eapply (tree_table_page st root p); eauto; lia).
  intros Hq Hv Hj. unfold leaf. rewrite link_walk by (done || lia). case_decide as Hd.
  - subst q. rewrite walk_snoc, Hwp, child_absent by done. simpl.
    fold (entry_addr tp i). rewrite ld64_st64_ne; [by apply Hz|].
    intros [He _]%entry_addr_inj; auto. apply (link_fresh p); [lia|done|]. by rewrite <-He.
  - destruct (walk (mem st) root q) as [t|] eqn:Hwq; [|done]. simpl.
    fold (entry_addr tp i). rewrite ld64_st64_ne; [by apply (link_entries q); auto; lia|].
    intros [Hpq _]%(tree_entry_inj st root p q); auto; try lia. subst q. lia.
Qed.

Lemma link_huge q j : (length q <= 2)%nat -> Forall valid_index q -> valid_index j ->
  not_huge st root q j -> not_huge st2 root q j.
Proof.
  destruct link_alloc as (_ & _ & Ht & _ & _ & Hz & _).
  assert (Htp : table_page tp) by (eapply (tree_table_page st root p); eauto; lia).
  intros Hq Hv Hj Hnh t. rewrite link_walk by (done || lia). rewrite !entry_ld64. simpl.
  fold (entry_addr tp i). case_decide as Hd.
  - intros [= <-]. rewrite ld64_st64_ne, Hz, has_0_l by
      (done || (intros [He _]%entry_addr_inj; auto; apply (link_fresh p); [lia|done|by rewrite <-He])).
    done.
  - intros Hwq. destruct (decide (entry_addr tp i = entry_addr t j)) as [He|Hne].
    + by rewrite <-He, ld64_st64_eq.
    + rewrite ld64_st64_ne, (link_entries q) by (done || lia). by apply Hnh.
Qed.

Lemma link_extends : extends st st2 root.
Proof.
  destruct link_alloc as (_ & [Hc Hk] & _).
  constructor; [apply link_tree|by split| |apply link_huge|apply link_leaf].
  intros q t Hq Hv Hwq. rewrite link_walk by done. case_decide as Hd; [|done].
  subst q. by rewrite walk_snoc, Hwp, child_absent in Hwq.
Qed.
End Link.

(** Setting the user bit of an inner entry. *)
Lemma touch_extends st root p tp i :
  tree_wf st root -> (length p <= 2)%nat -> Forall valid_index p -> valid_index i ->
  walk (mem st) root p = Some tp ->
  extends st (set_entry tp i (Z.lor (entry st tp i) PTE_USER) st) root.
Proof.
  intros Hwf Hp Hvp Hi Hwp.
  assert (Hw : forall q, (length q <= 3)%nat -> Forall valid_index q ->
    walk (mem (set_entry tp i (Z.lor (entry st tp i) PTE_USER) st)) root q = walk (mem st) root q).
  { apply walk_agree. intros q t j Hq Hv Hj Hwq. simpl. fold (entry_addr tp i).
    destruct (decide (entry_addr t j = entry_addr tp i)) as [He|Hne].
    - destruct (user_entry_bits (entry st tp i)) as (B1 & B2 & B3).
      apply child_same_bits; rewrite He, ld64_st64_eq; done.
    - apply child_ext, ld64_st64_ne. done. }
  constructor; [|by split| | |].
  - apply (tree_wf_agree st); auto. apply Hwf.
  - intros q t Hq Hv Hwq. by rewrite Hw.
  - intros q j Hq Hv Hj Hnh t. rewrite Hw by (done || lia). intros Hwq.
    rewrite (entry_ld64 (set_entry _ _ _ _)). simpl. fold (entry_addr tp i). destruct (decide (entry_addr tp i = entry_addr t j)) as [He|Hne].
    + destruct (user_entry_bits (entry st tp i)) as (B1 & B2 & _).
      rewrite entry_ld64 in *. rewrite <-He, ld64_st64_eq, B1, B2, He. by apply Hnh.
    + rewrite ld64_st64_ne by done. by apply Hnh.
  - intros q j Hq Hv Hj. apply leaf_ext; auto; [lia|]. intros t Hwq. simpl.
    fold (entry_addr tp i). apply ld64_st64_ne.
    intros [Hpq _]%(tree_entry_inj st root p q); auto; try lia. subst q. lia.
Qed.

(** [ensure_table]: on success the sub-table exists at [p ++ [i]]; it is the
    table created, or the one already there. *)
Lemma ensure_table_spec st root p tp i flags st' r :
  tree_wf st root -> (length p <= 2)%nat -> Forall valid_index p -> valid_index i ->
  walk (mem st) root p = Some tp ->
  (has (entry st tp i) PTE_PRESENT = true -> has (entry st tp i) PTE_HUGE = false) ->
  ensure_table st tp i flags = (st', r) ->
  extends st st' root /\
  match r with
  | None => True
  | Some new =>
      walk (mem st') root (p ++ [i]) = Some (next st' tp i) /\
      (new <> 0 -> new = next st' tp i /\ walk (mem st) root (p ++ [i]) = None /\
         forall q, (length q <= 3)%nat -> Forall valid_index q -> q <> p ++ [i] ->
           walk (mem st') root q = walk (mem st) root q)
  end.
Proof.
  intros Hwf Hp Hvp Hi Hwp Hhuge. unfold ensure_table.
  destruct (has (entry st tp i) PTE_PRESENT) eqn:Hpres; simpl.
  - assert (Hc := child_present st tp i Hpres (Hhuge eq_refl)).
    destruct (user_entry_bits (entry st tp i)) as (B1 & B2 & B3).
    destruct (has flags PTE_USER); intros [= <- <-].
    + pose proof (touch_extends st root p tp i Hwf Hp Hvp Hi Hwp) as He.
      split; [done|]. split; [|done].
      assert (Hn : next (set_entry tp i (Z.lor (entry st tp i) PTE_USER) st) tp i = next st tp i).
      { unfold next. rewrite <-B3. f_equal. apply ld64_st64_eq. }
      rewrite Hn. apply (ext_walk _ _ _ He); [rewrite length_app; simpl; lia| |].
      * apply Forall_app. by split; [|constructor].
      * by rewrite walk_snoc, Hwp.
    + split; [by apply extends_refl|]. split; [|done]. by rewrite walk_snoc, Hwp.
  - destruct (alloc_page st) as [st1 new] eqn:Ha.
    destruct (Z.eqb_spec new 0) as [->|Hn0].
    { intros [= <- <-]. split; [|done]. by eapply alloc_extends. }
    intros [= <- <-]. set (v := Z.lor new _).
    destruct (alloc_page_spec _ _ _ (tree_frames _ _ Hwf) Ha) as
      (_ & _ & [(? & _)|(Ht & _)]); [done|].
    destruct (table_entry_bits new flags Ht) as (B1 & B2 & B3). fold v in B1, B2, B3.
    assert (Hnext : next (set_entry tp i v st1) tp i = new).
    { unfold next, entry. simpl. by rewrite ld64_st64_eq. }
    assert (Hlw : forall q, (length q <= 3)%nat -> Forall valid_index q ->
      walk (mem (set_entry tp i v st1)) root q =
        if decide (q = p ++ [i]) then Some new else walk (mem st) root q).
    { intros q Hq Hv. eapply link_walk; eauto. }
    rewrite Hnext. split; [eapply link_extends; eauto|].
    split; [|intros _; split_and!; [done| |]].
    + rewrite Hlw; [by rewrite decide_True|rewrite length_app; simpl; lia|].
      apply Forall_app. by split; [|constructor].
    + by rewrite walk_snoc, Hwp, child_absent.
    + intros q Hq Hv Hne. rewrite Hlw by done. by rewrite decide_False.
Qed.

(** ** Unlinking a table *)

Lemma free_page_spec st st' p rc :
  fa_wf (frames st) -> fits 64 p -> free_page st p = (st', rc) ->
  fa_wf (frames st') /\ same_regs st st' /\ mem st' = mem st /\
  forall a, fa_free (frames st') a -> fa_free (frames st) a \/ in_block p 1 a.
Proof.
  intros Hwf Hp. unfold free_page, fa_free_page.
  destruct (fa_free_pages (frames st) p 1) as [f rc'] eqn:Hf.
  destruct (fa_free_law _ _ _ _ _ Hwf Hp Z.le_0_1 Hf) as (Hwf' & [(-> & ->)|(-> & _ & Hfr)]);
    intros [= <- <-]; simpl; split_and!; auto; try (by split).
  intros a. apply Hfr.
Qed.

Lemma table_page_fits t : table_page t -> fits 64 t.
Proof. unfold table_page, fits, PAGE_SIZE. lia. Qed.

(** Clearing entry [i] of the table at [p] and freeing the page it pointed to
    removes exactly that subtree. *)
Section Clear.
Context (st st2 : mm A) (root tp i sub rc : Z) (p : list Z).
Context (Hwf : tree_wf st root) (Hp : (length p <= 2)%nat).
Context (Hvp : Forall valid_index p) (Hi : valid_index i).
Context (Hwp : walk (mem st) root p = Some tp).
Context (Hws : walk (mem st) root (p ++ [i]) = Some sub).
Context (Hfree : free_page (set_entry tp i 0 st) sub = (st2, rc)).

Lemma clear_valid : (length (p ++ [i]) <= 3)%nat /\ Forall valid_index (p ++ [i]).
Proof. rewrite length_app. simpl. split; [lia|]. apply Forall_app. by split; [|constructor]. Qed.

Lemma clear_effect :
  fa_wf (frames st2) /\ same_regs st st2 /\
  mem st2 = st64 (mem st) (entry_addr tp i) 0 /\
  forall a, fa_free (frames st2) a -> fa_free (frames st) a \/ in_block sub 1 a.
Proof.
  destruct clear_valid as [Hl Hv].
  destruct (free_page_spec (set_entry tp i 0 st) st2 sub rc) as (? & ? & ? & ?); auto.
  - apply Hwf.
  - eapply table_page_fits, tree_table_page; eauto.
Qed.

Lemma clear_walk q : (length q <= 3)%nat -> Forall valid_index q ->
  walk (mem st2) root q = if decide ((p ++ [i]) `prefix_of` q) then None else walk (mem st) root q.
Proof.
  intros Hq Hv. destruct clear_effect as (_ & _ & -> & _). case_decide as Hd.
  - destruct Hd as [r ->]. rewrite walk_app, walk_snoc.
    assert (Hnp : ~ (p ++ [i]) `prefix_of` p).
    { intros [r' Hr]. apply (f_equal length) in Hr. rewrite !length_app in Hr. simpl in Hr. lia. }
    rewrite (walk_store st root p) by (done || lia). rewrite Hwp.
    by rewrite child_absent by (by rewrite ld64_st64_eq, has_0_l).
  - apply (walk_store st root p); (done || lia).
Qed.

Lemma clear_tree : tree_wf st2 root.
Proof.
  destruct clear_effect as (Hfw & _ & _ & Hfr). destruct clear_valid as [Hl Hv].
  constructor; [done| |].
  - intros q t Hq Hvq. rewrite clear_walk by done. case_decide as Hd; [done|]. intros Hwq.
    destruct (tree_tables _ _ Hwf q t Hq Hvq Hwq) as [Ht Hnf]. split; [done|].
    intros a Ha [Hfa|Hb]%Hfr; [by apply (Hnf a)|].
    assert (t = sub) as -> by (eapply same_page; eauto using tree_table_page).
    apply Hd. by rewrite (tree_inj _ _ Hwf q (p ++ [i]) sub).
  - intros q1 q2 t Hq1 Hq2 Hv1 Hv2. rewrite !clear_walk by done.
    repeat case_decide; try done. by apply (tree_inj _ _ Hwf).
Qed.

Lemma clear_entry q t j : (length q <= 3)%nat -> Forall valid_index q -> valid_index j ->
  walk (mem st) root q = Some t -> q <> p \/ j <> i ->
  entry st2 t j = entry st t j.
Proof.
  intros Hq Hv Hj Hwq Hne. destruct clear_effect as (_ & _ & Hm & _).
  rewrite !entry_ld64, Hm, ld64_st64_ne; [done|].
  intros [-> ->]%(tree_entry_inj st root p q); auto; try lia. by destruct Hne.
Qed.

Lemma clear_leaf q j : length q = 3%nat -> Forall valid_index q -> valid_index j ->
  leaf (mem st2) root q j =
    if decide ((p ++ [i]) `prefix_of` q) then 0 else leaf (mem st) root q j.
Proof.
  intros Hq Hv Hj. unfold leaf. rewrite clear_walk by (done || lia).
  case_decide as Hd; [done|]. destruct (walk (mem st) root q) as [t|] eqn:Hwq; [|done].
  apply (clear_entry q); auto; [lia|]. left. intros ->. lia.
Qed.
End Clear.

(** ** Writing a leaf *)

Definition same_leaves st st' (root : Z) : Prop :=
  forall q j, length q = 3%nat -> Forall valid_index q -> valid_index j ->
    leaf (mem st') root q j = leaf (mem st) root q j.

Lemma set_leaf_spec st root q pt i v :
  tree_wf st root -> length q = 3%nat -> Forall valid_index q -> valid_index i ->
  walk (mem st) root q = Some pt ->
  let st' := set_entry pt i v st in
  tree_wf st' root /\
  (forall p, (length p <= 3)%nat -> Forall valid_index p ->
     walk (mem st') root p = walk (mem st) root p) /\
  (forall q' j, length q' = 3%nat -> Forall valid_index q' -> valid_index j ->
     leaf (mem st') root q' j = if decide (q' = q /\ j = i) then v else leaf (mem st) root q' j).
Proof.
  intros Hwf Hq Hv Hi Hwq st'.
  assert (Hw : forall p, (length p <= 3)%nat -> Forall valid_index p ->
     walk (mem st') root p = walk (mem st) root p).
  { intros p Hp Hvp. apply (walk_store st root q); (done || lia || idtac).
    intros [r Hr]. apply (f_equal length) in Hr. rewrite !length_app in Hr. simpl in Hr. lia. }
  split; [apply (tree_wf_agree st); auto; apply Hwf|]. split; [done|].
  intros q' j Hq' Hv' Hj. unfold leaf. rewrite Hw by (done || lia).
  destruct (walk (mem st) root q') as [t|] eqn:Hwq'.
  - simpl. fold (entry_addr pt i). case_decide as Hd.
    + destruct Hd as [-> ->]. simplify_eq. apply ld64_st64_eq.
    + apply ld64_st64_ne. intros He. apply Hd.
      apply (tree_entry_inj st root q q') in He as [-> ->]; (done || lia).
  - rewrite decide_False; [done|]. intros [-> ->]. congruence.
Qed.

(** ** Rolling back *)

Lemma undo_table_spec st root p tp i new :
  tree_wf st root -> (length p <= 2)%nat -> Forall valid_index p -> valid_index i ->
  walk (mem st) root p = Some tp ->
  (new <> 0 -> walk (mem st) root (p ++ [i]) = Some new /\
     forall q j, length q = 3%nat -> Forall valid_index q -> valid_index j ->
       (p ++ [i]) `prefix_of` q -> leaf (mem st) root q j = 0) ->
  let st' := undo_table st tp i new in
  tree_wf st' root /\ same_regs st st' /\ same_leaves st st' root /\
  (forall q, (length q <= 3)%nat -> Forall valid_index q -> ~ (p ++ [i]) `prefix_of` q ->
     walk (mem st') root q = walk (mem st) root q).
Proof.
  intros Hwf Hp Hvp Hi Hwp Hnew. unfold undo_table.
  destruct (Z.eqb_spec new 0) as [->|Hn]; simpl.
  { split_and!; auto; [by split|]. intros q j _ _ _. done. }
  destruct (Hnew Hn) as [Hws Hzero].
  destruct (free_page (set_entry tp i 0 st) new) as [st2 rc] eqn:Hf. simpl.
  destruct (clear_effect st st2 root tp i new rc p) as (_ & Hr & _); auto.
  split; [by apply (clear_tree st st2 root tp i new rc p)|]. split; [done|]. split.
  - intros q j Hq Hv Hj. rewrite (clear_leaf st st2 root tp i new rc p) by done.
    case_decide as Hd; [|done]. by rewrite Hzero.
  - intros q Hq Hv Hd. rewrite (clear_walk st st2 root tp i new rc p) by done.
    by rewrite decide_False.
Qed.

(** ** Mapping a page *)

Definition path_not_huge st (root v : Z) : Prop :=
  not_huge st root [] (index 3 v) /\ not_huge st root [index 3 v] (index 2 v) /\
  not_huge st root [index 3 v; index 2 v] (index 1 v).

(** The leaf entry written for a page. *)
Definition mk_pte (phys flags : Z) : Z :=
  Z.lor (Z.lor (Z.land phys PTE_ADDR_MASK) PTE_PRESENT)
    (Z.land flags (Z.lor 0xFFF PTE_NO_EXECUTE)).

Definition same_page_as (v v' : Z) : Prop := vpath v' = vpath v /\ index 0 v' = index 0 v.

Lemma mk_pte_addr phys flags :
  0 <= phys < 2 ^ 52 -> phys mod PAGE_SIZE = 0 ->
  Z.land (mk_pte phys flags) PTE_ADDR_MASK = phys.
Proof.
  intros Hp Ha. unfold mk_pte.
  rewrite !Z.land_lor_distr_l, (land_flags_mask flags) by done.
  rewrite !(land_addr_mask phys) by done. change (Z.land PTE_PRESENT PTE_ADDR_MASK) with 0.
  by rewrite !Z.lor_0_r.
Qed.

Lemma mk_pte_present phys flags : has (mk_pte phys flags) PTE_PRESENT = true.
Proof. unfold mk_pte. rewrite !has_lor. by rewrite orb_true_r. Qed.

Lemma same_leaves_trans st1 st2 st3 root :
  same_leaves st1 st2 root -> same_leaves st2 st3 root -> same_leaves st1 st3 root.
Proof. intros H1 H2 q j Hq Hv Hj. by rewrite H2, H1. Qed.

Lemma same_regs_trans st1 st2 st3 : same_regs st1 st2 -> same_regs st2 st3 -> same_regs st1 st3.
Proof. unfold same_regs. intuition congruence. Qed.

Lemma extends_same_leaves st st' root : extends st st' root -> same_leaves st st' root.
Proof. intros H q j ???. by apply (ext_leaf _ _ _ H). Qed.

(** The sub-table an [ensure_table] created has no leaf below it. *)
Lemma ensured_undo st st1 st2 root p tp i flags new :
  tree_wf st root -> (length p <= 2)%nat -> Forall valid_index p -> valid_index i ->
  walk (mem st) root p = Some tp -> not_huge st root p i ->
  ensure_table st tp i flags = (st1, Some new) ->
  extends st1 st2 root \/ (tree_wf st2 root /\ same_regs st1 st2 /\ same_leaves st1 st2 root /\
    walk (mem st2) root p = Some tp /\ walk (mem st2) root (p ++ [i]) = walk (mem st1) root (p ++ [i])) ->
  let st3 := undo_table st2 tp i new in
  tree_wf st3 root /\ same_regs st st3 /\ same_leaves st st3 root /\
  walk (mem st3) root p = Some tp.
Proof.
  intros Hwf Hp Hvp Hi Hwp Hnh He Hst2.
  destruct (ensure_table_spec st root p tp i flags st1 (Some new)) as (Hext & Hws & Hnew); auto.
  assert (Hpi : (length (p ++ [i]) <= 3)%nat /\ Forall valid_index (p ++ [i])).
  { rewrite length_app. simpl. split; [lia|]. apply Forall_app. by split; [|constructor]. }
  assert (tree_wf st2 root /\ same_regs st1 st2 /\ same_leaves st1 st2 root /\
    walk (mem st2) root p = Some tp /\ walk (mem st2) root (p ++ [i]) = walk (mem st1) root (p ++ [i]))
    as (Hwf2 & Hr2 & Hl2 & Hwp2 & Hws2).
  { destruct Hst2 as [Hx|]; [|done]. split_and!; eauto using ext_wf, ext_regs, extends_same_leaves.
    - apply (ext_walk _ _ _ Hx); [lia|done|]. apply (ext_walk _ _ _ Hext); [lia|done|done].
    - rewrite Hws. apply (ext_walk _ _ _ Hx); [apply Hpi|apply Hpi|done]. }
  destruct (undo_table_spec st2 root p tp i new) as (W & R & L & K); auto.
  - intros Hn. destruct (Hnew Hn) as (-> & Hnone & _). split; [congruence|].
    intros q j Hq Hv Hj [r ->]. rewrite Hl2, (ext_leaf _ _ _ Hext) by done.
    unfold leaf. by rewrite walk_app, Hnone.
  - split; [done|]. split; [|split].
    + eapply same_regs_trans; [by eapply ext_regs|]. by eapply same_regs_trans.
    + eapply same_leaves_trans; [by apply extends_same_leaves|]. by eapply same_leaves_trans.
    + rewrite K; [done|lia|done|]. intros [r Hr].
      apply (f_equal length) in Hr. rewrite !length_app in Hr. simpl in Hr. lia.
Qed.

(** The guards of [vmm_map_page]. *)
Definition map_rejected st (root virt phys flags : Z) : bool :=
  (root =? 0) || has virt (PAGE_SIZE - 1) || has phys (PAGE_SIZE - 1) ||
  (negb (Z.shiftr virt 47 =? 0) && negb (Z.shiftr virt 47 =? 0x1FFFF)) ||
  ((root =? kernel_pml4 st) && has flags PTE_USER) ||
  (has flags PTE_USER && (USER_VA_LIMIT <=? virt)) || wx_violation flags.

(** The three descents of [vmm_map_page], by outcome: either the page table of
    [virt] is reached in an extended tree, or everything is rolled back. *)
Definition descend st (root virt flags : Z) : mm A * option Z :=
  let '(st1, r1) := ensure_table st root (index 3 virt) flags in
  match r1 with
  | None => (st1, None)
  | Some new_pdpt =>
      let pdpt := next st1 root (index 3 virt) in
      let '(st2, r2) := ensure_table st1 pdpt (index 2 virt) flags in
      match r2 with
      | None => (undo_table st2 root (index 3 virt) new_pdpt, None)
      | Some new_pd =>
          let pd := next st2 pdpt (index 2 virt) in
          let '(st3, r3) := ensure_table st2 pd (index 1 virt) flags in
          match r3 with
          | None =>
              (undo_table (undo_table st3 pdpt (index 2 virt) new_pd) root (index 3 virt) new_pdpt, None)
          | Some _ => (st3, Some (next st3 pd (index 1 virt)))
          end
      end
  end.

Lemma vmm_map_page_unfold st root virt phys flags :
  vmm_map_page st root virt phys flags =
    if map_rejected st root virt phys flags then (st, -1)
    else
      let '(st', r) := descend st root virt flags in
      match r with
      | None => (st', -1)
      | Some pt =>
          if has (entry st' pt (index 0 virt)) PTE_PRESENT then (st', -1)
          else (set_entry pt (index 0 virt) (mk_pte phys flags) st', 0)
      end.
Proof.
  unfold vmm_map_page, map_rejected, descend.
  destruct (_ || has virt _ || has phys _); cbn [orb]; [reflexivity|].
  destruct (negb _ && negb _); cbn [orb]; [reflexivity|].
  destruct (_ && has flags PTE_USER); cbn [orb]; [reflexivity|].
  destruct (has flags PTE_USER && _); cbn [orb]; [reflexivity|].
  destruct (wx_violation flags); [reflexivity|].
  destruct (ensure_table st root _ _) as [st1 [n1|]]; [|reflexivity].
  destruct (ensure_table st1 _ _ _) as [st2 [n2|]]; [|reflexivity].
  destruct (ensure_table st2 _ _ _) as [st3 [n3|]]; reflexivity.
Qed.

Lemma descend_spec st root virt flags st' r :
  tree_wf st root -> path_not_huge st root virt -> descend st root virt flags = (st', r) ->
  tree_wf st' root /\ same_regs st st' /\ same_leaves st st' root /\
  match r with Some pt => walk (mem st') root (vpath virt) = Some pt | None => True end.
Proof.
  intros Hwf (N3 & N2 & N1). unfold descend.
  pose proof (index_valid 3 virt) as V3. pose proof (index_valid 2 virt) as V2.
  pose proof (index_valid 1 virt) as V1.
  assert (P1 : Forall valid_index [index 3 virt]) by (by rewrite Forall_singleton).
  assert (P2 : Forall valid_index [index 3 virt; index 2 virt]) by (by rewrite !Forall_cons).
  destruct (ensure_table st root _ _) as [st1 r1] eqn:E1.
  destruct (ensure_table_spec st root [] root (index 3 virt) flags st1 r1) as [X1 S1]; auto; try (simpl; lia).
  destruct r1 as [new_pdpt|].
  2:{ intros [= <- <-]. split_and!; eauto using ext_wf, ext_regs, extends_same_leaves. }
  destruct S1 as [W1 _]. cbn [app] in W1. set (pdpt := next st1 root (index 3 virt)) in *.
  pose proof (ext_huge _ _ _ X1 [index 3 virt] _ ltac:(simpl; lia) P1 V2 N2) as N2'.
  destruct (ensure_table st1 pdpt _ _) as [st2 r2] eqn:E2.
  destruct (ensure_table_spec st1 root [index 3 virt] pdpt (index 2 virt) flags st2 r2) as [X2 S2];
    eauto using ext_wf; try (simpl; lia).
  destruct r2 as [new_pd|].
  2:{ intros [= <- <-].
      destruct (ensured_undo st st1 st2 root [] root (index 3 virt) flags new_pdpt) as (? & ? & ? & _);
        auto; try (simpl; lia). }
  destruct S2 as [W2 _]. cbn [app] in W2. set (pd := next st2 pdpt (index 2 virt)) in *.
  pose proof (ext_huge _ _ _ (extends_trans _ _ _ _ X1 X2) [index 3 virt; index 2 virt] _
                ltac:(simpl; lia) P2 V1 N1) as N1'.
  destruct (ensure_table st2 pd _ _) as [st3 r3] eqn:E3.
  destruct (ensure_table_spec st2 root [index 3 virt; index 2 virt] pd (index 1 virt) flags st3 r3)
    as [X3 S3]; eauto using ext_wf.
  destruct r3 as [new_pt|].
  - destruct S3 as [W3 _]. intros [= <- <-].
    pose proof (extends_trans _ _ _ _ (extends_trans _ _ _ _ X1 X2) X3) as X.
    split_and!; eauto using ext_wf, ext_regs, extends_same_leaves.
  - intros [= <- <-].
    destruct (ensured_undo st1 st2 st3 root [index 3 virt] pdpt (index 2 virt) flags new_pd)
      as (U1 & U2 & U3 & U4); eauto using ext_wf; try (simpl; lia).
    destruct (ensured_undo st st1 (undo_table st3 pdpt (index 2 virt) new_pd) root [] root
                (index 3 virt) flags new_pdpt) as (? & ? & ? & _); auto; try (simpl; lia).
    right. split_and!; auto. cbn [app]. by rewrite W1.
Qed.

Lemma leaf_page_phys st root v :
  vmm_get_page_phys st root v =
    (let e := vmm_get_page_flags st root v in
     if has e PTE_PRESENT then Z.land e PTE_ADDR_MASK else 0).
Proof.
  unfold vmm_get_page_phys, vmm_get_page_flags. destruct (vmm_get_pt st root v) as [pt|].
  - by destruct (has _ _).
  - by rewrite has_0_l.
Qed.

(** What a page-table operation may do to the translations of [root]: change
    the entry of [virt] to [e], and nothing else. *)
Definition only_entry st st' (root virt e : Z) : Prop :=
  tree_wf st' root /\ same_regs st st' /\ vmm_get_page_flags st' root virt = e /\
  forall v, ~ same_page_as virt v -> vmm_get_page_flags st' root v = vmm_get_page_flags st root v.

Definition unchanged st st' (root : Z) : Prop :=
  tree_wf st' root /\ same_regs st st' /\
  forall v, vmm_get_page_flags st' root v = vmm_get_page_flags st root v.

Lemma same_leaves_unchanged st st' root :
  tree_wf st' root -> same_regs st st' -> same_leaves st st' root -> unchanged st st' root.
Proof.
  intros Hwf Hr Hl. split_and!; auto. intros v. rewrite !vmm_get_page_flags_leaf.
  apply Hl; [done|apply vpath_valid|apply index_valid].
Qed.

Lemma set_leaf_only_entry st0 st root virt pt e :
  tree_wf st root -> same_regs st0 st -> same_leaves st0 st root ->
  walk (mem st) root (vpath virt) = Some pt ->
  only_entry st0 (set_entry pt (index 0 virt) e st) root virt e.
Proof.
  intros Hwf Hr Hl Hw.
  destruct (set_leaf_spec st root (vpath virt) pt (index 0 virt) e) as (W & K & L);
    auto using vpath_valid, index_valid.
  split; [done|]. split; [destruct Hr; by split|]. split.
  - rewrite vmm_get_page_flags_leaf, L by auto using vpath_valid, index_valid.
    by rewrite decide_True.
  - intros v Hv. rewrite !vmm_get_page_flags_leaf, L by auto using vpath_valid, index_valid.
    rewrite decide_False; [|intros [? ?]; by apply Hv].
    apply Hl; auto using vpath_valid, index_valid.
Qed.

Lemma vmm_map_page_inv st root virt phys flags st' rc :
  tree_wf st root -> path_not_huge st root virt -> 0 <= phys < 2 ^ 52 ->
  vmm_map_page st root virt phys flags = (st', rc) ->
  (rc = -1 /\ unchanged st st' root) \/
  (rc = 0 /\ map_rejected st root virt phys flags = false /\
   has (vmm_get_page_flags st root virt) PTE_PRESENT = false /\
   only_entry st st' root virt (mk_pte phys flags) /\ vmm_get_page_phys st' root virt = phys).
Proof.
  intros Hwf Hnh Hphys. rewrite vmm_map_page_unfold.
  destruct (map_rejected st root virt phys flags) eqn:Hrej.
  { intros [= <- <-]. left. split; [done|]. split_and!; auto. by split. }
  destruct (descend st root virt flags) as [st1 r] eqn:Hd.
  destruct (descend_spec _ _ _ _ _ _ Hwf Hnh Hd) as (W & R & L & K).
  destruct r as [pt|].
  2:{ intros [= <- <-]. left. split; [done|]. by apply same_leaves_unchanged. }
  assert (Hold : vmm_get_page_flags st root virt = entry st1 pt (index 0 virt)).
  { rewrite vmm_get_page_flags_leaf, <-L by auto using vpath_valid, index_valid.
    unfold leaf. by rewrite K. }
  destruct (has (entry st1 pt _) PTE_PRESENT) eqn:Hpres; intros [= <- <-].
  { left. split; [done|]. by apply same_leaves_unchanged. }
  right. pose proof (set_leaf_only_entry st st1 root virt pt (mk_pte phys flags) W R L K) as Ho.
  split_and!; auto; [congruence|]. destruct Ho as (_ & _ & Hf & _).
  rewrite leaf_page_phys. cbv zeta. rewrite Hf, mk_pte_present. apply mk_pte_addr; [done|].
  unfold map_rejected in Hrej. rewrite !orb_false_iff in Hrej.
  assert (Hal : has phys (PAGE_SIZE - 1) = false) by tauto.
  change (PAGE_SIZE - 1) with (2 ^ 12 - 1) in Hal. rewrite has_low_iff in Hal by lia.
  by apply negb_false_iff, Z.eqb_eq in Hal.
Qed.

(** ** Unmapping *)

(** The translation of a page: its entry when present. *)
Definition view st (root v : Z) : option Z :=
  let e := vmm_get_page_flags st root v in if has e PTE_PRESENT then Some e else None.

Definition leaf_view (m : memory) (root : Z) (q : list Z) (j : Z) : option Z :=
  let e := leaf m root q j in if has e PTE_PRESENT then Some e else None.

Definition same_views st st' (root : Z) : Prop :=
  forall q j, length q = 3%nat -> Forall valid_index q -> valid_index j ->
    leaf_view (mem st') root q j = leaf_view (mem st) root q j.

Lemma table_empty_spec st t :
  table_empty st t = true <-> forall j, valid_index j -> has (entry st t j) PTE_PRESENT = false.
Proof.
  unfold table_empty. rewrite forallb_forall. split.
  - intros H j Hj. apply negb_true_iff, H. apply list_elem_of_In, elem_of_seqZ. unfold valid_index in Hj. lia.
  - intros H j Hj. apply negb_true_iff, H. apply list_elem_of_In, elem_of_seqZ in Hj. unfold valid_index. lia.
Qed.

#[local] Opaque table_empty.

Lemma addr_mask_aligned e : Z.land e PTE_ADDR_MASK mod PAGE_SIZE = 0 /\ 0 <= Z.land e PTE_ADDR_MASK < 2 ^ 52.
Proof.
  change PTE_ADDR_MASK with (Z.land (2 ^ 52 - 1) (Z.lnot (2 ^ 12 - 1))).
  rewrite Z.land_assoc, land_ones_mod by lia.
  rewrite <-Z.ldiff_land. replace (2 ^ 12 - 1) with (Z.ones 12) by done.
  rewrite Z.ldiff_ones_r, Z.shiftl_mul_pow2, Z.shiftr_div_pow2 by lia.
  change PAGE_SIZE with (2 ^ 12). rewrite Z.mod_mul by done.
  pose proof (Z.mod_pos_bound e (2 ^ 52)). pose proof (Z.div_mod (e mod 2 ^ 52) (2 ^ 12)).
  pose proof (Z.mod_pos_bound (e mod 2 ^ 52) (2 ^ 12)). lia.
Qed.

(** Freeing a page that is not a table of the tree. *)
Lemma free_leaf_tree st st' root e rc :
  tree_wf st root ->
  (forall q t, (length q <= 3)%nat -> Forall valid_index q -> walk (mem st) root q = Some t ->
     t <> Z.land e PTE_ADDR_MASK) ->
  free_page st (Z.land e PTE_ADDR_MASK) = (st', rc) ->
  tree_wf st' root /\ same_regs st st' /\ mem st' = mem st.
Proof.
  intros Hwf Hne Hf. destruct (addr_mask_aligned e) as [Hal Hb].
  assert (H64 : fits 64 (Z.land e PTE_ADDR_MASK)) by (unfold fits; lia).
  destruct (free_page_spec _ _ _ _ (tree_frames _ _ Hwf) H64 Hf) as (Hfw & Hr & Hm & Hfr).
  split_and!; auto. constructor; [done| |]; rewrite Hm.
  - intros q t Hq Hv Hw. destruct (tree_tables _ _ Hwf q t Hq Hv Hw) as [Ht Hnf].
    split; [done|]. intros a Ha [Hfa|Hba]%Hfr; [by apply (Hnf a)|].
    apply (Hne q t Hq Hv Hw). destruct Ht as (_ & Hta & _). unfold in_block in *.
    apply Z.mod_divide in Hta as [k1 ->]; [|done]. apply Z.mod_divide in Hal as [k2 Hk2]; [|done].
    rewrite Hk2 in *. unfold PAGE_SIZE in *. lia.
  - apply (tree_inj _ _ Hwf).
Qed.

(** ** Freed frames stay free *)

Lemma free_page_mono st st' p rc a :
  fa_wf (frames st) -> fits 64 p -> free_page st p = (st', rc) ->
  fa_free (frames st) a -> fa_free (frames st') a.
Proof.
  intros Hwf Hp. unfold free_page, fa_free_page.
  destruct (fa_free_pages (frames st) p 1) as [f rc'] eqn:Hf.
  destruct (fa_free_law _ _ _ _ _ Hwf Hp Z.le_0_1 Hf) as (_ & [(-> & ->)|(-> & _ & Hfr)]);
    intros [= <- <-]; cbn [frames set_frames]; [done|]. rewrite Hfr. auto.
Qed.

Lemma free_page_ok st st' p :
  fa_wf (frames st) -> fits 64 p -> free_page st p = (st', 0) ->
  forall a, in_block p 1 a -> fa_free (frames st') a.
Proof.
  intros Hwf Hp. unfold free_page, fa_free_page.
  destruct (fa_free_pages (frames st) p 1) as [f rc'] eqn:Hf.
  destruct (fa_free_law _ _ _ _ _ Hwf Hp Z.le_0_1 Hf) as (_ & [(-> & ->)|(-> & _ & Hfr)]);
    intros [=]; subst st'; cbn [frames set_frames]. intros a. rewrite Hfr. auto.
Qed.

(** Releasing frames: an error is never turned into a success, and nothing
    that was free is taken. *)
Definition releases st st' (result rc : Z) : Prop :=
  (rc = 0 -> result = 0) /\ forall a, fa_free (frames st) a -> fa_free (frames st') a.

Lemma releases_trans st1 st2 st3 r1 r2 r3 :
  releases st1 st2 r1 r2 -> releases st2 st3 r2 r3 -> releases st1 st3 r1 r3.
Proof. unfold releases. intuition. Qed.

Lemma drop_table_releases st tp i sub result st' rc :
  fa_wf (frames st) -> fits 64 sub -> drop_table st tp i sub result = (st', rc) ->
  releases st st' result rc.
Proof.
  intros Hwf Hs. unfold drop_table.
  destruct (free_page (set_entry tp i 0 st) sub) as [st1 rc1] eqn:Hf. intros [= <- <-].
  split; [by destruct (rc1 =? 0)|]. intros a.
  by apply (free_page_mono (set_entry tp i 0 st) _ sub rc1).
Qed.

(** Dropping an empty table changes no translation. *)
Lemma drop_table_spec st st' root p tp i sub result rc :
  tree_wf st root -> (length p <= 2)%nat -> Forall valid_index p -> valid_index i ->
  walk (mem st) root p = Some tp -> walk (mem st) root (p ++ [i]) = Some sub ->
  table_empty st sub = true -> drop_table st tp i sub result = (st', rc) ->
  tree_wf st' root /\ same_regs st st' /\ same_views st st' root /\ releases st st' result rc /\
  forall q, (length q <= 3)%nat -> Forall valid_index q -> ~ (p ++ [i]) `prefix_of` q ->
    walk (mem st') root q = walk (mem st) root q.
Proof.
  intros Hwf Hp Hvp Hi Hwp Hws Hem Hdrop.
  assert (Hrel : releases st st' result rc).
  { apply (drop_table_releases st tp i sub); [apply Hwf| |done].
    eapply table_page_fits, (tree_table_page st root (p ++ [i])); eauto.
    - rewrite length_app. simpl. lia.
    - apply Forall_app. by split; [|constructor]. }
  revert Hdrop. unfold drop_table.
  destruct (free_page (set_entry tp i 0 st) sub) as [st2 rc'] eqn:Hf. intros [= <- _].
  destruct (clear_effect st st2 root tp i sub rc' p) as (_ & Hr & _); auto.
  rewrite table_empty_spec in Hem.
  split; [by eapply (clear_tree st st2 root tp i sub rc' p)|]. split; [done|].
  split; [|split; [done|]].
  - intros q j Hq Hv Hj. unfold leaf_view. rewrite (clear_leaf st st2 root tp i sub rc' p) by done.
    case_decide as Hd; [|done]. rewrite has_0_l.
    enough (has (leaf (mem st) root q j) PTE_PRESENT = false) as -> by done.
    apply prefix_snoc_inv in Hd as [->|(k & r & ->)]; unfold leaf.
    + rewrite Hws. by apply Hem.
    + rewrite app_assoc, walk_app, Hws. simpl.
      rewrite !Forall_app, !Forall_cons in Hv. destruct Hv as (_ & (_ & _) & Hk & _).
      rewrite child_absent by (by apply Hem). by rewrite has_0_l.
  - intros q Hq Hv Hd. rewrite (clear_walk st st2 root tp i sub rc' p) by done.
    by rewrite decide_False.
Qed.

Lemma same_views_trans st1 st2 st3 root :
  same_views st1 st2 root -> same_views st2 st3 root -> same_views st1 st3 root.
Proof. intros H1 H2 q j Hq Hv Hj. by rewrite H2, H1. Qed.

(** The pruning cascade of [vmm_unmap_page], after the leaf was cleared. *)
Definition prune st (root virt pdpt pd pt result : Z) : mm A * Z :=
  if negb (table_empty st pt) then (st, result)
  else
    let '(st, result) := drop_table st pd (index 1 virt) pt result in
    if negb (table_empty st pd) then (st, result)
    else
      let '(st, result) := drop_table st pdpt (index 2 virt) pd result in
      if (index 3 virt <? 256) && table_empty st pdpt
      then drop_table st root (index 3 virt) pdpt result
      else (st, result).

Lemma prune_spec st root virt pdpt pd pt result st' rc :
  tree_wf st root -> walk (mem st) root [index 3 virt] = Some pdpt ->
  walk (mem st) root [index 3 virt; index 2 virt] = Some pd ->
  walk (mem st) root (vpath virt) = Some pt ->
  prune st root virt pdpt pd pt result = (st', rc) ->
  tree_wf st' root /\ same_regs st st' /\ same_views st st' root /\ releases st st' result rc.
Proof.
  intros Hwf W3 W2 W1. unfold prune.
  pose proof (index_valid 3 virt) as V3. pose proof (index_valid 2 virt) as V2.
  pose proof (index_valid 1 virt) as V1.
  assert (P1 : Forall valid_index [index 3 virt]) by (by rewrite Forall_singleton).
  assert (P2 : Forall valid_index [index 3 virt; index 2 virt]) by (by rewrite !Forall_cons).
  assert (Hno : forall (p r : list Z) i, p = p ++ i :: r -> False).
  { intros p r i Hr. apply (f_equal length) in Hr. rewrite length_app in Hr. simpl in Hr. lia. }
  destruct (table_empty st pt) eqn:E1; cbn [negb].
  2:{ intros [= <- <-]. split; [done|]. split; [by split|]. split; [by intros q j|by split]. }
  destruct (drop_table st pd _ pt result) as [st1 rc1] eqn:D1.
  destruct (drop_table_spec st st1 root [index 3 virt; index 2 virt] pd (index 1 virt) pt result rc1)
    as (T1 & R1 & S1 & F1 & K1); auto.
  assert (W3' : walk (mem st1) root [index 3 virt] = Some pdpt).
  { rewrite K1; [done|simpl; lia|done|]. intros [r Hr]. simplify_list_eq. }
  assert (W2' : walk (mem st1) root [index 3 virt; index 2 virt] = Some pd).
  { rewrite K1; [done|simpl; lia|done|]. intros [r Hr]. simplify_list_eq. }
  destruct (table_empty st1 pd) eqn:E2; cbn [negb]; [|intros [= <- <-]; auto].
  destruct (drop_table st1 pdpt _ pd rc1) as [st2 rc2] eqn:D2.
  destruct (drop_table_spec st1 st2 root [index 3 virt] pdpt (index 2 virt) pd rc1 rc2)
    as (T2 & R2 & S2 & F2 & K2); [done|apply le_S, le_n|done..|].
  pose proof (same_regs_trans _ _ _ R1 R2). pose proof (same_views_trans _ _ _ _ S1 S2).
  pose proof (releases_trans _ _ _ _ _ _ F1 F2).
  destruct (_ && table_empty st2 pdpt) eqn:E3; [|intros [= <- <-]; auto].
  apply andb_true_iff in E3 as [_ E3]. intros D3.
  destruct (drop_table_spec st2 st' root [] root (index 3 virt) pdpt rc2 rc)
    as (T3 & R3 & S3 & F3 & K3); [done|apply Nat.le_0_l|constructor|done|done| |done|done|].
  - cbn [app]. rewrite K2; [done|simpl; lia|done|]. intros [r Hr]. simplify_list_eq.
  - split; [done|]. split; [by eapply same_regs_trans|].
    split; [by eapply same_views_trans|by eapply releases_trans].
Qed.

Lemma vmm_unmap_page_unfold st root virt fp :
  vmm_unmap_page st root virt fp =
    if (root =? 0) || has virt (PAGE_SIZE - 1) then (st, -1)
    else match vmm_get_pt st root virt with
         | None => (st, -1)
         | Some pt =>
             let old := entry st pt (index 0 virt) in
             if negb (has old PTE_PRESENT) then (st, -1)
             else
               let st1 := set_entry pt (index 0 virt) 0 st in
               let '(st2, result) :=
                 if fp then free_page st1 (Z.land old PTE_ADDR_MASK) else (st1, 0) in
               match walk (mem st) root [index 3 virt],
                     walk (mem st) root [index 3 virt; index 2 virt] with
               | Some pdpt, Some pd => prune st2 root virt pdpt pd pt result
               | _, _ => (st, -1)
               end
         end.
Proof.
  unfold vmm_unmap_page, vmm_get_pt, prune. simpl walk.
  destruct (_ || _); [reflexivity|].
  destruct (child (mem st) root _) as [pdpt|]; [|reflexivity].
  destruct (child (mem st) pdpt _) as [pd|]; [|reflexivity].
  destruct (child (mem st) pd _) as [pt|]; reflexivity.
Qed.

Lemma view_leaf st root v : view st root v = leaf_view (mem st) root (vpath v) (index 0 v).
Proof. unfold view, leaf_view. by rewrite vmm_get_page_flags_leaf. Qed.

(** The frame behind [virt], when the caller asks for it to be released, must
    not be one of the tables of the same address space. *)
Definition leaf_not_table st (root virt : Z) : Prop :=
  forall q t, (length q <= 3)%nat -> Forall valid_index q -> walk (mem st) root q = Some t ->
    t <> vmm_get_page_phys st root virt.

Lemma vpath_prefixes m root virt pt :
  walk m root (vpath virt) = Some pt ->
  exists pdpt pd, walk m root [index 3 virt] = Some pdpt /\
    walk m root [index 3 virt; index 2 virt] = Some pd.
Proof.
  unfold vpath. cbn [walk]. destruct (child m root _) as [pdpt|]; [|done].
  destruct (child m pdpt _) as [pd|]; [|done]. by exists pdpt, pd.
Qed.

Lemma vmm_unmap_page_inv st root virt fp st' rc :
  tree_wf st root -> (fp = true -> leaf_not_table st root virt) ->
  vmm_unmap_page st root virt fp = (st', rc) ->
  (rc = -1 /\ st' = st /\ (root = 0 \/ has virt (PAGE_SIZE - 1) = true \/ view st root virt = None)) \/
  (is_Some (view st root virt) /\ tree_wf st' root /\ same_regs st st' /\
   view st' root virt = None /\
   (forall v, ~ same_page_as virt v -> view st' root v = view st root v) /\
   (forall a, fa_free (frames st) a -> fa_free (frames st') a) /\
   (fp = true -> rc = 0 ->
      forall a, in_block (vmm_get_page_phys st root virt) 1 a -> fa_free (frames st') a)).
Proof.
  intros Hwf Hfp. rewrite vmm_unmap_page_unfold.
  destruct (Z.eqb_spec root 0); cbn [orb]; [intros [= <- <-]; auto 6|].
  destruct (has virt (PAGE_SIZE - 1)) eqn:Hal; [intros [= <- <-]; auto 6|].
  destruct (vmm_get_pt st root virt) as [pt|] eqn:Hpt.
  2:{ intros [= <- <-]. left. unfold view, vmm_get_page_flags. rewrite Hpt, has_0_l. auto 6. }
  cbv zeta. destruct (has (entry st pt _) PTE_PRESENT) eqn:Hpres; cbn [negb].
  2:{ intros [= <- <-]. left. unfold view, vmm_get_page_flags. rewrite Hpt, Hpres. auto 6. }
  assert (Hview : view st root virt = Some (entry st pt (index 0 virt))).
  { unfold view, vmm_get_page_flags. by rewrite Hpt, Hpres. }
  assert (Hphys : vmm_get_page_phys st root virt = Z.land (entry st pt (index 0 virt)) PTE_ADDR_MASK).
  { unfold vmm_get_page_phys. by rewrite Hpt, Hpres. }
  rewrite vmm_get_pt_walk in Hpt.
  destruct (vpath_prefixes (mem st) root virt pt Hpt) as (pdpt & pd & W3 & W2).
  rewrite W3, W2.
  destruct (set_leaf_spec st root (vpath virt) pt (index 0 virt) 0) as (T1 & K1 & L1);
    auto using vpath_valid, index_valid.
  set (st1 := set_entry pt (index 0 virt) 0 st) in *.
  destruct (if fp then _ else _) as [st2 result] eqn:Hf.
  assert (H2 : tree_wf st2 root /\ same_regs st1 st2 /\ mem st2 = mem st1).
  { destruct fp; [|by injection Hf as <- <-]. apply (free_leaf_tree st1 st2 root (entry st pt (index 0 virt)) result T1); [|done].
    intros q t Hq Hv. rewrite K1 by done. rewrite <-Hphys. by apply Hfp. }
  destruct H2 as (T2 & R2 & M2). intros Hpr.
  pose proof (index_valid 3 virt) as V3. pose proof (index_valid 2 virt) as V2.
  assert (P1 : Forall valid_index [index 3 virt]) by (by rewrite Forall_singleton).
  assert (P2 : Forall valid_index [index 3 virt; index 2 virt]) by (by rewrite !Forall_cons).
  destruct (prune_spec st2 root virt pdpt pd pt result st' rc) as (T3 & R3 & S3 & F3); [done|..|done|];
    try (rewrite M2, K1; [done|cbn [length vpath]; lia|auto using vpath_valid]).
  assert (Hviews : forall v, view st' root v = leaf_view (mem st1) root (vpath v) (index 0 v)).
  { intros v. rewrite view_leaf, S3, M2 by auto using vpath_valid, index_valid. done. }
  right. split; [rewrite Hview; done|]. split; [done|].
  split; [eapply same_regs_trans; [|done]; by destruct R2; split|]. split.
  - rewrite Hviews. unfold leaf_view. rewrite L1 by auto using vpath_valid, index_valid.
    rewrite decide_True by done. by rewrite has_0_l.
  - split; [intros v Hne; rewrite Hviews, view_leaf; unfold leaf_view;
      rewrite L1 by auto using vpath_valid, index_valid;
      rewrite decide_False by (intros [? ?]; by apply Hne); done|].
    assert (H64 : fits 64 (vmm_get_page_phys st root virt)).
    { rewrite Hphys. destruct (addr_mask_aligned (entry st pt (index 0 virt))). unfold fits. lia. }
    rewrite <-Hphys in Hf. destruct F3 as [Hrc Hmono]. split.
    + intros a Ha. apply Hmono. destruct fp; [|by injection Hf as <- <-].
      by apply (free_page_mono st1 st2 _ result a) in Hf; [|apply T1|..].
    + intros -> Hrc0 a Ha. apply Hmono. rewrite (Hrc Hrc0) in Hf.
      by apply (free_page_ok st1 st2 (vmm_get_page_phys st root virt)); [apply T1|..].
Qed.
End Tree.
