(* ===== verification/VmmSpec.v ===== *)
(** What the page-table operations of [kernel/memory.c] promise to their callers:
    mapping, re-protecting, unmapping and creating address spaces, and the W^X
    policy for user pages. *)
From S2P Require Import Prelude Pmm Vmm VmmTree.

(** ** Virtual pages *)

Lemma index_eq l v : 0 <= l -> 0 <= v -> index l v = v / 2 ^ (12 + 9 * l) mod 512.
Proof.
  intros Hl Hv. unfold index. change 0x1FF with (2 ^ 9 - 1).
  rewrite land_ones_mod, Z.shiftr_div_pow2 by lia. done.
Qed.

(** Two addresses share their four table indices iff bits 12..47 agree. *)
Lemma same_page_as_iff v v' :
  0 <= v -> 0 <= v' ->
  same_page_as v v' <-> v / PAGE_SIZE mod 2 ^ 36 = v' / PAGE_SIZE mod 2 ^ 36.
Proof.
  intros Hv Hv'. unfold same_page_as, vpath.
  rewrite !index_eq by lia. change (2 ^ (12 + 9 * 0)) with PAGE_SIZE.
  change (2 ^ (12 + 9 * 1)) with (PAGE_SIZE * 2 ^ 9).
  change (2 ^ (12 + 9 * 2)) with (PAGE_SIZE * 2 ^ 18).
  change (2 ^ (12 + 9 * 3)) with (PAGE_SIZE * 2 ^ 27).
  rewrite <-!Z.div_div by done.
  set (x := v / PAGE_SIZE). set (y := v' / PAGE_SIZE).
  assert (D : forall z, z mod 2 ^ 36 =
    (z / 2 ^ 27 mod 512) * 2 ^ 27 + (z / 2 ^ 18 mod 512) * 2 ^ 18 + (z / 2 ^ 9 mod 512) * 2 ^ 9 + z mod 512).
  { intros z. Z.to_euclidean_division_equations; lia. }
  assert (E : forall z, z / 2 ^ 27 mod 512 = z mod 2 ^ 36 / 2 ^ 27 /\
    z / 2 ^ 18 mod 512 = z mod 2 ^ 36 / 2 ^ 18 mod 512 /\
    z / 2 ^ 9 mod 512 = z mod 2 ^ 36 / 2 ^ 9 mod 512 /\ z mod 512 = z mod 2 ^ 36 mod 512).
  { intros z. Z.to_euclidean_division_equations; lia. }
  split.
  - intros [[= E3 E2 E1] E0]. by rewrite !D, E3, E2, E1, E0.
  - intros Hxy. destruct (E x) as (-> & -> & -> & ->), (E y) as (-> & -> & -> & ->). by rewrite Hxy.
Qed.

(** Canonical 48-bit addresses. *)
Definition canonical (v : Z) : Prop := 0 <= v < 2 ^ 47 \/ 2 ^ 64 - 2 ^ 47 <= v < 2 ^ 64.

Lemma same_page_canonical v v' :
  canonical v -> canonical v' -> same_page_as v v' -> v / PAGE_SIZE = v' / PAGE_SIZE.
Proof.
  unfold canonical. intros Hv Hv'. rewrite same_page_as_iff by lia.
  unfold PAGE_SIZE. Z.to_euclidean_division_equations; lia.
Qed.

(** ** The W^X policy *)

(** What the kernel promises of a present leaf entry [e] for address [v]: a user
    page is below [USER_VA_LIMIT], and is not both writable and executable. *)
Definition user_policy (v e : Z) : Prop :=
  has e PTE_PRESENT = true -> has e PTE_USER = true ->
  v < USER_VA_LIMIT /\ (has e PTE_WRITABLE = true -> has e PTE_NO_EXECUTE = true).

Lemma has_pow2_lor2 e a b :
  Z.land a b = 0 -> has e a = true -> has e b = true ->
  (exists i, 0 <= i /\ a = 2 ^ i) -> (exists i, 0 <= i /\ b = 2 ^ i) ->
  Z.land e (Z.lor a b) = Z.lor a b.
Proof.
  intros Hab Ha Hb (i & Hi & ->) (j & Hj & ->).
  assert (T : forall k, 0 <= k -> has e (2 ^ k) = true -> Z.land e (2 ^ k) = 2 ^ k).
  { intros k Hk H. apply Z.bits_inj'. intros n Hn. rewrite Z.land_spec, Z.pow2_bits_eqb by done.
    destruct (Z.eqb_spec k n) as [->|]; [|by rewrite andb_false_r]. rewrite andb_true_r.
    unfold has in H. destruct (Z.testbit e n) eqn:E; [done|]. exfalso.
    enough (Z.land e (2 ^ n) = 0) as Hz by (by rewrite Hz in H).
    apply Z.bits_inj'. intros m Hm. rewrite Z.land_spec, Z.pow2_bits_eqb, Z.bits_0 by done.
    destruct (Z.eqb_spec n m) as [->|]; [by rewrite E|by rewrite andb_false_r]. }
  by rewrite Z.land_lor_distr_r, !T.
Qed.

Lemma wx_violation_policy v e :
  wx_violation e = false -> (has e PTE_USER = true -> v < USER_VA_LIMIT) -> user_policy v e.
Proof.
  unfold wx_violation. intros Hw Hu _ Hus. split; [by apply Hu|]. intros Hwr.
  rewrite has_pow2_lor2 in Hw; [|done|done|done|by exists 2|by exists 1].
  rewrite Z.eqb_refl in Hw. by destruct (has e PTE_NO_EXECUTE).
Qed.

(** The protection bits of a new leaf are those asked for. *)
Lemma mk_pte_bits phys flags m :
  Z.land PTE_ADDR_MASK m = 0 -> Z.land PTE_PRESENT m = 0 ->
  Z.land (Z.lor 0xFFF PTE_NO_EXECUTE) m = m -> Z.land (mk_pte phys flags) m = Z.land flags m.
Proof.
  intros H1 H2 H3. unfold mk_pte.
  by rewrite !Z.land_lor_distr_l, <-!Z.land_assoc, H1, H2, H3, Z.land_0_r, !Z.lor_0_l.
Qed.

Lemma mk_pte_has phys flags m :
  Z.land PTE_ADDR_MASK m = 0 -> Z.land PTE_PRESENT m = 0 ->
  Z.land (Z.lor 0xFFF PTE_NO_EXECUTE) m = m -> has (mk_pte phys flags) m = has flags m.
Proof. intros. unfold has. by rewrite mk_pte_bits. Qed.

Lemma mk_pte_wx phys flags : wx_violation (mk_pte phys flags) = wx_violation flags.
Proof. unfold wx_violation. by rewrite mk_pte_has, mk_pte_bits. Qed.

(** ** Allocation failures *)

Section Spec.
Context {A : Type} `{FA : FrameAllocator A, !FrameAllocatorLaws A}.
Implicit Types st : mm A.

(** One of the next [n + 1] single-page allocations fails. *)
Fixpoint out_of_frames (n : nat) (f : A) : Prop :=
  let '(f', p) := fa_alloc_pages f 1 in
  p = 0 \/ match n with O => False | S n' => out_of_frames n' f' end.

Lemma out_of_frames_S n f : out_of_frames n f -> out_of_frames (S n) f.
Proof.
  revert f. induction n as [|n IH]; intros f; cbn [out_of_frames];
    destruct (fa_alloc_pages f 1) as [f' p].
  - intros [|[]]; auto.
  - intros [|H]; auto. right. by apply IH.
Qed.

Lemma ensure_table_frames st tbl i flags st' r :
  ensure_table st tbl i flags = (st', r) ->
  match r with
  | None => out_of_frames 0 (frames st)
  | Some _ => frames st' = frames st \/
      frames st' = fst (fa_alloc_pages (frames st) 1) /\ snd (fa_alloc_pages (frames st) 1) <> 0
  end.
Proof.
  unfold ensure_table, alloc_page, alloc_pages. cbn [out_of_frames].
  generalize (Z.to_nat (u64 (1 * PAGE_SIZE) / 8)). intros n.
  destruct (has (entry st tbl i) PTE_PRESENT); cbn [negb].
  - destruct (has flags PTE_USER); intros [= <- <-]; auto.
  - destruct (fa_alloc_pages (frames st) 1) as [f p]. cbn [fst snd].
    destruct (Z.eqb_spec p 0) as [->|Hp].
    + rewrite Z.eqb_refl. intros [= <- <-]. auto.
    + apply Z.eqb_neq in Hp as Hp'. rewrite Hp'. intros [= <- <-]. right. auto.
Qed.

Lemma out_of_frames_step n f f' :
  f' = f \/ f' = fst (fa_alloc_pages f 1) /\ snd (fa_alloc_pages f 1) <> 0 ->
  out_of_frames n f' -> out_of_frames (S n) f.
Proof.
  intros [->|[-> _]] H; [by apply out_of_frames_S|].
  cbn [out_of_frames]. destruct (fa_alloc_pages f 1). by right.
Qed.

(** The descent fails only when the allocator does. *)
Lemma descend_fails st root virt flags st' :
  descend st root virt flags = (st', None) -> out_of_frames 2 (frames st).
Proof.
  unfold descend.
  destruct (ensure_table st root _ _) as [st1 r1] eqn:E1. apply ensure_table_frames in E1.
  destruct r1 as [n1|]; [|intros _; by do 2 apply out_of_frames_S].
  destruct (ensure_table st1 _ _ _) as [st2 r2] eqn:E2. apply ensure_table_frames in E2.
  destruct r2 as [n2|]; [|intros _; eapply out_of_frames_step; [done|by apply out_of_frames_S]].
  destruct (ensure_table st2 _ _ _) as [st3 r3] eqn:E3. apply ensure_table_frames in E3.
  destruct r3 as [n3|]; [done|].
  intros _. eapply out_of_frames_step; [done|]. by eapply out_of_frames_step.
Qed.

(** ** Re-protecting a page *)

(** The guards of [vmm_set_page_flags]. *)
Definition set_rejected st (root virt flags : Z) : bool :=
  (root =? 0) || has virt (PAGE_SIZE - 1) ||
  ((root =? kernel_pml4 st) && has flags PTE_USER) ||
  (has flags PTE_USER && (USER_VA_LIMIT <=? virt)) || wx_violation flags.

Lemma vmm_set_page_flags_inv st root virt flags st' rc :
  tree_wf st root -> vmm_set_page_flags st root virt flags = (st', rc) ->
  (rc = 0 /\ set_rejected st root virt flags = false /\ is_Some (view st root virt) /\
   only_entry st st' root virt (mk_pte (vmm_get_page_flags st root virt) flags) /\
   vmm_get_page_phys st' root virt = vmm_get_page_phys st root virt) \/
  (rc = -1 /\ st' = st /\ (set_rejected st root virt flags = true \/ view st root virt = None)).
Proof.
  intros Hwf. unfold vmm_set_page_flags.
  assert (Hg : forall (b1 b2 b3 b4 : bool) (x y : mm A * Z),
    (if b1 then x else if b2 then x else if b3 then x else if b4 then x else y) =
    if b1 || b2 || b3 || b4 then x else y) by (by intros [] [] [] []).
  rewrite Hg. change (_ || _ || _ || wx_violation flags) with (set_rejected st root virt flags).
  destruct (set_rejected st root virt flags) eqn:Hrej; [intros [= <- <-]; auto|].
  unfold view. destruct (vmm_get_pt st root virt) as [pt|] eqn:Hpt.
  2:{ intros [= <- <-]. right. unfold vmm_get_page_flags. rewrite Hpt, has_0_l. auto. }
  cbv zeta. destruct (has (entry st pt _) PTE_PRESENT) eqn:Hpres; cbn [negb].
  2:{ intros [= <- <-]. right. unfold vmm_get_page_flags. rewrite Hpt, Hpres. auto. }
  intros [= <- <-]. left. fold (mk_pte (entry st pt (index 0 virt)) flags).
  assert (Hf : vmm_get_page_flags st root virt = entry st pt (index 0 virt)).
  { unfold vmm_get_page_flags. by rewrite Hpt. }
  rewrite Hf, Hpres. rewrite vmm_get_pt_walk in Hpt.
  assert (Ho := set_leaf_only_entry st st root virt pt (mk_pte (entry st pt (index 0 virt)) flags)
                  Hwf ltac:(by split) ltac:(by intros ?) Hpt).
  split; [done|]. split; [done|]. split; [done|]. split; [done|].
  destruct Ho as (_ & _ & Hn & _). rewrite !leaf_page_phys. cbv zeta.
  rewrite Hn, Hf, mk_pte_present, Hpres. unfold mk_pte.
  rewrite !Z.land_lor_distr_l, (land_flags_mask flags) by done.
  rewrite <-!Z.land_assoc, Z.land_diag. change (Z.land PTE_PRESENT PTE_ADDR_MASK) with 0.
  by rewrite !Z.lor_0_r.
Qed.

(** ** Creating an address space *)

(** A loop that fills entries [lo .. lo+n) of one table. *)
Lemma fill_entries (tbl : Z) (g : Z -> mm A -> Z) (val : Z -> Z) n :
  forall lo st,
    0 <= lo -> lo + Z.of_nat n <= 512 ->
    (forall i st2, valid_index i ->
       (forall a, ~ in_block tbl 1 a -> ld64 (mem st2) a = ld64 (mem st) a) ->
       same_regs st st2 -> g i st2 = val i) ->
    let st' := for_range n lo (fun i s => set_entry tbl i (g i s) s) st in
    frames st' = frames st /\ same_regs st st' /\
    (forall a, ~ in_block tbl 1 a -> ld64 (mem st') a = ld64 (mem st) a) /\
    (forall j, valid_index j ->
       entry st' tbl j = if (lo <=? j) && (j <? lo + Z.of_nat n) then val j else entry st tbl j).
Proof.
  induction n as [|n IH]; intros lo st Hlo Hn Hg; cbn [for_range].
  { split; [done|]. split; [by split|]. split; [done|]. intros j Hj.
    destruct (Z.leb_spec lo j), (Z.ltb_spec j (lo + Z.of_nat 0)); try done. lia. }
  assert (Hv : valid_index lo) by (unfold valid_index; lia).
  set (st1 := set_entry tbl lo (g lo st) st).
  assert (Hout : forall a, ~ in_block tbl 1 a -> ld64 (mem st1) a = ld64 (mem st) a).
  { intros a Ha. apply ld64_st64_ne. intros <-. by apply Ha, entry_in_block. }
  destruct (IH (lo + 1) st1) as (F & R & O & I); [lia|lia| |].
  { intros i st2 Hi Hag Hr. apply Hg; [done| |done].
    intros a Ha. rewrite Hag by done. by apply Hout. }
  split; [done|]. split; [done|]. split; [intros a Ha; by rewrite O, Hout|].
  intros j Hj. rewrite I by done.
  destruct (Z.leb_spec (lo + 1) j), (Z.leb_spec lo j), (Z.ltb_spec j (lo + 1 + Z.of_nat n)),
    (Z.ltb_spec j (lo + Z.of_nat (S n))); cbn [andb]; try lia; try done.
  - apply ld64_st64_ne. unfold valid_index in *. lia.
  - replace j with lo by lia. unfold st1, entry, set_entry. cbn [mem set_mem].
    rewrite ld64_st64_eq. apply Hg; [done|done|by split].
  - apply ld64_st64_ne. lia.
Qed.

(** [vmm_create_user_pml4]: the new root is empty below and aliases the kernel
    tables above. *)
Lemma vmm_create_user_pml4_entries st st' user :
  fa_wf (frames st) -> table_page (kernel_pml4 st) ->
  (forall a, in_block (kernel_pml4 st) 1 a -> ~ fa_free (frames st) a) ->
  vmm_create_user_pml4 st = (st', user) ->
  fa_wf (frames st') /\ same_regs st st' /\
  ((user = 0 /\ mem st' = mem st /\ out_of_frames 0 (frames st)) \/
   (table_page user /\ (forall a, in_block user 1 a -> fa_free (frames st) a) /\
    (forall a, fa_free (frames st') a <-> fa_free (frames st) a /\ ~ in_block user 1 a) /\
    (forall a, ~ in_block user 1 a -> ld64 (mem st') a = ld64 (mem st) a) /\
    forall i, valid_index i ->
      entry st' user i = if i <? 256 then 0 else entry st (kernel_pml4 st) i)).
Proof.
  intros Hwf Hk Hkf. unfold vmm_create_user_pml4.
  destruct (alloc_page st) as [st1 u] eqn:Ha.
  destruct (alloc_page_spec _ _ _ Hwf Ha) as (Hfw & Hr & Hcase).
  destruct (Z.eqb_spec u 0) as [->|Hu].
  { intros [= <- <-]. split; [done|]. split; [done|]. left.
    destruct Hcase as [(_ & Hm & _)|(Ht & _)]; [|destruct Ht; lia].
    split; [done|]. split; [done|]. revert Ha. unfold alloc_page, alloc_pages, out_of_frames.
    generalize (Z.to_nat (u64 (1 * PAGE_SIZE) / 8)). intros n.
    destruct (fa_alloc_pages (frames st) 1) as [f p]. destruct (Z.eqb_spec p 0); [by left|].
    intros [=]. done. }
  destruct Hcase as [(? & _)|(Ht & Hin & Hfr & Hz & Hsame)]; [done|].
  intros [<- <-]%pair_eq.
  destruct (fill_entries u (fun _ _ => 0) (fun _ => 0) 256 0 st1) as (F1 & R1 & O1 & I1);
    [lia|lia|done|].
  set (st2 := for_range 256 0 _ st1) in *.
  assert (Hkout : forall i, valid_index i -> ~ in_block u 1 (entry_addr (kernel_pml4 st) i)).
  { intros i Hi Hb. apply (Hkf (entry_addr (kernel_pml4 st) i)); [by apply entry_in_block|auto]. }
  destruct (fill_entries u (fun i s => entry s (kernel_pml4 s) i)
              (fun i => entry st (kernel_pml4 st) i) 256 256 st2) as (F2 & R2 & O2 & I2); [lia|lia| |].
  { intros i s Hi Hag [_ Hks]. destruct R1 as [_ R1], Hr as [_ Hr]. rewrite Hks, R1, Hr.
    rewrite !entry_ld64, Hag, O1, Hsame by auto. done. }
  set (st3 := for_range 256 256 _ st2) in *.
  split; [by rewrite F2, F1|]. split; [destruct Hr, R1, R2; split; congruence|]. right.
  split; [done|]. split; [done|]. split; [intros a; by rewrite F2, F1|].
  split; [intros a Hna; by rewrite O2, O1, Hsame|].
  intros i Hi. rewrite I2, I1 by done. unfold valid_index in Hi.
  destruct (Z.ltb_spec i 256), (Z.leb_spec 256 i), (Z.ltb_spec i (256 + Z.of_nat 256)),
    (Z.leb_spec 0 i), (Z.ltb_spec i (0 + Z.of_nat 256)); cbn [andb]; try lia; done.
Qed.

(** Walks of the new address space: none below, the kernel's above. *)
Lemma create_walk st st' user :
  tree_wf st (kernel_pml4 st) -> vmm_create_user_pml4 st = (st', user) -> user <> 0 ->
  (forall q, (length q <= 3)%nat -> Forall valid_index q ->
     walk (mem st') (kernel_pml4 st) q = walk (mem st) (kernel_pml4 st) q) /\
  (forall i q, (length q <= 2)%nat -> Forall valid_index q -> valid_index i ->
     walk (mem st') user (i :: q) =
       if i <? 256 then None else walk (mem st) (kernel_pml4 st) (i :: q)).
Proof.
  intros Hwf Hc Hu.
  destruct (tree_tables _ _ Hwf [] (kernel_pml4 st)) as [Hk Hkf]; [simpl; lia|constructor|done|].
  destruct (vmm_create_user_pml4_entries _ _ _ (tree_frames _ _ Hwf) Hk Hkf Hc) as
    (_ & _ & [(? & _)|(Ht & Hin & Hfr & Hsame & Hent)]); [done|].
  assert (Hker : forall q, (length q <= 3)%nat -> Forall valid_index q ->
     walk (mem st') (kernel_pml4 st) q = walk (mem st) (kernel_pml4 st) q).
  { apply walk_agree. intros q t j Hq Hv Hj Hw. apply child_ext, Hsame. intros Hb.
    destruct (tree_tables _ _ Hwf q t) as [_ Hnf]; [lia|done|done|].
    apply (Hnf (entry_addr t j)); [by apply entry_in_block|auto]. }
  split; [done|]. intros i q Hq Hv Hi.
  assert (Hch : child (mem st') user i = if i <? 256 then None else child (mem st) (kernel_pml4 st) i).
  { specialize (Hent i Hi). rewrite entry_ld64 in Hent. destruct (i <? 256).
    - apply child_absent. by rewrite Hent, has_0_l.
    - unfold child. fold (entry_addr user i). by rewrite Hent. }
  rewrite <-(Hker (i :: q)) by (simpl; (lia || by constructor)).
  cbn [walk]. rewrite Hch. destruct (i <? 256); [done|].
  specialize (Hker [i]). cbn [walk] in Hker.
  assert (E : child (mem st') (kernel_pml4 st) i = child (mem st) (kernel_pml4 st) i).
  { assert (H1 : (length [i] <= 3)%nat) by (simpl; lia).
    specialize (Hker H1 ltac:(by constructor)).
    destruct (child (mem st') _ i), (child (mem st) _ i); congruence. }
  by rewrite E.
Qed.

Lemma create_views st st' user :
  tree_wf st (kernel_pml4 st) -> vmm_create_user_pml4 st = (st', user) -> user <> 0 ->
  (forall v, view st' (kernel_pml4 st) v = view st (kernel_pml4 st) v) /\
  (forall v, view st' user v =
     if index 3 v <? 256 then None else view st (kernel_pml4 st) v).
Proof.
  intros Hwf Hc Hu. destruct (create_walk _ _ _ Hwf Hc Hu) as [Hker Huser].
  destruct (tree_tables _ _ Hwf [] (kernel_pml4 st)) as [Hk Hkf]; [simpl; lia|constructor|done|].
  destruct (vmm_create_user_pml4_entries _ _ _ (tree_frames _ _ Hwf) Hk Hkf Hc) as
    (_ & _ & [(? & _)|(Ht & Hin & Hfr & Hsame & Hent)]); [done|].
  assert (Hleaf : forall v,
    leaf (mem st') (kernel_pml4 st) (vpath v) (index 0 v) =
    leaf (mem st) (kernel_pml4 st) (vpath v) (index 0 v)).
  { intros v. apply leaf_ext; [simpl; lia|apply vpath_valid|done|]. intros t Hw.
    apply Hsame. intros Hb.
    destruct (tree_tables _ _ Hwf (vpath v) t) as [_ Hnf]; [simpl; lia|apply vpath_valid|done|].
    apply (Hnf (entry_addr t (index 0 v))); [apply entry_in_block, index_valid|auto]. }
  assert (Hkv : forall v, view st' (kernel_pml4 st) v = view st (kernel_pml4 st) v).
  { intros v. rewrite !view_leaf. unfold leaf_view. by rewrite Hleaf. }
  split; [done|]. intros v. rewrite <-Hkv, !view_leaf. unfold leaf_view, leaf.
  rewrite !Hker by (apply vpath_valid || (simpl; lia)).
  assert (Hvp : walk (mem st') user (vpath v) =
    if index 3 v <? 256 then None else walk (mem st) (kernel_pml4 st) (vpath v)).
  { apply Huser; [simpl; lia| |apply index_valid].
    pose proof (vpath_valid v) as Hv. by apply Forall_cons in Hv as [_ Hv]. }
  rewrite Hvp. destruct (index 3 v <? 256); [by rewrite has_0_l|done].
Qed.

Lemma create_tree st st' user :
  tree_wf st (kernel_pml4 st) -> vmm_create_user_pml4 st = (st', user) -> user <> 0 ->
  tree_wf st' user.
Proof.
  intros Hwf Hc Hu. destruct (create_walk _ _ _ Hwf Hc Hu) as [Hker Huser].
  destruct (tree_tables _ _ Hwf [] (kernel_pml4 st)) as [Hk Hkf]; [simpl; lia|constructor|done|].
  destruct (vmm_create_user_pml4_entries _ _ _ (tree_frames _ _ Hwf) Hk Hkf Hc) as
    (Hfw & _ & [(? & _)|(Ht & Hin & Hfr & Hsame & Hent)]); [done|].
  assert (Hstep : forall q t, (length q <= 3)%nat -> Forall valid_index q ->
    walk (mem st') user q = Some t ->
    (q = [] /\ t = user) \/ (q <> [] /\ walk (mem st) (kernel_pml4 st) q = Some t /\ t <> user)).
  { intros [|i q] t Hl Hv Hw; [left; by injection Hw as <-|]. right. split; [done|].
    apply Forall_cons in Hv as [Hi Hv]. simpl in Hl. rewrite Huser in Hw by (done || lia).
    destruct (i <? 256); [done|]. split; [done|]. intros ->.
    destruct (tree_tables _ _ Hwf (i :: q) user) as [_ Hnf];
      [simpl; lia|by constructor|done|].
    apply (Hnf user); [|apply Hin]; unfold in_block, PAGE_SIZE; lia. }
  constructor; [done| |].
  - intros q t Hl Hv Hw. destruct (Hstep _ _ Hl Hv Hw) as [(-> & ->)|(_ & Hwk & _)].
    + split; [done|]. intros a Hb Hfa. by apply Hfr in Hfa as [_ ?].
    + destruct (tree_tables _ _ Hwf q t Hl Hv Hwk) as [? Hnf]. split; [done|].
      intros a Hb [Hfa _]%Hfr. by apply (Hnf a).
  - intros p q t Hlp Hlq Hvp Hvq Hp Hq.
    destruct (Hstep _ _ Hlp Hvp Hp) as [(-> & ->)|(_ & Hwp & Hnp)],
      (Hstep _ _ Hlq Hvq Hq) as [(-> & Hu')|(_ & Hwq & Hnq)]; try done.
    eapply (tree_inj _ _ Hwf); eauto.
Qed.

(** Every page but that of [virt] keeps its translation. *)
Definition others_kept st st' (root virt : Z) : Prop :=
  forall v, ~ same_page_as virt v -> view st' root v = view st root v.

(** The same translations. *)
Definition same_space st st' (root : Z) : Prop := forall v, view st' root v = view st root v.

(** ** Reachable address spaces *)

Definition wx_ok st (root : Z) : Prop :=
  forall v, canonical v -> user_policy v (vmm_get_page_flags st root v).

(** Any sequence of page-table operations on the address space [root]. *)
Inductive vmm_step (root : Z) : mm A -> mm A -> Prop :=
| step_map st virt phys flags st' rc :
    fits 64 virt -> 0 <= phys < 2 ^ 52 -> path_not_huge st root virt ->
    vmm_map_page st root virt phys flags = (st', rc) -> vmm_step root st st'
| step_protect st virt flags st' rc :
    fits 64 virt -> vmm_set_page_flags st root virt flags = (st', rc) -> vmm_step root st st'
| step_unmap st virt fp st' rc :
    (fp = true -> leaf_not_table st root virt) ->
    vmm_unmap_page st root virt fp = (st', rc) -> vmm_step root st st'.

Lemma only_entry_wx st st' root virt phys flags :
  fits 64 virt -> wx_ok st root -> only_entry st st' root virt (mk_pte phys flags) ->
  wx_violation flags = false ->
  has flags PTE_USER && (USER_VA_LIMIT <=? virt) = false -> wx_ok st' root.
Proof.
  intros Hv Hwx (_ & _ & He & Ho) Hw Hl v Hc.
  destruct (decide (same_page_as virt v)) as [Hs|Hs]; [|rewrite Ho by done; by apply Hwx].
  assert (vmm_get_page_flags st' root v = mk_pte phys flags) as ->.
  { rewrite <-He, !vmm_get_page_flags_leaf. by destruct Hs as [-> ->]. }
  apply wx_violation_policy; [by rewrite mk_pte_wx|]. rewrite mk_pte_has by done.
  intros Hu. rewrite Hu in Hl. cbn [andb] in Hl. apply Z.leb_gt in Hl.
  assert (Hcv : canonical virt) by (left; unfold fits, USER_VA_LIMIT in *; lia).
  apply same_page_canonical in Hs; [|done|done].
  unfold USER_VA_LIMIT, PAGE_SIZE in *. Z.to_euclidean_division_equations; lia.
Qed.

Lemma vmm_step_wx root st st' :
  vmm_step root st st' -> tree_wf st root /\ wx_ok st root -> tree_wf st' root /\ wx_ok st' root.
Proof.
  intros Hst [Hwf Hwx]. destruct Hst as [st virt phys flags st' rc Hv Hp Hh Hm
    |st virt flags st' rc Hv Hs|st virt fp st' rc Hfp Hm].
  - destruct (vmm_map_page_inv _ _ _ _ _ _ _ Hwf Hh Hp Hm) as [(_ & Hwf' & _ & Hf)|(_ & Hr & _ & Ho & _)].
    + split; [done|]. intros v Hc. rewrite Hf. by apply Hwx.
    + split; [apply Ho|]. unfold map_rejected in Hr. rewrite !orb_false_iff in Hr.
      eapply only_entry_wx; eauto; tauto.
  - destruct (vmm_set_page_flags_inv _ _ _ _ _ _ Hwf Hs) as [(_ & Hr & _ & Ho & _)|(_ & -> & _)]; [|done].
    split; [apply Ho|]. unfold set_rejected in Hr. rewrite !orb_false_iff in Hr.
    eapply only_entry_wx; eauto; tauto.
  - destruct (vmm_unmap_page_inv _ _ _ _ _ _ Hwf Hfp Hm) as
      [(_ & -> & _)|(_ & Hwf' & _ & Hnone & Hothers & _)]; [done|]. split; [done|].
    assert (Hview : forall v, view st' root v = view st root v \/ view st' root v = None).
    { intros v. destruct (decide (same_page_as virt v)) as [Hs|Hs]; [|by left; apply Hothers].
      right. rewrite <-Hnone, !view_leaf. by destruct Hs as [-> ->]. }
    intros v Hc Hpres. unfold view in Hview. specialize (Hview v). cbv zeta in Hview.
    rewrite Hpres in Hview. destruct Hview as [Hview|]; [|done].
    destruct (has (vmm_get_page_flags st root v) PTE_PRESENT) eqn:Hp; [|done].
    injection Hview as ->. by apply Hwx.
Qed.
End Spec.

(** ** A concrete machine *)

(** All tables reachable in at most [n] steps, by exhaustive search. *)
Fixpoint tables (m : memory) (t : Z) (n : nat) : list Z :=
  t :: match n with
       | O => []
       | S n' => flat_map (fun i => match child m t i with Some t' => tables m t' n' | None => [] end)
                   (seqZ 0 512)
       end.

Lemma walk_tables m n : forall root q t, (length q <= n)%nat -> Forall valid_index q ->
  walk m root q = Some t -> In t (tables m root n).
Proof.
  induction n as [|n IH]; intros root [|i q] t Hq Hv Hw; cbn [walk length] in *; try lia;
    try (injection Hw as <-; by left).
  destruct (child m root i) as [t'|] eqn:Hc; [|done]. apply Forall_cons in Hv as [Hi Hv].
  right. apply in_flat_map. exists i. split.
  - apply list_elem_of_In, elem_of_seqZ. unfold valid_index in Hi. lia.
  - rewrite Hc. apply (IH t' q); [lia|done|done].
Qed.

Section Fresh.
Context {A : Type} `{FA : FrameAllocator A, !FrameAllocatorLaws A}.

(** A zeroed page is the root of an empty address space. *)
Lemma zeroed_tree (st : mm A) root :
  fa_wf (frames st) -> table_page root -> (forall a, in_block root 1 a -> ~ fa_free (frames st) a) ->
  (forall i, valid_index i -> ld64 (mem st) (entry_addr root i) = 0) -> tree_wf st root.
Proof.
  intros Hwf Ht Hnf Hz.
  assert (Hw : forall q t, Forall valid_index q -> walk (mem st) root q = Some t -> q = [] /\ t = root).
  { intros [|i q] t Hv; cbn [walk]; [by intros [= <-]|]. apply Forall_cons in Hv as [Hi _].
    by rewrite child_absent by (by rewrite Hz, has_0_l). }
  constructor; [done| |].
  - intros p t _ Hv Hp. by destruct (Hw _ _ Hv Hp) as [_ ->].
  - intros p q t _ _ Hvp Hvq Hp Hq. destruct (Hw _ _ Hvp Hp), (Hw _ _ Hvq Hq). congruence.
Qed.

(** An address space whose root has no present entry. *)
Lemma empty_root_walk (st : mm A) root q t :
  (forall i, valid_index i -> has (entry st root i) PTE_PRESENT = false) ->
  Forall valid_index q -> walk (mem st) root q = Some t -> q = [] /\ t = root.
Proof.
  intros He Hv. destruct q as [|i q]; cbn [walk]; [by intros [= <-]|].
  apply Forall_cons in Hv as [Hi _]. rewrite child_absent; [done|]. by apply He.
Qed.

Lemma empty_root_not_huge (st : mm A) root v :
  (forall i, valid_index i -> has (entry st root i) PTE_PRESENT = false) -> path_not_huge st root v.
Proof.
  intros He. assert (K : forall q i, Forall valid_index q -> valid_index i -> not_huge st root q i).
  { intros q i Hq Hi t Hw Hp. destruct (empty_root_walk st root q t He Hq Hw) as [_ ->].
    rewrite He in Hp; done. }
  pose proof (index_valid 3 v). pose proof (index_valid 2 v). pose proof (index_valid 1 v).
  split_and!; apply K; rewrite ?Forall_cons; auto using Forall_nil.
Qed.

Lemma empty_root_wx (st : mm A) root :
  (forall i, valid_index i -> has (entry st root i) PTE_PRESENT = false) -> wx_ok st root.
Proof.
  intros He v _ Hp. exfalso. revert Hp. rewrite vmm_get_page_flags_leaf. unfold leaf.
  destruct (walk (mem st) root (vpath v)) as [t|] eqn:Hw; [|by rewrite has_0_l].
  by apply empty_root_walk in Hw as [? _]; [|done|apply vpath_valid].
Qed.

Lemma set_cr3_tree (st : mm A) c root : tree_wf st root -> tree_wf (vmm_switch_pml4 st c) root.
Proof. intros H. apply (tree_wf_agree st); [done|apply H|done|done]. Qed.
End Fresh.

Definition demo_boot : mm pmm :=
  let '(st, k) := alloc_page (Mm demo_pmm ∅ 0 0) in Mm (frames st) (mem st) k k.
Definition demo_created : mm pmm := fst (vmm_create_user_pml4 demo_boot).
Definition demo_space : mm pmm := fst (alloc_page (vmm_switch_pml4 demo_created 0x7000)).
Definition demo_flags : Z := Z.lor (Z.lor PTE_WRITABLE PTE_USER) PTE_NO_EXECUTE.
Definition demo_mapped : mm pmm := fst (vmm_map_page demo_space 0x7000 0x400000 0x1000 demo_flags).

Lemma demo_boot_tree : tree_wf demo_boot (kernel_pml4 demo_boot).
Proof.
  unfold demo_boot. destruct (alloc_page (Mm demo_pmm ∅ 0 0)) as [st k] eqn:Ha.
  assert (Hk : snd (alloc_page (Mm demo_pmm ∅ 0 0)) <> 0) by (vm_compute; done).
  rewrite Ha in Hk. cbn [snd kernel_pml4] in *.
  assert (H0 : fa_wf (frames (Mm demo_pmm ∅ 0 0))) by exact demo_pmm_wf.
  destruct (alloc_page_spec (Mm demo_pmm ∅ 0 0) st k H0 Ha) as
    (Hwf & _ & [(-> & _)|(Ht & Hin & Hfr & Hz & _)]); [done|].
  apply zeroed_tree; [done|done| |done]. intros a Hb Hfa. by apply Hfr in Hfa as [_ ?].
Qed.

Lemma demo_space_tree : tree_wf demo_space 0x7000.
Proof.
  unfold demo_space, demo_created.
  destruct (vmm_create_user_pml4 demo_boot) as [st u] eqn:Hc.
  assert (Hu : snd (vmm_create_user_pml4 demo_boot) = 0x7000) by (vm_compute; done).
  rewrite Hc in Hu. cbn [fst snd] in *. subst u.
  assert (Hwf : tree_wf (vmm_switch_pml4 st 0x7000) 0x7000).
  { apply set_cr3_tree, (create_tree demo_boot); [apply demo_boot_tree|done|done]. }
  destruct (alloc_page (vmm_switch_pml4 st 0x7000)) as [st1 p] eqn:Ha.
  exact (ext_wf _ _ _ (alloc_extends _ _ _ _ Hwf Ha)).
Qed.

Lemma demo_space_empty i : valid_index i -> has (entry demo_space 0x7000 i) PTE_PRESENT = false.
Proof.
  intros Hi. assert (E : table_empty demo_space 0x7000 = true) by (vm_compute; reflexivity).
  rewrite table_empty_spec in E. by apply E.
Qed.

Lemma demo_space_not_huge v : path_not_huge demo_space 0x7000 v.
Proof. exact (empty_root_not_huge _ _ _ demo_space_empty). Qed.

Lemma demo_mapped_ok : vmm_map_page demo_space 0x7000 0x400000 0x1000 demo_flags = (demo_mapped, 0).
Proof.
  unfold demo_mapped.
  assert (H : snd (vmm_map_page demo_space 0x7000 0x400000 0x1000 demo_flags) = 0)
    by (vm_compute; reflexivity).
  destruct (vmm_map_page _ _ _ _ _) as [st rc]. cbn [fst snd] in *. by subst rc.
Qed.

Lemma demo_mapped_tree : tree_wf demo_mapped 0x7000.
Proof.
  assert (Hp : 0 <= 0x1000 < 2 ^ 52) by lia.
  destruct (vmm_map_page_inv _ _ _ _ _ _ _ demo_space_tree (demo_space_not_huge _) Hp demo_mapped_ok)
    as [(? & _)|(_ & _ & _ & Ho & _)]; [done|apply Ho].
Qed.

Lemma demo_mapped_tables t :
  In t (tables (mem demo_mapped) 0x7000 3) -> In t [0x7000; 0x2000; 0x3000; 0x4000].
Proof.
  assert (E : tables (mem demo_mapped) 0x7000 3 = [0x7000; 0x2000; 0x3000; 0x4000]) by (vm_compute; reflexivity).
  by rewrite E.
Qed.

Lemma demo_leaf_not_table : leaf_not_table demo_mapped 0x7000 0x400000.
Proof.
  intros q t Hq Hv Hw. apply (walk_tables _ 3) in Hw; [|done|done]. apply demo_mapped_tables in Hw.
  assert (E : vmm_get_page_phys demo_mapped 0x7000 0x400000 = 0x1000) by (vm_compute; reflexivity).
  rewrite E. simpl in Hw. lia.
Qed.

(** ** Properties *)

Section Properties.
Context {A : Type} `{FA : FrameAllocator A, !FrameAllocatorLaws A}.
Implicit Types st : mm A.

Lemma view_same st root v v' : same_page_as v v' -> view st root v' = view st root v.
Proof. intros [H1 H2]. by rewrite !view_leaf, H1, H2. Qed.

(** C12. [vmm_map_page] either installs exactly the requested translation and
    leaves every other page of the address space as it was, or it reports an
    error and every translation is unchanged (its partial work is rolled
    back); it fails only for an argument its guards reject, a page already
    mapped, or an allocator that runs out of frames for the tables. *)
Theorem vmm_map_page_correct st root virt phys flags st' rc :
  tree_wf st root -> path_not_huge st root virt -> 0 <= phys < 2 ^ 52 ->
  vmm_map_page st root virt phys flags = (st', rc) ->
  (rc = 0 /\ map_rejected st root virt phys flags = false /\ view st root virt = None /\
   only_entry st st' root virt (mk_pte phys flags) /\ vmm_get_page_phys st' root virt = phys) \/
  (rc = -1 /\ unchanged st st' root /\
   (map_rejected st root virt phys flags = true \/ is_Some (view st root virt) \/
    out_of_frames 2 (frames st))).
Proof.
  intros Hwf Hnh Hp Hm.
  destruct (vmm_map_page_inv _ _ _ _ _ _ _ Hwf Hnh Hp Hm) as [(-> & Hun)|(-> & Hr & Hv & Ho & Hph)].
  - right. split; [done|]. split; [done|]. revert Hm. rewrite vmm_map_page_unfold.
    destruct (map_rejected st root virt phys flags); [auto|].
    destruct (descend st root virt flags) as [st1 [pt|]] eqn:Hd;
      [|intros _; right; right; by eapply descend_fails].
    destruct (descend_spec _ _ _ _ _ _ Hwf Hnh Hd) as (_ & _ & L & K).
    destruct (has (entry st1 pt (index 0 virt)) PTE_PRESENT) eqn:Hpres; [|intros [=]].
    intros _. right. left. rewrite view_leaf. unfold leaf_view.
    rewrite <-L by auto using vpath_valid, index_valid. unfold leaf. rewrite K.
    rewrite entry_ld64 in Hpres. by rewrite Hpres.
  - left. unfold view. rewrite Hv. auto.
Qed.

(** C13. W^X: whatever sequence of map, re-protect and unmap operations is
    applied to an address space, its page tables stay well formed and every
    user-accessible page lies below [USER_VA_LIMIT] and is never both writable
    and executable. *)
Theorem vmm_wx_invariant st st' root :
  rtc (vmm_step root) st st' -> tree_wf st root -> wx_ok st root ->
  tree_wf st' root /\ wx_ok st' root.
Proof. induction 1; intros; [done|]. edestruct vmm_step_wx; eauto. Qed.

(** [vmm_set_page_flags] replaces the protection of a mapped page, keeping
    its frame and every other page; otherwise it changes nothing. *)
Theorem vmm_set_page_flags_correct st root virt flags st' rc :
  tree_wf st root -> vmm_set_page_flags st root virt flags = (st', rc) ->
  (rc = 0 /\ set_rejected st root virt flags = false /\ is_Some (view st root virt) /\
   only_entry st st' root virt (mk_pte (vmm_get_page_flags st root virt) flags) /\
   vmm_get_page_phys st' root virt = vmm_get_page_phys st root virt) \/
  (rc = -1 /\ st' = st /\ (set_rejected st root virt flags = true \/ view st root virt = None)).
Proof. apply vmm_set_page_flags_inv. Qed.

(** [vmm_unmap_page] refuses exactly an unmapped page (or a null root or
    misaligned address), changing nothing; otherwise the page is gone, every
    other translation survives the pruning of empty tables, no free frame is
    taken, and when asked to release the frame and reporting success, the
    frame is free. *)
Theorem vmm_unmap_page_correct st root virt fp st' rc :
  tree_wf st root -> (fp = true -> leaf_not_table st root virt) ->
  vmm_unmap_page st root virt fp = (st', rc) ->
  (rc = -1 /\ st' = st /\ (root = 0 \/ has virt (PAGE_SIZE - 1) = true \/ view st root virt = None)) \/
  (is_Some (view st root virt) /\ tree_wf st' root /\ same_regs st st' /\
   view st' root virt = None /\
   others_kept st st' root virt /\
   (forall a, fa_free (frames st) a -> fa_free (frames st') a) /\
   (fp = true -> rc = 0 ->
      forall a, in_block (vmm_get_page_phys st root virt) 1 a -> fa_free (frames st') a)).
Proof. apply vmm_unmap_page_inv. Qed.

(** Unmapping a page just mapped restores every translation of the
    address space. *)
Theorem vmm_map_unmap_roundtrip st root virt phys flags st1 st2 rc :
  tree_wf st root -> path_not_huge st root virt -> 0 <= phys < 2 ^ 52 ->
  vmm_map_page st root virt phys flags = (st1, 0) ->
  vmm_unmap_page st1 root virt false = (st2, rc) ->
  tree_wf st2 root /\ same_space st st2 root.
Proof.
  intros Hwf Hnh Hp Hm Hu.
  destruct (vmm_map_page_inv _ _ _ _ _ _ _ Hwf Hnh Hp Hm) as [(? & _)|(_ & Hr & Hv & Ho & _)]; [done|].
  destruct Ho as (W1 & _ & E1 & O1). unfold map_rejected in Hr. rewrite !orb_false_iff in Hr.
  assert (Hno : false = true -> leaf_not_table st1 root virt) by discriminate.
  destruct (vmm_unmap_page_inv _ _ _ _ _ _ W1 Hno Hu) as
    [(_ & _ & [->|[Hal|Hvn]])|(_ & W2 & _ & N2 & O2 & _)].
  - destruct Hr as [[[[[[Hr _] _] _] _] _] _]. done.
  - destruct Hr as [[[[[[_ Hr] _] _] _] _] _]. congruence.
  - unfold view in Hvn. rewrite E1, mk_pte_present in Hvn. done.
  - split; [done|]. intros v. destruct (decide (same_page_as virt v)) as [Hs|Hs].
    + rewrite !(view_same _ _ virt v), N2 by done. unfold view. by rewrite Hv.
    + rewrite O2 by done. unfold view. by rewrite O1.
Qed.

(** A new address space is empty in the user half and shows the kernel's
    translations in the upper half; its root is a frame that was free, the
    kernel's own translations are unaffected, and a failure changes nothing. *)
Theorem vmm_create_user_pml4_correct st st' user :
  tree_wf st (kernel_pml4 st) -> vmm_create_user_pml4 st = (st', user) ->
  (user = 0 /\ mem st' = mem st /\ out_of_frames 0 (frames st)) \/
  (tree_wf st' user /\ (forall a, in_block user 1 a -> fa_free (frames st) a) /\
   (forall v, view st' user v = if index 3 v <? 256 then None else view st (kernel_pml4 st) v) /\
   (forall v, view st' (kernel_pml4 st) v = view st (kernel_pml4 st) v)).
Proof.
  intros Hwf Hc.
  destruct (tree_tables _ _ Hwf [] (kernel_pml4 st)) as [Hk Hkf]; [simpl; lia|constructor|done|].
  destruct (vmm_create_user_pml4_entries _ _ _ (tree_frames _ _ Hwf) Hk Hkf Hc) as
    (_ & _ & [(? & ? & ?)|(Ht & Hin & _)]); [auto|]. right.
  assert (Hu : user <> 0) by (destruct Ht; lia).
  destruct (create_views _ _ _ Hwf Hc Hu). eauto using create_tree.
Qed.
End Properties.

Lemma vmm_map_page_correct_witness :
  only_entry demo_space demo_mapped 0x7000 0x400000 (mk_pte 0x1000 demo_flags) /\
  vmm_get_page_phys demo_mapped 0x7000 0x400000 = 0x1000.
Proof.
  destruct (vmm_map_page_correct demo_space 0x7000 0x400000 0x1000 demo_flags demo_mapped 0
    demo_space_tree (demo_space_not_huge _) ltac:(lia) demo_mapped_ok) as
    [(_ & _ & _ & Ho & Hp)|(? & _)]; [exact (conj Ho Hp)|discriminate].
Defined.

Lemma demo_space_wx : wx_ok demo_space 0x7000.
Proof. exact (empty_root_wx _ _ demo_space_empty). Qed.

Lemma vmm_wx_invariant_witness : tree_wf demo_mapped 0x7000 /\ wx_ok demo_mapped 0x7000.
Proof.
  assert (Hf : fits 64 0x400000) by (unfold fits; lia).
  apply (vmm_wx_invariant demo_space demo_mapped 0x7000);
    [|exact demo_space_tree|exact demo_space_wx].
  eapply rtc_l; [|apply rtc_refl].
  apply (step_map 0x7000 demo_space 0x400000 0x1000 demo_flags demo_mapped 0 Hf);
    [lia|apply demo_space_not_huge|exact demo_mapped_ok].
Defined.

Lemma vmm_set_page_flags_correct_witness :
  let r := vmm_set_page_flags demo_mapped 0x7000 0x400000 PTE_USER in
  snd r = 0 /\ wx_violation (vmm_get_page_flags (fst r) 0x7000 0x400000) = false /\
  tree_wf (fst r) 0x7000.
Proof.
  intros r. pose proof (surjective_pairing r) as E.
  assert (E0 : snd r = 0) by (vm_compute; reflexivity).
  split; [exact E0|]. split; [vm_compute; reflexivity|]. rewrite E0 in E.
  destruct (vmm_set_page_flags_correct demo_mapped 0x7000 0x400000 PTE_USER (fst r) 0
    demo_mapped_tree E) as [(_ & _ & _ & Ho & _)|(? & _)]; [apply Ho|discriminate].
Defined.

Lemma vmm_unmap_page_correct_witness :
  let r := vmm_unmap_page demo_mapped 0x7000 0x400000 true in
  snd r = 0 /\ view (fst r) 0x7000 0x400000 = None /\
  forall a, in_block 0x1000 1 a -> fa_free (frames (fst r)) a.
Proof.
  intros r. pose proof (surjective_pairing r) as E.
  assert (E0 : snd r = 0) by (vm_compute; reflexivity).
  assert (Ep : vmm_get_page_phys demo_mapped 0x7000 0x400000 = 0x1000) by (vm_compute; reflexivity).
  split; [exact E0|]. rewrite E0 in E.
  destruct (vmm_unmap_page_correct demo_mapped 0x7000 0x400000 true (fst r) 0
    demo_mapped_tree (fun _ => demo_leaf_not_table) E) as
    [(? & _)|(_ & _ & _ & Hv & _ & _ & Hfr)]; [discriminate|].
  split; [exact Hv|]. rewrite <-Ep. apply Hfr; reflexivity.
Defined.

Lemma vmm_map_unmap_roundtrip_witness :
  let r := vmm_unmap_page demo_mapped 0x7000 0x400000 false in
  same_space demo_space (fst r) 0x7000.
Proof.
  intros r.
  apply (vmm_map_unmap_roundtrip demo_space 0x7000 0x400000 0x1000 demo_flags demo_mapped (fst r) (snd r)
    demo_space_tree (demo_space_not_huge _) ltac:(lia) demo_mapped_ok).
  apply surjective_pairing.
Defined.

Lemma vmm_create_user_pml4_correct_witness :
  tree_wf demo_created 0x7000 /\ view demo_created 0x7000 0x400000 = None.
Proof.
  set (r := vmm_create_user_pml4 demo_boot).
  assert (E : r = (demo_created, snd r)) by (unfold demo_created; fold r; destruct r; reflexivity).
  assert (E0 : snd r = 0x7000) by (vm_compute; reflexivity). rewrite E0 in E.
  destruct (vmm_create_user_pml4_correct demo_boot demo_created 0x7000 demo_boot_tree E) as
    [(? & _)|(Hwf & _ & Hv & _)]; [discriminate|]. split; [exact Hwf|]. rewrite Hv. reflexivity.
Defined.
