(* ===== verification/VmmUser.v ===== *)
(** User-memory access of [kernel/memory.c]: the page-wise loops of
    [user_range_valid], [copy_from_user], [copy_to_user] and [user_strnlen]
    against their byte-wise meaning. *)
From S2P Require Import Prelude Pmm Vmm VmmTree VmmSpec.

(** ** Bytes of words *)

Lemma testbit_255 n : 0 <= n -> Z.testbit 255 n = (n <? 8).
Proof. intros Hn. change 255 with (Z.ones 8). by apply Z.testbit_ones_nonneg. Qed.

Lemma ld8_bit m a n :
  0 <= n -> Z.testbit (ld8 m a) n = (n <? 8) && Z.testbit (ld64 m (a - a mod 8)) (n + 8 * (a mod 8)).
Proof.
  intros Hn. unfold ld8. rewrite Z.land_spec, testbit_255, Z.shiftr_spec by done. apply andb_comm.
Qed.

Lemma st8_word m a b :
  ld64 (st8 m a b) (a - a mod 8) =
    Z.lor (Z.ldiff (ld64 m (a - a mod 8)) (Z.shiftl 255 (8 * (a mod 8))))
      (Z.shiftl (Z.land b 255) (8 * (a mod 8))).
Proof. unfold st8. apply ld64_st64_eq. Qed.

Lemma st8_other m a b x : x <> a - a mod 8 -> ld64 (st8 m a b) x = ld64 m x.
Proof. intros. unfold st8. by apply ld64_st64_ne. Qed.

Lemma st8_bit m a b n :
  0 <= n ->
  Z.testbit (ld64 (st8 m a b) (a - a mod 8)) n =
    if (8 * (a mod 8) <=? n) && (n <? 8 * (a mod 8) + 8)
    then Z.testbit b (n - 8 * (a mod 8)) else Z.testbit (ld64 m (a - a mod 8)) n.
Proof.
  intros Hn. pose proof (Z.mod_pos_bound a 8).
  rewrite st8_word, Z.lor_spec, Z.ldiff_spec, !Z.shiftl_spec, Z.land_spec by lia.
  destruct (Z.leb_spec (8 * (a mod 8)) n); cbn [andb].
  - rewrite testbit_255 by lia. destruct (Z.ltb_spec (n - 8 * (a mod 8)) 8),
      (Z.ltb_spec n (8 * (a mod 8) + 8)); try lia; cbn [negb].
    + by rewrite andb_false_r, andb_true_r.
    + by rewrite andb_true_r, andb_false_r, orb_false_r.
  - rewrite !(Z.testbit_neg_r _ (n - 8 * (a mod 8))) by lia. cbn. by rewrite andb_true_r, orb_false_r.
Qed.

Lemma ld8_st8_eq m a b : ld8 (st8 m a b) a = Z.land b 255.
Proof.
  pose proof (Z.mod_pos_bound a 8). apply Z.bits_inj'. intros n Hn.
  rewrite ld8_bit, Z.land_spec, testbit_255, andb_comm by done. destruct (Z.ltb_spec n 8); [|by rewrite !andb_false_r].
  rewrite !andb_true_r, st8_bit by lia.
  destruct (Z.leb_spec (8 * (a mod 8)) (n + 8 * (a mod 8))), (Z.ltb_spec (n + 8 * (a mod 8)) (8 * (a mod 8) + 8));
    try lia. cbn [andb]. f_equal. lia.
Qed.

Lemma ld8_st8_ne m a b a' : a <> a' -> ld8 (st8 m a b) a' = ld8 m a'.
Proof.
  intros Hne. apply Z.bits_inj'. intros n Hn. rewrite !ld8_bit by done.
  destruct (Z.ltb_spec n 8); [|done]. cbn [andb].
  destruct (decide (a' - a' mod 8 = a - a mod 8)) as [He|Hd].
  - pose proof (Z.mod_pos_bound a 8). pose proof (Z.mod_pos_bound a' 8).
    rewrite He, st8_bit by lia.
    destruct (Z.leb_spec (8 * (a mod 8)) (n + 8 * (a' mod 8))),
      (Z.ltb_spec (n + 8 * (a' mod 8)) (8 * (a mod 8) + 8)); cbn [andb]; try done.
    exfalso. apply Hne. lia.
  - by rewrite st8_other.
Qed.

(** ** Pages of addresses *)

Lemma page_of_eq a : fits 64 a -> page_of a = a - a mod PAGE_SIZE.
Proof.
  intros Ha. unfold page_of. change (PAGE_SIZE - 1) with (2 ^ 12 - 1). change PAGE_SIZE with (2 ^ 12).
  apply land_clear_low; [lia|done].
Qed.

Lemma page_offset_eq a : page_offset a = a mod PAGE_SIZE.
Proof. unfold page_offset. change (PAGE_SIZE - 1) with (2 ^ 12 - 1). by apply land_ones_mod. Qed.

Lemma index_page l a b :
  0 <= l -> 0 <= a -> 0 <= b -> a / PAGE_SIZE = b / PAGE_SIZE -> index l a = index l b.
Proof.
  intros Hl Ha Hb He. rewrite !index_eq by done.
  replace (2 ^ (12 + 9 * l)) with (PAGE_SIZE * 2 ^ (9 * l)).
  - assert (0 < 2 ^ (9 * l)) by (apply Z.pow_pos_nonneg; lia).
    rewrite <-!Z.div_div, He by done. done.
  - rewrite Z.pow_add_r by lia. done.
Qed.

Lemma page_of_div a : fits 64 a -> page_of a / PAGE_SIZE = a / PAGE_SIZE.
Proof.
  intros Ha. rewrite page_of_eq by done. unfold PAGE_SIZE.
  Z.to_euclidean_division_equations; lia.
Qed.

Lemma page_of_bound a : fits 64 a -> 0 <= page_of a <= a.
Proof.
  intros Ha. rewrite page_of_eq by done. unfold fits, PAGE_SIZE in *.
  Z.to_euclidean_division_equations; lia.
Qed.

(** The last byte of the chunk of [copy_from_user] and friends. *)
Lemma chunk_of_spec a left :
  0 <= a -> 0 < left ->
  0 < chunk_of a left <= left /\
  forall k, 0 <= k < chunk_of a left ->
    (a + k) / PAGE_SIZE = a / PAGE_SIZE /\ (a + k) mod PAGE_SIZE = a mod PAGE_SIZE + k.
Proof.
  intros Ha Hl. unfold chunk_of. rewrite page_offset_eq. unfold PAGE_SIZE. cbv zeta.
  destruct (Z.ltb_spec left (4096 - a mod 4096)); (split; [|intros k Hk; split]);
    Z.to_euclidean_division_equations; lia.
Qed.

Section User.
Context {A : Type} `{FA : FrameAllocator A, !FrameAllocatorLaws A}.
Implicit Types st : mm A.

(** Physical address and byte behind a virtual address. *)
Definition translate st (root a : Z) : Z := vmm_get_page_phys st root a + a mod PAGE_SIZE.
Definition user_byte st (root a : Z) : Z := ld8 (mem st) (translate st root a).

Lemma page_phys_same st root a b :
  0 <= a -> 0 <= b -> a / PAGE_SIZE = b / PAGE_SIZE ->
  vmm_get_page_phys st root a = vmm_get_page_phys st root b.
Proof.
  intros Ha Hb He. unfold vmm_get_page_phys, vmm_get_pt.
  by rewrite !(index_page _ a b) by (done || lia).
Qed.

Lemma page_flags_same st root a b :
  0 <= a -> 0 <= b -> a / PAGE_SIZE = b / PAGE_SIZE ->
  vmm_get_page_flags st root a = vmm_get_page_flags st root b.
Proof.
  intros Ha Hb He. unfold vmm_get_page_flags, vmm_get_pt.
  by rewrite !(index_page _ a b) by (done || lia).
Qed.

(** The chunk the loops access lies where the bytes are. *)
Lemma chunk_translate st root a left k :
  fits 64 a -> 0 < left -> 0 <= k < chunk_of a left ->
  vmm_get_page_phys st root (page_of a) + page_offset a + k = translate st root (a + k).
Proof.
  intros Ha Hl Hk. destruct (chunk_of_spec a left) as [_ Hc]; [apply Ha|done|].
  destruct (Hc k Hk) as [Hd Hm]. unfold translate.
  pose proof (page_of_bound a Ha). unfold fits in Ha.
  rewrite (page_phys_same st root (a + k) (page_of a)); [|lia|lia|by rewrite Hd, page_of_div].
  rewrite page_offset_eq, Hm. lia.
Qed.

(** *** Byte-wise references *)

Fixpoint user_bytes st (root a : Z) (n : nat) : list Z :=
  match n with
  | O => []
  | S n' => user_byte st root a :: user_bytes st root (a + 1) n'
  end.

(** Store the bytes one by one at the translations of [tr]. *)
Fixpoint store_bytes (tr : Z -> Z) (m : memory) (a : Z) (bs : list Z) : memory :=
  match bs with
  | [] => m
  | b :: bs' => store_bytes tr (st8 m (tr a) b) (a + 1) bs'
  end.

(** A string length read byte by byte: -1 at the first byte of an unmapped
    page, -2 when there is no NUL within [n] bytes. *)
Definition user_mapped st (root a : Z) : bool :=
  let e := vmm_get_page_flags st root a in has e PTE_PRESENT && has e PTE_USER.

Fixpoint strnlen_bytes st (root a i : Z) (n : nat) : Z :=
  match n with
  | O => -2
  | S n' =>
      if negb (user_mapped st root a) then -1
      else if user_byte st root a =? 0 then i
      else strnlen_bytes st root (a + 1) (i + 1) n'
  end.

Lemma user_bytes_app st root a n1 n2 :
  user_bytes st root a (n1 + n2) = user_bytes st root a n1 ++ user_bytes st root (a + Z.of_nat n1) n2.
Proof.
  revert a. induction n1 as [|n1 IH]; intros a.
  - cbn. by rewrite Z.add_0_r.
  - cbn [Nat.add user_bytes app]. rewrite IH. do 3 f_equal. lia.
Qed.

Lemma user_bytes_length st root a n : length (user_bytes st root a n) = n.
Proof. revert a. induction n; intros a; cbn [user_bytes length]; auto. Qed.

Lemma store_bytes_app tr m a b1 b2 :
  store_bytes tr m a (b1 ++ b2) = store_bytes tr (store_bytes tr m a b1) (a + Z.of_nat (length b1)) b2.
Proof.
  revert m a. induction b1 as [|b b1 IH]; intros m a.
  - cbn. by rewrite Z.add_0_r.
  - cbn [app store_bytes length]. rewrite IH. f_equal. lia.
Qed.

Lemma read_bytes_user st root a p n :
  (forall k, 0 <= k < Z.of_nat n -> p + k = translate st root (a + k)) ->
  read_bytes (mem st) p n = user_bytes st root a n.
Proof.
  revert a p. induction n as [|n IH]; intros a p H; [done|]. cbn [read_bytes user_bytes]. f_equal.
  - unfold user_byte. rewrite <-(Z.add_0_r p), (H 0) by lia. by rewrite Z.add_0_r.
  - apply IH. intros k Hk. rewrite <-!Z.add_assoc. apply H. lia.
Qed.

Lemma write_bytes_store tr m a p bs :
  (forall k, 0 <= k < Z.of_nat (length bs) -> p + k = tr (a + k)) ->
  write_bytes m p bs = store_bytes tr m a bs.
Proof.
  revert m a p. induction bs as [|b bs IH]; intros m a p H; [done|].
  cbn [write_bytes store_bytes length] in *.
  rewrite <-(Z.add_0_r a) at 1. rewrite <-H, Z.add_0_r by lia. apply IH. intros k Hk.
  rewrite <-!Z.add_assoc. apply H. lia.
Qed.

Lemma copy_in_bytes st root fuel :
  forall src left, 0 <= src -> 0 <= left -> src + left < 2 ^ 64 -> left <= Z.of_nat fuel ->
    copy_in st root src left fuel = user_bytes st root src (Z.to_nat left).
Proof.
  induction fuel as [|fuel IH]; intros src left Hs Hl Hb Hf; cbn [copy_in].
  { by replace left with 0 by lia. }
  destruct (Z.leb_spec left 0); [by replace left with 0 by lia|].
  destruct (chunk_of_spec src left) as [Hc _]; [done|done|].
  assert (Hw : u64 (src + chunk_of src left) = src + chunk_of src left) by (apply uwrap_id; unfold fits; lia).
  rewrite Hw, IH by lia.
  rewrite (read_bytes_user _ root src).
  - rewrite <-(Z2Nat.id (chunk_of src left)) at 2 by lia. rewrite <-user_bytes_app. f_equal. lia.
  - intros k Hk. apply (chunk_translate _ _ _ left); [unfold fits; lia|done|lia].
Qed.

(** *** Strings *)

Lemma find_nul_bytes st root a p n i N :
  0 <= a ->
  (forall k, 0 <= k < Z.of_nat n ->
     p + k = translate st root (a + k) /\ user_mapped st root (a + k) = true) ->
  strnlen_bytes st root a i (n + N) =
    match find_nul (mem st) p n 0 with
    | Some j => i + j
    | None => strnlen_bytes st root (a + Z.of_nat n) (i + Z.of_nat n) N
    end.
Proof.
  intros Ha. enough (G : forall n a p i j, 0 <= a ->
    (forall k, 0 <= k < Z.of_nat n ->
       p + k = translate st root (a + k) /\ user_mapped st root (a + k) = true) ->
    strnlen_bytes st root a (i + j) (n + N) =
      match find_nul (mem st) p n j with
      | Some j' => i + j'
      | None => strnlen_bytes st root (a + Z.of_nat n) (i + j + Z.of_nat n) N
      end).
  { intros H. rewrite <-(Z.add_0_r i) at 1. rewrite (G n a p i 0) by done.
    destruct (find_nul _ _ _ _); [done|]. by rewrite Z.add_0_r. }
  clear. induction n as [|n IH]; intros a p i j Ha H; cbn [Nat.add find_nul].
  { by rewrite !Z.add_0_r. }
  cbn [strnlen_bytes]. destruct (H 0) as [H1 H2]; [lia|]. rewrite (Z.add_0_r a) in H1, H2. rewrite Z.add_0_r in H1.
  rewrite H2. cbn [negb]. unfold user_byte. rewrite <-H1.
  destruct (ld8 (mem st) p =? 0); [done|].
  replace (i + j + 1) with (i + (j + 1)) by lia. rewrite (IH (a + 1) (p + 1)); [|lia|].
  - destruct (find_nul _ _ _ _); [done|]. f_equal; lia.
  - intros k Hk. rewrite <-!Z.add_assoc. apply H. lia.
Qed.

Lemma strnlen_loop_bytes st root fuel :
  forall a checked max_len, 0 <= a -> 0 <= checked <= max_len ->
    a + (max_len - checked) < 2 ^ 64 -> max_len - checked <= Z.of_nat fuel ->
    strnlen_loop st root a checked max_len fuel =
      strnlen_bytes st root a checked (Z.to_nat (max_len - checked)).
Proof.
  induction fuel as [|fuel IH]; intros a checked max_len Ha Hc Hb Hf; cbn [strnlen_loop].
  { by replace (max_len - checked) with 0 by lia. }
  destruct (Z.leb_spec max_len checked); [by replace (max_len - checked) with 0 by lia|].
  set (left := max_len - checked) in *. destruct (chunk_of_spec a left) as [Hch Hin]; [done|lia|].
  assert (Hfit : fits 64 a) by (unfold fits; lia).
  pose proof (page_of_bound a Hfit) as Hpb.
  assert (Hflags : forall k, 0 <= k < chunk_of a left ->
    vmm_get_page_flags st root (a + k) = vmm_get_page_flags st root (page_of a)).
  { intros k Hk. apply page_flags_same; [lia|lia|]. rewrite page_of_div by done. by apply Hin. }
  destruct (_ || _) eqn:Hpte.
  - replace (Z.to_nat left) with (S (Z.to_nat (left - 1))) by lia. cbn [strnlen_bytes].
    assert (Hm : user_mapped st root a = user_mapped st root (page_of a)).
    { unfold user_mapped. by rewrite <-(Hflags 0), Z.add_0_r by lia. }
    rewrite Hm. unfold user_mapped. cbv zeta. by rewrite negb_andb, Hpte.
  - assert (Hm : user_mapped st root (page_of a) = true).
    { unfold user_mapped. rewrite <-negb_andb in Hpte. by apply negb_false_iff in Hpte. }
    replace (Z.to_nat left) with (Z.to_nat (chunk_of a left) + Z.to_nat (left - chunk_of a left))%nat by lia.
    erewrite find_nul_bytes; [|done|].
    2:{ intros k Hk. split; [|unfold user_mapped in *; rewrite Hflags by lia; done].
        rewrite <-(chunk_translate _ _ _ left) by (done || lia).
        rewrite leaf_page_phys. unfold user_mapped in Hm. cbv zeta in Hm.
        apply andb_true_iff in Hm as [Hm _]. cbv zeta. by rewrite Hm. }
    destruct (find_nul _ _ _ _); [done|].
    assert (Hw : u64 (a + chunk_of a left) = a + chunk_of a left) by (apply uwrap_id; unfold fits; lia).
    rewrite Hw, IH by lia. f_equal; lia.
Qed.

(** *** What the MMU allows a user program *)

(** A page walk in which every level is present and user-accessible. *)
Fixpoint user_walk (m : memory) (t : Z) (p : list Z) : option Z :=
  match p with
  | [] => Some t
  | i :: p' =>
      let e := ld64 m (entry_addr t i) in
      if has e PTE_PRESENT && has e PTE_USER && negb (has e PTE_HUGE)
      then user_walk m (Z.land e PTE_ADDR_MASK) p' else None
  end.

Definition accessible st (root a access : Z) : bool :=
  match user_walk (mem st) root (vpath a) with
  | None => false
  | Some pt =>
      let e := ld64 (mem st) (entry_addr pt (index 0 a)) in
      has e PTE_PRESENT && has e PTE_USER &&
      (negb (has access USER_ACCESS_WRITE) || has e PTE_WRITABLE) &&
      (negb (has access USER_ACCESS_EXEC) || negb (has e PTE_NO_EXECUTE))
  end.

Lemma user_page_ok_accessible st root a access :
  user_page_ok st root a access = accessible st root a access.
Proof.
  unfold user_page_ok, accessible, vmm_get_page_flags, vmm_get_pt, child, vpath. cbn [user_walk].
  unfold entry, entry_addr. cbv zeta.
  set (e3 := ld64 _ (root + _)). set (pdpt := Z.land e3 _).
  destruct (has e3 PTE_PRESENT), (has e3 PTE_USER), (has e3 PTE_HUGE); try reflexivity.
  cbn [negb orb andb]. set (e2 := ld64 _ (pdpt + _)). set (pd := Z.land e2 _).
  destruct (has e2 PTE_PRESENT), (has e2 PTE_USER), (has e2 PTE_HUGE); try reflexivity.
  cbn [negb orb andb]. set (e1 := ld64 _ (pd + _)). set (pt := Z.land e1 _).
  destruct (has e1 PTE_PRESENT), (has e1 PTE_USER), (has e1 PTE_HUGE); try reflexivity.
  cbn [negb orb andb]. set (e0 := ld64 _ (pt + _)).
  by destruct (has e0 PTE_PRESENT), (has e0 PTE_USER), (has access USER_ACCESS_WRITE),
    (has e0 PTE_WRITABLE), (has access USER_ACCESS_EXEC), (has e0 PTE_NO_EXECUTE).
Qed.

Lemma accessible_page st root a b access :
  0 <= a -> 0 <= b -> a / PAGE_SIZE = b / PAGE_SIZE ->
  accessible st root a access = accessible st root b access.
Proof.
  intros Ha Hb He. unfold accessible, vpath. by rewrite !(index_page _ a b) by (done || lia).
Qed.

Lemma check_pages_spec st root access fuel :
  forall page last,
    0 <= page <= last -> last < 2 ^ 63 -> page mod PAGE_SIZE = 0 -> last mod PAGE_SIZE = 0 ->
    (last - page) / PAGE_SIZE < Z.of_nat fuel ->
    exists b, check_pages st root access fuel page last = Some b /\
      (b = true <-> forall p, page <= p <= last -> p mod PAGE_SIZE = 0 ->
         accessible st root p access = true).
Proof.
  unfold PAGE_SIZE. induction fuel as [|fuel IH]; intros page last Hp Hl Hpa Hla Hf; cbn [check_pages].
  { Z.to_euclidean_division_equations; lia. }
  rewrite user_page_ok_accessible. destruct (accessible st root page access) eqn:Ha; cbn [negb].
  2:{ exists false. split; [done|]. split; [done|]. intros H. rewrite H in Ha by (lia || done). done. }
  destruct (Z.eqb_spec page last) as [->|Hne].
  { exists true. split; [done|]. split; [|done]. intros _ p Hp' _. by replace p with last by lia. }
  assert (Hw : u64 (page + PAGE_SIZE) = page + 4096) by (apply uwrap_id; unfold fits, PAGE_SIZE; lia).
  assert (page + 4096 <= last) by (Z.to_euclidean_division_equations; lia).
  rewrite Hw. destruct (IH (page + 4096) last) as (b & -> & Hb);
    [lia|done|Z.to_euclidean_division_equations; lia|done|Z.to_euclidean_division_equations; lia|].
  exists b. split; [done|]. rewrite Hb. split; intros H' p Hp' Hpm.
  - destruct (decide (p = page)) as [->|]; [done|].
    apply H'; [|done]. Z.to_euclidean_division_equations; lia.
  - apply H'; [lia|done].
Qed.

(** The range test, byte by byte. *)
Definition range_accessible st (addr size access : Z) : Prop :=
  let root := vmm_get_current_pml4 st in
  size = 0 \/
  (addr + size <= USER_VA_LIMIT /\ root <> 0 /\ root <> kernel_pml4 st /\
   forall a, addr <= a < addr + size -> accessible st root a access = true).

Lemma user_range_valid_spec st addr size access :
  fits 64 addr -> fits 64 size ->
  exists b, user_range_valid st addr size access = Some b /\
    (b = true <-> range_accessible st addr size access).
Proof.
  intros Ha Hs. unfold user_range_valid, range_accessible. cbv zeta.
  destruct (Z.eqb_spec size 0) as [->|Hs0]; [exists true; split; [done|tauto]|].
  assert (Hov : u64 (addr + size) = addr + size \/ 2 ^ 64 <= addr + size /\ u64 (addr + size) < addr).
  { destruct (decide (2 ^ 64 <= addr + size)).
    - right. split; [done|]. by apply uwrap_add_lt.
    - left. apply uwrap_id. unfold fits in *. lia. }
  unfold fits in *.
  destruct (Z.ltb_spec (u64 (addr + size)) addr); cbn [orb].
  { exists false. split; [done|]. split; [done|]. intros [|(Hl & _)]; [done|].
    unfold USER_VA_LIMIT in *. lia. }
  destruct Hov as [->|]; [|lia].
  destruct (Z.leb_spec USER_VA_LIMIT addr), (Z.ltb_spec USER_VA_LIMIT (addr + size)); cbn [orb];
    try (exists false; split; [done|]; split; [done|]; intros [|(Hl & _)]; lia).
  set (root := vmm_get_current_pml4 st).
  destruct (Z.eqb_spec root 0), (Z.eqb_spec root (kernel_pml4 st)); cbn [orb];
    try (exists false; split; [done|]; split; [done|]; intros [|(_ & ? & ? & _)]; done).
  assert (Hfa : fits 64 addr) by (unfold fits; lia).
  assert (Hfe : fits 64 (addr + size - 1)) by (unfold fits, USER_VA_LIMIT in *; lia).
  rewrite !page_of_eq by done. unfold USER_VA_LIMIT in *.
  destruct (check_pages_spec st root access
    (S (Z.to_nat (((addr + size - 1) - (addr + size - 1) mod PAGE_SIZE - (addr - addr mod PAGE_SIZE)) / PAGE_SIZE)))
    (addr - addr mod PAGE_SIZE) ((addr + size - 1) - (addr + size - 1) mod PAGE_SIZE)) as (b & -> & Hb);
    unfold PAGE_SIZE in *; [Z.to_euclidean_division_equations; lia..|].
  exists b. split; [done|]. rewrite Hb. split.
  - intros H'. right. split; [lia|]. split; [done|]. split; [done|]. intros a Har.
    rewrite (accessible_page _ _ a (a - a mod 4096)); unfold PAGE_SIZE;
      [apply H'|..]; Z.to_euclidean_division_equations; lia.
  - intros [?|(_ & _ & _ & H')] p Hp Hpm; [done|].
    destruct (decide (addr <= p)); [apply H'; Z.to_euclidean_division_equations; lia|].
    rewrite (accessible_page _ _ p addr); unfold PAGE_SIZE;
      [apply H'|..]; Z.to_euclidean_division_equations; lia.
Qed.

(** *** Writing *)

(** The bytes of a virtual range do not lie in the page tables that map it. *)
Definition data_range st (root a n : Z) : Prop :=
  forall k q t, 0 <= k < n -> (length q <= 3)%nat -> Forall valid_index q ->
    walk (mem st) root q = Some t -> ~ in_block t 1 (translate st root (a + k)).

(** [st2] has the tables of [st]: same walks, same entries. *)
Definition same_tables st st2 (root : Z) : Prop :=
  same_regs st st2 /\
  (forall q, (length q <= 3)%nat -> Forall valid_index q ->
     walk (mem st2) root q = walk (mem st) root q) /\
  (forall q t j, (length q <= 3)%nat -> Forall valid_index q -> valid_index j ->
     walk (mem st) root q = Some t -> ld64 (mem st2) (entry_addr t j) = ld64 (mem st) (entry_addr t j)).

Lemma same_tables_trans st1 st2 st3 root :
  same_tables st1 st2 root -> same_tables st2 st3 root -> same_tables st1 st3 root.
Proof.
  intros (R1 & W1 & E1) (R2 & W2 & E2). split; [by eapply same_regs_trans|]. split.
  - intros q Hq Hv. by rewrite W2, W1.
  - intros q t j Hq Hv Hj Hw. rewrite (E2 q) by (done || by rewrite W1). by apply (E1 q).
Qed.

Lemma same_tables_flags st st2 root v :
  same_tables st st2 root -> vmm_get_page_flags st2 root v = vmm_get_page_flags st root v.
Proof.
  intros (_ & W & E). rewrite !vmm_get_page_flags_leaf. apply leaf_ext; auto using vpath_valid.
  intros t Hw. apply (E (vpath v)); auto using vpath_valid, index_valid.
Qed.

Lemma same_tables_translate st st2 root v :
  same_tables st st2 root -> translate st2 root v = translate st root v.
Proof.
  intros Hs. unfold translate. rewrite !leaf_page_phys. cbv zeta.
  by rewrite (same_tables_flags st st2) by done.
Qed.

Lemma same_tables_user_walk st st2 root q p t :
  same_tables st st2 root -> (length q + length p <= 3)%nat -> Forall valid_index q ->
  Forall valid_index p -> walk (mem st) root q = Some t ->
  user_walk (mem st2) t p = user_walk (mem st) t p.
Proof.
  intros (_ & W & E). revert q t. induction p as [|i p IH]; intros q t Hl Hq Hp Hw; [done|].
  apply Forall_cons in Hp as [Hi Hp]. cbn [user_walk length] in *.
  rewrite (E q t i) by (done || lia). cbv zeta.
  set (e := ld64 (mem st) (entry_addr t i)).
  destruct (has e PTE_PRESENT) eqn:B1, (has e PTE_USER), (has e PTE_HUGE) eqn:B3; try done.
  cbn [andb negb]. apply (IH (q ++ [i])); [rewrite length_app; simpl; lia| |done|].
  - apply Forall_app. by split; [|constructor].
  - rewrite walk_snoc, Hw. unfold child. fold (entry_addr t i) e. by rewrite B1, B3.
Qed.

Lemma same_tables_accessible st st2 root v access :
  same_tables st st2 root -> accessible st2 root v access = accessible st root v access.
Proof.
  intros Hs. unfold accessible.
  rewrite (same_tables_user_walk st st2 root [] (vpath v) root) by (auto using vpath_valid).
  destruct (user_walk (mem st) root (vpath v)) as [pt|] eqn:Hw; [|done].
  enough (ld64 (mem st2) (entry_addr pt (index 0 v)) = ld64 (mem st) (entry_addr pt (index 0 v))) as -> by done.
  assert (G : forall p t t', user_walk (mem st) t p = Some t' -> walk (mem st) t p = Some t').
  { induction p as [|i p IH]; intros t t'; cbn [user_walk walk]; [done|]. cbv zeta.
    unfold child. fold (entry_addr t i). set (e := ld64 _ _).
    destruct (has e PTE_PRESENT), (has e PTE_USER), (has e PTE_HUGE); try done. apply IH. }
  apply G in Hw. destruct Hs as (_ & _ & E).
  apply (E (vpath v)); auto using vpath_valid, index_valid.
Qed.

(** Stores outside the tables keep them. *)
Lemma stores_keep_tables st root tr a bs :
  tree_wf st root ->
  (forall k q t, 0 <= k < Z.of_nat (length bs) -> (length q <= 3)%nat -> Forall valid_index q ->
     walk (mem st) root q = Some t -> ~ in_block t 1 (tr (a + k))) ->
  same_tables st (set_mem (store_bytes tr (mem st) a bs) st) root.
Proof.
  intros Hwf Hout.
  assert (Hag : forall q t j, (length q <= 3)%nat -> Forall valid_index q -> valid_index j ->
    walk (mem st) root q = Some t ->
    ld64 (store_bytes tr (mem st) a bs) (entry_addr t j) = ld64 (mem st) (entry_addr t j)).
  { intros q t j Hq Hv Hj Hw.
    assert (Htp := tree_table_page _ _ _ _ Hwf Hq Hv Hw).
    assert (Hne : forall k, 0 <= k < Z.of_nat (length bs) ->
      entry_addr t j <> tr (a + k) - tr (a + k) mod 8).
    { intros k Hk He. apply (Hout k q t Hk Hq Hv Hw). destruct Htp as (_ & Ha & _).
      unfold in_block, entry_addr, valid_index, PAGE_SIZE in *.
      Z.to_euclidean_division_equations; lia. }
    clear Hout. revert Hne. generalize (mem st). generalize a.
    induction bs as [|b bs' IH]; intros a' m Hne; [done|]. cbn [store_bytes length] in *.
    rewrite IH.
    - apply st8_other. specialize (Hne 0). rewrite Z.add_0_r in Hne. apply Hne. lia.
    - intros k Hk. rewrite <-Z.add_assoc. apply Hne. lia. }
  split; [by split|]. cbn [mem set_mem]. split; [|done].
  apply walk_agree. intros q t j Hq Hv Hj Hw. apply child_ext. apply (Hag q); (done || lia).
Qed.

Lemma same_tables_wf st st2 root :
  tree_wf st root -> frames st2 = frames st -> same_tables st st2 root -> tree_wf st2 root.
Proof.
  intros Hwf Hf (_ & W & _). apply (tree_wf_agree st); [done| | |done]; rewrite Hf; [apply Hwf|done].
Qed.

Lemma copy_out_bytes root tr fuel :
  forall st dst bs left, tree_wf st root -> 0 <= dst -> left = Z.of_nat (length bs) ->
    dst + left < 2 ^ 64 -> left <= Z.of_nat fuel ->
    (forall v, translate st root v = tr v) -> data_range st root dst left ->
    copy_out st root dst bs left fuel = set_mem (store_bytes tr (mem st) dst bs) st.
Proof.
  induction fuel as [|fuel IH]; intros st dst bs left Hwf Hd Hlen Hb Hf Htr Hdr; cbn [copy_out].
  { destruct bs; [|cbn in Hlen; lia]. by destruct st. }
  destruct (Z.leb_spec left 0); [destruct bs; [|cbn in Hlen; lia]; by destruct st|].
  destruct (chunk_of_spec dst left) as [Hc _]; [done|done|]. set (c := chunk_of dst left) in *.
  assert (Hfit : fits 64 dst) by (unfold fits; lia).
  assert (Ht : Z.of_nat (length (take (Z.to_nat c) bs)) = c) by (rewrite length_take; lia).
  rewrite (write_bytes_store tr _ dst).
  2:{ intros k Hk. rewrite <-Htr. apply (chunk_translate _ _ _ left); [done|done|lia]. }
  set (st1 := set_mem _ st).
  assert (Hs : same_tables st st1 root).
  { apply stores_keep_tables; [done|]. intros k q t Hk Hq Hv Hw. rewrite <-Htr.
    apply (Hdr k q t); [lia|done..]. }
  assert (Hw : u64 (dst + c) = dst + c) by (apply uwrap_id; unfold fits; lia). rewrite Hw.
  rewrite (IH st1 (dst + c)); [|by apply (same_tables_wf st)|lia|rewrite length_drop; lia|lia|lia| |].
  - pose proof (store_bytes_app tr (mem st) dst (take (Z.to_nat c) bs) (drop (Z.to_nat c) bs)) as E.
    rewrite take_drop, Ht in E. rewrite E. reflexivity.
  - intros v. by rewrite (same_tables_translate st st1).
  - intros k q t Hk Hq Hv Hwq. rewrite (same_tables_translate st st1), <-Z.add_assoc by done.
    destruct Hs as (_ & W & _). rewrite W in Hwq by done. apply (Hdr (c + k) q t); [lia|done..].
Qed.

Lemma store_bytes_out tr m a bs x :
  (forall k, 0 <= k < Z.of_nat (length bs) -> tr (a + k) <> x) ->
  ld8 (store_bytes tr m a bs) x = ld8 m x.
Proof.
  revert m a. induction bs as [|b bs IH]; intros m a H; [done|]. cbn [store_bytes length] in *.
  rewrite IH; [|intros k Hk; rewrite <-Z.add_assoc; apply H; lia].
  apply ld8_st8_ne. rewrite <-(Z.add_0_r a). apply H. lia.
Qed.

(** Bytes stored through an injective translation are read back. *)
Lemma store_bytes_read st root a bs m :
  mem st = store_bytes (translate st root) m a bs ->
  (forall j k, 0 <= j < Z.of_nat (length bs) -> 0 <= k < Z.of_nat (length bs) ->
     translate st root (a + j) = translate st root (a + k) -> j = k) ->
  user_bytes st root a (length bs) = map (fun b => Z.land b 255) bs.
Proof.
  intros Hm Hinj. set (tr := translate st root) in *.
  enough (G : forall bs a m, (forall j k, 0 <= j < Z.of_nat (length bs) -> 0 <= k < Z.of_nat (length bs) ->
       tr (a + j) = tr (a + k) -> j = k) -> mem st = store_bytes tr m a bs ->
     user_bytes st root a (length bs) = map (fun b => Z.land b 255) bs) by (by apply (G bs a m)).
  clear. induction bs as [|b bs IH]; intros a m Hinj Hm; [done|].
  cbn [store_bytes length user_bytes map] in *. f_equal.
  - unfold user_byte. fold tr. rewrite Hm, store_bytes_out; [apply ld8_st8_eq|].
    intros k Hk He. rewrite <-(Z.add_0_r a) in He at 2. rewrite <-Z.add_assoc in He.
    apply Hinj in He; lia.
  - apply (IH (a + 1) (st8 m (tr a) b)); [|done]. intros j k Hj Hk He. rewrite <-!Z.add_assoc in He.
    apply Hinj in He; lia.
Qed.

Lemma data_range_0 st root a : data_range st root a 0.
Proof. intros k q t Hk. lia. Qed.

Lemma copy_from_user_inv st buf src size r rc :
  fits 64 src -> fits 64 size -> copy_from_user st (Some buf) src size = (r, rc) ->
  (rc = 0 /\ range_accessible st src size USER_ACCESS_READ /\
   r = Some (user_bytes st (vmm_get_current_pml4 st) src (Z.to_nat size) ++ drop (Z.to_nat size) buf)) \/
  (rc = -1 /\ r = Some buf /\ size <> 0 /\
   (src = 0 \/ ~ range_accessible st src size USER_ACCESS_READ)).
Proof.
  intros Hs Hz. unfold copy_from_user.
  destruct (Z.eqb_spec size 0) as [->|Hn]; [intros [= <- <-]; left; split; [done|]; split; [by left|done]|].
  destruct (Z.eqb_spec src 0) as [->|Hsrc]; [intros [= <- <-]; auto 6|].
  destruct (user_range_valid_spec st src size USER_ACCESS_READ Hs Hz) as (b & -> & Hb).
  destruct b; intros [= <- <-].
  - left. split; [done|]. split; [by apply Hb|]. rewrite copy_in_bytes; [done|..]; unfold fits in *; try lia.
    destruct Hb as [Hb _]. destruct (Hb eq_refl) as [|(? & _)]; [done|]. unfold USER_VA_LIMIT in *. lia.
  - right. split; [done|]. split; [done|]. split; [done|]. right. intros H. by apply Hb in H.
Qed.

Lemma copy_to_user_inv st dst bytes size st' rc :
  fits 64 dst -> fits 64 size -> size <= Z.of_nat (length bytes) ->
  tree_wf st (vmm_get_current_pml4 st) -> data_range st (vmm_get_current_pml4 st) dst size ->
  copy_to_user st dst (Some bytes) size = (st', rc) ->
  let root := vmm_get_current_pml4 st in
  (rc = 0 /\ range_accessible st dst size USER_ACCESS_WRITE /\ same_tables st st' root /\
   st' = set_mem (store_bytes (translate st root) (mem st) dst (take (Z.to_nat size) bytes)) st) \/
  (rc = -1 /\ st' = st /\ size <> 0 /\
   (dst = 0 \/ ~ range_accessible st dst size USER_ACCESS_WRITE)).
Proof.
  intros Hs Hz Hlen Hwf Hdr. unfold copy_to_user. cbv zeta.
  destruct (Z.eqb_spec size 0) as [->|Hn].
  { intros [= <- <-]. left. split; [done|]. split; [by left|]. split; [|by destruct st].
    split; [by split|]. done. }
  destruct (Z.eqb_spec dst 0) as [->|Hsrc]; [intros [= <- <-]; auto 6|].
  destruct (user_range_valid_spec st dst size USER_ACCESS_WRITE Hs Hz) as (b & -> & Hb).
  destruct b; intros [= <- <-].
  - assert (Hlt : Z.of_nat (length (take (Z.to_nat size) bytes)) = size).
    { rewrite length_take. unfold fits in *. lia. }
    left. split; [done|]. split; [by apply Hb|].
    rewrite (copy_out_bytes _ (translate st (vmm_get_current_pml4 st)));
      [|done|apply Hs|done| |unfold fits in *; lia|done|done].
    + split; [|done]. apply stores_keep_tables; [done|]. intros k q t Hk Hq Hv Hw.
      apply (Hdr k q t); [lia|done..].
    + destruct Hb as [Hb _]. destruct (Hb eq_refl) as [|(? & _)]; [done|]. unfold USER_VA_LIMIT in *. lia.
  - right. split; [done|]. split; [done|]. split; [done|]. right. intros H. by apply Hb in H.
Qed.

Lemma accessible_read st root a access :
  accessible st root a access = true -> accessible st root a USER_ACCESS_READ = true.
Proof.
  unfold accessible. destruct (user_walk _ _ _); [|done]. cbv zeta.
  change (has USER_ACCESS_READ USER_ACCESS_WRITE) with false.
  change (has USER_ACCESS_READ USER_ACCESS_EXEC) with false. cbn [negb orb].
  rewrite !andb_true_iff. tauto.
Qed.
End User.

(** ** Properties *)

Section Properties.
Context {A : Type} `{FA : FrameAllocator A, !FrameAllocatorLaws A}.
Implicit Types st : mm A.

(** C14. [user_range_valid] always terminates and accepts a range exactly when
    it is empty, or lies below [USER_VA_LIMIT] without wrapping, in a user
    address space, and the MMU would let a user program access every one of
    its bytes. *)
Theorem user_range_valid_correct st addr size access :
  fits 64 addr -> fits 64 size ->
  exists b, user_range_valid st addr size access = Some b /\
    (b = true <-> range_accessible st addr size access).
Proof. apply user_range_valid_spec. Qed.

(** [copy_from_user] delivers exactly the bytes a user program would read
    at [src, src + size), across page boundaries, and keeps the rest of the
    buffer; it fails, touching nothing, exactly for a null source or a range
    the user may not read. *)
Theorem copy_from_user_correct st buf src size r rc :
  fits 64 src -> fits 64 size -> copy_from_user st (Some buf) src size = (r, rc) ->
  (rc = 0 /\ range_accessible st src size USER_ACCESS_READ /\
   r = Some (user_bytes st (vmm_get_current_pml4 st) src (Z.to_nat size) ++ drop (Z.to_nat size) buf)) \/
  (rc = -1 /\ r = Some buf /\ size <> 0 /\
   (src = 0 \/ ~ range_accessible st src size USER_ACCESS_READ)).
Proof. apply copy_from_user_inv. Qed.

(** What [copy_to_user] stores, [copy_from_user] reads back: after a
    successful copy out, a copy in of the same range succeeds and returns the
    bytes written, and no page table has changed. *)
Theorem copy_to_from_user_roundtrip st dst bytes size st' buf :
  fits 64 dst -> fits 64 size -> size <= Z.of_nat (length bytes) ->
  tree_wf st (vmm_get_current_pml4 st) -> data_range st (vmm_get_current_pml4 st) dst size ->
  (forall j k, 0 <= j < size -> 0 <= k < size ->
     translate st (vmm_get_current_pml4 st) (dst + j) = translate st (vmm_get_current_pml4 st) (dst + k) ->
     j = k) ->
  copy_to_user st dst (Some bytes) size = (st', 0) ->
  (forall v, vmm_get_page_flags st' (vmm_get_current_pml4 st) v =
     vmm_get_page_flags st (vmm_get_current_pml4 st) v) /\
  copy_from_user st' (Some buf) dst size =
    (Some (map (fun b => Z.land b 255) (take (Z.to_nat size) bytes) ++ drop (Z.to_nat size) buf), 0).
Proof.
  intros Hd Hs Hlen Hwf Hdr Hinj Hc.
  destruct (copy_to_user_inv _ _ _ _ _ _ Hd Hs Hlen Hwf Hdr Hc) as
    [(_ & Hacc & Hst & He)|(? & _)]; [|done]. set (root := vmm_get_current_pml4 st) in *.
  assert (Hroot : vmm_get_current_pml4 st' = root) by (by rewrite He).
  split; [intros v; by apply same_tables_flags|].
  destruct (copy_from_user st' (Some buf) dst size) as [r rc] eqn:Hr.
  assert (Hacc' : range_accessible st' dst size USER_ACCESS_READ).
  { destruct Hacc as [|(Hl & Hn0 & Hnk & Ha)]; [by left|right]. rewrite Hroot.
    split; [done|]. split; [done|]. split; [by rewrite He|]. intros a Har.
    rewrite (same_tables_accessible st st') by done. eapply accessible_read, Ha, Har. }
  assert (Htl : length (take (Z.to_nat size) bytes) = Z.to_nat size).
  { rewrite length_take. unfold fits in *. lia. }
  destruct (copy_from_user_inv _ _ _ _ _ _ Hd Hs Hr) as
    [(-> & _ & ->)|(_ & _ & Hn & [Hz|Hna])]; [|exfalso|done].
  - rewrite Hroot. do 3 f_equal. rewrite <-Htl at 1. apply (store_bytes_read st' root dst _ (mem st)).
    + rewrite He. cbn [mem set_mem].
      enough (G : forall bs m a f g, (forall v, f v = g v) -> store_bytes f m a bs = store_bytes g m a bs).
      { apply G. intros v. rewrite <-He. symmetry. by apply same_tables_translate. }
      induction bs as [|b bs IH]; intros m a f g Hfg; [done|]. cbn [store_bytes]. rewrite Hfg. by apply IH.
    + intros j k Hj Hk. rewrite !(same_tables_translate st st') by done. unfold fits in *. apply Hinj; lia.
  - subst dst. unfold copy_to_user in Hc. apply Z.eqb_neq in Hn. by rewrite Hn in Hc.
Qed.

(** [user_strnlen] computes, page by page, what reading the string byte by
    byte computes: the offset of the first NUL, -2 when there is none within
    [max_len] bytes, -1 as soon as a byte is not in a user page. *)
Theorem user_strnlen_correct st user_str max_len :
  0 < user_str -> 0 < max_len -> user_str + max_len < 2 ^ 64 ->
  user_strnlen st user_str max_len =
    let root := vmm_get_current_pml4 st in
    if (root =? 0) || (root =? kernel_pml4 st) then -1
    else strnlen_bytes st root user_str 0 (Z.to_nat max_len).
Proof.
  intros Hs Hm Hb. unfold user_strnlen. cbv zeta.
  destruct (Z.eqb_spec user_str 0), (Z.eqb_spec max_len 0); try lia. cbn [orb].
  destruct (_ || _); [done|].
  rewrite strnlen_loop_bytes; [|lia|lia|lia|lia]. by rewrite Z.sub_0_r.
Qed.
End Properties.

Definition demo_str : list Z := [72; 105; 33; 0; 7].
Definition demo_written : mm pmm := fst (copy_to_user demo_mapped 0x400ffd (Some demo_str) 3).

Lemma user_range_valid_correct_witness :
  range_accessible demo_mapped 0x400ffd 3 USER_ACCESS_WRITE /\
  ~ range_accessible demo_mapped 0x400ffd 4 USER_ACCESS_WRITE.
Proof.
  assert (Ha : fits 64 0x400ffd) by (unfold fits; lia).
  destruct (user_range_valid_correct demo_mapped 0x400ffd 3 USER_ACCESS_WRITE Ha ltac:(unfold fits; lia))
    as (b & E & Hb).
  destruct (user_range_valid_correct demo_mapped 0x400ffd 4 USER_ACCESS_WRITE Ha ltac:(unfold fits; lia))
    as (b' & E' & Hb').
  assert (T : user_range_valid demo_mapped 0x400ffd 3 USER_ACCESS_WRITE = Some true)
    by (vm_compute; reflexivity).
  assert (F : user_range_valid demo_mapped 0x400ffd 4 USER_ACCESS_WRITE = Some false)
    by (vm_compute; reflexivity).
  rewrite T in E. rewrite F in E'. injection E as <-. injection E' as <-.
  split; [apply Hb; reflexivity|]. intros H. apply Hb' in H. discriminate H.
Defined.

Lemma copy_from_user_correct_witness :
  copy_from_user demo_mapped (Some [1; 2; 3; 4]) 0x400ffd 3 = (Some [0; 0; 0; 4], 0) /\
  range_accessible demo_mapped 0x400ffd 3 USER_ACCESS_READ.
Proof.
  assert (E : copy_from_user demo_mapped (Some [1; 2; 3; 4]) 0x400ffd 3 = (Some [0; 0; 0; 4], 0))
    by (vm_compute; reflexivity).
  split; [exact E|].
  destruct (copy_from_user_correct demo_mapped [1; 2; 3; 4] 0x400ffd 3 _ 0
    ltac:(unfold fits; lia) ltac:(unfold fits; lia) E) as [(_ & Hr & _)|(? & _)]; [exact Hr|discriminate].
Defined.

Lemma demo_root : vmm_get_current_pml4 demo_mapped = 0x7000.
Proof. vm_compute. reflexivity. Qed.

Lemma demo_translate a : 0x400000 <= a < 0x401000 -> translate demo_mapped 0x7000 a = 0x1000 + a mod PAGE_SIZE.
Proof.
  intros Ha. unfold translate. rewrite (page_phys_same demo_mapped 0x7000 a 0x400000).
  - assert (E : vmm_get_page_phys demo_mapped 0x7000 0x400000 = 0x1000) by (vm_compute; reflexivity).
    by rewrite E.
  - lia.
  - lia.
  - unfold PAGE_SIZE. Z.to_euclidean_division_equations; lia.
Qed.

Lemma demo_data_range : data_range demo_mapped 0x7000 0x400ffd 3.
Proof.
  intros k q t Hk Hq Hv Hw. apply (walk_tables _ 3) in Hw; [|done|done]. apply demo_mapped_tables in Hw.
  rewrite demo_translate by lia. unfold in_block, PAGE_SIZE. simpl in Hw.
  Z.to_euclidean_division_equations; lia.
Qed.

Lemma copy_to_from_user_roundtrip_witness :
  copy_from_user demo_written (Some [0; 0; 0]) 0x400ffd 3 = (Some [72; 105; 33], 0).
Proof.
  assert (E0 : snd (copy_to_user demo_mapped 0x400ffd (Some demo_str) 3) = 0) by (vm_compute; reflexivity).
  pose proof (surjective_pairing (copy_to_user demo_mapped 0x400ffd (Some demo_str) 3)) as E.
  rewrite E0 in E.
  apply (copy_to_from_user_roundtrip demo_mapped 0x400ffd demo_str 3 demo_written [0; 0; 0]).
  - unfold fits; lia.
  - unfold fits; lia.
  - simpl; lia.
  - rewrite demo_root. exact demo_mapped_tree.
  - rewrite demo_root. exact demo_data_range.
  - rewrite demo_root. intros j k Hj Hk. rewrite !demo_translate by lia. unfold PAGE_SIZE.
    Z.to_euclidean_division_equations; lia.
  - exact E.
Defined.

Lemma user_strnlen_correct_witness :
  user_strnlen demo_written 0x400ffd 3 = -2 /\ user_strnlen demo_written 0x400fff 9 = -1 /\
  user_strnlen demo_written 0x400ffd 3 =
    strnlen_bytes demo_written (vmm_get_current_pml4 demo_written) 0x400ffd 0 3.
Proof.
  split; [vm_compute; reflexivity|]. split; [vm_compute; reflexivity|].
  rewrite (user_strnlen_correct demo_written 0x400ffd 3) by lia. cbv zeta.
  assert (E : (vmm_get_current_pml4 demo_written =? 0) ||
    (vmm_get_current_pml4 demo_written =? kernel_pml4 demo_written) = false) by (vm_compute; reflexivity).
  rewrite E. reflexivity.
Defined.
