(* ===== verification/UserSpace.v ===== *)
(** The data of an address space: frames that hold user bytes stay clear of the page tables
    while pages are mapped into the space, stores change exactly the bytes they should, and
    removing a page, or failing to add one, leaves the data of every other page alone.  Used
    by the loader and by the process memory calls. *)
From S2P Require Import Prelude Pmm Vmm VmmTree VmmSpec VmmUser.

(** ** Bytes of physical memory *)

Lemma ld8_write_bytes m a bs x :
  ld8 (write_bytes m a bs) x =
    if (a <=? x) && (x <? a + Z.of_nat (length bs)) then Z.land (nth (Z.to_nat (x - a)) bs 0) 255 else ld8 m x.
Proof.
  revert m a. induction bs as [|b bs IH]; intros m a; cbn [write_bytes length].
  { destruct (Z.leb_spec a x), (Z.ltb_spec x (a + Z.of_nat 0)); try done. lia. }
  rewrite IH. destruct (Z.leb_spec (a + 1) x), (Z.ltb_spec x (a + 1 + Z.of_nat (length bs))),
    (Z.leb_spec a x), (Z.ltb_spec x (a + Z.of_nat (S (length bs)))); cbn [andb]; try lia.
  - replace (Z.to_nat (x - a)) with (S (Z.to_nat (x - (a + 1)))) by lia. done.
  - apply ld8_st8_ne. lia.
  - assert (x = a) as -> by lia. rewrite Z.sub_diag. apply ld8_st8_eq.
  - apply ld8_st8_ne. lia.
Qed.

Lemma ld8_words m m' p x :
  p mod PAGE_SIZE = 0 -> (forall a, ~ in_block p 1 a -> ld64 m' a = ld64 m a) -> ~ in_block p 1 x -> ld8 m' x = ld8 m x.
Proof.
  intros Hp Hw Hx. unfold ld8. rewrite Hw; [done|]. unfold in_block, PAGE_SIZE in *.
  intros [H1 H2]. apply Hx. Z.to_euclidean_division_equations. lia.
Qed.

Section Space.
Context {A : Type} `{FA : FrameAllocator A, !FrameAllocatorLaws A}.
Implicit Types st : mm A.

(** ** Data frames *)

(** An allocated frame that is not one of the tables of [root]. *)
Record data_page st (root d : Z) : Prop := DataPage {
  dp_page : table_page d;
  dp_held a : in_block d 1 a -> ~ fa_free (frames st) a;
  dp_apart p : (length p <= 3)%nat -> Forall valid_index p -> walk (mem st) root p <> Some d
}.

(** Data frames stay data frames, with their contents. *)
Definition keeps st st' (root : Z) : Prop :=
  forall d, data_page st root d ->
    data_page st' root d /\ forall a, in_block d 1 a -> ld64 (mem st') a = ld64 (mem st) a.

Lemma keeps_refl st root : keeps st st root.
Proof. by intros d Hd. Qed.

Lemma keeps_trans st1 st2 st3 root : keeps st1 st2 root -> keeps st2 st3 root -> keeps st1 st3 root.
Proof.
  intros K1 K2 d Hd. destruct (K1 d Hd) as [D1 M1]. destruct (K2 d D1) as [D2 M2]. split; [done|].
  intros a Ha. by rewrite M2, M1.
Qed.

Lemma block_start p : in_block p 1 p.
Proof. unfold in_block, PAGE_SIZE. lia. Qed.

Lemma keeps_alloc st st1 root p :
  tree_wf st root -> alloc_page st = (st1, p) ->
  keeps st st1 root /\ tree_wf st1 root /\ (p <> 0 -> data_page st1 root p) /\
  (forall q, (length q <= 3)%nat -> Forall valid_index q -> walk (mem st1) root q = walk (mem st) root q).
Proof.
  intros Hwf Ha. destruct (alloc_page_spec _ _ _ (tree_frames _ _ Hwf) Ha) as (_ & _ & Hcase).
  pose proof (ext_wf _ _ _ (alloc_extends _ _ _ _ Hwf Ha)) as W1.
  assert (Hw : forall q, (length q <= 3)%nat -> Forall valid_index q -> walk (mem st1) root q = walk (mem st) root q).
  { destruct (decide (p = 0)) as [->|Hp]; [|by apply (alloc_walk _ _ _ p)].
    destruct Hcase as [(_ & -> & _)|(Ht & _)]; [done|destruct Ht; lia]. }
  split; [|split; [done|split; [|done]]].
  - intros d [D1 D2 D3]. split.
    + constructor; [done| |intros q Hq Hv; rewrite Hw by done; by apply D3].
      intros a Hd Hf. apply (D2 a Hd). destruct Hcase as [(_ & _ & Hfr)|(_ & _ & Hfr & _)]; apply Hfr in Hf; tauto.
    + intros a Hd. destruct Hcase as [(_ & -> & _)|(_ & Hin & _ & _ & Hs)]; [done|]. apply Hs. intros Hb.
      by apply (D2 a Hd), Hin.
  - intros Hp. destruct Hcase as [(? & _)|(Ht & Hin & Hfr & _)]; [done|]. constructor; [done| |].
    + intros a Hd [_ Hn]%Hfr. by apply Hn.
    + intros q Hq Hv. rewrite Hw by done. intros Hwq. destruct (tree_tables _ _ Hwf q p Hq Hv Hwq) as [_ Hnf].
      by apply (Hnf p (block_start p)), Hin, block_start.
Qed.

(** Writing an entry of a table of the space. *)
Lemma keeps_set_entry st root q t i v :
  tree_wf st root -> (length q <= 3)%nat -> Forall valid_index q -> valid_index i ->
  walk (mem st) root q = Some t ->
  (forall d p, data_page st root d -> (length p <= 3)%nat -> Forall valid_index p ->
     walk (mem (set_entry t i v st)) root p <> Some d) ->
  keeps st (set_entry t i v st) root.
Proof.
  intros Hwf Hq Hv Hi Hw Hap d Hd. pose proof Hd as [D1 D2 D3]. split.
  - constructor; [done|exact D2|]. intros p. by apply Hap.
  - intros a Ha. cbn [mem set_entry set_mem]. fold (entry_addr t i). apply ld64_st64_ne. intros <-.
    apply (D3 q Hq Hv). rewrite Hw. f_equal.
    apply (same_page t d (entry_addr t i)); [exact (tree_table_page _ _ _ _ Hwf Hq Hv Hw)|done|by apply entry_in_block|done].
Qed.

Lemma ensure_table_keeps st root p tp i flags st' new :
  tree_wf st root -> (length p <= 2)%nat -> Forall valid_index p -> valid_index i ->
  walk (mem st) root p = Some tp ->
  ensure_table st tp i flags = (st', Some new) -> keeps st st' root.
Proof.
  intros Hwf Hp Hv Hi Hw. unfold ensure_table. destruct (has (entry st tp i) PTE_PRESENT) eqn:Hpres; cbn [negb].
  - destruct (has flags PTE_USER); intros [= <- <-]; [|apply keeps_refl].
    apply (keeps_set_entry st root p); auto; try lia. intros d q Hd Hq Hvq.
    assert (E : walk (mem (set_entry tp i (Z.lor (entry st tp i) PTE_USER) st)) root q = walk (mem st) root q).
    { revert q Hq Hvq. apply walk_agree. intros q t j Hq Hvq Hj Hwq. cbn [mem set_entry set_mem]. fold (entry_addr tp i).
      destruct (decide (entry_addr t j = entry_addr tp i)) as [He|Hne]; [|by apply child_ext, ld64_st64_ne].
      destruct (user_entry_bits (entry st tp i)) as (B1 & B2 & B3). apply child_same_bits; by rewrite He, ld64_st64_eq. }
    rewrite E. by apply Hd.
  - destruct (alloc_page st) as [st1 t] eqn:Ha. destruct (Z.eqb_spec t 0) as [|Ht]; [done|]. intros [= <- <-].
    set (v := Z.lor t _). destruct (keeps_alloc _ _ root _ Hwf Ha) as (K1 & W1 & Dt & Hw1).
    assert (Htp : table_page t) by apply (Dt Ht). destruct (table_entry_bits t flags Htp) as (B1 & B2 & B3). fold v in B1, B2, B3.
    intros d Hd. destruct (K1 d Hd) as [Hd1 M1].
    assert (Hne : d <> t).
    { intros ->. destruct (alloc_page_spec _ _ _ (tree_frames _ _ Hwf) Ha) as (_ & _ & [(? & _)|(_ & Hin & _)]); [done|].
      by apply (dp_held _ _ _ Hd t (block_start t)), Hin, block_start. }
    assert (Hlw : forall q, (length q <= 3)%nat -> Forall valid_index q -> walk (mem (set_entry tp i v st1)) root q <> Some d).
    { intros q Hq Hvq. rewrite (link_walk st st1 root tp i t v p) by done.
      case_decide; [congruence|]. by apply (dp_apart _ _ _ Hd). }
    split.
    + destruct Hd1 as [E1 E2 _]. constructor; [done|exact E2|exact Hlw].
    + intros a Hin. rewrite <-M1 by done. cbn [mem set_entry set_mem]. fold (entry_addr tp i). apply ld64_st64_ne. intros <-.
      apply (dp_apart _ _ _ Hd p); [lia|done|]. rewrite Hw. f_equal.
      apply (same_page tp d (entry_addr tp i)); [|apply Hd|by apply entry_in_block|done].
      apply (tree_table_page st root p); [done|lia|done..].
Qed.

(** The three descents of a successful mapping. *)
Lemma descend_ok st root virt flags st' pt :
  tree_wf st root -> path_not_huge st root virt -> descend st root virt flags = (st', Some pt) ->
  extends st st' root /\ keeps st st' root /\ walk (mem st') root (vpath virt) = Some pt.
Proof.
  intros Hwf (N3 & N2 & N1). unfold descend.
  pose proof (index_valid 3 virt) as V3. pose proof (index_valid 2 virt) as V2. pose proof (index_valid 1 virt) as V1.
  assert (P1 : Forall valid_index [index 3 virt]) by (by rewrite Forall_singleton).
  assert (P2 : Forall valid_index [index 3 virt; index 2 virt]) by (by rewrite !Forall_cons).
  destruct (ensure_table st root _ _) as [st1 [n1|]] eqn:E1; [|done].
  destruct (ensure_table_spec st root [] root (index 3 virt) flags st1 (Some n1)) as [X1 [W1 _]]; auto; try (simpl; lia).
  pose proof (ensure_table_keeps st root [] root (index 3 virt) flags st1 n1 Hwf ltac:(simpl; lia) ltac:(done) V3 eq_refl E1) as K1.
  cbn [app] in W1. set (pdpt := next st1 root (index 3 virt)) in *.
  pose proof (ext_huge _ _ _ X1 [index 3 virt] _ ltac:(simpl; lia) P1 V2 N2) as N2'.
  destruct (ensure_table st1 pdpt _ _) as [st2 [n2|]] eqn:E2; [|done].
  destruct (ensure_table_spec st1 root [index 3 virt] pdpt (index 2 virt) flags st2 (Some n2)) as [X2 [W2 _]];
    eauto using ext_wf; try (simpl; lia).
  pose proof (ensure_table_keeps st1 root [index 3 virt] pdpt (index 2 virt) flags st2 n2 (ext_wf _ _ _ X1) ltac:(simpl; lia) P1 V2 W1 E2) as K2.
  cbn [app] in W2. set (pd := next st2 pdpt (index 2 virt)) in *.
  pose proof (ext_huge _ _ _ (extends_trans _ _ _ _ X1 X2) [index 3 virt; index 2 virt] _ ltac:(simpl; lia) P2 V1 N1) as N1'.
  destruct (ensure_table st2 pd _ _) as [st3 [n3|]] eqn:E3; [|done].
  destruct (ensure_table_spec st2 root [index 3 virt; index 2 virt] pd (index 1 virt) flags st3 (Some n3)) as [X3 [W3 _]];
    eauto using ext_wf.
  pose proof (ensure_table_keeps st2 root [index 3 virt; index 2 virt] pd (index 1 virt) flags st3 n3 (ext_wf _ _ _ X2) ltac:(simpl; lia) P2 V1 W2 E3) as K3.
  intros [= <- <-]. split; [exact (extends_trans _ _ _ _ (extends_trans _ _ _ _ X1 X2) X3)|].
  split; [exact (keeps_trans _ _ _ _ (keeps_trans _ _ _ _ K1 K2) K3)|done].
Qed.

(** Mapping a page touches no data frame and adds no huge page. *)
Lemma map_page_keeps st root virt phys flags st' :
  tree_wf st root -> path_not_huge st root virt -> vmm_map_page st root virt phys flags = (st', 0) ->
  keeps st st' root /\ (forall v, path_not_huge st root v -> path_not_huge st' root v).
Proof.
  intros Hwf Hnh. rewrite vmm_map_page_unfold. destruct (map_rejected _ _ _ _ _); [done|].
  destruct (descend st root virt flags) as [st1 [pt|]] eqn:Hd; [|done].
  destruct (descend_ok _ _ _ _ _ _ Hwf Hnh Hd) as (X & K & W). destruct (has _ _); [done|]. intros [= <-].
  pose proof (ext_wf _ _ _ X) as W1. pose proof (index_valid 0 virt) as V0.
  destruct (set_leaf_spec st1 root (vpath virt) pt (index 0 virt) (mk_pte phys flags)) as (_ & Hw & _);
    auto using vpath_valid.
  split.
  - apply (keeps_trans _ st1); [done|]. apply (keeps_set_entry st1 root (vpath virt)); auto using vpath_valid.
    intros d p Hdp Hp Hv. rewrite Hw by done. by apply Hdp.
  - intros v Hv. enough (G : forall q i, (length q <= 2)%nat -> Forall valid_index q -> valid_index i ->
      not_huge st root q i -> not_huge (set_entry pt (index 0 virt) (mk_pte phys flags) st1) root q i).
    { destruct Hv as (H3 & H2 & H1). split_and!; apply G; auto using index_valid; repeat constructor; auto using index_valid;
        try (simpl; lia); apply index_valid. }
    intros q i Hq Hvq Hi Hh. pose proof (ext_huge _ _ _ X q i Hq Hvq Hi Hh) as Hh1.
    intros t. rewrite Hw by (done || lia). intros Ht. rewrite !entry_ld64. cbn [mem set_entry set_mem].
    fold (entry_addr pt (index 0 virt)). rewrite ld64_st64_ne; [by apply Hh1|].
    intros [He _]%(tree_entry_inj st1 root (vpath virt) q); auto using vpath_valid; try lia. subst q. cbn in Hq. lia.
Qed.

(** ** Address spaces under construction *)

Definition user_addr (v : Z) : Prop := 0 <= v < USER_VA_LIMIT.

(** The protection bits of an entry. *)
Definition PROT : Z := Z.lor PTE_USER (Z.lor PTE_WRITABLE PTE_NO_EXECUTE).

(** Every user page has a data frame of its own. *)
Record space_inv st (root : Z) : Prop := SpaceInv {
  si_wf : tree_wf st root;
  si_huge v : user_addr v -> path_not_huge st root v;
  si_data v : user_addr v -> view st root v <> None -> data_page st root (vmm_get_page_phys st root v);
  si_inj v v' : user_addr v -> user_addr v' -> view st root v <> None -> view st root v' <> None ->
    vmm_get_page_phys st root v = vmm_get_page_phys st root v' -> v / PAGE_SIZE = v' / PAGE_SIZE
}.

(** What a program finds at an address: the protection of its page and the byte. *)
Definition cell st (root v : Z) : option (Z * Z) :=
  match view st root v with Some e => Some (Z.land e PROT, user_byte st root v) | None => None end.

Lemma ld8_block m m' p x :
  p mod PAGE_SIZE = 0 -> (forall a, in_block p 1 a -> ld64 m' a = ld64 m a) -> in_block p 1 x -> ld8 m' x = ld8 m x.
Proof.
  intros Hp Hw Hx. unfold ld8. rewrite Hw; [done|]. unfold in_block, PAGE_SIZE in *.
  Z.to_euclidean_division_equations; lia.
Qed.

Lemma flags_view st st' root v :
  vmm_get_page_flags st' root v = vmm_get_page_flags st root v ->
  view st' root v = view st root v /\ vmm_get_page_phys st' root v = vmm_get_page_phys st root v.
Proof. intros E. rewrite !leaf_page_phys. unfold view. by rewrite E. Qed.

Lemma translate_block st root v : in_block (vmm_get_page_phys st root v) 1 (translate st root v).
Proof. unfold in_block, translate. pose proof (Z.mod_pos_bound v PAGE_SIZE ltac:(done)). unfold PAGE_SIZE in *. lia. Qed.

Lemma keeps_byte st st' root v :
  keeps st st' root -> data_page st root (vmm_get_page_phys st root v) ->
  vmm_get_page_phys st' root v = vmm_get_page_phys st root v -> user_byte st' root v = user_byte st root v.
Proof.
  intros K Hd Hp. destruct (K _ Hd) as [_ M]. unfold user_byte.
  assert (translate st' root v = translate st root v) as -> by (unfold translate; by rewrite Hp).
  apply (ld8_block _ _ (vmm_get_page_phys st root v)); [apply Hd|done|apply translate_block].
Qed.

Lemma keeps_cell st st' root v :
  keeps st st' root -> space_inv st root -> user_addr v ->
  vmm_get_page_flags st' root v = vmm_get_page_flags st root v -> cell st' root v = cell st root v.
Proof.
  intros K Hs Hv E. destruct (flags_view _ _ _ _ E) as [Ev Ep]. unfold cell. rewrite Ev.
  destruct (view st root v) as [e|] eqn:Hview; [|done]. do 2 f_equal. apply keeps_byte; [done| |done].
  apply si_data; [done..|by rewrite Hview].
Qed.

(** A page has a frame exactly when it is mapped. *)
Lemma phys_view st root va : space_inv st root -> user_addr va -> vmm_get_page_phys st root va = 0 <-> view st root va = None.
Proof.
  intros Hs Hu. split.
  - intros H0. destruct (view st root va) as [e|] eqn:E; [|done].
    assert (Hm : view st root va <> None) by (by rewrite E). pose proof (dp_page _ _ _ (si_data _ _ Hs va Hu Hm)) as [Hp _]. lia.
  - rewrite leaf_page_phys. unfold view. cbn zeta. by destruct (has _ PTE_PRESENT).
Qed.

(** Frames taken and tables changed elsewhere. *)
Lemma space_transport st st' root :
  space_inv st root -> tree_wf st' root -> (forall v, path_not_huge st root v -> path_not_huge st' root v) ->
  keeps st st' root -> (forall v, user_addr v -> vmm_get_page_flags st' root v = vmm_get_page_flags st root v) ->
  space_inv st' root /\ forall v, user_addr v -> cell st' root v = cell st root v.
Proof.
  intros Hs Hwf Hh K E. pose proof Hs as [S1 S2 S3 S4]. split.
  - constructor; [done| | |].
    + intros v Hv. by apply Hh, S2.
    + intros v Hv. destruct (flags_view _ _ _ _ (E v Hv)) as [-> ->]. intros Hm. by apply K, S3.
    + intros v v' Hv Hv'. destruct (flags_view _ _ _ _ (E v Hv)) as [-> ->], (flags_view _ _ _ _ (E v' Hv')) as [-> ->].
      by apply S4.
  - intros v Hv. apply keeps_cell; auto.
Qed.

Lemma alloc_space st st1 root p :
  space_inv st root -> alloc_page st = (st1, p) ->
  space_inv st1 root /\ (forall v, user_addr v -> cell st1 root v = cell st root v) /\
  (p <> 0 -> data_page st1 root p /\ (forall v, user_addr v -> view st1 root v <> None -> vmm_get_page_phys st1 root v <> p) /\
     forall x, in_block p 1 x -> ld8 (mem st1) x = 0).
Proof.
  intros Hs Ha. pose proof (si_wf _ _ Hs) as Hwf. pose proof (alloc_extends _ _ _ _ Hwf Ha) as X.
  destruct (keeps_alloc _ _ root _ Hwf Ha) as (K & W1 & Dp & Hw).
  assert (E : forall v, vmm_get_page_flags st1 root v = vmm_get_page_flags st root v).
  { intros v. rewrite !vmm_get_page_flags_leaf. apply (ext_leaf _ _ _ X); auto using vpath_valid, index_valid. }
  destruct (space_transport st st1 root) as [S1 C1]; auto.
  { intros v (H3 & H2 & H1). split_and!; apply (ext_huge _ _ _ X); auto; try (simpl; lia);
      repeat constructor; apply index_valid. }
  split; [done|]. split; [done|]. intros Hp. split; [by apply Dp|].
  destruct (alloc_page_spec _ _ _ (tree_frames _ _ Hwf) Ha) as (_ & _ & [(? & _)|(Ht & Hin & _ & Hz & _)]); [done|]. split.
  - intros v Hv. destruct (flags_view _ _ _ _ (E v)) as [-> ->]. intros Hm He. pose proof (si_data _ _ Hs v Hv Hm) as Hd.
    rewrite He in Hd. apply (dp_held _ _ _ Hd p (block_start p)), Hin, block_start.
  - intros x Hx. unfold ld8. replace (ld64 (mem st1) (x - x mod 8)) with 0; [by rewrite Z.shiftr_0_l, Z.land_0_l|].
    symmetry. rewrite <-(Hz ((x - x mod 8 - p) / 8)).
    + f_equal. unfold entry_addr. destruct Ht as (_ & Ht & _). unfold in_block, PAGE_SIZE in *. Z.to_euclidean_division_equations; lia.
    + destruct Ht as (_ & Ht & _). unfold valid_index, in_block, PAGE_SIZE in *. Z.to_euclidean_division_equations; lia.
Qed.

Lemma user_same_page v va :
  user_addr v -> user_addr va -> same_page_as va v <-> v / PAGE_SIZE = va / PAGE_SIZE.
Proof.
  unfold user_addr, USER_VA_LIMIT. intros Hv Hva. rewrite same_page_as_iff by lia. unfold PAGE_SIZE.
  rewrite !Z.mod_small by (Z.to_euclidean_division_equations; lia). split; congruence.
Qed.

Lemma mk_pte_prot phys flags : Z.land (mk_pte phys flags) PROT = Z.land flags PROT.
Proof. by apply mk_pte_bits. Qed.

(** Mapping a fresh frame: its page reads as zeros under the given protection. *)
Lemma map_cell st root va p flags st' :
  space_inv st root -> user_addr va -> data_page st root p ->
  (forall v, user_addr v -> view st root v <> None -> vmm_get_page_phys st root v <> p) ->
  vmm_map_page st root va p flags = (st', 0) ->
  space_inv st' root /\ keeps st st' root /\ view st root va = None /\
  vmm_get_page_phys st' root va = p /\ wx_violation flags = false /\
  (forall v, ~ same_page_as va v -> vmm_get_page_flags st' root v = vmm_get_page_flags st root v) /\
  forall v, user_addr v ->
    cell st' root v =
      if v / PAGE_SIZE =? va / PAGE_SIZE then Some (Z.land flags PROT, ld8 (mem st) (p + v mod PAGE_SIZE)) else cell st root v.
Proof.
  intros Hs Hva Hd Hnew Hm. pose proof Hs as [S1 S2 S3 S4]. assert (Hp : 0 <= p < 2 ^ 52).
  { destruct Hd as [(H1 & _ & H2) _ _]. unfold PAGE_SIZE in H2. lia. }
  destruct (map_page_keeps _ _ _ _ _ _ S1 (S2 va Hva) Hm) as [K Hh].
  destruct (vmm_map_page_inv _ _ _ _ _ _ _ S1 (S2 va Hva) Hp Hm) as [(? & _)|(_ & Hr & Hv & (Hwf & _ & He & Ho) & Hph)]; [done|].
  assert (Hwx : wx_violation flags = false) by (unfold map_rejected in Hr; rewrite !orb_false_iff in Hr; tauto).
  assert (Same : forall v, user_addr v -> v / PAGE_SIZE = va / PAGE_SIZE ->
    vmm_get_page_flags st' root v = mk_pte p flags /\ vmm_get_page_phys st' root v = p).
  { intros v Hu Hpg. unfold user_addr in *. rewrite (page_flags_same st' root v va), (page_phys_same st' root v va) by (lia || done). by split. }
  assert (Diff : forall v, user_addr v -> v / PAGE_SIZE <> va / PAGE_SIZE ->
    vmm_get_page_flags st' root v = vmm_get_page_flags st root v).
  { intros v Hu Hpg. apply Ho. by rewrite user_same_page. }
  assert (Hview : forall v, user_addr v -> v / PAGE_SIZE = va / PAGE_SIZE -> view st' root v = Some (mk_pte p flags)).
  { intros v Hu Hpg. unfold view. destruct (Same v Hu Hpg) as [-> _]. by rewrite mk_pte_present. }
  split.
  { constructor; [done|intros v Hu; by apply Hh, S2| |].
    - intros v Hu Hm'. destruct (Z.eq_dec (v / PAGE_SIZE) (va / PAGE_SIZE)) as [Hpg|Hpg].
      + destruct (Same v Hu Hpg) as [_ ->]. by apply K.
      + destruct (flags_view _ _ _ _ (Diff v Hu Hpg)) as [Ev Ep]. rewrite Ep. rewrite Ev in Hm'. by apply K, S3.
    - intros v v' Hu Hu' Hm1 Hm2.
      destruct (Z.eq_dec (v / PAGE_SIZE) (va / PAGE_SIZE)) as [Hpg|Hpg],
        (Z.eq_dec (v' / PAGE_SIZE) (va / PAGE_SIZE)) as [Hpg'|Hpg']; [congruence| | |].
      + destruct (Same v Hu Hpg) as [_ ->], (flags_view _ _ _ _ (Diff v' Hu' Hpg')) as [Ev Ep]. rewrite Ep. rewrite Ev in Hm2.
        intros E. exfalso. by apply (Hnew v' Hu' Hm2).
      + destruct (Same v' Hu' Hpg') as [_ ->], (flags_view _ _ _ _ (Diff v Hu Hpg)) as [Ev Ep]. rewrite Ep. rewrite Ev in Hm1.
        intros E. exfalso. by apply (Hnew v Hu Hm1).
      + destruct (flags_view _ _ _ _ (Diff v Hu Hpg)) as [Ev Ep], (flags_view _ _ _ _ (Diff v' Hu' Hpg')) as [Ev' Ep'].
        rewrite Ep, Ep'. rewrite Ev in Hm1. rewrite Ev' in Hm2. by apply S4. }
  split; [done|]. split; [unfold view; by rewrite Hv|]. split; [done|]. split; [done|]. split; [done|].
  intros v Hu. destruct (Z.eqb_spec (v / PAGE_SIZE) (va / PAGE_SIZE)) as [Hpg|Hpg].
  - unfold cell. rewrite Hview, mk_pte_prot by done. do 2 f_equal. unfold user_byte, translate.
    destruct (Same v Hu Hpg) as [_ ->]. destruct (K p Hd) as [_ M]. apply (ld8_block _ _ p); [apply Hd|done|].
    unfold in_block. pose proof (Z.mod_pos_bound v PAGE_SIZE ltac:(done)). unfold PAGE_SIZE in *. lia.
  - apply keeps_cell; auto.
Qed.

(** Storing bytes inside one mapped page. *)
Lemma write_cell st root va off bs :
  space_inv st root -> user_addr va -> view st root va <> None -> 0 <= off -> off + Z.of_nat (length bs) <= PAGE_SIZE ->
  let p := vmm_get_page_phys st root va in
  let st' := set_mem (write_bytes (mem st) (p + off) bs) st in
  space_inv st' root /\ same_tables st st' root /\
  forall v, user_addr v ->
    cell st' root v =
      if (v / PAGE_SIZE =? va / PAGE_SIZE) && (off <=? v mod PAGE_SIZE) && (v mod PAGE_SIZE <? off + Z.of_nat (length bs))
      then (fun c => (fst c, Z.land (nth (Z.to_nat (v mod PAGE_SIZE - off)) bs 0) 255)) <$> cell st root v
      else cell st root v.
Proof.
  intros Hs Hva Hm Ho Hl p st'. pose proof Hs as [S1 S2 S3 S4]. pose proof (S3 va Hva Hm) as Hd. fold p in Hd.
  assert (Hblk : forall k, 0 <= k < Z.of_nat (length bs) -> in_block p 1 (p + off + k))
    by (intros k Hk; unfold in_block, PAGE_SIZE in *; lia).
  assert (T : same_tables st st' root).
  { unfold st'. rewrite (write_bytes_store (fun x => x) _ (p + off)) by done. apply stores_keep_tables; [done|].
    intros k q t Hk Hq Hv Hw Hb. apply (dp_apart _ _ _ Hd q Hq Hv). rewrite Hw. f_equal.
    apply (same_page t p (p + off + k)); [exact (tree_table_page _ _ _ _ S1 Hq Hv Hw)|apply Hd|done|by apply Hblk]. }
  assert (F : forall v, vmm_get_page_flags st' root v = vmm_get_page_flags st root v) by (intros v; by apply same_tables_flags).
  split.
  { constructor.
    - by apply (same_tables_wf st).
    - intros v Hv. destruct T as (_ & W & En). destruct (S2 v Hv) as (H3 & H2 & H1).
      enough (G : forall q i, (length q <= 2)%nat -> Forall valid_index q -> valid_index i -> not_huge st root q i -> not_huge st' root q i).
      { split_and!; apply G; auto; try (simpl; lia); repeat constructor; apply index_valid. }
      intros q i Hq Hvq Hi Hh t. rewrite W by (done || lia). intros Ht. rewrite !entry_ld64, (En q) by (done || lia). by apply Hh.
    - intros v Hv. destruct (flags_view _ _ _ _ (F v)) as [-> ->]. intros Hmv. pose proof (S3 v Hv Hmv) as [E1 E2 E3].
      constructor; [done|done|]. intros q Hq Hvq. destruct T as (_ & W & _). rewrite W by done. by apply E3.
    - intros v v' Hv Hv'. destruct (flags_view _ _ _ _ (F v)) as [-> ->], (flags_view _ _ _ _ (F v')) as [-> ->]. by apply S4. }
  split; [done|]. intros v Hv. unfold cell. destruct (flags_view _ _ _ _ (F v)) as [-> Ep].
  destruct (view st root v) as [e|] eqn:Ev; [|by destruct (_ && _)]. cbn [fmap option_fmap option_map fst].
  assert (Hmv : view st root v <> None) by (by rewrite Ev).
  unfold user_byte at 1, translate. rewrite Ep. unfold st'. cbn [mem set_mem]. rewrite ld8_write_bytes.
  pose proof (Z.mod_pos_bound v PAGE_SIZE ltac:(done)) as Hmod.
  destruct (Z.eqb_spec (v / PAGE_SIZE) (va / PAGE_SIZE)) as [Hpg|Hpg]; cbn [andb].
  - assert (Hph : vmm_get_page_phys st root v = p).
    { unfold user_addr in *. apply page_phys_same; lia. }
    rewrite Hph. replace (p + off <=? p + v mod PAGE_SIZE) with (off <=? v mod PAGE_SIZE)
      by (destruct (Z.leb_spec off (v mod PAGE_SIZE)), (Z.leb_spec (p + off) (p + v mod PAGE_SIZE)); lia).
    replace (p + v mod PAGE_SIZE <? p + off + Z.of_nat (length bs)) with (v mod PAGE_SIZE <? off + Z.of_nat (length bs))
      by (destruct (Z.ltb_spec (v mod PAGE_SIZE) (off + Z.of_nat (length bs))),
            (Z.ltb_spec (p + v mod PAGE_SIZE) (p + off + Z.of_nat (length bs))); lia).
    destruct (_ && _); do 2 f_equal.
    + do 3 f_equal. lia.
    + unfold user_byte, translate. by rewrite Hph.
  - assert (Hne : vmm_get_page_phys st root v <> p) by (intros E; by apply Hpg, (S4 v va)).
    destruct (Z.leb_spec (p + off) (vmm_get_page_phys st root v + v mod PAGE_SIZE)),
      (Z.ltb_spec (vmm_get_page_phys st root v + v mod PAGE_SIZE) (p + off + Z.of_nat (length bs))); cbn [andb]; try done.
    exfalso. apply Hne. apply (same_page _ _ (vmm_get_page_phys st root v + v mod PAGE_SIZE)).
    + apply (S3 v Hv Hmv).
    + apply Hd.
    + unfold in_block, PAGE_SIZE in *. lia.
    + unfold in_block, PAGE_SIZE in *. lia.
Qed.

(** A new address space is empty below the kernel half. *)
Lemma create_space st st' user :
  tree_wf st (kernel_pml4 st) -> vmm_create_user_pml4 st = (st', user) -> user <> 0 ->
  space_inv st' user /\ forall v, user_addr v -> cell st' user v = None.
Proof.
  intros Hwf Hc Hu. pose proof (create_tree _ _ _ Hwf Hc Hu) as Ht. destruct (create_views _ _ _ Hwf Hc Hu) as [_ Hv].
  destruct (create_walk _ _ _ Hwf Hc Hu) as [_ Hw].
  assert (I3 : forall v, user_addr v -> (index 3 v <? 256) = true).
  { intros v Hv'. unfold user_addr, USER_VA_LIMIT in Hv'. rewrite index_eq by lia. change (2 ^ (12 + 9 * 3)) with (2 ^ 39).
    apply Z.ltb_lt. Z.to_euclidean_division_equations; lia. }
  assert (N : forall v, user_addr v -> view st' user v = None) by (intros v Hv'; by rewrite Hv, I3).
  split; [|intros v Hv'; unfold cell; by rewrite N].
  constructor; [done| | |].
  - intros v Hv'. pose proof (I3 v Hv') as Hi. pose proof (index_valid 3 v) as V3.
    destruct (tree_tables _ _ Hwf [] (kernel_pml4 st)) as [Hk Hkf]; [simpl; lia|constructor|done|].
    destruct (vmm_create_user_pml4_entries _ _ _ (tree_frames _ _ Hwf) Hk Hkf Hc) as (_ & _ & [(? & _)|(_ & _ & _ & _ & Hent)]); [done|].
    split_and!; intros t Hwt.
    + injection Hwt as <-. by rewrite Hent, Hi, has_0_l.
    + rewrite Hw, Hi in Hwt by (done || (simpl; lia) || apply Forall_nil_2). done.
    + rewrite Hw, Hi in Hwt by (done || (simpl; lia) || (repeat constructor; apply index_valid)). done.
  - intros v Hv' Hm. by rewrite N in Hm.
  - intros v v' Hv' _ Hm. by rewrite N in Hm.
Qed.
End Space.

(** * Taking pages out of an address space *)

Section Unmap.
Context {A : Type} `{FA : FrameAllocator A, !FrameAllocatorLaws A}.
Implicit Types st : mm A.

(** Data frames stay as they are, and no huge page appears. *)
Record safe st st' (root : Z) : Prop := Safe {
  sf_keeps : keeps st st' root;
  sf_huge q i : (length q <= 2)%nat -> Forall valid_index q -> valid_index i -> not_huge st root q i -> not_huge st' root q i
}.

Lemma safe_refl st root : safe st st root.
Proof. constructor; [apply keeps_refl|auto]. Qed.

Lemma safe_trans st1 st2 st3 root : safe st1 st2 root -> safe st2 st3 root -> safe st1 st3 root.
Proof. intros [K1 H1] [K2 H2]. constructor; [by eapply keeps_trans|auto]. Qed.

Lemma safe_path st st' root v : safe st st' root -> path_not_huge st root v -> path_not_huge st' root v.
Proof.
  intros [_ H] (H3 & H2 & H1). split_and!; apply H; auto using index_valid; try (simpl; lia);
    repeat constructor; apply index_valid.
Qed.

Lemma extends_safe st st' root : extends st st' root -> keeps st st' root -> safe st st' root.
Proof. intros X K. constructor; [done|]. intros q i Hq Hv Hi. by apply (ext_huge _ _ _ X). Qed.

(** Cutting off a table and giving its frame back. *)
Lemma clear_safe st st2 root tp i sub rc p :
  tree_wf st root -> (length p <= 2)%nat -> Forall valid_index p -> valid_index i ->
  walk (mem st) root p = Some tp -> walk (mem st) root (p ++ [i]) = Some sub ->
  free_page (set_entry tp i 0 st) sub = (st2, rc) -> safe st st2 root.
Proof.
  intros Hwf Hp Hvp Hi Hwp Hws Hf.
  destruct (clear_effect st st2 root tp i sub rc p) as (_ & _ & Hm & Hfr); auto.
  destruct (clear_valid i p Hp Hvp Hi) as [Hl Hv].
  pose proof (clear_walk st st2 root tp i sub rc p Hwf Hp Hvp Hi Hwp Hws Hf) as Hw.
  constructor.
  - intros d [D1 D2 D3]. split.
    + constructor; [done| |].
      * intros a Ha [Hfa|Hb]%Hfr; [by apply (D2 a)|]. apply (D3 _ Hl Hv). rewrite Hws. f_equal.
        apply (same_page sub d a); [by apply (tree_table_page st root (p ++ [i]))|done..].
      * intros q Hq Hvq. rewrite Hw by done. case_decide; [done|]. by apply D3.
    + intros a Ha. rewrite Hm. apply ld64_st64_ne. intros <-. apply (D3 p); [lia|done|]. rewrite Hwp. f_equal.
      apply (same_page tp d (entry_addr tp i)); [apply (tree_table_page st root p); [done|lia|done..]|done|by apply entry_in_block|done].
  - intros q j Hq Hvq Hj Hh t. rewrite Hw by (done || lia). case_decide; [done|]. intros Ht.
    destruct (decide (q = p /\ j = i)) as [[-> ->]|Hne].
    + rewrite Hwp in Ht. injection Ht as <-. rewrite entry_ld64, Hm, ld64_st64_eq, has_0_l. done.
    + rewrite (clear_entry st st2 root tp i sub rc p Hwf Hp Hvp Hi Hwp Hws Hf q t j); [by apply Hh|lia|done..|].
      destruct (decide (q = p)); [right|by left]. intros ->. by apply Hne.
Qed.

Lemma undo_safe st root p tp i new :
  tree_wf st root -> (length p <= 2)%nat -> Forall valid_index p -> valid_index i ->
  walk (mem st) root p = Some tp -> (new <> 0 -> walk (mem st) root (p ++ [i]) = Some new) ->
  safe st (undo_table st tp i new) root.
Proof.
  intros Hwf Hp Hvp Hi Hwp Hn. unfold undo_table. destruct (Z.eqb_spec new 0) as [|Hne]; [apply safe_refl|].
  destruct (free_page (set_entry tp i 0 st) new) as [st2 rc] eqn:Hf. cbn [fst].
  by apply (clear_safe st st2 root tp i new rc p); auto.
Qed.

Lemma drop_safe st st' root p tp i sub result rc :
  tree_wf st root -> (length p <= 2)%nat -> Forall valid_index p -> valid_index i ->
  walk (mem st) root p = Some tp -> walk (mem st) root (p ++ [i]) = Some sub ->
  drop_table st tp i sub result = (st', rc) -> safe st st' root.
Proof.
  intros Hwf Hp Hvp Hi Hwp Hws. unfold drop_table. destruct (free_page (set_entry tp i 0 st) sub) as [st2 rc2] eqn:Hf.
  intros [= <- _]. by apply (clear_safe st st2 root tp i sub rc2 p).
Qed.

(** ** A mapping that fails *)

Lemma ensure_safe st root p tp i flags st' r :
  tree_wf st root -> (length p <= 2)%nat -> Forall valid_index p -> valid_index i -> not_huge st root p i ->
  walk (mem st) root p = Some tp -> ensure_table st tp i flags = (st', r) -> safe st st' root.
Proof.
  intros Hwf Hp Hv Hi Hnh Hw He. destruct (ensure_table_spec st root p tp i flags st' r) as [X _]; auto.
  apply extends_safe; [done|]. destruct r as [new|]; [by apply (ensure_table_keeps st root p tp i flags st' new)|].
  revert He. unfold ensure_table. cbn zeta. split_if E; [|by split_if E2].
  destruct (alloc_page st) as [st1 t] eqn:Ha. split_if E3; [|done]. intros [= <-]. by destruct (keeps_alloc st st1 root t Hwf Ha).
Qed.

Lemma ensured_walk st st1 st2 root p tp i flags new :
  tree_wf st root -> (length p <= 2)%nat -> Forall valid_index p -> valid_index i -> not_huge st root p i ->
  walk (mem st) root p = Some tp -> ensure_table st tp i flags = (st1, Some new) -> extends st1 st2 root ->
  new <> 0 -> walk (mem st2) root (p ++ [i]) = Some new.
Proof.
  intros Hwf Hp Hv Hi Hnh Hw He X Hn. destruct (ensure_table_spec st root p tp i flags st1 (Some new)) as (_ & Hws & Hnew); auto.
  destruct (Hnew Hn) as (E & _). destruct (clear_valid i p Hp Hv Hi) as [Hl Hvi]. apply (ext_walk _ _ _ X); [done..|]. by rewrite Hws, E.
Qed.

Lemma descend_safe st root virt flags st' r :
  tree_wf st root -> path_not_huge st root virt -> descend st root virt flags = (st', r) -> safe st st' root.
Proof.
  intros Hwf (N3 & N2 & N1). unfold descend.
  pose proof (index_valid 3 virt) as V3. pose proof (index_valid 2 virt) as V2. pose proof (index_valid 1 virt) as V1.
  assert (P1 : Forall valid_index [index 3 virt]) by (by rewrite Forall_singleton).
  assert (P2 : Forall valid_index [index 3 virt; index 2 virt]) by (by rewrite !Forall_cons).
  destruct (ensure_table st root _ _) as [st1 r1] eqn:E1.
  pose proof (ensure_safe st root [] root (index 3 virt) flags st1 r1 Hwf ltac:(simpl; lia) ltac:(done) V3 N3 eq_refl E1) as F1.
  destruct (ensure_table_spec st root [] root (index 3 virt) flags st1 r1) as [X1 S1]; auto; try (simpl; lia).
  destruct r1 as [n1|]; [|by intros [= <- _]]. destruct S1 as [W1 _]. cbn [app] in W1. set (pdpt := next st1 root (index 3 virt)) in *.
  pose proof (ext_huge _ _ _ X1 [index 3 virt] _ ltac:(simpl; lia) P1 V2 N2) as N2'. pose proof (ext_wf _ _ _ X1) as T1.
  destruct (ensure_table st1 pdpt _ _) as [st2 r2] eqn:E2.
  pose proof (ensure_safe st1 root [index 3 virt] pdpt (index 2 virt) flags st2 r2 T1 ltac:(simpl; lia) P1 V2 N2' W1 E2) as F2.
  destruct (ensure_table_spec st1 root [index 3 virt] pdpt (index 2 virt) flags st2 r2) as [X2 S2]; auto; try (simpl; lia).
  pose proof (ext_wf _ _ _ X2) as T2. pose proof (safe_trans _ _ _ _ F1 F2) as F12. destruct r2 as [n2|].
  2:{ intros [= <- _]. apply (safe_trans _ st2); [done|]. refine (undo_safe st2 root [] root _ _ T2 ltac:(simpl; lia) ltac:(done) V3 eq_refl _).
      apply (ensured_walk st st1 st2 root [] root (index 3 virt) flags n1); auto; simpl; lia. }
  destruct S2 as [W2 _]. cbn [app] in W2. set (pd := next st2 pdpt (index 2 virt)) in *.
  pose proof (ext_huge _ _ _ (extends_trans _ _ _ _ X1 X2) [index 3 virt; index 2 virt] _ ltac:(simpl; lia) P2 V1 N1) as N1'.
  destruct (ensure_table st2 pd _ _) as [st3 r3] eqn:E3.
  pose proof (ensure_safe st2 root [index 3 virt; index 2 virt] pd (index 1 virt) flags st3 r3 T2 ltac:(simpl; lia) P2 V1 N1' W2 E3) as F3.
  destruct (ensure_table_spec st2 root [index 3 virt; index 2 virt] pd (index 1 virt) flags st3 r3) as [X3 S3]; auto.
  pose proof (ext_wf _ _ _ X3) as T3. pose proof (safe_trans _ _ _ _ F12 F3) as F123.
  destruct r3 as [n3|]; [by intros [= <- _]|]. intros [= <- _].
  pose proof (extends_trans _ _ _ _ X2 X3) as X23.
  destruct (ensured_undo st1 st2 st3 root [index 3 virt] pdpt (index 2 virt) flags n2) as (U1 & _ & _ & U4); auto; try (simpl; lia).
  assert (Fu : safe st3 (undo_table st3 pdpt (index 2 virt) n2) root).
  { apply (undo_safe st3 root [index 3 virt] pdpt); auto; try (simpl; lia).
    - apply (ext_walk _ _ _ X23); [simpl; lia|done|exact W1].
    - apply (ensured_walk st1 st2 st3 root [index 3 virt] pdpt (index 2 virt) flags n2); auto; simpl; lia. }
  apply (safe_trans _ st3); [done|]. apply (safe_trans _ _ _ _ Fu). refine (undo_safe _ root [] root _ _ U1 ltac:(simpl; lia) ltac:(done) V3 eq_refl _).
  intros Hn1. cbn [app]. rewrite U4, <-W1. exact (ensured_walk st st1 st1 root [] root (index 3 virt) flags n1 Hwf ltac:(simpl; lia)
    ltac:(done) V3 N3 eq_refl E1 (extends_refl _ _ T1) Hn1).
Qed.

(** A mapping that fails changes no page of the space. *)
Lemma map_fails_safe st root virt phys flags st' rc :
  tree_wf st root -> path_not_huge st root virt -> vmm_map_page st root virt phys flags = (st', rc) -> rc <> 0 -> safe st st' root.
Proof.
  intros Hwf Hnh. rewrite vmm_map_page_unfold. split_if E; [intros [= <- _] _; apply safe_refl|].
  destruct (descend st root virt flags) as [st1 r] eqn:Hd. pose proof (descend_safe _ _ _ _ _ _ Hwf Hnh Hd) as F.
  destruct r as [pt|]; [|by intros [= <- _]]. split_if E2; [by intros [= <- _]|]. by intros [= _ <-].
Qed.

(** ** Removing a page *)

Lemma prune_safe st root virt pdpt pd pt result st' rc :
  tree_wf st root -> walk (mem st) root [index 3 virt] = Some pdpt ->
  walk (mem st) root [index 3 virt; index 2 virt] = Some pd -> walk (mem st) root (vpath virt) = Some pt ->
  prune st root virt pdpt pd pt result = (st', rc) -> safe st st' root.
Proof.
  intros Hwf W3 W2 W1. unfold prune.
  pose proof (index_valid 3 virt) as V3. pose proof (index_valid 2 virt) as V2. pose proof (index_valid 1 virt) as V1.
  assert (P1 : Forall valid_index [index 3 virt]) by (by rewrite Forall_singleton).
  assert (P2 : Forall valid_index [index 3 virt; index 2 virt]) by (by rewrite !Forall_cons).
  destruct (table_empty st pt) eqn:E1; cbn [negb]; [|intros [= <- _]; apply safe_refl].
  destruct (drop_table st pd _ pt result) as [st1 rc1] eqn:D1.
  pose proof (drop_safe st st1 root [index 3 virt; index 2 virt] pd (index 1 virt) pt result rc1 Hwf ltac:(simpl; lia) P2 V1 W2 W1 D1) as F1.
  destruct (drop_table_spec st st1 root [index 3 virt; index 2 virt] pd (index 1 virt) pt result rc1) as (T1 & _ & _ & _ & K1); auto.
  assert (W3' : walk (mem st1) root [index 3 virt] = Some pdpt).
  { rewrite K1; [done|simpl; lia|done|]. intros [r Hr]. discriminate Hr. }
  assert (W2' : walk (mem st1) root [index 3 virt; index 2 virt] = Some pd).
  { rewrite K1; [done|simpl; lia|done|]. intros [r Hr]. discriminate Hr. }
  destruct (table_empty st1 pd) eqn:E2; cbn [negb]; [|by intros [= <- _]].
  destruct (drop_table st1 pdpt _ pd rc1) as [st2 rc2] eqn:D2.
  pose proof (drop_safe st1 st2 root [index 3 virt] pdpt (index 2 virt) pd rc1 rc2 T1 ltac:(simpl; lia) P1 V2 W3' W2' D2) as F2.
  destruct (drop_table_spec st1 st2 root [index 3 virt] pdpt (index 2 virt) pd rc1 rc2) as (T2 & _ & _ & _ & K2);
    [done|apply le_S, le_n|done..|].
  pose proof (safe_trans _ _ _ _ F1 F2) as F12. split_if E3; [|by intros [= <- _]]. intros D3.
  apply (safe_trans _ st2); [done|]. apply (drop_safe st2 st' root [] root (index 3 virt) pdpt rc2 rc T2 ltac:(simpl; lia) ltac:(done) V3 eq_refl); [|done].
  cbn [app]. rewrite K2; [done|simpl; lia|done|]. intros [r Hr]. discriminate Hr.
Qed.

(** Freeing one data frame leaves the others. *)
Lemma free_data st st' root p rc d :
  fa_wf (frames st) -> table_page p -> free_page st p = (st', rc) -> data_page st root d -> d <> p ->
  data_page st' root d /\ mem st' = mem st.
Proof.
  intros Hwf Hp Hf [D1 D2 D3] Hne. destruct (free_page_spec _ _ _ _ Hwf (table_page_fits _ Hp) Hf) as (_ & _ & Hm & Hfr).
  split; [|done]. constructor; [done| |by rewrite Hm]. intros a Ha [Hfa|Hb]%Hfr; [by apply (D2 a)|]. by apply Hne, (same_page d p a).
Qed.

Lemma clear_leaf_safe st root virt pt :
  tree_wf st root -> walk (mem st) root (vpath virt) = Some pt -> safe st (set_entry pt (index 0 virt) 0 st) root.
Proof.
  intros Hwf Hw. destruct (set_leaf_spec st root (vpath virt) pt (index 0 virt) 0) as (_ & K & _); auto using vpath_valid, index_valid.
  constructor.
  - apply (keeps_set_entry st root (vpath virt)); auto using vpath_valid, index_valid.
    intros d q Hd Hq Hv. rewrite K by done. by apply Hd.
  - intros q i Hq Hv Hi Hh t. rewrite K by (done || lia). intros Ht. rewrite !entry_ld64. cbn [mem set_entry set_mem].
    fold (entry_addr pt (index 0 virt)). rewrite ld64_st64_ne; [by apply Hh|].
    intros [He _]%(tree_entry_inj st root (vpath virt) q); auto using vpath_valid, index_valid; try lia. subst q. cbn in Hq. lia.
Qed.

(** Removing a page: every other data frame stays, and no huge page appears. *)
Lemma unmap_keeps st root va fp st' rc :
  tree_wf st root -> data_page st root (vmm_get_page_phys st root va) -> vmm_unmap_page st root va fp = (st', rc) ->
  (forall d, data_page st root d -> d <> vmm_get_page_phys st root va ->
     data_page st' root d /\ forall a, in_block d 1 a -> ld64 (mem st') a = ld64 (mem st) a) /\
  forall v, path_not_huge st root v -> path_not_huge st' root v.
Proof.
  intros Hwf Hd. rewrite vmm_unmap_page_unfold. set (p := vmm_get_page_phys st root va) in *.
  assert (R : (forall d, data_page st root d -> d <> p -> data_page st root d /\
    forall a, in_block d 1 a -> ld64 (mem st) a = ld64 (mem st) a) /\ forall v, path_not_huge st root v -> path_not_huge st root v) by done.
  split_if E0; [by intros [= <- _]|]. destruct (vmm_get_pt st root va) as [pt|] eqn:Hpt; [|by intros [= <- _]].
  cbv zeta. destruct (has (entry st pt (index 0 va)) PTE_PRESENT) eqn:Hpres; cbn [negb]; [|by intros [= <- _]].
  assert (Hp : p = Z.land (entry st pt (index 0 va)) PTE_ADDR_MASK) by (unfold p, vmm_get_page_phys; by rewrite Hpt, Hpres).
  rewrite vmm_get_pt_walk in Hpt. destruct (vpath_prefixes (mem st) root va pt Hpt) as (pdpt & pd & W3 & W2). rewrite W3, W2, <-Hp.
  pose proof (clear_leaf_safe st root va pt Hwf Hpt) as F1.
  destruct (set_leaf_spec st root (vpath va) pt (index 0 va) 0) as (T1 & K1 & _); auto using vpath_valid, index_valid.
  set (st1 := set_entry pt (index 0 va) 0 st) in *. destruct (if fp then _ else _) as [st2 result] eqn:Hf. intros Hpr.
  destruct (sf_keeps _ _ _ F1 p Hd) as [Dp1 _].
  assert (H2 : tree_wf st2 root /\ mem st2 = mem st1 /\ forall d, data_page st1 root d -> d <> p -> data_page st2 root d).
  { destruct fp; [|by injection Hf as <- <-]. split; [|split].
    - rewrite Hp in Hf. apply (free_leaf_tree st1 st2 root (entry st pt (index 0 va)) result T1); [|done].
      intros q t Hq Hv Hw ->. rewrite <-Hp in Hw. by apply (dp_apart _ _ _ Dp1 q).
    - by destruct (free_page_spec st1 st2 p result (tree_frames _ _ T1) (table_page_fits _ (dp_page _ _ _ Hd)) Hf) as (_ & _ & -> & _).
    - intros d D Hne. by apply (free_data st1 st2 root p result d (tree_frames _ _ T1) (dp_page _ _ _ Hd) Hf D Hne). }
  destruct H2 as (T2 & M2 & D2).
  assert (Wk : forall q, (length q <= 3)%nat -> Forall valid_index q -> walk (mem st2) root q = walk (mem st) root q)
    by (intros q Hq Hv; by rewrite M2, K1).
  pose proof (index_valid 3 va) as V3. pose proof (index_valid 2 va) as V2.
  assert (F3 : safe st2 st' root).
  { apply (prune_safe st2 root va pdpt pd pt result st' rc T2); [..|done]; rewrite Wk; auto using vpath_valid; simpl; try lia;
      repeat constructor; done. }
  split.
  - intros d D Hne. destruct (sf_keeps _ _ _ F1 d D) as [Da Ma]. destruct (sf_keeps _ _ _ F3 d (D2 d Da Hne)) as [Db Mb].
    split; [done|]. intros a Ha. by rewrite Mb, M2, Ma.
  - intros v Hv. apply (safe_path _ _ _ _ F3). apply (safe_path _ _ _ _ F1) in Hv.
    assert (He : forall q i, not_huge st1 root q i -> not_huge st2 root q i).
    { intros q i Hq u. rewrite M2, !entry_ld64, M2, <-!entry_ld64. apply Hq. }
    destruct Hv as (G3 & G2 & G1). split_and!; by apply He.
Qed.

(** Removing a page of a space. *)
Lemma unmap_cell st root va fp st' rc :
  space_inv st root -> user_addr va -> va mod PAGE_SIZE = 0 -> vmm_unmap_page st root va fp = (st', rc) ->
  space_inv st' root /\
  forall v, user_addr v -> cell st' root v = if v / PAGE_SIZE =? va / PAGE_SIZE then None else cell st root v.
Proof.
  intros Hs Hva Hal Hun. pose proof Hs as [S1 S2 S3 S4].
  assert (Hpg : forall v, user_addr v -> v / PAGE_SIZE = va / PAGE_SIZE -> view st root v = view st root va).
  { intros v Hv E. unfold view. unfold user_addr in *. by rewrite (page_flags_same st root v va) by lia. }
  destruct (view st root va) as [e|] eqn:Ev.
  2:{ assert (st' = st) as ->.
      { destruct (vmm_unmap_page_inv st root va fp st' rc S1) as [(_ & -> & _)|([e He] & _)]; [|done..|congruence].
        intros _ q t Hq Hv Hw ->. rewrite (proj2 (phys_view st root va Hs Hva) Ev) in Hw. 
        destruct (tree_tables _ _ S1 q 0 Hq Hv Hw) as [[Hx _] _]. lia. }
      split; [done|]. intros v Hv. destruct (Z.eqb_spec (v / PAGE_SIZE) (va / PAGE_SIZE)) as [E|]; [|done].
      unfold cell. by rewrite (Hpg v Hv E). }
  assert (Hm : view st root va <> None) by (by rewrite Ev). pose proof (S3 va Hva Hm) as Hd.
  destruct (unmap_keeps st root va fp st' rc S1 Hd Hun) as [K Hh].
  destruct (vmm_unmap_page_inv st root va fp st' rc S1) as [(_ & _ & [->|[Hx|Hx]])|(_ & W' & _ & N' & O' & _)]; [|done|..].
  - intros _ q t Hq Hv Hw ->. by apply (dp_apart _ _ _ Hd q).
  - pose proof (tree_table_page _ _ [] 0 S1 ltac:(simpl; lia) ltac:(done) eq_refl) as [H0 _]. lia.
  - change (PAGE_SIZE - 1) with (2 ^ 12 - 1) in Hx. rewrite has_low_iff in Hx by lia. change (2 ^ 12) with PAGE_SIZE in Hx. by rewrite Hal in Hx.
  - congruence.
  - assert (Nv : forall v, user_addr v -> v / PAGE_SIZE = va / PAGE_SIZE -> view st' root v = None).
    { intros v Hv E. rewrite <-N'. unfold view. unfold user_addr in *. by rewrite (page_flags_same st' root v va) by lia. }
    assert (Ov : forall v, user_addr v -> v / PAGE_SIZE <> va / PAGE_SIZE -> view st' root v = view st root v).
    { intros v Hv E. apply O'. by rewrite user_same_page. }
    assert (Op : forall v, user_addr v -> v / PAGE_SIZE <> va / PAGE_SIZE -> vmm_get_page_phys st' root v = vmm_get_page_phys st root v).
    { intros v Hv E. specialize (Ov v Hv E). rewrite !leaf_page_phys. unfold view in Ov. cbn zeta.
      destruct (has (vmm_get_page_flags st' root v) PTE_PRESENT), (has (vmm_get_page_flags st root v) PTE_PRESENT); congruence. }
    assert (Dv : forall v, user_addr v -> v / PAGE_SIZE <> va / PAGE_SIZE -> view st root v <> None ->
      vmm_get_page_phys st root v <> vmm_get_page_phys st root va).
    { intros v Hv E Hmv He. by apply E, (S4 v va). }
    split.
    + constructor; [done|auto| |].
      * intros v Hv Hmv. destruct (decide (v / PAGE_SIZE = va / PAGE_SIZE)) as [E|E]; [by rewrite Nv in Hmv|].
        rewrite Ov in Hmv by done. rewrite Op by done. apply K; auto.
      * intros v v' Hv Hv' Hmv Hmv'.
        destruct (decide (v / PAGE_SIZE = va / PAGE_SIZE)) as [E|E]; [by rewrite Nv in Hmv|].
        destruct (decide (v' / PAGE_SIZE = va / PAGE_SIZE)) as [E'|E']; [by rewrite Nv in Hmv'|].
        rewrite Ov in Hmv, Hmv' by done. rewrite !Op by done. by apply S4.
    + intros v Hv. destruct (Z.eqb_spec (v / PAGE_SIZE) (va / PAGE_SIZE)) as [E|E]; [unfold cell; by rewrite Nv|].
      unfold cell. rewrite Ov by done. destruct (view st root v) as [ev|] eqn:Evv; [|done].
      assert (Hmv : view st root v <> None) by (by rewrite Evv). do 2 f_equal.
      destruct (K _ (S3 v Hv Hmv) (Dv v Hv E Hmv)) as [_ M]. unfold user_byte.
      assert (translate st' root v = translate st root v) as -> by (unfold translate; by rewrite Op).
      apply (ld8_block _ _ (vmm_get_page_phys st root v)); [apply S3; auto|done|apply translate_block].
Qed.
End Unmap.
