(* ===== verification/Block.v ===== *)
(** Block devices: [kernel/block.c].

    A read or write of any number of sectors is checked against the device and split into
    the transfers its controller can do.  The controllers (PIO ATA, AHCI, NVMe) are the
    interface [Drivers]; what the file systems use is the interface [BlockDevice].  The
    per-device locks serialise the calls and are not modelled. *)
From S2P Require Import Prelude Pmm.

Definition BLOCK_TRANSPORT_ATA : Z := 1.
Definition BLOCK_TRANSPORT_AHCI : Z := 2.
Definition BLOCK_TRANSPORT_NVME : Z := 3.

Record block_device := BlockDev { block_size : Z; block_count : Z; writable : bool; transport : Z }.

(** [is_cdrom] is [type == ATA_TYPE_CDROM]. *)
Record binding := Binding { device : block_device; ata_index : Z; is_cdrom : bool; ahci_port_index : Z; nvme_index : Z }.

(** ** What clients use *)

Class BlockDevice (W : Type) := {
  block_devices : W -> list block_device;
  block_read : W -> Z -> Z -> Z -> option (list Z);
  block_write : W -> Z -> Z -> Z -> list Z -> W * bool;
  block_flush : W -> Z -> W * bool
}.

(** [block_get_device]. *)
Definition block_get_device {W} `{BlockDevice W} (w : W) (id : Z) : option block_device :=
  if 0 <=? id then block_devices w !! Z.to_nat id else None.

Definition range_valid (d : block_device) (lba count : Z) : bool :=
  negb (count =? 0) && (lba <? block_count d) && (count <=? block_count d - lba).

(** ** What the controllers offer *)

Class Drivers (D : Type) := {
  ata_read_sectors_drive : D -> Z -> Z -> Z -> option (list Z);
  ata_write_sectors_drive : D -> Z -> Z -> Z -> list Z -> D * bool;
  ata_flush_drive : D -> Z -> D * bool;
  atapi_read_sectors : D -> Z -> Z -> Z -> option (list Z);
  ahci_read : D -> Z -> Z -> Z -> option (list Z);
  ahci_write : D -> Z -> Z -> Z -> list Z -> D * bool;
  ahci_flush : D -> Z -> D * bool;
  nvme_read : D -> Z -> Z -> Z -> option (list Z);
  nvme_write : D -> Z -> Z -> Z -> list Z -> D * bool;
  nvme_flush : D -> Z -> D * bool
}.

Section Block.
Context {D : Type} `{DR : Drivers D}.

Record blocks := Blocks { g_devices : list binding; drivers : D }.
Definition set_drivers (d : D) (b : blocks) : blocks := Blocks (g_devices b) d.
Definition binding_at (b : blocks) (id : Z) : option binding :=
  if 0 <=? id then g_devices b !! Z.to_nat id else None.

(** [ahci_transfer]: one command of at most eight sectors at a 48-bit address. *)
Definition ahci_request_ok (lba count : Z) : bool :=
  negb (count =? 0) && (count <=? 8) && (lba <=? 0x0000FFFFFFFFFFFF).
Definition ahci_transfer_read (d : D) (port lba count : Z) : option (list Z) :=
  if ahci_request_ok lba count then ahci_read d port lba count else None.
Definition ahci_transfer_write (d : D) (port lba count : Z) (bytes : list Z) : D * bool :=
  if ahci_request_ok lba count then ahci_write d port lba count bytes else (d, false).

(** The chunk loops: at most [max] sectors at a time until [count] is used up. *)
Fixpoint read_chunks (fuel : nat) (xfer : Z -> Z -> option (list Z)) (max lba count : Z) : option (list Z) :=
  match fuel with
  | O => Some []
  | S fuel =>
      if count =? 0 then Some []
      else
        let chunk := if max <? count then max else count in
        bs ← xfer lba chunk; rest ← read_chunks fuel xfer max (lba + chunk) (count - chunk); Some (bs ++ rest)
  end.

Fixpoint write_chunks (fuel : nat) (xfer : D -> Z -> Z -> list Z -> D * bool) (bsize max : Z)
    (d : D) (lba count : Z) (bytes : list Z) : D * bool :=
  match fuel with
  | O => (d, true)
  | S fuel =>
      if count =? 0 then (d, true)
      else
        let chunk := if max <? count then max else count in
        let '(d, ok) := xfer d lba chunk (take (Z.to_nat (chunk * bsize)) bytes) in
        if negb ok then (d, false)
        else write_chunks fuel xfer bsize max d (lba + chunk) (count - chunk) (drop (Z.to_nat (chunk * bsize)) bytes)
  end.

(** The address and length fit the 32 bits of an ATA request. *)
Definition ata_range (lba count : Z) : bool := (lba <=? 0xFFFFFFFF) && (count - 1 <=? 0xFFFFFFFF - lba).

Definition blk_read (b : blocks) (id lba count : Z) : option (list Z) :=
  bd ← binding_at b id;
  if negb (range_valid (device bd) lba count) then None
  else if transport (device bd) =? BLOCK_TRANSPORT_NVME then nvme_read (drivers b) (nvme_index bd) lba count
  else if transport (device bd) =? BLOCK_TRANSPORT_AHCI then
    read_chunks (Z.to_nat count) (ahci_transfer_read (drivers b) (ahci_port_index bd)) 8 lba count
  else if negb (ata_range lba count) then None
  else if is_cdrom bd then atapi_read_sectors (drivers b) (ata_index bd) lba count
  else read_chunks (Z.to_nat count) (ata_read_sectors_drive (drivers b) (ata_index bd)) 255 lba count.

Definition blk_write (b : blocks) (id lba count : Z) (bytes : list Z) : blocks * bool :=
  match binding_at b id with
  | None => (b, false)
  | Some bd =>
      if negb (writable (device bd)) || negb (range_valid (device bd) lba count) then (b, false)
      else if transport (device bd) =? BLOCK_TRANSPORT_NVME then
        let '(d, ok) := nvme_write (drivers b) (nvme_index bd) lba count bytes in (set_drivers d b, ok)
      else if transport (device bd) =? BLOCK_TRANSPORT_AHCI then
        let '(d, ok) := write_chunks (Z.to_nat count) (fun d => ahci_transfer_write d (ahci_port_index bd)) 512 8
                          (drivers b) lba count bytes in (set_drivers d b, ok)
      else if negb (ata_range lba count) then (b, false)
      else
        let '(d, ok) := write_chunks (Z.to_nat count) (fun d => ata_write_sectors_drive d (ata_index bd))
                          (block_size (device bd)) 255 (drivers b) lba count bytes in (set_drivers d b, ok)
  end.

Definition blk_flush (b : blocks) (id : Z) : blocks * bool :=
  match binding_at b id with
  | None => (b, false)
  | Some bd =>
      if negb (writable (device bd)) then (b, false)
      else
        let '(d, ok) :=
          if transport (device bd) =? BLOCK_TRANSPORT_NVME then nvme_flush (drivers b) (nvme_index bd)
          else if transport (device bd) =? BLOCK_TRANSPORT_AHCI then ahci_flush (drivers b) (ahci_port_index bd)
          else ata_flush_drive (drivers b) (ata_index bd) in
        (set_drivers d b, ok)
  end.

#[export] Instance block_layer : BlockDevice blocks := {
  block_devices b := map device (g_devices b);
  block_read := blk_read;
  block_write := blk_write;
  block_flush := blk_flush
}.
End Block.
Arguments blocks : clear implicits.

(** ** What a block device promises

    A device that has lost power ([down]) takes no more writes.  Until then it reads and
    writes every sector in range; the write during which it goes down may have reached
    some of its sectors. *)
Definition in_run (lba n l : Z) : bool := (lba <=? l) && (l <? lba + n).

Lemma in_run_spec lba n l : BoolSpec (lba <= l < lba + n) (l < lba \/ lba + n <= l) (in_run lba n l).
Proof. unfold in_run. destruct (Z.leb_spec lba l), (Z.ltb_spec l (lba + n)); constructor; lia. Qed.

Definition chunk_at (bsize lba l : Z) (bytes : list Z) : list Z :=
  take (Z.to_nat bsize) (drop (Z.to_nat ((l - lba) * bsize)) bytes).

Class BlockLaws (W : Type) `{BD : BlockDevice W} := {
  sector : W -> Z -> Z -> list Z;
  down : W -> Prop;
  down_dec w : Decision (down w);
  bl_length w id d l : block_get_device w id = Some d -> Z.of_nat (length (sector w id l)) = block_size d;
  bl_bytes w id l : Forall (fun b => 0 <= b < 256) (sector w id l);
  bl_read w id lba n bs : block_read w id lba n = Some bs -> bs = concat (map (sector w id) (seqZ lba n));
  bl_reads w id d lba n : ~ down w -> block_get_device w id = Some d -> range_valid d lba n = true ->
    0 <= lba -> 0 <= n -> is_Some (block_read w id lba n);
  bl_devices w id lba n bs w' ok : block_write w id lba n bs = (w', ok) -> block_devices w' = block_devices w;
  bl_write w id d lba n bs w' : block_write w id lba n bs = (w', true) -> block_get_device w id = Some d ->
    Z.of_nat (length bs) = n * block_size d -> 0 <= lba -> 0 <= n -> Forall (fun b => 0 <= b < 256) bs ->
    ~ down w /\ forall id' l, sector w' id' l =
      if (id' =? id) && in_run lba n l then chunk_at (block_size d) lba l bs else sector w id' l;
  bl_torn w id d lba n bs w' : block_write w id lba n bs = (w', false) -> block_get_device w id = Some d ->
    writable d = true -> range_valid d lba n = true ->
    Z.of_nat (length bs) = n * block_size d -> 0 <= lba -> 0 <= n -> Forall (fun b => 0 <= b < 256) bs ->
    down w' /\ forall id' l, sector w' id' l = sector w id' l \/
      (~ down w /\ id' = id /\ in_run lba n l = true /\ sector w' id' l = chunk_at (block_size d) lba l bs)
}.
