(* ===== verification/RamDisk.v ===== *)
(** A block device in memory that loses power after a number of writes: a device that
    keeps the promises of [BlockLaws], on which the drivers above can be run. *)
From S2P Require Import Prelude Pmm Block.

Record ramdisk := RamDisk { rd_sectors : gmap Z (list Z); rd_count : Z; rd_budget : nat }.

(** 512 bytes, whatever is stored. *)
Definition norm (bs : list Z) : list Z := map (fun b => b mod 256) (take 512 (bs ++ replicate 512 0)).

Definition rd_sector (w : ramdisk) (id l : Z) : list Z :=
  if id =? 0 then norm (default [] (rd_sectors w !! l)) else norm [].

Definition rd_device (w : ramdisk) : block_device := BlockDev 512 (rd_count w) true BLOCK_TRANSPORT_AHCI.

Definition rd_read (w : ramdisk) (id lba n : Z) : option (list Z) :=
  if (id =? 0) && range_valid (rd_device w) lba n && (0 <=? lba) && (0 <=? n)
  then Some (concat (map (rd_sector w id) (seqZ lba n))) else None.

(** Sectors [l], [l + 1], ... from the bytes. *)
Fixpoint rd_store (n : nat) (l : Z) (bs : list Z) (m : gmap Z (list Z)) : gmap Z (list Z) :=
  match n with
  | O => m
  | S n => rd_store n (l + 1) (drop 512 bs) (<[l := take 512 bs]> m)
  end.

Definition rd_write (w : ramdisk) (id lba n : Z) (bs : list Z) : ramdisk * bool :=
  match rd_budget w with
  | O => (w, false)
  | S b =>
      if (id =? 0) && range_valid (rd_device w) lba n && (0 <=? lba) && (0 <=? n)
      then (RamDisk (rd_store (Z.to_nat n) lba bs (rd_sectors w)) (rd_count w) b, true)
      else (w, false)
  end.

#[export] Instance ramdisk_device : BlockDevice ramdisk := {
  block_devices w := [rd_device w];
  block_read := rd_read;
  block_write := rd_write;
  block_flush w _ := (w, true)
}.

Lemma norm_length bs : length (norm bs) = 512%nat.
Proof. unfold norm. rewrite length_map, length_take, length_app, length_replicate. lia. Qed.

Lemma norm_bytes bs : Forall (fun b => 0 <= b < 256) (norm bs).
Proof. apply Forall_forall. intros b Hb. apply list_elem_of_fmap_1 in Hb as (x & -> & _). by apply Z.mod_pos_bound. Qed.

Lemma norm_id bs : length bs = 512%nat -> Forall (fun b => 0 <= b < 256) bs -> norm bs = bs.
Proof.
  intros Hl Hb. unfold norm. rewrite take_app_length' by done. clear Hl. induction Hb as [|b bs' H _ IH]; [done|].
  cbn [map]. by rewrite IH, Z.mod_small.
Qed.

Lemma rd_store_lookup n : forall l bs m x,
  rd_store n l bs m !! x =
    if in_run l (Z.of_nat n) x then Some (take 512 (drop (Z.to_nat ((x - l) * 512)) bs)) else m !! x.
Proof.
  induction n as [|n IH]; intros l bs m x; cbn [rd_store].
  { destruct (in_run_spec l (Z.of_nat 0) x); [lia|done]. }
  rewrite IH. destruct (in_run_spec (l + 1) (Z.of_nat n) x), (in_run_spec l (Z.of_nat (S n)) x); try lia.
  - rewrite drop_drop. replace (512 + Z.to_nat ((x - (l + 1)) * 512))%nat with (Z.to_nat ((x - l) * 512)) by lia. done.
  - assert (x = l) as -> by lia. rewrite lookup_insert_eq, Z.sub_diag. change (Z.to_nat (0 * 512)) with 0%nat. by rewrite drop_0.
  - rewrite lookup_insert_ne by lia. done.
Qed.

Lemma rd_only w id d : block_get_device w id = Some d -> id = 0 /\ d = rd_device w.
Proof.
  unfold block_get_device. cbn. destruct (Z.leb_spec 0 id); [|done]. destruct (Z.to_nat id) as [|k] eqn:E; cbn; [|by destruct k].
  intros [= <-]. split; [lia|done].
Qed.

Lemma rd_write_cases w id lba n bs w' ok : rd_write w id lba n bs = (w', ok) ->
  (ok = false /\ w' = w /\
   (rd_budget w = 0%nat \/ (id =? 0) && range_valid (rd_device w) lba n && (0 <=? lba) && (0 <=? n) = false)) \/
  (ok = true /\ id = 0 /\ 0 <= lba /\ 0 <= n /\ rd_budget w <> 0%nat /\ rd_count w' = rd_count w /\
   rd_sectors w' = rd_store (Z.to_nat n) lba bs (rd_sectors w)).
Proof.
  unfold rd_write. destruct (rd_budget w) as [|b].
  - intros [= <- <-]. left. auto.
  - destruct (_ && _) eqn:E; intros [= <- <-]; [right|left; auto].
    rewrite !andb_true_iff in E. destruct E as [[[E1 _] E2] E3]. split_and!; try done; lia.
Qed.

#[export] Program Instance ramdisk_laws : BlockLaws ramdisk := {
  sector := rd_sector;
  down w := rd_budget w = 0%nat
}.
Next Obligation. intros w id d l H. destruct (rd_only w id d H) as [-> ->]. unfold rd_sector. cbn. by rewrite norm_length. Qed.
Next Obligation. intros w id l. unfold rd_sector. destruct (id =? 0); apply norm_bytes. Qed.
Next Obligation. intros w id lba n bs. cbn. unfold rd_read. by destruct (_ && _); [intros [= <-]|]. Qed.
Next Obligation.
  intros w id d lba n _ H Hr Hl Hn. destruct (rd_only w id d H) as [-> ->]. cbn. unfold rd_read. rewrite Hr.
  rewrite (proj2 (Z.leb_le 0 lba) Hl), (proj2 (Z.leb_le 0 n) Hn). by eexists.
Qed.
Next Obligation.
  intros w id lba n bs w' ok H. destruct (rd_write_cases _ _ _ _ _ _ _ H) as [(_ & -> & _)|(_ & _ & _ & _ & _ & Hc & _)]; [done|].
  cbn. unfold rd_device. by rewrite Hc.
Qed.
Next Obligation.
  intros w id d lba n bs w' H Hd Hl Hlba Hn Hb. destruct (rd_only w id d Hd) as [-> ->].
  destruct (rd_write_cases _ _ _ _ _ _ _ H) as [(? & _)|(_ & _ & _ & _ & Hbud & _ & Hs)]; [done|]. split; [done|]. intros id' l.
  unfold rd_sector. rewrite Hs, rd_store_lookup, Z2Nat.id by done. destruct (id' =? 0); [|done]. cbn [andb].
  destruct (in_run lba n l) eqn:E; [|done]. unfold chunk_at. cbn [default from_option id block_size rd_device]. change (Z.to_nat 512) with 512%nat.
  unfold in_run in E. cbn in Hl. apply norm_id; [rewrite length_take, length_drop; lia|]. by apply Forall_take, Forall_drop.
Qed.
Next Obligation.
  intros w id d lba n bs w' H Hd Hw Hr Hl Hlba Hn Hb. destruct (rd_only w id d Hd) as [-> ->].
  destruct (rd_write_cases _ _ _ _ _ _ _ H) as [(_ & -> & [Hz|E])|(? & _)]; [|exfalso|done].
  - split; [done|]. intros id' l. by left.
  - rewrite Hr, (proj2 (Z.leb_le 0 lba) Hlba), (proj2 (Z.leb_le 0 n) Hn) in E. done.
Qed.
