(* ===== verification/Gpt.v ===== *)
(** GUID partition tables: [kernel/gpt.c].

    The header is a view of the one sector buffer, which is reused while the entries are
    read: [header_field] reads whatever the buffer holds. *)
From S2P Require Import Prelude Pmm Block.

Definition GPT_MAX_PARTITIONS : Z := 32.
Definition GPT_PARTITION_UNKNOWN : Z := 0.
Definition GPT_PARTITION_EFI_SYSTEM : Z := 1.
Definition GPT_PARTITION_BASIC_DATA : Z := 2.
Definition GPT_PARTITION_LINUX_FILESYSTEM : Z := 3.

Record gpt_partition := GptPartition {
  type_guid : list Z; unique_guid : list Z; first_lba : Z; last_lba : Z; attributes : Z; kind : Z; pname : list Z
}.

(** ** Checksums *)

(** One bit: [(crc >> 1) ^ (0xEDB88320 & -(crc & 1))]. *)
Definition crc32_bit (crc : Z) : Z :=
  Z.lxor (Z.shiftr crc 1) (if Z.testbit crc 0 then 0xEDB88320 else 0).

Definition crc32_byte (crc b : Z) : Z := Nat.iter 8 crc32_bit (Z.lxor crc b).
Definition crc32_update (crc : Z) (data : list Z) : Z := foldl crc32_byte crc data.
Definition crc32 (data : list Z) : Z := u32 (Z.lnot (crc32_update 0xFFFFFFFF data)).

(** ** Entries *)

Definition all_zero (bs : list Z) : bool := forallb (fun b => b =? 0) bs.

Definition known_guids : list (list Z) :=
  [ [0x28;0x73;0x2A;0xC1;0x1F;0xF8;0xD2;0x11;0xBA;0x4B;0x00;0xA0;0xC9;0x3E;0xC9;0x3B];
    [0xA2;0xA0;0xD0;0xEB;0xE5;0xB9;0x33;0x44;0x87;0xC0;0x68;0xB6;0xB7;0x26;0x99;0xC7];
    [0xAF;0x3D;0xC6;0x0F;0x83;0x84;0x72;0x47;0x8E;0x79;0x3D;0x69;0xD8;0x47;0x7D;0xE4] ].

Fixpoint guid_kind (guid : list Z) (known : list (list Z)) (k : Z) : Z :=
  match known with
  | [] => GPT_PARTITION_UNKNOWN
  | g :: known => if bool_decide (guid = g) then k + 1 else guid_kind guid known (k + 1)
  end.
Definition partition_kind (guid : list Z) : Z := guid_kind guid known_guids 0.

(** The 16-bit units up to the first zero, those above 0x7F as '?'. *)
Fixpoint name_to_utf8 (n : nat) (bs : list Z) : list Z :=
  match n with
  | O => []
  | S n =>
      let u := field 0 2 bs in
      if u =? 0 then [] else (if u <=? 0x7F then u else 63) :: name_to_utf8 n (drop 2 bs)
  end.

Definition partition_of (entry : list Z) : gpt_partition :=
  GptPartition (take 16 entry) (take 16 (drop 16 entry)) (field 32 8 entry) (field 40 8 entry) (field 48 8 entry)
    (partition_kind (take 16 entry)) (name_to_utf8 36 (drop 56 entry)).

(** ** The header *)

Definition EFI_PART : list Z := [69; 70; 73; 32; 80; 65; 82; 84].
Definition h_header_size (s : list Z) : Z := field 12 4 s.
Definition h_header_crc32 (s : list Z) : Z := field 16 4 s.
Definition h_current_lba (s : list Z) : Z := field 24 8 s.
Definition h_first_usable_lba (s : list Z) : Z := field 40 8 s.
Definition h_last_usable_lba (s : list Z) : Z := field 48 8 s.
Definition h_partition_entries_lba (s : list Z) : Z := field 72 8 s.
Definition h_partition_count (s : list Z) : Z := field 80 4 s.
Definition h_partition_entry_size (s : list Z) : Z := field 84 4 s.
Definition h_entries_crc32 (s : list Z) : Z := field 88 4 s.

Definition header_bad (s : list Z) (block_count : Z) : bool :=
  negb (bool_decide (take 8 s = EFI_PART)) || (h_header_size s <? 92) || (512 <? h_header_size s) ||
  negb (h_current_lba s =? 1) || (h_last_usable_lba s <? h_first_usable_lba s) || (block_count <=? h_last_usable_lba s) ||
  (h_partition_entry_size s <? 128) || (512 <? h_partition_entry_size s) ||
  (h_partition_count s =? 0) || (4096 <? h_partition_count s).

(** The checksum is taken with its own field zeroed. *)
Definition header_crc (s : list Z) : Z :=
  crc32 (take (Z.to_nat (h_header_size s)) (take 16 s ++ [0; 0; 0; 0] ++ drop 20 s)).

Section Scan.
Context {W : Type} `{BD : BlockDevice W}.

(** The entries' checksum, a sector at a time; the buffer ends up holding the last one. *)
Fixpoint stream_crc (n : nat) (w : W) (id lba : Z) (remaining crc : Z) (buf : list Z) : option (Z * list Z) :=
  match n with
  | O => Some (crc, buf)
  | S n =>
      buf ← block_read w id lba 1;
      let bytes := if 512 <? remaining then 512 else remaining in
      stream_crc n w id (lba + 1) (remaining - bytes) (crc32_update crc (take (Z.to_nat bytes) buf)) buf
  end.

(** The entries from [i] on; [parts] is [g_partitions] so far.  [false]: the scan fails. *)
Fixpoint scan_entries (n : nat) (w : W) (id : Z) (block_count entries_lba entry_size first last : Z)
    (i : Z) (parts : list gpt_partition) : bool * list gpt_partition :=
  match n with
  | O => (true, parts)
  | S n =>
      if negb (Z.of_nat (length parts) <? GPT_MAX_PARTITIONS) then (true, parts)
      else
        let byte_offset := i * entry_size in
        let lba := u64 (entries_lba + byte_offset / 512) in
        let offset := byte_offset mod 512 in
        if (512 <? offset + 128) || (block_count <=? lba) then (false, parts)
        else
          match block_read w id lba 1 with
          | None => (false, parts)
          | Some buf =>
              let entry := take 128 (drop (Z.to_nat offset) buf) in
              if all_zero (take 16 entry)
              then scan_entries n w id block_count entries_lba entry_size first last (i + 1) parts
              else
                let p := partition_of entry in
                if (last_lba p <? first_lba p) || (first_lba p <? first) || (last <? last_lba p) then (false, parts)
                else scan_entries n w id block_count entries_lba entry_size first last (i + 1) (parts ++ [p])
          end
  end.

(** The result code and [g_partitions]. *)
Definition gpt_scan (w : W) (id : Z) : Z * list gpt_partition :=
  match block_get_device w id with
  | None => (-1, [])
  | Some dev =>
      if negb (block_size dev =? 512) then (-1, [])
      else
        match block_read w id 1 1 with
        | None => (-1, [])
        | Some s =>
            if header_bad s (block_count dev) || negb (header_crc s =? h_header_crc32 s) then (-1, [])
            else
              let entries_lba := h_partition_entries_lba s in
              let entry_size := h_partition_entry_size s in
              let entries_bytes := h_partition_count s * entry_size in
              let entries_sectors := (entries_bytes + 511) / 512 in
              if (4 * 1024 * 1024 <? entries_bytes) || (block_count dev <=? entries_lba) ||
                 (block_count dev - entries_lba <? entries_sectors) then (-1, [])
              else
                match stream_crc (Z.to_nat entries_sectors) w id entries_lba entries_bytes 0xFFFFFFFF s with
                | None => (-1, [])
                | Some (crc, buf) =>
                    if negb (u32 (Z.lnot crc) =? h_entries_crc32 buf) then (-1, [])
                    else
                      let max_entries := if 128 <? h_partition_count buf then 128 else h_partition_count buf in
                      let '(ok, parts) := scan_entries (Z.to_nat max_entries) w id (block_count dev) entries_lba entry_size
                                            (h_first_usable_lba s) (h_last_usable_lba s) 0 [] in
                      (if ok then 0 else -1, parts)
                end
        end
  end.
End Scan.

Definition gpt_get_partition (parts : list gpt_partition) (index : Z) : option gpt_partition :=
  if (0 <=? index) && (index <? Z.of_nat (length parts)) then parts !! Z.to_nat index else None.
