(* ===== verification/GptSpec.v ===== *)
(** What [gpt_scan] accepts, and what it misses: the partitions it reports lie inside the
    usable range of the device, but it reads fields of the header after the buffer that
    held the header has been reused. *)
From S2P Require Import Prelude Pmm Block RamDisk Gpt.

Section Scan.
Context {W : Type} `{BL : BlockLaws W}.

(** A partition inside the usable range. *)
Definition in_range (first last : Z) (p : gpt_partition) : Prop := first <= first_lba p <= last_lba p /\ last_lba p <= last.

Lemma scan_entries_sound n : forall (w : W) id count elba esize first last i parts ok parts',
  Forall (in_range first last) parts -> (length parts <= 32)%nat ->
  scan_entries n w id count elba esize first last i parts = (ok, parts') ->
  Forall (in_range first last) parts' /\ (length parts' <= 32)%nat.
Proof.
  induction n as [|n IH]; intros w id count elba esize first last i parts ok parts' HF Hl; cbn [scan_entries]; [by intros [= _ <-]|].
  unfold GPT_MAX_PARTITIONS. destruct (Z.ltb_spec (Z.of_nat (length parts)) 32); cbn [negb]; [|by intros [= _ <-]].
  destruct (_ || _); [by intros [= _ <-]|]. destruct (block_read w id _ 1) as [buf|]; [|by intros [= _ <-]].
  destruct (all_zero _); [by apply IH|]. set (p := partition_of _). destruct (_ || _) eqn:E; [by intros [= _ <-]|].
  rewrite !orb_false_iff, !Z.ltb_ge in E. apply IH; [|rewrite length_app; cbn; lia].
  apply Forall_app. split; [done|]. constructor; [|constructor]. unfold in_range. lia.
Qed.

(** The buffer left behind by the checksum is the last sector read. *)
Lemma stream_crc_last n : forall (w : W) id lba remaining crc buf crc' buf',
  stream_crc (S n) w id lba remaining crc buf = Some (crc', buf') -> block_read w id (lba + Z.of_nat n) 1 = Some buf'.
Proof.
  induction n as [|n IH]; intros w id lba remaining crc buf crc' buf'; cbn [stream_crc].
  - rewrite Z.add_0_r. destruct (block_read w id lba 1) as [b|]; cbn; [congruence|done].
  - replace (lba + Z.of_nat (S n)) with (lba + 1 + Z.of_nat n) by lia. destruct (block_read w id lba 1) as [b|]; cbn [mbind option_bind]; [|done].
    intros H. by apply IH in H.
Qed.

(** The number of sectors of the entries. *)
Definition entry_sectors (s : list Z) : Z := (h_partition_count s * h_partition_entry_size s + 511) / 512.

(** C11. Every partition [gpt_scan] reports lies in the usable range of the header and on
    the device, and there are at most 32, whatever the disk holds. *)
Theorem gpt_scan_in_range (w : W) id dev s r parts :
  block_get_device w id = Some dev -> block_read w id 1 1 = Some s -> gpt_scan w id = (r, parts) ->
  (length parts <= 32)%nat /\
  Forall (fun p => h_first_usable_lba s <= first_lba p <= last_lba p /\ last_lba p <= h_last_usable_lba s < block_count dev) parts.
Proof.
  intros Hd Hs. unfold gpt_scan. rewrite Hd, Hs.
  assert (Hnil : forall P : gpt_partition -> Prop, (length (@nil gpt_partition) <= 32)%nat /\ Forall P []) by (split; [cbn; lia|constructor]).
  destruct (negb _); [intros [= _ <-]; apply Hnil|]. destruct (_ || _) eqn:E; [intros [= _ <-]; apply Hnil|].
  apply orb_false_iff in E as [E _]. unfold header_bad in E. rewrite !orb_false_iff in E. destruct E as [[[[[_ E] _] _] _] _]. apply Z.leb_gt in E.
  destruct (_ || _); [intros [= _ <-]; apply Hnil|]. destruct (stream_crc _ _ _ _ _ _ _) as [[crc buf]|]; [|intros [= _ <-]; apply Hnil].
  destruct (negb _); [intros [= _ <-]; apply Hnil|]. destruct (scan_entries _ _ _ _ _ _ _ _ _ _) as [ok ps] eqn:Es. intros [= _ <-].
  destruct (scan_entries_sound _ _ _ _ _ _ _ _ _ [] ok ps ltac:(constructor) ltac:(cbn; lia) Es) as [HF Hl]. split; [done|].
  eapply Forall_impl; [exact HF|]. intros p [H1 H2]. lia.
Qed.

(** A table whose last entries are unused is never read.  The header's entry checksum and
    entry count are read through a pointer into the sector buffer after the entries have
    been read into it: if the last sector of the entries is empty, as on nearly every
    disk, the count is taken to be 0 and no partition is found. *)
Theorem gpt_scan_finds_nothing (w : W) id dev s :
  block_get_device w id = Some dev -> block_read w id 1 1 = Some s ->
  block_read w id (h_partition_entries_lba s + entry_sectors s - 1) 1 = Some (replicate 512 0) ->
  snd (gpt_scan w id) = [].
Proof.
  intros Hd Hs Hz. unfold gpt_scan. rewrite Hd, Hs. destruct (negb _); [done|]. destruct (_ || _) eqn:E; [done|].
  apply orb_false_iff in E as [E _]. unfold header_bad in E. rewrite !orb_false_iff in E. destruct E as [[[[[[[[_ _] _] _] _] E1] _] E2] _].
  apply Z.ltb_ge in E1. apply Z.eqb_neq in E2. change ((_ * _ + 511) / 512) with (entry_sectors s).
  destruct (_ || _); [done|]. destruct (Z.to_nat (entry_sectors s)) as [|n] eqn:En.
  { exfalso. apply bl_read in Hs. change (seqZ 1 1) with [1] in Hs. cbn [map concat] in Hs. rewrite app_nil_r in Hs.
    assert (Hc : 0 <= h_partition_count s) by (apply le_get_nonneg, Forall_take, Forall_drop; subst s; apply bl_bytes).
    assert (0 < entry_sectors s) by (unfold entry_sectors; apply Z.div_str_pos; nia). lia. }
  destruct (stream_crc _ _ _ _ _ _ _) as [[crc buf]|] eqn:Ec; [|done]. apply stream_crc_last in Ec.
  replace (h_partition_entries_lba s + Z.of_nat n) with (h_partition_entries_lba s + entry_sectors s - 1) in Ec by lia.
  rewrite Hz in Ec. injection Ec as <-. destruct (negb _); [done|]. done.
Qed.
End Scan.

(** ** A disk with one partition

    64 sectors, the entries in sectors 2 and 3, both checksums right, a Linux partition in
    sectors 10 to 19; the second sector of entries is empty. *)
Definition linux_entry : list Z :=
  nth 2 known_guids [] ++ replicate 16 1 ++ le_put 8 10 ++ le_put 8 19 ++ replicate 80 0.
Definition gpt_entries : list Z := linux_entry ++ replicate (1024 - 128) 0.
Definition gpt_header (count entries_crc crc : Z) : list Z :=
  EFI_PART ++ le_put 4 0x10000 ++ le_put 4 92 ++ le_put 4 crc ++ le_put 4 0 ++ le_put 8 1 ++ le_put 8 63 ++ le_put 8 4 ++ le_put 8 60 ++
  replicate 16 7 ++ le_put 8 2 ++ le_put 4 count ++ le_put 4 128 ++ le_put 4 entries_crc.
Definition disk_of (count : Z) (entries : list Z) : ramdisk :=
  let h := gpt_header count (crc32 entries) in
  RamDisk {[1 := h (header_crc (h 0 ++ replicate 420 0)); 2 := entries]} 64 0.
Definition gpt_disk : ramdisk := disk_of 8 gpt_entries.
Definition gpt_sector : list Z := rd_sector gpt_disk 0 1.

(** Four entries in one sector, with a name and four last bytes for which the sector passes
    for a header: its checksum is 0, as are its bytes 88 to 91. *)
Definition lucky_entries : list Z :=
  take 80 linux_entry ++ le_put 4 1 ++ replicate 424 0 ++ [201; 37; 146; 78].
Definition lucky_disk : ramdisk := disk_of 4 lucky_entries.
Definition lucky_sector : list Z := rd_sector lucky_disk 0 1.

Lemma gpt_scan_in_range_witness :
  fst (gpt_scan lucky_disk 0) = 0 /\ map first_lba (snd (gpt_scan lucky_disk 0)) = [10] /\
  (length (snd (gpt_scan lucky_disk 0)) <= 32)%nat /\
  Forall (fun p => h_first_usable_lba lucky_sector <= first_lba p <= last_lba p /\ last_lba p <= h_last_usable_lba lucky_sector < 64)
    (snd (gpt_scan lucky_disk 0)).
Proof.
  split; [by vm_compute|]. split; [by vm_compute|].
  apply (gpt_scan_in_range lucky_disk 0 (rd_device lucky_disk) lucky_sector (fst (gpt_scan lucky_disk 0)) (snd (gpt_scan lucky_disk 0))).
  - reflexivity.
  - by vm_compute.
  - apply surjective_pairing.
Defined.

Lemma gpt_scan_finds_nothing_witness :
  header_bad gpt_sector 64 = false /\ header_crc gpt_sector = h_header_crc32 gpt_sector /\
  crc32 gpt_entries = h_entries_crc32 gpt_sector /\ snd (gpt_scan gpt_disk 0) = [].
Proof.
  split; [by vm_compute|]. split; [by vm_compute|]. split; [by vm_compute|].
  apply (gpt_scan_finds_nothing gpt_disk 0 (rd_device gpt_disk) gpt_sector); by vm_compute.
Defined.
