(* ===== verification/Fat32.v ===== *)
(** The FAT32 driver: [src/drivers/system/fat32.c], all but the repair pass of [FatRepair].

    The statics that [fat32_init] computes once are the record [geometry]; the others are
    fields of [fat32].  [cluster_buf] is state, because callers keep pointers into it
    across calls that overwrite it; the two sector buffers are always filled just before
    they are used and are local values here.  A failed [disk_read] leaves its buffer
    alone.  Names are their bytes up to the NUL.  Serial output is left out. *)
From S2P Require Import Prelude Pmm Block Gpt.

Definition SECTOR_SIZE : Z := 512.
Definition MAX_CLUSTER_SECTORS : Z := 64.
Definition FAT32_EOC : Z := 0x0FFFFFF8.
Definition FAT32_BAD_CLUSTER : Z := 0x0FFFFFF7.
Definition FAT32_MAX_NAME : Z := 13.

Record geometry := Geometry {
  s_block_device : Z; s_partition_lba : Z; s_partition_sectors : Z; s_fat_start_lba : Z; s_data_start_lba : Z;
  s_sectors_per_cluster : Z; s_root_cluster : Z; s_fat_size_sectors : Z; s_max_cluster : Z; s_num_fats : Z;
  s_fsinfo_lba : Z; s_fsinfo_valid : bool
}.

Record fat32 (W : Type) := Fat32 {
  disk : W; geo : geometry; s_ready : bool; s_was_dirty : bool; s_total_bytes : Z; s_free_bytes : Z; cluster_buf : list Z
}.
Arguments Fat32 {W}.
Arguments disk {W}.
Arguments geo {W}.
Arguments s_ready {W}.
Arguments s_was_dirty {W}.
Arguments s_total_bytes {W}.
Arguments s_free_bytes {W}.
Arguments cluster_buf {W}.

(** ** Buffers *)

Definition rd_u16 (buf : list Z) (off : Z) : Z := field (Z.to_nat off) 2 buf.
Definition rd_u32 (buf : list Z) (off : Z) : Z := field (Z.to_nat off) 4 buf.

(** Replace the bytes at [off] by [bs]. *)
Definition patch (off : Z) (bs buf : list Z) : list Z :=
  take (Z.to_nat off) buf ++ bs ++ drop (Z.to_nat off + length bs) buf.

Definition wr_u32 (buf : list Z) (off value : Z) : list Z := patch off (le_put 4 value) buf.

Definition valid_boot_signature (sector : list Z) : bool :=
  (at_z 0 sector 510 =? 0x55) && (at_z 0 sector 511 =? 0xAA).

Section Fat.
Context {W : Type} `{BD : BlockDevice W}.
Implicit Types s : fat32 W.

Definition set_disk (w : W) s := Fat32 w (geo s) (s_ready s) (s_was_dirty s) (s_total_bytes s) (s_free_bytes s) (cluster_buf s).
Definition set_free_bytes (n : Z) s := Fat32 (disk s) (geo s) (s_ready s) (s_was_dirty s) (s_total_bytes s) n (cluster_buf s).
Definition set_buf (b : list Z) s := Fat32 (disk s) (geo s) (s_ready s) (s_was_dirty s) (s_total_bytes s) (s_free_bytes s) b.

Definition disk_read s (lba count : Z) : option (list Z) :=
  if 0 <=? s_block_device (geo s) then block_read (disk s) (s_block_device (geo s)) lba count else None.

Definition disk_write s (lba count : Z) (bytes : list Z) : fat32 W * bool :=
  if 0 <=? s_block_device (geo s) then
    let '(w, ok) := block_write (disk s) (s_block_device (geo s)) lba count bytes in (set_disk w s, ok)
  else (s, false).

Definition cluster_bytes s : Z := s_sectors_per_cluster (geo s) * SECTOR_SIZE.

Definition fat32_sync_fsinfo s : fat32 W :=
  if negb (s_ready s) || negb (s_fsinfo_valid (geo s)) || (s_sectors_per_cluster (geo s) =? 0) then s
  else
    match disk_read s (s_fsinfo_lba (geo s)) 1 with
    | None => s
    | Some buf =>
        if negb (rd_u32 buf 0 =? 0x41615252) || negb (rd_u32 buf 0x1E4 =? 0x61417272) then s
        else
          let free := s_free_bytes s / cluster_bytes s in
          let free := if u32 (s_max_cluster (geo s) - 1) <? free then u32 (s_max_cluster (geo s) - 1) else free in
          let buf := wr_u32 buf 0x1E8 (u32 free) in
          let buf := wr_u32 buf 0x1EC 0xFFFFFFFF in
          fst (disk_write s (s_fsinfo_lba (geo s)) 1 buf)
    end.

Definition fat32_root_cluster s : Z := s_root_cluster (geo s).
Definition fat32_get_stats s : option (Z * Z) := if s_ready s then Some (s_total_bytes s, s_free_bytes s) else None.

(** ** The table *)

Definition valid_cluster s (cluster : Z) : bool := (2 <=? cluster) && (cluster <=? s_max_cluster (geo s)).

Definition cluster_to_lba s (cluster : Z) : option Z :=
  if negb (valid_cluster s cluster) then None
  else
    let relative := u32 ((cluster - 2) * s_sectors_per_cluster (geo s)) in
    if (s_partition_sectors (geo s) <? relative) || (u32 (0x0FFFFFFF - relative) <? s_data_start_lba (geo s)) then None
    else Some (s_data_start_lba (geo s) + relative).

Definition fat_read_entry s (cluster : Z) : option Z :=
  if negb (s_ready s) || (cluster <? 1) || (s_max_cluster (geo s) <? cluster) then None
  else
    let fat_offset := u32 (cluster * 4) in
    let fat_sector_index := fat_offset / SECTOR_SIZE in
    if s_fat_size_sectors (geo s) <=? fat_sector_index then None
    else
      buf ← disk_read s (u32 (s_fat_start_lba (geo s) + fat_sector_index)) 1;
      Some (Z.land (rd_u32 buf (fat_offset mod SECTOR_SIZE)) 0x0FFFFFFF).

Definition fat_next_cluster s (cluster : Z) : Z :=
  if negb (s_ready s) || negb (valid_cluster s cluster) then 0
  else
    match fat_read_entry s cluster with
    | None => 0
    | Some value =>
        if FAT32_EOC <=? value then 0
        else if value =? FAT32_BAD_CLUSTER then 0
        else if (value <? 2) || (s_max_cluster (geo s) <? value) then 0
        else value
    end.

(** The low 28 bits change; the top four stay. *)
Definition entry_bytes (value old3 : Z) : list Z :=
  [Z.land value 0xFF; Z.land (Z.shiftr value 8) 0xFF; Z.land (Z.shiftr value 16) 0xFF;
   Z.lor (Z.land old3 0xF0) (Z.land (Z.shiftr value 24) 0x0F)].

(** The loop over the copies of the table, from [copy] on. *)
Fixpoint set_copies (n : nat) s (copy fat_sector_index offset value : Z) : fat32 W * bool :=
  match n with
  | O => (s, true)
  | S n =>
      let lba := u32 (s_fat_start_lba (geo s) + copy * s_fat_size_sectors (geo s) + fat_sector_index) in
      match disk_read s lba 1 with
      | None => (s, false)
      | Some buf =>
          let buf := patch offset (entry_bytes value (at_z 0 buf (offset + 3))) buf in
          let '(s, ok) := disk_write s lba 1 buf in
          if negb ok then (s, false) else set_copies n s (copy + 1) fat_sector_index offset value
      end
  end.

Definition fat_set_entry s (cluster value : Z) : fat32 W * bool :=
  if negb (s_ready s) || (cluster <? 1) || (s_max_cluster (geo s) <? cluster) then (s, false)
  else
    let fat_offset := u32 (cluster * 4) in
    let fat_sector_index := fat_offset / SECTOR_SIZE in
    if s_fat_size_sectors (geo s) <=? fat_sector_index then (s, false)
    else set_copies (Z.to_nat (s_num_fats (geo s))) s 0 fat_sector_index (fat_offset mod SECTOR_SIZE) value.

(** [read_cluster] into [cluster_buf] and [write_cluster] from it. *)
Definition read_cluster s (cluster : Z) : fat32 W * bool :=
  match cluster_to_lba s cluster with
  | None => (s, false)
  | Some lba =>
      match disk_read s lba (s_sectors_per_cluster (geo s)) with
      | None => (s, false)
      | Some bytes => (set_buf (patch 0 bytes (cluster_buf s)) s, true)
      end
  end.

Definition write_cluster s (cluster : Z) : fat32 W * bool :=
  match cluster_to_lba s cluster with
  | None => (s, false)
  | Some lba =>
      disk_write s lba (s_sectors_per_cluster (geo s)) (take (Z.to_nat (cluster_bytes s)) (cluster_buf s))
  end.

Definition fat32_set_clean_flag s (clean : bool) : fat32 W * bool :=
  match fat_read_entry s 1 with
  | None => (s, false)
  | Some value =>
      fat_set_entry s 1 (if clean then Z.lor value 0x08000000 else Z.land value (u32 (Z.lnot 0x08000000)))
  end.

(** ** Allocation *)

(** The first free entry among the 128 of a table sector. *)
Definition free_in_sector s (buf : list Z) (sector_idx : Z) : option Z :=
  find_z (fun e =>
    let cluster := u32 (sector_idx * 128 + e) in
    negb ((cluster <? 2) || (s_max_cluster (geo s) <? cluster)) &&
    (Z.land (rd_u32 buf (e * 4)) 0x0FFFFFFF =? 0)) 0 128.

Fixpoint scan_free (n : nat) s (sector_idx : Z) : Z :=
  match n with
  | O => 0
  | S n =>
      match disk_read s (u32 (s_fat_start_lba (geo s) + sector_idx)) 1 with
      | None => 0
      | Some buf =>
          match free_in_sector s buf sector_idx with
          | Some e => u32 (sector_idx * 128 + e)
          | None => scan_free n s (sector_idx + 1)
          end
      end
  end.

Definition find_free_cluster s : Z :=
  if s_ready s then scan_free (Z.to_nat (s_fat_size_sectors (geo s))) s 0 else 0.

(** Rounds of a loop guarded by [safety++ <= s_max_cluster]. *)
Definition chain_fuel s : nat := Z.to_nat (s_max_cluster (geo s) + 1).

Fixpoint free_chain_loop (fuel : nat) s (cluster count : Z) : fat32 W * option Z :=
  match fuel with
  | O => (s, None)
  | S fuel =>
      if cluster =? 0 then (s, None)
      else
        let next := fat_next_cluster s cluster in
        let '(s, ok) := fat_set_entry s cluster 0 in
        if negb ok then (s, None)
        else if next =? 0 then (s, Some (u32 (count + 1)))
        else free_chain_loop fuel s next (u32 (count + 1))
  end.

(** The number of clusters released; [None] is the failure result. *)
Definition fat_free_chain s (first_cluster : Z) : fat32 W * option Z :=
  if negb (valid_cluster s first_cluster) then (s, if first_cluster =? 0 then Some 0 else None)
  else free_chain_loop (chain_fuel s) s first_cluster 0.

(** Give back the clusters of an allocation that fails. *)
Fixpoint release_all s (allocated : list Z) : fat32 W :=
  match allocated with
  | [] => s
  | c :: allocated => release_all (fst (fat_set_entry s c 0)) allocated
  end.

(** The loop over the clusters a file needs; the lists are the array [allocated] and the
    data still to be written. *)
Fixpoint allocate_loop (n : nat) s (data : list Z) (allocated : list Z) : fat32 W * option (list Z) :=
  match n with
  | O => (s, Some allocated)
  | S n =>
      let cluster := find_free_cluster s in
      if (cluster =? 0) || (256 <=? Z.of_nat (length allocated)) then (release_all s allocated, None)
      else
        let prev := last allocated in
        let allocated := allocated ++ [cluster] in
        let '(s, ok) := fat_set_entry s cluster FAT32_EOC in
        if negb ok then (release_all s allocated, None)
        else
          let '(s, ok) := match prev with Some prev => fat_set_entry s prev cluster | None => (s, true) end in
          if negb ok then (release_all s allocated, None)
          else
            let to_write := take (Z.to_nat (cluster_bytes s)) data in
            let s := set_buf (patch 0 (to_write ++ replicate (Z.to_nat (cluster_bytes s) - length to_write) 0) (cluster_buf s)) s in
            let '(s, ok) := write_cluster s cluster in
            if negb ok then (release_all s allocated, None)
            else allocate_loop n s (drop (Z.to_nat (cluster_bytes s)) data) allocated
  end.

(** The clusters of the new chain, in order; [size] is the length of [data]. *)
Definition allocate_file_chain s (data : list Z) : fat32 W * option (list Z) :=
  let needed := u32 (Z.of_nat (length data) + cluster_bytes s - 1) / cluster_bytes s in
  let needed := if needed =? 0 then 1 else needed in
  if 256 <? needed then (s, None) else allocate_loop (Z.to_nat needed) s data [].
(** ** Directories *)

(** The 32 bytes of entry [i] of the cluster in the buffer. *)
Definition raw_at (buf : list Z) (i : Z) : list Z := take 32 (drop (Z.to_nat (i * 32)) buf).

Definition raw_attr (raw : list Z) : Z := at_z 0 raw 11.
Definition raw_first_cluster (raw : list Z) : Z := Z.lor (Z.shiftl (rd_u16 raw 20) 16) (rd_u16 raw 26).
Definition raw_size (raw : list Z) : Z := rd_u32 raw 28.

(** Long-name parts and the volume label. *)
Definition raw_skipped (raw : list Z) : bool := (raw_attr raw =? 0x0F) || has (raw_attr raw) 0x08.

Fixpoint until (c : Z) (l : list Z) : list Z :=
  match l with [] => [] | x :: l => if x =? c then [] else x :: until c l end.

Definition format_short_name (raw : list Z) : list Z :=
  let name := until 32 (take 8 raw) in
  let ext := until 32 (take 3 (drop 8 raw)) in
  take (Z.to_nat (FAT32_MAX_NAME - 1))
    (until 0 name ++ match ext with [] => [] | _ => 46 :: until 0 ext end).

Definition upcase (c : Z) : Z := if (97 <=? c) && (c <=? 122) then c - 97 + 65 else c.

(** The part before the first dot, up to 8 bytes, and what follows it, up to 3. *)
Fixpoint after_dot (l : list Z) : list Z :=
  match l with [] => [] | x :: l => if x =? 46 then l else after_dot l end.

Definition pad (n : nat) (l : list Z) : list Z := l ++ replicate (n - length l) 32.

Definition to_short_name (input : list Z) : list Z :=
  pad 8 (map upcase (take 8 (until 46 input))) ++ pad 3 (map upcase (take 3 (after_dot input))).

Definition fill_dir_entry (raw short_name : list Z) (attr first_cluster size : Z) : list Z :=
  patch 0 (short_name ++ [attr] ++ replicate 8 0 ++
    [Z.land (Z.shiftr first_cluster 16) 0xFF; Z.land (Z.shiftr first_cluster 24) 0xFF] ++ replicate 4 0 ++
    [Z.land first_cluster 0xFF; Z.land (Z.shiftr first_cluster 8) 0xFF;
     Z.land size 0xFF; Z.land (Z.shiftr size 8) 0xFF; Z.land (Z.shiftr size 16) 0xFF; Z.land (Z.shiftr size 24) 0xFF]) raw.

(** [raw] replaced in the buffer. *)
Definition put_raw (i : Z) (raw buf : list Z) : list Z := patch (i * 32) raw buf.

Definition entries_in_cluster s : Z := cluster_bytes s / 32.

Record fat32_entry := Fat32Entry { e_name : list Z; e_is_dir : bool; e_size : Z; e_first_cluster : Z }.

Definition entry_of (raw : list Z) : fat32_entry :=
  Fat32Entry (format_short_name raw) (has (raw_attr raw) 0x10) (raw_size raw) (raw_first_cluster raw).

(** Entry [raw] is reported by [fat32_list_dir]. *)
Definition listed s (raw : list Z) : bool :=
  negb (at_z 0 raw 0 =? 0xE5) && negb (raw_skipped raw) && negb (at_z 0 raw 0 =? 46) &&
  (if has (raw_attr raw) 0x10 then valid_cluster s (raw_first_cluster raw)
   else (raw_first_cluster raw =? 0) || valid_cluster s (raw_first_cluster raw)).

(** The entries of one cluster; [true]: the end of the directory was met. *)
Fixpoint list_cluster (n : nat) s (i max_entries : Z) (out : list fat32_entry) : list fat32_entry * bool :=
  match n with
  | O => (out, false)
  | S n =>
      if negb (Z.of_nat (length out) <? max_entries) then (out, false)
      else
        let raw := raw_at (cluster_buf s) i in
        if at_z 0 raw 0 =? 0 then (out, true)
        else list_cluster n s (i + 1) max_entries (if listed s raw then out ++ [entry_of raw] else out)
  end.

Fixpoint list_loop (fuel : nat) s (cluster max_entries : Z) (out : list fat32_entry) : fat32 W * list fat32_entry :=
  match fuel with
  | O => (s, out)
  | S fuel =>
      if (cluster =? 0) || negb (Z.of_nat (length out) <? max_entries) then (s, out)
      else
        let '(s, ok) := read_cluster s cluster in
        if negb ok then (s, out)
        else
          let '(out, stop) := list_cluster (Z.to_nat (entries_in_cluster s)) s 0 max_entries out in
          if stop then (s, out) else list_loop fuel s (fat_next_cluster s cluster) max_entries out
  end.

Definition fat32_list_dir s (dir_cluster max_entries : Z) : fat32 W * list fat32_entry :=
  if negb (s_ready s) || (max_entries <=? 0) || negb (valid_cluster s dir_cluster) then (s, [])
  else list_loop (chain_fuel s) s dir_cluster max_entries [].

(** [out] is what has been copied so far. *)
Fixpoint read_loop (fuel : nat) s (cluster size max_len : Z) (out : list Z) : fat32 W * list Z :=
  match fuel with
  | O => (s, out)
  | S fuel =>
      let total := Z.of_nat (length out) in
      if (cluster =? 0) || negb (total <? size) || negb (total <? max_len) then (s, out)
      else
        let '(s, ok) := read_cluster s cluster in
        if negb ok then (s, out)
        else
          let to_copy := Z.min (Z.min (cluster_bytes s) (size - total)) (max_len - total) in
          let out := out ++ take (Z.to_nat to_copy) (cluster_buf s) in
          let total := Z.of_nat (length out) in
          if (size <=? total) || (max_len <=? total) then (s, out)
          else read_loop fuel s (fat_next_cluster s cluster) size max_len out
  end.

Definition fat32_read_file s (first_cluster size max_len : Z) : fat32 W * list Z :=
  if negb (s_ready s) || (max_len =? 0) || (size =? 0) then (s, [])
  else if negb (valid_cluster s first_cluster) then (s, [])
  else read_loop (chain_fuel s) s first_cluster size max_len [].

(** The first slot of the cluster in the buffer that is free. *)
Definition free_slot s : option Z :=
  find_z (fun i => let b := at_z 0 (raw_at (cluster_buf s) i) 0 in (b =? 0) || (b =? 0xE5)) 0
    (Z.to_nat (entries_in_cluster s)).

(** The search; [inl] is the result of the function, [inr] the last cluster when the
    directory is full. *)
Fixpoint slot_loop (fuel : nat) s (cluster last_cluster : Z) : fat32 W * (option (Z * Z) + Z) :=
  match fuel with
  | O => (s, inr last_cluster)
  | S fuel =>
      if cluster =? 0 then (s, inr last_cluster)
      else
        let '(s, ok) := read_cluster s cluster in
        if negb ok then (s, inl None)
        else
          match free_slot s with
          | Some i => (s, inl (Some (cluster, i)))
          | None => slot_loop fuel s (fat_next_cluster s cluster) cluster
          end
  end.

(** [find_free_dir_slot]: a full directory grows by a cluster. *)
Definition find_free_dir_slot s (dir_cluster : Z) : fat32 W * option (Z * Z) :=
  if negb (s_ready s) || negb (valid_cluster s dir_cluster) then (s, None)
  else
    let '(s, r) := slot_loop (chain_fuel s) s dir_cluster dir_cluster in
    match r with
    | inl r => (s, r)
    | inr last_cluster =>
        let new_cluster := find_free_cluster s in
        if new_cluster =? 0 then (s, None)
        else
          let s := set_buf (replicate (Z.to_nat (MAX_CLUSTER_SECTORS * SECTOR_SIZE)) 0) s in
          let '(s, ok) := write_cluster s new_cluster in
          if negb ok then (s, None)
          else
            let '(s, ok) := fat_set_entry s new_cluster FAT32_EOC in
            if negb ok then (s, None)
            else
              let '(s, ok) := fat_set_entry s last_cluster new_cluster in
              if negb ok then (s, None) else (s, Some (new_cluster, 0))
    end.

(** The entries of one cluster searched for a name; [inl None]: the end of the
    directory, [inr]: not in this cluster. *)
Fixpoint locate_in (n : nat) s (short_name : list Z) (i : Z) : option Z + unit :=
  match n with
  | O => inr tt
  | S n =>
      let raw := raw_at (cluster_buf s) i in
      if at_z 0 raw 0 =? 0 then inl None
      else if (at_z 0 raw 0 =? 0xE5) || raw_skipped raw then locate_in n s short_name (i + 1)
      else if bool_decide (take 11 raw = short_name) then inl (Some i)
      else locate_in n s short_name (i + 1)
  end.

Fixpoint locate_loop (fuel : nat) s (short_name : list Z) (cluster : Z) : fat32 W * option (Z * Z) :=
  match fuel with
  | O => (s, None)
  | S fuel =>
      if cluster =? 0 then (s, None)
      else
        let '(s, ok) := read_cluster s cluster in
        if negb ok then (s, None)
        else
          match locate_in (Z.to_nat (entries_in_cluster s)) s short_name 0 with
          | inl (Some i) => (s, Some (cluster, i))
          | inl None => (s, None)
          | inr _ => locate_loop fuel s short_name (fat_next_cluster s cluster)
          end
  end.

Definition locate_dir_entry s (dir_cluster : Z) (short_name : list Z) : fat32 W * option (Z * Z) :=
  if negb (s_ready s) || negb (valid_cluster s dir_cluster) then (s, None)
  else locate_loop (chain_fuel s) s short_name dir_cluster.

Definition dir_is_empty s (dir_cluster : Z) : fat32 W * bool :=
  if negb (valid_cluster s dir_cluster) then (s, false)
  else let '(s, es) := fat32_list_dir s dir_cluster 2 in (s, Z.of_nat (length es) =? 0).

(** ** Calls *)

(** The free-byte account after [freed] clusters come back. *)
Definition credit s (freed : Z) : fat32 W :=
  let n := if freed =? 0 then s_free_bytes s else u64 (s_free_bytes s + freed * cluster_bytes s) in
  set_free_bytes (if s_total_bytes s <? n then s_total_bytes s else n) s.

Definition fat32_delete_file s (dir_cluster : Z) (name : list Z) : fat32 W * bool :=
  if negb (s_ready s) || negb (valid_cluster s dir_cluster) then (s, false)
  else
    let '(s, found) := locate_dir_entry s dir_cluster (to_short_name name) in
    match found with
    | None => (s, false)
    | Some (entry_cluster, entry_index) =>
        let '(s, ok) := read_cluster s entry_cluster in
        if negb ok then (s, false)
        else
          let raw := raw_at (cluster_buf s) entry_index in
          let first_cluster := raw_first_cluster raw in
          let '(s, empty) :=
            if has (raw_attr raw) 0x10 && (2 <=? first_cluster) then dir_is_empty s first_cluster else (s, true) in
          if negb empty then (s, false)
          else
            let s := set_buf (patch (entry_index * 32) [0xE5] (cluster_buf s)) s in
            let '(s, ok) := write_cluster s entry_cluster in
            if negb ok then (s, false)
            else
              let '(s, freed) := if 2 <=? first_cluster then fat_free_chain s first_cluster else (s, Some 0) in
              match freed with
              | None => (s, false)
              | Some freed => (fat32_sync_fsinfo (credit s freed), true)
              end
    end.

Definition fat32_rename_file s (dir_cluster : Z) (old_name new_name : list Z) : fat32 W * bool :=
  if negb (s_ready s) || negb (valid_cluster s dir_cluster) then (s, false)
  else
    let '(s, old) := locate_dir_entry s dir_cluster (to_short_name old_name) in
    match old with
    | None => (s, false)
    | Some (old_cluster, old_index) =>
        let '(s, duplicate) := locate_dir_entry s dir_cluster (to_short_name new_name) in
        match duplicate with
        | Some _ => (s, false)
        | None =>
            let '(s, ok) := read_cluster s old_cluster in
            if negb ok then (s, false)
            else write_cluster (set_buf (patch (old_index * 32) (to_short_name new_name) (cluster_buf s)) s) old_cluster
        end
    end.

(** The clusters the entry being replaced is charged for. *)
Definition old_clusters_of s (old_first old_size : Z) : Z :=
  if 2 <=? old_first then
    let n := u32 (old_size + cluster_bytes s - 1) / cluster_bytes s in if n =? 0 then 1 else n
  else 0.

(** The account after a file of [old] clusters is replaced by one of [new]. *)
Definition recharge s (old new : Z) : fat32 W :=
  let n := u64 (s_free_bytes s + old * cluster_bytes s) in
  let n := if new * cluster_bytes s <? n then n - new * cluster_bytes s else 0 in
  set_free_bytes (if s_total_bytes s <? n then s_total_bytes s else n) s.

(** The slot for a name with the entry it replaces: attribute, first cluster and size. *)
Definition entry_for_write s (dir_cluster : Z) (short_name : list Z) : fat32 W * option (Z * Z * option (Z * Z * Z)) :=
  let '(s, found) := locate_dir_entry s dir_cluster short_name in
  match found with
  | Some (cluster, i) =>
      let '(s, ok) := read_cluster s cluster in
      if negb ok then (s, None)
      else
        let raw := raw_at (cluster_buf s) i in
        (s, Some (cluster, i, Some (raw_attr raw, raw_first_cluster raw, raw_size raw)))
  | None =>
      let '(s, slot) := find_free_dir_slot s dir_cluster in
      match slot with Some (cluster, i) => (s, Some (cluster, i, None)) | None => (s, None) end
  end.

Definition fat32_write_file s (dir_cluster : Z) (name data : list Z) : fat32 W * bool :=
  if negb (s_ready s) || negb (valid_cluster s dir_cluster) then (s, false)
  else
    let short_name := to_short_name name in
    let size := Z.of_nat (length data) in
    let '(s, slot) := entry_for_write s dir_cluster short_name in
    match slot with
    | None => (s, false)
    | Some (entry_cluster, entry_index, old) =>
        let '(old_attr, old_first, old_size) := default (0, 0, 0) old in
        if has old_attr 0x10 then (s, false)
        else
          let '(s, chain) := allocate_file_chain s data in
          match chain with
          | None => (s, false)
          | Some chain =>
              let new_first := at_z 0 chain 0 in
              let old_clusters := old_clusters_of s old_first old_size in
              let '(s, ok) := read_cluster s entry_cluster in
              if negb ok then (fst (fat_free_chain s new_first), false)
              else
                let raw := fill_dir_entry (raw_at (cluster_buf s) entry_index) short_name 0x20 new_first size in
                let s := set_buf (put_raw entry_index raw (cluster_buf s)) s in
                let '(s, ok) := write_cluster s entry_cluster in
                if negb ok then (fst (fat_free_chain s new_first), false)
                else
                  let '(s, freed) := if 2 <=? old_first then fat_free_chain s old_first else (s, Some 0) in
                  match freed with
                  | None => (s, false)
                  | Some _ => (fat32_sync_fsinfo (recharge s old_clusters (Z.of_nat (length chain))), true)
                  end
          end
    end.

Definition fat32_make_dir s (dir_cluster : Z) (name : list Z) : fat32 W * bool :=
  if negb (s_ready s) || negb (valid_cluster s dir_cluster) then (s, false)
  else
    let short_name := to_short_name name in
    let '(s, existing) := locate_dir_entry s dir_cluster short_name in
    match existing with
    | Some _ => (s, false)
    | None =>
        let new_cluster := find_free_cluster s in
        if new_cluster =? 0 then (s, false)
        else
          let '(s, ok) := fat_set_entry s new_cluster FAT32_EOC in
          if negb ok then (s, false)
          else
            let buf := patch 0 (replicate (Z.to_nat (cluster_bytes s)) 0) (cluster_buf s) in
            let buf := put_raw 0 (fill_dir_entry (raw_at buf 0) (to_short_name [46]) 0x10 new_cluster 0) buf in
            let buf := put_raw 1 (fill_dir_entry (raw_at buf 1) (to_short_name [46; 46]) 0x10 dir_cluster 0) buf in
            let '(s, ok) := write_cluster (set_buf buf s) new_cluster in
            if negb ok then (fst (fat_set_entry s new_cluster 0), false)
            else
              let '(s, slot) := find_free_dir_slot s dir_cluster in
              match slot with
              | None => (fst (fat_set_entry s new_cluster 0), false)
              | Some (slot_cluster, slot_index) =>
                  let '(s, ok) := read_cluster s slot_cluster in
                  if negb ok then (fst (fat_set_entry s new_cluster 0), false)
                  else
                    let raw := fill_dir_entry (raw_at (cluster_buf s) slot_index) short_name 0x10 new_cluster 0 in
                    let '(s, ok) := write_cluster (set_buf (put_raw slot_index raw (cluster_buf s)) s) slot_cluster in
                    if negb ok then (fst (fat_set_entry s new_cluster 0), false)
                    else
                      let free := if cluster_bytes s <=? s_free_bytes s then s_free_bytes s - cluster_bytes s else 0 in
                      (fat32_sync_fsinfo (set_free_bytes free s), true)
              end
    end.
End Fat.
