(* ===== verification/FatView.v ===== *)
(** The FAT32 driver seen as a table and a heap of clusters: what each primitive of
    [Fat32] does to them, over any device that obeys [BlockLaws]. *)
From S2P Require Import Prelude Pmm Block Gpt Fat32.

(** ** Patched buffers *)

Definition bytes (l : list Z) : Prop := Forall (fun b => 0 <= b < 256) l.

Lemma length_patch off bs buf :
  0 <= off -> off + Z.of_nat (length bs) <= Z.of_nat (length buf) -> length (patch off bs buf) = length buf.
Proof. intros. unfold patch. rewrite !length_app, length_take, length_drop. lia. Qed.

Lemma patch_bytes off bs buf : bytes bs -> bytes buf -> bytes (patch off bs buf).
Proof. intros. unfold patch. apply Forall_app. split; [by apply Forall_take|]. apply Forall_app. split; [done|by apply Forall_drop]. Qed.

(** What lies in the patched range, before it and after it. *)
Lemma patch_eq off n bs buf :
  0 <= off -> n = length bs -> off + Z.of_nat n <= Z.of_nat (length buf) -> take n (drop (Z.to_nat off) (patch off bs buf)) = bs.
Proof.
  intros H0 -> H1. unfold patch. rewrite drop_app_length' by (rewrite length_take; lia). by apply take_app_length.
Qed.

Lemma patch_ne off bs buf o n :
  0 <= off -> 0 <= o -> off + Z.of_nat (length bs) <= Z.of_nat (length buf) ->
  o + Z.of_nat n <= off \/ off + Z.of_nat (length bs) <= o ->
  take n (drop (Z.to_nat o) (patch off bs buf)) = take n (drop (Z.to_nat o) buf).
Proof.
  intros H0 H1 H2 H3. apply list_eq. intros i. rewrite !lookup_take.
  destruct (decide (i < n)%nat) as [Hi|]; [|done]. rewrite !lookup_drop. unfold patch. destruct H3 as [H3|H3].
  - rewrite lookup_app_l by (rewrite length_take; lia). rewrite lookup_take, decide_True by lia. done.
  - rewrite lookup_app_r by (rewrite length_take; lia). rewrite lookup_app_r by (rewrite length_take; lia).
    rewrite lookup_drop, length_take. f_equal. lia.
Qed.

Lemma field_patch_ne off bs buf o :
  0 <= off -> 0 <= o -> off + Z.of_nat (length bs) <= Z.of_nat (length buf) ->
  o + 4 <= off \/ off + Z.of_nat (length bs) <= o -> rd_u32 (patch off bs buf) o = rd_u32 buf o.
Proof. intros. unfold rd_u32, field. by rewrite patch_ne by (auto; lia). Qed.

Lemma le_get_entry v o :
  0 <= v -> Z.land (le_get (entry_bytes v o)) 0x0FFFFFFF = Z.land v 0x0FFFFFFF.
Proof.
  intros Hv. unfold entry_bytes. cbn [le_get].
  change 0x0FFFFFFF with (2 ^ 28 - 1). change 0xFF with (2 ^ 8 - 1). change 0x0F with (2 ^ 4 - 1).
  rewrite !land_ones_mod, !Z.shiftr_div_pow2 by lia.
  assert (E : Z.lor (Z.land o 0xF0) (v / 2 ^ 24 mod 2 ^ 4) mod 2 ^ 4 = v / 2 ^ 24 mod 2 ^ 4).
  { rewrite <-land_ones_mod, Z.land_lor_distr_l, <-Z.land_assoc by lia. change (Z.land 0xF0 (2 ^ 4 - 1)) with 0.
    rewrite Z.land_0_r, Z.lor_0_l, land_ones_mod, Z.mod_mod by lia. done. }
  set (b := Z.lor _ _) in *. clearbody b. Z.to_euclidean_division_equations. lia.
Qed.

Lemma entry_bytes_bytes v o : bytes (entry_bytes v o).
Proof.
  assert (H : forall x, 0 <= Z.land x 255 < 256) by (intros x; change 255 with (2 ^ 8 - 1); rewrite land_ones_mod by lia; by apply Z.mod_pos_bound).
  unfold entry_bytes. repeat constructor; try apply H.
  all: assert (E : Z.lor (Z.land o 240) (Z.land (Z.shiftr v 24) 15) = Z.land (Z.lor (Z.land o 240) (Z.land (Z.shiftr v 24) 15)) 255)
    by (rewrite Z.land_lor_distr_l, <-!Z.land_assoc; done); rewrite E; apply H.
Qed.

Lemma seqZ_one a : seqZ a 1 = [a].
Proof. done. Qed.

Section View.
Context {W : Type} `{BL : BlockLaws W}.
Implicit Types s : fat32 W.

(** ** Volumes *)

(** The areas of the volume: the FSInfo sector, the tables and the clusters. *)
Record geo_wf (g : geometry) : Prop := GeoWf {
  gw_dev : 0 <= s_block_device g;
  gw_fat : 0 < s_fat_start_lba g;
  gw_copies : 1 <= s_num_fats g;
  gw_table : s_fat_size_sectors g <= 2 ^ 25;
  gw_area : s_fat_start_lba g + s_num_fats g * s_fat_size_sectors g <= s_data_start_lba g;
  gw_entries : (s_max_cluster g + 1) * 4 <= s_fat_size_sectors g * SECTOR_SIZE;
  gw_spc : 1 <= s_sectors_per_cluster g <= MAX_CLUSTER_SECTORS;
  gw_end : s_data_start_lba g + (s_max_cluster g - 1) * s_sectors_per_cluster g <= 2 ^ 28;
  gw_part : (s_max_cluster g - 1) * s_sectors_per_cluster g <= s_partition_sectors g;
  gw_root : 2 <= s_root_cluster g <= s_max_cluster g;
  gw_fsinfo : s_fsinfo_valid g = true -> 0 <= s_fsinfo_lba g < s_fat_start_lba g
}.

(** The volume lies on a writable device. *)
Definition on_device (g : geometry) (w : W) : Prop :=
  exists d, block_get_device w (s_block_device g) = Some d /\ block_size d = SECTOR_SIZE /\ writable d = true /\
    s_data_start_lba g + (s_max_cluster g - 1) * s_sectors_per_cluster g <= block_count d.

Record vol s : Prop := Vol {
  vo_ready : s_ready s = true;
  vo_geo : geo_wf (geo s);
  vo_dev : on_device (geo s) (disk s);
  vo_buf : length (cluster_buf s) = Z.to_nat (MAX_CLUSTER_SECTORS * SECTOR_SIZE);
  vo_bytes : bytes (cluster_buf s)
}.

Definition sec s (l : Z) : list Z := sector (disk s) (s_block_device (geo s)) l.

Definition off s : Prop := down (disk s).
#[export] Instance off_dec s : Decision (off s) := down_dec (disk s).

(** ** The two views *)

(** The table entry of a cluster, in the first copy. *)
Definition fatv s (c : Z) : Z :=
  Z.land (rd_u32 (sec s (s_fat_start_lba (geo s) + c * 4 / 512)) (c * 4 mod 512)) 0x0FFFFFFF.

Definition cluster_lba s (c : Z) : Z := s_data_start_lba (geo s) + (c - 2) * s_sectors_per_cluster (geo s).

(** The bytes of a cluster. *)
Definition cdat s (c : Z) : list Z := concat (map (sec s) (seqZ (cluster_lba s c) (s_sectors_per_cluster (geo s)))).

Definition is_cluster s (c : Z) : Prop := 2 <= c <= s_max_cluster (geo s).
Definition has_entry s (c : Z) : Prop := 1 <= c <= s_max_cluster (geo s).

Lemma valid_cluster_iff s c : valid_cluster s c = true <-> is_cluster s c.
Proof. unfold valid_cluster, is_cluster. rewrite andb_true_iff, !Z.leb_le. done. Qed.

(** ** What an operation may touch

    Between the two states only the table entries in [F] and the clusters in [T] may have
    changed; nothing changes once the device is down. *)
Record step (F T : Z -> Prop) s s' : Prop := Step {
  st_geo : geo s' = geo s;
  st_ready : s_ready s' = s_ready s;
  st_devs : block_devices (disk s') = block_devices (disk s);
  st_buf : length (cluster_buf s') = length (cluster_buf s);
  st_bytes : bytes (cluster_buf s) -> bytes (cluster_buf s');
  st_fat c : has_entry s c -> ~ F c -> fatv s' c = fatv s c;
  st_dat c : is_cluster s c -> ~ T c -> cdat s' c = cdat s c;
  st_off : off s -> off s' /\ (forall c, has_entry s c -> fatv s' c = fatv s c) /\ (forall c, is_cluster s c -> cdat s' c = cdat s c)
}.

Definition nowhere (_ : Z) : Prop := False.

Lemma not_nowhere c : ~ nowhere c.
Proof. by intros []. Qed.
Hint Resolve not_nowhere : core.

Lemma step_refl F T s : step F T s s.
Proof. by constructor. Qed.

Lemma has_entry_geo s s' c : geo s' = geo s -> has_entry s' c <-> has_entry s c.
Proof. unfold has_entry. by intros ->. Qed.

Lemma is_cluster_geo s s' c : geo s' = geo s -> is_cluster s' c <-> is_cluster s c.
Proof. unfold is_cluster. by intros ->. Qed.

Lemma step_trans F T s1 s2 s3 : step F T s1 s2 -> step F T s2 s3 -> step F T s1 s3.
Proof.
  intros [G1 R1 D1 B1 Y1 F1 C1 O1] [G2 R2 D2 B2 Y2 F2 C2 O2].
  assert (HE : forall c, has_entry s1 c -> has_entry s2 c) by (intros c; by apply has_entry_geo).
  assert (HC : forall c, is_cluster s1 c -> is_cluster s2 c) by (intros c; by apply is_cluster_geo).
  constructor; try congruence.
  - auto.
  - intros c Hc Hn. rewrite F2 by auto. auto.
  - intros c Hc Hn. rewrite C2 by auto. auto.
  - intros Ho. destruct (O1 Ho) as (Ho2 & Hf & Hd). destruct (O2 Ho2) as (Ho3 & Hf2 & Hd2).
    split; [done|]. split; intros c Hc; [rewrite Hf2 by auto; auto|rewrite Hd2 by auto; auto].
Qed.

Lemma step_weaken_in (F T F' T' : Z -> Prop) s s' :
  (forall c, has_entry s c -> F c -> F' c) -> (forall c, is_cluster s c -> T c -> T' c) -> step F T s s' -> step F' T' s s'.
Proof. intros HF HT [? ? ? ? ? H1 H2 ?]. constructor; auto. Qed.

Lemma step_weaken (F T F' T' : Z -> Prop) s s' :
  (forall c, F c -> F' c) -> (forall c, T c -> T' c) -> step F T s s' -> step F' T' s s'.
Proof. intros HF HT. apply step_weaken_in; auto. Qed.

Lemma step_vol F T s s' : vol s -> step F T s s' -> vol s'.
Proof.
  intros [R G (d & D & Hd) B Y] [SG SR SD SB SY _ _ _]. constructor; try congruence.
  - exists d. unfold block_get_device in *. by rewrite SG, SD.
  - auto.
Qed.

Lemma step_down F T s s' : off s -> step F T s s' ->
  off s' /\ (forall c, has_entry s c -> fatv s' c = fatv s c) /\ (forall c, is_cluster s c -> cdat s' c = cdat s c).
Proof. intros Ho H. by apply (st_off _ _ _ _ H). Qed.

(** Scratch state. *)
Lemma fatv_disk s s' c : geo s' = geo s -> disk s' = disk s -> fatv s' c = fatv s c.
Proof. intros Hg Hd. unfold fatv, sec. by rewrite Hg, Hd. Qed.

Lemma cdat_disk s s' c : geo s' = geo s -> disk s' = disk s -> cdat s' c = cdat s c.
Proof. intros Hg Hd. unfold cdat, cluster_lba, sec. by rewrite Hg, Hd. Qed.

Lemma step_scratch F T s s' :
  geo s' = geo s -> disk s' = disk s -> s_ready s' = s_ready s ->
  length (cluster_buf s') = length (cluster_buf s) -> (bytes (cluster_buf s) -> bytes (cluster_buf s')) -> step F T s s'.
Proof.
  intros Hg Hd Hr Hb Hy. constructor; auto; try congruence; intros.
  - by apply fatv_disk.
  - by apply cdat_disk.
  - split; [unfold off in *; congruence|]. split; intros; [by apply fatv_disk|by apply cdat_disk].
Qed.
(** ** The device *)

Lemma sec_length s l : vol s -> length (sec s l) = 512%nat.
Proof.
  intros [_ _ (d & D & Hs & _) _ _]. unfold sec. pose proof (bl_length _ _ _ l D) as H. unfold SECTOR_SIZE in *. lia.
Qed.

Lemma sec_bytes s l : bytes (sec s l).
Proof. apply bl_bytes. Qed.

Definition volume_end s : Z := s_data_start_lba (geo s) + (s_max_cluster (geo s) - 1) * s_sectors_per_cluster (geo s).

Lemma disk_read_sound s lba n bs : disk_read s lba n = Some bs -> bs = concat (map (sec s) (seqZ lba n)).
Proof. unfold disk_read. destruct (0 <=? _); [|done]. apply bl_read. Qed.

Lemma disk_read_live s lba n :
  vol s -> ~ off s -> 0 <= lba -> 0 < n -> lba + n <= volume_end s -> is_Some (disk_read s lba n).
Proof.
  intros [_ G (d & D & _ & _ & Hc) _ _] Ho Hl Hn He. unfold disk_read.
  destruct (Z.leb_spec 0 (s_block_device (geo s))); [|pose proof (gw_dev _ G); lia].
  apply (bl_reads _ _ _ _ _ Ho D); [|lia|lia]. unfold range_valid. fold (volume_end s) in Hc. lia.
Qed.

Lemma disk_write_spec s lba n bs s' ok :
  vol s -> 0 <= lba -> 0 < n -> lba + n <= volume_end s -> Z.of_nat (length bs) = n * 512 -> bytes bs ->
  disk_write s lba n bs = (s', ok) ->
  (geo s' = geo s /\ s_ready s' = s_ready s /\ block_devices (disk s') = block_devices (disk s) /\
   cluster_buf s' = cluster_buf s) /\
  (ok = true -> ~ off s /\ forall l, sec s' l = if in_run lba n l then chunk_at 512 lba l bs else sec s l) /\
  (ok = false -> off s' /\ forall l, sec s' l = sec s l \/
     (~ off s /\ in_run lba n l = true /\ sec s' l = chunk_at 512 lba l bs)).
Proof.
  intros [_ G (d & D & Hs & Hw & Hc) _ _] Hl Hn He Hb Hy. unfold disk_write.
  destruct (Z.leb_spec 0 (s_block_device (geo s))); [|pose proof (gw_dev _ G); lia].
  destruct (block_write _ _ _ _ _) as [w ok'] eqn:E. intros [= <- <-]. fold (volume_end s) in Hc. unfold SECTOR_SIZE in Hs.
  split; [repeat split; exact (bl_devices _ _ _ _ _ _ _ E)|].
  assert (Hlen : Z.of_nat (length bs) = n * block_size d) by (rewrite Hs; lia). split; intros ->.
  - destruct (bl_write _ _ _ _ _ _ _ E D Hlen Hl ltac:(lia) Hy) as [Ho H1]. split; [done|]. intros l. unfold sec. cbn [disk geo set_disk].
    rewrite H1, Z.eqb_refl, Hs. done.
  - assert (Hr : range_valid d lba n = true) by (unfold range_valid; lia).
    destruct (bl_torn _ _ _ _ _ _ _ E D Hw Hr Hlen Hl ltac:(lia) Hy) as [Ho H1]. split; [done|]. intros l. unfold sec. cbn [disk geo set_disk].
    destruct (H1 (s_block_device (geo s)) l) as [H2|(H2 & _ & H3 & H4)]; [by left|right]. rewrite Hs in H4. done.
Qed.

Lemma chunk_one l bs : length bs = 512%nat -> chunk_at 512 l l bs = bs.
Proof. intros H. unfold chunk_at. rewrite Z.sub_diag. change (Z.to_nat (0 * 512)) with 0%nat. rewrite drop_0. apply take_ge. rewrite H. done. Qed.

(** A one-sector write replaces that sector, or leaves it when the device goes down. *)
Lemma write_one s lba bs s' ok :
  vol s -> 0 <= lba < volume_end s -> length bs = 512%nat -> bytes bs -> disk_write s lba 1 bs = (s', ok) ->
  (geo s' = geo s /\ s_ready s' = s_ready s /\ block_devices (disk s') = block_devices (disk s) /\
   cluster_buf s' = cluster_buf s) /\
  (forall l, l <> lba -> sec s' l = sec s l) /\
  (off s -> sec s' lba = sec s lba /\ off s') /\
  (if ok then sec s' lba = bs else off s' /\ (sec s' lba = sec s lba \/ sec s' lba = bs)) /\ (ok = true -> ~ off s).
Proof.
  intros Hv Hl Hb Hy H. destruct (disk_write_spec s lba 1 bs s' ok Hv (proj1 Hl) ltac:(lia) ltac:(lia) ltac:(lia) Hy H) as (R & H1 & H2).
  split; [done|]. assert (Hin : forall l, in_run lba 1 l = true <-> l = lba) by (intros l; unfold in_run; lia).
  destruct ok.
  - destruct (H1 eq_refl) as [Ho H3]. split_and!.
    + intros l Hne. rewrite H3. destruct (in_run lba 1 l) eqn:E; [by apply Hin in E|done].
    + done.
    + rewrite H3, (proj2 (Hin lba) eq_refl). by apply chunk_one.
    + done.
  - destruct (H2 eq_refl) as [Ho H3]. split_and!.
    + intros l Hne. destruct (H3 l) as [|(_ & E & _)]; [done|]. by apply Hin in E.
    + intros Ho'. destruct (H3 lba) as [|(E & _)]; done.
    + done.
    + destruct (H3 lba) as [|(_ & _ & E)]; [by left|right]. rewrite E. by apply chunk_one.
    + done.
Qed.

(** ** The table *)

Lemma geo_facts s : vol s ->
  1 <= s_num_fats (geo s) /\ 0 < s_fat_start_lba (geo s) /\ 0 < s_fat_size_sectors (geo s) /\
  s_fat_start_lba (geo s) + s_num_fats (geo s) * s_fat_size_sectors (geo s) <= s_data_start_lba (geo s) /\
  (s_max_cluster (geo s) + 1) * 4 <= s_fat_size_sectors (geo s) * 512 /\
  1 <= s_sectors_per_cluster (geo s) <= 64 /\ 2 <= s_root_cluster (geo s) <= s_max_cluster (geo s) /\
  volume_end s <= 2 ^ 28 /\ s_data_start_lba (geo s) < volume_end s /\
  (s_max_cluster (geo s) - 1) * s_sectors_per_cluster (geo s) <= s_partition_sectors (geo s) /\
  s_fat_size_sectors (geo s) <= 2 ^ 25.
Proof.
  intros [_ [G1 G2 G3 Gt G4 G5 G6 G7 G8 G9 _] _ _ _]. unfold volume_end, SECTOR_SIZE, MAX_CLUSTER_SECTORS in *.
  assert (0 < (s_max_cluster (geo s) - 1) * s_sectors_per_cluster (geo s)) by (apply Z.mul_pos_pos; lia).
  split_and!; lia.
Qed.

Definition table_lba s (copy c : Z) : Z := s_fat_start_lba (geo s) + copy * s_fat_size_sectors (geo s) + c * 4 / 512.

Lemma entry_range s c : vol s -> has_entry s c ->
  0 <= c * 4 < 2 ^ 32 /\ 0 <= c * 4 / 512 < s_fat_size_sectors (geo s) /\ 0 <= c * 4 mod 512 <= 508.
Proof.
  intros Hv Hc. destruct (geo_facts s Hv) as (H1 & H2 & H3 & H4 & H5 & H6 & H7 & H8 & H9 & H10 & H11). unfold has_entry in Hc.
  assert (s_fat_size_sectors (geo s) < 2 ^ 28).
  { pose proof (Z.mul_le_mono_nonneg_r 1 (s_num_fats (geo s)) (s_fat_size_sectors (geo s)) ltac:(lia) H1). lia. }
  assert (s_max_cluster (geo s) - 1 < 2 ^ 28).
  { pose proof (Z.mul_le_mono_nonneg_l 1 (s_sectors_per_cluster (geo s)) (s_max_cluster (geo s) - 1) ltac:(lia) ltac:(lia)).
    unfold volume_end in H8. lia. }
  Z.to_euclidean_division_equations. lia.
Qed.

Lemma table_range s copy c : vol s -> has_entry s c -> 0 <= copy < s_num_fats (geo s) ->
  0 <= table_lba s copy c < s_data_start_lba (geo s).
Proof.
  intros Hv Hc Hk. destruct (geo_facts s Hv) as (H1 & H2 & H3 & H4 & H5 & H6 & H7 & H8 & H9 & H10 & H11).
  destruct (entry_range s c Hv Hc) as (E1 & E2 & E3). unfold table_lba. nia.
Qed.

Lemma fatv_table s c : fatv s c = Z.land (rd_u32 (sec s (table_lba s 0 c)) (c * 4 mod 512)) 0x0FFFFFFF.
Proof. unfold fatv, table_lba. by rewrite Z.mul_0_l, Z.add_0_r. Qed.

Lemma fat_read_entry_sound s c v : vol s -> has_entry s c -> fat_read_entry s c = Some v -> v = fatv s c.
Proof.
  intros Hv Hc. destruct (entry_range s c Hv Hc) as (E1 & E2 & E3). pose proof (table_range s 0 c Hv Hc ltac:(pose proof (geo_facts s Hv); lia)) as R.
  destruct (geo_facts s Hv) as (H1 & H2 & H3 & H4 & H5 & H6 & H7 & H8 & H9 & H10 & H11).
  unfold fat_read_entry, SECTOR_SIZE. destruct (_ || _ || _); [done|]. rewrite (uwrap_id 32 (c * 4)) by done.
  destruct (_ <=? _); [done|]. rewrite uwrap_id by (unfold fits, table_lba in *; lia).
  destruct (disk_read s _ 1) as [buf|] eqn:E; [|done]. intros [= <-]. apply disk_read_sound in E.
  rewrite seqZ_one in E. cbn [map concat] in E. rewrite app_nil_r in E. by subst buf.
Qed.

Lemma fat_read_entry_live s c : vol s -> has_entry s c -> ~ off s -> fat_read_entry s c = Some (fatv s c).
Proof.
  intros Hv Hc Ho. destruct (fat_read_entry s c) as [v|] eqn:E; [f_equal; by apply fat_read_entry_sound|exfalso].
  destruct (entry_range s c Hv Hc) as (E1 & E2 & E3). pose proof (table_range s 0 c Hv Hc ltac:(pose proof (geo_facts s Hv); lia)) as R.
  destruct (geo_facts s Hv) as (H1 & H2 & H3 & H4 & H5 & H6 & H7 & H8 & H9 & H10 & H11).
  revert E. unfold fat_read_entry, SECTOR_SIZE. rewrite (vo_ready s Hv). unfold has_entry in Hc. cbn [negb orb].
  destruct (Z.ltb_spec c 1), (Z.ltb_spec (s_max_cluster (geo s)) c); try lia. cbn [orb].
  rewrite (uwrap_id 32 (c * 4)) by done. destruct (Z.leb_spec (s_fat_size_sectors (geo s)) (c * 4 / 512)); [lia|].
  rewrite uwrap_id by (unfold fits, table_lba in *; lia).
  destruct (disk_read_live s (s_fat_start_lba (geo s) + c * 4 / 512) 1 Hv Ho) as [buf ->]; unfold table_lba in *; try lia. done.
Qed.

(** Where a link leads; 0 ends a chain. *)
Definition next_of s (v : Z) : Z :=
  if FAT32_EOC <=? v then 0 else if v =? FAT32_BAD_CLUSTER then 0
  else if (v <? 2) || (s_max_cluster (geo s) <? v) then 0 else v.

Lemma fat_next_live s c : vol s -> is_cluster s c -> ~ off s -> fat_next_cluster s c = next_of s (fatv s c).
Proof.
  intros Hv Hc Ho. unfold fat_next_cluster. rewrite (vo_ready s Hv), (proj2 (valid_cluster_iff s c) Hc). cbn [negb orb].
  rewrite fat_read_entry_live; [done|done| |done]. unfold is_cluster, has_entry in *. lia.
Qed.

Lemma fat_next_sound s c : vol s -> is_cluster s c -> fat_next_cluster s c = 0 \/ fat_next_cluster s c = next_of s (fatv s c).
Proof.
  intros Hv Hc. unfold fat_next_cluster. destruct (_ || _); [by left|]. destruct (fat_read_entry s c) as [v|] eqn:E; [|by left].
  right. apply fat_read_entry_sound in E as ->; [done|done|]. unfold is_cluster, has_entry in *. lia.
Qed.
(** What a write of one sector touches. *)
Lemma step_sector F T s s' lba :
  geo s' = geo s /\ s_ready s' = s_ready s /\ block_devices (disk s') = block_devices (disk s) /\ cluster_buf s' = cluster_buf s ->
  (forall l, l <> lba -> sec s' l = sec s l) -> (off s -> sec s' lba = sec s lba /\ off s') ->
  (forall c, has_entry s c -> table_lba s 0 c = lba -> ~ F c -> fatv s' c = fatv s c) ->
  (forall c, is_cluster s c -> in_run (cluster_lba s c) (s_sectors_per_cluster (geo s)) lba = true -> T c) -> step F T s s'.
Proof.
  intros (Hg & Hr & Hd & Hb) Hne Ho HF HT.
  assert (Et : forall c, table_lba s' 0 c = table_lba s 0 c) by (intros c; unfold table_lba; by rewrite Hg).
  assert (Ef : forall c, sec s' (table_lba s 0 c) = sec s (table_lba s 0 c) -> fatv s' c = fatv s c).
  { intros c H. rewrite !fatv_table, Et, H. done. }
  assert (Ed : forall c, (forall l, in_run (cluster_lba s c) (s_sectors_per_cluster (geo s)) l = true -> sec s' l = sec s l) ->
            cdat s' c = cdat s c).
  { intros c H. unfold cdat, cluster_lba in *. rewrite Hg. f_equal. apply map_ext_in. intros l Hl.
    apply H. apply list_elem_of_In, elem_of_seqZ in Hl. unfold in_run. lia. }
  constructor; try done; try congruence.
  - intros c Hc Hn. destruct (decide (table_lba s 0 c = lba)) as [E|E]; [by apply HF|apply Ef; auto].
  - intros c Hc Hn. apply Ed. intros l Hl. apply Hne. intros ->. by apply Hn, HT.
  - intros Hof. destruct (Ho Hof) as [E Ho']. split; [done|].
    assert (Hall : forall l, sec s' l = sec s l) by (intros l; destruct (decide (l = lba)) as [->|]; auto).
    split; intros c Hc; [apply Ef|apply Ed]; auto.
Qed.

Lemma cluster_range s c l : vol s -> is_cluster s c -> in_run (cluster_lba s c) (s_sectors_per_cluster (geo s)) l = true ->
  s_data_start_lba (geo s) <= l < volume_end s.
Proof.
  intros Hv Hc Hl. destruct (geo_facts s Hv) as (H1 & H2 & H3 & H4 & H5 & H6 & H7 & H8 & H9 & H10 & H11).
  unfold in_run, cluster_lba, is_cluster, volume_end in *. nia.
Qed.

Lemma table_inj s c c' : has_entry s c -> has_entry s c' -> table_lba s 0 c = table_lba s 0 c' ->
  c * 4 mod 512 + 4 <= c' * 4 mod 512 \/ c' * 4 mod 512 + 4 <= c * 4 mod 512 \/ c = c'.
Proof. unfold table_lba, has_entry. intros H1 H2 H3. Z.to_euclidean_division_equations. lia. Qed.

(** One copy of a table entry is written. *)
Lemma write_copy s copy c v s' ok :
  vol s -> has_entry s c -> 0 <= v -> 0 <= copy < s_num_fats (geo s) ->
  disk_write s (table_lba s copy c) 1
    (patch (c * 4 mod 512) (entry_bytes v (at_z 0 (sec s (table_lba s copy c)) (c * 4 mod 512 + 3))) (sec s (table_lba s copy c))) = (s', ok) ->
  step (eq c) nowhere s s' /\ cluster_buf s' = cluster_buf s /\
  (if ok then ~ off s else off s') /\
  (copy <> 0 -> step nowhere nowhere s s') /\
  (copy = 0 -> if ok then fatv s' c = Z.land v 0x0FFFFFFF else fatv s' c = fatv s c \/ fatv s' c = Z.land v 0x0FFFFFFF).
Proof.
  intros Hv Hc Hpos Hk. set (old := at_z 0 _ _). set (buf := sec s (table_lba s copy c)). set (o := c * 4 mod 512).
  destruct (entry_range s c Hv Hc) as (E1 & E2 & E3). fold o in E3. pose proof (table_range s copy c Hv Hc Hk) as R.
  destruct (geo_facts s Hv) as (H1 & H2 & H3 & H4 & H5 & H6 & H7 & H8 & H9 & H10 & H11).
  assert (Lb : length buf = 512%nat) by by apply sec_length.
  assert (Le : length (entry_bytes v old) = 4%nat) by done.
  assert (Lp : length (patch o (entry_bytes v old) buf) = 512%nat) by (rewrite length_patch; lia).
  assert (Yp : bytes (patch o (entry_bytes v old) buf)).
  { apply patch_bytes; [apply entry_bytes_bytes|apply sec_bytes]. }
  assert (R2 : 0 <= table_lba s copy c < volume_end s) by lia.
  intros H. destruct (write_one _ _ _ _ _ Hv R2 Lp Yp H) as (Hsame & Hne & Hoff & Hok & Hon).
  assert (Hdata : forall c', is_cluster s c' -> in_run (cluster_lba s c') (s_sectors_per_cluster (geo s)) (table_lba s copy c) = true -> False).
  { intros c' Hc' Hin. pose proof (cluster_range s c' _ Hv Hc' Hin). lia. }
  assert (Hf : forall c', has_entry s c' -> table_lba s 0 c' = table_lba s copy c -> copy = 0).
  { intros c' Hc' E. pose proof (entry_range s c' Hv Hc') as (_ & E2' & _). unfold table_lba in E. nia. }
  assert (Et : table_lba s' 0 c = table_lba s 0 c) by (unfold table_lba; by destruct Hsame as (-> & _)).
  assert (Esec : forall b, sec s' (table_lba s copy c) = b -> copy = 0 -> fatv s' c = Z.land (rd_u32 b o) 0x0FFFFFFF).
  { intros b <- ->. by rewrite fatv_table, Et. }
  assert (Enew : Z.land (rd_u32 (patch o (entry_bytes v old) buf) o) 0x0FFFFFFF = Z.land v 0x0FFFFFFF).
  { unfold rd_u32, field. rewrite patch_eq by (try done; lia). by apply le_get_entry. }
  split_and!.
  - apply (step_sector _ _ _ _ _ Hsame Hne Hoff); [|done]. intros c' Hc' E Hn. pose proof (Hf c' Hc' E) as ->.
    assert (Hp : rd_u32 (sec s' (table_lba s 0 c)) (c' * 4 mod 512) = rd_u32 buf (c' * 4 mod 512)).
    { assert (Hb : sec s' (table_lba s 0 c) = buf \/ sec s' (table_lba s 0 c) = patch o (entry_bytes v old) buf)
        by (destruct ok; [by right|by destruct Hok]).
      destruct Hb as [->| ->]; [done|].
      apply field_patch_ne; [lia|pose proof (entry_range s c' Hv Hc'); lia|lia|]. rewrite Le. change (Z.of_nat 4) with 4.
      destruct (table_inj s c' c Hc' Hc E) as [D|[D|D]]; [left; exact D|right; exact D|by subst c']. }
    assert (Et' : table_lba s' 0 c' = table_lba s 0 c') by (unfold table_lba; by destruct Hsame as (-> & _)).
    rewrite !fatv_table, Et', E, Hp. done.
  - by destruct Hsame as (_ & _ & _ & ?).
  - destruct ok; [auto|by destruct Hok].
  - intros Hk0. apply (step_sector _ _ _ _ _ Hsame Hne Hoff); [|done]. intros c' Hc' E _. by apply Hf in E.
  - intros Hk0. destruct ok.
    + by rewrite (Esec _ Hok Hk0).
    + destruct Hok as [_ [Hok|Hok]]; [left|right]; rewrite (Esec _ Hok Hk0); [|done]. subst copy. by rewrite fatv_table.
Qed.
Lemma disk_read_none s lba n :
  vol s -> 0 <= lba -> 0 < n -> lba + n <= volume_end s -> disk_read s lba n = None -> off s.
Proof.
  intros Hv Hl Hn He E. destruct (decide (off s)) as [|Ho]; [done|].
  destruct (disk_read_live s lba n Hv Ho Hl Hn He) as [b Hb]. by rewrite Hb in E.
Qed.

Lemma set_copies_spec n : forall s copy c v s' ok,
  vol s -> has_entry s c -> 0 <= v -> 0 <= copy -> copy + Z.of_nat n <= s_num_fats (geo s) ->
  set_copies n s copy (c * 4 / 512) (c * 4 mod 512) v = (s', ok) ->
  step (eq c) nowhere s s' /\ cluster_buf s' = cluster_buf s /\ ((0 < n)%nat -> if ok then ~ off s else off s') /\
  (copy <> 0 -> step nowhere nowhere s s') /\
  (copy = 0 -> (0 < n)%nat -> if ok then fatv s' c = Z.land v 0x0FFFFFFF else fatv s' c = fatv s c \/ fatv s' c = Z.land v 0x0FFFFFFF).
Proof.
  induction n as [|n IH]; intros s copy c v s' ok Hv Hc Hpos Hk Hn; cbn [set_copies].
  { intros [= <- <-]. split_and!; try done; intros; try apply step_refl; lia. }
  assert (Hk' : 0 <= copy < s_num_fats (geo s)) by lia. pose proof (table_range s copy c Hv Hc Hk') as R.
  pose proof (geo_facts s Hv) as G. rewrite uwrap_id by (unfold fits, table_lba in *; lia). fold (table_lba s copy c).
  destruct (disk_read s (table_lba s copy c) 1) as [buf|] eqn:Er.
  2:{ intros [= <- <-]. apply disk_read_none in Er; [|done|lia|lia|lia].
      split_and!; try done; intros; try apply step_refl. by left. }
  apply disk_read_sound in Er. rewrite seqZ_one in Er. cbn [map concat] in Er. rewrite app_nil_r in Er. subst buf.
  destruct (disk_write _ _ _ _) as [s1 ok1] eqn:Ew.
  destruct (write_copy s copy c v s1 ok1 Hv Hc Hpos Hk' Ew) as (W1 & W2 & W3 & W4 & W5). destruct ok1; cbn [negb].
  2:{ intros [= <- <-]. split_and!; try done. intros. by apply W5. }
  assert (Hg : geo s1 = geo s) by apply W1. pose proof (step_vol _ _ _ _ Hv W1) as Hv1.
  assert (Hc1 : has_entry s1 c) by (by apply (has_entry_geo s)).
  intros H. destruct (IH s1 (copy + 1) c v s' ok Hv1 Hc1 Hpos ltac:(lia) ltac:(rewrite Hg; lia) H) as (V1 & V2 & V3 & V4 & _).
  specialize (V4 ltac:(lia)). split_and!.
  - by apply (step_trans _ _ _ s1).
  - congruence.
  - intros _. destruct ok; [exact W3|]. destruct n; [by injection H|]. apply V3. lia.
  - intros Hne. apply (step_trans _ _ _ s1); [by apply W4|done].
  - intros -> _. rewrite (st_fat _ _ _ _ V4) by auto. specialize (W5 eq_refl). cbn in W5. destruct ok; [done|by right].
Qed.

(** Setting an entry; a failure means the device went down, before or after the entry
    reached the disk. *)
Lemma fat_set_entry_spec s c v s' ok :
  vol s -> has_entry s c -> 0 <= v -> fat_set_entry s c v = (s', ok) ->
  step (eq c) nowhere s s' /\ cluster_buf s' = cluster_buf s /\
  (if ok then ~ off s /\ fatv s' c = Z.land v 0x0FFFFFFF
   else off s' /\ (fatv s' c = fatv s c \/ fatv s' c = Z.land v 0x0FFFFFFF)).
Proof.
  intros Hv Hc Hpos. destruct (entry_range s c Hv Hc) as (E1 & E2 & E3).
  unfold fat_set_entry, SECTOR_SIZE. rewrite (vo_ready s Hv). unfold has_entry in Hc. cbn [negb orb].
  destruct (Z.ltb_spec c 1), (Z.ltb_spec (s_max_cluster (geo s)) c); try lia. cbn [orb].
  rewrite (uwrap_id 32 (c * 4)) by done. destruct (Z.leb_spec (s_fat_size_sectors (geo s)) (c * 4 / 512)); [lia|].
  pose proof (geo_facts s Hv) as G. intros Hs. destruct (set_copies_spec (Z.to_nat (s_num_fats (geo s))) s 0 c v s' ok Hv Hc Hpos ltac:(lia) ltac:(lia) Hs) as (S1 & S2 & S3 & _ & S5).
  specialize (S5 eq_refl ltac:(lia)). specialize (S3 ltac:(lia)). split; [done|]. split; [done|]. destruct ok; auto.
Qed.

(** ** Clusters *)

Lemma cluster_to_lba_eq s c : vol s -> is_cluster s c -> cluster_to_lba s c = Some (cluster_lba s c).
Proof.
  intros Hv Hc. destruct (geo_facts s Hv) as (H1 & H2 & H3 & H4 & H5 & H6 & H7 & H8 & H9 & H10 & H11).
  unfold cluster_to_lba. rewrite (proj2 (valid_cluster_iff s c) Hc). cbn [negb]. unfold is_cluster in Hc.
  assert (Hr : 0 <= (c - 2) * s_sectors_per_cluster (geo s) /\
    (c - 2) * s_sectors_per_cluster (geo s) + s_sectors_per_cluster (geo s) <= (s_max_cluster (geo s) - 1) * s_sectors_per_cluster (geo s)) by nia.
  unfold volume_end in *. assert (0 <= s_data_start_lba (geo s)) by nia.
  rewrite uwrap_id by (unfold fits; lia). rewrite uwrap_id by (unfold fits; lia).
  destruct (Z.ltb_spec (s_partition_sectors (geo s)) ((c - 2) * s_sectors_per_cluster (geo s))); [lia|].
  destruct (Z.ltb_spec (0x0FFFFFFF - (c - 2) * s_sectors_per_cluster (geo s)) (s_data_start_lba (geo s))); [lia|done].
Qed.

Lemma cluster_fits s c : vol s -> is_cluster s c ->
  0 <= cluster_lba s c /\ cluster_lba s c + s_sectors_per_cluster (geo s) <= volume_end s.
Proof.
  intros Hv Hc. destruct (geo_facts s Hv) as (H1 & H2 & H3 & H4 & H5 & H6 & H7 & H8 & H9 & H10 & H11).
  unfold cluster_lba, volume_end, is_cluster in *. nia.
Qed.

Lemma cluster_bytes_range s : vol s -> 512 <= cluster_bytes s <= 32768.
Proof. intros Hv. pose proof (geo_facts s Hv). unfold cluster_bytes, SECTOR_SIZE. lia. Qed.

Lemma length_sectors s l n : vol s -> 0 <= n -> Z.of_nat (length (concat (map (sec s) (seqZ l n)))) = n * 512.
Proof.
  intros Hv Hn. rewrite <-(Z2Nat.id n) by done. generalize (Z.to_nat n) as k. clear n Hn. intros k. revert l.
  induction k as [|k IH]; intros l; [done|]. rewrite seqZ_cons by lia. cbn [map concat]. rewrite length_app, sec_length by done.
  replace (Z.pred (Z.of_nat (S k))) with (Z.of_nat k) by lia. rewrite Nat2Z.inj_add, IH. lia.
Qed.

Lemma cdat_length s c : vol s -> Z.of_nat (length (cdat s c)) = cluster_bytes s.
Proof. intros Hv. pose proof (geo_facts s Hv). unfold cdat. by rewrite length_sectors by (done || lia). Qed.

Lemma cdat_bytes s c : bytes (cdat s c).
Proof.
  unfold cdat, bytes. apply Forall_concat. apply Forall_forall. intros l Hl.
  apply list_elem_of_In, in_map_iff in Hl as (x & <- & _). apply sec_bytes.
Qed.

(** [read_cluster] brings the cluster to the front of the buffer. *)
Lemma read_cluster_spec s c s' ok :
  vol s -> is_cluster s c -> read_cluster s c = (s', ok) ->
  disk s' = disk s /\ step nowhere nowhere s s' /\
  (if ok then take (Z.to_nat (cluster_bytes s)) (cluster_buf s') = cdat s c else off s /\ s' = s).
Proof.
  intros Hv Hc. unfold read_cluster. rewrite cluster_to_lba_eq by done. pose proof (geo_facts s Hv) as G.
  destruct (cluster_fits s c Hv Hc) as [F1 F2]. destruct (disk_read s _ _) as [bs|] eqn:E.
  - apply disk_read_sound in E. fold (cdat s c) in E. subst bs. intros [= <- <-]. pose proof (cdat_length s c Hv) as L.
    pose proof (cluster_bytes_range s Hv) as B. pose proof (vo_buf s Hv) as Lb.
    assert (Lp : length (patch 0 (cdat s c) (cluster_buf s)) = length (cluster_buf s)).
    { apply length_patch; [lia|]. rewrite Lb. unfold MAX_CLUSTER_SECTORS, SECTOR_SIZE. lia. }
    split; [done|]. split.
    + apply step_scratch; try done. intros _. apply patch_bytes; [apply cdat_bytes|apply (vo_bytes s Hv)].
    + cbn [cluster_buf set_buf]. rewrite <-L, Nat2Z.id. unfold patch. change (Z.to_nat 0) with 0%nat. rewrite take_0. exact (take_app_length (cdat s c) _).
  - intros [= <- <-]. apply disk_read_none in E; [|done|done|lia|done]. split; [done|]. split; [apply step_refl|done].
Qed.

Lemma chunk_full l n bs k : Z.of_nat (length bs) = n * 512 -> 0 <= k ->
  concat (map (fun x => chunk_at 512 l x bs) (seqZ (l + k) (n - k))) = drop (Z.to_nat (k * 512)) bs.
Proof.
  intros Hl Hk. remember (Z.to_nat (n - k)) as m eqn:Em. revert k Hk Em. induction m as [|m IH]; intros k Hk Em.
  - replace (seqZ (l + k) (n - k)) with (@nil Z) by (unfold seqZ; by rewrite <-Em). cbn. symmetry. apply drop_ge. lia.
  - rewrite seqZ_cons by lia. cbn [map concat]. replace (Z.succ (l + k)) with (l + (k + 1)) by lia.
    replace (Z.pred (n - k)) with (n - (k + 1)) by lia. rewrite IH by lia. unfold chunk_at.
    replace (l + k - l) with k by lia. change (Z.to_nat 512) with 512%nat.
    rewrite <-(take_drop 512 (drop (Z.to_nat (k * 512)) bs)) at 2. rewrite drop_drop. repeat f_equal. lia.
Qed.
Lemma drop_sectors s a n k : vol s -> 0 <= k <= n ->
  drop (Z.to_nat (k * 512)) (concat (map (sec s) (seqZ a n))) = concat (map (sec s) (seqZ (a + k) (n - k))).
Proof.
  intros Hv Hk. rewrite <-(Z2Nat.id k) by lia. assert (Hm : (Z.to_nat k <= Z.to_nat n)%nat) by lia.
  assert (Hn : n = Z.of_nat (Z.to_nat n)) by lia. rewrite Hn. revert Hm. generalize (Z.to_nat n) as m, (Z.to_nat k) as j. clear k n Hk Hn.
  intros m j. revert a m. induction j as [|j IH]; intros a m Hm.
  - change (Z.to_nat (Z.of_nat 0 * 512)) with 0%nat. rewrite drop_0. f_equal. f_equal. f_equal; lia.
  - destruct m as [|m]; [lia|]. rewrite seqZ_cons by lia. cbn [map concat].
    replace (Z.to_nat (Z.of_nat (S j) * 512)) with (512 + Z.to_nat (Z.of_nat j * 512))%nat by lia.
    rewrite <-drop_drop, drop_app_length' by (by rewrite sec_length). replace (Z.pred (Z.of_nat (S m))) with (Z.of_nat m) by lia.
    rewrite IH by lia. f_equal. f_equal. f_equal; lia.
Qed.

(** A sector of a cluster is a slice of its bytes. *)
Lemma sec_chunk s c l : vol s -> in_run (cluster_lba s c) (s_sectors_per_cluster (geo s)) l = true ->
  sec s l = chunk_at 512 (cluster_lba s c) l (cdat s c).
Proof.
  intros Hv Hl. unfold in_run in Hl. unfold chunk_at, cdat. rewrite drop_sectors by (done || lia).
  rewrite seqZ_cons by lia. cbn [map concat]. rewrite Zplus_minus. rewrite take_app_length'; [done|]. by rewrite sec_length.
Qed.

Lemma chunk_all l n bs : Z.of_nat (length bs) = n * 512 -> concat (map (fun x => chunk_at 512 l x bs) (seqZ l n)) = bs.
Proof.
  intros Hl. pose proof (chunk_full l n bs 0 Hl ltac:(lia)) as H. rewrite Z.add_0_r, Z.sub_0_r in H. rewrite H. by rewrite drop_0.
Qed.

Lemma clusters_disjoint s c c' l : is_cluster s c -> is_cluster s c' ->
  in_run (cluster_lba s c) (s_sectors_per_cluster (geo s)) l = true ->
  in_run (cluster_lba s c') (s_sectors_per_cluster (geo s)) l = true -> c = c'.
Proof. unfold in_run, cluster_lba, is_cluster. intros. nia. Qed.

(** [write_cluster] stores the front of the buffer.  When the device goes down meanwhile
    some of the sectors are on the disk; if only one of them differs, the cluster is
    either as before or as written. *)
Lemma write_cluster_spec s c s' ok :
  vol s -> is_cluster s c -> write_cluster s c = (s', ok) ->
  let new := take (Z.to_nat (cluster_bytes s)) (cluster_buf s) in
  step nowhere (eq c) s s' /\ cluster_buf s' = cluster_buf s /\
  (if ok then ~ off s /\ cdat s' c = new
   else off s' /\ forall x, (forall l, in_run (cluster_lba s c) (s_sectors_per_cluster (geo s)) l = true -> l <> x ->
            chunk_at 512 (cluster_lba s c) l new = chunk_at 512 (cluster_lba s c) l (cdat s c)) ->
          cdat s' c = cdat s c \/ cdat s' c = new).
Proof.
  intros Hv Hc. unfold write_cluster. rewrite cluster_to_lba_eq by done. cbn zeta. pose proof (geo_facts s Hv) as G.
  set (new := take _ _). set (spc := s_sectors_per_cluster (geo s)). set (lba := cluster_lba s c).
  destruct (cluster_fits s c Hv Hc) as [F1 F2]. pose proof (cluster_bytes_range s Hv) as B. pose proof (vo_buf s Hv) as Lb.
  assert (Ln : Z.of_nat (length new) = spc * 512).
  { unfold new. rewrite length_take, Lb. unfold cluster_bytes, MAX_CLUSTER_SECTORS, SECTOR_SIZE in B |- *. fold spc in B |- *. lia. }
  assert (Yn : bytes new) by (apply Forall_take, (vo_bytes s Hv)).
  intros H. destruct (disk_write_spec s lba spc new s' ok Hv F1 ltac:(lia) F2 Ln Yn H) as ((Hg & Hr & Hd & Hb) & H1 & H2).
  assert (El : forall c', cluster_lba s' c' = cluster_lba s c') by (intros c'; unfold cluster_lba; by rewrite Hg).
  assert (Hout : forall l, in_run lba spc l = false -> sec s' l = sec s l).
  { intros l Hl. destruct ok; [rewrite (proj2 (H1 eq_refl)), Hl; done|]. destruct (proj2 (H2 eq_refl) l) as [|(_ & E & _)]; [done|congruence]. }
  assert (Hof : off s -> forall l, sec s' l = sec s l).
  { intros Ho l. destruct ok; [by destruct (H1 eq_refl)|]. destruct (proj2 (H2 eq_refl) l) as [|(E & _)]; done. }
  assert (Hcd : forall c' f, (forall l, in_run (cluster_lba s c') spc l = true -> sec s' l = f l) ->
            cdat s' c' = concat (map f (seqZ (cluster_lba s c') spc))).
  { intros c' f Hf. unfold cdat. rewrite El, Hg. fold spc. f_equal. apply map_ext_in. intros l Hl. apply Hf.
    apply list_elem_of_In, elem_of_seqZ in Hl. unfold in_run. lia. }
  split; [|split; [done|]].
  - constructor; try done; try congruence.
    + intros c' Hc' _. rewrite !fatv_table. replace (table_lba s' 0 c') with (table_lba s 0 c') by (unfold table_lba; by rewrite Hg).
      rewrite Hout; [done|]. pose proof (table_range s 0 c' Hv Hc' ltac:(lia)) as R.
      destruct (in_run lba spc _) eqn:E; [|done]. pose proof (cluster_range s c _ Hv Hc E). lia.
    + intros c' Hc' Hn. apply Hcd. intros l Hl. apply Hout. destruct (in_run lba spc l) eqn:E; [|done].
      exfalso. by apply Hn, (clusters_disjoint s c c' l).
    + intros Ho. split.
      * destruct ok; [by destruct (H1 eq_refl)|by apply H2].
      * split; intros c' Hc'; [|apply Hcd; auto]. rewrite !fatv_table. unfold table_lba. by rewrite Hg, Hof.
  - destruct ok.
    + split; [by apply H1|]. rewrite (Hcd c (fun l => chunk_at 512 lba l new)); [by apply chunk_all|]. intros l Hl. rewrite (proj2 (H1 eq_refl)). fold lba in Hl. by rewrite Hl.
    + split; [by apply H2|]. intros x Hx.
      assert (Hsame : forall l, in_run lba spc l = true -> l <> x -> sec s' l = sec s l /\ sec s l = chunk_at 512 lba l new).
      { intros l Hl Hne. assert (E : sec s l = chunk_at 512 lba l new) by (rewrite Hx by done; by apply sec_chunk).
        split; [|done]. destruct (proj2 (H2 eq_refl) l) as [|(_ & _ & ->)]; done. }
      destruct (proj2 (H2 eq_refl) x) as [E|(_ & Ei & E)].
      * left. apply (Hcd c). intros l Hl. destruct (decide (l = x)) as [->|Hne]; [done|by apply Hsame].
      * right. rewrite (Hcd c (fun l => chunk_at 512 lba l new)); [by apply chunk_all|].
        intros l Hl. destruct (decide (l = x)) as [->|Hne]; [done|]. destruct (Hsame l Hl Hne). congruence.
Qed.
End View.
