(* ===== verification/FatChain.v ===== *)
(** Cluster chains of a FAT32 volume: walking, allocating and freeing them. *)
From S2P Require Import Prelude Pmm Block Gpt Fat32 FatView.

Section Chain.
Context {W : Type} `{BL : BlockLaws W}.
Implicit Types s : fat32 W.

(** Entries that name clusters in use, each leading to the next and the last nowhere. *)
Fixpoint is_chain s (p : list Z) : Prop :=
  match p with
  | [] => True
  | c :: p' => is_cluster s c /\ fatv s c <> 0 /\ next_of s (fatv s c) = hd 0 p' /\ is_chain s p'
  end.

(** The chain from cluster [c]. *)
Record chain_at s (c : Z) (p : list Z) : Prop := ChainAt {
  ca_chain : is_chain s p; ca_nodup : NoDup p; ca_head : hd 0 p = c; ca_some : p <> []
}.

Lemma is_chain_elem s p c : is_chain s p -> c ∈ p -> is_cluster s c /\ fatv s c <> 0.
Proof.
  induction p as [|x p IH]; cbn [is_chain]; [by intros _ ?%not_elem_of_nil|]. intros (H1 & H2 & _ & H3) [->|Hc]%elem_of_cons; auto.
Qed.

Lemma next_of_geo s s' v : geo s' = geo s -> next_of s' v = next_of s v.
Proof. unfold next_of. by intros ->. Qed.

Lemma is_chain_ext s s' p : geo s' = geo s -> (forall c, c ∈ p -> fatv s' c = fatv s c) -> is_chain s p -> is_chain s' p.
Proof.
  intros Hg. induction p as [|c p IH]; intros Hf; cbn [is_chain]; [done|]. intros (H1 & H2 & H3 & H4).
  rewrite Hf by apply list_elem_of_here. split; [by apply (is_cluster_geo s)|]. split; [done|]. split; [by rewrite (next_of_geo s)|].
  apply IH; [|done]. intros x Hx. apply Hf. by apply list_elem_of_further.
Qed.

Lemma is_cluster_entry s c : is_cluster s c -> has_entry s c.
Proof. unfold is_cluster, has_entry. lia. Qed.

Lemma clusters_bound s p : NoDup p -> (forall c, c ∈ p -> is_cluster s c) -> (length p <= Z.to_nat (s_max_cluster (geo s) - 1))%nat.
Proof.
  intros Hn Hc. assert (Hin : p ⊆ seqZ 2 (s_max_cluster (geo s) - 1)).
  { intros c H. apply elem_of_seqZ. specialize (Hc c H). unfold is_cluster in Hc. lia. }
  pose proof (submseteq_length _ _ (NoDup_submseteq _ _ Hn Hin)) as H. by rewrite length_seqZ in H.
Qed.

Lemma chain_bound s p : is_chain s p -> NoDup p -> p <> [] -> (length p < chain_fuel s)%nat.
Proof.
  intros Hc Hn Hne. pose proof (clusters_bound s p Hn (fun c H => proj1 (is_chain_elem s p c Hc H))) as H. unfold chain_fuel.
  destruct p as [|x p]; [done|destruct Hc as [Hx _]; unfold is_cluster in Hx]. cbn [length] in *. lia.
Qed.

(** ** Finding a free cluster *)

Lemma free_in_sector_spec s idx : vol s -> 0 <= idx < s_fat_size_sectors (geo s) ->
  match free_in_sector s (sec s (s_fat_start_lba (geo s) + idx)) idx with
  | Some e => let c := u32 (idx * 128 + e) in is_cluster s c /\ fatv s c = 0
  | None => forall c, is_cluster s c -> c / 128 = idx -> fatv s c <> 0
  end.
Proof.
  intros Hv Hi. destruct (geo_facts s Hv) as (H1 & H2 & H3 & H4 & H5 & H6 & H7 & H8 & H9 & H10 & H11).
  assert (Hval : forall c, c / 128 = idx -> fatv s c = Z.land (rd_u32 (sec s (s_fat_start_lba (geo s) + idx)) (c mod 128 * 4)) 0x0FFFFFFF).
  { intros c Hc. unfold fatv. replace (c * 4 / 512) with idx by (Z.to_euclidean_division_equations; lia).
    by replace (c * 4 mod 512) with (c mod 128 * 4) by (Z.to_euclidean_division_equations; lia). }
  unfold free_in_sector. set (p := fun e => _). destruct (find_z p 0 128) as [e|] eqn:E.
  - apply find_z_Some in E as (He & Hp & _). cbn zeta. change (Z.of_nat 128) with 128 in He.
    assert (Eu : u32 (idx * 128 + e) = idx * 128 + e) by (apply uwrap_id; unfold fits; lia). rewrite Eu.
    unfold p in Hp. cbn zeta in Hp. rewrite Eu in Hp. apply andb_true_iff in Hp as [Hp1 Hp2].
    split; [unfold is_cluster; lia|]. rewrite Hval by (Z.to_euclidean_division_equations; lia).
    replace ((idx * 128 + e) mod 128) with e by (Z.to_euclidean_division_equations; lia). lia.
  - intros c Hc Hd Hz. pose proof (find_z_None p 128 0 E (c mod 128) ltac:(change (Z.of_nat 128) with 128; Z.to_euclidean_division_equations; lia)) as Hp.
    unfold p in Hp. cbn zeta in Hp. replace (idx * 128 + c mod 128) with c in Hp by (Z.to_euclidean_division_equations; lia).
    unfold is_cluster in Hc. assert (s_max_cluster (geo s) < 2 ^ 32) by lia. rewrite uwrap_id in Hp by (unfold fits; lia).
    rewrite Hval in Hz by done. rewrite Hz in Hp. lia.
Qed.

Lemma scan_free_spec n : forall s idx, vol s -> 0 <= idx -> idx + Z.of_nat n = s_fat_size_sectors (geo s) ->
  let c := scan_free n s idx in
  (c = 0 \/ is_cluster s c /\ fatv s c = 0) /\
  (c = 0 -> off s \/ forall c', is_cluster s c' -> idx <= c' / 128 -> fatv s c' <> 0).
Proof.
  induction n as [|n IH]; intros s idx Hv Hi Hn; cbn [scan_free]; cbn zeta.
  { split; [by left|]. intros _. right. intros c Hc Hd. destruct (geo_facts s Hv) as (_ & _ & _ & _ & H5 & _).
    unfold is_cluster in Hc. Z.to_euclidean_division_equations. lia. }
  destruct (geo_facts s Hv) as (H1 & H2 & H3 & H4 & H5 & H6 & H7 & H8 & H9 & H10 & H11).
  assert (Hend : s_fat_start_lba (geo s) + s_fat_size_sectors (geo s) <= s_data_start_lba (geo s)) by nia.
  rewrite uwrap_id by (unfold fits; lia).
  destruct (disk_read s (s_fat_start_lba (geo s) + idx) 1) as [buf|] eqn:E.
  2:{ apply disk_read_none in E; [|done|lia|lia|lia]. split; [by left|]. intros _. by left. }
  apply disk_read_sound in E. rewrite seqZ_one in E. cbn [map concat] in E. rewrite app_nil_r in E. subst buf.
  pose proof (free_in_sector_spec s idx Hv ltac:(lia)) as H. destruct (free_in_sector _ _ _) as [e|].
  - cbn zeta in H. split; [by right|]. intros Hz. destruct H as [H _]. unfold is_cluster in H. lia.
  - destruct (IH s (idx + 1) Hv ltac:(lia) ltac:(lia)) as [I1 I2]. split; [done|]. intros Hz. destruct (I2 Hz) as [|I3]; [by left|right].
    intros c Hc Hd. destruct (decide (c / 128 = idx)); [by apply H|]. apply I3; [done|lia].
Qed.

(** The search finds a free cluster if there is one. *)
Lemma find_free_cluster_spec s : vol s ->
  let c := find_free_cluster s in
  (c = 0 \/ is_cluster s c /\ fatv s c = 0) /\
  (c = 0 -> off s \/ forall c', is_cluster s c' -> fatv s c' <> 0).
Proof.
  intros Hv. unfold find_free_cluster. rewrite (vo_ready s Hv). pose proof (geo_facts s Hv) as G.
  destruct (scan_free_spec (Z.to_nat (s_fat_size_sectors (geo s))) s 0 Hv ltac:(lia) ltac:(lia)) as [H1 H2].
  split; [done|]. intros Hz. destruct (H2 Hz) as [|H3]; [by left|right]. intros c Hc. apply H3; [done|].
  unfold is_cluster in Hc. Z.to_euclidean_division_equations. lia.
Qed.

(** ** Freeing *)

(** Freeing a chain clears the entries of its clusters; a failure means the device went
    down on the way. *)
Lemma free_chain_loop_spec p : forall fuel s c n s' r,
  vol s -> chain_at s c p -> (length p <= fuel)%nat -> free_chain_loop fuel s c n = (s', r) ->
  step (fun x => x ∈ p) nowhere s s' /\ cluster_buf s' = cluster_buf s /\
  match r with
  | Some k => k = u32 (n + Z.of_nat (length p)) \/ (p = [] /\ k = n)
  | None => off s'
  end /\ (is_Some r -> forall x, x ∈ p -> fatv s' x = 0).
Proof.
  induction p as [|x p IH]; intros fuel s c n s' r Hv [Hc Hn Hh Hne] Hf; [done|].
  cbn [hd] in Hh. subst x. destruct Hc as (Hcl & Hnz & Hnext & Hrest). destruct fuel as [|fuel]; [cbn in Hf; lia|]. cbn [free_chain_loop].
  assert (Hc2 : 2 <= c) by (unfold is_cluster in Hcl; lia).
  destruct (Z.eqb_spec c 0); [lia|]. destruct (fat_set_entry s c 0) as [s1 ok] eqn:Es.
  destruct (fat_set_entry_spec s c 0 s1 ok Hv (is_cluster_entry s c Hcl) ltac:(lia) Es) as (S1 & B1 & O1).
  apply NoDup_cons in Hn as [Hcp Hn].
  assert (S1' : step (fun x => x ∈ c :: p) nowhere s s1).
  { apply (step_weaken (eq c) nowhere); [|done|done]. intros ? <-. apply list_elem_of_here. }
  destruct ok; cbn [negb].
  2:{ intros [= <- <-]. destruct O1. by split_and!. }
  destruct O1 as [Hon Hz]. change (Z.land 0 0x0FFFFFFF) with 0 in Hz. rewrite (fat_next_live s c Hv Hcl Hon), Hnext.
  assert (Hu : forall a, u32 (u32 (n + 1) + a) = u32 (n + (1 + a))) by (intros a; unfold uwrap; rewrite Zplus_mod_idemp_l; f_equal; lia).
  assert (Hrest1 : is_chain s1 p).
  { apply (is_chain_ext s); [apply S1| |done]. intros y Hy. apply S1; [|by intros ->].
    apply is_cluster_entry, (is_chain_elem s p y Hrest Hy). }
  destruct p as [|d p]; cbn [hd].
  - intros [= <- <-]. split_and!; try done; [by left|]. intros _ y ->%list_elem_of_singleton. done.
  - assert (Hd : is_cluster s d) by apply Hrest. destruct (Z.eqb_spec d 0); [unfold is_cluster in Hd; lia|].
    intros H. destruct (IH fuel s1 d (u32 (n + 1)) s' r (step_vol _ _ _ _ Hv S1) ltac:(by constructor) ltac:(cbn in Hf |- *; lia) H) as (S2 & B2 & K2 & Z2).
    assert (S2' : step (fun x => x ∈ c :: d :: p) nowhere s1 s').
    { apply (step_weaken (fun x => x ∈ d :: p) nowhere); [|done|done]. intros y Hy. by apply list_elem_of_further. }
    split; [by apply (step_trans _ _ _ s1)|]. split; [congruence|]. split.
    + destruct r as [k|]; [|done]. destruct K2 as [->|[? _]]; [|done]. left. rewrite Hu. f_equal. cbn [length]. lia.
    + intros Hr y [->|Hy]%elem_of_cons; [|by apply Z2].
      rewrite (st_fat _ _ _ _ S2); [done| |done]. apply (has_entry_geo s); [apply S1|by apply is_cluster_entry].
Qed.

Lemma fat_free_chain_spec s c p s' r : vol s -> chain_at s c p -> fat_free_chain s c = (s', r) ->
  step (fun x => x ∈ p) nowhere s s' /\ cluster_buf s' = cluster_buf s /\
  match r with
  | Some k => k = u32 (Z.of_nat (length p)) /\ forall x, x ∈ p -> fatv s' x = 0
  | None => off s'
  end.
Proof.
  intros Hv Hc. unfold fat_free_chain. pose proof Hc as [Hch Hn Hh Hne].
  assert (Hcl : is_cluster s c) by (destruct p; [done|]; subst c; apply Hch).
  rewrite (proj2 (valid_cluster_iff s c) Hcl). cbn [negb]. intros H. pose proof (chain_bound s p Hch Hn Hne).
  destruct (free_chain_loop_spec p (chain_fuel s) s c 0 s' r Hv Hc ltac:(lia) H) as (H1 & H2 & H3 & H4).
  split; [done|]. split; [done|]. destruct r as [k|]; [|done]. split; [|by apply H4]. by destruct H3 as [->|[? _]].
Qed.
(** ** Allocating *)

Lemma max_small s : vol s -> s_max_cluster (geo s) < FAT32_BAD_CLUSTER.
Proof.
  intros Hv. destruct (geo_facts s Hv) as (H1 & H2 & H3 & H4 & H5 & H6 & H7 & H8 & H9 & H10 & H11). unfold FAT32_BAD_CLUSTER, volume_end in *.
  assert (s_fat_size_sectors (geo s) <= s_num_fats (geo s) * s_fat_size_sectors (geo s)) by nia.
  assert (s_max_cluster (geo s) - 1 <= (s_max_cluster (geo s) - 1) * s_sectors_per_cluster (geo s)) by nia. lia.
Qed.

(** A link to a cluster, and the end mark, as stored. *)
Lemma link_value s c : vol s -> is_cluster s c -> Z.land c 0x0FFFFFFF = c /\ next_of s c = c.
Proof.
  intros Hv Hc. pose proof (max_small s Hv) as Hm. unfold is_cluster, FAT32_BAD_CLUSTER in *.
  change 0x0FFFFFFF with (2 ^ 28 - 1). rewrite land_ones_mod, Z.mod_small by lia. split; [done|]. unfold next_of, FAT32_EOC, FAT32_BAD_CLUSTER.
  destruct (Z.leb_spec 0x0FFFFFF8 c), (Z.eqb_spec c 0x0FFFFFF7), (Z.ltb_spec c 2), (Z.ltb_spec (s_max_cluster (geo s)) c); try lia. done.
Qed.

Lemma is_chain_snoc s s' p c :
  geo s' = geo s -> is_chain s p -> NoDup p -> is_cluster s c -> vol s ->
  (forall x, x ∈ p -> last p <> Some x -> fatv s' x = fatv s x) -> (forall x, last p = Some x -> fatv s' x = c) ->
  fatv s' c <> 0 -> next_of s (fatv s' c) = 0 -> is_chain s' (p ++ [c]).
Proof.
  intros Hg Hch Hn Hc Hv. destruct (link_value s c Hv Hc) as [_ Hlink].
  induction p as [|x p IH]; intros Hsame Hlast Hnz Hend; cbn [app is_chain].
  { split; [by apply (is_cluster_geo s)|]. split; [done|]. split; [|done]. by rewrite (next_of_geo s). }
  apply NoDup_cons in Hn as [Hxp Hn]. destruct Hch as (H1 & H2 & H3 & H4).
  split; [by apply (is_cluster_geo s)|]. rewrite (next_of_geo s) by done. destruct p as [|y p].
  - rewrite (Hlast x) by done. cbn [app hd]. split; [unfold is_cluster in Hc; lia|]. split; [done|].
    apply IH; try done. intros z Hz. by apply not_elem_of_nil in Hz.
  - assert (Hx : last (x :: y :: p) <> Some x).
    { intros E. apply Hxp. change (last (y :: p) = Some x) in E. by apply last_Some_elem_of in E. }
    rewrite Hsame by (apply list_elem_of_here || done). split; [done|]. split; [done|]. apply IH; auto.
    intros z Hz Hz2. apply Hsame; [by apply list_elem_of_further|done].
Qed.

Lemma release_all_spec al : forall s, vol s -> (forall c, c ∈ al -> is_cluster s c) ->
  step (fun c => c ∈ al) nowhere s (release_all s al).
Proof.
  induction al as [|c al IH]; intros s Hv Hc; cbn [release_all]; [apply step_refl|].
  destruct (fat_set_entry s c 0) as [s1 ok] eqn:E. cbn [fst].
  destruct (fat_set_entry_spec s c 0 s1 ok Hv (is_cluster_entry s c (Hc c (list_elem_of_here _ _))) ltac:(lia) E) as (S1 & _).
  apply (step_trans _ _ _ s1).
  - apply (step_weaken (eq c) nowhere); [|done|done]. intros ? <-. apply list_elem_of_here.
  - apply (step_weaken (fun x => x ∈ al) nowhere); [intros; by apply list_elem_of_further|done|]. apply IH; [by apply (step_vol _ _ _ _ Hv S1)|].
    intros x Hx. apply (is_cluster_geo s); [apply S1|]. by apply Hc, list_elem_of_further.
Qed.

(** Block [k] of a file, filled up with zeros. *)
Definition block_of s (data : list Z) (k : nat) : list Z :=
  let d := take (Z.to_nat (cluster_bytes s)) (drop (k * Z.to_nat (cluster_bytes s)) data) in
  d ++ replicate (Z.to_nat (cluster_bytes s) - length d) 0.

(** The clusters allocated so far: a chain of formerly free clusters holding the first
    blocks of the data. *)
Record allocated_ok s0 s (data al : list Z) : Prop := AllocatedOk {
  ao_vol : vol s;
  ao_step : step (fun c => c ∈ al) (fun c => c ∈ al) s0 s;
  ao_chain : is_chain s al;
  ao_nodup : NoDup al;
  ao_free c : c ∈ al -> fatv s0 c = 0;
  ao_data k c : al !! k = Some c -> cdat s c = block_of s0 data k
}.

Definition free_in s0 (c : Z) : Prop := fatv s0 c = 0.

(** One more cluster. *)
Lemma allocate_step s0 s data al c s1 s2 s3 ok1 ok2 ok3 :
  bytes data -> allocated_ok s0 s data al -> is_cluster s c -> fatv s c = 0 ->
  fat_set_entry s c FAT32_EOC = (s1, ok1) ->
  match last al with Some prev => fat_set_entry s1 prev c | None => (s1, true) end = (s2, ok2) ->
  let d := take (Z.to_nat (cluster_bytes s2)) (drop (length al * Z.to_nat (cluster_bytes s)) data) in
  write_cluster (set_buf (patch 0 (d ++ replicate (Z.to_nat (cluster_bytes s2) - length d) 0) (cluster_buf s2)) s2) c = (s3, ok3) ->
  let al' := al ++ [c] in
  vol s1 /\ vol s2 /\ vol s3 /\
  step (fun c => c ∈ al') (fun c => c ∈ al') s0 s1 /\ step (fun c => c ∈ al') (fun c => c ∈ al') s0 s2 /\
  step (fun c => c ∈ al') (fun c => c ∈ al') s0 s3 /\
  (forall x, x ∈ al' -> fatv s0 x = 0 /\ is_cluster s0 x) /\
  (ok1 = false -> off s1) /\ (ok2 = false -> off s2) /\ (ok3 = false -> off s3) /\
  (ok1 = true -> ok2 = true -> ok3 = true -> allocated_ok s0 s3 data al').
Proof.
  intros Hy [Hv Hst Hch Hnd Hfr Hda] Hc Hz E1 E2 d E3 al'.
  assert (Hcal : c ∉ al) by (intros H; by apply (is_chain_elem s al c Hch H)).
  assert (Hg : geo s = geo s0) by apply Hst.
  destruct (fat_set_entry_spec s c FAT32_EOC s1 ok1 Hv (is_cluster_entry s c Hc) ltac:(unfold FAT32_EOC; lia) E1) as (S1 & _ & O1).
  pose proof (step_vol _ _ _ _ Hv S1) as Hv1. assert (Hg1 : geo s1 = geo s) by apply S1.
  assert (S2 : step (fun x => last al = Some x) nowhere s1 s2 /\
    (if ok2 then forall x, last al = Some x -> fatv s2 x = c else off s2)).
  { destruct (last al) as [prev|] eqn:El; [|injection E2 as <- <-; split; [apply step_refl|done]].
    assert (Hp : is_cluster s1 prev).
    { apply (is_cluster_geo s); [done|]. by apply (is_chain_elem s al), last_Some_elem_of. }
    destruct (fat_set_entry_spec s1 prev c s2 ok2 Hv1 (is_cluster_entry s1 prev Hp) ltac:(unfold is_cluster in Hc; lia) E2) as (S & _ & O).
    split; [apply (step_weaken (eq prev) nowhere); [by intros ? <-|done|done]|]. destruct ok2; [|apply O].
    intros x [= <-]. rewrite (proj2 O). by apply (link_value s). }
  destruct S2 as [S2 O2]. pose proof (step_vol _ _ _ _ Hv1 S2) as Hv2. assert (Hg2 : geo s2 = geo s1) by apply S2.
  set (buf := patch 0 _ _) in E3. assert (Hcb : cluster_bytes s2 = cluster_bytes s) by (unfold cluster_bytes; congruence).
  pose proof (cluster_bytes_range s2 Hv2) as Hr. pose proof (vo_buf s2 Hv2) as Lb.
  assert (Ld : length (d ++ replicate (Z.to_nat (cluster_bytes s2) - length d) 0) = Z.to_nat (cluster_bytes s2)).
  { rewrite length_app, length_replicate. unfold d. rewrite length_take. lia. }
  assert (Lp : length buf = length (cluster_buf s2)).
  { apply length_patch; [lia|]. rewrite Ld, Lb. unfold MAX_CLUSTER_SECTORS, SECTOR_SIZE. lia. }
  assert (Sb : step nowhere nowhere s2 (set_buf buf s2)).
  { apply step_scratch; try done. intros Hb. apply patch_bytes; [|done]. apply Forall_app. split; [by apply Forall_take, Forall_drop|].
    apply Forall_replicate. lia. }
  pose proof (step_vol _ _ _ _ Hv2 Sb) as Hvb.
  assert (Hcb2 : is_cluster (set_buf buf s2) c) by (apply (is_cluster_geo s); [cbn; congruence|done]).
  destruct (write_cluster_spec _ c s3 ok3 Hvb Hcb2 E3) as (S3 & _ & O3). cbn [cluster_buf set_buf] in O3.
  pose proof (step_vol _ _ _ _ Hvb S3) as Hv3.
  assert (Sal : step (fun x => x ∈ al') (fun x => x ∈ al') s0 s).
  { eapply step_weaken, Hst; intros x Hx; apply elem_of_app; by left. }
  assert (T1 : step (fun x => x ∈ al') (fun x => x ∈ al') s0 s1).
  { apply (step_trans _ _ _ s); [done|]. apply (step_weaken (eq c) nowhere); [|done|done]. intros ? <-. apply elem_of_app. right. apply list_elem_of_here. }
  assert (T2 : step (fun x => x ∈ al') (fun x => x ∈ al') s0 s2).
  { apply (step_trans _ _ _ s1); [done|]. apply (step_weaken (fun x => last al = Some x) nowhere); [|done|done].
    intros x Hx. apply elem_of_app. left. by apply last_Some_elem_of. }
  assert (T3 : step (fun x => x ∈ al') (fun x => x ∈ al') s0 s3).
  { apply (step_trans _ _ _ s2); [done|]. apply (step_trans _ _ _ (set_buf buf s2)).
    - by apply (step_weaken nowhere nowhere).
    - apply (step_weaken nowhere (eq c)); [done| |done]. intros ? <-. apply elem_of_app. right. apply list_elem_of_here. }
  assert (Hfree : fatv s0 c = 0).
  { rewrite <-(st_fat _ _ _ _ Hst); [done| |done]. apply (has_entry_geo s); [done|by apply is_cluster_entry]. }
  assert (Hal' : forall x, x ∈ al' -> fatv s0 x = 0 /\ is_cluster s0 x).
  { intros x [Hx|Hx%list_elem_of_singleton]%elem_of_app.
    - split; [by apply Hfr|]. apply (is_cluster_geo s); [by rewrite Hg|]. by apply (is_chain_elem s al).
    - subst x. split; [done|]. apply (is_cluster_geo s); [by rewrite Hg|done]. }
  split_and!; try done; try (intros ->; by (apply O1 || apply O2 || apply O3)).
  intros -> -> ->. destruct O1 as [_ O1]. destruct O3 as [_ O3].
  assert (E23 : forall x, has_entry s x -> fatv s3 x = fatv s2 x).
  { intros x Hx. assert (Hx2 : has_entry s2 x) by (apply (has_entry_geo s); [congruence|done]).
    rewrite (st_fat _ _ _ _ S3), (st_fat _ _ _ _ Sb); auto. }
  assert (Ec : fatv s3 c = FAT32_EOC).
  { rewrite E23 by by apply is_cluster_entry. rewrite (st_fat _ _ _ _ S2); [done| |].
    - apply (has_entry_geo s); [done|by apply is_cluster_entry].
    - intros Hl. by apply Hcal, last_Some_elem_of. }
  constructor; try done.
  - apply (is_chain_snoc s); try done; [apply (eq_trans (st_geo _ _ _ _ T3)); by rewrite Hg| | | |].
    + intros x Hx Hl. assert (Hxe : has_entry s x) by (apply is_cluster_entry, (is_chain_elem s al x Hch Hx)).
      rewrite E23 by done. rewrite (st_fat _ _ _ _ S2); [|by apply (has_entry_geo s)|done].
      rewrite (st_fat _ _ _ _ S1); [done|done|]. intros ->. done.
    + intros x Hl. assert (Hx : x ∈ al) by by apply last_Some_elem_of.
      rewrite E23 by apply is_cluster_entry, (is_chain_elem s al x Hch Hx). by apply O2.
    + by rewrite Ec.
    + by rewrite Ec.
  - apply NoDup_app. split; [done|]. split; [|apply NoDup_singleton]. intros x Hx ->%list_elem_of_singleton. done.
  - intros x Hx. by apply Hal'.
  - intros k x [Hk|[Hk Hx]]%lookup_app_Some.
    + rewrite <-(Hda k x Hk). assert (Hx : x ∈ al) by by apply list_elem_of_lookup_2 in Hk.
      assert (Hxc : is_cluster s x) by apply (is_chain_elem s al x Hch Hx).
      rewrite (st_dat _ _ _ _ S3), (st_dat _ _ _ _ Sb), (st_dat _ _ _ _ S2), (st_dat _ _ _ _ S1); auto;
        try (apply (is_cluster_geo s); [cbn; congruence|done]). all: intros ->; done.
    + apply list_lookup_singleton_Some in Hx as [Hk0 ->]. rewrite O3. unfold cluster_bytes at 1. cbn [geo set_buf]. fold (cluster_bytes s2).
      unfold buf, patch. change (Z.to_nat 0) with 0%nat. rewrite take_0. cbn [app]. rewrite take_app_length' by done.
      unfold block_of. unfold d. replace k with (length al) by lia. rewrite Hcb. unfold cluster_bytes. by rewrite <-Hg.
Qed.
(** Giving everything back after a failure touches only what was free. *)
Lemma release_step s0 s al :
  vol s -> (forall c, c ∈ al -> fatv s0 c = 0 /\ is_cluster s0 c) -> step (fun c => c ∈ al) (fun c => c ∈ al) s0 s ->
  step (free_in s0) (free_in s0) s0 (release_all s al) /\ (off s -> off (release_all s al)).
Proof.
  intros Hv Hal Hst. assert (S : step (fun c => c ∈ al) nowhere s (release_all s al)).
  { apply release_all_spec; [done|]. intros c Hc. apply (is_cluster_geo s0); [apply Hst|by apply Hal]. }
  split; [|intros Ho; by apply (step_down _ _ _ _ Ho S)].
  apply (step_trans _ _ _ s); [eapply step_weaken, Hst|eapply step_weaken, S]; try done; intros c Hc; by apply Hal.
Qed.

(** Why an allocation of [n] clusters failed. *)
Definition no_room s0 (n : nat) : Prop :=
  exists al : list Z, (length al < n)%nat /\ forall c, is_cluster s0 c -> free_in s0 c -> c ∈ al.

Lemma allocate_loop_spec s0 data : bytes data -> forall n s al s' r,
  allocated_ok s0 s data al -> (length al + n <= 256)%nat ->
  allocate_loop n s (drop (length al * Z.to_nat (cluster_bytes s)) data) al = (s', r) ->
  match r with
  | Some cs => allocated_ok s0 s' data cs /\ length cs = (length al + n)%nat
  | None => step (free_in s0) (free_in s0) s0 s' /\ (off s' \/ no_room s0 (length al + n))
  end.
Proof.
  intros Hy. induction n as [|n IH]; intros s al s' r Ha Hl; cbn [allocate_loop].
  { intros [= <- <-]. split; [done|lia]. }
  pose proof Ha as [Hv Hst Hch _ Hfr _]. assert (Hg : geo s = geo s0) by apply Hst.
  assert (Hal : forall c, c ∈ al -> fatv s0 c = 0 /\ is_cluster s0 c).
  { intros c Hc. split; [by apply Hfr|]. apply (is_cluster_geo s); [done|]. by apply (is_chain_elem s al). }
  destruct (find_free_cluster_spec s Hv) as [F1 F2]. set (c := find_free_cluster s) in *.
  destruct (Z.leb_spec 256 (Z.of_nat (length al))); [lia|]. rewrite orb_false_r. destruct (Z.eqb_spec c 0) as [E0|E0].
  { intros [= <- <-]. destruct (release_step s0 s al Hv Hal Hst) as [R1 R2]. split; [done|].
    destruct (F2 E0) as [Ho|Hno]; [left; by apply R2|right]. exists al. split; [lia|]. intros x Hx Hf.
    destruct (decide (x ∈ al)) as [|Hn]; [done|]. exfalso. apply (Hno x); [by apply (is_cluster_geo s0)|].
    rewrite (st_fat _ _ _ _ Hst); [done|by apply is_cluster_entry|done]. }
  destruct F1 as [?|[Fc Fz]]; [done|].
  destruct (fat_set_entry s c FAT32_EOC) as [s1 ok1] eqn:E1.
  destruct (match last al with Some prev => fat_set_entry s1 prev c | None => (s1, true) end) as [s2 ok2] eqn:E2.
  match goal with |- context [write_cluster ?x c] => destruct (write_cluster x c) as [s3 ok3] eqn:E3 end.
  destruct (allocate_step s0 s data al c s1 s2 s3 ok1 ok2 ok3 Hy Ha Fc Fz E1 E2 E3)
    as (V1 & V2 & V3 & T1 & T2 & T3 & Hal' & O1 & O2 & O3 & Hok).
  assert (Fail : forall sx : fat32 W, vol sx -> step (fun c0 => c0 ∈ al ++ [c]) (fun c0 => c0 ∈ al ++ [c]) s0 sx -> off sx ->
    step (free_in s0) (free_in s0) s0 (release_all sx (al ++ [c])) /\
    (off (release_all sx (al ++ [c])) \/ no_room s0 (length al + S n))).
  { intros sx Vx Tx Ox. destruct (release_step s0 sx _ Vx Hal' Tx) as [R1 R2]. split; [done|left; by apply R2]. }
  destruct ok1; cbn [negb]; [|intros [= <- <-]; by apply Fail; auto].
  destruct ok2; cbn [negb]; [|intros [= <- <-]; by apply Fail; auto].
  destruct ok3; cbn [negb]; [|intros [= <- <-]; by apply Fail; auto].
  specialize (Hok eq_refl eq_refl eq_refl).
  assert (Hcb : cluster_bytes s3 = cluster_bytes s) by (unfold cluster_bytes; by rewrite (st_geo _ _ _ _ T3), Hg).
  rewrite drop_drop. intros HA. specialize (IH s3 (al ++ [c]) s' r Hok). rewrite length_app in IH. cbn [length] in IH.
  replace (length al + 1 + n)%nat with (length al + S n)%nat in IH by lia. apply IH; [lia|].
  rewrite <-HA, Hcb. f_equal. f_equal. lia.
Qed.

(** The clusters a file of [size] bytes takes. *)
Definition clusters_for s (size : Z) : Z :=
  let n := u32 (size + cluster_bytes s - 1) / cluster_bytes s in if n =? 0 then 1 else n.

(** Allocation: a chain of free clusters holding the data, or nothing but free clusters
    was touched and there is a reason. *)
Lemma allocate_file_chain_spec s data s' r : vol s -> bytes data -> allocate_file_chain s data = (s', r) ->
  let need := clusters_for s (Z.of_nat (length data)) in
  match r with
  | Some cs => allocated_ok s s' data cs /\ Z.of_nat (length cs) = need /\ need <= 256
  | None => step (free_in s) (free_in s) s s' /\ (256 < need \/ off s' \/ no_room s (Z.to_nat need))
  end.
Proof.
  intros Hv Hy. unfold allocate_file_chain. cbn zeta. fold (clusters_for s (Z.of_nat (length data))).
  set (need := clusters_for _ _). assert (Hn : 1 <= need).
  { unfold need, clusters_for. pose proof (cluster_bytes_range s Hv).
    assert (0 <= u32 (Z.of_nat (length data) + cluster_bytes s - 1) / cluster_bytes s).
    { apply Z.div_pos; [|lia]. apply Z.mod_pos_bound. done. }
    destruct (Z.eqb_spec (u32 (Z.of_nat (length data) + cluster_bytes s - 1) / cluster_bytes s) 0); lia. }
  destruct (Z.ltb_spec 256 need) as [|Hle].
  { intros [= <- <-]. split; [apply step_refl|by left]. }
  intros H. assert (Ha : allocated_ok s s data []).
  { constructor; try done; try apply step_refl; try apply NoDup_nil_2. intros c Hc. by apply not_elem_of_nil in Hc. }
  pose proof (allocate_loop_spec s data Hy (Z.to_nat need) s [] s' r Ha) as HL. cbn [length] in HL.
  rewrite Nat.mul_0_l, drop_0 in HL. specialize (HL ltac:(lia) H). cbn [Nat.add] in HL.
  destruct r as [cs|]; [split; [apply HL|lia]|split; [apply HL|right; apply HL]].
Qed.
End Chain.
