(* ===== verification/FatDir.v ===== *)
(** Directories of a FAT32 volume: the list of entries a chain of clusters holds, looking
    up a name in it, finding a free slot and replacing one entry. *)
From S2P Require Import Prelude Pmm Block Gpt Fat32 FatView FatChain.

(** ** Lists of entries

    An entry is its position, a cluster and an index in it, with its 32 bytes. *)
Definition dentry : Type := (Z * Z) * list Z.

Definition ends (e : dentry) : bool := at_z 0 (snd e) 0 =? 0.
Definition vacant (e : dentry) : bool := ends e || (at_z 0 (snd e) 0 =? 0xE5).
Definition named (name : list Z) (e : dentry) : bool :=
  negb (at_z 0 (snd e) 0 =? 0xE5) && negb (raw_skipped (snd e)) && bool_decide (take 11 (snd e) = name).

(** The entry a name stands for: the first one, if the directory does not end before. *)
Fixpoint dfind (name : list Z) (l : list dentry) : option dentry :=
  match l with
  | [] => None
  | e :: l => if ends e then None else if named name e then Some e else dfind name l
  end.

(** The first slot that can be taken. *)
Fixpoint dslot (l : list dentry) : option dentry :=
  match l with [] => None | e :: l => if vacant e then Some e else dslot l end.

Definition dset (pos : Z * Z) (raw : list Z) (l : list dentry) : list dentry :=
  map (fun e => if bool_decide (fst e = pos) then (pos, raw) else e) l.

(** Nothing but end marks after an end mark. *)
Fixpoint clean (l : list dentry) : Prop :=
  match l with
  | [] => True
  | e :: l => (ends e = true -> Forall (fun e => ends e = true) l) /\ clean l
  end.

Lemma dfind_app name l1 l2 : dfind name l1 = None -> existsb ends l1 = false -> dfind name (l1 ++ l2) = dfind name l2.
Proof.
  induction l1 as [|e l1 IH]; cbn [dfind existsb app]; [done|]. destruct (ends e); [done|]. destruct (named name e); [done|]. auto.
Qed.

Lemma dfind_app_some name l1 l2 e : dfind name l1 = Some e -> dfind name (l1 ++ l2) = Some e.
Proof. induction l1 as [|x l1 IH]; cbn [dfind app]; [done|]. destruct (ends x); [done|]. destruct (named name x); auto. Qed.

Lemma dfind_app_end name l1 l2 : dfind name l1 = None -> existsb ends l1 = true -> dfind name (l1 ++ l2) = None.
Proof.
  induction l1 as [|e l1 IH]; cbn [dfind existsb app]; [done|]. destruct (ends e); [done|]. destruct (named name e); auto.
Qed.

Lemma dslot_app l1 l2 : dslot (l1 ++ l2) = match dslot l1 with Some e => Some e | None => dslot l2 end.
Proof. induction l1 as [|e l1 IH]; cbn [dslot app]; [done|]. by destruct (vacant e). Qed.

Lemma dfind_elem name l e : dfind name l = Some e -> e ∈ l /\ ends e = false /\ named name e = true.
Proof.
  induction l as [|x l IH]; cbn [dfind]; [done|]. destruct (ends x) eqn:E1; [done|]. destruct (named name x) eqn:E2.
  - intros [= <-]. split; [apply list_elem_of_here|done].
  - intros H. destruct (IH H). split; [by apply list_elem_of_further|done].
Qed.

Lemma dslot_elem l e : dslot l = Some e -> e ∈ l /\ vacant e = true.
Proof.
  induction l as [|x l IH]; cbn [dslot]; [done|]. destruct (vacant x) eqn:E.
  - intros [= <-]. split; [apply list_elem_of_here|done].
  - intros H. destruct (IH H). split; [by apply list_elem_of_further|done].
Qed.

Lemma dset_out pos raw l : pos ∉ map fst l -> dset pos raw l = l.
Proof.
  induction l as [|e l IH]; cbn [dset map]; [done|]. intros H. rewrite bool_decide_eq_false_2.
  - f_equal. apply IH. intros Hin. by apply H, list_elem_of_further.
  - intros <-. apply H, list_elem_of_here.
Qed.

Lemma dset_app pos raw l1 l2 : dset pos raw (l1 ++ l2) = dset pos raw l1 ++ dset pos raw l2.
Proof. apply map_app. Qed.

Lemma map_fst_dset pos raw l : map fst (dset pos raw l) = map fst l.
Proof. unfold dset. rewrite map_map. apply map_ext. intros e. by case_bool_decide. Qed.

(** An entry found by its name is replaced by one of that name. *)
Lemma dset_found name pos old raw l :
  NoDup (map fst l) -> dfind name l = Some (pos, old) -> ends (pos, raw) = false -> named name (pos, raw) = true ->
  dfind name (dset pos raw l) = Some (pos, raw) /\
  (forall name', name' <> name -> dfind name' (dset pos raw l) = dfind name' l) /\ (clean l -> clean (dset pos raw l)).
Proof.
  intros Hn Hf He Hm. induction l as [|e l IH]; [done|]. cbn [map] in Hn. apply NoDup_cons in Hn as [Hnin Hn].
  cbn [dfind] in Hf. destruct (ends e) eqn:Ee; [done|]. destruct (named name e) eqn:Em.
  - injection Hf as ->. cbn [dset map fst]. rewrite bool_decide_eq_true_2 by done. fold (dset pos raw l).
    rewrite dset_out by done. cbn [dfind clean]. rewrite He, Hm, Ee. split; [done|]. split.
    + intros name' Hne. unfold named in Hm, Em. cbn [snd] in *. unfold named. cbn [snd].
      apply andb_true_iff in Hm as [_ Hm]. apply andb_true_iff in Em as [_ Em].
      apply bool_decide_eq_true in Hm, Em. rewrite Hm, Em. rewrite (bool_decide_eq_false_2 (name = name')) by congruence. by rewrite !andb_false_r.
    + intros [_ H]. split; [congruence|done].
  - destruct (IH Hn Hf) as (H1 & H2 & H3).
    assert (Hp : fst e <> pos).
    { intros <-. apply Hnin. apply dfind_elem in Hf as (Hf & _). apply (list_elem_of_fmap_2 fst) in Hf. done. }
    cbn [dset map]. rewrite bool_decide_eq_false_2 by done. fold (dset pos raw l). cbn [dfind clean]. rewrite Ee, Em.
    split; [done|]. split; [|intros [_ H]; split; [congruence|auto]]. intros name' Hne. by rewrite H2.
Qed.

Lemma dfind_all_end name l : Forall (fun e => ends e = true) l -> dfind name l = None.
Proof. destruct 1 as [|e l He]; cbn [dfind]; [done|]. by rewrite He. Qed.

(** A new entry goes to the first free slot of a directory that does not have the name. *)
Lemma dset_slot name pos old raw l :
  NoDup (map fst l) -> clean l -> dfind name l = None -> dslot l = Some (pos, old) ->
  ends (pos, raw) = false -> named name (pos, raw) = true ->
  dfind name (dset pos raw l) = Some (pos, raw) /\
  (forall name', name' <> name -> dfind name' (dset pos raw l) = dfind name' l) /\ clean (dset pos raw l).
Proof.
  intros Hn Hc Hf Hs He Hm. induction l as [|e l IH]; [done|]. cbn [map] in Hn. apply NoDup_cons in Hn as [Hnin Hn].
  destruct Hc as [Hc1 Hc]. cbn [dslot] in Hs. destruct (vacant e) eqn:Ev.
  - injection Hs as ->. cbn [dset map fst]. rewrite bool_decide_eq_true_2 by done. fold (dset pos raw l).
    rewrite dset_out by done. cbn [dfind clean]. rewrite He, Hm. split; [done|]. split; [|split; [congruence|done]].
    intros name' Hne. assert (Hm' : named name' (pos, raw) = false).
    { unfold named in Hm |- *. cbn [snd] in *. apply andb_true_iff in Hm as [_ Hm]. apply bool_decide_eq_true in Hm. rewrite Hm.
      rewrite bool_decide_eq_false_2 by congruence. by rewrite andb_false_r. }
    rewrite Hm'. destruct (ends (pos, old)) eqn:Eo; [apply dfind_all_end, Hc1; done|].
    unfold vacant in Ev. rewrite Eo in Ev. cbn [orb snd] in Ev. unfold named at 1. cbn [snd]. by rewrite Ev.
  - assert (Ee : ends e = false) by (unfold vacant in Ev; by apply orb_false_iff in Ev as []).
    cbn [dfind] in Hf. rewrite Ee in Hf. destruct (named name e) eqn:Em; [done|]. destruct (IH Hn Hc Hf Hs) as (H1 & H2 & H3).
    assert (Hp : fst e <> pos).
    { intros <-. apply Hnin. apply dslot_elem in Hs as (Hs & _). by apply (list_elem_of_fmap_2 fst) in Hs. }
    cbn [dset map]. rewrite bool_decide_eq_false_2 by done. fold (dset pos raw l). cbn [dfind clean]. rewrite Ee, Em.
    split; [done|]. split; [|split; [congruence|done]]. intros name' Hne. by rewrite H2.
Qed.

Lemma clean_app_end l1 l2 : clean l1 -> Forall (fun e => ends e = true) l2 -> clean (l1 ++ l2).
Proof.
  intros H1 H2. induction l1 as [|e l1 IH]; cbn [app clean].
  - induction H2 as [|e l2 He Hl IH]; cbn [clean]; auto.
  - destruct H1 as [H1 H3]. split; [|by apply IH]. intros He. apply Forall_app. auto.
Qed.

Lemma dfind_app_ends name l1 l2 : Forall (fun e => ends e = true) l2 -> dfind name (l1 ++ l2) = dfind name l1.
Proof.
  intros H2. induction l1 as [|e l1 IH]; cbn [app dfind]; [by apply dfind_all_end|]. destruct (ends e); [done|]. by rewrite IH.
Qed.

(** ** Directories on the volume *)

Lemma raw_at_front m buf d i :
  take m buf = d -> 0 <= i -> (Z.to_nat (i * 32) + 32 <= m)%nat -> raw_at buf i = raw_at d i.
Proof.
  intros <- Hi Hm. unfold raw_at. rewrite !take_drop_commute, take_take. by replace (_ `min` m)%nat with (Z.to_nat (i * 32) + 32)%nat by lia.
Qed.

Section Dir.
Context {W : Type} `{BL : BlockLaws W}.
Implicit Types s : fat32 W.

(** The entries [i], [i + 1], ... of a cluster, and those of a chain. *)
Definition cents_from s (c i n : Z) : list dentry := map (fun i => ((c, i), raw_at (cdat s c) i)) (seqZ i n).
Definition cents s (c : Z) : list dentry := cents_from s c 0 (entries_in_cluster s).
Definition dents s (p : list Z) : list dentry := concat (map (cents s) p).

(** The states differ in scratch memory only. *)
Record same_disk s s' : Prop := SameDisk {
  sd_disk : disk s' = disk s; sd_step : step nowhere nowhere s s'
}.

Lemma same_disk_refl s : same_disk s s.
Proof. split; [done|apply step_refl]. Qed.

Lemma same_disk_trans s1 s2 s3 : same_disk s1 s2 -> same_disk s2 s3 -> same_disk s1 s3.
Proof. intros [D1 S1] [D2 S2]. split; [congruence|by apply (step_trans _ _ _ s2)]. Qed.

Lemma same_fatv s s' c : same_disk s s' -> fatv s' c = fatv s c.
Proof. intros [D S]. apply fatv_disk; [apply S|done]. Qed.

Lemma same_cdat s s' c : same_disk s s' -> cdat s' c = cdat s c.
Proof. intros [D S]. apply cdat_disk; [apply S|done]. Qed.

Lemma same_off s s' : same_disk s s' -> off s' <-> off s.
Proof. intros [D _]. unfold off. by rewrite D. Qed.

Lemma entries_geo s s' : geo s' = geo s -> entries_in_cluster s' = entries_in_cluster s.
Proof. unfold entries_in_cluster, cluster_bytes. by intros ->. Qed.

Lemma dents_ext s s' p : geo s' = geo s -> (forall c, c ∈ p -> cdat s' c = cdat s c) -> dents s' p = dents s p.
Proof.
  intros Hg Hc. unfold dents, cents. f_equal. apply map_ext_in. intros c Hin. unfold cents_from.
  rewrite (entries_geo s) by done. apply map_ext. intros i. rewrite Hc; [done|by apply list_elem_of_In].
Qed.

Lemma dents_same s s' p : same_disk s s' -> dents s' p = dents s p.
Proof. intros H. apply dents_ext; [apply H|]. intros c _. by apply same_cdat. Qed.

Lemma chain_same s s' p : same_disk s s' -> is_chain s p -> is_chain s' p.
Proof. intros H. apply is_chain_ext; [apply H|]. intros c _. by apply same_fatv. Qed.

Lemma read_same s c s' ok : vol s -> is_cluster s c -> read_cluster s c = (s', ok) ->
  same_disk s s' /\ (if ok then take (Z.to_nat (cluster_bytes s)) (cluster_buf s') = cdat s c else off s).
Proof.
  intros Hv Hc H. destruct (read_cluster_spec s c s' ok Hv Hc H) as (H1 & H2 & H3). split; [by split|]. destruct ok; [done|apply H3].
Qed.

Lemma raw_at_buf s s' c i :
  vol s -> take (Z.to_nat (cluster_bytes s)) (cluster_buf s') = cdat s c -> 0 <= i < entries_in_cluster s ->
  raw_at (cluster_buf s') i = raw_at (cdat s c) i.
Proof.
  intros Hv Hb Hi. eapply raw_at_front; [exact Hb|lia|]. pose proof (cluster_bytes_range s Hv). unfold entries_in_cluster in Hi.
  Z.to_euclidean_division_equations. lia.
Qed.

(** Following a link; a device that is down may end the walk early. *)
Lemma fat_next_chain s s1 c p : vol s -> same_disk s s1 -> is_cluster s c -> next_of s (fatv s c) = hd 0 p ->
  fat_next_cluster s1 c = hd 0 p \/ off s /\ fat_next_cluster s1 c = 0.
Proof.
  intros Hv Hs Hc Hn. pose proof (step_vol _ _ _ _ Hv (sd_step _ _ Hs)) as Hv1.
  assert (Hc1 : is_cluster s1 c) by (apply (is_cluster_geo s); [apply Hs|done]).
  assert (E : next_of s1 (fatv s1 c) = hd 0 p) by (rewrite (same_fatv s s1 c Hs), (next_of_geo s); [done|apply Hs]).
  destruct (decide (off s)) as [Ho|Ho].
  - destruct (fat_next_sound s1 c Hv1 Hc1) as [->| ->]; [by right|by left].
  - left. rewrite fat_next_live; [done|done|done|by rewrite (same_off s)].
Qed.

(** ** Looking up a name *)

Lemma locate_in_spec s s' c name n : forall i,
  vol s -> take (Z.to_nat (cluster_bytes s)) (cluster_buf s') = cdat s c -> 0 <= i -> i + Z.of_nat n <= entries_in_cluster s ->
  match locate_in n s' name i with
  | inl (Some j) => dfind name (cents_from s c i (Z.of_nat n)) = Some ((c, j), raw_at (cdat s c) j)
  | inl None => dfind name (cents_from s c i (Z.of_nat n)) = None /\ existsb ends (cents_from s c i (Z.of_nat n)) = true
  | inr _ => dfind name (cents_from s c i (Z.of_nat n)) = None /\ existsb ends (cents_from s c i (Z.of_nat n)) = false
  end.
Proof.
  induction n as [|n IH]; intros i Hv Hb Hi Hn; cbn [locate_in]; [done|].
  assert (Er : raw_at (cluster_buf s') i = raw_at (cdat s c) i) by (apply (raw_at_buf s); [done|done|lia]). rewrite Er.
  unfold cents_from. rewrite seqZ_cons by lia. cbn [map dfind existsb].
  replace (Z.succ i) with (i + 1) by lia. replace (Z.pred (Z.of_nat (S n))) with (Z.of_nat n) by lia. fold (cents_from s c (i + 1) (Z.of_nat n)).
  specialize (IH (i + 1) Hv Hb ltac:(lia) ltac:(lia)).
  set (e := ((c, i), raw_at (cdat s c) i)). change (at_z 0 (raw_at (cdat s c) i) 0 =? 0) with (ends e).
  assert (Em : named name e = negb (at_z 0 (raw_at (cdat s c) i) 0 =? 0xE5) && negb (raw_skipped (raw_at (cdat s c) i)) &&
            bool_decide (take 11 (raw_at (cdat s c) i) = name)) by done. rewrite Em.
  destruct (ends e); cbn [orb]; [done|].
  destruct (at_z 0 (raw_at (cdat s c) i) 0 =? 0xE5); cbn [orb negb andb]; [exact IH|].
  destruct (raw_skipped (raw_at (cdat s c) i)); cbn [negb andb]; [exact IH|].
  destruct (bool_decide (take 11 (raw_at (cdat s c) i) = name)); [done|exact IH].
Qed.

Lemma dents_cons s c p : dents s (c :: p) = cents s c ++ dents s p.
Proof. done. Qed.

Lemma cents_length s : vol s -> Z.of_nat (Z.to_nat (entries_in_cluster s)) = entries_in_cluster s.
Proof. intros Hv. pose proof (cluster_bytes_range s Hv). unfold entries_in_cluster. Z.to_euclidean_division_equations. lia. Qed.

Lemma locate_loop_spec name p : forall fuel s s' r,
  vol s -> is_chain s p -> (length p < fuel)%nat -> locate_loop fuel s name (hd 0 p) = (s', r) ->
  same_disk s s' /\ (r = option_map fst (dfind name (dents s p)) \/ r = None /\ off s).
Proof.
  induction p as [|c p IH]; intros fuel s s' r Hv Hc Hf; (destruct fuel as [|fuel]; [cbn in Hf; lia|]); cbn [locate_loop hd].
  { rewrite Z.eqb_refl. intros [= <- <-]. split; [apply same_disk_refl|by left]. }
  destruct Hc as (Hcl & Hnz & Hnext & Hrest). destruct (Z.eqb_spec c 0); [unfold is_cluster in Hcl; lia|].
  destruct (read_cluster s c) as [s1 ok] eqn:Er. destruct (read_same s c s1 ok Hv Hcl Er) as [Hs Hb]. destruct ok; cbn [negb].
  2:{ intros [= <- <-]. split; [done|by right]. }
  pose proof (step_vol _ _ _ _ Hv (sd_step _ _ Hs)) as Hv1.
  assert (He : entries_in_cluster s1 = entries_in_cluster s) by (apply entries_geo, Hs). rewrite He.
  pose proof (locate_in_spec s s1 c name (Z.to_nat (entries_in_cluster s)) 0 Hv Hb ltac:(lia) ltac:(rewrite cents_length by done; lia)) as HL.
  rewrite cents_length in HL by done. fold (cents s c) in HL. rewrite dents_cons.
  destruct (locate_in _ s1 name 0) as [[j|]|[]].
  - intros [= <- <-]. split; [done|left]. by rewrite (dfind_app_some _ _ _ _ HL).
  - intros [= <- <-]. split; [done|left]. by rewrite dfind_app_end by apply HL.
  - destruct HL as [HL1 HL2]. rewrite dfind_app by done.
    destruct (fat_next_chain s s1 c p Hv Hs Hcl Hnext) as [->|[Ho ->]]; intros H.
    + destruct (IH fuel s1 s' r Hv1 (chain_same _ _ _ Hs Hrest) ltac:(cbn in Hf; lia) H) as [H1 H2].
      split; [by apply (same_disk_trans _ s1)|]. rewrite (dents_same s s1 p Hs), (same_off s s1 Hs) in H2. done.
    + destruct fuel as [|fuel]; cbn [locate_loop] in H; [|rewrite Z.eqb_refl in H]; injection H as <- <-; (split; [done|by right]).
Qed.

(** [locate_dir_entry] is the lookup in the list of entries. *)
Lemma locate_dir_entry_spec s d p name s' r :
  vol s -> chain_at s d p -> locate_dir_entry s d name = (s', r) ->
  same_disk s s' /\ (r = option_map fst (dfind name (dents s p)) \/ r = None /\ off s).
Proof.
  intros Hv [Hc Hn Hh Hne]. unfold locate_dir_entry. rewrite (vo_ready s Hv).
  assert (Hcl : is_cluster s d) by (destruct p; [done|]; subst d; apply Hc).
  rewrite (proj2 (valid_cluster_iff s d) Hcl). cbn [negb orb]. rewrite <-Hh. apply locate_loop_spec; [done|done|by apply chain_bound].
Qed.

(** ** Free slots *)

Lemma free_slot_spec s s' c :
  vol s -> take (Z.to_nat (cluster_bytes s)) (cluster_buf s') = cdat s c -> geo s' = geo s ->
  match free_slot s' with
  | Some i => 0 <= i < entries_in_cluster s /\ dslot (cents s c) = Some ((c, i), raw_at (cdat s c) i)
  | None => dslot (cents s c) = None
  end.
Proof.
  intros Hv Hb Hg. unfold free_slot. rewrite (entries_geo s) by done. set (f := fun i => _). unfold cents.
  pose proof (cents_length s Hv) as Hl.
  assert (G : forall m i, 0 <= i -> i + Z.of_nat m <= entries_in_cluster s ->
    match find_z f i m with
    | Some j => i <= j < i + Z.of_nat m /\ dslot (cents_from s c i (Z.of_nat m)) = Some ((c, j), raw_at (cdat s c) j)
    | None => dslot (cents_from s c i (Z.of_nat m)) = None
    end).
  { induction m as [|m IH]; intros i Hi Hm; cbn [find_z]; [done|]. unfold cents_from. rewrite seqZ_cons by lia. cbn [map dslot].
    replace (Z.succ i) with (i + 1) by lia. replace (Z.pred (Z.of_nat (S m))) with (Z.of_nat m) by lia. fold (cents_from s c (i + 1) (Z.of_nat m)).
    assert (Ef : f i = vacant ((c, i), raw_at (cdat s c) i)).
    { unfold f, vacant, ends. cbn [snd]. by rewrite (raw_at_buf s s' c i) by (done || lia). }
    rewrite Ef. destruct (vacant _); [split; [lia|done]|]. specialize (IH (i + 1) ltac:(lia) ltac:(lia)).
    destruct (find_z f (i + 1) m) as [j|]; [|done]. split; [lia|apply IH]. }
  specialize (G (Z.to_nat (entries_in_cluster s)) 0 ltac:(lia) ltac:(lia)). rewrite Hl in G. exact G.
Qed.

Lemma slot_loop_spec p : forall fuel s prev s' r,
  vol s -> is_chain s p -> (length p < fuel)%nat -> slot_loop fuel s (hd 0 p) prev = (s', r) ->
  same_disk s s' /\
  match r with
  | inl (Some pos) => exists raw, dslot (dents s p) = Some (pos, raw)
  | inl None => off s
  | inr last_cluster => off s \/ dslot (dents s p) = None /\ last_cluster = default prev (last p)
  end.
Proof.
  induction p as [|c p IH]; intros fuel s prev s' r Hv Hc Hf; (destruct fuel as [|fuel]; [cbn in Hf; lia|]); cbn [slot_loop hd].
  { rewrite Z.eqb_refl. intros [= <- <-]. split; [apply same_disk_refl|by right]. }
  destruct Hc as (Hcl & Hnz & Hnext & Hrest). destruct (Z.eqb_spec c 0); [unfold is_cluster in Hcl; lia|].
  destruct (read_cluster s c) as [s1 ok] eqn:Er. destruct (read_same s c s1 ok Hv Hcl Er) as [Hs Hb]. destruct ok; cbn [negb].
  2:{ intros [= <- <-]. by split. }
  pose proof (step_vol _ _ _ _ Hv (sd_step _ _ Hs)) as Hv1.
  pose proof (free_slot_spec s s1 c Hv Hb ltac:(apply Hs)) as HF. rewrite dents_cons, dslot_app.
  destruct (free_slot s1) as [i|].
  - intros [= <- <-]. split; [done|]. destruct HF as [_ ->]. by eexists.
  - rewrite HF. destruct (fat_next_chain s s1 c p Hv Hs Hcl Hnext) as [->|[Ho ->]]; intros H.
    + destruct (IH fuel s1 c s' r Hv1 (chain_same _ _ _ Hs Hrest) ltac:(cbn in Hf; lia) H) as [H1 H2].
      split; [by apply (same_disk_trans _ s1)|]. rewrite (dents_same s s1 p Hs) in H2.
      destruct r as [[pos|]|l]; [done|by apply (same_off s s1 Hs)|]. destruct H2 as [H2|[H2 ->]]; [left; by apply (same_off s s1 Hs)|right].
      split; [done|]. destruct p as [|x p]; [done|]. change (last (c :: x :: p)) with (last (x :: p)).
      destruct (last (x :: p)) eqn:E; [done|by apply last_None in E].
    + destruct fuel as [|fuel]; cbn [slot_loop] in H; [|rewrite Z.eqb_refl in H]; injection H as <- <-; (split; [done|by left]).
Qed.

(** ** Growing a directory *)

(** The directory at [d] after the operation: its chain may have grown by clusters that
    were free, which hold end marks; nothing else in use was touched. *)
Record dir_grown s s' (d : Z) (p p' : list Z) : Prop := DirGrown {
  dg_chain : chain_at s' d p';
  dg_step : step (fun x => last p = Some x \/ fatv s x = 0) (fun x => fatv s x = 0) s s';
  dg_prefix : exists q, p' = p ++ q /\ forall c, c ∈ q -> fatv s c = 0 /\ is_cluster s c;
  dg_free : exists n, forall c, has_entry s c -> c <> n -> fatv s c = 0 -> fatv s' c = 0;
  dg_ents : exists z, dents s' p' = dents s p ++ z /\ Forall (fun e => ends e = true) z
}.

Lemma chain_at_elem s d p c : chain_at s d p -> c ∈ p -> is_cluster s c /\ fatv s c <> 0.
Proof. intros H. apply is_chain_elem, H. Qed.

(** Touching free clusters only leaves a directory as it is. *)
Lemma keep_dir s s' d p n : chain_at s d p -> step (free_in s) (free_in s) s s' ->
  (forall c, has_entry s c -> c <> n -> fatv s c = 0 -> fatv s' c = 0) -> dir_grown s s' d p p.
Proof.
  intros Hc Hs Hfree. pose proof Hc as [C1 C2 C3 C4].
  assert (Hf : forall c, c ∈ p -> fatv s' c = fatv s c).
  { intros c Hin. destruct (chain_at_elem s d p c Hc Hin). apply (st_fat _ _ _ _ Hs); [by apply is_cluster_entry|done]. }
  constructor.
  - constructor; try done. by apply (is_chain_ext s); [apply Hs| |].
  - eapply step_weaken, Hs; [by right|done].
  - exists []. rewrite app_nil_r. split; [done|]. intros c Hin. by apply not_elem_of_nil in Hin.
  - by exists n.
  - exists []. rewrite app_nil_r. split; [|done]. apply dents_ext; [apply Hs|].
    intros c Hin. destruct (chain_at_elem s d p c Hc Hin). by apply (st_dat _ _ _ _ Hs).
Qed.

Lemma zero_ends s c m n : cdat s c = replicate m 0 -> Forall (fun e => ends e = true) (cents_from s c 0 n).
Proof.
  intros Hz. apply Forall_forall. intros e He. apply list_elem_of_fmap_1 in He as (i & -> & _). unfold ends, raw_at, at_z. cbn [snd].
  rewrite Hz. apply Z.eqb_eq. change (Z.to_nat 0) with 0%nat. rewrite nth_lookup, lookup_take, decide_True, lookup_drop by lia.
  destruct (replicate m 0 !! (Z.to_nat (i * 32) + 0)%nat) eqn:E; [|done]. by apply lookup_replicate in E as [-> _].
Qed.

(** A new cluster of zeros at the end of the chain. *)
Lemma grow_dir s s' d p n :
  vol s -> chain_at s d p -> is_cluster s n -> fatv s n = 0 ->
  step (fun x => last p = Some x \/ x = n) (eq n) s s' ->
  (forall x, last p = Some x -> fatv s' x = n) -> fatv s' n = FAT32_EOC ->
  cdat s' n = replicate (Z.to_nat (cluster_bytes s)) 0 -> dir_grown s s' d p (p ++ [n]).
Proof.
  intros Hv Hc Hn Hz Hs Hl He Hd. pose proof Hc as [C1 C2 C3 C4].
  assert (Hnp : n ∉ p) by (intros Hin; by destruct (chain_at_elem s d p n Hc Hin)).
  constructor.
  - constructor.
    + apply (is_chain_snoc s); try done; [apply Hs| |by rewrite He|by rewrite He].
      intros x Hx Hne. apply (st_fat _ _ _ _ Hs); [by apply is_cluster_entry, (chain_at_elem s d p x Hc)|]. intros [|Hxn]; congruence.
    + apply NoDup_app. split; [done|]. split; [|apply NoDup_singleton]. intros x Hx ->%list_elem_of_singleton. done.
    + by destruct p.
    + by destruct p.
  - eapply step_weaken, Hs; [|by intros x <-]. intros x [Hx|Hx]; [by left|right; by subst x].
  - exists [n]. split; [done|]. intros c ->%list_elem_of_singleton. done.
  - exists n. intros c Hce Hne H0. rewrite (st_fat _ _ _ _ Hs); [done|done|]. intros [Hx|Hx]; [|done].
    by apply last_Some_elem_of, (chain_at_elem s d p c Hc) in Hx as [].
  - exists (cents s' n). split; [|by apply (zero_ends s' n (Z.to_nat (cluster_bytes s)))]. unfold dents. rewrite map_app, concat_app. cbn [map concat]. rewrite app_nil_r. f_equal.
    apply dents_ext; [apply Hs|]. intros c Hin. apply (st_dat _ _ _ _ Hs); [by apply (chain_at_elem s d p c Hc)|]. intros <-. done.
Qed.

(** The steps that add cluster [n] to a full directory. *)
Definition extend s (last_cluster n : Z) : fat32 W * option (Z * Z) :=
  let s := set_buf (replicate (Z.to_nat (MAX_CLUSTER_SECTORS * SECTOR_SIZE)) 0) s in
  let '(s, ok) := write_cluster s n in
  if negb ok then (s, None)
  else
    let '(s, ok) := fat_set_entry s n FAT32_EOC in
    if negb ok then (s, None)
    else
      let '(s, ok) := fat_set_entry s last_cluster n in
      if negb ok then (s, None) else (s, Some (n, 0)).

Lemma zero_slot s n m : vol s -> cdat s n = replicate m 0 -> exists raw, dslot (cents s n) = Some ((n, 0), raw).
Proof.
  intros Hv Hz. pose proof (zero_ends s n m (entries_in_cluster s) Hz) as H. unfold cents, cents_from in *.
  assert (He : 1 <= entries_in_cluster s).
  { pose proof (cluster_bytes_range s Hv). unfold entries_in_cluster. Z.to_euclidean_division_equations. lia. }
  rewrite seqZ_cons in H |- * by lia. cbn [map dslot] in H |- *. apply Forall_cons in H as [H _]. unfold vacant. rewrite H. by eexists.
Qed.

Lemma extend_spec s d p n lst s' r :
  vol s -> chain_at s d p -> is_cluster s n -> fatv s n = 0 ->
  off s \/ dslot (dents s p) = None /\ last p = Some lst -> extend s lst n = (s', r) ->
  exists p', dir_grown s s' d p p' /\
    match r with Some pos => exists raw, dslot (dents s' p') = Some (pos, raw) | None => off s' end.
Proof.
  intros Hv Hc Hn Hz Hfull. unfold extend. set (sb := set_buf _ s).
  assert (Hsb : same_disk s sb).
  { split; [done|]. apply step_scratch; try done; [cbn; by rewrite length_replicate, (vo_buf s Hv)|].
    intros _. apply Forall_replicate. lia. }
  pose proof (step_vol _ _ _ _ Hv (sd_step _ _ Hsb)) as Hvb.
  destruct (write_cluster sb n) as [s1 ok1] eqn:E1. destruct (write_cluster_spec sb n s1 ok1 Hvb Hn E1) as (S1 & _ & O1).
  pose proof (step_vol _ _ _ _ Hvb S1) as Hv1.
  assert (T1 : step nowhere (eq n) s s1) by (apply (step_trans _ _ _ sb); [eapply step_weaken, Hsb; done|done]).
  assert (K : forall sx, step (eq n) (eq n) s sx -> dir_grown s sx d p p).
  { intros sx Hx. apply (keep_dir s sx d p n); [done|eapply step_weaken, Hx; by intros ? <-|].
    intros c Hce Hne' H0. rewrite (st_fat _ _ _ _ Hx); auto. }
  destruct ok1; cbn [negb].
  2:{ intros [= <- <-]. exists p. split; [apply K; by eapply step_weaken, T1|apply O1]. }
  destruct O1 as [Hon O1]. destruct Hfull as [?|[Hfull Hl]]; [done|].
  assert (Hlp : lst ∈ p) by by apply last_Some_elem_of. destruct (chain_at_elem s d p lst Hc Hlp) as [Hlc Hlnz].
  assert (Hne : n <> lst) by (intros ->; congruence).
  destruct (fat_set_entry s1 n FAT32_EOC) as [s2 ok2] eqn:E2.
  assert (Hn1 : is_cluster s1 n) by (apply (is_cluster_geo s s1); [apply T1|done]).
  destruct (fat_set_entry_spec s1 n FAT32_EOC s2 ok2 Hv1 (is_cluster_entry s1 n Hn1) ltac:(unfold FAT32_EOC; lia) E2) as (S2 & _ & O2).
  pose proof (step_vol _ _ _ _ Hv1 S2) as Hv2.
  assert (T2 : step (eq n) (eq n) s s2) by (apply (step_trans _ _ _ s1); [by eapply step_weaken, T1|by eapply step_weaken, S2]).
  destruct ok2; cbn [negb].
  2:{ intros [= <- <-]. exists p. split; [by apply K|apply O2]. }
  destruct O2 as [_ O2]. destruct (fat_set_entry s2 lst n) as [s3 ok3] eqn:E3.
  assert (Hl2 : is_cluster s2 lst) by (apply (is_cluster_geo s s2); [apply T2|done]).
  destruct (fat_set_entry_spec s2 lst n s3 ok3 Hv2 (is_cluster_entry s2 lst Hl2) ltac:(unfold is_cluster in Hn; lia) E3) as (S3 & _ & O3).
  rewrite (proj1 (link_value s n Hv Hn)) in O3.
  assert (T3 : step (fun x => last p = Some x \/ x = n) (eq n) s s3).
  { apply (step_trans _ _ _ s2); [eapply step_weaken, T2|eapply step_weaken, S3]; try done; intros x <-; auto. }
  assert (He2 : forall c, is_cluster s c -> has_entry s2 c) by (intros c Hcc; apply (has_entry_geo s s2); [apply T2|by apply is_cluster_entry]).
  assert (Hn3 : fatv s3 n = FAT32_EOC) by (rewrite (st_fat _ _ _ _ S3); [done|by apply He2|done]).
  assert (Hd3 : cdat s3 n = replicate (Z.to_nat (cluster_bytes s)) 0).
  { rewrite (st_dat _ _ _ _ S3), (st_dat _ _ _ _ S2), O1; auto; [|apply (is_cluster_geo s s2); [apply T2|done]].
    change (cluster_bytes sb) with (cluster_bytes s). cbn [cluster_buf sb set_buf]. rewrite take_replicate. f_equal.
    pose proof (cluster_bytes_range s Hv). unfold MAX_CLUSTER_SECTORS, SECTOR_SIZE. lia. }
  assert (G : fatv s3 lst = n -> dir_grown s s3 d p (p ++ [n])).
  { intros Hlst. apply grow_dir; try done. intros x Hx. by assert (x = lst) as -> by congruence. }
  destruct ok3; cbn [negb].
  - intros [= <- <-]. pose proof (G (proj2 O3)) as HG. exists (p ++ [n]). split; [done|].
    pose proof (step_vol _ _ _ _ Hv2 S3) as Hv3. destruct (zero_slot s3 n _ Hv3 Hd3) as [raw Hraw]. exists raw.
    unfold dents. rewrite map_app, concat_app, dslot_app. fold (dents s3 p).
    rewrite (dents_ext s s3); [|apply T3|intros c Hcp; apply (st_dat _ _ _ _ T3); [by apply (chain_at_elem s d p c Hc)|]].
    + rewrite Hfull. cbn [map concat]. by rewrite app_nil_r.
    + intros <-. by destruct (chain_at_elem s d p n Hc Hcp).
  - intros [= <- <-]. destruct O3 as [Ho [O3|O3]]; [|exists (p ++ [n]); split; [by apply G|done]].
    exists p. split; [|done]. apply K. apply (step_trans _ _ _ s2); [done|]. destruct S3 as [G1 R1 D1 B1 Y1 F1 C1 O1']. constructor; auto.
    intros c Hcc Hcn. destruct (decide (lst = c)) as [<-|Hlc']; [done|auto].
Qed.

Lemma dir_grown_same s s1 s' d p p' : same_disk s s1 -> dir_grown s1 s' d p p' -> dir_grown s s' d p p'.
Proof.
  intros Hs [G1 G2 (q & -> & Hq) (n & Hn) (z & Hz & Hzf)]. constructor; [done| | | |].
  - apply (step_trans _ _ _ s1); [eapply step_weaken, Hs; by intros ? []|]. eapply step_weaken, G2; intros x; cbv beta; by rewrite (same_fatv s s1).
  - exists q. split; [done|]. intros c Hc. destruct (Hq c Hc) as [Hf Hcl]. rewrite <-(same_fatv s s1) by done. split; [done|].
    by apply (is_cluster_geo s1 s); [symmetry; apply Hs|].
  - exists n. intros c Hce Hne H0. apply Hn; [apply (has_entry_geo s s1); [apply Hs|done]|done|by rewrite (same_fatv s s1)].
  - exists z. by rewrite <-(dents_same s s1).
Qed.

Lemma find_free_dir_slot_spec s d p s' r :
  vol s -> chain_at s d p -> find_free_dir_slot s d = (s', r) ->
  exists p', dir_grown s s' d p p' /\
    match r with
    | Some pos => exists raw, dslot (dents s' p') = Some (pos, raw)
    | None => off s' \/ no_room s 1
    end.
Proof.
  intros Hv Hc. pose proof Hc as [C1 C2 C3 C4]. unfold find_free_dir_slot. rewrite (vo_ready s Hv).
  assert (Hcl : is_cluster s d) by (destruct p; [done|]; subst d; apply C1).
  rewrite (proj2 (valid_cluster_iff s d) Hcl). cbn [negb orb].
  destruct (slot_loop (chain_fuel s) s d d) as [s1 r1] eqn:E1.
  pose proof (slot_loop_spec p (chain_fuel s) s d s1 r1 Hv C1 ltac:(by apply chain_bound) ltac:(by rewrite C3)) as [Hs1 H1].
  assert (Keep : dir_grown s s1 d p p).
  { apply (keep_dir s s1 d p 0 Hc); [eapply step_weaken, Hs1; by intros ? []|]. intros c _ _. by rewrite (same_fatv s s1). }
  destruct r1 as [[pos|]|lst].
  { intros [= <- <-]. exists p. split; [done|]. by rewrite (dents_same s). }
  { intros [= <- <-]. exists p. split; [done|]. left. by apply (same_off s). }
  pose proof (step_vol _ _ _ _ Hv (sd_step _ _ Hs1)) as Hv1. destruct (find_free_cluster_spec s1 Hv1) as [F1 F2].
  destruct (Z.eqb_spec (find_free_cluster s1) 0) as [E0|E0].
  { intros [= <- <-]. exists p. split; [done|]. destruct (F2 E0) as [Ho|Hno]; [by left|right]. exists []. split; [cbn; lia|].
    intros c Hcc Hf. exfalso. apply (Hno c); [apply (is_cluster_geo s s1); [apply Hs1|done]|]. by rewrite (same_fatv s s1). }
  destruct F1 as [?|[Fc Fz]]; [done|]. fold (extend s1 lst (find_free_cluster s1)). intros H.
  assert (Hl : off s1 \/ dslot (dents s1 p) = None /\ last p = Some lst).
  { destruct H1 as [H1|[H1 ->]]; [left; by apply (same_off s)|right]. rewrite (dents_same s) by done. split; [done|].
    destruct (last p) eqn:E; [done|by apply last_None in E]. }
  assert (Hc1 : chain_at s1 d p) by (constructor; try done; by apply (chain_same s)).
  destruct (extend_spec s1 d p (find_free_cluster s1) lst s' r Hv1 Hc1 Fc Fz Hl H) as (p' & G & G5).
  exists p'. split; [by apply (dir_grown_same s s1)|]. destruct r as [pos|]; [done|by left].
Qed.
End Dir.
