(* ===== verification/FatWrite.v ===== *)
(** Changing one entry of a FAT32 directory, and replacing a file, which is atomic: whatever
    happens, power loss included, the directory names either the old file, untouched, or the
    new one, complete. *)
From S2P Require Import Prelude Pmm Block Gpt Fat32 FatView FatChain FatDir.

(** * Entries and their bytes *)

(** ** Entries *)

Lemma patch_full bs buf : length bs = length buf -> patch 0 bs buf = bs.
Proof.
  intros H. unfold patch. change (Z.to_nat 0) with 0%nat. rewrite take_0. cbn [app]. rewrite drop_ge by lia. apply app_nil_r.
Qed.

Lemma patch_patch_raw i bs buf :
  0 <= i -> (length bs <= 32)%nat -> i * 32 + 32 <= Z.of_nat (length buf) ->
  put_raw i (patch 0 bs (raw_at buf i)) buf = patch (i * 32) bs buf.
Proof.
  intros Hi Hb Hl. unfold put_raw, raw_at, patch. change (Z.to_nat 0) with 0%nat. rewrite take_0. cbn [app].
  f_equal. rewrite length_app, length_drop, length_take, length_drop. rewrite <-app_assoc. f_equal. cbn [Nat.add].
  rewrite <-(take_drop (32 - length bs) (drop (Z.to_nat (i * 32) + length bs) buf)). f_equal.
  - by rewrite skipn_firstn_comm, drop_drop.
  - rewrite drop_drop. f_equal. lia.
Qed.

Lemma take_patch n off bs buf :
  0 <= off -> off + Z.of_nat (length bs) <= Z.of_nat n -> (n <= length buf)%nat ->
  take n (patch off bs buf) = patch off bs (take n buf).
Proof.
  intros H0 H1 H2. unfold patch. rewrite take_app, length_take, take_take, take_app, take_take.
  replace (Z.to_nat off `min` length buf)%nat with (Z.to_nat off) by lia.
  replace (n `min` Z.to_nat off)%nat with (Z.to_nat off) by lia. replace (Z.to_nat off `min` n)%nat with (Z.to_nat off) by lia.
  f_equal. rewrite (take_ge bs) by lia. f_equal. rewrite take_drop_commute. f_equal. f_equal. lia.
Qed.

Section Entry.
Context {W : Type} `{BL : BlockLaws W}.
Implicit Types s : fat32 W.

Lemma dents_elem s p c i raw : ((c, i), raw) ∈ dents s p -> c ∈ p /\ 0 <= i < entries_in_cluster s /\ raw = raw_at (cdat s c) i.
Proof.
  unfold dents. intros H. apply list_elem_of_In, in_concat in H as (l & Hl & H).
  apply in_map_iff in Hl as (c' & <- & Hc). unfold cents, cents_from in H. apply in_map_iff in H as (i' & [= <- <- <-] & Hi).
  apply list_elem_of_In in Hc, Hi. apply elem_of_seqZ in Hi. split; [done|]. split; [lia|done].
Qed.

Lemma dents_nodup s p : NoDup p -> NoDup (map fst (dents s p)).
Proof.
  induction p as [|c p IH]; intros Hn; [apply NoDup_nil_2|]. apply NoDup_cons in Hn as [Hc Hn]. rewrite dents_cons, map_app. apply NoDup_app. split; [|split; [|by apply IH]].
  - unfold cents, cents_from. rewrite map_map. cbn [fst]. apply NoDup_fmap_2_strong; [by intros ? ? _ _ [= ->]|apply NoDup_seqZ].
  - intros x Hx Hx'. apply list_elem_of_fmap in Hx as ([[c1 i1] r1] & -> & H1). apply list_elem_of_fmap in Hx' as ([[c2 i2] r2] & E & H2).
    cbn [fst] in E. injection E as -> ->. apply dents_elem in H2 as [H2 _]. unfold cents, cents_from in H1.
    apply list_elem_of_fmap in H1 as (? & [= -> _ _] & _). done.
Qed.

(** Changing bytes inside one entry of a directory changes that entry only. *)
Lemma dents_patch s s' p c i o bs :
  vol s -> geo s' = geo s -> NoDup p -> c ∈ p -> 0 <= i < entries_in_cluster s -> 0 <= o -> o + Z.of_nat (length bs) <= 32 ->
  cdat s' c = patch (i * 32 + o) bs (cdat s c) -> (forall x, x ∈ p -> x <> c -> cdat s' x = cdat s x) ->
  dents s' p = dset (c, i) (raw_at (cdat s' c) i) (dents s p).
Proof.
  intros Hv Hg Hn Hc Hi Ho Hb Hd Hne. assert (Hl : Z.of_nat (length (cdat s c)) = cluster_bytes s) by by apply cdat_length.
  assert (Hic : i * 32 + 32 <= cluster_bytes s) by (unfold entries_in_cluster in Hi; Z.to_euclidean_division_equations; lia).
  assert (Hsame : forall j, 0 <= j -> j <> i -> raw_at (cdat s' c) j = raw_at (cdat s c) j).
  { intros j Hj Hji. rewrite Hd. unfold raw_at. apply patch_ne; lia. }
  assert (Hcl : forall x n, x ∈ p -> cents_from s' x 0 n = dset (c, i) (raw_at (cdat s' c) i) (cents_from s x 0 n)).
  { intros x n Hx. unfold cents_from, dset. rewrite map_map. apply map_ext_in. intros j Hj. cbn [fst].
    apply list_elem_of_In, elem_of_seqZ in Hj. case_bool_decide as E.
    - by injection E as -> ->.
    - f_equal. destruct (decide (x = c)) as [->|Hxc]; [apply Hsame; [lia|congruence]|by rewrite Hne]. }
  unfold dents, cents. rewrite (entries_geo s) by done. clear Hc Hn. revert Hcl. generalize (entries_in_cluster s) as n. clear.
  intros n Hcl. induction p as [|x p IH]; [done|]. cbn [map concat]. rewrite dset_app, <-Hcl by apply list_elem_of_here. f_equal.
  apply IH. intros y m Hy. apply Hcl. by apply list_elem_of_further.
Qed.

(** Writing back a cluster with bytes of one entry changed. *)
Lemma write_entry_spec s c i o bs s' ok :
  vol s -> is_cluster s c -> 0 <= i < entries_in_cluster s -> 0 <= o -> o + Z.of_nat (length bs) <= 32 -> bytes bs ->
  take (Z.to_nat (cluster_bytes s)) (cluster_buf s) = cdat s c ->
  write_cluster (set_buf (patch (i * 32 + o) bs (cluster_buf s)) s) c = (s', ok) ->
  step nowhere (eq c) s s' /\
  (if ok then ~ off s /\ cdat s' c = patch (i * 32 + o) bs (cdat s c)
   else off s' /\ (cdat s' c = cdat s c \/ cdat s' c = patch (i * 32 + o) bs (cdat s c))).
Proof.
  intros Hv Hc Hi Ho Hb Hy Hbuf. set (sb := set_buf _ s). pose proof (cluster_bytes_range s Hv) as Hr. pose proof (vo_buf s Hv) as Lb.
  assert (Hic : i * 32 + 32 <= cluster_bytes s) by (unfold entries_in_cluster in Hi; Z.to_euclidean_division_equations; lia).
  assert (Hl : Z.of_nat (length (cdat s c)) = cluster_bytes s) by by apply cdat_length.
  assert (Hlb : Z.of_nat (length (cluster_buf s)) = 32768) by (rewrite Lb; done).
  assert (Sb : step nowhere nowhere s sb).
  { apply step_scratch; try done; [cbn; rewrite length_patch; lia|]. intros Hyb. by apply patch_bytes. }
  pose proof (step_vol _ _ _ _ Hv Sb) as Hvb.
  assert (Hfront : take (Z.to_nat (cluster_bytes s)) (patch (i * 32 + o) bs (cluster_buf s)) = patch (i * 32 + o) bs (cdat s c)).
  { rewrite <-Hbuf. apply take_patch; lia. }
  intros H. destruct (write_cluster_spec sb c s' ok Hvb Hc H) as (S & _ & O).
  change (cluster_bytes sb) with (cluster_bytes s) in O. change (cluster_buf sb) with (patch (i * 32 + o) bs (cluster_buf s)) in O. rewrite Hfront in O.
  split; [apply (step_trans _ _ _ sb); [by eapply step_weaken, Sb|done]|]. destruct ok; [done|]. destruct O as [O1 O2]. split; [done|].
  apply (O2 (cluster_lba s c + (i * 32 + o) / 512)). intros l Hrun Hne. change (cluster_lba sb c) with (cluster_lba s c).
  change (cdat sb c) with (cdat s c). unfold chunk_at. change (Z.to_nat 512) with 512%nat.
  change (cluster_lba sb c) with (cluster_lba s c) in Hrun. unfold in_run in Hrun.
  apply patch_ne; [lia|lia|lia|]. Z.to_euclidean_division_equations. lia.
Qed.

(** ** The bytes of a new entry *)

Lemma length_to_short_name name : length (to_short_name name) = 11%nat.
Proof.
  unfold to_short_name, pad. rewrite !length_app, !length_replicate, !length_map, !length_take. lia.
Qed.

Record entry_for (raw name : list Z) (attr first size : Z) : Prop := EntryFor {
  ef_length : length raw = 32%nat; ef_bytes : bytes name -> bytes raw;
  ef_name : take 11 raw = name; ef_attr : raw_attr raw = attr;
  ef_first : raw_first_cluster raw = first; ef_size : raw_size raw = size
}.

Lemma fill_dir_entry_spec raw name attr first size :
  length raw = 32%nat -> length name = 11%nat -> 0 <= attr < 256 -> 0 <= first < 2 ^ 32 -> 0 <= size < 2 ^ 32 ->
  entry_for (fill_dir_entry raw name attr first size) name attr first size.
Proof.
  intros Hr Hn Ha Hf Hs. unfold fill_dir_entry.
  do 12 (destruct name as [|? name]; [try done|]); [|done]. change 0xFF with (2 ^ 8 - 1). rewrite !land_ones_mod, !Z.shiftr_div_pow2 by lia.
  rewrite patch_full by (by rewrite Hr). constructor; try done.
  - intros Hy. apply Forall_app. split; [done|]. repeat constructor; try lia; apply Z.mod_pos_bound; done.
  - unfold raw_first_cluster, rd_u16, field. change (Z.to_nat 20) with 20%nat. change (Z.to_nat 26) with 26%nat.
    cbn [take drop le_get app replicate].
    rewrite Z.shiftl_mul_pow2 by lia. rewrite <-Z.add_nocarry_lor.
    + Z.to_euclidean_division_equations. lia.
    + apply (land_aligned_low _ 16); [lia|Z.to_euclidean_division_equations; lia|by apply Z.mod_mul].
  - unfold raw_size, rd_u32, field. change (Z.to_nat 28) with 28%nat. cbn [take drop le_get app replicate]. Z.to_euclidean_division_equations. lia.
Qed.

(** ** Contents *)

(** The first [size] bytes of a chain. *)
Definition contents s (p : list Z) (size : Z) : list Z := take (Z.to_nat size) (concat (map (cdat s) p)).

Lemma blocks_concat s n : forall data,
  (length data <= n * Z.to_nat (cluster_bytes s))%nat -> take (length data) (concat (map (block_of s data) (seq 0 n))) = data.
Proof.
  induction n as [|n IH]; intros data Hl; [by destruct data; [|cbn in Hl; lia]|].
  set (cb := Z.to_nat (cluster_bytes s)) in *. cbn [seq map concat].
  assert (Hs : map (block_of s data) (seq 1 n) = map (block_of s (drop cb data)) (seq 0 n)).
  { rewrite <-seq_shift, map_map. apply map_ext. intros k. unfold block_of. fold cb. rewrite drop_drop. do 4 f_equal; lia. }
  rewrite Hs. unfold block_of at 1. fold cb. rewrite Nat.mul_0_l, drop_0. cbn zeta.
  destruct (decide (length data <= cb)%nat) as [Hd|Hd].
  - rewrite (take_ge data) by lia. rewrite <-app_assoc. by apply take_app_length.
  - rewrite length_take. replace (cb - cb `min` length data)%nat with 0%nat by lia. cbn [replicate]. rewrite app_nil_r.
    rewrite take_app, length_take, (take_ge (take cb data)) by (rewrite length_take; lia).
    rewrite <-(take_drop cb data) at 5. f_equal. rewrite <-(IH (drop cb data)) at 2 by (rewrite length_drop; lia).
    f_equal. rewrite length_drop. lia.
Qed.

Lemma clusters_for_enough s size : vol s -> 0 <= size < 2 ^ 32 - 32768 -> size <= clusters_for s size * cluster_bytes s.
Proof.
  intros Hv Hs. pose proof (cluster_bytes_range s Hv). unfold clusters_for. rewrite uwrap_id by (unfold fits; lia).
  destruct (Z.eqb_spec ((size + cluster_bytes s - 1) / cluster_bytes s) 0); Z.to_euclidean_division_equations; nia.
Qed.

Lemma allocated_contents s0 s data cs :
  vol s0 -> allocated_ok s0 s data cs -> Z.of_nat (length cs) = clusters_for s0 (Z.of_nat (length data)) ->
  Z.of_nat (length data) < 2 ^ 32 - 32768 -> contents s cs (Z.of_nat (length data)) = data.
Proof.
  intros Hv Ha Hl Hb. unfold contents. rewrite Nat2Z.id.
  assert (E : map (cdat s) cs = map (block_of s0 data) (seq 0 (length cs))).
  { apply list_eq. intros k. rewrite !list_lookup_fmap. destruct (cs !! k) as [c|] eqn:Ek.
    - rewrite lookup_seq_lt by (by apply lookup_lt_Some in Ek). cbn. f_equal. apply (ao_data _ _ _ _ Ha k c Ek).
    - apply lookup_ge_None in Ek. rewrite lookup_seq_ge by done. done. }
  rewrite E. apply blocks_concat. pose proof (clusters_for_enough s0 (Z.of_nat (length data)) Hv ltac:(lia)).
  pose proof (cluster_bytes_range s0 Hv). nia.
Qed.
End Entry.

(** ** The two outcomes of replacing a file *)

Section Write.
Context {W : Type} `{BL : BlockLaws W}.
Implicit Types s : fat32 W.

(** What holds whatever the outcome for the file [name] in the directory [d] with clusters
    [p]: the directory may have grown, every other name stands for the same entry, and
    what is in use elsewhere is untouched; [O] is the chain of the old file. *)
Record outcome s s' (d : Z) (p p' O name : list Z) : Prop := Outcome {
  oc_vol : vol s';
  oc_chain : chain_at s' d p';
  oc_prefix : exists q, p' = p ++ q;
  oc_clean : clean (dents s' p');
  oc_names other : other <> name -> dfind other (dents s' p') = dfind other (dents s p);
  oc_frame c : is_cluster s c -> fatv s c <> 0 -> c ∉ p -> c ∉ O -> fatv s' c = fatv s c /\ cdat s' c = cdat s c
}.

(** The clusters of the old file. *)
Definition apart s (p O : list Z) : Prop := forall c, c ∈ O -> is_cluster s c /\ fatv s c <> 0 /\ c ∉ p.

Lemma grown_free s s2 d p p' x :
  chain_at s d p -> dir_grown s s2 d p p' -> has_entry s x -> fatv s2 x = 0 -> fatv s x = 0.
Proof.
  intros Hc [G1 G2 (q & -> & Hq) _ _] Hx Hz. destruct (decide (fatv s x = 0)) as [|Hnz]; [done|]. exfalso.
  destruct (decide (last p = Some x)) as [Hl|Hl].
  - assert (Hin : x ∈ p ++ q) by (apply elem_of_app; left; by apply last_Some_elem_of). by destruct (chain_at_elem s2 d _ x G1 Hin).
  - apply Hnz. rewrite <-Hz. symmetry. apply (st_fat _ _ _ _ G2); [done|]. by intros [|].
Qed.

Lemma grown_frame s s2 d p p' c :
  dir_grown s s2 d p p' -> is_cluster s c -> fatv s c <> 0 -> c ∉ p -> fatv s2 c = fatv s c /\ cdat s2 c = cdat s c /\ c ∉ p'.
Proof.
  intros [G1 G2 (q & -> & Hq) _ _] Hc Hnz Hp. split_and!.
  - apply (st_fat _ _ _ _ G2); [by apply is_cluster_entry|]. intros [Hl|]; [by apply Hp, last_Some_elem_of|done].
  - by apply (st_dat _ _ _ _ G2).
  - intros [|Hin]%elem_of_app; [done|]. by destruct (Hq c Hin).
Qed.

(** Nothing but free clusters was touched since the directory was prepared. *)
Lemma finish_old s s2 s' d p p' O name :
  vol s -> chain_at s d p -> clean (dents s p) -> apart s p O -> dir_grown s s2 d p p' -> step (free_in s2) (free_in s2) s2 s' ->
  outcome s s' d p p' O name /\ dfind name (dents s' p') = dfind name (dents s p) /\
  (forall c, c ∈ O -> fatv s' c = fatv s c /\ cdat s' c = cdat s c).
Proof.
  intros Hv Hc Hcl HO HG HS. pose proof HG as [G1 G2 G3 _ (z & Hz & Hzf)]. pose proof G1 as [C1 C2 C3 C4].
  assert (Hg : geo s2 = geo s) by apply G2.
  assert (Hframe : forall c, is_cluster s c -> fatv s c <> 0 -> c ∉ p -> fatv s' c = fatv s c /\ cdat s' c = cdat s c).
  { intros c H1 H2 H3. destruct (grown_frame s s2 d p p' c HG H1 H2 H3) as (F1 & F2 & _).
    assert (H1' : is_cluster s2 c) by (by apply (is_cluster_geo s s2)). rewrite <-F1, <-F2.
    split; [apply (st_fat _ _ _ _ HS); [by apply is_cluster_entry|]|apply (st_dat _ _ _ _ HS); [done|]]; unfold free_in; by rewrite F1. }
  assert (Hd : dents s' p' = dents s2 p').
  { apply dents_ext; [apply HS|]. intros c Hin. destruct (chain_at_elem s2 d p' c G1 Hin). by apply (st_dat _ _ _ _ HS). }
  split; [constructor|split].
  - exact (step_vol _ _ _ _ (step_vol _ _ _ _ Hv G2) HS).
  - constructor; try done. apply (is_chain_ext s2); [apply HS| |done].
    intros c Hin. destruct (chain_at_elem s2 d p' c G1 Hin). apply (st_fat _ _ _ _ HS); [by apply is_cluster_entry|done].
  - destruct G3 as (q & -> & _). by exists q.
  - rewrite Hd, Hz. by apply clean_app_end.
  - intros other _. rewrite Hd, Hz. by apply dfind_app_ends.
  - intros c H1 H2 H3 _. by apply Hframe.
  - rewrite Hd, Hz. by apply dfind_app_ends.
  - intros c Hin. destruct (HO c Hin) as (H1 & H2 & H3). by apply Hframe.
Qed.

(** The slot found in the prepared directory: the entry of the name, or a free one. *)
Definition slot_for s2 (p' name : list Z) (pos : Z * Z) : Prop :=
  exists old, dfind name (dents s2 p') = Some (pos, old) \/
    dfind name (dents s2 p') = None /\ dslot (dents s2 p') = Some (pos, old).

Lemma slot_for_elem s2 p' name pos : slot_for s2 p' name pos -> exists old, (pos, old) ∈ dents s2 p'.
Proof. intros (old & [H|[_ H]]); exists old; [by apply dfind_elem in H as []|by apply dslot_elem in H as []]. Qed.

(** The new chain is in place and the entry has been written; the old chain may be gone. *)
Lemma finish_new s s2 s3 s' d p p' O name data cs c i raw first :
  vol s2 -> chain_at s d p -> clean (dents s p) -> apart s p O -> dir_grown s s2 d p p' -> slot_for s2 p' name (c, i) ->
  allocated_ok s2 s3 data cs -> step (fun x => x ∈ O) (eq c) s3 s' ->
  length raw = 32%nat -> cdat s' c = patch (i * 32) raw (cdat s3 c) ->
  entry_for raw name 0x20 first (Z.of_nat (length data)) -> at_z 0 raw 0 <> 0 -> at_z 0 raw 0 <> 0xE5 ->
  outcome s s' d p p' O name /\ dfind name (dents s' p') = Some ((c, i), raw) /\
  (forall x, x ∈ cs -> fatv s' x = fatv s3 x /\ cdat s' x = cdat s3 x /\ fatv s x = 0) /\ is_chain s' cs.
Proof.
  intros Hv2 Hc Hcl HO HG Hslot HA HS Hlr Hd HE Hb0 HbE. pose proof HG as [G1 G2 G3 _ (z & Hz & Hzf)]. pose proof G1 as [C1 C2 C3 C4].
  assert (Hg2 : geo s2 = geo s) by apply G2. pose proof (ao_step _ _ _ _ HA) as HS3. assert (Hg3 : geo s3 = geo s2) by apply HS3.
  destruct (slot_for_elem s2 p' name (c, i) Hslot) as [old Hin]. apply dents_elem in Hin as (Hcp & Hi & ->).
  assert (Hp3 : forall x, x ∈ p' -> is_cluster s2 x /\ (x ∉ cs) /\ (x ∉ O)).
  { intros x Hx. destruct (chain_at_elem s2 d p' x G1 Hx) as [X1 X2]. split; [done|]. split.
    - intros Hx'. by apply X2, (ao_free _ _ _ _ HA).
    - intros Hx'. destruct (HO x Hx') as (H1 & H2 & H3). by apply (grown_frame s s2 d p p' x HG H1 H2 H3). }
  assert (Hcs : forall x, x ∈ cs -> is_cluster s3 x /\ fatv s x = 0 /\ (x ∉ O) /\ x <> c).
  { intros x Hx. pose proof (proj1 (is_chain_elem s3 cs x (ao_chain _ _ _ _ HA) Hx)) as X1. split; [done|].
    assert (X2 : is_cluster s x) by (apply (is_cluster_geo s s3); [congruence|done]).
    assert (X3 : fatv s x = 0) by (apply (grown_free s s2 d p p' x Hc HG); [by apply is_cluster_entry|by apply (ao_free _ _ _ _ HA)]).
    split; [done|]. split; [intros Hx'; by destruct (HO x Hx') as (_ & ? & _)|]. intros ->. by destruct (Hp3 c Hcp) as (_ & ? & _). }
  assert (He3 : forall x, is_cluster s2 x -> is_cluster s3 x) by (intros x; by apply (is_cluster_geo s2 s3)).
  assert (Hsame : forall x, is_cluster s2 x -> x ∉ cs -> fatv s3 x = fatv s2 x /\ cdat s3 x = cdat s2 x).
  { intros x X1 X2. split; [apply (st_fat _ _ _ _ HS3); [by apply is_cluster_entry|done]|by apply (st_dat _ _ _ _ HS3)]. }
  assert (Hfat' : forall x, x ∈ p' -> fatv s' x = fatv s2 x).
  { intros x Hx. destruct (Hp3 x Hx) as (X1 & X2 & X3). rewrite <-(proj1 (Hsame x X1 X2)).
    apply (st_fat _ _ _ _ HS); [by apply is_cluster_entry, He3|done]. }
  assert (Hdents : dents s' p' = dset (c, i) raw (dents s2 p')).
  { destruct (Hp3 c Hcp) as (X1 & X2 & _). assert (Hd2 : cdat s' c = patch (i * 32 + 0) raw (cdat s2 c)).
    { rewrite Hd, Z.add_0_r. f_equal. by apply Hsame. }
    assert (Hr : raw_at (cdat s' c) i = raw).
    { rewrite Hd2, Z.add_0_r. pose proof (cdat_length s2 c Hv2). pose proof (cluster_bytes_range s2 Hv2). unfold raw_at, entries_in_cluster in *.
      apply patch_eq; [lia|done|]. Z.to_euclidean_division_equations. lia. }
    transitivity (dset (c, i) (raw_at (cdat s' c) i) (dents s2 p')); [|by rewrite Hr].
    apply (dents_patch s2 s' p' c i 0 raw); try done; [rewrite (st_geo _ _ _ _ HS); done|by rewrite Hlr|].
    intros x Hx Hne. destruct (Hp3 x Hx) as (Y1 & Y2 & _). rewrite <-(proj2 (Hsame x Y1 Y2)). apply (st_dat _ _ _ _ HS); [by apply He3|congruence]. }
  assert (Hends : ends ((c, i), raw) = false) by by apply Z.eqb_neq.
  assert (Hnamed : named name ((c, i), raw) = true).
  { unfold named. cbn [snd]. rewrite (proj2 (Z.eqb_neq _ _) HbE), (bool_decide_eq_true_2 _ (ef_name _ _ _ _ _ HE)). unfold raw_skipped.
    by rewrite (ef_attr _ _ _ _ _ HE). }
  assert (Hres : dfind name (dents s' p') = Some ((c, i), raw) /\
    (forall other, other <> name -> dfind other (dents s' p') = dfind other (dents s2 p')) /\ clean (dents s' p')).
  { rewrite Hdents. pose proof (dents_nodup s2 p' C2) as Hnd. assert (Hcl2 : clean (dents s2 p')) by (rewrite Hz; by apply clean_app_end).
    destruct Hslot as (o & [Hf|[Hf Hsl]]).
    - destruct (dset_found name (c, i) o raw _ Hnd Hf Hends Hnamed) as (R1 & R2 & R3). auto.
    - by apply (dset_slot name (c, i) o raw). }
  destruct Hres as (R1 & R2 & R3). split; [constructor|split_and!].
  - exact (step_vol _ _ _ _ (ao_vol _ _ _ _ HA) HS).
  - constructor; try done. apply (is_chain_ext s2); [rewrite (st_geo _ _ _ _ HS); done|done|done].
  - destruct G3 as (q & -> & _). by exists q.
  - done.
  - intros other Hne. rewrite R2 by done. rewrite Hz. by apply dfind_app_ends.
  - intros x X1 X2 X3 X4. destruct (grown_frame s s2 d p p' x HG X1 X2 X3) as (F1 & F2 & F3).
    assert (Y1 : is_cluster s2 x) by (by apply (is_cluster_geo s s2)).
    assert (Y2 : x ∉ cs) by (intros Hx; apply X2; by apply Hcs).
    destruct (Hsame x Y1 Y2) as [Y3 Y4]. rewrite <-F1, <-F2, <-Y3, <-Y4.
    split; [apply (st_fat _ _ _ _ HS); [by apply is_cluster_entry, He3|done]|apply (st_dat _ _ _ _ HS); [by apply He3|]]. intros <-. done.
  - done.
  - intros x Hx. destruct (Hcs x Hx) as (X1 & X2 & X3 & X4).
    split; [apply (st_fat _ _ _ _ HS); [by apply is_cluster_entry|done]|]. split; [apply (st_dat _ _ _ _ HS); [done|congruence]|done].
  - apply (is_chain_ext s3); [apply HS| |apply (ao_chain _ _ _ _ HA)]. intros x Hx. destruct (Hcs x Hx) as (X1 & X2 & X3 & X4).
    apply (st_fat _ _ _ _ HS); [by apply is_cluster_entry|done].
Qed.
End Write.

(** * Replacing a file *)

(** ** The calls that follow the commit *)

Section Replace.
Context {W : Type} `{BL : BlockLaws W}.
Implicit Types s : fat32 W.

Lemma le_put_bytes n x : bytes (le_put n x).
Proof. revert x. induction n as [|n IH]; intros x; cbn [le_put]; constructor; [by apply Z.mod_pos_bound|apply IH]. Qed.

(** The FSInfo sector lies outside the table and the clusters. *)
Lemma sync_fsinfo_step s : vol s -> step nowhere nowhere s (fat32_sync_fsinfo s).
Proof.
  intros Hv. unfold fat32_sync_fsinfo. destruct (s_fsinfo_valid (geo s)) eqn:Ei; [|rewrite orb_true_r; apply step_refl].
  pose proof (gw_fsinfo _ (vo_geo s Hv) Ei) as Hf. destruct (geo_facts s Hv) as (H1 & H2 & H3 & H4 & H5 & H6 & H7 & H8 & H9 & H10 & H11).
  destruct (_ || _); [apply step_refl|].
  destruct (disk_read s (s_fsinfo_lba (geo s)) 1) as [buf|] eqn:E; [|apply step_refl].
  apply disk_read_sound in E. rewrite seqZ_one in E. cbn [map concat] in E. rewrite app_nil_r in E. subst buf.
  destruct (_ || _); [apply step_refl|]. set (free := if _ <? _ then _ else _). set (buf := wr_u32 _ _ _).
  assert (Hp : forall o v b, length b = 512%nat -> bytes b -> 0 <= o <= 508 -> length (wr_u32 b o v) = 512%nat /\ bytes (wr_u32 b o v)).
  { intros o v b Hl Hb Ho. unfold wr_u32. split; [rewrite length_patch; rewrite ?length_le_put; lia|].
    apply patch_bytes; [apply le_put_bytes|done]. }
  destruct (Hp 0x1E8 (u32 free) _ (sec_length s (s_fsinfo_lba (geo s)) Hv) (sec_bytes s _) ltac:(lia)) as [P1 P2].
  destruct (Hp 0x1EC 0xFFFFFFFF _ P1 P2 ltac:(lia)) as [P3 P4].
  destruct (disk_write s (s_fsinfo_lba (geo s)) 1 buf) as [s' ok] eqn:Ew. cbn [fst].
  assert (R : 0 <= s_fsinfo_lba (geo s) < volume_end s) by nia.
  destruct (write_one s _ _ s' ok Hv R P3 P4 Ew) as (Hsame & Hne & Hoff & _).
  apply (step_sector nowhere nowhere s s' _ Hsame Hne Hoff).
  - intros c Hc Hl _. exfalso. pose proof (entry_range s c Hv Hc) as (_ & E2 & _). unfold table_lba in Hl. lia.
  - intros c Hc Hin. pose proof (cluster_range s c _ Hv Hc Hin). nia.
Qed.

Lemma free_bytes_step F T s n : step F T s (set_free_bytes n s).
Proof. by apply step_scratch. Qed.

Lemma finish_step s n : vol s -> step nowhere nowhere s (fat32_sync_fsinfo (set_free_bytes n s)).
Proof.
  intros Hv. apply (step_trans _ _ _ (set_free_bytes n s)); [apply free_bytes_step|].
  apply sync_fsinfo_step. apply (step_vol nowhere nowhere s); [done|apply free_bytes_step].
Qed.

(** ** Preparing the slot *)

Lemma keep_same s s' d p : chain_at s d p -> same_disk s s' -> dir_grown s s' d p p.
Proof.
  intros Hc Hs. apply (keep_dir s s' d p 0 Hc); [eapply step_weaken, Hs; by intros ? []|]. intros c _ _. by rewrite (same_fatv s s').
Qed.

Lemma grown_find s s2 d p p' name : dir_grown s s2 d p p' -> dfind name (dents s2 p') = dfind name (dents s p).
Proof. intros [_ _ _ _ (z & -> & Hz)]. by apply dfind_app_ends. Qed.

Definition old_of (raw : list Z) : Z * Z * Z := (raw_attr raw, raw_first_cluster raw, raw_size raw).

Lemma entry_for_write_spec s d p name s2 r :
  vol s -> chain_at s d p -> entry_for_write s d name = (s2, r) ->
  exists p', dir_grown s s2 d p p' /\
    match r with
    | None => off s2 \/ no_room s 1
    | Some (c, i, old) => off s2 \/ (slot_for s2 p' name (c, i) /\
        match dfind name (dents s p) with
        | Some (pos, raw) => old = Some (old_of raw)
        | None => old = None
        end)
    end.
Proof.
  intros Hv Hc. unfold entry_for_write. destruct (locate_dir_entry s d name) as [s1 found] eqn:El.
  destruct (locate_dir_entry_spec s d p name s1 found Hv Hc El) as [Hs Hf]. pose proof (step_vol _ _ _ _ Hv (sd_step _ _ Hs)) as Hv1.
  destruct found as [[c i]|].
  - destruct Hf as [Hf|[? _]]; [|done]. destruct (dfind name (dents s p)) as [[pos raw]|] eqn:Ed; [|done].
    cbn in Hf. injection Hf as <-. pose proof (proj1 (dfind_elem _ _ _ Ed)) as Hin. apply dents_elem in Hin as (Hcp & Hi & ->).
    assert (Hc1 : is_cluster s1 c) by (apply (is_cluster_geo s s1); [apply Hs|by apply (chain_at_elem s d p c Hc)]).
    destruct (read_cluster s1 c) as [s3 ok] eqn:Er. destruct (read_same s1 c s3 ok Hv1 Hc1 Er) as [Hs3 Hb].
    pose proof (same_disk_trans _ _ _ Hs Hs3) as Hs'. destruct ok; cbn [negb]; intros [= <- <-]; exists p; (split; [by apply keep_same|]).
    + right. split.
      * exists (raw_at (cdat s c) i). left. by rewrite (dents_same s s3).
      * unfold old_of. rewrite (raw_at_buf s1 s3 c i Hv1 Hb) by (rewrite (entries_geo s) by apply Hs; done). by rewrite (same_cdat s s1).
    + left. by apply (same_off s1 s3).
  - destruct (find_free_dir_slot s1 d) as [s3 slot] eqn:Es.
    assert (Hc1 : chain_at s1 d p) by (destruct Hc; constructor; try done; by apply (chain_same s)).
    destruct (find_free_dir_slot_spec s1 d p s3 slot Hv1 Hc1 Es) as (p' & HG & Hr).
    pose proof (dir_grown_same s s1 s3 d p p' Hs HG) as HG'.
    assert (Hroom : no_room s1 1 -> no_room s 1).
    { intros (al & Hl & Ha). exists al. split; [done|]. intros c H1 H2. apply Ha; [by apply (is_cluster_geo s s1); [apply Hs|]|].
      unfold free_in. by rewrite (same_fatv s s1). }
    destruct slot as [[c i]|]; intros [= <- <-]; exists p'; (split; [done|]).
    + destruct Hf as [Hf|[_ Ho]]; [right|left; by apply (step_down _ _ _ _ Ho (dg_step _ _ _ _ _ HG'))].
      destruct (dfind name (dents s p)) as [[pos raw]|] eqn:Ed; [done|]. split; [|done].
      destruct Hr as [raw Hraw]. exists raw. right. by rewrite (grown_find s s3 d p p' name HG').
    + destruct Hr as [Hr|Hr]; [by left|right; by apply Hroom].
Qed.
End Replace.

(** ** Replacing a file *)

Section Atomic.
Context {W : Type} `{BL : BlockLaws W}.
Implicit Types s : fat32 W.

Lemma allocated_on s s3 data cs : allocated_ok s s3 data cs -> cs <> [] -> ~ off s.
Proof.
  intros HA Hne Ho. destruct cs as [|c cs]; [done|]. pose proof (ao_free _ _ _ _ HA c (list_elem_of_here _ _)) as Hz.
  destruct (is_chain_elem s3 _ c (ao_chain _ _ _ _ HA) (list_elem_of_here _ _)) as [Hc Hnz].
  destruct (step_down _ _ _ _ Ho (ao_step _ _ _ _ HA)) as (_ & Hf & _). apply Hnz. rewrite Hf; [done|].
  apply is_cluster_entry. by apply (is_cluster_geo s s3); [apply (ao_step _ _ _ _ HA)|].
Qed.

(** The chain of the file an entry names. *)
Definition old_chain s (e : option dentry) (O : list Z) : Prop :=
  match e with
  | Some (_, raw) => if 2 <=? raw_first_cluster raw then chain_at s (raw_first_cluster raw) O else O = []
  | None => O = []
  end.

(** The name stands for a new entry, whose chain of formerly free clusters holds [data]. *)
Definition replaced s s' (p' name data : list Z) : Prop :=
  exists pos raw cs, dfind name (dents s' p') = Some (pos, raw) /\
    entry_for raw name 0x20 (hd 0 cs) (Z.of_nat (length data)) /\ chain_at s' (hd 0 cs) cs /\
    contents s' cs (Z.of_nat (length data)) = data /\ forall c, c ∈ cs -> fatv s c = 0.

(** The name stands for what it stood for, and the old file is intact. *)
Definition unreplaced s s' (p p' name O : list Z) : Prop :=
  dfind name (dents s' p') = dfind name (dents s p) /\ forall c, c ∈ O -> fatv s' c = fatv s c /\ cdat s' c = cdat s c.

(** Once the data is on the disk in [s3]: writing the entry and releasing one of the two
    chains. *)
Definition commit s (c i : Z) (name : list Z) (old_first size : Z) (cs : list Z) : fat32 W * bool :=
  let new_first := at_z 0 cs 0 in
  let '(s, ok) := read_cluster s c in
  if negb ok then (fst (fat_free_chain s new_first), false)
  else
    let raw := fill_dir_entry (raw_at (cluster_buf s) i) name 0x20 new_first size in
    let s := set_buf (put_raw i raw (cluster_buf s)) s in
    let '(s, ok) := write_cluster s c in
    if negb ok then (fst (fat_free_chain s new_first), false)
    else
      let '(s, freed) := if 2 <=? old_first then fat_free_chain s old_first else (s, Some 0) in
      match freed with None => (s, false) | Some _ => (s, true) end.

Lemma off_keeps s s' F T : off s -> step F T s s' -> step nowhere nowhere s s'.
Proof.
  intros Ho HS. destruct (step_down _ _ _ _ Ho HS) as (H1 & H2 & H3). destruct HS. by constructor; auto.
Qed.

Lemma commit_spec s2 s3 data cs c i name old_first O s' ok :
  vol s2 -> allocated_ok s2 s3 data cs -> cs <> [] -> is_cluster s2 c -> 0 <= i < entries_in_cluster s2 ->
  length name = 11%nat -> bytes name -> Z.of_nat (length data) < 2 ^ 32 ->
  (if 2 <=? old_first then chain_at s3 old_first O else O = []) ->
  commit s3 c i name old_first (Z.of_nat (length data)) cs = (s', ok) ->
  exists raw, length raw = 32%nat /\ entry_for raw name 0x20 (hd 0 cs) (Z.of_nat (length data)) /\ at_z 0 raw 0 = at_z 0 name 0 /\
    (if ok then step (fun x => x ∈ O) (eq c) s3 s' /\ cdat s' c = patch (i * 32) raw (cdat s3 c) /\ forall x, x ∈ O -> fatv s' x = 0
     else off s' /\ (step nowhere nowhere s3 s' \/ step (fun x => x ∈ O) (eq c) s3 s' /\ cdat s' c = patch (i * 32) raw (cdat s3 c))).
Proof.
  intros Hv2 HA Hne Hc Hi Hln Hyn Hsz HO. pose proof (ao_vol _ _ _ _ HA) as Hv3. pose proof (ao_step _ _ _ _ HA) as HS.
  assert (Hnew : chain_at s3 (hd 0 cs) cs) by (constructor; [apply HA|apply HA|done|done]).
  assert (Hfirst : at_z 0 cs 0 = hd 0 cs) by (by destruct cs).
  assert (Hc3 : is_cluster s3 c) by (apply (is_cluster_geo s2 s3); [apply HS|done]).
  assert (Hf32 : 0 <= hd 0 cs < 2 ^ 32).
  { destruct Hnew as [H _ _ _]. destruct cs as [|x cs]; [done|]. destruct H as [H _]. pose proof (max_small s3 Hv3). cbn [hd].
    unfold is_cluster, FAT32_BAD_CLUSTER in *. lia. }
  unfold commit. rewrite Hfirst. destruct (read_cluster s3 c) as [s4 ok4] eqn:E4. destruct (read_same s3 c s4 ok4 Hv3 Hc3 E4) as [H4 Hb].
  pose proof (step_vol _ _ _ _ Hv3 (sd_step _ _ H4)) as Hv4. set (raw0 := raw_at (cluster_buf s4) i).
  assert (Hic : i * 32 + 32 <= 32768).
  { pose proof (cluster_bytes_range s2 Hv2). unfold entries_in_cluster in Hi. Z.to_euclidean_division_equations. lia. }
  assert (Hr0 : length raw0 = 32%nat).
  { unfold raw0, raw_at. rewrite length_take, length_drop, (vo_buf s4 Hv4). unfold MAX_CLUSTER_SECTORS, SECTOR_SIZE. lia. }
  pose proof (fill_dir_entry_spec raw0 name 0x20 (hd 0 cs) (Z.of_nat (length data)) Hr0 Hln ltac:(lia) Hf32 ltac:(lia)) as HE.
  set (raw := fill_dir_entry raw0 name 0x20 (hd 0 cs) (Z.of_nat (length data))) in *. pose proof (ef_length _ _ _ _ _ HE) as Hlr.
  assert (Hfree : forall s, chain_at s (hd 0 cs) cs -> vol s -> off s -> step nowhere nowhere s (fst (fat_free_chain s (hd 0 cs)))).
  { intros s Hch Hv Ho. destruct (fat_free_chain s (hd 0 cs)) as [sx r] eqn:E. destruct (fat_free_chain_spec s _ cs sx r Hv Hch E) as (HF & _).
    exact (off_keeps s sx _ _ Ho HF). }
  assert (Hch4 : chain_at s4 (hd 0 cs) cs) by (destruct Hnew; constructor; try done; by apply (chain_same s3)).
  intros H. exists raw. split; [done|]. split; [done|]. split.
  { rewrite <-(ef_name _ _ _ _ _ HE). unfold at_z. change (Z.to_nat 0) with 0%nat. by destruct raw. }
  destruct ok4; cbn [negb] in H.
  2:{ injection H as <- <-. assert (Ho4 : off s4) by (by apply (same_off s3 s4)). pose proof (Hfree s4 Hch4 Hv4 Ho4) as HF.
      split; [by apply (step_down _ _ _ _ Ho4 HF)|left]. apply (step_trans _ _ _ s4); [apply H4|done]. }
  unfold put_raw in H. rewrite <-(Z.add_0_r (i * 32)) in H.
  destruct (write_cluster _ c) as [s5 ok5] eqn:E5.
  assert (Hi4 : 0 <= i < entries_in_cluster s4) by (rewrite (entries_geo s2); [done|]; rewrite (st_geo _ _ _ _ (sd_step _ _ H4)); apply HS).
  assert (Hcb : take (Z.to_nat (cluster_bytes s4)) (cluster_buf s4) = cdat s4 c).
  { rewrite (same_cdat s3 s4) by done. rewrite <-Hb. unfold cluster_bytes. by rewrite (st_geo _ _ _ _ (sd_step _ _ H4)). }
  assert (Hc4 : is_cluster s4 c) by (apply (is_cluster_geo s3 s4); [apply H4|done]).
  destruct (write_entry_spec s4 c i 0 raw s5 ok5 Hv4 Hc4 Hi4 ltac:(lia) ltac:(rewrite Hlr; lia) (ef_bytes _ _ _ _ _ HE Hyn) Hcb E5) as [S5 O5].
  rewrite Z.add_0_r, (same_cdat s3 s4) in O5 by done. pose proof (step_vol _ _ _ _ Hv4 S5) as Hv5.
  assert (S35 : step nowhere (eq c) s3 s5) by (apply (step_trans _ _ _ s4); [by eapply step_weaken, H4|done]).
  assert (Hchain : forall q, is_chain s3 q -> is_chain s5 q).
  { intros q Hq. apply (is_chain_ext s3); [apply S35| |done]. intros x Hx. apply (st_fat _ _ _ _ S35); [|auto].
    by apply is_cluster_entry, (is_chain_elem s3 q x Hq). }
  destruct ok5; cbn [negb] in H.
  - destruct O5 as [_ O5]. destruct (2 <=? old_first).
    + assert (HO5 : chain_at s5 old_first O) by (destruct HO; constructor; auto).
      destruct (fat_free_chain s5 old_first) as [s6 r] eqn:E6. destruct (fat_free_chain_spec s5 old_first O s6 r Hv5 HO5 E6) as (S6 & _ & R6).
      assert (S36 : step (fun x => x ∈ O) (eq c) s3 s6) by (apply (step_trans _ _ _ s5); [by eapply step_weaken, S35|by eapply step_weaken, S6]).
      assert (Hd6 : cdat s6 c = patch (i * 32) raw (cdat s3 c)).
      { rewrite <-O5. apply (st_dat _ _ _ _ S6); [apply (is_cluster_geo s3 s5); [apply S35|done]|auto]. }
      destruct r as [k|]; injection H as <- <-; [split_and!; try done; apply R6|]. split; [exact R6|right; done].
    + injection H as <- <-. subst O. split; [by eapply step_weaken, S35|]. split; [done|]. intros x Hx. by apply not_elem_of_nil in Hx.
  - injection H as <- <-. destruct O5 as [Ho5 O5].
    assert (Hch5 : chain_at s5 (hd 0 cs) cs) by (destruct Hch4; constructor; try done; by apply Hchain, HA).
    pose proof (Hfree s5 Hch5 Hv5 Ho5) as HF. split; [by apply (step_down _ _ _ _ Ho5 HF)|].
    assert (Hc5 : is_cluster s5 c) by (apply (is_cluster_geo s3 s5); [apply S35|done]).
    destruct O5 as [O5|O5]; [left|right].
    + apply (step_trans _ _ _ s5); [|done]. destruct S35 as [X1 X2 X3 X4 X5 X6 X7 X8]. constructor; auto.
      intros x Hx _. destruct (decide (x = c)) as [->|Hxc]; [done|]. apply X7; [done|congruence].
    + split; [apply (step_trans _ _ _ s5); [by eapply step_weaken, S35|by eapply step_weaken, HF]|]. rewrite <-O5. apply (st_dat _ _ _ _ HF); auto.
Qed.
End Atomic.

Section WriteFile.
Context {W : Type} `{BL : BlockLaws W}.
Implicit Types s : fat32 W.

(** A name the driver can store: it must not look like a free or a deleted slot. *)
Definition storable (name : list Z) : Prop :=
  bytes (to_short_name name) /\ at_z 0 (to_short_name name) 0 <> 0 /\ at_z 0 (to_short_name name) 0 <> 0xE5.

Definition is_directory (e : option dentry) : bool :=
  match e with Some (_, raw) => has (raw_attr raw) 0x10 | None => false end.

(** The reasons for which a file may not be written. *)
Definition refused s s' (e : option dentry) (size : Z) : Prop :=
  off s' \/ is_directory e = true \/ 256 < clusters_for s size \/ no_room s (S (Z.to_nat (clusters_for s size))).

(** [fat32_write_file] in three steps: the slot, the data, the commit. *)
Lemma write_file_eq s d name data : vol s -> is_cluster s d ->
  fat32_write_file s d name data =
    (let '(s2, slot) := entry_for_write s d (to_short_name name) in
     match slot with
     | None => (s2, false)
     | Some (c, i, old) =>
         let '(old_attr, old_first, old_size) := default (0, 0, 0) old in
         if has old_attr 0x10 then (s2, false)
         else
           let '(s3, chain) := allocate_file_chain s2 data in
           match chain with
           | None => (s3, false)
           | Some cs =>
               let '(s4, ok) := commit s3 c i (to_short_name name) old_first (Z.of_nat (length data)) cs in
               if ok then (fat32_sync_fsinfo (recharge s4 (old_clusters_of s3 old_first old_size) (Z.of_nat (length cs))), true)
               else (s4, false)
           end
     end).
Proof.
  intros Hv Hc. unfold fat32_write_file. rewrite (vo_ready s Hv), (proj2 (valid_cluster_iff s d) Hc). cbn [negb orb].
  destruct (entry_for_write _ _ _) as [s2 [[[c i] old]|]]; [|done]. destruct (default (0, 0, 0) old) as [[oa ofst] osz].
  destruct (has oa 0x10); [done|]. destruct (allocate_file_chain s2 data) as [s3 [cs|]]; [|done]. unfold commit.
  destruct (read_cluster s3 c) as [s4 ok4]. destruct ok4; cbn [negb]; [|done].
  destruct (write_cluster _ c) as [s5 ok5]. destruct ok5; cbn [negb]; [|done].
  destruct (if 2 <=? ofst then fat_free_chain s5 ofst else (s5, Some 0)) as [s6 [k|]]; done.
Qed.

Lemma room_before s s2 d p p' n : chain_at s d p -> dir_grown s s2 d p p' -> no_room s2 n -> no_room s (S n).
Proof.
  intros Hc HG (al & Hl & Ha). destruct (dg_free _ _ _ _ _ HG) as [x Hx]. exists (x :: al). split; [cbn; lia|].
  intros c H1 H2. destruct (decide (c = x)) as [->|Hne]; [apply list_elem_of_here|apply list_elem_of_further].
  apply Ha; [apply (is_cluster_geo s s2); [apply HG|done]|]. apply Hx; [by apply is_cluster_entry|done|done].
Qed.

Lemma clusters_for_geo s s' n : geo s' = geo s -> clusters_for s' n = clusters_for s n.
Proof. unfold clusters_for, cluster_bytes. by intros ->. Qed.

Lemma clusters_pos s size : vol s -> 1 <= clusters_for s size.
Proof.
  intros Hv. unfold clusters_for. pose proof (cluster_bytes_range s Hv).
  assert (0 <= u32 (size + cluster_bytes s - 1) / cluster_bytes s) by (apply Z.div_pos; [by apply Z.mod_pos_bound|lia]).
  destruct (Z.eqb_spec (u32 (size + cluster_bytes s - 1) / cluster_bytes s) 0); lia.
Qed.

(** Accounts and scratch state do not matter. *)
Lemma outcome_step s s4 s5 d p p' O name : outcome s s4 d p p' O name -> geo s4 = geo s -> step nowhere nowhere s4 s5 ->
  outcome s s5 d p p' O name.
Proof.
  intros [C0 C1 C2 C3 C4 C5] Hg HS. assert (Hd : dents s5 p' = dents s4 p').
  { apply dents_ext; [apply HS|]. intros c Hc. apply (st_dat _ _ _ _ HS); [by apply (chain_at_elem s4 d p')|auto]. }
  constructor; [by apply (step_vol _ _ _ _ C0 HS)| |done|by rewrite Hd|by rewrite Hd|].
  - destruct C1 as [H1 H2 H3 H4]. constructor; try done. apply (is_chain_ext s4); [apply HS| |done].
    intros c Hc. apply (st_fat _ _ _ _ HS); [by apply is_cluster_entry, (is_chain_elem s4 p')|auto].
  - intros c H1 H2 H3 H4. destruct (C5 c H1 H2 H3 H4) as [<- <-]. assert (H1' : is_cluster s4 c) by by apply (is_cluster_geo s s4).
    split; [apply (st_fat _ _ _ _ HS); [by apply is_cluster_entry|auto]|apply (st_dat _ _ _ _ HS); auto].
Qed.

Lemma replaced_step s s4 s5 d p' name data : chain_at s4 d p' -> replaced s s4 p' name data -> step nowhere nowhere s4 s5 ->
  replaced s s5 p' name data.
Proof.
  intros Hc (pos & raw & cs & R1 & R2 & R3 & R4 & R5) HS. exists pos, raw, cs.
  rewrite (dents_ext s4 s5 p'); [|apply HS|intros c Hin; apply (st_dat _ _ _ _ HS); [by apply (chain_at_elem s4 d p')|auto]].
  split; [done|]. split; [done|]. split; [|split; [|done]].
  - destruct R3 as [H1 H2 H3 H4]. constructor; try done. apply (is_chain_ext s4); [apply HS| |done].
    intros c Hin. apply (st_fat _ _ _ _ HS); [by apply is_cluster_entry, (is_chain_elem s4 cs)|auto].
  - rewrite <-R4 at 2. unfold contents. f_equal. f_equal. apply map_ext_in. intros c Hin.
    apply (st_dat _ _ _ _ HS); [apply (chain_at_elem s4 _ cs c R3); by apply list_elem_of_In|auto].
Qed.

(** The data is on the disk: what the commit makes of it. *)
Lemma committed s s2 s3 s4 d p p' O name data cs c i old_first ok :
  vol s -> chain_at s d p -> clean (dents s p) -> apart s p O -> storable name -> bytes data ->
  Z.of_nat (length data) < 2 ^ 32 - 32768 -> vol s2 -> dir_grown s s2 d p p' -> slot_for s2 p' (to_short_name name) (c, i) ->
  (if 2 <=? old_first then chain_at s old_first O else O = []) ->
  allocated_ok s2 s3 data cs -> Z.of_nat (length cs) = clusters_for s2 (Z.of_nat (length data)) -> cs <> [] ->
  commit s3 c i (to_short_name name) old_first (Z.of_nat (length data)) cs = (s4, ok) ->
  (geo s4 = geo s /\ vol s4) /\ outcome s s4 d p p' O (to_short_name name) /\
  (if ok then replaced s s4 p' (to_short_name name) data /\ forall x, x ∈ O -> fatv s4 x = 0
   else off s4 /\ (replaced s s4 p' (to_short_name name) data \/ unreplaced s s4 p p' (to_short_name name) O)).
Proof.
  intros Hv Hc Hcl HO (Hyn & Hb0 & HbE) Hyd Hsz Hv2 HG Hslot Hold HA Hlen Hne Hcm.
  destruct (slot_for_elem s2 p' _ (c, i) Hslot) as [old Hin]. apply dents_elem in Hin as (Hcp & Hi & ->).
  pose proof (proj1 (chain_at_elem s2 d p' c (dg_chain _ _ _ _ _ HG) Hcp)) as Hc2.
  assert (HO3 : forall x, x ∈ O -> fatv s3 x = fatv s x).
  { intros x Hx. destruct (HO x Hx) as (H1 & H2 & H3). destruct (grown_frame s s2 d p p' x HG H1 H2 H3) as (F1 & _).
    rewrite <-F1. apply (st_fat _ _ _ _ (ao_step _ _ _ _ HA)).
    - apply is_cluster_entry, (is_cluster_geo s s2); [apply HG|done].
    - intros Hx'. apply H2. rewrite <-F1. by apply (ao_free _ _ _ _ HA). }
  assert (Hg3 : geo s3 = geo s) by (rewrite (st_geo _ _ _ _ (ao_step _ _ _ _ HA)); apply HG).
  assert (Hold3 : if 2 <=? old_first then chain_at s3 old_first O else O = []).
  { destruct (2 <=? old_first); [|done]. destruct Hold. constructor; try done. by apply (is_chain_ext s). }
  destruct (commit_spec s2 s3 data cs c i _ old_first O s4 ok Hv2 HA Hne Hc2 Hi (length_to_short_name name) Hyn ltac:(lia) Hold3 Hcm)
    as (raw & Hlr & HE & Hraw0 & Hr).
  assert (New : step (fun x => x ∈ O) (eq c) s3 s4 -> cdat s4 c = patch (i * 32) raw (cdat s3 c) ->
    outcome s s4 d p p' O (to_short_name name) /\ replaced s s4 p' (to_short_name name) data).
  { intros HS Hd. destruct (finish_new s s2 s3 s4 d p p' O _ data cs c i raw _ Hv2 Hc Hcl HO HG Hslot HA HS Hlr Hd HE) as (R1 & R2 & R3 & R4);
      [by rewrite Hraw0|by rewrite Hraw0|]. split; [done|]. exists (c, i), raw, cs. split; [done|]. split; [done|]. split.
    - constructor; try done. apply HA.
    - split; [|intros x Hx; by apply R3]. rewrite <-(allocated_contents s2 s3 data cs Hv2 HA Hlen Hsz) at 2. unfold contents. f_equal. f_equal.
      apply map_ext_in. intros x Hx. apply R3. by apply list_elem_of_In. }
  assert (Hany : forall F T, step F T s3 s4 -> geo s4 = geo s /\ vol s4).
  { intros F T HS. split; [by rewrite (st_geo _ _ _ _ HS)|]. apply (step_vol _ _ _ _ (ao_vol _ _ _ _ HA) HS). }
  destruct ok.
  - destruct Hr as (HS & Hd & Hz). split; [by apply (Hany _ _ HS)|]. destruct (New HS Hd). auto.
  - destruct Hr as (Ho & [HS|[HS Hd]]).
    + assert (HS2 : step (free_in s2) (free_in s2) s2 s4).
      { apply (step_trans _ _ _ s3); [|by eapply step_weaken, HS; intros ? []].
        eapply step_weaken, (ao_step _ _ _ _ HA); intros x Hx; by apply (ao_free _ _ _ _ HA). }
      destruct (finish_old s s2 s4 d p p' O (to_short_name name) Hv Hc Hcl HO HG HS2) as (R1 & R2 & R3).
      split; [by apply (Hany _ _ HS)|]. split; [done|]. split; [done|]. right. by split.
    + split; [by apply (Hany _ _ HS)|]. destruct (New HS Hd). auto.
Qed.

(** [fat32_write_file] replaces the file or leaves everything in use as it is. *)
Lemma write_file_outcome s d p name data O s' ok :
  vol s -> chain_at s d p -> clean (dents s p) -> storable name -> bytes data ->
  Z.of_nat (length data) < 2 ^ 32 - 32768 ->
  old_chain s (dfind (to_short_name name) (dents s p)) O -> (forall c, c ∈ O -> c ∉ p) ->
  fat32_write_file s d name data = (s', ok) ->
  exists p', outcome s s' d p p' O (to_short_name name) /\
    (if ok then replaced s s' p' (to_short_name name) data /\ forall c, c ∈ O -> fatv s' c = 0
     else (replaced s s' p' (to_short_name name) data \/ unreplaced s s' p p' (to_short_name name) O) /\
          refused s s' (dfind (to_short_name name) (dents s p)) (Z.of_nat (length data))).
Proof.
  intros Hv Hc Hcl Hst Hyd Hsz Hold Hdis. set (sn := to_short_name name). set (size := Z.of_nat (length data)) in *.
  assert (Hcd : is_cluster s d) by (destruct Hc as [H _ <- Hne]; destruct p; [done|apply H]).
  assert (HO : apart s p O).
  { intros c Hin. unfold old_chain in Hold. fold sn in Hold. destruct (dfind sn (dents s p)) as [[pos raw]|]; [|by subst O; apply not_elem_of_nil in Hin].
    destruct (2 <=? _); [|by subst O; apply not_elem_of_nil in Hin]. destruct (chain_at_elem s _ O c Hold Hin). auto. }
  rewrite write_file_eq by done. fold sn. fold size. destruct (entry_for_write s d sn) as [s2 slot] eqn:Ee.
  destruct (entry_for_write_spec s d p sn s2 slot Hv Hc Ee) as (p' & HG & Hslot).
  pose proof (step_vol _ _ _ _ Hv (dg_step _ _ _ _ _ HG)) as Hv2. intros Hrun. exists p'. revert Hrun.
  assert (Old : forall sx, step (free_in s2) (free_in s2) s2 sx -> refused s sx (dfind sn (dents s p)) size ->
    outcome s sx d p p' O sn /\ (replaced s sx p' sn data \/ unreplaced s sx p p' sn O) /\ refused s sx (dfind sn (dents s p)) size).
  { intros sx HS Hr. destruct (finish_old s s2 sx d p p' O sn Hv Hc Hcl HO HG HS) as (R1 & R2 & R3). split; [done|]. split; [|done]. right. by split. }
  assert (Hcf : clusters_for s2 size = clusters_for s size) by (apply clusters_for_geo, HG).
  assert (Hroom : no_room s2 (Z.to_nat (clusters_for s size)) -> no_room s (S (Z.to_nat (clusters_for s size)))) by by apply (room_before s s2 d p p').
  destruct slot as [[[c i] old]|].
  2:{ intros [= <- <-]. apply Old; [apply step_refl|]. destruct Hslot as [|Hs]; [by left|]. right. right. right.
      destruct Hs as (al & Hl & Ha). exists al. split; [lia|done]. }
  destruct (default (0, 0, 0) old) as [[oa ofst] osz] eqn:Eo. destruct (has oa 0x10) eqn:Ed.
  { intros [= <- <-]. apply Old; [apply step_refl|]. destruct Hslot as [|[_ Hs]]; [by left|]. right. left. unfold is_directory.
    destruct (dfind sn (dents s p)) as [[pos raw]|]; subst old; unfold old_of in Eo; cbn [default from_option id] in Eo; injection Eo as <- <- <-; [done|by rewrite has_0_l in Ed]. }
  destruct (allocate_file_chain s2 data) as [s3 chain] eqn:Ea. pose proof (allocate_file_chain_spec s2 data s3 chain Hv2 Hyd Ea) as Hal.
  cbn zeta in Hal. fold size in Hal. rewrite Hcf in Hal. destruct chain as [cs|].
  2:{ destruct Hal as [HS Hr]. intros [= <- <-]. apply Old; [done|]. unfold refused. destruct Hr as [Hr|[Hr|Hr]]; auto. }
  destruct Hal as (HA & Hlen & Hle). assert (Hne : cs <> []).
  { intros ->. cbn in Hlen. revert Hlen. pose proof (clusters_pos s size Hv). lia. }
  destruct Hslot as [Ho|[Hslot Hs]]; [by destruct (allocated_on s2 s3 data cs HA Hne)|].
  assert (Hof : if 2 <=? ofst then chain_at s ofst O else O = []).
  { unfold old_chain in Hold. fold sn in Hold. destruct (dfind sn (dents s p)) as [[pos raw]|]; subst old; unfold old_of in Eo; cbn [default from_option id] in Eo; injection Eo as <- <- <-; done. }
  destruct (commit s3 c i sn ofst size cs) as [s4 okc] eqn:Ec. rewrite <-Hcf in Hlen.
  destruct (committed s s2 s3 s4 d p p' O name data cs c i ofst okc Hv Hc Hcl HO Hst Hyd Hsz Hv2 HG Hslot Hof HA Hlen Hne Ec) as ([Hg4 Hv4] & R1 & R2).
  destruct okc; intros Hr.
  2:{ assert (s4 = s') as <- by congruence. assert (ok = false) as -> by congruence. split; [done|]. destruct R2 as [R2 R3]. split; [done|by left]. }
  injection Hr as <- <-. destruct R2 as [R2 R3]. set (s5 := fat32_sync_fsinfo _). assert (HS : step nowhere nowhere s4 s5) by by apply finish_step.
  split; [by apply (outcome_step s s4)|]. split; [by apply (replaced_step s s4 s5 d), HS; [apply R1|]|].
  intros x Hx. rewrite (st_fat _ _ _ _ HS); auto. apply (has_entry_geo s s4); [done|]. by apply is_cluster_entry, HO.
Qed.
End WriteFile.
