(* ===== verification/FatDelete.v ===== *)
(** Reading, deleting and renaming files of a FAT32 volume: a read returns the leading bytes of
    the chain; deleting and renaming change one directory entry with a single write, so a
    crash leaves the old directory or the new one. *)
From S2P Require Import Prelude Pmm Block Gpt Fat32 FatView FatChain FatDir FatWrite.

(** * Reading *)

Section Read.
Context {W : Type} `{BL : BlockLaws W}.
Implicit Types s : fat32 W.

Lemma fat_read_loop_spec p : forall fuel s size max out s' r,
  vol s -> is_chain s p -> (length p < fuel)%nat -> ~ off s -> Z.of_nat (length out) <= Z.min size max ->
  read_loop fuel s (hd 0 p) size max out = (s', r) ->
  same_disk s s' /\ r = out ++ take (Z.to_nat (Z.min size max) - length out) (concat (map (cdat s) p)).
Proof.
  induction p as [|c p IH]; intros fuel s size max out s' r Hv Hc Hf Ho Hl; (destruct fuel as [|fuel]; [cbn in Hf; lia|]); cbn [read_loop hd].
  { rewrite Z.eqb_refl. cbn [orb map concat]. intros [= <- <-]. rewrite take_nil, app_nil_r. split; [apply same_disk_refl|done]. }
  destruct Hc as (Hcl & Hnz & Hnext & Hrest). destruct (Z.eqb_spec c 0); [unfold is_cluster in Hcl; lia|]. cbn [orb].
  set (total := Z.of_nat (length out)) in *. destruct (Z.ltb_spec total size), (Z.ltb_spec total max); cbn [negb orb].
  2-4: intros [= <- <-]; split; [apply same_disk_refl|]; replace (Z.to_nat (Z.min size max) - length out)%nat with 0%nat by lia; by rewrite take_0, app_nil_r.
  destruct (read_cluster s c) as [s1 ok] eqn:Er. destruct (read_same s c s1 ok Hv Hcl Er) as [Hs Hb]. destruct ok; cbn [negb]; [|done].
  pose proof (step_vol _ _ _ _ Hv (sd_step _ _ Hs)) as Hv1. pose proof (cdat_length s c Hv) as Lc. pose proof (cluster_bytes_range s Hv) as Hr.
  assert (Hcb : cluster_bytes s1 = cluster_bytes s) by (unfold cluster_bytes; by rewrite (st_geo _ _ _ _ (sd_step _ _ Hs))). rewrite Hcb.
  set (m := Z.min (Z.min (cluster_bytes s) (size - total)) (max - total)).
  assert (Hn : take (Z.to_nat m) (cluster_buf s1) = take (Z.to_nat m) (cdat s c)).
  { rewrite <-Hb, take_take. f_equal. lia. }
  assert (Ht : take (Z.to_nat (Z.min size max) - length out) (concat (map (cdat s) (c :: p))) =
    take (Z.to_nat m) (cdat s c) ++ take (Z.to_nat (Z.min size max) - length (out ++ take (Z.to_nat m) (cdat s c))) (concat (map (cdat s) p))).
  { cbn [map concat]. rewrite take_app, length_app, length_take.
    destruct (decide (Z.min size max - total <= cluster_bytes s)).
    - replace (Z.to_nat (Z.min size max) - length out)%nat with (Z.to_nat m) by lia. f_equal. f_equal. lia.
    - rewrite (take_ge (cdat s c)) by lia. rewrite (take_ge (cdat s c)) by lia. f_equal. f_equal. lia. }
  rewrite Hn, Ht. set (out' := out ++ take (Z.to_nat m) (cdat s c)) in *.
  assert (Hl' : Z.of_nat (length out') = total + m) by (unfold out'; rewrite length_app, length_take; lia).
  destruct (Z.leb_spec size (Z.of_nat (length out'))), (Z.leb_spec max (Z.of_nat (length out'))); cbn [orb].
  1-3: intros [= <- <-]; split; [done|]; replace (Z.to_nat (Z.min size max) - length out')%nat with 0%nat by lia; rewrite take_0, app_nil_r; done.
  destruct (fat_next_chain s s1 c p Hv Hs Hcl Hnext) as [->|[? _]]; [|done]. intros H'.
  destruct (IH fuel s1 size max out' s' r Hv1 (chain_same _ _ _ Hs Hrest) ltac:(cbn in Hf; lia) ltac:(by rewrite (same_off s)) ltac:(lia) H') as [R1 R2].
  split; [by apply (same_disk_trans _ s1)|]. rewrite R2. unfold out'. rewrite <-app_assoc. do 3 f_equal.
  f_equal. apply map_ext. intros x. by apply same_cdat.
Qed.

(** Reading a file returns the leading bytes of its chain. *)
Lemma read_file_contents s c p size max s' r :
  vol s -> ~ off s -> chain_at s c p -> 0 <= size -> 0 <= max -> fat32_read_file s c size max = (s', r) ->
  same_disk s s' /\ r = contents s p (Z.min size max).
Proof.
  intros Hv Ho [Hc Hn Hh Hne] Hs Hm. unfold fat32_read_file, contents. rewrite (vo_ready s Hv). cbn [negb orb].
  destruct (Z.eqb_spec max 0), (Z.eqb_spec size 0); cbn [orb].
  1-3: intros [= <- <-]; split; [apply same_disk_refl|]; replace (Z.to_nat (Z.min size max)) with 0%nat by lia; done.
  assert (Hcl : is_cluster s c) by (destruct p; [done|]; subst c; apply Hc).
  rewrite (proj2 (valid_cluster_iff s c) Hcl). cbn [negb]. rewrite <-Hh. intros H.
  destruct (fat_read_loop_spec p (chain_fuel s) s size max [] s' r Hv Hc ltac:(by apply chain_bound) Ho ltac:(cbn; lia) H) as [R1 R2].
  split; [done|]. rewrite R2. cbn [app length]. by rewrite Nat.sub_0_r.
Qed.

Lemma contents_shorter s p n m : m <= n -> contents s p m = take (Z.to_nat m) (contents s p n).
Proof. intros H. unfold contents. rewrite take_take. f_equal. lia. Qed.

End Read.

(** * Deleting and renaming *)

(** ** Lists of entries *)

(** At most one entry of the name. *)
Definition lone (name : list Z) (l : list dentry) : Prop :=
  forall e e', e ∈ l -> e' ∈ l -> named name e = true -> named name e' = true -> e = e'.

Lemma lone_tail name e l : lone name (e :: l) -> lone name l.
Proof. intros H x y Hx Hy. apply H; by apply list_elem_of_further. Qed.

Lemma dfind_none name l : (forall e, e ∈ l -> named name e = false) -> dfind name l = None.
Proof.
  induction l as [|e l IH]; intros H; [done|]. cbn [dfind]. destruct (ends e); [done|].
  rewrite H by apply list_elem_of_here. apply IH. intros x Hx. apply H. by apply list_elem_of_further.
Qed.

(** Two entries with the same name bytes: the name is the key of the list. *)
Lemma named_unique name name' e : named name e = true -> named name' e = true -> name = name'.
Proof.
  unfold named. rewrite !andb_true_iff, !bool_decide_eq_true. intros [_ <-] [_ <-]. done.
Qed.

(** The entry of [name] gives way to one that is not an end mark and that only [name'], if
    anything, is found at. *)
Lemma dset_other name name' pos old raw l :
  NoDup (map fst l) -> dfind name l = Some (pos, old) -> ends (pos, raw) = false ->
  (forall other, other <> name' -> named other (pos, raw) = false) ->
  (forall other, other <> name -> other <> name' -> dfind other (dset pos raw l) = dfind other l) /\
  (clean l -> clean (dset pos raw l)) /\
  (name <> name' -> lone name l -> dfind name (dset pos raw l) = None) /\
  (named name' (pos, raw) = true -> dfind name' l = None -> dfind name' (dset pos raw l) = Some (pos, raw)).
Proof.
  intros Hn Hf He Hm. induction l as [|e l IH]; [done|]. cbn [map] in Hn. apply NoDup_cons in Hn as [Hnin Hn].
  cbn [dfind] in Hf. destruct (ends e) eqn:Ee; [done|]. destruct (named name e) eqn:Em.
  - injection Hf as ->. cbn [dset map fst]. rewrite bool_decide_eq_true_2 by done. fold (dset pos raw l).
    rewrite dset_out by done. cbn [dfind clean]. rewrite He, Ee. split_and!.
    + intros other H1 H2. rewrite Hm by done. destruct (named other (pos, old)) eqn:Eo; [|done].
      by destruct H1; apply (named_unique other name _ Eo).
    + intros [_ H]. split; [congruence|done].
    + intros Hne Hl. rewrite Hm by done. apply dfind_none. intros x Hx. destruct (named name x) eqn:Ex; [|done].
      assert (x = (pos, old)) as -> by (apply Hl; [by apply list_elem_of_further|apply list_elem_of_here|done|done]).
      destruct Hnin. by apply (list_elem_of_fmap_2 fst) in Hx.
    + intros -> _. done.
  - destruct (IH Hn Hf) as (H1 & H2 & H3 & H4).
    assert (Hp : fst e <> pos).
    { intros <-. apply Hnin. apply dfind_elem in Hf as (Hf & _). by apply (list_elem_of_fmap_2 fst) in Hf. }
    cbn [dset map]. rewrite bool_decide_eq_false_2 by done. fold (dset pos raw l). cbn [dfind clean]. rewrite Ee, Em. split_and!.
    + intros other Ha Hb. by rewrite H1.
    + intros [_ H]. split; [congruence|auto].
    + intros Hne Hl. apply H3; [done|by apply (lone_tail name e)].
    + intros Hx. destruct (named name' e); [done|auto].
Qed.

Lemma gone_unnamed pos raw other : at_z 0 raw 0 = 0xE5 -> named other (pos, raw) = false.
Proof. intros H. unfold named. cbn [snd]. by rewrite H. Qed.

Section Delete.
Context {W : Type} `{BL : BlockLaws W}.
Implicit Types s : fat32 W.

(** The directory after a change to the entries of [names]: everything else that is in use,
    the clusters of [O] apart, is as before. *)
Record kept s s' (d : Z) (p O : list Z) (names : list (list Z)) : Prop := Kept {
  kp_vol : vol s';
  kp_chain : chain_at s' d p;
  kp_clean : clean (dents s' p);
  kp_names other : other ∉ names -> dfind other (dents s' p) = dfind other (dents s p);
  kp_frame c : is_cluster s c -> fatv s c <> 0 -> c ∉ p -> c ∉ O -> fatv s' c = fatv s c /\ cdat s' c = cdat s c
}.

Lemma kept_refl s s' d p O names : vol s -> chain_at s d p -> clean (dents s p) -> same_disk s s' -> kept s s' d p O names.
Proof.
  intros Hv Hc Hcl Hs. constructor.
  - by apply (step_vol _ _ _ _ Hv (sd_step _ _ Hs)).
  - destruct Hc. constructor; try done. by apply (chain_same s).
  - by rewrite (dents_same s s').
  - intros other _. by rewrite (dents_same s s').
  - intros c _ _ _ _. by rewrite (same_fatv s s'), (same_cdat s s').
Qed.

(** Later steps outside the directory and the frame. *)
Lemma kept_step s s' s'' d p O names : geo s' = geo s -> kept s s' d p O names -> (forall c, c ∈ O -> c ∉ p) ->
  step (fun x => x ∈ O) nowhere s' s'' -> kept s s'' d p O names.
Proof.
  intros Hg [K1 K2 K3 K4 K5] HO HS. assert (Hd : dents s'' p = dents s' p).
  { apply dents_ext; [apply HS|]. intros c Hc. apply (st_dat _ _ _ _ HS); [by apply (chain_at_elem s' d p)|auto]. }
  constructor; rewrite ?Hd; auto.
  - by apply (step_vol _ _ _ _ K1 HS).
  - destruct K2 as [H1 H2 H3 H4]. constructor; try done. apply (is_chain_ext s'); [apply HS| |done].
    intros c Hc. apply (st_fat _ _ _ _ HS); [by apply is_cluster_entry, (is_chain_elem s' p)|]. intros Hin. by apply (HO c).
  - intros c H1 H2 H3 H4. destruct (K5 c H1 H2 H3 H4) as [<- <-]. assert (H1' : is_cluster s' c) by by apply (is_cluster_geo s s').
    split; [apply (st_fat _ _ _ _ HS); [by apply is_cluster_entry|done]|apply (st_dat _ _ _ _ HS); auto].
Qed.

Lemma raw_at_patch buf i bs : 0 <= i -> (length bs <= 32)%nat -> i * 32 + 32 <= Z.of_nat (length buf) ->
  raw_at (patch (i * 32) bs buf) i = patch 0 bs (raw_at buf i).
Proof.
  intros Hi Hb Hl. unfold raw_at, patch. change (Z.to_nat 0) with 0%nat. rewrite take_0, drop_app_length' by (rewrite length_take; lia).
  cbn [app Nat.add]. rewrite take_app, (take_ge bs) by lia. f_equal. rewrite skipn_firstn_comm, drop_drop. done.
Qed.

(** The first bytes of the entry of a name are written over. *)
Lemma patch_entry s d p O name name' c i raw bs s2 s3 ok :
  vol s -> chain_at s d p -> clean (dents s p) -> dfind name (dents s p) = Some ((c, i), raw) -> same_disk s s2 ->
  take (Z.to_nat (cluster_bytes s)) (cluster_buf s2) = cdat s c -> (length bs <= 32)%nat -> bytes bs ->
  ends ((c, i), patch 0 bs raw) = false -> (forall other, other <> name' -> named other ((c, i), patch 0 bs raw) = false) ->
  write_cluster (set_buf (patch (i * 32) bs (cluster_buf s2)) s2) c = (s3, ok) ->
  step nowhere (eq c) s s3 /\ kept s s3 d p O [name; name'] /\
  (if ok then dents s3 p = dset (c, i) (patch 0 bs raw) (dents s p)
   else off s3 /\ (dents s3 p = dents s p \/ dents s3 p = dset (c, i) (patch 0 bs raw) (dents s p))).
Proof.
  intros Hv Hc Hcl Hf Hs Hbuf Hlb Hyb He Hm Hw. pose proof (proj1 (dfind_elem _ _ _ Hf)) as Hin. apply dents_elem in Hin as (Hcp & Hi & Hraw).
  pose proof (proj1 (chain_at_elem s d p c Hc Hcp)) as Hcc. pose proof (sd_step _ _ Hs) as S2. pose proof (step_vol _ _ _ _ Hv S2) as Hv2.
  assert (Hg2 : geo s2 = geo s) by apply S2. rewrite <-(Z.add_0_r (i * 32)) in Hw.
  destruct (write_entry_spec s2 c i 0 bs s3 ok Hv2 ltac:(by apply (is_cluster_geo s s2)) ltac:(by rewrite (entries_geo s)) ltac:(lia) ltac:(lia) Hyb
    ltac:(rewrite (same_cdat s s2) by done; unfold cluster_bytes in *; by rewrite Hg2) Hw) as [S3 O3].
  assert (S : step nowhere (eq c) s s3) by (apply (step_trans _ _ _ s2); [by eapply step_weaken, S2|done]).
  assert (Hdisj : forall x, x ∈ p -> x <> c -> cdat s3 x = cdat s x).
  { intros x Hx Hne. apply (st_dat _ _ _ _ S); [by apply (chain_at_elem s d p)|congruence]. }
  assert (Hic : i * 32 + 32 <= Z.of_nat (length (cdat s c))).
  { rewrite (cdat_length s c Hv). pose proof (cluster_bytes_range s Hv). unfold entries_in_cluster in Hi. Z.to_euclidean_division_equations. lia. }
  assert (Hnew : cdat s3 c = patch (i * 32 + 0) bs (cdat s c) -> dents s3 p = dset (c, i) (patch 0 bs raw) (dents s p)).
  { intros Hd. rewrite (dents_patch s s3 p c i 0 bs Hv (st_geo _ _ _ _ S) (ca_nodup _ _ _ Hc) Hcp Hi ltac:(lia) ltac:(lia) Hd Hdisj).
    rewrite Hd, Z.add_0_r, raw_at_patch by lia. by rewrite Hraw. }
  assert (Hsame : cdat s3 c = cdat s c -> dents s3 p = dents s p).
  { intros Hd. apply dents_ext; [apply S|]. intros x Hx. destruct (decide (x = c)) as [->|Hne]; auto. }
  rewrite (same_cdat s s2) in O3 by done.
  assert (Hdents : dents s3 p = dents s p \/ dents s3 p = dset (c, i) (patch 0 bs raw) (dents s p)).
  { destruct ok; [right; apply Hnew, O3|]. destruct O3 as [_ [O3|O3]]; auto. }
  split; [done|]. split.
  - destruct (dset_other name name' (c, i) raw (patch 0 bs raw) (dents s p) (dents_nodup s p (ca_nodup _ _ _ Hc)) Hf He Hm) as (D1 & D2 & _).
    constructor.
    + by apply (step_vol _ _ _ _ Hv S).
    + destruct Hc as [H1 H2 H3 H4]. constructor; try done. apply (is_chain_ext s); [apply S| |done].
      intros x Hx. apply (st_fat _ _ _ _ S); [by apply is_cluster_entry, (is_chain_elem s p)|auto].
    + destruct Hdents as [->| ->]; auto.
    + intros other Ho. apply not_elem_of_cons in Ho as [Ho1 Ho]. apply not_elem_of_cons in Ho as [Ho2 _].
      destruct Hdents as [->| ->]; auto.
    + intros x H1 H2 H3 _. split; [apply (st_fat _ _ _ _ S); [by apply is_cluster_entry|auto]|].
      apply (st_dat _ _ _ _ S); [done|]. by intros ->.
  - destruct ok; [apply Hnew, O3|]. split; [apply O3|done].
Qed.

Lemma kept_names s s' d p O n1 n2 : (forall x, x ∈ n1 -> x ∈ n2) -> kept s s' d p O n1 -> kept s s' d p O n2.
Proof. intros Hn [K1 K2 K3 K4 K5]. constructor; auto. Qed.

(** Looking a name up and reading the cluster of its entry. *)
Lemma locate_and_read s d p name s1 found :
  vol s -> chain_at s d p -> locate_dir_entry s d name = (s1, found) ->
  same_disk s s1 /\
  match found with
  | None => off s \/ dfind name (dents s p) = None
  | Some (c, i) => exists raw, dfind name (dents s p) = Some ((c, i), raw) /\ c ∈ p /\
      forall s1' s2 ok, same_disk s s1' -> read_cluster s1' c = (s2, ok) -> same_disk s s2 /\
        (if ok then take (Z.to_nat (cluster_bytes s)) (cluster_buf s2) = cdat s c /\ raw_at (cluster_buf s2) i = raw else off s)
  end.
Proof.
  intros Hv Hc Hloc. destruct (locate_dir_entry_spec s d p name s1 found Hv Hc Hloc) as [Hs Hf]. split; [done|].
  destruct found as [[c i]|].
  - destruct Hf as [Hf|[? _]]; [|done]. destruct (dfind name (dents s p)) as [[pos raw]|] eqn:Ed; [|done]. injection Hf as <-.
    pose proof (proj1 (dfind_elem _ _ _ Ed)) as Hin. apply dents_elem in Hin as (Hcp & Hi & ->). exists (raw_at (cdat s c) i).
    split; [done|]. split; [done|]. intros s1' s2 ok Hs1 Hr. pose proof (step_vol _ _ _ _ Hv (sd_step _ _ Hs1)) as Hv1.
    assert (Hg : geo s1' = geo s) by apply Hs1. assert (Hcc : is_cluster s c) by by apply (chain_at_elem s d p).
    destruct (read_same s1' c s2 ok Hv1 ltac:(by apply (is_cluster_geo s s1')) Hr) as [H2 Hb].
    split; [by apply (same_disk_trans _ s1')|]. destruct ok; [|by apply (same_off s s1')].
    rewrite (same_cdat s s1') in Hb by done. split; [unfold cluster_bytes in *; by rewrite <-Hg|].
    rewrite (raw_at_buf s1' s2 c i Hv1); [by rewrite (same_cdat s s1')|by rewrite (same_cdat s s1')|by rewrite (entries_geo s)].
  - destruct Hf as [Hf|[_ ?]]; [right|by left]. by destruct (dfind name (dents s p)).
Qed.

(** Steps that write no cluster leave the directory alone. *)
Lemma dents_step F s s' d p : chain_at s d p -> step F nowhere s s' -> dents s' p = dents s p.
Proof.
  intros Hc HS. apply dents_ext; [apply HS|]. intros x Hx. apply (st_dat _ _ _ _ HS); [by apply (chain_at_elem s d p)|auto].
Qed.

(** The chain of a deleted file goes back to the table. *)
Lemma release_old s s3 d p O names first s4 r :
  kept s s3 d p O names -> geo s3 = geo s -> (forall x, x ∈ O -> x ∉ p) -> (forall x, x ∈ O -> fatv s3 x = fatv s x) ->
  (if 2 <=? first then chain_at s first O else O = []) ->
  (if 2 <=? first then fat_free_chain s3 first else (s3, Some 0)) = (s4, r) ->
  kept s s4 d p O names /\ geo s4 = geo s /\ dents s4 p = dents s3 p /\
  match r with Some _ => forall x, x ∈ O -> fatv s4 x = 0 | None => off s4 end.
Proof.
  intros K3 Hg3 Hdis Hfat Hold. destruct (2 <=? first).
  - assert (HO3 : chain_at s3 first O).
    { destruct Hold as [H1 H2 H3 H4]. constructor; try done. by apply (is_chain_ext s). }
    intros E. destruct (fat_free_chain_spec s3 _ O s4 r (kp_vol _ _ _ _ _ _ K3) HO3 E) as (S4 & _ & R4).
    split; [by apply (kept_step s s3)|]. split; [by rewrite (st_geo _ _ _ _ S4)|].
    split; [by apply (dents_step (fun x => x ∈ O) s3 s4 d), S4; apply K3|]. destruct r; [apply R4|done].
  - intros [= <- <-]. subst O. split_and!; try done. intros x Hx. by apply not_elem_of_nil in Hx.
Qed.

(** Deleting a file. *)
Lemma delete_file_outcome s d p name c i raw O s' ok :
  vol s -> chain_at s d p -> clean (dents s p) -> dfind (to_short_name name) (dents s p) = Some ((c, i), raw) ->
  has (raw_attr raw) 0x10 = false -> old_chain s (Some ((c, i), raw)) O -> (forall x, x ∈ O -> x ∉ p) ->
  fat32_delete_file s d name = (s', ok) ->
  kept s s' d p O [to_short_name name] /\
  (if ok then dents s' p = dset (c, i) (patch 0 [0xE5] raw) (dents s p) /\ forall x, x ∈ O -> fatv s' x = 0
   else off s' /\ (dents s' p = dset (c, i) (patch 0 [0xE5] raw) (dents s p) \/
                   dents s' p = dents s p /\ forall x, x ∈ O -> fatv s' x = fatv s x /\ cdat s' x = cdat s x)).
Proof.
  intros Hv Hc Hcl Hf Hfile Hold Hdis. set (sn := to_short_name name) in *.
  assert (Hcd : is_cluster s d) by (destruct Hc as [H _ <- Hne]; destruct p; [done|apply H]).
  unfold fat32_delete_file. rewrite (vo_ready s Hv), (proj2 (valid_cluster_iff s d) Hcd). cbn [negb orb]. fold sn.
  destruct (locate_dir_entry s d sn) as [s1 found] eqn:El. destruct (locate_and_read s d p sn s1 found Hv Hc El) as [Hs1 Hfd].
  assert (Same : forall sx, same_disk s sx -> off s -> kept s sx d p O [sn] /\ off sx /\
    (dents sx p = dset (c, i) (patch 0 [0xE5] raw) (dents s p) \/
     dents sx p = dents s p /\ forall x, x ∈ O -> fatv sx x = fatv s x /\ cdat sx x = cdat s x)).
  { intros sx Hx Ho. split; [by apply kept_refl|]. split; [by apply (same_off s sx)|]. right.
    split; [by apply dents_same|]. intros x _. by rewrite (same_fatv s sx), (same_cdat s sx). }
  destruct found as [[c' i']|]; [|intros [= <- <-]; apply Same; [done|by destruct Hfd as [|Hn]; [|rewrite Hn in Hf]]].
  destruct Hfd as (raw' & Hf' & Hcp & Hread). rewrite Hf in Hf'. injection Hf' as <- <- <-.
  destruct (read_cluster s1 c) as [s2 ok2] eqn:E2. destruct (Hread s1 s2 ok2 Hs1 E2) as [Hs2 Hb].
  destruct ok2; cbn [negb]; [|intros [= <- <-]; by apply Same]. destruct Hb as [Hb ->]. rewrite Hfile. cbn [andb negb].
  destruct (write_cluster _ c) as [s3 ok3] eqn:E3.
  assert (HE5 : at_z 0 (patch 0 [0xE5] raw) 0 = 0xE5) by done.
  destruct (patch_entry s d p O sn sn c i raw [0xE5] s2 s3 ok3 Hv Hc Hcl Hf Hs2 Hb ltac:(cbn; lia) ltac:(by repeat constructor)
    ltac:(unfold ends; cbn [snd]; by rewrite HE5) (fun other _ => gone_unnamed _ _ other HE5) E3) as (S3 & K3 & D3).
  apply (kept_names _ _ _ _ _ _ [sn]) in K3; [|intros x; rewrite !elem_of_cons; tauto].
  assert (Hg3 : geo s3 = geo s) by apply S3.
  destruct ok3; cbn [negb].
  2:{ intros [= <- <-]. split; [done|]. destruct D3 as [D3 [Hd|Hd]]; split; auto. right. split; [done|]. intros x Hx.
      assert (Hxc : is_cluster s x /\ fatv s x <> 0).
      { unfold old_chain in Hold. destruct (2 <=? raw_first_cluster raw); [by apply (chain_at_elem s (raw_first_cluster raw) O)|subst O; by apply not_elem_of_nil in Hx]. }
      split; [apply (st_fat _ _ _ _ S3); [apply is_cluster_entry, Hxc|auto]|]. apply (st_dat _ _ _ _ S3); [apply Hxc|].
      intros <-. by apply (Hdis c). }
  unfold old_chain in Hold.
  destruct (if 2 <=? raw_first_cluster raw then fat_free_chain s3 (raw_first_cluster raw) else (s3, Some 0)) as [s4 r] eqn:E4.
  assert (Hfat : forall x, x ∈ O -> fatv s3 x = fatv s x).
  { intros x Hx. apply (st_fat _ _ _ _ S3); [|auto]. destruct (2 <=? raw_first_cluster raw); [|subst O; by apply not_elem_of_nil in Hx].
    by apply is_cluster_entry, (chain_at_elem s (raw_first_cluster raw) O). }
  destruct (release_old s s3 d p O _ _ s4 r K3 Hg3 Hdis Hfat Hold E4) as (K4 & Hg4 & D4 & R4).
  destruct r as [k|]; intros [= <- <-]; [|split; [done|]; split; [done|left; by rewrite D4]].
  set (s5 := fat32_sync_fsinfo _). assert (S5 : step nowhere nowhere s4 s5) by (apply finish_step, K4).
  split; [apply (kept_step s s4 s5); [done|done|done|by eapply step_weaken, S5]|]. split.
  - rewrite <-D3, <-D4. by apply (dents_step nowhere s4 s5 d), S5; apply K4.
  - intros x Hx. rewrite (st_fat _ _ _ _ S5); [by apply R4| |auto]. apply (has_entry_geo s s4); [done|].
    destruct (2 <=? raw_first_cluster raw); [|subst O; by apply not_elem_of_nil in Hx].
    by apply is_cluster_entry, (chain_at_elem s (raw_first_cluster raw) O).
Qed.

(** An entry under another name. *)
Lemma renamed_entry raw name : length raw = 32%nat -> length name = 11%nat ->
  raw_attr (patch 0 name raw) = raw_attr raw /\ raw_first_cluster (patch 0 name raw) = raw_first_cluster raw /\
  raw_size (patch 0 name raw) = raw_size raw /\ take 11 (patch 0 name raw) = name /\ at_z 0 (patch 0 name raw) 0 = at_z 0 name 0.
Proof.
  intros Hr Hn. do 12 (destruct name as [|? name]; [try done|]); [|done].
  do 33 (destruct raw as [|? raw]; [try done|]). done.
Qed.

Lemma entry_length s d p name pos raw : vol s -> chain_at s d p -> dfind name (dents s p) = Some (pos, raw) -> length raw = 32%nat.
Proof.
  intros Hv Hc Hf. destruct pos as [c i]. apply dfind_elem in Hf as (Hin & _). apply dents_elem in Hin as (_ & Hi & ->).
  unfold raw_at. rewrite length_take, length_drop. pose proof (cdat_length s c Hv). pose proof (cluster_bytes_range s Hv).
  unfold entries_in_cluster in Hi. Z.to_euclidean_division_equations. lia.
Qed.

Lemma renamed_at s d p old new c i raw :
  vol s -> chain_at s d p -> storable new -> dfind (to_short_name old) (dents s p) = Some ((c, i), raw) ->
  let e := ((c, i), patch 0 (to_short_name new) raw) in
  ends e = false /\ named (to_short_name new) e = true /\ forall other, other <> to_short_name new -> named other e = false.
Proof.
  intros Hv Hc (_ & Hb0 & HbE) Hf. set (n := to_short_name new) in *. cbn zeta.
  destruct (renamed_entry raw n (entry_length s d p _ _ raw Hv Hc Hf) (length_to_short_name new)) as (A1 & _ & _ & A4 & A5).
  assert (Hnamed : named n ((c, i), patch 0 n raw) = true).
  { apply dfind_elem in Hf as (_ & _ & Hm). revert Hm. unfold named, raw_skipped. cbn [snd]. rewrite A1, A4, A5, !andb_true_iff, !negb_true_iff.
    intros [[_ ->] _]. rewrite bool_decide_eq_true_2 by done. split; [split; [lia|done]|done]. }
  split; [unfold ends; cbn [snd]; rewrite A5; lia|]. split; [done|].
  intros other Hne. destruct (named other _) eqn:Eo; [|done]. by destruct Hne; apply (named_unique _ _ _ Eo).
Qed.

Lemma renamed_found s d p old new c i raw :
  vol s -> chain_at s d p -> storable new -> dfind (to_short_name old) (dents s p) = Some ((c, i), raw) ->
  dfind (to_short_name new) (dents s p) = None -> lone (to_short_name old) (dents s p) ->
  let l := dset (c, i) (patch 0 (to_short_name new) raw) (dents s p) in
  dfind (to_short_name new) l = Some ((c, i), patch 0 (to_short_name new) raw) /\ dfind (to_short_name old) l = None.
Proof.
  intros Hv Hc Hst Hf Hnone Hl. destruct (renamed_at s d p old new c i raw Hv Hc Hst Hf) as (H1 & H2 & H3).
  destruct (dset_other _ _ (c, i) raw _ (dents s p) (dents_nodup s p (ca_nodup _ _ _ Hc)) Hf H1 H3) as (_ & _ & D3 & D4).
  split; [by apply D4|]. apply D3; [|done]. intros E. congruence.
Qed.

(** Renaming to a name that is not taken. *)
Lemma rename_file_outcome s d p old new c i raw s' ok :
  vol s -> chain_at s d p -> clean (dents s p) -> storable new ->
  dfind (to_short_name old) (dents s p) = Some ((c, i), raw) -> dfind (to_short_name new) (dents s p) = None ->
  fat32_rename_file s d old new = (s', ok) ->
  let raw' := patch 0 (to_short_name new) raw in
  kept s s' d p [] [to_short_name old; to_short_name new] /\
  (if ok then dents s' p = dset (c, i) raw' (dents s p)
   else off s' /\ (dents s' p = dents s p \/ dents s' p = dset (c, i) raw' (dents s p))).
Proof.
  intros Hv Hc Hcl (Hyn & Hb0 & HbE) Hf Hnone. set (o := to_short_name old) in *. set (n := to_short_name new) in *.
  assert (Hcd : is_cluster s d) by (destruct Hc as [H _ <- Hne]; destruct p; [done|apply H]).
  unfold fat32_rename_file. rewrite (vo_ready s Hv), (proj2 (valid_cluster_iff s d) Hcd). cbn [negb orb]. fold o n.
  assert (Same : forall sx, same_disk s sx -> off s -> kept s sx d p [] [o; n] /\ off sx /\
    (dents sx p = dents s p \/ dents sx p = dset (c, i) (patch 0 n raw) (dents s p))).
  { intros sx Hx Ho. split; [by apply kept_refl|]. split; [by apply (same_off s sx)|]. left. by apply dents_same. }
  destruct (locate_dir_entry s d o) as [s1 f1] eqn:E1. destruct (locate_and_read s d p o s1 f1 Hv Hc E1) as [Hs1 Hf1].
  destruct f1 as [[c' i']|]; [|intros [= <- <-]; apply Same; [done|by destruct Hf1 as [|Hx]; [|rewrite Hx in Hf]]].
  destruct Hf1 as (raw' & Hf' & Hcp & Hread). rewrite Hf in Hf'. injection Hf' as <- <- <-.
  destruct (locate_dir_entry s1 d n) as [s2 f2] eqn:E2. pose proof (step_vol _ _ _ _ Hv (sd_step _ _ Hs1)) as Hv1.
  assert (Hc1 : chain_at s1 d p) by (destruct Hc; constructor; try done; by apply (chain_same s)).
  destruct (locate_and_read s1 d p n s2 f2 Hv1 Hc1 E2) as [Hs2 Hf2]. pose proof (same_disk_trans _ _ _ Hs1 Hs2) as Hs12.
  destruct f2 as [[c2 i2]|].
  { destruct Hf2 as (raw2 & Hx & _). by rewrite (dents_same s s1), Hnone in Hx. }
  destruct (read_cluster s2 c) as [s3 ok3] eqn:E3. destruct (Hread s2 s3 ok3 Hs12 E3) as [Hs3 Hb].
  destruct ok3; cbn [negb]; [|intros [= <- <-]; by apply Same]. destruct Hb as [Hb _]. intros Hw.
  destruct (renamed_at s d p old new c i raw Hv Hc (conj Hyn (conj Hb0 HbE)) Hf) as (Hends & Hnamed & Hother). fold n in Hends, Hnamed, Hother.
  destruct (patch_entry s d p [] o n c i raw n s3 s' ok Hv Hc Hcl Hf Hs3 Hb ltac:(unfold n; rewrite length_to_short_name; lia) Hyn Hends Hother Hw)
    as (_ & K & D).
  done.
Qed.
End Delete.
