(* ===== verification/FatSpec.v ===== *)
(** What the FAT32 driver promises: writing replaces a file atomically, what was written
    reads back, deleting and renaming change one entry; and the defect in deleting
    directories.  The concrete volume at the end is a small one on a RAM disk. *)
From S2P Require Import Prelude Pmm Block RamDisk Gpt Fat32 FatView FatChain FatDir FatWrite FatDelete.

Section Spec.
Context {W : Type} `{BL : BlockLaws W}.
Implicit Types s : fat32 W.


(** C9. A file on FAT32 reads back what was written: after a successful write, as long as
    the device stays up, looking the name up finds an entry, and reading [max] bytes
    through that entry's first cluster and size returns the first [max] bytes of the
    data, whatever was in the directory before and however many clusters it takes. *)
Theorem fat32_write_read_back s d p name data O s1 s2 found max :
  vol s -> chain_at s d p -> clean (dents s p) -> storable name -> bytes data ->
  Z.of_nat (length data) < 2 ^ 32 - 32768 ->
  old_chain s (dfind (to_short_name name) (dents s p)) O -> (forall c, c ∈ O -> c ∉ p) -> 0 <= max ->
  fat32_write_file s d name data = (s1, true) -> ~ off s1 ->
  locate_dir_entry s1 d (to_short_name name) = (s2, found) ->
  exists c i, found = Some (c, i) /\
    let raw := raw_at (cdat s2 c) i in
    raw_size raw = Z.of_nat (length data) /\ has (raw_attr raw) 0x10 = false /\
    snd (fat32_read_file s2 (raw_first_cluster raw) (raw_size raw) max) = take (Z.to_nat max) data.
Proof.
  intros Hv Hc Hcl Hst Hy Hsz Hold Hdis Hmax Hw Ho Hloc.
  destruct (write_file_outcome s d p name data O s1 true Hv Hc Hcl Hst Hy Hsz Hold Hdis Hw) as (p' & HO & (pos & raw & cs & R1 & R2 & R3 & R4 & _) & _).
  pose proof (oc_vol _ _ _ _ _ _ _ HO) as Hv1.
  destruct (locate_dir_entry_spec s1 d p' _ s2 found Hv1 (oc_chain _ _ _ _ _ _ _ HO) Hloc) as [Hs [Hf|[_ ?]]]; [|done].
  rewrite R1 in Hf. destruct pos as [c i]. cbn in Hf. exists c, i. split; [done|].
  apply dfind_elem in R1 as (Hin & _). apply dents_elem in Hin as (_ & _ & Hraw). rewrite (same_cdat s1 s2) by done. rewrite <-Hraw. cbn zeta.
  rewrite (ef_size _ _ _ _ _ R2), (ef_first _ _ _ _ _ R2), (ef_attr _ _ _ _ _ R2). split; [done|]. split; [done|].
  destruct (fat32_read_file s2 (hd 0 cs) (Z.of_nat (length data)) max) as [s3 r] eqn:Er. cbn [snd].
  assert (Hc2 : chain_at s2 (hd 0 cs) cs) by (destruct R3; constructor; try done; by apply (chain_same s1)).
  destruct (read_file_contents s2 _ cs (Z.of_nat (length data)) max s3 r (step_vol _ _ _ _ Hv1 (sd_step _ _ Hs)) ltac:(by rewrite (same_off s1)) Hc2 ltac:(lia) Hmax Er) as [_ ->].
  assert (E : contents s2 cs (Z.of_nat (length data)) = data).
  { rewrite <-R4 at 2. unfold contents. f_equal. f_equal. apply map_ext. intros x. by apply same_cdat. }
  rewrite (contents_shorter s2 cs (Z.of_nat (length data))) by lia. rewrite E.
  destruct (decide (max <= Z.of_nat (length data))); [by rewrite Z.min_r|]. rewrite Z.min_l, !take_ge by lia. done.
Qed.

(** Deleting a file on FAT32 marks its entry and gives its clusters back, and touches
    nothing else: every other name of the directory and every other cluster in use stays.
    If the device goes down the entry is either still there with the whole file, or
    already marked. *)
Theorem fat32_delete_file_correct s d p name c i raw O s' ok :
  vol s -> chain_at s d p -> clean (dents s p) -> dfind (to_short_name name) (dents s p) = Some ((c, i), raw) ->
  has (raw_attr raw) 0x10 = false -> old_chain s (Some ((c, i), raw)) O -> (forall x, x ∈ O -> x ∉ p) ->
  fat32_delete_file s d name = (s', ok) ->
  kept s s' d p O [to_short_name name] /\
  (if ok then (forall x, x ∈ O -> fatv s' x = 0) /\
     (lone (to_short_name name) (dents s p) -> dfind (to_short_name name) (dents s' p) = None)
   else off s' /\ (dents s' p = dset (c, i) (patch 0 [0xE5] raw) (dents s p) \/
                   dents s' p = dents s p /\ forall x, x ∈ O -> fatv s' x = fatv s x /\ cdat s' x = cdat s x)).
Proof.
  intros Hv Hc Hcl Hf Hfile Hold Hdis Hrun.
  destruct (delete_file_outcome s d p name c i raw O s' ok Hv Hc Hcl Hf Hfile Hold Hdis Hrun) as [HK Ho]. split; [done|].
  destruct ok; [|done]. destruct Ho as [Hd Hz]. split; [done|]. rewrite Hd.
  assert (HE5 : at_z 0 (patch 0 [0xE5] raw) 0 = 0xE5) by done.
  destruct (dset_other (to_short_name name) [] (c, i) raw (patch 0 [0xE5] raw) (dents s p) (dents_nodup s p (ca_nodup _ _ _ Hc)) Hf
    ltac:(unfold ends; cbn [snd]; by rewrite HE5) (fun other _ => gone_unnamed _ _ other HE5)) as (_ & _ & Hn & _).
  apply Hn. intros E. by pose proof (length_to_short_name name) as H; rewrite E in H.
Qed.

(** Renaming a file or directory on FAT32 keeps its attributes, size and clusters, frees
    the old name and takes the new one, and touches nothing else; it is atomic even if the
    device goes down. *)
Theorem fat32_rename_file_correct s d p old new c i raw s' ok :
  vol s -> chain_at s d p -> clean (dents s p) -> storable new ->
  dfind (to_short_name old) (dents s p) = Some ((c, i), raw) -> dfind (to_short_name new) (dents s p) = None ->
  lone (to_short_name old) (dents s p) -> fat32_rename_file s d old new = (s', ok) ->
  kept s s' d p [] [to_short_name old; to_short_name new] /\
  let after := dents s' p in
  let renamed := exists raw', dfind (to_short_name new) after = Some ((c, i), raw') /\
    raw_attr raw' = raw_attr raw /\ raw_first_cluster raw' = raw_first_cluster raw /\ raw_size raw' = raw_size raw /\
    dfind (to_short_name old) after = None in
  if ok then renamed else off s' /\ (after = dents s p \/ renamed).
Proof.
  intros Hv Hc Hcl Hst Hf Hnone Hl Hrun.
  destruct (rename_file_outcome s d p old new c i raw s' ok Hv Hc Hcl Hst Hf Hnone Hrun) as [HK Ho]. split; [done|]. cbn zeta.
  assert (Hren : dents s' p = dset (c, i) (patch 0 (to_short_name new) raw) (dents s p) ->
    dfind (to_short_name new) (dents s' p) = Some ((c, i), patch 0 (to_short_name new) raw) /\ dfind (to_short_name old) (dents s' p) = None).
  { intros Hd. rewrite Hd. by apply (renamed_found s d p old new c i raw). }
  destruct (renamed_entry raw (to_short_name new) (entry_length s d p _ (c, i) raw Hv Hc Hf) (length_to_short_name new)) as (A1 & A2 & A3 & _).
  destruct ok.
  - destruct (Hren Ho). eauto 10.
  - destruct Ho as (Hoff & [Hd|Hd]); (split; [done|]); [by left|right]. destruct (Hren Hd). eauto 10.
Qed.
End Spec.

(** ** Deleting a directory

    [dir_is_empty] lists the directory through the same [cluster_buf] that holds the
    parent's cluster, and the delete then marks the entry in that buffer and writes it. *)
Section DeleteDirectory.
Context {W : Type} `{BL : BlockLaws W}.
Implicit Types s : fat32 W.

(** The buffer after a listing holds the cluster read last. *)
Lemma list_loop_buf s q : forall fuel s1 max out s' r,
  vol s -> ~ off s -> is_chain s q -> same_disk s s1 -> list_loop fuel s1 (hd 0 q) max out = (s', r) ->
  same_disk s s' /\ ((fuel = O \/ q = [] \/ max <= Z.of_nat (length out)) /\ cluster_buf s' = cluster_buf s1 \/
                     exists x, x ∈ q /\ take (Z.to_nat (cluster_bytes s)) (cluster_buf s') = cdat s x).
Proof.
  induction q as [|x q IH]; intros fuel s1 max out s' r Hv Ho Hq Hs; (destruct fuel as [|fuel]; cbn [list_loop hd]);
    try (intros [= <- <-]; split; [done|left; auto]).
  destruct Hq as (Hx & Hnz & Hnext & Hq). destruct (Z.eqb_spec x 0); [unfold is_cluster in Hx; lia|]. cbn [orb].
  destruct (Z.ltb_spec (Z.of_nat (length out)) max); cbn [negb]; [|intros [= <- <-]; split; [done|left; auto]].
  pose proof (step_vol _ _ _ _ Hv (sd_step _ _ Hs)) as Hv1. assert (Hg : geo s1 = geo s) by apply Hs.
  assert (Hx1 : is_cluster s1 x) by (by apply (is_cluster_geo s s1)).
  destruct (read_cluster s1 x) as [s2 ok] eqn:E2. destruct (read_same s1 x s2 ok Hv1 Hx1 E2) as [H2 Hb].
  pose proof (same_disk_trans _ _ _ Hs H2) as Hs2. destruct ok; cbn [negb]; [|by rewrite (same_off s s1) in Hb].
  assert (Hb' : take (Z.to_nat (cluster_bytes s)) (cluster_buf s2) = cdat s x).
  { rewrite (same_cdat s s1) in Hb by done. unfold cluster_bytes in *. by rewrite <-Hg. }
  destruct (list_cluster _ s2 0 max out) as [out' stop].
  destruct stop; [intros [= <- <-]; split; [done|right; exists x; split; [apply list_elem_of_here|done]]|].
  destruct (fat_next_chain s s2 x q Hv Hs2 Hx Hnext) as [->|[? _]]; [|done].
  intros H'. destruct (IH fuel s2 max out' s' r Hv Ho Hq Hs2 H') as [R1 [[_ R2]|(y & Hy & R2)]]; (split; [done|right]).
  - exists x. rewrite R2. split; [apply list_elem_of_here|done].
  - exists y. split; [by apply list_elem_of_further|done].
Qed.

Lemma dir_is_empty_buf s c q s1 s' r : vol s -> ~ off s -> chain_at s c q -> same_disk s s1 -> dir_is_empty s1 c = (s', r) ->
  same_disk s s' /\ exists x, x ∈ q /\ take (Z.to_nat (cluster_bytes s)) (cluster_buf s') = cdat s x.
Proof.
  intros Hv Ho [Hq Hn Hh Hne] Hs. pose proof (step_vol _ _ _ _ Hv (sd_step _ _ Hs)) as Hv1.
  assert (Hc : is_cluster s1 c) by (apply (is_cluster_geo s s1); [apply Hs|]; destruct q; [done|]; subst c; apply Hq).
  unfold dir_is_empty, fat32_list_dir. rewrite (vo_ready s1 Hv1), (proj2 (valid_cluster_iff s1 c) Hc). cbn [negb orb Z.leb Z.compare].
  destruct (list_loop _ s1 c 2 []) as [s2 es] eqn:El. intros [= <- _]. rewrite <-Hh in El.
  destruct (list_loop_buf s q _ s1 2 [] s2 es Hv Ho Hq Hs El) as [R1 [[[R|[R|R]] _]|R]]; try done.
  unfold chain_fuel, is_cluster in *. lia.
Qed.

Lemma clobber_write s s3 c i x s4 :
  vol s -> same_disk s s3 -> is_cluster s c -> 0 <= i < entries_in_cluster s ->
  take (Z.to_nat (cluster_bytes s)) (cluster_buf s3) = cdat s x ->
  write_cluster (set_buf (patch (i * 32) [0xE5] (cluster_buf s3)) s3) c = (s4, true) ->
  step nowhere (eq c) s s4 /\ cdat s4 c = patch (i * 32) [0xE5] (cdat s x).
Proof.
  intros Hv Hs Hc Hi Hb Hw. pose proof (step_vol _ _ _ _ Hv (sd_step _ _ Hs)) as Hv3. set (sb := set_buf _ s3) in *.
  pose proof (cluster_bytes_range s Hv) as Hr. pose proof (vo_buf s3 Hv3) as Lb. assert (Hg : geo s3 = geo s) by apply Hs.
  assert (Hic : i * 32 + 32 <= cluster_bytes s) by (unfold entries_in_cluster in Hi; Z.to_euclidean_division_equations; lia).
  change (Z.to_nat (MAX_CLUSTER_SECTORS * SECTOR_SIZE)) with (Z.to_nat 32768) in Lb.
  assert (Sb : step nowhere nowhere s3 sb).
  { apply step_scratch; try done; [apply length_patch; [lia|cbn; lia]|]. intros Hy. apply patch_bytes; [by repeat constructor|done]. }
  destruct (write_cluster_spec sb c s4 true (step_vol _ _ _ _ Hv3 Sb) ltac:(by apply (is_cluster_geo s sb)) Hw) as (S4 & _ & _ & D4).
  split.
  - apply (step_trans _ _ _ s3); [by eapply step_weaken, (sd_step _ _ Hs)|]. apply (step_trans _ _ _ sb); [by eapply step_weaken, Sb|done].
  - rewrite D4, <-Hb. assert (Hcb : cluster_bytes sb = cluster_bytes s) by (unfold cluster_bytes; cbn [geo sb set_buf]; by rewrite Hg).
    rewrite Hcb. apply take_patch; [lia|cbn [length]; lia|lia].
Qed.

(** Deleting a directory on FAT32 destroys its parent.  The emptiness test fills
    [cluster_buf] with the child's cluster, and the cluster of the parent that holds the
    entry is then overwritten with it: after every successful delete of a directory that
    has clusters, the parent's cluster is a copy of one of the child's, with a deletion
    mark at the entry's place. *)
Theorem delete_directory_clobbers_parent s d p name c i raw q s' :
  vol s -> ~ off s -> chain_at s d p -> dfind (to_short_name name) (dents s p) = Some ((c, i), raw) ->
  has (raw_attr raw) 0x10 = true -> chain_at s (raw_first_cluster raw) q ->
  fat32_delete_file s d name = (s', true) ->
  exists x, x ∈ q /\ cdat s' c = patch (i * 32) [0xE5] (cdat s x).
Proof.
  intros Hv Ho Hc Hf Hdir Hq.
  assert (Hcd : is_cluster s d) by (destruct Hc as [H _ <- Hne]; destruct p; [done|apply H]).
  pose proof (proj1 (dfind_elem _ _ _ Hf)) as Hin. apply dents_elem in Hin as (Hcp & Hi & _).
  pose proof (proj1 (chain_at_elem s d p c Hc Hcp)) as Hcc.
  unfold fat32_delete_file. rewrite (vo_ready s Hv), (proj2 (valid_cluster_iff s d) Hcd). cbn [negb orb].
  destruct (locate_dir_entry s d _) as [s1 found] eqn:El. destruct (locate_and_read s d p _ s1 found Hv Hc El) as [Hs1 Hfd].
  destruct found as [[c' i']|]; [|done]. destruct Hfd as (raw' & Hf' & _ & Hread). rewrite Hf in Hf'. injection Hf' as <- <- <-.
  destruct (read_cluster s1 c) as [s2 ok2] eqn:E2. destruct (Hread s1 s2 ok2 Hs1 E2) as [Hs2 Hb].
  destruct ok2; cbn [negb]; [|done]. destruct Hb as [_ ->]. rewrite Hdir.
  assert (H2 : 2 <= raw_first_cluster raw) by (destruct Hq as [H _ Hh Hne]; destruct q; [done|]; cbn [hd] in Hh; subst; apply H).
  rewrite (proj2 (Z.leb_le 2 _) H2). cbn [andb]. destruct (dir_is_empty s2 _) as [s3 empty] eqn:E3.
  destruct empty; cbn [negb]; [|done]. destruct (write_cluster _ c) as [s4 ok4] eqn:E4. destruct ok4; cbn [negb]; [|done].
  destruct (dir_is_empty_buf s _ q s2 s3 true Hv Ho Hq Hs2 E3) as [Hs3 (x & Hx & Hbx)].
  destruct (clobber_write s s3 c i x s4 Hv Hs3 Hcc Hi Hbx E4) as (S4 & D4). intros Hrun. exists x. split; [done|]. rewrite <-D4.
  assert (Hq4 : chain_at s4 (raw_first_cluster raw) q).
  { destruct Hq as [Q1 Q2 Q3 Q4]. constructor; try done. apply (is_chain_ext s); [apply S4| |done].
    intros y Hy. apply (st_fat _ _ _ _ S4); [by apply is_cluster_entry, (is_chain_elem s q)|auto]. }
  assert (Hc4 : is_cluster s4 c) by (apply (is_cluster_geo s s4); [apply S4|done]).
  destruct (fat_free_chain s4 _) as [s5 [k|]] eqn:E5; [|done]. injection Hrun as <-. pose proof (step_vol _ _ _ _ Hv S4) as Hv4.
  destruct (fat_free_chain_spec s4 _ q s5 (Some k) Hv4 Hq4 E5) as (S5 & _). pose proof (step_vol _ _ _ _ Hv4 S5) as Hv5.
  set (s6 := fat32_sync_fsinfo _). assert (S6 : step nowhere nowhere s5 s6) by by apply finish_step.
  rewrite (st_dat _ _ _ _ S6); [|apply (is_cluster_geo s4 s5); [apply S5|done]|auto].
  apply (st_dat _ _ _ _ S5); auto.
Qed.
End DeleteDirectory.

(** ** A small volume

    One table sector in two copies at sectors 1 and 2, eight clusters of one sector from
    sector 3 on, the root directory in cluster 2. *)
Definition demo_geometry : geometry := Geometry 0 0 11 1 3 1 2 1 9 2 0 false.

Definition demo_table (entries : list Z) : list Z := concat (map (le_put 4) (0x0FFFFFF8 :: 0x0FFFFFFF :: entries)).

(** The table entries of clusters 2, 3, ... and the bytes of clusters 2, 3, ... *)
Definition demo_volume (entries : list Z) (root child : list Z) : fat32 ramdisk :=
  Fat32 (RamDisk {[1 := demo_table entries; 2 := demo_table entries; 3 := root; 4 := child]} 11 100)
    demo_geometry true false 4096 3584 (replicate (Z.to_nat (MAX_CLUSTER_SECTORS * SECTOR_SIZE)) 0).

Lemma demo_vol entries root child : vol (demo_volume entries root child).
Proof.
  constructor.
  - done.
  - constructor; unfold SECTOR_SIZE, MAX_CLUSTER_SECTORS; cbn; lia.
  - exists (BlockDev 512 11 true BLOCK_TRANSPORT_AHCI). done.
  - cbn [cluster_buf demo_volume]. by rewrite length_replicate.
  - cbn [cluster_buf demo_volume]. apply Forall_replicate. lia.
Qed.

Lemma demo_up entries root child : ~ off (demo_volume entries root child).
Proof. done. Qed.

(** Chains and directories, decided. *)
Fixpoint chainb (s : fat32 ramdisk) (p : list Z) : bool :=
  match p with
  | [] => true
  | c :: p => valid_cluster s c && negb (fatv s c =? 0) && (next_of s (fatv s c) =? hd 0 p) && chainb s p
  end.

Lemma chainb_at s c p : chainb s p && bool_decide (NoDup p) && (hd 0 p =? c) && negb (bool_decide (p = [])) = true -> chain_at s c p.
Proof.
  rewrite !andb_true_iff, negb_true_iff, bool_decide_eq_true, bool_decide_eq_false, Z.eqb_eq. intros [[[H Hn] Hh] Hne].
  constructor; try done. clear Hn Hh Hne. induction p as [|x p IH]; [done|]. cbn [chainb is_chain] in *.
  rewrite !andb_true_iff, negb_true_iff, valid_cluster_iff in H. destruct H as [[[H1 H2] H3] H4]. split_and!; try done; [lia|lia|auto].
Qed.

Fixpoint cleanb (l : list dentry) : bool :=
  match l with [] => true | e :: l => (if ends e then forallb ends l else true) && cleanb l end.

Lemma cleanb_clean l : cleanb l = true -> clean l.
Proof.
  induction l as [|e l IH]; [done|]. cbn [cleanb clean]. rewrite andb_true_iff. intros [H1 H2]. split; [|auto].
  intros He. rewrite He in H1. apply Forall_forall. intros x Hx. rewrite forallb_forall in H1. apply H1. by apply list_elem_of_In.
Qed.

Lemma byte_list (l : list Z) : forallb (fun b => (0 <=? b) && (b <? 256)) l = true -> bytes l.
Proof. rewrite forallb_forall. intros H. apply Forall_forall. intros b Hb. apply list_elem_of_In, H in Hb. lia. Qed.

Lemma pair_true {A} (r : A * bool) : snd r = true -> r = (fst r, true).
Proof. destruct r as [a b]. by intros [= ->]. Qed.

(** An empty volume, a file of two clusters, and the volume with that file. *)
Definition demo : fat32 ramdisk := demo_volume [0x0FFFFFFF] [] [].
Definition demo_name : list Z := [97; 46; 116; 120; 116].
Definition demo_other : list Z := [98].
Definition demo_data : list Z := map (fun i => i mod 256) (seqZ 0 700).
Definition demo_file : fat32 ramdisk := fst (fat32_write_file demo 2 demo_name demo_data).

Lemma demo_clean : clean (dents demo [2]).
Proof. apply cleanb_clean. by vm_compute. Qed.

Lemma demo_chain : chain_at demo 2 [2].
Proof. apply chainb_at. by vm_compute. Qed.

Lemma demo_storable : storable demo_name.
Proof. split; [apply byte_list; by vm_compute|done]. Qed.

Lemma demo_storable_other : storable demo_other.
Proof. split; [apply byte_list; by vm_compute|done]. Qed.

Lemma demo_bytes : bytes demo_data.
Proof. apply byte_list. by vm_compute. Qed.

Lemma demo_free : dfind (to_short_name demo_name) (dents demo [2]) = None.
Proof. by vm_compute. Qed.

Lemma demo_written : fat32_write_file demo 2 demo_name demo_data = (demo_file, true).
Proof.
  unfold demo_file. apply pair_true. vm_compute. reflexivity.
Qed.

Lemma demo_size : Z.of_nat (length demo_data) < 2 ^ 32 - 32768.
Proof. by vm_compute. Qed.

Lemma demo_no_old : old_chain demo (dfind (to_short_name demo_name) (dents demo [2])) [].
Proof. rewrite demo_free. done. Qed.

Lemma demo_no_clusters (p : list Z) : forall c, c ∈ [] -> c ∉ p.
Proof. intros c Hc. by apply not_elem_of_nil in Hc. Qed.

(** The entry of the file and the clusters 3 and 4 of its data. *)
Definition demo_raw : list Z := raw_at (cdat demo_file 2) 0.

Lemma demo_file_found : dfind (to_short_name demo_name) (dents demo_file [2]) = Some ((2, 0), demo_raw).
Proof. by vm_compute. Qed.

Lemma demo_file_vol : vol demo_file.
Proof.
  destruct (write_file_outcome demo 2 [2] demo_name demo_data [] demo_file true (demo_vol _ _ _) demo_chain demo_clean demo_storable demo_bytes
    demo_size demo_no_old (demo_no_clusters _) demo_written) as (p' & HO & _).
  apply HO.
Qed.

Lemma demo_file_chain : chain_at demo_file 2 [2].
Proof. apply chainb_at. by vm_compute. Qed.

Lemma demo_file_data : chain_at demo_file (raw_first_cluster demo_raw) [3; 4].
Proof. apply chainb_at. by vm_compute. Qed.

Lemma demo_file_clean : clean (dents demo_file [2]).
Proof. apply cleanb_clean. by vm_compute. Qed.


Lemma fat32_write_read_back_witness :
  exists c i, snd (locate_dir_entry demo_file 2 (to_short_name demo_name)) = Some (c, i) /\
    let s2 := fst (locate_dir_entry demo_file 2 (to_short_name demo_name)) in
    let raw := raw_at (cdat s2 c) i in
    raw_size raw = 700 /\ has (raw_attr raw) 0x10 = false /\
    snd (fat32_read_file s2 (raw_first_cluster raw) (raw_size raw) 600) = take 600 demo_data.
Proof.
  apply (fat32_write_read_back demo 2 [2] demo_name demo_data [] demo_file (fst (locate_dir_entry demo_file 2 (to_short_name demo_name)))
    (snd (locate_dir_entry demo_file 2 (to_short_name demo_name))) 600 (demo_vol _ _ _) demo_chain demo_clean demo_storable demo_bytes
    demo_size demo_no_old (demo_no_clusters _)); [done|apply demo_written|by vm_compute|apply surjective_pairing].
Defined.

(** The file deleted, and renamed. *)
Definition demo_deleted_file : fat32 ramdisk := fst (fat32_delete_file demo_file 2 demo_name).
Definition demo_renamed_file : fat32 ramdisk := fst (fat32_rename_file demo_file 2 demo_name demo_other).

Lemma demo_deleted : fat32_delete_file demo_file 2 demo_name = (demo_deleted_file, true).
Proof.
  unfold demo_deleted_file. apply pair_true. vm_compute. reflexivity.
Qed.

Lemma demo_renamed : fat32_rename_file demo_file 2 demo_name demo_other = (demo_renamed_file, true).
Proof.
  unfold demo_renamed_file. apply pair_true. vm_compute. reflexivity.
Qed.

Lemma demo_is_file : has (raw_attr demo_raw) 0x10 = false.
Proof. by vm_compute. Qed.

Lemma demo_old : old_chain demo_file (Some ((2, 0), demo_raw)) [3; 4].
Proof.
  unfold old_chain. assert (E : (2 <=? raw_first_cluster demo_raw) = true) by (vm_compute; reflexivity). rewrite E.
  apply demo_file_data.
Qed.

Lemma demo_apart x : x ∈ [3; 4] -> x ∉ [2].
Proof. intros H1 H2. apply list_elem_of_singleton in H2 as ->. rewrite !elem_of_cons in H1. destruct H1 as [H|[H|H]]; [done|done|by apply not_elem_of_nil in H]. Qed.

(** Names decided. *)
Definition loneb (name : list Z) (l : list dentry) : bool := (length (filter (fun e => named name e = true) l) <=? 1)%nat.

Lemma loneb_lone name l : loneb name l = true -> lone name l.
Proof.
  unfold loneb. intros H e e' He He' Hn Hn'. apply Nat.leb_le in H.
  assert (K : forall x, x ∈ l -> named name x = true -> x ∈ filter (fun e => named name e = true) l) by (intros; by apply list_elem_of_filter).
  apply K in He; [|done]. apply K in He'; [|done]. destruct (filter _ l) as [|a [|b m]]; [by apply not_elem_of_nil in He| |cbn in H; lia].
  apply list_elem_of_singleton in He, He'. congruence.
Qed.

Lemma demo_lone : lone (to_short_name demo_name) (dents demo_file [2]).
Proof. apply loneb_lone. by vm_compute. Qed.

Lemma fat32_delete_file_correct_witness :
  (forall x, x ∈ [3; 4] -> fatv demo_deleted_file x = 0) /\
  dfind (to_short_name demo_name) (dents demo_deleted_file [2]) = None.
Proof.
  destruct (fat32_delete_file_correct demo_file 2 [2] demo_name 2 0 demo_raw [3; 4] demo_deleted_file true demo_file_vol demo_file_chain
    demo_file_clean demo_file_found demo_is_file demo_old demo_apart demo_deleted) as (_ & H1 & H2).
  split; [exact H1|]. apply H2, demo_lone.
Defined.

Lemma demo_other_free : dfind (to_short_name demo_other) (dents demo_file [2]) = None.
Proof. by vm_compute. Qed.

Lemma fat32_rename_file_correct_witness :
  exists raw', dfind (to_short_name demo_other) (dents demo_renamed_file [2]) = Some ((2, 0), raw') /\
    raw_attr raw' = raw_attr demo_raw /\ raw_first_cluster raw' = raw_first_cluster demo_raw /\ raw_size raw' = raw_size demo_raw /\
    dfind (to_short_name demo_name) (dents demo_renamed_file [2]) = None.
Proof.
  apply (fat32_rename_file_correct demo_file 2 [2] demo_name demo_other 2 0 demo_raw demo_renamed_file true demo_file_vol demo_file_chain
    demo_file_clean demo_storable_other demo_file_found demo_other_free demo_lone demo_renamed).
Defined.

(** A root directory with a file and a directory whose cluster 3 holds the entries of
    itself and its parent. *)
Definition dir_entry (name : list Z) (attr first : Z) : list Z := fill_dir_entry (replicate 32 0) (pad 11 name) attr first 0.
Definition kept_name : list Z := [75].
Definition dir_name : list Z := [68].
Definition dir_volume : fat32 ramdisk :=
  demo_volume [0x0FFFFFFF; 0x0FFFFFFF] (dir_entry kept_name 0x20 0 ++ dir_entry dir_name 0x10 3)
    (dir_entry [46] 0x10 3 ++ dir_entry [46; 46] 0x10 0).
Definition dir_raw : list Z := raw_at (cdat dir_volume 2) 1.
Definition dir_after : fat32 ramdisk := fst (fat32_delete_file dir_volume 2 dir_name).

Lemma dir_deleted : fat32_delete_file dir_volume 2 dir_name = (dir_after, true).
Proof.
  unfold dir_after. apply pair_true. vm_compute. reflexivity.
Qed.

Lemma dir_chain : chain_at dir_volume 2 [2].
Proof. apply chainb_at. by vm_compute. Qed.

Lemma dir_found : dfind (to_short_name dir_name) (dents dir_volume [2]) = Some ((2, 1), dir_raw).
Proof. by vm_compute. Qed.

Lemma dir_is_dir : has (raw_attr dir_raw) 0x10 = true.
Proof. by vm_compute. Qed.

Lemma dir_clusters : chain_at dir_volume (raw_first_cluster dir_raw) [3].
Proof. apply chainb_at. by vm_compute. Qed.

Lemma delete_directory_clobbers_parent_witness :
  is_Some (dfind (to_short_name kept_name) (dents dir_volume [2])) /\
  dfind (to_short_name kept_name) (dents dir_after [2]) = None /\
  exists x, x ∈ [3] /\ cdat dir_after 2 = patch (1 * 32) [0xE5] (cdat dir_volume x).
Proof.
  split; [vm_compute; by eexists|]. split; [vm_compute; reflexivity|].
  apply (delete_directory_clobbers_parent dir_volume 2 [2] dir_name 2 1 dir_raw [3] dir_after (demo_vol _ _ _) (demo_up _ _ _) dir_chain
    dir_found dir_is_dir dir_clusters dir_deleted).
Defined.
