(* ===== verification/FatRepair.v ===== *)
(** Mounting and repairing a FAT32 volume: the rest of [src/drivers/system/fat32.c].

    The bitmap of the repair pass lives in frames of the frame allocator; here it is the
    list of its bytes. *)
From S2P Require Import Prelude Pmm Vmm Block Gpt Fat32.

(** ** The bitmap *)

Definition repair_bit_get (bits : list Z) (cluster : Z) : bool :=
  negb (Z.land (Z.shiftr (at_z 0 bits (Z.shiftr cluster 3)) (Z.land cluster 7)) 1 =? 0).

Definition repair_bit_set (bits : list Z) (cluster : Z) : list Z :=
  let i := Z.shiftr cluster 3 in
  <[Z.to_nat i := u8 (Z.lor (at_z 0 bits i) (Z.shiftl 1 (Z.land cluster 7)))]> bits.

Record report := Report { files : Z; directories : Z; repaired_chains : Z; reclaimed_clusters : Z; free_clusters : Z }.
Definition no_report : report := Report 0 0 0 0 0.

Definition add_file (r : report) := Report (u32 (files r + 1)) (directories r) (repaired_chains r) (reclaimed_clusters r) (free_clusters r).
Definition add_dir (r : report) := Report (files r) (u32 (directories r + 1)) (repaired_chains r) (reclaimed_clusters r) (free_clusters r).
Definition add_chain (r : report) := Report (files r) (directories r) (u32 (repaired_chains r + 1)) (reclaimed_clusters r) (free_clusters r).
Definition add_free (r : report) := Report (files r) (directories r) (repaired_chains r) (reclaimed_clusters r) (u32 (free_clusters r + 1)).
Definition add_reclaimed (r : report) :=
  Report (files r) (directories r) (repaired_chains r) (u32 (reclaimed_clusters r + 1)) (u32 (free_clusters r + 1)).

Section Repair.
Context {W A : Type} `{BD : BlockDevice W, FA : FrameAllocator A}.
Implicit Types s : fat32 W.

(** [repair_mark_chain]: volume, bitmap and report after it, and its result. *)
Fixpoint mark_loop (fuel : nat) s (used : list Z) (r : report) (cluster : Z) : fat32 W * list Z * report * bool :=
  match fuel with
  | O => (s, used, r, false)
  | S fuel =>
      if negb (valid_cluster s cluster) then (s, used, r, false)
      else if repair_bit_get used cluster then (s, used, r, true)
      else
        let used := repair_bit_set used cluster in
        match fat_read_entry s cluster with
        | None => (s, used, r, false)
        | Some next =>
            if (FAT32_EOC <=? next) || (next =? FAT32_BAD_CLUSTER) then (s, used, r, true)
            else if negb (valid_cluster s next) || repair_bit_get used next then
              let '(s, ok) := fat_set_entry s cluster FAT32_EOC in
              if negb ok then (s, used, r, false) else (s, used, add_chain r, true)
            else mark_loop fuel s used r next
        end
  end.

Definition repair_mark_chain s (first : Z) (used : list Z) (r : report) : fat32 W * list Z * report * bool :=
  mark_loop (chain_fuel s) s used r first.

Definition QUEUE_MAX : Z := 1024.

(** One entry of a directory; the last component is the queue of directories, [None] when
    the pass fails. *)
Definition repair_entry s (used : list Z) (r : report) (queue : list Z) (raw : list Z)
    : fat32 W * list Z * report * option (list Z) :=
  if (at_z 0 raw 0 =? 0xE5) || (at_z 0 raw 0 =? 46) || raw_skipped raw then (s, used, r, Some queue)
  else
    let first := raw_first_cluster raw in
    if negb (valid_cluster s first) then (s, used, r, Some queue)
    else
      let already_used := repair_bit_get used first in
      let '(s, used, r, ok) := repair_mark_chain s first used r in
      if negb ok then (s, used, r, None)
      else if has (raw_attr raw) 0x10 then
        if already_used then (s, used, r, Some queue)
        else if QUEUE_MAX <=? Z.of_nat (length queue) then (s, used, r, None)
        else (s, used, r, Some (queue ++ [first]))
      else (s, used, add_file r, Some queue).

(** The entries of the cluster in the buffer; [true]: the end of the directory. *)
Fixpoint repair_entries (n : nat) s (used : list Z) (r : report) (queue : list Z) (i : Z)
    : fat32 W * list Z * report * option (list Z * bool) :=
  match n with
  | O => (s, used, r, Some (queue, false))
  | S n =>
      let raw := raw_at (cluster_buf s) i in
      if at_z 0 raw 0 =? 0 then (s, used, r, Some (queue, true))
      else
        let '(s, used, r, q) := repair_entry s used r queue raw in
        match q with
        | None => (s, used, r, None)
        | Some queue => repair_entries n s used r queue (i + 1)
        end
  end.

(** One directory, cluster by cluster. *)
Fixpoint repair_dir (fuel : nat) s (used : list Z) (r : report) (queue : list Z) (cluster : Z)
    : fat32 W * list Z * report * option (list Z) :=
  match fuel with
  | O => (s, used, r, Some queue)
  | S fuel =>
      if negb (valid_cluster s cluster) then (s, used, r, Some queue)
      else
        let '(s, ok) := read_cluster s cluster in
        if negb ok then (s, used, r, None)
        else
          let '(s, used, r, q) := repair_entries (Z.to_nat (entries_in_cluster s)) s used r queue 0 in
          match q with
          | None => (s, used, r, None)
          | Some (queue, true) => (s, used, r, Some queue)
          | Some (queue, false) =>
              match fat_read_entry s cluster with
              | None => (s, used, r, Some queue)
              | Some next =>
                  if (FAT32_EOC <=? next) || negb (valid_cluster s next) then (s, used, r, Some queue)
                  else repair_dir fuel s used r queue next
              end
          end
  end.

(** The queue of directories from position [i]; it never holds more than [QUEUE_MAX]. *)
Fixpoint repair_queue (fuel : nat) s (used : list Z) (r : report) (queue : list Z) (i : Z)
    : fat32 W * list Z * report * bool :=
  match fuel with
  | O => (s, used, r, true)
  | S fuel =>
      if negb (i <? Z.of_nat (length queue)) then (s, used, r, true)
      else
        let '(s, used, r, q) := repair_dir (chain_fuel s) s used (add_dir r) queue (at_z 0 queue i) in
        match q with
        | None => (s, used, r, false)
        | Some queue => repair_queue fuel s used r queue (i + 1)
        end
  end.

(** The sweep over the clusters from [cluster] on. *)
Fixpoint sweep (n : nat) s (used : list Z) (r : report) (cluster : Z) : fat32 W * report * bool :=
  match n with
  | O => (s, r, true)
  | S n =>
      match fat_read_entry s cluster with
      | None => (s, r, false)
      | Some value =>
          if value =? 0 then sweep n s used (add_free r) (cluster + 1)
          else if negb (value =? FAT32_BAD_CLUSTER) && negb (repair_bit_get used cluster) then
            let '(s, ok) := fat_set_entry s cluster 0 in
            if negb ok then (s, r, false) else sweep n s used (add_reclaimed r) (cluster + 1)
          else sweep n s used r (cluster + 1)
      end
  end.

(** The whole pass once the bitmap is there, up to the release of its frames. *)
Definition repair_pass s (bytes : Z) : fat32 W * report * bool :=
  let used := repair_bit_set (repair_bit_set (replicate (Z.to_nat bytes) 0) 0) 1 in
  let '(s, used, r, ok) := repair_mark_chain s (s_root_cluster (geo s)) used no_report in
  if negb ok then (s, r, false)
  else
    let '(s, used, r, ok) := repair_queue (S (Z.to_nat QUEUE_MAX)) s used r [s_root_cluster (geo s)] 0 in
    if negb ok then (s, r, false) else sweep (Z.to_nat (s_max_cluster (geo s) - 1)) s used r 2.

Definition fat32_check_repair s (frames : A) : fat32 W * A * option report :=
  if negb (s_ready s) then (s, frames, None)
  else
    let bytes := (s_max_cluster (geo s) + 8) / 8 in
    let pages64 := (bytes + PAGE_SIZE - 1) / PAGE_SIZE in
    if (pages64 =? 0) || (0xFFFFFFFF <? pages64) then (s, frames, None)
    else
      let '(frames, phys) := fa_alloc_pages frames pages64 in
      if phys =? 0 then (s, frames, None)
      else
        let '(s, r, ok) := repair_pass s (pages64 * PAGE_SIZE) in
        let frames := fst (fa_free_pages frames phys pages64) in
        if negb ok then (s, frames, None)
        else
          let free := free_clusters r * cluster_bytes s in
          let free := if s_total_bytes s <? free then s_total_bytes s else free in
          (fat32_sync_fsinfo (set_free_bytes free s), frames, Some r).

Definition fat32_shutdown_clean s : fat32 W * bool :=
  if negb (s_ready s) then (s, true)
  else
    let s := fat32_sync_fsinfo s in
    let '(s, ok) := fat32_set_clean_flag s true in
    if negb ok then (s, false)
    else let '(w, ok) := block_flush (disk s) (s_block_device (geo s)) in (set_disk w s, ok).

(** ** Mounting *)

(** The MBR partition entries from [i] on: address and length of the first FAT partition,
    and whether a protective entry was passed. *)
Fixpoint mbr_scan (n : nat) (sector : list Z) (i : Z) (protective : bool) : Z * Z * bool :=
  match n with
  | O => (0, 0, protective)
  | S n =>
      let entry := 0x1BE + i * 16 in
      let type := at_z 0 sector (entry + 4) in
      let protective := protective || (type =? 0xEE) in
      if (type =? 0x0B) || (type =? 0x0C) || (type =? 0x1B) || (type =? 0x1C) || (type =? 0x07) || (type =? 0x0E)
      then (rd_u32 sector (entry + 8), rd_u32 sector (entry + 12), protective)
      else mbr_scan n sector (i + 1) protective
  end.

(** The first GPT partition that can hold the volume. *)
Fixpoint gpt_pick (parts : list gpt_partition) : option (Z * Z) :=
  match parts with
  | [] => None
  | p :: parts =>
      let sectors := u64 (last_lba p - first_lba p + 1) in
      if ((kind p =? GPT_PARTITION_BASIC_DATA) || (kind p =? GPT_PARTITION_EFI_SYSTEM)) &&
         (first_lba p <=? 0xFFFFFFFF) && (sectors <=? 0xFFFFFFFF)
      then Some (first_lba p, sectors) else gpt_pick parts
  end.

(** Where the volume is, from the first sector of the device. *)
Definition find_partition (w : W) (dev : Z) (sector : list Z) : Z * Z :=
  let '(part_lba, part_sectors, protective) := mbr_scan 4 sector 0 false in
  let '(part_lba, part_sectors) :=
    if (part_lba =? 0) && protective then
      match gpt_scan w dev with
      | (rc, parts) => if rc =? 0 then default (part_lba, part_sectors) (gpt_pick parts) else (part_lba, part_sectors)
      end
    else (part_lba, part_sectors) in
  if part_lba =? 0 then
    if (rd_u16 sector 11 =? SECTOR_SIZE) && negb (rd_u32 sector 36 =? 0)
    then (0, if rd_u32 sector 32 =? 0 then 0x0FFFFFFF else rd_u32 sector 32)
    else (part_lba, part_sectors)
  else (part_lba, part_sectors).

(** The limits of the partition: 2^28 sectors at most. *)
Definition clamp_partition (part_lba part_sectors : Z) : Z :=
  let n := if part_sectors <? 1 then 0x0FFFFFFF else part_sectors in
  if 0x10000000 - part_lba <? n then 0x10000000 - part_lba else n.

(** The boot sector of the volume: the geometry without the FSInfo sector. *)
Definition parse_boot (dev : Z) (b : list Z) (part_lba part_sectors : Z) : option geometry :=
  let spc := at_z 0 b 13 in
  let reserved := rd_u16 b 14 in
  let num_fats := at_z 0 b 16 in
  let fat_size := rd_u32 b 36 in
  let root := rd_u32 b 44 in
  if negb (valid_boot_signature b) || negb (rd_u16 b 11 =? SECTOR_SIZE) ||
     (spc =? 0) || (MAX_CLUSTER_SECTORS <? spc) || negb (Z.land spc (spc - 1) =? 0) ||
     (reserved =? 0) || (num_fats =? 0) || (2 <? num_fats) || negb (rd_u16 b 17 =? 0) || negb (rd_u16 b 19 =? 0) ||
     (fat_size =? 0) || (root <? 2) then None
  else
    let total := if rd_u32 b 32 =? 0 then part_sectors else rd_u32 b 32 in
    let total := if (0 <? part_sectors) && (part_sectors <? total) then part_sectors else total in
    let fat_area := u32 (num_fats * fat_size) in
    let first_data := u32 (reserved + fat_area) in
    if total <=? first_data then None
    else
      let data_sectors := total - first_data in
      let clusters := data_sectors / spc in
      if clusters <? 8 then None
      else
        let max := u32 (clusters + 1) in
        if (max <? 2) || (0x0FFFFFEF <? max) || (fat_size * SECTOR_SIZE <? u32 (max + 1) * 4) then None
        else
          let fat_start := u32 (part_lba + reserved) in
          let data_start := u32 (fat_start + fat_area) in
          if (fat_start <? part_lba) || (data_start <? fat_start) || (part_sectors <=? u32 (data_start - part_lba)) then None
          else
            let room := part_sectors - u32 (data_start - part_lba) in
            let data_sectors := if room <? data_sectors then room else data_sectors in
            let max := data_sectors / spc + 1 in
            if max <? root then None
            else Some (Geometry dev part_lba part_sectors fat_start data_start spc root fat_size max num_fats 0 false).

Definition with_fsinfo (lba : Z) (g : geometry) : geometry :=
  Geometry (s_block_device g) (s_partition_lba g) (s_partition_sectors g) (s_fat_start_lba g) (s_data_start_lba g)
    (s_sectors_per_cluster g) (s_root_cluster g) (s_fat_size_sectors g) (s_max_cluster g) (s_num_fats g) lba true.

(** The volume as mounted: geometry, sizes and the free count of the FSInfo sector. *)
Definition mounted s (g : geometry) (b : list Z) : fat32 W :=
  let clusters := s_max_cluster g - 1 in
  let total := clusters * s_sectors_per_cluster g * SECTOR_SIZE in
  let free := if 10 * 1024 * 1024 <? total then total - 10 * 1024 * 1024 else total in
  let s := Fat32 (disk s) g true (s_was_dirty s) total free (cluster_buf s) in
  let fs_info := rd_u16 b 48 in
  if (0 <? fs_info) && (fs_info <? rd_u16 b 14) then
    match disk_read s (u32 (s_partition_lba g + fs_info)) 1 with
    | None => s
    | Some f =>
        if (rd_u32 f 0 =? 0x41615252) && (rd_u32 f 0x1E4 =? 0x61417272) then
          let n := rd_u32 f 0x1E8 in
          let free := if negb (n =? 0xFFFFFFFF) && (n <=? clusters) then n * s_sectors_per_cluster g * SECTOR_SIZE else free in
          Fat32 (disk s) (with_fsinfo (u32 (s_partition_lba g + fs_info)) g) true (s_was_dirty s) total free (cluster_buf s)
        else s
    end
  else s.

Definition set_dirty (d : bool) s : fat32 W :=
  Fat32 (disk s) (geo s) (s_ready s) d (s_total_bytes s) (s_free_bytes s) (cluster_buf s).

Definition no_geometry (dev : Z) : geometry := Geometry dev 0 0 0 0 0 0 0 0 0 0 false.

(** The first writable device with 512-byte sectors. *)
Fixpoint pick_device (ds : list block_device) (i : Z) : Z :=
  match ds with
  | [] => -1
  | d :: ds => if writable d && (block_size d =? SECTOR_SIZE) then i else pick_device ds (i + 1)
  end.

(** The volume found on the device, if any; nothing has been written yet. *)
Definition probe s : option (fat32 W) :=
  let dev := pick_device (block_devices (disk s)) 0 in
  let s := Fat32 (disk s) (no_geometry dev) false (s_was_dirty s) (s_total_bytes s) (s_free_bytes s) (cluster_buf s) in
  sector ← disk_read s 0 1;
  if negb (valid_boot_signature sector) then None
  else
    let '(part_lba, part_sectors) := find_partition (disk s) dev sector in
    if 0x0FFFFFFF <? part_lba then None
    else
      let part_sectors := clamp_partition part_lba part_sectors in
      b ← disk_read s part_lba 1;
      g ← parse_boot dev b part_lba part_sectors;
      Some (mounted s g b).

(** On failure nothing but scratch state has changed: the volume is not ready. *)
Definition fat32_init s (frames : A) : fat32 W * A * bool :=
  if s_ready s then (s, frames, true)
  else
    match probe s with
    | None => (s, frames, false)
    | Some s =>
        let dirty := match fat_read_entry s 1 with Some v => negb (has v 0x08000000) | None => false end in
        let s := set_dirty dirty s in
        let '(s, frames) := if dirty then fst (fat32_check_repair s frames) else (s, frames) in
        (fst (fat32_set_clean_flag s false), frames, true)
    end.
End Repair.
