(* ===== verification/FatMount.v ===== *)
(** Mounting a FAT32 volume: the boot sector is accepted only if the areas it describes are
    in order and inside the partition, as long as the size of a table is sane; a table
    size whose product with the number of copies wraps around is not caught. *)
From S2P Require Import Prelude Pmm Vmm Block Gpt Fat32 FatView FatRepair.

Lemma at_z_byte b i : bytes b -> 0 <= at_z 0 b i < 256.
Proof.
  intros Hb. unfold at_z. rewrite nth_lookup. destruct (b !! Z.to_nat i) as [x|] eqn:E; cbn; [|lia].
  exact (Forall_lookup_1 _ _ _ _ Hb E).
Qed.

Lemma field_bytes b o n : bytes b -> 0 <= field o n b < 256 ^ Z.of_nat n.
Proof.
  intros Hb. unfold field. pose proof (le_get_nonneg (take n (drop o b)) ltac:(by apply Forall_take, Forall_drop)) as H.
  split; [lia|]. eapply Z.lt_le_trans; [apply H|]. apply Z.pow_le_mono_r; [lia|]. rewrite length_take. lia.
Qed.

Lemma clamp_partition_range lba n : 0 <= lba <= 0x0FFFFFFF -> 0 < clamp_partition lba n <= 2 ^ 28 - lba.
Proof.
  intros H. unfold clamp_partition. change (2 ^ 28) with 0x10000000.
  destruct (Z.ltb_spec n 1) as [H1|H1]; [set (m := 0x0FFFFFFF)|set (m := n)]; assert (0 < m) by (unfold m; lia); clearbody m; cbn zeta;
    destruct (Z.ltb_spec (0x10000000 - lba) m); lia.
Qed.

(** C10. An accepted boot sector gives well-formed areas: whatever its bytes, if the size of
    a table is at most 2^25 sectors, then the tables follow the reserved sectors, the
    clusters follow the tables, every cluster has an entry in the tables, the root is a
    cluster, and the last cluster ends inside the partition. *)
Theorem parse_boot_geometry dev b part_lba n g :
  bytes b -> 0 <= dev -> 0 <= part_lba <= 0x0FFFFFFF -> rd_u32 b 36 <= 2 ^ 25 ->
  parse_boot dev b part_lba (clamp_partition part_lba n) = Some g ->
  geo_wf g /\ s_fat_start_lba g = part_lba + rd_u16 b 14 /\
  s_data_start_lba g = s_fat_start_lba g + s_num_fats g * s_fat_size_sectors g /\
  s_data_start_lba g + (s_max_cluster g - 1) * s_sectors_per_cluster g <= part_lba + clamp_partition part_lba n.
Proof.
  intros Hb Hdev Hlba Hfat. pose proof (clamp_partition_range part_lba n Hlba) as Hps. set (ps := clamp_partition part_lba n) in *. clearbody ps.
  unfold parse_boot, u32. pose proof (at_z_byte b 13 Hb) as Hspc. pose proof (at_z_byte b 16 Hb) as Hnf.
  pose proof (field_bytes b (Z.to_nat 14) 2 Hb : 0 <= rd_u16 b 14 < 256 ^ 2) as Hres.
  pose proof (proj1 (field_bytes b (Z.to_nat 36) 4 Hb) : 0 <= rd_u32 b 36) as Hfs.
  generalize dependent (rd_u16 b 14). generalize dependent (rd_u32 b 36). generalize dependent (at_z 0 b 13). generalize dependent (at_z 0 b 16).
  intros nf Hnf spc Hspc fs Hfat Hfs res Hres. generalize (rd_u32 b 32) as t32. generalize (rd_u32 b 44) as root. intros root t32.
  destruct (_ || _) eqn:E; [done|]. rewrite !orb_false_iff in E. destruct E as [[[[[[[[[[[_ _] E1] E2] _] E3] E4] E5] _] _] E6] E7].
  apply Z.eqb_neq in E1, E3, E4, E6. apply Z.ltb_ge in E2, E5, E7. unfold MAX_CLUSTER_SECTORS, SECTOR_SIZE in *.
  set (total := if (0 <? ps) && _ then ps else _). assert (Ht : total <= ps).
  { unfold total. set (t := if t32 =? 0 then ps else t32). destruct (Z.ltb_spec 0 ps), (Z.ltb_spec ps t); cbn [andb]; lia. }
  clearbody total. assert (Hnf2 : nf * fs < 2 ^ 32) by nia. rewrite (Z.mod_small (nf * fs)) by nia. rewrite (Z.mod_small (res + nf * fs)) by nia.
  destruct (Z.leb_spec total (res + nf * fs)); [done|]. set (ds := total - (res + nf * fs)). assert (Hds : 0 < ds <= 2 ^ 28) by (unfold ds; nia).
  destruct (Z.ltb_spec (ds / spc) 8) as [|H8]; [done|]. assert (Hcl : ds / spc <= ds) by (apply Z.div_le_upper_bound; nia).
  rewrite (Z.mod_small (ds / spc + 1)) by lia. destruct (Z.ltb_spec (ds / spc + 1) 2); [done|]. cbn [orb].
  destruct (Z.ltb_spec 0x0FFFFFEF (ds / spc + 1)); [done|]. cbn [orb]. rewrite (Z.mod_small (ds / spc + 1 + 1)) by lia.
  destruct (Z.ltb_spec (fs * 512) ((ds / spc + 1 + 1) * 4)) as [|He]; [done|].
  rewrite (Z.mod_small (part_lba + res)) by lia. rewrite (Z.mod_small (part_lba + res + nf * fs)) by nia.
  replace (part_lba + res + nf * fs - part_lba) with (res + nf * fs) by lia. rewrite (Z.mod_small (res + nf * fs)) by nia.
  destruct (Z.ltb_spec (part_lba + res) part_lba); [done|]. destruct (Z.ltb_spec (part_lba + res + nf * fs) (part_lba + res)); [done|].
  destruct (Z.leb_spec ps (res + nf * fs)); [done|]. cbn [orb].
  assert (Hroom : (ps - (res + nf * fs) <? ds) = false) by (apply Z.ltb_ge; unfold ds; lia). rewrite Hroom.
  destruct (Z.ltb_spec (ds / spc + 1) root); [done|]. intros [= <-]. cbn [s_fat_start_lba s_data_start_lba s_num_fats s_fat_size_sectors s_max_cluster s_sectors_per_cluster].
  assert (Hmul : ds / spc * spc <= ds) by (rewrite Z.mul_comm; apply Z.mul_div_le; lia). clear Hroom.
  split; [|split; [done|split; [lia|unfold ds in *; lia]]].
  constructor; cbn; unfold MAX_CLUSTER_SECTORS, SECTOR_SIZE, ds in *; try lia; done.
Qed.

(** ** Boot sectors

    512-byte sectors and clusters, one reserved sector, two tables of [fat_size] sectors,
    the root in cluster 2. *)
Definition boot_sector (fat_size : Z) : list Z :=
  patch 510 [0x55; 0xAA] (patch 44 (le_put 4 2) (patch 36 (le_put 4 fat_size) (patch 11 [0; 2; 1; 1; 0; 2] (replicate 512 0)))).

Lemma parse_boot_geometry_witness :
  exists g, parse_boot 0 (boot_sector 2) 64 (clamp_partition 64 200) = Some g /\ s_max_cluster g = 196 /\
    geo_wf g /\ s_fat_start_lba g = 64 + rd_u16 (boot_sector 2) 14 /\
    s_data_start_lba g = s_fat_start_lba g + s_num_fats g * s_fat_size_sectors g /\
    s_data_start_lba g + (s_max_cluster g - 1) * s_sectors_per_cluster g <= 64 + clamp_partition 64 200.
Proof.
  eexists. split; [vm_compute; reflexivity|]. split; [reflexivity|].
  apply (parse_boot_geometry 0 (boot_sector 2) 64 200); [|lia|lia|by vm_compute|vm_compute; reflexivity].
  apply Forall_forall. intros x Hx.
  assert (H : forallb (fun b => (0 <=? b) && (b <? 256)) (boot_sector 2) = true) by (vm_compute; reflexivity).
  rewrite forallb_forall in H. apply list_elem_of_In, H in Hx. lia.
Defined.

(** The product of table size and number of copies is taken modulo 2^32 and not
    checked: a boot sector that announces two tables of 2^31 sectors is accepted, with its
    clusters on top of its tables. *)
Theorem parse_boot_table_wraps :
  exists g, parse_boot 0 (boot_sector (2 ^ 31)) 64 (clamp_partition 64 200) = Some g /\
    s_data_start_lba g = s_fat_start_lba g /\ s_fat_size_sectors g = 2 ^ 31 /\ ~ geo_wf g.
Proof.
  eexists. split; [vm_compute; reflexivity|]. split; [reflexivity|]. split; [reflexivity|].
  intros H. pose proof (gw_table _ H) as Ht. by vm_compute in Ht.
Qed.
