(* ===== verification/Iso.v ===== *)
(** CD-ROM volumes: [src/drivers/system/iso9660.c], over the interface [BlockDevice].

    A sector is read into a buffer of 2048 bytes; a read outside it is the result [None].
    The volume in use is an argument, as is the device. *)
From S2P Require Import Prelude Pmm Block.

Definition ISO9660_SECTOR_SIZE : Z := 2048.

Record iso9660_info := IsoInfo {
  i_present : bool; block_device_id : Z; volume_label : list Z; root_lba : Z; root_size : Z; total_bytes : Z
}.

Record iso9660_entry := IsoEntry { e_name : list Z; e_lba : Z; e_size : Z; e_is_dir : bool }.

Section Iso.
Context {W : Type} `{BD : BlockDevice W}.

(** ** Probing *)

(** Without its trailing spaces and zeros. *)
Fixpoint trim_label (rev : list Z) : list Z :=
  match rev with
  | c :: rest => if (c =? 32) || (c =? 0) then trim_label rest else rev
  | [] => []
  end.

Definition iso9660_probe (w : W) (id : Z) : option (iso9660_info * bool) :=
  let absent := IsoInfo false id [] 0 0 0 in
  match block_get_device w id with
  | None => Some (absent, false)
  | Some device =>
      if negb (block_size device =? ISO9660_SECTOR_SIZE) then Some (absent, false)
      else
        match block_read w id 16 1 with
        | None => Some (absent, false)
        | Some img =>
            magic ← slice img 0 6;
            if negb (bool_decide (magic = [1; 67; 68; 48; 48; 49])) then Some (absent, false)
            else
              label ← slice img 40 32;
              total_sec ← rd img 80 4;
              lba ← rd img 158 4;
              size ← rd img 166 4;
              Some (IsoInfo true id (rev (trim_label (rev label))) lba size (total_sec * ISO9660_SECTOR_SIZE), true)
        end
  end.

(** The first read-only device with such sectors and a volume on it. *)
Fixpoint init_loop (n : nat) (w : W) (i : Z) (info : iso9660_info) : option (iso9660_info * bool) :=
  match n with
  | O => Some (info, false)
  | S n =>
      match block_get_device w i with
      | None => init_loop n w (i + 1) info
      | Some device =>
          if negb (writable device) && (block_size device =? ISO9660_SECTOR_SIZE) then
            '(info, ok) ← iso9660_probe w i;
            if ok : bool then Some (info, true) else init_loop n w (i + 1) info
          else init_loop n w (i + 1) info
      end
  end.

Definition iso9660_init (w : W) (info : iso9660_info) : option (iso9660_info * bool) :=
  init_loop (length (block_devices w)) w 0
    (IsoInfo false (block_device_id info) (volume_label info) (root_lba info) (root_size info) (total_bytes info)).

(** ** Directories *)

(** At most 63 characters of a name of [len], up to the version. *)
Fixpoint iso_name (n : nat) (img : list Z) (at_ len : Z) : option (list Z) :=
  match n with
  | O => Some []
  | S n =>
      if len <=? 0 then Some []
      else c ← rd img at_ 1; if c =? 59 then Some [] else name ← iso_name n img (at_ + 1) (len - 1); Some (c :: name)
  end.

(** The records of a sector; [room] entries still fit. *)
Fixpoint iso_records (fuel : nat) (img : list Z) (offset room : Z) : option (list iso9660_entry) :=
  match fuel with
  | O => Some []
  | S fuel =>
      if negb (offset <? ISO9660_SECTOR_SIZE) then Some []
      else
        rec_len ← rd img offset 1;
        if rec_len <? 33 then Some []
        else if ISO9660_SECTOR_SIZE <? offset + rec_len then Some []
        else
          ent_lba ← rd img (offset + 2) 4;
          ent_size ← rd img (offset + 10) 4;
          flags ← rd img (offset + 25) 1;
          name_len ← rd img (offset + 32) 1;
          special ← (if name_len =? 1 then c ← rd img (offset + 33) 1; Some ((c =? 0) || (c =? 1)) else Some false);
          if special || negb (0 <? room) then iso_records fuel img (offset + rec_len) room
          else
            name ← iso_name 63 img (offset + 33) name_len;
            es ← iso_records fuel img (offset + rec_len) (room - 1);
            Some (IsoEntry name ent_lba ent_size (has flags 2) :: es)
  end.

(** A record takes at least 33 bytes of its sector. *)
Definition record_fuel : nat := 64.

(** [n] sectors from [lba] on, up to the first that cannot be read. *)
Fixpoint iso_dir (n : nat) (w : W) (id lba room : Z) : option (list iso9660_entry) :=
  match n with
  | O => Some []
  | S n =>
      match block_read w id (u32 lba) 1 with
      | None => Some []
      | Some img =>
          es ← iso_records record_fuel img 0 room;
          rest ← iso_dir n w id (lba + 1) (room - Z.of_nat (length es));
          Some (es ++ rest)
      end
  end.

Definition iso_dir_sectors (dir_size : Z) : Z :=
  let sectors := u32 (dir_size + ISO9660_SECTOR_SIZE - 1) / ISO9660_SECTOR_SIZE in
  if sectors =? 0 then 1 else if 16 <? sectors then 16 else sectors.

Definition iso9660_list_dir (w : W) (info : iso9660_info) (lba dir_size max_entries : Z) : option (list iso9660_entry) :=
  if negb (i_present info) || (max_entries <=? 0) then Some []
  else iso_dir (Z.to_nat (iso_dir_sectors dir_size)) w (block_device_id info) lba max_entries.

(** ** Files *)

(** Whole sectors in batches of at most 32; the bytes read, the sector and the number of
    bytes that are left, and whether every read succeeded. *)
Fixpoint iso_batches (fuel : nat) (w : W) (id lba cur bytes_left : Z) : list Z * Z * Z * bool :=
  match fuel with
  | O => ([], cur, bytes_left, true)
  | S fuel =>
      if bytes_left <? ISO9660_SECTOR_SIZE then ([], cur, bytes_left, true)
      else
        let full := bytes_left / ISO9660_SECTOR_SIZE in
        let batch := if 32 <? full then 32 else full in
        match block_read w id (u32 (lba + cur)) batch with
        | None => ([], cur, bytes_left, false)
        | Some bs =>
            let '(rest, cur, remaining, ok) := iso_batches fuel w id lba (cur + batch) (bytes_left - batch * ISO9660_SECTOR_SIZE) in
            (bs ++ rest, cur, remaining, ok)
        end
  end.

(** From a sector boundary on: the whole sectors and the partial one at the end, after the
    bytes [bs] already read. *)
Definition iso_rest (w : W) (id lba cur remaining : Z) (bs : list Z) : list Z :=
  let '(full, cur, remaining, ok) := iso_batches (Z.to_nat (remaining / ISO9660_SECTOR_SIZE)) w id lba cur remaining in
  if negb ok then bs ++ full
  else if 0 <? remaining then
    match block_read w id (u32 (lba + cur)) 1 with
    | None => bs ++ full
    | Some img => bs ++ full ++ take (Z.to_nat remaining) img
    end
  else bs ++ full.

(** The bytes read; the result of the source is their number. *)
Definition iso9660_read_file_offset (w : W) (info : iso9660_info) (lba size offset max_bytes : Z) : list Z :=
  if negb (i_present info) || (max_bytes <=? 0) || (size <=? offset) then []
  else
    let id := block_device_id info in
    let available := size - offset in
    let to_read := if available <? max_bytes then available else max_bytes in
    let sec := offset / ISO9660_SECTOR_SIZE in
    let sec_offset := offset mod ISO9660_SECTOR_SIZE in
    let head :=
      if sec_offset =? 0 then Some ([], sec, to_read)
      else
        img ← block_read w id (u32 (lba + sec)) 1;
        let avail := ISO9660_SECTOR_SIZE - sec_offset in
        let chunk := if to_read <? avail then to_read else avail in
        Some (take (Z.to_nat chunk) (drop (Z.to_nat sec_offset) img), sec + 1, to_read - chunk) in
    match head with
    | None => []
    | Some (bs, cur, remaining) =>
        iso_rest w id lba cur remaining bs
    end.

Definition iso9660_read_file (w : W) (info : iso9660_info) (lba size max_bytes : Z) : list Z := iso9660_read_file_offset w info lba size 0 max_bytes.
End Iso.
