(* ===== verification/IsoSpec.v ===== *)
(** What the CD-ROM driver promises: a file is read as it is on the volume, and a directory
    is read within its sectors if its names keep to their records. *)
From S2P Require Import Prelude Pmm Block Iso.

Section Files.
Context {W : Type} `{BL : BlockLaws W}.

(** The bytes of a file that starts at sector [lba]. *)
Definition iso_content (w : W) (id lba from n : Z) : list Z := concat (map (sector w id) (seqZ (lba + from) n)).

Context (w : W) (info : iso9660_info).
Abbreviation id := (block_device_id info).
Hypothesis Hsize : forall l, Z.of_nat (length (sector w id l)) = ISO9660_SECTOR_SIZE.

Lemma iso_content_length lba from n : 0 <= n -> Z.of_nat (length (iso_content w id lba from n)) = n * ISO9660_SECTOR_SIZE.
Proof.
  intros Hn. unfold iso_content. rewrite <-(Z2Nat.id n) by done. generalize (Z.to_nat n). clear n Hn. intros n. generalize (lba + from).
  induction n as [|n IH]; intros l; [done|]. rewrite Nat2Z.inj_succ, seqZ_cons by lia. cbn [map concat]. rewrite length_app, Z.pred_succ, Nat2Z.inj_add, IH, Hsize. lia.
Qed.

Lemma iso_content_app lba from n m : 0 <= n -> 0 <= m -> iso_content w id lba from (n + m) = iso_content w id lba from n ++ iso_content w id lba (from + n) m.
Proof. intros Hn Hm. unfold iso_content. rewrite seqZ_app, map_app, concat_app by done. by rewrite <-Z.add_assoc. Qed.

Lemma iso_read_content lba from n bs : fits 32 (lba + from) -> block_read w id (u32 (lba + from)) n = Some bs -> bs = iso_content w id lba from n.
Proof. intros Hf Hr. rewrite uwrap_id in Hr by done. by apply bl_read in Hr. Qed.

(** The batches read whole sectors, in order, until they fail. *)
Lemma iso_batches_spec lba : forall fuel cur left bs cur' left' ok,
  0 <= cur -> 0 <= left -> (forall k, 0 <= k <= cur + left / ISO9660_SECTOR_SIZE -> fits 32 (lba + k)) ->
  (Z.to_nat (left / ISO9660_SECTOR_SIZE) <= fuel)%nat -> iso_batches fuel w id lba cur left = (bs, cur', left', ok) ->
  cur <= cur' /\ bs = iso_content w id lba cur (cur' - cur) /\ left' = left - (cur' - cur) * ISO9660_SECTOR_SIZE /\
  0 <= left' /\ (ok = true -> left' < ISO9660_SECTOR_SIZE).
Proof.
  unfold ISO9660_SECTOR_SIZE. assert (Hnil : forall cur, iso_content w id lba cur (cur - cur) = []) by (intros cur; by rewrite Z.sub_diag).
  induction fuel as [|fuel IH]; intros cur left bs cur' left' ok Hc Hl Hf Hfuel Hb; cbn [iso_batches] in Hb; unfold ISO9660_SECTOR_SIZE in Hb.
  - injection Hb as <- <- <- <-. rewrite Hnil. split; [lia|]. split; [done|]. split; [lia|]. split; [done|]. intros _. Z.to_euclidean_division_equations. lia.
  - destruct (Z.ltb_spec left 2048) as [Hs|Hs]; [injection Hb as <- <- <- <-; rewrite Hnil; split; [lia|]; split; [done|]; split; [lia|]; split; [done|lia]|].
    set (batch := if 32 <? left / 2048 then 32 else left / 2048) in *.
    assert (Hbatch : 1 <= batch /\ batch * 2048 <= left) by (unfold batch; destruct (Z.ltb_spec 32 (left / 2048)); Z.to_euclidean_division_equations; lia).
    assert (Hd : 0 <= left / 2048) by (Z.to_euclidean_division_equations; lia). clearbody batch.
    destruct (block_read w id (u32 (lba + cur)) batch) as [img|] eqn:Er.
    + apply iso_read_content in Er; [|apply Hf; lia].
      destruct (iso_batches fuel w id lba (cur + batch) (left - batch * 2048)) as [[[rest c2] l2] ok2] eqn:E2. injection Hb as <- <- <- <-.
      assert (Hq : (left - batch * 2048) / 2048 = left / 2048 - batch) by (Z.to_euclidean_division_equations; lia).
      destruct (IH (cur + batch) (left - batch * 2048) _ _ _ _ ltac:(lia) ltac:(lia) ltac:(intros k Hk; apply Hf; lia) ltac:(lia) E2) as (I1 & -> & I3 & I4 & I5).
      split; [lia|]. split; [|split; [lia|done]]. rewrite Er, <-iso_content_app by lia. f_equal. lia.
    + injection Hb as <- <- <- <-. rewrite Hnil. split; [lia|]. split; [done|]. split; [lia|]. done.
Qed.

(** On a device that works and holds the sectors every batch is read. *)
Definition holds_sectors (lba n : Z) : Prop :=
  ~ down w /\ 0 <= lba /\ exists d, block_get_device w id = Some d /\ lba + n <= block_count d /\ lba + n <= 2 ^ 32.

Lemma holds_read lba n cur m : holds_sectors lba n -> 0 <= cur -> 1 <= m -> cur + m <= n -> is_Some (block_read w id (u32 (lba + cur)) m).
Proof.
  intros (Hd & Hl & d & Hg & Hc & H32) Hcur Hm Hn. rewrite uwrap_id by (unfold fits; lia). apply (bl_reads w id d); try (done || lia).
  unfold range_valid. rewrite (proj2 (Z.eqb_neq m 0)), (proj2 (Z.ltb_lt _ _)), (proj2 (Z.leb_le _ _)) by lia. done.
Qed.

Lemma iso_batches_ok lba n : holds_sectors lba n -> forall fuel cur left,
  0 <= cur -> 0 <= left -> cur + left / ISO9660_SECTOR_SIZE <= n -> (Z.to_nat (left / ISO9660_SECTOR_SIZE) <= fuel)%nat ->
  snd (iso_batches fuel w id lba cur left) = true.
Proof.
  unfold ISO9660_SECTOR_SIZE. intros Hh. induction fuel as [|fuel IH]; intros cur left Hc Hl Hn Hfuel; cbn [iso_batches]; [done|]. unfold ISO9660_SECTOR_SIZE.
  destruct (Z.ltb_spec left 2048) as [Hs|Hs]; [done|]. set (batch := if 32 <? left / 2048 then 32 else left / 2048) in *.
  assert (Hbatch : 1 <= batch /\ batch <= left / 2048 /\ batch * 2048 <= left) by (unfold batch; destruct (Z.ltb_spec 32 (left / 2048)); Z.to_euclidean_division_equations; lia).
  clearbody batch. destruct (holds_read lba n cur batch Hh Hc) as [img ->]; [lia|lia|].
  assert (Hq : (left - batch * 2048) / 2048 = left / 2048 - batch) by (Z.to_euclidean_division_equations; lia).
  specialize (IH (cur + batch) (left - batch * 2048) ltac:(lia) ltac:(lia) ltac:(lia) ltac:(lia)).
  by destruct (iso_batches fuel w id lba (cur + batch) (left - batch * 2048)) as [[[rest c2] l2] ok2].
Qed.

(** Consecutive parts of the content of a file of [n] sectors. *)
Definition part (lba n from len : Z) : list Z := take (Z.to_nat len) (drop (Z.to_nat from) (iso_content w id lba 0 n)).

Lemma part_app lba n from a b : 0 <= from -> 0 <= a -> 0 <= b -> part lba n from a ++ part lba n (from + a) b = part lba n from (a + b).
Proof.
  intros Hf Ha Hb. unfold part. rewrite !Z2Nat.inj_add, <-drop_drop by done. rewrite <-(take_drop (Z.to_nat a) (drop (Z.to_nat from) _)) at 3.
  destruct (decide (Z.to_nat a <= length (drop (Z.to_nat from) (iso_content w id lba 0 n)))%nat) as [Hl|Hl].
  - rewrite take_app_add' by (rewrite length_take; lia). done.
  - rewrite (drop_ge _ (Z.to_nat a)), take_nil, !app_nil_r by lia. rewrite take_take. f_equal. lia.
Qed.

Lemma part_sectors lba n cur m : 0 <= cur -> 0 <= m -> cur + m <= n ->
  iso_content w id lba cur m = part lba n (cur * ISO9660_SECTOR_SIZE) (m * ISO9660_SECTOR_SIZE).
Proof.
  intros Hc Hm Hn. unfold part. replace n with (cur + (m + (n - cur - m))) by lia. rewrite iso_content_app, Z.add_0_l by lia.
  pose proof (iso_content_length lba 0 cur Hc). rewrite drop_app_length' by lia. rewrite iso_content_app by lia.
  pose proof (iso_content_length lba cur m Hm). by rewrite take_app_length' by lia.
Qed.

(** A piece of one sector. *)
Lemma part_in_sector lba n cur from len : 0 <= cur < n -> 0 <= from -> 0 <= len -> from + len <= ISO9660_SECTOR_SIZE ->
  take (Z.to_nat len) (drop (Z.to_nat from) (iso_content w id lba cur 1)) = part lba n (cur * ISO9660_SECTOR_SIZE + from) len.
Proof.
  intros Hc Hf Hl Hs. rewrite (part_sectors lba n cur 1) by lia. rewrite Z.mul_1_l. unfold part.
  rewrite skipn_firstn_comm, take_take, drop_drop. f_equal; [lia|]. f_equal. unfold ISO9660_SECTOR_SIZE in *. lia.
Qed.

Definition file_sectors (size : Z) : Z := (size + 2047) / ISO9660_SECTOR_SIZE.

(** From a sector boundary on, after [c] bytes of the [n] asked for. *)
Lemma iso_rest_part lba S offset n c cur :
  (forall k, 0 <= k <= S -> fits 32 (lba + k)) -> 0 <= c <= n -> 0 <= offset -> (c < n -> offset + c = cur * 2048) -> 0 <= cur ->
  cur + (n - c) / 2048 <= S -> offset + n <= S * 2048 ->
  exists p, 0 <= p <= n /\ iso_rest w id lba cur (n - c) (part lba S offset c) = part lba S offset p /\ (holds_sectors lba S -> p = n).
Proof.
  intros Hfit Hc Ho Hcur Hcur0 HcS HoS. unfold iso_rest, ISO9660_SECTOR_SIZE. destruct (iso_batches _ w id lba cur (n - c)) as [[[full cur'] r] ok] eqn:Eb.
  destruct (iso_batches_spec lba (Z.to_nat ((n - c) / 2048)) cur (n - c) full cur' r ok Hcur0 ltac:(lia)
    ltac:(intros k Hk; apply Hfit; unfold ISO9660_SECTOR_SIZE in Hk; lia) ltac:(done) Eb) as (I1 & -> & I3 & I4 & I5).
  unfold ISO9660_SECTOR_SIZE in *.
  assert (Hokd : holds_sectors lba S -> ok = true).
  { intros Hh. pose proof (iso_batches_ok lba S Hh (Z.to_nat ((n - c) / 2048)) cur (n - c) Hcur0 ltac:(lia) HcS ltac:(done)) as Hk. by rewrite Eb in Hk. }
  assert (Hfull : part lba S offset c ++ iso_content w id lba cur (cur' - cur) = part lba S offset (c + (cur' - cur) * 2048)).
  { destruct (decide (c < n)) as [Hlt|Hge]; [|replace (cur' - cur) with 0 by lia; rewrite Z.add_0_r, app_nil_r; done].
    rewrite (part_sectors lba S cur) by (unfold ISO9660_SECTOR_SIZE; lia). unfold ISO9660_SECTOR_SIZE. rewrite <-Hcur by done. apply part_app; lia. }
  destruct ok; cbn [negb]; [|exists (c + (cur' - cur) * 2048); split; [lia|]; split; [done|]; intros Hh; by specialize (Hokd Hh)].
  specialize (I5 eq_refl). destruct (Z.ltb_spec 0 r) as [Hr|Hr]; [|exists n; split; [lia|]; split; [|done]; rewrite Hfull; f_equal; lia].
  destruct (block_read w id (u32 (lba + cur')) 1) as [img|] eqn:Er.
  - apply iso_read_content in Er; [|apply Hfit; lia]. exists n. split; [lia|]. split; [|done]. rewrite Er, app_assoc, Hfull.
    pose proof (part_in_sector lba S cur' 0 r ltac:(lia) ltac:(lia) ltac:(lia) ltac:(unfold ISO9660_SECTOR_SIZE; lia)) as Hq. rewrite drop_0 in Hq.
    rewrite Hq. unfold ISO9660_SECTOR_SIZE. replace (cur' * 2048 + 0) with (offset + (c + (cur' - cur) * 2048)) by lia.
    rewrite part_app by lia. f_equal. lia.
  - exists (c + (cur' - cur) * 2048). split; [lia|]. split; [done|]. intros Hh. destruct (holds_read lba S cur' 1 Hh) as [? Hs]; [lia..|]. by rewrite Er in Hs.
Qed.

(** A read gives the bytes of the file at the offset: what was asked for, cut at the end of
    the file, if the device works, and otherwise the part before the first sector that could
    not be read. *)
Lemma iso_read_part lba size offset max :
  i_present info = true -> 0 < max -> 0 <= offset < size -> 0 <= lba -> lba + file_sectors size < 2 ^ 32 ->
  let n := Z.min (size - offset) max in
  exists p, 0 <= p <= n /\ iso9660_read_file_offset w info lba size offset max = part lba (file_sectors size) offset p /\
    (holds_sectors lba (file_sectors size) -> p = n).
Proof.
  intros Hp Hmax Hoff Hlba H32 n. unfold iso9660_read_file_offset. rewrite Hp, (proj2 (Z.leb_gt max 0)), (proj2 (Z.leb_gt size offset)) by lia. cbn [negb orb].
  replace (if size - offset <? max then size - offset else max) with n by (unfold n; destruct (Z.ltb_spec (size - offset) max); lia).
  assert (Hn : 0 < n /\ offset + n <= size) by lia. clearbody n. unfold ISO9660_SECTOR_SIZE.
  set (sec := offset / 2048). set (so := offset mod 2048). set (S := file_sectors size) in *.
  assert (Hso : offset = sec * 2048 + so /\ 0 <= so < 2048 /\ 0 <= sec) by (unfold sec, so; Z.to_euclidean_division_equations; lia).
  assert (HS : size <= S * 2048 < size + 2048) by (unfold S, file_sectors, ISO9660_SECTOR_SIZE; Z.to_euclidean_division_equations; lia).
  assert (Hfit : forall k, 0 <= k <= S -> fits 32 (lba + k)) by (unfold fits; lia). clearbody sec so S.
  destruct (Z.eqb_spec so 0) as [Hz|Hnz]; cbn [mbind option_bind].
  - pose proof (iso_rest_part lba S offset n 0 sec Hfit) as Hr. rewrite Z.sub_0_r in Hr. apply Hr; try lia. Z.to_euclidean_division_equations. lia.
  - destruct (block_read w id (u32 (lba + sec)) 1) as [img|] eqn:Er; cbn [mbind option_bind].
    + apply iso_read_content in Er; [|apply Hfit; lia]. set (chunk := if n <? 2048 - so then n else 2048 - so).
      assert (Hch : 0 < chunk <= n /\ so + chunk <= 2048 /\ (chunk < n -> so + chunk = 2048)) by (unfold chunk; destruct (Z.ltb_spec n (2048 - so)); lia).
      clearbody chunk. rewrite Er, (part_in_sector lba S sec so chunk) by (unfold ISO9660_SECTOR_SIZE; lia). unfold ISO9660_SECTOR_SIZE. replace (sec * 2048 + so) with offset by lia.
      apply iso_rest_part; try (done || lia). Z.to_euclidean_division_equations. lia.
    + exists 0. split; [lia|]. split; [done|]. intros Hh. destruct (holds_read lba S sec 1 Hh) as [? Hs]; [lia..|]. by rewrite Er in Hs.
Qed.
End Files.

(** ** Directories *)

(** Every name keeps to its record. *)
Fixpoint names_fit (fuel : nat) (img : list Z) (offset : Z) : bool :=
  match fuel with
  | O => true
  | S fuel =>
      let rec_len := at_z 0 img offset in
      if negb (offset <? ISO9660_SECTOR_SIZE) || (rec_len <? 33) || (ISO9660_SECTOR_SIZE <? offset + rec_len) then true
      else (33 + at_z 0 img (offset + 32) <=? rec_len) && names_fit fuel img (offset + rec_len)
  end.

Lemma iso_name_safe img : image img -> forall n at_ len, 0 <= at_ ->
  at_ + Z.min len (Z.of_nat n) <= Z.of_nat (length img) -> is_Some (iso_name n img at_ len).
Proof.
  intros Hi. induction n as [|n IH]; intros at_ len Ha Hl; cbn [iso_name]; [by eexists|]. destruct (Z.leb_spec len 0); [by eexists|].
  destruct (rd_some img at_ 1 Hi) as (c & -> & _); [lia..|]. cbn [mbind option_bind]. destruct (c =? 59); [by eexists|].
  destruct (IH (at_ + 1) (len - 1)) as [name ->]; [lia|lia|]. by eexists.
Qed.

Lemma rd_at img off : image img -> 0 <= off < Z.of_nat (length img) -> rd img off 1 = Some (at_z 0 img off) /\ 0 <= at_z 0 img off < 256.
Proof.
  intros [Hb _] Ho. pose proof (at_z_lookup 0 img off Ho) as Hx. pose proof (proj1 (Forall_lookup _ _) Hb _ _ Hx) as Hr. split; [|done].
  unfold rd. rewrite slice_some by lia. cbn [fmap option_fmap option_map]. rewrite (drop_S _ _ _ Hx). change (Z.to_nat 1) with 1%nat. cbn [take le_get]. rewrite take_0. cbn [le_get]. f_equal. lia.
Qed.

(** The records of a sector are read within it if the names fit, and in any case no read
    goes further than 63 bytes beyond it. *)
Lemma iso_records_safe img : image img -> ISO9660_SECTOR_SIZE <= Z.of_nat (length img) ->
  forall fuel offset room, 0 <= offset -> names_fit fuel img offset = true \/ ISO9660_SECTOR_SIZE + 63 <= Z.of_nat (length img) ->
  is_Some (iso_records fuel img offset room).
Proof.
  unfold ISO9660_SECTOR_SIZE. intros Hi Hlen. induction fuel as [|fuel IH]; intros offset room Ho Hf; cbn [iso_records names_fit] in *; [by eexists|]. unfold ISO9660_SECTOR_SIZE in *.
  destruct (Z.ltb_spec offset 2048) as [H1|H1]; cbn [negb orb] in *; [|by eexists].
  destruct (rd_at img offset Hi ltac:(lia)) as [-> Hr]. cbn [mbind option_bind]. set (rec_len := at_z 0 img offset) in *. clearbody rec_len.
  destruct (Z.ltb_spec rec_len 33) as [H2|H2]; [by eexists|]. cbn [orb] in Hf. destruct (Z.ltb_spec 2048 (offset + rec_len)) as [H3|H3]; [by eexists|].
  do 2 (match goal with |- is_Some (mbind _ (rd _ ?o ?n)) => destruct (rd_some img o n Hi) as (? & -> & _); [lia..|]; cbn [mbind option_bind] end).
  destruct (rd_at img (offset + 25) Hi ltac:(lia)) as [-> _]. cbn [mbind option_bind]. destruct (rd_at img (offset + 32) Hi ltac:(lia)) as [-> Hn]. cbn [mbind option_bind].
  set (name_len := at_z 0 img (offset + 32)) in *. clearbody name_len.
  assert (Hf' : names_fit fuel img (offset + rec_len) = true \/ 2048 + 63 <= Z.of_nat (length img)) by (destruct Hf as [[_ Hf]%andb_true_iff|Hf]; [by left|by right]).
  assert (Hroom : offset + 33 + Z.min name_len 63 <= Z.of_nat (length img)) by (destruct Hf as [[Hf%Z.leb_le _]%andb_true_iff|Hf]; lia).
  assert (Hsp : exists b, (if name_len =? 1 then c ← rd img (offset + 33) 1; Some ((c =? 0) || (c =? 1)) else Some false) = Some b).
  { destruct (Z.eqb_spec name_len 1); [|by eexists]. destruct (rd_at img (offset + 33) Hi ltac:(lia)) as [-> _]. by eexists. }
  destruct Hsp as [b ->]. cbn [mbind option_bind]. destruct (b || _); [apply IH; [lia|done]|].
  destruct (iso_name_safe img Hi 63 (offset + 33) name_len) as [name ->]; [lia|lia|]. cbn [mbind option_bind].
  destruct (IH (offset + rec_len) (room - 1)) as [es ->]; [lia|done|]. by eexists.
Qed.

(** ** What the driver promises *)

(** C35. Reading a file gives exactly its bytes: what is returned is the part of the file's
    content at the offset, all of what was asked for up to the end of the file on a device
    that works and holds the file, and otherwise a prefix of it that ends at the first
    sector that could not be read. *)
Theorem iso9660_read_exact {W} `{BL : BlockLaws W} (w : W) (info : iso9660_info) lba size offset max :
  (forall l, Z.of_nat (length (sector w (block_device_id info) l)) = ISO9660_SECTOR_SIZE) ->
  i_present info = true -> 0 < max -> 0 <= offset < size -> 0 <= lba -> lba + file_sectors size < 2 ^ 32 ->
  let content := take (Z.to_nat size) (iso_content w (block_device_id info) lba 0 (file_sectors size)) in
  let wanted := take (Z.to_nat max) (drop (Z.to_nat offset) content) in
  exists p, iso9660_read_file_offset w info lba size offset max = take p wanted /\
    (holds_sectors w info lba (file_sectors size) -> iso9660_read_file_offset w info lba size offset max = wanted).
Proof.
  intros Hsize Hp Hmax Hoff Hlba H32 content wanted.
  destruct (iso_read_part w info Hsize lba size offset max Hp Hmax Hoff Hlba H32) as (p & Hpn & -> & Hall).
  assert (E : forall q, 0 <= q <= Z.min (size - offset) max -> part w info lba (file_sectors size) offset q = take (Z.to_nat q) wanted).
  { intros q Hq. unfold part, wanted, content. rewrite take_take, skipn_firstn_comm, take_take. f_equal. lia. }
  exists (Z.to_nat p). split; [by apply E|]. intros Hh. rewrite (Hall Hh), E by lia. apply take_ge.
  unfold wanted, content. rewrite !length_take, length_drop, length_take. lia.
Qed.

(** A directory whose names keep to their records is read within its sectors. *)
Theorem iso9660_list_dir_safe {W} `{BL : BlockLaws W} (w : W) (info : iso9660_info) lba dir_size max_entries :
  (forall l, Z.of_nat (length (sector w (block_device_id info) l)) = ISO9660_SECTOR_SIZE) ->
  (forall l, names_fit record_fuel (sector w (block_device_id info) l) 0 = true) ->
  is_Some (iso9660_list_dir w info lba dir_size max_entries).
Proof.
  intros Hsize Hfit. unfold iso9660_list_dir. destruct (_ || _); [by eexists|]. generalize (Z.to_nat (iso_dir_sectors dir_size)). intros n.
  generalize max_entries. revert lba. induction n as [|n IH]; intros lba room; cbn [iso_dir]; [by eexists|].
  destruct (block_read w (block_device_id info) (u32 lba) 1) as [img|] eqn:Er; [|by eexists].
  apply bl_read in Er. change (seqZ (u32 lba) 1) with [0 + u32 lba] in Er. cbn [map concat] in Er. rewrite app_nil_r in Er. subst img.
  destruct (iso_records_safe (sector w (block_device_id info) (0 + u32 lba))) with (fuel := record_fuel) (offset := 0) (room := room) as [es ->].
  - split; [apply bl_bytes|]. rewrite Hsize. done.
  - rewrite Hsize. done.
  - done.
  - by left.
  - cbn [mbind option_bind]. destruct (IH (lba + 1) (room - Z.of_nat (length es))) as [rest ->]. by eexists.
Qed.

(** A record at the end of its sector with a name that does not fit is read beyond the
    buffer. *)
Theorem iso9660_list_dir_overruns : iso_records record_fuel
    (flat_map (fun _ => [128] ++ replicate 31 0 ++ [0] ++ replicate 95 65) (seq 0 15) ++ [94] ++ replicate 31 0 ++ [0] ++ replicate 61 65 ++ [34] ++ replicate 31 0 ++ [200; 65]) 0 100 = None.
Proof. vm_compute. reflexivity. Qed.

(** ** A disc *)

(** Sectors of 2048 bytes that can only be read. *)
Record disc := Disc { d_sectors : list (list Z) }.
Definition disc_sector (w : disc) (id l : Z) : list Z := map u8 (take 2048 (at_z [] (d_sectors w) l ++ replicate 2048 0)).
Definition disc_device (w : disc) : block_device := BlockDev 2048 (Z.of_nat (length (d_sectors w))) false BLOCK_TRANSPORT_ATA.

#[export] Instance disc_block : BlockDevice disc := {
  block_devices w := [disc_device w];
  block_read w id lba n := if (id =? 0) && range_valid (disc_device w) lba n && (0 <=? lba) && (0 <=? n)
                           then Some (concat (map (disc_sector w id) (seqZ lba n))) else None;
  block_write w _ _ _ _ := (w, false);
  block_flush w _ := (w, true)
}.

Lemma disc_sector_length w id l : Z.of_nat (length (disc_sector w id l)) = 2048.
Proof. unfold disc_sector. rewrite length_map, length_take, length_app, length_replicate. lia. Qed.

Lemma disc_only (w : disc) id d : block_get_device w id = Some d -> id = 0 /\ d = disc_device w.
Proof.
  unfold block_get_device. cbn. destruct (Z.leb_spec 0 id); [|done]. destruct (Z.to_nat id) as [|k] eqn:E; cbn; [|by destruct k].
  intros [= <-]. split; [lia|done].
Qed.

#[export] Program Instance disc_laws : BlockLaws disc := { sector := disc_sector; down _ := False }.
Next Obligation. intros w id d l Hd. destruct (disc_only w id d Hd) as [-> ->]. apply disc_sector_length. Qed.
Next Obligation.
  intros w id l. apply Forall_forall. intros b Hb. unfold disc_sector in Hb. apply list_elem_of_fmap in Hb as (x & -> & _).
  apply (uwrap_fits 8 x). done.
Qed.
Next Obligation. intros w id lba n bs. cbn. by destruct (_ && _); [intros [= <-]|]. Qed.
Next Obligation.
  intros w id d lba n _ Hd Hr Hl Hn. destruct (disc_only w id d Hd) as [-> ->]. cbn. rewrite Hr.
  rewrite (proj2 (Z.leb_le 0 lba) Hl), (proj2 (Z.leb_le 0 n) Hn). by eexists.
Qed.
Next Obligation. intros w id lba n bs w' ok [= <- _]. done. Qed.
Next Obligation. by intros w id d lba n bs w' [=]. Qed.
Next Obligation. intros w id d lba n bs w' _ Hd Hw. by destruct (disc_only w id d Hd) as [_ ->]. Qed.

Definition demo_disc : disc := Disc [replicate 2048 1; replicate 2048 2; replicate 2048 3].
Definition demo_info : iso9660_info := IsoInfo true 0 [] 0 0 0.

Lemma iso9660_read_exact_witness : exists p, iso9660_read_file_offset demo_disc demo_info 1 3000 2040 100 =
  take p (take 100 (drop 2040 (take 3000 (iso_content demo_disc 0 1 0 2)))).
Proof.
  destruct (iso9660_read_exact (BL := disc_laws) demo_disc demo_info 1 3000 2040 100 (disc_sector_length demo_disc 0) eq_refl ltac:(lia) ltac:(lia) ltac:(by vm_compute) ltac:(by vm_compute)) as (p & R & _).
  by exists p.
Defined.

Lemma iso9660_list_dir_safe_witness : is_Some (iso9660_list_dir (Disc []) demo_info 0 2048 10).
Proof.
  apply (iso9660_list_dir_safe (BL := disc_laws) (Disc []) demo_info 0 2048 10); [apply disc_sector_length|]. intros l. change (sector (Disc []) _ l) with (disc_sector (Disc []) 0 l). unfold disc_sector, at_z. cbn [d_sectors]. destruct (Z.to_nat l); vm_compute; reflexivity.
Defined.
