(* ===== verification/Net.v ===== *)
(** The network stack, receiving side: [src/drivers/net/net_stack.c], headers, checksums,
    addresses, ARP, DHCP and DNS replies, ICMP, UDP and TCP input, [net_poll].

    A frame is the list of bytes the network device delivered, and every read of it is
    checked: a handler returns [None] if it reads outside the frame.  IP addresses are kept
    in network order, as in the source: their first byte is the low one.  The device and
    the clock are the interface [NetDev], the registered UDP handler is [UdpHandler].
    Serial output is left out. *)
From S2P Require Import Prelude.

Definition ETH_TYPE_ARP : Z := 0x0806.
Definition ETH_TYPE_IPV4 : Z := 0x0800.
Definition ARP_OP_REQUEST : Z := 1.
Definition ARP_OP_REPLY : Z := 2.
Definition IP_PROTO_ICMP : Z := 1.
Definition IP_PROTO_TCP : Z := 6.
Definition IP_PROTO_UDP : Z := 17.

Definition ETH_HEADER : Z := 14.
Definition ARP_PACKET : Z := 28.
Definition IPV4_HEADER : Z := 20.
Definition ICMP_HEADER : Z := 8.
Definition UDP_HEADER : Z := 8.
Definition DNS_HEADER : Z := 12.
Definition TCP_HEADER : Z := 20.
Definition TCP_RX_SIZE : Z := 65536.

Definition TCP_STATE_CLOSED : Z := 0.
Definition TCP_STATE_SYN_SENT : Z := 1.
Definition TCP_STATE_ESTABLISHED : Z := 2.
Definition TCP_STATE_FIN_WAIT : Z := 3.

(** ** The outside *)

(** The device and the clock.  [netdev_poll] delivers a frame of at most [max] bytes, the
    empty one if there is none; [stack_bytes n] are the bytes of an uninitialised local
    array.  Two bounds serve as fuel: at most [pending] frames are delivered before the
    device has none, and the clock advances within [stall] readings. *)
Class NetDev (E : Type) := {
  netdev_init : E -> E * bool;
  netdev_mac : E -> list Z;
  netdev_send : E -> list Z -> E * Z;
  netdev_poll : E -> Z -> E * list Z;
  timer_millis : E -> E * Z;
  stack_bytes : E -> nat -> list Z;
  pending : E -> nat;
  stall : nat
}.

(** The registered handler and what it keeps. *)
Class UdpHandler (H : Type) := { udp_input : H -> Z -> Z -> Z -> list Z -> H }.

(** ** State *)

Record arp_entry := ArpEntry { a_ip : Z; a_mac : list Z; updated_ms : Z; a_valid : bool }.

Record config := Config {
  s_my_mac : list Z; s_my_ip : Z; s_gateway_ip : Z; s_dns_ip : Z; s_my_mask : Z; s_gateway_mac : list Z; s_gateway_mac_resolved : bool
}.

Record pings := Pings { s_ping_seq : Z; s_ping_got_reply : bool; s_ping_reply_id : Z; s_ping_reply_seq : Z; ping_seq : Z }.

Record dns_state := Dns { s_dns_resolved : bool; s_dns_resolved_ip : Z; s_dns_query_id : Z }.

Record dhcp_state := Dhcp {
  s_dhcp_xid : Z; s_dhcp_received : bool; s_dhcp_offered_ip : Z; s_dhcp_server_ip : Z; s_dhcp_message_type : Z
}.

Record tcp_state := Tcp {
  s_tcp_state : Z; s_tcp_dst_ip : Z; s_tcp_dst_port : Z; s_tcp_src_port : Z; s_tcp_our_seq : Z; s_tcp_server_seq : Z;
  s_tcp_rx_buf : list Z; s_tcp_peer_mac : list Z; s_tcp_peer_mac_valid : bool; s_tcp_rx_head : Z; s_tcp_rx_tail : Z
}.

Record stack (E H : Type) := Stack {
  cfg : config; s_arp_cache : list arp_entry; ping : pings; dns : dns_state; dhcp : dhcp_state; tcp : tcp_state;
  s_udp_handler : bool; nic : E; udp : H
}.
Arguments Stack {E H}.
Arguments cfg {E H}.
Arguments s_arp_cache {E H}.
Arguments ping {E H}.
Arguments dns {E H}.
Arguments dhcp {E H}.
Arguments tcp {E H}.
Arguments s_udp_handler {E H}.
Arguments nic {E H}.
Arguments udp {E H}.

Definition set_my_ip (ip : Z) (c : config) : config :=
  Config (s_my_mac c) ip (s_gateway_ip c) (s_dns_ip c) (s_my_mask c) (s_gateway_mac c) (s_gateway_mac_resolved c).
Definition set_gateway_mac (mac : list Z) (ok : bool) (c : config) : config :=
  Config (s_my_mac c) (s_my_ip c) (s_gateway_ip c) (s_dns_ip c) (s_my_mask c) mac ok.

Definition set_tcp_state (x : Z) (t : tcp_state) : tcp_state :=
  Tcp x (s_tcp_dst_ip t) (s_tcp_dst_port t) (s_tcp_src_port t) (s_tcp_our_seq t) (s_tcp_server_seq t) (s_tcp_rx_buf t)
    (s_tcp_peer_mac t) (s_tcp_peer_mac_valid t) (s_tcp_rx_head t) (s_tcp_rx_tail t).
Definition set_tcp_seqs (ours theirs : Z) (t : tcp_state) : tcp_state :=
  Tcp (s_tcp_state t) (s_tcp_dst_ip t) (s_tcp_dst_port t) (s_tcp_src_port t) ours theirs (s_tcp_rx_buf t)
    (s_tcp_peer_mac t) (s_tcp_peer_mac_valid t) (s_tcp_rx_head t) (s_tcp_rx_tail t).
Definition set_tcp_peer (mac : list Z) (t : tcp_state) : tcp_state :=
  Tcp (s_tcp_state t) (s_tcp_dst_ip t) (s_tcp_dst_port t) (s_tcp_src_port t) (s_tcp_our_seq t) (s_tcp_server_seq t) (s_tcp_rx_buf t)
    mac true (s_tcp_rx_head t) (s_tcp_rx_tail t).
Definition set_tcp_ring (buf : list Z) (head tail : Z) (t : tcp_state) : tcp_state :=
  Tcp (s_tcp_state t) (s_tcp_dst_ip t) (s_tcp_dst_port t) (s_tcp_src_port t) (s_tcp_our_seq t) (s_tcp_server_seq t) buf
    (s_tcp_peer_mac t) (s_tcp_peer_mac_valid t) head tail.

(** ** Byte order and checksums *)

Definition htons (v : Z) : Z := Z.lor (u16 (Z.shiftl v 8)) (Z.shiftr v 8).
Definition htonl (v : Z) : Z :=
  Z.lor (Z.lor (Z.shiftl (Z.land v 0xFF) 24) (Z.shiftl (Z.land v 0xFF00) 8))
        (Z.lor (Z.shiftr (Z.land v 0xFF0000) 8) (Z.land (Z.shiftr v 24) 0xFF)).
Abbreviation ntohs := htons.
Abbreviation ntohl := htonl.

(** The 32-bit sum of the little-endian 16-bit words; a last odd byte counts as it is. *)
Fixpoint sum_words (sum : Z) (bs : list Z) : Z :=
  match bs with
  | a :: b :: bs => sum_words (u32 (sum + (a + 256 * b))) bs
  | [a] => u32 (sum + a)
  | [] => sum
  end.

(** Fold the carries in.  Three rounds bring any 32-bit sum below 2^16. *)
Fixpoint fold_sum (n : nat) (sum : Z) : Z :=
  match n with
  | O => sum
  | S n => if Z.shiftr sum 16 =? 0 then sum else fold_sum n (Z.land sum 0xFFFF + Z.shiftr sum 16)
  end.

Definition calc_checksum (data : list Z) : Z := u16 (Z.lnot (fold_sum 4 (sum_words 0 data))).

(** ** Addresses *)

Definition net_make_ip (a b c d : Z) : Z := Z.lor (Z.lor (Z.lor a (Z.shiftl b 8)) (Z.shiftl c 16)) (Z.shiftl d 24).

Definition decimal (val : Z) : list Z :=
  (if 100 <=? val then [48 + val / 100] else []) ++ (if 10 <=? val then [48 + (val / 10) mod 10] else []) ++ [48 + val mod 10].

Definition net_ip_to_str (ip : Z) : list Z :=
  decimal (Z.land ip 0xFF) ++ [46] ++ decimal (Z.land (Z.shiftr ip 8) 0xFF) ++ [46] ++
  decimal (Z.land (Z.shiftr ip 16) 0xFF) ++ [46] ++ decimal (Z.land (Z.shiftr ip 24) 0xFF).

(** The loop of [net_str_to_ip]: [parts] and [p]; [None] is the early return. *)
Fixpoint parse_ip (str : list Z) (parts : list Z) (p : Z) : option (list Z * Z) :=
  match str with
  | [] => Some (parts, p)
  | c :: str =>
      if negb (p <? 4) then Some (parts, p)
      else if c =? 46 then parse_ip str parts (p + 1)
      else if (48 <=? c) && (c <=? 57) then parse_ip str (<[Z.to_nat p := u8 (at_z 0 parts p * 10 + (c - 48))]> parts) p
      else None
  end.

Definition net_str_to_ip (str : list Z) : Z :=
  match parse_ip str [0; 0; 0; 0] 0 with
  | Some (parts, p) => if negb (p =? 3) then 0 else net_make_ip (at_z 0 parts 0) (at_z 0 parts 1) (at_z 0 parts 2) (at_z 0 parts 3)
  | None => 0
  end.

(** ** Headers *)

Definition put16 (v : Z) : list Z := le_put 2 v.
Definition put32 (v : Z) : list Z := le_put 4 v.

Definition eth_header (dst src : list Z) (ethertype : Z) : list Z := dst ++ src ++ put16 (htons ethertype).

Definition arp_packet (op : Z) (sender_mac : list Z) (sender_ip : Z) (target_mac : list Z) (target_ip : Z) : list Z :=
  put16 (htons 1) ++ put16 (htons ETH_TYPE_IPV4) ++ [6; 4] ++ put16 (htons op) ++ sender_mac ++ put32 sender_ip ++ target_mac ++ put32 target_ip.

Definition ipv4_fields (total_len id protocol checksum src dst : Z) : list Z :=
  [0x45; 0] ++ put16 (htons (u16 total_len)) ++ put16 (htons id) ++ put16 0 ++ [64; protocol] ++ put16 checksum ++ put32 src ++ put32 dst.

(** The header with its checksum. *)
Definition ipv4_header (total_len id protocol src dst : Z) : list Z :=
  ipv4_fields total_len id protocol (calc_checksum (ipv4_fields total_len id protocol 0 src dst)) src dst.

Definition tcp_fields (src_port dst_port seq ack flags window checksum : Z) : list Z :=
  put16 (htons src_port) ++ put16 (htons dst_port) ++ put32 (htonl seq) ++ put32 (htonl ack) ++ [0x50; flags] ++
  put16 (htons window) ++ put16 checksum ++ put16 0.

(** The pseudo header, the header and the payload are summed in one go: the first two have
    even lengths. *)
Definition calc_tcp_checksum (src dst : Z) (header payload : list Z) : Z :=
  let pseudo := put32 src ++ put32 dst ++ [0; IP_PROTO_TCP] ++ put16 (htons (u16 (TCP_HEADER + Z.of_nat (length payload)))) in
  u16 (Z.lnot (fold_sum 4 (sum_words 0 (pseudo ++ header ++ payload)))).

Definition tcp_header (src dst src_port dst_port seq ack flags window : Z) (payload : list Z) : list Z :=
  tcp_fields src_port dst_port seq ack flags window
    (calc_tcp_checksum src dst (tcp_fields src_port dst_port seq ack flags window 0) payload).

(** ** Receiving *)

Section Receive.
Context {E H : Type} `{ND : NetDev E} `{UH : UdpHandler H}.
Implicit Types st : stack E H.

Definition set_cfg (c : config) st : stack E H := Stack c (s_arp_cache st) (ping st) (dns st) (dhcp st) (tcp st) (s_udp_handler st) (nic st) (udp st).
Definition set_arp (a : list arp_entry) st : stack E H := Stack (cfg st) a (ping st) (dns st) (dhcp st) (tcp st) (s_udp_handler st) (nic st) (udp st).
Definition set_ping (p : pings) st : stack E H := Stack (cfg st) (s_arp_cache st) p (dns st) (dhcp st) (tcp st) (s_udp_handler st) (nic st) (udp st).
Definition set_dns (d : dns_state) st : stack E H := Stack (cfg st) (s_arp_cache st) (ping st) d (dhcp st) (tcp st) (s_udp_handler st) (nic st) (udp st).
Definition set_dhcp (d : dhcp_state) st : stack E H := Stack (cfg st) (s_arp_cache st) (ping st) (dns st) d (tcp st) (s_udp_handler st) (nic st) (udp st).
Definition set_tcp (t : tcp_state) st : stack E H := Stack (cfg st) (s_arp_cache st) (ping st) (dns st) (dhcp st) t (s_udp_handler st) (nic st) (udp st).
Definition set_nic (e : E) st : stack E H := Stack (cfg st) (s_arp_cache st) (ping st) (dns st) (dhcp st) (tcp st) (s_udp_handler st) e (udp st).
Definition set_udp (h : H) st : stack E H := Stack (cfg st) (s_arp_cache st) (ping st) (dns st) (dhcp st) (tcp st) (s_udp_handler st) (nic st) h.

Definition send st (frame : list Z) : stack E H * Z :=
  let '(e, r) := netdev_send (nic st) frame in (set_nic e st, r).
Definition millis st : stack E H * Z := let '(e, t) := timer_millis (nic st) in (set_nic e st, t).

(** *** ARP *)

Definition send_arp_request st (target_ip : Z) : stack E H :=
  let mac := s_my_mac (cfg st) in
  fst (send st (eth_header (replicate 6 0xFF) mac ETH_TYPE_ARP ++
                arp_packet ARP_OP_REQUEST mac (s_my_ip (cfg st)) (replicate 6 0) target_ip)).

(** The slot for an address: its own, the first unused one, or the oldest. *)
Fixpoint arp_slot (es : list arp_entry) (ip i oldest slot : Z) : Z :=
  match es with
  | [] => slot
  | e :: es =>
      if a_valid e && (a_ip e =? ip) then i
      else if negb (a_valid e) then i
      else if updated_ms e <? oldest then arp_slot es ip (i + 1) (updated_ms e) i
      else arp_slot es ip (i + 1) oldest slot
  end.

Definition arp_cache_update st (ip : Z) (mac : list Z) : stack E H :=
  if ip =? 0 then st
  else
    let slot := arp_slot (s_arp_cache st) ip 0 (2 ^ 64 - 1) (-1) in
    if slot <? 0 then st
    else
      let '(st, now) := millis st in
      let st := set_arp (<[Z.to_nat slot := ArpEntry ip mac now true]> (s_arp_cache st)) st in
      if ip =? s_gateway_ip (cfg st) then set_cfg (set_gateway_mac mac true (cfg st)) st else st.

(** Entries older than five minutes are dropped on the way. *)
Fixpoint arp_find (now ip : Z) (es : list arp_entry) : list arp_entry * option (list Z) :=
  match es with
  | [] => ([], None)
  | e :: es =>
      if a_valid e && (a_ip e =? ip) then
        if 300000 <? u64 (now - updated_ms e) then
          let '(es, r) := arp_find now ip es in (ArpEntry (a_ip e) (a_mac e) (updated_ms e) false :: es, r)
        else (e :: es, Some (a_mac e))
      else let '(es, r) := arp_find now ip es in (e :: es, r)
  end.

Definition arp_cache_lookup st (ip : Z) : stack E H * option (list Z) :=
  if ip =? 0 then (st, None)
  else
    let '(st, now) := millis st in
    let '(es, r) := arp_find now ip (s_arp_cache st) in (set_arp es st, r).

Definition net_next_hop st (dst_ip : Z) : Z :=
  let c := cfg st in
  if s_my_mask c =? 0 then s_gateway_ip c
  else if Z.land dst_ip (s_my_mask c) =? Z.land (s_my_ip c) (s_my_mask c) then dst_ip
  else s_gateway_ip c.

Definition handle_arp st (packet : list Z) : option (stack E H) :=
  if Z.of_nat (length packet) <? ETH_HEADER + ARP_PACKET then Some st
  else
    hw_len ← rd packet 18 1;
    proto_len ← rd packet 19 1;
    op ← rd packet 20 2;
    sender_mac ← slice packet 22 6;
    sender_ip ← rd packet 28 4;
    target_ip ← rd packet 38 4;
    let st := if (hw_len =? 6) && (proto_len =? 4) then arp_cache_update st sender_ip sender_mac else st in
    if (ntohs op =? ARP_OP_REQUEST) && (target_ip =? s_my_ip (cfg st)) then
      let mac := s_my_mac (cfg st) in
      Some (fst (send st (eth_header sender_mac mac ETH_TYPE_ARP ++
                          arp_packet ARP_OP_REPLY mac (s_my_ip (cfg st)) sender_mac sender_ip)))
    else Some st.

(** *** DHCP *)

Record dhcp_options := DhcpOptions { o_mask : Z; o_gateway : Z; o_dns : Z; o_type : Z; o_server : Z }.

(** One option with its bytes at [opt]. *)
Definition dhcp_option (o : dhcp_options) (payload : list Z) (code olen opt : Z) : option dhcp_options :=
  o ← (if (code =? 53) && (1 <=? olen) then t ← rd payload opt 1; Some (DhcpOptions (o_mask o) (o_gateway o) (o_dns o) t (o_server o)) else Some o);
  o ← (if (code =? 1) && (4 <=? olen) then v ← rd payload opt 4; Some (DhcpOptions v (o_gateway o) (o_dns o) (o_type o) (o_server o)) else Some o);
  o ← (if (code =? 3) && (4 <=? olen) then v ← rd payload opt 4; Some (DhcpOptions (o_mask o) v (o_dns o) (o_type o) (o_server o)) else Some o);
  o ← (if (code =? 6) && (4 <=? olen) then v ← rd payload opt 4; Some (DhcpOptions (o_mask o) (o_gateway o) v (o_type o) (o_server o)) else Some o);
  if (code =? 54) && (4 <=? olen) then v ← rd payload opt 4; Some (DhcpOptions (o_mask o) (o_gateway o) (o_dns o) (o_type o) v) else Some o.

(** The loop over the options; every round uses up a byte of [left]. *)
Fixpoint dhcp_loop (fuel : nat) (o : dhcp_options) (payload : list Z) (opt left : Z) : option dhcp_options :=
  match fuel with
  | O => Some o
  | S fuel =>
      if left <=? 0 then Some o
      else
        code ← rd payload opt 1;
        let opt := opt + 1 in let left := left - 1 in
        if code =? 0 then dhcp_loop fuel o payload opt left
        else if code =? 255 then Some o
        else if left =? 0 then Some o
        else
          olen ← rd payload opt 1;
          let opt := opt + 1 in let left := left - 1 in
          if left <? olen then Some o
          else o ← dhcp_option o payload code olen opt; dhcp_loop fuel o payload (opt + olen) (left - olen)
  end.

Definition handle_dhcp_reply st (payload : list Z) : option (stack E H) :=
  let len := Z.of_nat (length payload) in
  if len <? 240 then Some st
  else
    xid ← rd payload 4 4;
    yiaddr ← rd payload 16 4;
    let d := dhcp st in
    if negb (ntohl xid =? s_dhcp_xid d) || (yiaddr =? 0) then Some st
    else
      o ← dhcp_loop (S (length payload)) (DhcpOptions 0 0 0 0 (s_dhcp_server_ip d)) payload 240 (len - 240);
      let d := Dhcp (s_dhcp_xid d) (s_dhcp_received d) (s_dhcp_offered_ip d) (o_server o) (s_dhcp_message_type d) in
      if negb (o_type o =? 2) && negb (o_type o =? 5) then Some (set_dhcp d st)
      else
        let c := cfg st in
        let c := Config (s_my_mac c) (if o_type o =? 5 then yiaddr else s_my_ip c)
                   (if o_gateway o =? 0 then s_gateway_ip c else o_gateway o) (if o_dns o =? 0 then s_dns_ip c else o_dns o)
                   (if o_mask o =? 0 then s_my_mask c else o_mask o) (s_gateway_mac c)
                   (if o_gateway o =? 0 then s_gateway_mac_resolved c else false) in
        Some (set_cfg c (set_dhcp (Dhcp (s_dhcp_xid d) true yiaddr (s_dhcp_server_ip d) (o_type o)) st)).

(** *** DNS *)

(** Skip the labels of a name from [p] on, up to the zero byte or the end. *)
Fixpoint skip_labels (fuel : nat) (payload : list Z) (p : Z) : option Z :=
  match fuel with
  | O => Some p
  | S fuel =>
      if Z.of_nat (length payload) <=? p then Some p
      else n ← rd payload p 1; if n =? 0 then Some p else skip_labels fuel payload (p + (n + 1))
  end.

(** The answers from [p] on: [Some (Some ip)] is the first address. *)
Fixpoint dns_answers (n : nat) (payload : list Z) (p : Z) : option (option Z) :=
  match n with
  | O => Some None
  | S n =>
      let len := Z.of_nat (length payload) in
      if len <=? p then Some None
      else
        b ← rd payload p 1;
        p ← (if 0xC0 <=? b then Some (p + 2) else p ← skip_labels (S (length payload)) payload p; Some (p + 1));
        if len <? p + 10 then Some None
        else
          type ← rd payload p 2;
          rdlen ← rd payload (p + 8) 2;
          let p := p + 10 in
          if (ntohs type =? 1) && (ntohs rdlen =? 4) && (p + 4 <=? len) then ip ← rd payload p 4; Some (Some ip)
          else dns_answers n payload (p + ntohs rdlen)
  end.

Definition handle_dns_reply st (payload : list Z) : option (stack E H) :=
  if Z.of_nat (length payload) <? DNS_HEADER then Some st
  else
    id ← rd payload 0 2;
    ancount ← rd payload 6 2;
    if negb (ntohs id =? s_dns_query_id (dns st)) || (ntohs ancount =? 0) then Some st
    else
      p ← skip_labels (S (length payload)) payload DNS_HEADER;
      r ← dns_answers (Z.to_nat (ntohs ancount)) payload (p + 1 + 4);
      Some (match r with Some ip => set_dns (Dns true ip (s_dns_query_id (dns st))) st | None => st end).

(** *** TCP *)

(** The loop over the received bytes: those that do not fit are dropped. *)
Fixpoint rx_push (data : list Z) (buf : list Z) (head tail : Z) : list Z * Z :=
  match data with
  | [] => (buf, head)
  | b :: data =>
      let next_head := (head + 1) mod TCP_RX_SIZE in
      if next_head =? tail then rx_push data buf head tail
      else rx_push data (<[Z.to_nat head := b]> buf) next_head tail
  end.

(** A TCP frame with the stack's own addresses. *)
Definition tcp_frame st (dst_mac : list Z) (id seq ack flags window : Z) (payload : list Z) : list Z :=
  let c := cfg st in let t := tcp st in
  eth_header dst_mac (s_my_mac c) ETH_TYPE_IPV4 ++
  ipv4_header (IPV4_HEADER + TCP_HEADER + Z.of_nat (length payload)) id IP_PROTO_TCP (s_my_ip c) (s_tcp_dst_ip t) ++
  tcp_header (s_my_ip c) (s_tcp_dst_ip t) (s_tcp_src_port t) (s_tcp_dst_port t) seq ack flags window payload ++ payload.

(** [resolve] is [net_resolve_mac], which polls the device and so calls back into the
    receiving side; [NetApi] ties the knot. *)
Definition send_tcp_ack (resolve : stack E H -> Z -> option (stack E H * option (list Z))) st : option (stack E H) :=
  '(st, mac) ← (if s_tcp_peer_mac_valid (tcp st) then Some (st, Some (s_tcp_peer_mac (tcp st))) else resolve st (s_tcp_dst_ip (tcp st)));
  match mac with
  | None => Some st
  | Some mac => Some (fst (send st (tcp_frame st mac 0x3344 (s_tcp_our_seq (tcp st)) (s_tcp_server_seq (tcp st)) 0x10 32768 [])))
  end.

Definition handle_tcp resolve st (packet : list Z) : option (stack E H) :=
  let len := Z.of_nat (length packet) in
  if len <? ETH_HEADER + IPV4_HEADER + TCP_HEADER then Some st
  else
    dst_port ← rd packet 36 2;
    if negb (ntohs dst_port =? s_tcp_src_port (tcp st)) then Some st
    else
      src_mac ← slice packet 6 6;
      flags ← rd packet 47 1;
      let st := set_tcp (set_tcp_peer src_mac (tcp st)) st in
      if (s_tcp_state (tcp st) =? TCP_STATE_SYN_SENT) && (Z.land flags 0x12 =? 0x12) then
        seq ← rd packet 38 4;
        let t := set_tcp_seqs (u32 (s_tcp_our_seq (tcp st) + 1)) (u32 (ntohl seq + 1)) (tcp st) in
        send_tcp_ack resolve (set_tcp (set_tcp_state TCP_STATE_ESTABLISHED t) st)
      else if s_tcp_state (tcp st) =? TCP_STATE_ESTABLISHED then
        data_offset ← rd packet 46 1;
        let tcp_hdr_len := Z.shiftr data_offset 4 * 4 in
        let data_len := len - (ETH_HEADER + IPV4_HEADER + tcp_hdr_len) in
        st ← (if 0 <? data_len then
                data ← slice packet (ETH_HEADER + IPV4_HEADER + tcp_hdr_len) data_len;
                let t := tcp st in
                let '(buf, head) := rx_push data (s_tcp_rx_buf t) (s_tcp_rx_head t) (s_tcp_rx_tail t) in
                let t := set_tcp_ring buf head (s_tcp_rx_tail t) t in
                let t := set_tcp_seqs (s_tcp_our_seq t) (u32 (s_tcp_server_seq t + data_len)) t in
                send_tcp_ack resolve (set_tcp t st)
              else Some st);
        if has flags 0x01 then
          let st := set_tcp (set_tcp_seqs (s_tcp_our_seq (tcp st)) (u32 (s_tcp_server_seq (tcp st) + 1)) (tcp st)) st in
          st ← send_tcp_ack resolve st;
          Some (set_tcp (set_tcp_state TCP_STATE_CLOSED (tcp st)) st)
        else Some st
      else Some st.

(** *** ICMP and UDP *)

Definition handle_icmp st (packet : list Z) (ip_length src_ip : Z) : option (stack E H) :=
  if ip_length <? IPV4_HEADER + ICMP_HEADER then Some st
  else
    let icmp_len := ip_length - IPV4_HEADER in
    if 1500 <? ETH_HEADER + IPV4_HEADER + icmp_len then Some st
    else
      type ← rd packet 34 1;
      if type =? 8 then
        src_mac ← slice packet 6 6;
        icmp ← slice packet 34 icmp_len;
        let c := cfg st in
        let echo ck := [0] ++ take 1 (drop 1 icmp) ++ put16 ck ++ drop 4 icmp in
        Some (fst (send st (eth_header src_mac (s_my_mac c) ETH_TYPE_IPV4 ++
                            ipv4_header (IPV4_HEADER + icmp_len) 0x1000 IP_PROTO_ICMP (s_my_ip c) src_ip ++
                            echo (calc_checksum (echo 0)))))
      else if type =? 0 then
        id ← rd packet 38 2;
        seq ← rd packet 40 2;
        Some (set_ping (Pings (s_ping_seq (ping st)) true (ntohs id) (ntohs seq) (ping_seq (ping st))) st)
      else Some st.

Definition handle_udp st (packet : list Z) (src_ip : Z) : option (stack E H) :=
  let len := Z.of_nat (length packet) in
  if len <? ETH_HEADER + IPV4_HEADER + UDP_HEADER then Some st
  else
    src_port ← rd packet 34 2;
    dst_port ← rd packet 36 2;
    udp_len ← rd packet 38 2;
    let udp_len := ntohs udp_len in
    if (udp_len <? UDP_HEADER) || (len <? ETH_HEADER + IPV4_HEADER + udp_len) then Some st
    else
      payload ← slice packet (ETH_HEADER + IPV4_HEADER + UDP_HEADER) (udp_len - UDP_HEADER);
      st ← (if (ntohs src_port =? 67) && (ntohs dst_port =? 68) then handle_dhcp_reply st payload else Some st);
      st ← (if ntohs src_port =? 53 then handle_dns_reply st payload else Some st);
      Some (if s_udp_handler st then set_udp (udp_input (udp st) src_ip (ntohs src_port) (ntohs dst_port) payload) st else st).

(** The header check lets only headers of 20 bytes through, so [ip_hdr_len] is 20. *)
Definition handle_ipv4 resolve st (packet : list Z) : option (stack E H) :=
  let len := Z.of_nat (length packet) in
  if len <? ETH_HEADER + IPV4_HEADER then Some st
  else
    ver_ihl ← rd packet 14 1;
    total_len ← rd packet 16 2;
    flags_offset ← rd packet 20 2;
    let ip_length := ntohs total_len in
    if negb (ver_ihl =? 0x45) || (ip_length <? IPV4_HEADER) || (len <? ETH_HEADER + ip_length) ||
       has (ntohs flags_offset) 0x3FFF then Some st
    else
      header ← slice packet ETH_HEADER IPV4_HEADER;
      if negb (calc_checksum header =? 0) then Some st
      else
        protocol ← rd packet 23 1;
        src_ip ← rd packet 26 4;
        dst_ip ← rd packet 30 4;
        if negb (dst_ip =? s_my_ip (cfg st)) && negb (dst_ip =? 0xFFFFFFFF) then Some st
        else if protocol =? IP_PROTO_ICMP then handle_icmp st packet ip_length src_ip
        else if protocol =? IP_PROTO_UDP then handle_udp st packet src_ip
        else if protocol =? IP_PROTO_TCP then handle_tcp resolve st packet
        else Some st.

(** One round of [net_poll] on a frame that was delivered. *)
Definition handle_frame resolve st (packet : list Z) : option (stack E H) :=
  if Z.of_nat (length packet) <? ETH_HEADER then Some st
  else
    type ← rd packet 12 2;
    if ntohs type =? ETH_TYPE_ARP then handle_arp st packet
    else if ntohs type =? ETH_TYPE_IPV4 then handle_ipv4 resolve st packet
    else Some st.

(** The loop of [net_poll]. *)
Fixpoint poll_loop (fuel : nat) resolve st : option (stack E H) :=
  match fuel with
  | O => Some st
  | S fuel =>
      let '(e, packet) := netdev_poll (nic st) 2048 in
      let st := set_nic e st in
      match packet with
      | [] => Some st
      | _ => st ← handle_frame resolve st packet; poll_loop fuel resolve st
      end
  end.

Definition poll resolve st : option (stack E H) := poll_loop (S (pending (nic st))) resolve st.
End Receive.
