(* ===== verification/NetCheck.v ===== *)
(** Byte order and the Internet checksum of the network stack: the checksum is the
    complement of the one's-complement sum, and data that carries its own checksum
    verifies. *)
From S2P Require Import Prelude Net.

Definition byte (b : Z) : Prop := 0 <= b < 256.

(** ** Byte order *)

Lemma htons_eq v : fits 16 v -> htons v = v mod 256 * 256 + v / 256.
Proof.
  intros [H0 H1]. change (2 ^ 16) with 65536 in H1. unfold htons. rewrite Z.shiftl_mul_pow2, Z.shiftr_div_pow2 by lia. change (2 ^ 8) with 256.
  assert (E : u16 (v * 256) = v mod 256 * 256) by (unfold uwrap; change (2 ^ 16) with 65536; Z.to_euclidean_division_equations; lia).
  rewrite E. rewrite <-Z.add_nocarry_lor; [done|].
  apply (land_aligned_low _ 8); [lia|Z.to_euclidean_division_equations; lia|]. change (2 ^ 8) with 256. by apply Z.mod_mul.
Qed.

Lemma put16_htons v : fits 16 v -> put16 (htons v) = [v / 256; v mod 256].
Proof.
  intros H. rewrite htons_eq by done. destruct H as [H0 H1]. change (2 ^ 16) with 65536 in H1. unfold put16. cbn [le_put].
  f_equal; [|f_equal]; Z.to_euclidean_division_equations; lia.
Qed.

Lemma ntohs_bytes a b : byte a -> byte b -> ntohs (a + 256 * b) = a * 256 + b.
Proof.
  unfold byte. intros Ha Hb. rewrite htons_eq by (split; change (2 ^ 16) with 65536; lia). Z.to_euclidean_division_equations. lia.
Qed.

Lemma ntohs_fits v : fits 16 v -> fits 16 (ntohs v).
Proof.
  intros H. rewrite htons_eq by done. unfold fits in *. change (2 ^ 16) with 65536 in *. Z.to_euclidean_division_equations. lia.
Qed.

Lemma ntohs_htons v : fits 16 v -> ntohs (htons v) = v.
Proof.
  intros H. rewrite (htons_eq (htons v)) by by apply ntohs_fits. rewrite htons_eq by done.
  destruct H as [H0 H1]. change (2 ^ 16) with 65536 in H1. Z.to_euclidean_division_equations. lia.
Qed.

(** ** The one's-complement sum *)

(** The sum of the words, without wrap-around. *)
Fixpoint words (bs : list Z) : Z :=
  match bs with
  | a :: b :: bs => a + 256 * b + words bs
  | [a] => a
  | [] => 0
  end.

Lemma words_ind (P : list Z -> Prop) : P [] -> (forall a, P [a]) -> (forall a b l, P l -> P (a :: b :: l)) -> forall l, P l.
Proof.
  intros H0 H1 H2. fix F 1. intros [|a [|b l]]; [done|done|]. apply H2, F.
Qed.

Lemma words_bound l : Forall byte l -> 0 <= words l <= 65535 * Z.of_nat (length l).
Proof.
  induction l as [|a|a b l IH] using words_ind; cbn [words length]; intros Hb; [lia| |].
  - apply Forall_cons in Hb as [Ha _]. unfold byte in *. lia.
  - apply Forall_cons in Hb as [Ha Hb]. apply Forall_cons in Hb as [Hb Hl]. specialize (IH Hl). unfold byte in *. lia.
Qed.

Lemma words_app_even l1 l2 : Nat.even (length l1) = true -> words (l1 ++ l2) = words l1 + words l2.
Proof.
  induction l1 as [|a|a b l IH] using words_ind; cbn [length app words Nat.even]; intros H; [done|done|]. rewrite IH by done. lia.
Qed.

Lemma sum_words_eq l : forall acc, fits 32 acc -> sum_words acc l = u32 (acc + words l).
Proof.
  induction l as [|a|a b l IH] using words_ind; intros acc Hacc; cbn [sum_words words].
  - rewrite Z.add_0_r, uwrap_id; done.
  - done.
  - rewrite IH by (by apply uwrap_fits). unfold uwrap. rewrite Zplus_mod_idemp_l. f_equal. lia.
Qed.

Lemma fold_sum_spec s : fits 32 s ->
  0 <= fold_sum 4 s < 65536 /\ (exists k, fold_sum 4 s = s + k * 65535) /\ (0 < s -> 0 < fold_sum 4 s).
Proof.
  assert (Hstep : forall n s, fold_sum (S n) s = if s / 65536 =? 0 then s else fold_sum n (s mod 65536 + s / 65536)).
  { intros n x. cbn [fold_sum]. rewrite Z.shiftr_div_pow2 by lia. change 0xFFFF with (2 ^ 16 - 1). rewrite land_ones_mod by lia. done. }
  intros [H0 H1]. change (2 ^ 32) with 4294967296 in H1. rewrite Hstep.
  destruct (Z.eqb_spec (s / 65536) 0); [split; [Z.to_euclidean_division_equations; lia|split; [exists 0; lia|done]]|]. rewrite Hstep.
  set (s1 := s mod 65536 + s / 65536). assert (E1 : 0 < s1 < 131072 /\ s1 = s + - (s / 65536) * 65535) by (unfold s1; Z.to_euclidean_division_equations; lia).
  clearbody s1. destruct (Z.eqb_spec (s1 / 65536) 0); [split; [Z.to_euclidean_division_equations; lia|split; [eexists; apply E1|lia]]|]. rewrite Hstep.
  set (s2 := s1 mod 65536 + s1 / 65536). assert (E2 : 0 < s2 <= 65536 /\ s2 = s1 + - (s1 / 65536) * 65535) by (unfold s2; Z.to_euclidean_division_equations; lia).
  clearbody s2. assert (K2 : exists k, s2 = s + k * 65535) by (exists (- (s / 65536) - s1 / 65536); lia). clear E1 n n0.
  destruct (Z.eqb_spec (s2 / 65536) 0); [split; [Z.to_euclidean_division_equations; lia|split; [done|lia]]|]. rewrite Hstep.
  assert (s2 = 65536) as -> by (Z.to_euclidean_division_equations; lia). destruct K2 as [k K2].
  change (65536 mod 65536 + 65536 / 65536) with 1. change (1 / 65536 =? 0) with true. split; [lia|]. split; [exists (k - 1); lia|lia].
Qed.

Lemma lnot16 x : 0 <= x < 65536 -> u16 (Z.lnot x) = 65535 - x.
Proof.
  intros H. unfold uwrap. change (2 ^ 16) with 65536. replace (Z.lnot x) with (65535 - x + -1 * 65536) by (unfold Z.lnot; lia).
  rewrite Z.mod_add by lia. apply Z.mod_small. lia.
Qed.

(** The checksum as a function of the sum. *)
Definition ones_sum (s : Z) : Z := fold_sum 4 (u32 s).

Lemma calc_checksum_words l : calc_checksum l = 65535 - ones_sum (words l).
Proof.
  unfold calc_checksum, ones_sum. rewrite sum_words_eq, Z.add_0_l by done. apply lnot16. by apply fold_sum_spec, uwrap_fits.
Qed.

Lemma calc_checksum_fits l : fits 16 (calc_checksum l).
Proof.
  rewrite calc_checksum_words. unfold ones_sum. pose proof (proj1 (fold_sum_spec _ (uwrap_fits 32 (words l) ltac:(lia)))).
  unfold fits. change (2 ^ 16) with 65536. lia.
Qed.

(** A sum with the complement of its folded value added folds to 0xFFFF. *)
Lemma ones_sum_complete s : 0 <= s < 2 ^ 32 - 65536 -> ones_sum (s + (65535 - ones_sum s)) = 65535.
Proof.
  intros Hs. change (2 ^ 32) with 4294967296 in Hs. unfold ones_sum at 2. rewrite (uwrap_id 32 s) by (unfold fits; lia).
  destruct (fold_sum_spec s ltac:(unfold fits; lia)) as (H1 & (k & Hk) & _).
  assert (Hz : s = 0 -> fold_sum 4 s = 0) by by intros ->. set (x := fold_sum 4 s) in *. clearbody x.
  unfold ones_sum. rewrite uwrap_id by (unfold fits; lia).
  destruct (fold_sum_spec (s + (65535 - x)) ltac:(unfold fits; lia)) as (H2 & (k2 & Hk2) & H3).
  set (y := fold_sum 4 (s + (65535 - x))) in *. clearbody y.
  assert (0 < y).
  { destruct (decide (0 < s + (65535 - x))); [by apply H3|lia]. }
  assert (E : y = (1 - k + k2) * 65535) by lia. nia.
Qed.

(** Data that carries its own checksum verifies. *)
Lemma checksum_verifies l0 l1 :
  Forall byte l0 -> Z.of_nat (length l0) < 65536 -> words l1 = words l0 + calc_checksum l0 -> calc_checksum l1 = 0.
Proof.
  intros Hb Hl Hw. pose proof (words_bound l0 Hb). rewrite (calc_checksum_words l1), Hw, calc_checksum_words, ones_sum_complete; lia.
Qed.
(** ** Addresses in text *)

Lemma net_make_ip_eq a b c d : byte a -> byte b -> byte c -> byte d -> net_make_ip a b c d = a + 256 * b + 65536 * c + 16777216 * d.
Proof.
  unfold byte. intros Ha Hb Hc Hd. unfold net_make_ip. rewrite !Z.shiftl_mul_pow2 by lia.
  assert (L : forall x y k, 0 <= k -> 0 <= x < 2 ^ k -> Z.lor x (y * 2 ^ k) = x + y * 2 ^ k).
  { intros x y k Hk Hx. rewrite <-Z.add_nocarry_lor; [done|]. rewrite Z.land_comm. apply (land_aligned_low _ k); [done..|]. by apply Z.mod_mul; lia. }
  rewrite (L a b), (L _ c), (L _ d) by lia. lia.
Qed.

Lemma decimal_digits b : byte b -> exists ds, decimal b = ds /\ Forall (fun c => 48 <= c <= 57) ds /\ foldl (fun v c => u8 (v * 10 + (c - 48))) 0 ds = b.
Proof.
  unfold byte. intros Hb. eexists. split; [reflexivity|]. unfold decimal, uwrap. change (2 ^ 8) with 256.
  destruct (Z.leb_spec 100 b), (Z.leb_spec 10 b); try lia; cbn [app foldl]; rewrite !Forall_cons; (split; [split_and!; try done; Z.to_euclidean_division_equations; lia|]).
  - assert (F : exists h t u, b / 100 = h /\ (b / 10) mod 10 = t /\ b mod 10 = u /\ b = 100 * h + 10 * t + u /\ 0 <= h <= 2 /\ 0 <= t < 10 /\ 0 <= u < 10)
      by (do 3 eexists; split_and!; try reflexivity; Z.to_euclidean_division_equations; lia).
    destruct F as (h & t & u & -> & -> & -> & F). Z.to_euclidean_division_equations. lia.
  - assert (F : exists t u, (b / 10) mod 10 = t /\ b mod 10 = u /\ b = 10 * t + u /\ 0 <= t < 10 /\ 0 <= u < 10)
      by (do 2 eexists; split_and!; try reflexivity; Z.to_euclidean_division_equations; lia).
    destruct F as (t & u & -> & -> & F). Z.to_euclidean_division_equations. lia.
  - Z.to_euclidean_division_equations. lia.
Qed.

(** Digits fill the current part. *)
Lemma parse_digits ds : forall rest parts p, 0 <= p < 4 -> length parts = 4%nat -> Forall (fun c => 48 <= c <= 57) ds ->
  parse_ip (ds ++ rest) parts p = parse_ip rest (<[Z.to_nat p := foldl (fun v c => u8 (v * 10 + (c - 48))) (at_z 0 parts p) ds]> parts) p.
Proof.
  induction ds as [|c ds IH]; intros rest parts p Hp Hl Hd; cbn [app foldl].
  - unfold at_z. rewrite list_insert_id; [done|]. destruct (lookup_lt_is_Some_2 parts (Z.to_nat p)) as [x Hx]; [lia|]. by rewrite (nth_lookup_Some _ _ 0 _ Hx).
  - apply Forall_cons in Hd as [Hc Hd]. cbn [parse_ip]. rewrite (proj2 (Z.ltb_lt p 4)), (proj2 (Z.eqb_neq c 46)) by lia. cbn [negb].
    rewrite (proj2 (Z.leb_le 48 c)), (proj2 (Z.leb_le c 57)) by lia. cbn [andb].
    rewrite IH by (rewrite ?length_insert; done). rewrite at_z_insert, Z.eqb_refl, list_insert_insert_eq by lia. done.
Qed.

Lemma parse_decimal b rest parts p : byte b -> 0 <= p < 4 -> length parts = 4%nat -> at_z 0 parts p = 0 ->
  parse_ip (decimal b ++ rest) parts p = parse_ip rest (<[Z.to_nat p := b]> parts) p.
Proof. intros Hb Hp Hl H0. destruct (decimal_digits b Hb) as (ds & -> & Hd & Hv). by rewrite parse_digits, H0, Hv. Qed.

Lemma net_str_to_ip_to_str ip : fits 32 ip -> net_str_to_ip (net_ip_to_str ip) = ip.
Proof.
  intros [H0 H1]. change (2 ^ 32) with 4294967296 in H1. unfold net_str_to_ip, net_ip_to_str. change 0xFF with (2 ^ 8 - 1).
  rewrite !land_ones_mod, !Z.shiftr_div_pow2 by lia. change (2 ^ 8) with 256. change (2 ^ 16) with 65536. change (2 ^ 24) with 16777216.
  assert (B : forall x, byte (x mod 256)) by (intros x; apply Z.mod_pos_bound; lia).
  rewrite !parse_decimal by done. cbn [app parse_ip]. change (46 =? 46) with true. change (0 <? 4) with true. cbn [negb].
  rewrite !parse_decimal by done. cbn [app parse_ip]. change (46 =? 46) with true. change (0 + 1 <? 4) with true. cbn [negb].
  rewrite !parse_decimal by done. cbn [app parse_ip]. change (46 =? 46) with true. change (0 + 1 + 1 <? 4) with true. cbn [negb].
  rewrite <-(app_nil_r (decimal _)), parse_decimal by done. cbn [parse_ip]. change (negb (0 + 1 + 1 + 1 =? 3)) with false. cbn iota.
  change (net_make_ip (ip mod 256) ((ip / 256) mod 256) ((ip / 65536) mod 256) ((ip / 16777216) mod 256) = ip).
  rewrite net_make_ip_eq by apply B. Z.to_euclidean_division_equations. lia.
Qed.
