(* ===== verification/NetApi.v ===== *)
(** The network stack, calling side: the rest of [src/drivers/net/net_stack.c].

    A call waits by polling the device until something has happened or its time is up.  A
    write outside a local array is the result [None], as is a read outside a frame. *)
From S2P Require Import Prelude Net.

Section Api.
Context {E H : Type} `{ND : NetDev E} `{UH : UdpHandler H}.
Implicit Types st : stack E H.

(** ** Polling and waiting *)

(** [wait_fuel] rounds are enough for [timeout_ms] to pass. *)
Definition wait_fuel (timeout_ms : Z) : nat := S (Z.to_nat (timeout_ms + 1) * stall).

(** [while (timer_millis() - start < timeout_ms) { net_poll(); if (done) return; }], where
    [check] may look at the state with another call; [false]: the time is up. *)
Fixpoint wait_loop {R} (fuel : nat) (net_poll : stack E H -> option (stack E H)) (check : stack E H -> stack E H * option R)
    (start timeout_ms : Z) st : option (stack E H * option R) :=
  match fuel with
  | O => Some (st, None)
  | S fuel =>
      let '(st, now) := millis st in
      if negb (u64 (now - start) <? timeout_ms) then Some (st, None)
      else
        st ← net_poll st;
        let '(st, r) := check st in
        match r with
        | Some r => Some (st, Some r)
        | None => wait_loop fuel net_poll check start timeout_ms st
        end
  end.

Definition wait {R} net_poll (check : stack E H -> stack E H * option R) (timeout_ms : Z) st : option (stack E H * option R) :=
  let '(st, start) := millis st in wait_loop (wait_fuel timeout_ms) net_poll check start timeout_ms st.

(** The two attempts of [net_resolve_mac], over any [net_poll]. *)
Fixpoint resolve_attempts (n : nat) net_poll st (next_hop : Z) : option (stack E H * option (list Z)) :=
  match n with
  | O => Some (st, None)
  | S n =>
      let st := send_arp_request st next_hop in
      '(st, r) ← wait net_poll (fun st => arp_cache_lookup st next_hop) 300 st;
      match r with
      | Some mac => Some (st, Some mac)
      | None => resolve_attempts n net_poll st next_hop
      end
  end.

Definition resolve_mac net_poll st (dst_ip : Z) : option (stack E H * option (list Z)) :=
  let next_hop := net_next_hop st dst_ip in
  let '(st, r) := arp_cache_lookup st next_hop in
  match r with
  | Some mac => Some (st, Some mac)
  | None => resolve_attempts 2 net_poll st next_hop
  end.

(** Receiving needs [net_resolve_mac] only for an acknowledgement to a peer whose address
    is unknown, and a segment always brings its sender's address: the nested call is never
    made ([NetSafe.poll_resolve]), so one level is enough. *)
Definition no_resolve st (_ : Z) : option (stack E H * option (list Z)) := Some (st, None).
Definition net_resolve_mac st (dst_ip : Z) : option (stack E H * option (list Z)) := resolve_mac (poll no_resolve) st dst_ip.
Definition net_poll st : option (stack E H) := poll net_resolve_mac st.

(** The static variables at start-up. *)
Definition boot_stack (e : E) (h : H) : stack E H :=
  Stack (Config (replicate 6 0) 0 0 0 0 (replicate 6 0) false) (replicate 8 (ArpEntry 0 (replicate 6 0) 0 false))
    (Pings 0 false 0 0 0) (Dns false 0 0x5432) (Dhcp 0x4B455348 false 0 0 0)
    (Tcp TCP_STATE_CLOSED 0 0 45000 0x10000000 0 (replicate (Z.to_nat TCP_RX_SIZE) 0) (replicate 6 0) false 0 0) false e h.

(** ** Configuration *)

Definition net_get_my_ip st : Z := s_my_ip (cfg st).
Definition net_get_netmask st : Z := s_my_mask (cfg st).
Definition net_get_gateway st : Z := s_gateway_ip (cfg st).
Definition net_get_dns_server st : Z := s_dns_ip (cfg st).
Definition net_get_my_mac st : list Z := s_my_mac (cfg st).

(** The options of a DHCP message. *)
Definition dhcp_send_options st (message_type : Z) : list Z :=
  let d := dhcp st in
  [53; 1; message_type] ++ [61; 7; 1] ++ s_my_mac (cfg st) ++
  (if (message_type =? 3) && negb (s_dhcp_offered_ip d =? 0) then
     [50; 4] ++ put32 (s_dhcp_offered_ip d) ++
     (if s_dhcp_server_ip d =? 0 then [] else [54; 4] ++ put32 (s_dhcp_server_ip d))
   else []) ++
  [55; 4; 1; 3; 6; 15] ++ [255].

(** The fields the source does not set hold what was on the stack: [junk i n] are [n] bytes
    of it at offset [i] of the frame. *)
Definition send_dhcp st (message_type : Z) : stack E H :=
  let c := cfg st in
  let junk i n := take n (drop i (stack_bytes (nic st) 594)) in
  let options := dhcp_send_options st message_type in
  let dhcp_len := 240 + Z.of_nat (length options) in
  fst (send st (eth_header (replicate 6 0xFF) (s_my_mac c) ETH_TYPE_IPV4 ++
    ipv4_header (IPV4_HEADER + UDP_HEADER + dhcp_len) 0xD4C1 IP_PROTO_UDP 0 0xFFFFFFFF ++
    put16 (htons 68) ++ put16 (htons 67) ++ put16 (htons (UDP_HEADER + dhcp_len)) ++ put16 0 ++
    [1; 1; 6] ++ junk 45%nat 1%nat ++ put32 (htonl (s_dhcp_xid (dhcp st))) ++ junk 50%nat 2%nat ++ put16 (htons 0x8000) ++
    junk 54%nat 16%nat ++ s_my_mac c ++ junk 76%nat 202%nat ++ put32 (htonl 0x63825363) ++ options)).

Definition set_received (b : bool) (d : dhcp_state) : dhcp_state :=
  Dhcp (s_dhcp_xid d) b (s_dhcp_offered_ip d) (s_dhcp_server_ip d) (s_dhcp_message_type d).

(** Discover, offer, request, acknowledge; the result is the return code. *)
Definition net_dhcp_configure st : option (stack E H * Z) :=
  let d := dhcp st in
  let st := set_dhcp (Dhcp (u32 (s_dhcp_xid d + 1)) false 0 0 (s_dhcp_message_type d)) st in
  let st := send_dhcp st 1 in
  '(st, _) ← wait net_poll (fun st => (st, if s_dhcp_received (dhcp st) then Some tt else None)) 1500 st;
  if negb (s_dhcp_received (dhcp st)) then Some (st, -1)
  else
    let offered_ip := if s_dhcp_offered_ip (dhcp st) =? 0 then s_my_ip (cfg st) else s_dhcp_offered_ip (dhcp st) in
    let st := set_cfg (set_my_ip 0 (cfg st)) st in
    let st := send_dhcp st 3 in
    let st := set_dhcp (set_received false (dhcp st)) st in
    '(st, r) ← wait net_poll (fun st => (st, if s_dhcp_received (dhcp st) && (s_dhcp_message_type (dhcp st) =? 5) then Some tt else None)) 1500 st;
    match r with
    | Some _ => Some (st, 0)
    | None => Some (set_cfg (set_my_ip offered_ip (cfg st)) st, -1)
    end.

Definition default_config (mac : list Z) (c : config) : config :=
  Config mac (net_make_ip 10 0 2 15) (net_make_ip 10 0 2 2) (net_make_ip 10 0 2 3) (net_make_ip 255 255 255 0)
    (s_gateway_mac c) (s_gateway_mac_resolved c).

Definition forget_arp (e : arp_entry) : arp_entry := ArpEntry (a_ip e) (a_mac e) (updated_ms e) false.

Definition net_init st : option (stack E H) :=
  let st := set_arp (map forget_arp (s_arp_cache st)) st in
  let '(e, found) := netdev_init (nic st) in
  let st := set_nic e st in
  if negb found then Some st
  else
    let st := set_cfg (default_config (netdev_mac (nic st)) (cfg st)) st in
    '(st, rc) ← net_dhcp_configure st;
    let c := cfg st in
    let st := if rc =? 0 then st
              else set_cfg (Config (s_my_mac c) (net_make_ip 10 0 2 15) (net_make_ip 10 0 2 2) (net_make_ip 10 0 2 3) (s_my_mask c)
                             (s_gateway_mac c) (s_gateway_mac_resolved c)) st in
    Some (send_arp_request st (s_gateway_ip (cfg st))).

(** ** UDP *)

Definition udp_header (src_port dst_port length : Z) : list Z := put16 (htons src_port) ++ put16 (htons dst_port) ++ put16 (htons length) ++ put16 0.

(** A UDP frame with the stack's own addresses. *)
Definition udp_frame st (dst_mac : list Z) (id dst_ip src_port dst_port : Z) (payload : list Z) : list Z :=
  let c := cfg st in
  let udp_length := UDP_HEADER + Z.of_nat (length payload) in
  eth_header dst_mac (s_my_mac c) ETH_TYPE_IPV4 ++
  ipv4_header (IPV4_HEADER + udp_length) id IP_PROTO_UDP (s_my_ip c) dst_ip ++ udp_header src_port dst_port udp_length ++ payload.

Definition net_udp_set_handler (set : bool) st : stack E H :=
  Stack (cfg st) (s_arp_cache st) (ping st) (dns st) (dhcp st) (tcp st) set (nic st) (udp st).

Definition net_udp_send st (destination_ip source_port destination_port : Z) (data : list Z) : option (stack E H * Z) :=
  if (destination_ip =? 0) || (source_port =? 0) || (destination_port =? 0) || (1400 <? Z.of_nat (length data)) then Some (st, -1)
  else
    '(st, mac) ← net_resolve_mac st destination_ip;
    match mac with
    | None => Some (st, -2)
    | Some mac =>
        let '(st, now) := millis st in
        Some (send st (udp_frame st mac (Z.land now 0xFFFF) destination_ip source_port destination_port data))
    end.

(** ** Ping *)

(** The address of the device is not known: its first three bytes are zero. *)
Definition no_mac st : bool :=
  let mac := s_my_mac (cfg st) in (at_z 0 mac 0 =? 0) && (at_z 0 mac 1 =? 0) && (at_z 0 mac 2 =? 0).

(** "KeshOS 1.0 Drop Network ICMPPing" *)
Definition pattern : list Z :=
  [75; 101; 115; 104; 79; 83; 32; 49; 46; 48; 32; 68; 114; 111; 112; 32; 78; 101; 116; 119; 111; 114; 107; 32; 73; 67; 77; 80; 80; 105; 110; 103].

Definition echo_request (seq checksum : Z) : list Z :=
  [8; 0] ++ put16 checksum ++ put16 (htons 0x7777) ++ put16 (htons seq) ++ pattern.

Definition net_ping_send st (target_ip seq : Z) : option (stack E H * Z) :=
  if no_mac st then Some (st, -2)
  else
    '(st, mac) ← net_resolve_mac st target_ip;
    match mac with
    | None => Some (st, -3)
    | Some mac =>
        let p := ping st in
        let st := set_ping (Pings seq false (s_ping_reply_id p) (s_ping_reply_seq p) (ping_seq p)) st in
        let c := cfg st in
        Some (fst (send st (eth_header mac (s_my_mac c) ETH_TYPE_IPV4 ++
                            ipv4_header (IPV4_HEADER + (ICMP_HEADER + 32)) 0x4321 IP_PROTO_ICMP (s_my_ip c) target_ip ++
                            echo_request seq (calc_checksum (echo_request seq 0)))), 0)
    end.

Definition net_ping_check_reply st (seq : Z) : bool :=
  s_ping_got_reply (ping st) && (s_ping_reply_id (ping st) =? 0x7777) && (s_ping_reply_seq (ping st) =? seq).

(** The round-trip time on success. *)
Definition net_ping st (target_ip timeout_ms : Z) : option (stack E H * Z * option Z) :=
  let p := ping st in
  let seq := u16 (ping_seq p + 1) in
  let st := set_ping (Pings (s_ping_seq p) (s_ping_got_reply p) (s_ping_reply_id p) (s_ping_reply_seq p) seq) st in
  '(st, rc) ← net_ping_send st target_ip seq;
  if negb (rc =? 0) then Some (st, -2, None)
  else
    let '(st, t_start) := millis st in
    '(st, r) ← wait_loop (wait_fuel timeout_ms) net_poll
      (fun st => if net_ping_check_reply st seq
                 then let '(st, now) := millis st in (st, Some (i32 (u64 (now - t_start)))) else (st, None)) t_start timeout_ms st;
    match r with
    | Some rtt => Some (st, 0, Some rtt)
    | None => Some (st, -1, None)
    end.

(** ** DNS *)

Fixpoint before_dot (name : list Z) : list Z :=
  match name with [] => [] | c :: name => if c =? 46 then [] else c :: before_dot name end.
Fixpoint from_dot (name : list Z) : list Z :=
  match name with [] => [] | c :: rest => if c =? 46 then name else from_dot rest end.

(** The labels of a name with their lengths; those beyond 63 bytes are cut off. *)
Fixpoint dns_encode_labels (fuel : nat) (name : list Z) : list Z :=
  match fuel, name with
  | O, _ | _, [] => [0]
  | S fuel, _ =>
      let label := take 63 (before_dot name) in
      Z.of_nat (length label) :: label ++ dns_encode_labels fuel (drop 1 (from_dot name))
  end.

Definition dns_query (id : Z) (labels : list Z) : list Z :=
  put16 (htons id) ++ put16 (htons 0x0100) ++ put16 (htons 1) ++ put16 0 ++ put16 0 ++ put16 0 ++ labels ++ put16 (htons 1) ++ put16 (htons 1).

(** The frame is an array of 512 bytes. *)
Definition net_dns_send st (domain : list Z) : option (stack E H * Z) :=
  let direct_ip := net_str_to_ip domain in
  if negb (direct_ip =? 0) then Some (set_dns (Dns true direct_ip (s_dns_query_id (dns st))) st, 0)
  else if no_mac st then Some (st, -2)
  else
    '(st, mac) ← net_resolve_mac st (s_dns_ip (cfg st));
    match mac with
    | None => Some (st, -3)
    | Some mac =>
        let d := dns st in
        let id := u16 (s_dns_query_id d + 1) in
        let query := dns_query id (dns_encode_labels (S (length domain)) domain) in
        if 512 <? ETH_HEADER + IPV4_HEADER + UDP_HEADER + Z.of_nat (length query) then None
        else
          let st := set_dns (Dns false (s_dns_resolved_ip d) id) st in
          Some (fst (send st (udp_frame st mac 0x9876 (s_dns_ip (cfg st)) 53535 53 query)), 0)
    end.

Definition net_dns_check_reply st : option Z := if s_dns_resolved (dns st) then Some (s_dns_resolved_ip (dns st)) else None.

Definition net_dns_resolve st (domain : list Z) (timeout_ms : Z) : option (stack E H * Z * option Z) :=
  '(st, err) ← net_dns_send st domain;
  if negb (err =? 0) then Some (st, err, None)
  else
    '(st, r) ← wait net_poll (fun st => (st, net_dns_check_reply st)) timeout_ms st;
    match r with
    | Some ip => Some (st, 0, Some ip)
    | None => Some (st, -1, None)
    end.

(** ** TCP *)

Definition send_tcp st (mac : list Z) (id ack flags window : Z) (payload : list Z) : stack E H :=
  fst (send st (tcp_frame st mac id (s_tcp_our_seq (tcp st)) ack flags window payload)).

Definition net_tcp_connect st (dst_ip dst_port timeout_ms : Z) : option (stack E H * Z) :=
  let t := tcp st in
  let port := u16 (s_tcp_src_port t + 1) in
  let port := if 60000 <? port then 45000 else port in
  let st := set_tcp (Tcp (s_tcp_state t) dst_ip dst_port port 0x12345000 (s_tcp_server_seq t) (s_tcp_rx_buf t) (s_tcp_peer_mac t) false 0 0) st in
  '(st, mac) ← net_resolve_mac st dst_ip;
  match mac with
  | None => Some (st, -2)
  | Some mac =>
      let st := set_tcp (set_tcp_state TCP_STATE_SYN_SENT (tcp st)) st in
      let st := send_tcp st mac 0x7788 0 0x02 32768 [] in
      '(st, r) ← wait net_poll (fun st => (st, if s_tcp_state (tcp st) =? TCP_STATE_ESTABLISHED then Some tt else None)) timeout_ms st;
      match r with
      | Some _ => Some (st, 0)
      | None => Some (set_tcp (set_tcp_state TCP_STATE_CLOSED (tcp st)) st, -1)
      end
  end.

(** The frame is an array of 1500 bytes. *)
Definition net_tcp_send st (data : list Z) : option (stack E H * Z) :=
  if negb (s_tcp_state (tcp st) =? TCP_STATE_ESTABLISHED) then Some (st, -1)
  else
    '(st, mac) ← net_resolve_mac st (s_tcp_dst_ip (tcp st));
    match mac with
    | None => Some (st, -2)
    | Some mac =>
        let len := Z.of_nat (length data) in
        if 1500 <? ETH_HEADER + IPV4_HEADER + TCP_HEADER + len then None
        else
          let frame := tcp_frame st mac 0x7789 (s_tcp_our_seq (tcp st)) (s_tcp_server_seq (tcp st)) 0x18 32768 data in
          let st := set_tcp (set_tcp_seqs (u32 (s_tcp_our_seq (tcp st) + len)) (s_tcp_server_seq (tcp st)) (tcp st)) st in
          Some (fst (send st frame), len)
    end.

(** At most [n] bytes out of the receive ring; the bytes and the new tail. *)
Fixpoint rx_pop (n : nat) (buf : list Z) (head tail : Z) : list Z * Z :=
  match n with
  | O => ([], tail)
  | S n =>
      if tail =? head then ([], tail)
      else let '(bs, tail') := rx_pop n buf head ((tail + 1) mod TCP_RX_SIZE) in (at_z 0 buf tail :: bs, tail')
  end.

(** Wait for data; [false]: none before the end of the wait or the connection. *)
Fixpoint recv_loop (fuel : nat) (start timeout_ms : Z) st : option (stack E H * bool) :=
  match fuel with
  | O => Some (st, false)
  | S fuel =>
      if negb (s_tcp_rx_head (tcp st) =? s_tcp_rx_tail (tcp st)) then Some (st, true)
      else
        st ← net_poll st;
        let '(st, now) := millis st in
        if timeout_ms <=? u64 (now - start) then Some (st, false)
        else if s_tcp_state (tcp st) =? TCP_STATE_CLOSED then Some (st, false)
        else recv_loop fuel start timeout_ms st
  end.

Definition net_tcp_recv st (max_len timeout_ms : Z) : option (stack E H * list Z) :=
  let '(st, start) := millis st in
  '(st, ready) ← recv_loop (S (wait_fuel timeout_ms)) start timeout_ms st;
  if negb ready then Some (st, [])
  else
    let t := tcp st in
    let '(bs, tail) := rx_pop (Z.to_nat max_len) (s_tcp_rx_buf t) (s_tcp_rx_head t) (s_tcp_rx_tail t) in
    Some (set_tcp (set_tcp_ring (s_tcp_rx_buf t) (s_tcp_rx_head t) tail t) st, bs).

(** If the peer's address cannot be resolved, the frame is sent with whatever was on the
    stack in place of the Ethernet addresses. *)
Definition net_tcp_close st : option (stack E H) :=
  st ← (if s_tcp_state (tcp st) =? TCP_STATE_ESTABLISHED then
          '(st, mac) ← net_resolve_mac st (s_tcp_dst_ip (tcp st));
          let t := tcp st in
          let frame mac := tcp_frame st mac 0x7790 (s_tcp_our_seq t) (s_tcp_server_seq t) 0x11 4096 [] in
          let frame := match mac with
                       | Some mac => frame mac
                       | None => take 12 (stack_bytes (nic st) 54) ++ drop 12 (frame (replicate 6 0))
                       end in
          Some (fst (send st frame))
        else Some st);
  Some (set_tcp (set_tcp_state TCP_STATE_CLOSED (tcp st)) st).

Definition net_tcp_is_connected st : bool := s_tcp_state (tcp st) =? TCP_STATE_ESTABLISHED.

Definition net_tcp_available st : Z :=
  let t := tcp st in
  if s_tcp_rx_tail t <=? s_tcp_rx_head t then s_tcp_rx_head t - s_tcp_rx_tail t
  else TCP_RX_SIZE - s_tcp_rx_tail t + s_tcp_rx_head t.
End Api.
