(* ===== verification/NetSafe.v ===== *)
(** The frames the network stack builds: their headers verify, and the receiving side reads
    back the fields the sending side wrote.  No frame makes the stack read outside it, every
    call returns, and a wait ends with its result or when its time is up. *)
From S2P Require Import Prelude Net NetCheck NetApi.

(** * Frames *)

Definition mac_ok (m : list Z) : Prop := length m = 6%nat /\ Forall byte m.

(** ** Parts of a frame *)

Lemma slice_app_l a b off n : off + n <= Z.of_nat (length a) -> 0 <= off -> 0 <= n -> slice (a ++ b) off n = slice a off n.
Proof.
  intros H H0 Hn. rewrite !slice_some by (rewrite ?length_app; lia). f_equal.
  rewrite drop_app_le, take_app_le by (rewrite ?length_drop; lia). done.
Qed.

Lemma slice_app_r a b off n k : off = Z.of_nat (length a) + k -> 0 <= k -> slice (a ++ b) off n = slice b k n.
Proof.
  intros -> Hk. unfold slice. rewrite length_app. rewrite drop_app_ge by lia.
  replace (Z.to_nat (Z.of_nat (length a) + k) - length a)%nat with (Z.to_nat k) by lia.
  rewrite (proj2 (Z.leb_le 0 (_ + _))), (proj2 (Z.leb_le 0 k)) by lia. destruct (Z.leb_spec 0 n); cbn [andb]; [|reflexivity].
  destruct (Z.leb_spec (Z.of_nat (length a) + k + n) (Z.of_nat (length a + length b))), (Z.leb_spec (k + n) (Z.of_nat (length b))); (done || lia).
Qed.

Lemma rd_app_l a b off n : off + n <= Z.of_nat (length a) -> 0 <= off -> 0 <= n -> rd (a ++ b) off n = rd a off n.
Proof. intros. unfold rd. by rewrite slice_app_l. Qed.

Lemma rd_app_r a b off n k : off = Z.of_nat (length a) + k -> 0 <= k -> rd (a ++ b) off n = rd b k n.
Proof. intros. unfold rd. by rewrite (slice_app_r a b off n k). Qed.

(** ** Bytes *)

Lemma le_put_byte n x : Forall byte (le_put n x).
Proof. revert x. induction n as [|n IH]; intros x; cbn [le_put]; constructor; [apply Z.mod_pos_bound; lia|apply IH]. Qed.

Lemma length_put16 x : length (put16 x) = 2%nat.
Proof. done. Qed.

Lemma put16_words x l : fits 16 x -> words (put16 x ++ l) = x + words l.
Proof.
  intros Hx. unfold put16. cbn [le_put app words]. unfold fits in Hx. change (2 ^ 16) with 65536 in Hx. Z.to_euclidean_division_equations. lia.
Qed.

(** A checksum field in the middle of the data. *)
Lemma words_field a x b : Nat.even (length a) = true -> fits 16 x -> words (a ++ put16 x ++ b) = words a + x + words b.
Proof. intros Ha Hx. rewrite words_app_even, put16_words by done. lia. Qed.

Lemma field_verifies a b :
  Nat.even (length a) = true -> Forall byte a -> Forall byte b -> Z.of_nat (length a + 2 + length b) < 65536 ->
  calc_checksum (a ++ put16 (calc_checksum (a ++ put16 0 ++ b)) ++ b) = 0.
Proof.
  intros He Ha Hb Hl. apply (checksum_verifies (a ++ put16 0 ++ b)).
  - rewrite !Forall_app. split_and!; [done|apply le_put_byte|done].
  - rewrite !length_app. change (length (put16 0)) with 2%nat. lia.
  - rewrite !words_field by (done || apply calc_checksum_fits). lia.
Qed.

(** ** Internet headers *)

Lemma ipv4_fields_split total id proto ck s d :
  ipv4_fields total id proto ck s d =
  ([0x45; 0] ++ put16 (htons (u16 total)) ++ put16 (htons id) ++ put16 0 ++ [64; proto]) ++ put16 ck ++ put32 s ++ put32 d.
Proof. done. Qed.

Lemma ipv4_header_length total id proto s d : length (ipv4_header total id proto s d) = 20%nat.
Proof. done. Qed.

Lemma ipv4_header_bytes total id proto s d : byte proto -> Forall byte (ipv4_header total id proto s d).
Proof. intros Hp. unfold ipv4_header, ipv4_fields. rewrite !Forall_app. repeat split; try apply le_put_byte; repeat constructor; unfold byte in *; lia. Qed.

(** The header the stack builds passes the receiver's check. *)
Lemma ipv4_header_verifies total id proto s d : byte proto -> calc_checksum (ipv4_header total id proto s d) = 0.
Proof.
  intros Hp. unfold ipv4_header. rewrite !ipv4_fields_split. apply field_verifies; [done| |rewrite Forall_app; split; apply le_put_byte|done].
  rewrite !Forall_app. repeat split; try apply le_put_byte; repeat constructor; unfold byte in *; lia.
Qed.

(** An IPv4 frame and the fields the receiver reads. *)
Definition ipv4_frame (dst src : list Z) (total id proto s d : Z) (rest : list Z) : list Z :=
  eth_header dst src ETH_TYPE_IPV4 ++ ipv4_header total id proto s d ++ rest.

Section Fields.
Context (dst src : list Z) (total id proto s d : Z) (rest : list Z).
Hypotheses (Hdst : mac_ok dst) (Hsrc : mac_ok src).
Abbreviation p := (ipv4_frame dst src total id proto s d rest).

Lemma ipv4_frame_length : length p = (34 + length rest)%nat.
Proof. unfold ipv4_frame, eth_header. rewrite !length_app. destruct Hdst as [-> _], Hsrc as [-> _]. done. Qed.

Lemma rest_slice off n k : off = 34 + k -> 0 <= k -> slice p off n = slice rest k n.
Proof.
  intros -> Hk. unfold ipv4_frame. rewrite app_assoc. apply slice_app_r; [|done]. rewrite length_app. unfold eth_header. rewrite !length_app.
  destruct Hdst as [-> _], Hsrc as [-> _]. done.
Qed.

Lemma rest_rd off n k : off = 34 + k -> 0 <= k -> rd p off n = rd rest k n.
Proof. intros. unfold rd. by rewrite (rest_slice off n k). Qed.

(** The part of the frame before [rest], with its bytes laid out. *)
Lemma head_slice off n : 0 <= off -> 0 <= n -> off + n <= 34 ->
  slice p off n = Some (take (Z.to_nat n) (drop (Z.to_nat off) (eth_header dst src ETH_TYPE_IPV4 ++ ipv4_header total id proto s d))).
Proof.
  intros Ho Hn Hl. unfold ipv4_frame. rewrite app_assoc.
  assert (Z.of_nat (length (eth_header dst src ETH_TYPE_IPV4 ++ ipv4_header total id proto s d)) = 34).
  { rewrite length_app. unfold eth_header. rewrite !length_app. destruct Hdst as [-> _], Hsrc as [-> _]. done. }
  rewrite slice_app_l, slice_some by lia. done.
Qed.

Lemma head_rd off n x : 0 <= off -> 0 <= n -> off + n <= 34 -> 0 <= x < 256 ^ n ->
  take (Z.to_nat n) (drop (Z.to_nat off) (eth_header dst src ETH_TYPE_IPV4 ++ ipv4_header total id proto s d)) = le_put (Z.to_nat n) x ->
  rd p off n = Some x.
Proof.
  intros Ho Hn Hl Hx E. unfold rd. rewrite head_slice, E by done. cbn [fmap option_fmap option_map]. rewrite le_get_put; [done|].
  by rewrite Z2Nat.id.
Qed.
End Fields.

(** ** Dispatch *)

(** The six bytes of a hardware address. *)
Lemma mac_bytes m : mac_ok m -> exists a b c d e f, m = [a; b; c; d; e; f].
Proof. intros [H _]. do 6 (destruct m as [|? m]; [done|]). destruct m; [|done]. by do 6 eexists. Qed.

Section Dispatch.
Context {E H : Type} `{ND : NetDev E} `{UH : UdpHandler H}.
Implicit Types st : stack E H.

(** What a frame carries reaches the handler of its protocol. *)
Lemma handle_ipv4_frame resolve st dst src total id proto s d rest :
  mac_ok dst -> mac_ok src -> byte proto -> fits 32 s -> fits 32 d ->
  20 <= total < 65536 -> total <= 20 + Z.of_nat (length rest) -> d = s_my_ip (cfg st) \/ d = 0xFFFFFFFF ->
  let p := ipv4_frame dst src total id proto s d rest in
  handle_frame resolve st p =
    (if proto =? IP_PROTO_ICMP then handle_icmp st p total s
     else if proto =? IP_PROTO_UDP then handle_udp st p s
     else if proto =? IP_PROTO_TCP then handle_tcp resolve st p else Some st) /\
  slice p 6 6 = Some src.
Proof.
  intros Hdst Hsrc Hproto Hs Hd Ht Htl Hip p. pose proof (ipv4_frame_length dst src total id proto s d rest Hdst Hsrc) as Hlen. fold p in Hlen.
  destruct (mac_bytes dst Hdst) as (a0 & a1 & a2 & a3 & a4 & a5 & E0), (mac_bytes src Hsrc) as (b0 & b1 & b2 & b3 & b4 & b5 & E1).
  assert (Ht16 : u16 total = total) by (apply uwrap_id; unfold fits; lia).
  assert (R : forall off n x, 0 <= off -> 0 <= n -> off + n <= 34 -> 0 <= x < 256 ^ n -> _ -> rd p off n = Some x) by apply (head_rd dst src total id proto s d rest Hdst Hsrc).
  pose proof (ntohs_fits (u16 total) ltac:(by apply uwrap_fits)) as Hh. unfold fits, byte in *.
  assert (slice p 6 6 = Some src) as Esrc by (unfold p; rewrite head_slice by (done || lia); by subst). split; [|done].
  unfold handle_frame. rewrite Hlen. unfold ETH_HEADER. rewrite (proj2 (Z.ltb_ge _ _)) by lia.
  rewrite (R 12 2 (htons ETH_TYPE_IPV4)); [|lia..|by (split; vm_compute)|by subst]. cbn [mbind option_bind].
  change (ntohs (htons ETH_TYPE_IPV4) =? ETH_TYPE_ARP) with false. change (ntohs (htons ETH_TYPE_IPV4) =? ETH_TYPE_IPV4) with true. cbn iota.
  unfold handle_ipv4. rewrite Hlen. unfold ETH_HEADER, IPV4_HEADER. rewrite (proj2 (Z.ltb_ge (Z.of_nat _) _)) by lia.
  rewrite (R 14 1 0x45); [|lia..|by subst]. rewrite (R 16 2 (htons (u16 total))); [|lia..|by subst].
  rewrite (R 20 2 0); [|lia..|by subst]. cbn [mbind option_bind].
  rewrite ntohs_htons, Ht16 by (by apply uwrap_fits). rewrite (proj2 (Z.ltb_ge total _)), (proj2 (Z.ltb_ge (Z.of_nat _) _)) by lia.
  change (has (ntohs 0) 0x3FFF) with false. change (0x45 =? 0x45) with true. cbn [negb orb].
  assert (slice p 14 20 = Some (ipv4_header total id proto s d)) as -> by (unfold p; rewrite head_slice by (done || lia); by subst).
  cbn [mbind option_bind]. rewrite ipv4_header_verifies by done. change (0 =? 0) with true. cbn [negb].
  assert (le_put 1 proto = [proto]) as E2 by (cbn; by rewrite (Z.mod_small proto) by lia).
  rewrite (R 23 1 proto); [|lia..|change (Z.to_nat 1) with 1%nat; rewrite E2; by subst].
  rewrite (R 26 4 s); [|lia..|by subst]. rewrite (R 30 4 d); [|lia..|by subst]. cbn [mbind option_bind].
  assert ((d =? s_my_ip (cfg st)) || (d =? 0xFFFFFFFF) = true) as Hm by (destruct Hip as [->| ->]; by rewrite Z.eqb_refl, ?orb_true_r).
  rewrite <-negb_orb, Hm. done.
Qed.
End Dispatch.

(** * Bounds and termination *)

(** ** What the device promises

    Frames are bytes, at most as many as asked for.  A frame delivered uses up [pending],
    and no other call adds to it.  The clock never goes back, and [lag] bounds the
    readings until it advances. *)
Definition progress {E} (clock : E -> Z) (lag : E -> nat) (e e' : E) : Prop :=
  clock e < clock e' \/ clock e = clock e' /\ (lag e' <= lag e)%nat.

Class NetLaws (E : Type) `{ND : NetDev E} := {
  clock : E -> Z;
  lag : E -> nat;
  nl_frame e max e' p : 0 <= max -> netdev_poll e max = (e', p) -> image p /\ Z.of_nat (length p) <= max;
  nl_pending e max e' p : netdev_poll e max = (e', p) -> p <> [] -> (pending e' < pending e)%nat;
  nl_poll e max e' p : netdev_poll e max = (e', p) -> progress clock lag e e' /\ (pending e' <= pending e)%nat;
  nl_send e f e' r : netdev_send e f = (e', r) -> progress clock lag e e' /\ (pending e' <= pending e)%nat;
  nl_millis e e' t : timer_millis e = (e', t) -> 0 <= clock e <= t /\ clock e' = t /\ (clock e < t \/ (lag e' < lag e)%nat);
  nl_reading e e' t : timer_millis e = (e', t) -> (pending e' <= pending e)%nat;
  nl_lag e : (lag e < stall)%nat
}.

(** ** Reading frames *)

Lemma image_slice img off n bs : image img -> slice img off n = Some bs -> image bs.
Proof.
  intros [Hb Hl] H. unfold slice in H. destruct (_ && _); [|done]. injection H as <-. split; [by apply Forall_take, Forall_drop|].
  rewrite length_take, length_drop. lia.
Qed.

Lemma byte_of x : 0 <= x < 256 ^ 1 -> byte x.
Proof. unfold byte. lia. Qed.

Lemma short_of x : 0 <= x < 256 ^ 2 -> fits 16 x.
Proof. unfold fits. lia. Qed.

(** Read or slice the next part of the frame. *)
Ltac read_part H :=
  let field img o n :=
    (let x := fresh "x" in let E := fresh "E" in let R := fresh "R" in
     destruct (rd_some img o n H ltac:(lia) ltac:(lia) ltac:(lia)) as (x & E & R); rewrite E; cbn [mbind option_bind]) in
  match goal with
  | |- is_Some (mbind _ (rd ?img ?o ?n)) => field img o n
  | |- is_Some (mbind _ (slice ?img ?o ?n)) => rewrite (slice_some img o n) by lia; cbn [mbind option_bind]
  | |- exists _, mbind _ (rd ?img ?o ?n) = _ /\ _ => field img o n
  | |- exists _, mbind _ (slice ?img ?o ?n) = _ /\ _ => rewrite (slice_some img o n) by lia; cbn [mbind option_bind]
  end.

(** [is_Some] through the tests of a handler. *)
Ltac test := match goal with |- is_Some (if ?b then _ else _) => destruct b eqn:? end; try (by eexists).

Section Safe.
Context {E H : Type} `{ND : NetDev E} `{UH : UdpHandler H}.
Implicit Types st : stack E H.

Lemma handle_arp_safe st p : image p -> is_Some (handle_arp st p).
Proof.
  intros Hp. unfold handle_arp. unfold ETH_HEADER, ARP_PACKET in *. test. apply Z.ltb_ge in Heqb. do 6 read_part Hp. test.
Qed.

Lemma dhcp_option_safe o p code olen opt : image p -> 0 <= opt -> opt + olen <= Z.of_nat (length p) -> is_Some (dhcp_option o p code olen opt).
Proof.
  intros Hp Ho Hl. unfold dhcp_option.
  assert (Hrd : forall n, 0 <= n -> n <= olen -> is_Some (rd p opt n)) by (intros n Hn1 Hn2; destruct (rd_some p opt n Hp) as (x & -> & _); [lia..|by eexists]).
  assert (Hstep : forall (b : bool) n (f : Z -> option dhcp_options) (o : dhcp_options), (b = true -> 0 <= n <= olen) ->
    (forall v, is_Some (f v)) -> is_Some (if b then v ← rd p opt n; f v else Some o)).
  { intros b n f o' Hb Hf. destruct b; [|by eexists]. destruct (Hrd n) as [v ->]; [lia|lia|]. apply Hf. }
  repeat match goal with |- is_Some (mbind ?k ?x) =>
    let Hx := fresh in assert (Hx : is_Some x) by (apply Hstep; [lia|intros; by eexists]); destruct Hx as [? ->]; cbn [mbind option_bind]
  end. apply Hstep; [lia|intros; by eexists].
Qed.

Lemma dhcp_loop_safe p : image p -> forall fuel o opt left, 0 <= opt -> opt + left <= Z.of_nat (length p) -> is_Some (dhcp_loop fuel o p opt left).
Proof.
  intros Hp. induction fuel as [|fuel IH]; intros o opt left Ho Hl; cbn [dhcp_loop]; [by eexists|]. test. apply Z.leb_gt in Heqb.
  read_part Hp. cbn zeta. test; [apply IH; lia|]. test. test. apply Z.eqb_neq in Heqb2. read_part Hp. test. apply Z.ltb_ge in Heqb3.
  destruct (dhcp_option_safe o p x x0 (opt + 1 + 1) Hp ltac:(lia) ltac:(lia)) as [o' ->]. cbn [mbind option_bind]. apply IH; lia.
Qed.

Lemma handle_dhcp_reply_safe st p : image p -> is_Some (handle_dhcp_reply st p).
Proof.
  intros Hp. unfold handle_dhcp_reply. cbn zeta. test. apply Z.ltb_ge in Heqb. do 2 read_part Hp. test.
  match goal with |- context [dhcp_loop ?f ?o _ ?a ?b] => destruct (dhcp_loop_safe p Hp f o a b ltac:(lia) ltac:(lia)) as [o' ->] end.
  cbn [mbind option_bind]. test.
Qed.

Lemma skip_labels_safe p : image p -> forall fuel i, 0 <= i -> exists j, skip_labels fuel p i = Some j /\ i <= j.
Proof.
  intros Hp. induction fuel as [|fuel IH]; intros i Hi; cbn [skip_labels]; [by exists i|].
  destruct (Z.leb_spec (Z.of_nat (length p)) i); [by exists i|]. read_part Hp. destruct (x =? 0); [by exists i|].
  destruct (IH (i + (x + 1)) ltac:(lia)) as (j & -> & Hj). exists j. split; [done|lia].
Qed.

Lemma dns_answers_safe p : image p -> forall n i, 0 <= i -> is_Some (dns_answers n p i).
Proof.
  intros Hp. induction n as [|n IH]; intros i Hi; cbn [dns_answers]; [by eexists|]. cbn zeta. test. apply Z.leb_gt in Heqb. read_part Hp.
  assert (Hj : exists j, (if 0xC0 <=? x then Some (i + 2) else p0 ← skip_labels (S (length p)) p i; Some (p0 + 1)) = Some j /\ 0 <= j).
  { destruct (0xC0 <=? x); [eexists; split; [done|lia]|]. destruct (skip_labels_safe p Hp (S (length p)) i Hi) as (j & -> & Hj).
    eexists. split; [done|lia]. }
  destruct Hj as (j & -> & Hj). cbn [mbind option_bind]. test. apply Z.ltb_ge in Heqb0. do 2 read_part Hp.
  pose proof (ntohs_fits x1 (short_of _ R1)) as [Hr _]. test.
  - rewrite !andb_true_iff, Z.leb_le in Heqb1. read_part Hp. by eexists.
  - apply IH. lia.
Qed.

Lemma handle_dns_reply_safe st p : image p -> is_Some (handle_dns_reply st p).
Proof.
  intros Hp. unfold handle_dns_reply, DNS_HEADER. test. apply Z.ltb_ge in Heqb. do 2 read_part Hp. test.
  destruct (skip_labels_safe p Hp (S (length p)) 12 ltac:(lia)) as (j & -> & Hj). cbn [mbind option_bind].
  destruct (dns_answers_safe p Hp (Z.to_nat (ntohs x0)) (j + 1 + 4) ltac:(lia)) as [r ->]. by eexists.
Qed.

(** An acknowledgement to a peer whose address is known needs no resolution. *)
Lemma send_tcp_ack_known resolve st : s_tcp_peer_mac_valid (tcp st) = true ->
  send_tcp_ack resolve st =
    Some (fst (send st (tcp_frame st (s_tcp_peer_mac (tcp st)) 0x3344 (s_tcp_our_seq (tcp st)) (s_tcp_server_seq (tcp st)) 0x10 32768 []))).
Proof. intros Hv. unfold send_tcp_ack. by rewrite Hv. Qed.

Lemma tcp_after_send st f : tcp (fst (send st f)) = tcp st.
Proof. unfold send. by destruct (netdev_send (nic st) f). Qed.

Lemma handle_tcp_safe resolve st p : image p -> is_Some (handle_tcp resolve st p).
Proof.
  intros Hp. unfold handle_tcp, ETH_HEADER, IPV4_HEADER, TCP_HEADER in *. cbn zeta. test. apply Z.ltb_ge in Heqb. read_part Hp. test.
  do 2 read_part Hp. test; [read_part Hp; rewrite send_tcp_ack_known by done; by eexists|]. test. read_part Hp.
  assert (Hh : 0 <= Z.shiftr x1 4 * 4) by (rewrite Z.shiftr_div_pow2 by lia; Z.to_euclidean_division_equations; lia).
  set (h := Z.shiftr x1 4 * 4) in *. clearbody h.
  match goal with |- is_Some (mbind ?k ?y) => assert (Hst : exists st', y = Some st' /\ s_tcp_peer_mac_valid (tcp st') = true) end.
  { destruct (Z.ltb_spec 0 (Z.of_nat (length p) - (14 + 20 + h))); [|eexists; split; done].
    read_part Hp. destruct (rx_push _ _ _ _) as [buf head]. rewrite send_tcp_ack_known by done. eexists. split; [done|]. by rewrite tcp_after_send. }
  destruct Hst as (st' & -> & Hv). cbn [mbind option_bind]. test. rewrite send_tcp_ack_known by done. by eexists.
Qed.

Lemma handle_icmp_safe st p ip_length src : image p -> 0 <= ip_length -> 14 + ip_length <= Z.of_nat (length p) -> is_Some (handle_icmp st p ip_length src).
Proof.
  intros Hp H0 Hl. unfold handle_icmp, ETH_HEADER, IPV4_HEADER, ICMP_HEADER in *. cbn zeta. test. apply Z.ltb_ge in Heqb. test.
  read_part Hp. test; [do 2 read_part Hp; by eexists|]. test. do 2 read_part Hp. by eexists.
Qed.

Lemma handle_udp_safe st p src : image p -> is_Some (handle_udp st p src).
Proof.
  intros Hp. unfold handle_udp, ETH_HEADER, IPV4_HEADER, UDP_HEADER in *. cbn zeta. test. apply Z.ltb_ge in Heqb. do 3 read_part Hp.
  pose proof (ntohs_fits x1 (short_of _ R1)) as [Hr _]. test. apply orb_false_iff in Heqb0 as [Hu1 Hu2]. apply Z.ltb_ge in Hu1, Hu2.
  destruct (slice p 42 (ntohs x1 - 8)) as [pl|] eqn:Es; [|rewrite slice_some in Es by lia; done].
  change (14 + 20 + 8) with 42. rewrite Es. cbn [mbind option_bind]. pose proof (image_slice _ _ _ _ Hp Es) as Hpl.
  assert (H1 : is_Some (if (ntohs x =? 67) && (ntohs x0 =? 68) then handle_dhcp_reply st pl else Some st)).
  { destruct (_ && _); [by apply handle_dhcp_reply_safe|by eexists]. }
  destruct H1 as [st1 ->]. cbn [mbind option_bind].
  assert (H2 : is_Some (if ntohs x =? 53 then handle_dns_reply st1 pl else Some st1)).
  { destruct (_ =? _); [by apply handle_dns_reply_safe|by eexists]. }
  destruct H2 as [st2 ->]. by eexists.
Qed.

Lemma handle_ipv4_safe resolve st p : image p -> is_Some (handle_ipv4 resolve st p).
Proof.
  intros Hp. unfold handle_ipv4, ETH_HEADER, IPV4_HEADER in *. cbn zeta. test. apply Z.ltb_ge in Heqb. do 3 read_part Hp.
  pose proof (ntohs_fits x0 (short_of _ R0)) as [Hr _]. test. rewrite !orb_false_iff, !Z.ltb_ge in Heqb0. destruct Heqb0 as [[[_ Hn] Hm] _].
  read_part Hp. test. do 3 read_part Hp. test. test; [by apply handle_icmp_safe|]. test; [by apply handle_udp_safe|]. test.
  by apply handle_tcp_safe.
Qed.

Lemma handle_frame_safe resolve st p : image p -> is_Some (handle_frame resolve st p).
Proof.
  intros Hp. unfold handle_frame, ETH_HEADER. test. apply Z.ltb_ge in Heqb. read_part Hp. test; [by apply handle_arp_safe|]. test.
  by apply handle_ipv4_safe.
Qed.
End Safe.

(** ** Steps of the receiving side

    A relation that holds across changes that are only local, sends and additions to the
    ARP cache holds across the handling of a frame. *)

(** Take apart the computation of a result: its test or its first step. *)
Ltac cond H := match type of H with (if ?b then _ else _) = Some _ => destruct b end.
Ltac first_step H := match type of H with mbind _ ?x = Some _ => let E := fresh "Hr" in destruct x eqn:E; [|done]; cbn [mbind option_bind] in H end.
Ltac run H := repeat first [cond H | first_step H]; try match type of H with Some _ = Some _ => injection H as <- end.

Section Steps.
Context {E H : Type} `{ND : NetDev E} `{UH : UdpHandler H}.
Implicit Types st : stack E H.

(** Neither the device nor hardware addresses nor the handler's state are touched. *)
Definition local st st' : Prop :=
  nic st' = nic st /\ s_arp_cache st' = s_arp_cache st /\ s_my_mac (cfg st') = s_my_mac (cfg st) /\ udp st' = udp st.

Context (R : stack E H -> stack E H -> Prop) `{!PreOrder R}.
Hypothesis R_local : forall st st', local st st' -> R st st'.
Hypothesis R_send : forall st f, R st (fst (send st f)).
Hypothesis R_learn : forall st ip mac, mac_ok mac -> R st (arp_cache_update st ip mac).
Hypothesis R_input : forall st ip sport dport payload, R st (set_udp (udp_input (udp st) ip sport dport payload) st).

Lemma handle_arp_steps st p st' : image p -> handle_arp st p = Some st' -> R st st'.
Proof.
  intros Hp. unfold handle_arp. destruct (_ <? _); [intros [= <-]; by apply R_local|].
  destruct (rd p 18 1) as [hl|]; [|done]. cbn [mbind option_bind]. destruct (rd p 19 1) as [pl|]; [|done]. cbn [mbind option_bind].
  destruct (rd p 20 2); [|done]. cbn [mbind option_bind]. destruct (slice p 22 6) as [mac|] eqn:Em; [|done]. cbn [mbind option_bind].
  destruct (rd p 28 4) as [ip|]; [|done]. cbn [mbind option_bind]. destruct (rd p 38 4); [|done]. cbn [mbind option_bind].
  set (st1 := if (hl =? 6) && (pl =? 4) then _ else st). assert (L : R st st1).
  { unfold st1. destruct (_ && _); [|by apply R_local]. apply R_learn. split; [|by apply (image_slice _ _ _ _ Hp Em)]. apply slice_inv in Em. lia. }
  clearbody st1. cbn zeta. destruct (_ && _); intros [= <-]; [|done]. etrans; [exact L|apply R_send].
Qed.

Lemma handle_dhcp_reply_steps st p st' : handle_dhcp_reply st p = Some st' -> R st st'.
Proof. unfold handle_dhcp_reply. cbn zeta. intros Hh. run Hh; by apply R_local. Qed.

Lemma handle_dns_reply_steps st p st' : handle_dns_reply st p = Some st' -> R st st'.
Proof.
  unfold handle_dns_reply. intros Hh. run Hh; apply R_local; try done.
  match goal with |- local _ (match ?r with _ => _ end) => by destruct r end.
Qed.

Lemma handle_icmp_steps st p n src st' : handle_icmp st p n src = Some st' -> R st st'.
Proof. unfold handle_icmp. cbn zeta. intros Hh. run Hh; try (by apply R_local). apply R_send. Qed.

Lemma handle_udp_steps st p src st' : handle_udp st p src = Some st' -> R st st'.
Proof.
  unfold handle_udp. cbn zeta. intros Hh. cond Hh; [injection Hh as <-; by apply R_local|]. do 3 first_step Hh.
  cond Hh; [injection Hh as <-; by apply R_local|]. first_step Hh. first_step Hh. first_step Hh. injection Hh as <-.
  match goal with Ha : (if _ && _ then _ else Some st) = Some ?s1, Hb : (if _ =? 53 then _ else Some ?s1) = Some ?s2 |- _ =>
    assert (N1 : R st s1) by (cond Ha; [by apply handle_dhcp_reply_steps in Ha|injection Ha as <-; by apply R_local]);
    assert (N2 : R s1 s2) by (cond Hb; [by apply handle_dns_reply_steps in Hb|injection Hb as <-; by apply R_local]);
    etrans; [exact N1|]; etrans; [exact N2|]; destruct (s_udp_handler s2); [apply R_input|by apply R_local]
  end.
Qed.

Lemma send_tcp_ack_steps resolve st st' : s_tcp_peer_mac_valid (tcp st) = true -> send_tcp_ack resolve st = Some st' -> R st st'.
Proof. intros Hv. rewrite send_tcp_ack_known by done. intros [= <-]. apply R_send. Qed.

(** What handling a segment amounts to when the answer needs no resolution. *)
Lemma handle_tcp_steps resolve st p st' : handle_tcp resolve st p = Some st' -> R st st'.
Proof.
  unfold handle_tcp. cbn zeta. intros Hh. cond Hh; [injection Hh as <-; by apply R_local|]. first_step Hh.
  cond Hh; [injection Hh as <-; by apply R_local|]. first_step Hh. first_step Hh.
  match type of Hh with context [set_tcp_peer ?mac _] => set (st0 := set_tcp (set_tcp_peer mac (tcp st)) st) in * end.
  transitivity st0; [by apply R_local|].
  assert (Hv0 : s_tcp_peer_mac_valid (tcp st0) = true) by done. clearbody st0. cond Hh.
  { first_step Hh. etrans; [|eapply send_tcp_ack_steps; [|exact Hh]; done]. by apply R_local. }
  cond Hh; [|injection Hh as <-; by apply R_local]. first_step Hh.
  match type of Hh with mbind _ ?y = _ => destruct y as [st1|] eqn:E1; [|done] end. cbn [mbind option_bind] in Hh.
  assert (L1 : R st0 st1 /\ s_tcp_peer_mac_valid (tcp st1) = true).
  { cond E1; [|injection E1 as <-; by split; [apply R_local|]]. first_step E1.
    destruct (rx_push _ _ _ _) as [buf head]. rewrite send_tcp_ack_known in E1 by done. injection E1 as <-. split; [|by rewrite tcp_after_send].
    etrans; [|apply R_send]. by apply R_local. }
  destruct L1 as [L1 Hv1]. transitivity st1; [done|]. cond Hh; [|injection Hh as <-; by apply R_local].
  rewrite send_tcp_ack_known in Hh by done. injection Hh as <-. match goal with |- R _ (set_tcp _ ?s) => transitivity s; [|by apply R_local] end.
  etrans; [|apply R_send]. by apply R_local.
Qed.

Lemma handle_frame_steps resolve st p st' : image p -> handle_frame resolve st p = Some st' -> R st st'.
Proof.
  intros Hp. unfold handle_frame, handle_ipv4. cbn zeta. intros Hh. cond Hh; [injection Hh as <-; by apply R_local|]. first_step Hh.
  cond Hh; [by apply handle_arp_steps in Hh|]. cond Hh; [|injection Hh as <-; by apply R_local].
  cond Hh; [injection Hh as <-; by apply R_local|]. do 3 first_step Hh. cond Hh; [injection Hh as <-; by apply R_local|].
  first_step Hh. cond Hh; [injection Hh as <-; by apply R_local|]. do 3 first_step Hh. cond Hh; [injection Hh as <-; by apply R_local|].
  cond Hh; [by apply handle_icmp_steps in Hh|]. cond Hh; [by apply handle_udp_steps in Hh|].
  cond Hh; [by apply handle_tcp_steps in Hh|]. injection Hh as <-. by apply R_local.
Qed.
End Steps.

(** ** Every call returns *)

Section Progress.
Context {E H : Type} `{NL : NetLaws E} `{UH : UdpHandler H}.
Implicit Types st : stack E H.

Lemma progress_refl (e : E) : progress clock lag e e.
Proof. right. done. Qed.

Lemma progress_trans (e1 e2 e3 : E) : progress clock lag e1 e2 -> progress clock lag e2 e3 -> progress clock lag e1 e3.
Proof. unfold progress. lia. Qed.

(** Time has not gone back and no frame has been added. *)
Definition later st st' : Prop := progress clock lag (nic st) (nic st') /\ (pending (nic st') <= pending (nic st))%nat.

Lemma later_refl st st' : nic st' = nic st -> later st st'.
Proof. intros Hn. unfold later. rewrite Hn. split; [apply progress_refl|done]. Qed.

Lemma later_trans st1 st2 st3 : later st1 st2 -> later st2 st3 -> later st1 st3.
Proof. intros [A1 A2] [B1 B2]. split; [by eapply progress_trans|lia]. Qed.

Lemma send_later st f : later st (fst (send st f)).
Proof. unfold send. destruct (netdev_send (nic st) f) as [e r] eqn:E1. by apply nl_send in E1. Qed.

Lemma millis_later st : later st (fst (millis st)).
Proof.
  unfold millis. destruct (timer_millis (nic st)) as [e t] eqn:E1. pose proof (nl_reading _ _ _ E1). apply nl_millis in E1 as (N1 & N2 & N3).
  split; [|done]. cbn. unfold progress. rewrite N2. lia.
Qed.

Lemma arp_cache_update_later st ip mac : later st (arp_cache_update st ip mac).
Proof.
  unfold arp_cache_update. destruct (ip =? 0); [by apply later_refl|]. cbn zeta. destruct (_ <? 0); [by apply later_refl|].
  pose proof (millis_later st) as Hm. destruct (millis st) as [st1 now]. cbn [fst] in Hm. apply (later_trans _ st1); [done|].
  destruct (_ =? _); by apply later_refl.
Qed.

Lemma arp_cache_lookup_later st ip : later st (fst (arp_cache_lookup st ip)).
Proof.
  unfold arp_cache_lookup. destruct (ip =? 0); [by apply later_refl|]. pose proof (millis_later st) as Hm.
  destruct (millis st) as [st1 now]. destruct (arp_find _ _ _) as [es r]. apply (later_trans _ st1); [done|]. by apply later_refl.
Qed.

Lemma handle_frame_later resolve st p st' : image p -> handle_frame resolve st p = Some st' -> later st st'.
Proof.
  assert (PreOrder later) by (split; [intros x; by apply later_refl|intros x y z; apply later_trans]).
  apply (handle_frame_steps later); [intros s s' (Hn & _); by apply later_refl|apply send_later|intros s ip mac _; apply arp_cache_update_later|intros; by apply later_refl].
Qed.
End Progress.

Section Resolve.
Context {E H : Type} `{ND : NetDev E} `{UH : UdpHandler H}.
Implicit Types st : stack E H.

(** Handling a segment never asks for a resolution: it has just learned the peer's
    address. *)
Lemma handle_tcp_resolve r1 r2 st p : handle_tcp r1 st p = handle_tcp r2 st p.
Proof.
  unfold handle_tcp. cbn zeta. destruct (_ <? _); [reflexivity|]. destruct (rd p 36 2); cbn [mbind option_bind]; [|reflexivity]. destruct (negb _); [reflexivity|].
  destruct (slice p 6 6); cbn [mbind option_bind]; [|reflexivity]. destruct (rd p 47 1); cbn [mbind option_bind]; [|reflexivity].
  destruct (_ && _); [destruct (rd p 38 4); [|done]; cbn [mbind option_bind]; by rewrite !send_tcp_ack_known|].
  destruct (_ =? _); [|done]. destruct (rd p 46 1) as [off|]; cbn [mbind option_bind]; [|reflexivity].
  match goal with |- mbind _ ?y1 = mbind _ ?y2 => assert (K : y1 = y2 /\ forall st', y1 = Some st' -> s_tcp_peer_mac_valid (tcp st') = true) end.
  { destruct (0 <? _); [|split; [done|by intros st' [= <-]]]. destruct (slice p _ _); cbn [mbind option_bind]; [|by split].
    destruct (rx_push _ _ _ _) as [buf head]. rewrite !send_tcp_ack_known by done. split; [reflexivity|]. intros st' [= <-]. by rewrite tcp_after_send. }
  destruct K as [<- K]. match goal with |- mbind _ ?y = _ => destruct y as [st'|]; cbn [mbind option_bind]; [|reflexivity] end.
  specialize (K st' eq_refl). destruct (has _ _); [|done]. by rewrite !send_tcp_ack_known.
Qed.

Lemma handle_frame_resolve r1 r2 st p : handle_frame r1 st p = handle_frame r2 st p.
Proof.
  unfold handle_frame. split_if E1; [reflexivity|]. destruct (rd p 12 2); cbn [mbind option_bind]; [|reflexivity].
  split_if E2; [reflexivity|]. split_if E3; [|reflexivity]. unfold handle_ipv4. cbn zeta. split_if E4; [reflexivity|].
  do 3 (destruct (rd p _ _); cbn [mbind option_bind]; [|reflexivity]). split_if E5; [reflexivity|].
  destruct (slice p _ _); cbn [mbind option_bind]; [|reflexivity]. split_if E6; [reflexivity|].
  do 3 (destruct (rd p _ _); cbn [mbind option_bind]; [|reflexivity]). by rewrite (handle_tcp_resolve r1 r2).
Qed.

Lemma poll_resolve r1 r2 st : poll r1 st = poll r2 st.
Proof.
  unfold poll. generalize (S (pending (nic st))) as fuel. intros fuel. revert st.
  induction fuel as [|fuel IH]; intros st; cbn [poll_loop]; [reflexivity|]. destruct (netdev_poll _ _) as [e [|b p]]; [reflexivity|].
  rewrite (handle_frame_resolve r1 r2). destruct (handle_frame r2 _ _); [|done]. apply IH.
Qed.
End Resolve.

Section Returns.
Context {E H : Type} `{NL : NetLaws E} `{UH : UdpHandler H}.
Implicit Types st : stack E H.

(** A call that returns, and after which time has gone on. *)
Definition returns {R} (f : stack E H -> option (stack E H * R)) : Prop := forall st, exists st' r, f st = Some (st', r) /\ later st st'.
Definition returns_state (f : stack E H -> option (stack E H)) : Prop := forall st, exists st', f st = Some st' /\ later st st'.

(** The fuel of [poll] lasts until the device has nothing more to deliver. *)
Lemma poll_loop_drains resolve fuel : forall st, (pending (nic st) < fuel)%nat ->
  exists st' e, poll_loop fuel resolve st = Some st' /\ later st st' /\ netdev_poll e 2048 = (nic st', []).
Proof.
  induction fuel as [|fuel IH]; intros st Hf; [lia|]. cbn [poll_loop]. destruct (netdev_poll (nic st) 2048) as [e p] eqn:Ep.
  destruct (nl_frame _ 2048 _ _ ltac:(lia) Ep) as [Hi _]. destruct p as [|b p].
  - exists (set_nic e st), (nic st). split; [done|]. split; [|done]. by apply nl_poll in Ep.
  - destruct (handle_frame_safe resolve (set_nic e st) (b :: p) Hi) as [st1 E1]. rewrite E1. cbn [mbind option_bind].
    pose proof (handle_frame_later _ _ _ _ Hi E1) as L1. pose proof (nl_pending _ _ _ _ Ep ltac:(done)) as Hp.
    destruct (IH st1) as (st' & e' & R1 & R2 & R3); [destruct L1 as [_ L1]; cbn in L1; lia|]. exists st', e'. split; [done|]. split; [|done].
    apply (later_trans _ (set_nic e st)); [by apply nl_poll in Ep|]. by apply (later_trans _ st1).
Qed.

Lemma poll_returns resolve : returns_state (poll resolve).
Proof.
  intros st. destruct (poll_loop_drains resolve (S (pending (nic st))) st ltac:(lia)) as (st' & _ & R1 & R2 & _). by exists st'.
Qed.

(** What is left of a wait: it falls with every reading of the clock. *)
Definition rest (deadline : Z) st : Z :=
  if clock (nic st) <? deadline then (deadline - clock (nic st)) * Z.of_nat stall + Z.of_nat (lag (nic st)) + 1 else 0.

Lemma rest_nonneg deadline st : 0 <= rest deadline st.
Proof. unfold rest. destruct (Z.ltb_spec (clock (nic st)) deadline); nia. Qed.

Lemma rest_later deadline st st' : later st st' -> rest deadline st' <= rest deadline st.
Proof.
  intros [Hp _]. unfold rest. pose proof (nl_lag (nic st')). unfold progress in Hp.
  destruct (Z.ltb_spec (clock (nic st)) deadline), (Z.ltb_spec (clock (nic st')) deadline); nia.
Qed.

Lemma rest_millis deadline st st' t : millis st = (st', t) -> t < deadline ->
  rest deadline st' < rest deadline st /\ clock (nic st') = t /\ clock (nic st) <= t /\ 0 <= clock (nic st) /\ later st st'.
Proof.
  unfold millis. destruct (timer_millis (nic st)) as [e n] eqn:Et. intros [= <- <-] Hd. pose proof (nl_reading _ _ _ Et).
  pose proof (nl_lag e). destruct (nl_millis _ _ _ Et) as (N1 & N2 & N3). unfold rest, later, progress. cbn [nic set_nic].
  split_and!; try lia. destruct (Z.ltb_spec (clock (nic st)) deadline), (Z.ltb_spec (clock e) deadline); nia.
Qed.

Lemma millis_clock st st' t : millis st = (st', t) -> clock (nic st') = t /\ clock (nic st) <= t /\ 0 <= clock (nic st) /\ later st st'.
Proof. intros Hm. by destruct (rest_millis (t + 1) st st' t Hm ltac:(lia)) as (_ & R). Qed.

Lemma later_clock st st' : later st st' -> clock (nic st) <= clock (nic st').
Proof. intros [[?|?] _]; lia. Qed.

(** The elapsed time read from the 64-bit clock is at most the real one. *)
Lemma elapsed_le x : 0 <= x -> u64 x <= x.
Proof. intros Hx. apply Z.mod_le; lia. Qed.

(** The fuel lasts: the time is up, or there are more rounds left than the wait can take. *)
Definition lasts (fuel : nat) (deadline : Z) st : Prop := deadline <= clock (nic st) \/ rest deadline st < Z.of_nat fuel.

Lemma lasts_next fuel deadline st st1 t st2 :
  lasts (S fuel) deadline st -> later st st1 -> millis st1 = (st2, t) -> lasts fuel deadline st2.
Proof.
  intros Hl L1 Hm. destruct (millis_clock _ _ _ Hm) as (M1 & M2 & _ & _). pose proof (later_clock _ _ L1). unfold lasts in *. rewrite M1.
  destruct (decide (deadline <= t)) as [|Ht]; [by left|right]. destruct (rest_millis deadline _ _ _ Hm ltac:(lia)) as (M5 & _).
  pose proof (rest_later deadline _ _ L1). lia.
Qed.

Lemma lasts_later fuel deadline st st' : lasts fuel deadline st -> later st st' -> lasts fuel deadline st'.
Proof. intros [Hl|Hl] L; pose proof (later_clock _ _ L); pose proof (rest_later deadline _ _ L); [left|right]; lia. Qed.

Lemma lasts_over deadline st : lasts O deadline st -> deadline <= clock (nic st).
Proof. intros [Hl|Hl]; [done|]. pose proof (rest_nonneg deadline st). lia. Qed.

(** A wait ends with its result, or when its time is up. *)
Lemma wait_loop_ends {R} np (check : stack E H -> stack E H * option R) start timeout :
  returns_state np -> (forall st, later st (fst (check st))) -> forall fuel st,
  start <= clock (nic st) -> lasts fuel (start + timeout) st ->
  exists st' r, wait_loop fuel np check start timeout st = Some (st', r) /\ later st st' /\
    (r = None -> start + timeout <= clock (nic st')).
Proof.
  intros Hnp Hcheck. induction fuel as [|fuel IH]; intros st Hst Hf; cbn [wait_loop].
  { exists st, None. split; [done|]. split; [by apply later_refl|]. intros _. by apply lasts_over. }
  destruct (millis st) as [st1 now] eqn:Em. destruct (millis_clock _ _ _ Em) as (M1 & M2 & M3 & M4).
  pose proof (lasts_next _ _ _ _ _ _ Hf (later_refl st st eq_refl) Em) as Hf1. pose proof (elapsed_le (now - start) ltac:(lia)) as Hu.
  destruct (Z.ltb_spec (u64 (now - start)) timeout) as [Hlt|Hge]; cbn [negb]; [|exists st1, None; split; [done|split; [done|lia]]].
  destruct (Hnp st1) as (st2 & -> & L2). cbn [mbind option_bind]. destruct (check st2) as [st3 r] eqn:Ec.
  pose proof (Hcheck st2) as L3. rewrite Ec in L3. cbn [fst] in L3. pose proof (later_trans _ _ _ L2 L3) as L13.
  destruct r as [r|]; [exists st3, (Some r); split; [done|split; [by apply (later_trans _ st1)|done]]|].
  pose proof (later_clock _ _ L13). destruct (IH st3) as (st' & r & R1 & R2 & R3); [lia|by apply (lasts_later _ _ st1)|].
  exists st', r. split; [done|]. split; [|done]. apply (later_trans _ st1); [done|]. by apply (later_trans _ st3).
Qed.

Lemma wait_fuel_enough timeout st start : 0 <= timeout -> start <= clock (nic st) -> lasts (wait_fuel timeout) (start + timeout) st.
Proof.
  intros Ht Hs. unfold lasts, rest, wait_fuel. pose proof (nl_lag (nic st)). rewrite Nat2Z.inj_succ, Nat2Z.inj_mul, Z2Nat.id by lia.
  destruct (Z.ltb_spec (clock (nic st)) (start + timeout)); [right; nia|by left].
Qed.

Lemma wait_returns {R} np (check : stack E H -> stack E H * option R) timeout :
  returns_state np -> (forall st, later st (fst (check st))) -> 0 <= timeout -> returns (wait np check timeout).
Proof.
  intros Hnp Hcheck Ht st. unfold wait. destruct (millis st) as [st1 start] eqn:Em. destruct (millis_clock _ _ _ Em) as (M1 & M2 & M3 & M4).
  destruct (wait_loop_ends np check start timeout Hnp Hcheck (wait_fuel timeout) st1 ltac:(lia) ltac:(apply wait_fuel_enough; lia))
    as (st' & r & R1 & R2 & _). exists st', r. split; [done|]. by apply (later_trans _ st1).
Qed.

Lemma resolve_mac_returns np ip : returns_state np -> returns (fun st => resolve_mac np st ip).
Proof.
  intros Hnp st. unfold resolve_mac. pose proof (arp_cache_lookup_later st (net_next_hop st ip)) as L0. generalize dependent (net_next_hop st ip). intros hop L0.
  destruct (arp_cache_lookup st hop) as [st1 r]. cbn [fst] in L0. destruct r as [mac|]; [by exists st1, (Some mac)|].
  assert (Ha : forall n, returns (fun st => resolve_attempts n np st hop)).
  { induction n as [|n IH]; intros s; cbn [resolve_attempts]; [exists s, None; split; [done|by apply later_refl]|].
    destruct (wait_returns np (fun st => arp_cache_lookup st hop) 300 Hnp (fun s => arp_cache_lookup_later s hop) ltac:(lia) (send_arp_request s hop))
      as (s1 & r & -> & L1). cbn [mbind option_bind].
    assert (L2 : later s s1) by (eapply later_trans; [apply send_later|exact L1]).
    destruct r as [mac|]; [by exists s1, (Some mac)|]. destruct (IH s1) as (s2 & r & E2 & L3). exists s2, r. split; [done|]. by apply (later_trans _ s1). }
  destruct (Ha 2%nat st1) as (s2 & r & E2 & L2). exists s2, r. split; [done|]. by apply (later_trans _ st1).
Qed.

Lemma net_resolve_mac_returns ip : returns (fun st => net_resolve_mac st ip).
Proof. apply resolve_mac_returns, poll_returns. Qed.

Lemma net_poll_returns : returns_state net_poll.
Proof. intros st. apply poll_returns. Qed.

Lemma same_later st st' st'' : nic st' = nic st -> later st' st'' -> later st st''.
Proof. intros Hn. apply later_trans. by apply later_refl. Qed.

Lemma net_udp_send_returns ip sport dport data : returns (fun st => net_udp_send st ip sport dport data).
Proof.
  intros st. unfold net_udp_send. split_if E1; [exists st, (-1); split; [done|by apply later_refl]|].
  destruct (net_resolve_mac_returns ip st) as (s1 & r & -> & L1). cbn [mbind option_bind].
  destruct r as [mac|]; [|by exists s1, (-2)]. pose proof (millis_later s1) as L2. destruct (millis s1) as [s2 now]. cbn [fst] in L2.
  match goal with |- exists _ _, Some (send _ ?f) = _ /\ _ => pose proof (send_later s2 f) as L3; destruct (send s2 f) as [s3 n]; cbn [fst] in L3 end.
  exists s3, n. split; [done|]. by apply (later_trans _ s1), (later_trans _ s2).
Qed.

Lemma net_ping_send_returns ip seq : returns (fun st => net_ping_send st ip seq).
Proof.
  intros st. unfold net_ping_send. split_if E1; [exists st, (-2); split; [done|by apply later_refl]|].
  destruct (net_resolve_mac_returns ip st) as (s1 & r & -> & L1). cbn [mbind option_bind].
  destruct r as [mac|]; [|by exists s1, (-3)]. cbn zeta. eexists _, 0. split; [done|]. apply (later_trans _ s1); [done|].
  eapply same_later; [|apply send_later]. done.
Qed.

Lemma net_ping_returns ip timeout : 0 <= timeout -> returns (fun st => '(st, rc, rtt) ← net_ping st ip timeout; Some (st, (rc, rtt))).
Proof.
  intros Ht st. unfold net_ping. cbn zeta. set (st0 := set_ping _ st). set (seq := u16 (ping_seq (ping st) + 1)).
  destruct (net_ping_send_returns ip seq st0) as (s1 & rc & -> & L1). cbn [mbind option_bind].
  assert (L01 : later st s1) by (by eapply same_later, L1). destruct (rc =? 0); cbn [negb mbind option_bind]; [|by eexists _, _].
  destruct (millis s1) as [s2 start] eqn:Em. destruct (millis_clock _ _ _ Em) as (M1 & M2 & M3 & M4).
  set (check := fun st => if net_ping_check_reply st seq then _ else _).
  assert (Hc : forall st, later st (fst (check st))).
  { intros s. unfold check. destruct (net_ping_check_reply s seq); [|by apply later_refl]. pose proof (millis_later s) as L. by destruct (millis s). }
  destruct (wait_loop_ends net_poll check start timeout net_poll_returns Hc (wait_fuel timeout) s2 ltac:(lia) ltac:(apply wait_fuel_enough; lia))
    as (s3 & r & -> & L3 & _). cbn [mbind option_bind].
  assert (L03 : later st s3) by (apply (later_trans _ s1); [done|]; by apply (later_trans _ s2)).
  destruct r as [rtt|]; cbn [mbind option_bind]; by eexists _, _.
Qed.

Lemma send_dhcp_later st t : later st (send_dhcp st t).
Proof. apply send_later. Qed.

Lemma net_dhcp_configure_returns : returns net_dhcp_configure.
Proof.
  intros st. unfold net_dhcp_configure. cbn zeta. set (st0 := set_dhcp _ st). set (check1 := fun st : stack E H => (st, if s_dhcp_received (dhcp st) then Some tt else None)).
  destruct (wait_returns net_poll check1 1500 net_poll_returns (fun s => later_refl s _ eq_refl) ltac:(lia) (send_dhcp st0 1)) as (s1 & r & -> & L1).
  cbn [mbind option_bind]. assert (L01 : later st s1).
  { apply (same_later st st0); [done|]. eapply later_trans; [apply send_dhcp_later|exact L1]. }
  destruct (s_dhcp_received (dhcp s1)); cbn [negb]; [|by exists s1, (-1)].
  set (s2 := set_cfg (set_my_ip 0 (cfg s1)) s1). set (s3 := set_dhcp _ (send_dhcp s2 3)). set (check2 := fun st : stack E H => (st, if s_dhcp_received (dhcp st) && (s_dhcp_message_type (dhcp st) =? 5) then Some tt else None)).
  destruct (wait_returns net_poll check2 1500 net_poll_returns (fun s => later_refl s _ eq_refl) ltac:(lia) s3) as (s4 & r2 & -> & L4).
  cbn [mbind option_bind]. assert (L04 : later st s4).
  { apply (later_trans _ s1); [done|]. apply (same_later s1 s2); [done|]. eapply later_trans; [apply (send_dhcp_later s2 3)|].
    by apply (same_later _ s3). }
  destruct r2; [by exists s4, 0|]. eexists _, (-1). split; [done|]. apply (later_trans _ s4); [done|]. by apply later_refl.
Qed.

Lemma net_tcp_connect_returns ip port timeout : 0 <= timeout -> returns (fun st => net_tcp_connect st ip port timeout).
Proof.
  intros Ht st. unfold net_tcp_connect. cbn zeta. set (st0 := set_tcp _ st).
  destruct (net_resolve_mac_returns ip st0) as (s1 & r & -> & L1). cbn [mbind option_bind].
  assert (L01 : later st s1) by by apply (same_later st st0). destruct r as [mac|]; [|by exists s1, (-2)].
  set (s2 := send_tcp _ _ _ _ _ _ _). assert (L2 : later s1 s2) by (eapply same_later; [|apply send_later]; done).
  set (check := fun st : stack E H => (st, if s_tcp_state (tcp st) =? TCP_STATE_ESTABLISHED then Some tt else None)).
  destruct (wait_returns net_poll check timeout net_poll_returns (fun s => later_refl s _ eq_refl) Ht s2) as (s3 & r & -> & L3).
  cbn [mbind option_bind]. assert (L03 : later st s3) by (apply (later_trans _ s1); [done|]; by apply (later_trans _ s2)).
  destruct r; [by exists s3, 0|]. eexists _, (-1). split; [done|]. apply (later_trans _ s3); [done|]. by apply later_refl.
Qed.

(** A receiving wait: ready, closed, or over. *)
Lemma recv_loop_ends start timeout : forall fuel st,
  start <= clock (nic st) -> lasts fuel (start + timeout) st ->
  exists st' r, recv_loop (S fuel) start timeout st = Some (st', r) /\ later st st' /\
    (if r then s_tcp_rx_head (tcp st') <> s_tcp_rx_tail (tcp st')
     else s_tcp_state (tcp st') = TCP_STATE_CLOSED \/ start + timeout <= clock (nic st')).
Proof.
  induction fuel as [|fuel IH]; intros st Hst Hf; cbn [recv_loop];
    (destruct (Z.eqb_spec (s_tcp_rx_head (tcp st)) (s_tcp_rx_tail (tcp st))); cbn [negb];
      [|exists st, true; split; [done|split; [by apply later_refl|done]]]);
    destruct (net_poll_returns st) as (s1 & -> & L1); cbn [mbind option_bind];
    destruct (millis s1) as [s2 now] eqn:Em; destruct (millis_clock _ _ _ Em) as (M1 & M2 & M3 & M4);
    pose proof (later_trans _ _ _ L1 M4) as L2; pose proof (later_clock _ _ L1); pose proof (elapsed_le (now - start) ltac:(lia)) as Hu;
    (destruct (Z.leb_spec timeout (u64 (now - start))); [exists s2, false; split; [done|split; [done|right; lia]]|]);
    (destruct (Z.eqb_spec (s_tcp_state (tcp s2)) TCP_STATE_CLOSED); [exists s2, false; split; [done|split; [done|by left]]|]).
  - exists s2, false. split; [done|]. split; [done|]. right. pose proof (lasts_over _ _ Hf). lia.
  - destruct (IH s2) as (st' & r & R1 & R2 & R3); [lia|by apply (lasts_next _ _ st s1 now)|].
    exists st', r. split; [done|]. split; [by apply (later_trans _ s2)|done].
Qed.

Lemma rx_pop_nil n buf head tail tail' : head <> tail -> rx_pop n buf head tail = ([], tail') -> n = O.
Proof.
  intros Hne. destruct n as [|n]; [done|]. cbn [rx_pop]. rewrite (proj2 (Z.eqb_neq tail head)) by congruence.
  by destruct (rx_pop n buf head _).
Qed.

(** A receive returns, and without data only when the connection or its time is over. *)
Lemma net_tcp_recv_ends max timeout st : 0 <= timeout ->
  exists st' bs, net_tcp_recv st max timeout = Some (st', bs) /\ later st st' /\ (0 < max -> bs = [] -> s_tcp_state (tcp st') = TCP_STATE_CLOSED \/ clock (nic st) + timeout <= clock (nic st')).
Proof.
  intros Ht. unfold net_tcp_recv. destruct (millis st) as [s1 start] eqn:Em. destruct (millis_clock _ _ _ Em) as (M1 & M2 & M3 & M4).
  destruct (recv_loop_ends start timeout (wait_fuel timeout) s1 ltac:(lia) ltac:(apply wait_fuel_enough; lia)) as (s2 & r & -> & L2 & Hr).
  cbn [mbind option_bind]. assert (L02 : later st s2) by by apply (later_trans _ s1). destruct r; cbn [negb].
  - destruct (rx_pop _ _ _ _) as [bs tail] eqn:Ep. eexists _, bs. split; [done|]. split; [apply (later_trans _ s2); [done|]; by apply later_refl|].
    intros Hm ->. apply rx_pop_nil in Ep; [lia|done].
  - exists s2, []. split; [done|]. split; [done|]. intros _ _. destruct Hr as [Hr|Hr]; [by left|right; lia].
Qed.

Lemma net_tcp_close_returns : returns_state net_tcp_close.
Proof.
  intros st. unfold net_tcp_close. destruct (_ =? _); cbn [mbind option_bind].
  - destruct (net_resolve_mac_returns (s_tcp_dst_ip (tcp st)) st) as (s1 & r & -> & L1). cbn [mbind option_bind]. eexists. split; [done|].
    apply (later_trans _ s1); [done|]. eapply later_trans; [apply send_later|by apply later_refl].
  - eexists. split; [done|]. by apply later_refl.
Qed.
End Returns.
