(* ===== verification/NetTalk.v ===== *)
(** A device for the network stack, a queue of frames to deliver with a record of the frames
    sent, which keeps the laws of [NetLaws]; and what one host sends another understands: echo
    requests and their replies, UDP datagrams and ARP, over the network stacks of two hosts. *)
From S2P Require Import Prelude Net NetCheck NetApi NetSafe.

(** * A device *)

Record wire := Wire { w_mac : list Z; rx : list (list Z); sent : list (list Z); time : N }.

(** What is delivered of a frame: bytes, at most as many as asked for. *)
Definition frame_of (max : Z) (f : list Z) : list Z := take (Z.to_nat (Z.min max 2048)) (map u8 f).

#[export] Instance wire_dev : NetDev wire := {
  netdev_init w := (w, true);
  netdev_mac w := w_mac w;
  netdev_send w f := (Wire (w_mac w) (rx w) (sent w ++ [f]) (time w), Z.of_nat (length f));
  netdev_poll w max := match rx w with
                       | [] => (w, [])
                       | f :: fs => (Wire (w_mac w) fs (sent w) (time w), frame_of max f)
                       end;
  timer_millis w := (Wire (w_mac w) (rx w) (sent w) (time w + 1)%N, Z.of_N (time w + 1)%N);
  stack_bytes _ n := replicate n 0;
  pending w := length (rx w);
  stall := 1
}.

Lemma frame_of_image max f : 0 <= max -> image (frame_of max f) /\ Z.of_nat (length (frame_of max f)) <= max.
Proof.
  intros Hm. unfold image, frame_of. rewrite length_take, length_map. split; [split|]; [|lia..].
  apply Forall_take, Forall_forall. intros b Hb. apply list_elem_of_fmap in Hb as (x & -> & _).
  pose proof (uwrap_fits 8 x ltac:(lia)) as Hf. unfold fits in Hf. lia.
Qed.

#[export] Instance wire_laws : NetLaws wire.
Proof.
  refine (Build_NetLaws _ _ (fun w => Z.of_N (time w)) (fun _ => 0%nat) _ _ _ _ _ _ _).
  - intros [mac [|f fs] out t] max e p Hm [= <- <-]; [|by apply frame_of_image]. split; [by apply bytes_image|done].
  - intros [mac [|f fs] out t] max e p [= <- <-] Hp; [done|]. cbn. lia.
  - intros [mac [|f fs] out t] max e p [= <- <-]; (split; [by right|cbn; lia]).
  - intros [mac fs out t] f e r [= <- <-]. split; [by right|done].
  - intros [mac fs out t] e r [= <- <-]. cbn. split; [lia|]. split; [done|]. left. lia.
  - intros [mac fs out t] e r [= <- <-]. cbn. lia.
  - intros w. cbn. lia.
Defined.

(** A handler that keeps the datagrams it is given. *)
#[export] Instance datagrams : UdpHandler (list (Z * Z * Z * list Z)) := {
  udp_input l src sport dport payload := l ++ [(src, sport, dport, payload)]
}.

(** The default configuration with address [ip] on the wire [w], and a handler in state [h]. *)
Definition host {H} (w : wire) (h : H) (ip : Z) : stack wire H :=
  let st := boot_stack w h in net_udp_set_handler true (set_cfg (set_my_ip ip (default_config (w_mac w) (cfg st))) st).

(** A result and the state that goes with it. *)
Lemma some_state {A} (o : option (A * Z)) (d : A) n :
  match o with Some (_, m) => m =? n | None => false end = true -> o = Some (match o with Some (a, _) => a | None => d end, n).
Proof. destruct o as [[a m]|]; [|done]. intros ->%Z.eqb_eq. done. Qed.

Lemma mac_ok_compute m : (length m =? 6)%nat && forallb (fun b => (0 <=? b) && (b <? 256)) m = true -> mac_ok m.
Proof.
  intros [H1 H2]%andb_true_iff. apply Nat.eqb_eq in H1. split; [done|]. by apply bytes_image; [|lia].
Qed.

(** * Two hosts *)

(** ** Fields of what a frame carries *)

Lemma rd_put16 v l : fits 16 v -> rd (put16 v ++ l) 0 2 = Some v.
Proof.
  intros Hv. rewrite rd_app_l by (rewrite ?length_put16; lia). unfold rd. rewrite slice_some by (rewrite ?length_put16; lia).
  change (take _ _) with (le_put 2 v). cbn [fmap option_fmap option_map]. rewrite le_get_put; [done|]. unfold fits in Hv. lia.
Qed.

(** Skip a field. *)
Lemma rd_skip a b off n k : Z.of_nat (length a) = k -> k <= off -> rd (a ++ b) off n = rd b (off - k) n.
Proof. intros <- Hk. apply rd_app_r; lia. Qed.

Lemma slice_all l n : Z.of_nat (length l) = n -> slice l 0 n = Some l.
Proof. intros <-. rewrite slice_some by lia. by rewrite Nat2Z.id, drop_0, firstn_all. Qed.

Lemma slice_front a b n : Z.of_nat (length a) = n -> slice (a ++ b) 0 n = Some a.
Proof. intros <-. rewrite slice_app_l by lia. by apply slice_all. Qed.

Lemma rd_byte x y l : byte x -> rd ([x; y] ++ l) 0 1 = Some x.
Proof. intros Hx. unfold rd. change ([x; y] ++ l) with ([x] ++ (y :: l)). rewrite slice_front by done. cbn. f_equal. lia. Qed.

Section Talk.
Context {E H : Type} `{ND : NetDev E} `{UH : UdpHandler H}.
Implicit Types st : stack E H.

(** ** Echo *)

(** An ICMP message: its type, its code, the checksum and the rest. *)
Definition icmp_message (type code : Z) (rest : list Z) : list Z :=
  [type; code] ++ put16 (calc_checksum ([type; code] ++ put16 0 ++ rest)) ++ rest.

Lemma icmp_message_verifies type code rest :
  byte type -> byte code -> Forall byte rest -> Z.of_nat (length rest) < 65000 -> calc_checksum (icmp_message type code rest) = 0.
Proof. intros Ht Hc Hr Hl. apply field_verifies; [done| |done|cbn [length]; lia]. rewrite !Forall_cons. done. Qed.

(** A request to this host is answered with a message of type 0 that carries the same code,
    identifier, sequence number and data.  [pad] is what Ethernet added. *)
Lemma echo_reply resolve st dst src id s d code ck rest pad :
  mac_ok dst -> mac_ok src -> fits 32 s -> fits 32 d -> d = s_my_ip (cfg st) \/ d = 0xFFFFFFFF ->
  4 <= Z.of_nat (length rest) <= 1462 ->
  let total := 24 + Z.of_nat (length rest) in
  handle_frame resolve st (ipv4_frame dst src total id IP_PROTO_ICMP s d ([8; code] ++ put16 ck ++ rest ++ pad)) =
  Some (fst (send st (ipv4_frame src (s_my_mac (cfg st)) total 0x1000 IP_PROTO_ICMP (s_my_ip (cfg st)) s (icmp_message 0 code rest)))).
Proof.
  intros Hdst Hsrc Hs Hd Hip Hl total. set (body := [8; code] ++ put16 ck ++ rest ++ pad).
  assert (Hbody : Z.of_nat (length body) = 4 + Z.of_nat (length rest) + Z.of_nat (length pad)).
  { unfold body. rewrite !length_app. rewrite length_put16. cbn [length]. lia. }
  destruct (handle_ipv4_frame resolve st dst src total id IP_PROTO_ICMP s d body) as [-> Hmac]; [done..|lia|lia|done|].
  change (IP_PROTO_ICMP =? IP_PROTO_ICMP) with true. cbn iota. unfold handle_icmp. unfold ETH_HEADER, IPV4_HEADER, ICMP_HEADER.
  rewrite (proj2 (Z.ltb_ge total _)), (proj2 (Z.ltb_ge 1500 _)) by lia.
  rewrite (rest_rd _ _ _ _ _ _ _ _ Hdst Hsrc 34 1 0) by lia. assert (rd body 0 1 = Some 8) as -> by by apply rd_byte. cbn [mbind option_bind].
  change (8 =? 8) with true. cbn iota. rewrite Hmac. cbn [mbind option_bind].
  rewrite (rest_slice _ _ _ _ _ _ _ _ Hdst Hsrc 34 _ 0) by lia. unfold body.
  assert (Hm : [8; code] ++ put16 ck ++ rest ++ pad = ([8; code] ++ put16 ck ++ rest) ++ pad) by by rewrite <-!app_assoc.
  rewrite Hm, slice_front by (rewrite !length_app; rewrite length_put16; cbn [length]; lia). cbn [mbind option_bind].
  replace (20 + (total - 20)) with total by lia. reflexivity.
Qed.

(** A reply to this host is recorded. *)
Lemma echo_received resolve st dst src total id s d code ck rid seq rest :
  mac_ok dst -> mac_ok src -> fits 32 s -> fits 32 d -> d = s_my_ip (cfg st) \/ d = 0xFFFFFFFF -> fits 16 rid -> fits 16 seq ->
  total = 28 + Z.of_nat (length rest) -> Z.of_nat (length rest) <= 1458 ->
  handle_frame resolve st (ipv4_frame dst src total id IP_PROTO_ICMP s d
    ([0; code] ++ put16 ck ++ put16 (htons rid) ++ put16 (htons seq) ++ rest)) =
  Some (set_ping (Pings (s_ping_seq (ping st)) true rid seq (ping_seq (ping st))) st).
Proof.
  intros Hdst Hsrc Hs Hd Hip Hrid Hseq Ht Hl. set (body := [0; code] ++ _).
  assert (Hbody : Z.of_nat (length body) = 8 + Z.of_nat (length rest)).
  { unfold body. rewrite !length_app. rewrite !length_put16. cbn [length]. lia. }
  destruct (handle_ipv4_frame resolve st dst src total id IP_PROTO_ICMP s d body) as [-> Hmac]; [done..|lia|lia|done|].
  change (IP_PROTO_ICMP =? IP_PROTO_ICMP) with true. cbn iota. unfold handle_icmp. unfold ETH_HEADER, IPV4_HEADER, ICMP_HEADER.
  rewrite (proj2 (Z.ltb_ge total _)), (proj2 (Z.ltb_ge 1500 _)) by lia.
  rewrite (rest_rd _ _ _ _ _ _ _ _ Hdst Hsrc 34 1 0), (rest_rd _ _ _ _ _ _ _ _ Hdst Hsrc 38 2 4), (rest_rd _ _ _ _ _ _ _ _ Hdst Hsrc 40 2 6) by lia.
  unfold body. rewrite rd_byte by done. cbn [mbind option_bind]. change (0 =? 8) with false. change (0 =? 0) with true. cbn iota.
  rewrite !(rd_skip [0; code] _ _ _ 2), !(rd_skip (put16 ck) _ _ _ 2) by (done || lia).
  rewrite (rd_put16 (htons rid)) by by apply ntohs_fits. cbn [mbind option_bind].
  rewrite (rd_skip (put16 (htons rid)) _ _ _ 2) by (done || lia). rewrite (rd_put16 (htons seq)) by by apply ntohs_fits. cbn [mbind option_bind].
  by rewrite !ntohs_htons.
Qed.

(** ** UDP *)

(** A datagram to this host reaches the DHCP and DNS clients if it is for them, and the
    handler, with the sender's address, the ports and the data. *)
Lemma udp_received resolve st dst src id s d sport dport data pad :
  mac_ok dst -> mac_ok src -> fits 32 s -> fits 32 d -> d = s_my_ip (cfg st) \/ d = 0xFFFFFFFF -> fits 16 sport -> fits 16 dport ->
  Z.of_nat (length data) <= 65507 ->
  let len := UDP_HEADER + Z.of_nat (length data) in
  handle_frame resolve st (ipv4_frame dst src (IPV4_HEADER + len) id IP_PROTO_UDP s d (udp_header sport dport len ++ data ++ pad)) =
  (st ← (if (sport =? 67) && (dport =? 68) then handle_dhcp_reply st data else Some st);
   st ← (if sport =? 53 then handle_dns_reply st data else Some st);
   Some (if s_udp_handler st then set_udp (udp_input (udp st) s sport dport data) st else st)).
Proof.
  intros Hdst Hsrc Hs Hd Hip Hsp Hdp Hl len. unfold UDP_HEADER in len. set (body := udp_header sport dport len ++ data ++ pad).
  assert (Hbody : Z.of_nat (length body) = len + Z.of_nat (length pad)) by (unfold body; rewrite !length_app; change (length (udp_header _ _ _)) with 8%nat; lia).
  pose proof (ipv4_frame_length dst src (IPV4_HEADER + len) id IP_PROTO_UDP s d body Hdst Hsrc) as Hlen.
  destruct (handle_ipv4_frame resolve st dst src (IPV4_HEADER + len) id IP_PROTO_UDP s d body) as [-> Hmac]; [done..|unfold IPV4_HEADER; lia|unfold IPV4_HEADER; lia|done|].
  change (IP_PROTO_UDP =? IP_PROTO_ICMP) with false. change (IP_PROTO_UDP =? IP_PROTO_UDP) with true. cbn iota.
  unfold handle_udp. rewrite Hlen, Nat2Z.inj_add, Hbody. unfold ETH_HEADER, IPV4_HEADER, UDP_HEADER in *. rewrite (proj2 (Z.ltb_ge (Z.of_nat 34 + _) _)) by lia.
  rewrite (rest_rd _ _ _ _ _ _ _ _ Hdst Hsrc 34 2 0), (rest_rd _ _ _ _ _ _ _ _ Hdst Hsrc 36 2 2), (rest_rd _ _ _ _ _ _ _ _ Hdst Hsrc 38 2 4) by lia.
  assert (Hlen16 : fits 16 len) by (unfold fits; lia). unfold body. unfold udp_header. rewrite <-!app_assoc.
  rewrite rd_put16 by by apply ntohs_fits. cbn [mbind option_bind]. rewrite (rd_skip (put16 (htons sport)) _ 2 _ 2), (rd_skip (put16 (htons sport)) _ 4 _ 2) by (done || lia).
  rewrite rd_put16 by by apply ntohs_fits. cbn [mbind option_bind]. rewrite (rd_skip (put16 (htons dport)) _ _ _ 2) by (done || lia).
  rewrite rd_put16 by by apply ntohs_fits. cbn [mbind option_bind]. rewrite !ntohs_htons by done.
  rewrite (proj2 (Z.ltb_ge len _)), (proj2 (Z.ltb_ge (Z.of_nat 34 + _) _)) by lia. cbn [orb].
  rewrite (rest_slice _ _ _ _ _ _ _ _ Hdst Hsrc _ _ 8) by lia. fold (udp_header sport dport len).
  change (put16 (htons sport) ++ put16 (htons dport) ++ put16 (htons len) ++ put16 0 ++ data ++ pad) with (udp_header sport dport len ++ data ++ pad).
  rewrite (slice_app_r (udp_header sport dport len) _ 8 _ 0) by (done || lia). rewrite slice_front by lia. reflexivity.
Qed.
End Talk.
