(* ===== verification/NetArp.v ===== *)
(** Address resolution: the cache learns from every ARP packet, a request is answered, and
    what was learned is found for five minutes. *)
From S2P Require Import Prelude Net NetCheck NetApi NetSafe NetTalk.

(** ** The cache *)

(** The slot for an address is that of its entry, or of an unused one, or of the oldest;
    no entry before it is for the address. *)
Lemma arp_slot_spec ip : forall es i oldest slot,
  let r := arp_slot es ip i oldest slot in
  r = slot /\ Forall (fun e => a_valid e = true /\ oldest <= updated_ms e) es \/
  (i <= r < i + Z.of_nat (length es) /\ Forall (fun e => ~ (a_valid e = true /\ a_ip e = ip)) (take (Z.to_nat (r - i)) es)).
Proof.
  induction es as [|e es IH]; intros i oldest slot r; [by left|]. unfold r. cbn [arp_slot length]. clear r.
  destruct (a_valid e && (a_ip e =? ip)) eqn:E1; [right; rewrite Z.sub_diag; split; [lia|constructor]|].
  destruct (a_valid e) eqn:E2; cbn [negb andb] in *; [|right; rewrite Z.sub_diag; split; [lia|constructor]]. apply Z.eqb_neq in E1.
  assert (Hin : forall r, i + 1 <= r < i + 1 + Z.of_nat (length es) -> Forall (fun e => ~ (a_valid e = true /\ a_ip e = ip)) (take (Z.to_nat (r - (i + 1))) es) ->
    Forall (fun e => ~ (a_valid e = true /\ a_ip e = ip)) (take (Z.to_nat (r - i)) (e :: es))).
  { intros r Hr Hf. replace (Z.to_nat (r - i)) with (S (Z.to_nat (r - (i + 1)))) by lia. cbn [take]. constructor; [by intros [_ ?]|done]. }
  destruct (Z.ltb_spec (updated_ms e) oldest) as [Hlt|Hge].
  - destruct (IH (i + 1) (updated_ms e) i) as [[R F]|[R F]]; right.
    + rewrite R, Z.sub_diag. split; [lia|constructor].
    + split; [lia|]. by apply Hin.
  - destruct (IH (i + 1) oldest slot) as [[R F]|[R F]]; [left|right].
    + split; [done|]. by constructor.
    + split; [lia|]. by apply Hin.
Qed.

(** Fresh entries before it do not hide an entry. *)
Lemma arp_find_at now ip mac t es1 es2 : Forall (fun e => ~ (a_valid e = true /\ a_ip e = ip)) es1 -> u64 (now - t) <= 300000 ->
  arp_find now ip (es1 ++ ArpEntry ip mac t true :: es2) = (es1 ++ ArpEntry ip mac t true :: es2, Some mac).
Proof.
  intros Hf Ht. induction Hf as [|e es1 He Hf IH]; cbn [app arp_find a_valid a_ip updated_ms a_mac andb].
  - rewrite Z.eqb_refl, (proj2 (Z.ltb_ge _ _)) by lia. done.
  - rewrite IH. destruct (a_valid e); cbn [andb]; [|done]. destruct (Z.eqb_spec (a_ip e) ip); [|done]. by destruct He.
Qed.

(** The cache the source can have: entries, and times that are not the largest number. *)
Definition cache_wf (es : list arp_entry) : Prop := es <> [] /\ Forall (fun e => updated_ms e < 2 ^ 64 - 1) es.

Section Cache.
Context {E H : Type} `{NL : NetLaws E} `{UH : UdpHandler H}.
Implicit Types st : stack E H.

(** What [arp_cache_update] does to the cache. *)
Lemma arp_cache_update_spec st ip mac : ip <> 0 -> cache_wf (s_arp_cache st) ->
  let st' := arp_cache_update st ip mac in
  exists es1 e es2, s_arp_cache st = es1 ++ e :: es2 /\ Forall (fun e => ~ (a_valid e = true /\ a_ip e = ip)) es1 /\
    s_arp_cache st' = es1 ++ ArpEntry ip mac (clock (nic st')) true :: es2 /\ later st st' /\
    s_my_mac (cfg st') = s_my_mac (cfg st) /\ s_my_ip (cfg st') = s_my_ip (cfg st).
Proof.
  intros Hip [Hne Hw]. cbn zeta. pose proof (arp_cache_update_later st ip mac) as L. unfold arp_cache_update in *. rewrite (proj2 (Z.eqb_neq _ _) Hip) in *.
  destruct (arp_slot_spec ip (s_arp_cache st) 0 (2 ^ 64 - 1) (-1)) as [[_ F]|[R F]].
  { destruct (s_arp_cache st) as [|e es]; [done|]. apply Forall_cons in F as [[_ F] _]. apply Forall_cons in Hw as [Hw _]. lia. }
  set (r := arp_slot _ _ _ _ _) in *. rewrite (proj2 (Z.ltb_ge r 0)) in * by lia. rewrite Z.sub_0_r in F.
  destruct (lookup_lt_is_Some_2 (s_arp_cache st) (Z.to_nat r)) as [e He]; [lia|].
  exists (take (Z.to_nat r) (s_arp_cache st)), e, (drop (S (Z.to_nat r)) (s_arp_cache st)). split; [by rewrite take_drop_middle|]. split; [done|].
  destruct (millis st) as [st1 now] eqn:Em. destruct (millis_clock _ _ _ Em) as (Ec & _).
  unfold millis in Em. destruct (timer_millis (nic st)) as [e1 t1]. injection Em as <- ->.
  assert (Hi : <[Z.to_nat r := ArpEntry ip mac now true]> (s_arp_cache st) = take (Z.to_nat r) (s_arp_cache st) ++ ArpEntry ip mac now true :: drop (S (Z.to_nat r)) (s_arp_cache st))
    by (apply insert_take_drop; lia).
  destruct (ip =? _); cbn in *; by rewrite Hi, Ec.
Qed.

(** An address just learned is found for five minutes. *)
Lemma arp_lookup_learned st ip mac t es1 es2 : ip <> 0 -> 0 <= t -> s_arp_cache st = es1 ++ ArpEntry ip mac t true :: es2 ->
  Forall (fun e => ~ (a_valid e = true /\ a_ip e = ip)) es1 ->
  t <= clock (nic st) -> clock (nic (fst (millis st))) <= t + 300000 -> snd (arp_cache_lookup st ip) = Some mac.
Proof.
  intros Hip Ht Hes Hf H1 H2. unfold arp_cache_lookup. rewrite (proj2 (Z.eqb_neq _ _) Hip). destruct (millis st) as [st1 now] eqn:Em.
  destruct (millis_clock _ _ _ Em) as (Ec & Hl & _). assert (Hc : s_arp_cache st1 = s_arp_cache st).
  { unfold millis in Em. destruct (timer_millis (nic st)). by injection Em as <- _. }
  rewrite Hc, Hes. cbn [fst] in H2. pose proof (elapsed_le (now - t) ltac:(lia)). rewrite arp_find_at by (done || lia). done.
Qed.

(** ** Packets *)

Definition arp_frame (dst src : list Z) (op : Z) (smac : list Z) (sip : Z) (tmac : list Z) (tip : Z) : list Z :=
  eth_header dst src ETH_TYPE_ARP ++ arp_packet op smac sip tmac tip.

(** A packet is learned from, and a request for this host is answered. *)
Lemma handle_arp_frame resolve st dst src op smac sip tmac tip pad :
  mac_ok dst -> mac_ok src -> mac_ok smac -> mac_ok tmac -> fits 16 op -> fits 32 sip -> fits 32 tip ->
  handle_frame resolve st (arp_frame dst src op smac sip tmac tip ++ pad) =
  let st := arp_cache_update st sip smac in
  Some (if (op =? ARP_OP_REQUEST) && (tip =? s_my_ip (cfg st))
        then fst (send st (arp_frame smac (s_my_mac (cfg st)) ARP_OP_REPLY (s_my_mac (cfg st)) (s_my_ip (cfg st)) smac sip)) else st).
Proof.
  intros Hdst Hsrc Hsm Htm Hop Hsip Htip. destruct (mac_bytes dst Hdst) as (a0 & a1 & a2 & a3 & a4 & a5 & E0), (mac_bytes src Hsrc) as (b0 & b1 & b2 & b3 & b4 & b5 & E1).
  destruct (mac_bytes smac Hsm) as (c0 & c1 & c2 & c3 & c4 & c5 & E2), (mac_bytes tmac Htm) as (d0 & d1 & d2 & d3 & d4 & d5 & E3).
  set (f := arp_frame dst src op smac sip tmac tip). assert (Hlen : Z.of_nat (length f) = 42) by (unfold f; by subst). unfold fits in *.
  assert (S : forall off n, 0 <= off -> 0 <= n -> off + n <= 42 -> slice (f ++ pad) off n = Some (take (Z.to_nat n) (drop (Z.to_nat off) f)))
    by (intros; by rewrite slice_app_l, slice_some by lia).
  assert (R : forall off n x, 0 <= off -> 0 <= n -> off + n <= 42 -> 0 <= x < 256 ^ n -> take (Z.to_nat n) (drop (Z.to_nat off) f) = le_put (Z.to_nat n) x -> rd (f ++ pad) off n = Some x).
  { intros off n x Ho Hn Hl Hx Ex. unfold rd. rewrite S, Ex by done. cbn [fmap option_fmap option_map]. rewrite le_get_put; [done|]. by rewrite Z2Nat.id. }
  unfold handle_frame, handle_arp. rewrite length_app, Nat2Z.inj_add, Hlen. unfold ETH_HEADER, ARP_PACKET. rewrite (proj2 (Z.ltb_ge _ _)) by lia.
  rewrite (R 12 2 (htons ETH_TYPE_ARP)); [|lia..|by (split; vm_compute)|unfold f; by subst]. cbn [mbind option_bind].
  change (ntohs (htons ETH_TYPE_ARP) =? ETH_TYPE_ARP) with true. cbn iota. rewrite (proj2 (Z.ltb_ge _ _)) by lia.
  pose proof (ntohs_fits op Hop) as Hop'. unfold fits in Hop'.
  rewrite (R 18 1 6); [|lia..|unfold f; by subst]. rewrite (R 19 1 4); [|lia..|unfold f; by subst].
  rewrite (R 20 2 (htons op)); [|lia..|unfold f; by subst]. cbn [mbind option_bind].
  rewrite (S 22 6) by lia. assert (take (Z.to_nat 6) (drop (Z.to_nat 22) f) = smac) as -> by (unfold f; by subst). cbn [mbind option_bind].
  rewrite (R 28 4 sip); [|lia..|unfold f; by subst]. rewrite (R 38 4 tip); [|lia..|unfold f; by subst]. cbn [mbind option_bind].
  change ((6 =? 6) && (4 =? 4)) with true. cbn iota zeta. rewrite ntohs_htons by done. by destruct (_ && _).
Qed.
End Cache.

(** ** Hardware addresses are six bytes *)

Definition entry_ok (e : arp_entry) : Prop := a_valid e = true -> mac_ok (a_mac e).

Lemma arp_find_ok now ip : forall es es' r, Forall entry_ok es -> arp_find now ip es = (es', r) ->
  Forall entry_ok es' /\ forall mac, r = Some mac -> mac_ok mac.
Proof.
  induction es as [|e es IH]; intros es' r Hf Ha; cbn [arp_find] in Ha; [by injection Ha as <- <-|]. apply Forall_cons in Hf as [He Hf].
  destruct (arp_find now ip es) as [es1 r1] eqn:E1. destruct (IH _ _ Hf eq_refl) as [I1 I2].
  destruct (a_valid e) eqn:Ev; cbn [andb] in Ha; [|injection Ha as <- <-; split; [by constructor|done]].
  destruct (a_ip e =? ip); [|injection Ha as <- <-; split; [by constructor|done]].
  destruct (300000 <? _); injection Ha as <- <-; (split; [constructor; done|]); [done|]. intros mac [= <-]. by apply He.
Qed.

Section Macs.
Context {E H : Type} `{NL : NetLaws E} `{UH : UdpHandler H}.
Implicit Types st : stack E H.

Definition macs_ok st : Prop := mac_ok (s_my_mac (cfg st)) /\ Forall entry_ok (s_arp_cache st).

Lemma macs_local st st' : local st st' -> macs_ok st -> macs_ok st'.
Proof. unfold macs_ok. by intros (_ & -> & -> & _). Qed.

Lemma send_macs st f : macs_ok st -> macs_ok (fst (send st f)).
Proof. unfold send. by destruct (netdev_send _ _). Qed.

Lemma millis_macs st st' t : millis st = (st', t) -> macs_ok st -> macs_ok st'.
Proof. unfold millis. destruct (timer_millis _). by intros [= <- _]. Qed.

Lemma arp_cache_update_macs st ip mac : mac_ok mac -> macs_ok st -> macs_ok (arp_cache_update st ip mac).
Proof.
  intros Hm Hst. unfold arp_cache_update. destruct (ip =? 0); [done|]. cbn zeta. destruct (_ <? 0); [done|].
  destruct (millis st) as [st1 now] eqn:Em. destruct (millis_macs _ _ _ Em Hst) as [M1 M2].
  destruct (ip =? _); (split; [done|]); cbn; (apply Forall_insert; [done|by intros _]).
Qed.

Lemma arp_cache_lookup_macs st ip st' r : arp_cache_lookup st ip = (st', r) -> macs_ok st -> macs_ok st' /\ forall mac, r = Some mac -> mac_ok mac.
Proof.
  unfold arp_cache_lookup. destruct (ip =? 0); [by intros [= <- <-]|]. destruct (millis st) as [st1 now] eqn:Em.
  destruct (arp_find now ip (s_arp_cache st1)) as [es r1] eqn:Ef. intros [= <- <-] Hst. destruct (millis_macs _ _ _ Em Hst) as [M1 M2].
  by destruct (arp_find_ok _ _ _ _ _ M2 Ef).
Qed.

(** Handling a frame keeps the addresses well formed. *)
Lemma handle_frame_macs resolve st p st' : image p -> handle_frame resolve st p = Some st' -> macs_ok st -> macs_ok st'.
Proof.
  intros Hp. assert (PreOrder (fun st st' => macs_ok st -> macs_ok st')) by (split; [by intros x|intros x y z; auto]).
  by apply (handle_frame_steps (fun st st' => macs_ok st -> macs_ok st') macs_local send_macs arp_cache_update_macs (fun _ _ _ _ _ Hs => Hs)).
Qed.

Lemma poll_macs resolve st st' : poll resolve st = Some st' -> macs_ok st -> macs_ok st'.
Proof.
  unfold poll. generalize (S (pending (nic st))) as fuel. intros fuel. revert st. induction fuel as [|fuel IH]; intros st Hp Hst; cbn [poll_loop] in Hp; [by injection Hp as <-|].
  destruct (netdev_poll (nic st) 2048) as [e p] eqn:Ep. destruct (nl_frame _ 2048 _ _ ltac:(lia) Ep) as [Hi _].
  destruct p as [|b p]; [by injection Hp as <-|]. destruct (handle_frame resolve (set_nic e st) (b :: p)) as [st1|] eqn:E1; [|done].
  cbn [mbind option_bind] in Hp. apply (IH _ Hp), (handle_frame_macs _ _ _ _ Hi E1), Hst.
Qed.

(** A wait that ends with a result [r] ends in a state in which the test gave it. *)
Lemma wait_loop_macs {R} np (check : stack E H -> stack E H * option R) (P : R -> Prop) start timeout :
  (forall st st', np st = Some st' -> macs_ok st -> macs_ok st') ->
  (forall st st' r, check st = (st', r) -> macs_ok st -> macs_ok st' /\ forall x, r = Some x -> P x) ->
  forall fuel st st' r, wait_loop fuel np check start timeout st = Some (st', r) -> macs_ok st -> macs_ok st' /\ forall x, r = Some x -> P x.
Proof.
  intros Hnp Hc. induction fuel as [|fuel IH]; intros st st' r Hw Hst; cbn [wait_loop] in Hw; [by injection Hw as <- <-|].
  destruct (millis st) as [st1 now] eqn:Em. apply (millis_macs _ _ _ Em) in Hst. destruct (negb _); [by injection Hw as <- <-|].
  destruct (np st1) as [st2|] eqn:E2; [|done]. cbn [mbind option_bind] in Hw. apply (Hnp _ _ E2) in Hst.
  destruct (check st2) as [st3 [x|]] eqn:E3; destruct (Hc _ _ _ E3 Hst) as [M1 M2]; [|by apply (IH _ _ _ Hw)]. by injection Hw as <- <-.
Qed.

Lemma net_resolve_mac_macs st ip st' r : net_resolve_mac st ip = Some (st', r) -> macs_ok st -> macs_ok st' /\ forall mac, r = Some mac -> mac_ok mac.
Proof.
  unfold net_resolve_mac, resolve_mac. generalize (net_next_hop st ip). intros hop Hr Hst.
  destruct (arp_cache_lookup st hop) as [st1 [mac|]] eqn:E1; destruct (arp_cache_lookup_macs _ _ _ _ E1 Hst) as [M1 M2]; [by injection Hr as <- <-|].
  clear M2 E1. revert st1 Hr M1. generalize 2%nat. induction n as [|n IH]; intros st1 Hr M1; cbn [resolve_attempts] in Hr; [by injection Hr as <- <-|].
  unfold wait in Hr. destruct (millis (send_arp_request st1 hop)) as [st2 start] eqn:E2.
  destruct (wait_loop _ _ _ _ _ _) as [[st3 r3]|] eqn:E3; [|done]. cbn [mbind option_bind] in Hr.
  apply (wait_loop_macs _ _ mac_ok) in E3 as [M3 M4]; [|apply poll_macs|intros s s' x; apply arp_cache_lookup_macs|apply (millis_macs _ _ _ E2); by apply send_macs].
  destruct r3 as [mac|]; [injection Hr as <- <-; by split|]. by apply (IH st3).
Qed.
End Macs.
