(* ===== verification/NetStream.v ===== *)
(** The receive side of a TCP connection: the ring is a bounded queue, a segment appends its
    data to it, and [net_tcp_recv] takes a prefix. *)
From S2P Require Import Prelude Net NetCheck NetApi NetSafe NetTalk.

(** ** The ring *)

Definition rx_count (t : tcp_state) : Z := (s_tcp_rx_head t - s_tcp_rx_tail t) mod TCP_RX_SIZE.

Definition ring_bytes (buf : list Z) (tail n : Z) : list Z := (fun k => at_z 0 buf ((tail + k) mod TCP_RX_SIZE)) <$> seqZ 0 n.

(** The bytes received and not yet read, oldest first. *)
Definition rx_bytes (t : tcp_state) : list Z := ring_bytes (s_tcp_rx_buf t) (s_tcp_rx_tail t) (rx_count t).

Definition rx_wf (t : tcp_state) : Prop :=
  Z.of_nat (length (s_tcp_rx_buf t)) = TCP_RX_SIZE /\ 0 <= s_tcp_rx_head t < TCP_RX_SIZE /\ 0 <= s_tcp_rx_tail t < TCP_RX_SIZE.

Lemma rx_count_range t : 0 <= rx_count t < TCP_RX_SIZE.
Proof. apply Z.mod_pos_bound. done. Qed.

Lemma rx_bytes_length t : Z.of_nat (length (rx_bytes t)) = rx_count t.
Proof. unfold rx_bytes, ring_bytes. rewrite length_fmap, length_seqZ. pose proof (rx_count_range t). lia. Qed.

Lemma ring_bytes_cons buf tail n : 0 < n -> 0 <= tail < TCP_RX_SIZE ->
  ring_bytes buf tail n = at_z 0 buf tail :: ring_bytes buf ((tail + 1) mod TCP_RX_SIZE) (n - 1).
Proof.
  intros Hn Ht. unfold ring_bytes. rewrite seqZ_cons by done. rewrite fmap_cons. f_equal; [f_equal; rewrite Z.add_0_r; by apply Z.mod_small|].
  rewrite <-(Z.add_0_r (Z.succ 0)), <-fmap_add_seqZ, <-list_fmap_compose, Z.sub_1_r. apply list_fmap_ext. intros i k Hk. cbn. f_equal.
  rewrite Zplus_mod_idemp_l. f_equal. lia.
Qed.

Lemma ring_bytes_snoc buf tail n : 0 <= n -> ring_bytes buf tail (n + 1) = ring_bytes buf tail n ++ [at_z 0 buf ((tail + n) mod TCP_RX_SIZE)].
Proof. intros Hn. unfold ring_bytes. rewrite seqZ_app, fmap_app by lia. by rewrite Z.add_0_l. Qed.

(** A byte written outside the window does not change it. *)
Lemma ring_bytes_insert buf tail n i b :
  Z.of_nat (length buf) = TCP_RX_SIZE -> 0 <= i < TCP_RX_SIZE -> 0 <= n -> (forall k, 0 <= k < n -> (tail + k) mod TCP_RX_SIZE <> i) ->
  ring_bytes (<[Z.to_nat i := b]> buf) tail n = ring_bytes buf tail n.
Proof.
  intros Hb Hi Hn Hk. unfold ring_bytes. apply list_fmap_ext. intros j k Hj. apply lookup_seqZ in Hj as [-> Hj].
  rewrite at_z_insert by (rewrite ?Hb; (done || apply Z.mod_pos_bound; done)). rewrite (proj2 (Z.eqb_neq _ _)); [done|]. apply Hk. lia.
Qed.

Lemma count_next head tail : 0 <= head < TCP_RX_SIZE -> 0 <= tail < TCP_RX_SIZE -> (head + 1) mod TCP_RX_SIZE <> tail ->
  ((head + 1) mod TCP_RX_SIZE - tail) mod TCP_RX_SIZE = (head - tail) mod TCP_RX_SIZE + 1.
Proof.
  unfold TCP_RX_SIZE. intros Hh Ht Hne. Z.to_euclidean_division_equations. lia.
Qed.

(** The loop over the received bytes appends those there is room for. *)
Lemma rx_push_spec data : forall buf head tail buf' head',
  Z.of_nat (length buf) = TCP_RX_SIZE -> 0 <= head < TCP_RX_SIZE -> 0 <= tail < TCP_RX_SIZE ->
  rx_push data buf head tail = (buf', head') ->
  let n := (head - tail) mod TCP_RX_SIZE in
  Z.of_nat (length buf') = TCP_RX_SIZE /\ 0 <= head' < TCP_RX_SIZE /\
  ring_bytes buf' tail ((head' - tail) mod TCP_RX_SIZE) = ring_bytes buf tail n ++ take (Z.to_nat (TCP_RX_SIZE - 1 - n)) data.
Proof.
  induction data as [|b data IH]; intros buf head tail buf' head' Hb Hh Ht Hp n; cbn [rx_push] in Hp.
  - injection Hp as <- <-. rewrite take_nil, app_nil_r. done.
  - destruct (Z.eqb_spec ((head + 1) mod TCP_RX_SIZE) tail) as [He|Hne].
    + assert (n = TCP_RX_SIZE - 1) as En by (unfold n, TCP_RX_SIZE in *; Z.to_euclidean_division_equations; lia).
      destruct (IH _ _ _ _ _ Hb Hh Ht Hp) as (I1 & I2 & I3). fold n in I3. rewrite En in I3 |- *. split; [done|]. split; [done|]. rewrite I3. done.
    + assert (Hh' : 0 <= (head + 1) mod TCP_RX_SIZE < TCP_RX_SIZE) by by apply Z.mod_pos_bound.
      destruct (IH (<[Z.to_nat head := b]> buf) _ _ _ _ ltac:(by rewrite length_insert) Hh' Ht Hp) as (I1 & I2 & I3).
      split; [done|]. split; [done|]. rewrite I3, count_next by done. fold n.
      assert (Hn : 0 <= n < TCP_RX_SIZE - 1) by (unfold n, TCP_RX_SIZE in *; Z.to_euclidean_division_equations; lia).
      assert (Hat : (tail + n) mod TCP_RX_SIZE = head) by (unfold n; rewrite Zplus_mod_idemp_r; replace (tail + (head - tail)) with head by lia; by apply Z.mod_small).
      rewrite ring_bytes_snoc, Hat, at_z_insert, Z.eqb_refl by lia. rewrite ring_bytes_insert; [|done|done|lia|].
      * rewrite <-app_assoc. f_equal. replace (Z.to_nat (TCP_RX_SIZE - 1 - n)) with (S (Z.to_nat (TCP_RX_SIZE - 1 - (n + 1)))) by lia. done.
      * intros k Hk E. rewrite <-Hat in E. unfold TCP_RX_SIZE in *. Z.to_euclidean_division_equations. lia.
Qed.

(** Taking bytes out of the ring. *)
Lemma rx_pop_spec n : forall buf head tail bs tail',
  0 <= head < TCP_RX_SIZE -> 0 <= tail < TCP_RX_SIZE -> rx_pop n buf head tail = (bs, tail') ->
  0 <= tail' < TCP_RX_SIZE /\
  bs = take n (ring_bytes buf tail ((head - tail) mod TCP_RX_SIZE)) /\
  ring_bytes buf tail' ((head - tail') mod TCP_RX_SIZE) = drop n (ring_bytes buf tail ((head - tail) mod TCP_RX_SIZE)).
Proof.
  induction n as [|n IH]; intros buf head tail bs tail' Hh Ht Hp; cbn [rx_pop] in Hp; [by injection Hp as <- <-|].
  destruct (Z.eqb_spec tail head) as [->|Hne].
  - injection Hp as <- <-. rewrite Z.sub_diag. split; [done|]. change (ring_bytes buf head (0 mod TCP_RX_SIZE)) with (@nil Z). by rewrite take_nil, drop_nil.
  - destruct (rx_pop n buf head ((tail + 1) mod TCP_RX_SIZE)) as [bs0 tail0] eqn:E. injection Hp as <- <-.
    destruct (IH _ _ _ _ _ Hh ltac:(by apply Z.mod_pos_bound) E) as (I1 & I2 & I3).
    assert (Hc : (head - (tail + 1) mod TCP_RX_SIZE) mod TCP_RX_SIZE = (head - tail) mod TCP_RX_SIZE - 1 /\ 0 < (head - tail) mod TCP_RX_SIZE)
      by (unfold TCP_RX_SIZE in *; Z.to_euclidean_division_equations; lia).
    destruct Hc as [Hc Hpos]. rewrite (ring_bytes_cons _ _ _ Hpos Ht). cbn [take drop]. rewrite <-Hc. split; [done|]. split; [by rewrite I2|done].
Qed.

(** ** Segments *)

Definition tcp_segment (dst src : list Z) (id s d sport dport seq ack flags window ck : Z) (data : list Z) : list Z :=
  ipv4_frame dst src (IPV4_HEADER + TCP_HEADER + Z.of_nat (length data)) id IP_PROTO_TCP s d
    (tcp_fields sport dport seq ack flags window ck ++ data).

(** The connection after [data] has come from [mac]. *)
Definition tcp_take (mac data : list Z) (t : tcp_state) : tcp_state :=
  let '(buf, head) := rx_push data (s_tcp_rx_buf t) (s_tcp_rx_head t) (s_tcp_rx_tail t) in
  set_tcp_seqs (s_tcp_our_seq t) (u32 (s_tcp_server_seq t + Z.of_nat (length data))) (set_tcp_ring buf head (s_tcp_rx_tail t) (set_tcp_peer mac t)).

(** What a segment must be to be taken as data: for this host and port, without FIN. *)
Record data_segment (ip port : Z) (p data : list Z) := {
  ds_dst : list Z; ds_src : list Z; ds_id : Z; ds_s : Z; ds_d : Z; ds_sport : Z; ds_seq : Z; ds_ack : Z; ds_flags : Z; ds_window : Z; ds_ck : Z;
  ds_frame : p = tcp_segment ds_dst ds_src ds_id ds_s ds_d ds_sport port ds_seq ds_ack ds_flags ds_window ds_ck data;
  ds_macs : mac_ok ds_dst /\ mac_ok ds_src;
  ds_fits : fits 32 ds_s /\ fits 32 ds_d /\ fits 16 port /\ byte ds_flags;
  ds_to : ds_d = ip \/ ds_d = 0xFFFFFFFF;
  ds_no_fin : has ds_flags 0x01 = false;
  ds_data : 1 <= Z.of_nat (length data) <= 65000
}.

Section Segment.
Context {E H : Type} `{ND : NetDev E} `{UH : UdpHandler H}.
Implicit Types st : stack E H.

(** A data segment of an open connection: the ring takes the data and the acknowledgement
    goes to the sender's address. *)
Lemma segment_accepted resolve st p data (D : data_segment (s_my_ip (cfg st)) (s_tcp_src_port (tcp st)) p data) :
  s_tcp_state (tcp st) = TCP_STATE_ESTABLISHED ->
  let st1 := set_tcp (tcp_take (ds_src _ _ _ _ D) data (tcp st)) st in
  handle_frame resolve st p =
  Some (fst (send st1 (tcp_frame st1 (ds_src _ _ _ _ D) 0x3344 (s_tcp_our_seq (tcp st)) (s_tcp_server_seq (tcp st1)) 0x10 32768 []))).
Proof.
  destruct D as [dst src id s d sport seq ack flags window ck -> [Hdst Hsrc] (Hs & Hd & Hport & Hflags) Hto Hfin Hlen].
  intros Hst st1. cbn [ds_src] in st1 |- *. unfold tcp_segment. set (hdr := tcp_fields sport _ seq ack flags window ck). set (total := IPV4_HEADER + TCP_HEADER + _).
  assert (Hlh : length hdr = 20%nat) by done. set (p := ipv4_frame _ _ _ _ _ _ _ _).
  pose proof (ipv4_frame_length dst src total id IP_PROTO_TCP s d (hdr ++ data) Hdst Hsrc) as Hpl. fold p in Hpl. rewrite length_app, Hlh in Hpl.
  destruct (handle_ipv4_frame resolve st dst src total id IP_PROTO_TCP s d (hdr ++ data)) as [Hf Hmac]; [done..|unfold total, IPV4_HEADER, TCP_HEADER; lia| |done|].
  { rewrite length_app, Hlh. unfold total, IPV4_HEADER, TCP_HEADER. lia. }
  fold p in Hf, Hmac. rewrite Hf. change (IP_PROTO_TCP =? IP_PROTO_ICMP) with false. change (IP_PROTO_TCP =? IP_PROTO_UDP) with false.
  change (IP_PROTO_TCP =? IP_PROTO_TCP) with true. cbn iota. unfold handle_tcp. rewrite Hpl. unfold ETH_HEADER, IPV4_HEADER, TCP_HEADER.
  rewrite (proj2 (Z.ltb_ge (Z.of_nat _) _)) by lia.
  assert (rd p 36 2 = Some (htons (s_tcp_src_port (tcp st)))) as ->.
  { unfold p. rewrite (rest_rd _ _ _ _ _ _ _ _ Hdst Hsrc 36 2 2), rd_app_l by lia.
    change hdr with (put16 (htons sport) ++ put16 (htons (s_tcp_src_port (tcp st))) ++ (put32 (htonl seq) ++ put32 (htonl ack) ++ [0x50; flags] ++ put16 (htons window) ++ put16 ck ++ put16 0)).
    rewrite (rd_skip (put16 (htons sport)) _ _ _ 2) by (done || lia). apply rd_put16. by apply ntohs_fits. }
  cbn [mbind option_bind]. rewrite ntohs_htons, Z.eqb_refl by done. cbn [negb]. rewrite Hmac.
  assert (forall off k x, 0 <= k < 20 -> off = 34 + k -> 0 <= x < 256 -> take 1 (drop (Z.to_nat k) hdr) = [x] -> rd p off 1 = Some x) as Hrd.
  { intros off k x Hk -> Hx Ek. unfold p. rewrite (rest_rd _ _ _ _ _ _ _ _ Hdst Hsrc _ 1 k), rd_app_l by lia. unfold rd. rewrite slice_some by lia.
    change (Z.to_nat 1) with 1%nat. rewrite Ek. cbn. f_equal. lia. }
  rewrite (Hrd 47 13 flags), (Hrd 46 12 0x50) by (done || (unfold byte in *; lia)). cbn [mbind option_bind].
  assert (s_tcp_state (tcp (set_tcp (set_tcp_peer src (tcp st)) st)) = TCP_STATE_ESTABLISHED) as Hst2 by exact Hst. rewrite !Hst2. change (TCP_STATE_ESTABLISHED =? TCP_STATE_SYN_SENT) with false.
  change (TCP_STATE_ESTABLISHED =? TCP_STATE_ESTABLISHED) with true. cbn [andb]. change (Z.shiftr 80 4 * 4) with 20.
  replace (Z.of_nat (34 + (20 + length data)) - (14 + 20 + 20)) with (Z.of_nat (length data)) by lia. rewrite (proj2 (Z.ltb_lt 0 _)) by lia.
  unfold p. rewrite (rest_slice _ _ _ _ _ _ _ _ Hdst Hsrc _ _ 20), (slice_app_r hdr _ 20 _ 0), slice_all by lia. cbn [mbind option_bind].
  unfold st1, tcp_take. cbn [tcp set_tcp set_tcp_peer s_tcp_rx_buf s_tcp_rx_head s_tcp_rx_tail].
  destruct (rx_push data _ _ _) as [buf head]. rewrite send_tcp_ack_known by done. cbn [mbind option_bind]. rewrite Hfin. reflexivity.
Qed.
End Segment.

(** ** A connection as a bounded queue *)

(** What a program and its peer do: a frame arrives, or the program asks for bytes. *)
Inductive tcp_event := Segment (p : list Z) | Recv (max_len timeout_ms : Z).

(** The same without frames. *)
Inductive queue_event := Put (data : list Z) | Take (n : nat).

(** A queue of at most [TCP_RX_SIZE - 1] bytes, of which those that do not fit are lost;
    the bytes taken and those that are left. *)
Fixpoint queue_run (q : list Z) (es : list queue_event) : list Z * list Z :=
  match es with
  | [] => ([], q)
  | Put data :: es => queue_run (q ++ take (Z.to_nat (TCP_RX_SIZE - 1 - Z.of_nat (length q))) data) es
  | Take n :: es => let '(out, q') := queue_run (drop n q) es in (take n q ++ out, q')
  end.

Inductive event_means (ip port : Z) : tcp_event -> queue_event -> Prop :=
| means_put p data (D : data_segment ip port p data) : event_means ip port (Segment p) (Put data)
| means_take max_len timeout_ms : 0 <= timeout_ms -> event_means ip port (Recv max_len timeout_ms) (Take (Z.to_nat max_len)).

Lemma tcp_take_spec mac data t : rx_wf t ->
  rx_wf (tcp_take mac data t) /\ rx_bytes (tcp_take mac data t) = rx_bytes t ++ take (Z.to_nat (TCP_RX_SIZE - 1 - Z.of_nat (length (rx_bytes t)))) data /\
  s_tcp_state (tcp_take mac data t) = s_tcp_state t /\ s_tcp_src_port (tcp_take mac data t) = s_tcp_src_port t.
Proof.
  intros (Hb & Hh & Ht). rewrite rx_bytes_length. unfold tcp_take. destruct (rx_push data _ _ _) as [buf head] eqn:Ep.
  destruct (rx_push_spec _ _ _ _ _ _ Hb Hh Ht Ep) as (I1 & I2 & I3). split; [done|]. split; [exact I3|done].
Qed.

Section Conversation.
Context {E H : Type} `{NL : NetLaws E} `{UH : UdpHandler H}.
Implicit Types st : stack E H.

Fixpoint converse (es : list tcp_event) st : option (stack E H * list Z) :=
  match es with
  | [] => Some (st, [])
  | Segment p :: es => st ← handle_frame net_resolve_mac st p; converse es st
  | Recv max_len timeout_ms :: es =>
      '(st, bs) ← net_tcp_recv st max_len timeout_ms;
      '(st, out) ← converse es st;
      Some (st, bs ++ out)
  end.

(** No frame is waiting, so polling only reads the device. *)
Definition silent st : Prop := pending (nic st) = 0%nat.

Lemma set_nic_same st : st = set_nic (nic st) st.
Proof. by destruct st. Qed.

Lemma millis_silent st : silent st -> exists e t, millis st = (set_nic e st, t) /\ pending e = 0%nat.
Proof.
  unfold silent, millis. intros Hs. destruct (timer_millis (nic st)) as [e t] eqn:Et. exists e, t. split; [done|]. apply nl_reading in Et. lia.
Qed.

Lemma net_poll_silent st : silent st -> exists e, net_poll st = Some (set_nic e st) /\ pending e = 0%nat.
Proof.
  unfold silent, net_poll, poll. intros Hs. cbn [poll_loop]. destruct (netdev_poll (nic st) 2048) as [e p] eqn:Ep.
  destruct p as [|b p]; [|pose proof (nl_pending _ _ _ _ Ep ltac:(done)); lia]. exists e. split; [done|]. apply nl_poll in Ep as [_ Ep]. lia.
Qed.

(** On a silent device a wait for data does not change the connection. *)
Lemma recv_loop_silent start timeout : forall fuel st, silent st -> s_tcp_rx_head (tcp st) = s_tcp_rx_tail (tcp st) ->
  exists e, recv_loop fuel start timeout st = Some (set_nic e st, false) /\ pending e = 0%nat.
Proof.
  induction fuel as [|fuel IH]; intros st Hs He; cbn [recv_loop]; [exists (nic st); by rewrite <-set_nic_same|].
  rewrite He, Z.eqb_refl. cbn [negb]. destruct (net_poll_silent st Hs) as (e1 & -> & Hp1). cbn [mbind option_bind].
  destruct (millis_silent (set_nic e1 st) Hp1) as (e2 & t & -> & Hp2). split_if E1; [by exists e2|]. split_if E2; [by exists e2|].
  destruct (IH (set_nic e2 (set_nic e1 st)) Hp2 He) as (e3 & -> & Hp3). by exists e3.
Qed.

Lemma net_tcp_recv_silent st max_len timeout : silent st -> rx_wf (tcp st) ->
  exists e t, net_tcp_recv st max_len timeout = Some (set_tcp t (set_nic e st), take (Z.to_nat max_len) (rx_bytes (tcp st))) /\
    pending e = 0%nat /\ rx_wf t /\ rx_bytes t = drop (Z.to_nat max_len) (rx_bytes (tcp st)) /\
    s_tcp_state t = s_tcp_state (tcp st) /\ s_tcp_src_port t = s_tcp_src_port (tcp st).
Proof.
  intros Hs Hw. pose proof Hw as (Hb & Hh & Ht). unfold net_tcp_recv. destruct (millis_silent st Hs) as (e1 & start & -> & Hp1).
  destruct (Z.eq_dec (s_tcp_rx_head (tcp st)) (s_tcp_rx_tail (tcp st))) as [He|Hne].
  - destruct (recv_loop_silent start timeout (S (wait_fuel timeout)) (set_nic e1 st) Hp1 He) as (e2 & -> & Hp2). cbn [mbind option_bind negb].
    assert (Hnil : rx_bytes (tcp st) = []) by (unfold rx_bytes, rx_count; by rewrite He, Z.sub_diag).
    exists e2, (tcp st). rewrite Hnil, take_nil, drop_nil. split; [|done]. by destruct st.
  - cbn [recv_loop]. cbn [tcp set_nic]. rewrite (proj2 (Z.eqb_neq _ _) Hne). cbn [negb mbind option_bind].
    destruct (rx_pop _ _ _ _) as [bs tail] eqn:Ep. destruct (rx_pop_spec _ _ _ _ _ _ Hh Ht Ep) as (I1 & -> & I3).
    by exists e1, (set_tcp_ring (s_tcp_rx_buf (tcp st)) (s_tcp_rx_head (tcp st)) tail (tcp st)).
Qed.

Lemma send_keeps st f : tcp (fst (send st f)) = tcp st /\ cfg (fst (send st f)) = cfg st /\ (pending (nic (fst (send st f))) <= pending (nic st))%nat.
Proof. pose proof (send_later st f) as [_ L]. split_and!; [..|done]; unfold send; by destruct (netdev_send _ _). Qed.

(** Over any conversation on an open connection the program gets what the queue gives. *)
Lemma converse_queue : forall es qs st, Forall2 (event_means (s_my_ip (cfg st)) (s_tcp_src_port (tcp st))) es qs ->
  silent st -> rx_wf (tcp st) -> s_tcp_state (tcp st) = TCP_STATE_ESTABLISHED ->
  exists st' out, converse es st = Some (st', out) /\ (out, rx_bytes (tcp st')) = queue_run (rx_bytes (tcp st)) qs /\
    rx_wf (tcp st') /\ s_tcp_state (tcp st') = TCP_STATE_ESTABLISHED.
Proof.
  induction es as [|ev es IH]; intros qs st Hm Hs Hw He; inversion Hm as [|? q ? qs' Hq Hqs]; subst; cbn [converse queue_run]; [by exists st, []|].
  destruct Hq as [p data D|max_len timeout Ht].
  - destruct (tcp_take_spec (ds_src _ _ _ _ D) data (tcp st) Hw) as (W1 & <- & W3 & W4). rewrite (segment_accepted _ _ _ _ D He). cbn [mbind option_bind].
    match goal with |- context [fst (send ?s ?f)] => destruct (send_keeps s f) as (Et & Ec & Hp); set (st2 := fst (send s f)) in * end.
    cbn [tcp set_tcp] in Et. cbn [cfg set_tcp] in Ec. rewrite <-Et in W1, W3, W4 |- *. rewrite <-Ec, <-W4 in Hqs.
    apply IH; [done| |done|congruence]. unfold silent in *. cbn in Hp. lia.
  - destruct (net_tcp_recv_silent st max_len timeout Hs Hw) as (e & t & -> & Hp & W1 & W2 & W3 & W4). cbn [mbind option_bind].
    destruct (IH qs' (set_tcp t (set_nic e st))) as (st' & out & -> & R2 & R3); [cbn [cfg tcp set_tcp set_nic]; by rewrite W4|done|done|cbn [tcp set_tcp]; congruence|].
    cbn [mbind option_bind]. cbn [tcp set_tcp] in R2. rewrite W2 in R2. rewrite <-R2. by exists st', (take (Z.to_nat max_len) (rx_bytes (tcp st)) ++ out).
Qed.
End Conversation.
