(* ===== verification/NetSpec.v ===== *)
(** What the network stack promises. *)
From S2P Require Import Prelude Net NetCheck NetApi NetSafe NetTalk NetArp NetStream.

(** ** Frames and waits *)

Section Promise.
Context {E H : Type} `{NL : NetLaws E} `{UH : UdpHandler H}.
Implicit Types st : stack E H.

(** C29. No frame, whatever its bytes, makes the stack read outside it; [net_poll] handles
    frames until the device has none, time never goes back, and it never depends on address
    resolution, which would call it again. *)
Theorem net_poll_safe st :
  (forall p, image p -> is_Some (handle_frame net_resolve_mac st p)) /\
  (exists st' e, net_poll st = Some st' /\ later st st' /\ netdev_poll e 2048 = (nic st', [])) /\
  forall resolve, poll resolve st = net_poll st.
Proof.
  split; [intros p; apply handle_frame_safe|]. split; [|intros resolve; apply poll_resolve].
  destruct (poll_loop_drains net_resolve_mac (S (pending (nic st))) st ltac:(lia)) as (st' & e & R1 & R2 & R3). by exists st', e.
Qed.

End Promise.

(** ** Two hosts *)

Section Hosts.
Context {E H E' H' : Type} `{NL : NetLaws E} `{UH : UdpHandler H} `{NL' : @NetLaws E' ND'} `{UH' : UdpHandler H'}.
Implicit Types (a : stack E H) (b : stack E' H').

Definition my_mac {X Y} (st : stack X Y) : list Z := s_my_mac (cfg st).
Definition my_ip {X Y} (st : stack X Y) : Z := s_my_ip (cfg st).

(** A host with an address, a well-formed cache and six-byte hardware addresses. *)
Definition host_ok {X Y} (st : stack X Y) : Prop := macs_ok st /\ cache_wf (s_arp_cache st) /\ fits 32 (my_ip st) /\ my_ip st <> 0.

(** A host that is asked for its address learns the asker's and answers, and the asker
    learns the host's from the answer: for five minutes each finds the other in its cache. *)
Theorem arp_exchange a b resolve resolve' :
  host_ok a -> host_ok b ->
  let request := arp_frame (replicate 6 0xFF) (my_mac a) ARP_OP_REQUEST (my_mac a) (my_ip a) (replicate 6 0) (my_ip b) in
  send_arp_request a (my_ip b) = fst (send a request) /\
  exists b1 reply a1, handle_frame resolve' b request = Some (fst (send b1 reply)) /\ handle_frame resolve a reply = Some a1 /\
    (clock (nic (fst (millis b1))) <= clock (nic b1) + 300000 -> snd (arp_cache_lookup b1 (my_ip a)) = Some (my_mac a)) /\
    (clock (nic (fst (millis a1))) <= clock (nic a1) + 300000 -> snd (arp_cache_lookup a1 (my_ip b)) = Some (my_mac b)).
Proof.
  intros ((Ma1 & Ma2) & Wa & Ia & Za) ((Mb1 & Mb2) & Wb & Ib & Zb) request. split; [done|].
  assert (Mz : forall x, byte x -> mac_ok (replicate 6 x)) by (intros x Hx; split; [done|]; by apply Forall_replicate).
  destruct (arp_cache_update_spec b (my_ip a) (my_mac a) Za Wb) as (es1 & e & es2 & B1 & B2 & B3 & B4 & B5 & B6).
  set (b1 := arp_cache_update b (my_ip a) (my_mac a)) in *.
  destruct (arp_cache_update_spec a (my_ip b) (my_mac b) Zb Wa) as (fs1 & f & fs2 & A1 & A2 & A3 & A4 & A5 & A6).
  set (a1 := arp_cache_update a (my_ip b) (my_mac b)) in *.
  assert (Hclock : forall {X Y} `{NX : NetLaws X} (s : stack X Y), 0 <= clock (nic s)).
  { intros X Y ND0 NX s. destruct (timer_millis (nic s)) as [e0 t0] eqn:Et. by apply nl_millis in Et as [[? ?] _]. }
  exists b1, (arp_frame (my_mac a) (my_mac b) ARP_OP_REPLY (my_mac b) (my_ip b) (my_mac a) (my_ip a)), a1. split; [|split; [|split]].
  - rewrite <-(app_nil_r request). unfold request. rewrite handle_arp_frame by (done || by apply Mz).
    cbn zeta. fold b1. unfold my_ip at 2. rewrite B6, B5. change (ARP_OP_REQUEST =? ARP_OP_REQUEST) with true. fold (my_ip b). by rewrite Z.eqb_refl.
  - rewrite <-(app_nil_r (arp_frame _ _ _ _ _ _ _)), handle_arp_frame by done. reflexivity.
  - intros Hc. by apply (arp_lookup_learned b1 _ _ _ _ _ Za (Hclock _ _ _ _ b1) B3 B2).
  - intros Hc. by apply (arp_lookup_learned a1 _ _ _ _ _ Zb (Hclock _ _ _ _ a1) A3 A2).
Qed.

Lemma my_ip_send {X Y} `{NetDev X} (st : stack X Y) f : my_ip (fst (send st f)) = my_ip st.
Proof. unfold my_ip, send. by destruct (netdev_send _ _). Qed.

Lemma sent_ip {X Y} `{NetDev X} (st st' : stack X Y) f n : (st', n) = send st f -> my_ip st' = my_ip st.
Proof. intros Hs. rewrite <-(my_ip_send st f), <-Hs. done. Qed.

(** The request of [net_ping_send]. *)
Definition ping_frame {X Y} (st : stack X Y) (mac : list Z) (ip seq : Z) : list Z :=
  ipv4_frame mac (my_mac st) 60 0x4321 IP_PROTO_ICMP (my_ip st) ip (icmp_message 8 0 (put16 (htons 0x7777) ++ put16 (htons seq) ++ pattern)).

(** A ping that is sent is answered by the host that owns the address, whatever else it
    is doing, and its answer is recognised by the sender as the one awaited.  Request and
    answer carry checksums that verify. *)
Theorem ping_answered a ip seq a' : macs_ok a -> fits 32 ip -> fits 16 seq -> fits 32 (my_ip a') -> net_ping_send a ip seq = Some (a', 0) ->
  exists a1 mac, a' = fst (send a1 (ping_frame a1 mac ip seq)) /\
    forall b resolve resolve', my_ip b = ip -> mac_ok (my_mac b) ->
      exists id body a2, handle_frame resolve' b (ping_frame a1 mac ip seq) =
        Some (fst (send b (ipv4_frame (my_mac a1) (my_mac b) 60 id IP_PROTO_ICMP (my_ip b) (my_ip a1) (icmp_message 0 0 body)))) /\
        calc_checksum (icmp_message 8 0 body) = 0 /\ calc_checksum (icmp_message 0 0 body) = 0 /\
        handle_frame resolve a' (ipv4_frame (my_mac a1) (my_mac b) 60 id IP_PROTO_ICMP (my_ip b) (my_ip a1) (icmp_message 0 0 body)) = Some a2 /\
        net_ping_check_reply a2 seq = true.
Proof.
  intros Ha Hip Hseq Hia. unfold net_ping_send. destruct (no_mac a); [done|]. destruct (net_resolve_mac a ip) as [[s1 [mac|]]|] eqn:Er; [|done..].
  destruct (net_resolve_mac_macs _ _ _ _ Er Ha) as [M1 M2]. cbn [mbind option_bind]. intros [= <-].
  match goal with |- exists _ _, fst (send ?s _) = _ /\ _ => exists s, mac; set (a1 := s) in * end. rewrite my_ip_send in Hia. split; [done|]. intros b resolve resolve' Hb Hmb.
  set (body := put16 (htons 0x7777) ++ put16 (htons seq) ++ pattern).
  assert (Hbody : Forall byte body) by (unfold body; rewrite !Forall_app; split; [apply le_put_byte|]; split; [apply le_put_byte|]; unfold pattern, byte; repeat (constructor; [lia|]); constructor).
  assert (Hma : mac_ok (my_mac a1)) by apply M1. assert (Hmac : mac_ok mac) by by apply M2.
  assert (Hl : Z.of_nat (length body) = 36) by done.
  exists 0x1000, body. eexists. split; [|split; [|split; [|split]]].
  - pose proof (echo_reply resolve' b mac (my_mac a1) 0x4321 (my_ip a1) ip 0 (calc_checksum ([8; 0] ++ put16 0 ++ body)) body []) as R.
    rewrite app_nil_r, Hl in R. apply R; first [done|by left|lia].
  - apply icmp_message_verifies; (done || lia).
  - apply icmp_message_verifies; (done || lia).
  - pose proof (echo_received resolve (fst (send a1 (ping_frame a1 mac ip seq))) (my_mac a1) (my_mac b) 60 0x1000 (my_ip b) (my_ip a1) 0 (calc_checksum ([0; 0] ++ put16 0 ++ body)) 0x7777 seq pattern) as R.
    apply R; try done; [by rewrite Hb|]. left. symmetry. apply my_ip_send.
  - unfold net_ping_check_reply, send. cbn. by rewrite Z.eqb_refl.
Qed.

End Hosts.

(** ** Streams, checksums, text *)

Section Streams.
Context {E H : Type} `{NL : NetLaws E} `{UH : UdpHandler H}.
Implicit Types st : stack E H.


(** Bytes that find the ring full are lost, but the acknowledgement covers them. *)
Theorem tcp_lost_bytes_acknowledged resolve st p data (D : data_segment (s_my_ip (cfg st)) (s_tcp_src_port (tcp st)) p data) :
  s_tcp_state (tcp st) = TCP_STATE_ESTABLISHED -> rx_wf (tcp st) -> rx_count (tcp st) = TCP_RX_SIZE - 1 ->
  exists st', handle_frame resolve st p = Some st' /\ rx_bytes (tcp st') = rx_bytes (tcp st) /\
    s_tcp_server_seq (tcp st') = u32 (s_tcp_server_seq (tcp st) + Z.of_nat (length data)).
Proof.
  intros He Hw Hc. rewrite (segment_accepted _ _ _ _ D He). eexists. split; [done|]. rewrite tcp_after_send. cbn [tcp set_tcp].
  destruct (tcp_take_spec (ds_src _ _ _ _ D) data (tcp st) Hw) as (_ & -> & _). rewrite rx_bytes_length, Hc, Z.sub_diag, app_nil_r.
  split; [done|]. unfold tcp_take. by destruct (rx_push _ _ _ _).
Qed.

(** The headers the stack sends verify: the Internet header of every frame, and the TCP
    header over its pseudo header and payload. *)
Theorem sent_headers_verify st mac id seq ack flags window payload :
  byte flags -> Forall byte payload -> Z.of_nat (length payload) <= 60000 ->
  let c := cfg st in let t := tcp st in
  let len := TCP_HEADER + Z.of_nat (length payload) in
  let ip := ipv4_header (IPV4_HEADER + len) id IP_PROTO_TCP (s_my_ip c) (s_tcp_dst_ip t) in
  let segment := tcp_header (s_my_ip c) (s_tcp_dst_ip t) (s_tcp_src_port t) (s_tcp_dst_port t) seq ack flags window payload ++ payload in
  let pseudo := put32 (s_my_ip c) ++ put32 (s_tcp_dst_ip t) ++ [0; IP_PROTO_TCP] ++ put16 (htons len) in
  tcp_frame st mac id seq ack flags window payload = eth_header mac (s_my_mac c) ETH_TYPE_IPV4 ++ ip ++ segment /\
  calc_checksum ip = 0 /\ calc_checksum (pseudo ++ segment) = 0.
Proof.
  intros Hf Hp Hl c t len ip segment pseudo. split; [unfold tcp_frame, ip, segment, len; by rewrite Z.add_assoc|].
  split; [by apply ipv4_header_verifies|]. unfold segment, tcp_header, calc_tcp_checksum.
  rewrite (uwrap_id 16 (TCP_HEADER + _)) by (unfold fits, TCP_HEADER; lia). fold len pseudo.
  set (front := put16 (htons (s_tcp_src_port t)) ++ put16 (htons (s_tcp_dst_port t)) ++ put32 (htonl seq) ++ put32 (htonl ack) ++ [0x50; flags] ++ put16 (htons window)).
  assert (Hfields : forall ck rest, pseudo ++ tcp_fields (s_tcp_src_port t) (s_tcp_dst_port t) seq ack flags window ck ++ rest = (pseudo ++ front) ++ put16 ck ++ put16 0 ++ rest)
    by (intros; unfold tcp_fields, front; by rewrite <-!app_assoc).
  fold (calc_checksum (pseudo ++ tcp_fields (s_tcp_src_port t) (s_tcp_dst_port t) seq ack flags window 0 ++ payload)).
  rewrite !Hfields. apply field_verifies; [done| |rewrite Forall_app; split; [apply le_put_byte|done]|].
  - unfold pseudo, front, byte, IP_PROTO_TCP in *. rewrite !Forall_app, !Forall_cons. split_and!; first [apply le_put_byte|apply Forall_nil_2|lia].
  - change (length (pseudo ++ front)) with 28%nat. rewrite length_app, length_put16. lia.
Qed.
End Streams.

(** An address written as text fits its buffer of 16 bytes and reads back as itself. *)
Theorem net_ip_text_roundtrip ip : fits 32 ip -> net_str_to_ip (net_ip_to_str ip) = ip /\ (length (net_ip_to_str ip) < 16)%nat.
Proof.
  intros Hip. split; [by apply net_str_to_ip_to_str|]. assert (L : forall v, (length (decimal v) <= 3)%nat) by (intros v; unfold decimal; by destruct (100 <=? v), (10 <=? v); cbn; lia).
  unfold net_ip_to_str. rewrite !length_app. cbn [length]. pose proof (L (Z.land ip 0xFF)). pose proof (L (Z.land (Z.shiftr ip 8) 0xFF)).
  pose proof (L (Z.land (Z.shiftr ip 16) 0xFF)). pose proof (L (Z.land (Z.shiftr ip 24) 0xFF)). lia.
Qed.

(** ** The properties at work *)

Definition mac_a : list Z := [2; 0; 0; 0; 0; 1].
Definition mac_b : list Z := [2; 0; 0; 0; 0; 2].
Definition ip_a : Z := net_make_ip 10 0 2 15.
Definition ip_b : Z := net_make_ip 10 0 2 16.

(** Two hosts on one wire; the second one's address is on its way to the first. *)
Definition alice : stack wire (list (Z * Z * Z * list Z)) := host (Wire mac_a [arp_frame mac_a mac_b ARP_OP_REPLY mac_b ip_b mac_a ip_a; [1; 2; 3]] [] 5) [] ip_a.
Definition bob : stack wire (list (Z * Z * Z * list Z)) := host (Wire mac_b [] [] 9) [] ip_b.

Lemma alice_macs : macs_ok alice.
Proof. split; [by apply mac_ok_compute|]. cbn. by repeat constructor. Qed.

Lemma host_ok_of {X} w (h : X) ip : mac_ok (w_mac w) -> fits 32 ip -> ip <> 0 -> host_ok (host w h ip).
Proof. intros Hm Hf Hne. split; [split; [done|by repeat constructor]|]. split; [split; [done|by repeat constructor]|done]. Qed.

Lemma net_poll_safe_witness : exists st', net_poll alice = Some st' /\ later alice st'.
Proof. destruct (proj1 (proj2 (net_poll_safe alice))) as (st' & e & R1 & R2 & _). by exists st'. Defined.


Lemma arp_exchange_witness : host_ok alice /\ host_ok bob /\ send_arp_request alice (my_ip bob) =
  fst (send alice (arp_frame (replicate 6 0xFF) (my_mac alice) ARP_OP_REQUEST (my_mac alice) (my_ip alice) (replicate 6 0) (my_ip bob))).
Proof.
  assert (Ha : host_ok alice) by by apply host_ok_of; [apply mac_ok_compute|..].
  assert (Hb : host_ok bob) by by apply host_ok_of; [apply mac_ok_compute|..].
  split; [done|]. split; [done|]. apply (arp_exchange alice bob net_resolve_mac net_resolve_mac Ha Hb).
Defined.

Lemma ip_a_fits : fits 32 ip_a.
Proof. by vm_compute. Qed.

Lemma ip_b_fits : fits 32 ip_b.
Proof. by vm_compute. Qed.

Lemma seven_fits : fits 16 7.
Proof. by vm_compute. Qed.

Definition alice_pinged := match net_ping_send alice ip_b 7 with Some (st, _) => st | None => alice end.

Lemma ping_answered_witness : net_ping_send alice ip_b 7 = Some (alice_pinged, 0) /\
  exists reply a2, handle_frame net_resolve_mac alice_pinged reply = Some a2 /\ net_ping_check_reply a2 7 = true.
Proof.
  assert (Hs : net_ping_send alice ip_b 7 = Some (alice_pinged, 0)) by (apply some_state; vm_compute; reflexivity).
  assert (Hi : fits 32 (my_ip alice_pinged)) by (assert (Hi : my_ip alice_pinged = ip_a) by (vm_compute; reflexivity); rewrite Hi; exact ip_a_fits).
  split; [exact Hs|]. destruct (ping_answered (E' := wire) (H' := list (Z * Z * Z * list Z)) alice ip_b 7 alice_pinged alice_macs ip_b_fits seven_fits Hi Hs) as (a1 & mac & _ & R).
  destruct (R bob net_resolve_mac net_resolve_mac eq_refl ltac:(by apply mac_ok_compute)) as (id & body & a2 & _ & _ & _ & R1 & R2). eexists _, a2. split; [exact R1|exact R2].
Defined.

Lemma ports_fit : fits 16 1000 /\ fits 16 2000.
Proof. by vm_compute. Qed.

Lemma ports_free : (1000 <> 67 \/ 2000 <> 68) /\ 1000 <> 53.
Proof. lia. Qed.

Definition alice_sent := match net_udp_send alice ip_b 1000 2000 [1; 2; 3] with Some (st, _) => st | None => alice end.


(** A connection of [alice] from port 45000. *)
Definition alice_connected := set_tcp (set_tcp_state TCP_STATE_ESTABLISHED (tcp alice)) (set_nic (Wire mac_a [] [] 5) alice).

Definition demo_segment : data_segment ip_a 45000 (tcp_segment mac_a mac_b 1 ip_b ip_a 80 45000 1 1 0x18 100 0 [104; 105]) [104; 105].
Proof.
  apply (Build_data_segment _ _ _ _ mac_a mac_b 1 ip_b ip_a 80 1 1 0x18 100 0); first [done|by left|split; by apply mac_ok_compute].
Defined.


Lemma sent_headers_verify_witness : Forall byte [1; 2; 3] /\
  calc_checksum (ipv4_header (IPV4_HEADER + (TCP_HEADER + 3)) 1 IP_PROTO_TCP (s_my_ip (cfg alice)) (s_tcp_dst_ip (tcp alice))) = 0.
Proof.
  assert (Hb : Forall byte [1; 2; 3]) by by repeat constructor. split; [exact Hb|].
  apply (sent_headers_verify alice mac_b 1 5 6 0x18 100 [1; 2; 3]); [done|exact Hb|done].
Defined.

Lemma net_ip_text_roundtrip_witness : fits 32 ip_a /\ net_str_to_ip (net_ip_to_str ip_a) = ip_a.
Proof. assert (Hf : fits 32 ip_a) by by vm_compute. split; [exact Hf|]. apply (net_ip_text_roundtrip ip_a Hf). Defined.
