(* ===== verification/NetHandler.v ===== *)
(** What the registered UDP handler sees: whatever the stack does, its state changes only by
    datagrams handed to it. *)
From S2P Require Import Prelude Net NetCheck NetApi NetSafe.

Section Handler.
Context {E H : Type} `{ND : NetDev E} `{UH : UdpHandler H}.
Implicit Types st : stack E H.

(** A relation that holds between the handler's states before and after a datagram, and so
    after any number of them. *)
Context (P : H -> H -> Prop) `{!PreOrder P}.
Hypothesis P_input : forall h ip sport dport payload, P h (udp_input h ip sport dport payload).

Definition moves {R} (o : option (stack E H * R)) st : Prop := forall st' r, o = Some (st', r) -> P (udp st) (udp st').

Lemma send_udp st f : udp (fst (send st f)) = udp st.
Proof. unfold send. by destruct (netdev_send _ _). Qed.

Lemma millis_udp st st' t : millis st = (st', t) -> udp st' = udp st.
Proof. unfold millis. destruct (timer_millis _). by intros [= <- _]. Qed.

Lemma arp_cache_update_udp st ip mac : udp (arp_cache_update st ip mac) = udp st.
Proof.
  unfold arp_cache_update. destruct (ip =? 0); [done|]. cbn zeta. destruct (_ <? 0); [done|]. destruct (millis st) as [st1 now] eqn:Em.
  apply millis_udp in Em. by destruct (ip =? _).
Qed.

Lemma arp_cache_lookup_udp st ip st' r : arp_cache_lookup st ip = (st', r) -> udp st' = udp st.
Proof.
  unfold arp_cache_lookup. destruct (ip =? 0); [by intros [= <- <-]|]. destruct (millis st) as [st1 now] eqn:Em. destruct (arp_find _ _ _).
  intros [= <- _]. by apply millis_udp in Em.
Qed.

Lemma handle_frame_udp resolve st p st' : image p -> handle_frame resolve st p = Some st' -> P (udp st) (udp st').
Proof.
  intros Hp. assert (PreOrder (fun st st' : stack E H => P (udp st) (udp st'))) by (split; [by intros x|intros x y z; apply transitivity]).
  apply (handle_frame_steps (fun st st' => P (udp st) (udp st'))); [|intros s f|intros s ip mac _|intros; apply P_input|done].
  - intros s s' (_ & _ & _ & ->). done.
  - by rewrite send_udp.
  - by rewrite arp_cache_update_udp.
Qed.
End Handler.

Section Calls.
Context {E H : Type} `{NL : NetLaws E} `{UH : UdpHandler H}.
Implicit Types st : stack E H.
Context (P : H -> H -> Prop) `{!PreOrder P}.
Hypothesis P_input : forall h ip sport dport payload, P h (udp_input h ip sport dport payload).
Abbreviation moves := (moves P).

Lemma poll_udp resolve st st' : poll resolve st = Some st' -> P (udp st) (udp st').
Proof.
  unfold poll. generalize (S (pending (nic st))) as fuel. intros fuel. revert st. induction fuel as [|fuel IH]; intros st Hp; cbn [poll_loop] in Hp; [by injection Hp as <-|].
  destruct (netdev_poll (nic st) 2048) as [e p] eqn:Ep. destruct (nl_frame _ 2048 _ _ ltac:(lia) Ep) as [Hi _].
  destruct p as [|b p]; [by injection Hp as <-|]. destruct (handle_frame resolve (set_nic e st) (b :: p)) as [st1|] eqn:E1; [|done].
  cbn [mbind option_bind] in Hp. etrans; [exact (handle_frame_udp P P_input _ _ _ _ Hi E1)|exact (IH _ Hp)].
Qed.

Lemma wait_loop_udp {R} np (check : stack E H -> stack E H * option R) start timeout :
  (forall st st', np st = Some st' -> P (udp st) (udp st')) -> (forall st, udp (fst (check st)) = udp st) ->
  forall fuel st, moves (wait_loop fuel np check start timeout st) st.
Proof.
  intros Hnp Hc. induction fuel as [|fuel IH]; intros st st' r Hw; cbn [wait_loop] in Hw; [by injection Hw as <- _|].
  destruct (millis st) as [st1 now] eqn:Em. apply millis_udp in Em. rewrite <-Em. destruct (negb _); [by injection Hw as <- _|].
  destruct (np st1) as [st2|] eqn:E2; [|done]. cbn [mbind option_bind] in Hw. etrans; [exact (Hnp _ _ E2)|]. rewrite <-(Hc st2).
  destruct (check st2) as [st3 [x|]]; [by injection Hw as <- _|exact (IH _ _ _ Hw)].
Qed.

Lemma wait_udp {R} np (check : stack E H -> stack E H * option R) timeout st :
  (forall st st', np st = Some st' -> P (udp st) (udp st')) -> (forall st, udp (fst (check st)) = udp st) -> moves (wait np check timeout st) st.
Proof.
  intros Hnp Hc st' r. unfold wait. destruct (millis st) as [st1 start] eqn:Em. apply millis_udp in Em. rewrite <-Em. by apply wait_loop_udp.
Qed.

Lemma net_resolve_mac_udp st ip : moves (net_resolve_mac st ip) st.
Proof.
  unfold net_resolve_mac, resolve_mac. generalize (net_next_hop st ip). intros hop st' r. destruct (arp_cache_lookup st hop) as [st1 [mac|]] eqn:E1;
    apply arp_cache_lookup_udp in E1; rewrite <-E1; [by intros [= <- _]|]. clear E1 st. revert st1. generalize 2%nat. induction n as [|n IH]; intros st1 Hr; cbn [resolve_attempts] in Hr; [by injection Hr as <- _|].
  destruct (wait _ _ _ _) as [[st3 r3]|] eqn:E3; [|done]. cbn [mbind option_bind] in Hr.
  apply wait_udp in E3; [|apply poll_udp|intros s; destruct (arp_cache_lookup s hop) eqn:El; by apply arp_cache_lookup_udp in El].
  unfold send_arp_request in E3. rewrite send_udp in E3. etrans; [exact E3|]. destruct r3; [by injection Hr as <- _|by apply IH].
Qed.

Lemma net_poll_udp st st' : net_poll st = Some st' -> P (udp st) (udp st').
Proof. apply poll_udp. Qed.

Lemma net_udp_send_udp st ip sport dport data : moves (net_udp_send st ip sport dport data) st.
Proof.
  intros st' n. unfold net_udp_send. destruct (_ || _); [by intros [= <- _]|]. destruct (net_resolve_mac st ip) as [[s1 [mac|]]|] eqn:Er; cbn [mbind option_bind]; [| |done].
  - apply net_resolve_mac_udp in Er. destruct (millis s1) as [s2 now] eqn:Em. apply millis_udp in Em. intros [= Hs].
    match type of Hs with send _ ?f = _ => pose proof (send_udp s2 f) as Hu; rewrite Hs in Hu end. cbn [fst] in Hu. by rewrite Hu, Em.
  - intros [= <- _]. by apply net_resolve_mac_udp in Er.
Qed.

Lemma net_tcp_connect_udp st ip port timeout : moves (net_tcp_connect st ip port timeout) st.
Proof.
  intros st' n. unfold net_tcp_connect. cbn zeta. set (st0 := set_tcp _ st). change (udp st) with (udp st0).
  destruct (net_resolve_mac st0 ip) as [[s1 [mac|]]|] eqn:Er; cbn [mbind option_bind]; [| |done]; apply net_resolve_mac_udp in Er; [|by intros [= <- _]].
  destruct (wait _ _ _ _) as [[s3 r3]|] eqn:E3; [|done]. cbn [mbind option_bind]. apply wait_udp in E3; [|apply net_poll_udp|done].
  unfold NetApi.send_tcp in E3. rewrite send_udp in E3. intros Hr. etrans; [exact Er|]. etrans; [exact E3|]. destruct r3; by injection Hr as <- _.
Qed.

Lemma net_tcp_send_udp st data : moves (net_tcp_send st data) st.
Proof.
  intros st' n. unfold net_tcp_send. destruct (negb _); [by intros [= <- _]|]. destruct (net_resolve_mac st _) as [[s1 [mac|]]|] eqn:Er; cbn [mbind option_bind]; [| |done];
    apply net_resolve_mac_udp in Er; [|by intros [= <- _]]. cbn zeta. destruct (_ <? _); [done|]. intros [= <- _]. by rewrite send_udp.
Qed.

Lemma recv_loop_udp start timeout : forall fuel st, moves (recv_loop fuel start timeout st) st.
Proof.
  induction fuel as [|fuel IH]; intros st st' r; cbn [recv_loop]; [by intros [= <- _]|]. destruct (negb _); [by intros [= <- _]|].
  destruct (net_poll st) as [s1|] eqn:Ep; [|done]. cbn [mbind option_bind]. apply net_poll_udp in Ep. destruct (millis s1) as [s2 now] eqn:Em. apply millis_udp in Em.
  rewrite <-Em in Ep. intros Hr. etrans; [exact Ep|]. destruct (_ <=? _); [by injection Hr as <- _|]. destruct (_ =? _); [by injection Hr as <- _|by apply IH in Hr].
Qed.

Lemma net_tcp_recv_udp st max timeout : moves (net_tcp_recv st max timeout) st.
Proof.
  intros st' bs. unfold net_tcp_recv. destruct (millis st) as [s1 start] eqn:Em. apply millis_udp in Em. rewrite <-Em.
  destruct (recv_loop _ _ _ _) as [[s2 r]|] eqn:Er; [|done]. cbn [mbind option_bind]. apply recv_loop_udp in Er. destruct (negb r); [by intros [= <- _]|].
  destruct (rx_pop _ _ _ _). by intros [= <- _].
Qed.

Lemma net_tcp_close_udp st st' : net_tcp_close st = Some st' -> P (udp st) (udp st').
Proof.
  unfold net_tcp_close. destruct (_ =? _); cbn [mbind option_bind]; [|by intros [= <-]].
  destruct (net_resolve_mac st _) as [[s1 r]|] eqn:Er; [|done]. cbn [mbind option_bind]. intros [= <-]. apply net_resolve_mac_udp in Er. cbn [udp set_tcp]. by rewrite send_udp.
Qed.
End Calls.
