(* ===== verification/Socket.v ===== *)
(** Internet sockets: [kernel/socket.c], over the network stack.

    The table is what the registered UDP handler changes, so the state of every call is the
    stack with the table as its handler's state: a datagram may arrive in the middle of any
    call that polls.  A null buffer is [None]. *)
From S2P Require Import Prelude Net NetApi.

Definition SOCKET_MAX : Z := 8.
Definition KESH_SOCKET_TCP : Z := 1.
Definition KESH_SOCKET_UDP : Z := 2.
Definition SOCKET_POLL_READ : Z := 1.
Definition SOCKET_POLL_WRITE : Z := 2.
Definition SOCKET_POLL_HANGUP : Z := 4.

Record socket := Socket {
  owner_pid : Z; s_open : bool; connected : bool; protocol : Z; udp_ready : bool; local_port : Z; remote_port : Z;
  udp_length : Z; remote_address : Z; udp_source_address : Z; udp_source_port : Z; udp_data : list Z
}.

Record sockets := Sockets { g_sockets : list socket; g_connected_handle : Z }.

Definition closed_socket : socket := Socket (-1) false false 0 false 0 0 0 0 0 0 (replicate 2048 0).

(** [g_sockets[i]]. *)
Definition sock (s : sockets) (i : Z) : socket := at_z closed_socket (g_sockets s) i.
Definition set_sock (i : Z) (k : socket) (s : sockets) : sockets := Sockets (<[Z.to_nat i := k]> (g_sockets s)) (g_connected_handle s).

(** ** Delivery *)

Definition accepts (k : socket) (source_ip source_port destination_port : Z) : bool :=
  s_open k && (protocol k =? KESH_SOCKET_UDP) && (local_port k =? destination_port) &&
  negb (connected k && (negb (remote_address k =? source_ip) || negb (remote_port k =? source_port))).

Definition deliver (k : socket) (source_ip source_port : Z) (data : list Z) : socket :=
  let data := take 2048 data in
  Socket (owner_pid k) (s_open k) (connected k) (protocol k) true (local_port k) (remote_port k) (Z.of_nat (length data)) (remote_address k)
    source_ip source_port (data ++ drop (length data) (udp_data k)).

(** The first socket that accepts the datagram gets it. *)
Fixpoint input_loop (ks : list socket) (source_ip source_port destination_port : Z) (data : list Z) : list socket :=
  match ks with
  | [] => []
  | k :: ks =>
      if accepts k source_ip source_port destination_port then deliver k source_ip source_port data :: ks
      else k :: input_loop ks source_ip source_port destination_port data
  end.

Definition socket_udp_input (s : sockets) (source_ip source_port destination_port : Z) (data : list Z) : sockets :=
  Sockets (input_loop (g_sockets s) source_ip source_port destination_port data) (g_connected_handle s).

#[export] Instance socket_handler : UdpHandler sockets := { udp_input := socket_udp_input }.

(** ** Calls *)

Section Calls.
Context {E : Type} `{ND : NetDev E}.
Implicit Types st : stack E sockets.

(** Change a socket in the current table. *)
Definition upd (i : Z) (f : socket -> socket) st : stack E sockets := set_udp (set_sock i (f (sock (udp st) i)) (udp st)) st.

Definition reset_socket (k : socket) : socket :=
  Socket (-1) false false (protocol k) false (local_port k) (remote_port k) (udp_length k) (remote_address k) (udp_source_address k)
    (udp_source_port k) (udp_data k).

Definition socket_init st : stack E sockets :=
  net_udp_set_handler true (set_udp (Sockets (map reset_socket (g_sockets (udp st))) (-1)) st).

Definition owned st (pid handle : Z) : bool :=
  (0 <=? handle) && (handle <? SOCKET_MAX) && s_open (sock (udp st) handle) && (owner_pid (sock (udp st) handle) =? pid).

Definition open_as (pid proto : Z) (k : socket) : socket :=
  Socket pid true false (u8 proto) false 0 (remote_port k) (udp_length k) (remote_address k) (udp_source_address k) (udp_source_port k) (udp_data k).

Definition socket_open st (pid proto : Z) : stack E sockets * Z :=
  if (pid <? 0) || (negb (proto =? KESH_SOCKET_TCP) && negb (proto =? KESH_SOCKET_UDP)) then (st, -1)
  else
    match find_z (fun i => negb (s_open (sock (udp st) i))) 0 (Z.to_nat SOCKET_MAX) with
    | Some i => (upd i (open_as pid proto) st, i)
    | None => (st, -1)
    end.

Definition set_port (port : Z) (k : socket) : socket :=
  Socket (owner_pid k) (s_open k) (connected k) (protocol k) (udp_ready k) port (remote_port k) (udp_length k) (remote_address k)
    (udp_source_address k) (udp_source_port k) (udp_data k).
Definition set_remote (address port : Z) (k : socket) : socket :=
  Socket (owner_pid k) (s_open k) true (protocol k) (udp_ready k) (local_port k) port (udp_length k) address
    (udp_source_address k) (udp_source_port k) (udp_data k).
Definition set_connected (k : socket) : socket :=
  Socket (owner_pid k) (s_open k) true (protocol k) (udp_ready k) (local_port k) (remote_port k) (udp_length k) (remote_address k)
    (udp_source_address k) (udp_source_port k) (udp_data k).
Definition taken (k : socket) : socket :=
  Socket (owner_pid k) (s_open k) (connected k) (protocol k) false (local_port k) (remote_port k) (udp_length k) (remote_address k)
    (udp_source_address k) (udp_source_port k) (udp_data k).
Definition closed (k : socket) : socket :=
  Socket (-1) false false (protocol k) (udp_ready k) (local_port k) (remote_port k) (udp_length k) (remote_address k)
    (udp_source_address k) (udp_source_port k) (udp_data k).
Definition set_connected_handle (h : Z) st : stack E sockets := set_udp (Sockets (g_sockets (udp st)) h) st.

(** A UDP socket without a port gets the one that belongs to its handle. *)
Definition auto_port (handle : Z) st : stack E sockets :=
  if local_port (sock (udp st) handle) =? 0 then upd handle (set_port (u16 (49152 + handle))) st else st.

Definition socket_connect st (pid handle address port : Z) : option (stack E sockets * Z) :=
  if negb (owned st pid handle) || (address =? 0) || (port =? 0) then Some (st, -1)
  else if protocol (sock (udp st) handle) =? KESH_SOCKET_UDP then
    Some (upd handle (set_remote address port) (auto_port handle st), 0)
  else
    let g := g_connected_handle (udp st) in
    if (0 <=? g) && negb (g =? handle) then Some (st, -1)
    else
      '(st, r) ← net_tcp_connect st address port 5000;
      if negb (r =? 0) then Some (st, -1)
      else Some (set_connected_handle handle (upd handle set_connected st), 0).

Definition socket_bind st (pid handle address port : Z) : stack E sockets * Z :=
  if negb (owned st pid handle) || negb (protocol (sock (udp st) handle) =? KESH_SOCKET_UDP) || (port =? 0) then (st, -1)
  else if negb (address =? 0) && negb (address =? net_get_my_ip st) then (st, -1)
  else
    let taken i := let k := sock (udp st) i in
      negb (i =? handle) && s_open k && (protocol k =? KESH_SOCKET_UDP) && (local_port k =? port) in
    match find_z taken 0 (Z.to_nat SOCKET_MAX) with
    | Some _ => (st, -1)
    | None => (upd handle (set_port port) st, 0)
    end.

Definition no_data (data : option (list Z)) : bool := match data with None | Some [] => true | Some _ => false end.

Definition socket_send_to st (pid handle address port : Z) (data : option (list Z)) : option (stack E sockets * Z) :=
  if negb (owned st pid handle) || negb (protocol (sock (udp st) handle) =? KESH_SOCKET_UDP) || (address =? 0) || (port =? 0) || no_data data
  then Some (st, -1)
  else
    let st := auto_port handle st in
    net_udp_send st address (local_port (sock (udp st) handle)) port (default [] data).

(** Wait until the socket has a datagram; [false]: the time is up. *)
Fixpoint ready_loop (fuel : nat) (handle start timeout_ms : Z) st : option (stack E sockets * bool) :=
  if udp_ready (sock (udp st) handle) then Some (st, true)
  else
    match fuel with
    | O => Some (st, false)
    | S fuel =>
        st ← net_poll st;
        let '(st, now) := millis st in
        if timeout_ms <=? u64 (now - start) then Some (st, false) else ready_loop fuel handle start timeout_ms st
    end.

(** The bytes with their source; [length] is the size of the buffer, [buffer] that there is one. *)
Definition socket_recv_from st (pid handle : Z) (buffer : bool) (length timeout_ms : Z) : option (stack E sockets * Z * option (Z * Z * list Z)) :=
  let k := sock (udp st) handle in
  if negb (owned st pid handle) || negb (protocol k =? KESH_SOCKET_UDP) || (local_port k =? 0) || negb buffer || (length =? 0) then Some (st, -1, None)
  else
    let '(st, start) := millis st in
    '(st, ready) ← ready_loop (wait_fuel timeout_ms) handle start timeout_ms st;
    if negb ready then Some (st, 0, None)
    else
      let k := sock (udp st) handle in
      let count := if udp_length k <? length then udp_length k else length in
      Some (upd handle taken st, count, Some (udp_source_address k, udp_source_port k, take (Z.to_nat count) (udp_data k))).

Definition socket_send st (pid handle : Z) (data : option (list Z)) : option (stack E sockets * Z) :=
  let k := sock (udp st) handle in
  if negb (owned st pid handle) || negb (connected k) || no_data data then Some (st, -1)
  else if protocol k =? KESH_SOCKET_UDP then net_udp_send st (remote_address k) (local_port k) (remote_port k) (default [] data)
  else net_tcp_send st (default [] data).

Definition socket_recv st (pid handle : Z) (buffer : bool) (length timeout_ms : Z) : option (stack E sockets * Z * list Z) :=
  let k := sock (udp st) handle in
  if negb (owned st pid handle) || negb (connected k) || negb buffer || (length =? 0) then Some (st, -1, [])
  else if protocol k =? KESH_SOCKET_TCP then
    '(st, bs) ← net_tcp_recv st length timeout_ms; Some (st, Z.of_nat (Datatypes.length bs), bs)
  else
    '(st, n, r) ← socket_recv_from st pid handle buffer length timeout_ms;
    Some (st, n, match r with Some (_, _, bs) => bs | None => [] end).

Definition socket_poll st (pid handle events : Z) : option (stack E sockets * Z) :=
  if has events (u32 (Z.lnot 7)) then Some (st, -1)
  else if negb (owned st pid handle) then Some (st, -1)
  else
    st ← net_poll st;
    let k := sock (udp st) handle in
    let flag b f := if b : bool then f else 0 in
    let ready :=
      if protocol k =? KESH_SOCKET_UDP then Z.lor (flag (udp_ready k) SOCKET_POLL_READ) SOCKET_POLL_WRITE
      else Z.lor (Z.lor (flag (0 <? net_tcp_available st) SOCKET_POLL_READ) (flag (net_tcp_is_connected st) SOCKET_POLL_WRITE))
             (flag (connected k && negb (net_tcp_is_connected st)) SOCKET_POLL_HANGUP) in
    Some (st, Z.land ready events).

Definition socket_close st (pid handle : Z) : option (stack E sockets * Z) :=
  if negb (owned st pid handle) then Some (st, -1)
  else
    let k := sock (udp st) handle in
    st ← (if (protocol k =? KESH_SOCKET_TCP) && connected k && (g_connected_handle (udp st) =? handle)
          then st ← net_tcp_close st; Some (set_connected_handle (-1) st) else Some st);
    Some (upd handle closed st, 0).

Fixpoint close_owner_loop (n : nat) (i pid : Z) st : option (stack E sockets) :=
  match n with
  | O => Some st
  | S n =>
      let k := sock (udp st) i in
      st ← (if s_open k && (owner_pid k =? pid) then '(st, _) ← socket_close st pid i; Some st else Some st);
      close_owner_loop n (i + 1) pid st
  end.

Definition socket_close_owner st (pid : Z) : option (stack E sockets) := close_owner_loop (Z.to_nat SOCKET_MAX) 0 pid st.
End Calls.
