(* ===== verification/SocketSpec.v ===== *)
(** Sockets of different owners do not disturb each other, at most one socket holds the TCP
    connection, and a datagram reaches the first socket that accepts it. *)
From S2P Require Import Prelude Net NetCheck NetApi NetSafe NetTalk NetHandler Socket.

(** ** Deliveries *)

(** A socket before and after datagrams: only an open UDP socket changes, and only in the
    datagram it holds. *)
Definition same_socket (k k' : socket) : Prop :=
  owner_pid k' = owner_pid k /\ s_open k' = s_open k /\ connected k' = connected k /\ protocol k' = protocol k /\
  local_port k' = local_port k /\ remote_port k' = remote_port k /\ remote_address k' = remote_address k /\
  (k' = k \/ s_open k = true /\ protocol k = KESH_SOCKET_UDP).

Definition same_sockets (s s' : sockets) : Prop :=
  g_connected_handle s' = g_connected_handle s /\ Forall2 same_socket (g_sockets s) (g_sockets s').

#[export] Instance same_socket_preorder : PreOrder same_socket.
Proof.
  split; [intros k; unfold same_socket; split_and!; try done; by left|].
  intros k1 k2 k3 (A1 & A2 & A3 & A4 & A5 & A6 & A7 & A8) (B1 & B2 & B3 & B4 & B5 & B6 & B7 & B8). unfold same_socket.
  split_and!; try congruence. destruct B8 as [->|[B8 B9]]; [done|]. right. split; congruence.
Qed.

#[export] Instance same_sockets_preorder : PreOrder same_sockets.
Proof.
  split; [intros s; split; [done|reflexivity]|]. intros s1 s2 s3 [A1 A2] [B1 B2]. split; [congruence|by etrans].
Qed.

Lemma input_loop_same ip sport dport data : forall ks, Forall2 same_socket ks (input_loop ks ip sport dport data).
Proof.
  induction ks as [|k ks IH]; cbn [input_loop]; [constructor|]. destruct (accepts k ip sport dport) eqn:Ea; (constructor; [|(reflexivity || exact IH)]); [|reflexivity].
  unfold accepts in Ea. apply andb_true_iff in Ea as [[[Ea1 Ea2]%andb_true_iff _]%andb_true_iff _]. apply Z.eqb_eq in Ea2.
  unfold same_socket, deliver. cbn. split_and!; try done. by right.
Qed.

Lemma input_same s ip sport dport data : same_sockets s (udp_input s ip sport dport data).
Proof. split; [done|]. apply input_loop_same. Qed.

(** The first socket that accepts a datagram gets it, the others stay as they are. *)
Lemma input_loop_first ip sport dport data k ks2 : forall ks1,
  Forall (fun k => accepts k ip sport dport = false) ks1 -> accepts k ip sport dport = true ->
  input_loop (ks1 ++ k :: ks2) ip sport dport data = ks1 ++ deliver k ip sport data :: ks2.
Proof.
  intros ks1 Hf Hk. induction Hf as [|k1 ks1 H1 Hf IH]; cbn [app input_loop]; [by rewrite Hk|]. by rewrite H1, IH.
Qed.

(** ** The table *)

Definition sockets_wf (s : sockets) : Prop := Z.of_nat (length (g_sockets s)) = SOCKET_MAX.

Lemma sock_set i j k s : sockets_wf s -> 0 <= i < SOCKET_MAX -> 0 <= j -> sock (set_sock i k s) j = if j =? i then k else sock s j.
Proof. intros Hw Hi Hj. unfold sock, set_sock. cbn. apply at_z_insert; [by rewrite Hw|done]. Qed.

Lemma set_sock_wf i k s : sockets_wf s -> sockets_wf (set_sock i k s).
Proof. unfold sockets_wf, set_sock. cbn. by rewrite length_insert. Qed.

Lemma same_sockets_wf s s' : same_sockets s s' -> sockets_wf s -> sockets_wf s'.
Proof. unfold sockets_wf. intros [_ Hs]. by rewrite (Forall2_length _ _ _ Hs). Qed.

Lemma same_sockets_at s s' i : same_sockets s s' -> same_socket (sock s i) (sock s' i).
Proof.
  intros [_ Hs]. unfold sock, at_z. generalize (Z.to_nat i). induction Hs as [|k k' ks ks' Hk Hs IH]; intros [|n]; cbn; (done || reflexivity).
Qed.

(** ** One TCP connection *)

(** The socket that holds the connection of the network stack is the only TCP socket that is
    connected. *)
Definition tcp_exclusive (s : sockets) : Prop :=
  sockets_wf s /\ -1 <= g_connected_handle s < SOCKET_MAX /\
  forall i, 0 <= i < SOCKET_MAX -> s_open (sock s i) = true -> protocol (sock s i) = KESH_SOCKET_TCP ->
    connected (sock s i) = true -> i = g_connected_handle s.

Lemma tcp_exclusive_same s s' : same_sockets s s' -> tcp_exclusive s -> tcp_exclusive s'.
Proof.
  intros Hs (Hw & Hg & Hx). split; [by eapply same_sockets_wf|]. rewrite (proj1 Hs). split; [done|].
  intros i Hi Ho Hp Hc. destruct (same_sockets_at _ _ i Hs) as (_ & B2 & B3 & B4 & _). apply Hx; congruence.
Qed.

(** A change of one socket that does not connect it. *)
Lemma tcp_exclusive_set s i k : tcp_exclusive s -> 0 <= i < SOCKET_MAX ->
  (s_open k = true -> protocol k = KESH_SOCKET_TCP -> connected k = true -> i = g_connected_handle s) -> tcp_exclusive (set_sock i k s).
Proof.
  intros (Hw & Hg & Hx) Hi Hk. split; [by apply set_sock_wf|]. split; [done|]. intros j Hj. rewrite sock_set by (done || lia). cbn [g_connected_handle set_sock].
  destruct (Z.eqb_spec j i) as [->|]; [done|by apply Hx].
Qed.

(** What a call of process [pid] may do to the table: sockets of other owners only take
    datagrams. *)
Definition spares_others (pid : Z) (s s' : sockets) : Prop :=
  forall i, 0 <= i < SOCKET_MAX -> s_open (sock s i) = true -> owner_pid (sock s i) <> pid -> same_socket (sock s i) (sock s' i).

Definition effect (pid : Z) (s s' : sockets) : Prop := tcp_exclusive s -> tcp_exclusive s' /\ spares_others pid s s'.

#[export] Instance effect_preorder pid : PreOrder (effect pid).
Proof.
  split; [intros s Hs; split; [done|by intros i _ _ _]|]. intros s1 s2 s3 E1 E2 H1. destruct (E1 H1) as [H2 S1], (E2 H2) as [H3 S2]. split; [done|].
  intros i Hi Ho Hp. specialize (S1 i Hi Ho Hp). etrans; [exact S1|]. destruct S1 as (B1 & B2 & _). apply S2; congruence.
Qed.

Lemma effect_same pid s s' : same_sockets s s' -> effect pid s s'.
Proof. intros Hs Hx. split; [by eapply tcp_exclusive_same|]. intros i _ _ _. by apply same_sockets_at. Qed.

(** A change of a socket that is free or belongs to the caller. *)
Lemma effect_set pid s i k : 0 <= i < SOCKET_MAX -> s_open (sock s i) = false \/ owner_pid (sock s i) = pid ->
  (s_open k = true -> protocol k = KESH_SOCKET_TCP -> connected k = true -> i = g_connected_handle s) -> effect pid s (set_sock i k s).
Proof.
  intros Hi Hown Hk Hx. split; [by apply tcp_exclusive_set|]. intros j Hj Ho Hp. rewrite sock_set by (apply Hx || lia).
  destruct (Z.eqb_spec j i) as [->|]; [|reflexivity]. destruct Hown; congruence.
Qed.

Section Calls.
Context {E : Type} `{NL : NetLaws E}.
Implicit Types st : stack E sockets.

Lemma owned_spec st pid h : owned st pid h = true <->
  0 <= h < SOCKET_MAX /\ s_open (sock (udp st) h) = true /\ owner_pid (sock (udp st) h) = pid.
Proof. unfold owned. rewrite !andb_true_iff, Z.leb_le, Z.ltb_lt, Z.eqb_eq. tauto. Qed.

Lemma owned_same st st' pid h : same_sockets (udp st) (udp st') -> owned st pid h = true -> owned st' pid h = true.
Proof. rewrite !owned_spec. intros Hs (H1 & H2 & H3). destruct (same_sockets_at _ _ h Hs) as (B1 & B2 & _). split; [done|]. split; congruence. Qed.

Lemma upd_effect pid h f st : owned st pid h = true -> connected (f (sock (udp st) h)) = connected (sock (udp st) h) \/ protocol (f (sock (udp st) h)) <> KESH_SOCKET_TCP ->
  (s_open (f (sock (udp st) h)) = true -> s_open (sock (udp st) h) = true) -> protocol (f (sock (udp st) h)) = protocol (sock (udp st) h) ->
  effect pid (udp st) (udp (upd h f st)).
Proof.
  intros (Hh & Ho & Hp)%owned_spec Hc Hop Hpr Hx. apply (effect_set pid (udp st) h (f (sock (udp st) h))); [done|by right| |done].
  intros H1 H2 H3. apply Hx; [done|by apply Hop|congruence|]. destruct Hc as [Hc|Hc]; congruence.
Qed.

Lemma auto_port_effect pid h st : owned st pid h = true -> effect pid (udp st) (udp (auto_port h st)).
Proof. intros Ho. unfold auto_port. destruct (_ =? 0); [|reflexivity]. apply upd_effect; try done. by left. Qed.

Lemma owned_auto_port st pid h : sockets_wf (udp st) -> owned st pid h = true -> owned (auto_port h st) pid h = true /\
  protocol (sock (udp (auto_port h st)) h) = protocol (sock (udp st) h).
Proof.
  intros Hw Ho. pose proof Ho as (Hh & Ho' & Hp)%owned_spec. unfold auto_port. destruct (_ =? 0); [|done]. rewrite owned_spec. unfold upd. cbn [udp set_udp].
  rewrite sock_set, Z.eqb_refl by (done || lia). cbn. done.
Qed.

(** The calls of a process. *)
Inductive socket_call (pid : Z) (st : stack E sockets) : stack E sockets -> Prop :=
| call_open proto : socket_call pid st (fst (socket_open st pid proto))
| call_connect h address port st' n : socket_connect st pid h address port = Some (st', n) -> socket_call pid st st'
| call_bind h address port : socket_call pid st (fst (socket_bind st pid h address port))
| call_send_to h address port data st' n : socket_send_to st pid h address port data = Some (st', n) -> socket_call pid st st'
| call_recv_from h buffer length timeout st' n r : socket_recv_from st pid h buffer length timeout = Some (st', n, r) -> socket_call pid st st'
| call_send h data st' n : socket_send st pid h data = Some (st', n) -> socket_call pid st st'
| call_recv h buffer length timeout st' n bs : socket_recv st pid h buffer length timeout = Some (st', n, bs) -> socket_call pid st st'
| call_poll h events st' n : socket_poll st pid h events = Some (st', n) -> socket_call pid st st'
| call_close h st' n : socket_close st pid h = Some (st', n) -> socket_call pid st st'
| call_close_owner st' : socket_close_owner st pid = Some st' -> socket_call pid st st'.

Lemma open_effect pid proto st : effect pid (udp st) (udp (fst (socket_open st pid proto))).
Proof.
  unfold socket_open. destruct (_ || _); [reflexivity|]. destruct (find_z _ _ _) as [i|] eqn:Ef; [|reflexivity].
  apply find_z_Some in Ef as (Hi & Ho & _). apply negb_true_iff in Ho. apply effect_set; [done|by left|done].
Qed.

Lemma connect_effect pid h address port st st' n : socket_connect st pid h address port = Some (st', n) -> effect pid (udp st) (udp st').
Proof.
  unfold socket_connect. destruct (owned st pid h) eqn:Ho; cbn [negb orb]; [|by intros [= <- _]]. destruct (_ || _); [by intros [= <- _]|].
  destruct (Z.eqb_spec (protocol (sock (udp st) h)) KESH_SOCKET_UDP) as [Hp|Hp].
  - intros [= <- _] Hx. destruct (owned_auto_port st pid h (proj1 Hx) Ho) as [Ho' Hp'].
    revert Hx. change (effect pid (udp st) (udp (upd h (set_remote address port) (auto_port h st)))). etrans; [by apply auto_port_effect|].
    apply upd_effect; try done. right. cbn. rewrite Hp', Hp. done.
  - cbn zeta. destruct ((0 <=? _) && _) eqn:Hg; [by intros [= <- _]|]. destruct (net_tcp_connect st address port 5000) as [[s1 r]|] eqn:Ec; [|done].
    cbn [mbind option_bind]. apply (net_tcp_connect_udp same_sockets input_same) in Ec. split_if En; [intros [= <- _]; by apply effect_same|].
    intros [= <- _] Hx. pose proof (owned_same _ _ _ _ Ec Ho) as (Hh & Ho1 & Hp1)%owned_spec. destruct (effect_same pid _ _ Ec Hx) as [(Hw & Hr & Hx1) S1].
    assert (Hg1 : g_connected_handle (udp s1) = -1 \/ g_connected_handle (udp s1) = h).
    { rewrite (proj1 Ec). destruct Hx as (_ & Hr0 & _). destruct (Z.leb_spec 0 (g_connected_handle (udp st))); cbn [andb] in Hg; [|left; lia].
      right. apply negb_false_iff, Z.eqb_eq in Hg. done. }
    assert (Hat : forall i, 0 <= i -> sock (udp (set_connected_handle h (upd h set_connected s1))) i = if i =? h then set_connected (sock (udp s1) h) else sock (udp s1) i).
    { intros i Hi. change (sock (udp (set_connected_handle h (upd h set_connected s1))) i) with (sock (set_sock h (set_connected (sock (udp s1) h)) (udp s1)) i). by apply sock_set. }
    split; [split; [by apply set_sock_wf|]; split; [cbn; lia|]|].
    + intros i Hi. rewrite Hat by lia. cbn [g_connected_handle set_connected_handle udp set_udp]. destruct (Z.eqb_spec i h) as [->|Hne]; [done|].
      intros O1 O2 O3. specialize (Hx1 i Hi O1 O2 O3). lia.
    + intros i Hi O1 O2. rewrite Hat by lia. specialize (S1 i Hi O1 O2). destruct (Z.eqb_spec i h) as [->|Hne]; [|done].
      destruct S1 as (B1 & _). congruence.
Qed.

Lemma bind_effect pid h address port st : effect pid (udp st) (udp (fst (socket_bind st pid h address port))).
Proof.
  unfold socket_bind. destruct (owned st pid h) eqn:Ho; cbn [negb orb]; [|reflexivity]. destruct (_ || _); [reflexivity|]. destruct (_ && _); [reflexivity|].
  cbn zeta. destruct (find_z _ _ _); [reflexivity|]. apply upd_effect; try done. by left.
Qed.

Lemma send_to_effect pid h address port data st st' n : socket_send_to st pid h address port data = Some (st', n) -> effect pid (udp st) (udp st').
Proof.
  unfold socket_send_to. destruct (owned st pid h) eqn:Ho; cbn [negb orb]; [|by intros [= <- _]]. destruct (_ || _); [by intros [= <- _]|]. cbn zeta. intros Hs.
  apply (net_udp_send_udp same_sockets input_same) in Hs. etrans; [by apply (auto_port_effect pid h)|]. by apply effect_same.
Qed.

Lemma ready_loop_udp h start timeout : forall fuel st st' r, ready_loop fuel h start timeout st = Some (st', r) ->
  same_sockets (udp st) (udp st') /\ (r = true -> udp_ready (sock (udp st') h) = true).
Proof.
  induction fuel as [|fuel IH]; intros st st' r; cbn [ready_loop]; (destruct (udp_ready (sock (udp st) h)) eqn:Hr; [by intros [= <- <-]|]); [by intros [= <- <-]|].
  destruct (net_poll st) as [s1|] eqn:Ep; [|done]. cbn [mbind option_bind]. apply (net_poll_udp same_sockets input_same) in Ep.
  destruct (millis s1) as [s2 now] eqn:Em. apply millis_udp in Em. rewrite <-Em in Ep. destruct (_ <=? _); [by intros [= <- <-]|].
  intros Hl. destruct (IH _ _ _ Hl) as [I1 I2]. split; [by etrans|done].
Qed.

Lemma recv_from_effect pid h buffer length timeout st st' n r : socket_recv_from st pid h buffer length timeout = Some (st', n, r) -> effect pid (udp st) (udp st').
Proof.
  unfold socket_recv_from. cbn zeta. destruct (owned st pid h) eqn:Ho; cbn [negb orb]; [|by intros [= <- _ _]]. destruct (_ || _); [by intros [= <- _ _]|].
  destruct (millis st) as [s1 start] eqn:Em. apply millis_udp in Em. destruct (ready_loop _ _ _ _ _) as [[s2 ok]|] eqn:El; [|done]. cbn [mbind option_bind].
  apply ready_loop_udp in El as [El _]. rewrite Em in El. destruct ok; cbn [negb]; intros [= <- _ _]; [|by apply effect_same].
  etrans; [by apply effect_same|]. apply upd_effect; try done; [by apply (owned_same st)|by left].
Qed.

Lemma send_effect pid h data st st' n : socket_send st pid h data = Some (st', n) -> effect pid (udp st) (udp st').
Proof.
  unfold socket_send. cbn zeta. destruct (_ || _); [by intros [= <- _]|]. intros Hs. apply effect_same. destruct (_ =? _).
  - by apply (net_udp_send_udp same_sockets input_same) in Hs.
  - by apply (net_tcp_send_udp same_sockets input_same) in Hs.
Qed.

Lemma recv_effect pid h buffer length timeout st st' n bs : socket_recv st pid h buffer length timeout = Some (st', n, bs) -> effect pid (udp st) (udp st').
Proof.
  unfold socket_recv. cbn zeta. destruct (_ || _); [by intros [= <- _ _]|]. destruct (_ =? _).
  - destruct (net_tcp_recv _ _ _) as [[s1 b]|] eqn:Er; [|done]. cbn [mbind option_bind]. intros [= <- _ _]. apply effect_same. by apply (net_tcp_recv_udp same_sockets input_same) in Er.
  - destruct (socket_recv_from _ _ _ _ _ _) as [[[s1 m] r]|] eqn:Er; [|done]. cbn [mbind option_bind]. intros [= <- _ _]. by apply recv_from_effect in Er.
Qed.

Lemma poll_effect pid h events st st' n : socket_poll st pid h events = Some (st', n) -> effect pid (udp st) (udp st').
Proof.
  unfold socket_poll. destruct (has _ _); [by intros [= <- _]|]. destruct (negb _); [by intros [= <- _]|].
  destruct (net_poll st) as [s1|] eqn:Ep; [|done]. cbn [mbind option_bind]. intros [= <- _]. apply effect_same. by apply (net_poll_udp same_sockets input_same) in Ep.
Qed.

Lemma close_effect pid h st st' n : socket_close st pid h = Some (st', n) -> effect pid (udp st) (udp st').
Proof.
  unfold socket_close. cbn zeta. destruct (owned st pid h) eqn:Ho; cbn [negb]; [|by intros [= <- _]]. destruct ((_ =? _) && _ && _) eqn:Hc; cbn [mbind option_bind].
  - destruct (net_tcp_close st) as [s1|] eqn:Ec; [|done]. cbn [mbind option_bind]. intros [= <- _] Hx.
    apply (net_tcp_close_udp same_sockets input_same) in Ec. pose proof (owned_same _ _ _ _ Ec Ho) as (Hh & Ho1 & Hp1)%owned_spec.
    apply andb_true_iff in Hc as [_ Hg%Z.eqb_eq]. destruct (effect_same pid _ _ Ec Hx) as [(Hw & Hr & Hx1) S1].
    assert (Hat : forall i, 0 <= i -> sock (udp (upd h closed (set_connected_handle (-1) s1))) i = if i =? h then closed (sock (udp s1) h) else sock (udp s1) i).
    { intros i Hi. change (sock (udp (upd h closed (set_connected_handle (-1) s1))) i) with (sock (set_sock h (closed (sock (udp s1) h)) (udp s1)) i). by apply sock_set. }
    split; [split; [by apply set_sock_wf|]; split; [by cbn|]|].
    + intros i Hi. rewrite Hat by lia. destruct (Z.eqb_spec i h) as [->|Hne]; [done|]. intros O1 O2 O3. specialize (Hx1 i Hi O1 O2 O3). rewrite (proj1 Ec) in Hx1. lia.
    + intros i Hi O1 O2. rewrite Hat by lia. specialize (S1 i Hi O1 O2). destruct (Z.eqb_spec i h) as [->|Hne]; [|done]. destruct S1 as (B1 & _). congruence.
  - intros [= <- _]. pose proof Ho as (Hh & Ho1 & Hp1)%owned_spec. apply effect_set; [done|by right|done].
Qed.

Lemma close_owner_effect pid st st' : socket_close_owner st pid = Some st' -> effect pid (udp st) (udp st').
Proof.
  unfold socket_close_owner. generalize 0. generalize (Z.to_nat SOCKET_MAX). intros n. revert st. induction n as [|n IH]; intros st i; cbn [close_owner_loop]; [by intros [= <-]|].
  destruct (_ && _); cbn [mbind option_bind]; [|apply IH]. destruct (socket_close st pid i) as [[s1 m]|] eqn:Ec; [|done]. cbn [mbind option_bind].
  intros Hl. etrans; [by eapply close_effect|by eapply IH].
Qed.

Lemma socket_call_effect pid st st' : socket_call pid st st' -> effect pid (udp st) (udp st').
Proof.
  intros Hc. destruct Hc; [apply open_effect|by eapply connect_effect|apply bind_effect|by eapply send_to_effect|by eapply recv_from_effect|
    by eapply send_effect|by eapply recv_effect|by eapply poll_effect|by eapply close_effect|by eapply close_owner_effect].
Qed.
End Calls.

(** ** What the sockets promise *)

Section Promise.
Context {E : Type} `{NL : NetLaws E}.
Implicit Types st : stack E sockets.


(** Runs from the initialisation on: calls of any process, and frames. *)
Inductive socket_run (st0 : stack E sockets) : stack E sockets -> Prop :=
| run_init : socket_run st0 (socket_init st0)
| run_call pid st st' : socket_run st0 st -> socket_call pid st st' -> socket_run st0 st'
| run_poll st st' : socket_run st0 st -> net_poll st = Some st' -> socket_run st0 st'.

Lemma init_exclusive st : sockets_wf (udp st) -> tcp_exclusive (udp (socket_init st)).
Proof.
  intros Hw. split; [unfold sockets_wf in *; cbn; by rewrite length_map|]. split; [by cbn|]. intros i Hi Ho. exfalso. revert Ho.
  unfold sock, at_z. cbn. change closed_socket with (reset_socket closed_socket) at 1.
  rewrite map_nth. done.
Qed.

(** At every moment at most one socket holds the connection of the network stack, and
    only its owner can send or receive on it: whatever the processes do and whatever
    arrives, a connected TCP socket is the one the table names. *)
Theorem socket_tcp_exclusive st0 st pid pid' h h' : sockets_wf (udp st0) -> socket_run st0 st ->
  owned st pid h = true -> connected (sock (udp st) h) = true -> protocol (sock (udp st) h) = KESH_SOCKET_TCP ->
  owned st pid' h' = true -> connected (sock (udp st) h') = true -> protocol (sock (udp st) h') = KESH_SOCKET_TCP ->
  h = g_connected_handle (udp st) /\ h' = h /\ pid' = pid.
Proof.
  intros Hw Hrun. assert (Hx : tcp_exclusive (udp st)).
  { induction Hrun as [|pid0 st st' Hrun IH Hc|st st' Hrun IH Hp]; [by apply init_exclusive|by apply (socket_call_effect pid0 st st')|].
    apply (net_poll_udp same_sockets input_same) in Hp. by eapply tcp_exclusive_same. }
  destruct Hx as (_ & _ & Hx). intros (H1 & H2 & H3)%owned_spec H4 H5 (K1 & K2 & K3)%owned_spec K4 K5.
  pose proof (Hx h H1 H2 H5 H4). pose proof (Hx h' K1 K2 K5 K4). assert (h' = h) as -> by congruence. split; [done|]. split; [done|congruence].
Qed.

(** A datagram that arrives goes to the first socket that accepts it and to no other,
    and its owner then reads the sender and exactly the data, cut to the size of the buffer. *)
Theorem socket_datagram_received resolve st dst src id s d sport dport data pad ks1 k ks2 pid :
  mac_ok dst -> mac_ok src -> fits 32 s -> fits 32 d -> d = s_my_ip (cfg st) -> fits 16 sport -> fits 16 dport ->
  Z.of_nat (length data) <= 2048 -> (sport <> 67 \/ dport <> 68) -> sport <> 53 ->
  s_udp_handler st = true -> sockets_wf (udp st) -> g_sockets (udp st) = ks1 ++ k :: ks2 ->
  Forall (fun k => accepts k s sport dport = false) ks1 -> accepts k s sport dport = true -> dport <> 0 -> owner_pid k = pid ->
  let len := UDP_HEADER + Z.of_nat (length data) in
  exists st1, handle_frame resolve st (ipv4_frame dst src (IPV4_HEADER + len) id IP_PROTO_UDP s d (NetApi.udp_header sport dport len ++ data ++ pad)) = Some st1 /\
    g_sockets (udp st1) = ks1 ++ deliver k s sport data :: ks2 /\
    forall size timeout, 0 < size ->
      exists st2, socket_recv_from st1 pid (Z.of_nat (length ks1)) true size timeout =
        Some (st2, Z.min (Z.of_nat (length data)) size, Some (s, sport, take (Z.to_nat size) data)) /\
        udp_ready (sock (udp st2) (Z.of_nat (length ks1))) = false.
Proof.
  intros Hdst Hsrc Hs Hd Hip Hsp Hdp Hlen Hports Hdns Hh Hw Hks Hno Hk Hd0 Hpid len.
  eexists. split; [|split].
  - unfold len. rewrite (udp_received resolve st dst src id s d sport dport data pad) by (done || lia || by left).
    rewrite (proj2 (Z.eqb_neq sport 53) Hdns). assert ((sport =? 67) && (dport =? 68) = false) as -> by (destruct (Z.eqb_spec sport 67), (Z.eqb_spec dport 68); (done || lia)).
    cbn [mbind option_bind]. rewrite Hh. reflexivity.
  - cbn. by rewrite Hks, input_loop_first.
  - intros size timeout Hsize. set (h := Z.of_nat (length ks1)). set (st1 := set_udp _ st).
    assert (Hd1 : sock (udp st1) h = deliver k s sport data).
    { unfold st1, sock, at_z, h. cbn. by rewrite Hks, input_loop_first, Nat2Z.id, nth_middle. }
    assert (Hh8 : 0 <= h < SOCKET_MAX) by (unfold sockets_wf in Hw; rewrite Hks, length_app in Hw; cbn [length] in Hw; unfold h; lia).
    assert (Hw1 : sockets_wf (udp st1)) by (by apply (same_sockets_wf (udp st)); [apply input_same|]).
    unfold accepts in Hk. apply andb_true_iff in Hk as [[[Hk1 Hk2%Z.eqb_eq]%andb_true_iff Hk3%Z.eqb_eq]%andb_true_iff _].
    assert (Ho : owned st1 pid h = true) by (apply owned_spec; by rewrite Hd1).
    unfold socket_recv_from. cbn zeta. rewrite Ho, Hd1. cbn [deliver protocol local_port negb]. rewrite Hk2, Hk3, Z.eqb_refl.
    rewrite (proj2 (Z.eqb_neq dport 0)), (proj2 (Z.eqb_neq size 0)) by lia. cbn [negb orb].
    destruct (millis st1) as [st1' start] eqn:Em. apply millis_udp in Em.
    assert (Hr : forall fuel, ready_loop (S fuel) h start timeout st1' = Some (st1', true)) by (intros fuel; cbn [ready_loop]; by rewrite Em, Hd1).
    unfold wait_fuel. rewrite Hr. cbn [mbind option_bind negb]. rewrite Em, Hd1. cbn [deliver udp_length udp_source_address udp_source_port udp_data].
    rewrite (take_ge data 2048) by lia. eexists. split.
    + f_equal. f_equal; [f_equal; destruct (Z.ltb_spec (Z.of_nat (length data)) size); lia|]. f_equal. f_equal.
      destruct (Z.ltb_spec (Z.of_nat (length data)) size).
      * rewrite Nat2Z.id, take_app_length, take_ge by lia. done.
      * rewrite take_app_le by lia. done.
    + unfold upd. cbn [udp set_udp]. by rewrite sock_set, Z.eqb_refl by (lia || by rewrite Em).
Qed.
End Promise.

(** ** The properties at work *)

Definition demo_mac : list Z := [2; 0; 0; 0; 0; 1].
Definition peer_mac : list Z := [2; 0; 0; 0; 0; 2].
Definition demo_ip : Z := net_make_ip 10 0 2 15.
Definition peer_ip : Z := net_make_ip 10 0 2 16.

(** A host whose peer's address and answer to a connection request are on their way; an
    empty frame ends a poll. *)
Definition demo_wire : wire := Wire demo_mac
  [eth_header demo_mac peer_mac ETH_TYPE_ARP ++ arp_packet ARP_OP_REPLY peer_mac peer_ip demo_mac demo_ip; [];
   ipv4_frame demo_mac peer_mac 40 1 IP_PROTO_TCP peer_ip demo_ip (tcp_fields 80 45001 77 0x12345001 0x12 100 0)] [] 5.
Definition demo_host : stack wire sockets := host demo_wire (Sockets (replicate 8 closed_socket) (-1)) demo_ip.

(** Process 3 has a TCP socket, process 5 a UDP socket bound to port 2000. *)
Definition demo_init := socket_init demo_host.
Definition demo_tcp := fst (socket_open demo_init 3 KESH_SOCKET_TCP).
Definition demo_udp := fst (socket_open demo_tcp 5 KESH_SOCKET_UDP).
Definition demo_bound := fst (socket_bind demo_udp 5 1 0 2000).
Definition demo_connected := match socket_connect demo_bound 3 0 peer_ip 80 with Some (st, _) => st | None => demo_bound end.

Lemma demo_wf : sockets_wf (udp demo_host).
Proof. done. Qed.

Lemma demo_connects : socket_connect demo_bound 3 0 peer_ip 80 = Some (demo_connected, 0).
Proof. apply some_state. vm_compute. reflexivity. Qed.

Lemma demo_bound_run : socket_run demo_host demo_bound.
Proof.
  apply (run_call _ 5 demo_udp); [|apply (call_bind 5 demo_udp 1 0 2000)]. apply (run_call _ 5 demo_tcp); [|apply (call_open 5 demo_tcp KESH_SOCKET_UDP)].
  apply (run_call _ 3 demo_init); [apply run_init|apply (call_open 3 demo_init KESH_SOCKET_TCP)].
Qed.

Lemma demo_connected_run : socket_run demo_host demo_connected.
Proof. apply (run_call _ 3 demo_bound); [apply demo_bound_run|]. exact (call_connect 3 demo_bound 0 peer_ip 80 _ _ demo_connects). Qed.

Lemma demo_init_exclusive : tcp_exclusive (udp demo_init).
Proof. apply init_exclusive, demo_wf. Qed.

Lemma demo_tcp_exclusive : tcp_exclusive (udp demo_tcp).
Proof. apply (open_effect 3 KESH_SOCKET_TCP demo_init), demo_init_exclusive. Qed.


Lemma socket_tcp_exclusive_witness : socket_run demo_host demo_connected /\ 0 = g_connected_handle (udp demo_connected).
Proof.
  split; [exact demo_connected_run|].
  apply (socket_tcp_exclusive demo_host demo_connected 3 3 0 0 demo_wf demo_connected_run); vm_compute; reflexivity.
Defined.

Lemma socket_datagram_received_witness : exists st1 st2,
  socket_recv_from st1 5 1 true 2 100 = Some (st2, 2, Some (peer_ip, 1000, [7; 8])) /\ udp_ready (sock (udp st2) 1) = false.
Proof.
  destruct (socket_datagram_received net_resolve_mac demo_bound demo_mac peer_mac 1 peer_ip demo_ip 1000 2000 [7; 8; 9] [] [sock (udp demo_bound) 0]
    (sock (udp demo_bound) 1) (drop 2 (g_sockets (udp demo_bound))) 5) as (st1 & _ & _ & R);
    [by apply mac_ok_compute|by apply mac_ok_compute|by vm_compute|by vm_compute|reflexivity|by vm_compute|by vm_compute|by vm_compute|by left|done|reflexivity|reflexivity|
     reflexivity|by repeat constructor|reflexivity|done|reflexivity|].
  destruct (R 2 100 ltac:(lia)) as (st2 & R1 & R2). by exists st1, st2.
Defined.
