(* ===== verification/Ipc.v ===== *)
(** Inter-process messages: [kernel/ipc.c].

    Every process owns a queue, an array of [IPC_QUEUE_DEPTH] slots of which the
    first [count] are live; removal shifts the array down.  The specification is
    a bounded list per process: the array operations refine it, and messages
    with the same sender and type reach a receiver in the order they were sent. *)
From S2P Require Import Prelude.

Definition IPC_MAX_PROCESSES : Z := 16.
Definition IPC_QUEUE_DEPTH : Z := 16.
Definition IPC_MAX_MESSAGE_BYTES : Z := 256.

(** [data] holds the [size] bytes of the message (the rest of the C array is
    never read). *)
Record ipc_message := IpcMessage { sender : Z; mtype : Z; size : Z; data : list Z }.
Definition no_message : ipc_message := IpcMessage 0 0 0 [].

Record ipc_queue := IpcQueue { messages : list ipc_message; count : Z }.

Record ipc := Ipc { queues : list ipc_queue; last_sender : list Z }.

Definition valid_pid (pid : Z) : bool := (0 <=? pid) && (pid <? IPC_MAX_PROCESSES).

Definition queue_at (s : ipc) (pid : Z) : ipc_queue :=
  nth (Z.to_nat pid) (queues s) (IpcQueue [] 0).
Definition set_queue (pid : Z) (q : ipc_queue) (s : ipc) : ipc :=
  Ipc (<[Z.to_nat pid := q]> (queues s)) (last_sender s).
Definition set_last (pid sender : Z) (s : ipc) : ipc :=
  Ipc (queues s) (<[Z.to_nat pid := sender]> (last_sender s)).

(** [messages[i]] and [messages[i] = m] on the slot array. *)
Definition slot (q : list ipc_message) (i : nat) : ipc_message := nth i q no_message.

Definition ipc_init (s : ipc) : ipc :=
  Ipc (map (fun q => IpcQueue (messages q) 0) (queues s)) (map (fun _ => -1) (last_sender s)).

(** [for (i = index; i + 1 < count; ++i) messages[i] = messages[i + 1]] *)
Fixpoint shift_down (ms : list ipc_message) (i n : nat) : list ipc_message :=
  match n with
  | O => ms
  | S n' => shift_down (<[i := slot ms (S i)]> ms) (S i) n'
  end.

(** The search loop of [ipc_receive_typed]. *)
Definition matches (sender_filter type_filter : Z) (m : ipc_message) : bool :=
  ((sender_filter <? 0) || (sender m =? sender_filter)) &&
  ((type_filter <? 0) || (mtype m =? u16 type_filter)).

Fixpoint find_match (p : ipc_message -> bool) (ms : list ipc_message) (i n : nat) : option nat :=
  match n with
  | O => None
  | S n' => if p (slot ms i) then Some i else find_match p ms (S i) n'
  end.

(** The compaction loop of [ipc_close_owner]; [out] is the write index. *)
Fixpoint compact (pid : Z) (ms : list ipc_message) (i n out : nat) : list ipc_message * nat :=
  match n with
  | O => (ms, out)
  | S n' =>
      if sender (slot ms i) =? pid then compact pid ms (S i) n' out
      else compact pid (<[out := slot ms i]> ms) (S i) n' (S out)
  end.

Definition close_queue (pid : Z) (q : ipc_queue) : ipc_queue :=
  let '(ms, out) := compact pid (messages q) 0 (Z.to_nat (count q)) 0 in
  IpcQueue ms (Z.of_nat out).

Section Ipc.
(** [process_exists] of [process.c]. *)
Context (process_exists : Z -> bool).

Definition ipc_send_typed (s : ipc) (sender_pid target_pid type : Z) (data : option (list Z)) (size : Z)
  : ipc * Z :=
  if negb (valid_pid sender_pid) || negb (valid_pid target_pid) ||
     negb (process_exists sender_pid) || negb (process_exists target_pid) then (s, -1)
  else
    match data with
    | None => (s, -1)
    | Some bytes =>
        if (size =? 0) || (IPC_MAX_MESSAGE_BYTES <? size) then (s, -1)
        else
          let q := queue_at s target_pid in
          if count q =? IPC_QUEUE_DEPTH then (s, -1)
          else
            let m := IpcMessage sender_pid (u16 type) (u16 size) (take (Z.to_nat size) bytes) in
            (set_queue target_pid (IpcQueue (<[Z.to_nat (count q) := m]> (messages q)) (count q + 1)) s, size)
    end.

Definition ipc_send (s : ipc) (sender_pid target_pid : Z) (data : option (list Z)) (size : Z) : ipc * Z :=
  ipc_send_typed s sender_pid target_pid 0 data size.

(** The result: the return value and, for a delivered message, the bytes
    copied out with the sender and type reported. *)
Definition ipc_receive_typed (s : ipc) (receiver_pid sender_filter type_filter : Z)
    (data_null : bool) (max_size : Z) : ipc * Z * option (list Z * Z * Z) :=
  if negb (valid_pid receiver_pid) || data_null || (max_size =? 0) then (s, -1, None)
  else
    let q := queue_at s receiver_pid in
    match find_match (matches sender_filter type_filter) (messages q) 0 (Z.to_nat (count q)) with
    | None => (s, 0, None)
    | Some i =>
        let m := slot (messages q) i in
        let ms := shift_down (messages q) i (Z.to_nat (count q) - 1 - i) in
        let s := set_queue receiver_pid (IpcQueue ms (count q - 1)) s in
        let s := set_last receiver_pid (sender m) s in
        let copied := if size m <? max_size then size m else max_size in
        (s, copied, Some (take (Z.to_nat copied) (data m), sender m, mtype m))
    end.

Definition ipc_receive (s : ipc) (receiver_pid sender_filter : Z) (data_null : bool) (max_size : Z)
  : ipc * Z * option (list Z * Z * Z) :=
  ipc_receive_typed s receiver_pid sender_filter (-1) data_null max_size.
End Ipc.

Definition ipc_last_sender (s : ipc) (receiver_pid : Z) : Z :=
  if negb (valid_pid receiver_pid) then -1 else nth (Z.to_nat receiver_pid) (last_sender s) (-1).

Definition ipc_close_owner (s : ipc) (pid : Z) : ipc :=
  if negb (valid_pid pid) then s
  else
    let q := queue_at s pid in
    let s := set_last pid (-1) (set_queue pid (IpcQueue (messages q) 0) s) in
    Ipc (map (close_queue pid) (queues s)) (last_sender s).

(** ** The specification: bounded lists *)

Definition live (q : ipc_queue) : list ipc_message := take (Z.to_nat (count q)) (messages q).

(** Remove the first element satisfying [p]. *)
Fixpoint take_first (p : ipc_message -> bool) (l : list ipc_message) : option (ipc_message * list ipc_message) :=
  match l with
  | [] => None
  | m :: l' =>
      if p m then Some (m, l')
      else match take_first p l' with Some (m', r) => Some (m', m :: r) | None => None end
  end.

Definition queue_wf (q : ipc_queue) : Prop :=
  length (messages q) = Z.to_nat IPC_QUEUE_DEPTH /\ 0 <= count q <= IPC_QUEUE_DEPTH /\
  Forall (fun m => valid_pid (sender m) = true /\ 0 < size m <= IPC_MAX_MESSAGE_BYTES) (live q).

Definition ipc_wf (s : ipc) : Prop :=
  length (queues s) = Z.to_nat IPC_MAX_PROCESSES /\
  length (last_sender s) = Z.to_nat IPC_MAX_PROCESSES /\ Forall queue_wf (queues s).

(** The queue of a process as the specification sees it. *)
Definition inbox (s : ipc) (pid : Z) : list ipc_message := live (queue_at s pid).

(** ** The array loops *)

Lemma slot_lookup ms i m : ms !! i = Some m -> slot ms i = m.
Proof. intros H. unfold slot. by apply nth_lookup_Some with (d := no_message) in H. Qed.

Lemma drop_slot ms i : (i < length ms)%nat -> drop i ms = slot ms i :: drop (S i) ms.
Proof.
  intros Hi. destruct (lookup_lt_is_Some_2 ms i Hi) as [m Hm].
  rewrite (slot_lookup _ _ _ Hm). by apply drop_S.
Qed.

Lemma shift_down_lookup ms i n k :
  (i + n < length ms)%nat ->
  shift_down ms i n !! k = if decide (i <= k < i + n)%nat then ms !! S k else ms !! k.
Proof.
  revert ms i. induction n as [|n IH]; intros ms i Hl; cbn [shift_down].
  { rewrite decide_False by lia. done. }
  destruct (lookup_lt_is_Some_2 ms (S i)) as [m Hm]; [lia|].
  rewrite (slot_lookup _ _ _ Hm), IH by (rewrite length_insert; lia).
  destruct (decide (k = i)) as [->|Hne].
  - rewrite decide_False, decide_True by lia. rewrite list_lookup_insert_eq by lia. done.
  - repeat case_decide; try lia; by rewrite list_lookup_insert_ne by lia.
Qed.

Lemma shift_down_length ms i n : length (shift_down ms i n) = length ms.
Proof. revert ms i. induction n; intros ms i; cbn; [done|]. by rewrite IHn, length_insert. Qed.

(** After the shift, the live prefix lost exactly element [i]. *)
Lemma shift_down_live ms i c :
  (i < c <= length ms)%nat ->
  take (c - 1) (shift_down ms i (c - 1 - i)) = delete i (take c ms).
Proof.
  intros Hi. apply list_eq. intros k.
  destruct (decide (k < c - 1)%nat) as [Hk|Hk].
  - rewrite lookup_take_lt, shift_down_lookup by lia.
    destruct (decide (k < i)%nat).
    + rewrite decide_False by lia. rewrite list_lookup_delete_lt, lookup_take_lt by lia. done.
    + rewrite decide_True by lia. rewrite list_lookup_delete_ge, lookup_take_lt by lia. done.
  - rewrite !lookup_ge_None_2; [done| |].
    + rewrite length_delete by (apply lookup_lt_is_Some_2; rewrite length_take; lia).
      rewrite length_take. lia.
    + rewrite length_take, shift_down_length. lia.
Qed.

Lemma find_match_take_first p ms n : forall i,
  (i + n <= length ms)%nat ->
  match find_match p ms i n with
  | None => take_first p (take n (drop i ms)) = None
  | Some k => (i <= k < i + n)%nat /\
      take_first p (take n (drop i ms)) = Some (slot ms k, delete (k - i)%nat (take n (drop i ms)))
  end.
Proof.
  induction n as [|n IH]; intros i Hl; cbn [find_match]; [done|].
  rewrite drop_slot by lia. cbn [take take_first].
  destruct (p (slot ms i)) eqn:Hp; [split; [lia|by rewrite Nat.sub_diag]|].
  specialize (IH (S i) ltac:(lia)). destruct (find_match p ms (S i) n) as [k|].
  - destruct IH as [Hk ->]. split; [lia|]. by replace (k - i)%nat with (S (k - S i)) by lia.
  - by rewrite IH.
Qed.

Lemma take_first_filter_Some p l m r :
  take_first p l = Some (m, r) -> p m = true /\ exists l1 l2, l = l1 ++ m :: l2 /\ r = l1 ++ l2 /\
    Forall (fun x => p x = false) l1.
Proof.
  revert r. induction l as [|x l IH]; intros r; cbn [take_first]; [done|].
  destruct (p x) eqn:Hx.
  - intros [= <- <-]. split; [done|]. by exists [], l.
  - destruct (take_first p l) as [[m' r']|]; [|done]. intros [= <- <-].
    destruct (IH r' eq_refl) as (Hm & l1 & l2 & -> & -> & Hf). split; [done|].
    exists (x :: l1), l2. split; [done|]. split; [done|]. by constructor.
Qed.

Lemma compact_spec pid n : forall i out ms0,
  (out <= i)%nat -> (i + n <= length ms0)%nat ->
  let '(ms', out') := compact pid ms0 i n out in
  length ms' = length ms0 /\ (out <= out' <= out + n)%nat /\
  take out' ms' = take out ms0 ++ filter (fun m => sender m <> pid) (take n (drop i ms0)).
Proof.
  induction n as [|n IH]; intros i out ms0 Ho Hl; cbn [compact].
  { rewrite app_nil_r. split_and!; (done || lia). }
  rewrite drop_slot by lia. cbn [take].
  destruct (Z.eqb_spec (sender (slot ms0 i)) pid) as [He|Hne].
  - specialize (IH (S i) out ms0 ltac:(lia) ltac:(lia)).
    destruct (compact pid ms0 (S i) n out) as [ms' out']. destruct IH as (H1 & H2 & H3).
    rewrite filter_cons_False by auto. split_and!; (done || lia).
  - specialize (IH (S i) (S out) (<[out := slot ms0 i]> ms0) ltac:(lia)).
    rewrite length_insert in IH. specialize (IH ltac:(lia)).
    destruct (compact pid _ (S i) n (S out)) as [ms' out']. destruct IH as (H1 & H2 & H3).
    rewrite filter_cons_True by done. split; [done|]. split; [lia|]. rewrite H3.
    rewrite drop_insert_lt by lia.
    rewrite (take_S_r _ _ (slot ms0 i)) by (apply list_lookup_insert_eq; lia).
    rewrite take_insert_ge by lia. by rewrite <-app_assoc.
Qed.

Lemma close_queue_live pid q :
  queue_wf q ->
  queue_wf (close_queue pid q) /\
  live (close_queue pid q) = filter (fun m => sender m <> pid) (live q).
Proof.
  intros (Hl & Hc & Hf). unfold close_queue.
  pose proof (compact_spec pid (Z.to_nat (count q)) 0 0 (messages q) (le_n _) ltac:(lia)) as H.
  destruct (compact _ _ _ _ _) as [ms out]. destruct H as (H1 & H2 & H3). cbn [drop take app] in H3.
  assert (Hlive : live (IpcQueue ms (Z.of_nat out)) = filter (fun m => sender m <> pid) (live q)).
  { unfold live at 1. cbn [messages count]. by rewrite Nat2Z.id. }
  split; [|done]. split; [cbn; lia|]. split; [cbn; lia|].
  rewrite Hlive. apply Forall_forall. intros m Hm. apply list_elem_of_filter in Hm as [_ Hm].
  rewrite Forall_forall in Hf. by apply Hf.
Qed.

(** ** Operations and their specification *)

Inductive ipc_op :=
  | Send (sender_pid target_pid type : Z) (data : option (list Z)) (size : Z)
  | Receive (receiver_pid sender_filter type_filter : Z) (data_null : bool) (max_size : Z)
  | Close (pid : Z).

Definition ipc_result : Type := Z * option (list Z * Z * Z).

Definition ipc_exec (pe : Z -> bool) (s : ipc) (op : ipc_op) : ipc * ipc_result :=
  match op with
  | Send a b t d n => let '(s', rc) := ipc_send_typed pe s a b t d n in (s', (rc, None))
  | Receive r sf tf dn mx => let '(s', rc, out) := ipc_receive_typed s r sf tf dn mx in (s', (rc, out))
  | Close pid => (ipc_close_owner s pid, (0, None))
  end.

(** The specification works on one list per process. *)
Definition boxes : Type := Z -> list ipc_message.
Definition upd (p : Z) (l : list ipc_message) (b : boxes) : boxes :=
  fun q => if q =? p then l else b q.

Definition send_ok (pe : Z -> bool) (b : boxes) (a t : Z) (d : option (list Z)) (n : Z) : bool :=
  valid_pid a && valid_pid t && pe a && pe t && bool_decide (is_Some d) &&
  (0 <? n) && (n <=? IPC_MAX_MESSAGE_BYTES) && (Z.of_nat (length (b t)) <? IPC_QUEUE_DEPTH).

Definition spec_exec (pe : Z -> bool) (b : boxes) (op : ipc_op) : boxes * ipc_result :=
  match op with
  | Send a t ty d n =>
      if send_ok pe b a t d n
      then (upd t (b t ++ [IpcMessage a (u16 ty) n (take (Z.to_nat n) (default [] d))]) b, (n, None))
      else (b, (-1, None))
  | Receive r sf tf dn mx =>
      if negb (valid_pid r) || dn || (mx =? 0) then (b, (-1, None))
      else
        match take_first (matches sf tf) (b r) with
        | None => (b, (0, None))
        | Some (m, rest) =>
            let copied := Z.min (size m) mx in
            (upd r rest b, (copied, Some (take (Z.to_nat copied) (data m), sender m, mtype m)))
        end
  | Close pid =>
      if valid_pid pid
      then (fun p => if p =? pid then [] else filter (fun m => sender m <> pid) (b p), (0, None))
      else (b, (0, None))
  end.

(** The implementation's queues agree with the lists of the specification. *)
Definition agrees (s : ipc) (b : boxes) : Prop :=
  forall p, valid_pid p = true -> inbox s p = b p.

Definition op_ok (op : ipc_op) : Prop :=
  match op with Send _ _ _ _ n => 0 <= n < 2 ^ 32 | _ => True end.

Lemma ipc_valid_pid_iff p : valid_pid p = true <-> 0 <= p < 16.
Proof. unfold valid_pid, IPC_MAX_PROCESSES. rewrite andb_true_iff, Z.leb_le, Z.ltb_lt. done. Qed.

Lemma queue_at_wf s p : ipc_wf s -> valid_pid p = true -> queue_wf (queue_at s p).
Proof.
  intros (Hl & _ & Hf) Hp%ipc_valid_pid_iff. unfold queue_at, IPC_MAX_PROCESSES in *.
  destruct (lookup_lt_is_Some_2 (queues s) (Z.to_nat p)) as [q Hq]; [lia|].
  rewrite (nth_lookup_Some _ _ _ _ Hq). rewrite Forall_forall in Hf.
  apply Hf. by apply list_elem_of_lookup_2 in Hq.
Qed.

Lemma queue_at_set s p q p' :
  ipc_wf s -> valid_pid p = true -> valid_pid p' = true ->
  queue_at (set_queue p q s) p' = if p' =? p then q else queue_at s p'.
Proof.
  intros (Hl & _ & _) Hp%ipc_valid_pid_iff Hp'%ipc_valid_pid_iff. unfold queue_at, set_queue, IPC_MAX_PROCESSES in *.
  cbn [queues]. rewrite !nth_lookup. destruct (Z.eqb_spec p' p) as [->|Hne].
  - rewrite list_lookup_insert_eq by lia. done.
  - rewrite list_lookup_insert_ne by lia. done.
Qed.

Lemma set_queue_wf s p q : ipc_wf s -> queue_wf q -> ipc_wf (set_queue p q s).
Proof.
  intros (Hl & Hs & Hf) Hq. split; [cbn; by rewrite length_insert|]. split; [done|].
  cbn. apply Forall_insert; auto.
Qed.

Lemma set_last_wf s p x : ipc_wf s -> ipc_wf (set_last p x s).
Proof. intros (Hl & Hs & Hf). split; [done|]. split; [cbn; by rewrite length_insert|done]. Qed.

Lemma live_length q : queue_wf q -> Z.of_nat (length (live q)) = count q.
Proof. intros (Hl & Hc & _). unfold live, IPC_QUEUE_DEPTH in *. rewrite length_take. lia. Qed.

(** Appending at index [count]. *)
Lemma live_push q m :
  queue_wf q -> count q <> IPC_QUEUE_DEPTH -> valid_pid (sender m) = true ->
  0 < size m <= IPC_MAX_MESSAGE_BYTES ->
  let q' := IpcQueue (<[Z.to_nat (count q) := m]> (messages q)) (count q + 1) in
  queue_wf q' /\ live q' = live q ++ [m].
Proof.
  intros (Hl & Hc & Hf) Hne Hm Hsz q'.
  assert (Hlive : live q' = live q ++ [m]).
  { unfold live, q'. cbn [messages count].
    replace (Z.to_nat (count q + 1)) with (S (Z.to_nat (count q))) by lia.
    rewrite (take_S_r _ _ m) by (apply list_lookup_insert_eq; lia).
    by rewrite take_insert_ge by lia. }
  split; [|done]. split; [cbn; by rewrite length_insert|]. split; [cbn; lia|].
  rewrite Hlive. apply Forall_app. split; [done|]. by constructor.
Qed.

(** Removing the message found by the search. *)
Lemma live_remove q p :
  queue_wf q ->
  match find_match p (messages q) 0 (Z.to_nat (count q)) with
  | None => take_first p (live q) = None
  | Some i =>
      let q' := IpcQueue (shift_down (messages q) i (Z.to_nat (count q) - 1 - i)) (count q - 1) in
      queue_wf q' /\ take_first p (live q) = Some (slot (messages q) i, live q')
  end.
Proof.
  intros (Hl & Hc & Hf).
  pose proof (find_match_take_first p (messages q) (Z.to_nat (count q)) 0 ltac:(lia)) as H.
  destruct (find_match _ _ _ _) as [i|]; [|done]. destruct H as [Hi Ht]. cbn [drop] in Ht.
  rewrite Nat.sub_0_r in Ht. cbv zeta.
  set (q' := IpcQueue (shift_down (messages q) i (Z.to_nat (count q) - 1 - i)) (count q - 1)).
  assert (Hlive : live q' = delete i (live q)).
  { unfold live, q'. cbn [messages count].
    replace (Z.to_nat (count q - 1)) with (Z.to_nat (count q) - 1)%nat by lia.
    apply shift_down_live. lia. }
  split.
  - split; [cbn; by rewrite shift_down_length|]. split; [cbn; lia|].
    rewrite Hlive. apply Forall_delete, Hf.
  - rewrite Hlive. exact Ht.
Qed.

Lemma agrees_upd s b p q l :
  ipc_wf s -> valid_pid p = true -> agrees s b -> live q = l -> agrees (set_queue p q s) (upd p l b).
Proof.
  intros Hwf Hp Ha Hl p' Hp'. unfold inbox, upd. rewrite queue_at_set by done.
  destruct (p' =? p); [done|by apply Ha].
Qed.

Lemma send_refines pe s b a t ty d n s' rc :
  ipc_wf s -> agrees s b -> 0 <= n < 2 ^ 32 ->
  ipc_send_typed pe s a t ty d n = (s', rc) ->
  ipc_wf s' /\
  exists b', spec_exec pe b (Send a t ty d n) = (b', (rc, None)) /\ agrees s' b'.
Proof.
  intros Hwf Ha Hn. unfold ipc_send_typed. cbn [spec_exec]. unfold send_ok.
  destruct (valid_pid a) eqn:Va; cbn [negb orb andb]; [|intros [= <- <-]; eauto].
  destruct (valid_pid t) eqn:Vt; cbn [negb orb andb]; [|intros [= <- <-]; eauto].
  destruct (pe a); cbn [negb orb andb]; [|intros [= <- <-]; eauto].
  destruct (pe t); cbn [negb orb andb]; [|intros [= <- <-]; eauto].
  destruct d as [bytes|]; [|intros [= <- <-]; eauto].
  rewrite bool_decide_eq_true_2 by done. cbn [andb].
  destruct (Z.eqb_spec n 0) as [->|Hn0]; cbn [orb]; [intros [= <- <-]; eauto|].
  destruct (Z.ltb_spec IPC_MAX_MESSAGE_BYTES n), (Z.leb_spec n IPC_MAX_MESSAGE_BYTES);
    cbn [orb]; try lia; rewrite ?andb_false_r; cbn [andb]; [intros [= <- <-]; eauto|].
  destruct (Z.ltb_spec 0 n); [|lia]. cbn [andb].
  pose proof (queue_at_wf s t Hwf Vt) as Hq. rewrite <-(Ha t Vt). unfold inbox.
  rewrite (live_length _ Hq). destruct Hq as (Hql & Hqc & Hqf).
  destruct (Z.eqb_spec (count (queue_at s t)) IPC_QUEUE_DEPTH), (Z.ltb_spec (count (queue_at s t)) IPC_QUEUE_DEPTH);
    try lia; [intros [= <- <-]; eauto|].
  intros [= <- <-].
  assert (Hsz : u16 n = n) by (apply uwrap_id; unfold fits, IPC_MAX_MESSAGE_BYTES in *; lia).
  destruct (live_push (queue_at s t) (IpcMessage a (u16 ty) (u16 n) (take (Z.to_nat n) bytes))) as [Hw' Hl'];
    [by split|done|done|cbn [size]; lia|].
  split; [by apply set_queue_wf|]. eexists. split; [reflexivity|].
  apply agrees_upd; [done|done|done|]. by rewrite Hl', Hsz.
Qed.

Lemma receive_refines pe s b r sf tf dn mx s' rc out :
  ipc_wf s -> agrees s b ->
  ipc_receive_typed s r sf tf dn mx = (s', rc, out) ->
  ipc_wf s' /\
  exists b', spec_exec pe b (Receive r sf tf dn mx) = (b', (rc, out)) /\ agrees s' b'.
Proof.
  intros Hwf Ha. unfold ipc_receive_typed. cbn [spec_exec].
  destruct (valid_pid r) eqn:Vr; cbn [negb orb]; [|intros [= <- <- <-]; eauto].
  destruct (dn || (mx =? 0)); [intros [= <- <- <-]; eauto|].
  rewrite <-(Ha r Vr). unfold inbox.
  pose proof (live_remove (queue_at s r) (matches sf tf) (queue_at_wf s r Hwf Vr)) as H.
  destruct (find_match _ _ _ _) as [i|].
  - destruct H as [Hq' Ht]. intros [= <- <- <-]. split; [by apply set_last_wf, set_queue_wf|].
    rewrite Ht. set (m := slot _ i).
    assert (Hmin : (if size m <? mx then size m else mx) = Z.min (size m) mx) by (destruct (Z.ltb_spec (size m) mx); lia).
    rewrite Hmin. eexists. split; [reflexivity|]. by apply agrees_upd.
  - intros [= <- <- <-]. rewrite H. eauto.
Qed.

Lemma close_refines pe s b pid :
  ipc_wf s -> agrees s b ->
  ipc_wf (ipc_close_owner s pid) /\
  exists b', spec_exec pe b (Close pid) = (b', (0, None)) /\ agrees (ipc_close_owner s pid) b'.
Proof.
  intros Hwf Ha. unfold ipc_close_owner. cbn [spec_exec].
  destruct (valid_pid pid) eqn:Vp; cbn [negb]; [|eauto].
  set (q0 := IpcQueue (messages (queue_at s pid)) 0).
  assert (Hq0 : queue_wf q0).
  { destruct (queue_at_wf s pid Hwf Vp) as (Hl & _ & _). split; [done|]. split; [cbn; unfold IPC_QUEUE_DEPTH; lia|].
    constructor. }
  set (s1 := set_last pid (-1) (set_queue pid q0 s)).
  assert (Hwf1 : ipc_wf s1) by (by apply set_last_wf, set_queue_wf).
  assert (Hq1 : forall p, valid_pid p = true ->
    queue_at (Ipc (map (close_queue pid) (queues s1)) (last_sender s1)) p = close_queue pid (queue_at s1 p)).
  { intros p Hp. unfold queue_at at 1. cbn [queues]. rewrite (nth_indep _ _ (close_queue pid (IpcQueue [] 0))).
    - apply map_nth.
    - destruct Hwf1 as (Hl & _). rewrite length_map, Hl. apply ipc_valid_pid_iff in Hp. unfold IPC_MAX_PROCESSES. lia. }
  split.
  - destruct Hwf1 as (Hl & Hs & Hf). split; [cbn; by rewrite length_map|]. split; [done|].
    cbn [queues]. apply Forall_map. eapply Forall_impl; [exact Hf|]. intros q Hq. by apply close_queue_live.
  - eexists. split; [reflexivity|]. intros p Hp. unfold inbox. rewrite Hq1 by done.
    destruct (close_queue_live pid (queue_at s1 p) (queue_at_wf _ _ Hwf1 Hp)) as [_ ->].
    assert (E : queue_at s1 p = if p =? pid then q0 else queue_at s p).
    { unfold s1. by rewrite <-(queue_at_set s pid q0 p). }
    rewrite E. destruct (p =? pid); [done|]. unfold agrees, inbox in Ha. by rewrite (Ha p Hp).
Qed.

Lemma exec_refines pe s b op s' res :
  ipc_wf s -> agrees s b -> op_ok op -> ipc_exec pe s op = (s', res) ->
  ipc_wf s' /\ exists b', spec_exec pe b op = (b', res) /\ agrees s' b'.
Proof.
  intros Hwf Ha Hok. destruct op as [a t ty d n|r sf tf dn mx|pid]; cbn [ipc_exec op_ok] in *.
  - destruct (ipc_send_typed pe s a t ty d n) as [s1 rc] eqn:E. intros [= <- <-].
    by eapply send_refines.
  - destruct (ipc_receive_typed s r sf tf dn mx) as [[s1 rc] out] eqn:E. intros [= <- <-].
    by eapply receive_refines.
  - intros [= <- <-]. by apply close_refines.
Qed.

(** ** Histories *)

(** Run a list of operations, collecting the results. *)
Fixpoint run (pe : Z -> bool) (s : ipc) (ops : list ipc_op) : ipc * list ipc_result :=
  match ops with
  | [] => (s, [])
  | op :: ops' =>
      let '(s1, r) := ipc_exec pe s op in
      let '(s2, rs) := run pe s1 ops' in (s2, r :: rs)
  end.

Fixpoint spec_run (pe : Z -> bool) (b : boxes) (ops : list ipc_op) : boxes * list ipc_result :=
  match ops with
  | [] => (b, [])
  | op :: ops' =>
      let '(b1, r) := spec_exec pe b op in
      let '(b2, rs) := spec_run pe b1 ops' in (b2, r :: rs)
  end.

Lemma run_refines pe ops : forall s b s' rs,
  ipc_wf s -> agrees s b -> Forall op_ok ops -> run pe s ops = (s', rs) ->
  ipc_wf s' /\ exists b', spec_run pe b ops = (b', rs) /\ agrees s' b'.
Proof.
  induction ops as [|op ops IH]; intros s b s' rs Hwf Ha Hok; cbn [run spec_run].
  { intros [= <- <-]. eauto. }
  apply Forall_cons in Hok as [Hop Hok].
  destruct (ipc_exec pe s op) as [s1 r] eqn:E1. destruct (run pe s1 ops) as [s2 rs2] eqn:E2.
  intros [= <- <-]. destruct (exec_refines _ _ _ _ _ _ Hwf Ha Hop E1) as (Hwf1 & b1 & -> & Ha1).
  destruct (IH _ _ _ _ Hwf1 Ha1 Hok E2) as (Hwf2 & b2 & -> & Ha2). eauto.
Qed.

(** What was sent to, and received by, [r] with sender [a] and type [t], in order:
    the accepted payloads and the delivered ones. *)
Definition sent_in (a r t : Z) (op : ipc_op) (res : ipc_result) : list (list Z) :=
  match op with
  | Send a' r' ty d n =>
      if (a' =? a) && (r' =? r) && (u16 ty =? t) && (0 <? fst res)
      then [take (Z.to_nat n) (default [] d)] else []
  | _ => []
  end.

Definition received_in (a r t : Z) (op : ipc_op) (res : ipc_result) : list (list Z) :=
  match op, snd res with
  | Receive r' _ _ _ _, Some (bytes, a', t') =>
      if (a' =? a) && (r' =? r) && (t' =? t) then [bytes] else []
  | _, _ => []
  end.

Fixpoint history (f : ipc_op -> ipc_result -> list (list Z)) (ops : list ipc_op) (rs : list ipc_result)
  : list (list Z) :=
  match ops, rs with
  | op :: ops', r :: rs' => f op r ++ history f ops' rs'
  | _, _ => []
  end.

(** The messages of a class still queued. *)
Definition pending (a t : Z) (l : list ipc_message) : list (list Z) :=
  map data (filter (fun m => sender m = a /\ mtype m = t) l).

(** The delivered payloads are the sent ones, possibly cut to the receiver's
    buffer. *)
Definition truncates (got sent : list Z) : Prop := exists n, got = take n sent.

Definition no_close (op : ipc_op) : Prop := match op with Close _ => False | _ => True end.

Lemma pending_app a t l1 l2 : pending a t (l1 ++ l2) = pending a t l1 ++ pending a t l2.
Proof. unfold pending. by rewrite filter_app, map_app. Qed.

Lemma pending_one a t m :
  pending a t [m] = if (sender m =? a) && (mtype m =? t) then [data m] else [].
Proof.
  unfold pending. destruct (Z.eqb_spec (sender m) a), (Z.eqb_spec (mtype m) t); cbn [andb].
  - by rewrite filter_cons_True by done.
  - rewrite filter_cons_False by tauto. done.
  - rewrite filter_cons_False by tauto. done.
  - rewrite filter_cons_False by tauto. done.
Qed.

Lemma pending_none a t sf tf l m :
  Forall (fun x => matches sf tf x = false) l -> matches sf tf m = true ->
  sender m = a -> mtype m = t -> pending a t l = [].
Proof.
  intros Hl Hm <- <-. induction Hl as [|x l Hx Hl IH]; [done|].
  change (x :: l) with ([x] ++ l). rewrite pending_app, IH, pending_one, app_nil_r.
  destruct (Z.eqb_spec (sender x) (sender m)) as [E1|]; [|done].
  destruct (Z.eqb_spec (mtype x) (mtype m)) as [E2|]; [|done].
  unfold matches in *. rewrite E1, E2, Hm in Hx. done.
Qed.

Lemma spec_step_order pe b op b' res a r t :
  spec_exec pe b op = (b', res) -> no_close op ->
  exists l1, pending a t (b r) ++ sent_in a r t op res = l1 ++ pending a t (b' r) /\
    Forall2 truncates (received_in a r t op res) l1.
Proof.
  destruct op as [a' r' ty d n|r' sf tf dn mx|pid]; intros He Hnc; [| |done].
  - exists []. cbn [app received_in]. split; [|constructor].
    cbn [spec_exec sent_in] in *. destruct (send_ok pe b a' r' d n) eqn:Hok.
    + injection He as <- <-. cbn [fst]. unfold send_ok in Hok.
      assert (Hn : (0 <? n) = true) by (rewrite !andb_true_iff in Hok; tauto). rewrite Hn, andb_true_r.
      unfold upd. destruct (Z.eqb_spec r r') as [->|Hr].
      * rewrite Z.eqb_refl, andb_true_r, pending_app, pending_one. done.
      * destruct (Z.eqb_spec r' r); [congruence|]. by rewrite andb_false_r, app_nil_r.
    + injection He as <- <-. cbn [fst]. rewrite andb_false_r. by rewrite app_nil_r.
  - cbn [spec_exec sent_in received_in] in *. rewrite app_nil_r.
    destruct (_ || (mx =? 0)); [injection He as <- <-; by exists []|].
    destruct (take_first (matches sf tf) (b r')) as [[m rest]|] eqn:Ht; [|injection He as <- <-; by exists []].
    injection He as <- <-. cbn [snd].
    destruct (take_first_filter_Some _ _ _ _ Ht) as (Hm & l1 & l2 & Hb & -> & Hf).
    unfold upd. destruct (Z.eqb_spec r r') as [->|Hr].
    + rewrite Hb, Z.eqb_refl, andb_true_r. change (m :: l2) with ([m] ++ l2). rewrite !pending_app, pending_one.
      destruct (Z.eqb_spec (sender m) a) as [Ea|]; cbn [andb]; [|by exists []].
      destruct (Z.eqb_spec (mtype m) t) as [Et|]; cbn [andb]; [|by exists []].
      rewrite (pending_none a t sf tf l1 m) by done. exists [data m]. split; [done|].
      constructor; [by eexists|constructor].
    + destruct (Z.eqb_spec r' r); [congruence|]. rewrite andb_false_r. by exists [].
Qed.

Lemma spec_run_order pe a r t ops : forall b b' rs,
  spec_run pe b ops = (b', rs) -> Forall no_close ops ->
  exists l1, pending a t (b r) ++ history (sent_in a r t) ops rs = l1 ++ pending a t (b' r) /\
    Forall2 truncates (history (received_in a r t) ops rs) l1.
Proof.
  induction ops as [|op ops IH]; intros b b' rs; cbn [spec_run].
  { intros [= <- <-] _. exists []. cbn. by rewrite app_nil_r. }
  destruct (spec_exec pe b op) as [b1 x] eqn:E1. destruct (spec_run pe b1 ops) as [b2 xs] eqn:E2.
  intros [= <- <-] [Hnc Hncs]%Forall_cons. cbn [history].
  destruct (spec_step_order _ _ _ _ _ a r t E1 Hnc) as (l1 & H1 & F1).
  destruct (IH _ _ _ E2 Hncs) as (l2 & H2 & F2).
  exists (l1 ++ l2). split; [|by apply Forall2_app].
  rewrite app_assoc, H1, <-!app_assoc, H2. done.
Qed.

(** The state after [ipc_init] of the zero-initialised arrays. *)
Definition ipc_boot : ipc :=
  ipc_init (Ipc (replicate 16 (IpcQueue (replicate 16 no_message) 0)) (replicate 16 0)).

Lemma ipc_init_wf s :
  length (queues s) = 16%nat -> length (last_sender s) = 16%nat ->
  Forall (fun q => length (messages q) = 16%nat) (queues s) ->
  ipc_wf (ipc_init s) /\ agrees (ipc_init s) (fun _ => []).
Proof.
  intros Hq Hl Hf.
  assert (Hwf : ipc_wf (ipc_init s)).
  { split; [cbn; by rewrite length_map|]. split; [cbn; by rewrite length_map|]. cbn.
    apply Forall_map. eapply Forall_impl; [exact Hf|]. intros q Hlen.
    split; [done|]. split; [cbn; unfold IPC_QUEUE_DEPTH; lia|constructor]. }
  split; [done|]. intros p Hp. unfold inbox, queue_at. cbn [ipc_init queues].
  change (IpcQueue [] 0) with ((fun q => IpcQueue (messages q) 0) (IpcQueue [] 0)).
  rewrite map_nth. done.
Qed.

(** ** Properties *)

(** C20. The array queues refine the specification: whatever operations run, each
    returns exactly what the bounded-list specification returns, the
    representation invariant holds, and the queues hold the specification's
    lists (at most [IPC_QUEUE_DEPTH] messages each). *)
Theorem ipc_refines pe s b ops s' rs :
  ipc_wf s -> agrees s b -> Forall op_ok ops -> run pe s ops = (s', rs) ->
  ipc_wf s' /\ exists b', spec_run pe b ops = (b', rs) /\ agrees s' b'.
Proof. apply run_refines. Qed.

(** Ordered, lossless delivery: as long as no process is torn down, the
    payloads a receiver gets from one sender with one type are, in order, the
    payloads accepted from that sender (cut to the receiver's buffer), and those
    not yet received are exactly the ones still queued. *)
Theorem ipc_ordered pe s ops s' rs a r t :
  ipc_wf s -> valid_pid r = true -> Forall op_ok ops -> Forall no_close ops ->
  run pe s ops = (s', rs) ->
  exists delivered,
    pending a t (inbox s r) ++ history (sent_in a r t) ops rs = delivered ++ pending a t (inbox s' r) /\
    Forall2 truncates (history (received_in a r t) ops rs) delivered.
Proof.
  intros Hwf Hr Hok Hnc Hrun.
  destruct (run_refines pe ops s (inbox s) s' rs Hwf) as (_ & b' & Hs & Ha); [done|done|done|].
  rewrite (Ha r Hr). by apply (spec_run_order pe a r t ops (inbox s) b' rs).
Qed.

Definition demo_ops : list ipc_op :=
  [Send 1 2 7 (Some [10; 11; 12]) 3; Send 3 2 7 (Some [20]) 1; Send 1 2 7 (Some [13; 14]) 2;
   Receive 2 1 (-1) false 2; Receive 2 (-1) 7 false 8; Close 3; Receive 2 1 7 false 8].

Lemma ipc_boot_ok : ipc_wf ipc_boot /\ agrees ipc_boot (fun _ => []).
Proof. apply ipc_init_wf; [reflexivity|reflexivity|]. by apply Forall_replicate. Qed.

Lemma ipc_refines_witness :
  ipc_wf (fst (run (fun _ => true) ipc_boot demo_ops)) /\
  snd (run (fun _ => true) ipc_boot demo_ops) =
    snd (spec_run (fun _ => true) (fun _ => []) demo_ops).
Proof.
  destruct ipc_boot_ok as [Hwf Ha].
  destruct (ipc_refines (fun _ => true) ipc_boot (fun _ => []) demo_ops
    (fst (run (fun _ => true) ipc_boot demo_ops)) (snd (run (fun _ => true) ipc_boot demo_ops))
    Hwf Ha) as (H & b' & -> & _); [repeat constructor; cbn; lia|apply surjective_pairing|].
  split; [exact H|reflexivity].
Defined.

Lemma ipc_ordered_witness :
  let ops := firstn 5 demo_ops in
  let r := run (fun _ => true) ipc_boot ops in
  history (sent_in 1 2 7) ops (snd r) = [[10; 11; 12]; [13; 14]] /\
  history (received_in 1 2 7) ops (snd r) = [[10; 11]] /\
  exists delivered, [[10; 11; 12]; [13; 14]] = delivered ++ pending 1 7 (inbox (fst r) 2) /\
    Forall2 truncates [[10; 11]] delivered.
Proof.
  intros ops r. destruct ipc_boot_ok as [Hwf _].
  split; [reflexivity|]. split; [reflexivity|].
  exact (ipc_ordered (fun _ => true) ipc_boot ops (fst r) (snd r) 1 2 7 Hwf eq_refl
    ltac:(repeat constructor; cbn; lia) ltac:(repeat constructor) (surjective_pairing r)).
Defined.
