(* ===== verification/Ring.v ===== *)
(** Ring buffers: the array, head, tail and count shared by the TTYs, pipes and
    sockets of the kernel, and the queue they represent. *)
From S2P Require Import Prelude.

(** [head] is where the next element is stored, [tail] where the next one is
    taken, [used] how many there are. *)
Record ring := Ring { rdata : list Z; head : Z; tail : Z; used : Z }.

Section Ring.
(** The capacity, a C array size. *)
Context (cap : Z) (Hcap : 0 < cap).

Definition ring_at (r : ring) (i : Z) : Z := nth (Z.to_nat i) (rdata r) 0.

(** [data[head] = x; head = (head + 1) % cap; used++] *)
Definition push (x : Z) (r : ring) : ring :=
  Ring (<[Z.to_nat (head r) := x]> (rdata r)) ((head r + 1) mod cap) (tail r) (used r + 1).

(** [x = data[tail]; tail = (tail + 1) % cap; used--] *)
Definition pop (r : ring) : ring := Ring (rdata r) (head r) ((tail r + 1) mod cap) (used r - 1).

Definition ring_wf (r : ring) : Prop :=
  Z.of_nat (length (rdata r)) = cap /\ 0 <= tail r < cap /\ 0 <= used r <= cap /\
  head r = (tail r + used r) mod cap.

(** The queue, oldest element first. *)
Definition contents (r : ring) : list Z :=
  map (fun i => ring_at r ((tail r + Z.of_nat i) mod cap)) (seq 0 (Z.to_nat (used r))).

Lemma contents_length r : ring_wf r -> Z.of_nat (length (contents r)) = used r.
Proof. intros (_ & _ & Hu & _). unfold contents. rewrite length_map, length_seq. lia. Qed.

Lemma ring_at_insert r i j x :
  0 <= i < Z.of_nat (length (rdata r)) -> 0 <= j < Z.of_nat (length (rdata r)) ->
  nth (Z.to_nat j) (<[Z.to_nat i := x]> (rdata r)) 0 = if i =? j then x else ring_at r j.
Proof.
  intros Hi Hj. unfold ring_at. rewrite !nth_lookup. destruct (Z.eqb_spec i j) as [->|Hne].
  - rewrite list_lookup_insert_eq by lia. done.
  - rewrite list_lookup_insert_ne by lia. done.
Qed.

(** Indices less than [cap] apart stay different modulo [cap]. *)
Lemma mod_window a k : 0 <= k < cap -> (a + k) mod cap = a mod cap -> k = 0.
Proof.
  intros Hk He. assert (H : (a + k - a) mod cap = 0) by (rewrite Zminus_mod, He, Z.sub_diag; apply Z.mod_0_l; lia).
  replace (a + k - a) with k in H by lia. rewrite Z.mod_small in H; lia.
Qed.

Lemma push_spec r x :
  ring_wf r -> used r < cap -> ring_wf (push x r) /\ contents (push x r) = contents r ++ [x].
Proof.
  intros (Hl & Ht & Hu & Hh) Hlt.
  assert (Hhb : 0 <= head r < cap) by (rewrite Hh; apply Z.mod_pos_bound; lia). split.
  - split; [cbn; by rewrite length_insert|]. split; [done|]. split; [cbn; lia|]. cbn.
    rewrite Hh, Zplus_mod_idemp_l. f_equal. lia.
  - unfold contents. cbn [used push tail].
    replace (Z.to_nat (used r + 1)) with (S (Z.to_nat (used r))) by lia.
    rewrite seq_S, map_app. cbn [map]. f_equal.
    + apply map_ext_in. intros i Hi%in_seq. unfold ring_at at 1. cbn [rdata push].
      pose proof (Z.mod_pos_bound (tail r + Z.of_nat i) cap Hcap).
      rewrite ring_at_insert by lia. destruct (Z.eqb_spec (head r) ((tail r + Z.of_nat i) mod cap)) as [He|]; [|done].
      exfalso. rewrite Hh in He.
      replace (tail r + used r) with (tail r + Z.of_nat i + (used r - Z.of_nat i)) in He by lia.
      apply mod_window in He; lia.
    + f_equal. unfold ring_at. cbn [rdata push].
      replace (tail r + Z.of_nat (0 + Z.to_nat (used r))) with (tail r + used r) by lia. rewrite <-Hh.
      rewrite ring_at_insert by lia. by rewrite Z.eqb_refl.
Qed.

Lemma pop_spec r :
  ring_wf r -> 0 < used r ->
  ring_wf (pop r) /\ contents r = ring_at r (tail r) :: contents (pop r).
Proof.
  intros (Hl & Ht & Hu & Hh) Hlt. split.
  - split; [done|]. split; [apply Z.mod_pos_bound; lia|]. split; [cbn; lia|]. cbn.
    rewrite Zplus_mod_idemp_l, Hh. f_equal. lia.
  - unfold contents. cbn [used pop tail].
    replace (Z.to_nat (used r)) with (S (Z.to_nat (used r - 1))) by lia. cbn [seq map].
    rewrite <-seq_shift, map_map, Z.add_0_r, Z.mod_small by done. f_equal.
    apply map_ext. intros i. unfold ring_at. cbn [rdata pop]. rewrite Zplus_mod_idemp_l. do 3 f_equal. lia.
Qed.

(** Store a whole list; take [n] elements. *)
Definition push_all (xs : list Z) (r : ring) : ring := foldl (fun r x => push x r) r xs.

Fixpoint pop_n (n : nat) (r : ring) : list Z * ring :=
  match n with
  | O => ([], r)
  | S n' => let '(xs, r') := pop_n n' (pop r) in (ring_at r (tail r) :: xs, r')
  end.

Lemma push_all_spec xs : forall r,
  ring_wf r -> used r + Z.of_nat (length xs) <= cap ->
  ring_wf (push_all xs r) /\ contents (push_all xs r) = contents r ++ xs /\
  used (push_all xs r) = used r + Z.of_nat (length xs).
Proof.
  induction xs as [|x xs IH]; intros r Hwf Hl; cbn [push_all foldl length] in *.
  { rewrite app_nil_r. split_and!; (done || lia). }
  destruct (push_spec r x Hwf ltac:(lia)) as [Hw Hc].
  destruct (IH (push x r) Hw) as (H1 & H2 & H3); [cbn; lia|].
  split; [done|]. fold (push_all xs (push x r)). split.
  - by rewrite H2, Hc, <-app_assoc.
  - unfold push_all in *. rewrite H3. cbn. lia.
Qed.

Lemma pop_n_spec n : forall r,
  ring_wf r -> Z.of_nat n <= used r ->
  let '(xs, r') := pop_n n r in
  ring_wf r' /\ xs = take n (contents r) /\ contents r' = drop n (contents r) /\
  used r' = used r - Z.of_nat n.
Proof.
  induction n as [|n IH]; intros r Hwf Hl; cbn [pop_n].
  { rewrite drop_0. split_and!; (done || lia). }
  destruct (pop_spec r Hwf ltac:(lia)) as [Hw Hc]. specialize (IH (pop r) Hw ltac:(cbn; lia)).
  destruct (pop_n n (pop r)) as [xs r']. destruct IH as (H1 & H2 & H3 & H4).
  rewrite Hc. cbn [take drop]. split; [done|]. split; [by rewrite H2|]. split; [done|].
  rewrite H4. cbn. lia.
Qed.

(** An emptied ring. *)
Definition reset (r : ring) : ring := Ring (rdata r) 0 0 0.

Lemma reset_spec r : Z.of_nat (length (rdata r)) = cap -> ring_wf (reset r) /\ contents (reset r) = [].
Proof. intros Hl. split; [|done]. split; [done|]. cbn. rewrite Z.mod_0_l by lia. lia. Qed.
End Ring.

(** The last [n] elements. *)
Definition latest {A} (n : nat) (l : list A) : list A := drop (length l - n) l.

Lemma latest_latest {A} n (a b : list A) : latest n (latest n a ++ b) = latest n (a ++ b).
Proof.
  unfold latest. rewrite !length_app, length_drop. destruct (decide (length a <= n)%nat).
  - replace (length a - n)%nat with 0%nat by lia. rewrite drop_0. f_equal. lia.
  - replace (a ++ b) with (take (length a - n) a ++ (drop (length a - n) a ++ b)) by by rewrite app_assoc, take_drop.
    rewrite (drop_app_ge (take (length a - n) a)) by (rewrite length_take; lia). rewrite length_take. f_equal. lia.
Qed.

Lemma latest_all {A} n (l : list A) : (length l <= n)%nat -> latest n l = l.
Proof. intros H. unfold latest. replace (length l - n)%nat with 0%nat by lia. apply drop_0. Qed.

Lemma latest_one_more {A} (l : list A) x : latest (length l) (l ++ [x]) = drop 1 (l ++ [x]).
Proof. unfold latest. rewrite length_app. cbn [length]. f_equal. lia. Qed.

(** ** Windows of a cyclic array *)

Section Cyclic.
Context {T : Type} (d : T) (cap : Z) (Hcap : 0 < cap).

(** [n] elements from index [t] on. *)
Definition cyclic (q : list T) (t : Z) (n : nat) : list T := map (fun i => at_z d q ((t + Z.of_nat i) mod cap)) (seq 0 n).

Lemma length_cyclic q t n : length (cyclic q t n) = n.
Proof. unfold cyclic. by rewrite length_map, length_seq. Qed.

Lemma cyclic_S q t n : 0 <= t < cap -> cyclic q t (S n) = at_z d q t :: cyclic q ((t + 1) mod cap) n.
Proof.
  intros Ht. unfold cyclic. cbn [seq map]. rewrite Z.add_0_r, Z.mod_small by done. f_equal. rewrite <-seq_shift, map_map.
  apply map_ext. intros i. rewrite Zplus_mod_idemp_l. f_equal. f_equal. lia.
Qed.

Lemma cyclic_snoc q t n : cyclic q t (S n) = cyclic q t n ++ [at_z d q ((t + Z.of_nat n) mod cap)].
Proof. unfold cyclic. by rewrite seq_S, map_app. Qed.

(** Storing behind the window does not change it, and makes it longer. *)
Lemma cyclic_insert q t n e : Z.of_nat (length q) = cap -> Z.of_nat n < cap -> cyclic (<[Z.to_nat ((t + Z.of_nat n) mod cap) := e]> q) t n = cyclic q t n.
Proof.
  intros Hl Hn. unfold cyclic. apply map_ext_in. intros i Hi%in_seq.
  pose proof (Z.mod_pos_bound (t + Z.of_nat n) cap Hcap). pose proof (Z.mod_pos_bound (t + Z.of_nat i) cap Hcap).
  rewrite at_z_insert by lia. destruct (Z.eqb_spec ((t + Z.of_nat i) mod cap) ((t + Z.of_nat n) mod cap)) as [E|]; [|done].
  exfalso. replace (t + Z.of_nat n) with (t + Z.of_nat i + (Z.of_nat n - Z.of_nat i)) in E by lia. symmetry in E. apply mod_window in E; lia.
Qed.

Lemma cyclic_push q t n e : Z.of_nat (length q) = cap -> Z.of_nat n < cap -> cyclic (<[Z.to_nat ((t + Z.of_nat n) mod cap) := e]> q) t (S n) = cyclic q t n ++ [e].
Proof.
  intros Hl Hn. pose proof (Z.mod_pos_bound (t + Z.of_nat n) cap Hcap). rewrite cyclic_snoc, cyclic_insert, at_z_insert, Z.eqb_refl by lia. done.
Qed.

(** Between a tail and a head that are equal when there is nothing: at most [cap - 1]
    elements. *)
Definition between (h t : Z) : Z := (h - t) mod cap.
Definition gap (q : list T) (h t : Z) : list T := cyclic q t (Z.to_nat (between h t)).

Lemma between_range h t : 0 <= between h t < cap.
Proof. by apply Z.mod_pos_bound. Qed.

Lemma between_eq h t k : 0 <= h < cap -> 0 <= t < cap -> 0 <= k < cap -> (h = t + k \/ h = t + k - cap) -> between h t = k.
Proof.
  intros Hh Ht Hk [E|E]; unfold between.
  - rewrite Z.mod_small; lia.
  - replace (h - t) with (k + (-1) * cap) by lia. rewrite Z.mod_add, Z.mod_small by lia. done.
Qed.

(** The wrapped successor of an index. *)
Lemma succ_index i : 0 <= i < cap -> (i + 1 = cap /\ (i + 1) mod cap = 0) \/ (i + 1 < cap /\ (i + 1) mod cap = i + 1).
Proof. intros Hi. destruct (decide (i + 1 = cap)) as [E|]; [left; by rewrite E, Z.mod_same by lia|right; rewrite Z.mod_small; lia]. Qed.

Lemma between_cases h t : 0 <= h < cap -> 0 <= t < cap -> h = t + between h t \/ h = t + between h t - cap.
Proof.
  intros Hh Ht. unfold between. destruct (decide (t <= h)); [rewrite Z.mod_small; lia|].
  replace (h - t) with (h - t + cap + (-1) * cap) by lia. rewrite Z.mod_add, Z.mod_small; lia.
Qed.

Lemma gap_empty h t : 0 <= h < cap -> 0 <= t < cap -> (h =? t) = (between h t =? 0).
Proof. intros Hh Ht. pose proof (between_cases h t Hh Ht). pose proof (between_range h t). lia. Qed.

(** A store at the head drops the oldest element when the array is full. *)
Lemma gap_push q h t e : Z.of_nat (length q) = cap -> 0 <= h < cap -> 0 <= t < cap -> 
  gap (<[Z.to_nat h := e]> q) ((h + 1) mod cap) (if (h + 1) mod cap =? t then (t + 1) mod cap else t) = latest (Z.to_nat cap - 1) (gap q h t ++ [e]).
Proof.
  intros Hl Hh Ht. pose proof (between_cases h t Hh Ht) as Hc. pose proof (between_range h t) as Hr. set (n := Z.to_nat (between h t)).
  assert (Hn : Z.of_nat n = between h t) by (unfold n; lia).
  assert (Hhn : h = (t + Z.of_nat n) mod cap).
  { rewrite Hn. destruct Hc as [E|E]; [rewrite Z.mod_small; lia|].
    replace (t + between h t) with (h + 1 * cap) by lia. rewrite Z.mod_add, Z.mod_small; lia. }
  assert (G : cyclic (<[Z.to_nat h := e]> q) t (S n) = gap q h t ++ [e]) by (unfold gap; fold n; rewrite Hhn at 1; apply cyclic_push; lia). clearbody n.
  rewrite <-G. unfold latest. rewrite length_cyclic. unfold gap. pose proof (succ_index h Hh) as Sh. pose proof (succ_index t Ht) as St.
  destruct (Z.eqb_spec ((h + 1) mod cap) t) as [E|E].
  - rewrite (between_eq _ _ (cap - 1)) by lia. replace (S n - (Z.to_nat cap - 1))%nat with 1%nat by lia. rewrite cyclic_S by done. cbn [drop]. rewrite drop_0. f_equal. lia.
  - rewrite (between_eq _ _ (between h t + 1)) by lia. replace (S n - (Z.to_nat cap - 1))%nat with 0%nat by lia. rewrite drop_0. f_equal. lia.
Qed.

Lemma gap_pop q h t : 0 <= h < cap -> 0 <= t < cap -> h <> t -> gap q h t = at_z d q t :: gap q h ((t + 1) mod cap).
Proof.
  intros Hh Ht Hne. pose proof (between_cases h t Hh Ht) as Hc. pose proof (between_range h t) as Hr.
  pose proof (succ_index t Ht) as St. unfold gap. rewrite (between_eq h ((t + 1) mod cap) (between h t - 1)) by lia.
  replace (Z.to_nat (between h t)) with (S (Z.to_nat (between h t - 1))) by lia. by rewrite cyclic_S.
Qed.

Lemma length_gap q h t : Z.of_nat (length (gap q h t)) = between h t.
Proof. unfold gap. rewrite length_cyclic. pose proof (between_range h t). lia. Qed.
End Cyclic.
