(* ===== verification/Tty.v ===== *)
(** Terminals and pseudo-terminals: [kernel/tty.c].

    A TTY is a pair of byte rings owned by a process; a PTY adds a line
    discipline between its master side and its slave side.  The per-PTY lock only
    serialises the operations below and is not modelled; [pty->line] with
    [pty->line_used] is the list of its live bytes. *)
From S2P Require Import Prelude Ring.

Definition TTY_MAX : Z := 4.
Definition TTY_BUFFER_SIZE : Z := 1024.
Definition PTY_MAX : Z := 4.
Definition PTY_MODE_CANONICAL : Z := 1.
Definition PTY_MODE_ECHO : Z := 2.
Definition PTY_LINE_SIZE : Z := 256.
Definition KESH_SIGINT : Z := 2.
Definition KESH_SIGKILL : Z := 9.
Definition KESH_SIGTERM : Z := 15.
Definition KESH_SIGSTOP : Z := 19.
Definition KESH_SIGCONT : Z := 18.

(** ** Rings *)

(** [while (written < size && used < TTY_BUFFER_SIZE)] *)
Fixpoint ring_write (r : ring) (data : list Z) : ring * Z :=
  match data with
  | [] => (r, 0)
  | c :: data' =>
      if used r <? TTY_BUFFER_SIZE
      then let '(r', n) := ring_write (push TTY_BUFFER_SIZE c r) data' in (r', n + 1)
      else (r, 0)
  end.

(** [while (read < size && used)]; the bytes stored in the caller's buffer. *)
Fixpoint ring_read (r : ring) (size : nat) : ring * list Z :=
  match size with
  | O => (r, [])
  | S size' =>
      if used r =? 0 then (r, [])
      else
        let c := ring_at r (tail r) in
        let '(r', cs) := ring_read (pop TTY_BUFFER_SIZE r) size' in (r', c :: cs)
  end.

Definition ring_reset : ring -> ring := reset.

(** ** State *)

Record tty := Tty { allocated : bool; owner_pid : Z; input : ring; output : ring }.

Record pty := Pty {
  p_allocated : bool; master_open : bool; slave_open : bool;
  master_pid : Z; slave_pid : Z; mode : Z;
  p_input : ring; p_output : ring; line : list Z; foreground_group : Z
}.

Record terminals := Terminals { ttys : list tty; ptys : list pty }.

Definition empty_ring : ring := Ring (replicate (Z.to_nat TTY_BUFFER_SIZE) 0) 0 0 0.
Definition no_tty : tty := Tty false (-1) empty_ring empty_ring.
Definition no_pty : pty := Pty false false false (-1) (-1) 0 empty_ring empty_ring [] (-1).

Definition set_tty (i : Z) (t : tty) (s : terminals) : terminals :=
  Terminals (<[Z.to_nat i := t]> (ttys s)) (ptys s).
Definition set_pty (i : Z) (p : pty) (s : terminals) : terminals :=
  Terminals (ttys s) (<[Z.to_nat i := p]> (ptys s)).

Definition set_input (r : ring) (t : tty) : tty := Tty (allocated t) (owner_pid t) r (output t).
Definition set_output (r : ring) (t : tty) : tty := Tty (allocated t) (owner_pid t) (input t) r.

Definition set_rings (inp out : ring) (l : list Z) (p : pty) : pty :=
  Pty (p_allocated p) (master_open p) (slave_open p) (master_pid p) (slave_pid p) (mode p) inp out l
    (foreground_group p).
Definition set_open (m s : bool) (p : pty) : pty :=
  Pty (p_allocated p) m s (master_pid p) (slave_pid p) (mode p) (p_input p) (p_output p) (line p)
    (foreground_group p).
(** [if (release) pty->allocated = 0] *)
Definition release_pty (p : pty) : pty :=
  if master_open p || slave_open p then p
  else Pty false (master_open p) (slave_open p) (master_pid p) (slave_pid p) (mode p) (p_input p)
         (p_output p) (line p) (foreground_group p).

(** First index in [i, i + n) satisfying a test. *)
Fixpoint first_free {A} (p : A -> bool) (l : list A) (i : Z) : option Z :=
  match l with
  | [] => None
  | x :: l' => if p x then Some i else first_free p l' (i + 1)
  end.

(** ** TTYs *)

Definition tty_at (s : terminals) (id : Z) : option tty :=
  if (0 <=? id) && (id <? TTY_MAX) then
    let t := nth (Z.to_nat id) (ttys s) no_tty in if allocated t then Some t else None
  else None.

Definition tty_init (s : terminals) : terminals :=
  Terminals (map (fun t => Tty false (-1) (input t) (output t)) (ttys s))
    (map (fun p => Pty false (master_open p) (slave_open p) (master_pid p) (slave_pid p) (mode p)
                     (p_input p) (p_output p) (line p) (foreground_group p)) (ptys s)).

Definition tty_create_for_process (s : terminals) (owner : Z) : terminals * Z :=
  if owner <? 0 then (s, -1)
  else
    match first_free (fun t => negb (allocated t)) (ttys s) 0 with
    | None => (s, -1)
    | Some i =>
        let t := nth (Z.to_nat i) (ttys s) no_tty in
        (set_tty i (Tty true owner (ring_reset (input t)) (ring_reset (output t))) s, i)
    end.

Definition tty_close (s : terminals) (owner id : Z) : terminals * Z :=
  match tty_at s id with
  | None => (s, -1)
  | Some t =>
      if negb (owner_pid t =? owner) then (s, -1)
      else (set_tty id (Tty false (-1) (ring_reset (input t)) (ring_reset (output t))) s, 0)
  end.

(** The body of the PTY loop of [tty_close_owner]. *)
Definition close_sides (owner : Z) (p : pty) : pty :=
  if p_allocated p then
    let m := if master_open p && (master_pid p =? owner) then false else master_open p in
    let sl := if slave_open p && (slave_pid p =? owner) then false else slave_open p in
    release_pty (set_open m sl p)
  else p.

Definition tty_close_owner (s : terminals) (owner : Z) : terminals :=
  let s := foldl (fun s i =>
             let t := nth (Z.to_nat i) (ttys s) no_tty in
             if allocated t && (owner_pid t =? owner) then fst (tty_close s owner i) else s)
             s (seqZ 0 TTY_MAX) in
  Terminals (ttys s) (map (close_sides owner) (ptys s)).

(** The ring accessors: [None] stands for a null buffer. *)
Definition tty_write_input (s : terminals) (id : Z) (data : option (list Z)) : terminals * Z :=
  match tty_at s id, data with
  | Some t, Some bs => let '(r, n) := ring_write (input t) bs in (set_tty id (set_input r t) s, n)
  | _, _ => (s, -1)
  end.

Definition tty_write_output (s : terminals) (id : Z) (data : option (list Z)) : terminals * Z :=
  match tty_at s id, data with
  | Some t, Some bs => let '(r, n) := ring_write (output t) bs in (set_tty id (set_output r t) s, n)
  | _, _ => (s, -1)
  end.

Definition tty_read_input (s : terminals) (id : Z) (null : bool) (size : Z) : terminals * Z * list Z :=
  match tty_at s id with
  | Some t =>
      if null then (s, -1, [])
      else let '(r, bs) := ring_read (input t) (Z.to_nat size) in
           (set_tty id (set_input r t) s, Z.of_nat (length bs), bs)
  | None => (s, -1, [])
  end.

Definition tty_read_output (s : terminals) (id : Z) (null : bool) (size : Z) : terminals * Z * list Z :=
  match tty_at s id with
  | Some t =>
      if null then (s, -1, [])
      else let '(r, bs) := ring_read (output t) (Z.to_nat size) in
           (set_tty id (set_output r t) s, Z.of_nat (length bs), bs)
  | None => (s, -1, [])
  end.

(** The same restricted to the owner. *)
Definition owned (s : terminals) (owner id : Z) : bool :=
  match tty_at s id with Some t => owner_pid t =? owner | None => false end.

Definition tty_write_process (s : terminals) (owner id : Z) (data : option (list Z)) : terminals * Z :=
  if owned s owner id then tty_write_output s id data else (s, -1).

Definition tty_read_process (s : terminals) (owner id : Z) (null : bool) (size : Z)
  : terminals * Z * list Z :=
  if owned s owner id then tty_read_input s id null size else (s, -1, []).

Definition tty_available_process (s : terminals) (owner id : Z) : Z :=
  match tty_at s id with
  | Some t => if owner_pid t =? owner then used (input t) else -1
  | None => -1
  end.

(** ** PTYs *)

(** What the PTY code calls in the process and descriptor tables, over their
    state [W]. *)
Class PtyEnv (W : Type) := {
  process_exists : W -> Z -> bool;
  process_get_group : W -> Z -> Z;
  fd_bind_pty_stdio : W -> Z -> Z -> W * Z;
  process_set_controlling_pty : W -> Z -> Z -> W * Z;
  process_signal_group : W -> Z -> Z -> Z -> W * Z
}.

Definition pty_index (handle : Z) : Z := let v := handle - 0x100 in if 0 <=? v then v / 2 else -1.
Definition pty_is_slave (handle : Z) : bool := negb (Z.land (handle - 0x100) 1 =? 0).

Definition pty_at (s : terminals) (handle : Z) : option pty :=
  let i := pty_index handle in
  if (0 <=? i) && (i <? PTY_MAX) then
    let p := nth (Z.to_nat i) (ptys s) no_pty in if p_allocated p then Some p else None
  else None.

Definition pty_allowed (p : pty) (pid : Z) (slave : bool) : bool :=
  if slave then slave_open p && (slave_pid p =? pid) else master_open p && (master_pid p =? pid).

Definition pty_create (s : terminals) (owner : Z) (null : bool) : terminals * Z * option (Z * Z) :=
  if (owner <? 0) || null then (s, -1, None)
  else
    match first_free (fun p => negb (p_allocated p)) (ptys s) 0 with
    | None => (s, -1, None)
    | Some i =>
        let p := nth (Z.to_nat i) (ptys s) no_pty in
        let p := Pty true true true owner owner (Z.lor PTY_MODE_CANONICAL PTY_MODE_ECHO)
                   (ring_reset (p_input p)) (ring_reset (p_output p)) [] (-1) in
        (set_pty i p s, 0, Some (0x100 + i * 2, 0x100 + i * 2 + 1))
    end.

Definition pty_close (s : terminals) (owner handle : Z) : terminals * Z :=
  let slave := pty_is_slave handle in
  match pty_at s handle with
  | None => (s, -1)
  | Some p =>
      if negb (pty_allowed p owner slave) then (s, -1)
      else
        let p := if slave then set_open (master_open p) false p else set_open false (slave_open p) p in
        (set_pty (pty_index handle) (release_pty p) s, 0)
  end.

Definition pty_read (s : terminals) (owner handle : Z) (null : bool) (size : Z) : terminals * Z * list Z :=
  let slave := pty_is_slave handle in
  match pty_at s handle with
  | None => (s, -1, [])
  | Some p =>
      if null || negb (pty_allowed p owner slave) then (s, -1, [])
      else
        let '(r, bs) := ring_read (if slave then p_input p else p_output p) (Z.to_nat size) in
        let p := if slave then set_rings r (p_output p) (line p) p
                 else set_rings (p_input p) r (line p) p in
        (set_pty (pty_index handle) p s, Z.of_nat (length bs), bs)
  end.

(** Echo: [if (mode & PTY_MODE_ECHO) ring_write(&output, ...)] *)
Definition echo (p : pty) (bs : list Z) : pty :=
  if has (mode p) PTY_MODE_ECHO
  then set_rings (p_input p) (fst (ring_write (p_output p) bs)) (line p) p else p.

(** [ring_write(&pty->input, pty->line, pty->line_used); pty->line_used = 0] *)
Definition flush_line (p : pty) : pty :=
  set_rings (fst (ring_write (p_input p) (line p))) (p_output p) [] p.

Definition set_line (l : list Z) (p : pty) : pty := set_rings (p_input p) (p_output p) l p.

Definition no_room (p : pty) : bool :=
  TTY_BUFFER_SIZE - used (p_input p) <? Z.of_nat (length (line p)).

(** One iteration of the master's write loop: the byte is consumed, it stops the
    loop ([break]), or it raises a signal. *)
Inductive step := Next (p : pty) | Stop (p : pty) | Signal (sig : Z).

Definition pty_byte (p : pty) (c : Z) : step :=
  if (c =? 3) || (c =? 26) then Signal (if c =? 3 then KESH_SIGINT else KESH_SIGSTOP)
  else if negb (has (mode p) PTY_MODE_CANONICAL) then
    let '(r, n) := ring_write (p_input p) [c] in
    let p := set_rings r (p_output p) (line p) p in
    if negb (n =? 1) then Stop p else Next (echo p [c])
  else if (c =? 8) || (c =? 127) then
    Next (match line p with
          | [] => p
          | _ => echo (set_line (removelast (line p)) p) [8; 32; 8]
          end)
  else if c =? 4 then
    match line p with
    | [] => Next p
    | _ => if no_room p then Stop p else Next (flush_line p)
    end
  else if PTY_LINE_SIZE <=? Z.of_nat (length (line p)) then Stop p
  else
    let p := echo (set_line (line p ++ [c]) p) [c] in
    if c =? 10 then if no_room p then Stop p else Next (flush_line p) else Next p.

(** The loop; it returns the PTY, the count consumed and the signal raised. *)
Fixpoint pty_feed (p : pty) (data : list Z) (consumed : Z) : pty * Z * option Z :=
  match data with
  | [] => (p, consumed, None)
  | c :: data' =>
      match pty_byte p c with
      | Next p' => pty_feed p' data' (consumed + 1)
      | Stop p' => (p', consumed, None)
      | Signal sig => (p, consumed + 1, Some sig)
      end
  end.

Section Pty.
Context {W : Type} `{PtyEnv W}.

Definition pty_write (s : terminals) (w : W) (owner handle : Z) (data : option (list Z))
  : terminals * W * Z :=
  let slave := pty_is_slave handle in
  match pty_at s handle, data with
  | Some p, Some bs =>
      if negb (pty_allowed p owner slave) then (s, w, -1)
      else if slave then
        let '(r, n) := ring_write (p_output p) bs in
        (set_pty (pty_index handle) (set_rings (p_input p) r (line p) p) s, w, n)
      else
        let '(p', n, sig) := pty_feed p bs 0 in
        let s := set_pty (pty_index handle) p' s in
        match sig with
        | Some sg =>
            let group := foreground_group p in
            (s, if 0 <=? group then fst (process_signal_group w (-1) group sg) else w, n)
        | None => (s, w, n)
        end
  | _, _ => (s, w, -1)
  end.

Definition pty_attach (s : terminals) (w : W) (owner slave_handle target : Z) : terminals * W * Z :=
  match pty_at s slave_handle with
  | None => (s, w, -1)
  | Some p =>
      if negb (pty_is_slave slave_handle) || negb (master_pid p =? owner) ||
         negb (process_exists w target) then (s, w, -1)
      else
        let '(w, rc) := fd_bind_pty_stdio w target slave_handle in
        if negb (rc =? 0) then (s, w, -1)
        else
          let p := Pty (p_allocated p) (master_open p) (slave_open p) (master_pid p) target (mode p)
                     (p_input p) (p_output p) (line p) (process_get_group w target) in
          let s := set_pty (pty_index slave_handle) p s in
          let '(w, rc) := process_set_controlling_pty w target slave_handle in (s, w, rc)
  end.

(** The master's owner, for the control operations. *)
Definition pty_master (s : terminals) (owner handle : Z) : option pty :=
  match pty_at s handle with
  | None => None
  | Some p => if pty_is_slave handle || negb (master_pid p =? owner) then None else Some p
  end.

Definition pty_signal_foreground (s : terminals) (w : W) (owner handle signal : Z) : W * Z :=
  match pty_master s owner handle with
  | None => (w, -1)
  | Some p =>
      if negb (signal =? KESH_SIGINT) && negb (signal =? KESH_SIGTERM) && negb (signal =? KESH_SIGKILL) &&
         negb (signal =? KESH_SIGSTOP) && negb (signal =? KESH_SIGCONT) then (w, -1)
      else process_signal_group w (-1) (foreground_group p) signal
  end.
End Pty.

Definition pty_available (s : terminals) (owner handle : Z) : Z :=
  let slave := pty_is_slave handle in
  match pty_at s handle with
  | None => -1
  | Some p =>
      if negb (pty_allowed p owner slave) then -1
      else if slave then used (p_input p) else used (p_output p)
  end.

Definition pty_set_mode (s : terminals) (owner handle m : Z) : terminals * Z :=
  match pty_master s owner handle with
  | None => (s, -1)
  | Some p =>
      if has m (u32 (Z.lnot (Z.lor PTY_MODE_CANONICAL PTY_MODE_ECHO))) then (s, -1)
      else (set_pty (pty_index handle)
              (Pty (p_allocated p) (master_open p) (slave_open p) (master_pid p) (slave_pid p) m
                 (p_input p) (p_output p) [] (foreground_group p)) s, 0)
  end.

Definition pty_set_foreground_group (s : terminals) (owner handle group : Z) : terminals * Z :=
  match pty_master s owner handle with
  | None => (s, -1)
  | Some p =>
      if group <? 0 then (s, -1)
      else (set_pty (pty_index handle)
              (Pty (p_allocated p) (master_open p) (slave_open p) (master_pid p) (slave_pid p) (mode p)
                 (p_input p) (p_output p) (line p) group) s, 0)
  end.

Definition pty_get_foreground_group (s : terminals) (owner handle : Z) : Z :=
  match pty_master s owner handle with
  | None => -1
  | Some p => foreground_group p
  end.

(** ** Rings behave as bounded queues *)

Abbreviation wf_ring := (ring_wf TTY_BUFFER_SIZE).
Abbreviation bytes_of := (contents TTY_BUFFER_SIZE).

Lemma tty_cap : 0 < TTY_BUFFER_SIZE.
Proof. done. Qed.

(** How much of [data] fits. *)
Definition room (r : ring) (data : list Z) : nat :=
  Nat.min (length data) (Z.to_nat (TTY_BUFFER_SIZE - used r)).

Lemma ring_write_spec data : forall r, wf_ring r ->
  let '(r', n) := ring_write r data in
  wf_ring r' /\ n = Z.of_nat (room r data) /\ bytes_of r' = bytes_of r ++ take (room r data) data.
Proof.
  induction data as [|c data IH]; intros r Hwf; cbn [ring_write].
  { split; [done|]. split; [done|]. by rewrite take_nil, app_nil_r. }
  destruct (Z.ltb_spec (used r) TTY_BUFFER_SIZE) as [Hlt|Hge].
  - destruct (push_spec _ tty_cap r c Hwf Hlt) as [Hw Hc]. specialize (IH _ Hw).
    destruct (ring_write (push TTY_BUFFER_SIZE c r) data) as [r' n]. destruct IH as (H1 & -> & H3).
    assert (Hr : room r (c :: data) = S (room (push TTY_BUFFER_SIZE c r) data)).
    { unfold room. cbn [length used push]. destruct Hwf as (_ & _ & Hu & _). lia. }
    rewrite Hr. split; [done|]. split; [lia|]. by rewrite H3, Hc, <-app_assoc.
  - assert (Hr : room r (c :: data) = 0%nat) by (unfold room; lia). rewrite Hr.
    split; [done|]. split; [done|]. by rewrite app_nil_r.
Qed.

Lemma ring_read_spec size : forall r, wf_ring r ->
  let '(r', bs) := ring_read r size in
  wf_ring r' /\ bs = take size (bytes_of r) /\ bytes_of r' = drop size (bytes_of r).
Proof.
  induction size as [|size IH]; intros r Hwf; cbn [ring_read]; [by rewrite drop_0|].
  destruct (Z.eqb_spec (used r) 0) as [Hz|Hnz].
  - assert (Hn : bytes_of r = []).
    { apply length_zero_iff_nil. pose proof (contents_length _ r Hwf). lia. }
    by rewrite Hn.
  - assert (Hpos : 0 < used r) by (destruct Hwf as (_ & _ & ? & _); lia).
    destruct (pop_spec _ tty_cap r Hwf Hpos) as [Hw Hc]. specialize (IH _ Hw).
    destruct (ring_read (pop TTY_BUFFER_SIZE r) size) as [r' bs]. destruct IH as (H1 & -> & H3).
    rewrite Hc. by cbn [take drop].
Qed.

(** ** The line discipline *)

(** What the bytes mean: the data delivered to the slave and the line left to
    edit, starting from line [l]. *)
Fixpoint cook (l : list Z) (bs : list Z) : list Z * list Z :=
  match bs with
  | [] => ([], l)
  | c :: bs' =>
      if (c =? 8) || (c =? 127) then cook (removelast l) bs'
      else if c =? 4 then let '(d, l') := cook [] bs' in (l ++ d, l')
      else if c =? 10 then let '(d, l') := cook [] bs' in (l ++ [10] ++ d, l')
      else cook (l ++ [c]) bs'
  end.

Definition canonical_pty (p : pty) : Prop := has (mode p) PTY_MODE_CANONICAL = true.

Definition pty_wf (p : pty) : Prop :=
  wf_ring (p_input p) /\ wf_ring (p_output p) /\ Z.of_nat (length (line p)) <= PTY_LINE_SIZE.

(** [p'] differs from [p] only in its rings and line. *)
Definition same_config (p p' : pty) : Prop :=
  p_allocated p' = p_allocated p /\ master_open p' = master_open p /\ slave_open p' = slave_open p /\
  master_pid p' = master_pid p /\ slave_pid p' = slave_pid p /\ mode p' = mode p /\
  foreground_group p' = foreground_group p.

Lemma same_config_trans p1 p2 p3 : same_config p1 p2 -> same_config p2 p3 -> same_config p1 p3.
Proof. unfold same_config. intuition congruence. Qed.

Lemma set_rings_config i o l p : same_config p (set_rings i o l p).
Proof. unfold same_config. auto 10. Qed.

Lemma echo_spec p bs :
  pty_wf p -> pty_wf (echo p bs) /\ same_config p (echo p bs) /\
  p_input (echo p bs) = p_input p /\ line (echo p bs) = line p.
Proof.
  intros (Hi & Ho & Hl). unfold echo. destruct (has (mode p) PTY_MODE_ECHO).
  - pose proof (ring_write_spec bs _ Ho) as H. destruct (ring_write (p_output p) bs) as [r n].
    destruct H as (Hr & _). split; [by split|]. split; [apply set_rings_config|done].
  - split; [by split|]. split; [|done]. unfold same_config. auto 10.
Qed.

Lemma flush_line_spec p :
  pty_wf p -> no_room p = false ->
  pty_wf (flush_line p) /\ same_config p (flush_line p) /\
  bytes_of (p_input (flush_line p)) = bytes_of (p_input p) ++ line p /\ line (flush_line p) = [].
Proof.
  intros (Hi & Ho & Hl) Hroom. unfold flush_line.
  pose proof (ring_write_spec (line p) _ Hi) as H. destruct (ring_write (p_input p) (line p)) as [r n].
  destruct H as (Hr & _ & Hc). unfold no_room in Hroom. apply Z.ltb_ge in Hroom.
  split; [split; [done|]; split; [done|]; cbn; unfold PTY_LINE_SIZE; lia|].
  split; [apply set_rings_config|]. split; [|done]. cbn [p_input set_rings fst]. rewrite Hc.
  f_equal. apply take_ge. unfold room. destruct Hi as (_ & _ & Hu & _). lia.
Qed.

Lemma set_line_wf p l : pty_wf p -> Z.of_nat (length l) <= PTY_LINE_SIZE -> pty_wf (set_line l p).
Proof. intros (Hi & Ho & _) Hl. by split. Qed.

Lemma removelast_length (l : list Z) : (length (removelast l) <= length l)%nat.
Proof. induction l as [|x [|y l] IH]; cbn in *; lia. Qed.

(** One byte in canonical mode. *)
Lemma pty_byte_spec p c :
  pty_wf p -> canonical_pty p ->
  match pty_byte p c with
  | Next p' =>
      pty_wf p' /\ same_config p p' /\
      let '(d, l) := cook (line p) [c] in bytes_of (p_input p') = bytes_of (p_input p) ++ d /\ line p' = l
  | Stop p' =>
      pty_wf p' /\ same_config p p' /\ p_input p' = p_input p /\
      (line p' = line p \/ (c = 10 /\ line p' = line p ++ [10])) /\
      (PTY_LINE_SIZE <= Z.of_nat (length (line p')) \/ no_room p' = true)
  | Signal s => (c = 3 /\ s = KESH_SIGINT) \/ (c = 26 /\ s = KESH_SIGSTOP)
  end.
Proof.
  intros Hwf Hcan. unfold pty_byte. rewrite Hcan. cbn [negb].
  destruct (Z.eqb_spec c 3), (Z.eqb_spec c 26); cbn [orb]; auto; try lia. cbn [cook].
  destruct (Z.eqb_spec c 8), (Z.eqb_spec c 127); cbn [orb]; try lia.
  1,2: destruct (line p) as [|x l] eqn:Hline;
    [rewrite app_nil_r; split_and!; auto; unfold same_config; auto 10|];
    destruct (echo_spec (set_line (removelast (x :: l)) p) [8; 32; 8]) as (W & C & I & L);
      [apply set_line_wf; [done|]; pose proof (removelast_length (x :: l)); rewrite <-Hline in *;
       destruct Hwf as (_ & _ & Hl); lia|];
    split; [done|]; split; [eapply same_config_trans; [apply set_rings_config|exact C]|];
    rewrite app_nil_r, I, L; done.
  destruct (Z.eqb_spec c 4).
  { destruct (line p) as [|x l] eqn:Hline.
    { split_and!; auto; [unfold same_config; auto 10|cbn; by rewrite app_nil_r]. }
    destruct (no_room p) eqn:Hroom.
    - split_and!; auto. unfold same_config; auto 10.
    - destruct (flush_line_spec p Hwf Hroom) as (W & C & I & L).
      split_and!; auto. rewrite I, Hline, app_nil_r. done. }
  destruct (Z.leb_spec PTY_LINE_SIZE (Z.of_nat (length (line p)))).
  { split_and!; auto. unfold same_config; auto 10. }
  destruct (echo_spec (set_line (line p ++ [c]) p) [c]) as (W & C & I & L).
  { apply set_line_wf; [done|]. rewrite length_app. cbn. lia. }
  set (p1 := echo (set_line (line p ++ [c]) p) [c]) in *.
  assert (C1 : same_config p p1) by (eapply same_config_trans; [apply set_rings_config|exact C]).
  cbn [p_input line set_line set_rings] in I, L.
  destruct (Z.eqb_spec c 10) as [->|]; [|by rewrite app_nil_r, I].
  destruct (no_room p1) eqn:Hroom; [split_and!; auto|].
  destruct (flush_line_spec p1 W Hroom) as (W2 & C2 & I2 & L2).
  split; [done|]. split; [by eapply same_config_trans|]. by rewrite I2, I, L, app_nil_r.
Qed.

Lemma cook_cons l c bs :
  cook l (c :: bs) =
    let '(d1, l1) := cook l [c] in let '(d2, l2) := cook l1 bs in (d1 ++ d2, l2).
Proof.
  cbn [cook]. destruct (_ || _); [by destruct (cook (removelast l) bs)|].
  destruct (c =? 4); [destruct (cook [] bs); by rewrite app_nil_r|].
  destruct (c =? 10); [destruct (cook [] bs); cbn [app]; by rewrite <-app_assoc|].
  by destruct (cook (l ++ [c]) bs).
Qed.

(** How many of the [n] bytes reported as consumed were data, not a signal. *)
Definition data_count (n : Z) (sig : option Z) : nat :=
  Z.to_nat n - (match sig with Some _ => 1 | None => 0 end).

Lemma pty_feed_spec bs : forall p k,
  pty_wf p -> canonical_pty p ->
  let '(p', n, sig) := pty_feed p bs k in
  pty_wf p' /\ same_config p p' /\ k <= n <= k + Z.of_nat (length bs) /\
  let m := data_count (n - k) sig in
  let '(d, l) := cook (line p) (take m bs) in
  bytes_of (p_input p') = bytes_of (p_input p) ++ d /\
  match sig with
  | Some s => line p' = l /\ k < n /\
      (bs !! m = Some 3 /\ s = KESH_SIGINT \/ bs !! m = Some 26 /\ s = KESH_SIGSTOP)
  | None => (line p' = l \/ (bs !! m = Some 10 /\ line p' = l ++ [10])) /\
      (n = k + Z.of_nat (length bs) \/ PTY_LINE_SIZE <= Z.of_nat (length (line p')) \/ no_room p' = true)
  end.
Proof.
  induction bs as [|c bs IH]; intros p k Hwf Hcan; cbn [pty_feed].
  { split; [done|]. split; [unfold same_config; auto 10|]. split; [cbn; lia|].
    rewrite Z.sub_diag. change (data_count 0 None) with 0%nat. cbn [take cook length].
    rewrite app_nil_r. split; [done|]. split; [by left|]. left. lia. }
  pose proof (pty_byte_spec p c Hwf Hcan) as Hb. destruct (pty_byte p c) as [p1|p1|sg].
  - destruct Hb as (W1 & C1 & Hd). assert (Hcan1 : canonical_pty p1).
    { unfold canonical_pty in *. destruct C1 as (_ & _ & _ & _ & _ & -> & _). done. }
    specialize (IH p1 (k + 1) W1 Hcan1). destruct (pty_feed p1 bs (k + 1)) as [[p' n] sig].
    destruct IH as (W & C & Hn & Hm). split; [done|]. split; [by eapply same_config_trans|].
    cbn [length]. split; [lia|].
    assert (Hs : data_count (n - k) sig = S (data_count (n - (k + 1)) sig)).
    { unfold data_count. destruct sig as [s|]; [|lia]. cbv zeta in Hm.
      destruct (cook (line p1) (take _ bs)). destruct Hm as (_ & _ & Hk & _). lia. }
    cbv zeta in *. rewrite Hs. cbn [take lookup list_lookup]. rewrite cook_cons.
    destruct (cook (line p) [c]) as [d1 l1]. destruct Hd as [Hd1 Hl1]. rewrite Hl1 in Hm.
    destruct (cook l1 _) as [d2 l2]. destruct Hm as [Hd2 Hcase].
    split; [by rewrite Hd2, Hd1, <-app_assoc|].
    destruct sig as [s|]; [destruct Hcase as (? & ? & ?); split_and!; auto; lia|].
    destruct Hcase as (Hl & Hstop). split; [done|]. destruct Hstop as [->|?]; [left; lia|auto].
  - destruct Hb as (W1 & C1 & Hi & Hl & Hstop). split; [done|]. split; [done|]. split; [cbn; lia|].
    rewrite Z.sub_diag. change (data_count 0 None) with 0%nat. cbn [take cook lookup list_lookup].
    rewrite app_nil_r, Hi. split; [done|]. split; [|by right].
    destruct Hl as [?|[-> ?]]; auto.
  - split; [done|]. split; [unfold same_config; auto 10|]. split; [cbn; lia|].
    replace (k + 1 - k) with 1 by lia. change (data_count 1 (Some sg)) with 0%nat.
    cbn [take cook lookup list_lookup].
    rewrite app_nil_r. split; [done|]. split; [done|].
    split; [lia|]. destruct Hb as [[-> ->]|[-> ->]]; auto.
Qed.

(** ** Whole-table facts *)

Definition term_wf (s : terminals) : Prop :=
  length (ttys s) = Z.to_nat TTY_MAX /\ length (ptys s) = Z.to_nat PTY_MAX /\
  Forall (fun t => wf_ring (input t) /\ wf_ring (output t)) (ttys s) /\ Forall pty_wf (ptys s).

(** The bytes waiting for the owner of a TTY. *)
Definition input_of (s : terminals) (id : Z) : list Z :=
  match tty_at s id with Some t => bytes_of (input t) | None => [] end.

Lemma tty_at_inv s id t :
  term_wf s -> tty_at s id = Some t ->
  0 <= id < TTY_MAX /\ allocated t = true /\ wf_ring (input t) /\ wf_ring (output t).
Proof.
  intros (Hl & _ & Hf & _). unfold tty_at.
  destruct (Z.leb_spec 0 id), (Z.ltb_spec id TTY_MAX); cbn [andb]; try done.
  destruct (lookup_lt_is_Some_2 (ttys s) (Z.to_nat id)) as [t' Ht]; [lia|].
  rewrite (nth_lookup_Some _ _ _ _ Ht). destruct (allocated t') eqn:Ha; [|done]. intros [= <-].
  rewrite Forall_forall in Hf. apply list_elem_of_lookup_2 in Ht. split; [done|]. split; [done|]. by apply Hf.
Qed.

Lemma tty_at_set s id t :
  term_wf s -> 0 <= id < TTY_MAX -> allocated t = true -> tty_at (set_tty id t s) id = Some t.
Proof.
  intros (Hl & _) Hid Ha. unfold tty_at, set_tty.
  destruct (Z.leb_spec 0 id), (Z.ltb_spec id TTY_MAX); cbn [andb]; try lia. cbn [ttys].
  rewrite nth_lookup, list_lookup_insert_eq by lia. cbn. by rewrite Ha.
Qed.

Lemma set_tty_wf s id t :
  term_wf s -> wf_ring (input t) -> wf_ring (output t) -> term_wf (set_tty id t s).
Proof.
  intros (Hl & Hp & Hf & Hfp) Hi Ho. split; [cbn; by rewrite length_insert|]. split; [done|].
  split; [|done]. cbn. by apply Forall_insert.
Qed.

Lemma tty_write_input_spec s id bs s' n :
  term_wf s -> tty_write_input s id (Some bs) = (s', n) ->
  (tty_at s id = None /\ n = -1 /\ s' = s) \/
  (exists t r, tty_at s id = Some t /\ s' = set_tty id (set_input r t) s /\ term_wf s' /\
     tty_at s' id = Some (set_input r t) /\
     n = Z.of_nat (room (input t) bs) /\ bytes_of r = bytes_of (input t) ++ take (room (input t) bs) bs).
Proof.
  intros Hwf. unfold tty_write_input. destruct (tty_at s id) as [t|] eqn:Ht; [|intros [= <- <-]; auto].
  destruct (tty_at_inv s id t Hwf Ht) as (Hid & Ha & Hi & Ho).
  pose proof (ring_write_spec bs _ Hi) as Hw. destruct (ring_write (input t) bs) as [r m].
  destruct Hw as (Hr & -> & Hc). intros [= <- <-]. right. exists t, r.
  split; [done|]. split; [done|]. split; [by apply set_tty_wf|]. split; [|done]. by apply tty_at_set.
Qed.

(** ** Properties *)

(** TTY input is a bounded FIFO private to the owner: what a driver writes
    is appended (cut to the room left, which is what it reports), and the owner
    reads, in order, the oldest bytes, leaving the rest; no other process can
    read it. *)
Theorem tty_input_fifo s id bs s1 n owner size s2 rc out :
  term_wf s -> tty_write_input s id (Some bs) = (s1, n) -> 0 <= n ->
  tty_read_process s1 owner id false size = (s2, rc, out) ->
  exists t q, tty_at s id = Some t /\ q = input_of s id ++ take (Z.to_nat n) bs /\
    n = Z.of_nat (room (input t) bs) /\ term_wf s2 /\
    if owner_pid t =? owner
    then out = take (Z.to_nat size) q /\ rc = Z.of_nat (length out) /\ input_of s2 id = drop (Z.to_nat size) q
    else rc = -1 /\ s2 = s1 /\ out = [].
Proof.
  intros Hwf Hw Hn Hr.
  destruct (tty_write_input_spec s id bs s1 n Hwf Hw) as [(_ & -> & _)|(t & r & Ht & -> & Hwf1 & Ht1 & -> & Hc)];
    [lia|].
  exists t, (bytes_of r). unfold input_of at 1. rewrite Ht, Nat2Z.id, Hc. split; [done|]. split; [done|].
  split; [done|]. unfold tty_read_process, owned, tty_read_input in Hr. rewrite Ht1 in Hr.
  cbn [owner_pid set_input input] in Hr. destruct (owner_pid t =? owner); [|by injection Hr as <- <- <-].
  destruct (tty_at_inv _ _ _ Hwf1 Ht1) as (Hid & Ha & Hi & Ho). cbn [input set_input] in Hi.
  pose proof (ring_read_spec (Z.to_nat size) r Hi) as Hrd.
  destruct (ring_read r (Z.to_nat size)) as [r' bs']. destruct Hrd as (Hr' & -> & Hd).
  injection Hr as <- <- <-. rewrite <-Hc. split; [by apply set_tty_wf|]. split; [done|]. split; [done|].
  unfold input_of. rewrite tty_at_set by done. cbn [input set_input]. exact Hd.
Qed.

(** The canonical line discipline means what [cook] says: of the bytes a
    master writes, the part reported as consumed has been edited into lines
    (erase, kill of a pending line by EOT, delivery at newline), the finished
    lines are appended to the slave's input in order, the unfinished one is
    kept, and Ctrl-C or Ctrl-Z ends the write with the corresponding signal.
    A write stops early only for lack of room; the one exception to "not
    consumed means not stored" is a newline that did not fit. *)
Theorem pty_canonical_correct p bs :
  pty_wf p -> canonical_pty p ->
  let '(p', n, sig) := pty_feed p bs 0 in
  pty_wf p' /\ same_config p p' /\ 0 <= n <= Z.of_nat (length bs) /\
  let m := data_count n sig in
  let '(d, l) := cook (line p) (take m bs) in
  bytes_of (p_input p') = bytes_of (p_input p) ++ d /\
  match sig with
  | Some s => line p' = l /\ 0 < n /\
      (bs !! m = Some 3 /\ s = KESH_SIGINT \/ bs !! m = Some 26 /\ s = KESH_SIGSTOP)
  | None => (line p' = l \/ (bs !! m = Some 10 /\ line p' = l ++ [10])) /\
      (n = Z.of_nat (length bs) \/ PTY_LINE_SIZE <= Z.of_nat (length (line p')) \/ no_room p' = true)
  end.
Proof.
  intros Hwf Hcan. pose proof (pty_feed_spec bs p 0 Hwf Hcan) as H.
  destruct (pty_feed p bs 0) as [[p' n] sig]. by rewrite Z.sub_0_r in H.
Qed.

(** A newline that does not fit is reported as not consumed although it has
    been stored: when the writer retries it, as it must, after the slave drained
    its input, the line is delivered with two newlines. *)
Theorem pty_newline_retry_duplicates p p1 n sig p2 :
  pty_wf p -> canonical_pty p -> Z.of_nat (length (line p)) < PTY_LINE_SIZE - 1 ->
  TTY_BUFFER_SIZE - used (p_input p) <= Z.of_nat (length (line p)) ->
  pty_feed p [10] 0 = (p1, n, sig) ->
  pty_wf p2 -> same_config p1 p2 -> line p2 = line p1 -> used (p_input p2) = 0 ->
  n = 0 /\ sig = None /\
  exists p3, pty_feed p2 [10] 0 = (p3, 1, None) /\ bytes_of (p_input p3) = line p ++ [10; 10].
Proof.
  intros Hwf Hcan Hlen Hfull Hf Hwf2 Hcfg Hl2 Hu2.
  assert (Hstep : forall q, canonical_pty q -> Z.of_nat (length (line q)) < PTY_LINE_SIZE ->
    pty_byte q 10 = let q := echo (set_line (line q ++ [10]) q) [10] in
                    if no_room q then Stop q else Next (flush_line q)).
  { intros q Hq Hlq. unfold pty_byte. rewrite Hq. cbn [negb orb Z.eqb Pos.eqb].
    destruct (Z.leb_spec PTY_LINE_SIZE (Z.of_nat (length (line q)))); [lia|done]. }
  assert (Hecho : forall q, pty_wf q -> Z.of_nat (length (line q)) < PTY_LINE_SIZE ->
    let q1 := echo (set_line (line q ++ [10]) q) [10] in
    pty_wf q1 /\ same_config q q1 /\ p_input q1 = p_input q /\ line q1 = line q ++ [10]).
  { intros q Hq Hlq. destruct (echo_spec (set_line (line q ++ [10]) q) [10]) as (W & C & I & L).
    - apply set_line_wf; [done|]. rewrite length_app. cbn. lia.
    - split; [done|]. split; [eapply same_config_trans; [apply set_rings_config|done]|done]. }
  cbn [pty_feed] in *. rewrite Hstep in Hf by (done || lia). cbv zeta in Hf.
  destruct (Hecho p Hwf ltac:(lia)) as (W1 & C1 & I1 & L1). cbv zeta in *.
  set (q1 := echo _ _) in *.
  assert (Hnr : no_room q1 = true).
  { unfold no_room. apply Z.ltb_lt. rewrite I1, L1, length_app. cbn. lia. }
  rewrite Hnr in Hf. injection Hf as <- <- <-. split; [done|]. split; [done|].
  assert (Hl2' : Z.of_nat (length (line p2)) < PTY_LINE_SIZE) by (rewrite Hl2, L1, length_app; cbn; lia).
  assert (Hcan2 : canonical_pty p2).
  { unfold canonical_pty in *. destruct C1 as (_ & _ & _ & _ & _ & E1 & _).
    destruct Hcfg as (_ & _ & _ & _ & _ & E2 & _). by rewrite E2, E1. }
  rewrite Hstep by done. cbv zeta. destruct (Hecho p2 Hwf2 Hl2') as (W3 & C3 & I3 & L3). cbv zeta in *.
  set (q2 := echo (set_line (line p2 ++ [10]) p2) [10]) in *.
  assert (Hr2 : no_room q2 = false).
  { unfold no_room. apply Z.ltb_ge. rewrite I3, L3, Hu2, length_app. cbn. unfold PTY_LINE_SIZE, TTY_BUFFER_SIZE in *. lia. }
  rewrite Hr2. destruct (flush_line_spec q2 W3 Hr2) as (_ & _ & I4 & _).
  eexists. split; [reflexivity|]. rewrite I4, I3, L3, Hl2, L1, <-app_assoc.
  assert (Hnil : bytes_of (p_input p2) = []).
  { apply length_zero_iff_nil. destruct Hwf2 as (Hi & _). pose proof (contents_length _ _ Hi). lia. }
  by rewrite Hnil.
Qed.

(** ** Concrete terminals *)

Definition tty_boot : terminals :=
  tty_init (Terminals (replicate 4 no_tty) (replicate 4 no_pty)).
Definition demo_ttys : terminals := fst (tty_create_for_process tty_boot 42).

Lemma empty_ring_wf : wf_ring empty_ring.
Proof. split; [reflexivity|]. unfold empty_ring, TTY_BUFFER_SIZE. cbn [tail used head]. split_and!; (lia || reflexivity). Qed.

Lemma no_pty_wf p : p_input p = empty_ring -> p_output p = empty_ring -> line p = [] -> pty_wf p.
Proof.
  intros Hi Ho Hl. split; [rewrite Hi; apply empty_ring_wf|]. split; [rewrite Ho; apply empty_ring_wf|].
  rewrite Hl. cbn. unfold PTY_LINE_SIZE. lia.
Qed.

Lemma tty_boot_wf : term_wf tty_boot.
Proof.
  split; [reflexivity|]. split; [reflexivity|]. split.
  - cbn [tty_init ttys]. apply Forall_map, Forall_replicate. cbn. split; apply empty_ring_wf.
  - cbn [tty_init ptys]. apply Forall_map, Forall_replicate. by apply no_pty_wf.
Qed.

Lemma demo_ttys_wf : term_wf demo_ttys.
Proof.
  assert (E : demo_ttys = set_tty 0 (Tty true 42 (reset empty_ring) (reset empty_ring)) tty_boot) by reflexivity.
  rewrite E. apply set_tty_wf; [apply tty_boot_wf|apply empty_ring_wf..].
Qed.

Definition demo_pty : pty :=
  Pty true true true 1 1 (Z.lor PTY_MODE_CANONICAL PTY_MODE_ECHO) empty_ring empty_ring [] (-1).
Definition full_ring : ring := fst (ring_write empty_ring (replicate 1024 97)).
Definition demo_full_pty : pty := set_rings full_ring empty_ring [104; 105] demo_pty.

Lemma full_ring_wf : wf_ring full_ring.
Proof.
  unfold full_ring. pose proof (ring_write_spec (replicate 1024 97) _ empty_ring_wf) as H.
  destruct (ring_write empty_ring _) as [r n]. apply H.
Qed.

Lemma demo_full_pty_wf : pty_wf demo_full_pty.
Proof.
  split; [apply full_ring_wf|]. split; [apply empty_ring_wf|]. cbn. unfold PTY_LINE_SIZE. lia.
Qed.

Lemma tty_input_fifo_witness :
  let w := tty_write_input demo_ttys 0 (Some [111; 107]) in
  let r := tty_read_process (fst w) 42 0 false 8 in
  snd w = 2 /\ snd r = [111; 107] /\ term_wf (fst (fst r)).
Proof.
  intros w r. assert (Hw : w = (fst w, 2)) by (vm_compute; reflexivity).
  split; [vm_compute; reflexivity|]. split; [vm_compute; reflexivity|].
  destruct (tty_input_fifo demo_ttys 0 [111; 107] (fst w) 2 42 8 (fst (fst r)) (snd (fst r)) (snd r)
    demo_ttys_wf Hw ltac:(lia)) as (t & q & _ & _ & _ & Hwf & _); [|exact Hwf].
  exact (eq_trans (surjective_pairing r) (f_equal (fun x => (x, snd r)) (surjective_pairing (fst r)))).
Defined.

Lemma pty_canonical_correct_witness :
  let '(p', n, _) := pty_feed demo_pty [104; 106; 127; 105; 10; 120] 0 in
  pty_wf p' /\ n = 6 /\ bytes_of (p_input p') = [104; 105; 10] /\ line p' = [120].
Proof.
  assert (Hwf : pty_wf demo_pty) by (apply no_pty_wf; reflexivity).
  pose proof (pty_canonical_correct demo_pty [104; 106; 127; 105; 10; 120] Hwf eq_refl) as H.
  assert (E : let '(p', n, _) := pty_feed demo_pty [104; 106; 127; 105; 10; 120] 0 in
    n = 6 /\ bytes_of (p_input p') = [104; 105; 10] /\ line p' = [120]) by (vm_compute; auto).
  destruct (pty_feed demo_pty _ 0) as [[p' n] sig]. destruct H as (H & _). split; [exact H|exact E].
Defined.

Lemma pty_newline_retry_duplicates_witness :
  let p1 := fst (fst (pty_feed demo_full_pty [10] 0)) in
  let p2 := set_rings (reset (p_input p1)) (p_output p1) (line p1) p1 in
  exists p3, pty_feed p2 [10] 0 = (p3, 1, None) /\ bytes_of (p_input p3) = [104; 105; 10; 10].
Proof.
  intros p1 p2. pose proof (pty_feed_spec [10] demo_full_pty 0 demo_full_pty_wf eq_refl) as H.
  assert (Hr : pty_feed demo_full_pty [10] 0 = (p1, snd (fst (pty_feed demo_full_pty [10] 0)),
                 snd (pty_feed demo_full_pty [10] 0))).
  { unfold p1. destruct (pty_feed demo_full_pty [10] 0) as [[? ?] ?]. reflexivity. }
  clearbody p1. rewrite Hr in H. destruct H as (Hwf1 & _).
  assert (Hwf2 : pty_wf p2).
  { destruct Hwf1 as (Hi & Ho & Hl). split; [|by split].
    destruct Hi as (Hi & _). by apply (reset_spec _ tty_cap). }
  assert (Hu : TTY_BUFFER_SIZE - used (p_input demo_full_pty) <= 2) by (vm_compute; discriminate).
  apply (pty_newline_retry_duplicates demo_full_pty p1 _ _ p2 demo_full_pty_wf eq_refl
    ltac:(vm_compute; reflexivity) Hu Hr Hwf2); [|reflexivity|reflexivity].
  unfold same_config. auto 10.
Defined.
