(* ===== verification/Fd.v ===== *)
(** File descriptors: [kernel/fd.c].

    Descriptors of a process point to open file descriptions, which are counted;
    pipes are rings shared by two descriptions.  What the descriptor layer calls
    in the file system, the terminals and the socket code is the interface
    [FdEnv]; scratch buffers come from the frame allocator ([Vmm.FrameAllocator]).
    [g_fds[pid][fd]] is the element [pid * FD_MAX_PER_PROCESS + fd] of one array. *)
From S2P Require Import Prelude Pmm Vmm Ring.

Definition FD_MAX_PROCESSES : Z := 16.
Definition FD_MAX_PER_PROCESS : Z := 64.
Definition FD_PATH_MAX : Z := 256.
Definition FD_IO_MAX : Z := 8 * 1024 * 1024.
Definition FD_PIPE_MAX : Z := 16.
Definition FD_PIPE_BUFFER : Z := 4096.
Definition FD_FILE_MAX : Z := FD_MAX_PROCESSES * FD_MAX_PER_PROCESS.

Definition FD_OPEN_READ : Z := 1.
Definition FD_OPEN_WRITE : Z := 2.
Definition FD_OPEN_CREATE : Z := 4.
Definition FD_OPEN_TRUNC : Z := 8.
Definition FD_OPEN_APPEND : Z := 16.
Definition FD_OPEN_DIRECTORY : Z := 32.
Definition FD_POLL_READ : Z := 1.
Definition FD_POLL_WRITE : Z := 2.
Definition FD_POLL_HANGUP : Z := 4.

Inductive fd_kind :=
  | FD_KIND_FILE | FD_KIND_DIRECTORY | FD_KIND_PIPE_READ | FD_KIND_PIPE_WRITE | FD_KIND_PTY
  | FD_KIND_UNIX_SOCKET | FD_KIND_MEMFD | FD_KIND_EPOLL | FD_KIND_EVDEV | FD_KIND_DRM_FB | FD_KIND_EVENTFD.

#[export] Instance fd_kind_eq_dec : EqDecision fd_kind.
Proof. solve_decision. Defined.

(** A path is its bytes up to the terminating NUL. *)
Abbreviation path_t := (list Z).

Record fd_pipe := FdPipe { pipe_allocated : bool; readers : Z; writers : Z; buffer : ring }.

Record fd_file := FdFile {
  references : Z; flags : Z; offset : Z; kind : fd_kind; pipe_id : Z; custom_ptr : Z; path : path_t
}.

Record fd_entry := FdEntry { open : bool; file_id : Z }.

Record fds := Fds { entries : list fd_entry; files : list fd_file; pipes : list fd_pipe }.

Definition no_entry : fd_entry := FdEntry false 0.
Definition no_file : fd_file := FdFile 0 0 0 FD_KIND_FILE 0 0 [].
Definition empty_buffer : ring := Ring (replicate (Z.to_nat FD_PIPE_BUFFER) 0) 0 0 0.
Definition no_pipe : fd_pipe := FdPipe false 0 0 empty_buffer.

(** A directory entry, as [vfs_list] and [fd_readdir] report it. *)
Record dirent := Dirent { de_name : list Z; de_size : Z; de_is_dir : bool }.

(** ** The environment *)

(** The services of other components, over their state [W].  A buffer the service
    fills is returned as the bytes stored. *)
Class FdEnv (W : Type) := {
  vfs_stat : W -> path_t -> option (Z * bool);
  vfs_write : W -> path_t -> list Z -> W * Z;
  vfs_read : W -> path_t -> Z -> W * Z * list Z;
  vfs_read_at : W -> path_t -> Z -> Z -> W * Z * list Z;
  vfs_list : W -> path_t -> Z * list dirent;
  env_pty_close : W -> Z -> Z -> W;
  env_pty_read : W -> Z -> Z -> Z -> W * Z * list Z;
  env_pty_write : W -> Z -> Z -> list Z -> W * Z;
  env_pty_available : W -> Z -> Z -> Z;
  unix_socket_recv_stream : W -> Z -> Z -> W * Z * list Z;
  unix_socket_send_stream : W -> Z -> list Z -> W * Z;
  unix_socket_poll_events : W -> Z -> Z -> Z;
  unix_socket_release : W -> Z -> W;
  unix_memfd_read : W -> Z -> Z -> Z -> W * Z * Z * list Z;
  unix_memfd_write : W -> Z -> Z -> list Z -> W * Z * Z;
  unix_memfd_release : W -> Z -> W;
  unix_epoll_release : W -> Z -> W;
  unix_eventfd_read : W -> Z -> Z -> W * Z * list Z;
  unix_eventfd_write : W -> Z -> list Z -> W * Z;
  unix_eventfd_poll : W -> Z -> Z -> Z;
  unix_eventfd_release : W -> Z -> W;
  evdev_read : W -> Z -> Z -> W * Z * list Z;
  evdev_poll : W -> Z -> Z -> Z;
  evdev_release : W -> Z -> W;
  drm_fb_release : W -> Z -> W
}.

(** ** Table access *)

Definition valid_pid (pid : Z) : bool := (0 <=? pid) && (pid <? FD_MAX_PROCESSES).
Definition valid_fd (fd : Z) : bool := (0 <=? fd) && (fd <? FD_MAX_PER_PROCESS).
Definition slot (pid fd : Z) : Z := pid * FD_MAX_PER_PROCESS + fd.

(** [g_fds[pid][fd]], [g_files[id]], [g_pipes[id]] and their updates. *)
Definition g_fds (s : fds) (pid fd : Z) : fd_entry := at_z no_entry (entries s) (slot pid fd).
Definition g_files (s : fds) (id : Z) : fd_file := at_z no_file (files s) id.
Definition g_pipes (s : fds) (id : Z) : fd_pipe := at_z no_pipe (pipes s) id.

Definition set_fd (pid fd : Z) (e : fd_entry) (s : fds) : fds :=
  Fds (<[Z.to_nat (slot pid fd) := e]> (entries s)) (files s) (pipes s).
Definition set_file (id : Z) (f : fd_file) (s : fds) : fds :=
  Fds (entries s) (<[Z.to_nat id := f]> (files s)) (pipes s).
Definition set_pipe (id : Z) (p : fd_pipe) (s : fds) : fds :=
  Fds (entries s) (files s) (<[Z.to_nat id := p]> (pipes s)).

Definition set_references (n : Z) (f : fd_file) : fd_file :=
  FdFile n (flags f) (offset f) (kind f) (pipe_id f) (custom_ptr f) (path f).
Definition set_offset (o : Z) (f : fd_file) : fd_file :=
  FdFile (references f) (flags f) o (kind f) (pipe_id f) (custom_ptr f) (path f).
Definition set_buffer (b : ring) (p : fd_pipe) : fd_pipe :=
  FdPipe (pipe_allocated p) (readers p) (writers p) b.

Definition entry_for (s : fds) (pid fd : Z) : option fd_entry :=
  if valid_pid pid && valid_fd fd && open (g_fds s pid fd) then Some (g_fds s pid fd) else None.

(** [file_for(entry_for(pid, fd))], with the index of the file. *)
Definition file_for (s : fds) (pid fd : Z) : option (Z * fd_file) :=
  match entry_for s pid fd with
  | None => None
  | Some e =>
      if (file_id e <? FD_FILE_MAX) && negb (references (g_files s (file_id e)) =? 0)
      then Some (file_id e, g_files s (file_id e)) else None
  end.

Definition free_file_slot (s : fds) : option Z :=
  find_z (fun i => references (g_files s i) =? 0) 0 (Z.to_nat FD_FILE_MAX).
Definition free_fd_slot (s : fds) (pid skip : Z) : option Z :=
  find_z (fun i => negb (i =? skip) && negb (open (g_fds s pid i))) 0 (Z.to_nat FD_MAX_PER_PROCESS).
Definition free_pipe (s : fds) : option Z :=
  find_z (fun i => negb (pipe_allocated (g_pipes s i))) 0 (Z.to_nat FD_PIPE_MAX).

(** [copy_path]: the path cut to the buffer, and whether it fitted. *)
Definition copy_path (p : path_t) : path_t * bool :=
  (take (Z.to_nat (FD_PATH_MAX - 1)) p, Z.of_nat (length p) <? FD_PATH_MAX).

Definition add_clamped (a b : Z) : Z :=
  if 2 ^ 64 - 1 - a <? b then 2 ^ 64 - 1 else a + b.

Definition fd_init (s : fds) : fds :=
  Fds (map (fun e => FdEntry false (file_id e)) (entries s)) (map (set_references 0) (files s))
    (map (fun p => FdPipe false (readers p) (writers p) (buffer p)) (pipes s)).

(** [for (i = 0; i < count; ++i) { out[i] = data[tail]; tail = ...; }] with
    [used] lowered after the loop. *)
Fixpoint pipe_take (r : ring) (count : nat) : ring * list Z :=
  match count with
  | O => (r, [])
  | S n =>
      let c := ring_at r (tail r) in
      let '(r', cs) := pipe_take (Ring (rdata r) (head r) ((tail r + 1) mod FD_PIPE_BUFFER) (used r)) n in
      (r', c :: cs)
  end.

Fixpoint pipe_put (r : ring) (bytes : list Z) : ring :=
  match bytes with
  | [] => r
  | c :: bs =>
      pipe_put (Ring (<[Z.to_nat (head r) := c]> (rdata r)) ((head r + 1) mod FD_PIPE_BUFFER) (tail r) (used r)) bs
  end.

Definition set_used (n : Z) (r : ring) : ring := Ring (rdata r) (head r) (tail r) (u16 n).

(** ** Descriptors *)

(** Point a descriptor at a file. *)
Definition bind_fd (pid fd id : Z) (s : fds) : fds := set_fd pid fd (FdEntry true id) s.

Definition fd_pipe_create (s : fds) (pid : Z) (null : bool) : fds * Z * option (Z * Z) :=
  if negb (valid_pid pid) || null then (s, -1, None)
  else
    let read_slot := free_fd_slot s pid (-1) in
    let write_slot := free_fd_slot s pid (default (-1) read_slot) in
    match read_slot, write_slot, free_file_slot s with
    | Some rs, Some ws, Some rf =>
        let s1 := set_file rf (set_references 1 (g_files s rf)) s in
        match free_file_slot s1 with
        | None => (set_file rf (set_references 0 (g_files s1 rf)) s1, -1, None)
        | Some wf =>
            match free_pipe s1 with
            | None => (set_file rf (set_references 0 (g_files s1 rf)) s1, -1, None)
            | Some pi =>
                let b := buffer (g_pipes s1 pi) in
                let s2 := set_pipe pi (FdPipe true 1 1 (reset b)) s1 in
                let fr := g_files s2 rf in
                let s3 := set_file rf (FdFile 1 FD_OPEN_READ (offset fr) FD_KIND_PIPE_READ pi
                                         (custom_ptr fr) (path fr)) s2 in
                let fw := g_files s3 wf in
                let s4 := set_file wf (FdFile 1 FD_OPEN_WRITE (offset fw) FD_KIND_PIPE_WRITE pi
                                         (custom_ptr fw) (path fw)) s3 in
                (bind_fd pid ws wf (bind_fd pid rs rf s4), 0, Some (rs, ws))
            end
        end
    | _, _, _ => (s, -1, None)
    end.

Definition fd_bind_pty (s : fds) (pid pty_handle fl : Z) : fds * Z :=
  if negb (valid_pid pid) || negb (has fl (Z.lor FD_OPEN_READ FD_OPEN_WRITE)) ||
     has fl (u32 (Z.lnot (Z.lor FD_OPEN_READ FD_OPEN_WRITE))) then (s, -1)
  else
    match free_fd_slot s pid (-1), free_file_slot s with
    | Some d, Some id =>
        let f := g_files s id in
        let s := set_file id (FdFile 1 fl 0 FD_KIND_PTY (u16 pty_handle) (custom_ptr f) (path f)) s in
        (bind_fd pid d id s, d)
    | _, _ => (s, -1)
    end.

Definition fd_bind_pty_stdio (s : fds) (pid pty_handle : Z) : fds * Z :=
  if negb (valid_pid pid) || open (g_fds s pid 0) || open (g_fds s pid 1) || open (g_fds s pid 2)
  then (s, -1)
  else
    match free_file_slot s with
    | None => (s, -1)
    | Some id =>
        let f := g_files s id in
        let s := set_file id (FdFile 3 (Z.lor FD_OPEN_READ FD_OPEN_WRITE) 0 FD_KIND_PTY (u16 pty_handle)
                                (custom_ptr f) (path f)) s in
        (foldl (fun s d => bind_fd pid d id s) s (seqZ 0 3), 0)
    end.

(** The common tail of the duplicating operations: [fd] becomes another name of
    the open file [id]. *)
Definition share (pid fd id : Z) (s : fds) : fds :=
  let s := bind_fd pid fd id s in
  set_file id (set_references (references (g_files s id) + 1) (g_files s id)) s.

Definition fd_dup_min (s : fds) (pid fd min_fd : Z) : fds * Z :=
  match file_for s pid fd with
  | None => (s, -1)
  | Some (id, _) =>
      if (min_fd <? 0) || (FD_MAX_PER_PROCESS <=? min_fd) then (s, -1)
      else
        match find_z (fun c => negb (open (g_fds s pid c))) min_fd (Z.to_nat (FD_MAX_PER_PROCESS - min_fd)) with
        | None => (s, -1)
        | Some c => (share pid c id s, c)
        end
  end.

Definition fd_dup (s : fds) (pid fd : Z) : fds * Z := fd_dup_min s pid fd 0.

(** The copy loop of [fd_inherit]: terminals are not inherited. *)
Definition inherit_one (parent child fd : Z) (s : fds) : fds :=
  match file_for s parent fd with
  | None => s
  | Some (id, f) => if decide (kind f = FD_KIND_PTY) then s else share child fd id s
  end.

Definition fd_inherit (s : fds) (parent child : Z) : fds * Z :=
  if negb (valid_pid parent) || negb (valid_pid child) || (parent =? child) then (s, -1)
  else if existsb (fun fd => open (g_fds s child fd)) (seqZ 0 FD_MAX_PER_PROCESS) then (s, -1)
  else (foldl (fun s fd => inherit_one parent child fd s) s (seqZ 0 FD_MAX_PER_PROCESS), 0).

Definition fd_create_custom (s : fds) (pid : Z) (k : fd_kind) (ptr fl : Z) : fds * Z :=
  if negb (valid_pid pid) then (s, -1)
  else
    match free_file_slot s with
    | None => (s, -1)
    | Some id =>
        match find_z (fun fd => negb (open (g_fds s pid fd))) 0 (Z.to_nat FD_MAX_PER_PROCESS) with
        | None => (s, -1)
        | Some fd =>
            let f := FdFile 1 (Z.lor fl (Z.lor FD_OPEN_READ FD_OPEN_WRITE)) 0 k
                       (pipe_id (g_files s id)) ptr [] in
            (bind_fd pid fd id (set_file id f s), fd)
        end
    end.

Definition fd_get_custom (s : fds) (pid fd : Z) : option (fd_kind * Z) :=
  match file_for s pid fd with None => None | Some (_, f) => Some (kind f, custom_ptr f) end.

Definition fd_get_kind (s : fds) (pid fd : Z) : option fd_kind :=
  match file_for s pid fd with None => None | Some (_, f) => Some (kind f) end.

Definition fd_get_file_id (s : fds) (pid fd : Z) : Z :=
  match entry_for s pid fd with Some e => file_id e | None => 0xFFFF end.

Definition fd_bind_file_id (s : fds) (pid id : Z) : fds * Z :=
  if negb (valid_pid pid) || (FD_FILE_MAX <=? id) || (references (g_files s id) =? 0) then (s, -1)
  else
    match find_z (fun fd => negb (open (g_fds s pid fd))) 0 (Z.to_nat FD_MAX_PER_PROCESS) with
    | None => (s, -1)
    | Some fd => (share pid fd id s, fd)
    end.

Section Env.
Context {W : Type} `{FdEnv W, FrameAllocator W}.
Implicit Types w : W.

(** Scratch buffers of [fd_write]: the frames are zeroed by the allocator. *)
Definition alloc_buffer w (bytes : Z) : W * option (Z * Z) :=
  if (bytes =? 0) || (FD_IO_MAX <? bytes) then (w, None)
  else
    let n := (bytes + PAGE_SIZE - 1) / PAGE_SIZE in
    let '(w, phys) := fa_alloc_pages w n in
    (w, if phys =? 0 then None else Some (phys, n)).

Definition free_buffer w (b : Z * Z) : W :=
  if snd b =? 0 then w else fst (fa_free_pages w (fst b) (snd b)).

(** The allocation loop shared by [fd_open]'s tail. *)
Definition open_slot (s : fds) (pid : Z) (p : path_t) (fl size : Z) (is_dir : bool) : fds * Z :=
  match free_file_slot s with
  | None => (s, -1)
  | Some id =>
      match find_z (fun fd => negb (open (g_fds s pid fd))) 0 (Z.to_nat FD_MAX_PER_PROCESS) with
      | None => (s, -1)
      | Some fd =>
          let f := g_files s id in
          let '(cut, fits) := copy_path p in
          if negb fits
          then (set_file id (FdFile (references f) (flags f) (offset f) (kind f) (pipe_id f)
                               (custom_ptr f) cut) s, -1)
          else
            let f := FdFile 1 fl (if has fl FD_OPEN_APPEND then size else 0)
                       (if is_dir then FD_KIND_DIRECTORY else FD_KIND_FILE) (pipe_id f) (custom_ptr f) cut in
            (bind_fd pid fd id (set_file id f s), fd)
      end
  end.

Definition fd_open (s : fds) w (pid : Z) (p : option path_t) (fl : Z) : fds * W * Z :=
  match p with
  | None | Some [] => (s, w, -1)
  | Some p =>
      let writing := has fl FD_OPEN_WRITE in
      if negb (valid_pid pid) || has fl (u32 (Z.lnot 63)) ||
         negb (has fl (Z.lor FD_OPEN_READ FD_OPEN_WRITE)) then (s, w, -1)
      else if has fl (Z.lor (Z.lor FD_OPEN_TRUNC FD_OPEN_APPEND) FD_OPEN_CREATE) && negb writing
      then (s, w, -1)
      else if has fl FD_OPEN_DIRECTORY &&
              has fl (Z.lor (Z.lor (Z.lor FD_OPEN_WRITE FD_OPEN_CREATE) FD_OPEN_TRUNC) FD_OPEN_APPEND)
      then (s, w, -1)
      else
        (* create a missing file *)
        let '(w, st) :=
          match vfs_stat w p with
          | Some st => (w, Some st)
          | None =>
              if negb (has fl FD_OPEN_CREATE) then (w, None)
              else let '(w, rc) := vfs_write w p [] in
                   if rc <? 0 then (w, None) else (w, vfs_stat w p)
          end in
        match st with
        | None => (s, w, -1)
        | Some (size, is_dir) =>
            if negb (Bool.eqb is_dir (has fl FD_OPEN_DIRECTORY)) then (s, w, -1)
            else if has fl FD_OPEN_TRUNC then
              let '(w, rc) := vfs_write w p [] in
              if rc <? 0 then (s, w, -1)
              else
                match vfs_stat w p with
                | None => (s, w, -1)
                | Some (size, is_dir) =>
                    let '(s, fd) := open_slot s pid p fl size is_dir in (s, w, fd)
                end
            else let '(s, fd) := open_slot s pid p fl size is_dir in (s, w, fd)
        end
  end.

(** What closing the last descriptor of a file releases. *)
Definition release_pipe (f : fd_file) (s : fds) : fds :=
  if (pipe_id f <? FD_PIPE_MAX) && (bool_decide (kind f = FD_KIND_PIPE_READ) || bool_decide (kind f = FD_KIND_PIPE_WRITE))
  then
    let p := g_pipes s (pipe_id f) in
    let r := if bool_decide (kind f = FD_KIND_PIPE_READ) && negb (readers p =? 0)
             then readers p - 1 else readers p in
    let wr := if bool_decide (kind f = FD_KIND_PIPE_WRITE) && negb (writers p =? 0)
              then writers p - 1 else writers p in
    let keep := negb (r =? 0) || negb (wr =? 0) in
    set_pipe (pipe_id f) (FdPipe (if keep then pipe_allocated p else false) r wr (buffer p)) s
  else s.

Definition release_object w (pid : Z) (f : fd_file) : W :=
  match kind f with
  | FD_KIND_PTY => env_pty_close w pid (pipe_id f)
  | FD_KIND_UNIX_SOCKET => unix_socket_release w (custom_ptr f)
  | FD_KIND_MEMFD => unix_memfd_release w (custom_ptr f)
  | FD_KIND_EPOLL => unix_epoll_release w (custom_ptr f)
  | FD_KIND_EVENTFD => unix_eventfd_release w (custom_ptr f)
  | FD_KIND_EVDEV => evdev_release w (custom_ptr f)
  | FD_KIND_DRM_FB => drm_fb_release w (custom_ptr f)
  | _ => w
  end.

Definition fd_close (s : fds) w (pid fd : Z) : fds * W * Z :=
  match file_for s pid fd with
  | None => (s, w, -1)
  | Some (id, f) =>
      let f := set_references (references f - 1) f in
      let s := set_file id f s in
      let '(s, w) :=
        if references f =? 0 then
          let s := release_pipe f s in
          let w := release_object w pid f in
          (set_file id (FdFile 0 (flags f) (offset f) (kind f) (pipe_id f) 0 []) s, w)
        else (s, w) in
      (set_fd pid fd (FdEntry false (file_id (g_fds s pid fd))) s, w, 0)
  end.

Definition fd_dup2 (s : fds) w (pid source_fd target_fd : Z) : fds * W * Z :=
  match file_for s pid source_fd with
  | None => (s, w, -1)
  | Some (id, _) =>
      if negb (valid_fd target_fd) then (s, w, -1)
      else if source_fd =? target_fd then (s, w, target_fd)
      else if open (g_fds s pid target_fd) then
        let '(s, w, rc) := fd_close s w pid target_fd in
        if negb (rc =? 0) then (s, w, -1) else (share pid target_fd id s, w, target_fd)
      else (share pid target_fd id s, w, target_fd)
  end.

Definition fd_close_owner (s : fds) w (pid : Z) : fds * W :=
  if valid_pid pid then
    foldl (fun '(s, w) fd =>
             if open (g_fds s pid fd) then let '(s, w, _) := fd_close s w pid fd in (s, w) else (s, w))
      (s, w) (seqZ 0 FD_MAX_PER_PROCESS)
  else (s, w).

(** *** Input and output *)

Definition update_offset (id o : Z) (s : fds) : fds := set_file id (set_offset o (g_files s id)) s.

Definition fd_read_at (s : fds) w (pid fd off : Z) (null : bool) (max_bytes : Z) : W * Z * list Z :=
  match file_for s pid fd with
  | None => (w, -1, [])
  | Some (_, f) =>
      if negb (bool_decide (kind f = FD_KIND_FILE)) || null || (max_bytes =? 0) || (FD_IO_MAX <? max_bytes)
      then (w, -1, [])
      else vfs_read_at w (path f) off max_bytes
  end.

(** Reading a pipe: never blocks, at most what is there. *)
Definition pipe_read (s : fds) (f : fd_file) (max_bytes : Z) : fds * Z * list Z :=
  let p := g_pipes s (pipe_id f) in
  if negb (pipe_id f <? FD_PIPE_MAX) || negb (pipe_allocated p) then (s, -1, [])
  else
    let b := buffer p in
    let count := if max_bytes <? used b then max_bytes else used b in
    let '(b', out) := pipe_take b (Z.to_nat count) in
    (set_pipe (pipe_id f) (set_buffer (set_used (used b - count) b') p) s, count, out).

Definition fd_read (s : fds) w (pid fd : Z) (null : bool) (max_bytes : Z) : fds * W * Z * list Z :=
  match file_for s pid fd with
  | None => (s, w, -1, [])
  | Some (id, f) =>
      if negb (has (flags f) FD_OPEN_READ) || null || (max_bytes =? 0) || (FD_IO_MAX <? max_bytes)
      then (s, w, -1, [])
      else
        match kind f with
        | FD_KIND_UNIX_SOCKET =>
            let '(w, rc, out) := unix_socket_recv_stream w (custom_ptr f) max_bytes in (s, w, rc, out)
        | FD_KIND_MEMFD =>
            let '(w, rc, off, out) := unix_memfd_read w (custom_ptr f) (offset f) max_bytes in
            (update_offset id off s, w, rc, out)
        | FD_KIND_EVDEV => let '(w, rc, out) := evdev_read w (custom_ptr f) max_bytes in (s, w, rc, out)
        | FD_KIND_EVENTFD =>
            let '(w, rc, out) := unix_eventfd_read w (custom_ptr f) max_bytes in (s, w, rc, out)
        | FD_KIND_PIPE_READ => let '(s, rc, out) := pipe_read s f max_bytes in (s, w, rc, out)
        | FD_KIND_PTY => let '(w, rc, out) := env_pty_read w pid (pipe_id f) max_bytes in (s, w, rc, out)
        | FD_KIND_FILE =>
            let '(w, copied, out) := fd_read_at s w pid fd (offset f) null max_bytes in
            (if 0 <? copied then update_offset id (u64 (offset f + copied)) s else s, w, copied, out)
        | _ => (s, w, -1, [])
        end
  end.

(** Writing a pipe: -2 without a reader, otherwise what fits. *)
Definition pipe_write (s : fds) (f : fd_file) (data : list Z) (bytes : Z) : fds * Z :=
  let p := g_pipes s (pipe_id f) in
  if negb (pipe_id f <? FD_PIPE_MAX) || negb (pipe_allocated p) then (s, -1)
  else if readers p =? 0 then (s, -2)
  else
    let b := buffer p in
    let available := FD_PIPE_BUFFER - used b in
    let count := if bytes <? available then bytes else available in
    (set_pipe (pipe_id f) (set_buffer (set_used (used b + count) (pipe_put b (take (Z.to_nat count) data))) p) s,
     count).

(** [scratch[at + i] = data[i]] *)
Definition overlay (scratch : list Z) (at_ : Z) (data : list Z) : list Z :=
  take (Z.to_nat at_) scratch ++ data ++ drop (Z.to_nat at_ + length data) scratch.

(** Writing a regular file: the whole file is read into a zeroed scratch buffer,
    the new bytes are laid over it and the result is written back. *)
Definition file_write (s : fds) w (id : Z) (f : fd_file) (data : list Z) (bytes : Z) : fds * W * Z :=
  match vfs_stat w (path f) with
  | None => (s, w, -1)
  | Some (stat_size, is_dir) =>
      if is_dir then (s, w, -1)
      else
        let end_ := add_clamped (offset f) bytes in
        let size := if end_ <? stat_size then stat_size else end_ in
        if FD_IO_MAX <? size then (s, w, -1)
        else
          let '(w, buf) := alloc_buffer w (if size =? 0 then 1 else size) in
          match buf with
          | None => (s, w, -1)
          | Some b =>
              let scratch := replicate (Z.to_nat (snd b * PAGE_SIZE)) 0 in
              let '(w, rc, old) := if stat_size =? 0 then (w, 0, []) else vfs_read w (path f) stat_size in
              if rc <? 0 then (s, free_buffer w b, -1)
              else
                let scratch := overlay scratch 0 old in
                let scratch := overlay scratch (offset f) data in
                let '(w, result) := vfs_write w (path f) (take (Z.to_nat size) scratch) in
                let s := if result <? 0 then s else update_offset id end_ s in
                (s, free_buffer w b, if result <? 0 then result else bytes)
          end
  end.

(** [data] is [None] for a null pointer; [bytes] of it are used. *)
Definition fd_write (s : fds) w (pid fd : Z) (data : option (list Z)) (bytes : Z) : fds * W * Z :=
  match file_for s pid fd with
  | None => (s, w, -1)
  | Some (id, f) =>
      if negb (has (flags f) FD_OPEN_WRITE) || (bool_decide (data = None) && negb (bytes =? 0)) ||
         (FD_IO_MAX <? bytes) then (s, w, -1)
      else
        let d := take (Z.to_nat bytes) (default [] data) in
        match kind f with
        | FD_KIND_UNIX_SOCKET => let '(w, rc) := unix_socket_send_stream w (custom_ptr f) d in (s, w, rc)
        | FD_KIND_MEMFD =>
            let '(w, rc, off) := unix_memfd_write w (custom_ptr f) (offset f) d in
            (update_offset id off s, w, rc)
        | FD_KIND_EVENTFD => let '(w, rc) := unix_eventfd_write w (custom_ptr f) d in (s, w, rc)
        | FD_KIND_PIPE_WRITE => let '(s, rc) := pipe_write s f d bytes in (s, w, rc)
        | FD_KIND_PTY => let '(w, rc) := env_pty_write w pid (pipe_id f) d in (s, w, rc)
        | FD_KIND_FILE => file_write s w id f d bytes
        | _ => (s, w, -1)
        end
  end.

Definition is_directory (f : fd_file) : bool := bool_decide (kind f = FD_KIND_DIRECTORY).
Definition is_regular (f : fd_file) : bool := bool_decide (kind f = FD_KIND_FILE).

Definition fd_seek (s : fds) w (pid fd off whence : Z) : fds * Z :=
  match file_for s pid fd with
  | None => (s, -1)
  | Some (id, f) =>
      if (negb (is_regular f) && negb (is_directory f)) ||
         (negb (whence =? 0) && negb (whence =? 1) && negb (whence =? 2)) then (s, -1)
      else
        match vfs_stat w (path f) with
        | None => (s, -1)
        | Some (stat_size, is_dir) =>
            if negb (Bool.eqb is_dir (is_directory f)) then (s, -1)
            else
              let extent := if is_directory f then fst (vfs_list w (path f)) else i64 stat_size in
              if is_directory f && (extent <? 0) then (s, -1)
              else
                let base := if whence =? 0 then 0 else if whence =? 1 then i64 (offset f) else extent in
                if ((0 <? off) && (2 ^ 63 - 1 - off <? base)) || ((off <? 0) && (base <? - off)) then (s, -1)
                else
                  let next := base + off in
                  if (next <? 0) || (is_regular f && (FD_IO_MAX <? next)) ||
                     (is_directory f && (extent <? next)) then (s, -1)
                  else (update_offset id next s, next)
        end
  end.

Definition flag_if (b : bool) (m : Z) : Z := if b then m else 0.

(** The readiness of an open file. *)
Definition file_ready (s : fds) w (pid : Z) (f : fd_file) (events : Z) : Z :=
  match kind f with
  | FD_KIND_UNIX_SOCKET => unix_socket_poll_events w (custom_ptr f) events
  | FD_KIND_MEMFD | FD_KIND_DRM_FB => Z.land events (Z.lor FD_POLL_READ FD_POLL_WRITE)
  | FD_KIND_EVDEV => evdev_poll w (custom_ptr f) events
  | FD_KIND_EVENTFD => unix_eventfd_poll w (custom_ptr f) events
  | FD_KIND_FILE =>
      Z.land events (Z.lor (flag_if (has (flags f) FD_OPEN_READ) FD_POLL_READ)
                           (flag_if (has (flags f) FD_OPEN_WRITE) FD_POLL_WRITE))
  | FD_KIND_DIRECTORY =>
      let count := fst (vfs_list w (path f)) in
      Z.land events (flag_if (has (flags f) FD_OPEN_READ && (0 <=? count) && (offset f <? count)) FD_POLL_READ)
  | FD_KIND_PTY =>
      Z.land events
        (Z.lor (flag_if (has (flags f) FD_OPEN_WRITE) FD_POLL_WRITE)
           (flag_if (has (flags f) FD_OPEN_READ && (0 <? env_pty_available w pid (pipe_id f))) FD_POLL_READ))
  | _ =>
      let p := g_pipes s (pipe_id f) in
      if (FD_PIPE_MAX <=? pipe_id f) || negb (pipe_allocated p) then -1
      else
        let rd := bool_decide (kind f = FD_KIND_PIPE_READ) in
        let wr := bool_decide (kind f = FD_KIND_PIPE_WRITE) in
        Z.land events
          (Z.lor (Z.lor (flag_if (rd && negb (used (buffer p) =? 0)) FD_POLL_READ)
                    (flag_if (wr && (used (buffer p) <? FD_PIPE_BUFFER) && negb (readers p =? 0)) FD_POLL_WRITE))
             (flag_if ((rd && (writers p =? 0)) || (wr && (readers p =? 0))) FD_POLL_HANGUP))
  end.

Definition fd_poll (s : fds) w (pid fd events : Z) : Z :=
  if has events (u32 (Z.lnot (Z.lor (Z.lor FD_POLL_READ FD_POLL_WRITE) FD_POLL_HANGUP))) then -1
  else
    match file_for s pid fd with
    | None => -1
    | Some (_, f) => file_ready s w pid f events
    end.

Definition fd_readdir (s : fds) w (pid fd : Z) (null : bool) : fds * Z * option dirent :=
  match file_for s pid fd with
  | None => (s, -1, None)
  | Some (id, f) =>
      if negb (is_directory f) || negb (has (flags f) FD_OPEN_READ) || null then (s, -1, None)
      else
        let '(count, es) := vfs_list w (path f) in
        if count <? 0 then (s, -1, None)
        else if count <=? offset f then (s, 0, None)
        else
          let e := at_z (Dirent [] 0 false) es (offset f) in
          (update_offset id (offset f + 1) s, 1,
           Some (Dirent (take 63 (de_name e)) (de_size e) (de_is_dir e)))
  end.

Definition fd_stat (s : fds) w (pid fd : Z) : option (Z * bool) :=
  match file_for s pid fd with
  | None => None
  | Some (_, f) => if is_regular f || is_directory f then vfs_stat w (path f) else None
  end.
End Env.
