(* ===== verification/FdInv.v ===== *)
(** The invariant of the descriptor tables: every open file is referenced by
    exactly as many descriptors as it counts, and every pipe counts its open
    ends. *)
From S2P Require Import Prelude Pmm Vmm Ring Fd.

(** ** The ledger of references *)

Definition points_to (id : Z) (e : fd_entry) : Z := b2z (open e && (file_id e =? id)).

(** Descriptors that name the open file [id]. *)
Definition live_refs (s : fds) (id : Z) : Z := zsum (points_to id) (entries s).

Definition valid_file (id : Z) : Prop := 0 <= id < FD_FILE_MAX.

(** The counts exceed the descriptors by [d] (0 between operations). *)
Record balanced (s : fds) (d : Z -> Z) : Prop := Balanced {
  bal_entries : length (entries s) = Z.to_nat FD_FILE_MAX;
  bal_files : length (files s) = Z.to_nat FD_FILE_MAX;
  bal_pipes : length (pipes s) = Z.to_nat FD_PIPE_MAX;
  bal_range : Forall (fun e => open e = true -> valid_file (file_id e)) (entries s);
  bal_refs id : valid_file id -> references (g_files s id) = live_refs s id + d id
}.

Lemma valid_pid_iff pid : Fd.valid_pid pid = true <-> 0 <= pid < 16.
Proof. unfold valid_pid, FD_MAX_PROCESSES. rewrite andb_true_iff, Z.leb_le, Z.ltb_lt. done. Qed.

Lemma valid_fd_iff fd : valid_fd fd = true <-> 0 <= fd < 64.
Proof. unfold valid_fd, FD_MAX_PER_PROCESS. rewrite andb_true_iff, Z.leb_le, Z.ltb_lt. done. Qed.

Lemma slot_bound pid fd : 0 <= pid < 16 -> 0 <= fd < 64 -> 0 <= slot pid fd < FD_FILE_MAX.
Proof. unfold slot, FD_FILE_MAX, FD_MAX_PROCESSES, FD_MAX_PER_PROCESS. lia. Qed.

Lemma slot_inj pid fd pid' fd' :
  0 <= fd < 64 -> 0 <= fd' < 64 -> slot pid fd = slot pid' fd' -> pid = pid' /\ fd = fd'.
Proof. unfold slot, FD_MAX_PER_PROCESS. lia. Qed.

Lemma points_to_nonneg id e : 0 <= points_to id e <= 1.
Proof. unfold points_to. destruct (_ && _); cbn; lia. Qed.

Lemma live_refs_nonneg s id : 0 <= live_refs s id.
Proof. apply zsum_nonneg, Forall_forall. intros e _. apply points_to_nonneg. Qed.

Lemma zsum_ge {T} (g : T -> Z) (l : list T) x :
  (forall y, 0 <= g y) -> x ∈ l -> g x <= zsum g l.
Proof.
  intros Hg. induction 1 as [y l|y z l Hy IH]; cbn [zsum foldr]; fold (zsum g l).
  - assert (0 <= zsum g l) by (apply zsum_nonneg, Forall_forall; auto). lia.
  - specialize (Hg z). lia.
Qed.

Lemma g_fds_lookup s d pid fd :
  balanced s d -> 0 <= pid < 16 -> 0 <= fd < 64 ->
  entries s !! Z.to_nat (slot pid fd) = Some (g_fds s pid fd).
Proof.
  intros Hb Hp Hf. apply at_z_lookup. rewrite (bal_entries _ _ Hb).
  pose proof (slot_bound pid fd Hp Hf). unfold FD_FILE_MAX, FD_MAX_PROCESSES, FD_MAX_PER_PROCESS in *. lia.
Qed.

Lemma open_valid_file s d pid fd :
  balanced s d -> 0 <= pid < 16 -> 0 <= fd < 64 -> open (g_fds s pid fd) = true ->
  valid_file (file_id (g_fds s pid fd)) /\ 0 < live_refs s (file_id (g_fds s pid fd)).
Proof.
  intros Hb Hp Hf Ho. pose proof (g_fds_lookup s d pid fd Hb Hp Hf) as Hl.
  apply list_elem_of_lookup_2 in Hl. split.
  - pose proof (bal_range _ _ Hb) as Hr. rewrite Forall_forall in Hr. by apply Hr.
  - pose proof (zsum_ge (points_to (file_id (g_fds s pid fd))) _ _
      (fun y => proj1 (points_to_nonneg _ y)) Hl) as Hge.
    unfold points_to in Hge at 1. rewrite Ho, Z.eqb_refl in Hge. cbn in Hge. unfold live_refs. lia.
Qed.

(** ** How the updates move the ledger *)

Lemma g_fds_set_fd s d pid fd e pid' fd' :
  balanced s d -> 0 <= pid < 16 -> 0 <= fd < 64 -> 0 <= pid' < 16 -> 0 <= fd' < 64 ->
  g_fds (set_fd pid fd e s) pid' fd' = if (pid' =? pid) && (fd' =? fd) then e else g_fds s pid' fd'.
Proof.
  intros Hb Hp Hf Hp' Hf'. unfold g_fds. cbn [entries set_fd].
  pose proof (slot_bound pid fd Hp Hf). pose proof (slot_bound pid' fd' Hp' Hf').
  rewrite at_z_insert by (rewrite ?(bal_entries _ _ Hb); unfold FD_FILE_MAX, FD_MAX_PROCESSES, FD_MAX_PER_PROCESS in *; lia).
  destruct (Z.eqb_spec (slot pid' fd') (slot pid fd)) as [He|Hne].
  - apply slot_inj in He as [-> ->]; [|done|done]. by rewrite !Z.eqb_refl.
  - destruct (Z.eqb_spec pid' pid), (Z.eqb_spec fd' fd); cbn [andb]; congruence.
Qed.

Lemma g_files_set_file s d id f id' :
  balanced s d -> valid_file id -> valid_file id' ->
  g_files (set_file id f s) id' = if id' =? id then f else g_files s id'.
Proof.
  intros Hb Hi Hi'. unfold g_files. cbn [files set_file]. unfold valid_file in *.
  rewrite at_z_insert; [done| |lia]. rewrite (bal_files _ _ Hb). lia.
Qed.

Lemma balanced_ext s d d' : balanced s d -> (forall id, valid_file id -> d id = d' id) -> balanced s d'.
Proof. intros [] He. constructor; auto. intros id Hid. rewrite <-He; auto. Qed.

Definition single (id n : Z) (j : Z) : Z := if j =? id then n else 0.

Lemma balanced_set_file s d id f :
  balanced s d -> valid_file id ->
  balanced (set_file id f s) (fun j => d j + single id (references f - references (g_files s id)) j).
Proof.
  intros Hb Hid. pose proof Hb as [H1 H2 H3 H4 H5]. constructor; auto.
  - cbn. by rewrite length_insert.
  - intros j Hj. rewrite (g_files_set_file s d) by done. unfold single.
    change (live_refs (set_file id f s) j) with (live_refs s j).
    destruct (Z.eqb_spec j id) as [->|]; [|rewrite H5 by done; lia]. specialize (H5 id Hid). lia.
Qed.

Lemma balanced_set_pipe s d pi p : balanced s d -> balanced (set_pipe pi p s) d.
Proof. intros []. constructor; auto. cbn. by rewrite length_insert. Qed.

Lemma live_refs_set_fd s d pid fd e id :
  balanced s d -> 0 <= pid < 16 -> 0 <= fd < 64 ->
  live_refs (set_fd pid fd e s) id = live_refs s id - points_to id (g_fds s pid fd) + points_to id e.
Proof.
  intros Hb Hp Hf. unfold live_refs. cbn [entries set_fd].
  rewrite (zsum_insert _ no_entry); [done|]. rewrite (bal_entries _ _ Hb).
  pose proof (slot_bound pid fd Hp Hf). lia.
Qed.

Lemma balanced_bind s d pid fd id :
  balanced s d -> 0 <= pid < 16 -> 0 <= fd < 64 -> valid_file id -> open (g_fds s pid fd) = false ->
  balanced (bind_fd pid fd id s) (fun j => d j - single id 1 j).
Proof.
  intros Hb Hp Hf Hid Hc. constructor; try apply Hb.
  - cbn. rewrite length_insert. apply Hb.
  - cbn. apply Forall_insert; [apply Hb|]. done.
  - intros j Hj. unfold bind_fd. rewrite (live_refs_set_fd _ d) by done.
    change (g_files (set_fd pid fd _ s) j) with (g_files s j). rewrite (bal_refs _ _ Hb) by done.
    unfold points_to, single. rewrite Hc. cbn [open file_id andb b2z].
    destruct (Z.eqb_spec id j), (Z.eqb_spec j id); cbn; lia.
Qed.

(** Closing the descriptor entry, whatever its stale file id. *)
Lemma balanced_unbind s d pid fd k :
  balanced s d -> 0 <= pid < 16 -> 0 <= fd < 64 -> open (g_fds s pid fd) = true ->
  balanced (set_fd pid fd (FdEntry false k) s) (fun j => d j + single (file_id (g_fds s pid fd)) 1 j).
Proof.
  intros Hb Hp Hf Ho. constructor; try apply Hb.
  - cbn. rewrite length_insert. apply Hb.
  - cbn. apply Forall_insert; [apply Hb|]. done.
  - intros j Hj. rewrite (live_refs_set_fd _ d) by done.
    change (g_files (set_fd pid fd _ s) j) with (g_files s j). rewrite (bal_refs _ _ Hb) by done.
    unfold points_to, single. rewrite Ho. cbn [open file_id andb b2z].
    destruct (Z.eqb_spec (file_id (g_fds s pid fd)) j), (Z.eqb_spec j (file_id (g_fds s pid fd))); cbn; lia.
Qed.

(** ** Pipes *)

Definition is_pipe (k : fd_kind) : Prop := k = FD_KIND_PIPE_READ \/ k = FD_KIND_PIPE_WRITE.

(** Whether an open file is an end of kind [k] of pipe [pi]. *)
Definition end_of (k : fd_kind) (pi : Z) (f : fd_file) : Z :=
  b2z (negb (references f =? 0) && bool_decide (kind f = k) && (pipe_id f =? pi)).

Definition ends (s : fds) (k : fd_kind) (pi : Z) : Z := zsum (end_of k pi) (files s).

Definition pipe_ok (p : fd_pipe) (r w : Z) : Prop :=
  ring_wf FD_PIPE_BUFFER (buffer p) /\
  if pipe_allocated p then readers p = r /\ writers p = w else r = 0 /\ w = 0.

Definition valid_pipe (pi : Z) : bool := (0 <=? pi) && (pi <? FD_PIPE_MAX).

(** No open file is an end of a pipe outside the table. *)
Definition pipe_slot_ok (s : fds) (pi r w : Z) : Prop :=
  if valid_pipe pi then pipe_ok (g_pipes s pi) r w else r = 0 /\ w = 0.

Definition pipes_ok (s : fds) : Prop :=
  forall pi, pipe_slot_ok s pi (ends s FD_KIND_PIPE_READ pi) (ends s FD_KIND_PIPE_WRITE pi).

Lemma valid_pipe_iff pi : valid_pipe pi = true <-> 0 <= pi < FD_PIPE_MAX.
Proof. unfold valid_pipe. rewrite andb_true_iff, Z.leb_le, Z.ltb_lt. done. Qed.

Lemma pipes_ok_at s pi :
  pipes_ok s -> 0 <= pi < FD_PIPE_MAX ->
  pipe_ok (g_pipes s pi) (ends s FD_KIND_PIPE_READ pi) (ends s FD_KIND_PIPE_WRITE pi).
Proof.
  intros Hp Hpi. specialize (Hp pi). unfold pipe_slot_ok in Hp.
  by rewrite (proj2 (valid_pipe_iff pi) Hpi) in Hp.
Qed.

Definition fd_inv (s : fds) : Prop := balanced s (fun _ => 0) /\ pipes_ok s.

Lemma end_of_nonneg k pi f : 0 <= end_of k pi f <= 1.
Proof. unfold end_of. destruct (_ && _); cbn; lia. Qed.

Lemma ends_nonneg s k pi : 0 <= ends s k pi.
Proof. apply zsum_nonneg, Forall_forall. intros f _. apply end_of_nonneg. Qed.

Lemma ends_set_file s d k pi id f :
  balanced s d -> valid_file id ->
  ends (set_file id f s) k pi = ends s k pi - end_of k pi (g_files s id) + end_of k pi f.
Proof.
  intros Hb Hid. unfold ends. cbn [files set_file]. rewrite (zsum_insert _ no_file); [done|].
  rewrite (bal_files _ _ Hb). unfold valid_file in Hid. lia.
Qed.

Lemma ends_ge s d k pi id :
  balanced s d -> valid_file id -> end_of k pi (g_files s id) <= ends s k pi.
Proof.
  intros Hb Hid. apply zsum_ge; [intros; apply end_of_nonneg|].
  unfold valid_file in Hid. apply (list_elem_of_lookup_2 _ (Z.to_nat id)), at_z_lookup.
  rewrite (bal_files _ _ Hb). lia.
Qed.

(** Updating a file without touching what makes it a pipe end. *)
Definition same_end (f f' : fd_file) : Prop :=
  forall k pi, is_pipe k -> end_of k pi f' = end_of k pi f.

Lemma pipes_ok_set_file s d id f :
  balanced s d -> pipes_ok s -> valid_file id -> same_end (g_files s id) f -> pipes_ok (set_file id f s).
Proof.
  intros Hb Hp Hid Hs pi. change (pipe_slot_ok (set_file id f s)) with (pipe_slot_ok s).
  rewrite !(ends_set_file s d) by done.
  rewrite (Hs _ pi (or_introl eq_refl)), (Hs _ pi (or_intror eq_refl)).
  rewrite !Z.sub_add. by apply Hp.
Qed.

Lemma pipes_ok_set_fd s pid fd e : pipes_ok s -> pipes_ok (set_fd pid fd e s).
Proof. exact id. Qed.

Lemma no_end k pi f : references f = 0 \/ kind f <> k -> end_of k pi f = 0.
Proof.
  unfold end_of. intros [->|Hne]; [done|]. rewrite bool_decide_eq_false_2 by done. by rewrite andb_false_r.
Qed.

Lemma same_end_idle f f' : references f = 0 -> ~ is_pipe (kind f') -> same_end f f'.
Proof.
  intros H0 Hk k pi Hpk. rewrite (no_end k pi f) by auto. apply no_end. right. intros <-. done.
Qed.

Lemma same_end_refs f n :
  references f <> 0 -> n <> 0 -> same_end f (set_references n f).
Proof.
  intros H0 Hn k pi _. unfold end_of. cbn [references kind pipe_id set_references].
  apply Z.eqb_neq in H0, Hn. by rewrite H0, Hn.
Qed.

(** ** The operations *)

Lemma refs_of s id : fd_inv s -> valid_file id -> references (g_files s id) = live_refs s id.
Proof. intros [Hb _] Hid. rewrite (bal_refs _ _ Hb) by done. lia. Qed.

Lemma fd_inv_ext s d : balanced s d -> pipes_ok s -> (forall id, valid_file id -> d id = 0) -> fd_inv s.
Proof. intros Hb Hp Hd. split; [|done]. by apply (balanced_ext s d). Qed.

Lemma free_file_slot_spec s id :
  free_file_slot s = Some id -> valid_file id /\ references (g_files s id) = 0.
Proof.
  intros H. apply find_z_Some in H as (Hb & Hr & _). apply Z.eqb_eq in Hr. split; [|done].
  unfold valid_file, FD_FILE_MAX, FD_MAX_PROCESSES, FD_MAX_PER_PROCESS in *. lia.
Qed.

Lemma find_closed_spec s pid lo n fd :
  find_z (fun i => negb (open (g_fds s pid i))) lo n = Some fd ->
  lo <= fd < lo + Z.of_nat n /\ open (g_fds s pid fd) = false.
Proof. intros H. apply find_z_Some in H as (Hb & Hr & _). split; [done|]. by apply negb_true_iff in Hr. Qed.

Lemma free_fd_slot_spec s pid skip fd :
  free_fd_slot s pid skip = Some fd -> 0 <= fd < 64 /\ fd <> skip /\ open (g_fds s pid fd) = false.
Proof.
  intros H. apply find_z_Some in H as (Hb & Hr & _). apply andb_true_iff in Hr as [H1 H2].
  apply negb_true_iff in H1, H2. apply Z.eqb_neq in H1. unfold FD_MAX_PER_PROCESS in *. split; [lia|done].
Qed.

(** A new file in a free slot, named by one closed descriptor. *)
Lemma open_new s pid fd id f :
  fd_inv s -> 0 <= pid < 16 -> 0 <= fd < 64 -> open (g_fds s pid fd) = false ->
  valid_file id -> references (g_files s id) = 0 -> references f = 1 -> ~ is_pipe (kind f) ->
  fd_inv (bind_fd pid fd id (set_file id f s)).
Proof.
  intros [Hb Hp] Hpid Hfd Hc Hid H0 H1 Hk.
  pose proof (balanced_set_file _ _ id f Hb Hid) as Hb1.
  eapply fd_inv_ext.
  - apply balanced_bind; [exact Hb1|done|done|done|exact Hc].
  - apply pipes_ok_set_fd. apply (pipes_ok_set_file s (fun _ => 0)); [done|done|done|].
    by apply same_end_idle.
  - intros j Hj. cbn beta. rewrite H0, H1. unfold single. destruct (j =? id); lia.
Qed.

(** Another name for an open file. *)
Lemma share_inv s pid fd id :
  fd_inv s -> 0 <= pid < 16 -> 0 <= fd < 64 -> open (g_fds s pid fd) = false ->
  valid_file id -> references (g_files s id) <> 0 -> fd_inv (share pid fd id s).
Proof.
  intros Hinv Hpid Hfd Hc Hid H0. pose proof (refs_of s id Hinv Hid) as Hr.
  pose proof (live_refs_nonneg s id) as Hnn. destruct Hinv as [Hb Hp].
  pose proof (balanced_bind _ _ pid fd id Hb Hpid Hfd Hid Hc) as Hb1. unfold share.
  change (g_files (bind_fd pid fd id s) id) with (g_files s id).
  eapply fd_inv_ext.
  - apply balanced_set_file; [exact Hb1|done].
  - eapply pipes_ok_set_file; [exact Hb1|by apply pipes_ok_set_fd|done|]. apply same_end_refs; [done|lia].
  - intros j Hj. cbn [references set_references].
    change (g_files (bind_fd pid fd id s) id) with (g_files s id). unfold single. destruct (j =? id); lia.
Qed.

(** The file behind a descriptor. *)
Lemma file_for_spec s pid fd id f :
  fd_inv s -> file_for s pid fd = Some (id, f) ->
  0 <= pid < 16 /\ 0 <= fd < 64 /\ open (g_fds s pid fd) = true /\ file_id (g_fds s pid fd) = id /\
  valid_file id /\ f = g_files s id /\ references f <> 0.
Proof.
  intros [Hb _]. unfold file_for, entry_for.
  destruct (valid_pid pid && valid_fd fd && open (g_fds s pid fd)) eqn:E; [|done].
  rewrite !andb_true_iff in E. destruct E as [[Hp Hf] Ho].
  apply valid_pid_iff in Hp. apply valid_fd_iff in Hf.
  destruct (_ && _) eqn:E2; [|done]. apply andb_true_iff in E2 as [_ Hr]. intros [= <- <-].
  destruct (open_valid_file s _ pid fd Hb Hp Hf Ho) as [Hv _].
  apply negb_true_iff, Z.eqb_neq in Hr. auto 10.
Qed.

Lemma fd_dup_min_inv s pid fd m s' r : fd_inv s -> fd_dup_min s pid fd m = (s', r) -> fd_inv s'.
Proof.
  intros Hinv. unfold fd_dup_min. destruct (file_for s pid fd) as [[id f]|] eqn:Hf; [|by intros [= <- <-]].
  destruct (file_for_spec _ _ _ _ _ Hinv Hf) as (Hp & _ & _ & _ & Hid & -> & Hr).
  destruct (Z.ltb_spec m 0), (Z.leb_spec FD_MAX_PER_PROCESS m); cbn [orb]; try by intros [= <- <-].
  destruct (find_z _ _ _) as [c|] eqn:Hc; [|by intros [= <- <-]]. intros [= <- <-].
  apply find_closed_spec in Hc as [Hcb Hco]. unfold FD_MAX_PER_PROCESS in *. apply share_inv; auto; lia.
Qed.

Lemma fd_create_custom_inv s pid k ptr fl s' r :
  fd_inv s -> ~ is_pipe k -> fd_create_custom s pid k ptr fl = (s', r) -> fd_inv s'.
Proof.
  intros Hinv Hk. unfold fd_create_custom. destruct (valid_pid pid) eqn:Hp; cbn [negb]; [|by intros [= <- <-]].
  destruct (free_file_slot s) as [id|] eqn:Hid; [|by intros [= <- <-]].
  destruct (find_z _ _ _) as [fd|] eqn:Hfd; [|by intros [= <- <-]]. intros [= <- <-].
  apply find_closed_spec in Hfd as [Hcb Hco]. apply free_file_slot_spec in Hid as [Hid H0].
  apply valid_pid_iff in Hp. unfold FD_MAX_PER_PROCESS in *. apply open_new; auto; lia.
Qed.

Lemma fd_bind_file_id_inv s pid id s' r :
  fd_inv s -> 0 <= id -> fd_bind_file_id s pid id = (s', r) -> fd_inv s'.
Proof.
  intros Hinv Hid0. unfold fd_bind_file_id. destruct (valid_pid pid) eqn:Hp; cbn [negb orb]; [|by intros [= <- <-]].
  destruct (Z.leb_spec FD_FILE_MAX id); cbn [orb]; [by intros [= <- <-]|].
  destruct (Z.eqb_spec (references (g_files s id)) 0); [by intros [= <- <-]|].
  destruct (find_z _ _ _) as [fd|] eqn:Hfd; [|by intros [= <- <-]]. intros [= <- <-].
  apply find_closed_spec in Hfd as [Hcb Hco]. apply valid_pid_iff in Hp. unfold FD_MAX_PER_PROCESS in *.
  apply share_inv; auto; unfold valid_file; lia.
Qed.

Lemma fd_bind_pty_inv s pid h fl s' r : fd_inv s -> fd_bind_pty s pid h fl = (s', r) -> fd_inv s'.
Proof.
  intros Hinv. unfold fd_bind_pty. destruct (valid_pid pid) eqn:Hp; cbn [negb orb]; [|by intros [= <- <-]].
  destruct (_ || _); [by intros [= <- <-]|].
  destruct (free_fd_slot s pid (-1)) as [fd|] eqn:Hfd; [|by intros [= <- <-]].
  destruct (free_file_slot s) as [id|] eqn:Hid; [|by intros [= <- <-]]. intros [= <- <-].
  apply free_fd_slot_spec in Hfd as (Hb & _ & Hc). apply free_file_slot_spec in Hid as [Hid H0].
  apply valid_pid_iff in Hp. apply open_new; auto. by intros [[=]|[=]].
Qed.

Lemma bind_fd_open s d pid fd id fd' :
  balanced s d -> 0 <= pid < 16 -> 0 <= fd < 64 -> 0 <= fd' < 64 -> fd' <> fd ->
  open (g_fds (bind_fd pid fd id s) pid fd') = open (g_fds s pid fd').
Proof.
  intros Hb Hp Hf Hf' Hne. unfold bind_fd. rewrite (g_fds_set_fd _ d) by done.
  rewrite Z.eqb_refl. destruct (Z.eqb_spec fd' fd); [done|]. done.
Qed.

Lemma fd_bind_pty_stdio_inv s pid h s' r :
  fd_inv s -> fd_bind_pty_stdio s pid h = (s', r) -> fd_inv s'.
Proof.
  intros [Hb Hp]. unfold fd_bind_pty_stdio. destruct (valid_pid pid) eqn:Hpid; cbn [negb orb]; [|by intros [= <- <-]].
  destruct (open (g_fds s pid 0)) eqn:O0; cbn [orb]; [by intros [= <- <-]|].
  destruct (open (g_fds s pid 1)) eqn:O1; cbn [orb]; [by intros [= <- <-]|].
  destruct (open (g_fds s pid 2)) eqn:O2; cbn [orb]; [by intros [= <- <-]|].
  destruct (free_file_slot s) as [id|] eqn:Hid; [|by intros [= <- <-]].
  apply valid_pid_iff in Hpid. apply free_file_slot_spec in Hid as [Hid H0].
  set (f := FdFile 3 _ 0 FD_KIND_PTY _ _ _).
  change (seqZ 0 3) with [0; 1; 2]. cbn [foldl]. intros [= <- <-].
  pose proof (balanced_set_file s _ id f Hb Hid) as B0.
  assert (B1 := balanced_bind _ _ pid 0 id B0 Hpid ltac:(lia) Hid O0).
  assert (B2 := balanced_bind _ _ pid 1 id B1 Hpid ltac:(lia) Hid
    ltac:(rewrite (bind_fd_open _ _ _ _ _ _ B0) by lia; exact O1)).
  assert (B3 := balanced_bind _ _ pid 2 id B2 Hpid ltac:(lia) Hid
    ltac:(rewrite (bind_fd_open _ _ _ _ _ _ B1), (bind_fd_open _ _ _ _ _ _ B0) by lia; exact O2)).
  eapply fd_inv_ext; [exact B3| |].
  - do 3 apply pipes_ok_set_fd. eapply pipes_ok_set_file; eauto.
    apply same_end_idle; [done|]. by intros [[=]|[=]].
  - intros j Hj. cbn beta. rewrite H0. unfold single, f. cbn [references]. destruct (j =? id); lia.
Qed.

(** Inheritance: the child's remaining descriptors stay closed during the loop. *)
Lemma inherit_one_inv s parent child fd :
  fd_inv s -> 0 <= parent < 16 -> 0 <= child < 16 -> 0 <= fd < 64 ->
  (forall j, fd <= j < 64 -> open (g_fds s child j) = false) ->
  fd_inv (inherit_one parent child fd s) /\
  forall j, fd + 1 <= j < 64 -> open (g_fds (inherit_one parent child fd s) child j) = false.
Proof.
  intros Hinv Hpp Hpc Hfd Hcl. unfold inherit_one.
  destruct (file_for s parent fd) as [[id f]|] eqn:Hf; [|split; [done|intros; apply Hcl; lia]].
  destruct (decide (kind f = FD_KIND_PTY)); [split; [done|intros; apply Hcl; lia]|].
  destruct (file_for_spec _ _ _ _ _ Hinv Hf) as (_ & _ & _ & _ & Hid & -> & Hr).
  split; [apply share_inv; auto; apply Hcl; lia|].
  intros j Hj. unfold share. change (g_fds (set_file id ?x ?s2) child j) with (g_fds s2 child j).
  destruct Hinv as [Hb _]. rewrite (bind_fd_open _ _ _ _ _ _ Hb) by lia. apply Hcl. lia.
Qed.

Lemma inherit_loop n : forall s parent child fd,
  fd_inv s -> 0 <= parent < 16 -> 0 <= child < 16 -> 0 <= fd -> fd + Z.of_nat n <= 64 ->
  (forall j, fd <= j < 64 -> open (g_fds s child j) = false) ->
  fd_inv (foldl (fun s fd => inherit_one parent child fd s) s (seqZ fd (Z.of_nat n))).
Proof.
  induction n as [|n IH]; intros s parent child fd Hinv Hpp Hpc Hfd Hn Hcl; [done|].
  rewrite seqZ_cons by lia. cbn [foldl].
  replace (Z.pred (Z.of_nat (S n))) with (Z.of_nat n) by lia. unfold Z.succ.
  destruct (inherit_one_inv s parent child fd) as [H1 H2]; auto; [lia|]. apply IH; auto; lia.
Qed.

Lemma fd_inherit_inv s parent child s' r : fd_inv s -> fd_inherit s parent child = (s', r) -> fd_inv s'.
Proof.
  intros Hinv. unfold fd_inherit.
  destruct (valid_pid parent) eqn:Hp; cbn [negb orb]; [|by intros [= <- <-]].
  destruct (valid_pid child) eqn:Hc; cbn [negb orb]; [|by intros [= <- <-]].
  destruct (parent =? child); [by intros [= <- <-]|].
  destruct (existsb _ _) eqn:He; [by intros [= <- <-]|]. intros [= <- <-].
  apply valid_pid_iff in Hp, Hc.
  refine (inherit_loop 64 s parent child 0 Hinv Hp Hc ltac:(lia) ltac:(lia) _). intros j Hj.
  destruct (open (g_fds s child j)) eqn:Ho; [|done].
  assert (existsb (fun fd => open (g_fds s child fd)) (seqZ 0 FD_MAX_PER_PROCESS) = true) as E; [|congruence].
  apply existsb_exists. exists j. split; [|done]. apply list_elem_of_In, elem_of_seqZ.
  unfold FD_MAX_PER_PROCESS. lia.
Qed.

(** *** Creating a pipe *)

Lemma g_pipes_set_pipe s d pi p pi' :
  balanced s d -> 0 <= pi < FD_PIPE_MAX -> 0 <= pi' < FD_PIPE_MAX ->
  g_pipes (set_pipe pi p s) pi' = if pi' =? pi then p else g_pipes s pi'.
Proof.
  intros Hb Hi Hi'. unfold g_pipes. cbn [pipes set_pipe]. rewrite at_z_insert; [done| |lia].
  rewrite (bal_pipes _ _ Hb). lia.
Qed.

Lemma pipe_slot_set_pipe s d pi p pi' r w :
  balanced s d -> 0 <= pi < FD_PIPE_MAX ->
  pipe_slot_ok (set_pipe pi p s) pi' r w = (if pi' =? pi then pipe_ok p r w else pipe_slot_ok s pi' r w).
Proof.
  intros Hb Hi. unfold pipe_slot_ok. destruct (valid_pipe pi') eqn:Hv.
  - apply valid_pipe_iff in Hv. rewrite (g_pipes_set_pipe s d) by done. by destruct (pi' =? pi).
  - destruct (Z.eqb_spec pi' pi) as [->|]; [|done]. apply valid_pipe_iff in Hi. congruence.
Qed.

Lemma free_file_slot_second s d rf f wf :
  balanced s d -> valid_file rf -> references f <> 0 -> free_file_slot (set_file rf f s) = Some wf ->
  valid_file wf /\ wf <> rf /\ references (g_files s wf) = 0.
Proof.
  intros Hb Hrf Hf Hw. apply free_file_slot_spec in Hw as [Hv H0].
  rewrite (g_files_set_file s d) in H0 by done.
  destruct (Z.eqb_spec wf rf) as [->|]; [congruence|]. done.
Qed.

Lemma set_file_same s d id f :
  balanced s d -> valid_file id -> f = g_files s id -> set_file id f s = s.
Proof.
  intros Hb Hid ->. destruct s as [es fs ps]. unfold set_file. cbn [entries files pipes]. f_equal.
  apply list_insert_id. unfold g_files. cbn [files]. apply at_z_lookup.
  pose proof (bal_files _ _ Hb) as Hl. cbn [files] in Hl. unfold valid_file in Hid. lia.
Qed.

Lemma set_file_twice id f g s : set_file id f (set_file id g s) = set_file id f s.
Proof. unfold set_file. cbn [entries files pipes]. by rewrite list_insert_insert_eq. Qed.

(** Taking a slot back leaves the table as it was. *)
Lemma set_file_undo s d id :
  balanced s d -> valid_file id -> references (g_files s id) = 0 ->
  let s1 := set_file id (set_references 1 (g_files s id)) s in
  set_file id (set_references 0 (g_files s1 id)) s1 = s.
Proof.
  intros Hb Hid H0 s1. unfold s1 at 2. rewrite set_file_twice.
  apply (set_file_same _ d); [done|done|]. unfold s1. rewrite (g_files_set_file s d) by done.
  rewrite Z.eqb_refl. destruct (g_files s id) eqn:E. cbn in *. by subst.
Qed.

Lemma end_of_other k pi f : pipe_id f <> pi -> end_of k pi f = 0.
Proof. intros H. unfold end_of. destruct (Z.eqb_spec (pipe_id f) pi); [done|]. by rewrite andb_false_r. Qed.

Lemma end_of_here k pi f : references f = 1 -> kind f = k -> pipe_id f = pi -> end_of k pi f = 1.
Proof.
  intros H1 H2 H3. unfold end_of. rewrite H1, H3, Z.eqb_refl, bool_decide_eq_true_2 by done. done.
Qed.

(** The two ends of a fresh pipe in two free slots. *)
Lemma new_pipe_ok s rf wf pi fr fw b :
  fd_inv s -> valid_file rf -> valid_file wf -> wf <> rf ->
  references (g_files s rf) = 0 -> references (g_files s wf) = 0 ->
  0 <= pi < FD_PIPE_MAX -> pipe_allocated (g_pipes s pi) = false ->
  references fr = 1 -> kind fr = FD_KIND_PIPE_READ -> pipe_id fr = pi ->
  references fw = 1 -> kind fw = FD_KIND_PIPE_WRITE -> pipe_id fw = pi ->
  ring_wf FD_PIPE_BUFFER b ->
  let s' := set_file wf fw (set_file rf fr (set_pipe pi (FdPipe true 1 1 b) s)) in
  balanced s' (fun j => single rf 1 j + single wf 1 j) /\ pipes_ok s'.
Proof.
  intros [Hb Hp] Hrf Hwf Hne H0 H0' Hpi Ha R1 R2 R3 W1 W2 W3 Hwfb.
  pose proof (balanced_set_pipe _ _ pi (FdPipe true 1 1 b) Hb) as B0.
  pose proof (balanced_set_file _ _ rf fr B0 Hrf) as B1.
  set (s0 := set_pipe pi (FdPipe true 1 1 b) s) in *.
  pose proof (balanced_set_file _ _ wf fw B1 Hwf) as B2. cbn zeta. split.
  - eapply balanced_ext; [exact B2|]. intros j Hj. cbn beta.
    rewrite (g_files_set_file s0 _ rf fr wf B0) by done.
    change (g_files s0 ?x) with (g_files s x). destruct (Z.eqb_spec wf rf); [done|].
    rewrite H0, H0', R1, W1. done.
  - intros pi'. change (pipe_slot_ok (set_file wf _ _) pi') with (pipe_slot_ok s0 pi').
    rewrite !(ends_set_file _ _ _ _ wf _ B1), !(ends_set_file _ _ _ _ rf _ B0) by done.
    rewrite (g_files_set_file s0 _ rf fr wf B0) by done. destruct (Z.eqb_spec wf rf); [done|].
    change (g_files s0 ?x) with (g_files s x). change (ends s0) with (ends s).
    rewrite !(no_end _ pi' (g_files s rf)), !(no_end _ pi' (g_files s wf)) by auto.
    unfold s0. rewrite (pipe_slot_set_pipe s _ pi _ pi' _ _ Hb) by done.
    destruct (Z.eqb_spec pi' pi) as [->|Hd].
    + destruct (pipes_ok_at s pi Hp Hpi) as [_ Hc]. rewrite Ha in Hc. destruct Hc as [-> ->].
      rewrite (end_of_here FD_KIND_PIPE_READ pi fr), (end_of_here FD_KIND_PIPE_WRITE pi fw) by done.
      rewrite (no_end FD_KIND_PIPE_WRITE pi fr), (no_end FD_KIND_PIPE_READ pi fw) by (right; congruence).
      split; [exact Hwfb|]. cbn. lia.
    + rewrite !(end_of_other _ pi' fr), !(end_of_other _ pi' fw) by congruence.
      rewrite !Z.sub_0_r, !Z.add_0_r. apply Hp.
Qed.

Lemma fd_pipe_create_inv s pid null s' r o : fd_inv s -> fd_pipe_create s pid null = (s', r, o) -> fd_inv s'.
Proof.
  intros Hinv. unfold fd_pipe_create. destruct (valid_pid pid) eqn:Hpid; cbn [negb orb]; [|by intros [= <- <- <-]].
  destruct null; [by intros [= <- <- <-]|]. apply valid_pid_iff in Hpid.
  destruct (free_fd_slot s pid (-1)) as [rs|] eqn:Hrs; [|by intros [= <- <- <-]]. change (default (-1) (Some rs)) with rs.
  destruct (free_fd_slot s pid rs) as [ws|] eqn:Hws; [|by intros [= <- <- <-]].
  destruct (free_file_slot s) as [rf|] eqn:Hrf; [|by intros [= <- <- <-]]. cbn zeta.
  apply free_fd_slot_spec in Hrs as (Hrb & _ & Hrc), Hws as (Hwb & Hwne & Hwc).
  apply free_file_slot_spec in Hrf as [Hrf R0]. pose proof Hinv as [Hb Hp].
  pose proof (set_file_undo s _ rf Hb Hrf R0) as Hundo. cbn zeta in Hundo.
  set (s1 := set_file rf _ s) in *.
  destruct (free_file_slot s1) as [wf|] eqn:Hwf; [|rewrite Hundo; by intros [= <- <- <-]].
  destruct (free_pipe s1) as [pi|] eqn:Hpi; [|rewrite Hundo; by intros [= <- <- <-]].
  apply (free_file_slot_second s _ rf _ wf Hb Hrf) in Hwf as (Hwf & Hne & W0); [|done].
  apply find_z_Some in Hpi as (Hpb & Hpa & _). apply negb_true_iff in Hpa.
  change (g_pipes s1 pi) with (g_pipes s pi) in *. intros E.
  assert (Hpi : 0 <= pi < FD_PIPE_MAX) by (unfold FD_PIPE_MAX in *; lia). clear Hpb.
  match type of E with (bind_fd _ _ _ (bind_fd _ _ _ (set_file wf ?FW (set_file rf ?FR ?S2))), _, _) = _ =>
    set (fw := FW) in E; set (fr := FR) in E; set (s2 := S2) in E end.
  assert (Es : set_file rf fr s2 = set_file rf fr (set_pipe pi (FdPipe true 1 1 (reset (buffer (g_pipes s pi)))) s)).
  { unfold s2, s1, set_file, set_pipe. cbn [entries files pipes]. by rewrite list_insert_insert_eq. }
  rewrite Es in E. destruct (new_pipe_ok s rf wf pi fr fw (reset (buffer (g_pipes s pi)))) as [HB HP]; auto.
  { apply (reset_spec FD_PIPE_BUFFER); [done|]. by destruct (pipes_ok_at s pi Hp Hpi) as [(? & _) _]. }
  set (s4 := set_file wf fw _) in E, HB, HP. injection E as <- _ _.
  assert (C1 : open (g_fds s4 pid rs) = false) by exact Hrc.
  pose proof (balanced_bind _ _ pid rs rf HB Hpid Hrb Hrf C1) as B1.
  assert (C2 : open (g_fds (bind_fd pid rs rf s4) pid ws) = false)
    by (rewrite (bind_fd_open _ _ _ _ _ _ HB) by done; exact Hwc).
  pose proof (balanced_bind _ _ pid ws wf B1 Hpid Hwb Hwf C2) as B2.
  eapply fd_inv_ext; [exact B2|by do 2 apply pipes_ok_set_fd|].
  intros j Hj. cbn beta. lia.
Qed.

(** *** Closing *)

(** Closing the last descriptor of [id] lowers the count of the pipe it was an end of. *)
Lemma release_pipes_ok s d id f0 :
  balanced s d -> pipes_ok s -> valid_file id -> references (g_files s id) <> 0 -> references f0 = 0 ->
  pipes_ok (set_file id f0 (release_pipe (g_files s id) s)).
Proof.
  intros Hb Hp Hid H1 H0. set (f := g_files s id) in *. unfold release_pipe.
  assert (Hoff : forall k pi, is_pipe k -> end_of k pi f = b2z (bool_decide (kind f = k) && (pipe_id f =? pi))).
  { intros k pi _. unfold end_of. apply Z.eqb_neq in H1. by rewrite H1. }
  destruct (decide (is_pipe (kind f))) as [Hk|Hk].
  2: { rewrite !bool_decide_eq_false_2 by (intros E; apply Hk; unfold is_pipe; auto). cbn [orb]. rewrite andb_false_r.
    apply (pipes_ok_set_file s d); auto. intros k pi Hpk.
    rewrite (no_end k pi f0), (no_end k pi (g_files s id)) by (auto; right; intros E; apply Hk; unfold f; by rewrite E).
    done. }
  assert (Hv : 0 <= pipe_id f < FD_PIPE_MAX).
  { destruct (valid_pipe (pipe_id f)) eqn:Hv; [by apply valid_pipe_iff|]. exfalso.
    specialize (Hp (pipe_id f)). unfold pipe_slot_ok in Hp. rewrite Hv in Hp.
    destruct Hk as [Hk|Hk];
      [pose proof (ends_ge s d FD_KIND_PIPE_READ (pipe_id f) id Hb Hid) as Hg
      |pose proof (ends_ge s d FD_KIND_PIPE_WRITE (pipe_id f) id Hb Hid) as Hg];
      fold f in Hg; rewrite Hoff in Hg by (unfold is_pipe; auto);
      rewrite Hk, bool_decide_eq_true_2, Z.eqb_refl in Hg by done; cbn in Hg; lia. }
  destruct (Z.ltb_spec (pipe_id f) FD_PIPE_MAX); [|lia].
  rewrite (proj2 (orb_true_iff _ _)) by (destruct Hk as [->| ->]; rewrite ?bool_decide_eq_true_2 by done; auto).
  cbn [andb]. intros pi.
  match goal with |- context [set_pipe (pipe_id f) ?P s] => set (p := P) end.
  change (pipe_slot_ok (set_file id f0 ?s2) pi) with (pipe_slot_ok s2 pi).
  pose proof (balanced_set_pipe _ _ (pipe_id f) p Hb) as B0.
  rewrite !(ends_set_file _ _ _ _ id _ B0) by done.
  change (g_files (set_pipe _ _ _) id) with f. change (ends (set_pipe _ _ _)) with (ends s).
  rewrite !(no_end _ pi f0) by auto. rewrite !Hoff by (unfold is_pipe; auto).
  rewrite (pipe_slot_set_pipe s d _ _ _ _ _ Hb Hv).
  rewrite (Z.eqb_sym pi). destruct (Z.eqb_spec (pipe_id f) pi) as [<-|Hd].
  - rewrite !andb_true_r. pose proof (pipes_ok_at s _ Hp Hv) as [Hw Hc].
    pose proof (ends_ge s d (kind f) (pipe_id f) id Hb Hid) as Hg. fold f in Hg.
    rewrite Hoff in Hg by done. rewrite bool_decide_eq_true_2, Z.eqb_refl in Hg by done. cbn in Hg.
    pose proof (ends_nonneg s FD_KIND_PIPE_READ (pipe_id f)).
    pose proof (ends_nonneg s FD_KIND_PIPE_WRITE (pipe_id f)).
    subst p. split; [exact Hw|]. cbn [readers writers pipe_allocated].
    destruct (pipe_allocated (g_pipes s (pipe_id f))); destruct Hc as [Hr Hr'];
    destruct Hk as [Hk|Hk]; rewrite Hk in *; repeat case_bool_decide; try done; cbn [b2z andb] in *;
      repeat (case_match; try lia).
  - rewrite !andb_false_r. cbn [b2z]. rewrite !Z.sub_0_r, !Z.add_0_r. apply Hp.
Qed.

Lemma release_pipe_set_file f id g s : release_pipe f (set_file id g s) = set_file id g (release_pipe f s).
Proof. unfold release_pipe. by destruct (_ && _). Qed.

Lemma release_pipe_refs f n s : release_pipe (set_references n f) s = release_pipe f s.
Proof. done. Qed.

Lemma balanced_release s d f : balanced s d -> balanced (release_pipe f s) d.
Proof. intros Hb. unfold release_pipe. destruct (_ && _); [|done]. by apply balanced_set_pipe. Qed.

Lemma release_entries f s : entries (release_pipe f s) = entries s.
Proof. unfold release_pipe. by destruct (_ && _). Qed.

Lemma release_files f s : files (release_pipe f s) = files s.
Proof. unfold release_pipe. by destruct (_ && _). Qed.

Lemma g_fds_release f s pid fd : g_fds (release_pipe f s) pid fd = g_fds s pid fd.
Proof. unfold g_fds. by rewrite release_entries. Qed.

Lemma g_files_release f s id : g_files (release_pipe f s) id = g_files s id.
Proof. unfold g_files. by rewrite release_files. Qed.

Section Env.
Context {W : Type} `{EN : FdEnv W, FA : FrameAllocator W}.
Implicit Types w : W.

(** [fd_close] on an open descriptor, as one update of the tables. *)
Definition closed_tables (s : fds) (pid fd id : Z) (f : fd_file) : fds :=
  let s1 :=
    if references f =? 1
    then set_file id (FdFile 0 (flags f) (offset f) (kind f) (pipe_id f) 0 []) (release_pipe f s)
    else set_file id (set_references (references f - 1) f) s in
  set_fd pid fd (FdEntry false id) s1.

Lemma fd_close_eq s w pid fd id f :
  fd_inv s -> file_for s pid fd = Some (id, f) ->
  fd_close s w pid fd =
    (closed_tables s pid fd id f,
     if references f =? 1 then release_object w pid (set_references 0 f) else w, 0).
Proof.
  intros Hinv Hf. destruct (file_for_spec _ _ _ _ _ Hinv Hf) as (_ & _ & _ & He & _ & _ & Hr).
  unfold fd_close, closed_tables. rewrite Hf. cbn [references set_references flags offset kind pipe_id].
  destruct (Z.eqb_spec (references f - 1) 0) as [E|E], (Z.eqb_spec (references f) 1) as [E'|E']; try lia.
  - rewrite release_pipe_refs, release_pipe_set_file, set_file_twice.
    replace (references f - 1) with 0 by lia. f_equal. f_equal. f_equal.
    change (g_fds (set_file id ?x ?t) pid fd) with (g_fds t pid fd). rewrite g_fds_release. by rewrite He.
  - f_equal. f_equal. f_equal. f_equal. exact He.
Qed.

Lemma closed_tables_inv s pid fd id f :
  fd_inv s -> file_for s pid fd = Some (id, f) -> fd_inv (closed_tables s pid fd id f).
Proof.
  intros Hinv Hf. destruct (file_for_spec _ _ _ _ _ Hinv Hf) as (Hpid & Hfd & Ho & He & Hid & -> & Hr).
  pose proof (refs_of s id Hinv Hid) as Hrefs. pose proof (live_refs_nonneg s id) as Hnn.
  destruct Hinv as [Hb Hp]. unfold closed_tables. destruct (Z.eqb_spec (references (g_files s id)) 1) as [E|E].
  - set (f0 := FdFile 0 _ _ _ _ 0 []).
    pose proof (release_pipes_ok s _ id f0 Hb Hp Hid Hr eq_refl) as P1.
    pose proof (balanced_set_file _ _ id f0 (balanced_release _ _ (g_files s id) Hb) Hid) as B1.
    set (s1 := set_file id f0 _) in *.
    assert (Es : g_fds s1 pid fd = g_fds s pid fd) by (unfold s1; apply g_fds_release).
    pose proof (balanced_unbind s1 _ pid fd id B1 Hpid Hfd ltac:(by rewrite Es)) as B2. rewrite Es, He in B2.
    eapply fd_inv_ext; [exact B2|by apply pipes_ok_set_fd|]. intros j Hj. cbn beta.
    rewrite g_files_release, E. unfold single, f0. cbn [references]. destruct (j =? id); lia.
  - set (f1 := set_references _ _).
    pose proof (balanced_set_file _ _ id f1 Hb Hid) as B1.
    assert (P1 : pipes_ok (set_file id f1 s)).
    { eapply pipes_ok_set_file; eauto. apply same_end_refs; lia. }
    pose proof (balanced_unbind _ _ pid fd id B1 Hpid Hfd Ho) as B2.
    change (g_fds (set_file id f1 s) pid fd) with (g_fds s pid fd) in B2. rewrite He in B2.
    eapply fd_inv_ext; [exact B2|by apply pipes_ok_set_fd|]. intros j Hj. cbn beta.
    unfold single, f1. cbn [references set_references]. destruct (j =? id); lia.
Qed.

Lemma fd_close_inv s w pid fd s' w' r : fd_inv s -> fd_close s w pid fd = (s', w', r) -> fd_inv s'.
Proof.
  intros Hinv. destruct (file_for s pid fd) as [[id f]|] eqn:Hf.
  - rewrite (fd_close_eq _ _ _ _ _ _ Hinv Hf). intros [= <- _ _]. by apply closed_tables_inv.
  - unfold fd_close. rewrite Hf. by intros [= <- _ _].
Qed.

Lemma g_fds_closed s pid fd id f pid' fd' :
  fd_inv s -> 0 <= pid < 16 -> 0 <= fd < 64 -> 0 <= pid' < 16 -> 0 <= fd' < 64 ->
  g_fds (closed_tables s pid fd id f) pid' fd' =
    if (pid' =? pid) && (fd' =? fd) then FdEntry false id else g_fds s pid' fd'.
Proof.
  intros [Hb _] Hp Hf Hp' Hf'. rewrite <-(g_fds_set_fd s _ pid fd _ pid' fd' Hb) by done.
  unfold closed_tables, g_fds. destruct (references f =? 1); cbn [entries set_fd set_file]; by rewrite ?release_entries.
Qed.

Lemma fd_dup2_inv s w pid src dst s' w' r : fd_inv s -> fd_dup2 s w pid src dst = (s', w', r) -> fd_inv s'.
Proof.
  intros Hinv. unfold fd_dup2. destruct (file_for s pid src) as [[id f]|] eqn:Hf; [|by intros [= <- _ _]].
  destruct (file_for_spec _ _ _ _ _ Hinv Hf) as (Hpid & Hsrc & Ho & He & Hid & -> & Hr).
  destruct (valid_fd dst) eqn:Hv; cbn [negb]; [|by intros [= <- _ _]]. apply valid_fd_iff in Hv.
  destruct (Z.eqb_spec src dst) as [|Hne]; [by intros [= <- _ _]|].
  destruct (open (g_fds s pid dst)) eqn:Od; [|intros [= <- _ _]; by apply share_inv].
  destruct (file_for s pid dst) as [[id' f']|] eqn:Hf'.
  - rewrite (fd_close_eq _ _ _ _ _ _ Hinv Hf'). cbn [negb]. change (0 =? 0) with true. cbn [negb].
    intros [= <- _ _]. pose proof (closed_tables_inv _ _ _ _ _ Hinv Hf') as Hinv'.
    pose proof (g_fds_closed s pid dst id' f' pid dst Hinv) as G1.
    pose proof (g_fds_closed s pid dst id' f' pid src Hinv) as G2. rewrite !Z.eqb_refl in *.
    destruct (Z.eqb_spec src dst); [lia|]. cbn [andb] in *.
    apply share_inv; auto; [by rewrite G1|].
    rewrite (refs_of _ _ Hinv' Hid). destruct Hinv' as [Hb' _].
    pose proof (open_valid_file _ _ pid src Hb' Hpid Hsrc) as Hl. rewrite G2 in Hl by done.
    destruct (Hl Ho) as [_ Hl']. rewrite He in Hl'. lia.
  - unfold fd_close. rewrite Hf'. by intros [= <- _ _].
Qed.

Lemma close_loop_inv pid l : forall (s : fds) w,
  fd_inv s ->
  fd_inv (fst (foldl (fun '(s, w) fd =>
             if open (g_fds s pid fd) then let '(s, w, _) := fd_close s w pid fd in (s, w) else (s, w)) (s, w) l)).
Proof.
  induction l as [|fd l IH]; intros s w Hinv; [done|]. cbn [foldl].
  destruct (open (g_fds s pid fd)); [|by apply IH].
  destruct (fd_close s w pid fd) as [[s' w'] r] eqn:E. apply IH. by apply (fd_close_inv _ _ _ _ _ _ _ Hinv E).
Qed.

Lemma fd_close_owner_inv s w pid : fd_inv s -> fd_inv (fst (fd_close_owner s w pid)).
Proof. intros Hinv. unfold fd_close_owner. destruct (Fd.valid_pid pid); [by apply close_loop_inv|done]. Qed.
End Env.
