(* ===== verification/FdSpec.v ===== *)
(** What the descriptor layer promises: the reference counts and pipe counts of
    every reachable state, when a pipe hangs up, that a pipe is a byte stream,
    and what writing a regular file does to its contents. *)
From S2P Require Import Prelude Pmm Vmm Ring Fd FdInv.

(** ** Pipe buffers are rings *)

Lemma pipe_take_eq n : forall d h t u u0,
  pipe_take (Ring d h t u) n =
    (Ring d h (tail (snd (pop_n FD_PIPE_BUFFER n (Ring d h t u0)))) u, fst (pop_n FD_PIPE_BUFFER n (Ring d h t u0))).
Proof.
  induction n as [|n IH]; intros d h t u u0; [done|]. cbn [pipe_take pop_n]. cbn [rdata head tail used].
  rewrite (IH _ _ _ u (u0 - 1)). unfold pop at 1 2. cbn [rdata head tail used].
  by destruct (pop_n FD_PIPE_BUFFER n _) as [xs r'].
Qed.

Lemma pop_n_fixed n : forall r,
  rdata (snd (pop_n FD_PIPE_BUFFER n r)) = rdata r /\ head (snd (pop_n FD_PIPE_BUFFER n r)) = head r.
Proof.
  induction n as [|n IH]; intros r; [done|]. cbn [pop_n]. specialize (IH (pop FD_PIPE_BUFFER r)).
  destruct (pop_n _ n _). exact IH.
Qed.

Lemma pipe_put_eq xs : forall d h t u u0,
  pipe_put (Ring d h t u) xs =
    Ring (rdata (push_all FD_PIPE_BUFFER xs (Ring d h t u0))) (head (push_all FD_PIPE_BUFFER xs (Ring d h t u0))) t u.
Proof.
  induction xs as [|x xs IH]; intros d h t u u0; [done|].
  cbn [pipe_put push_all foldl rdata head tail used]. rewrite (IH _ _ _ u (u0 + 1)). done.
Qed.

Lemma push_all_tail xs : forall r, tail (push_all FD_PIPE_BUFFER xs r) = tail r.
Proof. induction xs as [|x xs IH]; intros r; [done|]. exact (IH (push FD_PIPE_BUFFER x r)). Qed.

Lemma buffer_pos : 0 < FD_PIPE_BUFFER. Proof. done. Qed.

Lemma u16_used n : 0 <= n <= FD_PIPE_BUFFER -> u16 n = n.
Proof. unfold FD_PIPE_BUFFER. intros H. apply uwrap_id. unfold fits. lia. Qed.

Lemma take_ring_spec b n :
  ring_wf FD_PIPE_BUFFER b -> 0 <= n <= used b ->
  let b' := set_used (used b - n) (fst (pipe_take b (Z.to_nat n))) in
  ring_wf FD_PIPE_BUFFER b' /\ snd (pipe_take b (Z.to_nat n)) = take (Z.to_nat n) (contents FD_PIPE_BUFFER b) /\
  contents FD_PIPE_BUFFER b' = drop (Z.to_nat n) (contents FD_PIPE_BUFFER b).
Proof.
  intros Hwf Hn. pose proof Hwf as (_ & _ & Hu & _). destruct b as [d h t u]. cbn [used] in *.
  rewrite (pipe_take_eq _ d h t u u). cbn [fst snd].
  pose proof (pop_n_spec FD_PIPE_BUFFER buffer_pos (Z.to_nat n) (Ring d h t u) Hwf ltac:(cbn [used]; lia)) as HP.
  pose proof (pop_n_fixed (Z.to_nat n) (Ring d h t u)) as [F1 F2].
  destruct (pop_n FD_PIPE_BUFFER (Z.to_nat n) (Ring d h t u)) as [xs r']. cbn [fst snd] in *.
  destruct HP as (H1 & H2 & H3 & H4). unfold set_used. cbn [rdata head tail used] in *.
  rewrite u16_used by lia. destruct r' as [d' h' t' u']. cbn [rdata head tail used] in *. subst d' h'.
  replace (u - n) with u' by lia. done.
Qed.

Lemma put_ring_spec b xs :
  ring_wf FD_PIPE_BUFFER b -> used b + Z.of_nat (length xs) <= FD_PIPE_BUFFER ->
  let b' := set_used (used b + Z.of_nat (length xs)) (pipe_put b xs) in
  ring_wf FD_PIPE_BUFFER b' /\ contents FD_PIPE_BUFFER b' = contents FD_PIPE_BUFFER b ++ xs.
Proof.
  intros Hwf Hn. pose proof Hwf as (_ & _ & Hu & _). destruct b as [d h t u]. cbn [used] in *.
  rewrite (pipe_put_eq xs d h t u u).
  pose proof (push_all_spec FD_PIPE_BUFFER buffer_pos xs (Ring d h t u) Hwf Hn) as (H1 & H2 & H3).
  pose proof (push_all_tail xs (Ring d h t u)) as F. unfold set_used. cbn [rdata head tail used] in *.
  rewrite u16_used by lia. destruct (push_all FD_PIPE_BUFFER xs (Ring d h t u)) as [d' h' t' u'].
  cbn [rdata head tail used] in *. subst. done.
Qed.

(** ** The remaining operations keep the invariant *)

Lemma fd_inv_same_end s id f :
  fd_inv s -> valid_file id -> references f = references (g_files s id) -> same_end (g_files s id) f ->
  fd_inv (set_file id f s).
Proof.
  intros [Hb Hp] Hid Hr Hs. pose proof (balanced_set_file _ _ id f Hb Hid) as B.
  eapply fd_inv_ext; [exact B|by eapply pipes_ok_set_file|]. intros j Hj. cbn beta. rewrite Hr.
  unfold single. destruct (j =? id); lia.
Qed.

Lemma update_offset_inv s id o : fd_inv s -> valid_file id -> fd_inv (update_offset id o s).
Proof. intros Hi Hid. apply fd_inv_same_end; done. Qed.

Lemma set_buffer_inv s pi b :
  fd_inv s -> ring_wf FD_PIPE_BUFFER b -> 0 <= pi < FD_PIPE_MAX -> fd_inv (set_pipe pi (set_buffer b (g_pipes s pi)) s).
Proof.
  intros [Hb Hp] Hwf Hpi. split; [by apply balanced_set_pipe|]. intros pi'.
  change (ends (set_pipe ?i ?p s)) with (ends s). rewrite (pipe_slot_set_pipe s _ _ _ _ _ _ Hb Hpi).
  destruct (Z.eqb_spec pi' pi) as [->|]; [|apply Hp]. destruct (pipes_ok_at s pi Hp Hpi) as [_ Hc].
  by split.
Qed.

Lemma end_of_live k pi f : references f <> 0 -> kind f = k -> pipe_id f = pi -> end_of k pi f = 1.
Proof.
  intros H1 H2 H3. unfold end_of. apply Z.eqb_neq in H1.
  by rewrite H1, H3, Z.eqb_refl, bool_decide_eq_true_2 by done.
Qed.

(** An open end of a pipe names an allocated pipe of the table. *)
Lemma pipe_file_ok s id :
  fd_inv s -> valid_file id -> references (g_files s id) <> 0 -> is_pipe (kind (g_files s id)) ->
  0 <= pipe_id (g_files s id) < FD_PIPE_MAX /\ pipe_allocated (g_pipes s (pipe_id (g_files s id))) = true.
Proof.
  intros [Hb Hp] Hid Hr Hk. set (pi := pipe_id (g_files s id)).
  pose proof (ends_ge s _ (kind (g_files s id)) pi id Hb Hid) as Hg.
  rewrite end_of_live in Hg by done. specialize (Hp pi). unfold pipe_slot_ok in Hp.
  destruct (valid_pipe pi) eqn:Hv.
  - apply valid_pipe_iff in Hv. split; [done|]. destruct Hp as [_ Hc].
    destruct (pipe_allocated (g_pipes s pi)); [done|]. destruct Hk as [E|E]; rewrite E in Hg; lia.
  - destruct Hk as [E|E]; rewrite E in Hg; lia.
Qed.

Lemma pipe_buffer_wf s pi : fd_inv s -> 0 <= pi < FD_PIPE_MAX -> ring_wf FD_PIPE_BUFFER (buffer (g_pipes s pi)).
Proof. intros [_ Hp] Hpi. by apply (pipes_ok_at s pi Hp). Qed.

Lemma pipe_read_inv s id n s' rc out :
  fd_inv s -> valid_file id -> references (g_files s id) <> 0 -> is_pipe (kind (g_files s id)) -> 0 <= n ->
  pipe_read s (g_files s id) n = (s', rc, out) -> fd_inv s'.
Proof.
  intros Hi Hid Hr Hk Hn. destruct (pipe_file_ok s id Hi Hid Hr Hk) as [Hpi Ha]. unfold pipe_read.
  destruct (negb _ || negb _); [by intros [= <- _ _]|].
  pose proof (pipe_buffer_wf s _ Hi Hpi) as Hwf. set (b := buffer _) in *.
  assert (Hc : 0 <= (if n <? used b then n else used b) <= used b).
  { destruct Hwf as (_ & _ & Hu & _). destruct (Z.ltb_spec n (used b)); lia. }
  pose proof (take_ring_spec b _ Hwf Hc) as (H1 & _). destruct (pipe_take b _) as [b' o].
  intros [= <- _ _]. by apply set_buffer_inv.
Qed.

Lemma pipe_write_inv s id d n s' rc :
  fd_inv s -> valid_file id -> references (g_files s id) <> 0 -> is_pipe (kind (g_files s id)) ->
  Z.of_nat (length d) = n -> pipe_write s (g_files s id) d n = (s', rc) -> fd_inv s'.
Proof.
  intros Hi Hid Hr Hk Hn. destruct (pipe_file_ok s id Hi Hid Hr Hk) as [Hpi Ha]. unfold pipe_write.
  destruct (negb _ || negb _); [by intros [= <- _]|].
  destruct (readers _ =? 0); [by intros [= <- _]|].
  pose proof (pipe_buffer_wf s _ Hi Hpi) as Hwf. set (b := buffer _) in *.
  pose proof Hwf as (_ & _ & Hu & _). set (c := if n <? _ then _ else _ : Z).
  assert (Hc : 0 <= c <= FD_PIPE_BUFFER - used b /\ c <= n) by (unfold c; case_match; lia).
  pose proof (put_ring_spec b (take (Z.to_nat c) d) Hwf) as HP.
  rewrite length_take in HP. replace (Z.of_nat (Z.to_nat c `min` length d)) with c in HP by lia.
  intros [= <- _]. apply set_buffer_inv; auto. apply HP. lia.
Qed.

Section Env.
Context {W : Type} `{EN : FdEnv W, FA : FrameAllocator W}.
Implicit Types w : W.

Lemma open_slot_inv s pid p fl size d s' r :
  fd_inv s -> 0 <= pid < 16 -> open_slot s pid p fl size d = (s', r) -> fd_inv s'.
Proof.
  intros Hi Hpid. unfold open_slot. destruct (free_file_slot s) as [id|] eqn:Hid; [|by intros [= <- _]].
  destruct (find_z _ _ _) as [fd|] eqn:Hfd; [|by intros [= <- _]]. unfold copy_path.
  apply find_closed_spec in Hfd as [Hfb Hfo]. apply free_file_slot_spec in Hid as [Hid H0].
  destruct (_ <? FD_PATH_MAX); cbn [negb]; intros [= <- _].
  - apply open_new; auto. cbn [kind]. by destruct d; intros [[=]|[=]].
  - apply fd_inv_same_end; auto. intros k pi _. by rewrite !(no_end k pi) by auto.
Qed.

Lemma fd_open_inv s w pid p fl s' w' r : fd_inv s -> fd_open s w pid p fl = (s', w', r) -> fd_inv s'.
Proof.
  intros Hi. unfold fd_open. destruct p as [[|c p]|]; try by intros [= <- _ _].
  destruct (Fd.valid_pid pid) eqn:Hpid; cbn [negb orb]; [|by intros [= <- _ _]]. apply valid_pid_iff in Hpid.
  repeat (destruct (_ || _); [by intros [= <- _ _]|]). repeat (destruct (_ && _); [by intros [= <- _ _]|]).
  case_match eqn:E1. clear E1. case_match; [|by intros [= <- _ _]]. case_match. subst.
  case_match; [by intros [= <- _ _]|]. destruct (has fl FD_OPEN_TRUNC).
  - case_match. case_match; [by intros [= <- _ _]|]. case_match; [|by intros [= <- _ _]]. case_match.
    destruct (open_slot _ _ _ _ _ _) as [s2 fd] eqn:E. intros [= <- _ _]. by apply open_slot_inv in E.
  - destruct (open_slot _ _ _ _ _ _) as [s2 fd] eqn:E. intros [= <- _ _]. by apply open_slot_inv in E.
Qed.

Lemma fd_read_inv s w pid fd null n s' w' r out :
  fd_inv s -> 0 <= n -> fd_read s w pid fd null n = (s', w', r, out) -> fd_inv s'.
Proof.
  intros Hi Hn. unfold fd_read. destruct (file_for s pid fd) as [[id f]|] eqn:Hf; [|by intros [= <- _ _ _]].
  destruct (file_for_spec _ _ _ _ _ Hi Hf) as (_ & _ & _ & _ & Hid & -> & Hr).
  destruct (_ || _); [by intros [= <- _ _ _]|].
  destruct (kind (g_files s id)) eqn:Hk; try by (intros [= <- _ _ _]).
  - destruct (fd_read_at _ _ _ _ _ _ _) as [[w1 c] o]. intros [= <- _ _ _]. case_match; [|done].
    by apply update_offset_inv.
  - destruct (pipe_read _ _ _) as [[s1 c] o] eqn:E. intros [= <- _ _ _].
    eapply pipe_read_inv; eauto. by left.
  - destruct (env_pty_read _ _ _ _) as [[? ?] ?]. by intros [= <- _ _ _].
  - destruct (unix_socket_recv_stream _ _ _) as [[? ?] ?]. by intros [= <- _ _ _].
  - destruct (unix_memfd_read _ _ _ _) as [[[w1 c] o] b]. intros [= <- _ _ _]. by apply update_offset_inv.
  - destruct (evdev_read _ _ _) as [[? ?] ?]. by intros [= <- _ _ _].
  - destruct (unix_eventfd_read _ _ _) as [[? ?] ?]. by intros [= <- _ _ _].
Qed.

Lemma file_write_inv s w id f d n s' w' r :
  fd_inv s -> valid_file id -> file_write s w id f d n = (s', w', r) -> fd_inv s'.
Proof.
  intros Hi Hid. unfold file_write. destruct (vfs_stat _ _) as [[sz dir]|]; [|by intros [= <- _ _]].
  destruct dir; [by intros [= <- _ _]|]. cbn zeta. case_match; [by intros [= <- _ _]|].
  destruct (alloc_buffer _ _) as [w1 [b|]]; [|by intros [= <- _ _]].
  destruct (if sz =? 0 then _ else _) as [[w2 rc] old]. destruct (rc <? 0); [by intros [= <- _ _]|].
  destruct (vfs_write _ _ _) as [w3 res]. intros [= <- _ _]. destruct (res <? 0); [done|]. by apply update_offset_inv.
Qed.

Lemma fd_write_inv s w pid fd d n s' w' r :
  fd_inv s -> 0 <= n -> n <= Z.of_nat (length (default [] d)) ->
  fd_write s w pid fd d n = (s', w', r) -> fd_inv s'.
Proof.
  intros Hi Hn0 Hn. unfold fd_write. destruct (file_for s pid fd) as [[id f]|] eqn:Hf; [|by intros [= <- _ _]].
  destruct (file_for_spec _ _ _ _ _ Hi Hf) as (_ & _ & _ & _ & Hid & -> & Hr).
  destruct (_ || _); [by intros [= <- _ _]|].
  destruct (kind (g_files s id)) eqn:Hk; try by (intros [= <- _ _]).
  - apply file_write_inv; done.
  - destruct (pipe_write _ _ _ _) as [s1 c] eqn:E. intros [= <- _ _].
    apply (pipe_write_inv s id _ _ _ _ Hi Hid Hr (or_intror Hk)) in E; [done|]. rewrite length_take. lia.
  - destruct (env_pty_write _ _ _ _) as [? ?]. by intros [= <- _ _].
  - destruct (unix_socket_send_stream _ _ _) as [? ?]. by intros [= <- _ _].
  - destruct (unix_memfd_write _ _ _ _) as [[w1 c] o]. intros [= <- _ _]. by apply update_offset_inv.
  - destruct (unix_eventfd_write _ _ _) as [? ?]. by intros [= <- _ _].
Qed.

Lemma fd_seek_inv s w pid fd off wh s' r : fd_inv s -> fd_seek s w pid fd off wh = (s', r) -> fd_inv s'.
Proof.
  intros Hi. unfold fd_seek. destruct (file_for s pid fd) as [[id f]|] eqn:Hf; [|by intros [= <- _]].
  destruct (file_for_spec _ _ _ _ _ Hi Hf) as (_ & _ & _ & _ & Hid & -> & Hr).
  destruct (_ || _); [by intros [= <- _]|]. destruct (vfs_stat _ _) as [[sz dir]|]; [|by intros [= <- _]].
  destruct (negb _); [by intros [= <- _]|]. cbn zeta. destruct (is_directory _ && _); [by intros [= <- _]|].
  destruct (_ || _); [by intros [= <- _]|]. destruct (_ || _); [by intros [= <- _]|].
  intros [= <- _]. by apply update_offset_inv.
Qed.

Lemma fd_readdir_inv s w pid fd null s' r o : fd_inv s -> fd_readdir s w pid fd null = (s', r, o) -> fd_inv s'.
Proof.
  intros Hi. unfold fd_readdir. destruct (file_for s pid fd) as [[id f]|] eqn:Hf; [|by intros [= <- _ _]].
  destruct (file_for_spec _ _ _ _ _ Hi Hf) as (_ & _ & _ & _ & Hid & -> & Hr).
  destruct (_ || _); [by intros [= <- _ _]|]. destruct (vfs_list _ _) as [c es].
  case_match; [by intros [= <- _ _]|]. case_match; [by intros [= <- _ _]|].
  intros [= <- _ _]. by apply update_offset_inv.
Qed.
End Env.

(** ** Every run of the system *)

(** The calls of the descriptor layer, with the arguments the C types allow. *)
Inductive fd_op :=
  | OpOpen (pid : Z) (path : option path_t) (fl : Z)
  | OpPipe (pid : Z) (null : bool)
  | OpBindPty (pid handle fl : Z)
  | OpBindStdio (pid handle : Z)
  | OpDupMin (pid fd min_fd : Z)
  | OpDup2 (pid src dst : Z)
  | OpInherit (parent child : Z)
  | OpCustom (pid : Z) (k : fd_kind) (ptr fl : Z)
  | OpBindFile (pid id : Z)
  | OpRead (pid fd : Z) (null : bool) (max_bytes : Z)
  | OpWrite (pid fd : Z) (data : list Z)
  | OpSeek (pid fd off whence : Z)
  | OpReaddir (pid fd : Z) (null : bool)
  | OpClose (pid fd : Z)
  | OpCloseOwner (pid : Z).

(** [uint16_t file_id], [uint32_t max_bytes]; the kernel creates custom files of
    its own kinds only. *)
Definition op_ok (o : fd_op) : Prop :=
  match o with
  | OpCustom _ k _ _ => ~ is_pipe k
  | OpBindFile _ id => 0 <= id
  | OpRead _ _ _ n => 0 <= n
  | _ => True
  end.

(** The tables before [fd_init]: zeroed by the loader. *)
Definition fds_bss : fds :=
  Fds (replicate (Z.to_nat FD_FILE_MAX) no_entry) (replicate (Z.to_nat FD_FILE_MAX) no_file)
    (replicate (Z.to_nat FD_PIPE_MAX) no_pipe).

Lemma at_z_replicate {A} (x : A) n i : at_z x (replicate n x) i = x.
Proof.
  unfold at_z. rewrite nth_lookup. destruct (replicate n x !! _) as [y|] eqn:E; [|done].
  by apply lookup_replicate in E as [-> _].
Qed.

Lemma zsum_replicate {A} (g : A -> Z) n x : g x = 0 -> zsum g (replicate n x) = 0.
Proof. intros Hx. induction n as [|n IH]; [done|]. cbn [replicate zsum foldr]. unfold zsum in IH. lia. Qed.

Lemma fd_init_inv : fd_inv (fd_init fds_bss).
Proof.
  unfold fd_init, fds_bss. cbn [entries files pipes]. rewrite !fmap_replicate.
  change (FdEntry false (file_id no_entry)) with no_entry. change (set_references 0 no_file) with no_file.
  change (FdPipe false (readers no_pipe) (writers no_pipe) (buffer no_pipe)) with no_pipe. split.
  - constructor; cbn [entries files pipes]; rewrite ?length_replicate; try done.
    + apply Forall_replicate. done.
    + intros id _. unfold g_files, live_refs. cbn [files entries]. by rewrite at_z_replicate, zsum_replicate.
  - intros pi. unfold pipe_slot_ok, ends, g_pipes. cbn [files pipes].
    rewrite !zsum_replicate, at_z_replicate by done. destruct (valid_pipe pi); [|done].
    split; [|done]. cbn [buffer no_pipe]. apply (reset_spec FD_PIPE_BUFFER buffer_pos empty_buffer).
    unfold empty_buffer. cbn [rdata]. by rewrite length_replicate.
Qed.

Section Runs.
Context {W : Type} `{EN : FdEnv W, FA : FrameAllocator W}.
Implicit Types w : W.

Definition exec (st : fds * W) (o : fd_op) : fds * W :=
  let '(s, w) := st in
  match o with
  | OpOpen pid p fl => fst (fd_open s w pid p fl)
  | OpPipe pid null => (fst (fst (fd_pipe_create s pid null)), w)
  | OpBindPty pid h fl => (fst (fd_bind_pty s pid h fl), w)
  | OpBindStdio pid h => (fst (fd_bind_pty_stdio s pid h), w)
  | OpDupMin pid fd m => (fst (fd_dup_min s pid fd m), w)
  | OpDup2 pid src dst => fst (fd_dup2 s w pid src dst)
  | OpInherit parent child => (fst (fd_inherit s parent child), w)
  | OpCustom pid k ptr fl => (fst (fd_create_custom s pid k ptr fl), w)
  | OpBindFile pid id => (fst (fd_bind_file_id s pid id), w)
  | OpRead pid fd null n => fst (fst (fd_read s w pid fd null n))
  | OpWrite pid fd d => fst (fd_write s w pid fd (Some d) (Z.of_nat (length d)))
  | OpSeek pid fd off wh => (fst (fd_seek s w pid fd off wh), w)
  | OpReaddir pid fd null => (fst (fst (fd_readdir s w pid fd null)), w)
  | OpClose pid fd => fst (fd_close s w pid fd)
  | OpCloseOwner pid => fd_close_owner s w pid
  end.

Lemma exec_inv s w o : fd_inv s -> op_ok o -> fd_inv (fst (exec (s, w) o)).
Proof.
  intros Hi Ho. destruct o; cbn [exec op_ok] in *.
  - destruct (fd_open _ _ _ _ _) as [[s' w'] r] eqn:E. by apply fd_open_inv in E.
  - destruct (fd_pipe_create _ _ _) as [[s' r] o] eqn:E. by apply fd_pipe_create_inv in E.
  - destruct (fd_bind_pty _ _ _ _) as [s' r] eqn:E. by apply fd_bind_pty_inv in E.
  - destruct (fd_bind_pty_stdio _ _ _) as [s' r] eqn:E. by apply fd_bind_pty_stdio_inv in E.
  - destruct (fd_dup_min _ _ _ _) as [s' r] eqn:E. by apply fd_dup_min_inv in E.
  - destruct (fd_dup2 _ _ _ _ _) as [[s' w'] r] eqn:E. by apply fd_dup2_inv in E.
  - destruct (fd_inherit _ _ _) as [s' r] eqn:E. by apply fd_inherit_inv in E.
  - destruct (fd_create_custom _ _ _ _ _) as [s' r] eqn:E. by apply fd_create_custom_inv in E.
  - destruct (fd_bind_file_id _ _ _) as [s' r] eqn:E. by apply fd_bind_file_id_inv in E.
  - destruct (fd_read _ _ _ _ _ _) as [[[s' w'] r] out] eqn:E. by apply fd_read_inv in E.
  - destruct (fd_write _ _ _ _ _ _) as [[s' w'] r] eqn:E. apply fd_write_inv in E; [done|done|lia|cbn; lia].
  - destruct (fd_seek _ _ _ _ _ _) as [s' r] eqn:E. by apply fd_seek_inv in E.
  - destruct (fd_readdir _ _ _ _ _) as [[s' r] o] eqn:E. by apply fd_readdir_inv in E.
  - destruct (fd_close _ _ _ _) as [[s' w'] r] eqn:E. by apply fd_close_inv in E.
  - by apply fd_close_owner_inv.
Qed.

Lemma run_inv ops : forall s w, fd_inv s -> Forall op_ok ops -> fd_inv (fst (foldl exec (s, w) ops)).
Proof.
  induction ops as [|o ops IH]; intros s w Hi Ho; [done|]. inversion_clear Ho. cbn [foldl].
  pose proof (exec_inv s w o Hi ltac:(done)) as H2. destruct (exec (s, w) o) as [s' w']. by apply IH.
Qed.
End Runs.

(** ** Who holds the other end *)

(** Some process has a descriptor open on an end of kind [k] of pipe [pi]. *)
Definition held (s : fds) (k : fd_kind) (pi : Z) : Prop :=
  exists pid fd id f, file_for s pid fd = Some (id, f) /\ kind f = k /\ pipe_id f = pi.

Lemma zsum_pos {A} (g : A -> Z) l : 0 < zsum g l -> exists i x, l !! i = Some x /\ 0 < g x.
Proof.
  induction l as [|x l IH]; cbn [zsum foldr]; intros Hp; [lia|].
  destruct (Z.ltb_spec 0 (g x)); [by exists 0%nat, x|].
  destruct IH as (i & y & Hi & Hy); [unfold zsum; lia|]. by exists (S i), y.
Qed.

Lemma held_iff s k pi : fd_inv s -> held s k pi <-> 0 < ends s k pi.
Proof.
  intros Hi. split.
  - intros (pid & fd & id & f & Hf & Hk & Hpi).
    destruct (file_for_spec _ _ _ _ _ Hi Hf) as (_ & _ & _ & _ & Hid & -> & Hr).
    destruct Hi as [Hb _]. pose proof (ends_ge s _ k pi id Hb Hid) as Hg. rewrite end_of_live in Hg by done. lia.
  - intros Hp. apply zsum_pos in Hp as (i & f & Hl & Hf). pose proof Hi as [Hb _].
    assert (Hlen : (i < length (files s))%nat) by (eapply lookup_lt_Some; eauto).
    rewrite (bal_files _ _ Hb) in Hlen.
    assert (Hid : valid_file (Z.of_nat i)) by (unfold valid_file, FD_FILE_MAX, FD_MAX_PROCESSES, FD_MAX_PER_PROCESS in *; lia).
    assert (Ef : g_files s (Z.of_nat i) = f).
    { unfold g_files, at_z. rewrite Nat2Z.id, nth_lookup, Hl. done. }
    unfold end_of in Hf. destruct (negb _ && bool_decide _ && _) eqn:E; [|cbn in Hf; lia].
    rewrite !andb_true_iff in E. destruct E as [[E1 E2] E3]. apply negb_true_iff, Z.eqb_neq in E1.
    apply bool_decide_eq_true in E2. apply Z.eqb_eq in E3.
    pose proof (refs_of s _ Hi Hid) as Hr. rewrite Ef in Hr. pose proof (live_refs_nonneg s (Z.of_nat i)).
    assert (Hlive : 0 < live_refs s (Z.of_nat i)) by lia.
    apply zsum_pos in Hlive as (j & e & Hj & He).
    assert (Hlj : (j < length (entries s))%nat) by (eapply lookup_lt_Some; eauto).
    rewrite (bal_entries _ _ Hb) in Hlj.
    unfold points_to in He. destruct (open e) eqn:Eo; [|cbn in He; lia]. cbn [andb] in He.
    destruct (Z.eqb_spec (file_id e) (Z.of_nat i)) as [Eid|]; [|cbn in He; lia].
    set (pid := Z.of_nat j / 64). set (fd := Z.of_nat j mod 64).
    assert (Hpid : 0 <= pid < 16 /\ 0 <= fd < 64 /\ slot pid fd = Z.of_nat j).
    { unfold FD_FILE_MAX, FD_MAX_PROCESSES, FD_MAX_PER_PROCESS, slot, pid, fd in *.
      pose proof (Z.mod_pos_bound (Z.of_nat j) 64). pose proof (Z.div_mod (Z.of_nat j) 64).
      unfold FD_MAX_PER_PROCESS. split_and!; lia. }
    destruct Hpid as (Hpid & Hfd & Hs).
    assert (Ee : g_fds s pid fd = e).
    { unfold g_fds, at_z. rewrite Hs, Nat2Z.id, nth_lookup, Hj. done. }
    exists pid, fd, (Z.of_nat i), f. split; [|done]. unfold file_for, entry_for.
    rewrite (proj2 (valid_pid_iff pid)), (proj2 (valid_fd_iff fd)), Ee, Eo by done. cbn [andb].
    rewrite Eid, Ef. destruct (Z.ltb_spec (Z.of_nat i) FD_FILE_MAX); [|unfold valid_file in Hid; lia].
    apply Z.eqb_neq in E1. by rewrite E1.
Qed.

Lemma other_end_count s id pi :
  fd_inv s -> valid_file id -> references (g_files s id) <> 0 -> is_pipe (kind (g_files s id)) ->
  pipe_id (g_files s id) = pi ->
  readers (g_pipes s pi) = ends s FD_KIND_PIPE_READ pi /\ writers (g_pipes s pi) = ends s FD_KIND_PIPE_WRITE pi.
Proof.
  intros Hi Hid Hr Hk <-. destruct (pipe_file_ok s id Hi Hid Hr Hk) as [Hpi Ha].
  destruct Hi as [_ Hp]. destruct (pipes_ok_at s _ Hp Hpi) as [_ Hc]. by rewrite Ha in Hc.
Qed.

Lemma unheld s k pi : fd_inv s -> ends s k pi = 0 <-> ~ held s k pi.
Proof. intros Hi. rewrite (held_iff s k pi Hi). pose proof (ends_nonneg s k pi). lia. Qed.

(** ** Pipes as byte streams *)

(** The bytes in flight in a pipe. *)
Definition in_flight (s : fds) (pi : Z) : list Z := contents FD_PIPE_BUFFER (buffer (g_pipes s pi)).

Section Stream.
Context {W : Type} `{EN : FdEnv W, FA : FrameAllocator W}.
Implicit Types w : W.

(** A descriptor open on an end of kind [k] of pipe [pi], with access [m]. *)
Definition pipe_end (s : fds) (pid fd : Z) (k : fd_kind) (m pi : Z) : Prop :=
  exists id f, file_for s pid fd = Some (id, f) /\ kind f = k /\ pipe_id f = pi /\ has (flags f) m = true.

Lemma file_for_set_pipe s pi p pid fd : file_for (set_pipe pi p s) pid fd = file_for s pid fd.
Proof. done. Qed.

Lemma in_flight_set s pi b :
  fd_inv s -> 0 <= pi < FD_PIPE_MAX ->
  in_flight (set_pipe pi (set_buffer b (g_pipes s pi)) s) pi = contents FD_PIPE_BUFFER b.
Proof.
  intros [Hb _] Hpi. unfold in_flight. rewrite (g_pipes_set_pipe s _ pi _ pi Hb) by done. by rewrite Z.eqb_refl.
Qed.

Lemma in_flight_length s pi :
  fd_inv s -> 0 <= pi < FD_PIPE_MAX -> Z.of_nat (length (in_flight s pi)) = used (buffer (g_pipes s pi)).
Proof. intros Hi Hpi. apply contents_length. by apply pipe_buffer_wf. Qed.

(** A write sends a prefix: everything that fits. *)
Lemma pipe_write_step s w pid fd pi d :
  fd_inv s -> pipe_end s pid fd FD_KIND_PIPE_WRITE FD_OPEN_WRITE pi ->
  exists s' rc, fd_write s w pid fd (Some d) (Z.of_nat (length d)) = (s', w, rc) /\ fd_inv s' /\
    (forall p q, file_for s' p q = file_for s p q) /\
    in_flight s' pi = in_flight s pi ++ take (Z.to_nat rc) d /\
    (held s FD_KIND_PIPE_READ pi -> Z.of_nat (length d) <= FD_IO_MAX ->
     rc = Z.min (Z.of_nat (length d)) (FD_PIPE_BUFFER - Z.of_nat (length (in_flight s pi)))).
Proof.
  intros Hi (id & f & Hf & Hk & Hpi & Hfl). subst pi.
  destruct (fd_write s w pid fd (Some d) (Z.of_nat (length d))) as [[s' w'] rc] eqn:E.
  pose proof (fd_write_inv s w pid fd (Some d) (Z.of_nat (length d)) _ _ _ Hi ltac:(lia) ltac:(cbn; reflexivity) E) as Hi'.
  destruct (file_for_spec _ _ _ _ _ Hi Hf) as (_ & _ & _ & _ & Hid & -> & Hr).
  assert (Hpk : is_pipe (kind (g_files s id))) by by right.
  destruct (pipe_file_ok s id Hi Hid Hr Hpk) as [Hpi Ha].
  destruct (other_end_count s id _ Hi Hid Hr Hpk eq_refl) as [Hrd _].
  pose proof (pipe_buffer_wf s _ Hi Hpi) as Hwf. pose proof (in_flight_length s _ Hi Hpi) as Hlen.
  unfold fd_write in E. rewrite Hf, Hfl in E. cbn [negb orb] in E.
  rewrite bool_decide_eq_false_2 in E by done. cbn [andb orb] in E.
  destruct (Z.ltb_spec FD_IO_MAX (Z.of_nat (length d))).
  { injection E as <- <- <-. exists s, (-1). rewrite app_nil_r. split_and!; auto. lia. }
  rewrite Hk in E. cbn [default] in E. rewrite take_ge in E by (cbn; lia). unfold pipe_write in E.
  destruct (Z.ltb_spec (pipe_id (g_files s id)) FD_PIPE_MAX); [|lia]. rewrite Ha in E. cbn [negb orb] in E.
  destruct (Z.eqb_spec (readers (g_pipes s (pipe_id (g_files s id)))) 0) as [E0|E0].
  { injection E as <- <- <-. exists s, (-2). rewrite app_nil_r. split_and!; auto.
    intros Hh. apply held_iff in Hh; [|done]. lia. }
  injection E as <- <- <-. eexists _, _. split; [reflexivity|]. split; [done|].
  split; [intros; apply file_for_set_pipe|]. rewrite in_flight_set by done.
  pose proof Hwf as (_ & _ & Hu & _). set (b := buffer _) in *. set (c := if Z.of_nat _ <? _ then _ else _ : Z).
  assert (Hc : c = Z.min (Z.of_nat (length d)) (FD_PIPE_BUFFER - used b))
    by (unfold c; destruct (Z.ltb_spec (Z.of_nat (length d)) (FD_PIPE_BUFFER - used b)); lia).
  pose proof (put_ring_spec b (take (Z.to_nat c) d) Hwf) as HP. rewrite length_take in HP.
  replace (Z.of_nat (Z.to_nat c `min` length d)) with c in HP by lia. split; [apply HP; lia|].
  intros _ _. unfold in_flight. fold b. unfold in_flight in Hlen. fold b in Hlen. lia.
Qed.

(** A read receives a prefix of what is in flight, as much as asked for. *)
Lemma pipe_read_step s w pid fd pi n :
  fd_inv s -> pipe_end s pid fd FD_KIND_PIPE_READ FD_OPEN_READ pi -> 0 <= n ->
  exists s' rc out, fd_read s w pid fd false n = (s', w, rc, out) /\ fd_inv s' /\
    (forall p q, file_for s' p q = file_for s p q) /\
    in_flight s pi = out ++ in_flight s' pi /\
    (0 < n <= FD_IO_MAX -> rc = Z.min n (Z.of_nat (length (in_flight s pi))) /\ Z.of_nat (length out) = rc).
Proof.
  intros Hi (id & f & Hf & Hk & Hpi & Hfl) Hn. subst pi.
  destruct (fd_read s w pid fd false n) as [[[s' w'] rc] out] eqn:E.
  pose proof (fd_read_inv _ _ _ _ _ _ _ _ _ _ Hi Hn E) as Hi'.
  destruct (file_for_spec _ _ _ _ _ Hi Hf) as (_ & _ & _ & _ & Hid & -> & Hr).
  assert (Hpk : is_pipe (kind (g_files s id))) by by left.
  destruct (pipe_file_ok s id Hi Hid Hr Hpk) as [Hpi Ha].
  pose proof (pipe_buffer_wf s _ Hi Hpi) as Hwf. pose proof (in_flight_length s _ Hi Hpi) as Hlen.
  unfold fd_read in E. rewrite Hf, Hfl in E. cbn [negb orb] in E.
  destruct (Z.eqb_spec n 0); cbn [orb] in E.
  { injection E as <- <- <- <-. exists s, (-1), []. split_and!; auto. lia. }
  destruct (Z.ltb_spec FD_IO_MAX n); cbn [orb] in E.
  { injection E as <- <- <- <-. exists s, (-1), []. split_and!; auto. lia. }
  rewrite Hk in E. unfold pipe_read in E.
  destruct (Z.ltb_spec (pipe_id (g_files s id)) FD_PIPE_MAX); [|lia]. rewrite Ha in E. cbn [negb orb] in E.
  pose proof Hwf as (_ & _ & Hu & _). set (b := buffer _) in *. set (c := if n <? _ then _ else _ : Z) in *.
  assert (Hc : c = Z.min n (used b)) by (unfold c; destruct (Z.ltb_spec n (used b)); lia).
  pose proof (take_ring_spec b c Hwf ltac:(lia)) as (_ & T2 & T3). destruct (pipe_take b (Z.to_nat c)) as [b' o].
  injection E as <- <- <- <-. cbn [fst snd] in *. eexists _, _, _. split; [reflexivity|]. split; [done|].
  split; [intros; apply file_for_set_pipe|]. rewrite in_flight_set by done. unfold in_flight in *. fold b in Hlen |- *.
  rewrite T3, T2. split; [by rewrite take_drop|]. intros _. rewrite length_take. lia.
Qed.

(** A writer and a reader taking turns: [inl d] writes [d], [inr n] reads up to
    [n] bytes.  The run collects the bytes reported as written and those read. *)
Fixpoint pipe_run (wp wfd rp rfd : Z) (ops : list (list Z + Z)) (s : fds) w : fds * W * list Z * list Z :=
  match ops with
  | [] => (s, w, [], [])
  | inl d :: ops =>
      let '(s, w, rc) := fd_write s w wp wfd (Some d) (Z.of_nat (length d)) in
      let '(s, w, sent, received) := pipe_run wp wfd rp rfd ops s w in
      (s, w, take (Z.to_nat rc) d ++ sent, received)
  | inr n :: ops =>
      let '(s, w, rc, out) := fd_read s w rp rfd false n in
      let '(s, w, sent, received) := pipe_run wp wfd rp rfd ops s w in
      (s, w, sent, out ++ received)
  end.

Lemma pipe_run_stream wp wfd rp rfd pi ops : forall s w,
  fd_inv s -> pipe_end s wp wfd FD_KIND_PIPE_WRITE FD_OPEN_WRITE pi ->
  pipe_end s rp rfd FD_KIND_PIPE_READ FD_OPEN_READ pi ->
  Forall (fun o => match o with inr n => 0 <= n | _ => True end) ops ->
  let '(s', w', sent, received) := pipe_run wp wfd rp rfd ops s w in
  in_flight s pi ++ sent = received ++ in_flight s' pi /\ fd_inv s' /\ w' = w /\
  pipe_end s' rp rfd FD_KIND_PIPE_READ FD_OPEN_READ pi.
Proof.
  induction ops as [|[d|n] ops IH]; intros s w Hi Hw Hr Ho; [cbn [pipe_run]; by rewrite app_nil_r|..];
    inversion_clear Ho as [|? ? Hn Ho']; cbn [pipe_run].
  - destruct (pipe_write_step s w wp wfd pi d Hi Hw) as (s1 & rc & -> & Hi1 & Hf & Hc & _).
    specialize (IH s1 w Hi1). unfold pipe_end in *. setoid_rewrite Hf in IH. specialize (IH Hw Hr Ho').
    destruct (pipe_run _ _ _ _ ops s1 w) as [[[s2 w2] sent] rec]. by rewrite app_assoc, <-Hc.
  - destruct (pipe_read_step s w rp rfd pi n Hi Hr Hn) as (s1 & rc & out & -> & Hi1 & Hf & Hc & _).
    specialize (IH s1 w Hi1). unfold pipe_end in *. setoid_rewrite Hf in IH. specialize (IH Hw Hr Ho').
    destruct (pipe_run _ _ _ _ ops s1 w) as [[[s2 w2] sent] rec]. destruct IH as [IH ?].
    by rewrite Hc, <-!app_assoc, IH.
Qed.
End Stream.

(** ** A small environment *)

(** Files as a function, no other services: the environment of the examples. *)
Definition demo_world : Type := path_t -> option (list Z).

Definition demo_put (w : demo_world) (p : path_t) (d : list Z) : demo_world :=
  fun q => if decide (q = p) then Some d else w q.

#[export] Instance demo_env : FdEnv demo_world := {|
  vfs_stat w p := match w p with Some c => Some (Z.of_nat (length c), false) | None => None end;
  vfs_write w p d := (demo_put w p d, 0);
  vfs_read w p n := match w p with
    | Some c => (w, Z.of_nat (length (take (Z.to_nat n) c)), take (Z.to_nat n) c) | None => (w, -1, []) end;
  vfs_read_at w p off n := match w p with
    | Some c => let out := take (Z.to_nat n) (drop (Z.to_nat off) c) in (w, Z.of_nat (length out), out)
    | None => (w, -1, []) end;
  vfs_list w p := (-1, []);
  env_pty_close w _ _ := w;
  env_pty_read w _ _ _ := (w, -1, []);
  env_pty_write w _ _ _ := (w, -1);
  env_pty_available w _ _ := 0;
  unix_socket_recv_stream w _ _ := (w, -1, []);
  unix_socket_send_stream w _ _ := (w, -1);
  unix_socket_poll_events w _ _ := 0;
  unix_socket_release w _ := w;
  unix_memfd_read w _ off _ := (w, -1, off, []);
  unix_memfd_write w _ off _ := (w, -1, off);
  unix_memfd_release w _ := w;
  unix_epoll_release w _ := w;
  unix_eventfd_read w _ _ := (w, -1, []);
  unix_eventfd_write w _ _ := (w, -1);
  unix_eventfd_poll w _ _ := 0;
  unix_eventfd_release w _ := w;
  evdev_read w _ _ := (w, -1, []);
  evdev_poll w _ _ := 0;
  evdev_release w _ := w;
  drm_fb_release w _ := w
|}.

#[export] Instance demo_frames : FrameAllocator demo_world := {|
  fa_alloc_pages w n := (w, PAGE_SIZE);
  fa_free_pages w _ _ := (w, 0)
|}.

Definition demo_empty : demo_world := fun _ => None.

(** Process 0 after [fd_pipe_create]: descriptors 0 and 1 are the ends of pipe 0. *)
Definition demo_pipe : fds := fst (exec (fd_init fds_bss, demo_empty) (OpPipe 0 false)).

Definition demo_read_end : fd_file := FdFile 1 FD_OPEN_READ 0 FD_KIND_PIPE_READ 0 0 [].
Definition demo_write_end : fd_file := FdFile 1 FD_OPEN_WRITE 0 FD_KIND_PIPE_WRITE 0 0 [].

Lemma demo_pipe_inv : fd_inv demo_pipe.
Proof. apply (exec_inv (fd_init fds_bss) demo_empty (OpPipe 0 false) fd_init_inv). done. Qed.

Lemma demo_read_fd : file_for demo_pipe 0 0 = Some (0, demo_read_end).
Proof. vm_compute. reflexivity. Qed.

Lemma demo_write_fd : file_for demo_pipe 0 1 = Some (1, demo_write_end).
Proof. vm_compute. reflexivity. Qed.

(** ** Properties *)

Section Props.
Context {W : Type} `{EN : FdEnv W, FA : FrameAllocator W}.
Implicit Types w : W.

(** C21. In every state the descriptor calls reach from boot, each open file is
    counted once per descriptor that names it (so it is released by the last close
    and never before), every open descriptor names a live file, and an allocated
    pipe counts exactly the open files on each of its two ends. *)
Theorem fd_tables_consistent ops w :
  Forall op_ok ops ->
  let s := fst (foldl exec (fd_init fds_bss, w) ops) in
  (forall id, valid_file id -> references (g_files s id) = live_refs s id) /\
  (forall pid fd, 0 <= pid < FD_MAX_PROCESSES -> 0 <= fd < FD_MAX_PER_PROCESS -> open (g_fds s pid fd) = true ->
     exists id f, file_for s pid fd = Some (id, f) /\ 0 < references f) /\
  (forall pi, 0 <= pi < FD_PIPE_MAX -> pipe_allocated (g_pipes s pi) = true ->
     readers (g_pipes s pi) = ends s FD_KIND_PIPE_READ pi /\ writers (g_pipes s pi) = ends s FD_KIND_PIPE_WRITE pi).
Proof.
  intros Hops s. pose proof (run_inv ops (fd_init fds_bss) w fd_init_inv Hops) as Hi. fold s in Hi.
  split; [intros; by apply refs_of|]. split.
  - intros pid fd Hp Hf Ho. pose proof Hi as [Hb _]. destruct (open_valid_file s _ pid fd Hb Hp Hf Ho) as [Hv Hl].
    exists (file_id (g_fds s pid fd)), (g_files s (file_id (g_fds s pid fd))).
    pose proof (refs_of s _ Hi Hv) as Hr. split; [|lia]. unfold file_for, entry_for.
    rewrite (proj2 (valid_pid_iff pid)), (proj2 (valid_fd_iff fd)), Ho by done. cbn [andb].
    destruct (Z.ltb_spec (file_id (g_fds s pid fd)) FD_FILE_MAX); [|unfold valid_file in Hv; lia].
    destruct (Z.eqb_spec (references (g_files s (file_id (g_fds s pid fd)))) 0); [lia|done].
  - intros pi Hpi Ha. destruct Hi as [_ Hp]. destruct (pipes_ok_at s pi Hp Hpi) as [_ Hc]. by rewrite Ha in Hc.
Qed.

(** C22. A pipe hangs up exactly when nobody holds the other end: polling the read
    end reports a hang-up iff no process has the write end open, and writing fails
    with the broken-pipe result iff no process has the read end open. *)
Theorem pipe_hangup_correct s w pid fd id f :
  fd_inv s -> file_for s pid fd = Some (id, f) ->
  (kind f = FD_KIND_PIPE_READ ->
     has (fd_poll s w pid fd 7) FD_POLL_HANGUP = true <-> ~ held s FD_KIND_PIPE_WRITE (pipe_id f)) /\
  (kind f = FD_KIND_PIPE_WRITE -> has (flags f) FD_OPEN_WRITE = true -> forall d,
     Z.of_nat (length d) <= FD_IO_MAX ->
     snd (fd_write s w pid fd (Some d) (Z.of_nat (length d))) = -2 <-> ~ held s FD_KIND_PIPE_READ (pipe_id f)).
Proof.
  intros Hi Hf. destruct (file_for_spec _ _ _ _ _ Hi Hf) as (_ & _ & _ & _ & Hid & -> & Hr).
  set (f := g_files s id) in *. split.
  - intros Hk. assert (Hpk : is_pipe (kind f)) by by left.
    destruct (pipe_file_ok s id Hi Hid Hr Hpk) as [Hpi Ha]. destruct (other_end_count s id _ Hi Hid Hr Hpk eq_refl) as [_ Hw].
    fold f in Hw, Ha, Hpi. rewrite <-(unheld s _ _ Hi), <-Hw. unfold fd_poll. rewrite Hf. unfold file_ready. rewrite Hk.
    destruct (Z.leb_spec FD_PIPE_MAX (pipe_id f)); [lia|]. rewrite Ha. cbn [orb negb].
    rewrite !bool_decide_eq_true_2, !bool_decide_eq_false_2 by done. cbn [andb orb].
    rewrite orb_false_r, <-Z.eqb_eq.
    destruct (negb _), (writers _ =? 0); cbn; done.
  - intros Hk Hfl d Hd. assert (Hpk : is_pipe (kind f)) by by right.
    destruct (pipe_file_ok s id Hi Hid Hr Hpk) as [Hpi Ha]. destruct (other_end_count s id _ Hi Hid Hr Hpk eq_refl) as [Hw _].
    fold f in Hw, Ha, Hpi. rewrite <-(unheld s _ _ Hi), <-Hw. unfold fd_write. rewrite Hf, Hfl. cbn [negb orb].
    rewrite bool_decide_eq_false_2 by done. cbn [andb orb].
    destruct (Z.ltb_spec FD_IO_MAX (Z.of_nat (length d))); [lia|]. rewrite Hk. unfold pipe_write.
    destruct (Z.ltb_spec (pipe_id f) FD_PIPE_MAX); [|lia]. rewrite Ha. cbn [negb orb].
    destruct (Z.eqb_spec (readers (g_pipes s (pipe_id f))) 0); [done|]. cbn [snd].
    pose proof (pipe_buffer_wf s _ Hi Hpi) as (_ & _ & Hu & _). split; [|done].
    destruct (_ <? _); lia.
Qed.

(** C23. A pipe is a bounded byte stream: whatever the interleaving of writes and
    reads, the bytes reported as written are the bytes read followed by those still
    in the buffer, at most 4096 of them, and the next read delivers the oldest of
    these, all of them when it asks for enough. *)
Theorem pipe_is_byte_stream s w wp wfd rp rfd pi ops :
  fd_inv s -> pipe_end s wp wfd FD_KIND_PIPE_WRITE FD_OPEN_WRITE pi ->
  pipe_end s rp rfd FD_KIND_PIPE_READ FD_OPEN_READ pi -> in_flight s pi = [] ->
  Forall (fun o => match o with inr n => 0 <= n | _ => True end) ops ->
  let '(s', w', sent, received) := pipe_run wp wfd rp rfd ops s w in
  sent = received ++ in_flight s' pi /\ Z.of_nat (length (in_flight s' pi)) <= FD_PIPE_BUFFER /\
  forall n, 0 < n <= FD_IO_MAX ->
    let '(s2, _, rc, out) := fd_read s' w' rp rfd false n in
    rc = Z.min n (Z.of_nat (length (in_flight s' pi))) /\ out = take (Z.to_nat n) (in_flight s' pi) /\
    in_flight s2 pi = drop (Z.to_nat n) (in_flight s' pi).
Proof.
  intros Hi Hw Hr Hc Ho. pose proof (pipe_run_stream wp wfd rp rfd pi ops s w Hi Hw Hr Ho) as HS.
  destruct (pipe_run wp wfd rp rfd ops s w) as [[[s' w'] sent] rec]. destruct HS as (HS & Hi' & -> & Hr').
  rewrite Hc in HS. split; [exact HS|]. pose proof Hr' as (id & f & Hf & Hk & Hpi & _).
  destruct (file_for_spec _ _ _ _ _ Hi' Hf) as (_ & _ & _ & _ & Hid & -> & Hrf).
  destruct (pipe_file_ok s' id Hi' Hid Hrf (or_introl Hk)) as [Hpb _]. rewrite Hpi in Hpb.
  pose proof (in_flight_length s' pi Hi' Hpb) as Hl. pose proof (pipe_buffer_wf s' pi Hi' Hpb) as (_ & _ & Hu & _).
  split; [lia|]. intros n Hn.
  destruct (pipe_read_step s' w rp rfd pi n Hi' Hr' ltac:(lia)) as (s2 & rc & out & -> & _ & _ & E & Hrc).
  destruct (Hrc Hn) as [-> Ho2]. split; [done|]. rewrite E.
  destruct (Z.le_gt_cases n (Z.of_nat (length (in_flight s' pi)))).
  - assert (El : Z.to_nat n = length out) by lia. by rewrite El, take_app_length, drop_app_length.
  - assert (E2 : in_flight s2 pi = []).
    { apply length_zero_iff_nil. pose proof (f_equal length E) as E3. rewrite length_app in E3. lia. }
    assert (El : (length out <= Z.to_nat n)%nat) by lia.
    by rewrite E2, app_nil_r, take_ge, drop_ge.
Qed.
End Props.

Lemma fd_tables_consistent_witness :
  Forall op_ok [OpPipe 0 false; OpDup2 0 1 9; OpInherit 0 3; OpClose 0 1; OpCloseOwner 3] /\
  forall id, valid_file id ->
    references (g_files (fst (foldl exec (fd_init fds_bss, demo_empty)
      [OpPipe 0 false; OpDup2 0 1 9; OpInherit 0 3; OpClose 0 1; OpCloseOwner 3])) id) =
    live_refs (fst (foldl exec (fd_init fds_bss, demo_empty)
      [OpPipe 0 false; OpDup2 0 1 9; OpInherit 0 3; OpClose 0 1; OpCloseOwner 3])) id.
Proof.
  assert (Hok : Forall op_ok [OpPipe 0 false; OpDup2 0 1 9; OpInherit 0 3; OpClose 0 1; OpCloseOwner 3])
    by (repeat constructor).
  split; [exact Hok|].
  exact (proj1 (fd_tables_consistent [OpPipe 0 false; OpDup2 0 1 9; OpInherit 0 3; OpClose 0 1; OpCloseOwner 3]
    demo_empty Hok)).
Defined.

Lemma pipe_hangup_correct_witness :
  fd_inv demo_pipe /\ file_for demo_pipe 0 0 = Some (0, demo_read_end) /\
  (has (fd_poll demo_pipe demo_empty 0 0 7) FD_POLL_HANGUP = true <-> ~ held demo_pipe FD_KIND_PIPE_WRITE 0).
Proof.
  split; [exact demo_pipe_inv|]. split; [exact demo_read_fd|].
  exact (proj1 (pipe_hangup_correct demo_pipe demo_empty 0 0 0 demo_read_end demo_pipe_inv demo_read_fd) eq_refl).
Defined.

Lemma pipe_is_byte_stream_witness :
  let '(s', w', sent, received) :=
    pipe_run 0 1 0 0 [inl [104; 105]; inr 1; inl [33]; inr 5] demo_pipe demo_empty in
  sent = received ++ in_flight s' 0 /\ Z.of_nat (length (in_flight s' 0)) <= FD_PIPE_BUFFER /\
  forall n, 0 < n <= FD_IO_MAX ->
    let '(s2, _, rc, out) := fd_read s' w' 0 0 false n in
    rc = Z.min n (Z.of_nat (length (in_flight s' 0))) /\ out = take (Z.to_nat n) (in_flight s' 0) /\
    in_flight s2 0 = drop (Z.to_nat n) (in_flight s' 0).
Proof.
  apply (pipe_is_byte_stream demo_pipe demo_empty 0 1 0 0 0).
  - exact demo_pipe_inv.
  - exists 1, demo_write_end. split; [exact demo_write_fd|done].
  - exists 0, demo_read_end. split; [exact demo_read_fd|done].
  - vm_compute. reflexivity.
  - repeat constructor; done.
Defined.

(** The run of the example delivers the bytes in order. *)
Example demo_stream :
  let '(_, _, sent, received) :=
    pipe_run 0 1 0 0 [inl [104; 105]; inr 1; inl [33]; inr 5] demo_pipe demo_empty in
  sent = [104; 105; 33] /\ received = [104; 105; 33].
Proof. vm_compute. split; reflexivity. Qed.
