(* ===== verification/FdFile.v ===== *)
(** Writing regular files through descriptors: against any file store that reads
    back what was written, a write at an offset replaces exactly those bytes and
    fills a gap after the old end with zeros. *)
From S2P Require Import Prelude Pmm Vmm Ring Fd FdInv FdSpec.

(** What the descriptor layer relies on in the file system: regular files have
    contents, reading returns a prefix of them, a successful write replaces them
    and a failed one does not; taking scratch frames does not touch files. *)
Class FileStore (W : Type) `{EN : FdEnv W, FA : FrameAllocator W} := {
  content : W -> path_t -> option (list Z);
  fs_stat w p sz : vfs_stat w p = Some (sz, false) -> exists c, content w p = Some c /\ sz = Z.of_nat (length c);
  fs_read w p n w' rc out :
    vfs_read w p n = (w', rc, out) -> (forall q, content w' q = content w q) /\
    (0 <= rc -> forall c, content w p = Some c -> out = take (Z.to_nat n) c);
  fs_read_at w p off n w' rc out :
    vfs_read_at w p off n = (w', rc, out) -> (forall q, content w' q = content w q) /\
    (0 <= rc -> forall c, content w p = Some c -> out = take (Z.to_nat n) (drop (Z.to_nat off) c));
  fs_write w p d w' rc :
    vfs_write w p d = (w', rc) ->
    if rc <? 0 then forall q, content w' q = content w q
    else content w' p = Some d /\ forall q, q <> p -> content w' q = content w q;
  fs_alloc w n q : content (fst (fa_alloc_pages w n)) q = content w q;
  fs_free w a n q : content (fst (fa_free_pages w a n)) q = content w q
}.

(** The contents after writing [d] at [o]. *)
Definition write_at (o : nat) (d old : list Z) : list Z :=
  take o (old ++ replicate (o - length old) 0) ++ d ++ drop (o + length d) old.

Lemma length_write_at o d old : length (write_at o d old) = (length old `max` (o + length d))%nat.
Proof. unfold write_at. rewrite !length_app, length_take, length_app, length_replicate, length_drop. lia. Qed.

Lemma write_at_read o d old : take (length d) (drop o (write_at o d old)) = d.
Proof.
  unfold write_at. rewrite drop_app_length'.
  - apply take_app_length.
  - rewrite length_take, length_app, length_replicate. lia.
Qed.

Lemma overlay_is_write (L o : nat) d old :
  (length old <= L)%nat -> (o + length d <= L)%nat ->
  take (length old `max` (o + length d)) (overlay (overlay (replicate L 0) 0 old) (Z.of_nat o) d) = write_at o d old.
Proof.
  intros H1 H2. unfold overlay. change (Z.to_nat 0) with 0%nat. rewrite Nat2Z.id, take_0, app_nil_l, drop_replicate.
  cbn [Nat.add]. set (z := replicate (L - length old) 0). unfold write_at.
  assert (Ht : take o (old ++ z) = take o (old ++ replicate (o - length old) 0)).
  { rewrite !take_app. f_equal. unfold z. rewrite !take_replicate. f_equal. lia. }
  rewrite <-Ht. set (h := take o (old ++ z)).
  assert (Hh : length h = o) by (unfold h, z; rewrite length_take, length_app, length_replicate; lia).
  rewrite take_app_ge by lia. f_equal. rewrite Hh, take_app_ge by lia. f_equal.
  rewrite drop_app. replace (length old `max` (o + length d) - o - length d)%nat with (length old - (o + length d))%nat by lia.
  rewrite take_app_le by (rewrite length_drop; lia). apply take_ge. rewrite length_drop. lia.
Qed.

Section Props.
Context {W : Type} `{FS : FileStore W}.
Implicit Types w : W.

Lemma content_free_buffer w b q : content (free_buffer w b) q = content w q.
Proof. unfold free_buffer. destruct (snd b =? 0); [done|apply fs_free]. Qed.

Lemma alloc_buffer_spec w n w' r :
  alloc_buffer w n = (w', r) ->
  (forall q, content w' q = content w q) /\
  (forall b, r = Some b -> n <= snd b * PAGE_SIZE).
Proof.
  unfold alloc_buffer. destruct (_ || _); [by intros [= <- <-]|]. pose proof (fs_alloc w ((n + PAGE_SIZE - 1) / PAGE_SIZE)) as Ha.
  destruct (fa_alloc_pages _ _) as [w1 phys]. intros [= <- <-]. split; [exact Ha|].
  destruct (phys =? 0); [done|]. intros b [= <-]. cbn [snd]. unfold PAGE_SIZE.
  Z.to_euclidean_division_equations. lia.
Qed.

Lemma file_write_spec s w id f d s' w' rc :
  valid_file id -> 0 <= offset f ->
  file_write s w id f d (Z.of_nat (length d)) = (s', w', rc) ->
  (rc < 0 /\ s' = s /\ forall q, content w' q = content w q) \/
  (rc = Z.of_nat (length d) /\ s' = update_offset id (offset f + rc) s /\
   offset f + rc <= FD_IO_MAX /\
   exists old, content w (path f) = Some old /\
     content w' (path f) = Some (write_at (Z.to_nat (offset f)) d old) /\
     forall q, q <> path f -> content w' q = content w q).
Proof.
  intros Hid Ho. unfold file_write. destruct (vfs_stat w (path f)) as [[sz dir]|] eqn:Es; [|by intros [= <- <- <-]; left].
  destruct dir; [by intros [= <- <- <-]; left|]. destruct (fs_stat _ _ _ Es) as (old & Hold & ->). cbn zeta.
  set (n := Z.of_nat (length d)). set (end_ := add_clamped (offset f) n).
  set (size := if end_ <? _ then _ else _ : Z).
  destruct (Z.ltb_spec FD_IO_MAX size) as [|Hsz]; [by intros [= <- <- <-]; left|].
  assert (Hend : end_ = offset f + n /\ size = Z.max (Z.of_nat (length old)) (offset f + n)).
  { unfold size, end_, add_clamped, FD_IO_MAX in *. destruct (Z.ltb_spec (2 ^ 64 - 1 - offset f) n).
    - exfalso. revert Hsz. destruct (Z.ltb_spec (2 ^ 64 - 1) (Z.of_nat (length old))); lia.
    - destruct (Z.ltb_spec (offset f + n) (Z.of_nat (length old))); lia. }
  destruct Hend as [He Hs]. rewrite He. clearbody size end_.
  destruct (alloc_buffer w _) as [w1 [b|]] eqn:Ea; [|apply alloc_buffer_spec in Ea as [Ea _]; intros [= <- <- <-]; by left].
  apply alloc_buffer_spec in Ea as [Ea Hb]. specialize (Hb b eq_refl).
  assert (Hb2 : size <= snd b * PAGE_SIZE) by (destruct (Z.eqb_spec size 0); lia). clear Hb.
  destruct (if _ =? 0 then _ else vfs_read _ _ _) as [[w2 rr] out] eqn:Er.
  assert (Hr : (forall q, content w2 q = content w q) /\ (0 <= rr -> out = old)).
  { revert Er. destruct (Z.eqb_spec (Z.of_nat (length old)) 0) as [E0|E0].
    - intros [= <- <- <-]. split; [done|]. intros _. symmetry. apply length_zero_iff_nil. lia.
    - intros Er. apply fs_read in Er as [Er1 Er2]. split; [intros q; by rewrite Er1, Ea|]. intros Hrr.
      rewrite Ea in Er2. rewrite (Er2 Hrr _ Hold). rewrite Nat2Z.id. by apply take_ge. }
  destruct Hr as [Hr1 Hr2]. destruct (Z.ltb_spec rr 0).
  { intros [= <- <- <-]. left. split; [lia|]. split; [done|]. intros q. by rewrite content_free_buffer. }
  rewrite Hr2 by lia. destruct (vfs_write w2 _ _) as [w3 res] eqn:Ew. apply fs_write in Ew.
  intros [= <- <- <-]. destruct (Z.ltb_spec res 0).
  { left. split; [done|]. split; [done|]. intros q. by rewrite content_free_buffer, Ew. }
  right. destruct Ew as [Ew1 Ew2]. split; [done|]. split; [done|]. split; [lia|].
  exists old. split; [done|]. split.
  - rewrite content_free_buffer, Ew1. f_equal.
    replace (Z.to_nat size) with (length old `max` (Z.to_nat (offset f) + length d))%nat by lia.
    rewrite <-(Z2Nat.id (offset f)) at 2 by done. apply overlay_is_write; lia.
  - intros q Hq. by rewrite content_free_buffer, Ew2.
Qed.

End Props.

(** ** The small environment is a file store *)

#[export] Instance demo_store : FileStore demo_world.
Proof.
  refine {| content w p := w p |}; cbn [vfs_stat vfs_read vfs_read_at vfs_write fa_alloc_pages fa_free_pages demo_env demo_frames fst]; try done.
  - intros w p sz. destruct (w p) as [c|]; [|done]. intros [= <-]. by exists c.
  - intros w p n w' rc out. destruct (w p) as [c|]; intros [= <- <- <-]; (split; [done|]).
    + by intros _ c' [= ->].
    + lia.
  - intros w p off n w' rc out. destruct (w p) as [c|]; intros [= <- <- <-]; (split; [done|]).
    + by intros _ c' [= ->].
    + lia.
  - intros w p d w' rc [= <- <-]. cbn. unfold demo_put. split; [by rewrite decide_True|].
    intros q Hq. by rewrite decide_False.
Defined.

Definition demo_path : path_t := [47; 97].

(** Process 0 has the file [/a], holding five bytes, open at offset 0. *)
Definition demo_file_world : demo_world := demo_put demo_empty demo_path [1; 2; 3; 4; 5].
Definition demo_file_op : fd_op := OpOpen 0 (Some demo_path) (Z.lor FD_OPEN_READ FD_OPEN_WRITE).
Definition demo_file_state : fds := fst (exec (fd_init fds_bss, demo_file_world) demo_file_op).
Definition demo_file : fd_file := FdFile 1 3 0 FD_KIND_FILE 0 0 demo_path.

Lemma demo_file_inv : fd_inv demo_file_state.
Proof. apply (exec_inv (fd_init fds_bss) demo_file_world demo_file_op fd_init_inv). done. Qed.

Lemma demo_file_fd : file_for demo_file_state 0 0 = Some (0, demo_file).
Proof. vm_compute. reflexivity. Qed.

