(* ===== verification/UnixSock.v ===== *)
(** UNIX domain sockets: the second part of [kernel/unix_ipc.c].

    A socket is an element of [g_unix_sockets]; a pointer to it is its index, the
    null pointer is [None].  A descriptor stores the pointer as [custom_ptr], here
    the index plus one.  The inbound bytes, the queued file ids and the backlog are
    rings.  User memory ([copy_from_user], [copy_to_user]) is the interface
    [UserMem]. *)
From S2P Require Import Prelude Pmm Vmm Ring Fd.

Definition MAX_UNIX_SOCKETS : Z := 32.
Definition UNIX_RING_SIZE : Z := 64 * 1024.
Definition MAX_QUEUED_FDS : Z := 16.
Definition BACKLOG_MAX : Z := 16.
Definition SOCK_STREAM : Z := 1.
Definition SOCK_DGRAM : Z := 2.
Definition SOL_SOCKET : Z := 1.
Definition SCM_RIGHTS : Z := 1.

Inductive unix_state := UNIX_STATE_CLOSED | UNIX_STATE_OPEN | UNIX_STATE_LISTENING | UNIX_STATE_CONNECTED.

#[export] Instance unix_state_eq_dec : EqDecision unix_state.
Proof. solve_decision. Defined.

Record unix_socket := UnixSocket {
  refcount : Z; in_use : bool; owner_pid : Z; state : unix_state; spath : path_t; peer : option Z;
  inbound : ring; queued_file_ids : ring; backlog : ring
}.

Definition no_socket : unix_socket :=
  UnixSocket 0 false 0 UNIX_STATE_CLOSED [] None
    (Ring (replicate (Z.to_nat UNIX_RING_SIZE) 0) 0 0 0) (Ring (replicate (Z.to_nat MAX_QUEUED_FDS) 0) 0 0 0)
    (Ring (replicate (Z.to_nat BACKLOG_MAX) 0) 0 0 0).

Abbreviation sockets := (list unix_socket).

(** [g_unix_sockets[i]] and [g_unix_sockets[i].field = ...] *)
Definition sock (g : sockets) (i : Z) : unix_socket := at_z no_socket g i.
Definition upd (i : Z) (f : unix_socket -> unix_socket) (g : sockets) : sockets := <[Z.to_nat i := f (sock g i)]> g.

Definition set_state (st : unix_state) (s : unix_socket) : unix_socket :=
  UnixSocket (refcount s) (in_use s) (owner_pid s) st (spath s) (peer s) (inbound s) (queued_file_ids s) (backlog s).
Definition set_peer (p : option Z) (s : unix_socket) : unix_socket :=
  UnixSocket (refcount s) (in_use s) (owner_pid s) (state s) (spath s) p (inbound s) (queued_file_ids s) (backlog s).
Definition set_in_use (u : bool) (n : Z) (s : unix_socket) : unix_socket :=
  UnixSocket n u (owner_pid s) (state s) (spath s) (peer s) (inbound s) (queued_file_ids s) (backlog s).
Definition set_spath (p : path_t) (s : unix_socket) : unix_socket :=
  UnixSocket (refcount s) (in_use s) (owner_pid s) (state s) p (peer s) (inbound s) (queued_file_ids s) (backlog s).
Definition set_inbound (r : ring) (s : unix_socket) : unix_socket :=
  UnixSocket (refcount s) (in_use s) (owner_pid s) (state s) (spath s) (peer s) r (queued_file_ids s) (backlog s).
Definition set_queued (r : ring) (s : unix_socket) : unix_socket :=
  UnixSocket (refcount s) (in_use s) (owner_pid s) (state s) (spath s) (peer s) (inbound s) r (backlog s).
Definition set_backlog (r : ring) (s : unix_socket) : unix_socket :=
  UnixSocket (refcount s) (in_use s) (owner_pid s) (state s) (spath s) (peer s) (inbound s) (queued_file_ids s) r.

(** A descriptor's socket: [fd_get_custom] with the kind test. *)
Definition ptr_of (i : Z) : Z := i + 1.
Definition socket_of (t : fds) (pid fd : Z) : option Z :=
  match fd_get_custom t pid fd with
  | Some (FD_KIND_UNIX_SOCKET, ptr) => if ptr =? 0 then None else Some (ptr - 1)
  | _ => None
  end.

Definition alloc_unix_socket (g : sockets) (pid : Z) : option (sockets * Z) :=
  match find_z (fun i => negb (in_use (sock g i)) && (refcount (sock g i) =? 0)) 0 (Z.to_nat MAX_UNIX_SOCKETS) with
  | None => None
  | Some i =>
      Some (upd i (fun s => UnixSocket 1 true pid UNIX_STATE_OPEN [] None
                              (reset (inbound s)) (reset (queued_file_ids s)) (reset (backlog s))) g, i)
  end.

Definition create_socket_fd (t : fds) (pid i : Z) : fds * Z :=
  fd_create_custom t pid FD_KIND_UNIX_SOCKET (ptr_of i) (Z.lor FD_OPEN_READ FD_OPEN_WRITE).

Definition unix_socket_create (t : fds) (g : sockets) (pid type : Z) : fds * sockets * Z :=
  let clean_type := Z.land type 255 in
  if negb (clean_type =? SOCK_STREAM) && negb (clean_type =? SOCK_DGRAM) then (t, g, -1)
  else
    match alloc_unix_socket g pid with
    | None => (t, g, -1)
    | Some (g, i) =>
        let '(t, fd) := create_socket_fd t pid i in
        if fd <? 0 then (t, upd i (set_in_use false 0) g, -1) else (t, g, fd)
    end.

Definition unix_socket_bind (t : fds) (g : sockets) (pid fd : Z) (path : option path_t) : sockets * Z :=
  match socket_of t pid fd, path with
  | Some i, Some (c :: p) => (upd i (set_spath (take 107 (c :: p))) g, 0)
  | _, _ => (g, -1)
  end.

Definition unix_socket_listen (t : fds) (g : sockets) (pid fd : Z) : sockets * Z :=
  match socket_of t pid fd with
  | Some i => (upd i (set_state UNIX_STATE_LISTENING) g, 0)
  | None => (g, -1)
  end.

(** The first listening socket bound to [path]. *)
Definition find_listener (g : sockets) (path : path_t) : option Z :=
  find_z (fun i => in_use (sock g i) && bool_decide (state (sock g i) = UNIX_STATE_LISTENING) &&
                   bool_decide (spath (sock g i) = path)) 0 (Z.to_nat MAX_UNIX_SOCKETS).

(** Join two sockets: [connect] and [socketpair]. *)
Definition join (a b : Z) (g : sockets) : sockets :=
  let g := upd a (set_peer (Some b)) g in
  let g := upd b (set_peer (Some a)) g in
  let g := upd a (set_state UNIX_STATE_CONNECTED) g in
  upd b (set_state UNIX_STATE_CONNECTED) g.

Definition unix_socket_connect (t : fds) (g : sockets) (pid fd : Z) (path : option path_t) : sockets * Z :=
  match socket_of t pid fd, path with
  | Some client, Some path =>
      match find_listener g path with
      | None => (g, -1)
      | Some listener =>
          if BACKLOG_MAX <=? used (backlog (sock g listener)) then (g, -1)
          else
            match alloc_unix_socket g (owner_pid (sock g listener)) with
            | None => (g, -1)
            | Some (g, server_peer) =>
                let g := join client server_peer g in
                (upd listener (fun s => set_backlog (push BACKLOG_MAX server_peer (backlog s)) s) g, 0)
            end
      end
  | _, _ => (g, -1)
  end.

(** The result carries [g_syscall_should_yield]. *)
Definition unix_socket_accept (t : fds) (g : sockets) (pid fd : Z) (nonblock : bool) : fds * sockets * Z * bool :=
  match socket_of t pid fd with
  | None => (t, g, -1, false)
  | Some l =>
      if negb (bool_decide (state (sock g l) = UNIX_STATE_LISTENING)) then (t, g, -1, false)
      else if used (backlog (sock g l)) =? 0 then (t, g, -1, negb nonblock)
      else
        let server_peer := ring_at (backlog (sock g l)) (tail (backlog (sock g l))) in
        let g := upd l (fun s => set_backlog (pop BACKLOG_MAX (backlog s)) s) g in
        let '(t, new_fd) := create_socket_fd t pid server_peer in
        (t, g, new_fd, false)
  end.

Definition unix_socket_release (g : sockets) (ptr : Z) : sockets :=
  if ptr =? 0 then g
  else
    let i := ptr - 1 in
    let n := if 0 <? refcount (sock g i) then refcount (sock g i) - 1 else refcount (sock g i) in
    let g := upd i (fun s => set_in_use (in_use s) n s) g in
    if n =? 0 then
      let g := upd i (set_state UNIX_STATE_CLOSED) g in
      let g := match peer (sock g i) with
               | Some p => upd i (set_peer None) (upd p (set_peer None) g)
               | None => g
               end in
      upd i (fun s => set_in_use false (refcount s) s) g
    else g.

Definition unix_socket_pair (t : fds) (g : sockets) (pid : Z) : fds * sockets * Z * (Z * Z) :=
  let '(g, s0) := match alloc_unix_socket g pid with Some (g, i) => (g, Some i) | None => (g, None) end in
  let '(g, s1) := match alloc_unix_socket g pid with Some (g, i) => (g, Some i) | None => (g, None) end in
  match s0, s1 with
  | Some s0, Some s1 =>
      let g := join s0 s1 g in
      let '(t, sv0) := create_socket_fd t pid s0 in
      let '(t, sv1) := create_socket_fd t pid s1 in
      if (sv0 <? 0) || (sv1 <? 0)
      then (t, unix_socket_release (unix_socket_release g (ptr_of s0)) (ptr_of s1), -1, (sv0, sv1))
      else (t, g, 0, (sv0, sv1))
  | _, _ =>
      let g := match s0 with Some i => unix_socket_release g (ptr_of i) | None => g end in
      let g := match s1 with Some i => unix_socket_release g (ptr_of i) | None => g end in
      (t, g, -1, (0, 0))
  end.

(** [process_get_credentials] is an argument. *)
Definition unix_socket_get_peercred (credentials : Z -> option (Z * Z)) (t : fds) (g : sockets) (pid fd : Z) :
  option (Z * Z * Z) :=
  match socket_of t pid fd with
  | None => None
  | Some i =>
      match peer (sock g i) with
      | Some p =>
          if negb (bool_decide (state (sock g i) = UNIX_STATE_CONNECTED)) || negb (in_use (sock g p)) then None
          else match credentials (owner_pid (sock g p)) with
               | Some (uid, gid) => Some (owner_pid (sock g p), uid, gid)
               | None => None
               end
      | None => None
      end
  end.

(** ** Byte streams *)

(** [while (sent < count)]: a second round finds the ring full or nothing left. *)
Fixpoint send_loop (fuel : nat) (r : ring) (b : list Z) : ring * Z :=
  match fuel with
  | O => (r, 0)
  | S fuel =>
      if Z.of_nat (length b) =? 0 then (r, 0)
      else
        let space := UNIX_RING_SIZE - used r in
        if space =? 0 then (r, 0)
        else
          let left := Z.of_nat (length b) in
          let chunk := if space <? left then space else left in
          let '(r, n) := send_loop fuel (push_all UNIX_RING_SIZE (take (Z.to_nat chunk) b) r) (drop (Z.to_nat chunk) b) in
          (r, chunk + n)
  end.

Definition unix_socket_send_stream (g : sockets) (ptr : Z) (src : list Z) : sockets * Z :=
  if ptr =? 0 then (g, -1)
  else
    let s := sock g (ptr - 1) in
    match peer s with
    | None => (g, -1)
    | Some p =>
        if negb (bool_decide (state s = UNIX_STATE_CONNECTED)) || (Z.of_nat (length src) =? 0) then (g, -1)
        else
          let '(r, sent) := send_loop 3 (inbound (sock g p)) src in
          (upd p (set_inbound r) g, if 0 <? sent then sent else -1)
    end.

(** [while (read_bytes < count && s->count > 0)] *)
Fixpoint recv_loop (count : nat) (r : ring) : ring * list Z :=
  match count with
  | O => (r, [])
  | S count =>
      if 0 <? used r then
        let c := ring_at r (tail r) in
        let '(r, out) := recv_loop count (pop UNIX_RING_SIZE r) in (r, c :: out)
      else (r, [])
  end.

Definition unix_socket_recv_stream (g : sockets) (ptr count : Z) : sockets * Z * list Z :=
  if (ptr =? 0) || (count =? 0) then (g, -1, [])
  else
    let i := ptr - 1 in
    let s := sock g i in
    if used (inbound s) =? 0 then
      if negb (bool_decide (state s = UNIX_STATE_CONNECTED)) || bool_decide (peer s = None)
      then (g, 0, []) else (g, -11, [])
    else
      let '(r, out) := recv_loop (Z.to_nat count) (inbound s) in
      (upd i (set_inbound r) g, Z.of_nat (length out), out).

Definition unix_socket_poll_events (g : sockets) (ptr events : Z) : Z :=
  if ptr =? 0 then -1
  else
    let s := sock g (ptr - 1) in
    match state s with
    | UNIX_STATE_LISTENING => Z.land (flag_if (0 <? used (backlog s)) FD_POLL_READ) events
    | UNIX_STATE_CONNECTED =>
        let ready :=
          Z.lor (flag_if (0 <? used (inbound s)) FD_POLL_READ)
            match peer s with
            | Some p =>
                Z.lor (flag_if (0 <? UNIX_RING_SIZE - used (inbound (sock g p))) FD_POLL_WRITE)
                  (flag_if (bool_decide (state (sock g p) = UNIX_STATE_CLOSED)) FD_POLL_HANGUP)
            | None => FD_POLL_HANGUP
            end in
        Z.land ready events
    | _ => Z.land FD_POLL_HANGUP events
    end.

(** ** Messages with descriptors *)

(** [copy_from_user(buffer, addr, n)] is the bytes or a failure;
    [copy_to_user(addr, bytes, n)] is the new memory and whether it succeeded. *)
Class UserMem (M : Type) := {
  um_read : M -> Z -> Z -> option (list Z);
  um_write : M -> Z -> list Z -> M * bool
}.

(** A signed field. *)
Definition ifield (off : nat) (bs : list Z) : Z := i32 (field off 4 bs).

Definition MSGHDR_SIZE : Z := 56.
Definition CMSGHDR_SIZE : Z := 16.
Definition IOVEC_SIZE : Z := 16.
Definition msg_iov : list Z -> Z := field 16 8.
Definition msg_iovlen : list Z -> Z := field 24 8.
Definition msg_control : list Z -> Z := field 32 8.
Definition msg_controllen : list Z -> Z := field 40 8.
Definition set_msg_controllen (n : Z) (msg : list Z) : list Z := take 40 msg ++ le_put 8 n ++ drop 48 msg.
Definition cmsg_len : list Z -> Z := field 0 8.
Definition cmsg_level : list Z -> Z := ifield 8.
Definition cmsg_type : list Z -> Z := ifield 12.

(** The socket descriptors an [int] array passes. *)
Fixpoint ints (n : nat) (bs : list Z) : list Z :=
  match n with O => [] | S n => ifield 0 bs :: ints n (drop 4 bs) end.

(** Queue the file ids of the passed descriptors at the peer. *)
Definition queue_fd (t : fds) (pid : Z) (p : Z) (g : sockets) (fd : Z) : sockets :=
  let file_id := fd_get_file_id t pid fd in
  if negb (file_id =? 0xFFFF) && (used (queued_file_ids (sock g p)) <? MAX_QUEUED_FDS)
  then upd p (fun s => set_queued (push MAX_QUEUED_FDS file_id (queued_file_ids s)) s) g
  else g.

(** A loop ends by going on to the next vector or by returning from the function;
    the fuel has run out when there is no answer. *)
Inductive outcome (A : Type) := Next (a : A) | Return (a : A) (rc : Z).
Arguments Next {A} a.
Arguments Return {A} a rc.

Section Messages.
Context {M : Type} `{UM : UserMem M}.

Definition send_rights (mem : M) (t : fds) (g : sockets) (pid p : Z) (msg : list Z) : sockets :=
  if negb (msg_control msg =? 0) && (CMSGHDR_SIZE <=? msg_controllen msg) then
    match um_read mem (msg_control msg) CMSGHDR_SIZE with
    | Some cmsg =>
        if (cmsg_level cmsg =? SOL_SOCKET) && (cmsg_type cmsg =? SCM_RIGHTS) then
          let data_len := if CMSGHDR_SIZE <? cmsg_len cmsg then cmsg_len cmsg - CMSGHDR_SIZE else 0 in
          let num_fds := i32 (data_len / 4) in
          if (0 <? num_fds) && (num_fds <=? 8) then
            match um_read mem (u64 (msg_control msg + CMSGHDR_SIZE)) (num_fds * 4) with
            | Some bs => foldl (queue_fd t pid p) g (ints (Z.to_nat num_fds) bs)
            | None => g
            end
          else g
        else g
    | None => g
    end
  else g.

(** The copy loop of one vector, [total] bytes sent before it. *)
Fixpoint send_chunks (fuel : nat) (mem : M) (g : sockets) (ptr base left offset total : Z) :
  option (outcome (sockets * Z)) :=
  match fuel with
  | O => None
  | S fuel =>
      if left <=? 0 then Some (Next (g, total))
      else
        let chunk := if 512 <? left then 512 else left in
        match um_read mem (u64 (base + offset)) chunk with
        | None => Some (Return (g, total) (if 0 <? total then total else -14))
        | Some kbuf =>
            let '(g, sent) := unix_socket_send_stream g ptr kbuf in
            if sent <=? 0 then Some (Return (g, total) (if 0 <? total then total else sent))
            else send_chunks fuel mem g ptr base (left - sent) (offset + sent) (total + sent)
        end
  end.

Definition CHUNK_FUEL : nat := Z.to_nat (UNIX_RING_SIZE + 2).

(** At most sixteen vectors. *)
Fixpoint send_iovs (n : nat) (i : Z) (mem : M) (g : sockets) (ptr : Z) (msg : list Z) (total : Z) :
  option (sockets * Z) :=
  match n with
  | O => Some (g, total)
  | S n =>
      if msg_iovlen msg <=? i then Some (g, total)
      else
        match um_read mem (u64 (msg_iov msg + i * IOVEC_SIZE)) IOVEC_SIZE with
        | None => Some (g, total)
        | Some iov =>
            let base := field 0 8 iov in
            let len := field 8 8 iov in
            if (base =? 0) || (len =? 0) then send_iovs n (i + 1) mem g ptr msg total
            else
              match send_chunks CHUNK_FUEL mem g ptr base len 0 total with
              | None => None
              | Some (Return (g, _) rc) => Some (g, rc)
              | Some (Next (g, total)) => send_iovs n (i + 1) mem g ptr msg total
              end
        end
  end.

Definition unix_socket_sendmsg (mem : M) (t : fds) (g : sockets) (pid fd u_msghdr : Z) : option (sockets * Z) :=
  match socket_of t pid fd with
  | None => Some (g, -1)
  | Some i =>
      if u_msghdr =? 0 then Some (g, -1)
      else
        match peer (sock g i) with
        | None => Some (g, -1)
        | Some p =>
            if negb (bool_decide (state (sock g i) = UNIX_STATE_CONNECTED)) then Some (g, -1)
            else
              match um_read mem u_msghdr MSGHDR_SIZE with
              | None => Some (g, -14)
              | Some msg => send_iovs 16 0 mem (send_rights mem t g pid p msg) (ptr_of i) msg 0
              end
        end
  end.

(** [while (s->qfd_count > 0 && num_deliv < 8)]: take queued ids and bind them to
    new descriptors; an id that cannot be bound is dropped. *)
Fixpoint deliver (fuel : nat) (t : fds) (pid : Z) (q : ring) (acc : list Z) : fds * ring * list Z :=
  match fuel with
  | O => (t, q, acc)
  | S fuel =>
      if (0 <? used q) && (Z.of_nat (length acc) <? 8) then
        let '(t, new_fd) := fd_bind_file_id t pid (ring_at q (tail q)) in
        deliver fuel t pid (pop MAX_QUEUED_FDS q) (if 0 <=? new_fd then acc ++ [new_fd] else acc)
      else (t, q, acc)
  end.

(** The control part of a receive: the message header as copied back. *)
Definition recv_rights (mem : M) (t : fds) (g : sockets) (pid i u_msghdr : Z) (msg : list Z) :
  M * fds * sockets * list Z :=
  let '(mem, t, g, msg, n) :=
    if negb (msg_control msg =? 0) && (CMSGHDR_SIZE + 4 <=? msg_controllen msg) &&
       (0 <? used (queued_file_ids (sock g i)))
    then
      let '(t, q, delivered) := deliver (Z.to_nat MAX_QUEUED_FDS) t pid (queued_file_ids (sock g i)) [] in
      let g := upd i (set_queued q) g in
      let n := Z.of_nat (length delivered) in
      if 0 <? n then
        let len := CMSGHDR_SIZE + n * 4 in
        let '(mem, _) := um_write mem (msg_control msg) (le_put 8 len ++ le_put 4 SOL_SOCKET ++ le_put 4 SCM_RIGHTS) in
        let '(mem, _) := um_write mem (u64 (msg_control msg + CMSGHDR_SIZE)) (flat_map (le_put 4) delivered) in
        (mem, t, g, set_msg_controllen len msg, n)
      else (mem, t, g, msg, 0)
    else (mem, t, g, msg, 0) in
  if negb (msg_control msg =? 0) then
    let msg := if n =? 0 then set_msg_controllen 0 msg else msg in
    let '(mem, _) := um_write mem u_msghdr msg in (mem, t, g, msg)
  else (mem, t, g, msg).

Fixpoint recv_chunks (fuel : nat) (mem : M) (g : sockets) (ptr base left offset total : Z) :
  option (outcome (M * sockets * Z)) :=
  match fuel with
  | O => None
  | S fuel =>
      if left <=? 0 then Some (Next (mem, g, total))
      else
        let chunk := if 512 <? left then 512 else left in
        let '(g, r, kbuf) := unix_socket_recv_stream g ptr chunk in
        if r <=? 0 then Some (Return (mem, g, total) (if 0 <? total then total else r))
        else
          let '(mem, ok) := um_write mem (u64 (base + offset)) kbuf in
          if negb ok then Some (Return (mem, g, total) (if 0 <? total then total else -14))
          else if r <? chunk then Some (Next (mem, g, total + r))
          else recv_chunks fuel mem g ptr base (left - r) (offset + r) (total + r)
  end.

Fixpoint recv_iovs (n : nat) (i : Z) (mem : M) (g : sockets) (ptr : Z) (msg : list Z) (total : Z) :
  option (M * sockets * Z) :=
  match n with
  | O => Some (mem, g, total)
  | S n =>
      if msg_iovlen msg <=? i then Some (mem, g, total)
      else
        match um_read mem (u64 (msg_iov msg + i * IOVEC_SIZE)) IOVEC_SIZE with
        | None => Some (mem, g, total)
        | Some iov =>
            let base := field 0 8 iov in
            let len := field 8 8 iov in
            if (base =? 0) || (len =? 0) then recv_iovs n (i + 1) mem g ptr msg total
            else
              match recv_chunks CHUNK_FUEL mem g ptr base len 0 total with
              | None => None
              | Some (Return (mem, g, _) rc) => Some (mem, g, rc)
              | Some (Next (mem, g, total)) => recv_iovs n (i + 1) mem g ptr msg total
              end
        end
  end.

Definition unix_socket_recvmsg (mem : M) (t : fds) (g : sockets) (pid fd u_msghdr : Z) :
  option (M * fds * sockets * Z) :=
  match socket_of t pid fd with
  | None => Some (mem, t, g, -1)
  | Some i =>
      if u_msghdr =? 0 then Some (mem, t, g, -1)
      else
        match um_read mem u_msghdr MSGHDR_SIZE with
        | None => Some (mem, t, g, -14)
        | Some msg =>
            let '(mem, t, g, msg) := recv_rights mem t g pid i u_msghdr msg in
            match recv_iovs 16 0 mem g (ptr_of i) msg 0 with
            | None => None
            | Some (mem, g, rc) => Some (mem, t, g, rc)
            end
        end
  end.
End Messages.

Definition unix_ipc_init_sockets (g : sockets) : sockets := map (set_in_use false 0) g.
