(* ===== verification/UnixSpec.v ===== *)
(** What the UNIX domain sockets promise: a connected pair is a byte stream in each
    direction, messages always return, a released end is seen by the other one; and
    where they fail: descriptors in flight hold no reference, and connecting twice
    leaves a stale link to a socket that may be reused. *)
From S2P Require Import Prelude Pmm Vmm Ring Fd FdInv FdSpec UnixSock.

(** ** The socket table *)

Definition valid_sock (i : Z) : Prop := 0 <= i < MAX_UNIX_SOCKETS.

Record socket_wf (s : unix_socket) : Prop := SocketWf {
  sw_inbound : ring_wf UNIX_RING_SIZE (inbound s);
  sw_queued : ring_wf MAX_QUEUED_FDS (queued_file_ids s);
  sw_backlog : ring_wf BACKLOG_MAX (backlog s);
  sw_peer p : peer s = Some p -> valid_sock p;
  sw_refs : 0 <= refcount s
}.

Definition sockets_wf (g : sockets) : Prop :=
  length g = Z.to_nat MAX_UNIX_SOCKETS /\ forall i, valid_sock i -> socket_wf (sock g i).

Lemma sock_upd g i j f :
  length g = Z.to_nat MAX_UNIX_SOCKETS -> valid_sock i -> valid_sock j ->
  sock (upd i f g) j = if j =? i then f (sock g i) else sock g j.
Proof.
  unfold valid_sock, MAX_UNIX_SOCKETS. intros Hl Hi Hj. unfold sock at 1, upd. by rewrite at_z_insert by lia.
Qed.

Lemma length_upd i f g : length (upd i f g) = length g.
Proof. apply length_insert. Qed.

Lemma upd_wf g i f :
  sockets_wf g -> valid_sock i -> (socket_wf (sock g i) -> socket_wf (f (sock g i))) -> sockets_wf (upd i f g).
Proof.
  intros [Hl Hw] Hi Hf. split; [by rewrite length_upd|]. intros j Hj. rewrite sock_upd by done.
  destruct (Z.eqb_spec j i) as [->|]; auto.
Qed.

Lemma ring_size_pos : 0 < UNIX_RING_SIZE. Proof. done. Qed.

(** ** Streams *)

(** One round of [send_loop] takes what fits; the next one stops. *)
Lemma send_loop_spec fuel : forall r b,
  ring_wf UNIX_RING_SIZE r -> (2 <= fuel)%nat ->
  let n := Z.min (Z.of_nat (length b)) (UNIX_RING_SIZE - used r) in
  send_loop fuel r b = (push_all UNIX_RING_SIZE (take (Z.to_nat n) b) r, n).
Proof.
  intros r b Hwf Hf. pose proof Hwf as (_ & _ & Hu & _). cbn zeta.
  assert (Hstop : forall f r' b', (1 <= f)%nat -> used r' = UNIX_RING_SIZE \/ b' = [] -> send_loop f r' b' = (r', 0)).
  { intros [|f] r' b' Hf' [Hr| ->]; [lia|lia| |done]. cbn [send_loop].
    rewrite Hr, Z.sub_diag. by destruct (_ =? 0). }
  destruct fuel as [|fuel]; [lia|]. cbn [send_loop].
  destruct (Z.eqb_spec (Z.of_nat (length b)) 0) as [e|_].
  { rewrite Z.min_l by lia. rewrite e. done. }
  destruct (Z.eqb_spec (UNIX_RING_SIZE - used r) 0) as [e|E1].
  { rewrite Z.min_r by lia. rewrite e. done. }
  set (n := Z.min _ _).
  replace (if UNIX_RING_SIZE - used r <? Z.of_nat (length b) then UNIX_RING_SIZE - used r else Z.of_nat (length b))
    with n by (unfold n; destruct (Z.ltb_spec (UNIX_RING_SIZE - used r) (Z.of_nat (length b))); lia).
  destruct (push_all_spec UNIX_RING_SIZE ring_size_pos (take (Z.to_nat n) b) r Hwf) as (_ & _ & Hused).
  { rewrite length_take. lia. }
  rewrite Hstop; [f_equal; lia|lia|]. rewrite Hused, length_take.
  destruct (Z.le_gt_cases (Z.of_nat (length b)) (UNIX_RING_SIZE - used r)).
  - right. apply drop_ge. lia.
  - left. lia.
Qed.

Lemma recv_loop_spec count : forall r,
  ring_wf UNIX_RING_SIZE r ->
  let n := Nat.min count (length (contents UNIX_RING_SIZE r)) in
  let '(r', out) := recv_loop count r in
  ring_wf UNIX_RING_SIZE r' /\ out = take n (contents UNIX_RING_SIZE r) /\
  contents UNIX_RING_SIZE r' = drop n (contents UNIX_RING_SIZE r).
Proof.
  induction count as [|count IH]; intros r Hwf; [done|]. cbn [recv_loop]. cbn zeta.
  pose proof (contents_length _ _ Hwf) as Hl. destruct (Z.ltb_spec 0 (used r)).
  - destruct (pop_spec UNIX_RING_SIZE ring_size_pos r Hwf ltac:(lia)) as [Hw Hc]. specialize (IH _ Hw).
    destruct (recv_loop count _) as [r' out]. cbn zeta in IH. rewrite Hc. cbn [length Nat.min take drop].
    destruct IH as (H1 & H2 & H3). by rewrite H2.
  - assert (E : contents UNIX_RING_SIZE r = []) by (apply length_zero_iff_nil; lia). rewrite E. rewrite Nat.min_0_r. done.
Qed.

(** The bytes waiting at socket [i]. *)
Definition waiting (g : sockets) (i : Z) : list Z := contents UNIX_RING_SIZE (inbound (sock g i)).

(** Updating only what the streams carry. *)
Definition same_links (g g' : sockets) : Prop :=
  forall i, valid_sock i -> state (sock g' i) = state (sock g i) /\ peer (sock g' i) = peer (sock g i).

Lemma inbound_wf g i : sockets_wf g -> valid_sock i -> ring_wf UNIX_RING_SIZE (inbound (sock g i)).
Proof. intros [_ H] Hi. by destruct (H i Hi). Qed.

Lemma set_inbound_wf g i r :
  sockets_wf g -> valid_sock i -> ring_wf UNIX_RING_SIZE r -> sockets_wf (upd i (set_inbound r) g).
Proof. intros Hg Hi Hr. apply upd_wf; auto. intros []. by constructor. Qed.

Lemma set_inbound_links g i r : sockets_wf g -> valid_sock i -> same_links g (upd i (set_inbound r) g).
Proof. intros [Hl _] Hi j Hj. rewrite sock_upd by done. by destruct (Z.eqb_spec j i) as [->|]. Qed.

Lemma send_step g i p src :
  sockets_wf g -> valid_sock i -> state (sock g i) = UNIX_STATE_CONNECTED -> peer (sock g i) = Some p ->
  let n := Z.min (Z.of_nat (length src)) (UNIX_RING_SIZE - Z.of_nat (length (waiting g p))) in
  let '(g', rc) := unix_socket_send_stream g (ptr_of i) src in
  sockets_wf g' /\ same_links g g' /\ rc = (if n =? 0 then -1 else n) /\
  waiting g' p = waiting g p ++ take (Z.to_nat n) src /\
  forall j, valid_sock j -> j <> p -> sock g' j = sock g j.
Proof.
  intros Hg Hi Hs Hp. cbn zeta. pose proof Hg as [Hlen Hall].
  pose proof (sw_peer _ (Hall i Hi) p Hp) as Hvp. pose proof (inbound_wf g p Hg Hvp) as Hwf.
  pose proof (contents_length _ _ Hwf) as Hl. pose proof Hwf as (_ & _ & Hu & _).
  unfold unix_socket_send_stream, ptr_of. rewrite Z.add_simpl_r.
  destruct (Z.eqb_spec (i + 1) 0) as [|_]; [unfold valid_sock in Hi; lia|]. rewrite Hp, Hs.
  rewrite bool_decide_eq_true_2 by done. cbn [negb orb]. fold (waiting g p) in Hl.
  destruct (Z.eqb_spec (Z.of_nat (length src)) 0) as [E|E].
  { split; [done|]. split; [done|]. rewrite E, Z.min_l by lia. change (Z.to_nat 0) with 0%nat; rewrite take_0, app_nil_r. done. }
  rewrite send_loop_spec by (auto; lia). rewrite <-Hl. set (n := Z.min _ _).
  destruct (push_all_spec UNIX_RING_SIZE ring_size_pos (take (Z.to_nat n) src) (inbound (sock g p)) Hwf) as (P1 & P2 & _).
  { rewrite length_take. lia. }
  split; [by apply set_inbound_wf|]. split; [by apply set_inbound_links|]. split.
  { destruct (Z.ltb_spec 0 n), (Z.eqb_spec n 0); lia. }
  split.
  - unfold waiting. rewrite sock_upd by done. rewrite Z.eqb_refl. cbn [inbound set_inbound].
    exact P2.
  - intros j Hj Hne. rewrite sock_upd by done. by apply Z.eqb_neq in Hne as ->.
Qed.

Lemma recv_step g i count :
  sockets_wf g -> valid_sock i -> 0 < count ->
  let n := Z.min count (Z.of_nat (length (waiting g i))) in
  let '(g', rc, out) := unix_socket_recv_stream g (ptr_of i) count in
  sockets_wf g' /\ same_links g g' /\ out = take (Z.to_nat n) (waiting g i) /\
  waiting g' i = drop (Z.to_nat n) (waiting g i) /\
  (if n =? 0 then rc = (if bool_decide (state (sock g i) = UNIX_STATE_CONNECTED) && negb (bool_decide (peer (sock g i) = None))
                        then -11 else 0)
   else rc = n) /\
  forall j, valid_sock j -> j <> i -> sock g' j = sock g j.
Proof.
  intros Hg Hi Hc. cbn zeta. pose proof Hg as [Hlen Hall]. pose proof (inbound_wf g i Hg Hi) as Hwf.
  pose proof (contents_length _ _ Hwf) as Hl. unfold unix_socket_recv_stream, ptr_of. rewrite Z.add_simpl_r.
  destruct (Z.eqb_spec (i + 1) 0) as [|_]; [unfold valid_sock in Hi; lia|].
  destruct (Z.eqb_spec count 0); [lia|]. cbn [orb]. unfold waiting. rewrite Hl.
  destruct (Z.eqb_spec (used (inbound (sock g i))) 0) as [E|E].
  - rewrite E. rewrite Z.min_r by lia. change (Z.to_nat 0) with 0%nat. rewrite take_0, drop_0.
    destruct (bool_decide (state _ = _)), (bool_decide (peer _ = None)); cbn [negb orb andb]; split_and!; done.
  - pose proof (recv_loop_spec (Z.to_nat count) _ Hwf) as HR. cbn zeta in HR. destruct (recv_loop _ _) as [r out].
    destruct HR as (R1 & R2 & R3). pose proof Hwf as (_ & _ & Hu & _).
    replace (Z.to_nat count `min` length (contents UNIX_RING_SIZE (inbound (sock g i))))%nat
      with (Z.to_nat (Z.min count (used (inbound (sock g i))))) in * by lia.
    split; [by apply set_inbound_wf|]. split; [by apply set_inbound_links|]. split; [done|]. split.
    + rewrite sock_upd by done. by rewrite Z.eqb_refl.
    + split.
      * destruct (Z.eqb_spec (Z.min count (used (inbound (sock g i)))) 0); [lia|]. rewrite R2, length_take. lia.
      * intros j Hj Hne. rewrite sock_upd by done. by apply Z.eqb_neq in Hne as ->.
Qed.

(** Two sockets joined to each other. *)
Record joined (g : sockets) (i p : Z) : Prop := Joined {
  j_wf : sockets_wf g;
  j_i : valid_sock i; j_p : valid_sock p; j_ne : i <> p;
  j_si : state (sock g i) = UNIX_STATE_CONNECTED; j_sp : state (sock g p) = UNIX_STATE_CONNECTED;
  j_pi : peer (sock g i) = Some p; j_pp : peer (sock g p) = Some i
}.

Lemma joined_sym g i p : joined g i p -> joined g p i.
Proof. intros []. by constructor. Qed.

Lemma joined_same g g' i p : joined g i p -> sockets_wf g' -> same_links g g' -> joined g' i p.
Proof.
  intros [Hw Hi Hp Hn S1 S2 P1 P2] Hw' Hl. destruct (Hl i Hi) as [L1 L2]. destruct (Hl p Hp) as [L3 L4].
  constructor; try done; congruence.
Qed.

(** A conversation: the first ([true]) or the second socket sends bytes or asks
    for some. *)
Definition talk : Type := bool * (list Z + Z).

(** What one end has sent and received. *)
Definition log : Type := list Z * list Z.

Fixpoint converse (i p : Z) (ops : list talk) (g : sockets) : sockets * log * log :=
  match ops with
  | [] => (g, ([], []), ([], []))
  | (first, op) :: ops =>
      let me := if first then i else p in
      let '(g, (sent, received)) :=
        match op with
        | inl d => let '(g, rc) := unix_socket_send_stream g (ptr_of me) d in (g, (take (Z.to_nat rc) d, []))
        | inr n => let '(g, _, out) := unix_socket_recv_stream g (ptr_of me) n in (g, ([], out))
        end in
      let '(g, (si, ri), (sp, rp)) := converse i p ops g in
      if first then (g, (sent ++ si, received ++ ri), (sp, rp)) else (g, (si, ri), (sent ++ sp, received ++ rp))
  end.

(** One action of [i]: what it sends is queued at [p], what it receives leaves its own queue. *)
Lemma talk_step g i p op g' sent received :
  joined g i p -> (match op with inr n => 0 < n | _ => True end) ->
  match op with
  | inl d => let '(g, rc) := unix_socket_send_stream g (ptr_of i) d in (g, (take (Z.to_nat rc) d, []))
  | inr n => let '(g, _, out) := unix_socket_recv_stream g (ptr_of i) n in (g, ([], out))
  end = (g', (sent, received)) ->
  joined g' i p /\ waiting g' p = waiting g p ++ sent /\ waiting g i = received ++ waiting g' i.
Proof.
  intros J Hn. pose proof J as [Hw Hi Hp Hne S1 S2 P1 P2]. destruct op as [d|n].
  - pose proof (send_step g i p d Hw Hi S1 P1) as HS. cbn zeta in HS.
    destruct (unix_socket_send_stream g (ptr_of i) d) as [g1 rc]. destruct HS as (W1 & L & Hrc & HW & HO).
    intros [= <- <- <-]. split; [by apply (joined_same g)|]. split.
    + rewrite HW. f_equal. set (n := Z.min _ _) in *. destruct (Z.eqb_spec n 0) as [E|E]; subst rc; [|done].
      by rewrite E.
    + unfold waiting at 2. by rewrite HO.
  - pose proof (recv_step g i n Hw Hi Hn) as HR. cbn zeta in HR.
    destruct (unix_socket_recv_stream g (ptr_of i) n) as [[g1 rc] out]. destruct HR as (W1 & L & Ho & HW & _ & HO).
    intros [= <- <- <-]. split; [by apply (joined_same g)|]. split.
    + rewrite app_nil_r. unfold waiting. rewrite HO; auto.
    + by rewrite Ho, HW, take_drop.
Qed.

Lemma converse_spec i p ops : forall g,
  joined g i p -> Forall (fun o => match snd o with inr n => 0 < n | _ => True end) ops ->
  let '(g', (si, ri), (sp, rp)) := converse i p ops g in
  joined g' i p /\ waiting g p ++ si = rp ++ waiting g' p /\ waiting g i ++ sp = ri ++ waiting g' i.
Proof.
  induction ops as [|[first op] ops IH]; intros g J Ho.
  { cbn [converse]. rewrite !app_nil_r. done. }
  inversion_clear Ho as [|? ? Hn Ho']. cbn [converse snd] in *.
  destruct (match op with inl d => _ | inr n => _ end) as [g1 [sent received]] eqn:E.
  destruct first.
  - destruct (talk_step g i p op g1 sent received J Hn E) as (J1 & W1 & W2).
    specialize (IH g1 J1 Ho'). destruct (converse i p ops g1) as [[g2 [si ri]] [sp rp]].
    destruct IH as (J2 & I1 & I2). split; [done|]. split; [by rewrite app_assoc, <-W1|].
    by rewrite W2, <-!app_assoc, I2.
  - destruct (talk_step g p i op g1 sent received (joined_sym _ _ _ J) Hn E) as (J1 & W1 & W2).
    apply joined_sym in J1. specialize (IH g1 J1 Ho'). destruct (converse i p ops g1) as [[g2 [si ri]] [sp rp]].
    destruct IH as (J2 & I1 & I2). split; [done|]. split; [by rewrite W2, <-!app_assoc, I1|].
    by rewrite app_assoc, <-W1.
Qed.

(** ** Making and releasing pairs *)

Lemma alloc_spec g pid g' i :
  sockets_wf g -> alloc_unix_socket g pid = Some (g', i) ->
  valid_sock i /\ in_use (sock g i) = false /\ refcount (sock g i) = 0 /\ sockets_wf g' /\
  (forall j, valid_sock j -> j <> i -> sock g' j = sock g j) /\
  in_use (sock g' i) = true /\ refcount (sock g' i) = 1 /\ state (sock g' i) = UNIX_STATE_OPEN /\
  peer (sock g' i) = None /\ waiting g' i = [].
Proof.
  intros Hw. unfold alloc_unix_socket. destruct (find_z _ _ _) as [k|] eqn:Hf; [|done]. intros [= <- <-].
  apply find_z_Some in Hf as (Hk & Hp & _). apply andb_true_iff in Hp as [H1 H2].
  apply negb_true_iff in H1. apply Z.eqb_eq in H2.
  assert (Hv : valid_sock k) by (unfold valid_sock, MAX_UNIX_SOCKETS in *; lia). clear Hk.
  pose proof Hw as [Hl Hall]. split; [done|]. split; [done|]. split; [done|]. split.
  - apply upd_wf; auto. intros [A B C D E]. destruct A as [A _], B as [B _], C as [C _].
    constructor; cbn [inbound queued_file_ids backlog peer refcount]; try done; by apply reset_spec.
  - split; [intros j Hj Hn; rewrite sock_upd by done; by apply Z.eqb_neq in Hn as ->|].
    unfold waiting. rewrite sock_upd by done. rewrite Z.eqb_refl. cbn. done.
Qed.

Lemma set_peer_wf g i p : sockets_wf g -> valid_sock i -> valid_sock p -> sockets_wf (upd i (set_peer (Some p)) g).
Proof. intros Hg Hi Hp. apply upd_wf; auto. intros [A B C D E]. constructor; try done. by intros q [= <-]. Qed.

Lemma set_state_wf g i st : sockets_wf g -> valid_sock i -> sockets_wf (upd i (set_state st) g).
Proof. intros Hg Hi. apply upd_wf; auto. intros []. by constructor. Qed.

Lemma join_joined g i p :
  sockets_wf g -> valid_sock i -> valid_sock p -> i <> p ->
  joined (join i p g) i p /\ (forall j, valid_sock j -> inbound (sock (join i p g) j) = inbound (sock g j)) /\
  (forall j, valid_sock j -> j <> i -> j <> p -> sock (join i p g) j = sock g j).
Proof.
  intros Hg Hi Hp Hne. unfold join.
  pose proof (set_peer_wf g i p Hg Hi Hp) as W1. pose proof (set_peer_wf _ p i W1 Hp Hi) as W2.
  pose proof (set_state_wf _ i UNIX_STATE_CONNECTED W2 Hi) as W3.
  pose proof (set_state_wf _ p UNIX_STATE_CONNECTED W3 Hp) as W4.
  assert (Hj : forall j, valid_sock j ->
    sock (upd p (set_state UNIX_STATE_CONNECTED) (upd i (set_state UNIX_STATE_CONNECTED)
           (upd p (set_peer (Some i)) (upd i (set_peer (Some p)) g)))) j =
    if j =? p then set_state UNIX_STATE_CONNECTED (set_peer (Some i) (sock g p))
    else if j =? i then set_state UNIX_STATE_CONNECTED (set_peer (Some p) (sock g i)) else sock g j).
  { intros j Hj. destruct Hg as [Hl _].
    rewrite !sock_upd by (rewrite ?length_upd; done). rewrite !Z.eqb_refl.
    assert (E1 : (i =? p) = false) by by apply Z.eqb_neq. assert (E2 : (p =? i) = false) by (apply Z.eqb_neq; auto).
    rewrite E1, E2. destruct (j =? p); [done|]. by destruct (j =? i). }
  assert (E1 : (i =? p) = false) by by apply Z.eqb_neq.
  split; [|split].
  - constructor; try done; rewrite Hj by done; rewrite ?E1, ?Z.eqb_refl; done.
  - intros j Hv. rewrite Hj by done. destruct (Z.eqb_spec j p) as [->|]; [done|]. by destruct (Z.eqb_spec j i) as [->|].
  - intros j Hv N1 N2. rewrite Hj by done. apply Z.eqb_neq in N1, N2. by rewrite N1, N2.
Qed.

(** ** Descriptors of sockets *)

Lemma file_for_iff t pid fd id :
  fd_inv t -> 0 <= pid < 16 -> 0 <= fd < 64 -> open (g_fds t pid fd) = true -> file_id (g_fds t pid fd) = id ->
  file_for t pid fd = Some (id, g_files t id).
Proof.
  intros Hi Hp Hf Ho <-. pose proof Hi as [Hb _]. destruct (open_valid_file _ _ _ _ Hb Hp Hf Ho) as [Hv Hl].
  pose proof (refs_of _ _ Hi Hv) as Hr. unfold file_for, entry_for.
  rewrite (proj2 (valid_pid_iff pid)), (proj2 (valid_fd_iff fd)), Ho by done. cbn [andb].
  unfold valid_file in Hv. destruct (Z.ltb_spec (file_id (g_fds t pid fd)) FD_FILE_MAX); [|lia].
  destruct (Z.eqb_spec (references (g_files t (file_id (g_fds t pid fd)))) 0); [lia|done].
Qed.

(** A new descriptor names its object; the open ones keep their files. *)
Lemma create_custom_spec t pid k ptr fl t' fd :
  fd_inv t -> ~ is_pipe k -> fd_create_custom t pid k ptr fl = (t', fd) -> 0 <= fd ->
  fd_inv t' /\ fd_get_custom t' pid fd = Some (k, ptr) /\ file_for t pid fd = None /\
  forall pid' fd' x, file_for t pid' fd' = Some x -> file_for t' pid' fd' = Some x.
Proof.
  intros Hi Hk E Hfd. pose proof (fd_create_custom_inv _ _ _ _ _ _ _ Hi Hk E) as Hi'. revert E.
  unfold fd_create_custom. destruct (Fd.valid_pid pid) eqn:Hp; cbn [negb]; [|intros [= <- <-]; lia].
  destruct (free_file_slot t) as [id|] eqn:Hid; [|intros [= <- <-]; lia].
  destruct (find_z _ _ _) as [c|] eqn:Hc; [|intros [= <- <-]; lia]. intros [= <- <-].
  apply valid_pid_iff in Hp. apply free_file_slot_spec in Hid as [Hid H0].
  apply find_closed_spec in Hc as [Hcb Hco]. assert (Hfd' : 0 <= c < 64) by (unfold FD_MAX_PER_PROCESS in *; lia).
  set (f := FdFile 1 _ 0 k _ ptr []) in *. pose proof Hi as [Hb _].
  pose proof (balanced_set_file _ _ id f Hb Hid) as B1.
  assert (G : forall pid' fd', 0 <= pid' < 16 -> 0 <= fd' < 64 ->
    g_fds (bind_fd pid c id (set_file id f t)) pid' fd' =
    if (pid' =? pid) && (fd' =? c) then FdEntry true id else g_fds t pid' fd').
  { intros pid' fd' Hp' Hf'. unfold bind_fd. by rewrite (g_fds_set_fd _ _ pid c _ pid' fd' B1). }
  assert (F : forall j, valid_file j -> g_files (bind_fd pid c id (set_file id f t)) j = if j =? id then f else g_files t j).
  { intros j Hj. change (g_files (bind_fd pid c id ?s) j) with (g_files s j). by rewrite (g_files_set_file _ _ _ _ _ Hb). }
  split; [done|]. split; [|split].
  - unfold fd_get_custom. rewrite (file_for_iff _ _ _ id Hi' Hp Hfd').
    + by rewrite F, Z.eqb_refl.
    + by rewrite G, !Z.eqb_refl.
    + by rewrite G, !Z.eqb_refl.
  - unfold file_for, entry_for. rewrite Hco. by rewrite !andb_false_r.
  - intros pid' fd' [j f'] Hj. destruct (file_for_spec _ _ _ _ _ Hi Hj) as (Hp' & Hf' & Ho & He & Hv & -> & Hr).
    assert (Hne : (pid' =? pid) && (fd' =? c) = false).
    { destruct (Z.eqb_spec pid' pid) as [->|], (Z.eqb_spec fd' c) as [->|]; try done. congruence. }
    rewrite (file_for_iff _ _ _ j Hi' Hp' Hf'); [|by rewrite G, Hne..].
    rewrite F by done. destruct (Z.eqb_spec j id) as [->|]; [congruence|done].
Qed.

Lemma socket_of_some t pid fd i : valid_sock i -> fd_get_custom t pid fd = Some (FD_KIND_UNIX_SOCKET, ptr_of i) -> socket_of t pid fd = Some i.
Proof.
  intros Hi E. unfold socket_of, ptr_of in *. rewrite E. unfold valid_sock in Hi.
  destruct (Z.eqb_spec (i + 1) 0); [lia|]. by rewrite Z.add_simpl_r.
Qed.

Lemma get_custom_kept t t' pid fd x :
  (forall x, file_for t pid fd = Some x -> file_for t' pid fd = Some x) ->
  fd_get_custom t pid fd = Some x -> fd_get_custom t' pid fd = Some x.
Proof.
  intros Hk. unfold fd_get_custom. destruct (file_for t pid fd) as [[id f]|]; [|done]. by rewrite (Hk _ eq_refl).
Qed.

(** ** Release *)

Lemma release_spec g i p :
  joined g i p -> refcount (sock g i) = 1 ->
  let g' := unix_socket_release g (ptr_of i) in
  sockets_wf g' /\ state (sock g' i) = UNIX_STATE_CLOSED /\ peer (sock g' i) = None /\
  in_use (sock g' i) = false /\ refcount (sock g' i) = 0 /\
  sock g' p = set_peer None (sock g p) /\
  forall j, valid_sock j -> j <> i -> j <> p -> sock g' j = sock g j.
Proof.
  intros J Hr. pose proof J as [Hw Hi Hp Hne S1 S2 P1 P2]. unfold unix_socket_release, ptr_of. cbn zeta.
  rewrite Z.add_simpl_r. destruct (Z.eqb_spec (i + 1) 0); [unfold valid_sock in Hi; lia|]. rewrite Hr.
  change (0 <? 1) with true. change (1 - 1 =? 0) with true. cbn [negb]. change (1 - 1) with 0.
  pose proof Hw as [Hl Hall].
  assert (W1 : sockets_wf (upd i (fun s => set_in_use (in_use s) 0 s) g)).
  { apply upd_wf; auto. intros []. by constructor. }
  pose proof (set_state_wf _ i UNIX_STATE_CLOSED W1 Hi) as W2.
  set (g2 := upd i (set_state UNIX_STATE_CLOSED) _) in *.
  assert (E2 : forall j, valid_sock j -> sock g2 j =
    if j =? i then set_state UNIX_STATE_CLOSED (set_in_use (in_use (sock g i)) 0 (sock g i)) else sock g j).
  { intros j Hj. unfold g2. rewrite !sock_upd by (rewrite ?length_upd; done). rewrite Z.eqb_refl. by destruct (j =? i). }
  rewrite !E2 by done; rewrite !Z.eqb_refl. cbn [peer set_state set_in_use]. rewrite P1.
  assert (Wn : forall g k, sockets_wf g -> valid_sock k -> sockets_wf (upd k (set_peer None) g)).
  { intros h k Hh Hk. apply upd_wf; auto. intros []. by constructor. }
  pose proof (Wn _ p W2 Hp) as W3. pose proof (Wn _ i W3 Hi) as W4.
  assert (E : forall j, valid_sock j ->
    sock (upd i (fun s => set_in_use false (refcount s) s) (upd i (set_peer None) (upd p (set_peer None) g2))) j =
    if j =? i then set_in_use false 0 (set_peer None (set_state UNIX_STATE_CLOSED (sock g i)))
    else if j =? p then set_peer None (sock g p) else sock g j).
  { assert (E1 : (i =? p) = false) by by apply Z.eqb_neq. assert (E3 : (p =? i) = false) by (apply Z.eqb_neq; auto).
    destruct W2 as [L2 _]. intros j Hj. rewrite !sock_upd by (rewrite ?length_upd; done).
    rewrite !E2 by done. rewrite !Z.eqb_refl, E1, E3. destruct (j =? i); [done|]. by destruct (j =? p). }
  split.
  { apply upd_wf; auto. intros []. by constructor. }
  rewrite !E by done. rewrite Z.eqb_refl. cbn. split_and!; try done.
  - rewrite Z.eqb_refl. destruct (Z.eqb_spec p i); [congruence|done].
  - intros j Hj N1 N2. rewrite E by done. apply Z.eqb_neq in N1, N2. by rewrite N1, N2.
Qed.

(** ** Messages *)

(** The effect of passing descriptors and bytes on the rest of the table. *)
Record sent_to (g g' : sockets) (p : Z) (xs : list Z) : Prop := SentTo {
  st_wf : sockets_wf g';
  st_links : same_links g g';
  st_bytes : waiting g' p = waiting g p ++ xs
}.

Lemma sent_to_refl g p : sockets_wf g -> sent_to g g p [].
Proof. intros Hg. constructor; [done|done|by rewrite app_nil_r]. Qed.

Lemma sent_to_trans g1 g2 g3 p xs ys : sent_to g1 g2 p xs -> sent_to g2 g3 p ys -> sent_to g1 g3 p (xs ++ ys).
Proof.
  intros [A1 A2 A3] [B1 B2 B3]. constructor; [done| |by rewrite B3, A3, app_assoc].
  intros i Hi. destruct (A2 i Hi), (B2 i Hi). split; congruence.
Qed.

Lemma queue_fd_sent t pid p g fd : sockets_wf g -> valid_sock p -> sent_to g (queue_fd t pid p g fd) p [].
Proof.
  intros Hg Hp. unfold queue_fd. cbn zeta. destruct (_ && _) eqn:E; [|by apply sent_to_refl].
  apply andb_true_iff in E as [_ E]. apply Z.ltb_lt in E. pose proof Hg as [Hl Hall].
  constructor.
  - apply upd_wf; auto. intros [A B C D F]. constructor; try done. cbn [queued_file_ids set_queued].
    by apply (push_spec MAX_QUEUED_FDS).
  - intros j Hj. rewrite sock_upd by done. by destruct (Z.eqb_spec j p) as [->|].
  - rewrite app_nil_r. unfold waiting. rewrite sock_upd by done. by rewrite Z.eqb_refl.
Qed.

Section Messages.
Context {M : Type} `{UM : UserMem M}.

Lemma send_rights_sent mem t g pid p msg :
  sockets_wf g -> valid_sock p -> sent_to g (send_rights mem t g pid p msg) p [].
Proof.
  intros Hg Hp. unfold send_rights. pose proof (sent_to_refl g p Hg) as Hr.
  destruct (negb _ && _); [|done]. destruct (um_read _ _ _); [|done].
  destruct (_ && _); [|done]. cbn zeta. destruct (_ && _); [|done]. destruct (um_read _ _ _) as [bs|]; [|done].
  clear Hr. generalize (ints (Z.to_nat (i32 ((if CMSGHDR_SIZE <? cmsg_len l then cmsg_len l - CMSGHDR_SIZE else 0) / 4))) bs).
  intros fs. revert g Hg. induction fs as [|fd fs IH]; intros g Hg; [by apply sent_to_refl|]. cbn [foldl].
  pose proof (queue_fd_sent t pid p g fd Hg Hp) as H1. pose proof (st_wf _ _ _ _ H1) as W1.
  apply (sent_to_trans _ _ _ _ _ _ H1 (IH _ W1)).
Qed.

(** What a loop of the copy reports about the bytes [xs] it moved. *)
Definition counted (total : Z) (xs : list Z) (rc : Z) : Prop :=
  if 0 <? total + Z.of_nat (length xs) then rc = total + Z.of_nat (length xs) else rc <= 0.

Lemma send_chunks_spec fuel : forall mem g i p base left offset total,
  sockets_wf g -> valid_sock i -> state (sock g i) = UNIX_STATE_CONNECTED -> peer (sock g i) = Some p ->
  UNIX_RING_SIZE - Z.of_nat (length (waiting g p)) + 1 < Z.of_nat fuel -> 0 <= total ->
  exists g' xs, sent_to g g' p xs /\
    (send_chunks fuel mem g (ptr_of i) base left offset total = Some (Next (g', total + Z.of_nat (length xs))) \/
     exists rc, counted total xs rc /\
       send_chunks fuel mem g (ptr_of i) base left offset total = Some (Return (g', total + Z.of_nat (length xs)) rc)).
Proof.
  induction fuel as [|fuel IH]; intros mem g i p base left offset total Hg Hi Hs Hp Hfuel Ht.
  { exfalso. pose proof Hg as [_ Hall]. pose proof (sw_peer _ (Hall i Hi) p Hp) as Hvp.
    pose proof (inbound_wf g p Hg Hvp) as Hwf. pose proof (contents_length _ _ Hwf) as Hl.
    destruct Hwf as (_ & _ & Hu & _). unfold waiting in Hfuel. lia. }
  assert (Hstop : forall rc, (0 < total -> rc = total) -> (total = 0 -> rc <= 0) -> counted total [] rc).
  { intros rc H1 H2. unfold counted. cbn [length]. destruct (Z.ltb_spec 0 (total + Z.of_nat 0)); lia. }
  cbn [send_chunks]. destruct (Z.leb_spec left 0).
  { exists g, []. split; [by apply sent_to_refl|]. left. do 3 f_equal. cbn. lia. }
  destruct (um_read _ _ _) as [kbuf|].
  2:{ exists g, []. split; [by apply sent_to_refl|]. right. eexists. split; [|do 3 f_equal; cbn; lia].
      apply Hstop; intros; destruct (Z.ltb_spec 0 total); lia. }
  pose proof (send_step g i p kbuf Hg Hi Hs Hp) as HS. cbn zeta in HS.
  destruct (unix_socket_send_stream g (ptr_of i) kbuf) as [g1 sent]. destruct HS as (W1 & L1 & Hsent & HW & _).
  pose proof Hg as [_ Hall]. pose proof (sw_peer _ (Hall i Hi) p Hp) as Hvp.
  assert (Hlen : Z.of_nat (length (waiting g p)) <= UNIX_RING_SIZE).
  { pose proof (inbound_wf g p Hg Hvp) as Hwf. pose proof (contents_length _ _ Hwf) as Hl.
    destruct Hwf as (_ & _ & Hu & _). unfold waiting. lia. }
  set (n := Z.min _ _) in *. assert (S1 : sent_to g g1 p (take (Z.to_nat n) kbuf)) by by constructor.
  assert (Hln : Z.of_nat (length (take (Z.to_nat n) kbuf)) = n) by (rewrite length_take; unfold n; lia).
  destruct (Z.eqb_spec n 0) as [E|E]; subst sent.
  - change (-1 <=? 0) with true. exists g1, (take (Z.to_nat n) kbuf). split; [done|]. right.
    eexists. split; [|rewrite Hln, E, Z.add_0_r; reflexivity]. unfold counted. rewrite Hln, E, Z.add_0_r.
    destruct (Z.ltb_spec 0 total); [done|lia].
  - destruct (Z.leb_spec n 0); [unfold n in *; lia|]. destruct (L1 i Hi) as [LA LB].
    destruct (IH mem g1 i p base (left - n) (offset + n) (total + n)) as (g2 & ys & S2 & HR); auto; try congruence.
    + rewrite HW, length_app. unfold n in *. lia.
    + lia.
    + exists g2, (take (Z.to_nat n) kbuf ++ ys). split; [by eapply sent_to_trans|].
      rewrite length_app, Nat2Z.inj_add, Hln, Z.add_assoc.
      destruct HR as [->|(rc & Hc & ->)]; [by left|]. right. exists rc. split; [|done].
      unfold counted in *. by rewrite length_app, Nat2Z.inj_add, Hln, Z.add_assoc.
Qed.

Lemma send_iovs_spec n : forall k mem g i p msg total,
  sockets_wf g -> valid_sock i -> state (sock g i) = UNIX_STATE_CONNECTED -> peer (sock g i) = Some p -> 0 <= total ->
  exists g' xs rc, sent_to g g' p xs /\ send_iovs n k mem g (ptr_of i) msg total = Some (g', rc) /\
    counted total xs rc.
Proof.
  induction n as [|n IH]; intros k mem g i p msg total Hg Hi Hs Hp Ht; cbn [send_iovs].
  all: assert (Hdone : exists g' xs rc, sent_to g g' p xs /\ Some (g, total) = Some (g', rc) /\ counted total xs rc).
  all: try (exists g, [], total; split; [by apply sent_to_refl|]; split; [done|];
    unfold counted; cbn [length]; destruct (Z.ltb_spec 0 (total + Z.of_nat 0)); lia).
  destruct (msg_iovlen msg <=? k); [exact Hdone|]. destruct (um_read _ _ _) as [iov|]; [|exact Hdone]. cbn zeta.
  destruct ((field 0 8 iov =? 0) || (field 8 8 iov =? 0)); [by apply IH|].
  assert (Hfuel : UNIX_RING_SIZE - Z.of_nat (length (waiting g p)) + 1 < Z.of_nat CHUNK_FUEL).
  { unfold CHUNK_FUEL. rewrite Z2Nat.id by (unfold UNIX_RING_SIZE; lia). lia. }
  destruct (send_chunks_spec CHUNK_FUEL mem g i p (field 0 8 iov) (field 8 8 iov) 0 total Hg Hi Hs Hp Hfuel Ht)
    as (g1 & xs & S1 & [->|(rc & Hc & ->)]); [|by exists g1, xs, rc].
  destruct (st_links _ _ _ _ S1 i Hi) as [LA LB].
  destruct (IH (k + 1) mem g1 i p msg (total + Z.of_nat (length xs))) as (g2 & ys & rc & S2 & -> & Hc);
    [apply S1|done|congruence|congruence|lia|].
  exists g2, (xs ++ ys), rc. split; [by eapply sent_to_trans|]. split; [done|].
  unfold counted in *. by rewrite length_app, Nat2Z.inj_add, Z.add_assoc.
Qed.

(** Receiving takes bytes from the front of the queue. *)
Lemma recv_chunks_spec fuel : forall mem g i base left offset total,
  sockets_wf g -> valid_sock i -> Z.of_nat (length (waiting g i)) + 1 < Z.of_nat fuel -> 0 <= total ->
  exists mem' g' xs, sockets_wf g' /\ waiting g i = xs ++ waiting g' i /\
    (recv_chunks fuel mem g (ptr_of i) base left offset total = Some (Next (mem', g', total + Z.of_nat (length xs))) \/
     exists n rc, (n <= length xs)%nat /\ counted total (take n xs) rc /\
       recv_chunks fuel mem g (ptr_of i) base left offset total =
         Some (Return (mem', g', total + Z.of_nat n) rc)).
Proof.
  induction fuel as [|fuel IH]; intros mem g i base left offset total Hg Hi Hfuel Ht; [lia|].
  cbn [recv_chunks]. destruct (Z.leb_spec left 0).
  { exists mem, g, []. split; [done|]. split; [done|]. left. cbn [length]. by rewrite Z.add_0_r. }
  set (chunk := if 512 <? left then 512 else left). assert (Hch : 0 < chunk) by (unfold chunk; destruct (Z.ltb_spec 512 left); lia).
  pose proof (recv_step g i chunk Hg Hi Hch) as HR. cbn zeta in HR.
  destruct (unix_socket_recv_stream g (ptr_of i) chunk) as [[g1 r] kbuf]. destruct HR as (W1 & L1 & Hk & HW & Hr & _).
  set (n := Z.min _ _) in *. assert (Hn : 0 <= n) by (unfold n; lia).
  assert (Hlk : Z.of_nat (length kbuf) = n) by (rewrite Hk, length_take; unfold n; lia).
  assert (Hfront : waiting g i = kbuf ++ waiting g1 i) by by rewrite Hk, HW, take_drop.
  destruct (Z.eqb_spec n 0) as [E|E].
  - assert (Hr0 : r <= 0) by (rewrite Hr; destruct (_ && _); lia). destruct (Z.leb_spec r 0); [|lia].
    exists mem, g1, kbuf. split; [done|]. split; [done|]. right. exists 0%nat, (if 0 <? total then total else r).
    rewrite take_0, Z.add_0_r. split; [lia|]. split; [|done]. unfold counted. cbn [length].
    rewrite Z.add_0_r. by destruct (0 <? total).
  - subst r. destruct (Z.leb_spec n 0); [lia|]. destruct (um_write mem _ kbuf) as [mem1 ok]. destruct ok; cbn [negb].
    + destruct (Z.ltb_spec n chunk).
      * exists mem1, g1, kbuf. split; [done|]. split; [done|]. left. by rewrite Hlk.
      * destruct (IH mem1 g1 i base (left - n) (offset + n) (total + n)) as (m2 & g2 & xs & W2 & F2 & HR); auto; try lia.
        { pose proof (f_equal length Hfront) as Hf. rewrite length_app in Hf. lia. }
        exists m2, g2, (kbuf ++ xs). split; [done|]. split; [by rewrite Hfront, F2, app_assoc|].
        rewrite length_app, Nat2Z.inj_add, Hlk, Z.add_assoc.
        destruct HR as [->|(m & rc & Hm & Hc & ->)]; [by left|]. right.
        exists (length kbuf + m)%nat, rc. split; [lia|]. split.
        -- rewrite take_app_add'  by done. unfold counted in *.
           by rewrite length_app, Nat2Z.inj_add, Hlk, Z.add_assoc.
        -- by rewrite Nat2Z.inj_add, Hlk, Z.add_assoc.
    + exists mem1, g1, kbuf. split; [done|]. split; [done|]. right. exists 0%nat, (if 0 <? total then total else -14).
      rewrite take_0, Z.add_0_r. split; [lia|]. split; [|done]. unfold counted. cbn [length]. rewrite Z.add_0_r.
      destruct (0 <? total); [done|lia].
Qed.

Lemma recv_iovs_total n : forall k mem g i msg total,
  sockets_wf g -> valid_sock i -> 0 <= total ->
  exists mem' g' rc, recv_iovs n k mem g (ptr_of i) msg total = Some (mem', g', rc) /\ sockets_wf g' /\
    exists xs, waiting g i = xs ++ waiting g' i /\ rc <= total + Z.of_nat (length xs).
Proof.
  induction n as [|n IH]; intros k mem g i msg total Hg Hi Ht; cbn [recv_iovs];
  (assert (Hdone : exists mem' g' rc, Some (mem, g, total) = Some (mem', g', rc) /\ sockets_wf g' /\
    exists xs, waiting g i = xs ++ waiting g' i /\ rc <= total + Z.of_nat (length xs))
    by (exists mem, g, total; split; [done|]; split; [done|]; exists []; split; [done|cbn; lia])); [exact Hdone|].
  destruct (msg_iovlen msg <=? k); [exact Hdone|]. destruct (um_read _ _ _) as [iov|]; [|exact Hdone]. cbn zeta.
  destruct ((field 0 8 iov =? 0) || (field 8 8 iov =? 0)); [by apply IH|].
  assert (Hfuel : Z.of_nat (length (waiting g i)) + 1 < Z.of_nat CHUNK_FUEL).
  { pose proof (inbound_wf g i Hg Hi) as Hwf. pose proof (contents_length _ _ Hwf) as Hl.
    destruct Hwf as (_ & _ & Hu & _). unfold CHUNK_FUEL, waiting. rewrite Z2Nat.id by (unfold UNIX_RING_SIZE; lia). lia. }
  destruct (recv_chunks_spec CHUNK_FUEL mem g i (field 0 8 iov) (field 8 8 iov) 0 total Hg Hi Hfuel Ht)
    as (m1 & g1 & xs & W1 & F1 & [->|(m & rc & Hm & Hc & ->)]).
  - destruct (IH (k + 1) m1 g1 i msg (total + Z.of_nat (length xs)) W1 Hi ltac:(lia)) as (m2 & g2 & rc & -> & W2 & ys & F2 & Hrc).
    exists m2, g2, rc. split; [done|]. split; [done|]. exists (xs ++ ys). split; [by rewrite F1, F2, app_assoc|].
    rewrite length_app. lia.
  - exists m1, g1, rc. split; [done|]. split; [done|]. exists xs. split; [done|].
    unfold counted in Hc. rewrite length_take in Hc. case_match; lia.
Qed.

(** Taking queued file ids leaves the streams alone. *)
Lemma deliver_wf fuel : forall t pid q acc,
  ring_wf MAX_QUEUED_FDS q -> ring_wf MAX_QUEUED_FDS (snd (fst (deliver fuel t pid q acc))).
Proof.
  induction fuel as [|fuel IH]; intros t pid q acc Hq; [done|]. cbn [deliver].
  destruct (Z.ltb_spec 0 (used q)); cbn [andb]; [|done]. destruct (_ <? 8); [|done].
  destruct (fd_bind_file_id _ _ _) as [t' fd]. apply IH. by apply (pop_spec MAX_QUEUED_FDS).
Qed.

Lemma recv_rights_wf mem t g pid i u msg :
  sockets_wf g -> valid_sock i ->
  let '(_, _, g', _) := recv_rights mem t g pid i u msg in sockets_wf g' /\ waiting g' i = waiting g i.
Proof.
  intros Hg Hi. unfold recv_rights. pose proof Hg as [Hl Hall].
  assert (Hq : forall q, ring_wf MAX_QUEUED_FDS q -> sockets_wf (upd i (set_queued q) g) /\
    waiting (upd i (set_queued q) g) i = waiting g i).
  { intros q Hq. split; [apply upd_wf; auto; intros []; by constructor|]. unfold waiting. rewrite sock_upd by done.
    by rewrite Z.eqb_refl. }
  pose proof (deliver_wf (Z.to_nat MAX_QUEUED_FDS) t pid (queued_file_ids (sock g i)) [] (sw_queued _ (Hall i Hi))) as HD.
  destruct (deliver _ _ _ _ _) as [[t' q] ds]. cbn [fst snd] in HD. destruct (Hq q HD) as [Q1 Q2].
  destruct (_ && _ && _).
  - destruct (0 <? _).
    + destruct (um_write mem _ _) as [m1 ?]. destruct (um_write m1 _ _) as [m2 ?].
      destruct (negb _); [|done]. by destruct (um_write m2 _ _) as [m3 ?].
    + destruct (negb _); [|done]. by destruct (um_write mem _ _) as [m3 ?].
  - destruct (negb _); [|done]. by destruct (um_write mem _ _) as [m3 ?].
Qed.
End Messages.

(** ** Properties *)

(** A memory of bytes where every access succeeds. *)
Definition byte_mem : Type := Z -> Z.

Definition poke (m : byte_mem) (a : Z) (bs : list Z) : byte_mem :=
  fun x => if (a <=? x) && (x <? a + Z.of_nat (length bs)) then nth (Z.to_nat (x - a)) bs 0 else m x.

#[export] Instance byte_user_mem : UserMem byte_mem := {|
  um_read m a n := Some (map m (seqZ a n));
  um_write m a bs := (poke m a bs, true)
|}.

Definition sockets_bss : sockets := replicate (Z.to_nat MAX_UNIX_SOCKETS) no_socket.

Lemma sockets_bss_wf : sockets_wf sockets_bss.
Proof.
  split; [apply length_replicate|]. intros i _. unfold sock, sockets_bss. rewrite at_z_replicate.
  assert (HR : forall n, 0 < n -> ring_wf n (Ring (replicate (Z.to_nat n) 0) 0 0 0)).
  { intros n Hn. apply (reset_spec n Hn (Ring (replicate (Z.to_nat n) 0) 0 0 0)).
    cbn [rdata]. rewrite length_replicate. apply Z2Nat.id. lia. }
  unfold no_socket. constructor; cbn [inbound queued_file_ids backlog peer refcount].
  - by apply HR.
  - by apply HR.
  - by apply HR.
  - done.
  - lia.
Qed.

Lemma socketpair_inv t g pid t' g' a b :
  fd_inv t -> sockets_wf g -> unix_socket_pair t g pid = (t', g', 0, (a, b)) ->
  exists i p, socket_of t' pid a = Some i /\ socket_of t' pid b = Some p /\ joined g' i p /\
    refcount (sock g' i) = 1 /\ refcount (sock g' p) = 1 /\ waiting g' i = [] /\ waiting g' p = [].
Proof.
  intros Ht Hg. unfold unix_socket_pair.
  destruct (alloc_unix_socket g pid) as [[g1 i]|] eqn:A1; [|by repeat case_match].
  destruct (alloc_unix_socket g1 pid) as [[g2 p]|] eqn:A2; [|done].
  destruct (alloc_spec _ _ _ _ Hg A1) as (Vi & _ & _ & W1 & K1 & U1 & R1 & _ & _ & Q1).
  destruct (alloc_spec _ _ _ _ W1 A2) as (Vp & Up & _ & W2 & K2 & U2 & R2 & _ & _ & Q2).
  assert (Hne : i <> p) by (intros ->; congruence).
  destruct (join_joined g2 i p W2 Vi Vp Hne) as (J & JI & _).
  assert (JR : forall j, valid_sock j -> refcount (sock (join i p g2) j) = refcount (sock g2 j)).
  { intros j Hj. unfold join. destruct W2 as [Hl _]. rewrite !sock_upd by (rewrite ?length_upd; done).
    repeat case_match; repeat match goal with H : (_ =? _) = true |- _ => apply Z.eqb_eq in H; subst end; done. }
  unfold create_socket_fd. destruct (fd_create_custom t pid _ _ _) as [t1 f0] eqn:C1.
  destruct (fd_create_custom t1 pid _ _ _) as [t2 f1] eqn:C2.
  destruct (Z.ltb_spec f0 0); cbn [orb]; [done|]. destruct (Z.ltb_spec f1 0); [done|]. intros [= <- <- <- <-].
  assert (Hk : ~ is_pipe FD_KIND_UNIX_SOCKET) by (intros [[=]|[=]]).
  destruct (create_custom_spec _ _ _ _ _ _ _ Ht Hk C1 ltac:(done)) as (Ht1 & G1 & _ & _).
  destruct (create_custom_spec _ _ _ _ _ _ _ Ht1 Hk C2 ltac:(done)) as (_ & G2 & _ & Kp).
  exists i, p. split; [apply socket_of_some; [done|by apply (get_custom_kept t1); [apply Kp|]]|].
  split; [by apply socket_of_some|]. split; [done|].
  rewrite !JR by done. rewrite R2, K2 by done. split; [done|]. split; [done|].
  unfold waiting in *. rewrite !JI by done. by rewrite K2.
Qed.

(** C25. A socket pair is a two-way byte stream: its two descriptors name two
    sockets joined to each other, and in any conversation over them the bytes one
    end reports as sent are the bytes the other end received followed by those still
    waiting for it, never more than the ring holds. *)
Theorem unix_socketpair_streams t g pid t' g' a b :
  fd_inv t -> sockets_wf g -> unix_socket_pair t g pid = (t', g', 0, (a, b)) ->
  exists i p, socket_of t' pid a = Some i /\ socket_of t' pid b = Some p /\ i <> p /\
    forall ops, Forall (fun o => match snd o with inr n => 0 < n | _ => True end) ops ->
      let '(g2, (sent_i, received_i), (sent_p, received_p)) := converse i p ops g' in
      sent_i = received_p ++ waiting g2 p /\ sent_p = received_i ++ waiting g2 i /\
      Z.of_nat (length (waiting g2 p)) <= UNIX_RING_SIZE /\ Z.of_nat (length (waiting g2 i)) <= UNIX_RING_SIZE.
Proof.
  intros Ht Hg E. destruct (socketpair_inv _ _ _ _ _ _ _ Ht Hg E) as (i & p & Ha & Hb & J & _ & _ & Q1 & Q2).
  exists i, p. split; [done|]. split; [done|]. split; [by apply J|]. intros ops Ho.
  pose proof (converse_spec i p ops g' J Ho) as HC.
  destruct (converse i p ops g') as [[g2 [si ri]] [sp rp]]. destruct HC as (J2 & H1 & H2). rewrite Q1, Q2 in *.
  split; [done|]. split; [done|]. destruct J2 as [W2 Vi Vp _ _ _ _ _].
  split; unfold waiting.
  - pose proof (inbound_wf g2 p W2 Vp) as Hwf. rewrite (contents_length _ _ Hwf). by destruct Hwf as (_ & _ & [_ ?] & _).
  - pose proof (inbound_wf g2 i W2 Vi) as Hwf. rewrite (contents_length _ _ Hwf). by destruct Hwf as (_ & _ & [_ ?] & _).
Qed.

(** When one end of a joined pair is released for the last time, the other end
    sees it: it can no longer send, polling it reports a hang-up, the bytes already
    queued for it can still be received, and after them it receives end of file. *)
Theorem unix_release_hangs_up g i p n d :
  joined g i p -> refcount (sock g i) = 1 -> 0 < n ->
  let g' := unix_socket_release g (ptr_of i) in
  in_use (sock g' i) = false /\ refcount (sock g' i) = 0 /\
  snd (unix_socket_send_stream g' (ptr_of p) d) = -1 /\
  has (unix_socket_poll_events g' (ptr_of p) 7) FD_POLL_HANGUP = true /\
  snd (unix_socket_recv_stream g' (ptr_of p) n) = take (Z.to_nat n) (waiting g p) /\
  snd (fst (unix_socket_recv_stream g' (ptr_of p) n)) = Z.min n (Z.of_nat (length (waiting g p))).
Proof.
  intros J Hr Hn. destruct (release_spec g i p J Hr) as (W & _ & _ & U & R & Ep & _). cbn zeta.
  set (g' := unix_socket_release g (ptr_of i)) in *. destruct J as [_ Vi Vp _ _ Sp _ _].
  assert (Hp0 : (ptr_of p =? 0) = false) by (unfold ptr_of, valid_sock in *; apply Z.eqb_neq; lia).
  assert (Hpp : ptr_of p - 1 = p) by (unfold ptr_of; lia).
  assert (Ew : waiting g' p = waiting g p) by (unfold waiting; by rewrite Ep).
  pose proof (recv_step g' p n W Vp Hn) as HR. cbn zeta in HR. rewrite Ew in HR.
  destruct (unix_socket_recv_stream g' (ptr_of p) n) as [[g2 rc] out]. destruct HR as (_ & _ & Ho & _ & Hrc & _).
  split; [done|]. split; [done|]. split.
  { unfold unix_socket_send_stream. rewrite Hp0, Hpp, Ep. done. }
  split.
  { unfold unix_socket_poll_events. rewrite Hp0, Hpp, Ep. cbn [state set_peer peer inbound]. rewrite Sp.
    by destruct (0 <? _). }
  cbn [fst snd]. split.
  - rewrite Ho. destruct (Z.le_gt_cases n (Z.of_nat (length (waiting g p)))); [by rewrite Z.min_l by lia|].
    rewrite !take_ge by lia. done.
  - destruct (Z.eqb_spec (Z.min n (Z.of_nat (length (waiting g p)))) 0) as [E|E]; [|done].
    rewrite E, Hrc, Ep. cbn [state peer set_peer]. by rewrite andb_false_r.
Qed.

(** Messages always return, whatever lengths the user structures claim: a send
    appends to the peer's queue exactly the bytes it reports, and a receive reports
    at most the bytes it took from the front of its queue. *)
Theorem unix_messages_total {M} `{UserMem M} (mem : M) t g pid fd u i :
  sockets_wf g -> socket_of t pid fd = Some i -> valid_sock i ->
  (exists g' rc, unix_socket_sendmsg mem t g pid fd u = Some (g', rc) /\ sockets_wf g' /\
     forall p, peer (sock g i) = Some p -> exists xs, waiting g' p = waiting g p ++ xs /\
       (if 0 <? Z.of_nat (length xs) then rc = Z.of_nat (length xs) else rc <= 0)) /\
  (exists mem' t' g' rc, unix_socket_recvmsg mem t g pid fd u = Some (mem', t', g', rc) /\ sockets_wf g' /\
     exists xs, waiting g i = xs ++ waiting g' i /\ rc <= Z.of_nat (length xs)).
Proof.
  intros Hg Hs Hi. split.
  - unfold unix_socket_sendmsg. rewrite Hs.
    assert (Hfail : forall rc, rc <= 0 -> exists g' rc', Some (g, rc) = Some (g', rc') /\ sockets_wf g' /\
      forall p, peer (sock g i) = Some p -> exists xs, waiting g' p = waiting g p ++ xs /\
       (if 0 <? Z.of_nat (length xs) then rc' = Z.of_nat (length xs) else rc' <= 0)).
    { intros rc Hrc. exists g, rc. split; [done|]. split; [done|]. intros p _. exists []. by rewrite app_nil_r. }
    destruct (u =? 0); [apply Hfail; lia|]. destruct (peer (sock g i)) as [p|] eqn:Ep; [|apply Hfail; lia].
    destruct (decide (state (sock g i) = UNIX_STATE_CONNECTED)) as [S|S];
      [rewrite bool_decide_eq_true_2 by done|rewrite bool_decide_eq_false_2 by done]; cbn [negb]; [|apply Hfail; lia].
    destruct (um_read _ _ _) as [msg|]; [|apply Hfail; lia]. pose proof Hg as [_ Hall].
    pose proof (sw_peer _ (Hall i Hi) p Ep) as Vp.
    pose proof (send_rights_sent mem t g pid p msg Hg Vp) as S1. destruct (st_links _ _ _ _ S1 i Hi) as [LA LB].
    destruct (send_iovs_spec 16 0 mem (send_rights mem t g pid p msg) i p msg 0) as (g' & xs & rc & S2 & -> & Hc);
      [apply S1|done|congruence|congruence|lia|].
    exists g', rc. split; [done|]. split; [apply S2|]. intros p' [= <-]. exists xs.
    pose proof (sent_to_trans _ _ _ _ _ _ S1 S2) as S3. split; [apply S3|]. exact Hc.
  - unfold unix_socket_recvmsg. rewrite Hs.
    assert (Hfail : forall rc, rc <= 0 -> exists mem' t' g' rc', Some (mem, t, g, rc) = Some (mem', t', g', rc') /\
      sockets_wf g' /\ exists xs, waiting g i = xs ++ waiting g' i /\ rc' <= Z.of_nat (length xs)).
    { intros rc Hrc. exists mem, t, g, rc. split; [done|]. split; [done|]. exists []. split; [done|cbn; lia]. }
    destruct (u =? 0); [apply Hfail; lia|]. destruct (um_read _ _ _) as [msg|]; [|apply Hfail; lia].
    pose proof (recv_rights_wf mem t g pid i u msg Hg Hi) as HR.
    destruct (recv_rights mem t g pid i u msg) as [[[m1 t1] g1] msg1]. destruct HR as [W1 E1].
    destruct (recv_iovs_total 16 0 m1 g1 i msg1 0 W1 Hi ltac:(lia)) as (m2 & g2 & rc & -> & W2 & xs & Hx & Hrc).
    exists m2, t1, g2, rc. split; [done|]. split; [done|]. exists xs. split; [by rewrite <-E1|]. lia.
Qed.

(** ** Two failures *)

(** The tables at boot, and process 1 with a socket pair as descriptors 0 and 1. *)
Definition boot_fds : fds := fd_init fds_bss.
Definition demo_pair : fds * sockets * Z * (Z * Z) := unix_socket_pair boot_fds sockets_bss 1.
Definition pair_fds : fds := fst (fst (fst demo_pair)).
Definition pair_socks : sockets := snd (fst (fst demo_pair)).

(** User memory: a message header at 1000 with one vector at 2000 (the byte at 4000)
    and, at 3000, the control message passing descriptor [fd]. *)
Definition demo_message (fd : Z) : byte_mem :=
  poke (poke (poke (poke (fun _ => 0) 1000
    (le_put 8 0 ++ le_put 8 0 ++ le_put 8 2000 ++ le_put 8 1 ++ le_put 8 3000 ++ le_put 8 20 ++ le_put 8 0))
    2000 (le_put 8 4000 ++ le_put 8 1))
    3000 (le_put 8 20 ++ le_put 4 SOL_SOCKET ++ le_put 4 SCM_RIGHTS ++ le_put 4 fd))
    4000 [65].

Definition path_a : path_t := [47; 97].
Definition path_secret : path_t := [47; 115].
Definition demo_files : demo_world := demo_put (demo_put demo_empty path_a [1]) path_secret [2].

(** The path a descriptor has open. *)
Definition path_open (t : fds) (pid fd : Z) : option path_t := option_map (fun x => path (snd x)) (file_for t pid fd).

(** Process 1 opens [/a] and passes it to process 2 over the pair both hold; it
    closes its descriptor before process 2 receives, and process 3 opens [/s]. *)
Definition rights_run : option (option path_t * option path_t) :=
  let t := fst (fd_inherit pair_fds 1 2) in
  let '(t, w, fd) := fd_open t demo_files 1 (Some path_a) FD_OPEN_READ in
  match unix_socket_sendmsg (demo_message fd) t pair_socks 1 0 1000 with
  | None => None
  | Some (g, _) =>
      let passed := path_open t 1 fd in
      let '(t, w, _) := fd_close t w 1 fd in
      let '(t, w, _) := fd_open t w 3 (Some path_secret) FD_OPEN_READ in
      match unix_socket_recvmsg (demo_message 0) t g 2 1 1000 with
      | None => None
      | Some (mem, t, g, _) =>
          (* the descriptor the kernel stored in the control message *)
          let received := ifield 16 (default [] (um_read mem 3000 20)) in
          Some (passed, path_open t 2 received)
      end
  end.

(** A descriptor in flight holds no reference: when its sender closes it before
    it is received, the slot of the open file is reused, and the receiver is handed
    the file another process opened instead of the one passed to it. *)
Theorem scm_rights_delivers_wrong_file :
  rights_run = Some (Some path_a, Some path_secret) /\ path_a <> path_secret.
Proof. split; [vm_compute; reflexivity|discriminate]. Qed.

(** A listener of process 1, a client of process 2 connecting to it twice and
    closing; then process 3 makes a pair of its own, and the server writes to the
    first connection it accepted. *)
Definition reconnect_run : list Z :=
  let '(t, g, l) := unix_socket_create boot_fds sockets_bss 1 SOCK_STREAM in
  let '(g, _) := unix_socket_bind t g 1 l (Some path_a) in
  let '(g, _) := unix_socket_listen t g 1 l in
  let '(t, g, c) := unix_socket_create t g 2 SOCK_STREAM in
  let '(g, _) := unix_socket_connect t g 2 c (Some path_a) in
  let '(g, _) := unix_socket_connect t g 2 c (Some path_a) in
  let '(t, g, first, _) := unix_socket_accept t g 1 l true in
  let client := default (-1) (socket_of t 2 c) in
  let server := default (-1) (socket_of t 1 first) in
  let g := unix_socket_release g (ptr_of client) in
  let '(t, g, _, (a, _)) := unix_socket_pair t g 3 in
  let victim := default (-1) (socket_of t 3 a) in
  let '(g, _) := unix_socket_send_stream g (ptr_of server) [83] in
  let '(_, _, out) := unix_socket_recv_stream g (ptr_of victim) 8 in out.

(** Connecting a socket that is already connected leaves its first peer
    pointing at it; once the client is gone and its slot is reused, what the server
    writes to that connection is delivered to a socket pair of an unrelated process. *)
Theorem unix_reconnect_cross_talk : reconnect_run = [83].
Proof. vm_compute. reflexivity. Qed.

(** ** Witnesses *)

Lemma quad_eta {A B C D} (q : A * B * C * D) : q = (fst (fst (fst q)), snd (fst (fst q)), snd (fst q), snd q).
Proof. by destruct q as [[[? ?] ?] ?]. Qed.

Lemma demo_pair_eq : unix_socket_pair boot_fds sockets_bss 1 = (pair_fds, pair_socks, 0, (0, 1)).
Proof.
  fold demo_pair. rewrite (quad_eta demo_pair) at 1. fold pair_fds pair_socks.
  assert (E1 : snd (fst demo_pair) = 0) by (vm_compute; reflexivity).
  assert (E2 : snd demo_pair = (0, 1)) by (vm_compute; reflexivity). by rewrite E1, E2.
Qed.

Lemma demo_socket : socket_of pair_fds 1 0 = Some 0 /\ socket_of pair_fds 1 1 = Some 1.
Proof. vm_compute. split; reflexivity. Qed.

Lemma demo_joined : joined pair_socks 0 1 /\ refcount (sock pair_socks 0) = 1.
Proof.
  destruct (socketpair_inv _ _ _ _ _ _ _ fd_init_inv sockets_bss_wf demo_pair_eq) as (i & p & Ha & Hb & J & R & _).
  destruct demo_socket as [E1 E2]. rewrite E1 in Ha. rewrite E2 in Hb. injection Ha as <-. injection Hb as <-. done.
Qed.

Lemma unix_socketpair_streams_witness :
  unix_socket_pair boot_fds sockets_bss 1 = (pair_fds, pair_socks, 0, (0, 1)) /\
  exists i p, socket_of pair_fds 1 0 = Some i /\ socket_of pair_fds 1 1 = Some p /\ i <> p.
Proof.
  split; [exact demo_pair_eq|].
  destruct (unix_socketpair_streams boot_fds sockets_bss 1 pair_fds pair_socks 0 1 fd_init_inv sockets_bss_wf demo_pair_eq)
    as (i & p & H1 & H2 & H3 & _).
  exists i, p. split; [exact H1|]. split; [exact H2|exact H3].
Defined.

Lemma unix_release_hangs_up_witness :
  joined pair_socks 0 1 /\
  has (unix_socket_poll_events (unix_socket_release pair_socks (ptr_of 0)) (ptr_of 1) 7) FD_POLL_HANGUP = true.
Proof.
  split; [exact (proj1 demo_joined)|].
  destruct (unix_release_hangs_up pair_socks 0 1 8 [1] (proj1 demo_joined) (proj2 demo_joined) ltac:(lia))
    as (_ & _ & _ & H & _). exact H.
Defined.

Lemma unix_messages_total_witness :
  socket_of pair_fds 1 0 = Some 0 /\
  exists g' rc, unix_socket_sendmsg (demo_message 0) pair_fds pair_socks 1 0 1000 = Some (g', rc) /\ sockets_wf g'.
Proof.
  split; [exact (proj1 demo_socket)|].
  destruct (unix_messages_total (demo_message 0) pair_fds pair_socks 1 0 1000 0 (j_wf _ _ _ (proj1 demo_joined))
    (proj1 demo_socket) (j_i _ _ _ (proj1 demo_joined))) as [(g' & rc & H1 & H2 & _) _].
  exists g', rc. split; [exact H1|exact H2].
Defined.
