(* ===== verification/UnixObj.v ===== *)
(** Shared-memory, event and epoll objects: the other parts of [kernel/unix_ipc.c].

    A pointer to an element of a table is its index plus one, 0 is the null
    pointer.  Physical memory and frames are those of [Vmm]; mapping frames into a
    process is the interface [ProcessVm]. *)
From S2P Require Import Prelude Pmm Vmm Ring Fd UnixSock.

(** ** Anonymous shared memory *)

Definition MAX_MEMFDS : Z := 32.
Definition MEMFD_MAX_PAGES : Z := 4096.

(** [phys_pages] holds the first [page_count] entries of the array; the entries
    behind them are 0. *)
Record memfd := Memfd {
  m_refcount : Z; m_in_use : bool; m_name : path_t; m_size : Z; phys_pages : list Z; m_flags : Z
}.

Definition no_memfd : memfd := Memfd 0 false [] 0 [] 0.
Definition page_count (m : memfd) : Z := Z.of_nat (length (phys_pages m)).

Abbreviation memfds := (list memfd).
Definition memfd_at (g : memfds) (i : Z) : memfd := at_z no_memfd g i.
Definition set_memfd (i : Z) (m : memfd) (g : memfds) : memfds := <[Z.to_nat i := m]> g.

Definition set_pages (ps : list Z) (m : memfd) : memfd :=
  Memfd (m_refcount m) (m_in_use m) (m_name m) (m_size m) ps (m_flags m).
Definition set_size (n : Z) (m : memfd) : memfd :=
  Memfd (m_refcount m) (m_in_use m) (m_name m) n (phys_pages m) (m_flags m).

Definition alloc_memfd (g : memfds) : option (memfds * Z) :=
  match find_z (fun i => negb (m_in_use (memfd_at g i)) && (m_refcount (memfd_at g i) =? 0)) 0 (Z.to_nat MAX_MEMFDS) with
  | None => None
  | Some i => Some (set_memfd i (Memfd 1 true [] 0 [] 0) g, i)
  end.

Definition unix_memfd_create (t : fds) (g : memfds) (pid : Z) (name : option path_t) (fl : Z) : fds * memfds * Z :=
  match alloc_memfd g with
  | None => (t, g, -1)
  | Some (g, i) =>
      let m := Memfd 1 true (take 63 (default [] name)) 0 [] fl in
      let g := set_memfd i m g in
      let '(t, fd) := fd_create_custom t pid FD_KIND_MEMFD (ptr_of i) (Z.lor FD_OPEN_READ FD_OPEN_WRITE) in
      if fd <? 0 then (t, set_memfd i (Memfd 0 false (m_name m) 0 [] fl) g, -1) else (t, g, fd)
  end.

Definition memfd_of (t : fds) (pid fd : Z) : option Z :=
  match fd_get_custom t pid fd with
  | Some (FD_KIND_MEMFD, ptr) => if ptr =? 0 then None else Some (ptr - 1)
  | _ => None
  end.

Definition unix_memfd_retain (g : memfds) (ptr : Z) : memfds :=
  if ptr =? 0 then g
  else
    let m := memfd_at g (ptr - 1) in
    if m_in_use m
    then set_memfd (ptr - 1) (Memfd (m_refcount m + 1) true (m_name m) (m_size m) (phys_pages m) (m_flags m)) g
    else g.

Definition unix_memfd_get_size (g : memfds) (ptr : Z) : Z := if ptr =? 0 then 0 else m_size (memfd_at g (ptr - 1)).

(** What mapping into a process needs. *)
Class ProcessVm (P : Type) := {
  process_vm_map_phys : P -> list Z -> Z -> P * Z;
  process_vm_attach_backing : P -> Z -> Z -> P * Z;
  process_vm_unmap : P -> Z -> Z -> P
}.

Section Memfd.
Context {A : Type} `{FA : FrameAllocator A}.
Implicit Types st : mm A.

(** [while (page_count < needed_pages)]: [n] pages are missing. *)
Fixpoint grow (n : nat) st (ps : list Z) : mm A * list Z * bool :=
  match n with
  | O => (st, ps, true)
  | S n =>
      let '(st, phys) := alloc_page st in
      if phys =? 0 then (st, ps, false)
      else grow n (set_mem (write_bytes (mem st) phys (replicate (Z.to_nat PAGE_SIZE) 0)) st) (ps ++ [phys])
  end.

Definition free_nonzero st (phys : Z) : mm A := if phys =? 0 then st else fst (free_page st phys).

(** [while (page_count > needed_pages)]: the last page first. *)
Fixpoint shrink (n : nat) st (ps : list Z) : mm A * list Z :=
  match n with
  | O => (st, ps)
  | S n => shrink n (free_nonzero st (List.last ps 0)) (removelast ps)
  end.

Definition pages_for (bytes : Z) : Z := u64 (bytes + PAGE_SIZE - 1) / PAGE_SIZE.

Definition truncate st (m : memfd) (len : Z) : mm A * memfd * Z :=
  let needed := pages_for len in
  if MEMFD_MAX_PAGES <? needed then (st, m, -1)
  else
    let '(st, ps, ok) := grow (Z.to_nat (needed - page_count m)) st (phys_pages m) in
    if negb ok then (st, set_pages ps m, -1)
    else
      let '(st, ps) := shrink (Z.to_nat (Z.of_nat (length ps) - needed)) st ps in
      (st, set_size len (set_pages ps m), 0).

Definition unix_memfd_ftruncate st (t : fds) (g : memfds) (pid fd len : Z) : mm A * memfds * Z :=
  match memfd_of t pid fd with
  | None => (st, g, -1)
  | Some i => let '(st, m, rc) := truncate st (memfd_at g i) len in (st, set_memfd i m g, rc)
  end.

(** The physical address behind byte [cur] of the object, 0 beyond its pages. *)
Definition page_at (m : memfd) (cur : Z) : Z := nth (Z.to_nat (cur / PAGE_SIZE)) (phys_pages m) 0.

(** The copy loops; every round moves at least one byte. *)
Fixpoint read_loop (fuel : nat) st (m : memfd) (cur left : Z) : list Z :=
  match fuel with
  | O => []
  | S fuel =>
      if left <=? 0 then []
      else
        let p_off := cur mod PAGE_SIZE in
        let chunk := if left <? PAGE_SIZE - p_off then left else PAGE_SIZE - p_off in
        let phys := page_at m cur in
        (if phys =? 0 then replicate (Z.to_nat chunk) 0 else read_bytes (mem st) (phys + p_off) (Z.to_nat chunk))
          ++ read_loop fuel st m (cur + chunk) (left - chunk)
  end.

Definition unix_memfd_read st (g : memfds) (ptr offset count : Z) : Z * Z * list Z :=
  if (ptr =? 0) || (count =? 0) then (-1, offset, [])
  else
    let m := memfd_at g (ptr - 1) in
    if m_size m <=? offset then (0, offset, [])
    else
      let avail := m_size m - offset in
      let to_read := if count <? avail then count else u32 avail in
      (to_read, offset + to_read, read_loop (Z.to_nat to_read) st m offset to_read).

Fixpoint write_loop (fuel : nat) st (m : memfd) (cur : Z) (src : list Z) : mm A :=
  match fuel with
  | O => st
  | S fuel =>
      let left := Z.of_nat (length src) in
      if left <=? 0 then st
      else
        let p_off := cur mod PAGE_SIZE in
        let chunk := if left <? PAGE_SIZE - p_off then left else PAGE_SIZE - p_off in
        let st := set_mem (write_bytes (mem st) (page_at m cur + p_off) (take (Z.to_nat chunk) src)) st in
        write_loop fuel st m (cur + chunk) (drop (Z.to_nat chunk) src)
  end.

Definition unix_memfd_write st (g : memfds) (ptr offset : Z) (src : list Z) : mm A * memfds * Z * Z :=
  let count := Z.of_nat (length src) in
  if (ptr =? 0) || (count =? 0) then (st, g, -1, offset)
  else
    let i := ptr - 1 in
    let m := memfd_at g i in
    let end_ := u64 (offset + count) in
    let needed := pages_for end_ in
    if MEMFD_MAX_PAGES <? needed then (st, g, -1, offset)
    else
      let '(st, ps, ok) := grow (Z.to_nat (needed - page_count m)) st (phys_pages m) in
      let m := set_pages ps m in
      if negb ok then (st, set_memfd i m g, -1, offset)
      else
        let m := if m_size m <? end_ then set_size end_ m else m in
        (write_loop (length src) st m offset src, set_memfd i m g, count, offset + count).

Definition unix_memfd_release st (g : memfds) (ptr : Z) : mm A * memfds :=
  if ptr =? 0 then (st, g)
  else
    let m := memfd_at g (ptr - 1) in
    let n := if 0 <? m_refcount m then m_refcount m - 1 else m_refcount m in
    if n =? 0
    then (foldl free_nonzero st (phys_pages m), set_memfd (ptr - 1) (Memfd 0 false (m_name m) 0 [] (m_flags m)) g)
    else (st, set_memfd (ptr - 1) (Memfd n (m_in_use m) (m_name m) (m_size m) (phys_pages m) (m_flags m)) g).

(** [&phys_pages[start]], [n] entries: beyond the array there is no answer. *)
Definition page_slice (m : memfd) (start n : Z) : option (list Z) :=
  if start + n <=? MEMFD_MAX_PAGES
  then Some (map (fun k => nth (Z.to_nat k) (phys_pages m) 0) (seqZ start n)) else None.

Definition unix_memfd_mmap {P} `{ProcessVm P} st (vm : P) (t : fds) (g : memfds) (pid fd len prot offset : Z) :
  option (mm A * P * memfds * Z) :=
  match memfd_of t pid fd with
  | None => Some (st, vm, g, 0)
  | Some i =>
      let start := offset / PAGE_SIZE in
      let needed := pages_for len in
      let '(st, g, rc) :=
        if page_count (memfd_at g i) <? start + needed
        then unix_memfd_ftruncate st t g pid fd (u64 ((start + needed) * PAGE_SIZE)) else (st, g, 0) in
      if negb (rc =? 0) then Some (st, vm, g, 0)
      else
        match page_slice (memfd_at g i) start needed with
        | None => None
        | Some pages =>
            let '(vm, base) := process_vm_map_phys vm pages prot in
            if base =? 0 then Some (st, vm, g, 0)
            else
              let g := unix_memfd_retain g (ptr_of i) in
              let '(vm, rc) := process_vm_attach_backing vm base (ptr_of i) in
              if negb (rc =? 0) then
                let '(st, g) := unix_memfd_release st g (ptr_of i) in
                Some (st, process_vm_unmap vm base (u64 (needed * PAGE_SIZE)), g, 0)
              else Some (st, vm, g, base)
        end
  end.
End Memfd.

(** ** Event counters *)

Definition MAX_EVENTFDS : Z := 32.
(** [1 | 00004000 | 02000000] in octal. *)
Definition EFD_FLAGS : Z := Z.lor 1 (Z.lor 2048 524288).
Definition EFD_SEMAPHORE : Z := 1.

Record eventfd := Eventfd { e_in_use : bool; semaphore : bool; counter : Z }.

Abbreviation eventfds := (list eventfd).
Definition event_at (g : eventfds) (i : Z) : eventfd := at_z (Eventfd false false 0) g i.
Definition set_event (i : Z) (e : eventfd) (g : eventfds) : eventfds := <[Z.to_nat i := e]> g.

Definition unix_eventfd_create (t : fds) (g : eventfds) (pid initial_value fl : Z) : fds * eventfds * Z :=
  if has (u32 fl) (u32 (Z.lnot EFD_FLAGS)) then (t, g, -1)
  else
    match find_z (fun i => negb (e_in_use (event_at g i))) 0 (Z.to_nat MAX_EVENTFDS) with
    | None => (t, g, -1)
    | Some i =>
        let e := Eventfd true (has fl EFD_SEMAPHORE) initial_value in
        let '(t, fd) := fd_create_custom t pid FD_KIND_EVENTFD (ptr_of i) (Z.lor FD_OPEN_READ FD_OPEN_WRITE) in
        if 0 <=? fd then (t, set_event i e g, fd)
        else (t, set_event i (Eventfd false (semaphore e) (counter e)) g, -1)
    end.

(** The value read is stored in the caller's buffer, little-endian. *)
Definition unix_eventfd_read (g : eventfds) (ptr count : Z) : eventfds * Z * list Z :=
  if (ptr =? 0) then (g, -1, [])
  else
    let e := event_at g (ptr - 1) in
    if negb (e_in_use e) || (count <? 8) then (g, -1, [])
    else if counter e =? 0 then (g, 0, [])
    else
      let value := if semaphore e then 1 else counter e in
      (set_event (ptr - 1) (Eventfd true (semaphore e) (counter e - value)) g, 8, le_put 8 value).

Definition unix_eventfd_write (g : eventfds) (ptr : Z) (src : list Z) : eventfds * Z :=
  if (ptr =? 0) then (g, -1)
  else
    let e := event_at g (ptr - 1) in
    if negb (e_in_use e) || (Z.of_nat (length src) <? 8) then (g, -1)
    else
      let value := field 0 8 src in
      if value =? 2 ^ 64 - 1 then (g, -1)
      else if 2 ^ 64 - 1 - 1 - counter e <? value then (g, -1)
      else (set_event (ptr - 1) (Eventfd true (semaphore e) (counter e + value)) g, 8).

Definition unix_eventfd_poll (g : eventfds) (ptr events : Z) : Z :=
  if (ptr =? 0) then -1
  else
    let e := event_at g (ptr - 1) in
    if negb (e_in_use e) then -1
    else Z.land (Z.lor FD_POLL_WRITE (flag_if (negb (counter e =? 0)) FD_POLL_READ)) events.

Definition unix_eventfd_release (g : eventfds) (ptr : Z) : eventfds :=
  if ptr =? 0 then g
  else let e := event_at g (ptr - 1) in set_event (ptr - 1) (Eventfd false (semaphore e) (counter e)) g.

(** ** Epoll *)

Definition MAX_EPOLLS : Z := 16.
Definition MAX_EPOLL_ITEMS : Z := 32.
Definition EPOLL_CTL_ADD : Z := 1.
Definition EPOLL_CTL_DEL : Z := 2.
Definition EPOLL_CTL_MOD : Z := 3.
Definition EPOLLIN : Z := 0x001.
Definition EPOLLPRI : Z := 0x002.
Definition EPOLLOUT : Z := 0x004.
Definition EPOLLHUP : Z := 0x010.

Record epoll_item := EpollItem { ep_fd : Z; ep_events : Z; ep_data : Z; active : bool }.
Record epoll_instance := Epoll { ep_refcount : Z; ep_in_use : bool; ep_owner : Z; items : list epoll_item; ep_count : Z }.

Definition no_item : epoll_item := EpollItem 0 0 0 false.
Definition no_epoll : epoll_instance := Epoll 0 false 0 (replicate (Z.to_nat MAX_EPOLL_ITEMS) no_item) 0.

Abbreviation epolls := (list epoll_instance).
Definition epoll_at (g : epolls) (i : Z) : epoll_instance := at_z no_epoll g i.
Definition set_epoll (i : Z) (e : epoll_instance) (g : epolls) : epolls := <[Z.to_nat i := e]> g.
Definition item_at (e : epoll_instance) (k : Z) : epoll_item := at_z no_item (items e) k.

Definition epoll_of (t : fds) (pid fd : Z) : option Z :=
  match fd_get_custom t pid fd with
  | Some (FD_KIND_EPOLL, ptr) => if ptr =? 0 then None else Some (ptr - 1)
  | _ => None
  end.

Definition unix_epoll_create (t : fds) (g : epolls) (pid : Z) : fds * epolls * Z :=
  match find_z (fun i => negb (ep_in_use (epoll_at g i)) && (ep_refcount (epoll_at g i) =? 0)) 0 (Z.to_nat MAX_EPOLLS) with
  | None => (t, g, -1)
  | Some i =>
      let inactive it := EpollItem (ep_fd it) (ep_events it) (ep_data it) false in
      let g := set_epoll i (Epoll 1 true pid (map inactive (items (epoll_at g i))) 0) g in
      let '(t, fd) := fd_create_custom t pid FD_KIND_EPOLL (ptr_of i) 0 in (t, g, fd)
  end.

(** The item watching [fd], and the first unused one. *)
Definition find_item (e : epoll_instance) (fd : Z) : option Z :=
  find_z (fun k => active (item_at e k) && (ep_fd (item_at e k) =? fd)) 0 (Z.to_nat MAX_EPOLL_ITEMS).
Definition free_item (e : epoll_instance) : option Z :=
  find_z (fun k => negb (active (item_at e k))) 0 (Z.to_nat MAX_EPOLL_ITEMS).

Definition set_item (k : Z) (it : epoll_item) (n : Z) (e : epoll_instance) : epoll_instance :=
  Epoll (ep_refcount e) (ep_in_use e) (ep_owner e) (<[Z.to_nat k := it]> (items e)) n.

(** [unix_epoll_ctl] on an instance; [events] and [data] come from the user. *)
Definition epoll_ctl (e : epoll_instance) (op target_fd events data : Z) : epoll_instance * Z :=
  if op =? EPOLL_CTL_ADD then
    match find_item e target_fd with
    | Some _ => (e, -1)
    | None =>
        match free_item e with
        | Some k => (set_item k (EpollItem target_fd events data true) (ep_count e + 1) e, 0)
        | None => (e, -1)
        end
    end
  else if op =? EPOLL_CTL_MOD then
    match find_item e target_fd with
    | Some k => (set_item k (EpollItem target_fd events data true) (ep_count e) e, 0)
    | None => (e, -1)
    end
  else if op =? EPOLL_CTL_DEL then
    match find_item e target_fd with
    | Some k =>
        let it := item_at e k in
        (set_item k (EpollItem (ep_fd it) (ep_events it) (ep_data it) false) (ep_count e - 1) e, 0)
    | None => (e, -1)
    end
  else (e, -1).

(** [struct linux_epoll_event] is packed: four bytes of events, eight of data. *)
Definition unix_epoll_ctl {M} `{UserMem M} (mem : M) (t : fds) (g : epolls) (pid epfd op target_fd u_event : Z) :
  epolls * Z :=
  match epoll_of t pid epfd with
  | None => (g, -1)
  | Some i =>
      let ev := if op =? EPOLL_CTL_DEL then Some (replicate 12 0)
                else if u_event =? 0 then None else um_read mem u_event 12 in
      match ev with
      | None => (g, -1)
      | Some bs =>
          let '(e, rc) := epoll_ctl (epoll_at g i) op target_fd (field 0 4 bs) (field 4 8 bs) in
          (set_epoll i e g, rc)
      end
  end.

Section Wait.
Context {W : Type} `{EN : FdEnv W}.

(** What an item asks [fd_poll] for, and what its answer means to the user. *)
Definition requested (events : Z) : Z :=
  Z.lor (Z.lor (flag_if (has events (Z.lor EPOLLIN EPOLLPRI)) FD_POLL_READ)
               (flag_if (has events EPOLLOUT) FD_POLL_WRITE)) FD_POLL_HANGUP.
Definition returned (rev : Z) : Z :=
  Z.lor (Z.lor (flag_if (has rev FD_POLL_READ) EPOLLIN) (flag_if (has rev FD_POLL_WRITE) EPOLLOUT))
    (flag_if (has rev FD_POLL_HANGUP) EPOLLHUP).

(** The scan: at most [limit] ready items, as events and data. *)
Fixpoint scan_ready (its : list epoll_item) (limit : nat) (t : fds) (w : W) (pid : Z) : list (Z * Z) :=
  match its, limit with
  | [], _ | _, O => []
  | it :: its, S limit' =>
      if negb (active it) then scan_ready its limit t w pid
      else
        let rev := fd_poll t w pid (ep_fd it) (requested (ep_events it)) in
        if 0 <? rev then (returned rev, ep_data it) :: scan_ready its limit' t w pid
        else scan_ready its limit t w pid
  end.

(** The last component is [g_syscall_should_yield]. *)
Definition unix_epoll_wait {M} `{UserMem M} (mem : M) (t : fds) (w : W) (g : epolls)
    (pid epfd u_events maxevents timeout_ms : Z) : M * Z * bool :=
  match epoll_of t pid epfd with
  | None => (mem, -1, false)
  | Some i =>
      if (u_events =? 0) || (maxevents <=? 0) then (mem, -1, false)
      else
        let limit := Z.to_nat (Z.min maxevents 16) in
        let ready := scan_ready (items (epoll_at g i)) limit t w pid in
        if negb (bool_decide (ready = [])) then
          let '(mem, ok) := um_write mem u_events (flat_map (fun ed => le_put 4 (fst ed) ++ le_put 8 (snd ed)) ready) in
          (mem, if ok then Z.of_nat (length ready) else -14, false)
        else if timeout_ms =? 0 then (mem, 0, false)
        else (mem, -4, true)
  end.
End Wait.

Definition unix_epoll_release (g : epolls) (ptr : Z) : epolls :=
  if ptr =? 0 then g
  else
    let e := epoll_at g (ptr - 1) in
    let n := if 0 <? ep_refcount e then ep_refcount e - 1 else ep_refcount e in
    set_epoll (ptr - 1) (Epoll n (if n =? 0 then false else ep_in_use e) (ep_owner e) (items e) (ep_count e)) g.

(** The part of [unix_ipc_init] on these tables. *)
Definition unix_ipc_init_objects (ms : memfds) (ps : epolls) (es : eventfds) : memfds * epolls * eventfds :=
  (map (fun m => Memfd 0 false (m_name m) (m_size m) (phys_pages m) (m_flags m)) ms,
   map (fun e => Epoll 0 false (ep_owner e) (items e) (ep_count e)) ps,
   map (fun e => Eventfd false (semaphore e) (counter e)) es).
