(* ===== verification/MemfdSpec.v ===== *)
(** Shared-memory objects: a write is read back by every holder, byte for byte,
    whatever pages it crosses; growing adds zeroed pages nobody else has; and the
    failures of truncation and mapping. *)
From S2P Require Import Prelude Pmm Vmm VmmTree VmmUser UserSpace Ring Fd FdInv UnixSock UnixObj.

(** ** Bytes of physical memory *)

Lemma read_bytes_length m a n : length (read_bytes m a n) = n.
Proof. revert a. induction n; intros a; cbn; auto. Qed.

Lemma nth_read_bytes m a n k : (k < n)%nat -> nth k (read_bytes m a n) 0 = ld8 m (a + Z.of_nat k).
Proof.
  revert a k. induction n as [|n IH]; intros a k Hk; [lia|]. cbn [read_bytes]. destruct k as [|k].
  - by rewrite Z.add_0_r.
  - cbn [nth]. rewrite IH by lia. f_equal. lia.
Qed.

(** ** Well-formed objects *)

Section Spec.
Context {A : Type} `{FL : FrameAllocatorLaws A}.
Implicit Types st : mm A.

Definition in_page (p x : Z) : Prop := p <= x < p + PAGE_SIZE.

#[local] Instance in_page_dec p x : Decision (in_page p x).
Proof. unfold in_page. apply _. Defined.

(** Frames owned by an object: allocated, and no two the same. *)
Record owned st (ps : list Z) : Prop := Owned {
  ow_nodup : NoDup ps;
  ow_page p : p ∈ ps -> table_page p;
  ow_held p a : p ∈ ps -> in_page p a -> ~ fa_free (frames st) a
}.

Record memfd_wf st (m : memfd) : Prop := MemfdWf {
  mw_owned : owned st (phys_pages m);
  mw_size : 0 <= m_size m <= page_count m * PAGE_SIZE;
  mw_max : page_count m <= MEMFD_MAX_PAGES
}.

Lemma pages_disjoint p q x : table_page p -> table_page q -> in_page p x -> in_page q x -> p = q.
Proof. unfold table_page, in_page, PAGE_SIZE. intros. Z.to_euclidean_division_equations. lia. Qed.

(** Growing: new zeroed frames, nothing else in memory changes. *)
Lemma grow_spec n : forall st ps st' ps' ok,
  fa_wf (frames st) -> owned st ps -> grow n st ps = (st', ps', ok) ->
  fa_wf (frames st') /\ owned st' ps' /\ same_regs st st' /\
  exists news, ps' = ps ++ news /\ (ok = true -> length news = n) /\ (length news <= n)%nat /\
    (forall x, (forall p, p ∈ news -> ~ in_page p x) -> ld8 (mem st') x = ld8 (mem st) x) /\
    (forall p x, p ∈ news -> in_page p x -> ld8 (mem st') x = 0 /\ fa_free (frames st) x) /\
    (forall a, fa_free (frames st') a -> fa_free (frames st) a).
Proof.
  induction n as [|n IH]; intros st ps st' ps' ok Hw Ho; cbn [grow].
  { intros [= <- <- <-]. split; [done|]. split; [done|]. split; [by split|]. exists [].
    rewrite app_nil_r. split_and!; auto. intros p x Hp. by apply not_elem_of_nil in Hp. }
  destruct (alloc_page st) as [s1 p] eqn:Ea. destruct (alloc_page_spec st s1 p Hw Ea) as (W1 & R1 & Hcase).
  destruct (Z.eqb_spec p 0) as [->|Hp0].
  { intros [= <- <- <-]. destruct Hcase as [(_ & Hm & Hf)|(Hp & _)]; [|unfold table_page in Hp; lia].
    split; [done|]. split.
    { destruct Ho as [O1 O2 O3]. constructor; auto. intros q a Hq Ha Hfr. apply Hf in Hfr. by eapply O3. }
    split; [done|]. exists []. rewrite app_nil_r, Hm. split; [done|]. split; [done|]. split; [cbn; lia|]. split; [done|].
    split; [|by intros a Ha; apply Hf]. intros q x Hq. by apply not_elem_of_nil in Hq. }
  destruct Hcase as [(-> & _)|(Hp & Hfree & Hf & _ & Hm)]; [done|].
  set (s2 := set_mem _ s1). assert (W2 : fa_wf (frames s2)) by done.
  assert (Hpage : forall a, in_block p 1 a <-> in_page p a).
  { intros a. unfold in_block, in_page. lia. }
  assert (O2 : owned s2 (ps ++ [p])).
  { destruct Ho as [O1 O2 O3]. constructor.
    - apply NoDup_app. split; [done|]. split; [|apply NoDup_singleton]. intros q Hq Hin.
      apply list_elem_of_singleton in Hin as ->. apply (O3 p p Hq); [unfold in_page, PAGE_SIZE; lia|].
      apply Hfree, Hpage. unfold in_page, PAGE_SIZE. lia.
    - intros q Hq. apply elem_of_app in Hq as [Hq|Hq]; [by apply O2|]. by apply list_elem_of_singleton in Hq as ->.
    - intros q a Hq Ha Hfr. apply Hf in Hfr as [Hfr Hn]. apply elem_of_app in Hq as [Hq|Hq]; [by eapply O3|].
      apply list_elem_of_singleton in Hq as ->. by apply Hn, Hpage. }
  intros Hg. destruct (IH s2 (ps ++ [p]) st' ps' ok W2 O2 Hg) as (W3 & O3 & R3 & news & -> & Hok & Hlen & Hmem & Hnew & Hfr).
  split; [done|]. split; [done|]. split; [destruct R1, R3; split; cbn in *; congruence|].
  assert (Hz : forall x, ld8 (mem s2) x = if (p <=? x) && (x <? p + PAGE_SIZE) then 0 else ld8 (mem s1) x).
  { intros x. unfold s2. cbn [mem set_mem]. rewrite ld8_write_bytes, length_replicate.
    rewrite Z2Nat.id by (unfold PAGE_SIZE; lia). destruct (_ && _); [|done].
    rewrite nth_lookup. destruct (replicate _ 0 !! _) as [v|] eqn:E; [|done].
    by apply lookup_replicate in E as [-> _]. }
  exists (p :: news). split; [by rewrite <-app_assoc|]. split; [intros; cbn; auto with lia|].
  split; [cbn; lia|]. split; [|split].
  - intros x Hx. rewrite Hmem by (intros q Hq; apply Hx; by apply list_elem_of_further).
    rewrite Hz. assert (Hnp : ~ in_page p x) by (apply Hx, list_elem_of_here).
    destruct (Z.leb_spec p x), (Z.ltb_spec x (p + PAGE_SIZE)); cbn [andb];
      try (apply (ld8_words _ _ p); [apply Hp|exact Hm|by rewrite Hpage]). exfalso. by apply Hnp.
  - intros q x Hq Hx. apply elem_of_cons in Hq as [->|Hq].
    + split; [|by apply Hfree, Hpage]. destruct (decide (Exists (fun q => in_page q x) news)) as [(q & Hq & Hqx)%Exists_exists|Hn].
      * by apply (Hnew q x).
      * rewrite Hmem by (intros q Hq Hqx; apply Hn, Exists_exists; by exists q). rewrite Hz.
        destruct Hx. destruct (Z.leb_spec p x), (Z.ltb_spec x (p + PAGE_SIZE)); cbn [andb]; try done; lia.
    + destruct (Hnew q x Hq Hx) as [H1 H2]. split; [done|]. by apply Hf in H2 as [? _].
  - intros a Ha. apply Hfr in Ha. by apply Hf in Ha as [? _].
Qed.

(** ** Bytes of an object *)

Definition addr (m : memfd) (x : Z) : Z := page_at m x + x mod PAGE_SIZE.

(** Byte [x] of the object. *)
Definition mbyte st (m : memfd) (x : Z) : Z := ld8 (mem st) (addr m x).

Definition extent (m : memfd) : Z := page_count m * PAGE_SIZE.

Lemma page_at_elem m x : 0 <= x < extent m -> page_at m x ∈ phys_pages m.
Proof.
  unfold extent, page_count, page_at, PAGE_SIZE. intros Hx.
  apply list_elem_of_lookup_2 with (Z.to_nat (x / 4096)). apply (at_z_lookup 0).
  Z.to_euclidean_division_equations. lia.
Qed.

Lemma addr_in_page m x : in_page (page_at m x) (addr m x).
Proof. unfold in_page, addr, PAGE_SIZE. Z.to_euclidean_division_equations. lia. Qed.

Lemma page_at_index st m x y :
  owned st (phys_pages m) -> 0 <= x < extent m -> 0 <= y < extent m -> page_at m x = page_at m y ->
  x / PAGE_SIZE = y / PAGE_SIZE.
Proof.
  intros [Hn _ _] Hx Hy He. unfold extent, page_count, page_at, PAGE_SIZE in *.
  assert (Hb : forall z, 0 <= z < Z.of_nat (length (phys_pages m)) * 4096 ->
    phys_pages m !! Z.to_nat (z / 4096) = Some (nth (Z.to_nat (z / 4096)) (phys_pages m) 0)).
  { intros z Hz. apply (at_z_lookup 0). Z.to_euclidean_division_equations. lia. }
  pose proof (Hb x Hx) as Lx. pose proof (Hb y Hy) as Ly. rewrite <-He in Ly.
  pose proof (NoDup_lookup _ _ _ _ Hn Lx Ly) as E. clear - E Hx Hy. Z.to_euclidean_division_equations. lia.
Qed.

Lemma addr_window st m cur c x :
  owned st (phys_pages m) -> 0 <= cur -> 0 < c -> cur mod PAGE_SIZE + c <= PAGE_SIZE -> cur < extent m ->
  0 <= x < extent m ->
  (page_at m cur + cur mod PAGE_SIZE <= addr m x < page_at m cur + cur mod PAGE_SIZE + c) <-> cur <= x < cur + c.
Proof.
  intros Ho Hc0 Hc Hcp Hce Hx. pose proof (addr_in_page m x) as Ax. split.
  - intros Hr. assert (Hp : page_at m x = page_at m cur).
    { apply (pages_disjoint _ _ (addr m x)); [apply (ow_page _ _ Ho), page_at_elem; lia..|done|].
      unfold in_page. pose proof (Z.mod_pos_bound cur PAGE_SIZE ltac:(done)). lia. }
    pose proof (page_at_index st m x cur Ho Hx ltac:(lia) Hp) as Hd. unfold addr, PAGE_SIZE in *. rewrite Hp in Hr.
    Z.to_euclidean_division_equations. lia.
  - intros Hr. assert (Hd : x / PAGE_SIZE = cur / PAGE_SIZE).
    { unfold PAGE_SIZE in *. Z.to_euclidean_division_equations. lia. }
    unfold addr, page_at. rewrite Hd. unfold PAGE_SIZE in *. Z.to_euclidean_division_equations. lia.
Qed.

Lemma owned_frames st st' ps : frames st' = frames st -> owned st ps -> owned st' ps.
Proof. intros E []. constructor; auto. by rewrite E. Qed.

Lemma write_loop_spec fuel : forall st m cur src,
  owned st (phys_pages m) -> 0 <= cur -> cur + Z.of_nat (length src) <= extent m -> (length src <= fuel)%nat ->
  let st' := write_loop fuel st m cur src in
  frames st' = frames st /\ same_regs st st' /\
  (forall x, 0 <= x < extent m -> mbyte st' m x =
     if (cur <=? x) && (x <? cur + Z.of_nat (length src)) then Z.land (nth (Z.to_nat (x - cur)) src 0) 255
     else mbyte st m x) /\
  (forall a, (forall p, p ∈ phys_pages m -> ~ in_page p a) -> ld8 (mem st') a = ld8 (mem st) a).
Proof.
  induction fuel as [|fuel IH]; intros st m cur src Ho Hc He Hf; cbn [write_loop]; cbn zeta.
  { destruct src; [|cbn in Hf; lia]. split_and!; try done. intros x _. cbn [length].
    destruct (Z.leb_spec cur x), (Z.ltb_spec x (cur + Z.of_nat 0)); try done. lia. }
  destruct (Z.leb_spec (Z.of_nat (length src)) 0).
  { destruct src; [|cbn in *; lia]. split_and!; try done. intros x _. cbn [length].
    destruct (Z.leb_spec cur x), (Z.ltb_spec x (cur + Z.of_nat 0)); try done. lia. }
  pose proof (Z.mod_pos_bound cur PAGE_SIZE ltac:(done)) as Hm.
  set (c := if Z.of_nat (length src) <? PAGE_SIZE - cur mod PAGE_SIZE then Z.of_nat (length src) else PAGE_SIZE - cur mod PAGE_SIZE).
  assert (Hcc : c = Z.min (Z.of_nat (length src)) (PAGE_SIZE - cur mod PAGE_SIZE))
    by (unfold c; destruct (Z.ltb_spec (Z.of_nat (length src)) (PAGE_SIZE - cur mod PAGE_SIZE)); lia).
  clearbody c. set (s1 := set_mem _ st).
  destruct (IH s1 m (cur + c) (drop (Z.to_nat c) src)) as (I1 & I2 & I3 & I4).
  { by apply (owned_frames st). }
  { lia. } { rewrite length_drop. lia. } { rewrite length_drop. lia. }
  rewrite length_drop in I3. split; [by rewrite I1|]. split; [exact I2|].
  assert (Hlt : Z.of_nat (length (take (Z.to_nat c) src)) = c) by (rewrite length_take; lia). split.
  - intros x Hx. rewrite I3 by done.
    assert (Hb : mbyte s1 m x = if (cur <=? x) && (x <? cur + c) then Z.land (nth (Z.to_nat (x - cur)) src 0) 255 else mbyte st m x).
    { unfold mbyte, s1. cbn [mem set_mem]. rewrite ld8_write_bytes, Hlt.
      pose proof (addr_window st m cur c x Ho Hc ltac:(lia) ltac:(lia) ltac:(lia) Hx) as Hwin.
      destruct (Z.leb_spec (page_at m cur + cur mod PAGE_SIZE) (addr m x)),
        (Z.ltb_spec (addr m x) (page_at m cur + cur mod PAGE_SIZE + c)),
        (Z.leb_spec cur x), (Z.ltb_spec x (cur + c)); cbn [andb]; try done; try lia.
      assert (Hax : addr m x - (page_at m cur + cur mod PAGE_SIZE) = x - cur).
      { assert (Hd : x / PAGE_SIZE = cur / PAGE_SIZE).
        { unfold PAGE_SIZE in *. Z.to_euclidean_division_equations. lia. }
        unfold addr, page_at. rewrite Hd. unfold PAGE_SIZE in *. Z.to_euclidean_division_equations. lia. }
      rewrite Hax. f_equal. rewrite !nth_lookup, lookup_take_lt by lia. done. }
    rewrite Hb. destruct (Z.leb_spec (cur + c) x), (Z.ltb_spec x (cur + c + Z.of_nat (length src - Z.to_nat c))),
      (Z.leb_spec cur x), (Z.ltb_spec x (cur + c)), (Z.ltb_spec x (cur + Z.of_nat (length src)));
      cbn [andb]; try done; try lia.
    f_equal. rewrite !nth_lookup, lookup_drop. do 2 f_equal. lia.
  - intros a Ha. rewrite I4 by done. unfold s1. cbn [mem set_mem]. rewrite ld8_write_bytes, Hlt.
    destruct (Z.leb_spec (page_at m cur + cur mod PAGE_SIZE) a), (Z.ltb_spec a (page_at m cur + cur mod PAGE_SIZE + c));
      cbn [andb]; try done. exfalso. apply (Ha (page_at m cur)); [apply page_at_elem; lia|]. unfold in_page. lia.
Qed.

Lemma read_loop_spec fuel : forall st m cur left,
  owned st (phys_pages m) -> 0 <= cur -> 0 <= left -> cur + left <= extent m -> left <= Z.of_nat fuel ->
  read_loop fuel st m cur left = map (mbyte st m) (seqZ cur left).
Proof.
  induction fuel as [|fuel IH]; intros st m cur left Ho Hc Hl He Hf; cbn [read_loop].
  { by replace left with 0 by lia. }
  destruct (Z.leb_spec left 0); [by replace left with 0 by lia|]. cbn zeta.
  pose proof (Z.mod_pos_bound cur PAGE_SIZE ltac:(done)) as Hm.
  set (c := if left <? PAGE_SIZE - cur mod PAGE_SIZE then left else PAGE_SIZE - cur mod PAGE_SIZE).
  assert (Hcc : c = Z.min left (PAGE_SIZE - cur mod PAGE_SIZE))
    by (unfold c; destruct (Z.ltb_spec left (PAGE_SIZE - cur mod PAGE_SIZE)); lia). clearbody c.
  assert (Hp : page_at m cur <> 0).
  { pose proof (ow_page _ _ Ho (page_at m cur) (page_at_elem m cur ltac:(lia))) as Hp. unfold table_page in Hp. lia. }
  apply Z.eqb_neq in Hp. rewrite Hp, IH by (auto; lia).
  replace left with (c + (left - c)) at 2 by lia. rewrite seqZ_app, map_app by lia. f_equal.
  apply (list_eq_same_length _ _ (Z.to_nat c)); [rewrite length_map, length_seqZ; lia|by rewrite read_bytes_length|].
  intros k v w Hk Hv Hw. rewrite list_lookup_fmap, lookup_seqZ_lt in Hw by lia. injection Hw as <-.
  apply (f_equal (default 0)) in Hv. rewrite <-nth_lookup, nth_read_bytes in Hv by lia. change (default 0 (Some v)) with v in Hv. rewrite <-Hv.
  unfold mbyte. f_equal. unfold addr, page_at.
  assert (Hd : (cur + Z.of_nat k) / PAGE_SIZE = cur / PAGE_SIZE).
  { unfold PAGE_SIZE in *. Z.to_euclidean_division_equations. lia. }
  rewrite Hd. unfold PAGE_SIZE in *. Z.to_euclidean_division_equations. lia.
Qed.

(** *** Writing *)

(** The object with its new pages: old bytes kept, new ones zero, and nothing that
    was in use elsewhere touched. *)
Lemma grow_bytes st m n st1 ps ok :
  fa_wf (frames st) -> memfd_wf st m -> grow n st (phys_pages m) = (st1, ps, ok) ->
  fa_wf (frames st1) /\ owned st1 ps /\
  (length (phys_pages m) <= length ps <= length (phys_pages m) + n)%nat /\
  (ok = true -> length ps = (length (phys_pages m) + n)%nat) /\
  (forall x, 0 <= x < extent (set_pages ps m) ->
     mbyte st1 (set_pages ps m) x = if x <? extent m then mbyte st m x else 0) /\
  (forall a, ~ fa_free (frames st) a -> ld8 (mem st1) a = ld8 (mem st) a).
Proof.
  intros Hw [Ho Hs Hmx] Hg.
  destruct (grow_spec n st _ st1 ps ok Hw Ho Hg) as (W1 & O1 & _ & news & -> & Hok & Hlen & Hmem & Hnew & _).
  rewrite length_app. split; [done|]. split; [done|]. split; [lia|]. split; [intros; rewrite Hok; auto|]. split.
  - intros x Hx. unfold mbyte. destruct (Z.ltb_spec x (extent m)) as [Hlt|Hge].
    + assert (Ea : addr (set_pages (phys_pages m ++ news) m) x = addr m x).
      { unfold addr, page_at. cbn [phys_pages set_pages]. rewrite app_nth1; [done|].
        unfold extent, page_count, PAGE_SIZE in Hlt |- *. Z.to_euclidean_division_equations. lia. }
      rewrite Ea. apply Hmem. intros p Hp Hin. destruct (Hnew p _ Hp Hin) as [_ Hfr].
      eapply (ow_held _ _ Ho (page_at m x)); [apply page_at_elem; lia|apply addr_in_page|exact Hfr].
    + assert (Hp : page_at (set_pages (phys_pages m ++ news) m) x ∈ news).
      { unfold page_at. cbn [phys_pages set_pages]. unfold extent, page_count, PAGE_SIZE in *.
        cbn [phys_pages set_pages] in Hx. rewrite length_app in Hx.
        rewrite app_nth2 by (Z.to_euclidean_division_equations; lia).
        apply list_elem_of_In, nth_In. Z.to_euclidean_division_equations. lia. }
      apply (Hnew _ _ Hp (addr_in_page _ x)).
  - intros a Ha. apply Hmem. intros p Hp Hin. by apply Ha, (Hnew p a Hp Hin).
Qed.

Lemma pages_for_spec n : 0 <= n -> n + PAGE_SIZE <= 2 ^ 64 ->
  0 <= pages_for n /\ n <= pages_for n * PAGE_SIZE /\ (pages_for n - 1) * PAGE_SIZE < n.
Proof.
  intros H0 H1. unfold pages_for. rewrite uwrap_id by (unfold fits, PAGE_SIZE in *; lia).
  unfold PAGE_SIZE in *. Z.to_euclidean_division_equations. lia.
Qed.

Lemma memfd_at_set g i m : 0 <= i < Z.of_nat (length g) -> memfd_at (set_memfd i m g) i = m.
Proof. intros Hi. unfold memfd_at, set_memfd. rewrite at_z_insert by lia. by rewrite Z.eqb_refl. Qed.

(** An object after its pages were grown and [src] was stored at [offset]. *)
Lemma memfd_stored st m offset src st1 ps :
  fa_wf (frames st) -> memfd_wf st m -> 0 <= offset -> offset + Z.of_nat (length src) + PAGE_SIZE <= 2 ^ 64 ->
  pages_for (offset + Z.of_nat (length src)) <= MEMFD_MAX_PAGES ->
  grow (Z.to_nat (pages_for (offset + Z.of_nat (length src)) - page_count m)) st (phys_pages m) = (st1, ps, true) ->
  let len := Z.of_nat (length src) in
  let m2 := if m_size m <? offset + len then set_size (offset + len) (set_pages ps m) else set_pages ps m in
  let st2 := write_loop (length src) st1 m2 offset src in
  memfd_wf st2 m2 /\ offset + len <= extent m2 /\ m_size m2 = Z.max (m_size m) (offset + len) /\
  (forall x, 0 <= x < extent m2 -> mbyte st2 m2 x =
     if (offset <=? x) && (x <? offset + len) then Z.land (nth (Z.to_nat (x - offset)) src 0) 255
     else if x <? extent m then mbyte st m x else 0) /\
  (forall a, ~ fa_free (frames st) a -> (forall p, p ∈ phys_pages m -> ~ in_page p a) ->
     ld8 (mem st2) a = ld8 (mem st) a).
Proof.
  intros Hw Hm Ho Hb Hmax Eg len. cbn zeta. fold len in Hb, Hmax, Eg |- *.
  destruct (grow_bytes st m _ st1 ps true Hw Hm Eg) as (W1 & O1 & L1 & L2 & B1 & F1). specialize (L2 eq_refl).
  destruct (pages_for_spec (offset + len)) as (P0 & P1 & _); [lia|lia|]. destruct Hm as [Hown Hsize Hmx].
  set (m1 := set_pages ps m) in *. set (m2 := if m_size m <? offset + len then set_size (offset + len) m1 else m1).
  assert (Epp : phys_pages m2 = ps) by (unfold m2, m1; by destruct (_ <? _)).
  assert (Eadr : forall x, addr m2 x = addr m1 x) by (intros x; unfold addr, page_at; by rewrite Epp).
  assert (Eext : extent m2 = extent m1) by (unfold extent, page_count; by rewrite Epp).
  assert (Hcover : offset + len <= extent m2).
  { rewrite Eext. unfold extent, page_count, m1, PAGE_SIZE in *. cbn [phys_pages set_pages]. lia. }
  assert (O2 : owned st1 (phys_pages m2)) by by rewrite Epp.
  destruct (write_loop_spec (length src) st1 m2 offset src O2 Ho Hcover (Nat.le_refl _)) as (V1 & V2 & V3 & V4).
  assert (Esz : m_size m2 = Z.max (m_size m) (offset + len)).
  { unfold m2. destruct (Z.ltb_spec (m_size m) (offset + len)); cbn [m_size set_size]; [lia|].
    change (m_size m1) with (m_size m). lia. }
  split.
  { constructor; [by apply (owned_frames st1)| |].
    - rewrite Esz. fold (extent m2). fold (extent m) in Hsize.
      assert (extent m <= extent m1) by (unfold extent, page_count, m1, PAGE_SIZE; cbn [phys_pages set_pages]; lia). lia.
    - unfold page_count. rewrite Epp. unfold page_count in *. lia. }
  split; [exact Hcover|]. split; [exact Esz|]. split.
  - intros x Hx. rewrite V3 by done. destruct (_ && _); [done|]. rewrite <-B1 by lia. unfold mbyte. by rewrite Eadr.
  - intros a Ha Hn. rewrite V4; [auto|]. intros p Hp Hin. rewrite Epp in Hp.
    destruct (grow_spec _ st _ st1 ps true Hw Hown Eg) as (_ & _ & _ & news & -> & _ & _ & _ & Hnew & _).
    apply elem_of_app in Hp as [Hp|Hp]; [by apply (Hn p)|]. by apply Ha, (Hnew p a Hp Hin).
Qed.

(** Reading where the object holds the bytes of [src]. *)
Lemma memfd_read_stored st g i offset src :
  let m := memfd_at g i in
  let len := Z.of_nat (length src) in
  owned st (phys_pages m) -> 0 <= i -> 0 <= offset -> 0 < len < 2 ^ 32 -> offset + len <= extent m -> offset + len <= m_size m ->
  (forall x, offset <= x < offset + len -> mbyte st m x = Z.land (nth (Z.to_nat (x - offset)) src 0) 255) ->
  unix_memfd_read st g (ptr_of i) offset len = (len, offset + len, map (fun b => Z.land b 255) src).
Proof.
  intros m len Hown Hi Ho Hl He Hs Hv. unfold unix_memfd_read.
  assert (Hp0 : (ptr_of i =? 0) = false) by (unfold ptr_of; apply Z.eqb_neq; lia).
  replace (ptr_of i - 1) with i by (unfold ptr_of; lia). rewrite Hp0. cbn [orb].
  destruct (Z.eqb_spec len 0); [lia|]. fold m. destruct (Z.leb_spec (m_size m) offset); [lia|].
  replace (if len <? m_size m - offset then len else u32 (m_size m - offset)) with len.
  2:{ destruct (Z.ltb_spec len (m_size m - offset)); [done|]. rewrite uwrap_id by (unfold fits; lia). lia. }
  rewrite read_loop_spec by (auto; lia). f_equal.
  apply (list_eq_same_length _ _ (length src)); [by rewrite length_map|rewrite length_map, length_seqZ; lia|].
  intros k v u Hk Hv' Hu. rewrite list_lookup_fmap, lookup_seqZ_lt in Hv' by lia. injection Hv' as <-.
  rewrite Hv by lia. rewrite list_lookup_fmap in Hu.
  replace (Z.to_nat (offset + Z.of_nat k - offset)) with k by lia. rewrite nth_lookup.
  destruct (lookup_lt_is_Some_2 src k Hk) as [b Hbk]. rewrite Hbk in Hu |- *. by injection Hu as <-.
Qed.

(** Shared memory reads back what was written: a write through an object either
    fails leaving its bytes and size alone, or stores exactly the given bytes at the
    offset, keeps every other byte and extends the object with zeros; reading there
    returns the bytes written.  In both cases the object stays well formed and no
    memory in use elsewhere changes. *)
Theorem memfd_write_read st g i offset src st' g' rc off' :
  fa_wf (frames st) -> 0 <= i < Z.of_nat (length g) -> memfd_wf st (memfd_at g i) ->
  0 <= offset -> offset + Z.of_nat (length src) + PAGE_SIZE <= 2 ^ 64 ->
  Z.of_nat (length src) < 2 ^ 32 -> src <> [] ->
  unix_memfd_write st g (ptr_of i) offset src = (st', g', rc, off') ->
  let m := memfd_at g i in
  let m' := memfd_at g' i in
  memfd_wf st' m' /\
  (forall a, ~ fa_free (frames st) a -> (forall p, p ∈ phys_pages m -> ~ in_page p a) ->
     ld8 (mem st') a = ld8 (mem st) a) /\
  ((rc = -1 /\ off' = offset /\ m_size m' = m_size m /\ forall x, 0 <= x < extent m -> mbyte st' m' x = mbyte st m x) \/
   (rc = Z.of_nat (length src) /\ off' = offset + rc /\ m_size m' = Z.max (m_size m) off' /\
    (forall x, 0 <= x < extent m' -> mbyte st' m' x =
       if (offset <=? x) && (x <? offset + rc) then Z.land (nth (Z.to_nat (x - offset)) src 0) 255
       else if x <? extent m then mbyte st m x else 0) /\
    unix_memfd_read st' g' (ptr_of i) offset rc = (rc, off', map (fun b => Z.land b 255) src))).
Proof.
  intros Hw Hi Hm Ho Hb Hc32 Hne. unfold unix_memfd_write. cbn zeta.
  assert (Hp0 : (ptr_of i =? 0) = false) by (unfold ptr_of; apply Z.eqb_neq; lia).
  assert (Hpi : ptr_of i - 1 = i) by (unfold ptr_of; lia). rewrite Hp0, Hpi. cbn [orb].
  destruct (Z.eqb_spec (Z.of_nat (length src)) 0) as [E|Hlen]; [destruct src; [done|cbn in E; lia]|].
  set (m := memfd_at g i) in *. set (len := Z.of_nat (length src)) in *.
  rewrite (uwrap_id 64 (offset + len)) by (unfold fits, PAGE_SIZE in *; lia).
  destruct (Z.ltb_spec MEMFD_MAX_PAGES (pages_for (offset + len))) as [|Hmax].
  { intros [= <- <- <- <-]. split; [done|]. split; [done|]. left. done. }
  destruct (grow (Z.to_nat (pages_for (offset + len) - page_count m)) st (phys_pages m)) as [[st1 ps] ok] eqn:Eg.
  destruct ok; cbn [negb].
  - destruct (memfd_stored st m offset src st1 ps Hw Hm Ho Hb Hmax Eg) as (V1 & V2 & V3 & V4 & V5).
    fold len in V1, V2, V3, V4, V5. intros [= <- <- <- <-]. rewrite memfd_at_set by done.
    split; [exact V1|]. split; [exact V5|]. right. split; [done|]. split; [done|]. split; [exact V3|]. split; [exact V4|].
    apply memfd_read_stored; try rewrite memfd_at_set by done; [apply V1|lia|lia|lia|exact V2|rewrite V3; lia|].
    intros x Hx. rewrite V4 by lia. destruct (Z.leb_spec offset x), (Z.ltb_spec x (offset + len)); try lia. done.
  - destruct (grow_bytes st m _ st1 ps false Hw Hm Eg) as (W1 & O1 & L1 & _ & B1 & F1). destruct Hm as [Hown Hsize Hmx].
    destruct (pages_for_spec (offset + len)) as (P0 & P1 & _); [lia|lia|].
    intros [= <- <- <- <-]. rewrite memfd_at_set by done. split.
    { constructor; cbn [phys_pages set_pages m_size page_count]; unfold page_count in *; cbn [phys_pages set_pages];
        [done|unfold PAGE_SIZE in *; lia|lia]. }
    split; [auto|]. left. split; [done|]. split; [done|]. split; [done|]. intros x Hx. rewrite B1.
    + destruct (Z.ltb_spec x (extent m)); [done|lia].
    + unfold extent, page_count in *. cbn [phys_pages set_pages]. unfold PAGE_SIZE in *. lia.
Qed.
End Spec.

(** ** Two failures *)

Section Bugs.
Context {A : Type} `{FA : FrameAllocator A}.
Implicit Types st : mm A.

Lemma truncate_same_pages st m len :
  pages_for len = page_count m -> page_count m <= MEMFD_MAX_PAGES ->
  truncate st m len = (st, set_size len (set_pages (phys_pages m) m), 0).
Proof.
  intros Hp Hm. unfold truncate. rewrite Hp. destruct (Z.ltb_spec MEMFD_MAX_PAGES (page_count m)); [lia|].
  rewrite Z.sub_diag. change (Z.to_nat 0) with 0%nat. cbn [grow negb].
  fold (page_count m). rewrite Z.sub_diag. done.
Qed.

(** Shrinking within a page and growing back brings the old bytes back instead of zeros. *)
Theorem memfd_truncate_exposes_old_bytes st m len1 len2 x :
  page_count m <= MEMFD_MAX_PAGES -> len1 <= x < len2 ->
  pages_for len1 = page_count m -> pages_for len2 = page_count m ->
  let '(st1, m1, rc1) := truncate st m len1 in
  let '(st2, m2, rc2) := truncate st1 m1 len2 in
  rc1 = 0 /\ rc2 = 0 /\ m_size m1 = len1 /\ m_size m2 = len2 /\ mbyte st2 m2 x = mbyte st m x.
Proof.
  intros Hm Hx H1 H2. rewrite (truncate_same_pages st m len1) by done.
  rewrite (truncate_same_pages st _ len2) by done. done.
Qed.

(** Mapping at an offset whose end wraps around truncates the object to nothing and
    then reads far outside the array of its pages. *)
Theorem memfd_mmap_out_of_bounds {P} `{ProcessVm P} st (vm : P) t g pid fd prot i :
  memfd_of t pid fd = Some i -> 0 <= i < Z.of_nat (length g) -> page_count (memfd_at g i) <= MEMFD_MAX_PAGES ->
  unix_memfd_mmap st vm t g pid fd 1 prot (2 ^ 64 - PAGE_SIZE) = None.
Proof.
  intros Ht Hi Hm. unfold unix_memfd_mmap. rewrite Ht.
  change ((2 ^ 64 - PAGE_SIZE) / PAGE_SIZE) with (2 ^ 52 - 1). change (pages_for 1) with 1.
  change (u64 ((2 ^ 52 - 1 + 1) * PAGE_SIZE)) with 0.
  destruct (Z.ltb_spec (page_count (memfd_at g i)) (2 ^ 52 - 1 + 1)); [|unfold MEMFD_MAX_PAGES in *; lia].
  unfold unix_memfd_ftruncate. rewrite Ht. unfold truncate. change (pages_for 0) with 0.
  change (MEMFD_MAX_PAGES <? 0) with false. cbn iota.
  replace (Z.to_nat (0 - page_count (memfd_at g i))) with 0%nat by (unfold page_count; lia). cbn [grow negb].
  destruct (shrink _ _ _) as [st1 ps]. change (negb (0 =? 0)) with false. cbn iota.
  unfold page_slice. by change (2 ^ 52 - 1 + 1 <=? MEMFD_MAX_PAGES) with false.
Qed.
End Bugs.

(** ** An example *)

Definition demo_machine : mm pmm := Mm demo_pmm ∅ 0 0.
Definition demo_memfds : memfds := [Memfd 1 true [] 0 [] 0].

(** Five bytes at offset 4094 of an empty object: they cross into its second page. *)
Definition demo_write := unix_memfd_write demo_machine demo_memfds (ptr_of 0) 4094 [1; 2; 3; 4; 5].

Lemma memfd_write_read_witness :
  fa_wf (frames demo_machine) /\ memfd_wf demo_machine (memfd_at demo_memfds 0) /\
  unix_memfd_read (fst (fst (fst demo_write))) (snd (fst (fst demo_write))) (ptr_of 0) 4094 5 =
    (5, 4099, [1; 2; 3; 4; 5]).
Proof.
  assert (Hw : fa_wf (frames demo_machine)) by exact demo_pmm_wf.
  assert (Hm : memfd_wf demo_machine (memfd_at demo_memfds 0)).
  { constructor; [|split; reflexivity|done]. constructor; [apply NoDup_nil_2| |].
    - intros p Hp. by apply not_elem_of_nil in Hp.
    - intros p a Hp. by apply not_elem_of_nil in Hp. }
  split; [exact Hw|]. split; [exact Hm|].
  destruct demo_write as [[[st' g'] rc] off'] eqn:E. cbn [fst snd].
  assert (Hrc : rc = 5) by (apply (f_equal (fun r => snd (fst r))) in E; vm_compute in E; by subst).
  destruct (memfd_write_read demo_machine demo_memfds 0 4094 [1; 2; 3; 4; 5] st' g' rc off' Hw ltac:(by vm_compute) Hm
    ltac:(done) ltac:(by vm_compute) ltac:(by vm_compute) ltac:(done) E) as (_ & _ & [(Hr & _)|(_ & -> & _ & _ & HR)]); [lia|].
  subst rc. exact HR.
Defined.
