(* ===== verification/EventSpec.v ===== *)
(** Event counters conserve what is written to them, and an epoll instance is a
    bounded map from descriptors to interests whose scan reports the ready ones. *)
From S2P Require Import Prelude Pmm Vmm Ring Fd FdInv FdSpec UnixSock UnixObj.

(** ** Event counters *)

(** A caller adds (eight bytes) or reads. *)
Definition event_op : Type := list Z + Z.

(** The counter after the calls, with what the successful ones added and returned. *)
Fixpoint event_run (ptr : Z) (ops : list event_op) (g : eventfds) : eventfds * Z * Z :=
  match ops with
  | [] => (g, 0, 0)
  | inl src :: ops =>
      let '(g, rc) := unix_eventfd_write g ptr src in
      let '(g, added, taken) := event_run ptr ops g in
      (g, (if rc =? 8 then field 0 8 src else 0) + added, taken)
  | inr n :: ops =>
      let '(g, rc, out) := unix_eventfd_read g ptr n in
      let '(g, added, taken) := event_run ptr ops g in
      (g, added, (if rc =? 8 then le_get out else 0) + taken)
  end.

Definition counter_ok (e : eventfd) : Prop := 0 <= counter e <= 2 ^ 64 - 2.

Lemma event_at_set g i e : 0 <= i < Z.of_nat (length g) -> event_at (set_event i e g) i = e.
Proof. intros Hi. unfold event_at, set_event. rewrite at_z_insert by lia. by rewrite Z.eqb_refl. Qed.

Lemma event_run_spec i ops : forall g,
  0 <= i < Z.of_nat (length g) -> counter_ok (event_at g i) -> e_in_use (event_at g i) = true ->
  Forall (fun o => match o with inl src => Forall (fun b => 0 <= b < 256) src | inr _ => True end) ops ->
  let '(g', added, taken) := event_run (ptr_of i) ops g in
  length g' = length g /\ counter_ok (event_at g' i) /\ e_in_use (event_at g' i) = true /\
  semaphore (event_at g' i) = semaphore (event_at g i) /\
  counter (event_at g i) + added = taken + counter (event_at g' i).
Proof.
  assert (Hp0 : 0 <= i -> (ptr_of i =? 0) = false) by (unfold ptr_of; intros; apply Z.eqb_neq; lia).
  assert (Hpi : ptr_of i - 1 = i) by (unfold ptr_of; lia).
  induction ops as [|[src|n] ops IH]; intros g Hi Hc Hu Ho; cbn [event_run];
    [split_and!; auto; lia|inversion_clear Ho as [|? ? Hs Ho']..].
  - unfold unix_eventfd_write. rewrite Hp0, Hpi, Hu by lia. cbn [negb orb].
    assert (Hskip : let '(g', added, taken) := event_run (ptr_of i) ops g in
      length g' = length g /\ counter_ok (event_at g' i) /\ e_in_use (event_at g' i) = true /\
      semaphore (event_at g' i) = semaphore (event_at g i) /\
      counter (event_at g i) + (0 + added) = taken + counter (event_at g' i)).
    { specialize (IH g Hi Hc Hu Ho'). by destruct (event_run _ ops g) as [[g' added] taken]. }
    destruct (Z.ltb_spec (Z.of_nat (length src)) 8) as [|Hl].
    { by destruct (event_run (ptr_of i) ops g) as [[g' added] taken]. }
    destruct (Z.eqb_spec (field 0 8 src) (2 ^ 64 - 1)).
    { by destruct (event_run (ptr_of i) ops g) as [[g' added] taken]. }
    destruct (Z.ltb_spec (2 ^ 64 - 1 - 1 - counter (event_at g i)) (field 0 8 src)).
    { by destruct (event_run (ptr_of i) ops g) as [[g' added] taken]. }
    set (g1 := set_event _ _ g).
    assert (E1 : event_at g1 i = Eventfd true (semaphore (event_at g i)) (counter (event_at g i) + field 0 8 src))
      by by apply event_at_set.
    assert (Hf : 0 <= field 0 8 src).
    { unfold field. rewrite drop_0. apply (le_get_nonneg (take 8 src)). by apply Forall_take. }
    specialize (IH g1). rewrite E1 in IH. cbn [counter e_in_use semaphore] in IH.
    destruct (event_run (ptr_of i) ops g1) as [[g' added] taken].
    destruct IH as (I1 & I2 & I3 & I4 & I5); auto.
    { unfold g1, set_event. rewrite length_insert. lia. }
    { unfold counter_ok in *. cbn [counter]. lia. }
    change (8 =? 8) with true. cbn iota. split; [by rewrite I1; apply length_insert|]. split_and!; auto. lia.
  - unfold unix_eventfd_read. rewrite Hp0, Hpi, Hu by lia. cbn [negb orb].
    assert (Hskip : let '(g', added, taken) := event_run (ptr_of i) ops g in
      length g' = length g /\ counter_ok (event_at g' i) /\ e_in_use (event_at g' i) = true /\
      semaphore (event_at g' i) = semaphore (event_at g i) /\
      counter (event_at g i) + added = 0 + taken + counter (event_at g' i)).
    { specialize (IH g Hi Hc Hu Ho'). by destruct (event_run _ ops g) as [[g' added] taken]. }
    destruct (Z.ltb_spec n 8). { by destruct (event_run (ptr_of i) ops g) as [[g' added] taken]. }
    destruct (Z.eqb_spec (counter (event_at g i)) 0). { by destruct (event_run (ptr_of i) ops g) as [[g' added] taken]. }
    set (v := if semaphore (event_at g i) then 1 else counter (event_at g i)).
    assert (Hv : 0 < v <= counter (event_at g i)).
    { unfold v, counter_ok in *. destruct (semaphore (event_at g i)); lia. }
    set (g1 := set_event _ _ g).
    assert (E1 : event_at g1 i = Eventfd true (semaphore (event_at g i)) (counter (event_at g i) - v))
      by by apply event_at_set.
    specialize (IH g1). rewrite E1 in IH. cbn [counter e_in_use semaphore] in IH.
    destruct (event_run (ptr_of i) ops g1) as [[g' added] taken].
    destruct IH as (I1 & I2 & I3 & I4 & I5); auto.
    { unfold g1, set_event. rewrite length_insert. lia. }
    { unfold counter_ok in *. cbn [counter]. lia. }
    change (8 =? 8) with true. cbn iota. rewrite le_get_put by (unfold counter_ok in *; lia).
    split; [by rewrite I1; apply length_insert|]. split_and!; auto. lia.
Qed.

(** An event counter neither loses nor invents events: after any calls, what
    the successful writes added equals what the successful reads returned plus what
    is left, the counter never exceeds its maximum of 2^64 - 2, and a read from a
    semaphore takes exactly one while any other read empties the counter. *)
Theorem eventfd_conserves i ops g :
  0 <= i < Z.of_nat (length g) -> counter_ok (event_at g i) -> e_in_use (event_at g i) = true ->
  Forall (fun o => match o with inl src => Forall (fun b => 0 <= b < 256) src | inr _ => True end) ops ->
  let '(g', added, taken) := event_run (ptr_of i) ops g in
  counter (event_at g i) + added = taken + counter (event_at g' i) /\
  0 <= counter (event_at g' i) <= 2 ^ 64 - 2 /\
  let '(g2, rc, out) := unix_eventfd_read g' (ptr_of i) 8 in
  if counter (event_at g' i) =? 0 then rc = 0 /\ g2 = g' else
    rc = 8 /\ le_get out = (if semaphore (event_at g i) then 1 else counter (event_at g' i)) /\
    counter (event_at g2 i) = counter (event_at g' i) - le_get out.
Proof.
  intros Hi Hc Hu Ho. pose proof (event_run_spec i ops g Hi Hc Hu Ho) as HR.
  destruct (event_run (ptr_of i) ops g) as [[g' added] taken]. destruct HR as (R1 & R2 & R3 & R4 & R5).
  split; [done|]. split; [done|]. unfold unix_eventfd_read.
  destruct (Z.eqb_spec (ptr_of i) 0) as [E|_]; [unfold ptr_of in E; lia|].
  replace (ptr_of i - 1) with i by (unfold ptr_of; lia). rewrite R3. cbn [negb orb]. change (8 <? 8) with false. cbn iota.
  destruct (Z.eqb_spec (counter (event_at g' i)) 0); [done|]. rewrite R4.
  rewrite event_at_set by lia. cbn [counter].
  rewrite le_get_put by (unfold counter_ok in *; destruct (semaphore (event_at g i)); lia). done.
Qed.

Lemma eventfd_conserves_witness :
  let g := [Eventfd true false 0] in
  counter_ok (event_at g 0) /\
  let '(g', added, taken) := event_run (ptr_of 0) [inl (le_put 8 5); inr 8; inl (le_put 8 7)] g in
  counter (event_at g 0) + added = taken + counter (event_at g' 0) /\ 0 <= counter (event_at g' 0) <= 2 ^ 64 - 2.
Proof.
  split; [by vm_compute|].
  pose proof (eventfd_conserves 0 [inl (le_put 8 5); inr 8; inl (le_put 8 7)] [Eventfd true false 0]
    ltac:(by vm_compute) ltac:(by vm_compute) eq_refl ltac:(repeat constructor; done)) as HC.
  destruct (event_run _ _ _) as [[g' added] taken]. destruct HC as (H1 & H2 & _). split; [exact H1|exact H2].
Defined.

(** ** Epoll *)

Definition is_active (it : epoll_item) : Z := b2z (active it).

Record epoll_wf (e : epoll_instance) : Prop := EpollWf {
  ew_length : length (items e) = Z.to_nat MAX_EPOLL_ITEMS;
  ew_count : ep_count e = zsum is_active (items e);
  ew_unique j k : 0 <= j < MAX_EPOLL_ITEMS -> 0 <= k < MAX_EPOLL_ITEMS ->
    active (item_at e j) = true -> active (item_at e k) = true ->
    ep_fd (item_at e j) = ep_fd (item_at e k) -> j = k
}.

(** What the instance watches on a descriptor. *)
Definition watch (e : epoll_instance) (fd : Z) : option (Z * Z) :=
  match find_item e fd with Some k => Some (ep_events (item_at e k), ep_data (item_at e k)) | None => None end.

Lemma items_max k : 0 <= k < MAX_EPOLL_ITEMS <-> 0 <= k < 0 + Z.of_nat (Z.to_nat MAX_EPOLL_ITEMS).
Proof. unfold MAX_EPOLL_ITEMS. lia. Qed.

Lemma find_item_spec e fd k :
  find_item e fd = Some k -> 0 <= k < MAX_EPOLL_ITEMS /\ active (item_at e k) = true /\ ep_fd (item_at e k) = fd.
Proof.
  intros H. apply find_z_Some in H as (Hb & Hp & _). apply andb_true_iff in Hp as [H1 H2]. apply Z.eqb_eq in H2.
  by apply items_max in Hb.
Qed.

Lemma find_item_at e fd k :
  epoll_wf e -> 0 <= k < MAX_EPOLL_ITEMS -> active (item_at e k) = true -> ep_fd (item_at e k) = fd ->
  find_item e fd = Some k.
Proof.
  intros Hw Hk Ha Hf. destruct (find_item e fd) as [j|] eqn:E.
  - apply find_item_spec in E as (Hj & Ja & Jf). f_equal. apply (ew_unique _ Hw); auto. congruence.
  - exfalso. unfold find_item in E. pose proof (find_z_None _ _ _ E k (proj1 (items_max k) Hk)) as Hn. cbn beta in Hn.
    by rewrite Ha, Hf, Z.eqb_refl in Hn.
Qed.

Lemma find_item_None e fd k :
  find_item e fd = None -> 0 <= k < MAX_EPOLL_ITEMS -> active (item_at e k) = true -> ep_fd (item_at e k) <> fd.
Proof.
  intros E Hk Ha Hf. unfold find_item in E. pose proof (find_z_None _ _ _ E k (proj1 (items_max k) Hk)) as Hn. cbn beta in Hn.
  by rewrite Ha, Hf, Z.eqb_refl in Hn.
Qed.

Lemma item_at_set e k it n j :
  epoll_wf e -> 0 <= k < MAX_EPOLL_ITEMS -> 0 <= j ->
  item_at (set_item k it n e) j = if j =? k then it else item_at e j.
Proof.
  intros Hw Hk Hj. unfold item_at. cbn [items set_item]. rewrite at_z_insert; [done| |done].
  rewrite (ew_length _ Hw). unfold MAX_EPOLL_ITEMS in *. lia.
Qed.

(** Replacing item [k] by one that watches [fd] (if active), when no other item does. *)
Lemma set_item_spec e k it :
  epoll_wf e -> 0 <= k < MAX_EPOLL_ITEMS ->
  (active it = true -> forall j, 0 <= j < MAX_EPOLL_ITEMS -> j <> k -> active (item_at e j) = true ->
     ep_fd (item_at e j) <> ep_fd it) ->
  let e' := set_item k it (ep_count e - is_active (item_at e k) + is_active it) e in
  epoll_wf e' /\
  (forall fd, fd <> ep_fd it -> (active (item_at e k) = true -> ep_fd (item_at e k) = ep_fd it) -> watch e' fd = watch e fd) /\
  (active it = true -> watch e' (ep_fd it) = Some (ep_events it, ep_data it)) /\
  (active it = false -> active (item_at e k) = true -> watch e' (ep_fd (item_at e k)) = None).
Proof.
  intros Hw Hk Hu. cbn zeta. set (e' := set_item k it _ e).
  assert (G : forall j, 0 <= j -> item_at e' j = if j =? k then it else item_at e j) by (intros; by apply item_at_set).
  assert (W : epoll_wf e').
  { constructor.
    - cbn. rewrite length_insert. apply Hw.
    - cbn [ep_count items e' set_item]. rewrite (ew_count _ Hw). unfold item_at. symmetry. apply zsum_insert.
      rewrite (ew_length _ Hw). unfold MAX_EPOLL_ITEMS in *. lia.
    - intros j l Hj Hl. rewrite !G by lia. destruct (Z.eqb_spec j k) as [->|], (Z.eqb_spec l k) as [->|]; intros A1 A2 Hf.
      + done.
      + exfalso. by apply (Hu A1 l Hl).
      + exfalso. by apply (Hu A2 j Hj).
      + by apply (ew_unique _ Hw). }
  assert (K : forall fd j, find_item e' fd = Some j -> j <> k -> find_item e fd = Some j).
  { intros fd j Hj Hne. apply find_item_spec in Hj as (Hb & Ha & Hf). rewrite G in Ha, Hf by lia.
    apply Z.eqb_neq in Hne. rewrite Hne in Ha, Hf. by apply find_item_at. }
  split; [done|]. split; [|split].
  - intros fd Hne Hold. unfold watch. destruct (find_item e' fd) as [j|] eqn:E.
    + assert (Hjk : j <> k).
      { intros ->. apply find_item_spec in E as (_ & _ & Hf). rewrite G, Z.eqb_refl in Hf by lia. congruence. }
      rewrite (K fd j E Hjk). apply find_item_spec in E as (Hb & _). rewrite G by lia.
      by apply Z.eqb_neq in Hjk as ->.
    + destruct (find_item e fd) as [j|] eqn:E2; [|done]. exfalso.
      apply find_item_spec in E2 as (Hb & Ha & Hf). destruct (Z.eq_dec j k) as [->|Hjk].
      * apply Hne. rewrite <-Hf. auto.
      * apply (find_item_None e' fd j E Hb); rewrite G by lia; apply Z.eqb_neq in Hjk; by rewrite Hjk.
  - intros Ha. unfold watch. rewrite (find_item_at e' (ep_fd it) k W Hk) by (by rewrite G, Z.eqb_refl by lia).
    by rewrite G, Z.eqb_refl by lia.
  - intros Hna Ha. unfold watch. destruct (find_item e' (ep_fd (item_at e k))) as [j|] eqn:E; [|done]. exfalso.
    pose proof E as E0. apply find_item_spec in E as (Hb & Hja & Hjf). rewrite G in Hja, Hjf by lia.
    destruct (Z.eqb_spec j k) as [->|Hjk]; [congruence|]. apply Hjk. by apply (ew_unique _ Hw).
Qed.

(** The scan, without its loop. *)
Definition ready_item {W} `{FdEnv W} (t : fds) (w : W) (pid : Z) (it : epoll_item) : option (Z * Z) :=
  if active it then
    let rev := fd_poll t w pid (ep_fd it) (requested (ep_events it)) in
    if 0 <? rev then Some (returned rev, ep_data it) else None
  else None.

Lemma scan_ready_spec {W} `{FdEnv W} t (w : W) pid its : forall limit,
  scan_ready its limit t w pid = take limit (omap (ready_item t w pid) its).
Proof.
  induction its as [|it its IH]; intros limit; [by destruct limit|].
  destruct limit as [|limit]; [done|]. cbn [scan_ready]. cbn [omap list_omap]. unfold ready_item at 1.
  destruct (active it); cbn [negb]; [|apply IH]. cbn zeta. destruct (0 <? _); [|apply IH].
  cbn [take]. f_equal. apply IH.
Qed.

Lemma room_iff e : epoll_wf e -> (free_item e = None <-> ep_count e = MAX_EPOLL_ITEMS) /\ ep_count e <= MAX_EPOLL_ITEMS.
Proof.
  intros Hw. rewrite (ew_count _ Hw). pose proof (ew_length _ Hw) as Hl.
  assert (Hle : forall l, zsum is_active l <= Z.of_nat (length l)).
  { induction l as [|it l IH]; cbn [zsum foldr length]; [lia|]. unfold zsum in IH. unfold is_active at 1.
    destruct (active it); cbn [b2z]; lia. }
  assert (Hall : forall l, (forall it, it ∈ l -> active it = true) <-> zsum is_active l = Z.of_nat (length l)).
  { induction l as [|it l IH]; [split; [done|intros _ it Hit; by apply not_elem_of_nil in Hit]|].
    cbn [zsum foldr length]. fold (zsum is_active l). specialize (Hle l). split.
    - intros H. rewrite (proj1 IH) by (intros x Hx; apply H; by apply list_elem_of_further).
      unfold is_active. rewrite (H it) by apply list_elem_of_here. cbn [b2z]. lia.
    - intros H. assert (Ha : active it = true).
      { unfold is_active in H at 1. destruct (active it); [done|]. cbn [b2z] in H. lia. }
      unfold is_active in H at 1. rewrite Ha in H. cbn [b2z] in H.
      intros x Hx. apply elem_of_cons in Hx as [->|Hx]; [done|]. apply (proj2 IH); [lia|done]. }
  split; [|specialize (Hle (items e)); rewrite Hl in Hle; unfold MAX_EPOLL_ITEMS in *; lia].
  replace MAX_EPOLL_ITEMS with (Z.of_nat (length (items e))) by (rewrite Hl; unfold MAX_EPOLL_ITEMS; lia).
  rewrite <-Hall. unfold free_item. split.
  - intros E it Hit. apply list_elem_of_lookup in Hit as [j Hj].
    assert (Hjl : (j < length (items e))%nat) by (eapply lookup_lt_Some; eauto).
    pose proof (find_z_None _ _ _ E (Z.of_nat j) ltac:(rewrite Hl in Hjl; lia)) as Hn.
    apply negb_false_iff in Hn. unfold item_at, at_z in Hn. by rewrite Nat2Z.id, nth_lookup, Hj in Hn.
  - intros H. destruct (find_z _ _ _) as [k|] eqn:E; [|done]. exfalso. apply find_z_Some in E as (Hb & Hp & _).
    apply negb_true_iff in Hp. unfold item_at in Hp. rewrite H in Hp; [done|].
    apply list_elem_of_lookup_2 with (Z.to_nat k), at_z_lookup. rewrite Hl. lia.
Qed.

(** What one control operation does. *)
Definition ctl_outcome (e : epoll_instance) (op fd events data : Z) (e' : epoll_instance) (rc : Z) : Prop :=
  epoll_wf e' /\
  (rc = 0 <-> (op = EPOLL_CTL_ADD /\ watch e fd = None /\ ep_count e < MAX_EPOLL_ITEMS) \/
              ((op = EPOLL_CTL_MOD \/ op = EPOLL_CTL_DEL) /\ watch e fd <> None)) /\
  (rc <> 0 -> rc = -1 /\ e' = e) /\
  (rc = 0 -> watch e' fd = (if op =? EPOLL_CTL_DEL then None else Some (events, data)) /\
     forall fd', fd' <> fd -> watch e' fd' = watch e fd').

Lemma watch_None e fd : watch e fd = None <-> find_item e fd = None.
Proof. unfold watch. by destruct (find_item e fd). Qed.

Lemma ctl_refused e op fd events data :
  epoll_wf e -> ~ (op = EPOLL_CTL_ADD /\ watch e fd = None /\ ep_count e < MAX_EPOLL_ITEMS) ->
  ~ ((op = EPOLL_CTL_MOD \/ op = EPOLL_CTL_DEL) /\ watch e fd <> None) -> ctl_outcome e op fd events data e (-1).
Proof. intros Hw H1 H2. split; [done|]. split; [|split; [done|lia]]. split; [lia|tauto]. Qed.

Lemma ctl_add e fd events data e' rc :
  epoll_wf e -> epoll_ctl e EPOLL_CTL_ADD fd events data = (e', rc) -> ctl_outcome e EPOLL_CTL_ADD fd events data e' rc.
Proof.
  intros Hw E. destruct (room_iff e Hw) as [Hroom Hle]. unfold epoll_ctl in E. rewrite Z.eqb_refl in E.
  destruct (find_item e fd) as [k|] eqn:Ef.
  { injection E as <- <-. apply ctl_refused; [done|..]; rewrite watch_None, Ef; [by intros (_ & ? & _)|by intros [[?|?] _]]. }
  destruct (free_item e) as [k|] eqn:Ek.
  2:{ injection E as <- <-. pose proof (proj1 Hroom eq_refl).
      apply ctl_refused; [done|..]; rewrite watch_None, Ef; [intros (_ & _ & ?); lia|by intros [[?|?] _]]. }
  apply find_z_Some in Ek as (Hb & Hp & _). apply items_max in Hb. apply negb_true_iff in Hp.
  destruct (set_item_spec e k (EpollItem fd events data true) Hw Hb) as (S1 & S2 & S3 & _).
  { intros _ j Hj _ Hja. by apply (find_item_None e fd j Ef). }
  cbn [ep_fd ep_events ep_data active] in *. unfold is_active in S1, S2, S3. rewrite Hp in S1, S2, S3.
  cbn [b2z active] in *. rewrite Z.sub_0_r in *. injection E as <- <-. split; [done|]. rewrite watch_None. split.
  { split; [intros _; left; split_and!; auto|done]. destruct (Z.eq_dec (ep_count e) MAX_EPOLL_ITEMS) as [He|]; [|lia].
    apply Hroom in He. done. }
  split; [done|]. intros _. split; [by apply S3|]. intros fd' Hne. apply S2; [done|]. by intros.
Qed.

Lemma ctl_mod e fd events data e' rc :
  epoll_wf e -> epoll_ctl e EPOLL_CTL_MOD fd events data = (e', rc) -> ctl_outcome e EPOLL_CTL_MOD fd events data e' rc.
Proof.
  intros Hw E. unfold epoll_ctl in E. change (EPOLL_CTL_MOD =? EPOLL_CTL_ADD) with false in E. rewrite Z.eqb_refl in E.
  destruct (find_item e fd) as [k|] eqn:Ef.
  2:{ injection E as <- <-. apply ctl_refused; [done|..]; rewrite watch_None, Ef; [by intros (? & _)|by intros (_ & ?)]. }
  pose proof (find_item_spec _ _ _ Ef) as (Hb & Ha & Hf).
  destruct (set_item_spec e k (EpollItem fd events data true) Hw Hb) as (S1 & S2 & S3 & _).
  { intros _ j Hj Hne Hja Hjf. apply Hne. apply (ew_unique _ Hw); auto. by rewrite Hf. }
  cbn [ep_fd ep_events ep_data active] in *. unfold is_active in S1, S2, S3. rewrite Ha in S1, S2, S3.
  cbn [b2z active] in *. rewrite Z.sub_add in *. injection E as <- <-. split; [done|]. rewrite watch_None, Ef. split.
  { split; [intros _; right; auto|done]. }
  split; [done|]. intros _. split; [by apply S3|]. intros fd' Hne. by apply S2.
Qed.

Lemma ctl_del e fd events data e' rc :
  epoll_wf e -> epoll_ctl e EPOLL_CTL_DEL fd events data = (e', rc) -> ctl_outcome e EPOLL_CTL_DEL fd events data e' rc.
Proof.
  intros Hw E. unfold epoll_ctl in E. change (EPOLL_CTL_DEL =? EPOLL_CTL_ADD) with false in E.
  change (EPOLL_CTL_DEL =? EPOLL_CTL_MOD) with false in E. rewrite Z.eqb_refl in E.
  destruct (find_item e fd) as [k|] eqn:Ef.
  2:{ injection E as <- <-. apply ctl_refused; [done|..]; rewrite watch_None, Ef; [by intros (? & _)|by intros (_ & ?)]. }
  pose proof (find_item_spec _ _ _ Ef) as (Hb & Ha & Hf). rewrite Hf in E.
  destruct (set_item_spec e k (EpollItem fd (ep_events (item_at e k)) (ep_data (item_at e k)) false) Hw Hb)
    as (S1 & S2 & _ & S4); [done|].
  cbn [ep_fd ep_events ep_data active] in *. unfold is_active in S1, S2, S4. rewrite Ha in S1, S2, S4.
  cbn [b2z active] in *. rewrite Z.add_0_r in *. injection E as <- <-. split; [done|]. rewrite watch_None, Ef. split.
  { split; [intros _; right; auto|done]. }
  split; [done|]. intros _. rewrite Hf in S4. split; [exact (S4 eq_refl eq_refl)|].
  intros fd' Hne. by apply S2.
Qed.

(** C26. An epoll instance is a map from at most 32 descriptors to what is watched
    on them: adding needs a new descriptor and room, changing and removing need a
    present one, a refused call changes nothing and an accepted one changes only its
    descriptor; and waiting reports, in the order of the table, the items whose
    descriptor is ready. *)
Theorem epoll_is_map {W} `{FdEnv W} e op fd events data e' rc :
  epoll_wf e -> epoll_ctl e op fd events data = (e', rc) ->
  epoll_wf e' /\
  (rc = 0 <-> (op = EPOLL_CTL_ADD /\ watch e fd = None /\ ep_count e < MAX_EPOLL_ITEMS) \/
              ((op = EPOLL_CTL_MOD \/ op = EPOLL_CTL_DEL) /\ watch e fd <> None)) /\
  (rc <> 0 -> rc = -1 /\ e' = e) /\
  (rc = 0 -> watch e' fd = (if op =? EPOLL_CTL_DEL then None else Some (events, data)) /\
     forall fd', fd' <> fd -> watch e' fd' = watch e fd') /\
  forall t (w : W) pid limit, scan_ready (items e') limit t w pid = take limit (omap (ready_item t w pid) (items e')).
Proof.
  intros Hw E. enough (G : ctl_outcome e op fd events data e' rc).
  { destruct G as (G1 & G2 & G3 & G4). split_and!; auto. intros. apply scan_ready_spec. }
  destruct (Z.eqb_spec op EPOLL_CTL_ADD) as [->|H1]; [by apply ctl_add|].
  destruct (Z.eqb_spec op EPOLL_CTL_MOD) as [->|H2]; [by apply ctl_mod|].
  destruct (Z.eqb_spec op EPOLL_CTL_DEL) as [->|H3]; [by apply ctl_del|].
  apply Z.eqb_neq in H1 as E1. apply Z.eqb_neq in H2 as E2. apply Z.eqb_neq in H3 as E3.
  unfold epoll_ctl in E. rewrite E1, E2, E3 in E. injection E as <- <-. apply ctl_refused; tauto.
Qed.

(** An instance nobody uses yet. *)
Definition demo_epoll : epoll_instance := Epoll 1 true 0 (replicate 32 no_item) 0.

Lemma epoll_is_map_witness :
  epoll_wf demo_epoll /\ exists e', epoll_ctl demo_epoll EPOLL_CTL_ADD 5 EPOLLIN 77 = (e', 0) /\
    watch e' 5 = Some (EPOLLIN, 77).
Proof.
  assert (Hw : epoll_wf demo_epoll).
  { constructor; [reflexivity..|]. intros j k _ _ Hj. unfold item_at, demo_epoll in Hj. cbn [items] in Hj.
    by rewrite at_z_replicate in Hj. }
  split; [exact Hw|]. destruct (epoll_ctl demo_epoll EPOLL_CTL_ADD 5 EPOLLIN 77) as [e' rc] eqn:E.
  assert (Hrc : rc = 0) by (apply (f_equal snd) in E; vm_compute in E; by subst). subst rc.
  destruct (epoll_is_map (W := demo_world) demo_epoll EPOLL_CTL_ADD 5 EPOLLIN 77 e' 0 Hw E) as (_ & _ & _ & H & _).
  exists e'. split; [reflexivity|]. exact (proj1 (H eq_refl)).
Defined.

(** When no descriptor can be made for it, a new epoll instance stays in use: nobody
    can ever close it. *)
Theorem epoll_create_leaks t g pid t' g' rc i :
  length g = Z.to_nat MAX_EPOLLS ->
  find_z (fun i => negb (ep_in_use (epoll_at g i)) && (ep_refcount (epoll_at g i) =? 0)) 0 (Z.to_nat MAX_EPOLLS) = Some i ->
  snd (fd_create_custom t pid FD_KIND_EPOLL (ptr_of i) 0) = -1 ->
  unix_epoll_create t g pid = (t', g', rc) ->
  rc = -1 /\ ep_in_use (epoll_at g' i) = true /\ ep_refcount (epoll_at g' i) = 1.
Proof.
  intros Hl Hf Hc. unfold unix_epoll_create. rewrite Hf. apply find_z_Some in Hf as (Hb & _).
  destruct (fd_create_custom _ _ _ _ _) as [t1 fd]. cbn [snd] in Hc. intros [= <- <- <-].
  unfold epoll_at, set_epoll. rewrite at_z_insert by (rewrite ?Hl; unfold MAX_EPOLLS in *; lia).
  by rewrite Z.eqb_refl.
Qed.
