(* ===== verification/Evdev.v ===== *)
(** Input devices for user programs: [kernel/evdev.c] and [kernel/evdev.h].

    An open keyboard or mouse is an instance with a ring of events; its address is its
    index plus one, 0 the null pointer.  Descriptors are those of [Fd], user memory is
    [UserMem], and every event asks the clock [EventClock] for its time. *)
From S2P Require Import Prelude Ring Fd UnixSock.

Definition EVDEV_RING_SIZE : Z := 128.
Definition MAX_EVDEV_INSTANCES : Z := 16.
Definition EVDEV_DEV_KBD : Z := 0.
Definition EVDEV_DEV_MOUSE : Z := 1.
Definition EV_SYN : Z := 0.
Definition EV_KEY : Z := 1.
Definition EV_REL : Z := 2.
Definition SYN_REPORT : Z := 0.
Definition REL_X : Z := 0.
Definition REL_Y : Z := 1.
Definition REL_WHEEL : Z := 8.
Definition BTN_LEFT : Z := 0x110.
Definition BTN_RIGHT : Z := 0x111.
Definition BTN_MIDDLE : Z := 0x112.
Definition EVIOCGVERSION : Z := 0x80044501.
Definition EVIOCGID : Z := 0x80084502.

Record input_event := InputEvent { tv_sec : Z; tv_usec : Z; ev_type : Z; ev_code : Z; ev_value : Z }.

(** The layout of [struct linux_input_event]. *)
Definition EVENT_SIZE : Z := 24.
Definition event_bytes (e : input_event) : list Z :=
  le_put 8 (u64 (tv_sec e)) ++ le_put 8 (u64 (tv_usec e)) ++ le_put 2 (u16 (ev_type e)) ++ le_put 2 (u16 (ev_code e)) ++ le_put 4 (u32 (ev_value e)).

Record instance := Instance { in_use : bool; dev_id : Z; i_pid : Z; queue : list input_event; i_head : Z; i_tail : Z }.

Record evdev := Evdev { g_instances : list instance; last_x : Z; last_y : Z; last_left : Z; last_right : Z }.

(** [timer_millis] at each call. *)
Class EventClock (W : Type) := { timer_millis : W -> W * Z }.

Definition no_event : input_event := InputEvent 0 0 0 0 0.
Definition no_instance : instance := Instance false 0 0 (replicate (Z.to_nat EVDEV_RING_SIZE) no_event) 0 0.
Definition evdev_bss : evdev := Evdev (replicate (Z.to_nat MAX_EVDEV_INSTANCES) no_instance) (-1) (-1) 0 0.

Definition inst (l : list instance) (i : Z) : instance := at_z no_instance l i.
Definition set_inst (l : list instance) (i : Z) (x : instance) : list instance := <[Z.to_nat i := x]> l.
Definition with_instances (s : evdev) (l : list instance) : evdev := Evdev l (last_x s) (last_y s) (last_left s) (last_right s).

Definition init_instance (x : instance) : instance := Instance false (dev_id x) (i_pid x) (queue x) 0 0.
Definition evdev_init (s : evdev) : evdev := with_instances s (map init_instance (g_instances s)).

Section Evdev.
Context {W : Type} `{EC : EventClock W}.

(** ** Events from the drivers *)

Definition evdev_push_event (w : W) (x : instance) (type code val : Z) : W * instance :=
  let next := (i_head x + 1) mod EVDEV_RING_SIZE in
  let tail := if next =? i_tail x then (i_tail x + 1) mod EVDEV_RING_SIZE else i_tail x in
  let '(w, ms) := timer_millis w in
  let ev := InputEvent (i64 (ms / 1000)) (i64 (ms mod 1000 * 1000)) type code val in
  (w, Instance (in_use x) (dev_id x) (i_pid x) (<[Z.to_nat (i_head x) := ev]> (queue x)) next tail).

(** A sequence of events for one instance. *)
Fixpoint push_events (w : W) (x : instance) (evs : list (Z * Z * Z)) : W * instance :=
  match evs with
  | [] => (w, x)
  | (type, code, val) :: evs => let '(w, x) := evdev_push_event w x type code val in push_events w x evs
  end.

(** The events go to every instance of the device. *)
Fixpoint feed_all (w : W) (dev : Z) (evs : list (Z * Z * Z)) (l : list instance) : W * list instance :=
  match l with
  | [] => (w, [])
  | x :: l =>
      let '(w, x) := if in_use x && (dev_id x =? dev) then push_events w x evs else (w, x) in
      let '(w, l) := feed_all w dev evs l in (w, x :: l)
  end.

Definition linux_code (scancode : Z) (extended : bool) : Z :=
  let sc := Z.land scancode 0x7F in
  if extended then
    if sc =? 0x48 then 103 else if sc =? 0x4B then 105 else if sc =? 0x4D then 106 else if sc =? 0x50 then 108
    else if sc =? 0x1D then 97 else if sc =? 0x38 then 100 else if sc =? 0x47 then 102 else if sc =? 0x4F then 107
    else if sc =? 0x49 then 104 else if sc =? 0x51 then 109 else if sc =? 0x52 then 110 else if sc =? 0x53 then 111
    else sc
  else sc.

Definition key_events (code : Z) (pressed : bool) : list (Z * Z * Z) := [(EV_KEY, code, b2z pressed); (EV_SYN, SYN_REPORT, 0)].

Definition evdev_feed_key (w : W) (s : evdev) (scancode : Z) (pressed extended : bool) : W * evdev :=
  let code := linux_code scancode extended in
  if code =? 0 then (w, s)
  else let '(w, l) := feed_all w EVDEV_DEV_KBD (key_events code pressed) (g_instances s) in (w, with_instances s l).

Definition mouse_events (dx dy left right : Z) (left_changed right_changed : bool) : list (Z * Z * Z) :=
  (if dx =? 0 then [] else [(EV_REL, REL_X, dx)]) ++ (if dy =? 0 then [] else [(EV_REL, REL_Y, dy)]) ++
  (if left_changed then [(EV_KEY, BTN_LEFT, b2z (negb (left =? 0)))] else []) ++
  (if right_changed then [(EV_KEY, BTN_RIGHT, b2z (negb (right =? 0)))] else []) ++ [(EV_SYN, SYN_REPORT, 0)].

Definition evdev_feed_mouse (w : W) (s : evdev) (x y left right : Z) : W * evdev :=
  if last_x s <? 0 then (w, Evdev (g_instances s) x y left right)
  else
    let dx := i32 (x - last_x s) in
    let dy := i32 (y - last_y s) in
    let left_changed := negb (left =? last_left s) in
    let right_changed := negb (right =? last_right s) in
    if (dx =? 0) && (dy =? 0) && negb left_changed && negb right_changed then (w, s)
    else
      let '(w, l) := feed_all w EVDEV_DEV_MOUSE (mouse_events dx dy left right left_changed right_changed) (g_instances s) in
      (w, Evdev l x y left right).
End Evdev.

(** ** Calls through descriptors *)

Definition open_instance (dev pid : Z) (x : instance) : instance := Instance true dev pid (queue x) 0 0.

(** [mouse] is the position the mouse driver keeps. *)
Definition evdev_open (s : evdev) (t : fds) (dev pid : Z) (mouse : Z * Z) : evdev * fds * Z :=
  match find_z (fun i => negb (in_use (inst (g_instances s) i))) 0 (Z.to_nat MAX_EVDEV_INSTANCES) with
  | None => (s, t, -1)
  | Some i =>
      let l := set_inst (g_instances s) i (open_instance dev pid (inst (g_instances s) i)) in
      let s := if dev =? EVDEV_DEV_MOUSE then Evdev l (fst mouse) (snd mouse) (last_left s) (last_right s) else with_instances s l in
      let '(t, fd) := fd_create_custom t pid FD_KIND_EVDEV (i + 1) FD_OPEN_READ in
      (s, t, fd)
  end.

(** At most [n] events, oldest first. *)
Fixpoint take_events (n : nat) (x : instance) : list input_event * instance :=
  match n with
  | O => ([], x)
  | S n =>
      if i_head x =? i_tail x then ([], x)
      else
        let ev := at_z no_event (queue x) (i_tail x) in
        let '(evs, x) := take_events n (Instance (in_use x) (dev_id x) (i_pid x) (queue x) (i_head x) ((i_tail x + 1) mod EVDEV_RING_SIZE)) in
        (ev :: evs, x)
  end.

(** The result and the bytes stored in the buffer. *)
Definition evdev_read (s : evdev) (ptr max_bytes : Z) : evdev * Z * list Z :=
  if (ptr =? 0) || (max_bytes <? EVENT_SIZE) then (s, -11, [])
  else
    let x := inst (g_instances s) (ptr - 1) in
    if i_head x =? i_tail x then (s, -11, [])
    else
      let '(evs, x) := take_events (Z.to_nat (max_bytes / EVENT_SIZE)) x in
      (with_instances s (set_inst (g_instances s) (ptr - 1) x), Z.of_nat (length evs) * EVENT_SIZE, flat_map event_bytes evs).

Definition evdev_poll (s : evdev) (ptr events : Z) : Z :=
  if ptr =? 0 then 0
  else
    let x := inst (g_instances s) (ptr - 1) in
    if has events FD_POLL_READ && negb (i_head x =? i_tail x) then FD_POLL_READ else 0.

Definition evdev_release (s : evdev) (ptr : Z) : evdev :=
  if ptr =? 0 then s else with_instances s (set_inst (g_instances s) (ptr - 1) (init_instance (inst (g_instances s) (ptr - 1)))).

(** ** Queries *)

Definition evdev_set_bit (bits : list Z) (bytes bit : Z) : list Z :=
  let byte := bit / 8 in
  if byte <? bytes then <[Z.to_nat byte := u8 (Z.lor (at_z 0 bits byte) (Z.shiftl 1 (bit mod 8)))]> bits else bits.

Definition set_bits (bits : list Z) (bytes : Z) (l : list Z) : list Z := foldl (fun bits b => evdev_set_bit bits bytes b) bits l.

(** The event types, or the codes of a type, a device reports. *)
Definition reported (dev event_type : Z) : list Z :=
  if event_type =? EV_SYN then [EV_SYN; EV_KEY] ++ (if dev =? EVDEV_DEV_MOUSE then [EV_REL] else [])
  else if event_type =? EV_KEY then if dev =? EVDEV_DEV_KBD then seqZ 1 127 else [BTN_LEFT; BTN_RIGHT; BTN_MIDDLE]
  else if (event_type =? EV_REL) && (dev =? EVDEV_DEV_MOUSE) then [REL_X; REL_Y; REL_WHEEL]
  else [].

(** "KeshOS Keyboard" and "KeshOS Mouse" with their final zero. *)
Definition device_name (dev : Z) : list Z :=
  if dev =? EVDEV_DEV_KBD then [75; 101; 115; 104; 79; 83; 32; 75; 101; 121; 98; 111; 97; 114; 100; 0]
  else [75; 101; 115; 104; 79; 83; 32; 77; 111; 117; 115; 101; 0].

Section Ioctl.
Context {M : Type} `{UM : UserMem M}.

Definition copy_to_user (m : M) (arg : Z) (bs : list Z) : M * Z := let '(m, ok) := um_write m arg bs in (m, if ok then 0 else -1).

Definition evdev_ioctl (m : M) (s : evdev) (ptr req arg : Z) : M * Z :=
  if ptr =? 0 then (m, -1)
  else
    let dev := dev_id (inst (g_instances s) (ptr - 1)) in
    let request := u32 req in
    let type := Z.land (Z.shiftr request 8) 0xFF in
    let number := Z.land request 0xFF in
    let size := Z.land (Z.shiftr request 16) 0x3FFF in
    if (request =? EVIOCGVERSION) || (request =? 0x80045501) then
      if arg =? 0 then (m, -1) else copy_to_user m arg (le_put 4 0x010001)
    else if (request =? EVIOCGID) || (request =? 0x80085502) then
      if arg =? 0 then (m, -1) else copy_to_user m arg (le_put 2 3 ++ le_put 2 0x4B53 ++ le_put 2 (u16 (dev + 1)) ++ le_put 2 1)
    else if negb (type =? 0x45) then (m, -1)
    else if number =? 0x06 then
      if (arg =? 0) || (size =? 0) then (m, -1) else copy_to_user m arg (take (Z.to_nat size) (device_name dev))
    else if (0x20 <=? number) && (number <=? 0x3F) then
      if (arg =? 0) || (size =? 0) then (m, -1)
      else
        let bytes := if 128 <? size then 128 else size in
        copy_to_user m arg (set_bits (replicate (Z.to_nat bytes) 0) bytes (reported dev (number - 0x20)))
    else if number =? 0x19 then
      if (arg =? 0) || (size =? 0) then (m, -1)
      else copy_to_user m arg (replicate (Z.to_nat (if 16 <? size then 16 else size)) 0)
    else if (number =? 0x03) || (number =? 0x90) then (m, 0)
    else (m, -1).
End Ioctl.
