(* ===== verification/EvdevSpec.v ===== *)
(** The input devices refine queues that keep the newest events, one for every open
    device, and a device reports every code it sends. *)
From S2P Require Import Prelude Ring Fd UnixSock Evdev.

(** ** Rings of events *)

Definition instance_ok (x : instance) : Prop :=
  length (queue x) = Z.to_nat EVDEV_RING_SIZE /\ 0 <= i_head x < EVDEV_RING_SIZE /\ 0 <= i_tail x < EVDEV_RING_SIZE /\
  (in_use x = false -> i_head x = i_tail x).

(** The queue, oldest event first. *)
Definition pending (x : instance) : list input_event := gap no_event EVDEV_RING_SIZE (queue x) (i_head x) (i_tail x).

Section Spec.
Context {W : Type} `{EC : EventClock W}.

(** Events with the time of the call that stores them. *)
Fixpoint stamp (w : W) (evs : list (Z * Z * Z)) : W * list input_event :=
  match evs with
  | [] => (w, [])
  | (type, code, val) :: evs =>
      let '(w, ms) := timer_millis w in
      let '(w, es) := stamp w evs in
      (w, InputEvent (i64 (ms / 1000)) (i64 (ms mod 1000 * 1000)) type code val :: es)
  end.

(** What an open device holds at most. *)
Definition KEPT : nat := 127.

Lemma push_event_pending (w : W) x type code val : instance_ok x -> in_use x = true ->
  exists w' e, evdev_push_event w x type code val = (w', Instance true (dev_id x) (i_pid x) (<[Z.to_nat (i_head x) := e]> (queue x))
      ((i_head x + 1) mod EVDEV_RING_SIZE) (if (i_head x + 1) mod EVDEV_RING_SIZE =? i_tail x then (i_tail x + 1) mod EVDEV_RING_SIZE else i_tail x)) /\
    stamp w [(type, code, val)] = (w', [e]) /\ instance_ok (snd (evdev_push_event w x type code val)) /\
    pending (snd (evdev_push_event w x type code val)) = latest KEPT (pending x ++ [e]).
Proof.
  intros (Hl & Hhr & Htr & _) Hu. unfold evdev_push_event, stamp. cbv zeta. destruct (timer_millis w) as [w' ms]. rewrite Hu. set (e := InputEvent _ _ _ _ _).
  exists w', e. split; [done|]. split; [done|]. cbn [snd]. split; [|apply (gap_push no_event EVDEV_RING_SIZE); [done|by rewrite Hl|done|done]].
  assert (Hb : forall z, 0 <= z mod EVDEV_RING_SIZE < EVDEV_RING_SIZE) by (intros; by apply Z.mod_pos_bound).
  split; [cbn; by rewrite length_insert|]. cbn. split; [apply Hb|]. split; [split_if E; auto|done].
Qed.

Lemma push_events_pending evs : forall (w : W) x, instance_ok x -> in_use x = true ->
  exists x', push_events w x evs = (fst (stamp w evs), x') /\ instance_ok x' /\ in_use x' = true /\ dev_id x' = dev_id x /\
    pending x' = latest KEPT (pending x ++ snd (stamp w evs)).
Proof.
  induction evs as [|[[type code] val] evs IH]; intros w x Hok Hu; cbn [push_events].
  { exists x. split_and!; try done. cbn [stamp snd]. rewrite app_nil_r, latest_all; [done|]. 
    pose proof (length_gap no_event EVDEV_RING_SIZE eq_refl (queue x) (i_head x) (i_tail x)).
    pose proof (between_range EVDEV_RING_SIZE eq_refl (i_head x) (i_tail x)). unfold pending, KEPT, EVDEV_RING_SIZE in *. lia. }
  destruct (push_event_pending w x type code val Hok Hu) as (w1 & e & E & Hs & Ho & Hp). rewrite E in *. cbn [snd] in Ho, Hp.
  edestruct (IH w1) as (x' & -> & Ho' & Hu' & Hd & Hp'); [exact Ho|done|]. cbn [stamp] in Hs |- *. destruct (timer_millis w) as [w2 ms]. injection Hs as <- <-.
  destruct (stamp w2 evs) as [w3 es]. cbn [fst snd] in *. exists x'. split_and!; try done.
  rewrite Hp', Hp, latest_latest, <-app_assoc. done.
Qed.

(** ** The specification: a slot for every device that is open, with its newest events *)

Abbreviation slot := (option (Z * list input_event)).
Record devices := Devices { slots : list slot; at_x : Z; at_y : Z; at_left : Z; at_right : Z }.

Fixpoint spec_feed (w : W) (dev : Z) (evs : list (Z * Z * Z)) (l : list slot) : W * list slot :=
  match l with
  | [] => (w, [])
  | Some (d, q) :: l =>
      if d =? dev then
        let '(w, es) := stamp w evs in
        let '(w, l) := spec_feed w dev evs l in (w, Some (d, latest KEPT (q ++ es)) :: l)
      else let '(w, l) := spec_feed w dev evs l in (w, Some (d, q) :: l)
  | None :: l => let '(w, l) := spec_feed w dev evs l in (w, None :: l)
  end.

Inductive op :=
| Key (scancode : Z) (pressed extended : bool)
| Mouse (x y lb rb : Z)
| Open (t : fds) (dev pid : Z) (mouse : Z * Z)
| Read (ptr max_bytes : Z)
| Poll (ptr events : Z)
| Release (ptr : Z).

Definition set_slots (a : devices) (l : list slot) : devices := Devices l (at_x a) (at_y a) (at_left a) (at_right a).
Definition slot_of (a : devices) (ptr : Z) : slot := at_z None (slots a) (ptr - 1).

(** State, result and bytes read. *)
Definition spec_step (w : W) (a : devices) (o : op) : W * devices * Z * list Z :=
  match o with
  | Key sc pressed extended =>
      let code := linux_code sc extended in
      if code =? 0 then (w, a, 0, [])
      else let '(w, l) := spec_feed w EVDEV_DEV_KBD (key_events code pressed) (slots a) in (w, set_slots a l, 0, [])
  | Mouse x y lb rb =>
      if at_x a <? 0 then (w, Devices (slots a) x y lb rb, 0, [])
      else
        let dx := i32 (x - at_x a) in
        let dy := i32 (y - at_y a) in
        let lc := negb (lb =? at_left a) in
        let rc := negb (rb =? at_right a) in
        if (dx =? 0) && (dy =? 0) && negb lc && negb rc then (w, a, 0, [])
        else let '(w, l) := spec_feed w EVDEV_DEV_MOUSE (mouse_events dx dy lb rb lc rc) (slots a) in (w, Devices l x y lb rb, 0, [])
  | Open t dev pid mouse =>
      match list_find (fun x => x = None) (slots a) with
      | None => (w, a, -1, [])
      | Some (i, _) =>
          let l := <[i := Some (dev, [])]> (slots a) in
          let a := if dev =? EVDEV_DEV_MOUSE then Devices l (fst mouse) (snd mouse) (at_left a) (at_right a) else set_slots a l in
          (w, a, snd (fd_create_custom t pid FD_KIND_EVDEV (Z.of_nat i + 1) FD_OPEN_READ), [])
      end
  | Read ptr max_bytes =>
      match slot_of a ptr with
      | Some (d, (_ :: _) as q) =>
          if max_bytes <? EVENT_SIZE then (w, a, -11, [])
          else
            let n := Z.to_nat (max_bytes / EVENT_SIZE) in
            let bs := flat_map event_bytes (take n q) in
            (w, set_slots a (<[Z.to_nat (ptr - 1) := Some (d, drop n q)]> (slots a)), Z.of_nat (length (take n q)) * EVENT_SIZE, bs)
      | _ => (w, a, -11, [])
      end
  | Poll ptr events =>
      match slot_of a ptr with
      | Some (_, _ :: _) => (w, a, if has events FD_POLL_READ then FD_POLL_READ else 0, [])
      | _ => (w, a, 0, [])
      end
  | Release ptr => (w, set_slots a (<[Z.to_nat (ptr - 1) := None]> (slots a)), 0, [])
  end.

(** The calls of the program. *)
Definition step (w : W) (s : evdev) (o : op) : W * evdev * Z * list Z :=
  match o with
  | Key sc pressed extended => let '(w, s) := evdev_feed_key w s sc pressed extended in (w, s, 0, [])
  | Mouse x y lb rb => let '(w, s) := evdev_feed_mouse w s x y lb rb in (w, s, 0, [])
  | Open t dev pid mouse => let '(s, _, fd) := evdev_open s t dev pid mouse in (w, s, fd, [])
  | Read ptr max_bytes => let '(s, rc, bs) := evdev_read s ptr max_bytes in (w, s, rc, bs)
  | Poll ptr events => (w, s, evdev_poll s ptr events, [])
  | Release ptr => (w, evdev_release s ptr, 0, [])
  end.

(** Pointers are those a descriptor holds. *)
Definition op_ok (o : op) : Prop :=
  match o with Read ptr _ | Poll ptr _ | Release ptr => 1 <= ptr <= MAX_EVDEV_INSTANCES | _ => True end.

Fixpoint run {S} (f : W -> S -> op -> W * S * Z * list Z) (w : W) (s : S) (ops : list op) : W * S * list (Z * list Z) :=
  match ops with
  | [] => (w, s, [])
  | o :: ops => let '(w, s, rc, bs) := f w s o in let '(w, s, out) := run f w s ops in (w, s, (rc, bs) :: out)
  end.

Definition view (x : instance) : slot := if in_use x then Some (dev_id x, pending x) else None.
Definition abs (s : evdev) : devices := Devices (map view (g_instances s)) (last_x s) (last_y s) (last_left s) (last_right s).

Definition evdev_ok (s : evdev) : Prop := length (g_instances s) = Z.to_nat MAX_EVDEV_INSTANCES /\ Forall instance_ok (g_instances s).

(** ** Refinement *)

Lemma view_used x : in_use x = true -> view x = Some (dev_id x, pending x).
Proof. intros H. unfold view. by rewrite H. Qed.

Lemma feed_all_refines dev evs l : forall w, Forall instance_ok l ->
  let '(w', l') := feed_all w dev evs l in spec_feed w dev evs (map view l) = (w', map view l') /\ Forall instance_ok l' /\ length l' = length l.
Proof.
  induction l as [|x l IH]; intros w Hf; cbn [feed_all map spec_feed]; [done|]. apply Forall_cons in Hf as [Hx Hl]. unfold view at 1.
  destruct (in_use x) eqn:Hu; cbn [andb].
  - destruct (dev_id x =? dev) eqn:Ed.
    + destruct (push_events_pending evs w x Hx Hu) as (x' & -> & Ho & Hu' & Hd & Hp). destruct (stamp w evs) as [w1 es]. cbn [fst snd] in *.
      specialize (IH w1 Hl). destruct (feed_all w1 dev evs l) as [w2 l2]. destruct IH as (-> & Ho2 & Hl2). split_and!; [|by constructor|cbn; congruence].
      cbn [map]. by rewrite (view_used x' Hu'), Hp, Hd.
    + specialize (IH w Hl). destruct (feed_all w dev evs l) as [w2 l2]. destruct IH as (-> & Ho2 & Hl2). split_and!; [|by constructor|cbn; congruence].
      cbn [map]. by rewrite (view_used x Hu).
  - specialize (IH w Hl). destruct (feed_all w dev evs l) as [w2 l2]. destruct IH as (-> & Ho2 & Hl2). split_and!; [|by constructor|cbn; congruence].
    cbn [map]. unfold view at 2. by rewrite Hu.
Qed.

Lemma take_events_spec n : forall x, instance_ok x ->
  exists x', take_events n x = (take n (pending x), x') /\ instance_ok x' /\ in_use x' = in_use x /\ dev_id x' = dev_id x /\ pending x' = drop n (pending x).
Proof.
  induction n as [|n IH]; intros x Hok; cbn [take_events]; [by exists x; rewrite drop_0|]. destruct Hok as (Hl & Hh & Ht & Hi).
  destruct (Z.eqb_spec (i_head x) (i_tail x)) as [E|E].
  { exists x. unfold pending, gap, between. rewrite E, Z.sub_diag. done. }
  set (x1 := Instance _ _ _ _ _ _). assert (Hu : in_use x = true) by (destruct (in_use x); [done|]; by destruct (E (Hi eq_refl))).
  assert (Hok1 : instance_ok x1) by (split; [done|split; [done|split; [by apply Z.mod_pos_bound|cbn; congruence]]]).
  assert (Hp : pending x = at_z no_event (queue x) (i_tail x) :: pending x1) by by apply gap_pop.
  destruct (IH x1 Hok1) as (x' & -> & Ho & Hu' & Hd & Hp'). exists x'. rewrite Hp. cbn [take drop]. done.
Qed.

Lemma set_inst_ok s i x : evdev_ok s -> instance_ok x -> evdev_ok (with_instances s (set_inst (g_instances s) i x)).
Proof.
  intros [Hl Hf] Hx. split; [cbn; unfold set_inst; by rewrite length_insert|]. cbn. unfold set_inst.
  apply Forall_insert; [done|done].
Qed.

Lemma set_inst_view l i x : map view (set_inst l i x) = <[Z.to_nat i := view x]> (map view l).
Proof. unfold set_inst. apply list_fmap_insert. Qed.

Lemma view_at s i : view (inst (g_instances s) i) = at_z None (map view (g_instances s)) i.
Proof. unfold inst, at_z. by rewrite <-(map_nth view). Qed.

Lemma inst_ok_at s i : evdev_ok s -> instance_ok (inst (g_instances s) i).
Proof.
  intros [_ Hf]. unfold inst, at_z. destruct (nth_in_or_default (Z.to_nat i) (g_instances s) no_instance) as [Hin| ->].
  - rewrite Forall_forall in Hf. by apply Hf, list_elem_of_In.
  - split; [apply length_replicate|]. done.
Qed.

Lemma reset_ok x : instance_ok x -> instance_ok (init_instance x).
Proof. intros (Hl & _). split; [done|]. done. Qed.

Lemma slot_at s ptr : slot_of (abs s) ptr = view (inst (g_instances s) (ptr - 1)).
Proof. by rewrite view_at. Qed.

(** The first free instance is the first empty slot. *)
Lemma free_slot s : evdev_ok s ->
  match find_z (fun i => negb (in_use (inst (g_instances s) i))) 0 (Z.to_nat MAX_EVDEV_INSTANCES) with
  | Some i => exists x, 0 <= i < MAX_EVDEV_INSTANCES /\ list_find (fun x => x = None) (map view (g_instances s)) = Some (Z.to_nat i, x)
  | None => list_find (fun x => x = None) (map view (g_instances s)) = None
  end.
Proof.
  intros [Hl Hf]. assert (Hv : forall k, (k < Z.to_nat MAX_EVDEV_INSTANCES)%nat -> map view (g_instances s) !! k = Some (view (inst (g_instances s) (Z.of_nat k)))).
  { intros k Hk. change (map view ?l) with (view <$> l). rewrite list_lookup_fmap. unfold inst. rewrite <-(Nat2Z.id k) at 1. rewrite (at_z_lookup no_instance) by lia. done. }
  assert (Hn : forall x, view x = None <-> in_use x = false) by (intros x; unfold view; destruct (in_use x); naive_solver).
  destruct (find_z _ _ _) as [i|] eqn:E.
  - apply find_z_Some in E as (Hi & Hu & Hlow). rewrite negb_true_iff in Hu. exists None. split; [unfold MAX_EVDEV_INSTANCES in *; lia|].
    apply list_find_Some. split; [rewrite Hv by lia; rewrite Z2Nat.id by lia; f_equal; by apply Hn|]. split; [done|].
    intros j y Hy Hj. rewrite Hv in Hy by lia. injection Hy as <-. rewrite Hn. specialize (Hlow (Z.of_nat j) ltac:(lia)). rewrite negb_false_iff in Hlow. congruence.
  - apply list_find_None. pose proof (find_z_None _ _ _ E) as Hlow. apply Forall_lookup. intros k y Hy. assert (Hk : (k < Z.to_nat MAX_EVDEV_INSTANCES)%nat).
    { apply lookup_lt_Some in Hy. rewrite length_map in Hy. lia. }
    rewrite Hv in Hy by done. injection Hy as <-. rewrite Hn. specialize (Hlow (Z.of_nat k) ltac:(unfold MAX_EVDEV_INSTANCES in *; lia)). rewrite negb_false_iff in Hlow. congruence.
Qed.

Lemma step_feed (w : W) s dev evs : evdev_ok s -> exists w' l',
  feed_all w dev evs (g_instances s) = (w', l') /\ spec_feed w dev evs (map view (g_instances s)) = (w', map view l') /\
  length l' = Z.to_nat MAX_EVDEV_INSTANCES /\ Forall instance_ok l'.
Proof.
  intros [Hl Hf]. pose proof (feed_all_refines dev evs (g_instances s) w Hf) as H. destruct (feed_all w dev evs (g_instances s)) as [w' l'].
  destruct H as (A & B & C). exists w', l'. split_and!; try done. congruence.
Qed.

(** One call: same result, and the states still correspond. *)
Definition corresponds (r : W * evdev * Z * list Z) (q : W * devices * Z * list Z) : Prop :=
  let '(w, s, rc, bs) := r in q = (w, abs s, rc, bs) /\ evdev_ok s.

Lemma key_refines w s sc pressed extended : evdev_ok s -> corresponds (step w s (Key sc pressed extended)) (spec_step w (abs s) (Key sc pressed extended)).
Proof.
  intros Hok. cbn [step spec_step]. unfold evdev_feed_key. cbv zeta. destruct (linux_code sc extended =? 0); [by split|].
  destruct (step_feed w s EVDEV_DEV_KBD (key_events (linux_code sc extended) pressed) Hok) as (w' & l' & -> & E & Hl & Hf). cbn [slots abs]. rewrite E. by split.
Qed.

Lemma mouse_refines w s x y lb rb : evdev_ok s -> corresponds (step w s (Mouse x y lb rb)) (spec_step w (abs s) (Mouse x y lb rb)).
Proof.
  intros Hok. cbn [step spec_step]. unfold evdev_feed_mouse. cbn [abs at_x at_y at_left at_right slots]. destruct (last_x s <? 0); [by split|]. cbv zeta.
  destruct (_ && _); [by split|].
  destruct (step_feed w s EVDEV_DEV_MOUSE (mouse_events (i32 (x - last_x s)) (i32 (y - last_y s)) lb rb (negb (lb =? last_left s)) (negb (rb =? last_right s))) Hok)
    as (w' & l' & -> & E & Hl & Hf). rewrite E. by split.
Qed.

Lemma open_refines w s t dev pid mouse : evdev_ok s -> corresponds (step w s (Open t dev pid mouse)) (spec_step w (abs s) (Open t dev pid mouse)).
Proof.
  intros Hok. cbn [step spec_step]. unfold evdev_open. pose proof (free_slot s Hok) as Hfree. cbn [slots abs].
  destruct (find_z _ _ _) as [i|]; [|rewrite Hfree; by split]. destruct Hfree as (x & Hi & ->). cbv zeta. rewrite Z2Nat.id by lia.
  destruct (fd_create_custom t pid FD_KIND_EVDEV (i + 1) FD_OPEN_READ) as [t' fd]. cbn [snd].
  assert (Ho : instance_ok (open_instance dev pid (inst (g_instances s) i))).
  { destruct (inst_ok_at s i Hok) as (Hl & _). split; [done|]. done. }
  pose proof (set_inst_ok s i _ Hok Ho) as Hs. pose proof (set_inst_view (g_instances s) i (open_instance dev pid (inst (g_instances s) i))) as Hv.
  rewrite (view_used (open_instance _ _ _)) in Hv by done. change (pending (open_instance _ _ _)) with (@nil input_event) in Hv. cbn [dev_id open_instance] in Hv.
  unfold abs in *. destruct (dev =? EVDEV_DEV_MOUSE); (split; [|exact Hs]); by rewrite <-Hv.
Qed.

Lemma waiting_pending x : instance_ok x -> (i_head x =? i_tail x) = match pending x with [] => true | _ => false end.
Proof.
  intros (_ & Hh & Ht & _). pose proof (length_gap no_event EVDEV_RING_SIZE eq_refl (queue x) (i_head x) (i_tail x)) as Hl. fold (pending x) in Hl.
  rewrite (gap_empty EVDEV_RING_SIZE eq_refl) by done. destruct (pending x); cbn in Hl; destruct (Z.eqb_spec (between EVDEV_RING_SIZE (i_head x) (i_tail x)) 0); try done; lia.
Qed.

Lemma unused_empty x : instance_ok x -> in_use x = false -> (i_head x =? i_tail x) = true.
Proof. intros (_ & _ & _ & H) Hu. apply Z.eqb_eq. by apply H. Qed.

Lemma read_refines w s ptr n : evdev_ok s -> 1 <= ptr <= MAX_EVDEV_INSTANCES -> corresponds (step w s (Read ptr n)) (spec_step w (abs s) (Read ptr n)).
Proof.
  intros Hok Hp. cbn [step spec_step]. unfold evdev_read. rewrite slot_at, (proj2 (Z.eqb_neq ptr 0)) by lia. cbn [orb].
  set (x := inst (g_instances s) (ptr - 1)). pose proof (inst_ok_at s (ptr - 1) Hok) as Hx. fold x in Hx. cbv zeta. unfold view.
  destruct (in_use x) eqn:Hu; [|rewrite (unused_empty x Hx Hu); by destruct (n <? EVENT_SIZE)].
  rewrite (waiting_pending x Hx). destruct (pending x) as [|e q] eqn:Eq; [by destruct (n <? EVENT_SIZE)|]. destruct (n <? EVENT_SIZE); [by split|].
  destruct (take_events_spec (Z.to_nat (n / EVENT_SIZE)) x Hx) as (x' & -> & Ho & Hu' & Hd & Hpn). rewrite Eq in *.
  split; [|by apply set_inst_ok]. unfold abs. cbn [slots with_instances g_instances last_x last_y last_left last_right].
  rewrite set_inst_view, (view_used x') by congruence. by rewrite Hd, Hpn.
Qed.

Lemma step_refines w s o : evdev_ok s -> op_ok o -> corresponds (step w s o) (spec_step w (abs s) o).
Proof.
  intros Hok Ho. destruct o as [sc pressed extended|x y lb rb|t dev pid mouse|ptr n|ptr events|ptr]; cbn [op_ok] in Ho.
  - by apply key_refines.
  - by apply mouse_refines.
  - by apply open_refines.
  - by apply read_refines.
  - cbn [step spec_step]. unfold evdev_poll. rewrite slot_at, (proj2 (Z.eqb_neq ptr 0)) by lia. set (x := inst (g_instances s) (ptr - 1)).
    pose proof (inst_ok_at s (ptr - 1) Hok) as Hx. fold x in Hx. cbv zeta. unfold view. destruct (in_use x) eqn:Hu.
    + rewrite (waiting_pending x Hx). destruct (pending x); [rewrite andb_false_r; by split|]. rewrite andb_true_r. by split.
    + rewrite (unused_empty x Hx Hu), andb_false_r. by split.
  - cbn [step spec_step]. unfold evdev_release. rewrite (proj2 (Z.eqb_neq ptr 0)) by lia. split; [|apply set_inst_ok, reset_ok, inst_ok_at; done].
    unfold abs. cbn [slots with_instances g_instances last_x last_y last_left last_right]. by rewrite set_inst_view.
Qed.

(** C36. Keyboards and mice refine queues: in every sequence of events from the drivers,
    opens, reads, polls and releases, every call gives the result and the bytes of the
    specification, in which each open device keeps the newest 127 events meant for it,
    in order, and a read takes as many whole events as fit. *)
Theorem evdev_refines (w : W) (s : evdev) (ops : list op) :
  evdev_ok s -> Forall op_ok ops ->
  let '(w', s', out) := run step w s ops in run spec_step w (abs s) ops = (w', abs s', out) /\ evdev_ok s'.
Proof.
  intros Hok Ho. revert w s Hok. induction Ho as [|o ops Hoo _ IH]; intros w s Hok; cbn [run]; [done|].
  pose proof (step_refines w s o Hok Hoo) as Hs. destruct (step w s o) as [[[w1 s1] rc] bs]. destruct Hs as [-> Hok1].
  specialize (IH w1 s1 Hok1). destruct (run step w1 s1 ops) as [[w2 s2] out]. destruct IH as [-> Hok2]. done.
Qed.
End Spec.

(** An instance stays taken when its descriptor cannot be created: the failed call leaves
    one device less to open. *)
Theorem evdev_open_leaks (s : evdev) (t : fds) (dev pid : Z) (mouse : Z * Z) :
  evdev_ok s -> in_use (inst (g_instances s) 0) = false -> valid_pid pid = false ->
  let '(s', t', fd) := evdev_open s t dev pid mouse in fd = -1 /\ t' = t /\ in_use (inst (g_instances s') 0) = true.
Proof.
  intros [Hl _] Hu Hp. unfold evdev_open. change (Z.to_nat MAX_EVDEV_INSTANCES) with 16%nat in *. cbn [find_z]. rewrite Hu. cbn [negb].
  unfold fd_create_custom. rewrite Hp. cbn [negb]. split; [done|]. split; [done|].
  destruct (dev =? EVDEV_DEV_MOUSE); cbn [g_instances with_instances]; unfold set_inst, inst; rewrite at_z_insert by lia; done.
Qed.

(** Bit [b] of a mask. *)
Definition bit_of (bits : list Z) (b : Z) : bool := Z.testbit (at_z 0 bits (b / 8)) (b mod 8).

(** Every key a keyboard sends is in the mask of 16 bytes that it reports. *)
Theorem evdev_keys_reported (sc : Z) (extended : bool) :
  0 <= sc < 256 -> linux_code sc extended <> 0 ->
  bit_of (set_bits (replicate 16 0) 16 (reported EVDEV_DEV_KBD EV_KEY)) (linux_code sc extended) = true.
Proof.
  intros Hs Hn. assert (G : forallb (fun sc => forallb (fun ext => (linux_code sc ext =? 0) ||
    bit_of (set_bits (replicate 16 0) 16 (reported EVDEV_DEV_KBD EV_KEY)) (linux_code sc ext)) [true; false]) (seqZ 0 256) = true) by (vm_compute; reflexivity).
  rewrite forallb_forall in G. specialize (G sc). rewrite <-list_elem_of_In, elem_of_seqZ in G. specialize (G ltac:(lia)).
  rewrite forallb_forall in G. specialize (G extended ltac:(destruct extended; cbn; auto)).
  apply orb_true_iff in G as [G%Z.eqb_eq|G]; done.
Qed.

(** ** An example *)

#[export] Instance tick_clock : EventClock Z := { timer_millis w := (w + 1, w) }.

Lemma evdev_bss_ok : evdev_ok evdev_bss.
Proof. split; [apply length_replicate|]. apply Forall_replicate. split; [apply length_replicate|]. done. Qed.

Definition demo_ops : list op := [Open (Fds [] [] []) 0 1 (0, 0); Key 30 true false; Key 0x48 false true; Poll 1 1; Read 1 48; Release 1].

Lemma evdev_refines_witness : exists w' s' out, run step 1500 evdev_bss demo_ops = (w', s', out) /\
  run spec_step 1500 (abs evdev_bss) demo_ops = (w', abs s', out) /\ nth_error out 4 = Some (48,
    event_bytes (InputEvent 1 500000 EV_KEY 30 1) ++ event_bytes (InputEvent 1 501000 EV_SYN 0 0)).
Proof.
  pose proof (evdev_refines 1500 evdev_bss demo_ops evdev_bss_ok ltac:(repeat constructor; done)) as H.
  destruct (run step 1500 evdev_bss demo_ops) as [[w' s'] out] eqn:E. exists w', s', out. destruct H as [H _]. split; [done|]. split; [done|].
  vm_compute in E. injection E as <- <- <-. vm_compute. reflexivity.
Defined.

Lemma evdev_open_leaks_witness : let '(s', t', fd) := evdev_open evdev_bss (Fds [] [] []) 0 (-1) (0, 0) in fd = -1 /\ t' = (Fds [] [] []) /\ in_use (inst (g_instances s') 0) = true.
Proof. by apply (evdev_open_leaks evdev_bss (Fds [] [] []) 0 (-1) (0, 0)); [apply evdev_bss_ok|..]. Defined.
