(* ===== verification/Elf.v ===== *)
(** The program loader: [kernel/elf.c].

    The image is a list of bytes; every read of it is checked, so [None] is an access
    outside the image.  Page tables and frames are those of [Vmm]. *)
From S2P Require Import Prelude Pmm Vmm.

Definition ET_EXEC : Z := 2.
Definition EM_X86_64 : Z := 62.
Definition PT_LOAD : Z := 1.
Definition PT_DYNAMIC : Z := 2.
Definition PT_INTERP : Z := 3.
Definition PT_PHDR : Z := 6.
Definition PF_X : Z := 1.
Definition PF_W : Z := 2.
Definition PF_R : Z := 4.
Definition EHDR_SIZE : Z := 64.
Definition PHDR_SIZE : Z := 56.

(** The fields of [Elf64_Ehdr] and [Elf64_Phdr] the loader uses. *)
Record ehdr := Ehdr {
  e_ident : list Z; e_type : Z; e_machine : Z; e_version : Z; e_entry : Z; e_phoff : Z;
  e_ehsize : Z; e_phentsize : Z; e_phnum : Z
}.
Record phdr := Phdr {
  p_type : Z; p_flags : Z; p_offset : Z; p_vaddr : Z; p_filesz : Z; p_memsz : Z; p_align : Z
}.

(** ** Reading the image *)

Definition read_ehdr (img : list Z) : option ehdr :=
  ident ← slice img 0 16; ty ← rd img 16 2; machine ← rd img 18 2; version ← rd img 20 4;
  ent ← rd img 24 8; phoff ← rd img 32 8; ehsize ← rd img 52 2; phentsize ← rd img 54 2; phnum ← rd img 56 2;
  Some (Ehdr ident ty machine version ent phoff ehsize phentsize phnum).

Definition phdr_offset (eh : ehdr) (i : Z) : Z := u64 (e_phoff eh + u64 (i * e_phentsize eh)).

Definition read_phdr (img : list Z) (eh : ehdr) (i : Z) : option phdr :=
  let off := phdr_offset eh i in
  ty ← rd img off 4; flags ← rd img (off + 4) 4; offset ← rd img (off + 8) 8; vaddr ← rd img (off + 16) 8;
  filesz ← rd img (off + 32) 8; memsz ← rd img (off + 40) 8; align ← rd img (off + 48) 8;
  Some (Phdr ty flags offset vaddr filesz memsz align).

(** ** Checks *)

(** The checks of the file header; 0 when it is acceptable. *)
Definition check_header (eh : ehdr) (size : Z) : Z :=
  if negb (bool_decide (take 8 (e_ident eh) = [0x7f; 69; 76; 70; 2; 1; 1; 0]) &&
           (e_machine eh =? EM_X86_64) && (e_version eh =? 1)) then -2
  else if negb (e_type eh =? ET_EXEC) then -3
  else if negb (e_ehsize eh =? EHDR_SIZE) || negb (e_phentsize eh =? PHDR_SIZE) || (e_phnum eh =? 0) || (128 <? e_phnum eh) then -4
  else if (size <? e_phoff eh) || ((size - e_phoff eh) / e_phentsize eh <? e_phnum eh) then -5
  else 0.

(** The sum and whether it wrapped. *)
Definition add_overflow_u64 (a b : Z) : Z * bool := let s := u64 (a + b) in (s, s <? a).

Definition segment_page_flags (flags : Z) : Z :=
  let f := PTE_USER in
  let f := if has flags PF_W then Z.lor f PTE_WRITABLE else f in
  if has flags PF_X then f else Z.lor f PTE_NO_EXECUTE.

Definition stack_high : Z := 0x70000000.
Definition stack_low : Z := 0x6FFF0000.

Inductive verdict := Skip | Reject (rc : Z) | Accept.

(** The checks of one program header, up to the search for overlaps. *)
Definition check_segment (size : Z) (ph : phdr) : verdict :=
  if (p_type ph =? PT_INTERP) || (p_type ph =? PT_DYNAMIC) then Reject (-7)
  else if negb (p_type ph =? PT_LOAD) then Skip
  else if p_memsz ph <? p_filesz ph then Reject (-7)
  else if has (p_flags ph) (u32 (Z.lnot (Z.lor (Z.lor PF_R PF_W) PF_X))) || negb (has (p_flags ph) PF_R) ||
          (has (p_flags ph) PF_W && has (p_flags ph) PF_X) then Reject (-8)
  else if negb (p_align ph =? 0) &&
          (has (p_align ph) (p_align ph - 1) ||
           negb (Z.land (p_offset ph) (p_align ph - 1) =? Z.land (p_vaddr ph) (p_align ph - 1))) then Reject (-9)
  else
    let '(file_end, fo) := add_overflow_u64 (p_offset ph) (p_filesz ph) in
    let '(mem_end, mo) := add_overflow_u64 (p_vaddr ph) (p_memsz ph) in
    if fo || (size <? file_end) || mo || (p_vaddr ph <? PAGE_SIZE) || (USER_VA_LIMIT <=? p_vaddr ph) ||
       (USER_VA_LIMIT <? mem_end) || ((p_vaddr ph <? stack_high) && (stack_low <? mem_end)) then Reject (-9)
    else if p_memsz ph =? 0 then Skip
    else Accept.

Definition mem_end (ph : phdr) : Z := fst (add_overflow_u64 (p_vaddr ph) (p_memsz ph)).

(** Does an earlier segment, from [prev] on, overlap [ph]? *)
Fixpoint overlaps (img : list Z) (eh : ehdr) (ph : phdr) (prev : Z) (n : nat) : option bool :=
  match n with
  | O => Some false
  | S n =>
      other ← read_phdr img eh prev;
      let '(other_end, o) := add_overflow_u64 (p_vaddr other) (p_memsz other) in
      if (p_type other =? PT_LOAD) && negb (p_memsz other =? 0) && negb o &&
         (p_vaddr ph <? other_end) && (p_vaddr other <? mem_end ph)
      then Some true else overlaps img eh ph (prev + 1) n
  end.

(** ** Loading *)

Section Elf.
Context {A : Type} `{FA : FrameAllocator A}.
Implicit Types st : mm A.

(** The part of a page that comes from the file. *)
Definition fill_page st (img : list Z) (ph : phdr) (va phys : Z) : option (mm A) :=
  let file_data_end := u64 (p_vaddr ph + p_filesz ph) in
  let copy_start := if p_vaddr ph <? va then va else p_vaddr ph in
  let page_next := u64 (va + PAGE_SIZE) in
  let copy_end := if page_next <? file_data_end then page_next else file_data_end in
  if copy_start <? copy_end then
    src ← slice img (u64 (p_offset ph + (copy_start - p_vaddr ph))) (copy_end - copy_start);
    Some (set_mem (write_bytes (mem st) (phys + (copy_start - va)) src) st)
  else Some st.

Definition prot_mask : Z := Z.lor PTE_USER (Z.lor PTE_WRITABLE PTE_NO_EXECUTE).

Definition zero_page st (phys : Z) : mm A := set_mem (write_bytes (mem st) phys (replicate (Z.to_nat PAGE_SIZE) 0)) st.

(** One iteration of the page loop; the result is 0 or an error code. *)
Definition load_page st (root : Z) (img : list Z) (ph : phdr) (va : Z) : option (mm A * Z) :=
  let final_flags := segment_page_flags (p_flags ph) in
  let phys := vmm_get_page_phys st root va in
  if phys =? 0 then
    let '(st, phys) := alloc_page st in
    if phys =? 0 then Some (st, -11)
    else
      let '(st, rc) := vmm_map_page st root va phys final_flags in
      if negb (rc =? 0) then Some (fst (free_page st phys), -11)
      else st ← fill_page (zero_page st phys) img ph va phys; Some (st, 0)
  else if negb (Z.land (vmm_get_page_flags st root va) prot_mask =? Z.land final_flags prot_mask) then Some (st, -12)
  else st ← fill_page st img ph va phys; Some (st, 0).

Fixpoint load_pages st (root : Z) (img : list Z) (ph : phdr) (va : Z) (n : nat) : option (mm A * Z) :=
  match n with
  | O => Some (st, 0)
  | S n =>
      '(st, rc) ← load_page st root img ph va;
      if negb (rc =? 0) then Some (st, rc) else load_pages st root img ph (u64 (va + PAGE_SIZE)) n
  end.

Definition page_down (a : Z) : Z := Z.land a (u64 (Z.lnot (PAGE_SIZE - 1))).

(** One accepted segment. *)
Definition load_segment st (root : Z) (img : list Z) (eh : ehdr) (ph : phdr) (i : Z) : option (mm A * Z) :=
  o ← overlaps img eh ph 0 (Z.to_nat i);
  if (o : bool) then Some (st, -12)
  else
    let vaddr_start := page_down (p_vaddr ph) in
    let vaddr_end := page_down (u64 (mem_end ph + PAGE_SIZE - 1)) in
    if vaddr_end <? mem_end ph then Some (st, -10)
    else load_pages st root img ph vaddr_start (Z.to_nat ((vaddr_end - vaddr_start) / PAGE_SIZE)).

(** The loop over program headers [i .. i + n - 1]: the state, 0 or an error code,
    [load_segments] and [entry_covered]. *)
Fixpoint load_segments st (root : Z) (img : list Z) (eh : ehdr) (i : Z) (n : nat) (loads : Z) (covered : bool)
    : option (mm A * Z * Z * bool) :=
  match n with
  | O => Some (st, 0, loads, covered)
  | S n =>
      ph ← read_phdr img eh i;
      let loads := loads + b2z (p_type ph =? PT_LOAD) in
      match check_segment (Z.of_nat (length img)) ph with
      | Reject rc => Some (st, rc, loads, covered)
      | Skip => load_segments st root img eh (i + 1) n loads covered
      | Accept =>
          let covered := covered || (has (p_flags ph) PF_X && (p_vaddr ph <=? e_entry eh) && (e_entry eh <? mem_end ph)) in
          '(st, rc) ← load_segment st root img eh ph i;
          if negb (rc =? 0) then Some (st, rc, loads, covered)
          else load_segments st root img eh (i + 1) n loads covered
      end
  end.

Fixpoint map_stack st (root va : Z) (n : nat) : mm A * Z :=
  match n with
  | O => (st, 0)
  | S n =>
      let '(st, phys) := alloc_page st in
      if phys =? 0 then (st, -13)
      else
        let '(st, rc) := vmm_map_page st root va phys (Z.lor PTE_USER (Z.lor PTE_WRITABLE PTE_NO_EXECUTE)) in
        if negb (rc =? 0) then (fst (free_page st phys), -13) else map_stack st root (va + PAGE_SIZE) n
  end.

Definition stack_pages : nat := Z.to_nat ((stack_high - stack_low) / PAGE_SIZE).

(** Loading into the fresh address space [root]. *)
Definition load_image st (root : Z) (img : list Z) (eh : ehdr) : option (mm A * Z) :=
  '(st, rc, loads, covered) ← load_segments st root img eh 0 (Z.to_nat (e_phnum eh)) 0 false;
  if negb (rc =? 0) then Some (st, rc)
  else if (loads =? 0) || negb covered then Some (st, -14)
  else
    let entry_flags := vmm_get_page_flags st root (page_down (e_entry eh)) in
    if (USER_VA_LIMIT <=? e_entry eh) || negb (has entry_flags PTE_PRESENT) || negb (has entry_flags PTE_USER) ||
       has entry_flags PTE_NO_EXECUTE then Some (st, -14)
    else Some (map_stack st root stack_low stack_pages).

(** [elf_load]: the state, the result, and on success the address space and the
    entry point. *)
Definition elf_load st (elf_data : option (list Z)) : option (mm A * Z * option (Z * Z)) :=
  match elf_data with
  | None => Some (st, -1, None)
  | Some img =>
      let size := Z.of_nat (length img) in
      if size <? EHDR_SIZE then Some (st, -1, None)
      else
        eh ← read_ehdr img;
        let rc := check_header eh size in
        if negb (rc =? 0) then Some (st, rc, None)
        else
          let '(st, user_pml4) := vmm_create_user_pml4 st in
          if user_pml4 =? 0 then Some (st, -6, None)
          else
            '(st, rc) ← load_image st user_pml4 img eh;
            if negb (rc =? 0) then Some (fst (vmm_destroy_user_pml4 st user_pml4), rc, None)
            else Some (st, 0, Some (user_pml4, e_entry eh))
  end.
End Elf.
