(* ===== verification/ElfSpec.v ===== *)
(** The loader reads only inside the image whatever bytes it is given, and the address
    space it builds holds exactly the segments of the file and a stack, each page with
    its protection. *)
From S2P Require Import Prelude Pmm Vmm VmmTree VmmSpec VmmUser UserSpace Elf.

(** ** Reading *)

(** Field ranges. *)
Record ehdr_wf (eh : ehdr) : Prop := EhdrWf {
  ew_phoff : fits 64 (e_phoff eh); ew_entry : fits 64 (e_entry eh);
  ew_phentsize : fits 16 (e_phentsize eh); ew_phnum : fits 16 (e_phnum eh)
}.
Record phdr_wf (ph : phdr) : Prop := PhdrWf {
  pw_flags : fits 32 (p_flags ph); pw_offset : fits 64 (p_offset ph); pw_vaddr : fits 64 (p_vaddr ph);
  pw_filesz : fits 64 (p_filesz ph); pw_memsz : fits 64 (p_memsz ph); pw_align : fits 64 (p_align ph)
}.

Lemma read_ehdr_some img : image img -> EHDR_SIZE <= Z.of_nat (length img) -> exists eh, read_ehdr img = Some eh /\ ehdr_wf eh.
Proof.
  unfold EHDR_SIZE. intros Hi Hl. unfold read_ehdr. rewrite slice_some by lia. cbn [mbind option_bind].
  do 8 read_field Hi. eexists. split; [done|]. constructor; cbn; unfold fits; done.
Qed.

(** What an accepted header guarantees: the program headers are in the image. *)
Definition header_ok (img : list Z) (eh : ehdr) : Prop :=
  ehdr_wf eh /\ e_phentsize eh = 56 /\ 0 < e_phnum eh <= 128 /\ e_phoff eh + e_phnum eh * 56 <= Z.of_nat (length img).

Lemma check_header_ok img eh : ehdr_wf eh -> check_header eh (Z.of_nat (length img)) = 0 -> header_ok img eh.
Proof.
  intros Hw. unfold check_header. split_if E0; [done|]. split_if E6; [done|].
  split_if E1; [done|]. split_if E2; [done|]. intros _.
  rewrite !orb_false_iff, !negb_false_iff in E1. destruct E1 as [[[_ E1] E3] E4].
  apply Z.eqb_eq in E1. apply Z.eqb_neq in E3. apply Z.ltb_ge in E4. apply orb_false_iff in E2 as [E2 E5].
  apply Z.ltb_ge in E2, E5. unfold PHDR_SIZE in E1. rewrite E1 in E5. pose proof (ew_phnum _ Hw) as Hn. unfold fits in Hn.
  split; [done|]. split; [done|]. split; [lia|]. Z.to_euclidean_division_equations; lia.
Qed.

Lemma phdr_offset_eq img eh i :
  image img -> header_ok img eh -> 0 <= i < e_phnum eh -> phdr_offset eh i = e_phoff eh + i * 56.
Proof.
  intros [_ Hl] (Hw & He & Hn & Hb) Hi. unfold phdr_offset. rewrite He. pose proof (ew_phoff _ Hw) as Hp. unfold fits in Hp.
  rewrite (uwrap_id 64 (i * 56)) by (unfold fits; lia). apply uwrap_id. unfold fits. lia.
Qed.

Lemma read_phdr_some img eh i :
  image img -> header_ok img eh -> 0 <= i < e_phnum eh -> exists ph, read_phdr img eh i = Some ph /\ phdr_wf ph.
Proof.
  intros Hi Hh Hr. unfold read_phdr. rewrite (phdr_offset_eq img) by done. cbn zeta.
  destruct Hh as (Hw & He & Hn & Hb). pose proof (ew_phoff _ Hw) as Hp. unfold fits in Hp.
  do 7 read_field Hi. eexists. split; [done|]. constructor; cbn; unfold fits; done.
Qed.

(** ** Accepted segments *)

Record good_segment (img : list Z) (ph : phdr) : Prop := GoodSegment {
  gs_wf : phdr_wf ph;
  gs_load : p_type ph = PT_LOAD;
  gs_file : p_filesz ph <= p_memsz ph;
  gs_mem : 0 < p_memsz ph;
  gs_image : p_offset ph + p_filesz ph <= Z.of_nat (length img);
  gs_low : PAGE_SIZE <= p_vaddr ph;
  gs_high : p_vaddr ph + p_memsz ph <= USER_VA_LIMIT;
  gs_stack : p_vaddr ph + p_memsz ph <= stack_low \/ stack_high <= p_vaddr ph;
  gs_wx : has (p_flags ph) PF_W = true -> has (p_flags ph) PF_X = false
}.

Lemma add_overflow_spec a b : fits 64 a -> fits 64 b -> snd (add_overflow_u64 a b) = false -> fst (add_overflow_u64 a b) = a + b /\ a + b < 2 ^ 64.
Proof.
  intros Ha Hb. unfold add_overflow_u64. cbn zeta. cbn [fst snd]. intros H. apply Z.ltb_ge in H.
  pose proof (uwrap_add_lt 64 a b ltac:(lia) Ha Hb) as Hx. unfold fits in *.
  destruct (Z.lt_ge_cases (a + b) (2 ^ 64)) as [|Hge]; [|apply Hx in Hge; lia]. split; [apply uwrap_id; unfold fits; lia|done].
Qed.

Lemma check_segment_ok img ph : phdr_wf ph -> check_segment (Z.of_nat (length img)) ph = Accept -> good_segment img ph.
Proof.
  intros Hw. unfold check_segment. split_if E0; [done|].
  destruct (Z.eqb_spec (p_type ph) PT_LOAD) as [Hty|]; [|done]. cbn [negb].
  destruct (Z.ltb_spec (p_memsz ph) (p_filesz ph)) as [|Hf]; [done|].
  split_if Hx; [done|]. split_if Ha; [done|].
  pose proof (add_overflow_spec _ _ (pw_offset _ Hw) (pw_filesz _ Hw)) as F.
  pose proof (add_overflow_spec _ _ (pw_vaddr _ Hw) (pw_memsz _ Hw)) as M.
  destruct (add_overflow_u64 (p_offset ph) (p_filesz ph)) as [fe fo], (add_overflow_u64 (p_vaddr ph) (p_memsz ph)) as [me mo].
  cbn [fst snd] in F, M. split_if E; [done|].
  destruct (Z.eqb_spec (p_memsz ph) 0) as [|H0]; [done|]. intros _.
  rewrite !orb_false_iff in E. destruct E as [[[[[[E1 E2] E3] E4] E5] E6] E7].
  destruct (F E1) as [-> _], (M E3) as [-> _]. apply Z.ltb_ge in E2, E4, E6. apply Z.leb_gt in E5.
  rewrite !orb_false_iff in Hx. destruct Hx as [_ Hx]. pose proof (pw_memsz _ Hw) as Hm. unfold fits in Hm. constructor; try done; try lia.
  intros Hwr. by rewrite Hwr in Hx.
Qed.

Lemma mem_end_eq img ph : good_segment img ph -> mem_end ph = p_vaddr ph + p_memsz ph.
Proof.
  intros [Hw _ _ Hm _ _ Hh _ _]. unfold mem_end, add_overflow_u64. cbn [fst]. apply uwrap_id.
  pose proof (pw_vaddr _ Hw). unfold fits, USER_VA_LIMIT in *. lia.
Qed.

Definition in_mem (ph : phdr) (v : Z) : Prop := p_vaddr ph <= v < p_vaddr ph + p_memsz ph.
Definition in_file (ph : phdr) (v : Z) : bool := (p_vaddr ph <=? v) && (v <? p_vaddr ph + p_filesz ph).
Definition in_pages (ph : phdr) (v : Z) : Prop :=
  p_vaddr ph / PAGE_SIZE <= v / PAGE_SIZE <= (p_vaddr ph + p_memsz ph - 1) / PAGE_SIZE.
Definition file_byte (img : list Z) (ph : phdr) (v : Z) : Z := nth (Z.to_nat (p_offset ph + (v - p_vaddr ph))) img 0.

Lemma in_file_mem img ph v : good_segment img ph -> in_file ph v = true -> in_mem ph v.
Proof. intros [_ _ Hf _ _ _ _ _ _] H. unfold in_file in H. apply andb_true_iff in H as [H1%Z.leb_le H2%Z.ltb_lt]. unfold in_mem. lia. Qed.

Lemma in_mem_pages ph v : in_mem ph v -> in_pages ph v.
Proof. unfold in_mem, in_pages, PAGE_SIZE. intros. Z.to_euclidean_division_equations; lia. Qed.

Lemma in_pages_user img ph v : good_segment img ph -> in_pages ph v -> user_addr v.
Proof.
  intros [_ _ _ Hm _ Hl Hh _ _]. unfold in_pages, user_addr, USER_VA_LIMIT, PAGE_SIZE in *. intros. Z.to_euclidean_division_equations; lia.
Qed.

Lemma page_down_eq a : fits 64 a -> page_down a = a - a mod PAGE_SIZE.
Proof.
  intros Ha. unfold page_down. change (PAGE_SIZE - 1) with (2 ^ 12 - 1). change PAGE_SIZE with (2 ^ 12).
  apply land_clear_low; [lia|done].
Qed.

(** The pages of a segment: [seg_count] of them from [seg_start]. *)
Definition seg_start (ph : phdr) : Z := p_vaddr ph - p_vaddr ph mod PAGE_SIZE.
Definition seg_count (ph : phdr) : Z := (p_vaddr ph + p_memsz ph - 1) / PAGE_SIZE - p_vaddr ph / PAGE_SIZE + 1.

Lemma seg_bounds img ph : good_segment img ph ->
  seg_start ph mod PAGE_SIZE = 0 /\ PAGE_SIZE <= seg_start ph /\ 0 < seg_count ph /\
  seg_start ph + seg_count ph * PAGE_SIZE <= USER_VA_LIMIT /\
  (forall v, in_pages ph v <-> seg_start ph <= v < seg_start ph + seg_count ph * PAGE_SIZE).
Proof.
  intros [_ _ _ Hm _ Hl Hh _ _]. unfold seg_start, seg_count, in_pages, USER_VA_LIMIT, PAGE_SIZE in *.
  split_and!; try (Z.to_euclidean_division_equations; lia). intros v. Z.to_euclidean_division_equations; lia.
Qed.

Lemma in_pages_same ph v w : v / PAGE_SIZE = w / PAGE_SIZE -> in_pages ph v -> in_pages ph w.
Proof. unfold in_pages. by intros ->. Qed.

Lemma page_next_eq img ph va :
  good_segment img ph -> in_pages ph va -> va mod PAGE_SIZE = 0 -> u64 (va + PAGE_SIZE) = va + PAGE_SIZE.
Proof.
  intros Hg Hp _. pose proof (in_pages_user _ _ _ Hg Hp) as Hu. apply uwrap_id. unfold fits, user_addr, USER_VA_LIMIT, PAGE_SIZE in *. lia.
Qed.

Section Load.
Context {A : Type} `{FA : FrameAllocator A, !FrameAllocatorLaws A}.
Implicit Types st : mm A.

(** The copied range of a page, without wrap-around. *)
Lemma fill_page_eq st img ph va phys :
  image img -> good_segment img ph -> in_pages ph va -> va mod PAGE_SIZE = 0 ->
  let lo := Z.max va (p_vaddr ph) in
  let hi := Z.min (va + PAGE_SIZE) (p_vaddr ph + p_filesz ph) in
  fill_page st img ph va phys =
    if lo <? hi then
      Some (set_mem (write_bytes (mem st) (phys + (lo - va))
              (take (Z.to_nat (hi - lo)) (drop (Z.to_nat (p_offset ph + (lo - p_vaddr ph))) img))) st)
    else Some st.
Proof.
  intros Hi Hg Hp Ha lo hi. pose proof (in_pages_user _ _ _ Hg Hp) as Hu. unfold fill_page. cbn zeta.
  rewrite (page_next_eq img ph va) by done. pose proof Hg as [Hw _ Hf Hm Him Hl Hh _ _].
  pose proof (pw_filesz _ Hw) as F1. pose proof (pw_offset _ Hw) as F2. pose proof (pw_vaddr _ Hw) as F3.
  unfold fits, user_addr, USER_VA_LIMIT, PAGE_SIZE in *.
  rewrite (uwrap_id 64 (p_vaddr ph + p_filesz ph)) by (unfold fits; lia).
  assert (El : (if p_vaddr ph <? va then va else p_vaddr ph) = lo) by (unfold lo; destruct (Z.ltb_spec (p_vaddr ph) va); lia).
  assert (Eh : (if va + 4096 <? p_vaddr ph + p_filesz ph then va + 4096 else p_vaddr ph + p_filesz ph) = hi)
    by (unfold hi; destruct (Z.ltb_spec (va + 4096) (p_vaddr ph + p_filesz ph)); lia).
  rewrite El, Eh. destruct (Z.ltb_spec lo hi) as [Hlt|]; [|done].
  destruct Hi as [_ Hi]. rewrite (uwrap_id 64 (p_offset ph + (lo - p_vaddr ph))) by (unfold fits, lo, hi in *; lia).
  rewrite slice_some by (unfold lo, hi in *; lia). done.
Qed.

Lemma fill_page_some st img ph va phys :
  image img -> good_segment img ph -> in_pages ph va -> va mod PAGE_SIZE = 0 -> exists st', fill_page st img ph va phys = Some st'.
Proof. intros. rewrite fill_page_eq by done. cbn zeta. destruct (_ <? _); eauto. Qed.

Lemma load_page_some st root img ph va :
  image img -> good_segment img ph -> in_pages ph va -> va mod PAGE_SIZE = 0 -> exists r, load_page st root img ph va = Some r.
Proof.
  intros Hi Hg Hp Ha. unfold load_page. cbn zeta. split_if E0.
  - destruct (alloc_page st) as [st1 phys]. split_if E1; [eauto|]. destruct (vmm_map_page _ _ _ _ _) as [st2 rc].
    split_if E2; [eauto|]. destruct (fill_page_some (zero_page st2 phys) img ph va phys) as [s ->]; eauto.
  - split_if E1; [eauto|]. destruct (fill_page_some st img ph va (vmm_get_page_phys st root va)) as [s ->]; eauto.
Qed.

Lemma page_step va : va mod PAGE_SIZE = 0 -> (va + PAGE_SIZE) mod PAGE_SIZE = 0.
Proof. unfold PAGE_SIZE. intros. Z.to_euclidean_division_equations; lia. Qed.

Lemma load_pages_some img ph root n : forall st va,
  image img -> good_segment img ph -> va mod PAGE_SIZE = 0 -> seg_start ph <= va ->
  va + Z.of_nat n * PAGE_SIZE <= seg_start ph + seg_count ph * PAGE_SIZE ->
  exists r, load_pages st root img ph va n = Some r.
Proof.
  induction n as [|n IH]; intros st va Hi Hg Ha Hl Hh; cbn [load_pages]; [eauto|].
  destruct (seg_bounds img ph Hg) as (_ & _ & _ & _ & Hb).
  assert (Hp : in_pages ph va) by (apply Hb; unfold PAGE_SIZE in *; lia).
  destruct (load_page_some st root img ph va) as [[s rc] ->]; [done..|]. cbn [mbind option_bind]. split_if E; [eauto|].
  rewrite (page_next_eq img ph va) by done. apply IH; auto using page_step; unfold PAGE_SIZE in *; lia.
Qed.

Lemma overlaps_some img eh ph prev n :
  image img -> header_ok img eh -> 0 <= prev -> prev + Z.of_nat n <= e_phnum eh -> exists b, overlaps img eh ph prev n = Some b.
Proof.
  intros Hi Hh. revert prev. induction n as [|n IH]; intros prev H0 Hn; cbn [overlaps]; [eauto|].
  destruct (read_phdr_some img eh prev Hi Hh ltac:(lia)) as (o & -> & _). cbn [mbind option_bind].
  destruct (add_overflow_u64 _ _) as [oe ov]. split_if E; [eauto|]. apply IH; lia.
Qed.

(** The page loop of a segment, without wrap-around. *)
Lemma load_segment_eq st root img eh ph i :
  good_segment img ph ->
  load_segment st root img eh ph i =
    o ← overlaps img eh ph 0 (Z.to_nat i);
    if (o : bool) then Some (st, -12) else load_pages st root img ph (seg_start ph) (Z.to_nat (seg_count ph)).
Proof.
  intros Hg. unfold load_segment. rewrite (mem_end_eq img) by done. destruct (overlaps _ _ _ _ _) as [[]|]; try done.
  cbn [mbind option_bind]. destruct (seg_bounds img ph Hg) as (B1 & B2 & B3 & B4 & _).
  pose proof Hg as [Hw _ _ Hm _ Hl Hh _ _]. unfold USER_VA_LIMIT, PAGE_SIZE in *.
  rewrite (page_down_eq (p_vaddr ph)) by (unfold fits; lia). rewrite (page_down_eq (u64 _)) by (apply uwrap_fits; lia).
  unfold PAGE_SIZE. rewrite uwrap_id by (unfold fits; lia). unfold seg_start, seg_count, PAGE_SIZE in *.
  destruct (Z.ltb_spec (p_vaddr ph + p_memsz ph + 4096 - 1 - (p_vaddr ph + p_memsz ph + 4096 - 1) mod 4096) (p_vaddr ph + p_memsz ph));
    [Z.to_euclidean_division_equations; lia|].
  f_equal. f_equal. Z.to_euclidean_division_equations; lia.
Qed.

Lemma load_segments_some img eh root n : forall st i loads covered,
  image img -> header_ok img eh -> 0 <= i -> i + Z.of_nat n <= e_phnum eh ->
  exists r, load_segments st root img eh i n loads covered = Some r.
Proof.
  induction n as [|n IH]; intros st i loads covered Hi Hh H0 Hn; cbn [load_segments]; [eauto|].
  destruct (read_phdr_some img eh i Hi Hh ltac:(lia)) as (ph & -> & Hw). cbn [mbind option_bind].
  destruct (check_segment _ ph) eqn:Hc; [apply IH; auto; lia|eauto|].
  pose proof (check_segment_ok img ph Hw Hc) as Hg. rewrite load_segment_eq by done.
  destruct (overlaps_some img eh ph 0 (Z.to_nat i)) as [b ->]; [done|done|lia|lia|]. cbn [mbind option_bind]. destruct b; [eauto|].
  destruct (seg_bounds img ph Hg) as (B1 & _ & B3 & _).
  destruct (load_pages_some img ph root (Z.to_nat (seg_count ph)) st (seg_start ph)) as [[s rc] ->]; [done..|rewrite Z2Nat.id by lia; lia|].
  cbn [mbind option_bind]. split_if E; [eauto|]. apply IH; auto; lia.
Qed.

Lemma elf_load_some st img : image img -> exists r, elf_load st (Some img) = Some r.
Proof.
  intros Hi. unfold elf_load. cbn zeta. split_if E0; [eauto|]. apply Z.ltb_ge in E0.
  destruct (read_ehdr_some img Hi E0) as (eh & -> & Hw). cbn [mbind option_bind]. split_if E1; [eauto|].
  apply negb_false_iff, Z.eqb_eq in E1. pose proof (check_header_ok img eh Hw E1) as Hh.
  destruct (vmm_create_user_pml4 st) as [st1 root]. split_if E2; [eauto|]. unfold load_image.
  destruct Hh as (Hh1 & Hh2 & Hn & Hh3).
  destruct (load_segments_some img eh root (Z.to_nat (e_phnum eh)) st1 0 0 false) as [[[[s rc] loads] covered] ->];
    [done|done|lia|lia|]. cbn [mbind option_bind].
  split_if E3; cbn [mbind option_bind]; [rewrite E3; eauto|]. split_if E4; cbn [mbind option_bind]; [eauto|].
  cbn zeta. split_if E5; cbn [mbind option_bind]; [eauto|]. destruct (map_stack _ _ _ _) as [s2 rc2]. split_if E6; eauto.
Qed.

(** A load that succeeds had a good header. *)
Lemma elf_load_header st img st' rc root ent :
  image img -> elf_load st (Some img) = Some (st', rc, Some (root, ent)) ->
  rc = 0 /\ exists eh, read_ehdr img = Some eh /\ header_ok img eh /\ ent = e_entry eh.
Proof.
  intros Hi. unfold elf_load. cbn zeta. split_if E0; [done|]. apply Z.ltb_ge in E0.
  destruct (read_ehdr_some img Hi E0) as (eh & Eh & Hw). rewrite Eh. cbn [mbind option_bind]. split_if E1; [done|].
  rewrite negb_false_iff, Z.eqb_eq in E1. destruct (vmm_create_user_pml4 st) as [st1 r]. split_if E2; [done|].
  destruct (load_image st1 r img eh) as [[st2 rc2]|]; [|done]. cbn [mbind option_bind]. split_if E3; [done|].
  intros [= _ <- _ <-]. split; [done|]. exists eh. split; [done|]. split; [|done]. by apply check_header_ok.
Qed.

(** ** What the pages of a segment hold *)

Definition prot (ph : phdr) : Z := segment_page_flags (p_flags ph).

Lemma prot_idem ph : Z.land (prot ph) PROT = prot ph.
Proof. unfold prot, segment_page_flags. destruct (has _ PF_W), (has _ PF_X); reflexivity. Qed.

Definition byte_of (c : option (Z * Z)) : Z := match c with Some (_, b) => b | None => 0 end.

(** A page of segment [ph] after loading: the file's bytes, the rest as it was. *)
Definition loaded (img : list Z) (ph : phdr) (v : Z) (old : option (Z * Z)) : option (Z * Z) :=
  Some (prot ph, if in_file ph v then file_byte img ph v else byte_of old).

Lemma cell_view st root v : cell st root v <> None <-> view st root v <> None.
Proof. unfold cell. by destruct (view st root v). Qed.

Lemma cell_prot st root v pr b : cell st root v = Some (pr, b) -> pr = Z.land (vmm_get_page_flags st root v) PROT.
Proof. unfold cell, view. destruct (has _ PTE_PRESENT); [|done]. by intros [= <- _]. Qed.

(** A mapped page has one protection. *)
Lemma cell_page st root v va :
  user_addr v -> user_addr va -> v / PAGE_SIZE = va / PAGE_SIZE ->
  (cell st root v = None <-> cell st root va = None) /\ fst <$> cell st root v = fst <$> cell st root va.
Proof.
  unfold user_addr. intros Hv Hva E. unfold cell, view. rewrite (page_flags_same st root v va) by (lia || done).
  by destruct (has _ PTE_PRESENT).
Qed.

Lemma page_mod_div v va : va mod PAGE_SIZE = 0 -> v / PAGE_SIZE = va / PAGE_SIZE <-> va <= v < va + PAGE_SIZE.
Proof. unfold PAGE_SIZE. intros. Z.to_euclidean_division_equations; lia. Qed.

Lemma fill_page_cell st root img ph va st' :
  image img -> good_segment img ph -> in_pages ph va -> va mod PAGE_SIZE = 0 ->
  space_inv st root -> view st root va <> None ->
  fill_page st img ph va (vmm_get_page_phys st root va) = Some st' ->
  space_inv st' root /\
  forall v, user_addr v ->
    cell st' root v =
      if (v / PAGE_SIZE =? va / PAGE_SIZE) && in_file ph v
      then (fun c => (fst c, file_byte img ph v)) <$> cell st root v else cell st root v.
Proof.
  intros Hi Hg Hp Ha Hs Hm. rewrite fill_page_eq by done. cbn zeta.
  set (lo := Z.max va (p_vaddr ph)). set (hi := Z.min (va + PAGE_SIZE) (p_vaddr ph + p_filesz ph)).
  pose proof (in_pages_user _ _ _ Hg Hp) as Hu. pose proof Hg as [Hw _ Hf Hmem Him Hl Hh _ _].
  pose proof (pw_offset _ Hw) as F2. unfold fits in F2.
  assert (Hin : forall v, v / PAGE_SIZE = va / PAGE_SIZE -> (in_file ph v = true <-> lo <= v < hi)).
  { intros v Hv. apply page_mod_div in Hv; [|done]. unfold in_file, lo, hi. rewrite andb_true_iff, Z.leb_le, Z.ltb_lt. lia. }
  destruct (Z.ltb_spec lo hi) as [Hlt|Hge]; intros [= <-].
  2:{ split; [done|]. intros v Hv. destruct (Z.eqb_spec (v / PAGE_SIZE) (va / PAGE_SIZE)) as [E|]; [|done]. cbn [andb].
      destruct (in_file ph v) eqn:Ef; [|done]. apply Hin in Ef; [lia|done]. }
  set (bs := take _ _). assert (Hlen : Z.of_nat (length bs) = hi - lo).
  { unfold bs. rewrite length_take, length_drop. unfold lo, hi in *. lia. }
  destruct (write_cell st root va (lo - va) bs) as (S' & _ & C); [done..|unfold lo; lia|unfold hi in *; lia|].
  split; [exact S'|]. intros v Hv. rewrite (C v Hv), Hlen.
  destruct (Z.eqb_spec (v / PAGE_SIZE) (va / PAGE_SIZE)) as [E|]; [|done]. cbn [andb].
  assert (Hmod : v mod PAGE_SIZE = v - va) by (unfold PAGE_SIZE in *; Z.to_euclidean_division_equations; lia).
  rewrite Hmod. specialize (Hin v E).
  assert (Hb : (lo - va <=? v - va) && (v - va <? lo - va + (hi - lo)) = in_file ph v).
  { apply eq_true_iff_eq. rewrite Hin, andb_true_iff, Z.leb_le, Z.ltb_lt. lia. }
  rewrite Hb. destruct (in_file ph v); [|done]. specialize (proj1 Hin eq_refl) as Hr.
  destruct (cell st root v) as [[pr b]|]; [|done]. cbn [fmap option_fmap option_map fst]. do 2 f_equal.
  unfold bs, file_byte. rewrite !nth_lookup, lookup_take, lookup_drop. rewrite decide_True by lia.
  replace (Z.to_nat (p_offset ph + (lo - p_vaddr ph)) + Z.to_nat (v - va - (lo - va)))%nat
    with (Z.to_nat (p_offset ph + (v - p_vaddr ph))) by (unfold lo in *; lia).
  destruct (img !! _) as [x|] eqn:Ex; [|done]. cbn [default]. destruct Hi as [Hbytes _]. rewrite Forall_forall in Hbytes.
  pose proof (Hbytes x (list_elem_of_lookup_2 _ _ _ Ex)) as Hx. change 255 with (2 ^ 8 - 1). rewrite land_ones_mod by lia. apply Z.mod_small. exact Hx.
Qed.

(** Zeroing a frame that reads as zeros. *)
Lemma zero_page_cell st root va :
  space_inv st root -> user_addr va -> va mod PAGE_SIZE = 0 -> view st root va <> None ->
  (forall v, user_addr v -> v / PAGE_SIZE = va / PAGE_SIZE -> byte_of (cell st root v) = 0) ->
  let st' := zero_page st (vmm_get_page_phys st root va) in
  space_inv st' root /\ same_tables st st' root /\ forall v, user_addr v -> cell st' root v = cell st root v.
Proof.
  intros Hs Hu Ha Hm Hz st'. unfold st', zero_page.
  destruct (write_cell st root va 0 (replicate (Z.to_nat PAGE_SIZE) 0)) as (S1 & T1 & C1);
    [done..|rewrite length_replicate; unfold PAGE_SIZE; lia|]. rewrite Z.add_0_r in S1, T1, C1.
  split; [done|]. split; [done|]. intros v Hv. rewrite C1 by done.
  destruct (Z.eqb_spec (v / PAGE_SIZE) (va / PAGE_SIZE)) as [E|]; [|done]. destruct (_ && _); [|done].
  specialize (Hz v Hv E). destruct (cell st root v) as [[pr b]|]; [|done]. cbn in Hz |- *. subst b. do 2 f_equal.
  rewrite nth_lookup. destruct (replicate _ 0 !! _) as [x|] eqn:Ex; [|done]. by apply lookup_replicate in Ex as [-> _].
Qed.

Lemma load_page_cell st root img ph va st' :
  image img -> good_segment img ph -> in_pages ph va -> va mod PAGE_SIZE = 0 -> space_inv st root ->
  load_page st root img ph va = Some (st', 0) ->
  space_inv st' root /\
  (forall v pr b, user_addr v -> v / PAGE_SIZE = va / PAGE_SIZE -> cell st root v = Some (pr, b) -> pr = prot ph) /\
  wx_violation (prot ph) = false /\
  forall v, user_addr v ->
    cell st' root v = if v / PAGE_SIZE =? va / PAGE_SIZE then loaded img ph v (cell st root v) else cell st root v.
Proof.
  intros Hi Hg Hp Ha Hs. pose proof (in_pages_user _ _ _ Hg Hp) as Hu. unfold load_page. fold (prot ph). cbn zeta.
  assert (Hwx : wx_violation (prot ph) = false).
  { unfold prot, segment_page_flags. pose proof (gs_wx _ _ Hg) as H. destruct (has (p_flags ph) PF_W), (has (p_flags ph) PF_X); try reflexivity.
    by specialize (H eq_refl). }
  destruct (Z.eqb_spec (vmm_get_page_phys st root va) 0) as [H0|H0].
  - apply (phys_view st root va Hs Hu) in H0.
    destruct (alloc_page st) as [st1 p] eqn:Ea. destruct (alloc_space st st1 root p Hs Ea) as (S1 & C1 & Hnew).
    destruct (Z.eqb_spec p 0) as [|Hp0]; [done|]. destruct (Hnew Hp0) as (D1 & N1 & Z1).
    destruct (vmm_map_page st1 root va p (prot ph)) as [st2 rc] eqn:Em. destruct (Z.eqb_spec rc 0) as [->|]; cbn [negb]; [|by intros [= _ <-]].
    destruct (map_cell st1 root va p (prot ph) st2 S1 Hu D1 N1 Em) as (S2 & _ & _ & Hph & _ & _ & C2).
    assert (Hbyte : forall v, user_addr v -> v / PAGE_SIZE = va / PAGE_SIZE -> cell st2 root v = Some (prot ph, 0)).
    { intros v Hv E. rewrite C2, E, Z.eqb_refl, prot_idem by done. do 2 f_equal. apply Z1.
      pose proof (Z.mod_pos_bound v PAGE_SIZE ltac:(done)). unfold in_block, PAGE_SIZE in *. lia. }
    assert (M2 : view st2 root va <> None) by (apply cell_view; by rewrite (Hbyte va)).
    destruct (zero_page_cell st2 root va S2 Hu Ha M2) as (S3 & T3 & C3); [intros v Hv E; by rewrite Hbyte|].
    rewrite Hph in S3, T3, C3. set (st3 := zero_page st2 p) in *. clearbody st3.
    assert (Hph3 : vmm_get_page_phys st3 root va = p).
    { rewrite <-Hph. apply flags_view. exact (same_tables_flags _ _ _ va T3). }
    destruct (fill_page st3 img ph va p) as [st4|] eqn:Ef; [|done]. cbn [mbind option_bind]. intros [= <-].
    rewrite <-Hph3 in Ef.
    destruct (fill_page_cell st3 root img ph va st4) as (S4 & C4); [done..|apply cell_view; rewrite C3 by done; by rewrite Hbyte|done|].
    assert (Hold : forall v, user_addr v -> v / PAGE_SIZE = va / PAGE_SIZE -> cell st root v = None).
    { intros v Hv E. apply (cell_page st root v va Hv Hu E). destruct (cell st root va) eqn:Ec; [|done].
      exfalso. assert (Hc : cell st root va <> None) by (by rewrite Ec). by apply cell_view in Hc. }
    split; [done|]. split; [intros v pr b Hv E; by rewrite Hold|]. split; [done|].
    intros v Hv. rewrite C4, C3 by done. destruct (Z.eqb_spec (v / PAGE_SIZE) (va / PAGE_SIZE)) as [E|E]; cbn [andb].
    + rewrite (Hbyte v Hv E), (Hold v Hv E). unfold loaded. by destruct (in_file ph v).
    + rewrite C2, <-C1 by done. apply Z.eqb_neq in E. by rewrite E.
  - destruct (Z.eqb_spec (Z.land (vmm_get_page_flags st root va) prot_mask) (Z.land (prot ph) prot_mask)) as [Epr|]; cbn [negb]; [|done].
    change prot_mask with PROT in Epr. rewrite prot_idem in Epr.
    assert (Hm : view st root va <> None) by (intros Hn; by apply H0, phys_view).
    destruct (fill_page st img ph va _) as [st4|] eqn:Ef; [|done]. cbn [mbind option_bind]. intros [= <-].
    destruct (fill_page_cell st root img ph va st4) as (S4 & C4); [done..|].
    assert (Hpr : forall v, user_addr v -> v / PAGE_SIZE = va / PAGE_SIZE -> exists b, cell st root v = Some (prot ph, b)).
    { intros v Hv E. destruct (cell_page st root v va Hv Hu E) as [Hn Hf]. apply cell_view in Hm.
      destruct (cell st root va) as [[pr b]|] eqn:Ec; [|done]. apply cell_prot in Ec as ->. rewrite Epr in Hf.
      destruct (cell st root v) as [[pr' b']|]; [|done]. injection Hf as ->. by exists b'. }
    split; [done|]. split; [|split; [done|]].
    + intros v pr b Hv E Hc. destruct (Hpr v Hv E) as [b' Hb]. congruence.
    + intros v Hv. rewrite C4 by done. destruct (Z.eqb_spec (v / PAGE_SIZE) (va / PAGE_SIZE)) as [E|]; [|done]. cbn [andb].
      destruct (Hpr v Hv E) as [b ->]. unfold loaded. by destruct (in_file ph v).
Qed.

Lemma load_pages_cell root img ph n : forall st va st',
  image img -> good_segment img ph -> va mod PAGE_SIZE = 0 -> seg_start ph <= va ->
  va + Z.of_nat n * PAGE_SIZE <= seg_start ph + seg_count ph * PAGE_SIZE -> space_inv st root ->
  load_pages st root img ph va n = Some (st', 0) ->
  space_inv st' root /\
  (forall v pr b, va <= v < va + Z.of_nat n * PAGE_SIZE -> cell st root v = Some (pr, b) -> pr = prot ph) /\
  forall v, user_addr v ->
    cell st' root v = if (va <=? v) && (v <? va + Z.of_nat n * PAGE_SIZE) then loaded img ph v (cell st root v) else cell st root v.
Proof.
  induction n as [|n IH]; intros st va st' Hi Hg Ha Hl Hh Hs; cbn [load_pages].
  { intros [= <-]. split; [done|]. split; [lia|]. intros v _.
    destruct (Z.leb_spec va v), (Z.ltb_spec v (va + Z.of_nat 0 * PAGE_SIZE)); try done. lia. }
  destruct (seg_bounds img ph Hg) as (_ & B2 & _ & B4 & Hb).
  assert (Hp : in_pages ph va) by (apply Hb; unfold PAGE_SIZE in *; lia).
  destruct (load_page st root img ph va) as [[st1 rc]|] eqn:E1; [|done]. cbn [mbind option_bind].
  destruct (Z.eqb_spec rc 0) as [->|]; cbn [negb]; [|by intros [= _ ->]].
  destruct (load_page_cell st root img ph va st1 Hi Hg Hp Ha Hs E1) as (S1 & P1 & _ & C1).
  rewrite (page_next_eq img ph va) by done. intros E2.
  destruct (IH st1 (va + PAGE_SIZE) st') as (S2 & P2 & C2); auto using page_step; try (unfold PAGE_SIZE in *; lia).
  assert (Huser : forall v, va <= v < va + Z.of_nat (S n) * PAGE_SIZE -> user_addr v) by (intros v Hv; unfold user_addr, PAGE_SIZE in *; lia).
  split; [done|]. split.
  - intros v pr b Hv Hc. pose proof (Huser v Hv) as Hu. destruct (Z.lt_ge_cases v (va + PAGE_SIZE)) as [Hlt|Hge].
    + apply (P1 v pr b Hu); [apply page_mod_div; [done|lia]|done].
    + apply (P2 v pr b); [unfold PAGE_SIZE in *; lia|]. rewrite C1 by done.
      destruct (Z.eqb_spec (v / PAGE_SIZE) (va / PAGE_SIZE)) as [E|]; [apply page_mod_div in E; [lia|done]|done].
  - intros v Hv. rewrite C2 by done. rewrite C1 by done.
    assert (E : (v / PAGE_SIZE =? va / PAGE_SIZE) = (va <=? v) && (v <? va + PAGE_SIZE)).
    { apply eq_true_iff_eq. rewrite andb_true_iff, Z.leb_le, Z.ltb_lt, Z.eqb_eq, page_mod_div by done. done. }
    rewrite E. unfold PAGE_SIZE in *.
    destruct (Z.leb_spec (va + 4096) v), (Z.ltb_spec v (va + 4096 + Z.of_nat n * 4096)), (Z.leb_spec va v), (Z.ltb_spec v (va + 4096)),
      (Z.ltb_spec v (va + Z.of_nat (S n) * 4096)); cbn [andb]; try done; lia.
Qed.

(** The overlap search. *)
Definition in_image img eh (j : Z) (ph : phdr) : Prop := read_phdr img eh j = Some ph.

Lemma overlaps_false img eh ph n : forall prev,
  overlaps img eh ph prev n = Some false ->
  forall j other, prev <= j < prev + Z.of_nat n -> in_image img eh j other -> good_segment img other -> good_segment img ph ->
    forall v, in_mem ph v -> ~ in_mem other v.
Proof.
  induction n as [|n IH]; intros prev; cbn [overlaps]; [lia|].
  destruct (read_phdr img eh prev) as [o|] eqn:Eo; [|done]. cbn [mbind option_bind].
  destruct (add_overflow_u64 (p_vaddr o) (p_memsz o)) as [oe ov] eqn:Ea. split_if E; [done|]. intros Hrest j other Hj Hr Hgo Hg v Hv Hv2.
  destruct (Z.eq_dec j prev) as [->|Hne]; [|apply (IH (prev + 1) Hrest j other ltac:(lia) Hr Hgo Hg v Hv Hv2)].
  unfold in_image in Hr. rewrite Hr in Eo. injection Eo as ->.
  pose proof (mem_end_eq _ _ Hgo) as Me. unfold mem_end in Me. rewrite Ea in Me. cbn [fst] in Me.
  assert (Hov : ov = false).
  { unfold add_overflow_u64 in Ea. injection Ea as <- <-. rewrite Me. apply Z.ltb_ge. pose proof (gs_mem _ _ Hgo). lia. }
  rewrite (gs_load _ _ Hgo), Z.eqb_refl, Hov, Me, (mem_end_eq _ _ Hg) in E. pose proof (gs_mem _ _ Hgo) as Hm. unfold in_mem in *.
  destruct (Z.eqb_spec (p_memsz o) 0); [lia|]. cbn [andb negb] in E. apply andb_false_iff in E as [E|E]; apply Z.ltb_ge in E; lia.
Qed.

(** ** The segments loaded so far *)

Record loaded_inv st (root : Z) (img : list Z) (segs : list phdr) : Prop := LoadedInv {
  li_space : space_inv st root;
  li_good ph : ph ∈ segs -> good_segment img ph;
  li_file ph v : ph ∈ segs -> in_file ph v = true -> cell st root v = Some (prot ph, file_byte img ph v);
  li_prot ph v : ph ∈ segs -> in_pages ph v -> exists b, cell st root v = Some (prot ph, b);
  li_zero v pr b : user_addr v -> cell st root v = Some (pr, b) -> (forall ph, ph ∈ segs -> in_file ph v = false) -> b = 0;
  li_only v : user_addr v -> cell st root v <> None -> exists ph, ph ∈ segs /\ in_pages ph v
}.

Lemma load_segment_inv st root img eh ph i st' segs :
  image img -> good_segment img ph -> loaded_inv st root img segs ->
  (forall other, other ∈ segs -> forall v, in_mem ph v -> ~ in_mem other v) ->
  load_segment st root img eh ph i = Some (st', 0) -> loaded_inv st' root img (segs ++ [ph]).
Proof.
  intros Hi Hg [I1 I2 I3 I4 I5 I6] Hdis. rewrite load_segment_eq by done.
  destruct (overlaps _ _ _ _ _) as [[]|]; try done. cbn [mbind option_bind]. intros E.
  destruct (seg_bounds img ph Hg) as (B1 & _ & B3 & _ & Hb).
  destruct (load_pages_cell root img ph (Z.to_nat (seg_count ph)) st (seg_start ph) st') as (S1 & P1 & C1); [done..|lia|rewrite Z2Nat.id by lia; lia|done|done|].
  rewrite Z2Nat.id in P1, C1 by lia.
  assert (C : forall v, user_addr v -> (in_pages ph v /\ cell st' root v = loaded img ph v (cell st root v)) \/
                                       (~ in_pages ph v /\ cell st' root v = cell st root v)).
  { intros v Hv. rewrite C1 by done. specialize (Hb v).
    destruct (Z.leb_spec (seg_start ph) v), (Z.ltb_spec v (seg_start ph + seg_count ph * PAGE_SIZE)); cbn [andb]; [left|right..];
      (split; [apply Hb || (rewrite Hb)|done]); lia. }
  assert (In : forall x, x ∈ segs ++ [ph] <-> x ∈ segs \/ x = ph).
  { intros x. rewrite elem_of_app, list_elem_of_singleton. done. }
  assert (Hnf : forall o v, o ∈ segs -> in_file o v = true -> in_file ph v = false).
  { intros o v Ho Hf. destruct (in_file ph v) eqn:Ef; [|done]. exfalso.
    apply (Hdis o Ho v); [by apply (in_file_mem img)|apply (in_file_mem img); auto]. }
  constructor.
  - done.
  - intros x [Hx| ->]%In; auto.
  - intros x v [Hx| ->]%In Hf.
    + pose proof (I3 x v Hx Hf) as Hc. assert (Hu : user_addr v).
      { apply (in_pages_user img x); [by apply I2|]. apply in_mem_pages, (in_file_mem img); auto. }
      destruct (C v Hu) as [[Hp ->]|[_ ->]]; [|done]. unfold loaded. rewrite (Hnf x v Hx Hf), Hc. cbn [byte_of].
      f_equal. f_equal. symmetry. apply (P1 v _ _ ltac:(by apply Hb) Hc).
    + assert (Hp : in_pages ph v) by (apply in_mem_pages, (in_file_mem img); auto).
      destruct (C v (in_pages_user _ _ _ Hg Hp)) as [[_ ->]|[Hn _]]; [|done]. unfold loaded. by rewrite Hf.
  - intros x v [Hx| ->]%In Hp.
    + destruct (I4 x v Hx Hp) as [b Hc]. destruct (C v (in_pages_user _ _ _ (I2 x Hx) Hp)) as [[Hp2 ->]|[_ ->]]; [|by exists b].
      unfold loaded. rewrite Hc. rewrite <-(P1 v _ _ ltac:(by apply Hb) Hc). eauto.
    + destruct (C v (in_pages_user _ _ _ Hg Hp)) as [[_ ->]|[Hn _]]; [|done]. unfold loaded. eauto.
  - intros v pr b Hu Hc Hall. assert (Hph : in_file ph v = false) by (apply Hall, In; auto).
    assert (Hseg : forall o, o ∈ segs -> in_file o v = false) by (intros o Ho; apply Hall, In; auto).
    destruct (C v Hu) as [[_ E']|[_ E']]; rewrite E' in Hc; [|by apply (I5 v pr b)].
    unfold loaded in Hc. rewrite Hph in Hc. injection Hc as <- <-. destruct (cell st root v) as [[p2 b2]|] eqn:Ec; [|done].
    cbn [byte_of]. by apply (I5 v p2 b2).
  - intros v Hu Hc. destruct (C v Hu) as [[Hp _]|[_ E']]; [exists ph; rewrite In; auto|]. rewrite E' in Hc.
    destruct (I6 v Hu Hc) as (o & Ho & Hp). exists o. rewrite In. auto.
Qed.

Lemma check_segment_skip size ph : check_segment size ph = Skip -> p_type ph <> PT_LOAD \/ p_memsz ph = 0.
Proof.
  unfold check_segment. split_if E0; [done|]. destruct (Z.eqb_spec (p_type ph) PT_LOAD) as [Hty|]; cbn [negb]; [|by left].
  split_if E1; [done|]. split_if E2; [done|]. split_if E3; [done|].
  destruct (add_overflow_u64 (p_offset ph) _), (add_overflow_u64 (p_vaddr ph) _). split_if E4; [done|].
  destruct (Z.eqb_spec (p_memsz ph) 0); [by right|done].
Qed.

Lemma check_segment_reject size ph rc : check_segment size ph = Reject rc -> rc < 0.
Proof.
  unfold check_segment. destruct (add_overflow_u64 (p_offset ph) _), (add_overflow_u64 (p_vaddr ph) _).
  repeat match goal with |- context [if ?b then _ else _] => destruct b end; intros [=]; lia.
Qed.

(** A header that gives the program memory. *)
Definition loadable (ph : phdr) : Prop := p_type ph = PT_LOAD /\ p_memsz ph <> 0.

(** The segments gathered from headers [0 .. i - 1]. *)
Record gathered (img : list Z) (eh : ehdr) (i : Z) (segs : list phdr) : Prop := Gathered {
  ga_from ph : ph ∈ segs -> exists j, 0 <= j < i /\ in_image img eh j ph;
  ga_all j ph : 0 <= j < i -> in_image img eh j ph -> loadable ph -> ph ∈ segs;
  ga_disjoint x y v : x ∈ segs -> y ∈ segs -> in_mem x v -> in_mem y v -> x = y
}.

Lemma gathered_step img eh i ph segs :
  0 <= i -> gathered img eh i segs -> in_image img eh i ph ->
  (forall other, other ∈ segs -> forall v, in_mem ph v -> ~ in_mem other v) -> gathered img eh (i + 1) (segs ++ [ph]).
Proof.
  intros H0 [G1 G2 G3] Hp Hd.
  assert (In : forall x, x ∈ segs ++ [ph] <-> x ∈ segs \/ x = ph) by (intros x; by rewrite elem_of_app, list_elem_of_singleton).
  constructor.
  - intros x [Hx| ->]%In; [|exists i; split; [lia|done]]. destruct (G1 x Hx) as (j & Hj & Hr). exists j. split; [lia|done].
  - intros j x Hj Hr Hl. apply In. destruct (Z.eq_dec j i) as [->|]; [right; unfold in_image in *; congruence|left; apply (G2 j x); (lia || done)].
  - intros x y v [Hx| ->]%In [Hy| ->]%In Hvx Hvy; [by apply (G3 x y v)|exfalso..|done]; [by apply (Hd x Hx v)|by apply (Hd y Hy v)].
Qed.

Lemma gathered_skip img eh i ph segs :
  0 <= i -> gathered img eh i segs -> in_image img eh i ph -> ~ loadable ph -> gathered img eh (i + 1) segs.
Proof.
  intros H0 [G1 G2 G3] Hp Hn. constructor; [| |done].
  - intros x Hx. destruct (G1 x Hx) as (j & Hj & Hr). exists j. split; [lia|done].
  - intros j x Hj Hr Hl. destruct (Z.eq_dec j i) as [->|]; [|apply (G2 j x); (lia || done)].
    unfold in_image in *. rewrite Hp in Hr. injection Hr as ->. done.
Qed.

(** The entry point lies in an executable segment. *)
Definition entry_ok (eh : ehdr) (segs : list phdr) : Prop :=
  exists ph, ph ∈ segs /\ has (p_flags ph) PF_X = true /\ in_mem ph (e_entry eh).

Lemma load_segments_inv img eh root n : forall st i loads covered st' loads' covered' segs,
  image img -> header_ok img eh -> 0 <= i -> i + Z.of_nat n = e_phnum eh ->
  loaded_inv st root img segs -> gathered img eh i segs -> (covered = true -> entry_ok eh segs) ->
  load_segments st root img eh i n loads covered = Some (st', 0, loads', covered') ->
  exists segs', loaded_inv st' root img segs' /\ gathered img eh (e_phnum eh) segs' /\ (covered' = true -> entry_ok eh segs').
Proof.
  induction n as [|n IH]; intros st i loads covered st' loads' covered' segs Hi Hh H0 Hn Hl Hga Hc; cbn [load_segments].
  { intros [= <- _ <-]. exists segs. replace (e_phnum eh) with i by lia. done. }
  destruct (read_phdr_some img eh i Hi Hh ltac:(lia)) as (ph & Er & Hw). rewrite Er. cbn [mbind option_bind].
  destruct (check_segment _ ph) eqn:Ech; [|intros E; exfalso|].
  - apply (IH st (i + 1) (loads + b2z (p_type ph =? PT_LOAD)) covered st' loads' covered' segs); auto; try lia. apply (gathered_skip img eh i ph); auto. intros [? ?].
    by apply check_segment_skip in Ech as [|].
  - injection E as _ -> _ _. apply check_segment_reject in Ech. lia.
  - pose proof (check_segment_ok img ph Hw Ech) as Hg. set (covered1 := covered || _).
    destruct (load_segment st root img eh ph i) as [[st1 rc]|] eqn:El; [|done]. cbn [mbind option_bind].
    destruct (Z.eqb_spec rc 0) as [->|Hrc]; cbn [negb]; [|by intros [= _ ->]].
    assert (Hd : forall other, other ∈ segs -> forall v, in_mem ph v -> ~ in_mem other v).
    { intros o Ho v Hv. rewrite load_segment_eq in El by done. destruct (overlaps _ _ _ _ _) as [[]|] eqn:Eo; try done.
      destruct (ga_from _ _ _ _ Hga o Ho) as (j & Hj & Hr).
      apply (overlaps_false img eh ph _ 0 Eo j o); auto; [lia|]. by apply (li_good _ _ _ _ Hl). }
    pose proof (load_segment_inv _ _ _ _ _ _ _ _ Hi Hg Hl Hd El) as Hl1. apply (IH st1 (i + 1) (loads + b2z (p_type ph =? PT_LOAD)) covered1 st' loads' covered' (segs ++ [ph])); auto; try lia.
    + by apply gathered_step.
    + unfold covered1. rewrite orb_true_iff, !andb_true_iff, Z.leb_le, Z.ltb_lt, (mem_end_eq img) by done.
      intros [Hcov|[[Hx H1] H2]].
      * destruct (Hc Hcov) as (o & Ho & Hrest). exists o. split; [apply elem_of_app; by left|done].
      * exists ph. split; [apply elem_of_app; right; by apply list_elem_of_singleton|]. by split.
Qed.

(** ** The stack *)

Lemma map_stack_cell root n : forall st va st',
  space_inv st root -> va mod PAGE_SIZE = 0 -> 0 <= va -> va + Z.of_nat n * PAGE_SIZE <= USER_VA_LIMIT ->
  map_stack st root va n = (st', 0) ->
  space_inv st' root /\
  forall v, user_addr v ->
    cell st' root v = if (va <=? v) && (v <? va + Z.of_nat n * PAGE_SIZE) then Some (PROT, 0) else cell st root v.
Proof.
  induction n as [|n IH]; intros st va st' Hs Ha H0 Hl; cbn [map_stack].
  { intros [= <-]. split; [done|]. intros v _. destruct (Z.leb_spec va v), (Z.ltb_spec v (va + Z.of_nat 0 * PAGE_SIZE)); try done. lia. }
  destruct (alloc_page st) as [st1 p] eqn:Ea. destruct (alloc_space st st1 root p Hs Ea) as (S1 & C1 & Hnew).
  destruct (Z.eqb_spec p 0) as [|Hp0]; [done|]. destruct (Hnew Hp0) as (D1 & N1 & Z1). change (Z.lor PTE_USER (Z.lor PTE_WRITABLE PTE_NO_EXECUTE)) with PROT.
  destruct (vmm_map_page st1 root va p PROT) as [st2 rc] eqn:Em. destruct (Z.eqb_spec rc 0) as [->|]; cbn [negb]; [|by intros [= _ ?]].
  assert (Hu : user_addr va) by (unfold user_addr, PAGE_SIZE in *; lia).
  destruct (map_cell st1 root va p PROT st2 S1 Hu D1 N1 Em) as (S2 & _ & _ & _ & _ & _ & C2). intros E.
  destruct (IH st2 (va + PAGE_SIZE) st') as (S3 & C3); auto using page_step; try (unfold PAGE_SIZE in *; lia).
  split; [done|]. intros v Hv. rewrite C3, C2 by done.
  assert (Eq : (v / PAGE_SIZE =? va / PAGE_SIZE) = (va <=? v) && (v <? va + PAGE_SIZE)).
  { apply eq_true_iff_eq. rewrite andb_true_iff, Z.leb_le, Z.ltb_lt, Z.eqb_eq, page_mod_div by done. done. }
  rewrite Eq. rewrite Z1 by (unfold in_block; pose proof (Z.mod_pos_bound v PAGE_SIZE ltac:(done)); unfold PAGE_SIZE in *; lia).
  change (Z.land PROT PROT) with PROT. rewrite C1 by done. unfold PAGE_SIZE in *.
  destruct (Z.leb_spec (va + 4096) v), (Z.ltb_spec v (va + 4096 + Z.of_nat n * 4096)), (Z.leb_spec va v), (Z.ltb_spec v (va + 4096)),
      (Z.ltb_spec v (va + Z.of_nat (S n) * 4096)); cbn [andb]; try done; lia.
Qed.

(** ** Properties *)

Lemma stack_range : stack_low + Z.of_nat stack_pages * PAGE_SIZE = stack_high.
Proof. reflexivity. Qed.

Lemma segment_flags_wx img ph : good_segment img ph -> has (prot ph) PTE_WRITABLE = true -> has (prot ph) PTE_NO_EXECUTE = true.
Proof.
  intros Hg. pose proof (gs_wx _ _ Hg) as H. unfold prot, segment_page_flags.
  destruct (has (p_flags ph) PF_W), (has (p_flags ph) PF_X); try done. by specialize (H eq_refl).
Qed.

(** What a loaded program finds in its address space. *)
Record program st (root : Z) (img : list Z) (eh : ehdr) : Prop := Program {
  pg_space : space_inv st root;
  pg_segment i ph v : 0 <= i < e_phnum eh -> read_phdr img eh i = Some ph -> loadable ph -> in_mem ph v ->
    cell st root v = Some (segment_page_flags (p_flags ph), if in_file ph v then file_byte img ph v else 0);
  pg_stack v : stack_low <= v < stack_high -> cell st root v = Some (PROT, 0);
  pg_only v : user_addr v -> cell st root v <> None ->
    stack_low <= v < stack_high \/
    exists i ph, 0 <= i < e_phnum eh /\ read_phdr img eh i = Some ph /\ loadable ph /\ in_pages ph v;
  pg_entry : exists i ph, 0 <= i < e_phnum eh /\ read_phdr img eh i = Some ph /\ has (p_flags ph) PF_X = true /\ in_mem ph (e_entry eh);
  pg_wx v pr b : user_addr v -> cell st root v = Some (pr, b) -> has pr PTE_WRITABLE = true -> has pr PTE_NO_EXECUTE = true
}.

Lemma stack_program st root img eh segs st' :
  image img -> loaded_inv st root img segs -> gathered img eh (e_phnum eh) segs -> entry_ok eh segs ->
  map_stack st root stack_low stack_pages = (st', 0) -> program st' root img eh.
Proof.
  intros Hi [I1 I2 I3 I4 I5 I6] [G1 G2 G3] (pe & He1 & He2 & He3) Hm.
  destruct (map_stack_cell root stack_pages st stack_low st' I1) as (S' & C); [done|done|done|done|]. rewrite stack_range in C.
  assert (Hseg : forall ph, ph ∈ segs -> forall v, in_mem ph v -> (stack_low <=? v) && (v <? stack_high) = false).
  { intros ph Hph v Hv. pose proof (gs_stack _ _ (I2 ph Hph)) as Hs. unfold in_mem in Hv.
    destruct (Z.leb_spec stack_low v), (Z.ltb_spec v stack_high); try done. lia. }
  assert (Hu : forall ph, ph ∈ segs -> forall v, in_mem ph v -> user_addr v).
  { intros ph Hph v Hv. apply (in_pages_user img ph); [by apply I2|by apply in_mem_pages]. }
  constructor.
  - done.
  - intros i ph v Hr Hp Hl Hv. pose proof (G2 i ph Hr Hp Hl) as Hin. rewrite C, (Hseg ph Hin v Hv) by eauto. fold (prot ph).
    destruct (in_file ph v) eqn:Hf; [by apply I3|]. destruct (I4 ph v Hin (in_mem_pages _ _ Hv)) as [b Hb].
    rewrite Hb. do 2 f_equal. apply (I5 v (prot ph) b); [eauto|done|]. intros o Ho. destruct (in_file o v) eqn:Ef; [|done].
    assert (o = ph) as -> by (apply (G3 o ph v); auto; by apply (in_file_mem img); [apply I2|]). congruence.
  - intros v Hv. rewrite C by (unfold user_addr, stack_low, stack_high, USER_VA_LIMIT in *; lia).
    destruct (Z.leb_spec stack_low v), (Z.ltb_spec v stack_high); try lia. done.
  - intros v Hv. rewrite C by done. destruct (Z.leb_spec stack_low v), (Z.ltb_spec v stack_high); cbn [andb]; [by left|..]; intros Hc; right;
      destruct (I6 v Hv Hc) as (ph & Hph & Hp); destruct (G1 ph Hph) as (j & Hj & Hr); exists j, ph; split_and!; auto; try lia;
      (split; [apply (gs_load img)|pose proof (gs_mem img ph (I2 ph Hph)); lia]); by apply I2.
  - destruct (G1 pe He1) as (j & Hj & Hr). by exists j, pe.
  - intros v pr b Hv. rewrite C by done. destruct (_ && _); [by intros [= <- <-]|]. intros Hc.
    destruct (I6 v Hv ltac:(by rewrite Hc)) as (ph & Hph & Hp). destruct (I4 ph v Hph Hp) as [b' Hb]. rewrite Hb in Hc.
    injection Hc as <- _. apply (segment_flags_wx img). by apply I2.
Qed.

(** No state of the machine makes the loader read outside the image. *)
Definition reads_inside (img : list Z) : Prop := forall st, elf_load st (Some img) <> None.

(** C18. Whatever bytes are handed to the loader and whatever the state of the machine,
    it returns, and it never reads outside the image: every header, every program header
    and every byte of a segment it looks at lies within the size it was given. *)
Theorem elf_load_in_bounds img : image img -> reads_inside img.
Proof. intros Hi st. destruct (elf_load_some st img Hi) as [r ->]. done. Qed.

(** C19. When [elf_load] succeeds, the new address space holds exactly the program:
    every byte of every segment of the file is at its address, the rest of a segment
    reads as zero, the stack is there and zero, each page has the protection its
    segment asks for (never writable and executable), nothing else is mapped in the
    user half, no two pages share a frame, and the entry point lies in an executable
    segment.  Otherwise there is no address space. *)
Theorem elf_load_correct st img st' rc out :
  tree_wf st (kernel_pml4 st) -> image img -> elf_load st (Some img) = Some (st', rc, out) ->
  (rc <> 0 /\ out = None) \/
  (rc = 0 /\ exists root eh, read_ehdr img = Some eh /\ out = Some (root, e_entry eh) /\ program st' root img eh).
Proof.
  intros Hk Hi. unfold elf_load. cbn zeta. split_if E0; [intros [= _ <- <-]; by left|]. apply Z.ltb_ge in E0.
  destruct (read_ehdr_some img Hi E0) as (eh & Eh & Hw). rewrite Eh. cbn [mbind option_bind].
  destruct (Z.eqb_spec (check_header eh (Z.of_nat (length img))) 0) as [E1|]; cbn [negb]; [|intros [= _ <- <-]; by left].
  pose proof (check_header_ok img eh Hw E1) as Hh.
  destruct (vmm_create_user_pml4 st) as [st1 root] eqn:Ec. destruct (Z.eqb_spec root 0) as [|Hr]; [intros [= _ <- <-]; by left|].
  destruct (load_image st1 root img eh) as [[st2 rc2]|] eqn:El; [|done]. cbn [mbind option_bind].
  destruct (Z.eqb_spec rc2 0) as [->|]; cbn [negb]; [|intros [= _ <- <-]; by left]. intros [= <- <- <-]. right. split; [done|].
  exists root, eh. split; [done|]. split; [done|]. revert El. unfold load_image.
  destruct (create_space _ _ _ Hk Ec Hr) as [S1 N1].
  destruct (load_segments st1 root img eh 0 _ 0 false) as [[[[st3 rc3] loads] covered]|] eqn:Els; [|done]. cbn [mbind option_bind].
  destruct (Z.eqb_spec rc3 0) as [->|]; cbn [negb]; [|by intros [= _ ?]]. split_if E3; [by intros [= _ ?]|]. cbn zeta.
  split_if E4; [by intros [= _ ?]|]. intros [= Hst].
  assert (H0 : loaded_inv st1 root img []).
  { constructor; try done; try (intros ph v Hin; by apply not_elem_of_nil in Hin).
    - intros ph Hin. by apply not_elem_of_nil in Hin.
    - intros v pr b Hv Hc. by rewrite N1 in Hc.
    - intros v Hv Hc. by rewrite N1 in Hc. }
  assert (G0 : gathered img eh 0 []) by (constructor; [intros ph Hin; by apply not_elem_of_nil in Hin|lia|intros x y v Hin; by apply not_elem_of_nil in Hin]).
  pose proof Hh as (_ & _ & Hn & _).
  destruct (load_segments_inv img eh root (Z.to_nat (e_phnum eh)) st1 0 0 false st3 loads covered []) as (segs & L & G & He);
    [done|done|done|lia|done|done|done|done|].
  apply orb_false_iff in E3 as [_ E3]. apply negb_false_iff in E3. by apply (stack_program st3 root img eh segs); auto.
Qed.
End Load.

(** ** A concrete program *)

(** One readable and executable segment of four bytes, six in memory. *)
Definition demo_elf : list Z :=
  [0x7f; 69; 76; 70; 2; 1; 1; 0; 0; 0; 0; 0; 0; 0; 0; 0] ++
  le_put 2 ET_EXEC ++ le_put 2 EM_X86_64 ++ le_put 4 1 ++ le_put 8 0x400078 ++ le_put 8 64 ++ le_put 8 0 ++ le_put 4 0 ++
  le_put 2 64 ++ le_put 2 56 ++ le_put 2 1 ++ le_put 6 0 ++
  le_put 4 PT_LOAD ++ le_put 4 (Z.lor PF_R PF_X) ++ le_put 8 120 ++ le_put 8 0x400078 ++ le_put 8 0 ++ le_put 8 4 ++ le_put 8 6 ++ le_put 8 0x1000 ++
  [0x90; 0x90; 0xEB; 0xFE].

Definition demo_ram : pmm := pmm_init (Some [MemmapEntry 0x100000 0x40000 0]).

Definition demo_kernel : mm pmm := let '(st, k) := alloc_page (Mm demo_ram ∅ 0 0) in Mm (frames st) (mem st) k k.

Lemma demo_ram_wf : pmm_wf demo_ram.
Proof. apply pmm_init_inv. unfold PAGE_SIZE. simpl. lia. Qed.

Lemma demo_kernel_tree : tree_wf demo_kernel (kernel_pml4 demo_kernel).
Proof.
  unfold demo_kernel. destruct (alloc_page (Mm demo_ram ∅ 0 0)) as [st k] eqn:Ha.
  assert (Hk : snd (alloc_page (Mm demo_ram ∅ 0 0)) <> 0) by (vm_compute; done). rewrite Ha in Hk. cbn [snd kernel_pml4] in *.
  assert (H0 : fa_wf (frames (Mm demo_ram ∅ 0 0))) by exact demo_ram_wf.
  destruct (alloc_page_spec (Mm demo_ram ∅ 0 0) st k H0 Ha) as (Hwf & _ & [(-> & _)|(Ht & Hin & Hfr & Hz & _)]); [done|].
  apply zeroed_tree; [done|done| |done]. intros a Hb Hfa. by apply Hfr in Hfa as [_ ?].
Qed.

Lemma demo_elf_image : image demo_elf.
Proof. split; [|vm_compute; done]. vm_compute. repeat (constructor; [split; [discriminate|reflexivity]|]). constructor. Qed.

Definition demo_result : mm pmm * Z * option (Z * Z) := default (demo_kernel, -1, None) (elf_load demo_kernel (Some demo_elf)).
Definition demo_state : mm pmm := fst (fst demo_result).

Lemma demo_elf_run : elf_load demo_kernel (Some demo_elf) = Some (demo_state, 0, Some (0x101000, 0x400078)).
Proof.
  assert (E : (fun r => (snd (fst r), snd r)) <$> elf_load demo_kernel (Some demo_elf) = Some (0, Some (0x101000, 0x400078)))
    by (vm_compute; reflexivity).
  unfold demo_state, demo_result. destruct (elf_load demo_kernel (Some demo_elf)) as [[[st rc] out]|]; [|done].
  injection E as -> ->. done.
Qed.

Lemma demo_header : exists eh, read_ehdr demo_elf = Some eh /\ e_entry eh = 0x400078.
Proof. eexists. split; vm_compute; reflexivity. Qed.

Lemma elf_load_in_bounds_witness : image demo_elf /\ reads_inside (A := pmm) demo_elf.
Proof. split; [exact demo_elf_image|]. exact (elf_load_in_bounds demo_elf demo_elf_image). Defined.

Lemma elf_load_correct_witness :
  exists eh, read_ehdr demo_elf = Some eh /\ program demo_state 0x101000 demo_elf eh.
Proof.
  destruct (elf_load_correct demo_kernel demo_elf demo_state 0 (Some (0x101000, 0x400078)) demo_kernel_tree demo_elf_image demo_elf_run)
    as [[H _]|(_ & root & eh & H1 & H2 & H3)]; [destruct (H eq_refl)|].
  exists eh. split; [exact H1|]. injection H2 as -> _. exact H3.
Defined.
