(* ===== verification/Kea.v ===== *)
(** Signed application packages: [kpm/kea_verify.c].

    The package is its bytes, read with bounds checks ([None] is an access outside
    it).  SHA-256 and ECDSA come from BearSSL: they are the interface [Crypto]. *)
From S2P Require Import Prelude.

Definition KEA_MAGIC : Z := 0x0141454B.
Definition KEA_VERSION_LEGACY : Z := 1.
Definition KEA_VERSION : Z := 2.
Definition KEA_FLAG_SIGNED : Z := 1.
Definition KEA_SIGNATURE_ECDSA_P256_SHA256 : Z := 1.
Definition KEA_SIGNATURE_SIZE : Z := 64.
Definition KEA_KEY_ID_SIZE : Z := 16.
Definition KEA_DIGEST_SIZE : Z := 32.
Definition KEA_MAX_DEPENDENCIES : Z := 16.
Definition KEA_PERM_FS : Z := 2.
Definition KEA_PERM_GUI : Z := 8.
Definition KEA_PERM_ROOT : Z := 16.

Definition KEA_VERIFY_OK : Z := 0.
Definition KEA_VERIFY_FORMAT : Z := -1.
Definition KEA_VERIFY_BOUNDS : Z := -2.
Definition KEA_VERIFY_CHECKSUM : Z := -3.
Definition KEA_VERIFY_UNSIGNED : Z := -4.
Definition KEA_VERIFY_UNTRUSTED : Z := -5.
Definition KEA_VERIFY_DIGEST : Z := -6.
Definition KEA_VERIFY_SIGNATURE : Z := -7.

(** [sizeof(kea_header_t)], [sizeof(kea_header_v2_t)], [sizeof(kea_dependency_t)]. *)
Definition HDR : Z := 248.
Definition HDR_V2 : Z := 312.
Definition DEP : Z := 48.

Record kea_header := KeaHeader {
  magic : Z; hdr_size : Z; version : Z; kflags : Z; permissions : Z; icon_offset : Z; icon_size : Z;
  elf_offset : Z; elf_size : Z; checksum : Z
}.

Record kea_header_v2 := KeaHeaderV2 {
  dependency_offset : Z; dependency_count : Z; dependency_stride : Z; signature_offset : Z; signature_size : Z;
  signature_algorithm : Z; key_id : list Z; package_sha256 : list Z
}.

Definition read_base (data : list Z) : option kea_header :=
  m ← rd data 0 4; hs ← rd data 4 4; v ← rd data 8 2; f ← rd data 10 2; perm ← rd data 172 4; io ← rd data 176 4;
  isz ← rd data 180 4; eo ← rd data 188 8; es ← rd data 196 8; ck ← rd data 212 4;
  Some (KeaHeader m hs v f perm io isz eo es ck).

Definition read_v2 (data : list Z) : option kea_header_v2 :=
  off ← rd data 248 4; n ← rd data 252 2; stride ← rd data 254 2; so ← rd data 256 4; ss ← rd data 260 2;
  alg ← rd data 262 2; key ← slice data 264 KEA_KEY_ID_SIZE; sha ← slice data 280 KEA_DIGEST_SIZE;
  Some (KeaHeaderV2 off n stride so ss alg key sha).

(** ** Checksum *)

Definition crc_bit (crc : Z) : Z := Z.lxor (Z.shiftr crc 1) (if Z.testbit crc 0 then 0xEDB88320 else 0).
Definition crc_byte (crc b : Z) : Z := Nat.iter 8 crc_bit (Z.lxor crc b).
Definition crc32 (data : list Z) : Z := Z.lxor (fold_left crc_byte data 0xFFFFFFFF) 0xFFFFFFFF.

(** [diff |= a[i] ^ b[i]] over two arrays. *)
Fixpoint diff_bytes (a b : list Z) : Z :=
  match a, b with x :: a, y :: b => Z.lor (Z.lxor x y) (diff_bytes a b) | _, _ => 0 end.
Definition bytes_equal (a b : list Z) : bool := diff_bytes a b =? 0.

(** ** Headers *)

Definition base_valid (h : kea_header) (size : Z) : bool :=
  let allowed := 31 in
  if negb (magic h =? KEA_MAGIC) || has (permissions h) (u32 (Z.lnot allowed)) then false
  else if (size <? icon_offset h) || (size - icon_offset h <? icon_size h) then false
  else if (size <? elf_offset h) || (size - elf_offset h <? elf_size h) || (elf_size h <? 4) then false
  else true.

(** The header, when there is a valid one; the outer [None] is a bad access. *)
Definition kea_base_header (data : list Z) : option (option kea_header) :=
  let size := Z.of_nat (length data) in
  if size <? HDR then Some None
  else h ← read_base data; Some (if base_valid h size then Some h else None).

(** The dependency table (offset and count), or nothing. *)
Definition kea_dependencies (data : list Z) : option (option (Z * Z)) :=
  let size := Z.of_nat (length data) in
  base ← kea_base_header data;
  match base with
  | None => Some None
  | Some base =>
      if negb (version base =? KEA_VERSION) || negb (hdr_size base =? HDR_V2) then Some None
      else
        h ← read_v2 data;
        let bytes := dependency_count h * dependency_stride h in
        if (KEA_MAX_DEPENDENCIES <? dependency_count h) || negb (dependency_stride h =? DEP) ||
           (size <? dependency_offset h) || (size - dependency_offset h <? bytes) then Some None
        else if dependency_count h =? 0 then Some None
        else Some (Some (dependency_offset h, dependency_count h))
  end.

(** ** Verification *)

Class Crypto := {
  sha256 : list Z -> list Z;
  ecdsa_verify : list Z -> list Z -> list Z -> bool
}.

(** SHA-256 digests have 32 bytes. *)
Class CryptoLaws `{Crypto} := { sha256_length m : length (sha256 m) = 32%nat }.

(** [g_kpm_trusted_keys]: key id and public key. *)
Definition trusted_keys : list (list Z * list Z) := [
  ([206; 37; 20; 247; 32; 211; 229; 253; 52; 30; 123; 217; 107; 131; 249; 158],
   [4; 36; 211; 187; 9; 18; 184; 96; 229; 177; 185; 200; 96; 254; 82; 144; 176; 12; 178; 135; 251; 218;
    37; 73; 254; 52; 253; 78; 142; 19; 34; 87; 206; 210; 59; 162; 207; 44; 196; 58; 252; 161; 171; 231;
    144; 21; 135; 162; 1; 234; 161; 80; 106; 54; 186; 192; 90; 29; 33; 13; 249; 96; 129; 56; 224])].

Definition find_trusted (id : list Z) : option (list Z * list Z) := List.find (fun k => bytes_equal id (fst k)) trusted_keys.

Section Kea.
Context `{Crypto}.

(** The message that is hashed: the package up to the signature, its digest field
    replaced by zeros. *)
Definition hashed (data : list Z) (signature_offset : Z) : option (list Z) :=
  pre ← slice data 0 280;
  post ← slice data (280 + KEA_DIGEST_SIZE) (signature_offset - 280 - KEA_DIGEST_SIZE);
  Some (pre ++ replicate (Z.to_nat KEA_DIGEST_SIZE) 0 ++ post).

Definition verify_v2 (data : list Z) (base : kea_header) : option Z :=
  let size := Z.of_nat (length data) in
  h ← read_v2 data;
  if negb (has (kflags base) KEA_FLAG_SIGNED) || negb (signature_algorithm h =? KEA_SIGNATURE_ECDSA_P256_SHA256) ||
     negb (signature_size h =? KEA_SIGNATURE_SIZE) then Some KEA_VERIFY_UNSIGNED
  else if (signature_offset h <? HDR_V2) || (size <? signature_offset h) || (size - signature_offset h <? signature_size h) ||
          negb (u32 (signature_offset h + signature_size h) =? size) then Some KEA_VERIFY_BOUNDS
  else
    deps ← (if dependency_count h =? 0 then Some (Some (0, 0)) else kea_dependencies data);
    match deps with
    | None => Some KEA_VERIFY_BOUNDS
    | Some _ =>
        match find_trusted (key_id h) with
        | None => Some KEA_VERIFY_UNTRUSTED
        | Some trusted =>
            msg ← hashed data (signature_offset h);
            let digest := sha256 msg in
            if negb (bytes_equal digest (package_sha256 h)) then Some KEA_VERIFY_DIGEST
            else
              sig ← slice data (signature_offset h) (signature_size h);
              Some (if ecdsa_verify digest (snd trusted) sig then KEA_VERIFY_OK else KEA_VERIFY_SIGNATURE)
        end
    end.

Definition kea_verify_package (data : list Z) (require_signature : bool) : option Z :=
  let size := Z.of_nat (length data) in
  base ← kea_base_header data;
  match base with
  | None => Some KEA_VERIFY_FORMAT
  | Some base =>
      elf ← slice data (elf_offset base) (elf_size base);
      if negb (crc32 elf =? checksum base) then Some KEA_VERIFY_CHECKSUM
      else if (version base =? KEA_VERSION_LEGACY) && (hdr_size base =? HDR) then
        Some (if require_signature then KEA_VERIFY_UNSIGNED else KEA_VERIFY_OK)
      else if negb (version base =? KEA_VERSION) || negb (hdr_size base =? HDR_V2) || (size <? HDR_V2) then Some KEA_VERIFY_FORMAT
      else verify_v2 data base
  end.
End Kea.
