(* ===== verification/KeaSpec.v ===== *)
(** Package verification: every package is answered without a read outside it, and
    exactly the well-formed packages that are legacy or properly signed are accepted. *)
From S2P Require Import Prelude Kea.

(** ** Byte comparison *)

Lemma lor_zero a b : 0 <= a -> Z.lor a b = 0 <-> a = 0 /\ b = 0.
Proof. intros _. apply Z.lor_eq_0_iff. Qed.

Lemma diff_bytes_zero a b : length a = length b -> diff_bytes a b = 0 <-> a = b.
Proof.
  revert b. induction a as [|x a IH]; intros [|y b] Hl; try done. cbn [diff_bytes].
  rewrite Z.lor_eq_0_iff, Z.lxor_eq_0_iff, IH by (cbn in Hl; lia). split; [by intros [-> ->]|by intros [= -> ->]].
Qed.

Lemma bytes_equal_spec a b : length a = length b -> bytes_equal a b = bool_decide (a = b).
Proof.
  intros Hl. unfold bytes_equal. destruct (Z.eqb_spec (diff_bytes a b) 0) as [E|E].
  - rewrite bool_decide_eq_true_2; [done|]. by apply diff_bytes_zero.
  - rewrite bool_decide_eq_false_2; [done|]. intros ->. apply E. by apply diff_bytes_zero.
Qed.

Lemma slice_length img off n bs : slice img off n = Some bs -> length bs = Z.to_nat n.
Proof. intros (_ & _ & _ & Hl & _)%slice_inv. lia. Qed.

(** ** Reading the headers *)

Record base_wf (b : kea_header) : Prop := BaseWf {
  bw_icon_offset : 0 <= icon_offset b; bw_icon_size : 0 <= icon_size b;
  bw_elf_offset : 0 <= elf_offset b; bw_elf_size : 0 <= elf_size b
}.
Record v2_wf (h : kea_header_v2) : Prop := V2Wf {
  vw_offset : 0 <= dependency_offset h; vw_count : 0 <= dependency_count h; vw_stride : 0 <= dependency_stride h;
  vw_key : length (key_id h) = 16%nat; vw_sha : length (package_sha256 h) = 32%nat
}.

Lemma read_base_some data : image data -> HDR <= Z.of_nat (length data) -> exists b, read_base data = Some b /\ base_wf b.
Proof.
  unfold HDR. intros Hi Hl. unfold read_base. do 10 read_field Hi. eexists. split; [done|]. constructor; cbn; lia.
Qed.

Lemma read_v2_some data : image data -> HDR_V2 <= Z.of_nat (length data) -> exists h, read_v2 data = Some h /\ v2_wf h.
Proof.
  unfold HDR_V2. intros Hi Hl. unfold read_v2. do 6 read_field Hi. unfold KEA_KEY_ID_SIZE, KEA_DIGEST_SIZE.
  destruct (slice data 264 16) as [key|] eqn:K; [|by rewrite slice_some in K by lia].
  destruct (slice data 280 32) as [sha|] eqn:S; [|by rewrite slice_some in S by lia].
  eexists. split; [done|]. constructor; cbn; try lia; [by rewrite (slice_length _ _ _ _ K)|by rewrite (slice_length _ _ _ _ S)].
Qed.

(** ** What is accepted *)

(** The fixed header, and the program within the package with its checksum. *)
Record base_ok (data : list Z) (b : kea_header) : Prop := BaseOk {
  bo_read : read_base data = Some b;
  bo_size : HDR <= Z.of_nat (length data);
  bo_magic : magic b = KEA_MAGIC;
  bo_permissions : Z.land (permissions b) (u32 (Z.lnot 31)) = 0;
  bo_icon : icon_offset b + icon_size b <= Z.of_nat (length data);
  bo_elf : elf_offset b + elf_size b <= Z.of_nat (length data);
  bo_elf_size : 4 <= elf_size b
}.

Definition program (data : list Z) (b : kea_header) : list Z :=
  take (Z.to_nat (elf_size b)) (drop (Z.to_nat (elf_offset b)) data).

(** Everything but the signature, the digest field counting as zeros. *)
Definition signed_part (data : list Z) : list Z :=
  take 280 data ++ replicate 32 0 ++ drop 312 (take (length data - 64) data).
Definition signature (data : list Z) : list Z := drop (length data - 64) data.

Section Accepted.
Context `{CR : Crypto, !CryptoLaws}.

Record signed (data : list Z) (b : kea_header) (h : kea_header_v2) (key : list Z) : Prop := Signed {
  sg_read : read_v2 data = Some h;
  sg_size : HDR_V2 + 64 <= Z.of_nat (length data) < 2 ^ 32;
  sg_version : version b = KEA_VERSION /\ hdr_size b = HDR_V2;
  sg_flag : has (kflags b) KEA_FLAG_SIGNED = true;
  sg_algorithm : signature_algorithm h = KEA_SIGNATURE_ECDSA_P256_SHA256 /\ signature_size h = KEA_SIGNATURE_SIZE;
  sg_last : signature_offset h = Z.of_nat (length data) - 64;
  sg_dependencies : dependency_count h = 0 \/
    dependency_count h <= KEA_MAX_DEPENDENCIES /\ dependency_stride h = DEP /\
    dependency_offset h + dependency_count h * DEP <= Z.of_nat (length data);
  sg_trusted : In (key_id h, key) trusted_keys;
  sg_digest : package_sha256 h = sha256 (signed_part data);
  sg_signature : ecdsa_verify (sha256 (signed_part data)) key (signature data) = true
}.

Definition accepted (data : list Z) (require_signature : bool) : Prop :=
  exists b, base_ok data b /\ crc32 (program data b) = checksum b /\
    (version b = KEA_VERSION_LEGACY /\ hdr_size b = HDR /\ require_signature = false \/
     exists h key, signed data b h key).

(** ** Proof *)

Lemma base_valid_iff data b :
  read_base data = Some b -> base_wf b -> HDR <= Z.of_nat (length data) ->
  base_valid b (Z.of_nat (length data)) = true <-> base_ok data b.
Proof.
  intros Hr [W1 W2 W3 W4] Hs. unfold base_valid. cbn zeta. unfold has. split.
  - split_if E1; [done|]. split_if E2; [done|]. split_if E3; [done|]. intros _.
    rewrite ?orb_false_iff, ?negb_false_iff, ?Z.ltb_ge, ?Z.eqb_eq in *. constructor; try done; lia.
  - intros [_ _ H1 H2 H3 H4 H5]. rewrite H1, H2, !Z.eqb_refl. cbn [negb orb].
    rewrite !(proj2 (Z.ltb_ge _ _)) by lia. done.
Qed.

Lemma base_header_spec data :
  image data -> exists r, kea_base_header data = Some r /\
    match r with Some b => base_ok data b /\ base_wf b | None => forall b, ~ base_ok data b end.
Proof.
  intros Hi. unfold kea_base_header. cbn zeta. destruct (Z.ltb_spec (Z.of_nat (length data)) HDR) as [Hs|Hs].
  { exists None. split; [done|]. intros b Hb. pose proof (bo_size _ _ Hb). lia. }
  destruct (read_base_some data Hi Hs) as (b & Hb & Hw). rewrite Hb. cbn [mbind option_bind].
  pose proof (base_valid_iff data b Hb Hw Hs) as Hv. destruct (base_valid b _).
  - exists (Some b). split; [done|]. split; [by apply Hv|done].
  - exists None. split; [done|]. intros b' Hb'. pose proof (bo_read _ _ Hb') as Hr. rewrite Hb in Hr. injection Hr as <-.
    by apply Hv in Hb'.
Qed.

Lemma kea_dependencies_spec data b h :
  image data -> base_ok data b -> version b = KEA_VERSION -> hdr_size b = HDR_V2 -> read_v2 data = Some h -> v2_wf h ->
  0 < dependency_count h -> exists r, kea_dependencies data = Some r /\
    (r <> None <-> dependency_count h <= KEA_MAX_DEPENDENCIES /\ dependency_stride h = DEP /\
      dependency_offset h + dependency_count h * DEP <= Z.of_nat (length data)).
Proof.
  intros Hi Hb Hv Hs Hr [W1 W2 W3 _ _] Hc. unfold kea_dependencies. cbn zeta.
  destruct (base_header_spec data Hi) as ([b'|] & -> & Hb'); [|by apply Hb' in Hb]. destruct Hb' as [Hb' _].
  pose proof (bo_read _ _ Hb) as R. rewrite (bo_read _ _ Hb') in R. injection R as ->.
  cbn [mbind option_bind]. rewrite Hv, Hs, !Z.eqb_refl. cbn [negb orb]. rewrite Hr. cbn [mbind option_bind].
  unfold DEP in *. split_if E.
  - exists None. split; [done|]. split; [done|]. intros (H1 & H2 & H3). rewrite H2 in E. exfalso. revert E.
    rewrite !orb_true_iff, negb_true_iff, !Z.ltb_lt, Z.eqb_neq. lia.
  - rewrite !orb_false_iff, negb_false_iff, !Z.ltb_ge, Z.eqb_eq in E. destruct E as [[[E1 E2] E3] E4].
    rewrite (proj2 (Z.eqb_neq _ _)) by lia. eexists. split; [done|]. split; [|done]. intros _. rewrite E2 in E4. lia.
Qed.

Lemma find_trusted_spec id :
  length id = 16%nat -> match find_trusted id with
  | Some k => k = (id, snd k) /\ In (id, snd k) trusted_keys
  | None => forall key, ~ In (id, key) trusted_keys end.
Proof.
  intros Hl. unfold find_trusted. destruct (List.find _ trusted_keys) as [[i k]|] eqn:E.
  - destruct (List.find_some _ _ E) as [Hin He]. cbn [fst snd] in *.
    assert (Hi : length i = 16%nat) by (destruct Hin as [[= <- <-]|[]]; done).
    rewrite bytes_equal_spec, bool_decide_eq_true in He by lia. by subst i.
  - intros key Hin. pose proof (List.find_none _ _ E _ Hin) as He. cbn [fst] in He.
    rewrite bytes_equal_spec, bool_decide_eq_false in He by done. done.
Qed.

Lemma trusted_unique id k k' : In (id, k) trusted_keys -> In (id, k') trusted_keys -> k = k'.
Proof. intros [[= <- <-]|[]] [[= ->]|[]]. done. Qed.

Lemma hashed_spec data so :
  Z.of_nat (length data) - 64 = so -> HDR_V2 <= so -> hashed data so = Some (signed_part data).
Proof.
  unfold HDR_V2, hashed, KEA_DIGEST_SIZE. intros Hl Ho. rewrite !slice_some by lia. cbn [mbind option_bind].
  unfold signed_part. rewrite drop_0, take_drop_commute.
  by replace (Z.to_nat (280 + 32) + Z.to_nat (so - 280 - 32))%nat with (length data - 64)%nat by lia.
Qed.

Lemma verify_v2_spec data b :
  image data -> base_ok data b -> version b = KEA_VERSION -> hdr_size b = HDR_V2 -> HDR_V2 <= Z.of_nat (length data) ->
  exists rc, verify_v2 data b = Some rc /\ (rc = KEA_VERIFY_OK <-> exists h key, signed data b h key).
Proof.
  intros Hi Hb Hv Hs Hl. unfold verify_v2. cbn zeta. destruct (read_v2_some data Hi Hl) as (h & Hr & Hw). rewrite Hr.
  cbn [mbind option_bind].
  assert (U : forall h' key, signed data b h' key -> h' = h) by (intros h' key [R _ _ _ _ _ _ _ _ _]; congruence).
  split_if E1.
  { eexists. split; [done|]. split; [done|]. intros (h' & key & Hg). rewrite (U _ _ Hg) in Hg.
    destruct (sg_algorithm _ _ _ _ Hg) as [A1 A2]. by rewrite (sg_flag _ _ _ _ Hg), A1, A2 in E1. }
  rewrite !orb_false_iff, !negb_false_iff, !Z.eqb_eq in E1. destruct E1 as [[F1 F2] F3]. split_if E2.
  { eexists. split; [done|]. split; [done|]. intros (h' & key & Hg). rewrite (U _ _ Hg) in Hg. pose proof (sg_last _ _ _ _ Hg) as L.
    pose proof (sg_size _ _ _ _ Hg) as Z1. rewrite F3, L in E2. exfalso. revert E2. unfold KEA_SIGNATURE_SIZE, HDR_V2 in *.
    rewrite !orb_true_iff, negb_true_iff, !Z.ltb_lt, Z.eqb_neq.
    replace (Z.of_nat (length data) - 64 + 64) with (Z.of_nat (length data)) by lia. rewrite uwrap_id by (unfold fits; lia). lia. }
  unfold KEA_SIGNATURE_SIZE in F3. rewrite F3 in *.
  rewrite !orb_false_iff, negb_false_iff, !Z.ltb_ge, Z.eqb_eq in E2. destruct E2 as [[[E2 E3] E4] E5].
  assert (Ho : signature_offset h + 64 < 2 ^ 32 /\ signature_offset h = Z.of_nat (length data) - 64).
  { pose proof (Z.mod_pos_bound (signature_offset h + 64) (2 ^ 32) ltac:(lia)) as B.
    pose proof (Z.mod_le (signature_offset h + 64) (2 ^ 32)) as B'. unfold uwrap, HDR_V2 in *. lia. }
  destruct Ho as [Ho Hlast].
  assert (Hd : exists r, (if dependency_count h =? 0 then Some (Some (0, 0)) else kea_dependencies data) = Some r /\
    (r <> None <-> dependency_count h = 0 \/ dependency_count h <= KEA_MAX_DEPENDENCIES /\ dependency_stride h = DEP /\
      dependency_offset h + dependency_count h * DEP <= Z.of_nat (length data))).
  { destruct (Z.eqb_spec (dependency_count h) 0) as [Z0|Z0]; [by eexists; split; [done|]; split; [by left|]|].
    destruct (kea_dependencies_spec data b h) as (r & Er & Hx); try done.
    { pose proof (vw_count _ Hw). lia. }
    exists r. split; [done|]. rewrite Hx. tauto. }
  destruct Hd as (r & -> & Hd). cbn [mbind option_bind]. destruct r as [d|].
  2:{ eexists. split; [done|]. split; [done|]. intros (h' & key & Hg). rewrite (U _ _ Hg) in Hg.
      exfalso. by apply (proj2 Hd (sg_dependencies _ _ _ _ Hg)). }
  pose proof (find_trusted_spec (key_id h) (vw_key _ Hw)) as Ht. destruct (find_trusted (key_id h)) as [k|].
  2:{ eexists. split; [done|]. split; [done|]. intros (h' & key & Hg). rewrite (U _ _ Hg) in Hg.
      by destruct (Ht key (sg_trusted _ _ _ _ Hg)). }
  destruct Ht as [Hk Ht]. rewrite (hashed_spec data) by done. cbn [mbind option_bind]. cbn zeta.
  rewrite bytes_equal_spec by (rewrite sha256_length; symmetry; apply (vw_sha _ Hw)).
  destruct (bool_decide_reflect (sha256 (signed_part data) = package_sha256 h)) as [Hsha|Hsha]; cbn [negb].
  2:{ eexists. split; [done|]. split; [done|]. intros (h' & key & Hg). rewrite (U _ _ Hg) in Hg.
      by destruct Hsha; rewrite (sg_digest _ _ _ _ Hg). }
  rewrite slice_some by (unfold HDR_V2 in *; lia). cbn [mbind option_bind].
  assert (Es : take (Z.to_nat 64) (drop (Z.to_nat (signature_offset h)) data) = signature data).
  { unfold signature. replace (Z.to_nat (signature_offset h)) with (length data - 64)%nat by lia.
    apply take_ge. rewrite length_drop. lia. }
  rewrite Es. eexists. split; [done|]. split.
  - destruct (ecdsa_verify _ _ _) eqn:Hc; [|done]. intros _. exists h, (snd k).
    constructor; try done; [unfold HDR_V2 in *; lia|by apply Hd].
  - intros (h' & key & Hg). rewrite (U _ _ Hg) in Hg.
    by rewrite (trusted_unique _ _ _ Ht (sg_trusted _ _ _ _ Hg)), (sg_signature _ _ _ _ Hg).
Qed.

Lemma kea_answers data require_signature :
  image data -> exists rc, kea_verify_package data require_signature = Some rc /\
    (rc = KEA_VERIFY_OK <-> accepted data require_signature).
Proof.
  intros Hi. unfold kea_verify_package, accepted. cbn zeta.
  destruct (base_header_spec data Hi) as ([b|] & -> & Hb); cbn [mbind option_bind].
  2:{ eexists. split; [done|]. split; [done|]. intros (b & Hb' & _). by apply Hb in Hb'. }
  destruct Hb as [Hb [W1 W2 W3 W4]]. assert (U : forall b', base_ok data b' -> b' = b).
  { intros b' Hb'. pose proof (bo_read _ _ Hb'). pose proof (bo_read _ _ Hb). congruence. }
  rewrite slice_some by (try done; apply Hb). cbn [mbind option_bind]. fold (program data b).
  destruct (Z.eqb_spec (crc32 (program data b)) (checksum b)) as [Hc|Hc]; cbn [negb].
  2:{ eexists. split; [done|]. split; [done|]. intros (b' & Hb' & Hc' & _). by rewrite (U _ Hb') in Hc'. }
  split_if E1.
  { apply andb_true_iff in E1 as [E1 E2]. apply Z.eqb_eq in E1, E2. eexists. split; [done|]. split.
    - destruct require_signature; [done|]. intros _. exists b. split; [done|]. split; [done|]. by left.
    - intros (b' & Hb' & _ & [(_ & _ & ->)|(h & key & Hg)]); [done|]. rewrite (U _ Hb') in Hg.
      destruct (sg_version _ _ _ _ Hg) as [V _]. by rewrite E1 in V. }
  assert (E1' : ~ (version b = KEA_VERSION_LEGACY /\ hdr_size b = HDR)).
  { intros [V S]. by rewrite V, S in E1. }
  split_if E2.
  { eexists. split; [done|]. split; [done|]. intros (b' & Hb' & _ & [(V & S & _)|(h & key & Hg)]); rewrite (U _ Hb') in *; [tauto|].
    destruct (sg_version _ _ _ _ Hg) as [V S]. pose proof (sg_size _ _ _ _ Hg). rewrite V, S, !Z.eqb_refl in E2. cbn in E2.
    apply Z.ltb_lt in E2. unfold HDR_V2 in *. lia. }
  rewrite !orb_false_iff, !negb_false_iff, !Z.eqb_eq, Z.ltb_ge in E2. destruct E2 as [[V S] Hl].
  destruct (verify_v2_spec data b Hi Hb V S Hl) as (rc & -> & Hrc). eexists. split; [done|]. rewrite Hrc. split.
  - intros Hg. exists b. auto.
  - intros (b' & Hb' & _ & [(V' & S' & _)|Hg]); rewrite (U _ Hb') in *; tauto.
Qed.

(** C17. Whatever bytes it is given, package verification answers without reading outside
    them, and it answers OK exactly when the header is well formed, the program and the
    icon lie inside the package, the checksum matches the program, and the package
    is either a legacy one where no signature is required or it is signed: its
    dependency table lies inside it, and a key of the build's list verifies the last 64 bytes
    as the signature of the SHA-256 digest of everything before them. *)
Theorem kea_verify_package_correct data require_signature :
  image data -> exists rc, kea_verify_package data require_signature = Some rc /\
    (rc = KEA_VERIFY_OK <-> accepted data require_signature).
Proof. apply kea_answers. Qed.
End Accepted.

(** ** A signed package *)

(** Stand-ins for the library: a digest of 32 bytes and a signature test that depend on
    their input. *)
#[local] Instance toy_crypto : Crypto := {
  sha256 m := le_put 32 (fold_left (fun a b => (a * 257 + b) mod 1000003) m 0);
  ecdsa_verify digest key sig := bool_decide (take 32 sig = digest) && (length key =? 65)%nat
}.
#[local] Instance toy_laws : CryptoLaws.
Proof. constructor. intros m. apply length_le_put. Qed.

(** A package for a program, with the given digest and signature. *)
Definition demo_package (elf digest sig : list Z) : list Z :=
  let n := Z.of_nat (length elf) in
  le_put 4 KEA_MAGIC ++ le_put 4 HDR_V2 ++ le_put 2 KEA_VERSION ++ le_put 2 KEA_FLAG_SIGNED ++ replicate 31 65 ++ [0] ++
  replicate 128 65 ++ le_put 4 KEA_PERM_ROOT ++ replicate 12 0 ++ le_put 8 312 ++ le_put 8 n ++ replicate 8 0 ++
  le_put 4 (crc32 elf) ++ replicate 32 0 ++
  le_put 4 0 ++ le_put 2 0 ++ le_put 2 0 ++ le_put 4 (312 + n) ++ le_put 2 64 ++ le_put 2 1 ++
  fst (nth 0 trusted_keys ([], [])) ++ digest ++ elf ++ sig.

(** The package signed for the stand-ins. *)
Definition demo_signed (elf : list Z) : list Z :=
  let digest := sha256 (signed_part (demo_package elf (replicate 32 0) (replicate 64 0))) in
  demo_package elf digest (digest ++ replicate 32 0).

Definition demo : list Z := Eval vm_compute in demo_signed [127; 69; 76; 70].

Lemma demo_image : image demo.
Proof. apply bytes_image; vm_compute; reflexivity. Qed.

Lemma demo_ok : kea_verify_package demo true = Some KEA_VERIFY_OK.
Proof. vm_compute. reflexivity. Qed.

(** The package is accepted with a signature required, and so it is signed. *)
Lemma kea_verify_package_correct_witness : image demo /\ accepted demo true.
Proof.
  split; [exact demo_image|]. destruct (kea_verify_package_correct demo true demo_image) as (rc & E & H).
  rewrite demo_ok in E. injection E as <-. by apply H.
Defined.
