(* ===== verification/Files.v ===== *)
(** What the package manager and the system updates use of the rest of the kernel: files,
    downloads and scratch memory, with the laws they rely on; and a store that keeps them. *)
From Stdlib Require Import String Ascii.
From S2P Require Import Prelude Pmm Vmm.

Abbreviation path := (list Z).

(** The characters of a C string constant. *)
Fixpoint str (s : string) : list Z :=
  match s with EmptyString => [] | String c s => Z.of_nat (nat_of_ascii c) :: str s end.

(** Files, by path.  [vfs_read] gives the result and the bytes stored in the buffer;
    [vfs_stat] size and kind; [vfs_list] the count, and name and kind of each entry. *)
Class Files (W : Type) := {
  vfs_read : W -> path -> Z -> W * Z * list Z;
  vfs_write : W -> path -> list Z -> W * Z;
  vfs_delete : W -> path -> W * Z;
  vfs_mkdir : W -> path -> W * Z;
  vfs_exists : W -> path -> bool;
  vfs_stat : W -> path -> option (Z * bool);
  vfs_list : W -> path -> Z -> W * Z * list (path * bool)
}.

(** [kesh_https_get]: result, status and the bytes of the response. *)
Class Https (W : Type) := { kesh_https_get : W -> list Z -> Z -> W * Z * Z * list Z }.

(** The laws: reads give the leading bytes of the contents, a write replaces the contents
    of its file or fails and changes nothing, distinct paths are distinct files, and the
    bytes of files and responses are bytes. *)
Class FilesLaws (W : Type) `{FS : Files W, FA : FrameAllocator W, HS : Https W} := {
  content : W -> path -> option (list Z);
  content_bytes w p c : content w p = Some c -> Forall (fun b => 0 <= b < 256) c /\ Z.of_nat (length c) < 2 ^ 32;
  read_law w p n w' rc out : vfs_read w p n = (w', rc, out) ->
    (forall q, content w' q = content w q) /\
    (0 < rc -> exists c, content w p = Some c /\ out = take (Z.to_nat n) c /\ rc = Z.of_nat (length out));
  write_law w p d w' rc : vfs_write w p d = (w', rc) ->
    (forall q, q <> p -> content w' q = content w q) /\
    (rc = Z.of_nat (length d) -> content w' p = Some d) /\ (rc <> Z.of_nat (length d) -> content w' p = content w p);
  delete_law w p w' rc : vfs_delete w p = (w', rc) ->
    (forall q, q <> p -> content w' q = content w q) /\ (content w' p = None \/ content w' p = content w p) /\
    (rc = 0 -> content w' p = None);
  mkdir_law w p w' rc q : vfs_mkdir w p = (w', rc) -> content w' q = content w q;
  stat_law w p size is_dir c : vfs_stat w p = Some (size, is_dir) -> content w p = Some c -> size = Z.of_nat (length c);
  list_law w p n w' rc l : vfs_list w p n = (w', rc, l) -> (forall q, content w' q = content w q) /\ Forall (fun e => (length (fst e) <= 63)%nat) l;
  alloc_law w n q : content (fst (fa_alloc_pages w n)) q = content w q;
  free_law w a n q : content (fst (fa_free_pages w a n)) q = content w q;
  https_law w url n w' result status response q : kesh_https_get w url n = (w', result, status, response) ->
    content w' q = content w q /\ Forall (fun b => 0 <= b < 256) response /\ (0 <= n -> Z.of_nat (length response) <= n)
}.

(** ** A store of files *)

(** The files, the paths that cannot be written, the directories, and what the server
    answers to an address. *)
Record store := Store { st_files : list (path * list Z); st_full : list path; st_dirs : list path; st_server : list (list Z * list Z) }.

Fixpoint assoc {A} (p : path) (l : list (path * A)) : option A :=
  match l with [] => None | (q, x) :: l => if bool_decide (q = p) then Some x else assoc p l end.
Definition without {A} (p : path) (l : list (path * A)) : list (path * A) := List.filter (fun x => negb (bool_decide (fst x = p))) l.

Lemma assoc_without {A} p q (l : list (path * A)) : assoc q (without p l) = if bool_decide (q = p) then None else assoc q l.
Proof.
  unfold without. induction l as [|[r x] l IH]; cbn [assoc List.filter fst]; [by case_bool_decide|].
  destruct (decide (r = p)) as [->|Hr]; [rewrite (bool_decide_eq_true_2 (p = p)) by done|rewrite (bool_decide_eq_false_2 (r = p)) by done]; cbn [negb assoc]; rewrite IH.
  - destruct (decide (q = p)) as [->|Hq]; [by rewrite !(bool_decide_eq_true_2 (p = p)) by done|].
    by rewrite (bool_decide_eq_false_2 (p = q)) by congruence.
  - destruct (decide (r = q)) as [->|Hq]; [|by rewrite (bool_decide_eq_false_2 (r = q)) by done].
    by rewrite (bool_decide_eq_true_2 (q = q)), (bool_decide_eq_false_2 (q = p)) by done.
Qed.

(** Bytes that can be a file. *)
Definition valid_file (c : list Z) : bool := forallb (fun b => (0 <=? b) && (b <? 256)) c && (Z.of_nat (length c) <? 2 ^ 32).
Definition file_of (w : store) (p : path) : option (list Z) := c ← assoc p (st_files w); if valid_file c then Some c else None.

Lemma valid_file_bytes c : valid_file c = true -> Forall (fun b => 0 <= b < 256) c /\ Z.of_nat (length c) < 2 ^ 32.
Proof.
  unfold valid_file. rewrite andb_true_iff, Z.ltb_lt, forallb_forall. intros [H1 H2]. split; [|done]. apply Forall_forall. intros x Hx.
  apply list_elem_of_In, H1 in Hx. lia.
Qed.

#[export] Instance store_files : Files store := {
  vfs_read w p n := match file_of w p with
    | Some c => if 0 <? n then (w, Z.of_nat (length (take (Z.to_nat n) c)), take (Z.to_nat n) c) else (w, -1, [])
    | None => (w, -2, []) end;
  vfs_write w p d := if existsb (fun q => bool_decide (q = p)) (st_full w) || negb (valid_file d) then (w, -8)
    else (Store ((p, d) :: without p (st_files w)) (st_full w) (st_dirs w) (st_server w), Z.of_nat (length d));
  vfs_delete w p := match file_of w p with
    | Some _ => (Store (without p (st_files w)) (st_full w) (st_dirs w) (st_server w), 0) | None => (w, -2) end;
  vfs_mkdir w p := (Store (st_files w) (st_full w) (p :: st_dirs w) (st_server w), 0);
  vfs_exists w p := existsb (fun q => bool_decide (q = p)) (st_dirs w);
  vfs_stat w p := (fun c => (Z.of_nat (length c), false)) <$> file_of w p;
  vfs_list w p n :=
    let inside := List.filter (fun x => bool_decide (take (length p + 1) (fst x) = p ++ [47])) (st_files w) in
    let l := take (Z.to_nat n) (map (fun x => (take 63 (drop (length p + 1) (fst x)), false)) inside) in
    (w, Z.of_nat (length l), l)
}.

#[export] Instance store_frames : FrameAllocator store := { fa_alloc_pages w _ := (w, 4096); fa_free_pages w _ _ := (w, 0) }.

#[export] Instance store_https : Https store := {
  kesh_https_get w url n := match assoc url (st_server w) with
    | Some r => if valid_file r then (w, 0, 200, take (Z.to_nat n) r) else (w, -1, 0, []) | None => (w, -1, 0, []) end
}.

#[export] Program Instance store_laws : FilesLaws store := { content := file_of }.
Next Obligation.
  intros w p c. unfold file_of. destruct (assoc p (st_files w)) as [d|]; [|done]. cbn. destruct (valid_file d) eqn:E; [|done].
  intros [= <-]. by apply valid_file_bytes.
Qed.
Next Obligation.
  intros w p n w' rc out. cbn. destruct (file_of w p) as [c|]; [|intros [= <- <- <-]; split; [done|lia]].
  destruct (0 <? n); intros [= <- <- <-]; (split; [done|]); [|lia]. intros _. by exists c.
Qed.
Next Obligation.
  intros w p d w' rc. cbn. destruct (existsb _ _); cbn [orb]; [intros [= <- <-]; split; [done|split; [lia|done]]|].
  destruct (valid_file d) eqn:Ev; cbn [negb]; intros [= <- <-]; [|split; [done|split; [lia|done]]]. unfold file_of. cbn. split.
  - intros q Hq. rewrite bool_decide_eq_false_2 by congruence. by rewrite assoc_without, bool_decide_eq_false_2.
  - split; [intros _; rewrite bool_decide_eq_true_2 by done; cbn; by rewrite Ev|done].
Qed.
Next Obligation.
  intros w p w' rc. cbn. destruct (file_of w p) as [c|] eqn:E; intros [= <- <-]; unfold file_of; cbn.
  - split; [intros q Hq; by rewrite assoc_without, bool_decide_eq_false_2|]. rewrite assoc_without, bool_decide_eq_true_2 by done. auto.
  - split; [done|]. fold (file_of w p). rewrite E. auto.
Qed.
Next Obligation. by intros w p w' rc q [= <- _]. Qed.
Next Obligation.
  intros w p size is_dir c. cbn. intros Hs Hc. rewrite Hc in Hs. cbn in Hs. by injection Hs as <- <-.
Qed.
Next Obligation.
  intros w p n w' rc l. cbn. intros [= <- _ <-]. split; [done|]. apply Forall_take, Forall_map, Forall_forall. intros x _. cbn. rewrite length_take. lia.
Qed.
Next Obligation. done. Qed.
Next Obligation. done. Qed.
Next Obligation.
  intros w url n w' result status response q. cbn. destruct (assoc url (st_server w)) as [r|]; [|intros [= <- _ _ <-]; split_and!; [done|done|cbn; lia]].
  destruct (valid_file r) eqn:E; intros [= <- _ _ <-]; (split; [done|]); [|split; [done|cbn; lia]].
  apply valid_file_bytes in E as [E _]. split; [by apply Forall_take|]. rewrite length_take. lia.
Qed.
