(* ===== verification/Update.v ===== *)
(** System updates: [kpm/system_update.c].

    A bundle is its bytes, read with bounds checks ([None] is an access outside it); the
    cryptography is [Kea.Crypto], files and scratch memory are [Files]. *)
From Stdlib Require Import String.
From S2P Require Import Prelude Pmm Vmm Kea Files.

Definition KSU_MAGIC : Z := 0x3155534B.
Definition KSU_VERSION : Z := 1.
Definition KSU_SIGNATURE_SIZE : Z := 64.
Definition KSU_ALGORITHM : Z := 1.
(** [sizeof(ksu_header_t)] and the offset of its digest. *)
Definition KSU_HEADER : Z := 128.
Definition KSU_DIGEST : Z := 80.

Definition KPM_UPDATE_OK : Z := 0.
Definition KPM_UPDATE_FORMAT : Z := -1.
Definition KPM_UPDATE_UNTRUSTED : Z := -2.
Definition KPM_UPDATE_DIGEST : Z := -3.
Definition KPM_UPDATE_SIGNATURE : Z := -4.
Definition KPM_UPDATE_STORAGE : Z := -5.

Record ksu_header := KsuHeader {
  ksu_magic : Z; header_size : Z; ksu_version : Z; release : list Z; payload_offset : Z; payload_size : Z;
  ksu_signature_offset : Z; ksu_signature_size : Z; ksu_algorithm : Z; ksu_key_id : list Z; digest : list Z
}.

Definition read_ksu (data : list Z) : option ksu_header :=
  m ← rd data 0 4; hs ← rd data 4 2; v ← rd data 6 2; r ← slice data 8 32; po ← rd data 40 8; ps ← rd data 48 8;
  so ← rd data 56 4; ss ← rd data 60 2; alg ← rd data 62 2; key ← slice data 64 16; dg ← slice data KSU_DIGEST 32;
  Some (KsuHeader m hs v r po ps so ss alg key dg).

(** [equal_bytes]. *)
Definition equal_bytes : list Z -> list Z -> bool := bytes_equal.
Definition trusted_key (id : list Z) : option (list Z * list Z) := List.find (fun k => equal_bytes id (fst k)) trusted_keys.

(** The header, when its fields fit the size of the bundle. *)
Definition ksu_fields_ok (h : ksu_header) (size : Z) : bool :=
  (ksu_magic h =? KSU_MAGIC) && (header_size h =? KSU_HEADER) && (ksu_version h =? KSU_VERSION) &&
  (ksu_signature_size h =? KSU_SIGNATURE_SIZE) && (ksu_algorithm h =? KSU_ALGORITHM) && negb (payload_offset h <? KSU_HEADER) &&
  negb (size <? payload_offset h) && negb (size - payload_offset h <? payload_size h) &&
  (ksu_signature_offset h =? u64 (payload_offset h + payload_size h)) && (u32 (ksu_signature_offset h + ksu_signature_size h) =? size).

Section Verify.
Context `{CR : Crypto}.

Definition verify_bundle (data : list Z) : option Z :=
  let size := Z.of_nat (length data) in
  if size <? KSU_HEADER + KSU_SIGNATURE_SIZE then Some KPM_UPDATE_FORMAT
  else
    h ← read_ksu data;
    if negb (ksu_fields_ok h size) then Some KPM_UPDATE_FORMAT
    else
      match trusted_key (ksu_key_id h) with
      | None => Some KPM_UPDATE_UNTRUSTED
      | Some key =>
          pre ← slice data 0 KSU_DIGEST;
          post ← slice data (KSU_DIGEST + 32) (ksu_signature_offset h - KSU_DIGEST - 32);
          let dg := sha256 (pre ++ replicate 32 0 ++ post) in
          if negb (equal_bytes dg (digest h)) then Some KPM_UPDATE_DIGEST
          else
            sig ← slice data (ksu_signature_offset h) (ksu_signature_size h);
            Some (if ecdsa_verify dg (snd key) sig then KPM_UPDATE_OK else KPM_UPDATE_SIGNATURE)
      end.
End Verify.

(** ** The state file *)

Definition STATE_PATH : path := str "/hdd/KUPD.STA".
Definition TXN_PATH : path := str "/hdd/KUPD.TXN".

Definition SLOT_A : Z := 65.
Definition SLOT_B : Z := 66.

(** The first [a......=] names the active slot. *)
Fixpoint scan_active (l : list Z) : Z :=
  match l with
  | [] => SLOT_A
  | c :: rest =>
      if (length l <? 8)%nat then SLOT_A
      else if (c =? 97) && (nth 6 l 0 =? 61) then if nth 7 l 0 =? 66 then SLOT_B else SLOT_A
      else scan_active rest
  end.

(** The last [p.......=] names the pending slot. *)
Fixpoint scan_pending (pending : Z) (l : list Z) : Z :=
  match l with
  | [] => pending
  | c :: rest =>
      if (length l <? 9)%nat then pending
      else scan_pending (if (c =? 112) && (nth 7 l 0 =? 61) then nth 8 l 0 else pending) rest
  end.

Definition state_text (active pending : Z) (rel : list Z) (attempts : Z) : list Z :=
  str "active=" ++ [active; 10] ++ str "pending=" ++ [pending; 10] ++
  str "attempts=" ++ [48 + (if attempts <? 0 then 0 else if 9 <? attempts then 9 else attempts); 10] ++
  str "release=" ++ c_string (take 31 rel) ++ [10].

Section Update.
Context {W : Type} `{FS : Files W, FA : FrameAllocator W, CR : Crypto}.

Definition active_slot (w : W) : W * Z :=
  let '(w, count, out) := vfs_read w STATE_PATH 127 in
  (w, if count <=? 0 then SLOT_A else scan_active out).

Definition write_state (w : W) (active pending : Z) (rel : list Z) (attempts : Z) : W * Z :=
  let text := state_text active pending rel attempts in
  let '(w, rc) := vfs_write w STATE_PATH text in (w, if rc =? Z.of_nat (length text) then 0 else -1).

Definition slot_dir (slot : Z) : path := if slot =? SLOT_A then str "/hdd/KSA" else str "/hdd/KSB".
Definition slot_new (slot : Z) : path := if slot =? SLOT_A then str "/hdd/KSA/NEW.KSU" else str "/hdd/KSB/NEW.KSU".
Definition slot_image (slot : Z) : path := if slot =? SLOT_A then str "/hdd/KSA/SYSTEM.KSU" else str "/hdd/KSB/SYSTEM.KSU".

(** Give up: remove the new file and the transaction mark. *)
Definition drop_staged (w : W) (pending : Z) : W * Z :=
  let '(w, _) := vfs_delete w (slot_new pending) in
  let '(w, _) := vfs_delete w TXN_PATH in (w, KPM_UPDATE_STORAGE).

(** The stored copy is read back, verified again and moved into the slot. *)
Definition store_image (w : W) (size pending : Z) : option (W * bool) :=
  let '(w, stored, copy) := vfs_read w (slot_new pending) size in
  if negb (stored =? size) then Some (w, false)
  else
    status ← verify_bundle copy;
    if negb (status =? KPM_UPDATE_OK) then Some (w, false)
    else let '(w, rc) := vfs_write w (slot_image pending) copy in Some (w, rc =? stored).

(** From the stored copy on. *)
Definition install_staged (w : W) (bundle : list Z) (active pending : Z) : option (W * Z) :=
  let size := Z.of_nat (length bundle) in
  let pages := (size + PAGE_SIZE - 1) / PAGE_SIZE in
  let '(w, physical) := fa_alloc_pages w pages in
  if physical =? 0 then Some (drop_staged w pending)
  else
    ok ← store_image w size pending;
    let '(w, ok) := ok : W * bool in
    let '(w, _) := fa_free_pages w physical pages in
    if negb ok then Some (drop_staged w pending)
    else
      rel ← slice bundle 8 32;
      let '(w, rc) := write_state w active pending rel 3 in
      if negb (rc =? 0) then Some (w, KPM_UPDATE_STORAGE)
      else
        let '(w, _) := vfs_delete w (slot_new pending) in
        let '(w, _) := vfs_delete w TXN_PATH in Some (w, KPM_UPDATE_OK).

Definition kpm_system_update_stage (w : W) (bundle : list Z) : option (W * Z) :=
  let size := Z.of_nat (length bundle) in
  status ← verify_bundle bundle;
  if negb (status =? KPM_UPDATE_OK) then Some (w, status)
  else if 64 * 1024 * 1024 <? size then Some (w, KPM_UPDATE_STORAGE)
  else
    let '(w, active) := active_slot w in
    let pending := if active =? SLOT_A then SLOT_B else SLOT_A in
    let '(w, made) := vfs_mkdir w (slot_dir pending) in
    if negb (made =? 0) && negb (vfs_exists w (slot_dir pending)) then Some (w, KPM_UPDATE_STORAGE)
    else
      let '(w, rc) := vfs_write w TXN_PATH [pending] in
      if negb (rc =? 1) then Some (w, KPM_UPDATE_STORAGE)
      else
        let '(w, rc) := vfs_write w (slot_new pending) bundle in
        if negb (rc =? size) then Some (w, KPM_UPDATE_STORAGE) else install_staged w bundle active pending.

Definition kpm_system_update_confirm (w : W) : W * Z :=
  let '(w, count, out) := vfs_read w STATE_PATH 127 in
  if count <=? 0 then (w, KPM_UPDATE_STORAGE)
  else
    let pending := scan_pending 0 out in
    if negb (pending =? SLOT_A) && negb (pending =? SLOT_B) then (w, KPM_UPDATE_FORMAT)
    else let '(w, rc) := write_state w pending 45 (str "confirmed") 0 in (w, if rc =? 0 then KPM_UPDATE_OK else KPM_UPDATE_STORAGE).

Definition kpm_system_update_rollback (w : W) : W * Z :=
  let '(w, active) := active_slot w in
  let '(w, rc) := write_state w active 45 (str "rollback") 0 in (w, if rc =? 0 then KPM_UPDATE_OK else KPM_UPDATE_STORAGE).
End Update.

Definition kpm_system_update_error (status : Z) : list Z :=
  if status =? KPM_UPDATE_OK then str "ok"
  else if status =? KPM_UPDATE_FORMAT then str "invalid update bundle"
  else if status =? KPM_UPDATE_UNTRUSTED then str "untrusted update key"
  else if status =? KPM_UPDATE_DIGEST then str "update digest mismatch"
  else if status =? KPM_UPDATE_SIGNATURE then str "update signature mismatch"
  else str "update storage transaction failed".
