(* ===== verification/UpdateSpec.v ===== *)
(** System updates: a bundle is accepted exactly when it is well formed and signed; staging
    never touches the active slot and leaves the whole bundle in the other one; confirming
    switches to it. *)
From Stdlib Require Import String.
From S2P Require Import Prelude Pmm Vmm Kea KeaSpec Files Update.

(** ** Which bundles are accepted *)

(** What is hashed: everything before the signature, the digest counting as zeros. *)
Definition ksu_signed_part (data : list Z) : list Z := take 80 data ++ replicate 32 0 ++ drop 112 (take (length data - 64) data).

Section Genuine.
Context `{CR : Crypto, CL : !CryptoLaws}.

Record genuine (data : list Z) (h : ksu_header) (key : list Z) : Prop := Genuine {
  ge_read : read_ksu data = Some h;
  ge_magic : ksu_magic h = KSU_MAGIC /\ header_size h = KSU_HEADER /\ ksu_version h = KSU_VERSION;
  ge_algorithm : ksu_signature_size h = KSU_SIGNATURE_SIZE /\ ksu_algorithm h = KSU_ALGORITHM;
  ge_payload : KSU_HEADER <= payload_offset h /\ 0 <= payload_size h /\ payload_offset h + payload_size h = ksu_signature_offset h;
  ge_size : ksu_signature_offset h + 64 = Z.of_nat (length data) /\ Z.of_nat (length data) < 2 ^ 32;
  ge_trusted : In (ksu_key_id h, key) trusted_keys;
  ge_digest : digest h = sha256 (ksu_signed_part data);
  ge_signature : ecdsa_verify (sha256 (ksu_signed_part data)) key (drop (length data - 64) data) = true
}.

Lemma read_ksu_some data : image data -> KSU_HEADER <= Z.of_nat (length data) ->
  exists h, read_ksu data = Some h /\ 0 <= payload_offset h < 2 ^ 64 /\ 0 <= payload_size h < 2 ^ 64 /\ 0 <= ksu_signature_offset h < 2 ^ 32 /\
    length (ksu_key_id h) = 16%nat /\ length (digest h) = 32%nat.
Proof.
  unfold KSU_HEADER, read_ksu, KSU_DIGEST. intros Hi Hl. do 3 read_field Hi.
  destruct (slice data 8 32) as [rel|] eqn:Er; [|by rewrite slice_some in Er by lia]. cbn [mbind option_bind]. do 5 read_field Hi.
  destruct (slice data 64 16) as [key|] eqn:Ek; [|by rewrite slice_some in Ek by lia]. destruct (slice data 80 32) as [dg|] eqn:Ed; [|by rewrite slice_some in Ed by lia].
  cbn [mbind option_bind]. eexists. split; [done|]. cbn. rewrite (slice_length _ _ _ _ Ek), (slice_length _ _ _ _ Ed). lia.
Qed.

(** The checks on the fields say how the bundle is laid out. *)
Lemma ksu_fields_spec h size : 0 <= payload_offset h < 2 ^ 64 -> 0 <= payload_size h < 2 ^ 64 -> 0 <= ksu_signature_offset h < 2 ^ 32 -> size < 2 ^ 64 ->
  ksu_fields_ok h size = true <->
  (ksu_magic h = KSU_MAGIC /\ header_size h = KSU_HEADER /\ ksu_version h = KSU_VERSION) /\
  (ksu_signature_size h = KSU_SIGNATURE_SIZE /\ ksu_algorithm h = KSU_ALGORITHM) /\
  (KSU_HEADER <= payload_offset h /\ 0 <= payload_size h /\ payload_offset h + payload_size h = ksu_signature_offset h) /\
  (ksu_signature_offset h + 64 = size /\ size < 2 ^ 32).
Proof.
  intros Ho Hp Hs Hz. unfold ksu_fields_ok, KSU_HEADER, KSU_SIGNATURE_SIZE. rewrite !andb_true_iff, !negb_true_iff, !Z.eqb_eq, !Z.ltb_ge. split.
  - intros [[[[[[[[[A B] C] D] E] F] G] H] I] J]. rewrite D in J. unfold uwrap in *. rewrite (Z.mod_small (payload_offset h + payload_size h)) in I by lia.
    split_and!; try done; try lia; destruct (decide (ksu_signature_offset h + 64 < 2 ^ 32)); Z.to_euclidean_division_equations; lia.
  - intros ((A & B & C) & (D & E) & (F & G & H) & I & J). rewrite D. unfold uwrap. rewrite !Z.mod_small by lia. split_and!; try done; lia.
Qed.

Lemma verify_bundle_spec data : image data ->
  exists rc, verify_bundle data = Some rc /\ (rc = KPM_UPDATE_OK <-> exists h key, genuine data h key).
Proof.
  intros Hi. unfold verify_bundle. cbv zeta. destruct (Z.ltb_spec (Z.of_nat (length data)) (KSU_HEADER + KSU_SIGNATURE_SIZE)) as [Hs|Hs]; unfold KSU_HEADER, KSU_SIGNATURE_SIZE in Hs.
  { eexists. split; [done|]. split; [done|]. intros (h & key & [_ _ _ G1 G2 _ _ _]). unfold KSU_HEADER in G1. lia. }
  destruct (read_ksu_some data Hi) as (h & Hr & Ho & Hp & Hso & Hk & Hd); [unfold KSU_HEADER; lia|]. rewrite Hr. cbn [mbind option_bind].
  assert (U : forall h' key, genuine data h' key -> h' = h) by (intros h' key [R _ _ _ _ _ _ _]; congruence).
  pose proof (ksu_fields_spec h (Z.of_nat (length data)) Ho Hp Hso (proj2 Hi)) as Hf. destruct (ksu_fields_ok h _); cbn [negb].
  2:{ eexists. split; [done|]. split; [done|]. intros (h' & key & Hg). rewrite (U _ _ Hg) in Hg. destruct Hg as [_ G1 G2 G3 G4 _ _ _].
      assert (false = true) by (apply Hf; done). done. }
  destruct (proj1 Hf eq_refl) as (F1 & F2 & F3 & F4). unfold trusted_key, equal_bytes. fold (find_trusted (ksu_key_id h)).
  pose proof (find_trusted_spec (ksu_key_id h) Hk) as Ht. destruct (find_trusted (ksu_key_id h)) as [k|].
  2:{ eexists. split; [done|]. split; [done|]. intros (h' & key & Hg). rewrite (U _ _ Hg) in Hg. by destruct (Ht key (ge_trusted _ _ _ Hg)). }
  destruct Ht as [_ Ht], F2 as [F2 F2']. unfold KSU_DIGEST. rewrite F2. unfold KSU_HEADER in F3. unfold KSU_SIGNATURE_SIZE.
  rewrite (slice_some _ 0 80), (slice_some _ (80 + 32)), (slice_some _ (ksu_signature_offset h) 64) by lia. cbn [mbind option_bind].
  assert (Es : take (Z.to_nat 80) (drop (Z.to_nat 0) data) ++ replicate 32 0 ++ take (Z.to_nat (ksu_signature_offset h - 80 - 32)) (drop (Z.to_nat (80 + 32)) data) = ksu_signed_part data).
  { unfold ksu_signed_part. change (Z.to_nat 0) with 0%nat. rewrite drop_0, take_drop_commute. by replace (Z.to_nat (80 + 32) + Z.to_nat (ksu_signature_offset h - 80 - 32))%nat with (length data - 64)%nat by lia. }
  rewrite Es, bytes_equal_spec by (rewrite sha256_length; done).
  destruct (bool_decide_reflect (sha256 (ksu_signed_part data) = digest h)) as [Hsha|Hsha]; cbn [negb].
  2:{ eexists. split; [done|]. split; [done|]. intros (h' & key & Hg). rewrite (U _ _ Hg) in Hg. by destruct Hsha; rewrite (ge_digest _ _ _ Hg). }
  assert (Eg : take (Z.to_nat 64) (drop (Z.to_nat (ksu_signature_offset h)) data) = drop (length data - 64) data).
  { replace (Z.to_nat (ksu_signature_offset h)) with (length data - 64)%nat by lia. apply take_ge. rewrite length_drop. lia. }
  rewrite Eg. eexists. split; [done|]. split.
  - destruct (ecdsa_verify _ _ _) eqn:Hc; [|done]. intros _. exists h, (snd k). by constructor.
  - intros (h' & key & Hg). rewrite (U _ _ Hg) in Hg. by rewrite (trusted_unique _ _ _ Ht (ge_trusted _ _ _ Hg)), (ge_signature _ _ _ Hg).
Qed.
End Genuine.

(** ** The state file *)

Lemma scan_pending_none l p : Forall (fun c => c <> 61) l -> scan_pending p l = p.
Proof.
  intros Hf. induction Hf as [|c l Hc Hl IH]; [done|]. cbn [scan_pending]. destruct (Nat.ltb_spec (length (c :: l)) 9) as [|Hlen]; [done|].
  assert (nth 7 (c :: l) 0 <> 61) as Hn.
  { cbn [nth]. destruct (nth_in_or_default 6 l 0) as [Hin|Hd]; [|rewrite Hd; lia]. rewrite Forall_forall in Hl. apply Hl. by apply list_elem_of_In. }
  rewrite (proj2 (Z.eqb_neq _ 61) Hn), andb_false_r. exact IH.
Qed.

Definition slot_ok (s : Z) : Prop := s = SLOT_A \/ s = SLOT_B.

Lemma scan_active_state active pending rel n : slot_ok active -> scan_active (state_text active pending rel n) = active.
Proof. by intros [-> | ->]. Qed.

(** The characters of the constant strings. *)
Ltac read_str := repeat match goal with |- context [str ?s] => let v := eval vm_compute in (str s) in change (str s) with v end; cbn [app].

(** Only a [p] seven characters before an ['='] counts. *)
Lemma scan_pending_step p c l : c <> 112 \/ nth 6 l 0 <> 61 -> scan_pending p (c :: l) = scan_pending p l.
Proof.
  intros H. cbn [scan_pending nth]. replace ((c =? 112) && (nth 6 l 0 =? 61)) with false
    by (symmetry; apply andb_false_iff; rewrite !Z.eqb_neq; exact H).
  destruct (Nat.ltb_spec (length (c :: l)) 9) as [Hl|]; [|done]. destruct l as [|d l]; [done|]. cbn [scan_pending].
  by rewrite (proj2 (Nat.ltb_lt (length (d :: l)) 9)) by (cbn in *; lia).
Qed.

Lemma scan_pending_hit p l : (8 <= length l)%nat -> nth 6 l 0 = 61 -> scan_pending p (112 :: l) = scan_pending (nth 7 l 0) l.
Proof. intros Hl Hn. cbn [scan_pending nth]. rewrite Hn. by destruct (Nat.ltb_spec (length (112 :: l)) 9); [cbn in *; lia|]. Qed.

(** A release without ['='] does not look like a field. *)
Lemma scan_pending_state active pending rel n : slot_ok active -> 0 <= n <= 9 -> Forall (fun c => c <> 61) rel ->
  scan_pending 0 (state_text active pending rel n) = pending.
Proof.
  intros Ha Hn Hr. unfold state_text. rewrite (proj2 (Z.ltb_ge n 0)), (proj2 (Z.ltb_ge 9 n)) by lia. set (tail := c_string (take 31 rel) ++ [10]).
  assert (Ht : Forall (fun c => c <> 61) tail) by (apply Forall_app; split; [by apply Forall_take, Forall_take|by repeat constructor]).
  clearbody tail. read_str.
  assert (active <> 112) by (by destruct Ha as [-> | ->]).
  repeat first [rewrite scan_pending_step by (left; (lia || done)) | rewrite scan_pending_hit by (cbn [length nth]; (lia || done)); cbn [nth] | rewrite scan_pending_step by (right; cbn [nth]; lia)].
  by apply scan_pending_none.
Qed.

(** ** Staging, confirming and rolling back *)

Section Stage.
Context {W : Type} `{FS : Files W, FA : FrameAllocator W, HS : Https W, FL : !FilesLaws W, CR : Crypto, CL : !CryptoLaws}.
Implicit Types (w : W) (q : path).

Definition other_slot (slot : Z) : Z := if slot =? SLOT_A then SLOT_B else SLOT_A.

(** The files an update to a slot writes. *)
Definition update_files (pending : Z) : list path := [STATE_PATH; TXN_PATH; slot_new pending; slot_image pending].

(** Only the files of a list differ. *)
Definition only (l : list path) w w' : Prop := forall q, ~ In q l -> content w' q = content w q.

Lemma only_refl l w : only l w w.
Proof. by intros q _. Qed.
Lemma only_trans l w1 w2 w3 : only l w1 w2 -> only l w2 w3 -> only l w1 w3.
Proof. intros H1 H2 q Hq. by rewrite H2, H1. Qed.
Lemma only_write l w p d w' rc : vfs_write w p d = (w', rc) -> In p l -> only l w w'.
Proof. intros Hw Hp q Hq. apply (write_law _ _ _ _ _ Hw). by intros ->. Qed.
Lemma only_delete l w p w' rc : vfs_delete w p = (w', rc) -> In p l -> only l w w'.
Proof. intros Hw Hp q Hq. apply (delete_law _ _ _ _ Hw). by intros ->. Qed.

Lemma slot_ok_active w : slot_ok (snd (active_slot w)).
Proof.
  unfold active_slot, slot_ok. destruct (vfs_read w STATE_PATH 127) as [[w1 count] out]. cbn [snd]. destruct (count <=? 0); [by left|].
  induction out as [|c l IH]; [by left|]. cbn [scan_active]. destruct (_ <? _)%nat; [by left|]. destruct (_ && _); [|done]. destruct (_ =? 66); auto.
Qed.

Lemma active_slot_same w q : content (fst (active_slot w)) q = content w q.
Proof. unfold active_slot. destruct (vfs_read w STATE_PATH 127) as [[w1 count] out] eqn:Er. apply (read_law _ _ _ _ _ _ Er). Qed.

Lemma state_text_length active pending rel n : (0 < length (state_text active pending rel n) <= 127)%nat.
Proof.
  unfold state_text. read_str. cbn [length]. rewrite !length_app. unfold c_string. rewrite !length_take. cbn [length]. lia.
Qed.

Lemma write_state_spec w active pending rel n w' rc : write_state w active pending rel n = (w', rc) ->
  only [STATE_PATH] w w' /\ content w' STATE_PATH = (if rc =? 0 then Some (state_text active pending rel n) else content w STATE_PATH).
Proof.
  unfold write_state. generalize (state_text active pending rel n) as text. cbv zeta. intros text. destruct (vfs_write w STATE_PATH text) as [w1 rc1] eqn:Ew.
  destruct (write_law _ _ _ _ _ Ew) as (_ & H1 & H2).
  destruct (Z.eqb_spec rc1 (Z.of_nat (length text))); intros [= <- <-]; (split; [by apply (only_write _ _ _ _ _ _ Ew); left|]); [by apply H1|by apply H2].
Qed.

(** Reading the state file gives the whole text. *)
Lemma read_state w active pending rel n w' rc out : content w STATE_PATH = Some (state_text active pending rel n) ->
  vfs_read w STATE_PATH 127 = (w', rc, out) -> 0 < rc -> out = state_text active pending rel n.
Proof.
  intros Hc Hr Hp. destruct (read_law _ _ _ _ _ _ Hr) as [_ H]. destruct (H Hp) as (c & Hc' & -> & _).
  assert (c = state_text active pending rel n) as -> by congruence. apply take_ge. pose proof (state_text_length active pending rel n). lia.
Qed.

Lemma slot_paths slot : slot_ok slot -> NoDup (slot_image (other_slot slot) :: slot_image slot :: slot_new slot :: slot_new (other_slot slot) :: [STATE_PATH; TXN_PATH]).
Proof. intros [-> | ->]; apply (bool_decide_unpack _); vm_compute; exact I. Qed.

(** Removing the new file and the transaction mark leaves the image and the state. *)
Lemma clean_only w pending w1 w2 r1 r2 : slot_ok pending -> vfs_delete w (slot_new pending) = (w1, r1) -> vfs_delete w1 TXN_PATH = (w2, r2) ->
  only (update_files pending) w w2 /\ content w2 STATE_PATH = content w STATE_PATH /\ content w2 (slot_image pending) = content w (slot_image pending).
Proof.
  intros Hp E1 E2. destruct (delete_law _ _ _ _ E1) as [H1 _], (delete_law _ _ _ _ E2) as [H2 _]. split.
  - eapply only_trans; [apply (only_delete _ _ _ _ _ E1)|apply (only_delete _ _ _ _ _ E2)]; cbn; auto.
  - split; rewrite H2, H1; try done; by destruct Hp as [-> | ->].
Qed.

Lemma drop_staged_only w pending w' rc : slot_ok pending -> drop_staged w pending = (w', rc) ->
  only (update_files pending) w w' /\ rc = KPM_UPDATE_STORAGE /\ content w' STATE_PATH = content w STATE_PATH.
Proof.
  unfold drop_staged. intros Hp. destruct (vfs_delete w (slot_new pending)) as [w1 r1] eqn:E1, (vfs_delete w1 TXN_PATH) as [w2 r2] eqn:E2. intros [= <- <-].
  by destruct (clean_only _ _ _ _ _ _ Hp E1 E2) as (H1 & H2 & _).
Qed.

(** What is left of an update that returned [rc]. *)
Record staged w w' (bundle : list Z) (active pending rc : Z) : Prop := Staged {
  sg_only : only (update_files pending) w w';
  sg_ok : rc = KPM_UPDATE_OK -> content w' (slot_image pending) = Some bundle /\
    exists rel, slice bundle 8 32 = Some rel /\ content w' STATE_PATH = Some (state_text active pending rel 3);
  sg_failed : rc <> KPM_UPDATE_OK -> content w' STATE_PATH = content w STATE_PATH
}.

Lemma staged_failed w w' bundle active pending : only (update_files pending) w w' -> content w' STATE_PATH = content w STATE_PATH ->
  staged w w' bundle active pending KPM_UPDATE_STORAGE.
Proof. by constructor. Qed.

Lemma store_image_spec w bundle pending : image bundle -> slot_ok pending -> (0 < length bundle)%nat -> content w (slot_new pending) = Some bundle ->
  exists w' ok, store_image w (Z.of_nat (length bundle)) pending = Some (w', ok) /\ only (update_files pending) w w' /\
    content w' STATE_PATH = content w STATE_PATH /\ (ok = true -> content w' (slot_image pending) = Some bundle).
Proof.
  intros Hi Hp Hl Hc. unfold store_image. destruct (vfs_read w (slot_new pending) _) as [[w1 stored] copy] eqn:Er.
  destruct (read_law _ _ _ _ _ _ Er) as [H1 H2]. assert (O1 : only (update_files pending) w w1) by (intros q _; apply H1).
  destruct (Z.eqb_spec stored (Z.of_nat (length bundle))) as [Hs|]; cbn [negb]; [|by exists w1, false].
  destruct H2 as (c & Hc' & Hcopy & _); [lia|]. assert (c = bundle) as -> by congruence. rewrite take_ge in Hcopy by lia. subst copy.
  destruct (verify_bundle_spec bundle Hi) as (rc & -> & _). cbn [mbind option_bind]. destruct (rc =? KPM_UPDATE_OK); cbn [negb]; [|by exists w1, false].
  destruct (vfs_write w1 (slot_image pending) bundle) as [w2 rc2] eqn:Ew. destruct (write_law _ _ _ _ _ Ew) as (W1 & W2 & _). exists w2, (rc2 =? stored).
  split_and!; [done|eapply only_trans; [exact O1|apply (only_write _ _ _ _ _ _ Ew); cbn; auto]| |].
  - rewrite W1; [apply H1|by destruct Hp as [-> | ->]].
  - intros He. apply W2. lia.
Qed.

Lemma install_staged_spec w bundle active pending : image bundle -> slot_ok pending -> (40 <= length bundle)%nat ->
  content w (slot_new pending) = Some bundle ->
  exists w' rc, install_staged w bundle active pending = Some (w', rc) /\ staged w w' bundle active pending rc.
Proof.
  intros Hi Hp Hl Hc. unfold install_staged. cbv zeta. set (pages := _ / _).
  pose proof (alloc_law w pages) as H1. destruct (fa_alloc_pages w pages) as [w1 physical]. cbn [fst] in H1.
  assert (Fail : forall w2, only (update_files pending) w w2 -> content w2 STATE_PATH = content w STATE_PATH ->
    exists w' rc, Some (drop_staged w2 pending) = Some (w', rc) /\ staged w w' bundle active pending rc).
  { intros w2 O2 S2. destruct (drop_staged w2 pending) as [w3 rc] eqn:Ed. destruct (drop_staged_only _ _ _ _ Hp Ed) as (O3 & -> & S3).
    eexists _, _. split; [done|]. apply staged_failed; [by eapply only_trans|congruence]. }
  assert (O1 : only (update_files pending) w w1) by (intros q _; apply H1). destruct (physical =? 0); [by apply Fail|].
  destruct (store_image_spec w1 bundle pending Hi Hp) as (w2 & ok & -> & O2 & S2 & I2); [lia|by rewrite H1|]. cbn [mbind option_bind].
  pose proof (free_law w2 physical pages) as H3. destruct (fa_free_pages w2 physical pages) as [w3 r3]. cbn [fst] in H3.
  assert (O3 : only (update_files pending) w w3) by (intros q Hq; by rewrite H3, O2, O1). destruct ok; cbn [negb]; [|apply Fail; [done|by rewrite H3, S2, H1]].
  rewrite slice_some by lia. cbn [mbind option_bind]. set (rel := take _ (drop _ bundle)). destruct (write_state w3 active pending rel 3) as [w4 r4] eqn:Ew.
  destruct (write_state_spec _ _ _ _ _ _ _ Ew) as [O4 S4].
  assert (O4' : only (update_files pending) w w4) by (eapply only_trans; [exact O3|]; intros q Hq; apply O4; cbn in *; tauto).
  destruct (r4 =? 0); cbn [negb]; [|eexists _, _; split; [done|]; apply staged_failed; [done|by rewrite S4, H3, S2, H1]].
  destruct (vfs_delete w4 (slot_new pending)) as [w5 r5] eqn:E5. destruct (vfs_delete w5 TXN_PATH) as [w6 r6] eqn:E6.
  destruct (clean_only _ _ _ _ _ _ Hp E5 E6) as (O6 & S6 & I6). eexists _, _. split; [done|].
  constructor; [by eapply only_trans| |done]. intros _. split; [|exists rel; split; [by rewrite slice_some by lia|congruence]].
  rewrite I6, O4, H3; [by apply I2|]. cbn. destruct Hp as [-> | ->]; vm_compute; intuition congruence.
Qed.

Lemma other_slot_ok slot : slot_ok (other_slot slot).
Proof. unfold other_slot, slot_ok. destruct (slot =? SLOT_A); auto. Qed.

Lemma update_stage_answers w bundle : image bundle ->
  let active := snd (active_slot w) in let pending := other_slot active in
  exists w' rc, kpm_system_update_stage w bundle = Some (w', rc) /\ staged w w' bundle active pending rc /\ (rc = KPM_UPDATE_OK -> exists h key, genuine bundle h key).
Proof.
  intros Hi active pending. pose proof (other_slot_ok active : slot_ok pending) as Hp.
  unfold kpm_system_update_stage. destruct (verify_bundle_spec bundle Hi) as (rc & -> & Hrc). cbn [mbind option_bind].
  destruct (Z.eqb_spec rc KPM_UPDATE_OK) as [Hok|Hok]; cbn [negb].
  2:{ eexists _, _. split; [done|]. split; [by constructor|done]. }
  pose proof (proj1 Hrc Hok) as Hg. assert (Hl : (192 <= length bundle)%nat).
  { destruct Hg as (h & key & [_ _ _ (G1 & G2 & G3) (G4 & _) _ _ _]). unfold KSU_HEADER in G1. lia. }
  assert (Done : forall w' rc', staged w w' bundle active pending rc' ->
    exists w'' rc'', Some (w', rc') = Some (w'', rc'') /\ staged w w'' bundle active pending rc'' /\ (rc'' = KPM_UPDATE_OK -> exists h key, genuine bundle h key)) by eauto.
  clear Hrc Hok rc. destruct (_ <? _); [by apply Done, staged_failed|].
  pose proof (active_slot_same w) as H1. unfold pending, active in *. clear pending active. destruct (active_slot w) as [w1 active]. cbn [fst snd] in *.
  change (if active =? SLOT_A then SLOT_B else SLOT_A) with (other_slot active). set (pending := other_slot active) in *.
  assert (O1 : only (update_files pending) w w1) by (intros q _; apply H1).
  destruct (vfs_mkdir w1 (slot_dir pending)) as [w2 made] eqn:E2. assert (H2 : forall q, content w2 q = content w q) by (intros q; rewrite (mkdir_law _ _ _ _ q E2); apply H1).
  destruct (_ && _); [apply Done, staged_failed; [intros q _; apply H2|apply H2]|].
  destruct (vfs_write w2 TXN_PATH [pending]) as [w3 r3] eqn:E3. destruct (write_law _ _ _ _ _ E3) as [H3 _].
  assert (O3 : only (update_files pending) w w3) by (eapply only_trans; [intros q _; apply H2|apply (only_write _ _ _ _ _ _ E3); cbn; auto]).
  assert (S3 : content w3 STATE_PATH = content w STATE_PATH) by (by rewrite H3, H2).
  destruct (r3 =? 1); cbn [negb]; [|by apply Done, staged_failed].
  destruct (vfs_write w3 (slot_new pending) bundle) as [w4 r4] eqn:E4. destruct (write_law _ _ _ _ _ E4) as (H4 & I4 & _).
  assert (O4 : only (update_files pending) w w4) by (eapply only_trans; [exact O3|apply (only_write _ _ _ _ _ _ E4); cbn; auto]).
  assert (S4 : content w4 STATE_PATH = content w STATE_PATH) by (rewrite H4; [done|by destruct Hp as [-> | ->]]).
  destruct (Z.eqb_spec r4 (Z.of_nat (length bundle))) as [Hr|]; cbn [negb]; [|by apply Done, staged_failed].
  destruct (install_staged_spec w4 bundle active pending Hi Hp) as (w5 & r5 & -> & [O5 K5 F5]); [lia|by apply I4|].
  apply Done. constructor; [by eapply only_trans|done|]. intros Hne. by rewrite F5, S4.
Qed.


(** Confirming an update makes the pending slot the active one, and rolling back keeps
    the active slot: in either case nothing but the state changes, and, when it is stored,
    it reads as that slot with nothing pending (so that confirming again is refused). *)
Theorem system_update_switch w active pending rel w1 n out w' rc confirm : slot_ok active -> slot_ok pending -> Forall (fun c => c <> 61) rel ->
  content w STATE_PATH = Some (state_text active pending rel 3) -> vfs_read w STATE_PATH 127 = (w1, n, out) -> 0 < n ->
  (if confirm : bool then kpm_system_update_confirm w else kpm_system_update_rollback w) = (w', rc) ->
  only [STATE_PATH] w w' /\ (rc <> KPM_UPDATE_OK -> content w' STATE_PATH = content w STATE_PATH) /\
  (rc = KPM_UPDATE_OK -> forall w2 n' out', vfs_read w' STATE_PATH 127 = (w2, n', out') -> 0 < n' ->
     snd (active_slot w') = (if confirm then pending else active) /\ snd (kpm_system_update_confirm w') = KPM_UPDATE_FORMAT).
Proof.
  intros Ha Hp Hr Hc Erd Hn Hrun. destruct (read_law _ _ _ _ _ _ Erd) as [H1 _].
  cut (only [STATE_PATH] w w' /\ content w' STATE_PATH = if rc =? KPM_UPDATE_OK
    then Some (state_text (if confirm then pending else active) 45 (if confirm then str "confirmed" else str "rollback") 0) else content w STATE_PATH).
  { intros [H0 H2]. split; [done|]. split; [intros Hne; by rewrite H2, (proj2 (Z.eqb_neq _ _) Hne)|]. intros -> w2 n' out' Hrd Hn'.
    rewrite Z.eqb_refl in H2. rewrite (read_state _ _ _ _ _ _ _ _ H2 Hrd Hn') in Hrd. apply Z.leb_gt in Hn'.
    unfold active_slot, kpm_system_update_confirm. rewrite Hrd, Hn'. cbn [snd]. split.
    - apply scan_active_state. by destruct confirm.
    - rewrite scan_pending_state; [done|by destruct confirm|lia|]. destruct confirm; apply (bool_decide_unpack _); vm_compute; exact I. }
  rewrite (read_state _ _ _ _ _ _ _ _ Hc Erd Hn) in Erd. apply Z.leb_gt in Hn.
  assert (Put : forall slot r, (let '(w2, r2) := write_state w1 slot 45 r 0 in (w2, if r2 =? 0 then KPM_UPDATE_OK else KPM_UPDATE_STORAGE)) = (w', rc) ->
    only [STATE_PATH] w w' /\ content w' STATE_PATH = if rc =? KPM_UPDATE_OK then Some (state_text slot 45 r 0) else content w STATE_PATH).
  { intros slot r Hput. destruct (write_state w1 slot 45 r 0) as [w2 r2] eqn:Ew. injection Hput as <- <-. destruct (write_state_spec _ _ _ _ _ _ _ Ew) as [O2 S2].
    split; [intros q Hq; by rewrite O2, H1|]. rewrite S2, H1. by destruct (r2 =? 0). }
  destruct confirm; apply Put; rewrite <- Hrun.
  - unfold kpm_system_update_confirm. rewrite Erd, Hn, scan_pending_state by (done || lia). by destruct Hp as [-> | ->].
  - unfold kpm_system_update_rollback, active_slot. by rewrite Erd, Hn, scan_active_state.
Qed.
End Stage.

(** ** An update, from the bundle to the new active slot *)

#[local] Existing Instance toy_crypto.
#[local] Existing Instance toy_laws.

Definition demo_ksu (rel payload digest sig : list Z) : list Z :=
  let n := Z.of_nat (length payload) in
  le_put 4 KSU_MAGIC ++ le_put 2 KSU_HEADER ++ le_put 2 KSU_VERSION ++ take 32 (rel ++ replicate 32 0) ++ le_put 8 KSU_HEADER ++ le_put 8 n ++
  le_put 4 (KSU_HEADER + n) ++ le_put 2 64 ++ le_put 2 KSU_ALGORITHM ++ fst (nth 0 trusted_keys ([], [])) ++ digest ++ replicate 16 0 ++ payload ++ sig.

Definition demo_bundle (rel : list Z) : list Z :=
  let digest := sha256 (ksu_signed_part (demo_ksu rel [1; 2; 3] (replicate 32 0) (replicate 64 0))) in
  demo_ksu rel [1; 2; 3] digest (digest ++ replicate 32 0).

Definition demo_update : list Z := Eval vm_compute in demo_bundle (str "kesh 1.1").
Definition demo_disk : store := Store [] [] [] [].

Lemma demo_update_image : image demo_update.
Proof. apply bytes_image; vm_compute; reflexivity. Qed.


(** The disk once the update is staged. *)
Definition demo_staged : store := Eval vm_compute in match kpm_system_update_stage demo_disk demo_update with Some (w, _) => w | None => demo_disk end.

(** Confirming it makes slot B the active one. *)
Lemma system_update_switch_witness : exists w', kpm_system_update_confirm demo_staged = (w', KPM_UPDATE_OK) /\ snd (active_slot w') = SLOT_B.
Proof.
  destruct (vfs_read demo_staged STATE_PATH 127) as [[w1 n] out] eqn:Er. assert (0 < n) as Hn by (vm_compute in Er; injection Er as _ <- _; lia).
  destruct (kpm_system_update_confirm demo_staged) as [w' rc] eqn:E.
  destruct (system_update_switch demo_staged SLOT_A SLOT_B (str "kesh 1.1") w1 n out w' rc true) as (_ & _ & H);
    [by left|by right|apply (bool_decide_unpack _); vm_compute; exact I|vm_compute; reflexivity|exact Er|exact Hn|exact E|].
  assert (rc = KPM_UPDATE_OK) as Hrc by (vm_compute in E; injection E as _ <-; done). rewrite Hrc in *. exists w'. split; [done|].
  destruct (vfs_read w' STATE_PATH 127) as [[w2 n'] out'] eqn:Er'. apply (H eq_refl _ _ _ eq_refl). vm_compute in E. injection E as <-. vm_compute in Er'. injection Er' as _ <- _. lia.
Defined.

(** A release that has an ['='] seven characters after a [p] can be staged and never
    confirmed: the name is taken for the pending slot. *)
Theorem update_release_confuses_confirm : let bundle := demo_bundle (str "preview=1") in
  exists w, kpm_system_update_stage demo_disk bundle = Some (w, KPM_UPDATE_OK) /\ kpm_system_update_confirm w = (w, KPM_UPDATE_FORMAT).
Proof.
  cbv zeta. exists (match kpm_system_update_stage demo_disk (demo_bundle (str "preview=1")) with Some (w, _) => w | None => demo_disk end).
  split; vm_compute; reflexivity.
Qed.
