(* ===== verification/Kpm.v ===== *)
(** The package manager: [kpm/kpm_os.c].

    C strings are their characters, without the final zero.  The static buffer [s_buffer]
    is not part of the state: each use reads what was stored there just before.  Lines
    given to [print_fn] are collected; [None] is an access outside the bytes of a package. *)
From Stdlib Require Import String.
From S2P Require Import Prelude Pmm Vmm Kea Files Update.

Definition KPM_REPO : list Z := str "https://kesh-kpm.vercel.app".
Definition KPM_BUFFER_SIZE : Z := 1024 * 1024.
Definition KPM_DB_PATH : path := str "/hdd/apps/.kpm.db".
Definition KPM_TXN_PATH : path := str "/hdd/apps/.kpm.txn".
Definition KPM_DB_SIZE : Z := 8192.
Definition KESH_HTTP_OK : Z := 0.
Definition VFS_MAX_CHILDREN : Z := 32.

(** ** Strings *)

Definition s_copy (src : list Z) (cap : nat) : list Z := take (cap - 1) src.
Definition s_cat (dst src : list Z) (cap : nat) : list Z := dst ++ take (cap - 1 - length dst) src.
Definition s_eq (a b : list Z) : bool := bool_decide (a = b).

Definition not_space (c : Z) : bool := negb (c =? 32).
Definition skip_spaces (l : list Z) : list Z := drop (span_len (fun c => c =? 32) l) l.

(** Command and argument. *)
Definition split (line : list Z) (cmd_cap arg_cap : nat) : list Z * list Z :=
  let line := skip_spaces line in
  let n := Nat.min (cmd_cap - 1) (span_len not_space line) in
  (take n line, take (arg_cap - 1) (skip_spaces (drop n line))).

Definition id_char (c : Z) : bool := ((97 <=? c) && (c <=? 122)) || ((48 <=? c) && (c <=? 57)) || (c =? 45) || (c =? 95).

Definition normalize_id (input : list Z) (cap : nat) : option (list Z) :=
  let out := take (cap - 1) input in
  if negb (forallb id_char out) then None
  else if (0 <? Z.of_nat (length out)) && (length input <=? cap - 1)%nat then Some out else None.

(** The last four characters. *)
Definition ends_kea (s : list Z) : bool := s_eq (drop (length s - 4) s) (str ".kea").

Definition package_path (cap : nat) (id suffix : list Z) : path :=
  s_cat (s_cat (s_copy (str "/hdd/apps/") cap) id cap) (if (length suffix =? 0)%nat then str ".kea" else suffix) cap.

(** ** Downloads *)

(** What follows the empty line. *)
Fixpoint http_body (l : list Z) : option (list Z) :=
  match l with
  | [] => None
  | c :: rest => if bool_decide (take 4 l = [13; 10; 13; 10]) then Some (drop 4 l) else http_body rest
  end.

(** The numbers of a version, each ended by a character that is not a digit. *)
Fixpoint digits (v : Z) (l : list Z) : option (Z * list Z) :=
  match l with
  | [] => None
  | c :: rest => if (48 <=? c) && (c <=? 57) then digits (u32 (u32 (v * 10) + (c - 48))) rest else Some (v, l)
  end.
Definition skip_dot (l : list Z) : list Z := match l with c :: rest => if c =? 46 then rest else l | [] => [] end.

Fixpoint version_parts (part : nat) (have need : list Z) : option bool :=
  match part with
  | O => Some true
  | S part =>
      '(hv, have) ← digits 0 have;
      '(nv, need) ← digits 0 need;
      if negb (hv =? nv) then Some (nv <? hv) else version_parts part (skip_dot have) (skip_dot need)
  end.
Definition version_at_least (have need : list Z) : option bool := version_parts 4 have need.

(** A C string at an offset of the package: it must end inside. *)
Definition c_string_at (data : list Z) (off : Z) : option (list Z) :=
  let l := drop (Z.to_nat off) data in
  let n := span_len (fun c => negb (c =? 0)) l in
  if (n <? length l)%nat then Some (take n l) else None.

(** Offsets in [kea_header_t]. *)
Definition KEA_NAME : Z := 12.
Definition KEA_APP_VERSION : Z := 44.
Definition KEA_DESCRIPTION : Z := 108.

(** Name and least version of each dependency, as [saved] holds them. *)
Fixpoint read_deps (data : list Z) (off : Z) (n : nat) : option (list (list Z * list Z)) :=
  match n with
  | O => Some []
  | S n =>
      name ← slice data off 32;
      min_version ← slice data (off + 32) 16;
      rest ← read_deps data (off + DEP) n;
      Some ((c_string name, c_string min_version) :: rest)
  end.

Definition dependencies (data : list Z) : option (list (list Z * list Z)) :=
  d ← kea_dependencies data;
  match d with None => Some [] | Some (off, n) => read_deps data off (Z.to_nat n) end.

Definition kea_verify_error (status : Z) : list Z :=
  if status =? KEA_VERIFY_OK then str "ok"
  else if status =? KEA_VERIFY_FORMAT then str "invalid KEA format"
  else if status =? KEA_VERIFY_BOUNDS then str "invalid package bounds"
  else if status =? KEA_VERIFY_CHECKSUM then str "ELF checksum mismatch"
  else if status =? KEA_VERIFY_UNSIGNED then str "signature is required"
  else if status =? KEA_VERIFY_UNTRUSTED then str "untrusted repository key"
  else if status =? KEA_VERIFY_DIGEST then str "SHA-256 mismatch"
  else if status =? KEA_VERIFY_SIGNATURE then str "ECDSA signature mismatch"
  else str "unknown verification error".

Section Kpm.
Context {W : Type} `{FS : Files W, FA : FrameAllocator W, HS : Https W, CR : Crypto}.

(** Reads into [s_buffer]. *)
Definition read_buffer (w : W) (p : path) : W * Z * list Z := vfs_read w p KPM_BUFFER_SIZE.

Definition download_url (w : W) (url : list Z) : W * option (list Z) :=
  let '(w, result, status, response) := kesh_https_get w url KPM_BUFFER_SIZE in
  (w, if negb (result =? KESH_HTTP_OK) || negb (status =? 200) then None else http_body response).

Definition download (w : W) (id : list Z) : W * option (list Z) :=
  download_url w (s_cat (s_cat (s_copy (KPM_REPO ++ str "/api/download?pkg=") 160) id 160) (str ".kea") 160).

(** Whether a file fits in [s_buffer]. *)
Definition fits_buffer (w : W) (p : path) : bool := match vfs_stat w p with Some (size, _) => size <=? KPM_BUFFER_SIZE | None => false end.

Definition installed_version (w : W) (id minimum : list Z) : option (W * bool) :=
  let p := package_path 96 id [] in
  if negb (fits_buffer w p) then Some (w, false)
  else
    let '(w, got, data) := read_buffer w p in
    if got <=? 0 then Some (w, false)
    else
      status ← kea_verify_package data true;
      if negb (status =? KEA_VERIFY_OK) then Some (w, false)
      else
        ok ← version_at_least (drop (Z.to_nat KEA_APP_VERSION) data) (minimum ++ [0]);
        Some (w, ok).

(** The line of one package in [s_db]: its name, ['|'], its version and a newline, as far
    as they fit. *)
Definition put_chars (db s : list Z) : list Z := db ++ take (Z.to_nat (KPM_DB_SIZE - 1) - length db) s.
Definition put_line (db name version : list Z) : list Z :=
  let db := put_chars db (take (length name - 4) name) in
  let db := if Z.of_nat (length db) + 2 <? KPM_DB_SIZE then db ++ [124] else db in
  put_chars (put_chars db version) [10].

Fixpoint db_entries (w : W) (db : list Z) (l : list (path * bool)) : option (W * list Z) :=
  match l with
  | [] => Some (w, db)
  | (name, is_dir) :: l =>
      if is_dir || (length name <? 5)%nat || negb (ends_kea name) then db_entries w db l
      else
        let '(w, got, data) := read_buffer w (s_cat (s_copy (str "/hdd/apps/") 96) name 96) in
        h ← (if 0 <? got then kea_base_header data else Some None);
        match h with
        | None => db_entries w db l
        | Some _ => v ← slice data KEA_APP_VERSION 16; db_entries w (put_line db name (c_string v)) l
        end
  end.

(** Result and text of the data base. *)
Definition rebuild_db (w : W) : option (W * Z * list Z) :=
  let '(w, count, entries) := vfs_list w (str "/hdd/apps") VFS_MAX_CHILDREN in
  if count <? 0 then Some (w, -1, [])
  else
    '(w, db) ← db_entries w [] (take (Z.to_nat count) entries);
    let '(w, rc) := vfs_write w KPM_DB_PATH db in
    Some (w, if rc =? Z.of_nat (length db) then 0 else -2, db).

(** Remove what a transaction leaves. *)
Definition end_transaction (w : W) (id : list Z) : W :=
  let '(w, _) := vfs_delete w (package_path 96 id (str ".new")) in
  let '(w, _) := vfs_delete w (package_path 96 id (str ".bak")) in
  let '(w, _) := vfs_delete w KPM_TXN_PATH in w.

(** Bring the saved package back, or remove the new one when none was saved. *)
Definition restore (w : W) (id : list Z) : W :=
  let dst := package_path 96 id [] in
  let backup := package_path 96 id (str ".bak") in
  if fits_buffer w backup then
    let '(w, old_size, old) := read_buffer w backup in
    if 0 <? old_size then fst (vfs_write w dst old) else w
  else fst (vfs_delete w dst).

Definition recover_transaction (w : W) : option W :=
  let '(w, got, out) := vfs_read w KPM_TXN_PATH 63 in
  if got <=? 0 then Some w
  else
    let id := c_string out in
    '(w, _, _) ← rebuild_db (end_transaction (restore w id) id);
    Some w.

(** [recover_transaction] and a result. *)
Definition abort_transaction (w : W) (rc : Z) : option (W * Z) := w ← recover_transaction w; Some (w, rc).

(** The installed package, when it fits the buffer, is saved; false when it could not be. *)
Definition save_old (w : W) (id : list Z) : W * bool :=
  let dst := package_path 96 id [] in
  if fits_buffer w dst then
    let '(w, old_size, old) := read_buffer w dst in
    if old_size <=? 0 then (w, false)
    else let '(w, rc) := vfs_write w (package_path 96 id (str ".bak")) old in (w, rc =? old_size)
  else (w, true).

(** The stored package is read back, verified again and becomes the installed one. *)
Definition put_new (w : W) (id : list Z) : option (W * bool) :=
  let '(w, pending_size, data) := read_buffer w (package_path 96 id (str ".new")) in
  if pending_size <=? 0 then Some (w, false)
  else
    status ← kea_verify_package data true;
    if negb (status =? KEA_VERIFY_OK) then Some (w, false)
    else
      let '(w, rc) := vfs_write w (package_path 96 id []) data in
      if negb (rc =? pending_size) then Some (w, false)
      else '(w, rc, _) ← rebuild_db w; Some (w, rc =? 0).

Definition commit_package (w : W) (id data : list Z) : option (W * Z) :=
  let '(w, rc) := vfs_write w (package_path 96 id (str ".new")) data in
  if negb (rc =? Z.of_nat (length data)) then Some (w, -1)
  else
    let '(w, rc) := vfs_write w KPM_TXN_PATH id in
    if negb (rc =? Z.of_nat (length id)) then Some (w, -2)
    else
      let '(w, saved) := save_old w id in
      if negb saved then abort_transaction w (-3)
      else
        '(w, ok) ← put_new w id;
        if negb ok then abort_transaction w (-4) else Some (end_transaction w id, 0).

(** ** Commands *)

(** The state and the lines shown. *)
Abbreviation out := (W * list (list Z))%type.

(** [print_fn]. *)
Definition say (st : out) (line : list Z) : out := (fst st, snd st ++ [line]).
Definition show (w : W) (shown : list (list Z)) (line : list Z) : option out := Some (w, shown ++ [line]).

(** The dependencies, one after the other: each must be there in the version asked for, or
    be installed. *)
Fixpoint install_deps (install : out -> list Z -> option (out * Z)) (st : out) (deps : list (list Z * list Z)) : option (out * Z) :=
  match deps with
  | [] => Some (st, 0)
  | (name, min_version) :: deps =>
      match normalize_id name 33 with
      | None => Some (st, -3)
      | Some dep_id =>
          '(w, present) ← installed_version (fst st) dep_id min_version;
          let st := (w, snd st) in
          if present : bool then install_deps install st deps
          else '(st, rc) ← install st dep_id; if negb (rc =? 0) then Some (st, -4) else install_deps install st deps
      end
  end.

(** [install_package] at depth [9 - levels]. *)
Fixpoint install_package (levels : nat) (st : out) (id : list Z) : option (out * Z) :=
  match levels with
  | O => Some (st, -10)
  | S levels =>
      let '(w, body) := download (fst st) id in
      let st := (w, snd st) in
      match body with
      | None => Some (st, -1)
      | Some body =>
          verified ← kea_verify_package body true;
          if negb (verified =? KEA_VERIFY_OK) then Some (say st (kea_verify_error verified), -2)
          else
            deps ← dependencies body;
            '(st, rc) ← install_deps (install_package levels) st deps;
            if negb (rc =? 0) then Some (st, rc)
            else
              let '(w, body) := download (fst st) id in
              match body with
              | None => Some ((w, snd st), -5)
              | Some body =>
                  verified ← kea_verify_package body true;
                  if negb (verified =? KEA_VERIFY_OK) then Some ((w, snd st), -5)
                  else '(w, rc) ← commit_package w id body; Some ((w, snd st), rc)
              end
      end
  end.

Fixpoint required_by (w : W) (id : list Z) (l : list (path * bool)) : option (W * bool) :=
  match l with
  | [] => Some (w, false)
  | (name, _) :: l =>
      if (length name <? 5)%nat || negb (ends_kea name) then required_by w id l
      else
        let '(w, got, data) := read_buffer w (s_cat (s_copy (str "/hdd/apps/") 96) name 96) in
        deps ← (if 0 <? got then dependencies data else Some []);
        if existsb (fun d : list Z * list Z => s_eq (fst d) id) deps then Some (w, true) else required_by w id l
  end.

Definition package_is_required (w : W) (id : list Z) : option (W * bool) :=
  let '(w, count, entries) := vfs_list w (str "/hdd/apps") VFS_MAX_CHILDREN in
  required_by w id (take (Z.to_nat count) entries).

Definition invalid_id : list Z := str "[KPM] Invalid package id".

Definition cmd_install (w : W) (shown : list (list Z)) (argument : list Z) : option out :=
  match normalize_id argument 48 with
  | None => show w shown invalid_id
  | Some id =>
      '(st, rc) ← install_package 9 (w, shown ++ [str "[KPM] Downloading and verifying signed dependency graph..."]) id;
      Some (say st (if rc =? 0 then str "[KPM] Transaction committed" else str "[KPM] Installation aborted and rolled back"))
  end.

Definition cmd_remove (w : W) (shown : list (list Z)) (argument : list Z) : option out :=
  match normalize_id argument 48 with
  | None => show w shown invalid_id
  | Some id =>
      '(w, required) ← package_is_required w id;
      if required : bool then show w shown (str "[KPM] Package is required by an installed application")
      else
        let '(w, rc) := vfs_delete w (package_path 96 id []) in
        '(w, ok) ← (if rc =? 0 then '(w, rc, _) ← rebuild_db w; Some (w, rc =? 0) else Some (w, false));
        show w shown (if ok : bool then str "[KPM] Package removed" else str "[KPM] Package not found or database update failed")
  end.

(** The lines of the data base, each up to its newline. *)
Fixpoint db_lines (line db : list Z) : list (list Z) :=
  match db with [] => [] | c :: db => if c =? 10 then line :: db_lines [] db else db_lines (line ++ [c]) db end.

Definition cmd_list (w : W) (shown : list (list Z)) : option out :=
  '(w, rc, db) ← rebuild_db w;
  if negb (rc =? 0) then show w shown (str "[KPM] Cannot read package database")
  else Some (w, shown ++ str "Installed packages:" :: db_lines [] (c_string db)).

Definition cmd_info (w : W) (shown : list (list Z)) (argument : list Z) : option out :=
  match normalize_id argument 48 with
  | None => show w shown invalid_id
  | Some id =>
      let '(w, got, data) := read_buffer w (package_path 96 id []) in
      h ← (if 0 <? got then kea_base_header data else Some None);
      match h with
      | None => show w shown (str "[KPM] Package not installed")
      | Some _ =>
          name ← c_string_at data KEA_NAME;
          version ← c_string_at data KEA_APP_VERSION;
          description ← c_string_at data KEA_DESCRIPTION;
          status ← kea_verify_package data true;
          Some (w, shown ++ [name; version; description; if status =? 0 then str "Signature: trusted" else str "Signature: invalid"])
      end
  end.

Definition cmd_update (w : W) (shown : list (list Z)) : option out :=
  let '(w, result, status, response) := kesh_https_get w (KPM_REPO ++ str "/api/catalog") KPM_BUFFER_SIZE in
  let '(w, ok) :=
    match http_body response with
    | Some body =>
        if (result =? KESH_HTTP_OK) && (status =? 200) then
          let '(w, rc) := vfs_write w (str "/hdd/apps/.kpm-index.json") body in (w, rc =? Z.of_nat (length body))
        else (w, false)
    | None => (w, false)
    end in
  show w shown (if ok : bool then str "[KPM] Repository index updated" else str "[KPM] Repository update failed").

Definition cmd_os_update (w : W) (shown : list (list Z)) : option out :=
  let capacity := 64 * 1024 * 1024 in
  let pages := capacity / PAGE_SIZE in
  let '(w, physical) := fa_alloc_pages w pages in
  if physical =? 0 then show w shown (str "[KPM] Not enough memory for update download")
  else
    let '(w, request, http_status, response) := kesh_https_get w (KPM_REPO ++ str "/api/system-update") capacity in
    match http_body response with
    | Some body =>
        if (request =? KESH_HTTP_OK) && (http_status =? 200) then
          '(w, status) ← kpm_system_update_stage w body;
          let '(w, _) := fa_free_pages w physical pages in
          show w shown (if status =? KPM_UPDATE_OK then str "[KPM] Signed update staged in inactive slot" else kpm_system_update_error status)
        else show (fst (fa_free_pages w physical pages)) shown (str "[KPM] System update download failed")
    | None => show (fst (fa_free_pages w physical pages)) shown (str "[KPM] System update download failed")
    end.

Definition cmd_os_confirm (w : W) (shown : list (list Z)) : option out :=
  let '(w, status) := kpm_system_update_confirm w in
  show w shown (if status =? KPM_UPDATE_OK then str "[KPM] Pending system slot confirmed" else kpm_system_update_error status).

Definition cmd_os_rollback (w : W) (shown : list (list Z)) : option out :=
  let '(w, status) := kpm_system_update_rollback w in
  show w shown (if status =? KPM_UPDATE_OK then str "[KPM] Pending system slot cancelled" else kpm_system_update_error status).

(** The argument without a final [.kea]. *)
Definition plain_argument (argument : list Z) : list Z :=
  if (4 <? length argument)%nat && ends_kea argument then take (length argument - 4) argument else argument.

Definition help_lines : list (list Z) :=
  [str "Kesh Package Manager v2.0.0"; str "kpm install <id> | remove <id> | list | info <id> | update"; str "kpm os-update | os-confirm | os-rollback"].

Definition kpm_cmd_exec (w : W) (args : list Z) : option out :=
  let '(w, made) := vfs_mkdir w (str "/hdd/apps") in
  if negb (made =? 0) && negb (vfs_exists w (str "/hdd/apps")) then Some (w, [str "[KPM] /hdd/apps is unavailable"])
  else
    w ← recover_transaction w;
    let '(command, argument) := split args 16 48 in
    let argument := plain_argument argument in
    if (length command =? 0)%nat || s_eq command (str "help") then Some (w, help_lines)
    else if s_eq command (str "install") || s_eq command (str "i") then cmd_install w [] argument
    else if s_eq command (str "remove") || s_eq command (str "rm") then cmd_remove w [] argument
    else if s_eq command (str "list") || s_eq command (str "ls") then cmd_list w []
    else if s_eq command (str "info") then cmd_info w [] argument
    else if s_eq command (str "update") then cmd_update w []
    else if s_eq command (str "os-update") then cmd_os_update w []
    else if s_eq command (str "os-confirm") then cmd_os_confirm w []
    else if s_eq command (str "os-rollback") then cmd_os_rollback w []
    else Some (w, [str "[KPM] Unknown command"]).
End Kpm.
