(* ===== verification/KpmSpec.v ===== *)
(** The package manager: whatever is typed and whatever servers answer, every command ends
    and only properly signed packages are ever installed. *)
From Stdlib Require Import String.
From S2P Require Import Prelude Pmm Vmm Kea KeaSpec Files Update UpdateSpec Kpm.

(** ** Reading packages *)

Lemma image_take n data : image data -> image (take n data).
Proof. intros [H1 H2]. split; [by apply Forall_take|]. rewrite length_take. lia. Qed.

Lemma span_len_less {A} (p : A -> bool) l x : In x l -> p x = false -> (span_len p l < length l)%nat.
Proof.
  induction l as [|y l IH]; [done|]. cbn [span_len length In]. intros [->|Hin] Hp; [rewrite Hp; lia|].
  destruct (p y); [|lia]. specialize (IH Hin Hp). lia.
Qed.

(** The upper bytes of the permissions of a valid header are zero, so the strings before
    them end. *)
Lemma header_zero data b : base_ok data b -> image data -> nth 173 data 0 = 0.
Proof.
  intros [Hr Hs _ Hp _ _ _] Hi. unfold HDR in Hs. unfold read_base in Hr.
  destruct (rd data 0 4), (rd data 4 4), (rd data 8 2), (rd data 10 2); try done. cbn [mbind option_bind] in Hr.
  destruct (rd data 172 4) as [perm|] eqn:Ep; [|done]. cbn [mbind option_bind] in Hr.
  destruct (rd data 176 4), (rd data 180 4), (rd data 188 8), (rd data 196 8), (rd data 212 4); try done. injection Hr as <-. cbn in Hp.
  unfold rd in Ep. rewrite slice_some in Ep by lia. injection Ep as Ep.
  destruct (drop (Z.to_nat 172) data) as [|b0 [|b1 [|b2 [|b3 l]]]] eqn:Ed;
    try (apply (f_equal length) in Ed; rewrite length_drop in Ed; cbn in Ed; lia).
  assert (Hb : Forall (fun b => 0 <= b < 256) [b0; b1; b2; b3]).
  { pose proof (Forall_take _ 4 _ (Forall_drop _ (Z.to_nat 172) _ (proj1 Hi))) as F. by rewrite Ed in F. }
  rewrite !Forall_cons in Hb. change (Z.to_nat 4) with 4%nat in Ep. cbn [take le_get] in Ep. rewrite take_0 in Ep. cbn [le_get] in Ep. assert (nth 173 data 0 = b1) as ->.
  { rewrite <- (take_drop 172 data), app_nth2; rewrite length_take_le by lia; [|lia]. change 172%nat with (Z.to_nat 172). by rewrite Ed. }
  assert (Z.shiftr perm 5 = 0) as H5.
  { apply Z.bits_inj'. intros n Hn. rewrite Z.shiftr_spec, Z.bits_0 by lia.
    destruct (decide (n + 5 < 32)) as [Hlt|]; [|rewrite <- (Z.mod_small perm (2 ^ 32)) by lia; apply Z.mod_pow2_bits_high; lia].
    pose proof (f_equal (fun z => Z.testbit z (n + 5)) Hp) as H. cbv beta in H. rewrite Z.land_spec, Z.bits_0 in H.
    apply andb_false_iff in H as [H|H]; [done|]. exfalso. revert H.
    replace (u32 (Z.lnot 31)) with (Z.shiftl (Z.ones 27) 5) by reflexivity. rewrite Z.shiftl_spec, Z.ones_spec_low by lia. done. }
  rewrite Z.shiftr_div_pow2 in H5 by lia. Z.to_euclidean_division_equations. lia.
Qed.

(** A number ends in a package, or in a string, that has a zero. *)
Lemma digits_some v l : In 0 l -> exists v' l', digits v l = Some (v', l') /\ In 0 l'.
Proof.
  revert v. induction l as [|c l IH]; [done|]. intros v Hin. cbn [digits]. destruct ((48 <=? c) && (c <=? 57)) eqn:E; [|eauto].
  destruct Hin as [-> |Hin]; [done|]. by apply IH.
Qed.

Lemma skip_dot_zero l : In 0 l -> In 0 (skip_dot l).
Proof. destruct l as [|c l]; [done|]. cbn. destruct (Z.eqb_spec c 46) as [->|]; [by intros [|]|done]. Qed.

Lemma version_at_least_some have need : In 0 have -> In 0 need -> exists r, version_at_least have need = Some r.
Proof.
  unfold version_at_least. generalize 4%nat as part. intros part. revert have need. induction part as [|part IH]; intros have need H1 H2; [by eexists|].
  cbn [version_parts]. destruct (digits_some 0 have H1) as (v1 & l1 & -> & H1'), (digits_some 0 need H2) as (v2 & l2 & -> & H2').
  cbn [mbind option_bind]. destruct (negb (v1 =? v2)); [by eexists|]. apply IH; by apply skip_dot_zero.
Qed.

Lemma header_zero_in data b off : base_ok data b -> image data -> 0 <= off <= 173 -> In 0 (drop (Z.to_nat off) data).
Proof.
  intros Hb Hi Ho. pose proof (bo_size _ _ Hb) as Hs. unfold HDR in Hs.
  assert (In (nth 173 data 0) (drop (Z.to_nat off) data)) as Hin; [|by rewrite (header_zero _ _ Hb Hi) in Hin].
  rewrite <- (take_drop (Z.to_nat off) data) at 1. rewrite app_nth2; rewrite length_take_le by lia; [|lia]. apply nth_In. rewrite length_drop. lia.
Qed.

Lemma c_string_at_some data b off : base_ok data b -> image data -> 0 <= off <= 173 -> exists s, c_string_at data off = Some s.
Proof.
  intros Hb Hi Ho. unfold c_string_at. cbv zeta. rewrite (proj2 (Nat.ltb_lt _ _)); [by eexists|].
  apply (span_len_less _ _ 0); [by eapply header_zero_in|done].
Qed.

Lemma read_deps_some data off n : 0 <= off -> off + Z.of_nat n * DEP <= Z.of_nat (length data) -> exists l, read_deps data off n = Some l.
Proof.
  unfold DEP. revert off. induction n as [|n IH]; intros off Ho Hl; [by eexists|]. cbn [read_deps]. rewrite !slice_some by lia. cbn [mbind option_bind].
  unfold DEP. destruct (IH (off + 48)) as (l & ->); [lia..|]. by eexists.
Qed.

(** Files that are large enough for the second header. *)
Lemma dependencies_some data : image data -> HDR_V2 <= Z.of_nat (length data) -> exists l, dependencies data = Some l.
Proof.
  intros Hi Hl. unfold dependencies, kea_dependencies. cbv zeta. destruct (base_header_spec data Hi) as ([b|] & -> & _); cbn [mbind option_bind]; [|by eexists].
  destruct (_ || _); [by eexists|]. destruct (read_v2_some data Hi Hl) as (h & -> & [W1 W2 W3 _ _]). cbn [mbind option_bind]. split_if E; [by eexists|].
  rewrite !orb_false_iff, negb_false_iff, !Z.ltb_ge, Z.eqb_eq in E. destruct E as [[[E1 E2] E3] E4]. rewrite E2 in *.
  destruct (dependency_count h =? 0); [by eexists|]. cbn [mbind option_bind]. apply read_deps_some; unfold DEP in *; lia.
Qed.

(** A package accepted with a signature has the second header and a string end. *)
Lemma accepted_size `{CR : Crypto, !CryptoLaws} data : accepted data true -> HDR_V2 <= Z.of_nat (length data).
Proof. intros (b & _ & _ & [(_ & _ & [=])|(h & key & Hs)]). pose proof (sg_size _ _ _ _ Hs). unfold HDR_V2 in *. lia. Qed.

Lemma http_body_bytes n l body : Forall (fun b => 0 <= b < 256) l -> Z.of_nat (length l) <= n -> http_body l = Some body ->
  Forall (fun b => 0 <= b < 256) body /\ Z.of_nat (length body) <= n.
Proof.
  intros Hl Hn. induction l as [|c l IH]; [done|]. apply Forall_cons in Hl as [Hc Hl]. cbn [http_body length] in *. case_bool_decide.
  - cbn [drop]. intros [= <-]. split; [by apply Forall_drop|]. rewrite length_drop. lia.
  - apply IH; [done|lia].
Qed.

(** ** Only verified packages *)

(** The installed packages and their saved copies. *)
Definition installed (p : path) : Prop :=
  take 10 p = str "/hdd/apps/" /\ (drop (length p - 4) p = str ".kea" \/ drop (length p - 4) p = str ".bak").
(** What the package manager writes: its directory, and the files of system updates. *)
Definition managed (p : path) : Prop := take 10 p = str "/hdd/apps/" \/ take 6 p = str "/hdd/K".

Lemma package_path_eq id suffix : (length id <= 63)%nat -> length suffix = 4%nat -> package_path 96 id suffix = str "/hdd/apps/" ++ id ++ suffix.
Proof.
  intros Hi Hs. unfold package_path. rewrite Hs. cbn [Nat.eqb]. unfold s_cat, s_copy. rewrite (take_ge (str "/hdd/apps/")) by (cbn; lia).
  rewrite !take_ge; rewrite ?length_app; cbn [length str]; try lia. by rewrite app_assoc.
Qed.
Lemma package_path_kea id : package_path 96 id [] = package_path 96 id (str ".kea").
Proof. done. Qed.

Lemma installed_name name suffix : length suffix = 4%nat -> suffix = str ".kea" \/ suffix = str ".bak" -> installed (str "/hdd/apps/" ++ name ++ suffix).
Proof.
  intros Hl Hs. split; [reflexivity|]. rewrite app_assoc, !length_app, Hl, Nat.add_sub, <- length_app, drop_app_length.
  exact Hs.
Qed.
Lemma not_installed_name name suffix : length suffix = 4%nat -> suffix <> str ".kea" -> suffix <> str ".bak" -> ~ installed (str "/hdd/apps/" ++ name ++ suffix).
Proof.
  intros Hl H1 H2 [_ Hs]. rewrite app_assoc, !length_app, Hl, Nat.add_sub, <- length_app, drop_app_length in Hs. by destruct Hs.
Qed.
Lemma managed_name name : managed (str "/hdd/apps/" ++ name).
Proof. left. reflexivity. Qed.

Lemma package_managed id suffix : managed (package_path 96 id suffix).
Proof. left. unfold package_path, s_cat, s_copy. rewrite (take_ge (str "/hdd/apps/")) by (cbn; lia). by rewrite <- app_assoc. Qed.

Lemma normalize_id_length input cap id : normalize_id input cap = Some id -> (length id <= cap - 1)%nat.
Proof. unfold normalize_id. destruct (negb _); [done|]. destruct (_ && _); [|done]. intros [= <-]. rewrite length_take. lia. Qed.

Section Sound.
Context {W : Type} `{FS : Files W, FA : FrameAllocator W, HS : Https W, FL : !FilesLaws W, CR : Crypto, CL : !CryptoLaws}.
Variable w0 : W.
Implicit Types (w : W) (p q : path).

Definition verified w : Prop := forall p c, installed p -> content w p = Some c -> accepted c true.

(** All packages are properly signed, and no other file of the system has changed. *)
Definition sound w : Prop := verified w /\ forall q, ~ managed q -> content w q = content w0 q.

Lemma sound_same w w' : sound w -> (forall q, content w' q = content w q) -> sound w'.
Proof. intros [H1 H2] H. split; [intros p c Hp Hc; apply (H1 p c Hp); by rewrite <- H|intros q Hq; rewrite H; auto]. Qed.

Lemma sound_write w p d w' rc : vfs_write w p d = (w', rc) -> sound w -> managed p -> (installed p -> accepted d true) -> sound w'.
Proof.
  intros Hw [H1 H2] Hp Hd. destruct (write_law _ _ _ _ _ Hw) as (W1 & W2 & W3). split.
  - intros q c Hq Hc. destruct (decide (q = p)) as [->|Hne]; [|apply (H1 q c Hq); by rewrite <- W1].
    destruct (decide (rc = Z.of_nat (length d))) as [Hr|Hr]; [rewrite (W2 Hr) in Hc; injection Hc as <-; auto|rewrite (W3 Hr) in Hc; eauto].
  - intros q Hq. rewrite W1; [auto|]. by intros ->.
Qed.

Lemma sound_delete w p w' rc : vfs_delete w p = (w', rc) -> sound w -> managed p -> sound w'.
Proof.
  intros Hw [H1 H2] Hp. destruct (delete_law _ _ _ _ Hw) as (W1 & W2 & _). split.
  - intros q c Hq Hc. destruct (decide (q = p)) as [->|Hne]; [|apply (H1 q c Hq); by rewrite <- W1].
    destruct W2 as [W2|W2]; rewrite W2 in Hc; [done|eauto].
  - intros q Hq. rewrite W1; [auto|]. by intros ->.
Qed.

Lemma sound_only l w w' : sound w -> only l w w' -> Forall (fun p => managed p /\ ~ installed p) l -> sound w'.
Proof.
  intros [H1 H2] Ho Hl. rewrite Forall_forall in Hl. split.
  - intros p c Hp Hc. apply (H1 p c Hp). rewrite <- Ho; [done|]. intros Hin%list_elem_of_In. by destruct (Hl _ Hin).
  - intros q Hq. rewrite Ho; [auto|]. intros Hin%list_elem_of_In. by destruct (Hl _ Hin).
Qed.

(** A read keeps the files and gives the start of one. *)
Lemma read_spec w p n w' rc out : vfs_read w p n = (w', rc, out) -> sound w -> sound w' /\
  (0 < rc -> exists c, content w p = Some c /\ out = take (Z.to_nat n) c /\ image out /\ rc = Z.of_nat (length out)).
Proof.
  intros Hr Hs. destruct (read_law _ _ _ _ _ _ Hr) as [H1 H2]. split; [by eapply sound_same|]. intros Hp.
  destruct (H2 Hp) as (c & Hc & -> & ->). exists c. split_and!; try done. destruct (content_bytes _ _ _ Hc) as [B L].
  split; [by apply Forall_take|]. rewrite length_take. lia.
Qed.

Definition returns {A} (f : A -> W) (r : option A) : Prop := exists a, r = Some a /\ sound (f a).

Lemma returns_some {A} (f : A -> W) a : sound (f a) -> returns f (Some a).
Proof. by exists a. Qed.
Lemma returns_bind {A B} (f : A -> W) (g : B -> W) r k : returns f r -> (forall a, sound (f a) -> returns g (k a)) -> returns g (r ≫= k).
Proof. intros (a & -> & Ha) Hk. cbn [mbind option_bind]. by apply Hk. Qed.

(** ** The data base *)

Lemma db_entries_returns w db l : sound w -> returns fst (db_entries w db l).
Proof.
  revert w db. induction l as [|[name is_dir] l IH]; intros w db Hs; [by apply returns_some|]. cbn [db_entries]. destruct (_ || _ || _); [by apply IH|].
  unfold read_buffer. destruct (vfs_read w _ _) as [[w1 got] data] eqn:Er. destruct (read_spec _ _ _ _ _ _ Er Hs) as [S1 R1].
  destruct (Z.ltb_spec 0 got) as [Hg|Hg]; [|by apply IH]. destruct (R1 Hg) as (c & _ & _ & Hi & _).
  destruct (base_header_spec data Hi) as ([b|] & -> & Hb); cbn [mbind option_bind]; [|by apply IH].
  destruct Hb as [Hb _]. pose proof (bo_size _ _ Hb) as Hz. unfold HDR in Hz. unfold KEA_APP_VERSION. rewrite slice_some by lia. by apply IH.
Qed.

Lemma rebuild_db_returns w : sound w -> returns (fun x => fst (fst x)) (rebuild_db w).
Proof.
  intros Hs. unfold rebuild_db. destruct (vfs_list w _ _) as [[w1 count] entries] eqn:El.
  assert (S1 : sound w1) by (eapply sound_same; [exact Hs|apply (list_law _ _ _ _ _ _ El)]). destruct (count <? 0); [by apply returns_some|].
  eapply returns_bind; [by apply db_entries_returns|]. intros [w2 db] S2. destruct (vfs_write w2 KPM_DB_PATH db) as [w3 rc] eqn:Ew.
  apply returns_some. eapply sound_write; [exact Ew|exact S2|by left|]. intros [_ [H|H]]; vm_compute in H; congruence.
Qed.

(** ** Transactions *)

Lemma end_transaction_sound w id : sound w -> sound (end_transaction w id).
Proof.
  intros Hs. unfold end_transaction. destruct (vfs_delete w _) as [w1 r1] eqn:E1. destruct (vfs_delete w1 _) as [w2 r2] eqn:E2. destruct (vfs_delete w2 _) as [w3 r3] eqn:E3.
  pose proof (sound_delete _ _ _ _ E1 Hs (package_managed _ _)) as S1. pose proof (sound_delete _ _ _ _ E2 S1 (package_managed _ _)) as S2.
  apply (sound_delete _ _ _ _ E3 S2). by left.
Qed.

(** What a file that fits the buffer reads as. *)
Lemma read_fitting w p w' rc out : fits_buffer w p = true -> read_buffer w p = (w', rc, out) -> 0 < rc -> content w p = Some out.
Proof.
  unfold fits_buffer, read_buffer. intros Hf Hr Hp. destruct (read_law _ _ _ _ _ _ Hr) as [_ H2]. destruct (H2 Hp) as (c & Hc & -> & _).
  destruct (vfs_stat w p) as [[size d]|] eqn:Es; [|done]. apply Z.leb_le in Hf. rewrite (stat_law _ _ _ _ _ Es Hc) in Hf. rewrite Hc. f_equal.
  symmetry. apply take_ge. lia.
Qed.
(** Copies of a package that fits the buffer are properly signed, too. *)
Lemma read_package w id suffix w' rc out : sound w -> (length id <= 63)%nat -> suffix = str ".kea" \/ suffix = str ".bak" ->
  fits_buffer w (package_path 96 id suffix) = true -> read_buffer w (package_path 96 id suffix) = (w', rc, out) -> 0 < rc -> accepted out true.
Proof.
  intros [Hv _] Hi Hs Hf Hr Hp. assert (Hl : length suffix = 4%nat) by (by destruct Hs as [-> | ->]).
  eapply Hv; [|by eapply read_fitting]. rewrite package_path_eq by done. by apply installed_name.
Qed.

Lemma restore_sound w id : sound w -> (length id <= 63)%nat -> sound (restore w id).
Proof.
  intros Hs Hi. unfold restore. destruct (fits_buffer w _) eqn:Hf.
  - destruct (read_buffer w _) as [[w1 n] old] eqn:Er. destruct (read_spec _ _ _ _ _ _ Er Hs) as [S1 _]. destruct (Z.ltb_spec 0 n) as [Hn|]; [|done].
    pose proof (read_package _ _ _ _ _ _ Hs Hi (or_intror eq_refl) Hf Er Hn) as Ha.
    destruct (vfs_write w1 _ old) as [w2 rc] eqn:Ew. apply (sound_write _ _ _ _ _ Ew S1); [apply package_managed|done].
  - destruct (vfs_delete w _) as [w1 rc] eqn:Ed. apply (sound_delete _ _ _ _ Ed Hs), package_managed.
Qed.

Lemma recover_returns w : sound w -> returns id (recover_transaction w).
Proof.
  intros Hs. unfold recover_transaction. destruct (vfs_read w _ 63) as [[w1 got] out] eqn:Er. destruct (read_spec _ _ _ _ _ _ Er Hs) as [S1 R1].
  destruct (Z.leb_spec got 0) as [|Hg]; [by apply returns_some|]. destruct (R1 Hg) as (c & _ & -> & _).
  eapply returns_bind; [apply rebuild_db_returns, end_transaction_sound, restore_sound; [done|]|intros [[w2 rc] db] S2; by apply returns_some].
  unfold c_string. rewrite !length_take. change (Z.to_nat 63) with 63%nat. lia.
Qed.

Lemma abort_returns w rc : sound w -> returns fst (abort_transaction w rc).
Proof. intros Hs. eapply returns_bind; [by apply recover_returns|]. intros w1 S1. by apply returns_some. Qed.

Lemma save_old_sound w id : sound w -> (length id <= 63)%nat -> sound (fst (save_old w id)).
Proof.
  intros Hs Hi. unfold save_old. destruct (fits_buffer w _) eqn:Hf; [|done]. destruct (read_buffer w _) as [[w1 n] old] eqn:Er.
  destruct (read_spec _ _ _ _ _ _ Er Hs) as [S1 _]. destruct (Z.leb_spec n 0) as [|Hn]; [done|].
  pose proof (read_package _ _ _ _ _ _ Hs Hi (or_introl eq_refl) Hf Er Hn) as Ha.
  destruct (vfs_write w1 _ old) as [w2 rc] eqn:Ew. apply (sound_write _ _ _ _ _ Ew S1); [apply package_managed|done].
Qed.

Lemma put_new_returns w id : sound w -> returns fst (put_new w id).
Proof.
  intros Hs. unfold put_new. destruct (read_buffer w _) as [[w1 n] data] eqn:Er. destruct (read_spec _ _ _ _ _ _ Er Hs) as [S1 R1].
  destruct (Z.leb_spec n 0) as [|Hn]; [by apply returns_some|]. destruct (R1 Hn) as (c & _ & _ & Hi & _).
  destruct (kea_answers data true Hi) as (rc & -> & Ha). cbn [mbind option_bind]. destruct (Z.eqb_spec rc KEA_VERIFY_OK) as [Hrc|]; cbn [negb]; [|by apply returns_some].
  destruct (vfs_write w1 _ data) as [w2 r2] eqn:Ew.
  pose proof (sound_write _ _ _ _ _ Ew S1 (package_managed _ _) (fun _ => proj1 Ha Hrc)) as S2. destruct (negb _); [by apply returns_some|].
  eapply returns_bind; [by apply rebuild_db_returns|]. intros [[w3 r3] db] S3. by apply returns_some.
Qed.

Lemma commit_returns w id data : sound w -> (length id <= 63)%nat -> returns fst (commit_package w id data).
Proof.
  intros Hs Hi. unfold commit_package. destruct (vfs_write w _ data) as [w1 r1] eqn:E1.
  assert (S1 : sound w1).
  { apply (sound_write _ _ _ _ _ E1 Hs (package_managed _ _)). rewrite package_path_eq by done. intros H. by apply not_installed_name in H. }
  destruct (negb _); [by apply returns_some|]. destruct (vfs_write w1 KPM_TXN_PATH id) as [w2 r2] eqn:E2.
  assert (S2 : sound w2) by (apply (sound_write _ _ _ _ _ E2 S1); [by left|intros [_ [H|H]]; vm_compute in H; congruence]).
  destruct (negb _); [by apply returns_some|]. pose proof (save_old_sound w2 id S2 Hi) as S3. destruct (save_old w2 id) as [w3 saved]. cbn [fst] in S3.
  destruct (negb saved); [by apply abort_returns|]. eapply returns_bind; [by apply put_new_returns|]. intros [w4 ok] S4.
  destruct (negb ok); [by apply abort_returns|]. apply returns_some. by apply end_transaction_sound.
Qed.

(** ** Installing *)

Lemma download_spec w id w' body : download w id = (w', body) -> sound w -> sound w' /\ match body with Some b => image b | None => True end.
Proof.
  unfold download, download_url. destruct (kesh_https_get w _ _) as [[[w1 result] status] response] eqn:Eh. intros [= <- <-] Hs.
  assert (H : forall q, content w1 q = content w q /\ Forall (fun b => 0 <= b < 256) response /\ (0 <= KPM_BUFFER_SIZE -> Z.of_nat (length response) <= KPM_BUFFER_SIZE))
    by (intros q; by eapply https_law). split; [eapply sound_same; [exact Hs|apply H]|].
  destruct (_ || _); [done|]. destruct (http_body response) as [b|] eqn:Eb; [|done]. destruct (H []) as (_ & B & L). unfold KPM_BUFFER_SIZE in L.
  destruct (http_body_bytes _ _ _ B (L ltac:(lia)) Eb). split; [done|lia].
Qed.

Lemma installed_version_returns w id minimum : sound w -> returns fst (installed_version w id minimum).
Proof.
  intros Hs. unfold installed_version. destruct (negb _); [by apply returns_some|]. destruct (read_buffer w _) as [[w1 n] data] eqn:Er.
  destruct (read_spec _ _ _ _ _ _ Er Hs) as [S1 R1]. destruct (Z.leb_spec n 0) as [|Hn]; [by apply returns_some|]. destruct (R1 Hn) as (c & _ & _ & Hi & _).
  destruct (kea_answers data true Hi) as (rc & -> & Ha). cbn [mbind option_bind]. destruct (Z.eqb_spec rc KEA_VERIFY_OK) as [Hrc|]; cbn [negb]; [|by apply returns_some].
  destruct (proj1 Ha Hrc) as (b & Hb & _). destruct (version_at_least_some (drop (Z.to_nat KEA_APP_VERSION) data) (minimum ++ [0])) as (r & ->); [|apply in_or_app; right; by left|by apply returns_some].
  by eapply header_zero_in.
Qed.

(** States with the lines shown. *)
Abbreviation state_of := (fun x : W * list (list Z) * Z => fst (fst x)).

Lemma install_deps_returns install deps st : (forall st id, sound (fst st) -> (length id <= 63)%nat -> returns state_of (install st id)) ->
  sound (fst st) -> returns state_of (install_deps install st deps).
Proof.
  intros Hi. revert st. induction deps as [|[name min] deps IH]; intros st Hs; [by apply returns_some|]. cbn [install_deps].
  destruct (normalize_id name 33) as [id|] eqn:En; [|by apply returns_some]. apply normalize_id_length in En.
  eapply returns_bind; [by apply installed_version_returns|]. intros [w present] S1. destruct present; [by apply IH|].
  eapply returns_bind; [apply Hi; [done|lia]|]. intros [st2 rc] S2. destruct (negb _); [by apply returns_some|by apply IH].
Qed.

Lemma install_package_returns levels st id : sound (fst st) -> (length id <= 63)%nat -> returns state_of (install_package levels st id).
Proof.
  revert st id. induction levels as [|levels IH]; intros st id Hs Hl; [by apply returns_some|]. cbn [install_package].
  destruct (download (fst st) id) as [w1 body] eqn:E1. destruct (download_spec _ _ _ _ E1 Hs) as [S1 B1]. destruct body as [data|]; [|by apply returns_some].
  destruct (kea_answers data true B1) as (rc & -> & Ha). cbn [mbind option_bind]. destruct (Z.eqb_spec rc KEA_VERIFY_OK) as [Hrc|]; cbn [negb]; [|by apply returns_some].
  destruct (dependencies_some data B1 (accepted_size _ (proj1 Ha Hrc))) as (deps & ->). cbn [mbind option_bind].
  eapply returns_bind; [by apply install_deps_returns|]. intros [st2 r2] S2. destruct (negb _); [by apply returns_some|].
  destruct (download (fst st2) id) as [w3 body] eqn:E3. destruct (download_spec _ _ _ _ E3 S2) as [S3 B3]. destruct body as [data2|]; [|by apply returns_some].
  destruct (kea_answers data2 true B3) as (rc2 & -> & _). cbn [mbind option_bind]. destruct (negb _); [by apply returns_some|].
  eapply returns_bind; [by apply commit_returns|]. intros [w4 r4] S4. by apply returns_some.
Qed.

(** ** Commands *)

Lemma ends_kea_name name : (5 <= length name)%nat -> ends_kea name = true -> installed (str "/hdd/apps/" ++ name).
Proof.
  intros Hl He. unfold ends_kea, s_eq in He. apply bool_decide_eq_true in He. rewrite <- (take_drop (length name - 4) name), He.
  apply installed_name; auto.
Qed.

Lemma required_by_returns w id l : sound w -> Forall (fun e : path * bool => (length (fst e) <= 63)%nat) l -> returns fst (required_by w id l).
Proof.
  intros Hs Hl. revert w Hs. induction Hl as [|[name d] l Hn Hl IH]; intros w Hs; [by apply returns_some|]. cbn [required_by fst] in *.
  destruct (Nat.ltb_spec (length name) 5) as [|H5]; cbn [orb]; [by apply IH|]. destruct (ends_kea name) eqn:He; cbn [negb]; [|by apply IH].
  pose proof (ends_kea_name name H5 He) as Hin. unfold s_cat, s_copy. rewrite (take_ge (str "/hdd/apps/")), (take_ge name) by (cbn [length str]; lia).
  destruct (read_buffer w _) as [[w1 got] data] eqn:Er. destruct (read_spec _ _ _ _ _ _ Er Hs) as [S1 R1].
  assert (Hd : exists deps, (if 0 <? got then dependencies data else Some []) = Some deps).
  { destruct (Z.ltb_spec 0 got) as [Hg|]; [|by eexists]. destruct (R1 Hg) as (c & Hc & -> & Hi & _). apply dependencies_some; [done|].
    pose proof (accepted_size _ (proj1 Hs _ _ Hin Hc)) as Hz. rewrite length_take. unfold KPM_BUFFER_SIZE, HDR_V2 in *. lia. }
  destruct Hd as (deps & ->). cbn [mbind option_bind]. destruct (existsb _ deps); [by apply returns_some|by apply IH].
Qed.

Lemma cmd_install_returns w shown argument : sound w -> returns fst (cmd_install w shown argument).
Proof.
  intros Hs. unfold cmd_install. destruct (normalize_id argument 48) as [id|] eqn:En; [|by apply returns_some]. apply normalize_id_length in En.
  eapply returns_bind; [apply install_package_returns; [done|lia]|]. intros [st rc] S1. by apply returns_some.
Qed.

Lemma cmd_remove_returns w shown argument : sound w -> returns fst (cmd_remove w shown argument).
Proof.
  intros Hs. unfold cmd_remove. destruct (normalize_id argument 48) as [id|]; [|by apply returns_some].
  unfold package_is_required. destruct (vfs_list w _ _) as [[w1 count] entries] eqn:El. destruct (list_law _ _ _ _ _ _ El) as [L1 L2].
  eapply returns_bind; [apply required_by_returns; [by eapply sound_same|by apply Forall_take]|]. intros [w2 required] S2.
  destruct required; [by apply returns_some|]. destruct (vfs_delete w2 _) as [w3 rc] eqn:Ed. pose proof (sound_delete _ _ _ _ Ed S2 (package_managed _ _)) as S3.
  eapply (returns_bind fst); [|intros [w4 ok] S4; by apply returns_some]. destruct (rc =? 0); [|by apply returns_some].
  eapply returns_bind; [by apply rebuild_db_returns|]. intros [[w5 r5] db] S5. by apply returns_some.
Qed.

Lemma cmd_list_returns w shown : sound w -> returns fst (cmd_list w shown).
Proof.
  intros Hs. eapply returns_bind; [by apply rebuild_db_returns|]. intros [[w1 rc] db] S1. destruct (negb _); by apply returns_some.
Qed.

Lemma cmd_info_returns w shown argument : sound w -> returns fst (cmd_info w shown argument).
Proof.
  intros Hs. unfold cmd_info. destruct (normalize_id argument 48) as [id|]; [|by apply returns_some]. destruct (read_buffer w _) as [[w1 got] data] eqn:Er.
  destruct (read_spec _ _ _ _ _ _ Er Hs) as [S1 R1]. destruct (Z.ltb_spec 0 got) as [Hg|Hg]; [|by apply returns_some]. destruct (R1 Hg) as (c & _ & _ & Hi & _).
  destruct (base_header_spec data Hi) as ([b|] & -> & Hb); cbn [mbind option_bind]; [|by apply returns_some]. destruct Hb as [Hb _].
  destruct (c_string_at_some data b KEA_NAME Hb Hi) as (s1 & ->); [done|]. destruct (c_string_at_some data b KEA_APP_VERSION Hb Hi) as (s2 & ->); [done|].
  destruct (c_string_at_some data b KEA_DESCRIPTION Hb Hi) as (s3 & ->); [done|]. destruct (kea_answers data true Hi) as (rc & -> & _). by apply returns_some.
Qed.

Lemma cmd_update_returns w shown : sound w -> returns fst (cmd_update w shown).
Proof.
  intros Hs. unfold cmd_update. destruct (kesh_https_get w _ _) as [[[w1 result] status] response] eqn:Eh.
  assert (S1 : sound w1) by (eapply sound_same; [exact Hs|intros q; apply (https_law _ _ _ _ _ _ _ q Eh)]).
  destruct (http_body response) as [body|]; [|by apply returns_some]. destruct (_ && _); [|by apply returns_some].
  destruct (vfs_write w1 _ body) as [w2 rc] eqn:Ew. apply returns_some. apply (sound_write _ _ _ _ _ Ew S1); [by left|]. intros [_ [H|H]]; vm_compute in H; congruence.
Qed.

(** The files of system updates are not packages. *)
Lemma update_files_managed slot : slot_ok slot -> Forall (fun p => managed p /\ ~ installed p) (update_files slot).
Proof.
  intros [-> | ->]; repeat (apply Forall_cons; split; [split; [by right|by intros [H _]]|]); by apply Forall_nil.
Qed.

Lemma cmd_os_update_returns w shown : sound w -> returns fst (cmd_os_update w shown).
Proof.
  intros Hs. unfold cmd_os_update. cbv zeta. set (pages := _ / PAGE_SIZE). pose proof (alloc_law w pages) as A1. destruct (fa_alloc_pages w pages) as [w1 physical]. cbn [fst] in A1.
  assert (S1 : sound w1) by (by eapply sound_same). destruct (physical =? 0); [by apply returns_some|].
  destruct (kesh_https_get w1 _ _) as [[[w2 result] status] response] eqn:Eh.
  assert (H : forall q, content w2 q = content w1 q /\ Forall (fun b => 0 <= b < 256) response /\ (0 <= 64 * 1024 * 1024 -> Z.of_nat (length response) <= 64 * 1024 * 1024))
    by (intros q; by eapply https_law).
  assert (S2 : sound w2) by (eapply sound_same; [exact S1|apply H]). assert (Free : forall w3, sound w3 -> sound (fst (fa_free_pages w3 physical pages))).
  { intros w3 S3. eapply sound_same; [exact S3|intros q; apply free_law]. }
  destruct (http_body response) as [body|] eqn:Eb; [|by apply returns_some, Free]. destruct (_ && _); [|by apply returns_some, Free].
  destruct (H []) as (_ & B & L). destruct (http_body_bytes _ _ _ B (L ltac:(lia)) Eb) as [B1 B2].
  destruct (update_stage_answers w2 body) as (w3 & rc & -> & St & _); [split; [done|lia]|]. cbn [mbind option_bind].
  pose proof (Free w3 (sound_only _ _ _ S2 (sg_only _ _ _ _ _ _ St) (update_files_managed _ (other_slot_ok _)))) as S3.
  destruct (fa_free_pages w3 physical pages) as [w4 r4]. by apply returns_some.
Qed.

Lemma write_state_sound w active pending rel n w' rc : write_state w active pending rel n = (w', rc) -> sound w -> sound w'.
Proof.
  intros Hw Hs. destruct (write_state_spec _ _ _ _ _ _ _ Hw) as [O _]. apply (sound_only _ _ _ Hs O). apply Forall_cons. split; [|by apply Forall_nil].
  split; [by right|by intros [H _]].
Qed.

Lemma active_slot_sound w : sound w -> sound (fst (active_slot w)).
Proof. intros Hs. eapply sound_same; [exact Hs|apply active_slot_same]. Qed.

Lemma cmd_os_confirm_returns w shown : sound w -> returns fst (cmd_os_confirm w shown).
Proof.
  intros Hs. unfold cmd_os_confirm, kpm_system_update_confirm. destruct (vfs_read w _ 127) as [[w1 n] out] eqn:Er. destruct (read_spec _ _ _ _ _ _ Er Hs) as [S1 _].
  destruct (n <=? 0); [by apply returns_some|]. cbv zeta. destruct (_ && _); [by apply returns_some|].
  destruct (write_state w1 _ _ _ _) as [w2 rc] eqn:Ew. apply returns_some. by eapply write_state_sound.
Qed.

Lemma cmd_os_rollback_returns w shown : sound w -> returns fst (cmd_os_rollback w shown).
Proof.
  intros Hs. unfold cmd_os_rollback, kpm_system_update_rollback. pose proof (active_slot_sound w Hs) as S1. destruct (active_slot w) as [w1 active]. cbn [fst] in S1.
  destruct (write_state w1 _ _ _ _) as [w2 rc] eqn:Ew. apply returns_some. by eapply write_state_sound.
Qed.

Lemma kpm_returns w args : sound w -> returns fst (kpm_cmd_exec w args).
Proof.
  intros Hs. unfold kpm_cmd_exec. destruct (vfs_mkdir w _) as [w1 made] eqn:Em. assert (S1 : sound w1) by (eapply sound_same; [exact Hs|intros q; by eapply mkdir_law]).
  destruct (_ && _); [by apply returns_some|]. eapply returns_bind; [by apply recover_returns|]. intros w2 S2. unfold id in S2.
  destruct (split args 16 48) as [command argument]. cbv zeta.
  repeat match goal with |- returns _ (if ?b then _ else _) => destruct b end;
    auto using returns_some, cmd_install_returns, cmd_remove_returns, cmd_list_returns, cmd_info_returns, cmd_update_returns, cmd_os_update_returns, cmd_os_confirm_returns, cmd_os_rollback_returns.
Qed.
End Sound.


(** ** What an installation changes *)

Section Commit.
Context {W : Type} `{FS : Files W, FA : FrameAllocator W, HS : Https W, FL : !FilesLaws W, CR : Crypto, CL : !CryptoLaws}.
Implicit Types (w : W).

Lemma db_entries_same w db l w' db' : db_entries w db l = Some (w', db') -> forall q, content w' q = content w q.
Proof.
  revert w db. induction l as [|[name is_dir] l IH]; intros w db; cbn [db_entries]; [by intros [= <- _]|]. destruct (_ || _ || _); [apply IH|].
  destruct (read_buffer w _) as [[w1 got] data] eqn:Er. destruct (read_law _ _ _ _ _ _ Er) as [R1 _].
  assert (Next : forall db1, db_entries w1 db1 l = Some (w', db') -> forall q, content w' q = content w q) by (intros db1 H q; by rewrite (IH _ _ H), R1).
  destruct (if 0 <? got then _ else _) as [[b|]|]; cbn [mbind option_bind]; [|apply Next|done]. destruct (slice _ _ _); [apply Next|done].
Qed.

Lemma rebuild_db_only w w' rc db : rebuild_db w = Some (w', rc, db) -> only [KPM_DB_PATH] w w'.
Proof.
  unfold rebuild_db. destruct (vfs_list w _ _) as [[w1 count] entries] eqn:El. destruct (list_law _ _ _ _ _ _ El) as [L _].
  destruct (count <? 0); [intros [= <- _ _] q _; apply L|]. destruct (db_entries w1 [] _) as [[w2 db2]|] eqn:Ed; [|done]. cbn [mbind option_bind].
  destruct (vfs_write w2 KPM_DB_PATH db2) as [w3 r3] eqn:Ew. intros [= <- _ _] q Hq. rewrite (only_write [KPM_DB_PATH] _ _ _ _ _ Ew); [|by left|done].
  by rewrite (db_entries_same _ _ _ _ _ Ed), L.
Qed.

(** The files one installation works with. *)
Definition package_files (id : list Z) : list path :=
  [package_path 96 id (str ".kea"); package_path 96 id (str ".new"); package_path 96 id (str ".bak"); KPM_TXN_PATH; KPM_DB_PATH].

Lemma only_weaken l l' w w' : only l w w' -> (forall p, In p l -> In p l') -> only l' w w'.
Proof. intros H Hl q Hq. apply H. intros Hin. by apply Hq, Hl. Qed.

Lemma end_transaction_only w id : only [package_path 96 id (str ".new"); package_path 96 id (str ".bak"); KPM_TXN_PATH] w (end_transaction w id).
Proof.
  unfold end_transaction. destruct (vfs_delete w _) as [w1 r1] eqn:E1. destruct (vfs_delete w1 _) as [w2 r2] eqn:E2. destruct (vfs_delete w2 _) as [w3 r3] eqn:E3.
  eapply only_trans; [eapply only_trans; [eapply only_delete; [exact E1|]|eapply only_delete; [exact E2|]]|eapply only_delete; [exact E3|]]; cbn; auto.
Qed.

(** Distinct file names of one package. *)
Lemma package_distinct id suffix suffix' : (length id <= 63)%nat -> length suffix = 4%nat -> length suffix' = 4%nat -> suffix <> suffix' ->
  package_path 96 id suffix <> package_path 96 id suffix'.
Proof. intros Hi H1 H2 Hne. rewrite !package_path_eq by done. intros H. by apply app_inv_head, app_inv_head in H. Qed.
Lemma package_no_dot id suffix : (length id <= 63)%nat -> Forall (fun c => id_char c = true) id -> length suffix = 4%nat ->
  id <> [] -> package_path 96 id suffix <> KPM_TXN_PATH /\ package_path 96 id suffix <> KPM_DB_PATH.
Proof.
  intros Hi Hc Hl Hne. rewrite package_path_eq by done. destruct id as [|c id]; [done|]. apply Forall_cons in Hc as [Hc _].
  split; intros H; change KPM_TXN_PATH with (str "/hdd/apps/" ++ str ".kpm.txn") in *; change KPM_DB_PATH with (str "/hdd/apps/" ++ str ".kpm.db") in *;
    apply app_inv_head in H; cbn in H; injection H as H _; subst c; done.
Qed.

(** Package ids, as [normalize_id] gives them. *)
Record id_ok (id : list Z) : Prop := IdOk { io_some : id <> []; io_length : (length id <= 47)%nat; io_chars : Forall (fun c => id_char c = true) id }.

Abbreviation kea id := (package_path 96 id (str ".kea")).
Abbreviation new id := (package_path 96 id (str ".new")).
Abbreviation bak id := (package_path 96 id (str ".bak")).

Lemma package_files_nodup id : id_ok id -> NoDup (package_files id).
Proof.
  intros [H0 Hl Hc]. assert (Hl' : (length id <= 63)%nat) by lia. unfold package_files.
  pose proof (package_no_dot id (str ".kea") Hl' Hc eq_refl H0). pose proof (package_no_dot id (str ".new") Hl' Hc eq_refl H0). pose proof (package_no_dot id (str ".bak") Hl' Hc eq_refl H0).
  pose proof (package_distinct id (str ".kea") (str ".new") Hl' eq_refl eq_refl ltac:(done)). pose proof (package_distinct id (str ".kea") (str ".bak") Hl' eq_refl eq_refl ltac:(done)).
  pose proof (package_distinct id (str ".new") (str ".bak") Hl' eq_refl eq_refl ltac:(done)). assert (KPM_TXN_PATH <> KPM_DB_PATH) by (vm_compute; congruence).
  rewrite !NoDup_cons, !not_elem_of_cons. split_and!; try tauto; try (apply NoDup_nil_2); apply not_elem_of_nil.
Qed.

Lemma c_string_id id : Forall (fun c => id_char c = true) id -> c_string id = id.
Proof.
  intros Hc. unfold c_string. rewrite take_ge; [done|]. induction Hc as [|c id Hc _ IH]; [done|]. cbn [span_len length].
  destruct (Z.eqb_spec c 0) as [->|]; [done|]. cbn [negb]. lia.
Qed.

(** Recovery gives back the saved copy, or removes the package, or could not do either. *)
Lemma restore_only w id : only [kea id] w (restore w id) /\
  (content (restore w id) (kea id) = content w (kea id) \/ content (restore w id) (kea id) = None \/ content (restore w id) (kea id) = content w (bak id)).
Proof.
  unfold restore. rewrite package_path_kea. destruct (fits_buffer w (bak id)) eqn:Hf.
  - destruct (read_buffer w _) as [[w1 n] old] eqn:Er. destruct (read_law _ _ _ _ _ _ Er) as [R1 _]. destruct (Z.ltb_spec 0 n) as [Hn|]; [|split; [intros q _; apply R1|left; apply R1]].
    pose proof (read_fitting _ _ _ _ _ Hf Er Hn) as Hb. destruct (vfs_write w1 _ old) as [w2 rc] eqn:Ew. destruct (write_law _ _ _ _ _ Ew) as (W1 & W2 & W3). cbn [fst]. split.
    + intros q Hq. rewrite W1; [apply R1|]. intros ->. apply Hq. by left.
    + destruct (decide (rc = Z.of_nat (length old))) as [Hr|Hr]; [right; right; rewrite Hb; auto|left; rewrite (W3 Hr); apply R1].
  - destruct (vfs_delete w (kea id)) as [w1 rc] eqn:Ed. destruct (delete_law _ _ _ _ Ed) as (_ & D & _). cbn [fst]. split; [apply (only_delete _ _ _ _ _ Ed); by left|tauto].
Qed.

Lemma recover_only w id w' : id_ok id -> content w KPM_TXN_PATH = Some id -> recover_transaction w = Some w' ->
  only (package_files id) w w' /\
  (content w' (kea id) = content w (kea id) \/ content w' (kea id) = None \/ content w' (kea id) = content w (bak id)).
Proof.
  intros Hid Ht. unfold recover_transaction. destruct (vfs_read w _ 63) as [[w1 got] o] eqn:Er. destruct (read_law _ _ _ _ _ _ Er) as [R1 R2].
  destruct (Z.leb_spec got 0) as [|Hg]; [intros [= <-]; split; [intros q _; apply R1|left; apply R1]|]. destruct (R2 Hg) as (c & Hc & -> & _).
  assert (c = id) as -> by congruence. rewrite take_ge by (change (Z.to_nat 63) with 63%nat; pose proof (io_length _ Hid); lia).
  rewrite (c_string_id _ (io_chars _ Hid)). destruct (restore_only w1 id) as [O2 K2]. set (w2 := restore w1 id) in *. pose proof (end_transaction_only w2 id) as O3. set (w3 := end_transaction w2 id) in *.
  destruct (rebuild_db w3) as [[[w4 rc] db]|] eqn:Ed; [|done]. cbn [mbind option_bind]. intros [= <-]. apply rebuild_db_only in Ed.
  pose proof (package_files_nodup id Hid) as Hnd. unfold package_files in *. rewrite !NoDup_cons, !not_elem_of_cons in Hnd. split.
  - intros q Hq. cbn [In] in Hq. rewrite Ed, O3, O2, R1; [done|cbn [In]; tauto..].
  - rewrite Ed, O3 by (cbn [In]; intuition congruence). rewrite !R1 in K2. exact K2.
Qed.

Lemma save_old_only w id w' saved : save_old w id = (w', saved) ->
  only [bak id] w w' /\ (content w' (bak id) = content w (bak id) \/ content w' (bak id) = content w (kea id)).
Proof.
  unfold save_old. rewrite package_path_kea. destruct (fits_buffer w (kea id)) eqn:Hf; [|intros [= <- _]; split; [done|by left]].
  destruct (read_buffer w _) as [[w1 n] old] eqn:Er. destruct (read_law _ _ _ _ _ _ Er) as [R1 _].
  destruct (Z.leb_spec n 0) as [|Hn]; [intros [= <- _]; split; [intros q _; apply R1|left; apply R1]|].
  pose proof (read_fitting _ _ _ _ _ Hf Er Hn) as Hb. destruct (vfs_write w1 _ old) as [w2 rc] eqn:Ew. destruct (write_law _ _ _ _ _ Ew) as (W1 & W2 & W3).
  intros [= <- _]. split.
  - intros q Hq. rewrite W1; [apply R1|]. intros ->. apply Hq. by left.
  - destruct (decide (rc = Z.of_nat (length old))) as [Hr|Hr]; [right; rewrite Hb; auto|left; rewrite (W3 Hr); apply R1].
Qed.

Lemma put_new_only w id data w' ok : id_ok id -> content w (new id) = Some data -> Z.of_nat (length data) <= KPM_BUFFER_SIZE -> put_new w id = Some (w', ok) ->
  only [kea id; KPM_DB_PATH] w w' /\ (content w' (kea id) = content w (kea id) \/ content w' (kea id) = Some data) /\
  (ok = true -> content w' (kea id) = Some data /\ accepted data true).
Proof.
  intros Hid Hc Hl. unfold put_new. destruct (read_buffer w _) as [[w1 n] data'] eqn:Er. destruct (read_law _ _ _ _ _ _ Er) as [R1 R2].
  assert (Same : w1 = w' -> only [kea id; KPM_DB_PATH] w w' /\ (content w' (kea id) = content w (kea id) \/ content w' (kea id) = Some data)).
  { intros <-. split; [intros q _; apply R1|left; apply R1]. }
  destruct (Z.leb_spec n 0) as [|Hn]; [intros [= <- <-]; destruct Same; done|]. destruct (R2 Hn) as (c & Hc' & -> & Hn'). assert (c = data) as -> by congruence.
  rewrite take_ge in Hn' |- * by lia. destruct (content_bytes _ _ _ Hc) as [B L]. destruct (kea_answers data true) as (rc & -> & Ha); [split; [done|lia]|]. cbn [mbind option_bind].
  destruct (Z.eqb_spec rc KEA_VERIFY_OK) as [Hrc|]; cbn [negb]; [|intros [= <- <-]; destruct Same; done]. rewrite package_path_kea.
  destruct (vfs_write w1 (kea id) data) as [w2 r2] eqn:Ew. destruct (write_law _ _ _ _ _ Ew) as (W1 & W2 & W3).
  assert (O2 : only [kea id; KPM_DB_PATH] w w2) by (intros q Hq; rewrite W1, R1; [done|]; intros ->; apply Hq; by left).
  assert (K2 : content w2 (kea id) = content w (kea id) \/ content w2 (kea id) = Some data).
  { destruct (decide (r2 = Z.of_nat (length data))) as [Hr|Hr]; [right; auto|left; rewrite (W3 Hr); apply R1]. }
  destruct (negb (r2 =? n)) eqn:En; [intros [= <- <-]; done|]. destruct (rebuild_db w2) as [[[w3 r3] db]|] eqn:Ed; [|done]. cbn [mbind option_bind]. intros [= <- <-].
  apply rebuild_db_only in Ed. assert (K3 : content w3 (kea id) = content w2 (kea id)).
  { apply Ed. destruct Hid as [H0 Hi Hch]. destruct (package_no_dot id (str ".kea") ltac:(lia) Hch eq_refl H0). cbn [In]. intuition congruence. }
  split_and!; [eapply only_trans; [exact O2|]; eapply only_weaken; [exact Ed|cbn; auto]|by rewrite K3|]. intros _. split; [|by apply Ha].
  rewrite K3. apply W2. apply negb_false_iff, Z.eqb_eq in En. congruence.
Qed.

(** What is left of an installation that returned [rc]. *)
Record committed w w' (id data : list Z) (rc : Z) : Prop := Committed {
  cm_only : only (package_files id) w w';
  cm_ok : rc = 0 -> content w' (kea id) = Some data /\ accepted data true;
  cm_failed : content w' (kea id) = content w (kea id) \/ content w' (kea id) = content w (bak id) \/ content w' (kea id) = Some data \/ content w' (kea id) = None
}.

(** The states while it is under way. *)
Record under_way w w' (id data : list Z) : Prop := UnderWay {
  uw_only : only (package_files id) w w';
  uw_txn : content w' KPM_TXN_PATH = Some id;
  uw_kea : content w' (kea id) = content w (kea id) \/ content w' (kea id) = Some data;
  uw_bak : content w' (bak id) = content w (bak id) \/ content w' (bak id) = content w (kea id)
}.

Lemma abort_committed w w1 w' id data rc rc' : id_ok id -> under_way w w1 id data -> rc <> 0 -> abort_transaction w1 rc = Some (w', rc') -> committed w w' id data rc'.
Proof.
  intros Hid [O T K B] Hrc. unfold abort_transaction. destruct (recover_transaction w1) as [w2|] eqn:Er; [|done]. cbn [mbind option_bind]. intros [= <- <-].
  destruct (recover_only _ _ _ Hid T Er) as [O2 K2]. constructor; [by eapply only_trans|done|].
  destruct K2 as [K2|[K2|K2]]; rewrite K2; [destruct K as [-> | ->]; auto|auto|destruct B as [-> | ->]; auto].
Qed.

Ltac other_file := cbn [In]; destruct_and?; try intros ?; destruct_or?; congruence.

(** Up to the saved copy. *)
Lemma save_old_under_way w id data w1 w2 w3 saved : id_ok id -> vfs_write w (new id) data = (w1, Z.of_nat (length data)) ->
  vfs_write w1 KPM_TXN_PATH id = (w2, Z.of_nat (length id)) -> save_old w2 id = (w3, saved) ->
  under_way w w3 id data /\ content w3 (new id) = Some data.
Proof.
  intros Hid E1 E2 E3. pose proof (package_files_nodup id Hid) as Hnd. unfold package_files in Hnd. rewrite !NoDup_cons, !not_elem_of_cons in Hnd.
  destruct (write_law _ _ _ _ _ E1) as (H1 & D1 & _), (write_law _ _ _ _ _ E2) as (H2 & D2 & _), (save_old_only _ _ _ _ E3) as [O3 B3].
  assert (K2 : content w2 (kea id) = content w (kea id)) by (rewrite H2 by other_file; apply H1; other_file).
  split; [constructor|rewrite O3, H2 by other_file; auto].
  - intros q Hq. unfold package_files in Hq. cbn [In] in Hq. rewrite O3, H2, H1; [done|..]; try (intros ->); cbn [In]; tauto.
  - rewrite O3 by other_file. auto.
  - left. by rewrite O3 by other_file.
  - rewrite <- K2. destruct B3 as [-> | ->]; [left|by right]. rewrite H2 by other_file. apply H1; other_file.
Qed.

(** C38. Installing a package of at most a megabyte touches no file but the package's own three,
    the transaction mark and the data base, and when it reports success the installed
    package is byte for byte the verified one that was downloaded.  When it fails the installed
    package is the old one, the saved copy, the new one, or gone. *)
Theorem kpm_commit_correct w id data : verified w -> id_ok id -> Z.of_nat (length data) <= KPM_BUFFER_SIZE ->
  exists w' rc, commit_package w id data = Some (w', rc) /\ committed w w' id data rc.
Proof.
  intros Hv Hid Hl. destruct (commit_returns w w id data) as ([w' rc] & E & _); [by split|destruct Hid; lia|]. exists w', rc. split; [done|]. revert E. unfold commit_package.
  destruct (vfs_write w (new id) data) as [w1 r1] eqn:E1. destruct (write_law _ _ _ _ _ E1) as (H1 & _ & _).
  pose proof (package_files_nodup id Hid) as Hnd. unfold package_files in Hnd. rewrite !NoDup_cons, !not_elem_of_cons in Hnd.
  assert (O1 : only (package_files id) w w1) by (apply (only_write _ _ _ _ _ _ E1); unfold package_files; cbn [In]; auto).
  assert (K1 : content w1 (kea id) = content w (kea id)) by (apply H1; other_file).
  destruct (Z.eqb_spec r1 (Z.of_nat (length data))) as [->|]; cbn [negb]; [|intros [= <- <-]; constructor; [done|done|by left]].
  destruct (vfs_write w1 KPM_TXN_PATH id) as [w2 r2] eqn:E2. destruct (write_law _ _ _ _ _ E2) as (H2 & _ & _).
  destruct (Z.eqb_spec r2 (Z.of_nat (length id))) as [->|]; cbn [negb].
  2:{ intros [= <- <-]. constructor; [|done|left; rewrite H2; [done|other_file]].
      eapply only_trans; [exact O1|apply (only_write _ _ _ _ _ _ E2); unfold package_files; cbn [In]; auto]. }
  destruct (save_old w2 id) as [w3 saved] eqn:E3. destruct (save_old_under_way _ _ _ _ _ _ _ Hid E1 E2 E3) as [U3 N3].
  destruct saved; cbn [negb]; [|by apply abort_committed].
  destruct (put_new w3 id) as [[w4 ok]|] eqn:E4; [|done]. cbn [mbind option_bind]. destruct (put_new_only _ _ _ _ _ Hid N3 Hl E4) as (O4 & K4 & A4).
  assert (U4 : under_way w w4 id data).
  { destruct U3 as [O T K B]. constructor; [|by rewrite O4 by other_file|destruct K4 as [-> | ->]; auto|by rewrite O4 by other_file].
    eapply only_trans; [exact O|]. eapply only_weaken; [exact O4|]. unfold package_files. cbn [In]. tauto. }
  destruct ok; cbn [negb]; [|by apply abort_committed]. intros [= <- <-]. pose proof (end_transaction_only w4 id) as O5.
  assert (K5 : content (end_transaction w4 id) (kea id) = Some data) by (rewrite O5 by other_file; by apply A4).
  constructor; [|intros _; split; [done|by apply A4]|by auto].
  eapply only_trans; [apply (uw_only _ _ _ _ U4)|]. eapply only_weaken; [exact O5|]. unfold package_files. cbn [In]. tauto.
Qed.
End Commit.

(** ** A repository with one package *)

#[local] Existing Instance toy_crypto.
#[local] Existing Instance toy_laws.

Definition hello : list Z := str "hello".
(** A server that has the package, and a disk with the files, where the paths [full] cannot
    be written. *)
Definition demo_store (files : list (path * list Z)) (full : list path) : store :=
  Store files full [] [(KPM_REPO ++ str "/api/download?pkg=hello.kea", str "HTTP/1.1 200 OK" ++ [13; 10; 13; 10] ++ demo)].

Lemma demo_accepted : accepted demo true.
Proof. destruct (kea_answers demo true demo_image) as (rc & E & H). rewrite demo_ok in E. injection E as <-. by apply H. Qed.

Lemma demo_store_verified full : verified (demo_store [] full).
Proof. by intros p c _ Hc. Qed.


Lemma hello_ok : id_ok hello.
Proof. constructor; [done|vm_compute; lia|apply (bool_decide_unpack _); vm_compute; exact I]. Qed.

(** The same as a transaction of its own. *)
Lemma kpm_commit_correct_witness : id_ok hello /\ exists w', commit_package (demo_store [] []) hello demo = Some (w', 0) /\ content w' (package_path 96 hello (str ".kea")) = Some demo.
Proof.
  split; [exact hello_ok|]. destruct (kpm_commit_correct (demo_store [] []) hello demo (demo_store_verified []) hello_ok) as (w' & rc & E & [_ H _]); [vm_compute; discriminate|].
  assert (rc = 0) as Hrc by (assert (F : fmap snd (commit_package (demo_store [] []) hello demo) = Some 0) by (vm_compute; reflexivity); rewrite E in F; by injection F). rewrite Hrc in *. exists w'. split; [exact E|by apply H].
Defined.

(** When the installed package cannot be saved the installation fails with it lost:
    there is no saved copy, so recovery removes the package. *)
Theorem failed_backup_loses_package :
  let w := demo_store [(package_path 96 hello [], demo)] [package_path 96 hello (str ".bak")] in
  content w (package_path 96 hello []) = Some demo /\
  exists w', kpm_cmd_exec w (str "install hello") = Some (w', [str "[KPM] Downloading and verifying signed dependency graph..."; str "[KPM] Installation aborted and rolled back"]) /\
    content w' (package_path 96 hello []) = None.
Proof.
  cbv zeta. split; [vm_compute; reflexivity|].
  exists (match kpm_cmd_exec (demo_store [(package_path 96 hello [], demo)] [package_path 96 hello (str ".bak")]) (str "install hello") with Some (w, _) => w | None => demo_store [] [] end).
  split; vm_compute; reflexivity.
Qed.
