(* ===== verification/Syscall.v ===== *)
(** The native system calls: [kernel/syscall.c].

    A system call is a program over the operations of the rest of the kernel: it asks for
    one operation at a time and goes on with the reply, so that what a call may ask for, and
    in which order, can be stated about the program itself.  Kernel memory a reply is
    stored in is named, so that sizes can be checked. *)
From Stdlib Require Import String.
From S2P Require Import Prelude Pmm Vmm Kea Files.

(** ** Requests *)

(** An array on the stack with its size, or pages that were allocated. *)
Inductive buf := Stack (cap : Z) | Pages (phys : Z).

(** The operations, as the C functions of these names; [pid] is always the first argument
    where the C function has one. *)
Inductive call :=
(* processes *)
| HasPermission (q : Z) | IsRoot | IsLinux | CurrentId | LinuxDispatch (num : Z) (args : list Z)
| SetYield (n : Z) | ActiveUserContext | ReturnToKernel (code : Z) | ThreadCreate (entry : Z) | Sleep (ms : Z)
| Credentials | RevokePermissions (pid target mask : Z) | CurrentPty | GetGroup (pid : Z) | SetGroup (pid target group : Z)
| VmMap (len prot : Z) | VmUnmap (va len : Z) | GetTable (dst : buf) (n : Z) | Kill (pid : Z) | SpawnPath (p : list Z) | CurrentPml4
(* user and kernel memory *)
| UserStrnlen (p cap : Z) | CopyIn (dst : buf) (p n : Z) | CopyOut (src : buf) (p : Z) (data : list Z) | AllocPages (n : Z) | FreePages (phys n : Z)
| StackBytes (n : Z)
(* random numbers and messages *)
| RandomReady | RandomBytes (dst : buf) (n : Z) | SerialPrint (s : list Z) | KernelPanic (s : list Z)
| KlogSnapshot (dst : buf) (n lo hi : Z) (module : option (list Z)) | ServiceHeartbeat (pid : Z)
(* sockets and sound *)
| SocketOpen (pid t : Z) | SocketConnect (pid h address port : Z) | SocketBind (pid h address port : Z)
| SocketSendTo (pid h address port : Z) (data : list Z) | SocketRecvFrom (dst : buf) (pid h n timeout : Z) | SocketPoll (pid h events : Z)
| SocketSend (pid h : Z) (data : list Z) | SocketRecv (dst : buf) (pid h n timeout : Z) | SocketClose (pid h : Z)
| SoundReady | SoundDevice | SoundVolume (v : Z) | SoundPlay (data : list Z) | TlsReload | HttpFetch (dst : buf) (url : list Z) (n : Z) | NetInfo
(* descriptors *)
| FdOpen (pid : Z) (p : list Z) (flags : Z) | FdClose (pid fd : Z) | FdDup (pid fd : Z) | FdDup2 (pid fd fd2 : Z) | FdRead (dst : buf) (pid fd n : Z)
| FdWrite (pid fd : Z) (data : list Z) | FdSeek (pid fd offset whence : Z) | FdPoll (pid fd events : Z) | FdReaddir (dst : buf) (pid fd : Z)
| PipeCreate (pid : Z) | FdBindPty (pid h flags : Z) | FdInherit (parent child : Z)
(* messages and terminals *)
| IpcSend (pid target : Z) (data : list Z) | IpcReceive (dst : buf) (pid sender n : Z) | IpcLastSender (pid : Z)
| IpcSendTyped (pid target type : Z) (data : list Z) | IpcReceiveTyped (dst : buf) (pid sender type n : Z)
| TtyCreate (pid : Z) | TtyClose (pid h : Z) | TtyRead (dst : buf) (pid h n : Z) | TtyWrite (pid h : Z) (data : list Z) | TtyAvailable (pid h : Z)
| PtyCreate (pid : Z) | PtyAttach (pid h target : Z) | PtyRead (dst : buf) (pid h n : Z) | PtyWrite (pid h : Z) (data : list Z) | PtyAvailable (pid h : Z)
| PtySetMode (pid h mode : Z) | PtyClose (pid h : Z) | PtySetForeground (pid h group : Z) | PtyGetForeground (pid h : Z) | PtySignal (pid h signal : Z)
(* clock, processor, files *)
| Millis | MonotonicNs | RealtimeNs | Cpuid (leaf : Z)
| VfsList (dst : buf) (p : list Z) (n : Z) | VfsRead (dst : buf) (p : list Z) (n : Z) | VfsWrite (p data : list Z) | VfsStat (p : list Z)
| VfsMkdir (p : list Z) | VfsDelete (p : list Z) | VfsRescan | SystemStats
(* windows and desktop *)
| WindowCreate (w h : Z) (title : list Z) (pml4 : Z) | WindowGet (id : Z) | WindowOfProcess (pml4 : Z) | SetDirty (id : Z) | PopEvent (id : Z)
| ToggleTerminal | ToggleDoom | BringToFront (id : Z) | Reboot | Poweroff | ReadSettings | WriteSettings (s : list Z)
(* of the Linux calls only *)
| SetLinux | CurrentThread | SetClearChildTid (p : Z) | GetClearChildTid | SetThreadClearTid (tidx p : Z) | OtherThreads | LinuxThread (rip stack tls fn : Z)
| UserRip | WriteFsBase (addr : Z) | SetFsBase (addr : Z) | GetFsBase | CpuOnline | SyncTrace | TimerWait (ms : Z) | CurrentName
| GetCustom (pid fd : Z) | FdStat (pid fd : Z) | FdDupMin (pid fd least : Z) | FdReadAt (dst : buf) (pid fd offset n : Z)
| VmMapFixed (va len prot : Z) | VmProtect (va len prot : Z) | VmBrk (va : Z)
| MemfdMap (pid fd len prot offset : Z) | MemfdTruncate (pid fd len : Z) | MemfdCreate (pid : Z) (name : list Z) (flags : Z) | MemfdSize (custom : Z)
| EventfdCreate (pid initial flags : Z) | EvdevOpen (device pid : Z) | EvdevIoctl (custom req arg : Z) | DrmOpen (card : bool) (pid : Z) | DrmIoctl (custom req arg : Z) | DrmMap (pid len prot : Z)
| UnixCreate (pid type protocol : Z) | UnixBind (pid fd : Z) (p : list Z) | UnixListen (pid fd backlog : Z) | UnixConnect (pid fd : Z) (p : list Z) | UnixAccept (pid fd nonblock : Z)
| UnixPair (pid : Z) | UnixSendmsg (pid fd msg flags : Z) | UnixRecvmsg (pid fd msg flags : Z) | UnixPeercred (pid fd : Z)
| EpollCreate (pid flags : Z) | EpollCtl (pid epfd op fd event : Z) | EpollWait (pid epfd events n timeout : Z) | ScreenInfo.

(** The result, further results, and the bytes stored in the buffer. *)
Record reply := Reply { rc : Z; vals : list Z; bytes : list Z }.
Definition val (r : reply) (i : nat) : Z := nth i (vals r) 0.

Inductive prog (A : Type) := Ret (a : A) | Ask (c : call) (k : reply -> prog A).
Arguments Ret {A} a.
Arguments Ask {A} c k.

Fixpoint prog_bind {A B} (f : A -> prog B) (p : prog A) : prog B :=
  match p with Ret a => f a | Ask c k => Ask c (fun r => prog_bind f (k r)) end.
#[export] Instance prog_mbind : MBind prog := @prog_bind.

Definition ask (c : call) : prog reply := Ask c Ret.
(** An operation of which only the result counts, and one without a result. *)
Definition get (c : call) : prog Z := Ask c (fun r => Ret (rc r)).
Definition act (c : call) (p : prog Z) : prog Z := Ask c (fun _ => p).

(** ** Limits *)

Definition SYSCALL_MAX_STRING : Z := 4096.
Definition SYSCALL_MAX_IO : Z := 8 * 1024 * 1024.
Definition SYSCALL_MAX_LIST : Z := 64.
Definition SYSCALL_MAX_RANDOM : Z := 65536.
Definition SYSCALL_MAX_DIAGNOSTICS : Z := 65536.
Definition IPC_MAX_MESSAGE_BYTES : Z := 256.
Definition TTY_BUFFER_SIZE : Z := 1024.
Definition KEA_PERM_NETWORK : Z := 1.
Definition KEA_PERM_SOUND : Z := 4.
Definition KLOG_L1_FATAL : Z := 1.
Definition KLOG_L7_TRACE : Z := 7.

(** ** Helpers *)

Definition copy_user_string (cap src : Z) : prog (option (list Z)) :=
  if src =? 0 then Ret None
  else
    len ← get (UserStrnlen src cap);
    if (len <? 0) || (cap <=? len) then Ret None
    else r ← ask (CopyIn (Stack cap) src (len + 1)); Ret (if rc r =? 0 then Some (c_string (bytes r)) else None).

(** A string argument, or [fail]. *)
Definition with_string (cap src fail : Z) (f : list Z -> prog Z) : prog Z :=
  s ← copy_user_string cap src; match s with Some s => f s | None => Ret fail end.

Definition need (q : Z) (p : prog Z) : prog Z := ok ← get (HasPermission q); if ok =? 0 then Ret (-1) else p.
Definition with_pid (f : Z -> prog Z) : prog Z := pid ← get CurrentId; f pid.

(** [alloc_kernel_buffer], the use of the buffer, and its release. *)
Definition with_buffer (size : Z) (f : buf -> prog Z) : prog Z :=
  if (size =? 0) || (SYSCALL_MAX_IO <? size) then Ret (-1)
  else
    let pages := (size + PAGE_SIZE - 1) / PAGE_SIZE in
    phys ← get (AllocPages pages);
    if phys =? 0 then Ret (-1)
    else result ← f (Pages phys); act (FreePages phys pages) (Ret result).

(** [syscall_copy_in] into a buffer, going on with the bytes; and [syscall_copy_out]. *)
Definition copy_in (dst : buf) (p n fail : Z) (f : list Z -> prog Z) : prog Z :=
  r ← ask (CopyIn dst p n); if rc r =? 0 then f (bytes r) else Ret fail.
Definition copy_out (src : buf) (p : Z) (data : list Z) : prog Z := get (CopyOut src p data).

(** Store what was read, when there is something: the result is the count, or -1. *)
Definition give (src : buf) (p : Z) (r : reply) : prog Z :=
  if 0 <? rc r then e ← copy_out src p (bytes r); Ret (if e =? 0 then rc r else -1) else Ret (rc r).

(** Fields of a structure that was copied in. *)
Definition u32_at (l : list Z) (off : nat) : Z := u32 (le_get (take 4 (drop off l))).
Definition i32_at (l : list Z) (off : nat) : Z := i32 (u32_at l off).
Definition u64_at (l : list Z) (off : nat) : Z := u64 (le_get (take 8 (drop off l))).
Definition u16_at (l : list Z) (off : nat) : Z := u16 (le_get (take 2 (drop off l))).
Definition put32 (x : Z) : list Z := le_put 4 (u32 x).

(** A C string in a field of [n] bytes that is zero behind it. *)
Definition text_field (n : nat) (s : list Z) : list Z := take n (s ++ replicate n 0).

(** ** Information *)

Definition SYS_CPU_INFO : Z := 84.
Definition SYS_NET_INFO : Z := 23.
Definition SYS_FD_READ : Z := 35.
Definition KESH_ABI_VERSION : Z := 1.
Definition KESH_ABI_FEATURES : Z := 63.

Definition sys_abi_info (a1 : Z) : prog Z :=
  if a1 =? 0 then Ret (-1)
  else copy_out (Stack 24) a1 (put32 KESH_ABI_VERSION ++ put32 SYS_CPU_INFO ++ le_put 8 KESH_ABI_FEATURES ++ put32 PAGE_SIZE ++ put32 SYSCALL_MAX_IO).

(** The characters shown of a brand string: spaces at the ends removed, others printable. *)
Definition trim_left (l : list Z) : list Z := drop (span_len (fun c => c =? 32) l) l.
Definition brand_chars (raw : list Z) : list Z :=
  let s := reverse (trim_left (reverse (trim_left (c_string raw)))) in
  map (fun ch => if (32 <=? ch) && (ch <=? 126) then ch else 63) (take 63 s).

Definition family_of (eax : Z) : Z :=
  let base := Z.land (Z.shiftr eax 8) 0x0F in if base =? 0x0F then base + Z.land (Z.shiftr eax 20) 0xFF else base.
Definition model_of (eax : Z) : Z :=
  let family := Z.land (Z.shiftr eax 8) 0x0F in
  let base := Z.land (Z.shiftr eax 4) 0x0F in
  if (family =? 0x06) || (family =? 0x0F) then Z.lor base (Z.shiftl (Z.land (Z.shiftr eax 16) 0x0F) 4) else base.

(** eax, ebx, ecx and edx of a reply. *)
Definition regs (r : reply) : list Z := put32 (val r 0) ++ put32 (val r 1) ++ put32 (val r 2) ++ put32 (val r 3).

Definition syscall_cpu_info : prog (list Z) :=
  r0 ← ask (Cpuid 0);
  let vendor := put32 (val r0 1) ++ put32 (val r0 3) ++ put32 (val r0 2) in
  r1 ← ask (Cpuid 1);
  let eax := val r1 0 in
  r8 ← ask (Cpuid 0x80000000);
  brand ← (if 0x80000004 <=? val r8 0 then
             w2 ← ask (Cpuid 0x80000002); w3 ← ask (Cpuid 0x80000003); w4 ← ask (Cpuid 0x80000004);
             Ret (brand_chars (regs w2 ++ regs w3 ++ regs w4))
           else Ret []);
  let brand := if nth 0 brand 0 =? 0 then (if nth 0 vendor 0 =? 0 then str "x86_64 Processor" else c_string vendor) else brand in
  Ret (text_field 16 vendor ++ text_field 64 brand ++ put32 (family_of eax) ++ put32 (model_of eax) ++ put32 (Z.land eax 0x0F)).

Definition sys_cpu_info (a1 : Z) : prog Z := if a1 =? 0 then Ret (-1) else info ← syscall_cpu_info; copy_out (Stack 92) a1 info.

Definition KESH_CLOCK_MONOTONIC : Z := 1.
Definition KESH_CLOCK_REALTIME : Z := 2.

Definition sys_clock_get (a1 a2 : Z) : prog Z :=
  ns ← (if a1 =? KESH_CLOCK_MONOTONIC then get MonotonicNs else if a1 =? KESH_CLOCK_REALTIME then get RealtimeNs else Ret 0);
  if (ns =? 0) || (a2 =? 0) then Ret (-1)
  else copy_out (Stack 16) a2 (le_put 8 (ns / 1000000000) ++ put32 (ns mod 1000000000) ++ put32 a1).

(** [kesh_sysinfo_t]: four bytes of padding stay as they are on the stack. *)
Definition sys_get_sysinfo (a1 : Z) : prog Z :=
  pad ← ask (StackBytes 4);
  stats ← ask SystemStats;
  now ← get Millis;
  procs ← get (GetTable (Stack (16 * 48)) 16);
  let total := val stats 0 in let used := val stats 1 in
  r ← copy_out (Stack 56) a1 (le_put 8 total ++ le_put 8 (if used <? total then total - used else 0) ++ le_put 8 now ++
        put32 procs ++ put32 (val stats 2) ++ put32 (val stats 3) ++ take 4 (bytes pad) ++ le_put 8 (val stats 4) ++ le_put 8 (val stats 5));
  Ret (if r =? 0 then 0 else -1).

(** [net_info_t] on the stack: padding and the end of the name of the driver are not set. *)
Definition sys_net_info (a1 : Z) : prog Z :=
  need KEA_PERM_NETWORK (
    junk ← ask (StackBytes 44);
    r ← ask NetInfo;
    let driver := take 15 (c_string (drop 6 (bytes r))) in
    let field := put32 (val r 0) ++ put32 (val r 1) ++ put32 (val r 2) ++ put32 (val r 3) ++ take 6 (bytes r) ++
      take 2 (drop 22 (bytes junk)) ++ put32 (if val r 4 =? 0 then 0 else 1) ++ driver ++ [0] in
    e ← copy_out (Stack 44) a1 (field ++ drop (length field) (bytes junk));
    Ret (if e =? 0 then 0 else -1)).

Definition sys_get_procs (a1 a2 : Z) : prog Z :=
  if (a1 =? 0) || (a2 =? 0) || (16 <? a2) then Ret (-1)
  else
    r ← ask (GetTable (Stack (16 * 48)) a2);
    if 0 <? rc r then e ← copy_out (Stack (16 * 48)) a1 (bytes r); Ret (if e =? 0 then rc r else -1) else Ret (rc r).

(** ** Processes *)

Definition sys_exit (a1 : Z) : prog Z :=
  act (SetYield 2) (
    active ← get ActiveUserContext;
    if active =? 0 then act (SetYield 0) (act (ReturnToKernel (i32 a1)) (Ret 0)) else Ret 0).

Definition sys_thread_create (a1 : Z) : prog Z :=
  tid ← get (ThreadCreate a1); if 0 <=? tid then act (SetYield 1) (Ret tid) else Ret (-1).

Definition sys_kill (a1 : Z) : prog Z :=
  let target := i32 a1 in
  with_pid (fun pid =>
    allowed ← (if target =? pid then Ret 1 else get IsRoot);
    if allowed =? 0 then Ret (-1)
    else
      result ← get (Kill target);
      if (result =? 0) && (target =? pid) then act (SetYield 2) (Ret result) else Ret result).

(** The words the shell knows, by their first four characters. *)
Definition starts (s word : list Z) : bool := bool_decide (take 4 s = word).

Definition sys_exec (a1 : Z) : prog Z :=
  need KEA_PERM_FS (with_string SYSCALL_MAX_STRING a1 (-1) (fun p =>
    if starts p (str "term") then act ToggleTerminal (act (BringToFront 4) (Ret 1001))
    else if starts p (str "doom") then act ToggleDoom (act (BringToFront 6) (Ret 1002))
    else if starts p (str "rebo") then act Reboot (Ret 0)
    else if starts p (str "shut") then act Poweroff (Ret 0)
    else with_pid (fun parent =>
      id ← get (SpawnPath p);
      if id <? 0 then Ret (-1)
      else
        e ← get (FdInherit parent id);
        if negb (e =? 0) then act (Kill id) (Ret (-1)) else act (SetYield 1) (Ret id)))).

Definition sys_get_credentials (a1 : Z) : prog Z :=
  r ← ask Credentials;
  if (rc r =? 0) || (a1 =? 0) then Ret (-1) else e ← copy_out (Stack 12) a1 (bytes r); Ret (if e =? 0 then 0 else -1).

Definition sys_panic (a1 : Z) : prog Z :=
  need KEA_PERM_ROOT (
    root ← get IsRoot;
    if root =? 0 then Ret (-1)
    else if a1 =? 0 then act (KernelPanic (str "Kernel panic triggered from userspace application")) (Ret 0)
    else with_string SYSCALL_MAX_STRING a1 (-1) (fun msg => act (KernelPanic msg) (Ret 0))).

(** ** Random numbers *)

(** Pieces of 256 bytes; [None] is fuel that does not suffice. *)
Fixpoint random_loop (fuel : nat) (user left : Z) : prog (option Z) :=
  if left =? 0 then Ret (Some 0)
  else
    match fuel with
    | O => Ret None
    | S fuel =>
        let chunk := if 256 <? left then 256 else left in
        r ← ask (RandomBytes (Stack 256) chunk);
        if negb (rc r =? 0) then Ret (Some (-1))
        else
          e ← copy_out (Stack 256) user (bytes r);
          if negb (e =? 0) then Ret (Some (-1)) else random_loop fuel (u64 (user + chunk)) (left - chunk)
    end.

Definition sys_getrandom (a1 a2 : Z) : prog Z :=
  if (a1 =? 0) || (a2 =? 0) || (SYSCALL_MAX_RANDOM <? a2) then Ret (-1)
  else
    ready ← get RandomReady;
    if ready =? 0 then Ret (-1)
    else e ← random_loop 256 a1 a2; Ret (match e with Some e => if e =? 0 then a2 else -1 | None => -1 end).

(** ** Sockets, sound and downloads *)

Definition sys_socket (a1 : Z) : prog Z := need KEA_PERM_NETWORK (with_pid (fun pid => get (SocketOpen pid (i32 a1)))).

Definition endpoint_ok (a2 a3 : Z) : bool := negb ((0xFFFFFFFF <? a2) || (a3 =? 0) || (65535 <? a3)).
Definition sys_socket_connect (a1 a2 a3 : Z) : prog Z :=
  need KEA_PERM_NETWORK (if endpoint_ok a2 a3 then with_pid (fun pid => get (SocketConnect pid (i32 a1) a2 a3)) else Ret (-1)).
Definition sys_socket_bind (a1 a2 a3 : Z) : prog Z :=
  need KEA_PERM_NETWORK (if endpoint_ok a2 a3 then with_pid (fun pid => get (SocketBind pid (i32 a1) a2 a3)) else Ret (-1)).

(** [socket_datagram_t]: address, port, length, data. *)
Definition sys_socket_sendto (a1 a2 : Z) : prog Z :=
  need KEA_PERM_NETWORK (
    if a2 =? 0 then Ret (-1)
    else copy_in (Stack 16) a2 16 (-1) (fun q =>
      let len := u16_at q 6 in
      if (u64_at q 8 =? 0) || (len =? 0) || (1400 <? len) then Ret (-1)
      else with_buffer len (fun b => copy_in b (u64_at q 8) len (-1) (fun data =>
        with_pid (fun pid => get (SocketSendTo pid (i32 a1) (u32_at q 0) (u16_at q 4) data)))))).

Definition sys_socket_recvfrom (a1 a2 : Z) : prog Z :=
  need KEA_PERM_NETWORK (
    if a2 =? 0 then Ret (-1)
    else copy_in (Stack 16) a2 16 (-1) (fun q =>
      let len := u16_at q 6 in
      if (u64_at q 8 =? 0) || (len =? 0) || (2048 <? len) then Ret (-1)
      else with_buffer len (fun b => with_pid (fun pid =>
        r ← ask (SocketRecvFrom b pid (i32 a1) len 5000);
        if 0 <? rc r then
          e ← copy_out b (u64_at q 8) (bytes r);
          e ← (if negb (e =? 0) then Ret (-1)
               else copy_out (Stack 16) a2 (put32 (val r 0) ++ le_put 2 (val r 1) ++ le_put 2 (u16 (rc r)) ++ drop 8 q));
          Ret (if e =? 0 then rc r else -1)
        else Ret (rc r))))).

Definition sys_socket_poll (a1 a2 : Z) : prog Z := need KEA_PERM_NETWORK (with_pid (fun pid => get (SocketPoll pid (i32 a1) (u32 a2)))).

Definition sys_socket_send (a1 a2 a3 : Z) : prog Z :=
  need KEA_PERM_NETWORK (
    if (a2 =? 0) || (a3 =? 0) || (65535 <? a3) then Ret (-1)
    else with_buffer a3 (fun b => copy_in b a2 a3 (-1) (fun data => with_pid (fun pid => get (SocketSend pid (i32 a1) data))))).

Definition sys_socket_recv (a1 a2 a3 : Z) : prog Z :=
  need KEA_PERM_NETWORK (
    if (a2 =? 0) || (a3 =? 0) || (65535 <? a3) then Ret (-1)
    else with_buffer a3 (fun b => with_pid (fun pid => r ← ask (SocketRecv b pid (i32 a1) a3 5000); give b a2 r))).

Definition sys_socket_close (a1 : Z) : prog Z := need KEA_PERM_NETWORK (with_pid (fun pid => get (SocketClose pid (i32 a1)))).

Definition sys_audio_device : prog Z := need KEA_PERM_SOUND (ready ← get SoundReady; if ready =? 0 then Ret 0 else get SoundDevice).
Definition sys_audio_volume (a1 : Z) : prog Z := need KEA_PERM_SOUND (if 100 <? a1 then Ret (-1) else get (SoundVolume a1)).
Definition sys_audio_play (a1 a2 : Z) : prog Z :=
  need KEA_PERM_SOUND (
    if (a1 =? 0) || (a2 =? 0) || (65536 <? a2) then Ret (-1)
    else with_buffer a2 (fun b => copy_in b a1 a2 (-1) (fun data => get (SoundPlay data)))).

Definition sys_net_fetch (a1 a2 a3 : Z) : prog Z :=
  need KEA_PERM_NETWORK (
    if (a1 =? 0) || (a2 =? 0) || (a3 <? 2) || (65535 <? a3) then Ret (-1)
    else with_string SYSCALL_MAX_STRING a1 (-1) (fun url => with_buffer a3 (fun b => r ← ask (HttpFetch b url a3); give b a2 r))).

Definition sys_trust_store_reload : prog Z := need KEA_PERM_ROOT (get TlsReload).

(** ** Descriptors and files *)

Definition FD_KNOWN_FLAGS : Z := 63.
Definition DIRENT : Z := 72.

Definition sys_fd_open (a1 a2 : Z) : prog Z :=
  need KEA_PERM_FS (with_string SYSCALL_MAX_STRING a1 (-1) (fun p =>
    if has a2 (u64 (Z.lnot FD_KNOWN_FLAGS)) then Ret (-1) else with_pid (fun pid => get (FdOpen pid p a2)))).
Definition sys_fd_close (a1 : Z) : prog Z := need KEA_PERM_FS (with_pid (fun pid => get (FdClose pid (i32 a1)))).
Definition sys_fd_dup (a1 : Z) : prog Z := need KEA_PERM_FS (with_pid (fun pid => get (FdDup pid (i32 a1)))).
Definition sys_fd_dup2 (a1 a2 : Z) : prog Z := need KEA_PERM_FS (with_pid (fun pid => get (FdDup2 pid (i32 a1) (i32 a2)))).

Definition sys_fd_read (a1 a2 a3 : Z) : prog Z :=
  need KEA_PERM_FS (
    if (a2 =? 0) || (a3 =? 0) || (SYSCALL_MAX_IO <? a3) then Ret (-1)
    else with_buffer a3 (fun b => with_pid (fun pid => r ← ask (FdRead b pid (i32 a1) a3); give b a2 r))).

Definition sys_fd_write (a1 a2 a3 : Z) : prog Z :=
  need KEA_PERM_FS (
    if (a2 =? 0) || (SYSCALL_MAX_IO <? a3) then Ret (-1)
    else if a3 =? 0 then with_pid (fun pid => get (FdWrite pid (i32 a1) []))
    else with_buffer a3 (fun b => copy_in b a2 a3 (-1) (fun data => with_pid (fun pid => get (FdWrite pid (i32 a1) data))))).

Definition sys_fd_seek (a1 a2 a3 : Z) : prog Z := need KEA_PERM_FS (with_pid (fun pid => get (FdSeek pid (i32 a1) (i64 a2) (i32 a3)))).
Definition sys_fd_poll (a1 a2 : Z) : prog Z := with_pid (fun pid => get (FdPoll pid (i32 a1) (u32 a2))).

Definition sys_fd_readdir (a1 a2 : Z) : prog Z :=
  need KEA_PERM_FS (
    if a2 =? 0 then Ret (-1)
    else with_pid (fun pid =>
      r ← ask (FdReaddir (Stack DIRENT) pid (i32 a1));
      if rc r =? 1 then e ← copy_out (Stack DIRENT) a2 (bytes r); Ret (if e =? 0 then rc r else -1) else Ret (rc r))).

Definition sys_pipe_create (a1 : Z) : prog Z :=
  if a1 =? 0 then Ret (-1)
  else with_pid (fun pid =>
    r ← ask (PipeCreate pid);
    if negb (rc r =? 0) then Ret (-1)
    else
      e ← copy_out (Stack 8) a1 (put32 (val r 0) ++ put32 (val r 1));
      if e =? 0 then Ret 0 else act (FdClose pid (val r 0)) (act (FdClose pid (val r 1)) (Ret (-1)))).

Definition sys_vfs_list (a1 a2 a3 : Z) : prog Z :=
  need KEA_PERM_FS (
    let max_entries := i32 a3 in
    if (max_entries <? 1) || (SYSCALL_MAX_LIST <? max_entries) then Ret (-1)
    else with_string SYSCALL_MAX_STRING a1 (-1) (fun p =>
      r ← ask (VfsList (Stack (SYSCALL_MAX_LIST * DIRENT)) p max_entries);
      if rc r <? 0 then Ret (rc r)
      else e ← copy_out (Stack (SYSCALL_MAX_LIST * DIRENT)) a2 (bytes r); Ret (if e =? 0 then rc r else -1))).

Definition sys_vfs_read (a1 a2 a3 : Z) : prog Z :=
  need KEA_PERM_FS (
    let max_bytes := i32 a3 in
    if (a3 =? 0) || (SYSCALL_MAX_IO <? a3) || (max_bytes <=? 0) then Ret (-1)
    else with_string SYSCALL_MAX_STRING a1 (-1) (fun p => with_buffer max_bytes (fun b => r ← ask (VfsRead b p max_bytes); give b a2 r))).

Definition sys_vfs_write (a1 a2 a3 : Z) : prog Z :=
  need KEA_PERM_FS (
    let n := i32 a3 in
    if (SYSCALL_MAX_IO <? a3) || (n <? 0) then Ret (-1)
    else with_string SYSCALL_MAX_STRING a1 (-1) (fun p =>
      if n =? 0 then get (VfsWrite p [])
      else with_buffer n (fun b => copy_in b a2 n (-1) (fun data => get (VfsWrite p data))))).

Definition sys_vfs_stat (a1 a2 : Z) : prog Z :=
  need KEA_PERM_FS (with_string SYSCALL_MAX_STRING a1 (-1) (fun p =>
    pad ← ask (StackBytes 3);
    r ← ask (VfsStat p);
    if negb (rc r =? 0) then Ret (-1)
    else e ← copy_out (Stack 8) a2 (put32 (val r 0) ++ le_put 1 (val r 1) ++ take 3 (bytes pad)); Ret (if e =? 0 then 0 else -1))).

Definition sys_vfs_mkdir (a1 : Z) : prog Z := need KEA_PERM_FS (with_string SYSCALL_MAX_STRING a1 (-1) (fun p => get (VfsMkdir p))).
Definition sys_vfs_delete (a1 : Z) : prog Z := need KEA_PERM_FS (with_string SYSCALL_MAX_STRING a1 (-1) (fun p => get (VfsDelete p))).
Definition sys_vfs_rescan : prog Z := need KEA_PERM_FS (act VfsRescan (Ret 0)).

(** ** Messages and diagnostics *)

Definition message_size_ok (n : Z) : bool := negb ((n =? 0) || (IPC_MAX_MESSAGE_BYTES <? n)).

Definition sys_ipc_send (a1 a2 a3 : Z) : prog Z :=
  if (a2 =? 0) || negb (message_size_ok a3) then Ret (-1)
  else copy_in (Stack IPC_MAX_MESSAGE_BYTES) a2 a3 (-1) (fun message => with_pid (fun pid => get (IpcSend pid (i32 a1) message))).

Definition sys_ipc_recv (a1 a2 a3 : Z) : prog Z :=
  if (a2 =? 0) || negb (message_size_ok a3) then Ret (-1)
  else with_pid (fun pid => r ← ask (IpcReceive (Stack IPC_MAX_MESSAGE_BYTES) pid (i32 a1) a3); give (Stack IPC_MAX_MESSAGE_BYTES) a2 r).

Definition sys_ipc_last_sender : prog Z := with_pid (fun pid => get (IpcLastSender pid)).

(** [ipc_user_request_t]: data, size, sender, type, reserved. *)
Definition sys_ipc_send_typed (a1 a2 : Z) : prog Z :=
  if a2 =? 0 then Ret (-1)
  else copy_in (Stack 24) a2 24 (-1) (fun q =>
    if (u64_at q 0 =? 0) || negb (message_size_ok (u32_at q 8)) || (i32_at q 16 <? 0) || (65535 <? i32_at q 16) then Ret (-1)
    else copy_in (Stack IPC_MAX_MESSAGE_BYTES) (u64_at q 0) (u32_at q 8) (-1) (fun message =>
      with_pid (fun pid => get (IpcSendTyped pid (i32 a1) (i32_at q 16) message)))).

Definition sys_ipc_recv_typed (a1 : Z) : prog Z :=
  if a1 =? 0 then Ret (-1)
  else copy_in (Stack 24) a1 24 (-1) (fun q =>
    if (u64_at q 0 =? 0) || negb (message_size_ok (u32_at q 8)) || (i32_at q 16 <? -1) || (65535 <? i32_at q 16) then Ret (-1)
    else with_pid (fun pid =>
      r ← ask (IpcReceiveTyped (Stack IPC_MAX_MESSAGE_BYTES) pid (i32_at q 12) (i32_at q 16) (u32_at q 8));
      given ← give (Stack IPC_MAX_MESSAGE_BYTES) (u64_at q 0) r;
      if (0 <? rc r) && (given =? -1) then Ret (-1)
      else
        e ← copy_out (Stack 24) a1 (take 8 q ++ put32 (if 0 <? rc r then rc r else 0) ++ put32 (val r 0) ++ put32 (val r 1) ++ drop 20 q);
        Ret (if e =? 0 then rc r else -1))).

(** The records and the final zero. *)
Definition give_log (src : buf) (p : Z) (r : reply) : prog Z :=
  if 0 <=? rc r then e ← copy_out src p (bytes r); Ret (if e =? 0 then rc r else -1) else Ret (rc r).

Definition sys_diagnostics_read (a1 a2 : Z) : prog Z :=
  need KEA_PERM_FS (
    if (a1 =? 0) || (a2 <? 2) || (SYSCALL_MAX_DIAGNOSTICS <? a2) then Ret (-1)
    else with_buffer a2 (fun b => r ← ask (KlogSnapshot b a2 KLOG_L1_FATAL KLOG_L7_TRACE None); give_log b a1 r)).

(** [kesh_diagnostics_query_t]: buffer, size, levels, module and padding. *)
Definition sys_diagnostics_query (a1 : Z) : prog Z :=
  need KEA_PERM_FS (
    if a1 =? 0 then Ret (-1)
    else copy_in (Stack 48) a1 48 (-1) (fun q =>
      let n := u32_at q 8 in
      if (u64_at q 0 =? 0) || (n <? 2) || (SYSCALL_MAX_DIAGNOSTICS <? n) then Ret (-1)
      else with_buffer n (fun b =>
        r ← ask (KlogSnapshot b n (i32_at q 12) (i32_at q 16) (Some (c_string (take 23 (drop 20 q))))); give_log b (u64_at q 0) r))).

Definition sys_service_heartbeat : prog Z := with_pid (fun pid => get (ServiceHeartbeat pid)).
Definition sys_permission_revoke (a1 a2 : Z) : prog Z := with_pid (fun pid => get (RevokePermissions pid (i32 a1) (u32 a2))).

(** ** Terminals *)

Definition terminal_size_ok (n : Z) : bool := negb ((n =? 0) || (TTY_BUFFER_SIZE <? n)).

Definition sys_tty_create : prog Z := with_pid (fun pid => get (TtyCreate pid)).
Definition sys_tty_close (a1 : Z) : prog Z := with_pid (fun pid => get (TtyClose pid (i32 a1))).
Definition sys_tty_read (a1 a2 a3 : Z) : prog Z :=
  if (a2 =? 0) || negb (terminal_size_ok a3) then Ret (-1)
  else with_pid (fun pid => r ← ask (TtyRead (Stack TTY_BUFFER_SIZE) pid (i32 a1) a3); give (Stack TTY_BUFFER_SIZE) a2 r).
Definition sys_tty_write (a1 a2 a3 : Z) : prog Z :=
  if (a2 =? 0) || negb (terminal_size_ok a3) then Ret (-1)
  else copy_in (Stack TTY_BUFFER_SIZE) a2 a3 (-1) (fun data => with_pid (fun pid => get (TtyWrite pid (i32 a1) data))).
Definition sys_tty_available (a1 : Z) : prog Z := with_pid (fun pid => get (TtyAvailable pid (i32 a1))).

Definition sys_pty_create (a1 : Z) : prog Z :=
  if a1 =? 0 then Ret (-1)
  else with_pid (fun pid =>
    r ← ask (PtyCreate pid);
    if negb (rc r =? 0) then Ret (-1)
    else
      e ← copy_out (Stack 8) a1 (put32 (val r 0) ++ put32 (val r 1));
      if e =? 0 then Ret 0 else act (PtyClose pid (val r 0)) (act (PtyClose pid (val r 1)) (Ret (-1)))).
Definition sys_pty_attach (a1 a2 : Z) : prog Z := with_pid (fun pid => get (PtyAttach pid (i32 a1) (i32 a2))).
Definition sys_pty_read (a1 a2 a3 : Z) : prog Z :=
  if (a2 =? 0) || negb (terminal_size_ok a3) then Ret (-1)
  else with_pid (fun pid => r ← ask (PtyRead (Stack TTY_BUFFER_SIZE) pid (i32 a1) a3); give (Stack TTY_BUFFER_SIZE) a2 r).
Definition sys_pty_write (a1 a2 a3 : Z) : prog Z :=
  if (a2 =? 0) || negb (terminal_size_ok a3) then Ret (-1)
  else copy_in (Stack TTY_BUFFER_SIZE) a2 a3 (-1) (fun data => with_pid (fun pid => get (PtyWrite pid (i32 a1) data))).
Definition sys_pty_available (a1 : Z) : prog Z := with_pid (fun pid => get (PtyAvailable pid (i32 a1))).
Definition sys_pty_set_mode (a1 a2 : Z) : prog Z := with_pid (fun pid => get (PtySetMode pid (i32 a1) (u32 a2))).
Definition sys_pty_close (a1 : Z) : prog Z := with_pid (fun pid => get (PtyClose pid (i32 a1))).
Definition sys_get_pgid : prog Z := with_pid (fun pid => get (GetGroup pid)).
Definition sys_set_pgid (a1 : Z) : prog Z := with_pid (fun pid => get (SetGroup pid pid (i32 a1))).
Definition sys_pty_set_fg (a1 a2 : Z) : prog Z := with_pid (fun pid => get (PtySetForeground pid (i32 a1) (i32 a2))).
Definition sys_pty_get_fg (a1 : Z) : prog Z := with_pid (fun pid => get (PtyGetForeground pid (i32 a1))).
Definition sys_pty_signal (a1 a2 : Z) : prog Z := with_pid (fun pid => get (PtySignal pid (i32 a1) (i32 a2))).
Definition sys_pty_open_fd (a1 : Z) : prog Z :=
  h ← get CurrentPty; if h <? 0 then Ret (-1) else with_pid (fun pid => get (FdBindPty pid h (u32 a1))).

(** ** Windows and settings *)

(** The slot of the window a number names for the caller. *)
Definition syscall_current_window (win_id : Z) : prog (option Z) :=
  w ← ask (WindowGet win_id);
  pml4 ← get CurrentPml4;
  if negb (rc w =? 0) && (val w 0 =? pml4) then Ret (Some win_id)
  else if win_id =? 0 then own ← get (WindowOfProcess pml4); Ret (if own <? 0 then None else Some own)
  else Ret None.

Definition sys_create_window (a1 a2 a3 : Z) : prog Z :=
  need KEA_PERM_GUI (with_string 64 a3 0 (fun title => pml4 ← get CurrentPml4; get (WindowCreate (i32 a1) (i32 a2) title pml4))).

Definition sys_update_window (a1 : Z) : prog Z :=
  need KEA_PERM_GUI (w ← syscall_current_window (i32 a1); match w with None => Ret (-1) | Some w => act (SetDirty w) (act (SetYield 1) (Ret 0)) end).

Definition sys_poll_event (a1 a2 : Z) : prog Z :=
  need KEA_PERM_GUI (
    w ← syscall_current_window (i32 a1);
    match w with
    | None => Ret (-1)
    | Some w =>
        r ← ask (PopEvent w);
        if rc r =? 0 then Ret 0
        else if a2 =? 0 then Ret (-1)
        else e ← copy_out (Stack 20) a2 (bytes r); Ret (if e =? 0 then 1 else -1)
    end).

Record settings := Settings {
  wallpaper_choice : Z; dock_mag_enabled : Z; dock_mag_level : Z; window_controls_align : Z; dark_mode : Z; accent_color : Z;
  theme_id : Z; animations_enabled : Z; animation_speed : Z; interface_density : Z; show_seconds : Z; liquid_glass : Z
}.

Definition settings_fields (s : settings) : list Z :=
  [wallpaper_choice s; dock_mag_enabled s; dock_mag_level s; window_controls_align s; dark_mode s; accent_color s;
   theme_id s; animations_enabled s; animation_speed s; interface_density s; show_seconds s; liquid_glass s].
Definition settings_of (f : nat -> Z) : settings := Settings (f 0%nat) (f 1%nat) (f 2%nat) (f 3%nat) (f 4%nat) (f 5%nat) (f 6%nat) (f 7%nat) (f 8%nat) (f 9%nat) (f 10%nat) (f 11%nat).

(** A new value when it is in range. *)
Definition in_range (lo hi new old : Z) : Z := if (lo <=? new) && (new <=? hi) then new else old.
Definition flag (x : Z) : Z := if x =? 0 then 0 else 1.

(** What the settings become; a theme brings its own palette. *)
Definition apply_settings (st old : settings) : settings :=
  let themed := (0 <=? theme_id st) && (theme_id st <=? 2) in
  Settings (in_range 1 2 (wallpaper_choice st) (wallpaper_choice old)) (flag (dock_mag_enabled st)) (in_range 0 100 (dock_mag_level st) (dock_mag_level old))
    (in_range 0 1 (window_controls_align st) (window_controls_align old))
    (if themed then (if theme_id st =? 1 then 1 else 0) else flag (dark_mode st))
    (if themed then (if (theme_id st =? 0) || (theme_id st =? 1) then 1 else 0) else in_range 0 2 (accent_color st) (accent_color old))
    (in_range 0 2 (theme_id st) (theme_id old)) (flag (animations_enabled st)) (in_range 20 100 (animation_speed st) (animation_speed old))
    (in_range 0 2 (interface_density st) (interface_density old)) (flag (show_seconds st)) (flag (liquid_glass st)).

Definition sys_get_settings (a1 : Z) : prog Z :=
  r ← ask ReadSettings; e ← copy_out (Stack 48) a1 (flat_map put32 (settings_fields (settings_of (val r)))); Ret (if e =? 0 then 0 else -1).

Definition sys_set_settings (a1 : Z) : prog Z :=
  copy_in (Stack 48) a1 48 (-1) (fun q =>
    r ← ask ReadSettings;
    act (WriteSettings (settings_fields (apply_settings (settings_of (fun i => i32_at q (4 * i))) (settings_of (val r))))) (Ret 0)).

(** ** The dispatcher *)

(** [SYS_PRINT] and the test call; what the test call prints is left out. *)
Definition sys_print (a1 : Z) : prog Z := with_string SYSCALL_MAX_STRING a1 (-1) (fun text => act (SerialPrint text) (Ret 0)).
Definition sys_test (a1 : Z) : prog Z := Ret (i64 (a1 * 2)).

(** The call numbers and their handlers. *)
Definition native_syscalls (a1 a2 a3 : Z) : list (Z * prog Z) := [
  (0, sys_exit a1); (1, sys_print a1); (2, act (SetYield 1) (Ret 0)); (3, get Millis); (4, sys_test a1);
  (5, sys_create_window a1 a2 a3); (6, sys_update_window a1); (7, sys_poll_event a1 a2);
  (8, act (Sleep (u32 a1)) (act (SetYield 1) (Ret 0))); (9, sys_vfs_list a1 a2 a3); (10, sys_vfs_read a1 a2 a3); (11, sys_vfs_stat a1 a2);
  (12, sys_exec a1); (13, sys_get_procs a1 a2); (14, sys_kill a1); (15, sys_get_sysinfo a1); (16, sys_vfs_mkdir a1); (17, sys_vfs_delete a1);
  (18, sys_vfs_rescan); (19, sys_get_settings a1); (20, sys_set_settings a1); (21, sys_panic a1); (22, sys_vfs_write a1 a2 a3);
  (23, sys_net_info a1); (24, sys_net_fetch a1 a2 a3); (25, sys_thread_create a1); (26, act (SetYield 2) (Ret 0)); (27, sys_getrandom a1 a2);
  (28, sys_socket a1); (29, sys_socket_connect a1 a2 a3); (30, sys_socket_send a1 a2 a3); (31, sys_socket_recv a1 a2 a3); (32, sys_socket_close a1);
  (33, sys_fd_open a1 a2); (34, sys_fd_close a1); (35, sys_fd_read a1 a2 a3); (36, sys_fd_write a1 a2 a3); (37, sys_fd_seek a1 a2 a3);
  (38, sys_ipc_send a1 a2 a3); (39, sys_ipc_recv a1 a2 a3); (40, sys_get_credentials a1); (41, sys_ipc_last_sender); (42, sys_fd_dup a1);
  (43, sys_diagnostics_read a1 a2); (44, sys_tty_create); (45, sys_tty_close a1); (46, sys_tty_read a1 a2 a3); (47, sys_tty_write a1 a2 a3);
  (48, sys_tty_available a1); (49, sys_clock_get a1 a2); (50, get (VmMap a1 (u32 a2))); (51, get (VmUnmap a1 a2)); (52, sys_pipe_create a1);
  (53, sys_fd_poll a1 a2); (54, sys_pty_create a1); (55, sys_pty_attach a1 a2); (56, sys_pty_read a1 a2 a3); (57, sys_pty_write a1 a2 a3);
  (58, sys_pty_available a1); (59, sys_pty_set_mode a1 a2); (60, sys_pty_close a1); (61, get CurrentPty); (62, sys_get_pgid); (63, sys_set_pgid a1);
  (64, sys_pty_set_fg a1 a2); (65, sys_pty_get_fg a1); (66, sys_pty_signal a1 a2); (67, sys_pty_open_fd a1); (68, sys_fd_readdir a1 a2);
  (69, sys_socket_bind a1 a2 a3); (70, sys_fd_dup2 a1 a2); (71, sys_socket_sendto a1 a2); (72, sys_socket_recvfrom a1 a2); (73, sys_socket_poll a1 a2);
  (74, sys_audio_device); (75, sys_audio_volume a1); (76, sys_audio_play a1 a2); (77, sys_ipc_send_typed a1 a2); (78, sys_ipc_recv_typed a1);
  (79, sys_abi_info a1); (80, sys_diagnostics_query a1); (81, sys_service_heartbeat); (82, sys_permission_revoke a1 a2); (83, sys_trust_store_reload);
  (84, sys_cpu_info a1)].

Definition find_syscall (num : Z) (l : list (Z * prog Z)) : option (prog Z) := snd <$> List.find (fun e => fst e =? num) l.

(** The third argument of a native call is in [a4]. *)
Definition syscall_dispatcher (num a1 a2 a3 a4 a5 a6 : Z) : prog Z :=
  linux ← get IsLinux;
  if negb (linux =? 0) || (SYS_CPU_INFO <? num) then get (LinuxDispatch num [a1; a2; a3; a4; a5; a6])
  else match find_syscall num (native_syscalls a1 a2 a4) with Some p => p | None => Ret (-1) end.
