(* ===== verification/SyscallSpec.v ===== *)
(** Native system calls: what a call may ask of the kernel depends on the permissions of
    the process, and every call keeps to the sizes of its buffers and releases them. *)
From Stdlib Require Import String.
From S2P Require Import Prelude Pmm Vmm Kea Files Syscall.

(** ** Runs and monitors *)

Abbreviation event := (call * reply)%type.

(** A run of a program: what it asked and was answered, and its result. *)
Inductive runs {A} (valid : call -> reply -> Prop) : prog A -> list event -> A -> Prop :=
| runs_ret a : runs valid (Ret a) [] a
| runs_ask c k r t a : valid c r -> runs valid (k r) t a -> runs valid (Ask c k) ((c, r) :: t) a.

Section Monitor.
Context {S : Type} (ok : S -> call -> Prop) (next : S -> call -> reply -> S) (valid : call -> reply -> Prop).

(** A program that asks only what a monitor allows, whatever it is answered. *)
Fixpoint obeys {A} (Q : S -> A -> Prop) (s : S) (p : prog A) : Prop :=
  match p with Ret a => Q s a | Ask c k => ok s c /\ forall r, valid c r -> obeys Q (next s c r) (k r) end.

Fixpoint follow (s : S) (t : list event) : S := match t with [] => s | (c, r) :: t => follow (next s c r) t end.

(** The programs it composes. *)
Lemma obeys_bind {A B} (Q : S -> B -> Prop) s (p : prog A) f : obeys (fun s a => obeys Q s (f a)) s p -> obeys Q s (p ≫= f).
Proof. revert s. induction p as [a|c k IH]; intros s; [done|]. cbn. intros [Hc Hk]. split; [done|]. intros r Hr. by apply IH, Hk. Qed.

Lemma obeys_runs {A} (Q : S -> A -> Prop) s p t a : obeys Q s p -> runs valid p t a ->
  Q (follow s t) a /\ forall t1 c r t2, t = t1 ++ (c, r) :: t2 -> ok (follow s t1) c.
Proof.
  intros Ho Hr. revert s Ho. induction Hr as [a|c k r t a Hv Hr IH]; intros s Ho.
  - split; [done|]. by intros [|e t1] c r t2.
  - destruct Ho as [Hc Hk]. destruct (IH _ (Hk r Hv)) as [Hq Hall]. split; [done|]. intros [|e t1] c' r' t2; cbn [app].
    + by intros [= <- _ _].
    + intros [= <- ->]. by eapply Hall.
Qed.
End Monitor.

(** What the kernel answers: the attributes of the process, which is a native one, and
    results and bytes that fit the request. *)
Definition valid (perms : Z) (root : bool) (me : Z) (c : call) (r : reply) : Prop :=
  let len := Z.of_nat (length (bytes r)) in
  match c with
  | HasPermission q => rc r = b2z (has perms q)
  | IsRoot => rc r = b2z root
  | IsLinux => rc r = 0
  | CurrentId => rc r = me
  | CopyIn _ _ n | RandomBytes _ n => rc r = 0 -> len = n
  | SocketRecvFrom _ _ _ n _ | SocketRecv _ _ _ n _ | FdRead _ _ _ n | IpcReceive _ _ _ n | IpcReceiveTyped _ _ _ _ n
  | TtyRead _ _ _ n | PtyRead _ _ _ n | VfsRead _ _ n | HttpFetch _ _ n | FdReadAt _ _ _ _ n => rc r <= n /\ (0 < rc r -> len = rc r)
  | KlogSnapshot _ n _ _ _ => rc r < n /\ (0 <= rc r -> len = rc r + 1)
  | VfsList _ _ n => rc r <= n /\ (0 <= rc r -> len = rc r * DIRENT)
  | GetTable _ n => rc r <= n /\ (0 < rc r -> len = rc r * 48)
  | FdReaddir _ _ _ => rc r = 1 -> len = DIRENT
  | Credentials => rc r <> 0 -> len = 12
  | PopEvent _ => rc r <> 0 -> len = 20
  | StackBytes n => len = Z.max 0 n
  | NetInfo => 6 <= len
  | _ => True
  end.

(** ** Permissions *)

(** What a process needs for an operation, after the events so far. *)
Definition granted (perms : Z) (root : bool) (me : Z) (t : list event) (c : call) : Prop :=
  match c with
  | SocketOpen _ _ | SocketConnect _ _ _ _ | SocketBind _ _ _ _ | SocketSendTo _ _ _ _ _ | SocketRecvFrom _ _ _ _ _ | SocketPoll _ _ _
  | SocketSend _ _ _ | SocketRecv _ _ _ _ _ | SocketClose _ _ | HttpFetch _ _ _ | NetInfo => has perms KEA_PERM_NETWORK = true
  | FdOpen _ _ _ | FdDup _ _ | FdDup2 _ _ _ | FdRead _ _ _ _ | FdWrite _ _ _ | FdSeek _ _ _ _ | FdReaddir _ _ _ | FdInherit _ _
  | VfsList _ _ _ | VfsRead _ _ _ | VfsWrite _ _ | VfsStat _ | VfsMkdir _ | VfsDelete _ | VfsRescan | KlogSnapshot _ _ _ _ _
  | SpawnPath _ | ToggleTerminal | ToggleDoom | BringToFront _ | Reboot | Poweroff => has perms KEA_PERM_FS = true
  | WindowCreate _ _ _ _ | WindowGet _ | WindowOfProcess _ | SetDirty _ | PopEvent _ => has perms KEA_PERM_GUI = true
  | SoundReady | SoundDevice | SoundVolume _ | SoundPlay _ => has perms KEA_PERM_SOUND = true
  | TlsReload => has perms KEA_PERM_ROOT = true
  | KernelPanic _ => has perms KEA_PERM_ROOT = true /\ root = true
  | Kill p => root = true \/ p = me \/ exists path r, In (SpawnPath path, r) t /\ rc r = p
  | FdClose pid fd => has perms KEA_PERM_FS = true \/ exists r, In (PipeCreate pid, r) t /\ (fd = val r 0 \/ fd = val r 1)
  | LinuxDispatch _ _ => False
  | _ => True
  end.

(** ** Buffers *)

(** The pages that are allocated, with their number. *)
Definition pages_next (held : list (Z * Z)) (c : call) (r : reply) : list (Z * Z) :=
  match c with
  | AllocPages n => if rc r =? 0 then held else (rc r, n) :: held
  | FreePages phys n => match held with e :: held => held | [] => [] end
  | _ => held
  end.

(** [n] bytes fit a buffer. *)
Definition buf_ok (held : list (Z * Z)) (b : buf) (n : Z) : Prop :=
  match b with Stack cap => n <= cap | Pages phys => exists pages, In (phys, pages) held /\ n <= pages * PAGE_SIZE end.

Definition sizes_ok (held : list (Z * Z)) (c : call) : Prop :=
  match c with
  | CopyIn b _ n | RandomBytes b n | SocketRecvFrom b _ _ n _ | SocketRecv b _ _ n _ | FdRead b _ _ n | IpcReceive b _ _ n | IpcReceiveTyped b _ _ _ n
  | TtyRead b _ _ n | PtyRead b _ _ n | VfsRead b _ n | HttpFetch b _ n | FdReadAt b _ _ _ n | KlogSnapshot b n _ _ _ => 0 < n /\ buf_ok held b n
  | VfsList b _ n => buf_ok held b (n * DIRENT)
  | GetTable b n => buf_ok held b (n * 48)
  | FdReaddir b _ _ => buf_ok held b DIRENT
  | CopyOut b _ data => buf_ok held b (Z.of_nat (length data))
  | AllocPages n => 0 < n <= SYSCALL_MAX_IO / PAGE_SIZE
  | FreePages phys n => exists held', held = (phys, n) :: held'
  | _ => True
  end.

(** ** Proofs *)

Create HintDb syscalls.
#[local] Hint Unfold sys_abi_info sys_cpu_info sys_clock_get sys_get_sysinfo sys_net_info sys_get_procs sys_exit sys_thread_create sys_kill sys_exec
  sys_get_credentials sys_panic sys_getrandom sys_socket sys_socket_connect sys_socket_bind sys_socket_sendto sys_socket_recvfrom sys_socket_poll
  sys_socket_send sys_socket_recv sys_socket_close sys_audio_device sys_audio_volume sys_audio_play sys_net_fetch sys_trust_store_reload sys_fd_open
  sys_fd_close sys_fd_dup sys_fd_dup2 sys_fd_read sys_fd_write sys_fd_seek sys_fd_poll sys_fd_readdir sys_pipe_create sys_vfs_list sys_vfs_read
  sys_vfs_write sys_vfs_stat sys_vfs_mkdir sys_vfs_delete sys_vfs_rescan sys_ipc_send sys_ipc_recv sys_ipc_last_sender sys_ipc_send_typed
  sys_ipc_recv_typed sys_diagnostics_read sys_diagnostics_query sys_service_heartbeat sys_permission_revoke sys_tty_create sys_tty_close sys_tty_read
  sys_tty_write sys_tty_available sys_pty_create sys_pty_attach sys_pty_read sys_pty_write sys_pty_available sys_pty_set_mode sys_pty_close sys_get_pgid
  sys_set_pgid sys_pty_set_fg sys_pty_get_fg sys_pty_signal sys_pty_open_fd sys_create_window sys_update_window sys_poll_event sys_get_settings
  sys_set_settings sys_print sys_test syscall_current_window syscall_cpu_info copy_user_string with_string need with_pid with_buffer copy_in copy_out
  give give_log ask get act : syscalls.

(** Go through a program: every request is allowed, whatever the answers. *)
Ltac walk finish :=
  repeat first
    [ progress cbn [obeys prog_bind mbind prog_mbind rc vals bytes]
    | match goal with
      | |- obeys _ _ _ _ _ (if ?b then _ else _) => let E := fresh "E" in destruct b eqn:E
      | |- obeys _ _ _ _ _ (mbind _ (if ?b then _ else _)) => let E := fresh "E" in destruct b eqn:E
      | |- obeys _ _ _ _ _ (mbind _ (mbind _ (if ?b then _ else _))) => let E := fresh "E" in destruct b eqn:E
      | |- obeys _ _ _ _ _ (match (if ?b then _ else _) with Some _ => _ | None => _ end) => let E := fresh "E" in destruct b eqn:E
      | |- _ /\ (forall r, _) => split; [solve [finish]|]
      | |- forall r : reply, _ -> _ => let r := fresh "r" in let V := fresh "V" in intros r V; cbn [valid] in V; cbn [pages_next]
      end ].

Section Permissions.
Context (perms : Z) (root : bool) (me : Z).

Abbreviation seen := (fun (t : list event) c r => (c, r) :: t).
Abbreviation permitted := (obeys (granted perms root me) seen (valid perms root me) (fun _ _ => True)).

(** A positive answer to a question about permissions. *)
Lemma answered b x : x = b2z b -> (x =? 0) = false -> b = true.
Proof. intros ->. by destruct b. Qed.

Ltac permission :=
  cbn [granted]; repeat match goal with V : ?x = b2z ?b, E : (?x =? 0) = false |- _ => pose proof (answered b x V E); clear E end;
  first [ exact I | eassumption | done | split; assumption
        | right; left; lia | by left
        | right; right; eexists _, _; split; [cbn [In]; eauto|done]
        | right; eexists; split; [cbn [In]; eauto|auto] ].

Lemma random_permitted fuel user left t : obeys (granted perms root me) seen (valid perms root me) (fun _ _ => True) t (random_loop fuel user left).
Proof.
  revert user left t. induction fuel as [|fuel IH]; intros user left t; cbn [random_loop]; destruct (left =? 0); try done. autounfold with syscalls.
  walk permission; done || apply IH.
Qed.

Lemma handlers_permitted a1 a2 a3 : Forall (fun e => forall t, permitted t (snd e)) (native_syscalls a1 a2 a3).
Proof.
  unfold native_syscalls. repeat (apply Forall_cons; split; [intros t; cbn [snd]; autounfold with syscalls|]); [..|by apply Forall_nil].
  all: walk permission; try done. apply obeys_bind, random_permitted.
Qed.
End Permissions.

(** ** Buffers of a call *)

Section Buffers.
Context (perms : Z) (root : bool) (me : Z).

(** Only buffers that are allocated are used, within their size, and all are released. *)
Abbreviation bounded := (obeys sizes_ok pages_next (valid perms root me) (fun held _ => held = [])).

Lemma length_put32 x : length (put32 x) = 4%nat.
Proof. apply length_le_put. Qed.

Lemma length_text_field n l : length (text_field n l) = n.
Proof. unfold text_field. rewrite length_take, length_app, length_replicate. lia. Qed.

(** [size] bytes fit the pages that are allocated for them. *)
Lemma pages_fit size : size <= (size + PAGE_SIZE - 1) / PAGE_SIZE * PAGE_SIZE.
Proof. unfold PAGE_SIZE. Z.to_euclidean_division_equations. lia. Qed.

Lemma pages_count size : 0 < size <= SYSCALL_MAX_IO -> 0 < (size + PAGE_SIZE - 1) / PAGE_SIZE <= SYSCALL_MAX_IO / PAGE_SIZE.
Proof. intros H. unfold SYSCALL_MAX_IO, PAGE_SIZE in *. Z.to_euclidean_division_equations. lia. Qed.

Lemma u16_at_fits l off : 0 <= u16_at l off < 2 ^ 16.
Proof. by apply uwrap_fits. Qed.
Lemma u32_at_fits l off : 0 <= u32_at l off < 2 ^ 32.
Proof. by apply uwrap_fits. Qed.

Ltac fields := repeat match goal with
  | |- context [u16_at ?l ?o] => pose proof (u16_at_fits l o); generalize dependent (u16_at l o); intros
  | |- context [u32_at ?l ?o] => pose proof (u32_at_fits l o); generalize dependent (u32_at l o); intros
  end.

Ltac sizes :=
  cbn [sizes_ok buf_ok pages_next]; unfold message_size_ok, terminal_size_ok, endpoint_ok, SYSCALL_MAX_STRING, SYSCALL_MAX_DIAGNOSTICS, IPC_MAX_MESSAGE_BYTES, TTY_BUFFER_SIZE, SYSCALL_MAX_LIST, DIRENT in *;
  rewrite ?length_app, ?length_put32, ?length_text_field, ?length_le_put, ?length_take, ?length_drop; cbn [length]; fields;
  first [ exact I | by eexists | apply pages_count; lia | lia
        | first [split; [lia|]|idtac]; eexists; split; [by left|]; match goal with |- _ <= (?n + _ - 1) / _ * _ => pose proof (pages_fit n); lia end ].

Lemma random_bounded fuel user left : 0 <= left -> obeys sizes_ok pages_next (valid perms root me) (fun held _ => held = []) [] (random_loop fuel user left).
Proof.
  revert user left. induction fuel as [|fuel IH]; intros user left Hl; cbn [random_loop]; destruct (left =? 0) eqn:E0; try done.
  destruct (256 <? left) eqn:El; autounfold with syscalls; walk sizes; first [done | apply IH; lia].
Qed.

Lemma handlers_bounded a1 a2 a3 : 0 <= a1 -> 0 <= a2 -> 0 <= a3 -> Forall (fun e => bounded [] (snd e)) (native_syscalls a1 a2 a3).
Proof.
  intros H1 H2 H3. unfold native_syscalls. repeat (apply Forall_cons; split; [cbn [snd]; autounfold with syscalls|]); [..|by apply Forall_nil].
  all: walk sizes; try done. apply obeys_bind, random_bounded; lia.
Qed.
End Buffers.


(** ** What holds of every native call *)

Lemma find_syscall_in num l p : find_syscall num l = Some p -> exists n, In (n, p) l.
Proof.
  unfold find_syscall. destruct (List.find _ l) as [[n p']|] eqn:E; [|done]. cbn. intros [= <-]. exists n. by apply List.find_some in E as [E _].
Qed.

Lemma dispatcher_obeys {S} (ok : S -> call -> Prop) next perms root me (Q : S -> Z -> Prop) s num a1 a2 a3 a4 a5 a6 :
  num <= SYS_CPU_INFO -> ok s IsLinux -> (forall r, Q (next s IsLinux r) (-1)) ->
  (forall r, Forall (fun e => obeys ok next (valid perms root me) Q (next s IsLinux r) (snd e)) (native_syscalls a1 a2 a4)) ->
  obeys ok next (valid perms root me) Q s (syscall_dispatcher num a1 a2 a3 a4 a5 a6).
Proof.
  intros Hn Hok Hq Hall. unfold syscall_dispatcher. cbn [get obeys prog_bind mbind prog_mbind]. split; [done|]. intros r V. cbn [valid] in V. rewrite V.
  rewrite (proj2 (Z.ltb_ge _ _) Hn). cbn [negb Z.eqb orb]. destruct (find_syscall num _) as [p|] eqn:E; [|apply Hq].
  destruct (find_syscall_in _ _ _ E) as (n & Hin). specialize (Hall r). rewrite Forall_forall in Hall. by apply (Hall (n, p)), list_elem_of_In.
Qed.

(** The events before a point, the latest first. *)
Lemma follow_seen t s : follow (fun (t : list event) c r => (c, r) :: t) s t = rev t ++ s.
Proof. revert s. induction t as [|[c r] t IH]; intros s; [done|]. cbn [follow rev]. by rewrite IH, <- app_assoc. Qed.


(** C4. A native system call never lets the kernel store more into a buffer, or copy more out of
    it, than the buffer holds, uses kernel pages only while they are allocated, asks for at most
    8 MiB of them, and releases all of them before it returns, on every path. *)
Theorem syscall_buffers perms root me num a1 a2 a3 a4 a5 a6 t result : num <= SYS_CPU_INFO -> 0 <= a1 -> 0 <= a2 -> 0 <= a4 ->
  runs (valid perms root me) (syscall_dispatcher num a1 a2 a3 a4 a5 a6) t result ->
  follow pages_next [] t = [] /\ forall before c r after, t = before ++ (c, r) :: after -> sizes_ok (follow pages_next [] before) c.
Proof.
  intros Hn H1 H2 H4 Hr. eapply (obeys_runs sizes_ok pages_next (valid perms root me) (fun held _ => held = [])); [|exact Hr].
  apply dispatcher_obeys; try done. intros r'. by apply handlers_bounded.
Qed.

(** Fuel of 256 rounds is enough for every size that is accepted. *)
Lemma random_enough perms root me fuel user left : 0 <= left <= 256 * Z.of_nat fuel ->
  obeys (fun _ _ => True) (fun s _ _ => s) (valid perms root me) (fun (_ : unit) r => r <> None) tt (random_loop fuel user left).
Proof.
  revert user left. induction fuel as [|fuel IH]; intros user left Hl; cbn [random_loop]; destruct (Z.eqb_spec left 0) as [|Hne]; try done; [lia|].
  destruct (Z.ltb_spec 256 left); autounfold with syscalls; walk ltac:(exact I); first [done | apply IH; lia].
Qed.

(** ** Runs by computation *)

(** The run of a program against answers. *)
Fixpoint simulate {A} (answer : call -> reply) (p : prog A) : list event * A :=
  match p with Ret a => ([], a) | Ask c k => let '(t, a) := simulate answer (k (answer c)) in ((c, answer c) :: t, a) end.

Lemma simulate_runs {A} (V : call -> reply -> Prop) answer (p : prog A) : (forall c, V c (answer c)) -> runs V p (fst (simulate answer p)) (snd (simulate answer p)).
Proof.
  intros Hv. induction p as [a|c k IH]; [constructor|]. cbn [simulate]. specialize (IH (answer c)). destruct (simulate answer (k (answer c))) as [t a]. by constructor.
Qed.

(** A kernel that does everything: a file has the bytes 1, 2, 3 and the stack is full of [0xAA]. *)
Definition demo_answer (perms : Z) (c : call) : reply :=
  match c with
  | HasPermission q => Reply (b2z (has perms q)) [] []
  | IsRoot | IsLinux => Reply 0 [] []
  | CurrentId => Reply 4 [] []
  | CopyIn _ _ n | RandomBytes _ n => if 0 <=? n then Reply 0 [] (replicate (Z.to_nat n) 97) else Reply 1 [] []
  | SocketRecvFrom _ _ _ n _ | SocketRecv _ _ _ n _ | FdRead _ _ _ n | IpcReceive _ _ _ n | IpcReceiveTyped _ _ _ _ n
  | TtyRead _ _ _ n | PtyRead _ _ _ n | VfsRead _ _ n | HttpFetch _ _ n | FdReadAt _ _ _ _ n => if 3 <=? n then Reply 3 [] [1; 2; 3] else Reply (Z.min 0 n) [] []
  | KlogSnapshot _ n _ _ _ => if 0 <? n then Reply 0 [] [0] else Reply (n - 1) [] []
  | VfsList _ _ n | GetTable _ n => Reply (Z.min 0 n) [] []
  | FdReaddir _ _ _ | PopEvent _ | Credentials | CopyOut _ _ _ => Reply 0 [] []
  | StackBytes n => Reply 0 [] (replicate (Z.to_nat n) 0xAA)
  | NetInfo => Reply 0 [] ([82; 84; 0; 18; 52; 86] ++ str "e1000")
  | AllocPages _ => Reply 0x100000 [] []
  | UserStrnlen _ cap => Reply (Z.min cap 4) [] []
  | _ => Reply 1 [] []
  end.

Lemma demo_answer_valid perms c : valid perms false 4 c (demo_answer perms c).
Proof.
  destruct c; cbn [valid demo_answer]; try done;
    repeat match goal with |- context [if ?b then _ else _] => destruct b eqn:? end; cbn [rc bytes length]; unfold DIRENT; rewrite ?length_replicate; try lia; done.
Qed.

Abbreviation demo_run perms p := (simulate (demo_answer perms) p).
Lemma demo_runs {A} perms (p : prog A) : runs (valid perms false 4) p (fst (demo_run perms p)) (snd (demo_run perms p)).
Proof. apply simulate_runs, demo_answer_valid. Qed.

(** Reading three bytes from descriptor 3. *)
Definition demo_read : prog Z := syscall_dispatcher SYS_FD_READ 3 0x1000 0 3 0 0.

Lemma demo_read_result : snd (demo_run KEA_PERM_FS demo_read) = 3.
Proof. vm_compute. reflexivity. Qed.


(** The page of the buffer is released. *)
Lemma syscall_buffers_witness : runs (valid KEA_PERM_FS false 4) demo_read (fst (demo_run KEA_PERM_FS demo_read)) 3 /\
  follow pages_next [] (fst (demo_run KEA_PERM_FS demo_read)) = [].
Proof.
  pose proof (demo_runs KEA_PERM_FS demo_read) as Hr. rewrite demo_read_result in Hr. split; [exact Hr|].
  apply (syscall_buffers KEA_PERM_FS false 4 SYS_FD_READ 3 0x1000 0 3 0 0 _ 3); [done|lia|lia|lia|exact Hr].
Defined.

(** ** What the checks miss *)

(** A number above the native ones goes to the Linux calls, of which none checks a
    permission, also when the process is a native one. *)
Theorem linux_calls_unchecked perms root me num a1 a2 a3 a4 a5 a6 t result : SYS_CPU_INFO < num ->
  runs (valid perms root me) (syscall_dispatcher num a1 a2 a3 a4 a5 a6) t result ->
  exists r1 r2, t = [(IsLinux, r1); (LinuxDispatch num [a1; a2; a3; a4; a5; a6], r2)].
Proof.
  intros Hn Hr. unfold syscall_dispatcher in Hr. cbn in Hr. inversion Hr as [|c k r1 t1 a V1 Hr1]; subst. rewrite (proj2 (Z.ltb_lt _ _) Hn), orb_true_r in Hr1.
  inversion Hr1 as [|c k r2 t2 a V2 Hr2]; subst. inversion Hr2; subst. by exists r1, r2.
Qed.

(** Padding and the bytes behind the name of the driver reach the process as they were on
    the kernel's stack. *)
Theorem net_info_leaks_stack : exists data r,
  In (CopyOut (Stack 44) 0x1000 data, r) (fst (demo_run KEA_PERM_NETWORK (syscall_dispatcher SYS_NET_INFO 0x1000 0 0 0 0 0))) /\
  take 2 (drop 22 data) = [0xAA; 0xAA] /\ drop 34 data = replicate 10 0xAA.
Proof. eexists _, _. split; [right; right; right; right; left; reflexivity|]. vm_compute. done. Qed.

(** ** Settings *)

Record settings_ok (s : settings) : Prop := SettingsOk {
  so_wallpaper : 1 <= wallpaper_choice s <= 2; so_level : 0 <= dock_mag_level s <= 100; so_align : 0 <= window_controls_align s <= 1;
  so_accent : 0 <= accent_color s <= 2; so_theme : 0 <= theme_id s <= 2; so_speed : 20 <= animation_speed s <= 100; so_density : 0 <= interface_density s <= 2;
  so_flags : Forall (fun x => x = 0 \/ x = 1) [dock_mag_enabled s; dark_mode s; animations_enabled s; show_seconds s; liquid_glass s]
}.

Lemma in_range_ok lo hi new old : lo <= old <= hi -> lo <= in_range lo hi new old <= hi.
Proof. unfold in_range. destruct (_ && _) eqn:E; lia. Qed.
Lemma flag_ok x : flag x = 0 \/ flag x = 1.
Proof. unfold flag. destruct (x =? 0); auto. Qed.

(** Whatever a process asks for, the settings stay valid. *)
Theorem settings_stay_valid st old : settings_ok old -> settings_ok (apply_settings st old).
Proof.
  intros [H1 H2 H3 H4 H5 H6 H7 H8]. constructor; cbn; try (by apply in_range_ok).
  - destruct (_ && _); [|by apply in_range_ok]. destruct (_ || _); lia.
  - repeat (apply Forall_cons; split; [try apply flag_ok|]); [|apply Forall_nil; exact I]. destruct (_ && _); [|apply flag_ok]. destruct (_ =? 1); auto.
Qed.
