(* ===== verification/LinuxSyscall.v ===== *)
(** The Linux system calls: [kernel/linux_syscall.c].

    The calls are programs over the operations of the kernel, as the native ones of
    [Syscall].  Log messages are left out. *)
From Stdlib Require Import String.
From S2P Require Import Prelude Pmm Vmm Kea Files Syscall.

(** ** Errors and constants *)

Definition L_EPERM : Z := 1.
Definition L_ENOENT : Z := 2.
Definition L_ESRCH : Z := 3.
Definition L_EINTR : Z := 4.
Definition L_EIO : Z := 5.
Definition L_EBADF : Z := 9.
Definition L_EAGAIN : Z := 11.
Definition L_ENOMEM : Z := 12.
Definition L_EACCES : Z := 13.
Definition L_EFAULT : Z := 14.
Definition L_ENODEV : Z := 19.
Definition L_ENOTDIR : Z := 20.
Definition L_EINVAL : Z := 22.
Definition L_EMFILE : Z := 24.
Definition L_ENOTTY : Z := 25.
Definition L_ENOSYS : Z := 38.
Definition L_ENOPROTOOPT : Z := 92.
Definition L_EAFNOSUPPORT : Z := 97.
Definition L_EADDRINUSE : Z := 98.
Definition L_ENOTCONN : Z := 107.
Definition L_ETIMEDOUT : Z := 110.
Definition L_ECONNREFUSED : Z := 111.

Definition FD_KIND_FILE : Z := 0.
Definition FD_KIND_DIRECTORY : Z := 1.
Definition FD_KIND_UNIX_SOCKET : Z := 5.
Definition FD_KIND_MEMFD : Z := 6.
Definition FD_KIND_EVDEV : Z := 8.
Definition FD_KIND_DRM_FB : Z := 9.
Definition FD_KIND_EVENTFD : Z := 10.
Definition FD_MAX_PER_PROCESS : Z := 64.
Definition MAX_THREADS_PER_PROCESS : Z := 32.
Definition AF_UNIX : Z := 1.
Definition SOCK_NONBLOCK : Z := 0x800.
Definition ARCH_SET_FS : Z := 0x1002.
Definition ARCH_GET_FS : Z := 0x1003.

(** A negative error number; a result that must not be negative; one that must be zero. *)
Definition err (e : Z) : prog Z := Ret (- e).
Definition nonneg (e r : Z) : Z := if 0 <=? r then r else - e.
Definition zero (e r : Z) : Z := if r =? 0 then 0 else - e.
Definition get_nonneg (e : Z) (c : call) : prog Z := r ← get c; Ret (nonneg e r).
Definition get_zero (e : Z) (c : call) : prog Z := r ← get c; Ret (zero e r).

(** ** User memory *)

Definition linux_copy_in (dst : buf) (p n : Z) : prog (option (list Z)) :=
  if (p =? 0) || (n =? 0) then Ret None else r ← ask (CopyIn dst p n); Ret (if rc r =? 0 then Some (bytes r) else None).
Definition linux_copy_out (src : buf) (p : Z) (data : list Z) : prog bool :=
  if (p =? 0) || (length data =? 0)%nat then Ret false else r ← get (CopyOut src p data); Ret (r =? 0).

(** Copies that fail with [EFAULT]. *)
Definition with_in (dst : buf) (p n : Z) (f : list Z -> prog Z) : prog Z :=
  o ← linux_copy_in dst p n; match o with Some data => f data | None => err L_EFAULT end.
Definition out_or_fault (src : buf) (p : Z) (data : list Z) (f : prog Z) : prog Z :=
  ok ← linux_copy_out src p data; if ok : bool then f else err L_EFAULT.

(** Character by character, up to a zero or [n] characters; what was read so far is
    returned in any case. *)
Fixpoint copy_chars (n : nat) (src : Z) (acc : list Z) : prog (bool * list Z) :=
  match n with
  | O => Ret (true, take (length acc - 1) acc)
  | S n =>
      r ← ask (CopyIn (Stack 1) src 1);
      if negb (rc r =? 0) then Ret (false, acc)
      else if nth 0 (bytes r) 0 =? 0 then Ret (true, acc) else copy_chars n (u64 (src + 1)) (acc ++ [nth 0 (bytes r) 0])
  end.
Definition linux_copy_string (max_len src : Z) : prog (bool * list Z) :=
  if src =? 0 then Ret (false, []) else copy_chars (Z.to_nat max_len) src [].
Definition with_path (max_len src : Z) (f : list Z -> prog Z) : prog Z :=
  '(ok, s) ← linux_copy_string max_len src; if ok : bool then f s else err L_EFAULT.

(** An array with [init] into which a string was copied, whether that succeeded or not. *)
Definition over (init : list Z) (r : bool * list Z) : list Z := if fst r then snd r else c_string (snd r ++ drop (length (snd r)) init).

(** ** Reading and writing *)

(** Pieces of 511 bytes to the console; [None] is fuel that does not suffice. *)
Fixpoint console_loop (fuel : nat) (p left : Z) : prog (option bool) :=
  if left =? 0 then Ret (Some true)
  else
    match fuel with
    | O => Ret None
    | S fuel =>
        let chunk := if 511 <? left then 511 else left in
        o ← linux_copy_in (Stack 512) p chunk;
        match o with
        | None => Ret (Some false)
        | Some data => Ask (SerialPrint (c_string data)) (fun _ => console_loop fuel (u64 (p + chunk)) (left - chunk))
        end
    end.

Definition linux_write (a1 a2 a3 : Z) : prog Z :=
  let fd := i32 a1 in
  if a3 =? 0 then Ret 0
  else if a2 =? 0 then err L_EFAULT
  else if (fd =? 1) || (fd =? 2) then
    o ← console_loop (Z.to_nat (a3 / 511 + 1)) a2 a3;
    Ret (match o with Some true => i64 a3 | _ => - L_EFAULT end)
  else
    let chunk := if 512 <? a3 then 512 else a3 in
    with_in (Stack 512) a2 chunk (fun data => with_pid (fun pid => get_nonneg L_EBADF (FdWrite pid fd data))).

Definition linux_read (a1 a2 a3 : Z) : prog Z :=
  if a3 =? 0 then Ret 0
  else if a2 =? 0 then err L_EFAULT
  else
    let chunk := if 512 <? a3 then 512 else a3 in
    with_pid (fun pid =>
      r ← ask (FdRead (Stack 512) pid (i32 a1) chunk);
      if 0 <? rc r then out_or_fault (Stack 512) a2 (bytes r) (Ret (rc r)) else Ret (rc r)).

(** The elements of the vector: base and length. *)
Fixpoint writev_loop (n : nat) (fd iov total : Z) : prog Z :=
  match n with
  | O => Ret total
  | S n =>
      with_in (Stack 16) iov 16 (fun q =>
        if u64_at q 8 =? 0 then writev_loop n fd (u64 (iov + 16)) total
        else
          ret ← act SetLinux (linux_write fd (u64_at q 0) (u64_at q 8));
          if ret <? 0 then Ret (if 0 <? total then total else ret) else writev_loop n fd (u64 (iov + 16)) (i64 (total + ret)))
  end.

Definition linux_writev (a1 a2 a3 : Z) : prog Z :=
  let iovcnt := i32 a3 in
  if (iovcnt <=? 0) || (64 <? iovcnt) then err L_EINVAL
  else if a2 =? 0 then err L_EFAULT
  else writev_loop (Z.to_nat iovcnt) (u64 (i32 a1)) a2 0.

Fixpoint readv_loop (n : nat) (fd iov total : Z) : prog Z :=
  match n with
  | O => Ret total
  | S n =>
      o ← linux_copy_in (Stack 16) iov 16;
      match o with
      | None => Ret (if total =? 0 then - L_EFAULT else total)
      | Some q =>
          if u64_at q 8 =? 0 then readv_loop n fd (u64 (iov + 16)) total
          else
            got ← act SetLinux (linux_read fd (u64_at q 0) (u64_at q 8));
            if got <? 0 then Ret (if total =? 0 then got else total)
            else if got <? u64_at q 8 then Ret (i64 (total + got)) else readv_loop n fd (u64 (iov + 16)) (i64 (total + got))
      end
  end.

Definition linux_readv (a1 a2 a3 : Z) : prog Z :=
  let iovcnt := i32 a3 in
  if a2 =? 0 then err L_EFAULT
  else if (iovcnt <? 0) || (64 <? iovcnt) then err L_EINVAL
  else readv_loop (Z.to_nat iovcnt) (u64 (i32 a1)) a2 0.

Definition linux_lseek (a1 a2 a3 : Z) : prog Z := with_pid (fun pid => get_nonneg L_EINVAL (FdSeek pid (i32 a1) (i64 a2) (i32 a3))).

Definition linux_pipe (two : bool) (a1 a2 : Z) : prog Z :=
  if a1 =? 0 then err L_EFAULT
  else if two && has (u32 a2) (u32 (Z.lnot (Z.lor 0x800 0x80000))) then err L_EINVAL
  else with_pid (fun pid =>
    r ← ask (PipeCreate pid);
    if negb (rc r =? 0) then err L_EMFILE
    else
      ok ← linux_copy_out (Stack 8) a1 (put32 (val r 0) ++ put32 (val r 1));
      if ok : bool then Ret 0 else act (FdClose pid (val r 0)) (act (FdClose pid (val r 1)) (err L_EFAULT))).

Definition linux_dup (a1 : Z) : prog Z := with_pid (fun pid => get_nonneg L_EBADF (FdDup pid (i32 a1))).
Definition linux_dup2 (a1 a2 : Z) : prog Z := with_pid (fun pid => get_nonneg L_EBADF (FdDup2 pid (i32 a1) (i32 a2))).
Definition linux_close (a1 : Z) : prog Z := with_pid (fun pid => get_zero L_EBADF (FdClose pid (i32 a1))).

Definition linux_fcntl (a1 a2 a3 : Z) : prog Z :=
  let cmd := i32 a2 in
  if (cmd =? 0) || (cmd =? 1030) then with_pid (fun pid => get_nonneg L_EINVAL (FdDupMin pid (i32 a1) (i32 a3)))
  else if cmd =? 3 then Ret 2 else Ret 0.

(** The object behind a descriptor with its kind. *)
Definition with_custom (fd : Z) (f : Z -> bool -> Z -> Z -> prog Z) : prog Z :=
  with_pid (fun pid => r ← ask (GetCustom pid fd); f pid (negb (rc r =? 0)) (val r 0) (val r 1)).

Definition linux_ioctl (a1 a2 a3 : Z) : prog Z :=
  with_custom (i32 a1) (fun _ custom kind object =>
    if custom && (kind =? FD_KIND_EVDEV) then get (EvdevIoctl object a2 a3)
    else if custom && (kind =? FD_KIND_DRM_FB) then get (DrmIoctl object a2 a3)
    else err L_ENOTTY).

(** ** Time *)

(** [linux_timespec] and whether it is a time. *)
Definition i64_at (l : list Z) (off : nat) : Z := i64 (u64_at l off).
Definition time_ok (q : list Z) : bool := negb ((i64_at q 0 <? 0) || (i64_at q 8 <? 0) || (1000000000 <=? i64_at q 8)).
Definition millis_up (q : list Z) : Z := u64 (u64 (i64_at q 0 * 1000) + (i64_at q 8 + 999999) / 1000000).
Definition cap32 (ms : Z) : Z := if 0xFFFFFFFF <? ms then 0xFFFFFFFF else ms.
Definition cap31 (ms : Z) : Z := if 0x7FFFFFFF <? ms then 0x7FFFFFFF else ms.
Definition sleep_for (ms : Z) (f : prog Z) : prog Z := if ms =? 0 then f else act (Sleep ms) f.
Definition no_time : list Z := replicate 16 0.

Definition linux_nanosleep (a1 a2 : Z) : prog Z :=
  with_in (Stack 16) a1 16 (fun q =>
    if negb (time_ok q) then err L_EINVAL
    else sleep_for (cap32 (millis_up q)) (if a2 =? 0 then Ret 0 else out_or_fault (Stack 16) a2 no_time (Ret 0))).

Definition linux_clock_nanosleep (a2 a3 a4 : Z) : prog Z :=
  with_in (Stack 16) a3 16 (fun q =>
    if negb (time_ok q) then err L_EINVAL
    else
      ms ← (if Z.testbit a2 0 then
              ns ← get MonotonicNs;
              let target := u64 (u64 (i64_at q 0 * 1000) + i64_at q 8 / 1000000) in
              let now := ns / 1000000 in Ret (if now <? target then target - now else 0)
            else Ret (millis_up q));
      sleep_for (cap32 ms) (if a4 =? 0 then Ret 0 else out_or_fault (Stack 16) a4 no_time (Ret 0))).

Definition linux_clock_gettime (a2 : Z) : prog Z :=
  if a2 =? 0 then err L_EFAULT
  else ms ← get Millis; out_or_fault (Stack 16) a2 (le_put 8 (ms / 1000) ++ le_put 8 (ms mod 1000 * 1000000)) (Ret 0).

Definition linux_pselect6 (a1 a2 a3 a4 a5 : Z) : prog Z :=
  if negb ((a1 =? 0) && (a2 =? 0) && (a3 =? 0) && (a4 =? 0)) then err L_ENOSYS
  else if a5 =? 0 then Ret 0
  else with_in (Stack 16) a5 16 (fun q => if negb (time_ok q) then err L_EINVAL else sleep_for (cap32 (millis_up q)) (Ret 0)).

(** ** Processes and threads *)

Definition linux_current_pid : prog Z := pid ← get CurrentId; Ret (if pid <? 0 then - L_ESRCH else pid + 1).
Definition tid_of (pid tid : Z) : Z := 1024 + pid * MAX_THREADS_PER_PROCESS + tid.
Definition linux_current_tid : prog Z :=
  pid ← get CurrentId; tid ← get CurrentThread;
  Ret (if (pid <? 0) || (tid <? 0) then - L_ESRCH else if tid =? 0 then pid + 1 else tid_of pid tid).

Definition linux_exit_group (a1 : Z) : prog Z := act (SetYield 2) (act (SetYield 0) (act (ReturnToKernel (i32 a1)) (Ret 0))).
Definition linux_exit (a1 : Z) : prog Z := tid ← get CurrentThread; if 0 <? tid then act (SetYield 2) (Ret 0) else linux_exit_group a1.

Definition linux_set_tid_address (a1 : Z) : prog Z := if a1 =? 0 then linux_current_tid else act (SetClearChildTid a1) linux_current_tid.

Definition linux_get_robust_list (a2 a3 : Z) : prog Z :=
  if (a2 =? 0) || (a3 =? 0) then err L_EFAULT
  else out_or_fault (Stack 8) a2 (le_put 8 0) (out_or_fault (Stack 8) a3 (le_put 8 24) (Ret 0)).

Definition linux_arch_prctl (a1 a2 : Z) : prog Z :=
  let code := i32 a1 in
  if code =? ARCH_SET_FS then act (WriteFsBase a2) (act (SetFsBase a2) (Ret 0))
  else if code =? ARCH_GET_FS then base ← get GetFsBase; out_or_fault (Stack 8) a2 (le_put 8 base) (Ret 0)
  else err L_EINVAL.

(** User and group: 0 or 1 of the credentials. *)
Definition linux_credential (i : nat) : prog Z := r ← ask Credentials; Ret (if rc r =? 0 then - L_ESRCH else u32_at (bytes r) (4 * i)).

Definition linux_tkill (a1 a2 : Z) : prog Z :=
  tid ← linux_current_tid;
  if negb (i64 a1 =? tid) then err L_ESRCH else if i32 a2 =? 0 then Ret 0 else act (SetYield 2) (Ret 0).

(** The mask of the processors. *)
Definition online_mask : prog Z := n ← get CpuOnline; let n := if n =? 0 then 1 else n in Ret (Z.ones (Z.min n 64)).

Definition linux_sched_getaffinity (a2 a3 : Z) : prog Z :=
  if a3 =? 0 then err L_EFAULT else if a2 <? 8 then err L_EINVAL
  else mask ← online_mask; out_or_fault (Stack 8) a3 (le_put 8 mask) (Ret 8).
Definition linux_sched_setaffinity (a2 a3 : Z) : prog Z :=
  if a3 =? 0 then err L_EFAULT else if a2 <? 8 then err L_EINVAL
  else with_in (Stack 8) a3 8 (fun q => mask ← online_mask; Ret (if Z.land (u64_at q 0) mask =? 0 then - L_EINVAL else 0)).

(** Copy out without looking at the result. *)
Definition try_out (cond : bool) (src : buf) (p : Z) (data : list Z) (f : prog Z) : prog Z :=
  if cond then _ ← linux_copy_out src p data; f else f.

Definition linux_clone (a1 a2 a3 a4 a5 a6 : Z) : prog Z :=
  if (a2 =? 0) || (a6 =? 0) then err L_EINVAL
  else
    rip ← get UserRip;
    tidx ← get (LinuxThread rip a2 a5 a6);
    if tidx <? 0 then err L_EAGAIN
    else with_pid (fun pid =>
      let tid := i32 (tid_of pid tidx) in
      try_out (has a1 0x00100000 && negb (a3 =? 0)) (Stack 4) a3 (put32 tid) (
      try_out (has a1 0x01000000 && negb (a4 =? 0)) (Stack 4) a4 (put32 tid) (
      let finish := act (SetYield 1) (Ret tid) in
      if has a1 0x00200000 then act (SetThreadClearTid tidx a4) finish else finish))).

(** Waiting for a word: it is compared, and the thread list lock of a single thread that
    names another owner is reset. *)
Definition futex_wait (a1 value a4 : Z) : prog Z :=
  with_in (Stack 4) a1 4 (fun q =>
    let cur := u32_at q 0 in
    if negb (cur =? value) then err L_EAGAIN
    else
      thread ← get CurrentThread; others ← get OtherThreads; clear ← get GetClearChildTid; tid ← linux_current_tid;
      if (thread =? 0) && (others =? 0) && (a1 =? clear) && negb (cur =? 0) && negb (cur =? u32 tid) then
        out_or_fault (Stack 4) a1 (put32 0) (err L_EAGAIN)
      else
        o ← (if a4 =? 0 then Ret None else linux_copy_in (Stack 16) a4 16);
        match o with
        | Some ts =>
            let ms := u64 (i64 (i64_at ts 0 * 1000) + Z.quot (i64_at ts 8) 1000000) in
            if 0 <? ms then act (TimerWait (if 50 <? ms then 50 else ms)) (err L_ETIMEDOUT) else err L_ETIMEDOUT
        | None => act (SetYield 1) (Ret 0)
        end).

Definition linux_futex (a1 a2 a3 a4 : Z) : prog Z :=
  let cmd := i32 (Z.land (i32 a2) (Z.lnot (Z.lor 128 256))) in
  let value := u32 a3 in
  if a1 =? 0 then err L_EFAULT
  else
    traced ← get SyncTrace;
    _ ← (if traced =? 0 then Ret None else linux_copy_in (Stack 4) a1 4);
    if (cmd =? 0) || (cmd =? 9) then futex_wait a1 value a4
    else if (cmd =? 1) || (cmd =? 10) then act (SetYield 1) (Ret (if 0 <? value then value else 1))
    else if (cmd =? 3) || (cmd =? 4) then act (SetYield 1) (Ret 0)
    else err L_ENOSYS.
