(* ===== verification/LinuxCalls.v ===== *)
(** The Linux system calls, continued: memory, sockets, files, descriptors to wait for and
    windows, and the dispatcher of [kernel/linux_syscall.c]. *)
From Stdlib Require Import String.
From S2P Require Import Prelude Pmm Vmm Kea Files Syscall LinuxSyscall.

(** ** Memory *)

(** An address, where zero is a failure. *)
Definition map_result (c : call) : prog Z := base ← get c; Ret (if base =? 0 then - L_ENOMEM else i64 base).

(** A private mapping of a file: the pages are filled from a buffer while they are writable. *)
Definition mmap_file (pid fd len kprot offset : Z) : prog Z :=
  if SYSCALL_MAX_IO <? len then err L_ENOMEM
  else
    base ← get (VmMap len 2);
    if base =? 0 then err L_ENOMEM
    else
      let pages := (len + PAGE_SIZE - 1) / PAGE_SIZE in
      scratch ← get (AllocPages pages);
      if scratch =? 0 then act (VmUnmap base len) (err L_ENOMEM)
      else
        r ← ask (FdReadAt (Pages scratch) pid fd offset (u32 len));
        filled ← (if rc r <? 0 then Ret false else if rc r =? 0 then Ret true else linux_copy_out (Pages scratch) base (bytes r));
        if negb filled then act (FreePages scratch pages) (act (VmUnmap base len) (err L_EIO))
        else act (FreePages scratch pages) (
          e ← get (VmProtect base len kprot); if negb (e =? 0) then act (VmUnmap base len) (err L_EACCES) else Ret (i64 base)).

Definition linux_mmap (a1 a2 a3 a4 a5 a6 : Z) : prog Z :=
  let kprot := Z.land a3 7 in
  let anonymous := if has a4 0x10 && negb (a1 =? 0) then map_result (VmMapFixed a1 a2 kprot) else map_result (VmMap a2 kprot) in
  if a2 =? 0 then err L_EINVAL
  else if i32 a5 <? 0 then anonymous
  else with_custom (i32 a5) (fun pid custom kind object =>
    if custom && (kind =? FD_KIND_MEMFD) then map_result (MemfdMap pid (i32 a5) a2 kprot a6)
    else if custom && (kind =? FD_KIND_DRM_FB) then map_result (DrmMap pid a2 kprot)
    else if kind =? FD_KIND_FILE then mmap_file pid (i32 a5) a2 kprot a6
    else anonymous).

Definition linux_munmap (a1 a2 : Z) : prog Z := if (a1 =? 0) || (a2 =? 0) then err L_EINVAL else get_zero L_EINVAL (VmUnmap a1 a2).

(** Pieces of 512 bytes; [None] is fuel that does not suffice. *)
Fixpoint remap_loop (fuel : nat) (from to left : Z) : prog (option bool) :=
  if left =? 0 then Ret (Some true)
  else
    match fuel with
    | O => Ret None
    | S fuel =>
        let chunk := if 512 <? left then 512 else left in
        o ← linux_copy_in (Stack 512) from chunk;
        match o with
        | None => Ret (Some false)
        | Some data =>
            ok ← linux_copy_out (Stack 512) to data;
            if ok : bool then remap_loop fuel (u64 (from + chunk)) (u64 (to + chunk)) (left - chunk) else Ret (Some false)
        end
    end.

Definition linux_mremap (a1 a2 a3 a4 : Z) : prog Z :=
  let keep := has a4 4 in
  if (a1 =? 0) || (a2 =? 0) || (a3 =? 0) || has (u32 a4) (u32 (Z.lnot 5)) then err L_EINVAL
  else if (a3 <=? a2) && negb keep then Ret (i64 a1)
  else if negb (has a4 1) then err L_ENOMEM
  else
    replacement ← get (VmMap a3 3);
    if replacement =? 0 then err L_ENOMEM
    else
      let copy_size := if a2 <? a3 then a2 else a3 in
      o ← remap_loop (Z.to_nat (copy_size / 512 + 1)) a1 replacement copy_size;
      match o with
      | Some true =>
          e ← (if keep then Ret 0 else get (VmUnmap a1 a2));
          if negb (e =? 0) then act (VmUnmap replacement a3) (err L_EINVAL) else Ret (i64 replacement)
      | _ => act (VmUnmap replacement a3) (err L_EFAULT)
      end.

Definition linux_memfd_create (a1 a2 : Z) : prog Z :=
  name ← (if a1 =? 0 then Ret (str "memfd") else r ← linux_copy_string 64 a1; Ret (over (str "memfd") r));
  with_pid (fun pid => get_nonneg L_EMFILE (MemfdCreate pid name (u32 a2))).

(** ** Sockets *)

Definition linux_socket (a1 a2 a3 : Z) : prog Z :=
  if i32 a1 =? AF_UNIX then with_pid (fun pid => get_nonneg L_EMFILE (UnixCreate pid (i32 a2) (i32 a3))) else err L_EAFNOSUPPORT.

(** The path of a [sockaddr_un]. *)
Definition with_address (p len : Z) (f : list Z -> prog Z) : prog Z :=
  if (p =? 0) || (u32 len <? 2) then err L_EINVAL
  else with_in (Stack 2) p 2 (fun q => if u16_at q 0 =? AF_UNIX then with_path 108 (u64 (p + 2)) f else err L_EAFNOSUPPORT).

Definition linux_bind (a1 a2 a3 : Z) : prog Z := with_address a2 a3 (fun p => with_pid (fun pid => get_zero L_EADDRINUSE (UnixBind pid (i32 a1) p))).
Definition linux_listen (a1 a2 : Z) : prog Z := with_pid (fun pid => get_zero L_EINVAL (UnixListen pid (i32 a1) (i32 a2))).
Definition linux_connect (a1 a2 a3 : Z) : prog Z := with_address a2 a3 (fun p => with_pid (fun pid => get_zero L_ECONNREFUSED (UnixConnect pid (i32 a1) p))).
Definition linux_accept (a1 flags : Z) : prog Z := with_pid (fun pid => get_nonneg L_EAGAIN (UnixAccept pid (i32 a1) (if has flags SOCK_NONBLOCK then 1 else 0))).

Definition linux_socketpair (a1 a4 : Z) : prog Z :=
  if negb (i32 a1 =? AF_UNIX) || (a4 =? 0) then err L_EINVAL
  else with_pid (fun pid =>
    r ← ask (UnixPair pid);
    if negb (rc r =? 0) then err L_EMFILE else out_or_fault (Stack 8) a4 (put32 (val r 0) ++ put32 (val r 1)) (Ret 0)).

Definition linux_sendmsg (a1 a2 a3 : Z) : prog Z := with_pid (fun pid => get_nonneg L_EINVAL (UnixSendmsg pid (i32 a1) a2 (i32 a3))).
Definition linux_recvmsg (a1 a2 a3 : Z) : prog Z :=
  with_pid (fun pid =>
    r ← get (UnixRecvmsg pid (i32 a1) a2 (i32 a3));
    if r =? -11 then act (SetYield 1) (err L_EAGAIN)
    else Ret (if r <? 0 then (if r =? -14 then - L_EFAULT else - L_EINVAL) else r)).

(** The credentials of the peer: pid, user and group, and their size. *)
Definition linux_getsockopt (a1 a2 a3 a4 a5 : Z) : prog Z :=
  if negb ((i32 a2 =? 1) && (i32 a3 =? 17)) then err L_ENOPROTOOPT
  else if (a4 =? 0) || (a5 =? 0) then err L_EFAULT
  else with_in (Stack 4) a5 4 (fun q =>
    if u32_at q 0 <? 12 then err L_EINVAL
    else with_pid (fun pid =>
      r ← ask (UnixPeercred pid (i32 a1));
      if negb (rc r =? 0) then err L_ENOTCONN
      else out_or_fault (Stack 12) a4 (put32 (val r 0) ++ put32 (val r 1) ++ put32 (val r 2)) (out_or_fault (Stack 4) a5 (put32 12) (Ret 0)))).

Definition wait_result (r : Z) : Z := if r =? -4 then - L_EINTR else if r =? -14 then - L_EFAULT else nonneg L_EINVAL r.
Definition epoll_wait (a1 a2 a3 timeout : Z) : prog Z := with_pid (fun pid => r ← get (EpollWait pid (i32 a1) a2 (i32 a3) timeout); Ret (wait_result r)).
Definition linux_epoll_wait (a1 a2 a3 a4 : Z) : prog Z := epoll_wait a1 a2 a3 (i32 a4).
Definition linux_epoll_create (a1 : Z) : prog Z := with_pid (fun pid => get_nonneg L_EMFILE (EpollCreate pid (i32 a1))).
Definition linux_epoll_ctl (a1 a2 a3 a4 : Z) : prog Z := with_pid (fun pid => get_zero L_EINVAL (EpollCtl pid (i32 a1) (i32 a2) (i32 a3) a4)).

(** A timeout in milliseconds; none waits for ever. *)
Definition with_timeout (p : Z) (f : Z -> prog Z) : prog Z :=
  if p =? 0 then f (-1) else with_in (Stack 16) p 16 (fun q => if negb (time_ok q) then err L_EINVAL else f (cap31 (millis_up q))).
Definition linux_epoll_pwait2 (a1 a2 a3 a4 : Z) : prog Z := with_timeout a4 (epoll_wait a1 a2 a3).

(** ** Files *)

(** The fields of [linux_stat] that are set; the others are zero. *)
Record stat := Stat { st_nlink : Z; st_mode : Z; st_size : Z; st_blksize : Z; st_blocks : Z }.

Definition stat_bytes (st : stat) : list Z :=
  le_put 8 0 ++ le_put 8 0 ++ le_put 8 (st_nlink st) ++ put32 (st_mode st) ++ put32 0 ++ put32 0 ++ put32 0 ++ le_put 8 0 ++
  le_put 8 (st_size st) ++ le_put 8 (st_blksize st) ++ le_put 8 (st_blocks st) ++ replicate 72 0.

Definition S_CHAR : Z := 0x21B6.      (* 020666 *)
Definition S_DIR : Z := 0x416D.       (* 040555 *)
Definition S_FILE : Z := 0x8124.      (* 0100444 *)
Definition S_MEMFD : Z := 0x81B6.     (* 0100666 *)
Definition S_SOCKET : Z := 0xC1B6.    (* 0140666 *)

Definition null_devices : list (list Z) := map str ["/dev/null"; "/dev/zero"; "/dev/urandom"; "/dev/random"]%string.
Definition devices : list (list Z) := null_devices ++ map str ["/dev/fb0"; "/dev/dri/card0"; "/dev/input/event0"; "/dev/input/event1"]%string.
Definition is_path (s : list Z) (l : list (list Z)) : bool := existsb (fun q => bool_decide (q = s)) l.

Definition linux_stat_path (p : list Z) : prog (option stat) :=
  if is_path p devices then Ret (Some (Stat 0 S_CHAR 0 4096 0))
  else
    r ← ask (VfsStat p);
    Ret (if negb (rc r =? 0) then None else Some (Stat 0 (if val r 1 =? 0 then S_FILE else S_DIR) (val r 0) 4096 (u32 (val r 0 + 511) / 512))).

(** The kind of a descriptor stays -1 when there is no open file. *)
Definition linux_stat_fd (fd : Z) : prog (option stat) :=
  if fd <? 0 then Ret None
  else
    pid ← get CurrentId;
    c ← ask (GetCustom pid fd);
    let custom := negb (rc c =? 0) in let kind := val c 0 in
    let st mode size := Some (Stat 1 mode size 4096 (u64 (size + 511) / 512)) in
    if custom && (kind =? FD_KIND_UNIX_SOCKET) then Ret (st S_SOCKET 0)
    else if custom && (kind =? FD_KIND_MEMFD) then size ← get (MemfdSize (val c 1)); Ret (st S_MEMFD size)
    else if custom && ((kind =? FD_KIND_EVDEV) || (kind =? FD_KIND_DRM_FB) || (kind =? FD_KIND_EVENTFD)) then Ret (st S_CHAR 0)
    else if fd <=? 2 then Ret (st S_CHAR 0)
    else if (kind =? FD_KIND_FILE) || (kind =? FD_KIND_DIRECTORY) then
      pid ← get CurrentId;
      r ← ask (FdStat pid fd); Ret (if negb (rc r =? 0) then None else st (if val r 1 =? 0 then S_FILE else S_DIR) (val r 0))
    else Ret (if 0 <=? kind then st S_MEMFD 0 else None).

(** [linux_statx]: user, group and inode are zero. *)
Definition statx_bytes (st : stat) : list Z :=
  put32 0x7FF ++ put32 (if st_blksize st =? 0 then 4096 else st_blksize st) ++ le_put 8 0 ++ put32 (if st_nlink st =? 0 then 1 else st_nlink st) ++
  put32 0 ++ put32 0 ++ le_put 2 (u16 (st_mode st)) ++ le_put 2 0 ++ le_put 8 0 ++ le_put 8 (st_size st) ++ le_put 8 (st_blocks st) ++ le_put 8 0 ++
  replicate 64 0 ++ replicate 16 0 ++ replicate 112 0.

Definition give_stat (e p : Z) (o : option stat) : prog Z :=
  match o with None => err e | Some st => out_or_fault (Stack 144) p (stat_bytes st) (Ret 0) end.

Definition linux_fstat (a1 a2 : Z) : prog Z := if a2 =? 0 then err L_EFAULT else o ← linux_stat_fd (i32 a1); give_stat L_EBADF a2 o.
Definition linux_stat (u_path u_stat : Z) : prog Z :=
  if (u_path =? 0) || (u_stat =? 0) then err L_EFAULT else with_path 128 u_path (fun p => o ← linux_stat_path p; give_stat L_ENOENT u_stat o).
Definition linux_statx (a1 a2 a3 a5 : Z) : prog Z :=
  if (a2 =? 0) || (a5 =? 0) then err L_EFAULT
  else with_path 256 a2 (fun p =>
    o ← (if bool_decide (p = []) && has a3 0x1000 then linux_stat_fd (i32 a1) else linux_stat_path p);
    match o with None => err L_ENOENT | Some st => out_or_fault (Stack 256) a5 (statx_bytes st) (Ret 0) end).

Definition linux_access (a1 : Z) : prog Z := with_path 128 a1 (fun p => o ← linux_stat_path p; Ret (match o with None => - L_ENOENT | Some _ => 0 end)).

Definition linux_readlink (a1 a2 a3 : Z) : prog Z :=
  if (a2 =? 0) || (a3 =? 0) then err L_EFAULT
  else with_path 128 a1 (fun p =>
    if negb (bool_decide (p = str "/proc/self/exe")) then err L_EINVAL
    else
      r ← ask CurrentName;
      if rc r =? 0 then err L_ENOENT
      else let name := take (Z.to_nat a3) (bytes r) in out_or_fault (Stack (Z.of_nat (length (bytes r)))) a2 name (Ret (Z.of_nat (length name)))).

Definition linux_getcwd (a1 a2 : Z) : prog Z :=
  if a1 =? 0 then err L_EFAULT else if a2 <? 2 then err L_EINVAL else out_or_fault (Stack 2) a1 [47; 0] (Ret (i64 a1)).

Definition linux_chdir (a1 : Z) : prog Z :=
  with_path 256 a1 (fun p => r ← ask (VfsStat p); Ret (if negb (rc r =? 0) then - L_ENOENT else if val r 1 =? 0 then - L_ENOTDIR else 0)).

(** A record of a directory listing, padded to eight bytes. *)
Definition record_length (name : list Z) : Z := Z.land (19 + Z.of_nat (length name) + 1 + 7) (Z.lnot 7).
Definition dirent64 (inode : Z) (name : list Z) (dir : bool) : list Z :=
  text_field (Z.to_nat (record_length name))
    (le_put 8 inode ++ le_put 8 (inode + 1) ++ le_put 2 (u16 (record_length name)) ++ [if dir then 4 else 8] ++ name).

(** [None] is fuel that does not suffice. *)
Fixpoint getdents_loop (fuel : nat) (fd buffer capacity written inode : Z) : prog (option Z) :=
  if capacity <? u32 (written + 24) then Ret (Some written)
  else
    match fuel with
    | O => Ret None
    | S fuel =>
        pid ← get CurrentId;
        r ← ask (FdReaddir (Stack DIRENT) pid fd);
        if rc r <? 0 then Ret (Some (if written =? 0 then - L_EBADF else written))
        else if rc r =? 0 then Ret (Some written)
        else
          let name := c_string (take 64 (bytes r)) in
          let n := record_length name in
          if capacity - written <? n then Ret (Some (if written =? 0 then - L_EINVAL else written))
          else
            ok ← linux_copy_out (Stack 96) (u64 (buffer + written)) (dirent64 inode name (negb (nth 68 (bytes r) 0 =? 0)));
            if ok : bool then getdents_loop fuel fd buffer capacity (written + n) (inode + 1) else Ret (Some (- L_EFAULT))
    end.

Definition linux_getdents64 (a1 a2 a3 : Z) : prog Z :=
  let capacity := u32 a3 in
  if a2 =? 0 then err L_EFAULT
  else o ← getdents_loop (Z.to_nat (capacity / 24 + 1)) (i32 a1) a2 capacity 0 1; Ret (default 0 o).

(** The flags of an open file for those of Linux. *)
Definition open_flags (flags : Z) : Z :=
  let access := Z.land flags 3 in
  let flag bit k := if has flags bit then k else 0 in
  Z.lor (Z.lor (Z.lor (if access =? 0 then 1 else if access =? 1 then 2 else 3) (flag 0x40 4)) (flag 0x200 8)) (flag 0x400 16).

Definition linux_open (u_path flags : Z) : prog Z :=
  with_path 128 u_path (fun p =>
    if is_path p null_devices then Ret 0
    else with_pid (fun pid =>
      if is_path p [str "/dev/input/event0"] then get_nonneg L_ENODEV (EvdevOpen 0 pid)
      else if is_path p (map str ["/dev/input/event1"; "/dev/input/mice"]%string) then get_nonneg L_ENODEV (EvdevOpen 1 pid)
      else if is_path p [str "/dev/fb0"] then get_nonneg L_ENODEV (DrmOpen false pid)
      else if is_path p [str "/dev/dri/card0"] then get_nonneg L_ENODEV (DrmOpen true pid)
      else get_nonneg L_ENOENT (FdOpen pid p (open_flags (u32 flags))))).

(** ** Waiting for descriptors *)

(** Each [linux_pollfd] is asked; [revents] is stored behind descriptor and events. *)
Fixpoint poll_loop (n : nat) (q done : list Z) (ready : Z) : prog (Z * list Z) :=
  match n with
  | O => Ret (ready, done)
  | S n =>
      let events := u16_at q 4 in
      pid ← get CurrentId;
      p ← get (FdPoll pid (i32_at q 0) (Z.lor (Z.lor (if has events 3 then 1 else 0) (if has events 4 then 2 else 0)) 4));
      let revents := if 0 <? p then Z.lor (Z.lor (if has p 1 then 1 else 0) (if has p 2 then 4 else 0)) (if has p 4 then 16 else 0) else 0 in
      poll_loop n (drop 8 q) (done ++ take 6 q ++ le_put 2 revents) (if 0 <? p then ready + 1 else ready)
  end.

Definition poll_descriptors (u_fds nfds timeout : Z) : prog Z :=
  if nfds =? 0 then
    let yield := if timeout =? 0 then Ret 0 else act (SetYield 1) (Ret 0) in
    if 0 <? timeout then act (Sleep timeout) yield else yield
  else if (u_fds =? 0) || (64 <? nfds) then err L_EINVAL
  else
    let count := if 16 <? nfds then 16 else nfds in
    with_in (Stack 128) u_fds (count * 8) (fun q =>
      '(ready, q) ← poll_loop (Z.to_nat count) q [] 0;
      if (ready =? 0) && negb (timeout =? 0) then act (SetYield 1) (err L_EINTR) else out_or_fault (Stack 128) u_fds q (Ret ready)).

Definition linux_poll (a1 a2 a3 : Z) : prog Z := poll_descriptors a1 (u32 a2) (i32 a3).
Definition linux_ppoll (a1 a2 a3 : Z) : prog Z := with_timeout a3 (poll_descriptors a1 (u32 a2)).

(** ** Information *)

Definition linux_getcpu (a1 a2 : Z) : prog Z :=
  let second := if a2 =? 0 then Ret 0 else out_or_fault (Stack 4) a2 (put32 0) (Ret 0) in
  if a1 =? 0 then second else out_or_fault (Stack 4) a1 (put32 0) second.

(** Pieces of 256 bytes; [None] is fuel that does not suffice. *)
Fixpoint getrandom_loop (fuel : nat) (user offset size : Z) : prog (option Z) :=
  if size <=? offset then Ret (Some offset)
  else
    match fuel with
    | O => Ret None
    | S fuel =>
        let chunk := if 256 <? size - offset then 256 else size - offset in
        r ← ask (RandomBytes (Stack 256) chunk);
        if negb (rc r =? 0) then Ret (Some (if offset =? 0 then - L_EIO else i64 offset))
        else
          ok ← linux_copy_out (Stack 256) (u64 (user + offset)) (bytes r);
          if ok : bool then getrandom_loop fuel user (offset + chunk) size else Ret (Some (if offset =? 0 then - L_EFAULT else i64 offset))
    end.

Definition linux_getrandom (a1 a2 : Z) : prog Z :=
  if (a1 =? 0) && negb (a2 =? 0) then err L_EFAULT
  else o ← getrandom_loop (Z.to_nat (a2 / 256 + 1)) a1 0 a2; Ret (i64 (default 0 o)).

Definition linux_membarrier (a1 : Z) : prog Z :=
  Ret (if i32 a1 =? 0 then 24 else if (i32 a1 =? 8) || (i32 a1 =? 16) then 0 else - L_EINVAL).

Definition utsname : list Z :=
  flat_map (fun s => text_field 65 (str s)) ["KeshOS"; "keshos"; "1.0.0-musl"; "KeshOS (x86_64 SMP)"; "x86_64"; "local"]%string.
Definition linux_uname (a1 : Z) : prog Z := if a1 =? 0 then err L_EFAULT else out_or_fault (Stack 390) a1 utsname (Ret 0).

(** The limit and its maximum. *)
Definition linux_get_rlimit (resource : Z) : option (Z * Z) :=
  if (resource <? 0) || (16 <=? resource) then None
  else Some (if resource =? 3 then 8 * 1024 * 1024 else if resource =? 7 then FD_MAX_PER_PROCESS else u64 (-1),
             if resource =? 7 then FD_MAX_PER_PROCESS else u64 (-1)).
Definition give_rlimit (resource p : Z) : prog Z :=
  match linux_get_rlimit resource with
  | None => err L_EINVAL
  | Some (cur, max) => out_or_fault (Stack 16) p (le_put 8 cur ++ le_put 8 max) (Ret 0)
  end.
Definition linux_getrlimit (a1 a2 : Z) : prog Z := if a2 =? 0 then err L_EFAULT else give_rlimit (i32 a1) a2.
Definition linux_prlimit64 (a1 a2 a3 a4 : Z) : prog Z :=
  own ← (if i64 a1 =? 0 then Ret true else me ← linux_current_pid; Ret (i64 a1 =? me));
  if negb own then err L_ESRCH else if negb (a3 =? 0) then err L_EPERM else if a4 =? 0 then Ret 0 else give_rlimit (i32 a2) a4.

(** ** Windows *)

Definition kesh_create_window (a1 a2 a3 : Z) : prog Z :=
  title ← (if a3 =? 0 then Ret (str "Linux Window") else r ← linux_copy_string 64 a3; Ret (over (str "Linux Window") r));
  pml4 ← get CurrentPml4; get (WindowCreate (i32 a1) (i32 a2) title pml4).

(** The window of the process. *)
Definition with_window (f : Z -> prog Z) : prog Z := pml4 ← get CurrentPml4; w ← get (WindowOfProcess pml4); if w <? 0 then Ret (-1) else f w.
Definition kesh_update_window : prog Z := with_window (fun w => act (SetDirty w) (act (SetYield 1) (Ret 0))).
Definition kesh_poll_event (a1 : Z) : prog Z :=
  if a1 =? 0 then err L_EFAULT
  else with_window (fun w => r ← ask (PopEvent w); if rc r =? 0 then Ret 0 else out_or_fault (Stack 20) a1 (bytes r) (Ret 1)).

Definition kesh_screen_info (a1 : Z) : prog Z :=
  if a1 =? 0 then err L_EFAULT
  else r ← ask ScreenInfo; out_or_fault (Stack 16) a1 (put32 (val r 0) ++ put32 (val r 1) ++ put32 (val r 2) ++ put32 (val r 3)) (Ret 0).

(** [linux_copy_string] returns 0 for success; the test is whether that is at most 0. *)
Definition kesh_spawn (a1 : Z) : prog Z :=
  if a1 =? 0 then err L_EINVAL
  else
    '(ok, p) ← linux_copy_string 128 a1;
    let result := if ok : bool then 0 else -1 in
    if result <=? 0 then err L_EFAULT
    else
      id ← get (SpawnPath p);
      id ← (if id <? 0 then get (SpawnPath (str "/cdrom/boot/apps/" ++ take 138 p)) else Ret id);
      if id <? 0 then err L_ENOENT else act (SetYield 1) (Ret id).

Definition kesh_power (a1 : Z) : prog Z := if a1 =? 1 then act Reboot (Ret 0) else if a1 =? 2 then act Poweroff (Ret 0) else Ret 0.

(** ** The dispatcher *)

(** The call numbers and their handlers. *)
Definition linux_syscalls (a1 a2 a3 a4 a5 a6 : Z) : list (Z * prog Z) := [
  (0, linux_read a1 a2 a3); (1, linux_write a1 a2 a3); (2, linux_open a1 a2); (3, linux_close a1); (4, linux_stat a1 a2); (5, linux_fstat a1 a2);
  (7, linux_poll a1 a2 a3); (8, linux_lseek a1 a2 a3); (9, linux_mmap a1 a2 a3 a4 a5 a6); (10, get_zero L_EINVAL (VmProtect a1 a2 (u32 a3)));
  (11, linux_munmap a1 a2); (12, r ← get (VmBrk a1); Ret (i64 r)); (13, Ret 0); (14, Ret 0); (16, linux_ioctl a1 a2 a3); (19, linux_readv a1 a2 a3);
  (20, linux_writev a1 a2 a3); (21, linux_access a1); (22, linux_pipe false a1 a2); (24, act (SetYield 1) (Ret 0)); (25, linux_mremap a1 a2 a3 a4);
  (28, Ret 0); (32, linux_dup a1); (33, linux_dup2 a1 a2); (35, linux_nanosleep a1 a2); (39, linux_current_pid); (41, linux_socket a1 a2 a3);
  (42, linux_connect a1 a2 a3); (43, linux_accept a1 0); (46, linux_sendmsg a1 a2 a3); (47, linux_recvmsg a1 a2 a3); (49, linux_bind a1 a2 a3);
  (50, linux_listen a1 a2); (53, linux_socketpair a1 a4); (55, linux_getsockopt a1 a2 a3 a4 a5); (56, linux_clone a1 a2 a3 a4 a5 a6);
  (60, linux_exit a1); (63, linux_uname a1); (72, linux_fcntl a1 a2 a3); (77, with_pid (fun pid => get_zero L_EINVAL (MemfdTruncate pid (i32 a1) a2)));
  (79, linux_getcwd a1 a2); (80, linux_chdir a1); (89, linux_readlink a1 a2 a3); (97, linux_getrlimit a1 a2); (102, linux_credential 0);
  (104, linux_credential 1); (107, linux_credential 0); (108, linux_credential 1); (157, Ret 0); (158, linux_arch_prctl a1 a2); (186, linux_current_tid);
  (200, linux_tkill a1 a2); (202, linux_futex a1 a2 a3 a4); (203, linux_sched_setaffinity a2 a3); (204, linux_sched_getaffinity a2 a3);
  (213, linux_epoll_create a1); (217, linux_getdents64 a1 a2 a3); (218, linux_set_tid_address a1); (228, linux_clock_gettime a2);
  (230, linux_clock_nanosleep a2 a3 a4); (231, linux_exit_group a1); (232, linux_epoll_wait a1 a2 a3 a4); (233, linux_epoll_ctl a1 a2 a3 a4);
  (257, linux_open a2 a3); (262, linux_stat a2 a3); (270, linux_pselect6 a1 a2 a3 a4 a5); (271, linux_ppoll a1 a2 a3); (273, Ret (if a2 =? 24 then 0 else - L_EINVAL));
  (274, linux_get_robust_list a2 a3); (281, linux_epoll_wait a1 a2 a3 a4); (288, linux_accept a1 a4);
  (290, with_pid (fun pid => get_nonneg L_EMFILE (EventfdCreate pid (u32 a1) (i32 a2)))); (291, linux_epoll_create a1); (293, linux_pipe true a1 a2);
  (302, linux_prlimit64 a1 a2 a3 a4); (309, linux_getcpu a1 a2); (318, linux_getrandom a1 a2); (319, linux_memfd_create a1 a2); (324, linux_membarrier a1);
  (332, linux_statx a1 a2 a3 a5); (334, err L_ENOSYS); (441, linux_epoll_pwait2 a1 a2 a3 a4); (500, kesh_create_window a1 a2 a3);
  (501, kesh_update_window); (502, kesh_poll_event a1); (503, kesh_screen_info a1); (504, kesh_spawn a1); (505, kesh_power a1)].

Definition linux_syscall_dispatcher (num a1 a2 a3 a4 a5 a6 : Z) : prog Z :=
  act SetLinux (match find_syscall num (linux_syscalls a1 a2 a3 a4 a5 a6) with Some p => p | None => err L_ENOSYS end).
