(* ===== verification/LinuxSpec.v ===== *)
(** Linux system calls: sizes of buffers, fuel, what is given back on errors, and what goes
    wrong. *)
From Stdlib Require Import String.
From S2P Require Import Prelude Pmm Vmm Kea Files Syscall SyscallSpec LinuxSyscall LinuxCalls.

(** ** Programs in parts *)

Section Parts.
Context {S : Type} (ok : S -> call -> Prop) (next : S -> call -> reply -> S) (valid : call -> reply -> Prop).

Lemma obeys_mono {A} (Q Q' : S -> A -> Prop) s p : (forall s a, Q s a -> Q' s a) -> obeys ok next valid Q s p -> obeys ok next valid Q' s p.
Proof. intros H. revert s. induction p as [a|c k IH]; intros s; cbn; [auto|]. intros [Hc Hk]. split; [done|]. intros r Hr. by apply IH, Hk. Qed.

(** A part that leaves the monitor as it was. *)
Lemma obeys_part {A B} (P : A -> Prop) (Q : S -> B -> Prop) s (p : prog A) f :
  obeys ok next valid (fun s' a => s' = s /\ P a) s p -> (forall a, P a -> obeys ok next valid Q s (f a)) -> obeys ok next valid Q s (p ≫= f).
Proof. intros Hp Hf. apply obeys_bind. eapply obeys_mono; [|exact Hp]. cbn. intros s' a [-> Ha]. by apply Hf. Qed.
End Parts.

Create HintDb linux.
#[local] Hint Unfold linux_write linux_read linux_writev linux_readv linux_lseek linux_pipe linux_dup linux_dup2 linux_close linux_fcntl linux_ioctl
  linux_nanosleep linux_clock_nanosleep linux_clock_gettime linux_pselect6 linux_current_pid linux_current_tid linux_exit_group linux_exit
  linux_set_tid_address linux_get_robust_list linux_arch_prctl linux_credential linux_tkill online_mask linux_sched_getaffinity linux_sched_setaffinity
  linux_clone futex_wait linux_futex map_result linux_mmap linux_munmap linux_mremap linux_memfd_create linux_socket with_address linux_bind
  linux_listen linux_connect linux_accept linux_socketpair linux_sendmsg linux_recvmsg linux_getsockopt epoll_wait linux_epoll_wait linux_epoll_create
  linux_epoll_ctl with_timeout linux_epoll_pwait2 linux_stat_path linux_stat_fd give_stat linux_fstat linux_stat linux_statx linux_access linux_readlink
  linux_getcwd linux_chdir linux_getdents64 linux_open linux_poll linux_ppoll linux_getcpu linux_getrandom linux_membarrier linux_uname
  give_rlimit linux_getrlimit linux_prlimit64 kesh_create_window with_window kesh_update_window kesh_poll_event kesh_screen_info kesh_spawn kesh_power
  err get_nonneg get_zero linux_copy_in linux_copy_out with_in out_or_fault linux_copy_string with_path with_custom sleep_for try_out with_pid ask get act : linux.

(** ** Buffers *)

Section Buffers.
Context (perms : Z) (root : bool) (me : Z).

Abbreviation part := (fun P p => obeys sizes_ok pages_next (valid perms root me) (fun held a => held = [] /\ P a) [] p).
Abbreviation bounded := (obeys sizes_ok pages_next (valid perms root me) (fun held _ => held = [])).

Lemma length_stat_bytes st : length (stat_bytes st) = 144%nat.
Proof. unfold stat_bytes. by rewrite !length_app, !length_put32, !length_le_put, length_replicate. Qed.
Lemma length_statx_bytes st : length (statx_bytes st) = 256%nat.
Proof. unfold statx_bytes. by rewrite !length_app, !length_put32, !length_le_put, !length_replicate. Qed.
Lemma length_utsname : length utsname = 390%nat.
Proof. reflexivity. Qed.

(** A record fits its array: a name has at most 64 characters. *)
Lemma record_length_bounds name : (length name <= 64)%nat -> 24 <= record_length name <= 88.
Proof.
  intros H. unfold record_length. rewrite <- Z.ldiff_land, (Z.ldiff_ones_r _ 3), Z.shiftl_mul_pow2, Z.shiftr_div_pow2 by lia.
  assert (0 <= Z.of_nat (length name) <= 64) by lia. change (2 ^ 3) with 8. Z.to_euclidean_division_equations. lia.
Qed.

Lemma length_c_string l n : (length (c_string (take n l)) <= n)%nat.
Proof. unfold c_string. rewrite !length_take. lia. Qed.

Lemma length_dirent64 inode name dir : length (dirent64 inode name dir) = Z.to_nat (record_length name).
Proof. apply length_text_field. Qed.

Ltac lsizes :=
  cbn [sizes_ok buf_ok pages_next]; unfold DIRENT, SYSCALL_MAX_IO in *;
  rewrite ?length_dirent64, ?length_stat_bytes, ?length_statx_bytes, ?length_utsname, ?length_app, ?length_put32, ?length_text_field, ?length_le_put, ?length_take, ?length_drop, ?length_replicate;
  cbn [length]; try match goal with |- context [record_length (c_string (take 64 ?l))] => pose proof (record_length_bounds _ (length_c_string l 64)) end;
  first [ exact I | done | by eexists | apply pages_count; unfold SYSCALL_MAX_IO; lia | lia
        | first [split; [lia|]|idtac]; eexists; split; [by left|]; match goal with |- _ <= (?n + _ - 1) / _ * _ => pose proof (pages_fit n); lia end
        | repeat case_match; lia ].

Lemma copy_chars_bounded n src acc : part (fun _ => True) (copy_chars n src acc).
Proof. revert src acc. induction n as [|n IH]; intros src acc; cbn [copy_chars]; autounfold with linux; walk lsizes; done || apply IH. Qed.

Lemma console_bounded fuel p left : 0 <= left -> part (fun _ => True) (console_loop fuel p left).
Proof.
  revert p left. induction fuel as [|fuel IH]; intros p left Hl; cbn [console_loop]; destruct (left =? 0) eqn:E0; try done.
  destruct (511 <? left) eqn:El; autounfold with linux; walk lsizes; first [done | apply IH; lia].
Qed.

Lemma remap_bounded fuel from to left : 0 <= left -> part (fun _ => True) (remap_loop fuel from to left).
Proof.
  revert from to left. induction fuel as [|fuel IH]; intros from to left Hl; cbn [remap_loop]; destruct (left =? 0) eqn:E0; try done.
  destruct (512 <? left) eqn:El; autounfold with linux; walk lsizes; first [done | apply IH; lia].
Qed.

Lemma getrandom_bounded fuel user offset size : part (fun _ => True) (getrandom_loop fuel user offset size).
Proof.
  revert user offset. induction fuel as [|fuel IH]; intros user offset; cbn [getrandom_loop]; destruct (size <=? offset) eqn:E0; try done.
  destruct (256 <? size - offset) eqn:El; autounfold with linux; walk lsizes; first [done | apply IH].
Qed.

Lemma getdents_bounded fuel fd buffer capacity written inode : part (fun _ => True) (getdents_loop fuel fd buffer capacity written inode).
Proof.
  revert written inode. induction fuel as [|fuel IH]; intros written inode; cbn [getdents_loop]; destruct (capacity <? _); try done.
  autounfold with linux. walk lsizes; done || apply IH.
Qed.

(** A part without a result that matters, and the loops. *)
Ltac step :=
  match goal with
  | |- obeys _ _ _ _ _ (mbind _ (copy_chars _ _ _)) => eapply obeys_part; [apply copy_chars_bounded|intros [? ?] _]
  | |- obeys _ _ _ _ _ (mbind _ (console_loop _ _ _)) => eapply obeys_part; [apply console_bounded; try lia|intros ? _]
  | |- obeys _ _ _ _ _ (mbind _ (remap_loop _ _ _ _)) => eapply obeys_part; [apply remap_bounded; first [lia|case_match; lia]|intros ? _]
  | |- obeys _ _ _ _ _ (mbind _ (getrandom_loop _ _ _ _)) => eapply obeys_part; [apply getrandom_bounded|intros ? _]
  | |- obeys _ _ _ _ _ (mbind _ (getdents_loop _ _ _ _ _ _)) => eapply obeys_part; [apply getdents_bounded|intros ? _]
  | |- obeys _ _ _ _ _ (mbind _ (mbind _ (copy_chars _ _ _))) => apply obeys_bind
  | |- obeys _ _ _ _ _ (let (_, _) := ?p in _) => destruct p
  | |- obeys _ _ _ _ _ (match ?o with Some _ => _ | None => _ end) => destruct o
  | |- obeys _ _ _ _ _ (if ?b then _ else _) => destruct b
  end.
Ltac lwalk := repeat first [progress walk lsizes | step].

Lemma write_bounded a1 a2 a3 : 0 <= a3 -> part (fun _ => True) (linux_write a1 a2 a3).
Proof. intros H. autounfold with linux. lwalk; done || lia. Qed.

Lemma read_bounded a1 a2 a3 : 0 <= a3 -> part (fun _ => True) (linux_read a1 a2 a3).
Proof. intros H. autounfold with linux. lwalk; done || lia. Qed.

Lemma u64_at_fits l off : 0 <= u64_at l off < 2 ^ 64.
Proof. by apply uwrap_fits. Qed.

Lemma writev_bounded n fd iov total : part (fun _ => True) (writev_loop n fd iov total).
Proof.
  revert iov total. induction n as [|n IH]; intros iov total; cbn [writev_loop]; [done|]. unfold with_in, linux_copy_in, ask, act, err. walk lsizes; try done; try apply IH.
  eapply obeys_part; [apply write_bounded, u64_at_fits|]. intros ret _. walk lsizes; done || apply IH.
Qed.

Lemma readv_bounded n fd iov total : part (fun _ => True) (readv_loop n fd iov total).
Proof.
  revert iov total. induction n as [|n IH]; intros iov total; cbn [readv_loop]; [done|]. unfold linux_copy_in, ask, act, err. walk lsizes; try done; try apply IH.
  eapply obeys_part; [apply read_bounded, u64_at_fits|]. intros ret _. walk lsizes; done || apply IH.
Qed.

(** The descriptors come back in the space they came in. *)
Lemma poll_bounded n q acc ready : length q = (8 * n)%nat -> part (fun a => length (snd a) = (length acc + 8 * n)%nat) (poll_loop n q acc ready).
Proof.
  revert q acc ready. induction n as [|n IH]; intros q acc ready Hq; cbn [poll_loop]; [cbn; by rewrite Nat.add_0_r|].
  autounfold with linux. walk lsizes. eapply obeys_mono; [|apply IH; rewrite length_drop; lia].
  intros s [a l] [-> Hl]. split; [done|]. cbn [snd] in *. rewrite Hl, !length_app, length_take, length_le_put. lia.
Qed.

Lemma poll_descriptors_bounded u_fds nfds timeout : 0 <= nfds -> bounded [] (poll_descriptors u_fds nfds timeout).
Proof.
  intros Hn. unfold poll_descriptors, with_in, linux_copy_in, ask, act, err, out_or_fault, linux_copy_out, get. lwalk; try done.
  all: assert (Hc : 0 < (if 16 <? nfds then 16 else nfds) <= 16) by (case_match; lia).
  all: generalize dependent (if 16 <? nfds then 16 else nfds); intros count Ec V Hc.
  eapply obeys_part; [apply poll_bounded; lia|]. intros [n l] Hl. cbn [snd length] in Hl. lwalk; done || lia.
Qed.

Lemma mmap_file_bounded pid fd len kprot offset : 0 < len -> bounded [] (mmap_file pid fd len kprot offset).
Proof.
  intros Hl. unfold mmap_file. destruct (SYSCALL_MAX_IO <? len) eqn:E; [done|].
  assert (Hu : u32 len = len) by (apply uwrap_id; unfold fits, SYSCALL_MAX_IO in *; lia). rewrite Hu.
  autounfold with linux. lwalk; try done.
Qed.

Lemma part_bounded {A} P (p : prog A) : part P p -> bounded [] p.
Proof. apply obeys_mono. by intros s' a [-> _]. Qed.

Lemma linux_handlers_bounded a1 a2 a3 a4 a5 a6 : 0 <= a2 -> 0 <= a3 -> Forall (fun e => bounded [] (snd e)) (linux_syscalls a1 a2 a3 a4 a5 a6).
Proof.
  intros H2 H3. unfold linux_syscalls. repeat (apply Forall_cons; split; [cbn [snd]; autounfold with linux|]); [..|by apply Forall_nil].
  all: try lwalk; try done; try lia.
  all: try (eapply part_bounded; first [apply writev_bounded | apply readv_bounded]).
  all: try (apply poll_descriptors_bounded; by apply uwrap_fits).
  all: apply mmap_file_bounded; lia.
Qed.
End Buffers.

(** ** What holds of every Linux call *)

Lemma linux_dispatcher_obeys {S} (ok : S -> call -> Prop) next valid (Q : S -> Z -> Prop) s num a1 a2 a3 a4 a5 a6 :
  ok s SetLinux -> (forall r, Q (next s SetLinux r) (- L_ENOSYS)) ->
  (forall r, Forall (fun e => obeys ok next valid Q (next s SetLinux r) (snd e)) (linux_syscalls a1 a2 a3 a4 a5 a6)) ->
  obeys ok next valid Q s (linux_syscall_dispatcher num a1 a2 a3 a4 a5 a6).
Proof.
  intros Hok Hq Hall. unfold linux_syscall_dispatcher, act. cbn [obeys]. split; [done|]. intros r _. destruct (find_syscall num _) as [p|] eqn:E; [|apply Hq].
  destruct (find_syscall_in _ _ _ E) as (n & Hin). specialize (Hall r). rewrite Forall_forall in Hall. by apply (Hall (n, p)), list_elem_of_In.
Qed.


(** ** Fuel *)

Section Fuel.
Context (perms : Z) (root : bool) (me : Z).
Abbreviation enough p := (obeys (fun _ _ => True) (fun s _ _ => s) (valid perms root me) (fun (_ : unit) r => r <> None) tt p).
Ltac rounds IH := autounfold with linux; walk ltac:(exact I); first [done | apply IH; lia].

Lemma console_enough fuel p left : 0 <= left <= 511 * Z.of_nat fuel -> enough (console_loop fuel p left).
Proof.
  revert p left. induction fuel as [|fuel IH]; intros p left Hl; cbn [console_loop]; destruct (Z.eqb_spec left 0) as [|Hne]; try done; [lia|].
  destruct (Z.ltb_spec 511 left); rounds IH.
Qed.

Lemma remap_enough fuel from to left : 0 <= left <= 512 * Z.of_nat fuel -> enough (remap_loop fuel from to left).
Proof.
  revert from to left. induction fuel as [|fuel IH]; intros from to left Hl; cbn [remap_loop]; destruct (Z.eqb_spec left 0) as [|Hne]; try done; [lia|].
  destruct (Z.ltb_spec 512 left); rounds IH.
Qed.

Lemma getrandom_enough fuel user offset size : size - offset <= 256 * Z.of_nat fuel -> enough (getrandom_loop fuel user offset size).
Proof.
  revert offset. induction fuel as [|fuel IH]; intros offset Hl; cbn [getrandom_loop]; destruct (Z.leb_spec size offset) as [|Hne]; try done; [lia|].
  destruct (Z.ltb_spec 256 (size - offset)); rounds IH.
Qed.

Lemma getdents_enough fuel fd buffer capacity written inode : 0 <= written <= capacity -> capacity < 2 ^ 32 -> capacity - written < 24 * Z.of_nat fuel ->
  enough (getdents_loop fuel fd buffer capacity written inode).
Proof.
  revert written inode. induction fuel as [|fuel IH]; intros written inode Hw Hc Hl; [lia|]. cbn [getdents_loop].
  destruct (capacity <? u32 (written + 24)); [done|]. autounfold with linux. walk ltac:(exact I); try done.
  pose proof (record_length_bounds _ (length_c_string (bytes r1) 64)). apply IH; lia.
Qed.

(** The fuel the calls use. *)
Lemma rounds_enough n k : 0 <= n -> 0 < k -> n < k * Z.of_nat (Z.to_nat (n / k + 1)).
Proof. intros Hn Hk. rewrite Z2Nat.id by (Z.to_euclidean_division_equations; nia). Z.to_euclidean_division_equations. nia. Qed.
End Fuel.

(** ** Mappings on errors *)

Section Mappings.
Context (perms : Z) (root : bool) (me : Z).

(** What is mapped by a call. *)
Definition maps_next (mapped : list (Z * Z)) (c : call) (r : reply) : list (Z * Z) :=
  match c with
  | VmMap len _ | VmMapFixed _ len _ | MemfdMap _ _ len _ _ | DrmMap _ len _ => if rc r =? 0 then mapped else (rc r, len) :: mapped
  | VmUnmap va len => List.filter (fun e => negb (bool_decide (e = (va, len)))) mapped
  | _ => mapped
  end.

(** Mappings are in the user half; a replacement is not where the old one is. *)
Definition maps_valid (old : Z) (c : call) (r : reply) : Prop :=
  match c with
  | VmMap _ _ | VmMapFixed _ _ _ | MemfdMap _ _ _ _ _ | DrmMap _ _ _ => 0 <= rc r < USER_VA_LIMIT /\ rc r <> old
  | _ => valid perms root me c r
  end.

Definition undone (len : Z) (mapped : list (Z * Z)) (result : Z) : Prop := (result < 0 /\ mapped = []) \/ (0 < result /\ mapped = [(result, len)]).

Lemma unmapped_one (e : Z * Z) : List.filter (fun e' => negb (bool_decide (e' = e))) [e] = [].
Proof. cbn [List.filter]. by rewrite bool_decide_true. Qed.
Lemma i64_user x : 0 <= x < USER_VA_LIMIT -> i64 x = x.
Proof. intros H. unfold i64, swrap, USER_VA_LIMIT in *. rewrite Z.mod_small; lia. Qed.

Ltac mapped :=
  repeat first [progress walk ltac:(exact I) | progress cbn [maps_next maps_valid valid] in *
    | match goal with
      | |- context [if rc ?r =? 0 then _ else _] => let E := fresh "E" in destruct (rc r =? 0) eqn:E
      | |- context [List.filter _ [_]] => rewrite unmapped_one
      end ].

Lemma mmap_file_undone pid fd len kprot offset old :
  obeys (fun _ _ => True) maps_next (maps_valid old) (undone len) [] (mmap_file pid fd len kprot offset).
Proof.
  unfold mmap_file. autounfold with linux. mapped; try (left; done); try lia.
  all: rewrite i64_user by lia; right; split; [lia|done].
Qed.

Lemma linux_mmap_undone a1 a2 a3 a4 a5 a6 old :
  obeys (fun _ _ => True) maps_next (maps_valid old) (undone a2) [] (linux_mmap a1 a2 a3 a4 a5 a6).
Proof.
  autounfold with linux. mapped; try (left; done); try apply mmap_file_undone.
  all: rewrite i64_user by lia; right; split; [lia|done].
Qed.

Lemma remap_maps fuel from to left mapped old :
  obeys (fun _ _ => True) maps_next (maps_valid old) (fun m _ => m = mapped /\ True) mapped (remap_loop fuel from to left).
Proof.
  revert from to left. induction fuel as [|fuel IH]; intros from to left; cbn [remap_loop]; destruct (left =? 0); try done.
  destruct (512 <? left); autounfold with linux; mapped; first [done | apply IH].
Qed.

Lemma other_kept (va n old len : Z) : va <> old -> List.filter (fun e => negb (bool_decide (e = (old, len)))) [(va, n)] = [(va, n)].
Proof. intros H. cbn [List.filter]. rewrite bool_decide_false; [done|]. by intros [= -> _]. Qed.

(** A move is undone when it fails; a block that only shrinks stays where it is. *)
Lemma linux_mremap_undone a1 a2 a3 a4 : 0 <= a1 < 2 ^ 63 ->
  obeys (fun _ _ => True) maps_next (maps_valid a1) (fun m r => undone a3 m r \/ r = a1 /\ m = []) [] (linux_mremap a1 a2 a3 a4).
Proof.
  intros H1. autounfold with linux. assert (Hi : i64 a1 = a1) by (unfold i64, swrap; rewrite Z.mod_small; lia).
  mapped; try (left; left; done); try (right; done).
  all: eapply obeys_part; [apply remap_maps|]; intros [[]|] _; mapped; try (left; left; done).
  all: rewrite ?other_kept by lia; mapped; try (left; left; done).
  all: left; right; rewrite i64_user by lia; split; [lia|done].
Qed.
End Mappings.

(** A mapping that fails leaves nothing mapped, on every path; one that succeeds has made
    exactly the mapping it names, also for the contents of a file. *)
Theorem linux_mmap_all_or_nothing perms root me a1 a2 a3 a4 a5 a6 t result :
  runs (maps_valid perms root me (-1)) (linux_mmap a1 a2 a3 a4 a5 a6) t result -> undone a2 (follow maps_next [] t) result.
Proof. intros Hr. by apply (obeys_runs _ _ _ _ _ _ _ _ (linux_mmap_undone perms root me a1 a2 a3 a4 a5 a6 (-1)) Hr). Qed.

(** So does a move of a block of memory. *)
Theorem linux_mremap_all_or_nothing perms root me a1 a2 a3 a4 t result : 0 <= a1 < 2 ^ 63 ->
  runs (maps_valid perms root me a1) (linux_mremap a1 a2 a3 a4) t result ->
  undone a3 (follow maps_next [] t) result \/ result = a1 /\ follow maps_next [] t = [].
Proof. intros H1 Hr. by apply (obeys_runs _ _ _ _ _ _ _ _ (linux_mremap_undone perms root me a1 a2 a3 a4 H1) Hr). Qed.

(** ** Runs by computation *)

(** The kernel of the native examples with descriptor 3 an open file, memory from 64 MiB and
    one entry in a directory. *)
Definition demo_linux (c : call) : reply :=
  match c with
  | GetCustom _ _ => Reply 0 [FD_KIND_FILE; 0] []
  | VmMap _ _ => Reply 0x4000000 [] []
  | VmProtect _ _ _ | VmUnmap _ _ | UnixPair _ => Reply 0 [7; 8] []
  | _ => demo_answer 0 c
  end.

Lemma demo_linux_valid c : valid 0 false 4 c (demo_linux c).
Proof. pose proof (demo_answer_valid 0 c) as H. destruct c; first [exact H | exact I]. Qed.

(** Mapping 4096 bytes of a file. *)
Definition demo_mmap : prog Z := linux_syscall_dispatcher 9 0 4096 1 2 3 0.

Lemma demo_mmap_result : snd (simulate demo_linux demo_mmap) = 0x4000000.
Proof. vm_compute. reflexivity. Qed.


(** ** What goes wrong *)

(** A program is never started: a string that was copied counts as one that was not. *)
Theorem kesh_spawn_never perms root me a1 t result : runs (valid perms root me) (kesh_spawn a1) t result ->
  result < 0 /\ forall p r, ~ In (SpawnPath p, r) t.
Proof.
  intros Hr.
  assert (Ho : obeys (fun _ c => forall p, c <> SpawnPath p) (fun s _ _ => s) (valid perms root me) (fun (_ : unit) r => r < 0) tt (kesh_spawn a1)).
  { autounfold with linux. destruct (a1 =? 0); [done|]. eapply (obeys_part _ _ _ (fun _ => True)); [|by intros [[] p] _].
    cbn iota. generalize (@nil Z). generalize a1. induction (Z.to_nat 128) as [|n IH]; intros src acc; cbn [copy_chars]; [done|].
    autounfold with linux. walk ltac:(intros ?; discriminate); done || apply IH. }
  destruct (obeys_runs _ _ _ _ _ _ _ _ Ho Hr) as [Hneg Hall]. split; [done|]. intros p r Hin.
  apply in_split in Hin as (t1 & t2 & ->). by apply (Hall t1 _ r t2 eq_refl p).
Qed.

(** The descriptors of a socket pair stay open when they cannot be stored. *)
Theorem socketpair_leaks perms root me a1 a4 t result : runs (valid perms root me) (linux_socketpair a1 a4) t result -> forall pid fd r, ~ In (FdClose pid fd, r) t.
Proof.
  intros Hr pid fd r Hin.
  assert (Ho : obeys (fun _ c => forall pid fd, c <> FdClose pid fd) (fun s _ _ => s) (valid perms root me) (fun (_ : unit) (_ : Z) => True) tt (linux_socketpair a1 a4)).
  { autounfold with linux. walk ltac:(intros ? ?; discriminate); done. }
  destruct (obeys_runs _ _ _ _ _ _ _ _ Ho Hr) as [_ Hall]. apply in_split in Hin as (t1 & t2 & ->). by apply (Hall t1 _ r t2 eq_refl pid fd).
Qed.

(** Two elements of 600 and 10 bytes. *)
Definition demo_vector (c : call) : reply :=
  match c with
  | CopyIn (Stack 16) p _ => Reply 0 [] (if p =? 0x1000 then le_put 8 0x5000 ++ le_put 8 600 else le_put 8 0x6000 ++ le_put 8 10)
  | FdWrite _ _ data => Reply (Z.of_nat (length data)) [] []
  | _ => demo_linux c
  end.
Definition sources (t : list event) : list (Z * Z) := flat_map (fun e => match fst e with CopyIn (Stack 512) p n => [(p, n)] | _ => [] end) t.

(** A vector is written with a hole: the first element is cut to 512 bytes and the second one
    follows. *)
Theorem writev_leaves_hole : let '(t, result) := simulate demo_vector (linux_writev 3 0x1000 2) in sources t = [(0x5000, 512); (0x6000, 10)] /\ result = 522.
Proof. vm_compute. done. Qed.
