(* ===== verification/Klog.v ===== *)
(** The kernel log: [kernel/log.c].

    Records are formatted into a buffer of fixed size and kept in a ring of the last 32; the
    registers that are read for a record are an argument. *)
From Stdlib Require Import String.
From S2P Require Import Prelude Pmm Vmm Files Syscall.

(** ** State *)

Definition KLOG_L5_INFO : Z := 5.
Definition KLOG_BUF_SIZE : Z := 2048.
Definition KLOG_RING_RECORDS : Z := 32.
Definition PERSIST_SIZE : Z := KLOG_RING_RECORDS * KLOG_BUF_SIZE.

(** A slot of the ring: text and module are C strings. *)
Record record := Record { kr_text : list Z; kr_level : Z; kr_module : list Z }.
Record klog := Klog { g_level : Z; g_seq : Z; ring : list record; ring_next : Z; ring_count : Z; g_previous_log : list Z }.

Definition empty_record : record := Record [] 0 [].
Definition klog_init (ring0 : list record) : klog := Klog KLOG_L5_INFO 0 ring0 0 0 [].

Definition klog_set_level (s : klog) (level : Z) : klog :=
  let level := if level <? KLOG_L1_FATAL then KLOG_L1_FATAL else level in
  let level := if KLOG_L7_TRACE <? level then KLOG_L7_TRACE else level in
  Klog level (g_seq s) (ring s) (ring_next s) (ring_count s) (g_previous_log s).
Definition klog_get_level (s : klog) : Z := g_level s.

(** ** Formatting *)

Definition level_name (level : Z) : list Z :=
  str (if level =? 1 then "FATAL" else if level =? 2 then "ERROR" else if level =? 3 then "WARN" else if level =? 4 then "NOTICE"
       else if level =? 5 then "INFO" else if level =? 6 then "DEBUG" else if level =? 7 then "TRACE" else "UNKNOWN").

(** Characters that do not fit are dropped. *)
Definition put_char (buf : list Z) (c : Z) : list Z := if Z.of_nat (length buf) + 1 <? KLOG_BUF_SIZE then buf ++ [c] else buf.
Definition put_str (buf s : list Z) : list Z := foldl put_char buf s.
Definition or_null (s : option (list Z)) : list Z := default (str "(null)") s.

(** Digits, the last first, in an array of 32. *)
Fixpoint dec_digits (n : nat) (value : Z) : list Z :=
  match n with O => [] | S n => if value =? 0 then [] else (48 + value mod 10) :: dec_digits n (value / 10) end.
Definition put_dec (buf : list Z) (value : Z) : list Z := if value =? 0 then put_char buf 48 else put_str buf (reverse (dec_digits 32 value)).
Definition put_signed (buf : list Z) (value : Z) : list Z :=
  if value <? 0 then put_dec (put_char buf 45) (u64 (u64 (- (value + 1)) + 1)) else put_dec buf value.
Definition hex_digit (d : Z) : Z := if d <? 10 then 48 + d else 87 + d.
Definition put_hex (buf : list Z) (value : Z) : list Z :=
  foldl (fun b i => put_char b (hex_digit (Z.land (Z.shiftr value (60 - 4 * Z.of_nat i)) 0xF))) (put_str buf (str "0x")) (seq 0 16).

(** An argument: a string, which can be null, or a number of 64 bits of which a conversion
    without [l] takes 32. *)
Inductive arg := Text (s : option (list Z)) | Num (n : Z).

(** One conversion; [None] is an argument that is missing or of another kind. *)
Definition convert (buf : list Z) (longs : nat) (c : Z) (args : list arg) : option (list Z * list arg) :=
  let wide := bool_decide (0 < longs)%nat in
  if c =? 115 then match args with Text s :: args => Some (put_str buf (or_null s), args) | _ => None end
  else if c =? 99 then match args with Num n :: args => Some (put_char buf (u8 n), args) | _ => None end
  else if (c =? 100) || (c =? 105) then match args with Num n :: args => Some (put_signed buf (if wide then i64 n else i32 n), args) | _ => None end
  else if c =? 117 then match args with Num n :: args => Some (put_dec buf (if wide then u64 n else u32 n), args) | _ => None end
  else if (c =? 120) || (c =? 88) then match args with Num n :: args => Some (put_hex buf (if wide then u64 n else u32 n), args) | _ => None end
  else if c =? 112 then match args with Num n :: args => Some (put_hex buf (u64 n), args) | _ => None end
  else if c =? 37 then Some (put_char buf 37, args)
  else Some (put_char (put_str (put_char buf 37) (replicate longs 108)) c, args).

(** [mode] is the number of [l] behind a percent sign.  A format that ends in a conversion is
    read past its end ([None]). *)
Fixpoint put_format (buf fmt : list Z) (mode : option nat) (args : list arg) : option (list Z) :=
  match fmt, mode with
  | [], None => Some buf
  | [], Some _ => None
  | c :: fmt, None =>
      if negb (Z.of_nat (length buf) + 1 <? KLOG_BUF_SIZE) then Some buf
      else if c =? 37 then put_format buf fmt (Some 0%nat) args else put_format (put_char buf c) fmt None args
  | c :: fmt, Some longs =>
      if c =? 108 then put_format buf fmt (Some (S longs)) args
      else '(buf, args) ← convert buf longs c args; put_format buf fmt None args
  end.

(** What is read of the processor and the clock. *)
Record moment := Moment { m_tsc : Z; m_ms : Z; m_ticks : Z; m_cpu : Z; m_cr3 : Z; m_rsp : Z; m_rflags : Z }.

Definition log_line (seq level : Z) (m : moment) (module file : option (list Z)) (line : Z) (function : option (list Z)) (fmt : list Z) (args : list arg) : option (list Z) :=
  let b := put_dec (put_str (put_str (put_char [] 91) (level_name level)) (str " L")) (u64 level) in
  let b := put_dec (put_str (put_char b 93) (str " #")) seq in
  let b := put_dec (put_str (put_dec (put_str b (str " t=")) (m_ms m)) (str "ms tick=")) (m_ticks m) in
  let b := put_hex (put_str (put_dec (put_str b (str " cpu=")) (m_cpu m)) (str " tsc=")) (m_tsc m) in
  let b := put_hex (put_str (put_hex (put_str b (str " cr3=")) (m_cr3 m)) (str " rsp=")) (m_rsp m) in
  let b := put_hex (put_str b (str " rflags=")) (m_rflags m) in
  let b := put_str (put_str b (str " ")) (default (str "kernel") module) in
  let b := put_dec (put_char (put_str (put_str b (str " ")) (default (str "?") file)) 58) (u64 line) in
  let b := put_str (put_str (put_str b (str " ")) (default (str "?") function)) (str "() ") in
  b ← put_format b fmt None args; Some (put_str b [10]).

(** ** Records *)

(** The new record replaces the oldest one when the ring is full; the second result is what
    is printed. *)
Definition klog_emit (s : klog) (m : moment) (level : Z) (module file : option (list Z)) (line : Z) (function : option (list Z)) (fmt : list Z) (args : list arg) :
    option (klog * list Z) :=
  if g_level s <? level then Some (s, [])
  else
    let seq := u64 (g_seq s + 1) in
    line ← log_line seq level m module file line function fmt args;
    let r := Record (c_string line) (u8 level) (take 23 (default (str "kernel") module)) in
    Some (Klog (g_level s) seq (<[Z.to_nat (ring_next s) := r]> (ring s)) ((ring_next s + 1) mod KLOG_RING_RECORDS)
            (if ring_count s <? KLOG_RING_RECORDS then ring_count s + 1 else ring_count s) (g_previous_log s), c_string line).

Definition klog_enter (s : klog) (m : moment) (module file : option (list Z)) (line : Z) (function : option (list Z)) : option (klog * list Z) :=
  klog_emit s m KLOG_L7_TRACE module file line function (str "ENTER") [].
Definition klog_leave (s : klog) (m : moment) (module file : option (list Z)) (line : Z) (function : option (list Z)) (result : Z) : option (klog * list Z) :=
  klog_emit s m KLOG_L7_TRACE module file line function (str "LEAVE result=%lld") [Num result].

(** ** Snapshots *)

Definition module_equal (a : list Z) (b : option (list Z)) : bool :=
  match b with None | Some [] => true | Some b => bool_decide (a = b) end.
Definition matches (min_level max_level : Z) (module : option (list Z)) (r : record) : bool :=
  negb ((kr_level r <? min_level) || (max_level <? kr_level r) || negb (module_equal (kr_module r) module)).

Definition first_record (s : klog) : Z := (ring_next s + KLOG_RING_RECORDS - ring_count s) mod KLOG_RING_RECORDS.

(** [n] more records, the first of them at distance [k] from the oldest one. *)
Fixpoint snapshot_loop (n : nat) (s : klog) (k : Z) (keep : record -> bool) (max_bytes : Z) (out : list Z) : list Z :=
  match n with
  | O => out
  | S n =>
      let r := at_z empty_record (ring s) ((first_record s + k) mod KLOG_RING_RECORDS) in
      if keep r then
        let out := out ++ take (Z.to_nat (max_bytes - 1) - length out) (kr_text r) in
        if max_bytes <=? Z.of_nat (length out) + 1 then out else snapshot_loop n s (k + 1) keep max_bytes out
      else snapshot_loop n s (k + 1) keep max_bytes out
  end.

(** The text; [None] is the result -1. *)
Definition klog_snapshot_filtered (s : klog) (max_bytes min_level max_level : Z) (module : option (list Z)) : option (list Z) :=
  if max_bytes <=? 1 then None
  else if (min_level <? KLOG_L1_FATAL) || (KLOG_L7_TRACE <? max_level) || (max_level <? min_level) then None
  else Some (snapshot_loop (Z.to_nat (ring_count s)) s 0 (matches min_level max_level module) max_bytes []).
Definition klog_snapshot (s : klog) (max_bytes : Z) : option (list Z) := klog_snapshot_filtered s max_bytes KLOG_L1_FATAL KLOG_L7_TRACE None.

(** ** Logs of earlier runs *)

Definition KLOG : path := str "/hdd/KLOG.TXT".
Definition KLOG1 : path := str "/hdd/KLOG1.TXT".
Definition KLOG2 : path := str "/hdd/KLOG2.TXT".
Definition KLOG3 : path := str "/hdd/KLOG3.TXT".

Section Persist.
Context {W : Type} `{FS : Files W}.

Definition rotate_log (w : W) (source destination : path) : W :=
  let '(w, size, data) := vfs_read w source PERSIST_SIZE in
  if 0 <? size then fst (vfs_write w destination (take (Z.to_nat size) data)) else w.

Definition klog_persist (w : W) (s : klog) : W * Z :=
  let w := rotate_log w KLOG2 KLOG3 in
  let w := rotate_log w KLOG1 KLOG2 in
  let w := rotate_log w KLOG KLOG1 in
  match klog_snapshot s PERSIST_SIZE with
  | None => (w, -1)
  | Some text =>
      let size := Z.of_nat (length text) in
      let '(w, written) := vfs_write w KLOG text in (w, if written =? size then size else -1)
  end.

Definition klog_load_persisted (w : W) (s : klog) : W * klog * Z :=
  let set previous := Klog (g_level s) (g_seq s) (ring s) (ring_next s) (ring_count s) previous in
  let '(w, size, data) := vfs_read w KLOG (PERSIST_SIZE - 1) in
  if size <? 0 then (w, set [], size) else (w, set (take (Z.to_nat size) data), size).
End Persist.

Definition klog_previous_snapshot (s : klog) (max_bytes : Z) : option (list Z) :=
  if max_bytes <=? 1 then None else Some (take (Z.to_nat (max_bytes - 1)) (g_previous_log s)).
