(* ===== verification/KlogSpec.v ===== *)
(** The kernel log: the ring holds the newest records, snapshots show them in order, and a log
    that was saved is found after a restart. *)
From Stdlib Require Import String.
From S2P Require Import Prelude Ring Pmm Vmm Files Syscall Klog.

(** ** The ring *)

(** The records, the oldest first. *)
Definition records (s : klog) : list record := cyclic empty_record KLOG_RING_RECORDS (ring s) (first_record s) (Z.to_nat (ring_count s)).

Record klog_ok (s : klog) : Prop := KlogOk {
  ko_ring : length (ring s) = 32%nat; ko_next : 0 <= ring_next s < 32; ko_count : 0 <= ring_count s <= 32;
  ko_text : Forall (fun r => Forall (fun c => c <> 0) (kr_text r) /\ (length (kr_text r) < 2048)%nat) (ring s)
}.

(** The state after storing a record. *)
Definition pushed (s : klog) (seq : Z) (r : record) : klog :=
  Klog (g_level s) seq (<[Z.to_nat (ring_next s) := r]> (ring s)) ((ring_next s + 1) mod KLOG_RING_RECORDS)
    (if ring_count s <? KLOG_RING_RECORDS then ring_count s + 1 else ring_count s) (g_previous_log s).

(** It goes behind the others, and the oldest goes when there are 32. *)
Lemma pushed_records s seq r : klog_ok s -> records (pushed s seq r) = latest 32 (records s ++ [r]).
Proof.
  intros [Hl Hn Hc _]. unfold records, first_record, pushed, KLOG_RING_RECORDS. cbn [ring ring_next ring_count].
  set (t := (ring_next s + 32 - ring_count s) mod 32). assert (Ht : 0 <= t < 32) by by apply Z.mod_pos_bound.
  assert (Hlen : forall q t n, length (cyclic empty_record 32 q t n) = n) by (intros; apply length_cyclic).
  destruct (Z.ltb_spec (ring_count s) 32) as [Hlt|Hge].
  - assert (E1 : ((ring_next s + 1) mod 32 + 32 - (ring_count s + 1)) mod 32 = t) by (unfold t; Z.to_euclidean_division_equations; lia).
    assert (E2 : ring_next s = (t + Z.of_nat (Z.to_nat (ring_count s))) mod 32) by (unfold t; rewrite Z2Nat.id by lia; Z.to_euclidean_division_equations; lia).
    rewrite E1. replace (Z.to_nat (ring_count s + 1)) with (S (Z.to_nat (ring_count s))) by lia. rewrite E2 at 1. rewrite cyclic_push by lia.
    rewrite latest_all; [done|]. rewrite length_app, Hlen. cbn. lia.
  - assert (E0 : ring_count s = 32) by lia. rewrite E0 in *. assert (E1 : t = ring_next s) by (unfold t; Z.to_euclidean_division_equations; lia).
    assert (E2 : ((ring_next s + 1) mod 32 + 32 - 32) mod 32 = (t + 1) mod 32) by (rewrite <-E1; Z.to_euclidean_division_equations; lia). rewrite E2.
    assert (E3 : ring_next s = ((t + 1) mod 32 + Z.of_nat 31) mod 32) by (rewrite <-E1; Z.to_euclidean_division_equations; lia).
    change (Z.to_nat 32) with 32%nat. rewrite E3 at 1. rewrite cyclic_push by lia. rewrite (cyclic_S _ 32 (ring s) t 31) by done.
    unfold latest. cbn [app length]. rewrite length_app, Hlen. reflexivity.
Qed.

(** ** Lines fit the buffer *)

Definition fits_buffer (b : list Z) : Prop := (length b < 2048)%nat.

Lemma put_char_fits b c : fits_buffer b -> fits_buffer (put_char b c).
Proof. unfold fits_buffer, put_char, KLOG_BUF_SIZE. intros H. destruct (Z.ltb_spec (Z.of_nat (length b) + 1) 2048); [|done]. rewrite length_app. cbn. lia. Qed.
Lemma put_str_fits s : forall b, fits_buffer b -> fits_buffer (put_str b s).
Proof. induction s as [|c s IH]; intros b H; [done|]. cbn [put_str foldl]. by apply IH, put_char_fits. Qed.
Lemma put_dec_fits b v : fits_buffer b -> fits_buffer (put_dec b v).
Proof. intros H. unfold put_dec. destruct (v =? 0); [by apply put_char_fits|by apply put_str_fits]. Qed.
Lemma put_hex_fits b v : fits_buffer b -> fits_buffer (put_hex b v).
Proof.
  intros H. unfold put_hex. pose proof (put_str_fits (str "0x") b H) as H1. revert H1. generalize (put_str b (str "0x")). induction (seq 0 16) as [|i l IH]; intros c Hc; [done|].
  cbn [foldl]. by apply IH, put_char_fits.
Qed.
Lemma put_signed_fits b v : fits_buffer b -> fits_buffer (put_signed b v).
Proof. intros H. unfold put_signed. destruct (v <? 0); [by apply put_dec_fits, put_char_fits|by apply put_dec_fits]. Qed.
#[local] Hint Resolve put_char_fits put_str_fits put_dec_fits put_hex_fits put_signed_fits : core.

Lemma convert_fits b longs c args b' args' : fits_buffer b -> convert b longs c args = Some (b', args') -> fits_buffer b'.
Proof.
  intros H. unfold convert. repeat case_match; intros [= <- _]; auto.
Qed.

Lemma put_format_fits fmt : forall b mode args b', fits_buffer b -> put_format b fmt mode args = Some b' -> fits_buffer b'.
Proof.
  induction fmt as [|c fmt IH]; intros b [longs|] args b' H; cbn [put_format]; try done.
  - by intros [= <-].
  - destruct (c =? 108); [by apply IH|]. destruct (convert b longs c args) as [[b1 args1]|] eqn:E; [|done]. cbn. apply IH. by eapply convert_fits.
  - destruct (negb _); [by intros [= <-]|]. destruct (c =? 37); apply IH; auto.
Qed.

Lemma log_line_fits seq level m module file line function fmt args b :
  log_line seq level m module file line function fmt args = Some b -> fits_buffer b.
Proof.
  unfold log_line. cbv zeta. destruct (put_format _ _ _ _) as [b'|] eqn:E; [|done]. cbn. intros [= <-].
  apply put_char_fits. eapply put_format_fits; [|exact E]. repeat first [apply put_char_fits | apply put_str_fits | apply put_dec_fits | apply put_hex_fits]. unfold fits_buffer. cbn. lia.
Qed.

(** ** Sequences of calls *)

Inductive op :=
| SetLevel (level : Z)
| Emit (m : moment) (level : Z) (module file : option (list Z)) (line : Z) (function : option (list Z)) (fmt : list Z) (args : list arg).

Definition step (s : klog) (o : op) : option klog :=
  match o with
  | SetLevel level => Some (klog_set_level s level)
  | Emit m level module file line function fmt args => fst <$> klog_emit s m level module file line function fmt args
  end.
Fixpoint run (s : klog) (l : list op) : option klog := match l with [] => Some s | o :: l => s ← step s o; run s l end.

(** All records that are made: those at most as verbose as the level set last, numbered. *)
Fixpoint logged (threshold seq : Z) (l : list op) : list record :=
  match l with
  | [] => []
  | SetLevel level :: l => logged (Z.min 7 (Z.max 1 level)) seq l
  | Emit m level module file line function fmt args :: l =>
      if threshold <? level then logged threshold seq l
      else
        let text := default [] (log_line (u64 (seq + 1)) level m module file line function fmt args) in
        Record (c_string text) (u8 level) (take 23 (default (str "kernel") module)) :: logged threshold (u64 (seq + 1)) l
  end.

Lemma c_string_nonzero l : Forall (fun c => c <> 0) (c_string l).
Proof.
  unfold c_string. destruct (span_len_spec (fun c => negb (c =? 0)) l) as (l1 & l2 & E & Hlen & Hf & _). rewrite <-Hlen, E, take_app_length.
  eapply Forall_impl; [exact Hf|]. intros c. cbn. rewrite negb_true_iff. lia.
Qed.

Lemma pushed_ok s seq r : klog_ok s -> Forall (fun c => c <> 0) (kr_text r) /\ (length (kr_text r) < 2048)%nat -> klog_ok (pushed s seq r).
Proof.
  intros [Hl Hn Hc Ht] Hr. unfold pushed, KLOG_RING_RECORDS. constructor; cbn [ring ring_next ring_count].
  - by rewrite length_insert.
  - by apply Z.mod_pos_bound.
  - destruct (Z.ltb_spec (ring_count s) 32); lia.
  - by apply Forall_insert.
Qed.

Lemma emit_cases s m level module file line function fmt args s' printed : klog_emit s m level module file line function fmt args = Some (s', printed) ->
  (g_level s < level /\ s' = s /\ printed = []) \/
  exists text, level <= g_level s /\ log_line (u64 (g_seq s + 1)) level m module file line function fmt args = Some text /\ printed = c_string text /\
    s' = pushed s (u64 (g_seq s + 1)) (Record (c_string text) (u8 level) (take 23 (default (str "kernel") module))).
Proof.
  unfold klog_emit. destruct (Z.ltb_spec (g_level s) level); [intros [= <- <-]; auto|]. destruct (log_line _ _ _ _ _ _ _ _ _) as [text|] eqn:E; [|done]. cbn.
  intros [= <- <-]. right. exists text. auto.
Qed.

(** Every call keeps the state well formed and adds its record. *)
Lemma run_records l : forall s s', klog_ok s -> run s l = Some s' -> klog_ok s' /\ records s' = latest 32 (records s ++ logged (g_level s) (g_seq s) l).
Proof.
  assert (Hmax : forall s, klog_ok s -> (length (records s) <= 32)%nat).
  { intros s [_ _ Hc _]. unfold records. rewrite length_cyclic. lia. }
  induction l as [|o l IH]; intros s s' Hs; cbn [run logged].
  { intros [= <-]. by rewrite app_nil_r, latest_all by auto. }
  destruct (step s o) as [s1|] eqn:E; [|done]. cbn. intros Hr. destruct o as [level|m level module file line function fmt args]; cbn [step] in E.
  - injection E as <-. destruct Hs as [H1 H2 H3 H4]. destruct (IH (klog_set_level s level) s') as [Ho Hrec]; [by constructor|done|]. split; [done|]. rewrite Hrec.
    f_equal. f_equal. cbn [klog_set_level g_level g_seq]. f_equal. unfold KLOG_L1_FATAL, KLOG_L7_TRACE.
    repeat case_match; lia.
  - destruct (klog_emit _ _ _ _ _ _ _ _ _) as [[s2 printed]|] eqn:Ee; [|done]. injection E as <-.
    apply emit_cases in Ee as [(Hlt & -> & _)|(text & Hle & Et & _ & ->)].
    + rewrite (proj2 (Z.ltb_lt _ _) Hlt). by apply IH.
    + rewrite (proj2 (Z.ltb_ge _ _) Hle), Et. cbn [default]. pose proof (log_line_fits _ _ _ _ _ _ _ _ _ _ Et) as Hf.
      set (r := Record _ _ _). assert (Hok : klog_ok (pushed s (u64 (g_seq s + 1)) r)).
      { apply pushed_ok; [done|]. split; [apply c_string_nonzero|]. cbn. unfold c_string. rewrite length_take. unfold fits_buffer in Hf. lia. }
      destruct (IH _ _ Hok Hr) as [Ho Hrec]. split; [done|]. rewrite Hrec, pushed_records by done. by rewrite latest_latest, <-app_assoc.
Qed.

(** ** Snapshots *)

Definition text_of (keep : record -> bool) (l : list record) : list Z := concat (map kr_text (List.filter keep l)).

Lemma snapshot_text n s keep max_bytes : klog_ok s -> 1 < max_bytes -> forall k out, Z.of_nat (length out) + 1 < max_bytes ->
  snapshot_loop n s k keep max_bytes out =
  take (Z.to_nat (max_bytes - 1)) (out ++ text_of keep (cyclic empty_record KLOG_RING_RECORDS (ring s) ((first_record s + k) mod KLOG_RING_RECORDS) n)).
Proof.
  intros Hs Hm. induction n as [|n IH]; intros k out Ho; cbn [snapshot_loop].
  { cbn. rewrite app_nil_r, take_ge by lia. done. }
  rewrite cyclic_S by by apply Z.mod_pos_bound. rewrite Zplus_mod_idemp_l, <-Z.add_assoc. unfold text_of. cbn [List.filter].
  set (r := at_z empty_record (ring s) _). destruct (keep r); [|by apply IH]. cbn [map concat]. fold (text_of keep (cyclic empty_record KLOG_RING_RECORDS (ring s) ((first_record s + (k + 1)) mod KLOG_RING_RECORDS) n)).
  rewrite app_assoc. destruct (Z.leb_spec max_bytes (Z.of_nat (length (out ++ take (Z.to_nat (max_bytes - 1) - length out) (kr_text r))) + 1)) as [Hge|Hlt];
    rewrite length_app, length_take in *.
  - rewrite take_app_le by (rewrite length_app; lia). rewrite take_app. f_equal. rewrite (take_ge out) by lia. done.
  - rewrite IH by (rewrite length_app, length_take; lia). do 2 f_equal. f_equal. rewrite take_ge by lia. done.
Qed.

Lemma klog_init_ok ring0 : length ring0 = 32%nat -> Forall (fun r => kr_text r = []) ring0 -> klog_ok (klog_init ring0) /\ records (klog_init ring0) = [].
Proof.
  intros Hl Ht. split; [|done]. constructor; cbn; try done. eapply Forall_impl; [exact Ht|]. cbn. intros r ->. split; [done|]. cbn. lia.
Qed.

(** After any sequence of messages and changes of the level, a snapshot is the text of the
    newest 32 records that were at most as verbose as the level of their time, in the order
    they were made, restricted to the levels and the module asked for, and cut to the size of
    the buffer less one. *)
Theorem klog_snapshot_newest ring0 l s max_bytes min_level max_level module text :
  length ring0 = 32%nat -> Forall (fun r => kr_text r = []) ring0 -> run (klog_init ring0) l = Some s ->
  klog_snapshot_filtered s max_bytes min_level max_level module = Some text ->
  text = take (Z.to_nat (max_bytes - 1)) (text_of (matches min_level max_level module) (latest 32 (logged KLOG_L5_INFO 0 l))).
Proof.
  intros Hl Ht Hr. destruct (klog_init_ok ring0 Hl Ht) as [Hi Hn]. destruct (run_records l _ _ Hi Hr) as [Hs Hrec]. rewrite Hn in Hrec. cbn [app g_level g_seq klog_init] in Hrec.
  unfold klog_snapshot_filtered. destruct (Z.leb_spec max_bytes 1); [done|]. destruct (_ || _ || _); [done|]. intros [= <-].
  rewrite snapshot_text by (done || cbn; lia). cbn [app]. f_equal. f_equal. rewrite <-Hrec. unfold records. rewrite Z.add_0_r. unfold first_record, KLOG_RING_RECORDS.
  by rewrite Z.mod_mod.
Qed.

(** ** Logs that were saved *)

Section Persist.
Context {W : Type} `{FS : Files W, FA : FrameAllocator W, HS : Https W} {FL : FilesLaws W}.

(** A snapshot with a smaller buffer is a shorter one. *)
Lemma snapshot_prefix s n m text : klog_ok s -> 1 < m <= n -> klog_snapshot s n = Some text -> klog_snapshot s m = Some (take (Z.to_nat (m - 1)) text).
Proof.
  intros Hs Hm. unfold klog_snapshot, klog_snapshot_filtered. destruct (Z.leb_spec n 1); [lia|]. destruct (Z.leb_spec m 1); [lia|].
  cbn -[Z.of_nat snapshot_loop]. intros [= <-]. f_equal. rewrite !snapshot_text by (done || cbn; lia). cbn [app]. rewrite take_take. f_equal. lia.
Qed.

Lemma snapshot_length s n text : klog_ok s -> klog_snapshot s n = Some text -> Z.of_nat (length text) <= n - 1.
Proof.
  intros Hs. unfold klog_snapshot, klog_snapshot_filtered. destruct (Z.leb_spec n 1); [done|]. cbn -[Z.of_nat snapshot_loop]. intros [= <-].
  rewrite snapshot_text by (done || cbn; lia). rewrite length_take. lia.
Qed.

(** [older] has the contents [newer] had, or stays as it is. *)
Definition moved (w w' : W) (older newer : path) : Prop :=
  content w' older = content w older \/ exists c, content w newer = Some c /\ content w' older = Some (take (Z.to_nat PERSIST_SIZE) c).

(** No third file changes. *)
Lemma rotate_log_content w source destination : source <> destination ->
  let w' := rotate_log w source destination in
  (forall q, q <> destination -> content w' q = content w q) /\
  moved w w' destination source.
Proof.
  intros Hne. unfold rotate_log. destruct (vfs_read w source PERSIST_SIZE) as [[w1 size] data] eqn:Er. destruct (read_law _ _ _ _ _ _ Er) as [Hsame Hread].
  destruct (Z.ltb_spec 0 size) as [Hpos|]; [|split; [auto|left; auto]]. destruct (Hread Hpos) as (c & Hc & -> & Hsize). rewrite take_ge by lia.
  destruct (vfs_write w1 destination _) as [w2 rc] eqn:Ew. destruct (write_law _ _ _ _ _ Ew) as (Hother & Hok & Hfail). cbn [fst]. split.
  - intros q Hq. by rewrite Hother, Hsame.
  - destruct (decide (rc = Z.of_nat (length (take (Z.to_nat PERSIST_SIZE) c)))) as [E|E]; [right; eauto|left; by rewrite Hfail, Hsame].
Qed.

(** Saving moves each of the older logs one place, or leaves it where it cannot be read or
    written, and touches no other file; on success the newest one is the snapshot. *)
Theorem klog_persist_rotates w s w' n : klog_persist w s = (w', n) ->
  (forall q, q <> KLOG -> q <> KLOG1 -> q <> KLOG2 -> q <> KLOG3 -> content w' q = content w q) /\
  moved w w' KLOG3 KLOG2 /\ moved w w' KLOG2 KLOG1 /\ moved w w' KLOG1 KLOG /\
  (0 <= n -> exists text, klog_snapshot s PERSIST_SIZE = Some text /\ content w' KLOG = Some text).
Proof.
  unfold klog_persist. cbv zeta. set (w1 := rotate_log w KLOG2 KLOG3). set (w2 := rotate_log w1 KLOG1 KLOG2). set (w3 := rotate_log w2 KLOG KLOG1).
  destruct (rotate_log_content w KLOG2 KLOG3) as [A1 B1]; [done|]. destruct (rotate_log_content w1 KLOG1 KLOG2) as [A2 B2]; [done|].
  destruct (rotate_log_content w2 KLOG KLOG1) as [A3 B3]; [done|]. fold w1 in A1, B1. fold w2 in A2, B2. fold w3 in A3, B3.
  assert (H3 : content w3 KLOG3 = content w1 KLOG3) by (rewrite A3, A2; done). assert (H2 : content w3 KLOG2 = content w2 KLOG2) by (rewrite A3; done).
  assert (Hold : moved w w3 KLOG3 KLOG2 /\ moved w w3 KLOG2 KLOG1 /\ moved w w3 KLOG1 KLOG).
  { unfold moved in *. rewrite H3, H2. rewrite !A1 in B2 by done. rewrite !A2, !A1 in B3 by done. done. }
  destruct (klog_snapshot s PERSIST_SIZE) as [text|] eqn:Es.
  - destruct (vfs_write w3 KLOG text) as [w4 written] eqn:Ew. destruct (write_law _ _ _ _ _ Ew) as (Ho & Hok & _). intros [= <- <-]. split_and!.
    + intros q Q0 Q1 Q2 Q3. by rewrite Ho, A3, A2, A1.
    + unfold moved in *. rewrite Ho by done. apply Hold.
    + unfold moved in *. rewrite Ho by done. apply Hold.
    + unfold moved in *. rewrite Ho by done. apply Hold.
    + intros Hn. destruct (Z.eqb_spec written (Z.of_nat (length text))); [|lia]. exists text. split; [done|]. by apply Hok.
  - intros [= <- <-]. split_and!; try apply Hold; [|lia]. intros q Q0 Q1 Q2 Q3. by rewrite A3, A2, A1.
Qed.

(** What was saved is shown after a restart, as far as the buffer reaches. *)
Theorem klog_survives_restart w s w' n s0 w2 s2 r max_bytes : klog_ok s -> klog_persist w s = (w', n) -> 0 <= n ->
  klog_load_persisted w' s0 = (w2, s2, r) -> 0 < r -> 1 < max_bytes <= PERSIST_SIZE -> klog_previous_snapshot s2 max_bytes = klog_snapshot s max_bytes.
Proof.
  intros Hs Hp Hn. destruct (klog_persist_rotates w s w' n Hp) as (_ & _ & _ & _ & H). destruct (H Hn) as (text & Et & Hc). unfold klog_load_persisted. cbv zeta.
  destruct (vfs_read w' KLOG (PERSIST_SIZE - 1)) as [[w3 size] data] eqn:Er. destruct (read_law _ _ _ _ _ _ Er) as [_ Hread].
  destruct (Z.ltb_spec size 0); intros [= <- <- <-] Hr Hm; [lia|]. destruct (Hread Hr) as (c & Hc' & -> & Hsize). rewrite Hc in Hc'. injection Hc' as <-.
  pose proof (snapshot_length s _ text Hs Et) as Hlen. rewrite (take_ge text) in * by lia. rewrite (snapshot_prefix s PERSIST_SIZE max_bytes text Hs Hm Et).
  unfold klog_previous_snapshot. destruct (Z.leb_spec max_bytes 1); [lia|]. cbn [g_previous_log]. rewrite (take_ge text (Z.to_nat size)) by lia. done.
Qed.
End Persist.

(** ** Formatting *)

(** The digits are those of the number. *)
Lemma dec_digits_value n v : 0 <= v < 10 ^ Z.of_nat n -> foldr (fun d acc => (d - 48) + 10 * acc) 0 (dec_digits n v) = v.
Proof.
  revert v. induction n as [|n IH]; intros v Hv; cbn [dec_digits]; [rewrite Z.pow_0_r in Hv; cbn; lia|]. destruct (Z.eqb_spec v 0) as [->|Hne]; [done|].
  cbn [foldr]. rewrite Nat2Z.inj_succ, Z.pow_succ_r in Hv by lia. rewrite IH; Z.to_euclidean_division_equations; lia.
Qed.

(** A format that ends in a percent sign is read past its end. *)
Theorem format_overrun : put_format [] (str "100%") None [] = None /\ put_format [] (str "100%%") None [] = Some (str "100%").
Proof. vm_compute. done. Qed.

(** One message and its snapshot. *)
Definition demo_log : option klog :=
  run (klog_init (replicate 32 empty_record)) [SetLevel 6; Emit (Moment 0 12 1 0 0 0 0) 6 (Some (str "vfs")) None 7 None (str "read %d of %s") [Num (-1); Text None]].

Example demo_snapshot : (s ← demo_log; klog_snapshot_filtered s 300 1 7 (Some (str "vfs"))) =
  Some (str "[DEBUG L6] #1 t=12ms tick=1 cpu=0 tsc=0x0000000000000000 cr3=0x0000000000000000 rsp=0x0000000000000000 rflags=0x0000000000000000 vfs ?:7 ?() read -1 of (null)" ++ [10]).
Proof. vm_compute. reflexivity. Qed.
