(* ===== verification/Random.v ===== *)
(** Random numbers: [kernel/random.c].

    The generator and the hash function are of the external BearSSL library and the words of
    the hardware source come from the processor: both are interfaces.  The lock and the
    interrupt flag make each operation one step. *)
From Stdlib Require Import String.
From S2P Require Import Prelude Pmm Vmm Files.

(** HMAC-DRBG over SHA-256 and SHA-256: [br_hmac_drbg_*] and [br_sha256_*]. *)
Class Drbg (D H : Type) := {
  drbg_init : list Z -> D; drbg_update : D -> list Z -> D; drbg_generate : D -> Z -> D * list Z;
  sha_init : H; sha_update : H -> list Z -> H; sha_out : H -> list Z
}.

(** One attempt of [rdseed] or [rdrand]: the word, or the carry flag is clear; and the time
    stamp counter.  The features are those [cpuid] reports. *)
Class Hardware (W : Type) := { hw_try : W -> bool -> W * option Z; hw_tsc : W -> W * Z; cpu_rdseed : W -> bool; cpu_rdrand : W -> bool }.

Definition RANDOM_RESEED_INTERVAL : Z := 1024 * 1024.
Definition RANDOM_SEED_PATH : path := str "/hdd/RNGSEED.BIN".
Definition SEED_MAGIC : list Z := str "KRNGSEED".
Definition SEED_RECORD : Z := 80.

Section Random.
Context {D H : Type} `{DR : Drbg D H}.
Context {W : Type} `{HW : Hardware W, FS : Files W}.

Record rng := Rng {
  g_drbg : D; g_entropy_pool : H; g_random_ready : bool; g_has_rdseed : bool; g_has_rdrand : bool; g_bytes_since_reseed : Z; g_generated_bytes : Z;
  g_reseed_count : Z; g_last_hw_word : Z; g_entropy_bits : Z; g_health_failures : Z; g_last_hw_valid : bool; g_pool_ready : bool; g_seed_generation : Z
}.

Definition set_drbg (s : rng) (d : D) : rng := Rng d (g_entropy_pool s) (g_random_ready s) (g_has_rdseed s) (g_has_rdrand s) (g_bytes_since_reseed s)
  (g_generated_bytes s) (g_reseed_count s) (g_last_hw_word s) (g_entropy_bits s) (g_health_failures s) (g_last_hw_valid s) (g_pool_ready s) (g_seed_generation s).
Definition set_pool (s : rng) (h : H) (bits : Z) : rng := Rng (g_drbg s) h (g_random_ready s) (g_has_rdseed s) (g_has_rdrand s) (g_bytes_since_reseed s)
  (g_generated_bytes s) (g_reseed_count s) (g_last_hw_word s) bits (g_health_failures s) (g_last_hw_valid s) (g_pool_ready s) (g_seed_generation s).
Definition set_counts (s : rng) (since generated reseeds : Z) : rng := Rng (g_drbg s) (g_entropy_pool s) (g_random_ready s) (g_has_rdseed s) (g_has_rdrand s) since
  generated reseeds (g_last_hw_word s) (g_entropy_bits s) (g_health_failures s) (g_last_hw_valid s) (g_pool_ready s) (g_seed_generation s).
Definition set_health (s : rng) (word failures : Z) (valid : bool) : rng := Rng (g_drbg s) (g_entropy_pool s) (g_random_ready s) (g_has_rdseed s) (g_has_rdrand s)
  (g_bytes_since_reseed s) (g_generated_bytes s) (g_reseed_count s) word (g_entropy_bits s) failures valid (g_pool_ready s) (g_seed_generation s).
Definition set_generation (s : rng) (g : Z) : rng := Rng (g_drbg s) (g_entropy_pool s) (g_random_ready s) (g_has_rdseed s) (g_has_rdrand s) (g_bytes_since_reseed s)
  (g_generated_bytes s) (g_reseed_count s) (g_last_hw_word s) (g_entropy_bits s) (g_health_failures s) (g_last_hw_valid s) (g_pool_ready s) g.
Definition set_ready (s : rng) (ready : bool) : rng := Rng (g_drbg s) (g_entropy_pool s) ready (g_has_rdseed s) (g_has_rdrand s) (g_bytes_since_reseed s)
  (g_generated_bytes s) (g_reseed_count s) (g_last_hw_word s) (g_entropy_bits s) (g_health_failures s) (g_last_hw_valid s) (g_pool_ready s) (g_seed_generation s).

(** ** The hardware source *)

(** Up to [n] attempts; a word equal to the one before is a failure. *)
Fixpoint hw_word_loop (n : nat) (w : W) (s : rng) : W * rng * option Z :=
  match n with
  | O => (w, s, None)
  | S n =>
      if negb (g_has_rdseed s || g_has_rdrand s) then (w, s, None)
      else
        let '(w, o) := hw_try w (g_has_rdseed s) in
        match o with
        | None => hw_word_loop n w s
        | Some value =>
            if g_last_hw_valid s && (value =? g_last_hw_word s) then (w, set_health s (g_last_hw_word s) (u32 (g_health_failures s + 1)) true, None)
            else (w, set_health s value (g_health_failures s) true, Some value)
        end
  end.
Definition random_hw_word (w : W) (s : rng) : W * rng * option Z := hw_word_loop 16 w s.

(** [n] words as bytes. *)
Fixpoint seed_words (n : nat) (w : W) (s : rng) : W * rng * option (list Z) :=
  match n with
  | O => (w, s, Some [])
  | S n =>
      let '(w, s, o) := random_hw_word w s in
      match o with
      | None => (w, s, None)
      | Some word => let '(w, s, rest) := seed_words n w s in (w, s, (fun l => le_put 8 word ++ l) <$> rest)
      end
  end.

Definition random_mix_pool_locked (s : rng) : rng :=
  let digest := sha_out (g_entropy_pool s) in
  set_pool (set_drbg s (drbg_update (g_drbg s) digest)) (sha_update sha_init digest) 0.

Definition random_reseed_locked (w : W) (s : rng) : W * rng * Z :=
  let '(w, s, seed) := seed_words 6 w s in
  let s := match seed with Some seed => set_drbg s (drbg_update (g_drbg s) seed) | None => s end in
  let have_hardware := match seed with Some _ => true | None => false end in
  let have_pool := 256 <=? g_entropy_bits s in
  let s := if have_pool then random_mix_pool_locked s else s in
  if negb have_hardware && negb have_pool then (w, s, -1) else (w, set_counts s 0 (g_generated_bytes s) (u64 (g_reseed_count s + 1)), 0).

(** The samples go to the pool, and each bit is counted. *)
Fixpoint health_samples (n : nat) (w : W) (s : rng) (ones : list Z) : W * rng * option (list Z) :=
  match n with
  | O => (w, s, Some ones)
  | S n =>
      let '(w, s, o) := random_hw_word w s in
      match o with
      | None => (w, s, None)
      | Some word =>
          let s := set_pool s (sha_update (g_entropy_pool s) (le_put 8 word)) (g_entropy_bits s) in
          health_samples n w s (imap (fun i x => x + b2z (Z.testbit word (Z.of_nat i))) ones)
      end
  end.
Definition count_ok (x : Z) : bool := negb ((x <? 8) || (56 <? x)).

Definition random_hardware_health_test (w : W) (s : rng) : W * rng * Z :=
  let '(w, s, o) := health_samples 64 w s (replicate 64 0) in
  match o with
  | None => (w, s, -1)
  | Some ones => if forallb count_ok ones then (w, s, 0) else (w, set_health s (g_last_hw_word s) (u32 (g_health_failures s + 1)) (g_last_hw_valid s), -1)
  end.

(** ** Operations *)

(** Messages to the console are left out. *)
Definition random_init (w : W) (s : rng) : W * rng * Z :=
  let s := Rng (g_drbg s) sha_init (g_random_ready s) (cpu_rdseed w) (cpu_rdrand w) (g_bytes_since_reseed s) 0 0 (g_last_hw_word s) 0 0 false true 0 in
  if negb (g_has_rdseed s || g_has_rdrand s) then (w, s, -1)
  else
    let '(w, s, healthy) := random_hardware_health_test w s in
    if negb (healthy =? 0) then (w, s, -1)
    else
      let '(w, s, seed) := seed_words 6 w s in
      match seed with
      | None => (w, s, -1)
      | Some seed =>
          let s := set_pool (set_drbg s (drbg_init seed)) (sha_update (g_entropy_pool s) seed) (g_entropy_bits s) in
          (w, set_counts (set_ready s true) 0 (g_generated_bytes s) (g_reseed_count s), 0)
      end.

Definition random_is_ready (s : rng) : bool := g_random_ready s.

(** Result and bytes. *)
Definition random_bytes (w : W) (s : rng) (null : bool) (size : Z) : W * rng * Z * list Z :=
  if null || (size =? 0) || negb (g_random_ready s) then (w, s, -1, [])
  else
    let '(w, s, ok) :=
      if (RANDOM_RESEED_INTERVAL <=? g_bytes_since_reseed s) || (256 <=? g_entropy_bits s) then random_reseed_locked w s else (w, s, 0) in
    if negb (ok =? 0) then (w, s, -1, [])
    else
      let '(d, out) := drbg_generate (g_drbg s) size in
      let s := set_drbg s d in
      (w, set_counts s (u64 (g_bytes_since_reseed s + size)) (u64 (g_generated_bytes s + size)) (g_reseed_count s), 0, out).

(** ** The seed that is kept *)

(** [random_seed_file_t]: magic, generation, seed, and the digest of these. *)
Definition seed_head (generation : Z) (seed : list Z) : list Z := SEED_MAGIC ++ le_put 8 generation ++ seed.
Definition random_seed_digest (head : list Z) : list Z := sha_out (sha_update sha_init head).

Definition random_save_persistent_seed (w : W) (s : rng) : W * rng * Z :=
  if negb (g_random_ready s) then (w, s, -1)
  else
    let s := set_generation s (u64 (g_seed_generation s + 1)) in
    let generation := g_seed_generation s in
    let '(w, s, rc, seed) := random_bytes w s false 32 in
    if negb (rc =? 0) then (w, s, -1)
    else
      let head := seed_head generation seed in
      let '(w, written) := vfs_write w RANDOM_SEED_PATH (head ++ random_seed_digest head) in
      (w, s, if written =? SEED_RECORD then 0 else -1).

Definition random_load_persistent_seed (w : W) (s : rng) : W * rng * Z :=
  if negb (g_random_ready s) then (w, s, -1)
  else
    let '(w, size, r) := vfs_read w RANDOM_SEED_PATH SEED_RECORD in
    if negb (size =? SEED_RECORD) then random_save_persistent_seed w s
    else if negb (bool_decide (take 8 r = SEED_MAGIC)) || negb (bool_decide (drop 48 r = random_seed_digest (take 48 r))) then (w, s, -1)
    else
      let seed := take 32 (drop 16 r) in
      let generation := take 8 (drop 8 r) in
      let s := set_drbg s (drbg_update (g_drbg s) seed) in
      let s := set_pool s (sha_update (sha_update (g_entropy_pool s) generation) seed) (g_entropy_bits s) in
      let s := set_counts (set_generation s (le_get generation)) (g_bytes_since_reseed s) (g_generated_bytes s) (u64 (g_reseed_count s + 1)) in
      random_save_persistent_seed w s.

Definition random_add_entropy (w : W) (s : rng) (null : bool) (data : list Z) (estimated_bits : Z) : W * rng :=
  if null || (length data =? 0)%nat || negb (g_pool_ready s) then (w, s)
  else
    let '(w, tsc) := hw_tsc w in
    let bits := if 32 <? estimated_bits then 32 else estimated_bits in
    (w, set_pool s (sha_update (sha_update (g_entropy_pool s) (le_put 8 tsc)) data)
          (if 512 <? g_entropy_bits s + bits then 512 else g_entropy_bits s + bits)).

(** Generated bytes, reseeds, bits and failures. *)
Definition random_get_status (s : rng) : Z * Z * Z * Z := (g_generated_bytes s, g_reseed_count s, g_entropy_bits s, g_health_failures s).
End Random.
