(* ===== verification/RandomSpec.v ===== *)
(** Random numbers: nothing is generated before the source passed its test, the generator is
    reseeded in time, and a seed that is kept is used once. *)
From Stdlib Require Import String.
From S2P Require Import Prelude Pmm Vmm Files Random.

(** What the generator and the hash function promise of sizes. *)
Class DrbgLaws (D H : Type) `{DR : Drbg D H} := {
  generate_length (d : D) n : 0 <= n -> Z.of_nat (length (snd (drbg_generate d n))) = n;
  generate_bytes (d : D) n : Forall (fun b => 0 <= b < 256) (snd (drbg_generate d n));
  digest_length (h : H) : length (sha_out h) = 32%nat
}.

Section Spec.
Context {D H : Type} `{DR : Drbg D H} {DL : DrbgLaws D H}.
Context {W : Type} `{HW : Hardware W, FS : Files W, FA : FrameAllocator W, HS : Https W} {FL : FilesLaws W}.
Implicit Types (s : rng (D := D) (H := H)) (w : W).

(** ** Words of the hardware *)

(** What reading words leaves alone. *)
Definition same_but_health s s' : Prop :=
  g_drbg s' = g_drbg s /\ g_entropy_pool s' = g_entropy_pool s /\ g_random_ready s' = g_random_ready s /\ g_bytes_since_reseed s' = g_bytes_since_reseed s /\
  g_generated_bytes s' = g_generated_bytes s /\ g_reseed_count s' = g_reseed_count s /\ g_entropy_bits s' = g_entropy_bits s /\ g_pool_ready s' = g_pool_ready s /\
  g_seed_generation s' = g_seed_generation s /\ g_has_rdseed s' = g_has_rdseed s /\ g_has_rdrand s' = g_has_rdrand s.

Lemma same_refl s : same_but_health s s.
Proof. done. Qed.
Lemma same_trans s1 s2 s3 : same_but_health s1 s2 -> same_but_health s2 s3 -> same_but_health s1 s3.
Proof. unfold same_but_health. intuition congruence. Qed.
Hint Resolve same_refl : core.

(** A word that is returned differs from the last one. *)
Lemma hw_word_new n : forall w s w' s' o, hw_word_loop n w s = (w', s', o) -> same_but_health s s' /\
  forall word, o = Some word -> g_last_hw_word s' = word /\ g_last_hw_valid s' = true /\ (g_last_hw_valid s = true -> word <> g_last_hw_word s).
Proof.
  induction n as [|n IH]; intros w s w' s' o; cbn [hw_word_loop]; [by intros [= <- <- <-]|]. destruct (negb _); [by intros [= <- <- <-]|].
  destruct (hw_try w (g_has_rdseed s)) as [w1 [value|]]; [|apply IH]. destruct (g_last_hw_valid s) eqn:Ev; cbn [andb].
  - destruct (Z.eqb_spec value (g_last_hw_word s)); intros [= <- <- <-]; (split; [done|]); [done|]. by intros ? [= <-].
  - intros [= <- <- <-]. split; [done|]. by intros ? [= <-].
Qed.

(** No two words in a row are equal, the one before the first included. *)
Fixpoint no_repeat (last : option Z) (l : list Z) : Prop :=
  match l with [] => True | x :: l => last <> Some x /\ no_repeat (Some x) l end.
Definition last_word s : option Z := if g_last_hw_valid s then Some (g_last_hw_word s) else None.

Lemma hw_word_last w s w' s' word : random_hw_word w s = (w', s', Some word) -> same_but_health s s' /\ last_word s' = Some word /\ last_word s <> Some word.
Proof.
  intros E. destruct (hw_word_new _ _ _ _ _ _ E) as [Hs Hw]. destruct (Hw _ eq_refl) as (H1 & H2 & H3). split; [done|]. unfold last_word. rewrite H1, H2.
  split; [done|]. destruct (g_last_hw_valid s); [|done]. intros [= Hx]. by apply (H3 eq_refl).
Qed.

Lemma seed_words_new n : forall w s w' s' o, seed_words n w s = (w', s', o) -> same_but_health s s' /\
  forall seed, o = Some seed -> exists words, length words = n /\ no_repeat (last_word s) words /\ seed = flat_map (le_put 8) words.
Proof.
  induction n as [|n IH]; intros w s w' s' o; cbn [seed_words]; [intros [= <- <- <-]; split; [done|]; intros ? [= <-]; by exists []|].
  destruct (random_hw_word w s) as [[w1 s1] [word|]] eqn:E.
  - destruct (hw_word_last _ _ _ _ _ E) as (Hs1 & Hl & Hne). destruct (seed_words n w1 s1) as [[w2 s2] rest] eqn:E2. destruct (IH _ _ _ _ _ E2) as [Hs2 Hr].
    intros [= <- <- <-]. split; [by eapply same_trans|]. intros seed. destruct rest as [rest|]; [|done]. cbn. intros [= <-]. destruct (Hr _ eq_refl) as (words & Hn & Hrep & ->).
    exists (word :: words). cbn. rewrite Hl in Hrep. auto.
  - intros [= <- <- <-]. split; [|done]. by apply (hw_word_new _ _ _ _ _ _ E).
Qed.

(** ** The test of the source *)

(** How many of the words have a bit. *)
Definition ones_of (bit : nat) (words : list Z) : Z := zsum (fun x => b2z (Z.testbit x (Z.of_nat bit))) words.

Lemma imap_add (f g : nat -> Z) l : imap (fun i x => x + g i) (imap (fun i x => x + f i) l) = imap (fun i x => x + (f i + g i)) l.
Proof. apply list_eq. intros i. rewrite !list_lookup_imap. destruct (l !! i); cbn; [|done]. f_equal. lia. Qed.
Lemma imap_zero l : imap (fun _ x => x + 0) l = l.
Proof. apply list_eq. intros i. rewrite list_lookup_imap. destruct (l !! i); cbn; [|done]. f_equal. lia. Qed.

Lemma health_samples_words n : forall w s ones w' s' o, health_samples n w s ones = (w', s', o) ->
  g_random_ready s' = g_random_ready s /\ g_drbg s' = g_drbg s /\ g_entropy_bits s' = g_entropy_bits s /\
  forall final, o = Some final -> exists words, length words = n /\ no_repeat (last_word s) words /\
    g_entropy_pool s' = foldl sha_update (g_entropy_pool s) (map (le_put 8) words) /\ final = imap (fun i x => x + ones_of i words) ones.
Proof.
  induction n as [|n IH]; intros w s ones w' s' o; cbn [health_samples].
  { intros [= <- <- <-]. split_and!; try done. intros ? [= <-]. exists []. split_and!; try done. by rewrite imap_zero. }
  destruct (random_hw_word w s) as [[w1 s1] [word|]] eqn:E.
  - destruct (hw_word_last _ _ _ _ _ E) as (Hs1 & Hl & Hne). intros E2. apply IH in E2 as (Hr & Hd & Hb & Hw). cbn [set_pool g_random_ready g_drbg g_entropy_pool g_entropy_bits] in *.
    destruct Hs1 as (Q1 & Q2 & Q3 & _ & _ & _ & Q7 & _). split_and!; try congruence.
    intros final Hf. destruct (Hw _ Hf) as (words & Hn & Hrep & Hp & ->). exists (word :: words). cbn [length map foldl no_repeat].
    change (last_word (set_pool s1 _ _)) with (last_word s1) in Hrep. rewrite Hl in Hrep. rewrite Hp, Q2. split_and!; try done; [congruence|].
    rewrite imap_add. done.
  - intros [= <- <- <-]. destruct (hw_word_new _ _ _ _ _ _ E) as [Hs _]. destruct Hs as (Q1 & Q2 & Q3 & _ & _ & _ & Q7 & _). done.
Qed.

(** A source passes with 64 words, no two in a row equal, of which each bit is set in 8 to 56. *)
Definition healthy (words : list Z) : Prop :=
  length words = 64%nat /\ no_repeat None words /\ forall bit, (bit < 64)%nat -> 8 <= ones_of bit words <= 56.

Lemma health_test_sound w s w' s' : last_word s = None -> random_hardware_health_test w s = (w', s', 0) ->
  g_random_ready s' = g_random_ready s /\ g_entropy_bits s' = g_entropy_bits s /\
  exists words, healthy words /\ g_entropy_pool s' = foldl sha_update (g_entropy_pool s) (map (le_put 8) words).
Proof.
  intros Hn. unfold random_hardware_health_test. destruct (health_samples 64 w s (replicate 64 0)) as [[w1 s1] o] eqn:E.
  apply health_samples_words in E as (Hr & _ & Hb & Hw). destruct o as [ones|]; [|done]. destruct (forallb count_ok ones) eqn:Ec; [|done]. intros [= <- <-].
  destruct (Hw _ eq_refl) as (words & Hl & Hrep & Hp & ->). split_and!; try done. exists words. split; [|done]. rewrite Hn in Hrep. split_and!; try done.
  intros bit Hbit. rewrite forallb_forall in Ec. specialize (Ec (ones_of bit words)). unfold count_ok in Ec. rewrite negb_true_iff in Ec.
  assert (Hin : In (ones_of bit words) (imap (fun i x => x + ones_of i words) (replicate 64 0))).
  { apply list_elem_of_In, list_elem_of_lookup. exists bit. rewrite list_lookup_imap, lookup_replicate_2 by done. done. }
  specialize (Ec Hin). lia.
Qed.

(** The generator becomes ready exactly when the start-up succeeds, and then the source has
    passed its test and six further words seed the generator. *)
Theorem random_init_healthy w s w' s' rc : random_init w s = (w', s', rc) ->
  (rc = 0 /\ g_random_ready s' = true /\ g_bytes_since_reseed s' = 0 /\ exists words seed, healthy words /\ length seed = 6%nat /\
    g_drbg s' = drbg_init (flat_map (le_put 8) seed) /\
    g_entropy_pool s' = sha_update (foldl sha_update sha_init (map (le_put 8) words)) (flat_map (le_put 8) seed)) \/
  (rc = -1 /\ g_random_ready s' = g_random_ready s).
Proof.
  unfold random_init. cbv zeta. set (s0 := Rng _ _ _ _ _ _ _ _ _ _ _ _ _ _). destruct (negb _); [intros [= <- <- <-]; right; done|].
  destruct (random_hardware_health_test w s0) as [[w1 s1] h] eqn:E. destruct (Z.eqb_spec h 0) as [->|Hne]; cbn [negb].
  - destruct (health_test_sound w s0 w1 s1 eq_refl E) as (Hr & Hb & words & Hw & Hp). destruct (seed_words 6 w1 s1) as [[w2 s2] o] eqn:E2.
    apply seed_words_new in E2 as [Hs Hseed]. destruct Hs as (Q1 & Q2 & Q3 & _). destruct o as [seed|]; [|intros [= <- <- <-]; right; split; [done|]; by rewrite Q3, Hr].
    intros [= <- <- <-]. left. destruct (Hseed _ eq_refl) as (sw & Hl & _ & ->). split_and!; try done. exists words, sw. cbn. rewrite Q2, Hp. done.
  - intros [= <- <- <-]. right. split; [done|]. revert E. unfold random_hardware_health_test. destruct (health_samples 64 w s0 _) as [[w2 s2] o] eqn:E2.
    apply health_samples_words in E2 as (Hr & _). destruct o as [ones|]; [destruct (forallb _ _)|]; intros [= <- <- <-]; done.
Qed.

(** ** Random bytes *)

Record rng_ok s : Prop := RngOk { ro_bits : 0 <= g_entropy_bits s <= 512; ro_since : 0 <= g_bytes_since_reseed s < 2 ^ 63 }.

(** The generator with what a reseeding mixes in: six words of the hardware, the pool, or
    both; the pool only with 256 bits. *)
Definition mixed s (seed : option (list Z)) : D :=
  let d := match seed with Some seed => drbg_update (g_drbg s) seed | None => g_drbg s end in
  if 256 <=? g_entropy_bits s then drbg_update d (sha_out (g_entropy_pool s)) else d.

Lemma reseed_correct w s w' s' rc : rng_ok s -> random_reseed_locked w s = (w', s', rc) ->
  g_random_ready s' = g_random_ready s /\ g_generated_bytes s' = g_generated_bytes s /\ g_seed_generation s' = g_seed_generation s /\
  ((rc = 0 /\ g_bytes_since_reseed s' = 0 /\ rng_ok s' /\ exists seed, (seed <> None \/ 256 <= g_entropy_bits s) /\ g_drbg s' = mixed s seed) \/
   (rc = -1 /\ g_drbg s' = g_drbg s /\ g_bytes_since_reseed s' = g_bytes_since_reseed s /\ g_entropy_bits s' < 256 /\ rng_ok s')).
Proof.
  intros [Hb Hs]. unfold random_reseed_locked. destruct (seed_words 6 w s) as [[w1 s1] seed] eqn:E. apply seed_words_new in E as [Q _].
  destruct Q as (Q1 & Q2 & Q3 & Q4 & Q5 & Q6 & Q7 & Q8 & Q9 & _). cbv zeta. unfold mixed. rewrite <-Q7, <-Q1, <-Q2.
  destruct seed as [seed|]; cbn [negb andb g_entropy_bits set_drbg]; destruct (Z.leb_spec 256 (g_entropy_bits s1)); intros [= <- <- <-]; cbn; (split_and!; [done..|]).
  all: try (left; split_and!; [done|done|constructor; cbn; lia|]; first [exists (Some seed) | exists None]; split; [auto|]; unfold mixed; cbn; by rewrite ?(proj2 (Z.leb_le _ _)), ?(proj2 (Z.leb_gt _ _)) by lia).
  right. split_and!; try done; constructor; lia.
Qed.

(** Random bytes are never given out before the generator is ready; those that are given out
    come from the generator, which has been reseeded with words of the hardware or with 256
    bits of the pool when 1 MiB had been generated since the last time, and they have the size
    asked for; a failure gives nothing. *)
Theorem random_bytes_correct w s null size w' s' rc out : rng_ok s -> 0 <= size < 2 ^ 32 -> random_bytes w s null size = (w', s', rc, out) ->
  (rc = 0 /\ null = false /\ 0 < size /\ g_random_ready s = true /\ g_random_ready s' = true /\ Z.of_nat (length out) = size /\
    g_bytes_since_reseed s' < RANDOM_RESEED_INTERVAL + size /\ rng_ok s' /\
    exists d, out = snd (drbg_generate d size) /\ g_drbg s' = fst (drbg_generate d size) /\
      ((d = g_drbg s /\ g_bytes_since_reseed s < RANDOM_RESEED_INTERVAL /\ g_entropy_bits s < 256) \/
       exists seed, (seed <> None \/ 256 <= g_entropy_bits s) /\ d = mixed s seed)) \/
  (rc = -1 /\ out = [] /\ g_random_ready s' = g_random_ready s /\ rng_ok s').
Proof.
  intros Hs Hsize. unfold random_bytes. destruct null; [intros [= <- <- <- <-]; right; auto|]. destruct (Z.eqb_spec size 0); [intros [= <- <- <- <-]; right; auto|].
  destruct (g_random_ready s) eqn:Er; [|intros [= <- <- <- <-]; right; auto]. cbn [orb negb]. pose proof Hs as [Hb Hsi]. unfold RANDOM_RESEED_INTERVAL.
  destruct ((1024 * 1024 <=? g_bytes_since_reseed s) || (256 <=? g_entropy_bits s)) eqn:E.
  - destruct (random_reseed_locked w s) as [[w1 s1] ok] eqn:Ere. apply (reseed_correct _ _ _ _ _ Hs) in Ere as (Hr & Hg & _ & [(-> & H0 & Hok & seed & Hse & Hd)|(-> & _ & _ & _ & Hok)]).
    + cbn [Z.eqb negb]. pose proof (generate_length (g_drbg s1) size ltac:(lia)) as Hlen. destruct (drbg_generate (g_drbg s1) size) as [d' bytes] eqn:Eg. cbn [snd] in Hlen.
      intros [= <- <- <- <-]. left. destruct Hok as [Hb1 Hs1]. assert (Hu : u64 (g_bytes_since_reseed s1 + size) = size) by (rewrite H0, uwrap_id; [lia|unfold fits; lia]).
      cbn [set_counts set_drbg g_bytes_since_reseed g_random_ready g_drbg]. rewrite Hu, Hr, Er.
      split_and!; try done; try lia; [constructor; cbn; rewrite ?Hu; lia|]. exists (mixed s seed). rewrite <-Hd, Eg. cbn. split_and!; try done. right. eauto.
    + cbn. intros [= <- <- <- <-]. right. split_and!; try done. congruence.
  - cbn [Z.eqb negb]. pose proof (generate_length (g_drbg s) size ltac:(lia)) as Hlen. destruct (drbg_generate (g_drbg s) size) as [d' bytes] eqn:Eg. cbn [snd] in Hlen.
    intros [= <- <- <- <-]. left. assert (Hu : u64 (g_bytes_since_reseed s + size) = g_bytes_since_reseed s + size) by (apply uwrap_id; unfold fits; lia).
    cbn [set_counts set_drbg g_bytes_since_reseed g_random_ready g_drbg]. rewrite Hu. split_and!; try done; try lia; [constructor; cbn; rewrite ?Hu; lia|].
    exists (g_drbg s). rewrite Eg. cbn. split_and!; try done. left. split; [done|]. lia.
Qed.

(** ** The seed that is kept *)

Definition seed_file (generation : Z) (seed : list Z) : list Z := seed_head generation seed ++ random_seed_digest (H := H) (seed_head generation seed).

Lemma length_seed_head generation seed : length seed = 32%nat -> length (seed_head generation seed) = 48%nat.
Proof. intros Hl. unfold seed_head. rewrite !length_app, length_le_put, Hl. done. Qed.
Lemma length_seed_file generation seed : length seed = 32%nat -> length (seed_file generation seed) = 80%nat.
Proof. intros Hl. unfold seed_file. rewrite length_app, length_seed_head by done. unfold random_seed_digest. by rewrite digest_length. Qed.

(** A seed that was saved is 32 fresh bytes of the generator with the next number. *)
Lemma save_correct w s w' s' : rng_ok s -> random_save_persistent_seed w s = (w', s', 0) ->
  g_seed_generation s' = u64 (g_seed_generation s + 1) /\ g_random_ready s' = true /\
  exists d, content w' RANDOM_SEED_PATH = Some (seed_file (g_seed_generation s') (snd (drbg_generate d 32))) /\ g_drbg s' = fst (drbg_generate d 32) /\
    ((d = g_drbg s /\ g_entropy_bits s < 256) \/ exists fresh, (fresh <> None \/ 256 <= g_entropy_bits s) /\ d = mixed s fresh).
Proof.
  intros Hs. unfold random_save_persistent_seed. destruct (g_random_ready s) eqn:Er; [|done]. cbn [negb]. set (s1 := set_generation s _).
  assert (Hs1 : rng_ok s1) by (destruct Hs; by constructor). destruct (random_bytes w s1 false 32) as [[[w1 s2] rc] seed] eqn:E.
  assert (Hg : g_seed_generation s2 = g_seed_generation s1).
  { revert E. unfold random_bytes. destruct (_ || _); [by intros [= <- <- <- <-]|]. destruct (_ || _).
    - destruct (random_reseed_locked w s1) as [[w3 s3] ok] eqn:E3. apply (reseed_correct _ _ _ _ _ Hs1) in E3 as (_ & _ & Hg & _).
      destruct (negb _); [by intros [= <- <- <- <-]|]. destruct (drbg_generate _ _). by intros [= <- <- <- <-].
    - destruct (negb _); [by intros [= <- <- <- <-]|]. destruct (drbg_generate _ _). by intros [= <- <- <- <-]. }
  assert (H32 : 0 <= 32 < 2 ^ 32) by done. destruct (random_bytes_correct _ _ _ _ _ _ _ _ Hs1 H32 E) as [(-> & _ & _ & _ & Hr & Hl & _ & _ & d & -> & Hd & Hfrom)|(-> & _)]; [|done].
  cbn [Z.eqb negb]. set (head := seed_head _ _). destruct (vfs_write w1 RANDOM_SEED_PATH (head ++ random_seed_digest head)) as [w2 written] eqn:Ew.
  destruct (Z.eqb_spec written SEED_RECORD) as [->|]; [|done]. intros [= <- <-]. split; [done|]. split; [done|]. exists d. split; [|split; [done|]].
  - rewrite Hg. apply (write_law _ _ _ _ _ Ew). transitivity (Z.of_nat 80); [done|]. f_equal. symmetry. apply length_seed_file. lia.
  - destruct Hfrom as [(H1 & _ & H2)|H1]; [left; done|right; done].
Qed.

(** The state after mixing in a seed that was found. *)
Definition absorbed s (generation : Z) (seed : list Z) : rng :=
  let s := set_pool (set_drbg s (drbg_update (g_drbg s) seed)) (sha_update (sha_update (g_entropy_pool s) (le_put 8 generation)) seed) (g_entropy_bits s) in
  set_counts (set_generation s generation) (g_bytes_since_reseed s) (g_generated_bytes s) (u64 (g_reseed_count s + 1)).

(** It is accepted, mixed in, and replaced. *)
Lemma load_accepts w s generation seed w1 r : g_random_ready s = true -> length seed = 32%nat -> 0 <= generation < 2 ^ 64 ->
  content w RANDOM_SEED_PATH = Some (seed_file generation seed) -> vfs_read w RANDOM_SEED_PATH SEED_RECORD = (w1, SEED_RECORD, r) ->
  random_load_persistent_seed w s = random_save_persistent_seed w1 (absorbed s generation seed).
Proof.
  intros Hr Hl Hg Hc Hread. unfold random_load_persistent_seed. rewrite Hr, Hread. cbn [negb]. rewrite Z.eqb_refl. cbn [negb].
  destruct (read_law _ _ _ _ _ _ Hread) as [_ Hrd]. destruct (Hrd ltac:(done)) as (c & Hc' & -> & _). rewrite Hc in Hc'. injection Hc' as <-.
  rewrite (take_ge (seed_file generation seed)) by (rewrite length_seed_file by done; done). pose proof (length_seed_head generation seed Hl) as Hh.
  assert (E1 : take 8 (seed_file generation seed) = SEED_MAGIC) by done.
  assert (E2 : take 48 (seed_file generation seed) = seed_head generation seed) by (unfold seed_file; by apply take_app_length').
  assert (E3 : drop 48 (seed_file generation seed) = random_seed_digest (seed_head generation seed)) by (unfold seed_file; by apply drop_app_length').
  assert (E4 : take 8 (drop 8 (seed_file generation seed)) = le_put 8 generation) by (unfold seed_file, seed_head; cbn [app SEED_MAGIC str drop]; done).
  assert (E5 : take 32 (drop 16 (seed_file generation seed)) = seed).
  { unfold seed_file, seed_head. rewrite <-!app_assoc. rewrite (app_assoc SEED_MAGIC), drop_app_length' by (rewrite length_app, length_le_put; done). by rewrite take_app_length'. }
  rewrite E1, E2, E3, E4, E5. rewrite !bool_decide_eq_true_2 by done. cbn [negb orb]. rewrite le_get_put by done. done.
Qed.

(** A seed that is found is mixed into the generator and never left on the disk: after a load
    that succeeds the file holds the next number and 32 bytes the generator made after it
    took the old seed in. *)
Theorem seed_used_once w s generation seed w1 r w' s' : rng_ok s -> g_random_ready s = true -> length seed = 32%nat -> 0 <= generation < 2 ^ 64 ->
  content w RANDOM_SEED_PATH = Some (seed_file generation seed) -> vfs_read w RANDOM_SEED_PATH SEED_RECORD = (w1, SEED_RECORD, r) ->
  random_load_persistent_seed w s = (w', s', 0) ->
  exists d, content w' RANDOM_SEED_PATH = Some (seed_file (u64 (generation + 1)) (snd (drbg_generate d 32))) /\
    ((d = drbg_update (g_drbg s) seed /\ g_entropy_bits s < 256) \/
     exists fresh, (fresh <> None \/ 256 <= g_entropy_bits s) /\ d = mixed (absorbed s generation seed) fresh).
Proof.
  intros Hs Hr Hl Hg Hc Hread Hload. rewrite (load_accepts _ _ _ _ _ _ Hr Hl Hg Hc Hread) in Hload.
  assert (Ha : rng_ok (absorbed s generation seed)) by (destruct Hs; by constructor). destruct (save_correct _ _ _ _ Ha Hload) as (Hgen & _ & d & Hcont & _ & Hfrom).
  exists d. rewrite Hcont, Hgen. split; [done|]. exact Hfrom.
Qed.

(** A seed file of the right size that is damaged is neither used nor replaced, at this and
    at every later start. *)
Theorem damaged_seed_stays w s c w1 r : g_random_ready s = true -> content w RANDOM_SEED_PATH = Some c -> length c = 80%nat ->
  drop 48 c <> random_seed_digest (H := H) (take 48 c) -> vfs_read w RANDOM_SEED_PATH SEED_RECORD = (w1, SEED_RECORD, r) ->
  random_load_persistent_seed w s = (w1, s, -1) /\ content w1 RANDOM_SEED_PATH = Some c.
Proof.
  intros Hr Hc Hl Hd Hread. destruct (read_law _ _ _ _ _ _ Hread) as [Hsame Hrd]. destruct (Hrd ltac:(done)) as (c' & Hc' & E & _). rewrite Hc in Hc'. injection Hc' as <-.
  rewrite take_ge in E by (rewrite Hl; done). subst r. split; [|by rewrite Hsame]. unfold random_load_persistent_seed. rewrite Hr, Hread. cbn [negb]. rewrite Z.eqb_refl. cbn [negb].
  rewrite (bool_decide_eq_false_2 (drop 48 c = _)) by done. cbn [negb]. by rewrite orb_true_r.
Qed.
End Spec.

(** ** A small generator *)

(** A generator and a hash of a few bytes, and a source that numbers its words by the
    directories of a store. *)
#[export] Instance toy_drbg : Drbg Z (list Z) := {
  drbg_init := le_get; drbg_update d l := (d * 31 + le_get l) mod 2 ^ 64; drbg_generate d n := (d + 1, replicate (Z.to_nat n) (d mod 256));
  sha_init := []; sha_update h l := h ++ l; sha_out h := take 32 (h ++ replicate 32 0)
}.
#[export] Instance toy_drbg_laws : DrbgLaws Z (list Z).
Proof.
  constructor.
  - intros d n Hn. cbn. rewrite length_replicate. lia.
  - intros d n. cbn. apply Forall_replicate. by apply Z.mod_pos_bound.
  - intros h. cbn [sha_out toy_drbg]. rewrite length_take, length_app, length_replicate. lia.
Qed.

#[export] Instance toy_hardware : Hardware store := {
  hw_try w _ := (fst (vfs_mkdir w []), Some (Z.of_nat (length (st_dirs w)) * 0xD1342543DE82EF95 mod 2 ^ 64));
  hw_tsc w := (w, 0); cpu_rdseed _ := true; cpu_rdrand _ := false
}.

Definition toy_rng : rng (D := Z) (H := list Z) := Rng 0 [] false false false 0 0 0 0 0 0 false false 0.
Definition toy_store : store := Store [] [] [] [].
Definition toy_started : store * rng (D := Z) (H := list Z) * Z := random_init toy_store toy_rng.

Example toy_starts : snd toy_started = 0.
Proof. vm_compute. reflexivity. Qed.

(** Four bytes after 1 MiB: six words are mixed in first. *)
Definition toy_state : rng (D := Z) (H := list Z) := set_counts (snd (fst toy_started)) RANDOM_RESEED_INTERVAL 0 0.

Lemma random_bytes_correct_witness : g_random_ready toy_state = true /\
  exists w' s' out, random_bytes (fst (fst toy_started)) toy_state false 4 = (w', s', 0, out) /\ length out = 4%nat /\ g_bytes_since_reseed s' = 4.
Proof.
  assert (Hr : g_random_ready toy_state = true) by (vm_compute; reflexivity). split; [exact Hr|].
  destruct (random_bytes (fst (fst toy_started)) toy_state false 4) as [[[w' s'] rc] out] eqn:E. exists w', s', out.
  assert (Hs : rng_ok toy_state) by (constructor; vm_compute; split; congruence).
  assert (H0 : snd (fst (random_bytes (fst (fst toy_started)) toy_state false 4)) = 0) by (vm_compute; reflexivity).
  assert (H1 : g_bytes_since_reseed (snd (fst (fst (random_bytes (fst (fst toy_started)) toy_state false 4)))) = 4) by (vm_compute; reflexivity).
  rewrite E in H0, H1. cbn [fst snd] in H0, H1. subst rc.
  assert (H4 : 0 <= 4 < 2 ^ 32) by lia.
  destruct (random_bytes_correct _ _ _ _ _ _ _ _ Hs H4 E) as [(_ & _ & _ & _ & _ & Hl & _)|(H2 & _)]; [|discriminate].
  split; [reflexivity|]. split; [lia|exact H1].
Defined.
