(* ===== verification/Uwindow.v ===== *)
(** Windows of programs: [kernel/uwindow.c].

    The table and its queues of events first, then drawing the windows and handing the mouse to
    them.  The drawing primitives and the width of a text come from [src/graphics.c] and
    [src/gui/font.c] and are an interface; the pixels of windows are copied to the screen by
    the code below.  [None] is an access outside a frame buffer. *)
From Stdlib Require Import String.
From S2P Require Import Prelude Pmm Vmm Files.

(** * The table *)

Definition MAX_USER_WINDOWS : Z := 8.
Definition USER_WINDOW_HEADER_H : Z := 30.
Definition USER_WINDOW_FB_VADDR : Z := 0x50000000.
Definition USER_WINDOW_FB_STRIDE : Z := 16 * 1024 * 1024.
Definition EVENT_MOUSE_MOVE : Z := 1.
Definition EVENT_MOUSE_DOWN : Z := 2.
Definition EVENT_MOUSE_UP : Z := 3.
Definition EVENT_KEY_DOWN : Z := 4.
Definition EVENT_CLOSE : Z := 5.
Definition EVENTS : Z := 32.

Record uevent := Uevent { ev_type : Z; ev_mx : Z; ev_my : Z; ev_btn : Z; ev_key : Z }.
Definition no_uevent : uevent := Uevent 0 0 0 0 0.

(** [framebuffer] is the physical address of the pixels, or zero. *)
Record window := Window {
  w_active : bool; w_desktop : bool; w_glass : bool; w_x : Z; w_y : Z; w_w : Z; w_h : Z; w_title : list Z; w_framebuffer : Z; w_vaddr : Z; w_pml4 : Z;
  w_open : bool; w_minimized : bool; w_dragging : bool; w_ox : Z; w_oy : Z; w_dirty : bool; w_anim : Z; w_anim_t : Z;
  w_events : list uevent; w_head : Z; w_tail : Z
}.
Definition no_window : window := Window false false false 0 0 0 0 [] 0 0 0 false false false 0 0 false 0 0 (replicate 32 no_uevent) 0 0.

(** The windows, the one with the focus (or -1), and the mouse at the last drawing. *)
Record windows := Windows { g_windows : list window; g_focused : Z; g_prev_click : bool; g_last_mx : Z; g_last_my : Z; s_prev_right : bool }.

Definition win (s : windows) (i : Z) : window := at_z no_window (g_windows s) i.
Definition set_win (s : windows) (i : Z) (x : window) : windows :=
  Windows (<[Z.to_nat i := x]> (g_windows s)) (g_focused s) (g_prev_click s) (g_last_mx s) (g_last_my s) (s_prev_right s).
Definition set_focus (s : windows) (i : Z) : windows := Windows (g_windows s) i (g_prev_click s) (g_last_mx s) (g_last_my s) (s_prev_right s).

Definition set_activity (x : window) (act opn : bool) : window := Window act (w_desktop x) (w_glass x) (w_x x) (w_y x) (w_w x) (w_h x) (w_title x)
  (w_framebuffer x) (w_vaddr x) (w_pml4 x) opn (w_minimized x) (w_dragging x) (w_ox x) (w_oy x) (w_dirty x) (w_anim x) (w_anim_t x) (w_events x) (w_head x) (w_tail x).
Definition set_queue (x : window) (q : list uevent) (h t : Z) : window := Window (w_active x) (w_desktop x) (w_glass x) (w_x x) (w_y x) (w_w x) (w_h x) (w_title x)
  (w_framebuffer x) (w_vaddr x) (w_pml4 x) (w_open x) (w_minimized x) (w_dragging x) (w_ox x) (w_oy x) (w_dirty x) (w_anim x) (w_anim_t x) q h t.
Definition set_anim (x : window) (state t : Z) : window := Window (w_active x) (w_desktop x) (w_glass x) (w_x x) (w_y x) (w_w x) (w_h x) (w_title x)
  (w_framebuffer x) (w_vaddr x) (w_pml4 x) (w_open x) (w_minimized x) (w_dragging x) (w_ox x) (w_oy x) (w_dirty x) state t (w_events x) (w_head x) (w_tail x).
Definition set_position (x : window) (px py : Z) : window := Window (w_active x) (w_desktop x) (w_glass x) px py (w_w x) (w_h x) (w_title x)
  (w_framebuffer x) (w_vaddr x) (w_pml4 x) (w_open x) (w_minimized x) (w_dragging x) (w_ox x) (w_oy x) (w_dirty x) (w_anim x) (w_anim_t x) (w_events x) (w_head x) (w_tail x).
Definition set_drag (x : window) (drag : bool) (ox oy : Z) : window := Window (w_active x) (w_desktop x) (w_glass x) (w_x x) (w_y x) (w_w x) (w_h x) (w_title x)
  (w_framebuffer x) (w_vaddr x) (w_pml4 x) (w_open x) (w_minimized x) drag ox oy (w_dirty x) (w_anim x) (w_anim_t x) (w_events x) (w_head x) (w_tail x).
Definition set_minimized (x : window) (b : bool) : window := Window (w_active x) (w_desktop x) (w_glass x) (w_x x) (w_y x) (w_w x) (w_h x) (w_title x)
  (w_framebuffer x) (w_vaddr x) (w_pml4 x) (w_open x) b (w_dragging x) (w_ox x) (w_oy x) (w_dirty x) (w_anim x) (w_anim_t x) (w_events x) (w_head x) (w_tail x).

(** ** Opening and closing *)

Definition uwindow_init (s : windows) : windows :=
  Windows (map (fun x => set_queue (set_activity x false false) (w_events x) 0 0) (g_windows s)) (g_focused s) (g_prev_click s) (g_last_mx s) (g_last_my s) (s_prev_right s).

Definition limit (lo hi x : Z) : Z := let x := if x <? lo then lo else x in if hi <? x then hi else x.

(** A title that begins with [__d] is that of the desktop; words in it make a window
    transparent. *)
Definition begins (word s : list Z) : bool := bool_decide (take (length word) s = word).
Definition desktop_title (title : option (list Z)) : bool := match title with Some t => begins (str "__d") t | None => false end.
Fixpoint glass_word (t : list Z) : bool :=
  match t with
  | [] => false
  | _ :: r => existsb (fun word => begins (str word) t) ["Set"; "set"; "Glass"; "glass"; "About"; "about"]%string || glass_word r
  end.

(** The first window that is not in use. *)
Definition free_window (s : windows) : option Z := find_z (fun i => negb (w_active (win s i))) 0 (Z.to_nat MAX_USER_WINDOWS).

Definition BLANK : Z := 0xFF1E1E22.

Section Create.
Context {A : Type} `{FrameAllocator A}.

(** [n] pixels of four bytes. *)
Fixpoint fill (m : memory) (a : Z) (n : nat) : memory :=
  match n with O => m | S n => fill (write_bytes m a (le_put 4 BLANK)) (a + 4) n end.

(** The pages of the frame buffer; on failure those before are unmapped. *)
Fixpoint unmap_back (st : mm A) (root vaddr : Z) (n : nat) : mm A :=
  match n with O => st | S n => unmap_back (fst (vmm_unmap_page st root (vaddr + Z.of_nat n * PAGE_SIZE) false)) root vaddr n end.
Fixpoint map_framebuffer (st : mm A) (root vaddr phys p : Z) (n : nat) : mm A * bool :=
  match n with
  | O => (st, true)
  | S n =>
      let '(st, rc) := vmm_map_page st root (vaddr + p * PAGE_SIZE) (phys + p * PAGE_SIZE) (Z.lor PTE_USER (Z.lor PTE_WRITABLE PTE_NO_EXECUTE)) in
      if negb (rc =? 0) then (unmap_back st root vaddr (Z.to_nat p), false) else map_framebuffer st root vaddr phys (p + 1) n
  end.

Definition release_frames (st : mm A) (p n : Z) : mm A := set_frames (fst (fa_free_pages (frames st) p n)) st.

(** The result is the slot. *)
Definition uwindow_create (st : mm A) (s : windows) (w h : Z) (title : option (list Z)) (pml4_phys : Z) : mm A * windows * option Z :=
  let w := limit 100 1920 w in let h := limit 50 1200 h in
  match free_window s with
  | None => (st, s, None)
  | Some slot =>
      let desk := desktop_title title in
      let old := win s slot in
      let vaddr := USER_WINDOW_FB_VADDR + slot * USER_WINDOW_FB_STRIDE in
      let x := Window (w_active old) desk (match title with Some t => glass_word t | None => false end) (if desk then 0 else 220 + slot * 30) (if desk then 0 else 120 + slot * 30)
                 w h (take 63 (default [] title)) (w_framebuffer old) vaddr pml4_phys true false false 0 0 true (if desk then 0 else 1) 0 (w_events old) 0 0 in
      let s := set_win s slot x in
      let num_pages := (w * h * 4 + PAGE_SIZE - 1) / PAGE_SIZE + 4 in
      if USER_WINDOW_FB_STRIDE <? num_pages * PAGE_SIZE then (st, s, None)
      else
        let '(st, phys) := alloc_pages st num_pages in
        if phys =? 0 then (st, s, None)
        else
          let '(st, ok) := map_framebuffer st pml4_phys vaddr phys 0 (Z.to_nat num_pages) in
          if negb ok then (release_frames st phys num_pages, s, None)
          else
            let st := vmm_switch_pml4 st pml4_phys in
            let st := set_mem (fill (mem st) phys (Z.to_nat (w * h))) st in
            let x := Window true (w_desktop x) (w_glass x) (w_x x) (w_y x) w h (w_title x) phys vaddr pml4_phys true false false 0 0 true (w_anim x) 0 (w_events x) 0 0 in
            (st, set_focus (set_win s slot x) slot, Some slot)
  end.
End Create.

Definition in_table (i : Z) : bool := (0 <=? i) && (i <? MAX_USER_WINDOWS).

Definition uwindow_destroy (s : windows) (i : Z) : windows :=
  if negb (in_table i) then s
  else let s := set_win s i (set_activity (win s i) false false) in if g_focused s =? i then set_focus s (-1) else s.

Definition owned (s : windows) (pml4_phys i : Z) : bool := w_active (win s i) && (w_pml4 (win s i) =? pml4_phys).
Definition uwindow_destroy_process (s : windows) (pml4_phys : Z) : windows :=
  foldl (fun s i => if owned s pml4_phys i then uwindow_destroy s i else s) s (seqZ 0 MAX_USER_WINDOWS).

(** ** Lookup *)

Definition uwindow_get (s : windows) (i : Z) : option Z := if in_table i && w_active (win s i) then Some i else None.
Definition uwindow_get_process_window (s : windows) (pml4_phys : Z) : option Z :=
  if pml4_phys =? 0 then None else find_z (owned s pml4_phys) 0 (Z.to_nat MAX_USER_WINDOWS).

Definition uwindow_is_any_open (s : windows) : bool := existsb (fun x => w_active x && w_open x && negb (w_minimized x) && negb (w_desktop x)) (g_windows s).
Definition uwindow_has_desktop_surface (s : windows) : bool := existsb (fun x => w_active x && w_open x && w_desktop x) (g_windows s).
Definition uwindow_is_focused (s : windows) : bool := (0 <=? g_focused s) && w_active (win s (g_focused s)) && w_open (win s (g_focused s)).
Definition uwindow_set_focused (s : windows) (focused : bool) : windows := if focused then s else set_focus s (-1).
Definition uwindow_is_focused_idx (s : windows) (i : Z) : bool := g_focused s =? i.

(** ** Events *)

Definition uwindow_push_event (s : windows) (i : Z) (ev : uevent) : windows :=
  match uwindow_get s i with
  | None => s
  | Some i =>
      let x := win s i in
      let next := (w_head x + 1) mod EVENTS in
      let tail := if next =? w_tail x then (w_tail x + 1) mod EVENTS else w_tail x in
      set_win s i (set_queue x (<[Z.to_nat (w_head x) := ev]> (w_events x)) next tail)
  end.

Definition uwindow_pop_event (s : windows) (i : Z) : windows * option uevent :=
  match uwindow_get s i with
  | None => (s, None)
  | Some i =>
      let x := win s i in
      if w_head x =? w_tail x then (s, None)
      else (set_win s i (set_queue x (w_events x) (w_head x) ((w_tail x + 1) mod EVENTS)), Some (at_z no_uevent (w_events x) (w_tail x)))
  end.

Definition uwindow_feed_key (s : windows) (c : Z) : windows :=
  if in_table (g_focused s) then uwindow_push_event s (g_focused s) (Uevent EVENT_KEY_DOWN 0 0 0 c) else s.

(** ** The icons of the desktop *)

(** Does a title have a word in it? *)
Fixpoint has_word (word t : list Z) : bool := match t with [] => false | _ :: r => begins word t || has_word word r end.
Definition find_uwindow_by_title_substr (s : windows) (sub : list Z) : option Z :=
  find_z (fun i => w_active (win s i) && w_open (win s i) && has_word sub (w_title (win s i))) 0 (Z.to_nat MAX_USER_WINDOWS).

(** The words of the programs that have an icon. *)
Definition toggled_titles : list (list Z) := map str ["Notepad"; "Dolphin"; "Task"; "Kesh Browser"; "Paint"; "Install KeshOS"; "Settings"; "About"]%string.

(** The window of a program is hidden, or shown again; [None]: the program has no window and is
    started.  The order of the desktop's own windows, which also changes, is not part of this. *)
Definition toggle_user_app (s : windows) (sub : list Z) : option windows :=
  match find_uwindow_by_title_substr s sub with
  | None => None
  | Some i =>
      let x := set_minimized (win s i) (negb (w_minimized (win s i))) in
      Some (set_win s i (if w_minimized x then x else set_anim x 1 0))
  end.

(** * Drawing *)

(** ** What is drawn by others *)

Inductive drawing :=
| RoundedRect (x y w h r color : Z) | RoundedAlpha (x y w h r color alpha : Z) | Rect (x y w h color : Z) | Blur (x y w h radius corner : Z)
| Label (text : list Z) (x y color : Z).

(** On the screen, and the width of a text. *)
Class Painter := { draw : drawing -> list Z -> list Z; font_text_width : list Z -> Z }.

(** ** Pixels *)

Definition px (l : list Z) (i : Z) : option Z := if (0 <=? i) && (i <? Z.of_nat (length l)) then Some (at_z 0 l i) else None.
Definition put_px (l : list Z) (i v : Z) : option (list Z) := if (0 <=? i) && (i <? Z.of_nat (length l)) then Some (<[Z.to_nat i := v]> l) else None.

(** The alpha of a pixel, and a pixel over another one. *)
Definition alpha_of (c : Z) : Z := Z.land (Z.shiftr c 24) 0xFF.
Definition opaque (c : Z) : bool := (alpha_of c =? 0) || (alpha_of c =? 255).
Definition channel (c shift : Z) : Z := Z.land (Z.shiftr c shift) 0xFF.
Definition mix_channel (sc dc shift : Z) : Z := (channel sc shift * alpha_of sc + channel dc shift * (255 - alpha_of sc)) / 255.
Definition mix (sc dc : Z) : Z := Z.lor (Z.lor (Z.shiftl (mix_channel sc dc 16) 16) (Z.shiftl (mix_channel sc dc 8) 8)) (mix_channel sc dc 0).

(** [n] pixels of a row, from number [c] on: pixel [src c] of the buffer to [dst c] of the
    screen, over what is there or in place of it; some are left out. *)
Fixpoint row (n : nat) (c : Z) (blend : bool) (skip : Z -> bool) (src dst : Z -> Z) (fb bb : list Z) : option (list Z) :=
  match n with
  | O => Some bb
  | S n =>
      if skip c then row n (c + 1) blend skip src dst fb bb
      else
        sc ← px fb (src c);
        v ← (if blend && negb (opaque sc) then mix sc <$> px bb (dst c) else Some sc);
        bb ← put_px bb (dst c) v;
        row n (c + 1) blend skip src dst fb bb
  end.

Fixpoint rows (n : nat) (r : Z) (f : Z -> list Z -> option (list Z)) (bb : list Z) : option (list Z) :=
  match n with O => Some bb | S n => bb ← f r bb; rows n (r + 1) f bb end.

(** Rows [lo] to [hi - 1]. *)
Definition rows_between (lo hi : Z) (f : Z -> list Z -> option (list Z)) (bb : list Z) : option (list Z) := rows (Z.to_nat (hi - lo)) lo f bb.

(** ** Geometry *)

Record layout := Layout { l_x : Z; l_y : Z; l_w : Z; l_h : Z; l_hdr : Z; l_ease : Z }.

Definition scaled (x : window) (scale least_hdr ease : Z) : layout :=
  let total_h := w_h x + USER_WINDOW_HEADER_H in
  let dw := w_w x * scale / 256 in let dh := total_h * scale / 256 in let hdr := USER_WINDOW_HEADER_H * scale / 256 in
  Layout (w_x x + (w_w x - dw) / 2) (w_y x + (total_h - dh) / 2) dw dh (if hdr <? least_hdr then least_hdr else hdr) ease.

(** Windows grow when they open and shrink when they close. *)
Definition layout_of (x : window) : layout :=
  if w_anim x =? 1 then
    let inv := 256 - w_anim_t x * 256 / 10 in
    let ease := 256 - Z.shiftr (inv * inv) 8 in scaled x (218 + (256 - 218) * ease / 256) 18 ease
  else if w_anim x =? 2 then
    let p := w_anim_t x * 256 / 8 in
    let scale := 256 - (256 - 200) * p / 256 in scaled x (if scale <? 200 then 200 else scale) 14 (256 - Z.shiftr (p * p) 8)
  else Layout (w_x x) (w_y x) (w_w x) (w_h x + USER_WINDOW_HEADER_H) USER_WINDOW_HEADER_H 256.

(** The three buttons: close, minimize, zoom. *)
Definition buttons (right_side : bool) (l : layout) : Z * Z * Z :=
  if right_side then (l_x l + l_w l - 20, l_x l + l_w l - 38, l_x l + l_w l - 56) else (l_x l + 12, l_x l + 30, l_x l + 48).
Definition button_y (l : layout) : Z := l_y l + (l_hdr l - 12) / 2.

(** ** The screen *)

(** Size, mouse, settings, and the pixels of each window. *)
Record screen := Screen { scr_w : Z; scr_h : Z; mx : Z; my : Z; click : bool; right_click : bool; align_right : bool; dark : bool; pixels : Z -> list Z }.

Definition over_button (e : screen) (bx by_ : Z) : bool := (bx - 3 <=? mx e) && (mx e <=? bx + 15) && (by_ - 3 <=? my e) && (my e <=? by_ + 15).
Definition in_width (e : screen) (x : window) : bool := (w_x x <=? mx e) && (mx e <? w_x x + w_w x).
Definition in_header (e : screen) (x : window) : bool := in_width e x && (w_y x <=? my e) && (my e <? w_y x + USER_WINDOW_HEADER_H).
Definition in_client (e : screen) (x : window) : bool :=
  in_width e x && (w_y x + USER_WINDOW_HEADER_H <=? my e) && (my e <? w_y x + (w_h x + USER_WINDOW_HEADER_H)).

(** Windows, screen, whether a window can still be taken for dragging, and whether one has the
    mouse. *)
Record frame := Frame { f_windows : windows; f_bb : list Z; f_drag_free : bool; f_captured : bool }.
Definition with_win (f : frame) (i : Z) (x : window) : frame := Frame (set_win (f_windows f) i x) (f_bb f) (f_drag_free f) (f_captured f).
Definition captured (f : frame) : frame := Frame (f_windows f) (f_bb f) (f_drag_free f) true.
Definition focused (f : frame) (i : Z) : frame := Frame (set_focus (f_windows f) i) (f_bb f) (f_drag_free f) (f_captured f).
Definition pushed (f : frame) (i : Z) (ev : uevent) : frame := Frame (uwindow_push_event (f_windows f) i ev) (f_bb f) (f_drag_free f) (f_captured f).
Definition painted (f : frame) (bb : list Z) : frame := Frame (f_windows f) bb (f_drag_free f) (f_captured f).
Definition at_win (f : frame) (i : Z) : window := win (f_windows f) i.

Section Render.
Context `{PT : Painter}.

Definition paint (f : frame) (l : list drawing) : frame := painted f (foldl (fun bb d => draw d bb) (f_bb f) l).

(** One step of the animation; [None] when the window has closed. *)
Definition animate (f : frame) (i : Z) : frame * bool :=
  let x := at_win f i in
  if w_anim x =? 1 then (with_win f i (set_anim x (if 10 <=? w_anim_t x + 1 then 0 else 1) (w_anim_t x + 1)), true)
  else if w_anim x =? 2 then
    let f := with_win f i (set_anim x 2 (w_anim_t x + 1)) in
    if 8 <=? w_anim_t x + 1 then
      let f := pushed f i (Uevent EVENT_CLOSE 0 0 0 0) in
      (with_win f i (set_anim (set_activity (at_win f i) (w_active (at_win f i)) false) 0 (w_anim_t (at_win f i))), false)
    else (f, true)
  else (f, true).

(** A window that is dragged follows the mouse, within the screen. *)
Definition drag_to (e : screen) (x : window) : window :=
  let px := mx e - w_ox x in let py := my e - w_oy x in
  let py := if py <? 28 then 28 else py in let py := if scr_h e - 40 <? py then scr_h e - 40 else py in
  let px := if px <? - w_w x + 80 then - w_w x + 80 else px in let px := if scr_w e - 80 <? px then scr_w e - 80 else px in
  set_position x px py.
Definition drag (e : screen) (f : frame) (i : Z) : frame :=
  let x := at_win f i in
  if (w_anim x =? 0) && w_dragging x then captured (with_win f i (if click e then drag_to e x else set_drag x false (w_ox x) (w_oy x))) else f.

(** A press on the header takes the window, one on its contents gives it the focus. *)
Definition pressed (e : screen) (f : frame) : bool := click e && negb (g_prev_click (f_windows f)).
Definition press (e : screen) (f : frame) (i : Z) (on_button : bool) : frame :=
  let x := at_win f i in
  if (w_anim x =? 0) && negb (w_dragging x) && pressed e f then
    if negb on_button && in_header e x then
      if f_drag_free f then
        captured (focused (Frame (set_win (f_windows f) i (set_drag x true (mx e - w_x x) (my e - w_y x))) (f_bb f) false (f_captured f)) i)
      else f
    else if in_client e x then captured (focused f i) else f
  else f.

(** Shadow, background and buttons. *)
Definition chrome (e : screen) (x : window) (l : layout) (close_hover min_hover zoom_hover : bool) : list drawing :=
  let '(close_x, min_x, zoom_x) := buttons (align_right e) l in
  let shade k := u8 (Z.shiftr (k * l_ease l) 8) in
  let body := RoundedAlpha (l_x l) (l_y l) (l_w l) (l_h l) 14 in
  let bg := if dark e then 0x001B1C20 else 0x00FFFFFF in
  [RoundedAlpha (l_x l - 4) (l_y l - 4) (l_w l + 8) (l_h l + 8) 14 0 (shade 45); RoundedAlpha (l_x l - 2) (l_y l - 2) (l_w l + 4) (l_h l + 4) 12 0 (shade 70)] ++
  (if w_glass x then
     [Blur (l_x l) (l_y l) (l_w l) (l_h l) 8 14; body (if dark e then 0x00141620 else 0x00F5F6F8) (shade (if dark e then 180 else 195));
      RoundedAlpha (l_x l) (l_y l) (l_w l) (l_hdr l) 14 0x00FFFFFF (shade (if dark e then 15 else 120));
      RoundedAlpha (l_x l) (l_y l) (l_w l) 1 14 0x00FFFFFF (shade (if dark e then 50 else 180))]
   else
     [RoundedRect (l_x l) (l_y l) (l_w l) (l_h l) 10 bg; RoundedRect (l_x l) (l_y l) (l_w l) (l_hdr l + 4) 10 (if dark e then 0x00282930 else 0x00E8EAEE);
      Rect (l_x l) (l_y l + l_hdr l) (l_w l) (l_h l - l_hdr l) bg]) ++
  [RoundedRect close_x (button_y l) 12 12 6 (if close_hover then 0xFFFF453A else 0xFFFF5F56);
   RoundedRect min_x (button_y l) 12 12 6 (if min_hover then 0xFFFFD60A else 0xFFFFBD2E);
   RoundedRect zoom_x (button_y l) 12 12 6 (if zoom_hover then 0xFF30D158 else 0xFF27C93F)].

Definition title_label (e : screen) (x : window) (l : layout) : drawing :=
  let title_w := font_text_width (w_title x) in
  let tx := l_x l + Z.quot (l_w l - title_w) 2 in
  let tx := if align_right e then (if l_x l + l_w l - 65 <? tx + title_w then l_x l + l_w l - 65 - title_w else tx)
            else (if tx <? l_x l + 65 then l_x l + 65 else tx) in
  let ty := l_y l + Z.quot (l_hdr l - 16) 2 in
  Label (w_title x) tx (if ty <? l_y l + 4 then l_y l + 4 else ty) (if dark e then 0xFFE5E5EA else 0xFF1D1D1F).

(** ** The contents *)

(** The visible part of [n] pixels at [at0] on an axis of [size] pixels. *)
Definition clip_start (at0 : Z) : Z := if at0 <? 0 then - at0 else 0.
Definition clip_end (at0 n size : Z) : Z := if size <? at0 + n then size - at0 else n.

(** The lower corners of a transparent window are round. *)
Definition in_corner (x : window) (r c : Z) : bool :=
  let dy := 14 - ((w_h x - 1) - r) in
  if w_h x - 1 - r <? 14 then
    if c <? 14 then 14 * 14 <? (14 - c) * (14 - c) + dy * dy
    else if w_w x - 14 <=? c then 14 * 14 <? (c - (w_w x - 14)) * (c - (w_w x - 14)) + dy * dy
    else false
  else false.

Definition blit_plain (e : screen) (x : window) (fb bb : list Z) : option (list Z) :=
  let top := w_y x + USER_WINDOW_HEADER_H in
  let x0 := clip_start (w_x x) in
  rows_between (clip_start top) (clip_end top (w_h x) (scr_h e))
    (fun r => row (Z.to_nat (clip_end (w_x x) (w_w x) (scr_w e) - x0)) 0 (w_glass x) (fun c => w_glass x && in_corner x r (x0 + c))
       (fun c => r * w_w x + x0 + c) (fun c => (top + r) * scr_w e + w_x x + x0 + c) fb) bb.

(** While it grows or shrinks, the nearest pixels. *)
Definition blit_scaled (e : screen) (x : window) (l : layout) (fb bb : list Z) : option (list Z) :=
  let client_h := l_h l - l_hdr l in
  let top := l_y l + l_hdr l in
  let x0 := clip_start (l_x l) in
  rows_between (clip_start top) (clip_end top client_h (scr_h e))
    (fun r =>
       let sy := r * w_h x / client_h in let sy := if w_h x <=? sy then w_h x - 1 else sy in
       row (Z.to_nat (clip_end (l_x l) (l_w l) (scr_w e) - x0)) 0 true (fun _ => false)
         (fun c => let sx := (x0 + c) * w_w x / l_w l in sy * w_w x + (if w_w x <=? sx then w_w x - 1 else sx))
         (fun c => (top + r) * scr_w e + l_x l + x0 + c) fb) bb.

Definition blit (e : screen) (i : Z) (x : window) (l : layout) (bb : list Z) : option (list Z) :=
  if negb (w_framebuffer x =? 0) && (0 <? l_h l - l_hdr l) && (0 <? l_w l) then
    if w_anim x =? 0 then blit_plain e x (pixels e i) bb else blit_scaled e x l (pixels e i) bb
  else Some bb.

(** The mouse, in the coordinates of the contents. *)
Definition mouse_event (e : screen) (f : frame) (rel_x rel_y : Z) (held : Z) : option uevent :=
  let s := f_windows f in
  if click e && negb (g_prev_click s) then Some (Uevent EVENT_MOUSE_DOWN rel_x rel_y 1 0)
  else if negb (click e) && g_prev_click s then Some (Uevent EVENT_MOUSE_UP rel_x rel_y 0 0)
  else if negb (mx e =? g_last_mx s) || negb (my e =? g_last_my s) then Some (Uevent EVENT_MOUSE_MOVE rel_x rel_y held 0)
  else None.

Definition deliver (e : screen) (f : frame) (i : Z) : frame :=
  let x := at_win f i in
  if (w_anim x =? 0) && in_client e x then
    let f := captured f in
    match mouse_event e f (mx e - w_x x) (my e - (w_y x + USER_WINDOW_HEADER_H)) (b2z (click e)) with Some ev => pushed f i ev | None => f end
  else f.

(** ** One window *)

Definition visible (x : window) : bool := w_active x && w_open x && negb (w_minimized x) && negb (w_desktop x).

Definition render_window (e : screen) (f : frame) (i : Z) : option frame :=
  if negb (visible (at_win f i)) then Some f
  else
    let '(f, go) := animate f i in
    if negb go then Some f
    else
      let f := drag e f i in
      let l := layout_of (at_win f i) in
      let '(close_x, min_x, zoom_x) := buttons (align_right e) l in
      let still := w_anim (at_win f i) =? 0 in
      let close_hover := still && over_button e close_x (button_y l) in
      let min_hover := still && over_button e min_x (button_y l) in
      let zoom_hover := still && over_button e zoom_x (button_y l) in
      let f := press e f i (close_hover || min_hover || zoom_hover) in
      let x := at_win f i in
      let f := paint f (chrome e x l close_hover min_hover zoom_hover) in
      if still && pressed e f && close_hover then Some (captured (with_win f i (set_anim x 2 0)))
      else if still && pressed e f && min_hover then Some (captured (with_win f i (set_minimized x true)))
      else
        let f := paint f [title_label e x l] in
        bb ← blit e i x l (f_bb f);
        let line := Rect (l_x l) (l_y l + l_hdr l) (l_w l) 1 (if dark e then (if w_glass x then 0x002A2D3A else 0x003A3A40) else 0x00D0D4DF) in
        Some (deliver e (paint (painted f bb) [line]) i).

(** The windows from number [i] on, the later ones over the earlier. *)
Fixpoint render_windows (e : screen) (n : nat) (i : Z) (f : frame) : option frame :=
  match n with O => Some f | S n => f ← render_window e f i; render_windows e n (i + 1) f end.

(** ** The desktop *)

Definition desktop_slot (s : windows) : option Z :=
  find_z (fun i => w_active (win s i) && w_open (win s i) && w_desktop (win s i)) 0 (Z.to_nat MAX_USER_WINDOWS).

Definition blit_desktop (e : screen) (x : window) (fb bb : list Z) : option (list Z) :=
  if w_framebuffer x =? 0 then Some bb
  else
    rows_between 0 (if w_h x <? scr_h e then w_h x else scr_h e)
      (fun r => row (Z.to_nat (if w_w x <? scr_w e then w_w x else scr_w e)) 0 false (fun _ => false) (fun c => r * w_w x + c) (fun c => r * scr_w e + c) fb) bb.

(** What is left for the desktop: also the right button. *)
Definition desktop_event (e : screen) (f : frame) : option uevent :=
  let s := f_windows f in
  if click e && negb (g_prev_click s) then Some (Uevent EVENT_MOUSE_DOWN (mx e) (my e) 1 0)
  else if negb (click e) && g_prev_click s then Some (Uevent EVENT_MOUSE_UP (mx e) (my e) 0 0)
  else if right_click e && negb (s_prev_right s) then Some (Uevent EVENT_MOUSE_DOWN (mx e) (my e) 2 0)
  else if negb (right_click e) && s_prev_right s then Some (Uevent EVENT_MOUSE_UP (mx e) (my e) 0 0)
  else if negb (mx e =? g_last_mx s) || negb (my e =? g_last_my s) then
    Some (Uevent EVENT_MOUSE_MOVE (mx e) (my e) (if click e then 1 else if right_click e then 2 else 0) 0)
  else None.

Definition remember (e : screen) (s : windows) : windows := Windows (g_windows s) (g_focused s) (click e) (mx e) (my e) (right_click e).

(** The state and the screen afterwards. *)
Definition uwindow_render_all (e : screen) (s : windows) (bb : list Z) (drag_free : bool) : option (windows * list Z * bool) :=
  let desk := desktop_slot s in
  bb ← match desk with Some d => blit_desktop e (win s d) (pixels e d) bb | None => Some bb end;
  f ← render_windows e (Z.to_nat MAX_USER_WINDOWS) 0 (Frame s bb drag_free false);
  let f := match desk with
           | Some d => if f_captured f then f else match desktop_event e f with Some ev => pushed f d ev | None => f end
           | None => f
           end in
  Some (remember e (f_windows f), f_bb f, f_drag_free f).
End Render.
