(* ===== verification/UwindowSpec.v ===== *)
(** The windows of programs: drawing never leaves the screen or the pixels of a window, the
    table stays well formed, and a program is told of the mouse only inside its window. *)
From Stdlib Require Import String Relations.
From S2P Require Import Prelude Ring Pmm Vmm Files Uwindow.

(** ** The table *)

(** The events a program has not taken yet, the oldest first. *)
Definition inbox (x : window) : list uevent := gap no_uevent EVENTS (w_events x) (w_head x) (w_tail x).

Definition mouse (ev : uevent) : bool := (ev_type ev =? EVENT_MOUSE_MOVE) || (ev_type ev =? EVENT_MOUSE_DOWN) || (ev_type ev =? EVENT_MOUSE_UP).
Definition inside (w h : Z) (ev : uevent) : Prop := mouse ev = true -> 0 <= ev_mx ev < w /\ 0 <= ev_my ev < h.

(** Of the desktop only the size is known: it gets the mouse wherever it is. *)
Definition shape (x : window) : bool * bool * Z * Z := (w_active x, w_desktop x, w_w x, w_h x).
Definition queue_ok (x : window) : Prop := Z.of_nat (length (w_events x)) = EVENTS /\ 0 <= w_head x < EVENTS /\ 0 <= w_tail x < EVENTS.
Definition window_ok (x : window) : Prop :=
  queue_ok x /\
  (w_active x = true -> 100 <= w_w x <= 1920 /\ 50 <= w_h x <= 1200 /\ (w_desktop x = false -> Forall (inside (w_w x) (w_h x)) (inbox x))).

Definition windows_ok (s : windows) : Prop :=
  length (g_windows s) = 8%nat /\ Forall window_ok (g_windows s) /\ -1 <= g_focused s < MAX_USER_WINDOWS.

Lemma window_ok_none : window_ok no_window.
Proof. split; [|done]. by vm_compute. Qed.

Lemma win_ok s i : windows_ok s -> window_ok (win s i).
Proof.
  intros (_ & F & _). unfold win, at_z. destruct (nth_in_or_default (Z.to_nat i) (g_windows s) no_window) as [Hin| ->]; [|exact window_ok_none].
  rewrite Forall_forall in F. apply F. by apply list_elem_of_In.
Qed.

Lemma set_win_ok s i x : windows_ok s -> window_ok x -> windows_ok (set_win s i x).
Proof. intros (L & F & G) Hx. split; [cbn; by rewrite length_insert|]. split; [by apply Forall_insert|done]. Qed.

Lemma set_focus_ok s i : windows_ok s -> -1 <= i < MAX_USER_WINDOWS -> windows_ok (set_focus s i).
Proof. intros (L & F & _) Hi. done. Qed.

Lemma win_set_win s i j x : windows_ok s -> 0 <= i < MAX_USER_WINDOWS -> 0 <= j < MAX_USER_WINDOWS -> win (set_win s i x) j = if j =? i then x else win s j.
Proof. intros (L & _) Hi Hj. unfold MAX_USER_WINDOWS in *. unfold win. cbn [set_win g_windows]. apply at_z_insert; lia. Qed.

(** ** Queues of events *)

(** What is kept when an event arrives, and what a program takes. *)
Definition NEWEST : nat := 31.
Definition received (x : window) (ev : uevent) : window :=
  set_queue x (<[Z.to_nat (w_head x) := ev]> (w_events x)) ((w_head x + 1) mod EVENTS)
    (if (w_head x + 1) mod EVENTS =? w_tail x then (w_tail x + 1) mod EVENTS else w_tail x).

Lemma received_queue x ev : queue_ok x -> queue_ok (received x ev) /\ inbox (received x ev) = latest NEWEST (inbox x ++ [ev]).
Proof.
  intros (L & Hh & Ht). assert (Hb : forall z, 0 <= z mod EVENTS < EVENTS) by (intros; by apply Z.mod_pos_bound).
  split; [|by apply (gap_push no_uevent EVENTS)]. split; [cbn; by rewrite length_insert|]. cbn. split; [apply Hb|]. split_if E; auto.
Qed.

Lemma received_ok x ev : window_ok x -> (w_active x = true -> w_desktop x = false -> inside (w_w x) (w_h x) ev) -> window_ok (received x ev).
Proof.
  intros (Q & A) Hev. destruct (received_queue x ev Q) as (Q' & E). split; [exact Q'|]. intros Ha. destruct (A Ha) as (Hw & Hh & Hi).
  split; [exact Hw|]. split; [exact Hh|]. intros Hd. rewrite E. unfold latest. apply Forall_drop, Forall_app. split; [by apply Hi|]. constructor; [by apply Hev|done].
Qed.

Lemma uwindow_push_event_eq s i ev : uwindow_push_event s i ev = if in_table i && w_active (win s i) then set_win s i (received (win s i) ev) else s.
Proof. unfold uwindow_push_event, uwindow_get. by destruct (in_table i && _). Qed.

(** A window whose events have been taken up to the tail. *)
Definition taken (x : window) : window := set_queue x (w_events x) (w_head x) ((w_tail x + 1) mod EVENTS).

Lemma taken_queue x : queue_ok x -> w_head x <> w_tail x -> queue_ok (taken x) /\ inbox x = at_z no_uevent (w_events x) (w_tail x) :: inbox (taken x).
Proof.
  intros (L & Hh & Ht) Hne. split; [|by apply (gap_pop no_uevent EVENTS)]. split; [exact L|]. split; [exact Hh|]. cbn. by apply Z.mod_pos_bound.
Qed.

(** An event reaches exactly the window it is sent to, which keeps the newest ones. *)
Theorem uwindow_push_event_correct s i ev j : windows_ok s -> 0 <= j < MAX_USER_WINDOWS ->
  inbox (win (uwindow_push_event s i ev) j) = if (j =? i) && w_active (win s i) then latest NEWEST (inbox (win s i) ++ [ev]) else inbox (win s j).
Proof.
  intros Hs Hj. rewrite uwindow_push_event_eq. unfold in_table. destruct (Z.eqb_spec j i) as [->|Hne].
  - replace (0 <=? i) with true by lia. replace (i <? MAX_USER_WINDOWS) with true by lia. cbn [andb]. destruct (w_active (win s i)); [|done].
    rewrite win_set_win, Z.eqb_refl by done. apply received_queue. by apply win_ok.
  - cbn [andb]. split_if E; [|done]. rewrite win_set_win by (done || lia). by replace (j =? i) with false by lia.
Qed.

(** A program takes the oldest event of its window. *)
Theorem uwindow_pop_event_correct s i : windows_ok s -> 0 <= i < MAX_USER_WINDOWS -> w_active (win s i) = true ->
  let '(s', ev) := uwindow_pop_event s i in
  ev = hd_error (inbox (win s i)) /\ inbox (win s' i) = tl (inbox (win s i)) /\ forall j, 0 <= j < MAX_USER_WINDOWS -> j <> i -> win s' j = win s j.
Proof.
  intros Hs Hi Ha. unfold uwindow_pop_event, uwindow_get, in_table. replace (0 <=? i) with true by lia. replace (i <? MAX_USER_WINDOWS) with true by lia.
  rewrite Ha. cbn [andb]. cbv zeta. destruct (win_ok s i Hs) as (Q & _). destruct (Z.eqb_spec (w_head (win s i)) (w_tail (win s i))) as [E|E].
  - assert (N : inbox (win s i) = []) by (unfold inbox, gap, between; by rewrite E, Z.sub_diag). rewrite N. done.
  - destruct (taken_queue _ Q E) as (_ & ->). split; [done|]. split; [by rewrite win_set_win, Z.eqb_refl by done|].
    intros j Hj Hne. rewrite win_set_win by done. by replace (j =? i) with false by lia.
Qed.

(** ** Every operation keeps the table well formed *)

Lemma push_ok s i ev : windows_ok s -> (in_table i = true -> w_active (win s i) = true -> w_desktop (win s i) = false -> inside (w_w (win s i)) (w_h (win s i)) ev) ->
  windows_ok (uwindow_push_event s i ev).
Proof.
  intros Hs Hev. rewrite uwindow_push_event_eq. split_if E; [|done]. apply andb_true_iff in E as [Ei Ea].
  apply set_win_ok; [done|]. apply received_ok; [by apply win_ok|]. by intros _; apply Hev.
Qed.

Lemma closed_ok x opn : window_ok x -> window_ok (set_activity x false opn).
Proof. intros (Q & _). by split. Qed.

Lemma init_ok s : length (g_windows s) = 8%nat -> Forall (fun x => Z.of_nat (length (w_events x)) = EVENTS) (g_windows s) -> -1 <= g_focused s < MAX_USER_WINDOWS ->
  windows_ok (uwindow_init s).
Proof.
  intros L F G. split; [cbn; by rewrite length_map|]. split; [|done]. cbn. apply Forall_map. eapply Forall_impl; [exact F|]. intros x Hx. split; [|done]. split; [exact Hx|]. cbn. done.
Qed.

Lemma destroy_ok s i : windows_ok s -> windows_ok (uwindow_destroy s i).
Proof.
  intros Hs. unfold uwindow_destroy. split_if E; [done|]. assert (H : windows_ok (set_win s i (set_activity (win s i) false false))) by (apply set_win_ok; [done|]; apply closed_ok; by apply win_ok).
  cbv zeta. split_if F; [|done]. apply set_focus_ok; [done|]. unfold MAX_USER_WINDOWS. lia.
Qed.

Lemma destroy_process_ok p s : windows_ok s -> windows_ok (uwindow_destroy_process s p).
Proof.
  unfold uwindow_destroy_process. generalize (seqZ 0 MAX_USER_WINDOWS). intros l. revert s. induction l as [|i l IH]; intros s Hs; cbn [foldl]; [done|].
  apply IH. split_if E; [by apply destroy_ok|done].
Qed.

Lemma pop_ok s i : windows_ok s -> windows_ok (fst (uwindow_pop_event s i)).
Proof.
  intros Hs. unfold uwindow_pop_event. destruct (uwindow_get s i) as [k|] eqn:Eg; [|done]. cbv zeta. destruct (win_ok s k Hs) as (Q & A).
  destruct (Z.eqb_spec (w_head (win s k)) (w_tail (win s k))) as [E|E]; [done|]. destruct (taken_queue _ Q E) as (Q' & I). cbn [fst].
  apply set_win_ok; [done|]. split; [exact Q'|]. intros Ha. destruct (A Ha) as (Hw & Hh & Hi). split; [exact Hw|]. split; [exact Hh|].
  intros Hd. specialize (Hi Hd). rewrite I in Hi. by inversion Hi.
Qed.

Lemma feed_key_ok s c : windows_ok s -> windows_ok (uwindow_feed_key s c).
Proof. intros Hs. unfold uwindow_feed_key. split_if E; [|done]. by apply push_ok. Qed.

Lemma limit_range lo hi x : lo <= hi -> lo <= limit lo hi x <= hi.
Proof. intros H. unfold limit. repeat case_match; lia. Qed.

Lemma create_ok {A} `{FrameAllocator A} (st : mm A) s w h title p : windows_ok s -> windows_ok (snd (fst (uwindow_create st s w h title p))).
Proof.
  intros Hs. unfold uwindow_create. cbv zeta. pose proof (limit_range 100 1920 w ltac:(lia)) as Hw. pose proof (limit_range 50 1200 h ltac:(lia)) as Hh.
  set (w' := limit 100 1920 w) in *. set (h' := limit 50 1200 h) in *. clearbody w' h'.
  destruct (free_window s) as [slot|] eqn:Ef; [|done]. destruct (find_z_Some _ _ _ _ Ef) as (Hr & Hfree & _). apply negb_true_iff in Hfree. rewrite Hfree.
  destruct (win_ok s slot Hs) as ((Le & _) & _).
  assert (Hnew : forall act d g a b t fb v opn c r, window_ok (Window act d g a b w' h' t fb v p opn false false 0 0 true c r (w_events (win s slot)) 0 0)).
  { intros. split; [split; [exact Le|done]|]. intros _. split; [exact Hw|]. split; [exact Hh|]. intros _. constructor. }
  set (x := Window false _ _ _ _ _ _ _ _ _ _ _ _ _ _ _ _ _ _ _ _ _).
  assert (Hx : windows_ok (set_win s slot x)) by (apply set_win_ok; [done|apply Hnew]).
  split_if E1; [exact Hx|]. destruct (alloc_pages st _) as [st1 phys]. split_if E2; [exact Hx|].
  destruct (map_framebuffer _ _ _ _ _ _) as [st2 ok]. destruct ok; cbn [negb fst snd]; [|exact Hx].
  apply set_focus_ok; [|unfold MAX_USER_WINDOWS in *; lia]. apply set_win_ok; [exact Hx|apply Hnew].
Qed.

(** ** Pixels *)

(** The result of copying is there, and the screen is as long as before. *)
Definition drawn (bb : list Z) (r : option (list Z)) : Prop := exists bb', r = Some bb' /\ length bb' = length bb.

Lemma drawn_same bb : drawn bb (Some bb).
Proof. by exists bb. Qed.

Lemma px_some l i : 0 <= i < Z.of_nat (length l) -> px l i = Some (at_z 0 l i).
Proof. intros Hi. unfold px. by replace ((0 <=? i) && (i <? Z.of_nat (length l))) with true by lia. Qed.

Lemma put_px_some l i v : 0 <= i < Z.of_nat (length l) -> put_px l i v = Some (<[Z.to_nat i := v]> l).
Proof. intros Hi. unfold put_px. by replace ((0 <=? i) && (i <? Z.of_nat (length l))) with true by lia. Qed.

Lemma row_drawn n blend skip src dst fb : forall c bb,
  (forall k, c <= k < c + Z.of_nat n -> 0 <= src k < Z.of_nat (length fb) /\ 0 <= dst k < Z.of_nat (length bb)) -> drawn bb (row n c blend skip src dst fb bb).
Proof.
  induction n as [|n IH]; intros c bb Hr; cbn [row]; [apply drawn_same|]. destruct (skip c); [apply IH; intros k Hk; apply Hr; lia|].
  destruct (Hr c ltac:(lia)) as (Hs & Hd). rewrite (px_some fb) by done. cbn [mbind option_bind].
  rewrite (px_some bb) by done. cbn [fmap option_fmap option_map].
  assert (Hv : exists v, (if blend && negb (opaque (at_z 0 fb (src c))) then Some (mix (at_z 0 fb (src c)) (at_z 0 bb (dst c))) else Some (at_z 0 fb (src c))) = Some v) by (split_if E; by eexists).
  destruct Hv as (v & ->). cbn [mbind option_bind]. rewrite put_px_some by done. cbn [mbind option_bind].
  destruct (IH (c + 1) (<[Z.to_nat (dst c) := v]> bb)) as (bb' & E & L).
  { rewrite length_insert. intros k Hk. apply Hr. lia. }
  exists bb'. split; [exact E|]. by rewrite length_insert in L.
Qed.

Lemma rows_drawn n f : forall r bb, (forall k bb', r <= k < r + Z.of_nat n -> length bb' = length bb -> drawn bb' (f k bb')) -> drawn bb (rows n r f bb).
Proof.
  induction n as [|n IH]; intros r bb Hf; cbn [rows]; [apply drawn_same|]. destruct (Hf r bb ltac:(lia) eq_refl) as (bb1 & -> & L). cbn [mbind option_bind].
  destruct (IH (r + 1) bb1) as (bb2 & E & L2); [intros k bb' Hk Hl; apply Hf; [lia|congruence]|]. exists bb2. split; [exact E|congruence].
Qed.

Lemma rows_between_drawn lo hi f bb : (forall k bb', lo <= k < hi -> length bb' = length bb -> drawn bb' (f k bb')) -> drawn bb (rows_between lo hi f bb).
Proof. intros Hf. apply rows_drawn. intros k bb' Hk. apply Hf. lia. Qed.

(** A pixel of a picture with [h] rows of [w]. *)
Lemma pixel_range w h r c i : i = r * w + c -> 0 <= r < h -> 0 <= c < w -> 0 <= i < w * h.
Proof. nia. Qed.

(** The clipped part of an axis is inside both. *)
Lemma clip_range at0 n size k : clip_start at0 <= k < clip_end at0 n size -> 0 <= k < n /\ 0 <= at0 + k < size.
Proof. unfold clip_start, clip_end. intros Hk. destruct (Z.ltb_spec at0 0), (Z.ltb_spec size (at0 + n)); lia. Qed.

(** The pixels handed over with a window and those of the screen. *)
Definition pixels_fit (e : screen) (i : Z) (x : window) : Prop := Z.of_nat (length (pixels e i)) = w_w x * w_h x.
Definition screen_fits (e : screen) (bb : list Z) : Prop := Z.of_nat (length bb) = scr_w e * scr_h e.

Lemma blit_desktop_drawn e i x bb : pixels_fit e i x -> screen_fits e bb -> drawn bb (blit_desktop e x (pixels e i) bb).
Proof.
  unfold pixels_fit, screen_fits. intros Hp Hb. unfold blit_desktop. split_if E; [apply drawn_same|]. apply rows_between_drawn. intros r bb' Hr Hl. apply row_drawn. intros c Hc.
  rewrite Hl, Hp, Hb. destruct (Z.ltb_spec (w_w x) (scr_w e)), (Z.ltb_spec (w_h x) (scr_h e)); split; eapply pixel_range; (done || lia).
Qed.

Lemma blit_plain_drawn e i x bb : pixels_fit e i x -> screen_fits e bb -> drawn bb (blit_plain e x (pixels e i) bb).
Proof.
  unfold pixels_fit, screen_fits. intros Hp Hb. unfold blit_plain. cbv zeta. apply rows_between_drawn. intros r bb' Hr%clip_range Hl. apply row_drawn. intros c Hc. rewrite Hl, Hp, Hb.
  assert (Hk : clip_start (w_x x) <= clip_start (w_x x) + c < clip_end (w_x x) (w_w x) (scr_w e)) by lia. apply clip_range in Hk.
  split; [apply (pixel_range _ _ r (clip_start (w_x x) + c))|apply (pixel_range _ _ (w_y x + USER_WINDOW_HEADER_H + r) (w_x x + (clip_start (w_x x) + c)))]; lia.
Qed.

(** A scaled coordinate is inside the picture. *)
Lemma scaled_range k n size : 0 <= k < n -> 0 < size -> 0 <= k * size / n < size.
Proof. intros Hk Hs. split; [apply Z.div_pos; nia|]. apply Z.div_lt_upper_bound; nia. Qed.

Lemma blit_scaled_drawn e i x l bb : pixels_fit e i x -> screen_fits e bb -> 0 < w_w x -> 0 < w_h x -> drawn bb (blit_scaled e x l (pixels e i) bb).
Proof.
  unfold pixels_fit, screen_fits. intros Hp Hb Hw Hh. unfold blit_scaled. cbv zeta. apply rows_between_drawn. intros r bb' Hr%clip_range Hl. apply row_drawn. intros c Hc. rewrite Hl, Hp, Hb.
  assert (Hk : clip_start (l_x l) <= clip_start (l_x l) + c < clip_end (l_x l) (l_w l) (scr_w e)) by lia. apply clip_range in Hk.
  pose proof (scaled_range r (l_h l - l_hdr l) (w_h x) ltac:(lia) Hh) as Sy. pose proof (scaled_range (clip_start (l_x l) + c) (l_w l) (w_w x) ltac:(lia) Hw) as Sx.
  assert (Ey : (w_h x <=? r * w_h x / (l_h l - l_hdr l)) = false) by lia. assert (Ex : (w_w x <=? (clip_start (l_x l) + c) * w_w x / l_w l) = false) by lia.
  rewrite Ey, Ex. split; [by eapply pixel_range|]. apply (pixel_range _ _ (l_y l + l_hdr l + r) (l_x l + (clip_start (l_x l) + c))); lia.
Qed.

Lemma blit_drawn e i x l bb : pixels_fit e i x -> screen_fits e bb -> 0 < w_w x -> 0 < w_h x -> drawn bb (blit e i x l bb).
Proof. intros. unfold blit. repeat case_match; auto using drawn_same, blit_plain_drawn, blit_scaled_drawn. Qed.

(** ** Drawing *)

(** Drawing on the screen does not change its size. *)
Class PainterLaws `{PT : Painter} := draw_length d bb : length (draw d bb) = length bb.

(** What is handed to [uwindow_render_all]: the screen, and all pixels of every window. *)
Definition drawable (e : screen) (s : windows) (bb : list Z) : Prop :=
  screen_fits e bb /\ forall i, 0 <= i < MAX_USER_WINDOWS -> w_active (win s i) = true -> pixels_fit e i (win s i).

(** Drawing changes neither which windows there are nor their size. *)
Definition frame_ok (e : screen) (s : windows) (f : frame) : Prop :=
  windows_ok (f_windows f) /\ (forall j, 0 <= j < MAX_USER_WINDOWS -> shape (at_win f j) = shape (win s j)) /\ screen_fits e (f_bb f).

Section Drawing.
Context `{PL : PainterLaws}.
Context (e : screen) (s : windows).
Implicit Types (f : frame) (x : window).

Lemma with_win_ok f i x : frame_ok e s f -> 0 <= i < MAX_USER_WINDOWS -> window_ok x -> shape x = shape (at_win f i) -> frame_ok e s (with_win f i x).
Proof.
  intros (Hs & Hsh & Hb) Hi Hx Ex. split; [by apply set_win_ok|]. split; [|exact Hb]. intros j Hj. unfold at_win. cbn [with_win f_windows].
  rewrite win_set_win by done. destruct (Z.eqb_spec j i) as [->|]; [rewrite Ex|]; by apply Hsh.
Qed.

Lemma captured_ok f : frame_ok e s f -> frame_ok e s (captured f).
Proof. done. Qed.

Lemma focused_ok f i : frame_ok e s f -> 0 <= i < MAX_USER_WINDOWS -> frame_ok e s (focused f i).
Proof. intros (Hs & Hsh & Hb) Hi. split; [|done]. apply set_focus_ok; [done|]. lia. Qed.

Lemma painted_ok f bb : frame_ok e s f -> length bb = length (f_bb f) -> frame_ok e s (painted f bb).
Proof. intros (Hs & Hsh & Hb) L. split; [done|]. split; [done|]. unfold screen_fits in *. cbn. by rewrite L. Qed.

Lemma paint_ok f l : frame_ok e s f -> frame_ok e s (paint f l).
Proof.
  intros Hf. apply painted_ok; [done|]. generalize (f_bb f). induction l as [|d l IH]; intros bb; cbn [foldl]; [done|]. by rewrite IH, draw_length.
Qed.

Lemma frame_pushed_ok f i ev : frame_ok e s f -> 0 <= i < MAX_USER_WINDOWS -> (w_desktop (at_win f i) = false -> inside (w_w (at_win f i)) (w_h (at_win f i)) ev) -> frame_ok e s (pushed f i ev).
Proof.
  intros (Hs & Hsh & Hb) Hi Hev. split; [apply push_ok; [done|]; by intros _ _|]. split; [|exact Hb]. intros j Hj. unfold at_win. cbn [pushed f_windows].
  rewrite uwindow_push_event_eq. split_if E; [|by apply Hsh]. rewrite win_set_win by done. destruct (Z.eqb_spec j i) as [->|]; by rewrite <-Hsh.
Qed.

Lemma at_win_ok f i : frame_ok e s f -> window_ok (at_win f i).
Proof. intros (Hs & _). by apply win_ok. Qed.

(** Setters of what is not in the shape. *)
Ltac set_window Hf := apply with_win_ok; [exact Hf|done|exact (at_win_ok _ _ Hf)|done].

Lemma animate_ok f i : frame_ok e s f -> 0 <= i < MAX_USER_WINDOWS -> frame_ok e s (fst (animate f i)).
Proof.
  intros Hf Hi. unfold animate. cbv zeta. split_if E1; [set_window Hf|]. split_if E2; [|exact Hf].
  set (f1 := with_win f i _). assert (H1 : frame_ok e s f1) by set_window Hf. split_if E3; [|exact H1].
  set (f2 := pushed f1 i _). assert (H2 : frame_ok e s f2) by (apply frame_pushed_ok; done). cbn [fst]. set_window H2.
Qed.

Lemma drag_ok f i : frame_ok e s f -> 0 <= i < MAX_USER_WINDOWS -> frame_ok e s (drag e f i).
Proof. intros Hf Hi. unfold drag. cbv zeta. split_if E1; [|exact Hf]. apply captured_ok. split_if E2; set_window Hf. Qed.

Lemma press_ok f i on_button : frame_ok e s f -> 0 <= i < MAX_USER_WINDOWS -> frame_ok e s (press e f i on_button).
Proof.
  intros Hf Hi. unfold press. cbv zeta. split_if E1; [|exact Hf]. split_if E2.
  - split_if E3; [|exact Hf]. apply captured_ok, focused_ok; [|done].
    assert (H : frame_ok e s (with_win f i (set_drag (at_win f i) true (mx e - w_x (at_win f i)) (my e - w_y (at_win f i))))) by set_window Hf. exact H.
  - split_if E3; [|exact Hf]. by apply captured_ok, focused_ok.
Qed.

Lemma deliver_ok f i : frame_ok e s f -> 0 <= i < MAX_USER_WINDOWS -> frame_ok e s (deliver e f i).
Proof.
  intros Hf Hi. unfold deliver. cbv zeta. split_if E1; [|exact Hf]. destruct (mouse_event _ _ _ _ _) as [ev|] eqn:Ev; [|by apply captured_ok].
  apply frame_pushed_ok; [by apply captured_ok|done|]. intros _ _. change (at_win (captured f) i) with (at_win f i).
  unfold in_client, in_width in E1. rewrite !andb_true_iff in E1.
  assert (Hxy : ev_mx ev = mx e - w_x (at_win f i) /\ ev_my ev = my e - (w_y (at_win f i) + USER_WINDOW_HEADER_H)).
  { revert Ev. unfold mouse_event. cbv zeta. repeat case_match; intros [= <-]; done. }
  lia.
Qed.

(** Drawing one window. *)
Lemma render_window_ok f i : frame_ok e s f -> (forall j, 0 <= j < MAX_USER_WINDOWS -> w_active (win s j) = true -> pixels_fit e j (win s j)) -> 0 <= i < MAX_USER_WINDOWS ->
  exists f', render_window e f i = Some f' /\ frame_ok e s f'.
Proof.
  intros Hf Hfit Hi. unfold render_window. destruct (visible (at_win f i)) eqn:Ev; cbn [negb]; [|by exists f].
  assert (Ha : w_active (win s i) = true) by (destruct Hf as (_ & Hsh & _); specialize (Hsh i Hi) as [= E _ _ _]; rewrite <-E; revert Ev; unfold visible; by destruct (w_active _)).
  pose proof (animate_ok f i Hf Hi) as H1. destruct (animate f i) as [f1 go]. cbn [fst] in H1. destruct go; cbn [negb]; [|by exists f1].
  cbv zeta. pose proof (drag_ok f1 i H1 Hi) as H2. set (f2 := drag e f1 i) in *. clearbody f2. set (l := layout_of (at_win f2 i)). clearbody l.
  destruct (buttons (align_right e) l) as [[close_x min_x] zoom_x]. set (on := _ || _ || _).
  pose proof (press_ok f2 i on H2 Hi) as H3. set (f3 := press e f2 i on) in *. clearbody f3.
  set (ch := chrome _ _ _ _ _ _). clearbody ch. assert (H4 : frame_ok e s (paint f3 ch)) by by apply paint_ok. set (f4 := paint f3 ch) in *. change (at_win f3 i) with (at_win f4 i) in *. clearbody f4.
  split_if E1; [eexists; split; [reflexivity|]; apply captured_ok; set_window H4|]. split_if E2; [eexists; split; [reflexivity|]; apply captured_ok; set_window H4|].
  set (lab := [title_label _ _ _]). assert (H5 : frame_ok e s (paint f4 lab)) by by apply paint_ok.
  assert (Hx : window_ok (at_win f4 i)) by (by apply at_win_ok). assert (Hsh : shape (at_win f4 i) = shape (win s i)) by (by apply H4). injection Hsh as Sa Sd Sw Sh.
  destruct Hx as (_ & Hx). rewrite Sa in Hx. destruct (Hx Ha) as (Hw & Hh & _).
  destruct (blit_drawn e i (at_win f4 i) l (f_bb (paint f4 lab))) as (bb & -> & L); [|apply H5|lia|lia|].
  { specialize (Hfit i Hi Ha). unfold pixels_fit in *. by rewrite Sw, Sh. }
  cbn [mbind option_bind]. eexists. split; [reflexivity|]. apply deliver_ok; [|done]. apply paint_ok, painted_ok; done.
Qed.

Lemma render_windows_ok n : forall i f, frame_ok e s f -> (forall j, 0 <= j < MAX_USER_WINDOWS -> w_active (win s j) = true -> pixels_fit e j (win s j)) -> 
  0 <= i -> i + Z.of_nat n <= MAX_USER_WINDOWS -> exists f', render_windows e n i f = Some f' /\ frame_ok e s f'.
Proof.
  induction n as [|n IH]; intros i f Hf Hfit Hi Hn; cbn [render_windows]; [by exists f|].
  destruct (render_window_ok f i Hf Hfit ltac:(lia)) as (f1 & -> & H1). cbn [mbind option_bind]. apply IH; auto; lia.
Qed.

Lemma desktop_slot_range d : desktop_slot s = Some d -> 0 <= d < MAX_USER_WINDOWS /\ w_active (win s d) = true /\ w_desktop (win s d) = true.
Proof. intros (Hr & Hp & _)%find_z_Some. rewrite !andb_true_iff in Hp. unfold MAX_USER_WINDOWS in *. split; [lia|tauto]. Qed.

(** Drawing all windows succeeds and keeps the table. *)
Lemma render_all_ok bb free : windows_ok s -> drawable e s bb ->
  exists s' bb' free', uwindow_render_all e s bb free = Some (s', bb', free') /\ windows_ok s' /\ length bb' = length bb.
Proof.
  intros Hs (Hb & Hfit). unfold uwindow_render_all. cbv zeta.
  assert (H0 : exists bb0, match desktop_slot s with Some d => blit_desktop e (win s d) (pixels e d) bb | None => Some bb end = Some bb0 /\ length bb0 = length bb).
  { destruct (desktop_slot s) as [d|] eqn:Ed; [|by exists bb]. apply desktop_slot_range in Ed as (Hd & Ha & _). apply blit_desktop_drawn; [by apply Hfit|exact Hb]. }
  destruct H0 as (bb0 & -> & L0). cbn [mbind option_bind].
  destruct (render_windows_ok (Z.to_nat MAX_USER_WINDOWS) 0 (Frame s bb0 free false)) as (f & -> & Hf); [|exact Hfit|lia|done|].
  { split; [exact Hs|]. split; [done|]. unfold screen_fits in *. cbn. by rewrite L0. }
  cbn [mbind option_bind]. set (f' := match desktop_slot s with Some d => _ | None => f end). assert (Hf' : frame_ok e s f').
  { unfold f'. destruct (desktop_slot s) as [d|] eqn:Ed; [|exact Hf]. apply desktop_slot_range in Ed as (Hd & Ha & Hk). split_if Ec; [exact Hf|].
    destruct (desktop_event e f); [|exact Hf]. apply frame_pushed_ok; [exact Hf|exact Hd|]. destruct Hf as (_ & Hsh & _). specialize (Hsh d Hd) as [= _ -> _ _]. by rewrite Hk. }
  clearbody f'. destruct Hf' as (Hs' & _ & Hb'). exists (remember e (f_windows f')), (f_bb f'), (f_drag_free f'). split; [done|]. split; [exact Hs'|].
  unfold screen_fits in *. lia.
Qed.
End Drawing.

Lemma toggle_ok s sub s' : windows_ok s -> toggle_user_app s sub = Some s' -> windows_ok s'.
Proof.
  intros Hs. unfold toggle_user_app. destruct (find_uwindow_by_title_substr s sub) as [i|]; [|done]. cbv zeta. intros [= <-].
  apply set_win_ok; [done|]. split_if E; exact (win_ok s i Hs).
Qed.

(** ** All sequences of operations *)

Section Reach.
Context {A : Type} `{FrameAllocator A} `{PL : PainterLaws}.

(** One call into [kernel/uwindow.c], or one click on an icon. *)
Inductive window_step (s : windows) : windows -> Prop :=
| step_create (st : mm A) w h title pml4 : window_step s (snd (fst (uwindow_create st s w h title pml4)))
| step_destroy i : window_step s (uwindow_destroy s i)
| step_destroy_process pml4 : window_step s (uwindow_destroy_process s pml4)
| step_pop i : window_step s (fst (uwindow_pop_event s i))
| step_key c : window_step s (uwindow_feed_key s c)
| step_focus b : window_step s (uwindow_set_focused s b)
| step_toggle sub s' : toggle_user_app s sub = Some s' -> window_step s s'
| step_render e bb free s' bb' free' : drawable e s bb -> uwindow_render_all e s bb free = Some (s', bb', free') -> window_step s s'.

Lemma window_step_ok s s' : windows_ok s -> window_step s s' -> windows_ok s'.
Proof.
  intros Hs [st w h title p|i|p|i|c|b|sub s1 E|e bb free s1 bb1 free1 Hf E].
  - by apply create_ok.
  - by apply destroy_ok.
  - by apply destroy_process_ok.
  - by apply pop_ok.
  - by apply feed_key_ok.
  - unfold uwindow_set_focused. destruct b; [done|]. apply set_focus_ok; [done|]. by unfold MAX_USER_WINDOWS.
  - by eapply toggle_ok.
  - destruct (render_all_ok e s bb free Hs Hf) as (s2 & bb2 & free2 & E2 & Hs2 & _). rewrite E in E2. by injection E2 as <- <- <-.
Qed.
End Reach.

(** The state of the machine at start. *)
Definition blank_windows : windows := Windows (replicate 8 no_window) (-1) false 0 0 false.


(** ** The end of a process *)

Lemma win_destroy s i j : windows_ok s -> 0 <= i < MAX_USER_WINDOWS -> 0 <= j < MAX_USER_WINDOWS ->
  win (uwindow_destroy s i) j = if j =? i then set_activity (win s i) false false else win s j.
Proof.
  intros Hs Hi Hj. unfold uwindow_destroy, in_table. replace (0 <=? i) with true by lia. replace (i <? MAX_USER_WINDOWS) with true by lia. cbn [negb andb]. cbv zeta.
  rewrite <-(win_set_win s i j) by done. by split_if E.
Qed.

Lemma destroy_loop p l : forall s, windows_ok s -> NoDup l -> Forall (fun i => 0 <= i < MAX_USER_WINDOWS) l ->
  forall j, 0 <= j < MAX_USER_WINDOWS ->
  win (foldl (fun s i => if owned s p i then uwindow_destroy s i else s) s l) j = if bool_decide (j ∈ l) && owned s p j then set_activity (win s j) false false else win s j.
Proof.
  induction l as [|i l IH]; intros s Hs Hn Hl j Hj; cbn [foldl]; [done|]. apply NoDup_cons in Hn as [Hi Hn']. apply Forall_cons in Hl as [Ri Hl'].
  assert (E : forall k, 0 <= k < MAX_USER_WINDOWS -> win (if owned s p i then uwindow_destroy s i else s) k = if (k =? i) && owned s p i then set_activity (win s i) false false else win s k).
  { intros k Hk. destruct (owned s p i); [rewrite win_destroy by done|]; by destruct (k =? i). }
  rewrite IH; [|split_if Eo; [by apply destroy_ok|done]|done|done|done]. unfold owned at 1. rewrite E by done.
  destruct (Z.eqb_spec j i) as [->|Hne]; cbn [andb].
  - rewrite (bool_decide_eq_false_2 (i ∈ l)) by done. cbn [andb]. rewrite (bool_decide_eq_true_2 (i ∈ i :: l)) by constructor. done.
  - replace (bool_decide (j ∈ i :: l)) with (bool_decide (j ∈ l)); [done|]. apply bool_decide_ext. rewrite elem_of_cons. split; [by right|by intros [->|]].
Qed.

(** When a process ends exactly its windows are closed. *)
Theorem uwindow_destroy_process_correct s p j : windows_ok s -> 0 <= j < MAX_USER_WINDOWS ->
  win (uwindow_destroy_process s p) j = if owned s p j then set_activity (win s j) false false else win s j.
Proof.
  intros Hs Hj. unfold uwindow_destroy_process. rewrite destroy_loop; [|done|apply NoDup_seqZ|by apply Forall_seqZ|done].
  rewrite bool_decide_eq_true_2 by (apply elem_of_seqZ; lia). done.
Qed.

(** ** Examples *)

(** Frames one after the other, and drawing that leaves the screen alone. *)
#[local] Instance demo_frames : FrameAllocator Z := { fa_alloc_pages s n := (s + n * PAGE_SIZE, s); fa_free_pages s _ _ := (s, 0) }.
#[local] Instance demo_painter : Painter := { draw _ bb := bb; font_text_width t := 8 * Z.of_nat (length t) }.
#[local] Instance demo_painter_laws : PainterLaws.
Proof. done. Qed.

Definition demo_created : windows := snd (fst (uwindow_create (Mm 0x100000 ∅ 0x1000 0x2000) (uwindow_init blank_windows) 100 50 (Some (str "Clock")) 0x1000)).

(** A screen of 20 x 10 pixels, and as many pixels as a window has. *)
Definition demo_shot (s : windows) : screen := Screen 20 10 5 5 true false false false (fun i => replicate (Z.to_nat (w_w (win s i) * w_h (win s i))) 0).


(** A window without pixels. *)
Definition demo_window (x y : Z) (title : list Z) : window := Window true false false x y 100 50 title 0 0 0x1000 true false false 0 0 false 0 0 (replicate 32 no_uevent) 0 0.
Definition demo_desk (l : list window) : windows := Windows (l ++ replicate (8 - length l) no_window) (-1) false 0 0 false.
Definition demo_screen (x y : Z) : screen := Screen 20 10 x y true false false false (fun _ => []).

(** Where two windows overlap both programs get the press, each in its own coordinates: there
    is no order of the windows for the mouse. *)
Example overlapping_windows_share_press :
  let s := demo_desk [demo_window 220 120 (str "A"); demo_window 250 150 (str "B")] in
  option_map (fun '(s', _, _) => (inbox (win s' 0), inbox (win s' 1))) (uwindow_render_all (demo_screen 260 190) s (replicate 200 0) true) =
  Some ([Uevent EVENT_MOUSE_DOWN 40 40 1 0], [Uevent EVENT_MOUSE_DOWN 10 10 1 0]).
Proof. by vm_compute. Qed.

(** A window that is hidden by its button and whose title has none of the words of the icons
    cannot be shown again, but keeps getting the keys. *)
Theorem hidden_window_stays :
  let s := demo_desk [demo_window 220 120 (str "Clock")] in
  exists s' bb free, uwindow_render_all (demo_screen 255 132) (set_focus s 0) (replicate 200 0) true = Some (s', bb, free) /\
    w_minimized (win s' 0) = true /\ (forall word, word ∈ toggled_titles -> toggle_user_app s' word = None) /\
    inbox (win (uwindow_feed_key s' 65) 0) = [Uevent EVENT_KEY_DOWN 0 0 0 65].
Proof.
  eexists _, _, _. split; [by vm_compute|]. split; [done|]. split; [|by vm_compute]. intros word Hw%list_elem_of_In. vm_compute in Hw.
  repeat (destruct Hw as [<-|Hw]; [by vm_compute|]). done.
Qed.
