(* ===== verification/Service.v ===== *)
(** Supervised services: [kernel/service.c] and [kernel/service.h].

    The table is its live prefix, [g_service_count] its length: the slots behind it are
    written in full before they are counted.  C strings are their characters without the
    final zero.  The clock, processes, start functions and files are the interface
    [ServiceEnv]; log messages are left out. *)
From S2P Require Import Prelude.

Definition SERVICE_MAX : Z := 16.
Definition SERVICE_NAME_MAX : Z := 24.
Definition SERVICE_PATH_MAX : Z := 128.
Definition SERVICE_NO_DEPENDENCY : Z := -1.

Inductive service_state := SERVICE_STOPPED | SERVICE_STARTING | SERVICE_READY | SERVICE_FAILED.
#[export] Instance service_state_eq_dec : EqDecision service_state.
Proof. solve_decision. Defined.

(** [start] is a function pointer, 0 the null one. *)
Record service_info := ServiceInfo {
  s_id : Z; s_name : list Z; dependency : Z; start : Z; s_state : service_state;
  start_count : Z; restart_limit : Z; restart_count : Z; process_id : Z; userspace : bool;
  heartbeat_timeout_ms : Z; last_heartbeat_ms : Z; restart_at_ms : Z; s_path : list Z
}.

Record manager := Manager { g_services : list service_info; next_poll_ms : Z }.

(** What the manager uses of the rest of the kernel.  [call_start] calls a start function
    and gives its result; [process_spawn_path] gives the id of the process, if there is one. *)
Class ServiceEnv (W : Type) := {
  timer_millis : W -> Z;
  call_start : W -> Z -> W * Z;
  process_spawn_path : W -> list Z -> W * option Z;
  process_exists : W -> Z -> bool;
  process_kill : W -> Z -> W;
  vfs_read : W -> list Z -> Z -> W * Z * list Z
}.

(** ** The table *)

Definition no_service : service_info := ServiceInfo 0 [] 0 0 SERVICE_STOPPED 0 0 0 0 false 0 0 0 [].
Definition service (l : list service_info) (i : Z) : service_info := at_z no_service l i.
Definition upd (l : list service_info) (i : Z) (f : service_info -> service_info) : list service_info :=
  <[Z.to_nat i := f (service l i)]> l.
Definition count (l : list service_info) : Z := Z.of_nat (length l).

Definition set_state (st : service_state) (x : service_info) : service_info :=
  ServiceInfo (s_id x) (s_name x) (dependency x) (start x) st (start_count x) (restart_limit x) (restart_count x)
    (process_id x) (userspace x) (heartbeat_timeout_ms x) (last_heartbeat_ms x) (restart_at_ms x) (s_path x).
Definition set_restarts (n : Z) (x : service_info) : service_info :=
  ServiceInfo (s_id x) (s_name x) (dependency x) (start x) (s_state x) (start_count x) (restart_limit x) n
    (process_id x) (userspace x) (heartbeat_timeout_ms x) (last_heartbeat_ms x) (restart_at_ms x) (s_path x).
Definition set_limit (n : Z) (x : service_info) : service_info :=
  ServiceInfo (s_id x) (s_name x) (dependency x) (start x) (s_state x) (start_count x) n (restart_count x)
    (process_id x) (userspace x) (heartbeat_timeout_ms x) (last_heartbeat_ms x) (restart_at_ms x) (s_path x).
Definition set_heartbeat (t : Z) (x : service_info) : service_info :=
  ServiceInfo (s_id x) (s_name x) (dependency x) (start x) (s_state x) (start_count x) (restart_limit x) (restart_count x)
    (process_id x) (userspace x) (heartbeat_timeout_ms x) t (restart_at_ms x) (s_path x).
Definition set_restart_at (t : Z) (x : service_info) : service_info :=
  ServiceInfo (s_id x) (s_name x) (dependency x) (start x) (s_state x) (start_count x) (restart_limit x) (restart_count x)
    (process_id x) (userspace x) (heartbeat_timeout_ms x) (last_heartbeat_ms x) t (s_path x).
Definition set_process (p : Z) (x : service_info) : service_info :=
  ServiceInfo (s_id x) (s_name x) (dependency x) (start x) (s_state x) (start_count x) (restart_limit x) (restart_count x)
    p (userspace x) (heartbeat_timeout_ms x) (last_heartbeat_ms x) (restart_at_ms x) (s_path x).
Definition set_started (x : service_info) : service_info :=
  ServiceInfo (s_id x) (s_name x) (dependency x) (start x) (s_state x) (u32 (start_count x + 1)) (restart_limit x) (restart_count x)
    (process_id x) (userspace x) (heartbeat_timeout_ms x) (last_heartbeat_ms x) (restart_at_ms x) (s_path x).

Definition service_find (l : list service_info) (name : list Z) : Z :=
  match list_find (fun x => s_name x = name) l with Some (i, _) => Z.of_nat i | None => -1 end.

Definition copy_name (src : list Z) : list Z := take (Z.to_nat (SERVICE_NAME_MAX - 1)) src.

Definition service_manager_init (m : manager) : manager := Manager [] (next_poll_ms m).

Definition add_service (l : list service_info) (x : service_info) : list service_info * Z := (l ++ [x], count l).

Definition service_register (l : list service_info) (name : option (list Z)) (dep st : Z) : list service_info * Z :=
  match name with
  | None => (l, -1)
  | Some name =>
      if (st =? 0) || (SERVICE_MAX <=? count l) then (l, -1)
      else if (count l <=? dep) || (dep <? SERVICE_NO_DEPENDENCY) then (l, -1)
      else add_service l (ServiceInfo (count l) (copy_name name) dep st SERVICE_STOPPED 0 2 0 (-1) false 0 0 0 [])
  end.

Definition service_register_userspace (l : list service_info) (name : option (list Z)) (dep : Z) (path : option (list Z)) (timeout : Z) : list service_info * Z :=
  match name, path with
  | Some name, Some (c :: rest) =>
      let path := c :: rest in
      if (SERVICE_MAX <=? count l) || (count l <=? dep) || (dep <? SERVICE_NO_DEPENDENCY) || (timeout <? 1000) then (l, -1)
      else if SERVICE_PATH_MAX <=? Z.of_nat (length path) then (l, -1)
      else add_service l (ServiceInfo (count l) (copy_name name) dep 0 SERVICE_STOPPED 0 4 0 (-1) true timeout 0 0 path)
  | _, _ => (l, -1)
  end.

Definition service_set_restart_limit (l : list service_info) (id limit : Z) : list service_info * Z :=
  if (id <? 0) || (count l <=? id) || (16 <? limit) then (l, -1) else (upd l id (set_limit limit), 0).

Definition service_get (l : list service_info) (id : Z) : option service_info :=
  if (0 <=? id) && (id <? count l) then Some (service l id) else None.

Definition is_ready (x : service_info) : bool := bool_decide (s_state x = SERVICE_READY).
Definition service_ready_count (l : list service_info) : Z := zsum (fun x => b2z (is_ready x)) l.

(** ** The manifest *)

Definition is_blank (c : Z) : bool := (c =? 32) || (c =? 9) || (c =? 13).
Definition is_white (c : Z) : bool := is_blank c || (c =? 10).
Definition skip (p : Z -> bool) (data : list Z) : list Z := drop (span_len p data) data.

(** What a C string function sees of a field. *)
Definition cstr (s : list Z) : list Z := take (span_len (fun c => negb (c =? 0)) s) s.

Fixpoint parse_digits (value : Z) (text : list Z) : option Z :=
  match text with
  | [] => Some value
  | c :: text =>
      if (c <? 48) || (57 <? c) || ((2 ^ 64 - 1 - (c - 48)) / 10 <? value) then None
      else parse_digits (value * 10 + (c - 48)) text
  end.
Definition parse_u64 (text : list Z) : option Z := match text with [] => None | _ => parse_digits 0 text end.

(** At most [n] fields of a line, and what follows them. *)
Fixpoint line_fields (n : nat) (data : list Z) : list (list Z) * list Z :=
  match n, data with
  | O, _ | _, [] => ([], data)
  | S n, c :: _ =>
      if c =? 10 then ([], data)
      else
        let len := span_len (fun c => negb (is_white c)) data in
        let after := match drop len data with c :: rest => if c =? 10 then c :: rest else rest | [] => [] end in
        let '(fs, rest) := line_fields n (skip is_blank after) in
        (cstr (take len data) :: fs, rest)
  end.

(** One record; with a flag whether it was registered. *)
Definition manifest_record (l : list service_info) (fields : list (list Z)) : list service_info * bool :=
  match fields with
  | [name; path; dep; timeout; limit] =>
      let no_dependency := bool_decide (dep = [45; 49]) in
      let dependency := if no_dependency then SERVICE_NO_DEPENDENCY else service_find l dep in
      match parse_u64 timeout, parse_u64 limit with
      | Some timeout, Some limit =>
          if (negb no_dependency && (dependency <? 0)) || (16 <? limit) then (l, false)
          else
            let '(l1, id) := service_register_userspace l (Some name) dependency (Some path) timeout in
            if id <? 0 then (l1, false)
            else let '(l2, rc) := service_set_restart_limit l1 id limit in (l2, rc =? 0)
      | _, _ => (l, false)
      end
  | _ => (l, false)
  end.

Definition line_end (c : Z) : bool := negb (c =? 10).

(** The records of a manifest; [None] only without fuel. *)
Fixpoint manifest_loop (fuel : nat) (l : list service_info) (data : list Z) (loaded : Z) : option (list service_info * Z) :=
  match fuel with
  | O => None
  | S fuel =>
      match skip is_white data with
      | [] => Some (l, loaded)
      | (c :: _) as data =>
          if c =? 35 then manifest_loop fuel l (skip line_end data) loaded
          else
            let '(fs, rest) := line_fields 5 data in
            let over := (Z.of_nat (length fs) =? 5) && match rest with [] => false | c :: _ => negb (c =? 10) end in
            let fs := if over then [] else fs in
            let rest := if over then skip line_end rest else rest in
            let rest := match rest with c :: r => if c =? 10 then r else rest | [] => [] end in
            let '(l, ok) := manifest_record l fs in
            manifest_loop fuel l rest (loaded + b2z ok)
      end
  end.

Section Service.
Context {W : Type} `{SE : ServiceEnv W}.

Definition service_load_manifest (w : W) (l : list service_info) (path : option (list Z)) : option (W * list service_info * Z) :=
  match path with
  | None => Some (w, l, -1)
  | Some path =>
      let '(w, bytes, out) := vfs_read w path 4095 in
      if (bytes <=? 0) || (4096 <=? bytes) then Some (w, l, -1)
      else '(l, loaded) ← manifest_loop (S (length out)) l out 0; Some (w, l, loaded)
  end.

(** ** Starting *)

(** The end of [service_start_one], the dependency being ready. *)
Definition launch (w : W) (l : list service_info) (id : Z) : W * list service_info * Z :=
  let x := service l id in
  let '(w, l, result) :=
    if userspace x then
      let '(w, p) := process_spawn_path w (s_path x) in
      (w, upd l id (fun x => set_heartbeat (timer_millis w) (set_process (default (-1) p) x)), match p with Some _ => 0 | None => -1 end)
    else let '(w, r) := call_start w (start x) in (w, l, r) in
  (w, upd l id (fun x => set_state (if result =? 0 then SERVICE_READY else SERVICE_FAILED) (set_started x)), result).

(** [None] only without fuel. *)
Fixpoint service_start_one (fuel : nat) (w : W) (l : list service_info) (id visiting : Z) : option (W * list service_info * Z) :=
  match fuel with
  | O => None
  | S fuel =>
      if (id <? 0) || (count l <=? id) then Some (w, l, -1)
      else if is_ready (service l id) then Some (w, l, 0)
      else if Z.testbit visiting id then Some (w, upd l id (set_state SERVICE_FAILED), -1)
      else
        let l := upd l id (set_state SERVICE_STARTING) in
        let dep := dependency (service l id) in
        '(w, l, result) ← (if dep =? SERVICE_NO_DEPENDENCY then Some (w, l, 0)
                           else service_start_one fuel w l dep (Z.lor visiting (Z.shiftl 1 id)));
        if negb (result =? 0) then Some (w, upd l id (set_state SERVICE_FAILED), -1)
        else Some (launch w l id)
  end.

(** Every level marks another service. *)
Definition start_fuel : nat := 17.

Definition start_one (w : W) (l : list service_info) (id : Z) : option (W * list service_info * Z) := service_start_one start_fuel w l id 0.

(** The retries of one service; every round counts as a restart. *)
Fixpoint retry (n : nat) (w : W) (l : list service_info) (i : Z) : option (W * list service_info) :=
  match n with
  | O => Some (w, l)
  | S n =>
      if bool_decide (s_state (service l i) = SERVICE_FAILED) && (restart_count (service l i) <? restart_limit (service l i)) then
        '(w, l, rc) ← start_one w (upd l i (fun x => set_state SERVICE_STOPPED (set_restarts (u32 (restart_count x + 1)) x))) i;
        if rc =? 0 then Some (w, l) else retry n w l i
      else Some (w, l)
  end.

Definition start_and_retry (w : W) (l : list service_info) (i : Z) : option (W * list service_info * bool) :=
  '(w, l, rc) ← start_one w l i;
  if rc =? 0 then Some (w, l, true)
  else
    '(w, l) ← retry (Z.to_nat (restart_limit (service l i) - restart_count (service l i))) w l i;
    Some (w, l, is_ready (service l i)).

Fixpoint start_all_loop (n : nat) (w : W) (l : list service_info) (i failures : Z) : option (W * list service_info * Z) :=
  match n with
  | O => Some (w, l, failures)
  | S n => '(w, l, ok) ← start_and_retry w l i; start_all_loop n w l (i + 1) (if ok : bool then failures else failures + 1)
  end.

Definition service_start_all (w : W) (l : list service_info) : option (W * list service_info * Z) :=
  '(w, l, failures) ← start_all_loop (length l) w l 0 0;
  Some (w, l, - failures).

Definition service_restart (w : W) (l : list service_info) (id : Z) : option (W * list service_info * Z) :=
  if (id <? 0) || (count l <=? id) then Some (w, l, -1)
  else start_one w (upd l id (fun x => set_restarts 0 (set_state SERVICE_STOPPED x))) id.

(** ** Supervision *)

Definition service_heartbeat (w : W) (l : list service_info) (pid : Z) : list service_info * Z :=
  match list_find (fun x => userspace x = true /\ process_id x = pid /\ s_state x = SERVICE_READY) l with
  | Some (i, _) => (upd l (Z.of_nat i) (set_heartbeat (timer_millis w)), 0)
  | None => (l, -1)
  end.

Definition kill_process (w : W) (pid : Z) : W := if process_exists w pid then process_kill w pid else w.

Definition fail_until (t : Z) (x : service_info) : service_info := set_restart_at t (set_state SERVICE_FAILED x).

Definition backoff (x : service_info) : Z := Z.shiftl 250 (if restart_count x <? 5 then restart_count x else 5).

Definition dependency_down (l : list service_info) (x : service_info) : bool :=
  negb (dependency x =? SERVICE_NO_DEPENDENCY) && negb (is_ready (service l (dependency x))).

(** The check of a service whose dependency is ready: is it still alive? *)
Definition poll_alive (w : W) (l : list service_info) (i now : Z) : W * list service_info :=
  let x := service l i in
  if is_ready x && (negb (process_exists w (process_id x)) || (heartbeat_timeout_ms x <? u64 (now - last_heartbeat_ms x)))
  then (kill_process w (process_id x), upd l i (fail_until (u64 (now + backoff x))))
  else (w, l).

Definition poll_restart (w : W) (l : list service_info) (i now : Z) : option (W * list service_info) :=
  let x := service l i in
  if bool_decide (s_state x = SERVICE_FAILED) && (restart_count x <? restart_limit x) && (restart_at_ms x <=? now) then
    '(w, l, _) ← start_one w (upd l i (fun x => set_state SERVICE_STOPPED (set_restarts (u32 (restart_count x + 1)) x))) i;
    Some (w, l)
  else Some (w, l).

Definition poll_one (w : W) (l : list service_info) (i now : Z) : option (W * list service_info) :=
  let x := service l i in
  if dependency_down l x then
    Some (if userspace x then kill_process w (process_id x) else w, upd l i (fail_until (u64 (now + 250))))
  else if negb (userspace x) then Some (w, l)
  else let '(w, l) := poll_alive w l i now in poll_restart w l i now.

Fixpoint poll_services (n : nat) (w : W) (l : list service_info) (i now : Z) : option (W * list service_info) :=
  match n with
  | O => Some (w, l)
  | S n => '(w, l) ← poll_one w l i now; poll_services n w l (i + 1) now
  end.

Definition service_poll (w : W) (m : manager) : option (W * manager) :=
  let now := timer_millis w in
  if now <? next_poll_ms m then Some (w, m)
  else '(w, l) ← poll_services (length (g_services m)) w (g_services m) 0 now; Some (w, Manager l (u64 (now + 250))).
End Service.
