(* ===== verification/ServiceSpec.v ===== *)
(** What the service manager promises: dependencies come before their dependents, a
    service is launched only when its dependency is ready, supervision takes down what
    depends on a failed service and restarts a service a bounded number of times, and a
    manifest registers the records written in it. *)
From S2P Require Import Prelude Service.

(** ** The table *)

#[local] Arguments service : simpl never.
#[local] Arguments upd : simpl never.
#[local] Arguments count : simpl never.

Lemma count_upd l i f : count (upd l i f) = count l.
Proof. unfold count, upd. by rewrite length_insert. Qed.

Lemma service_upd l i f j : 0 <= i < count l -> 0 <= j -> service (upd l i f) j = if j =? i then f (service l i) else service l j.
Proof. intros. unfold service, upd. by apply at_z_insert. Qed.

Lemma service_upd_eq l i f : 0 <= i < count l -> service (upd l i f) i = f (service l i).
Proof. intros. by rewrite service_upd, Z.eqb_refl by lia. Qed.

Lemma service_upd_ne l i f j : 0 <= i < count l -> 0 <= j -> j <> i -> service (upd l i f) j = service l j.
Proof. intros. rewrite service_upd by lia. by rewrite (proj2 (Z.eqb_neq j i)). Qed.

#[export] Hint Rewrite count_upd : service.
#[export] Hint Rewrite service_upd_eq using (autorewrite with service; lia) : service.
#[export] Hint Rewrite service_upd_ne using (autorewrite with service; lia) : service.

(** What is decided when a service is registered. *)
Definition same_service (x y : service_info) : Prop :=
  s_id y = s_id x /\ s_name y = s_name x /\ dependency y = dependency x /\ start y = start x /\ restart_limit y = restart_limit x /\
  userspace y = userspace x /\ heartbeat_timeout_ms y = heartbeat_timeout_ms x /\ s_path y = s_path x.

#[export] Instance same_service_preorder : PreOrder same_service.
Proof. split; [by intros x|]. intros x y z (?&?&?&?&?&?&?&?) (?&?&?&?&?&?&?&?). split_and!; congruence. Qed.

(** A dependency is registered before what depends on it. *)
Definition entry_ok (i : Z) (x : service_info) : Prop :=
  s_id x = i /\ -1 <= dependency x < i /\ restart_limit x <= 16 /\ 0 <= restart_count x < 2 ^ 32.

Definition table_ok (l : list service_info) : Prop :=
  count l <= SERVICE_MAX /\ forall i, 0 <= i < count l -> entry_ok i (service l i).

Definition ready (l : list service_info) (i : Z) : Prop := s_state (service l i) = SERVICE_READY.

Definition dependency_ready (l : list service_info) (x : service_info) : Prop :=
  dependency x = SERVICE_NO_DEPENDENCY \/ ready l (dependency x).

(** Whatever is ready has its dependency ready. *)
Definition consistent (l : list service_info) : Prop :=
  forall i, 0 <= i < count l -> ready l i -> dependency_ready l (service l i).

(** [j] is [i] or what it depends on, directly or not. *)
Definition needs (l : list service_info) : Z -> Z -> Prop :=
  rtc (fun a b => dependency (service l a) = b /\ b <> SERVICE_NO_DEPENDENCY).

Lemma is_ready_spec x : is_ready x = true <-> s_state x = SERVICE_READY.
Proof. unfold is_ready. apply bool_decide_eq_true. Qed.

Lemma not_ready_spec x : is_ready x = false <-> s_state x <> SERVICE_READY.
Proof. unfold is_ready. apply bool_decide_eq_false. Qed.

Lemma needs_below l i j : table_ok l -> 0 <= i < count l -> needs l i j -> 0 <= j <= i.
Proof.
  intros [_ Hok] Hi H. revert Hi. induction H as [i|i b j [<- Hn] _ IH]; intros Hi; [lia|].
  destruct (Hok i Hi) as (_ & Hd & _). unfold SERVICE_NO_DEPENDENCY in Hn. specialize (IH ltac:(lia)). lia.
Qed.

(** The table only changes where it may. *)
Definition evolves (l l' : list service_info) : Prop :=
  count l' = count l /\ forall i, 0 <= i < count l ->
    same_service (service l i) (service l' i) /\ restart_count (service l' i) = restart_count (service l i).

#[export] Instance evolves_preorder : PreOrder evolves.
Proof.
  split; [by intros l|]. intros l l1 l2 [Hc H] [Hc1 H1]. split; [congruence|]. intros i Hi.
  destruct (H i Hi) as [A B]. destruct (H1 i ltac:(lia)) as [A1 B1]. split; [by etrans|congruence].
Qed.

Lemma evolves_ok l l' : evolves l l' -> table_ok l -> table_ok l'.
Proof.
  intros [Hc H] [Hm Hok]. split; [lia|]. intros i Hi. destruct (H i ltac:(lia)) as [(E1&_&E2&_&E3&_) E4].
  unfold entry_ok. rewrite E1, E2, E3, E4. apply Hok. lia.
Qed.

Lemma evolves_needs l l' i j : evolves l l' -> table_ok l -> 0 <= i < count l -> needs l' i j -> needs l i j.
Proof.
  intros He [_ Hok] Hi H. revert Hi. induction H as [i|i b j [<- Hn] _ IH]; intros Hi; [done|].
  destruct (proj2 He i Hi) as [(_&_&E&_) _]. destruct (Hok i Hi) as (_ & Hd & _). rewrite E in *. unfold SERVICE_NO_DEPENDENCY in Hn.
  eapply rtc_l; [|apply IH; lia]. done.
Qed.

Lemma upd_evolves l i f :
  0 <= i < count l -> same_service (service l i) (f (service l i)) -> restart_count (f (service l i)) = restart_count (service l i) ->
  evolves l (upd l i f).
Proof.
  intros Hi Hs Hr. split; [apply count_upd|]. intros j Hj. rewrite service_upd by lia. destruct (Z.eqb_spec j i) as [->|]; done.
Qed.

(** ** Runs: launches, and marks on services that are not ready *)

Section Spec.
Context {W : Type} `{SE : ServiceEnv W}.
Implicit Types (w : W) (l : list service_info).

(** The ids are those launched, in order. *)
Inductive runs : W * list service_info -> list Z -> W * list service_info -> Prop :=
| runs_done s : runs s [] s
| runs_mark w l i st js s :
    0 <= i < count l -> ~ ready l i -> st <> SERVICE_READY ->
    runs (w, upd l i (set_state st)) js s -> runs (w, l) js s
| runs_launch w l i js s :
    0 <= i < count l -> ~ ready l i -> dependency_ready l (service l i) ->
    runs (fst (launch w l i)) js s -> runs (w, l) (i :: js) s.

Lemma runs_app s js s1 ks s2 : runs s js s1 -> runs s1 ks s2 -> runs s (js ++ ks) s2.
Proof.
  induction 1; intros Hks; cbn; [done|eapply runs_mark; eauto|eapply runs_launch; eauto].
Qed.

(** A launch touches its own service only, and makes it ready exactly when it succeeds. *)
Lemma launch_spec w l i : 0 <= i < count l ->
  exists w' l' rc, launch w l i = (w', l', rc) /\ evolves l l' /\ (rc = 0 <-> ready l' i) /\
    start_count (service l' i) = u32 (start_count (service l i) + 1) /\
    forall j, 0 <= j -> j <> i -> service l' j = service l j.
Proof.
  intros Hi. unfold launch. cbv zeta. destruct (userspace (service l i)).
  - destruct (process_spawn_path w (s_path (service l i))) as [w1 p]. eexists _, _, _. split; [done|]. split_and!.
    + etrans; apply upd_evolves; autorewrite with service; cbn; done.
    + unfold ready. autorewrite with service. cbn. destruct (Z.eqb_spec (match p with Some _ => 0 | None => -1 end) 0) as [->|]; naive_solver.
    + autorewrite with service. done.
    + intros j Hj Hn. by autorewrite with service.
  - destruct (call_start w (start (service l i))) as [w1 r]. eexists _, _, _. split; [done|]. split_and!.
    + apply upd_evolves; autorewrite with service; cbn; done.
    + unfold ready. autorewrite with service. cbn. destruct (Z.eqb_spec r 0) as [->|]; naive_solver.
    + autorewrite with service. done.
    + intros j Hj Hn. by autorewrite with service.
Qed.

Lemma launch_evolves w l i : 0 <= i < count l -> evolves l (snd (fst (launch w l i))).
Proof. intros Hi. destruct (launch_spec w l i Hi) as (w' & l' & rc & -> & H & _). done. Qed.

Lemma mark_evolves l i st : 0 <= i < count l -> evolves l (upd l i (set_state st)).
Proof. intros Hi. by apply upd_evolves. Qed.

Lemma runs_evolves s js s' : runs s js s' -> evolves (snd s) (snd s').
Proof.
  induction 1 as [|w l i st js s Hi _ _ _ IH|w l i js s Hi _ _ _ IH]; cbn in *; [done| |].
  - etrans; [by apply mark_evolves|done].
  - etrans; [by apply launch_evolves|done].
Qed.

(** A change of one service that is not ready, with its dependency ready if it becomes so. *)
Lemma consistent_step l l' i :
  consistent l -> table_ok l -> evolves l l' -> 0 <= i < count l -> ~ ready l i ->
  (forall j, 0 <= j -> j <> i -> service l' j = service l j) -> (ready l' i -> dependency_ready l (service l i)) -> consistent l'.
Proof.
  intros Hc [_ Hok] He Hi Hn Hj Hr k Hk Hrk. destruct He as [Ec He]. rewrite Ec in Hk. destruct (He k Hk) as [(_&_&Ed&_) _].
  destruct (Hok k Hk) as (_ & Hd & _). unfold dependency_ready, ready, SERVICE_NO_DEPENDENCY in *. rewrite Ed.
  assert (G : dependency (service l k) = -1 \/ s_state (service l (dependency (service l k))) = SERVICE_READY).
  { destruct (decide (k = i)) as [->|Hne]; [by apply Hr|]. apply Hc; [done|]. unfold ready. by rewrite <-(Hj k) by lia. }
  destruct G as [|G]; [by left|]. destruct (decide (dependency (service l k) = -1)); [by left|]. right. rewrite Hj; [done|lia|congruence].
Qed.

Lemma runs_consistent s js s' : runs s js s' -> table_ok (snd s) -> consistent (snd s) -> consistent (snd s').
Proof.
  induction 1 as [|w l i st js s Hi Hn Hst _ IH|w l i js s Hi Hn Hd _ IH]; cbn in *; intros Ht Hc; [done| |].
  - apply IH; [by eapply evolves_ok, Ht; apply mark_evolves|]. apply (consistent_step l _ i); try done; [by apply mark_evolves| |].
    + intros j Hj Hne. by autorewrite with service.
    + unfold ready. autorewrite with service. cbn. done.
  - pose proof (launch_spec w l i Hi) as (w' & l' & rc & E & He & _ & _ & Hj). rewrite E in *. cbn in *.
    apply IH; [by eapply evolves_ok, Ht|]. by apply (consistent_step l _ i).
Qed.

(** What is ready stays as it is. *)
Lemma runs_ready s js s' i : runs s js s' -> 0 <= i -> ready (snd s) i -> service (snd s') i = service (snd s) i.
Proof.
  induction 1 as [|w l k st js s Hk Hn Hst _ IH|w l k js s Hk Hn Hd _ IH]; cbn in *; intros Hi Hr; [done| |].
  - assert (i <> k) by congruence. rewrite IH; [by autorewrite with service|done|]. unfold ready. by autorewrite with service.
  - pose proof (launch_spec w l k Hk) as (w' & l' & rc & E & He & _ & _ & Hj). rewrite E in *. cbn in *.
    assert (i <> k) by congruence. rewrite IH; [by apply Hj|done|]. unfold ready. by rewrite Hj.
Qed.

(** Only what is launched becomes ready. *)
Lemma runs_others s js s' i : runs s js s' -> 0 <= i -> ~ In i js -> ready (snd s') i -> ready (snd s) i.
Proof.
  induction 1 as [|w l k st js s Hk Hn Hst _ IH|w l k js s Hk Hn Hd _ IH]; cbn in *; intros Hi Hnot Hr; [done| |].
  - specialize (IH Hi Hnot Hr). unfold ready in *. rewrite service_upd in IH by lia.
    destruct (Z.eqb_spec i k) as [->|]; cbn in IH; congruence.
  - pose proof (launch_spec w l k Hk) as (w' & l' & rc & E & He & _ & _ & Hj). rewrite E in *. cbn in *.
    specialize (IH Hi ltac:(tauto) Hr). unfold ready in *. by rewrite Hj in IH by (done || intros ->; tauto).
Qed.

(** ** Starting one service *)

Lemma sorted_snoc (js : list Z) i : StronglySorted Z.lt js -> Forall (fun j => j < i) js -> StronglySorted Z.lt (js ++ [i]).
Proof.
  induction 1 as [|j js Hs IH Hj]; cbn; intros Hf; [repeat constructor|]. inversion_clear Hf.
  constructor; [by apply IH|]. apply Forall_app. split; [done|]. by constructor.
Qed.

(** The outcome of [service_start_one]. *)
Definition started w l id (r : option (W * list service_info * Z)) : Prop :=
  exists w' l' rc js, r = Some (w', l', rc) /\ runs (w, l) js (w', l') /\ StronglySorted Z.lt js /\ Forall (needs l id) js /\ (rc = 0 <-> ready l' id).

Lemma dependency_ready_mark l id st : table_ok l -> 0 <= id < count l -> dependency_ready l (service l id) ->
  dependency_ready (upd l id (set_state st)) (service (upd l id (set_state st)) id).
Proof.
  intros [_ Hok] Hi Hd. destruct (Hok id Hi) as (_ & Hb & _). unfold dependency_ready, ready, SERVICE_NO_DEPENDENCY in *.
  rewrite service_upd_eq by done. cbn. destruct (decide (dependency (service l id) = -1)) as [|Hn]; [by left|].
  destruct Hd as [|Hd]; [done|]. right. by rewrite service_upd_ne by lia.
Qed.

Lemma start_launch w l id : table_ok l -> 0 <= id < count l -> ~ ready l id -> dependency_ready l (service l id) ->
  exists w' l' rc, launch w l id = (w', l', rc) /\ runs (w, l) [id] (w', l') /\ (rc = 0 <-> ready l' id).
Proof.
  intros Ht Hi Hn Hd. destruct (launch_spec w l id Hi) as (w' & l' & rc & E & _ & Hrc & _).
  exists w', l', rc. split_and!; try done. apply runs_launch; [done..|]. rewrite E. apply runs_done.
Qed.

(** With the service marked [STARTING], once its dependency has been dealt with. *)
Lemma start_finish w l id js w1 l1 rc1 :
  table_ok l -> 0 <= id < count l -> ~ ready l id -> runs (w, l) js (w1, l1) -> ~ ready l1 id ->
  StronglySorted Z.lt js -> Forall (fun j => needs l id j /\ j < id) js ->
  (rc1 = 0 -> dependency_ready l1 (service l1 id)) ->
  started w l id (if negb (rc1 =? 0) then Some (w1, upd l1 id (set_state SERVICE_FAILED), -1) else Some (launch w1 l1 id)).
Proof.
  intros Ht Hi Hn Hr Hn1 Hs Hf Hd. pose proof (runs_evolves _ _ _ Hr) as He. cbn in He.
  assert (Hi1 : 0 <= id < count l1) by (destruct He; lia). assert (Ht1 : table_ok l1) by by eapply evolves_ok.
  destruct (Z.eqb_spec rc1 0) as [Hz|Hz]; cbn [negb].
  - destruct (start_launch w1 l1 id Ht1 Hi1 Hn1 (Hd Hz)) as (w' & l' & rc & -> & Hl & Hrc).
    exists w', l', rc, (js ++ [id]). split_and!; try done; [by eapply runs_app|..].
    + apply sorted_snoc; [done|]. eapply Forall_impl; [exact Hf|]. by intros j [].
    + apply Forall_app. split; [|repeat constructor]. eapply Forall_impl; [exact Hf|]. by intros j [].
  - exists w1, (upd l1 id (set_state SERVICE_FAILED)), (-1), js. split_and!; try done.
    + rewrite <-(app_nil_r js). eapply runs_app; [exact Hr|]. apply (runs_mark w1 l1 id SERVICE_FAILED); [done..|]. apply runs_done.
    + eapply Forall_impl; [exact Hf|]. by intros j [].
    + unfold ready. autorewrite with service. done.
Qed.

(** Dependencies have smaller ids, so the recursion ends and never meets a service that
    is being started. *)
Lemma service_start_one_spec fuel : forall w l id visiting,
  table_ok l -> 0 <= id < count l -> (Z.to_nat id < fuel)%nat ->
  (forall j, 0 <= j <= id -> Z.testbit visiting j = false) -> started w l id (service_start_one fuel w l id visiting).
Proof.
  induction fuel as [|fuel IH]; intros w l id visiting Ht Hi Hf Hv; [lia|]. cbn [service_start_one].
  rewrite (proj2 (Z.ltb_ge id 0)), (proj2 (Z.leb_gt (count l) id)) by lia. cbn [orb].
  split_if Er; [apply is_ready_spec in Er; exists w, l, 0, []; split_and!; done || constructor|].
  apply not_ready_spec in Er. rewrite Hv by lia. set (l1 := upd l id (set_state SERVICE_STARTING)).
  assert (Hd1 : dependency (service l1 id) = dependency (service l id)) by (unfold l1; by autorewrite with service).
  assert (Hm : runs (w, l) [] (w, l1)) by (apply (runs_mark w l id SERVICE_STARTING); [done..|apply runs_done]).
  pose proof (runs_evolves _ _ _ Hm) as He. cbn in He. assert (Ht1 : table_ok l1) by by eapply evolves_ok.
  assert (Hn1 : ~ ready l1 id) by (unfold ready, l1; by autorewrite with service).
  destruct (proj2 Ht id Hi) as (_ & Hb & _). cbv zeta. rewrite Hd1. unfold SERVICE_NO_DEPENDENCY.
  destruct (Z.eqb_spec (dependency (service l id)) (-1)) as [E|E]; cbn [mbind option_bind].
  { apply (start_finish w l id [] w l1 0); try done; [constructor..|]. intros _. left. by rewrite Hd1. }
  set (dep := dependency (service l id)) in *. assert (Hdep : 0 <= dep < count l1) by (unfold l1; rewrite count_upd; lia).
  destruct (IH w l1 dep (Z.lor visiting (Z.shiftl 1 id)) Ht1 Hdep ltac:(lia)) as (w2 & l2 & rc & js & -> & Hr & Hs & Hj & Hrc).
  { intros j Hj. by rewrite Z.lor_spec, Hv, Z.shiftl_spec_low by lia. }
  cbn [mbind option_bind]. assert (Hj' : Forall (fun j => needs l id j /\ j < id) js).
  { eapply Forall_impl; [exact Hj|]. intros j Hjn. split.
    - apply (rtc_l _ id dep j); [done|]. apply (evolves_needs l l1); [done|done|lia|done].
    - pose proof (needs_below l1 dep j Ht1 Hdep Hjn). lia. }
  assert (Hn2 : ~ ready l2 id).
  { intros Hr2. apply Hn1, (runs_others _ _ _ id Hr ltac:(lia)); [|done]. rewrite Forall_forall in Hj'. intros Hin%list_elem_of_In. destruct (Hj' id Hin). lia. }
  apply (start_finish w l id js w2 l2 rc); try done; [by apply (runs_app (w, l) [] (w, l1) js)|].
  intros Hz. right. assert (Hi1 : 0 <= id < count l1) by (destruct He; lia).
  destruct (proj2 (runs_evolves _ _ _ Hr) id Hi1) as [(_&_&Ed&_) _]. cbn in Ed. unfold ready. rewrite Ed, Hd1. by apply Hrc.
Qed.

Lemma start_one_spec w l id : table_ok l -> 0 <= id < count l -> started w l id (start_one w l id).
Proof.
  intros Ht Hi. pose proof (proj1 Ht) as Hm. unfold SERVICE_MAX in Hm.
  apply service_start_one_spec; try done; [unfold start_fuel; lia|]. intros j _. apply Z.testbit_0_l.
Qed.

Lemma service_start_one_S fuel w l id visiting : service_start_one (S fuel) w l id visiting =
  if (id <? 0) || (count l <=? id) then Some (w, l, -1)
  else if is_ready (service l id) then Some (w, l, 0)
  else if Z.testbit visiting id then Some (w, upd l id (set_state SERVICE_FAILED), -1)
  else
    let l := upd l id (set_state SERVICE_STARTING) in
    let dep := dependency (service l id) in
    '(w, l, result) ← (if dep =? SERVICE_NO_DEPENDENCY then Some (w, l, 0)
                       else service_start_one fuel w l dep (Z.lor visiting (Z.shiftl 1 id)));
    if negb (result =? 0) then Some (w, upd l id (set_state SERVICE_FAILED), -1)
    else Some (launch w l id).
Proof. done. Qed.

(** With its dependency ready, a service is launched at once. *)
Lemma start_one_direct w l id : table_ok l -> 0 <= id < count l -> ~ ready l id -> dependency_ready l (service l id) ->
  start_one w l id = Some (launch w (upd l id (set_state SERVICE_STARTING)) id).
Proof.
  intros Ht Hi Hn Hd. unfold start_one, start_fuel. rewrite (service_start_one_S 16). rewrite (proj2 (Z.ltb_ge id 0)), (proj2 (Z.leb_gt (count l) id)) by lia.
  cbn [orb]. rewrite (proj2 (not_ready_spec _) Hn), Z.testbit_0_l. cbv zeta. rewrite service_upd_eq by done. cbn [set_state dependency].
  destruct (proj2 Ht id Hi) as (_ & Hb & _). unfold SERVICE_NO_DEPENDENCY.
  destruct (Z.eqb_spec (dependency (service l id)) (-1)) as [|E]; [done|]. destruct Hd as [|Hd]; [done|].
  rewrite service_start_one_S. autorewrite with service.
  rewrite (proj2 (Z.ltb_ge _ 0)), (proj2 (Z.leb_gt (count l) _)) by lia. cbn [orb].
  by rewrite (proj2 (is_ready_spec _) Hd).
Qed.

(** ** Starting everything *)

Definition restarted (x : service_info) : service_info := set_state SERVICE_STOPPED (set_restarts (u32 (restart_count x + 1)) x).

Lemma restarted_ok l i : table_ok l -> 0 <= i < count l -> table_ok (upd l i restarted).
Proof.
  intros [Hm Hok] Hi. split; [by rewrite count_upd|]. intros j Hj. rewrite count_upd in Hj. rewrite service_upd by lia.
  destruct (Z.eqb_spec j i) as [->|]; [|by apply Hok]. destruct (Hok i Hi) as (? & ? & ? & ?).
  split; [done|]. split; [done|]. split; [done|]. by apply (uwrap_fits 32).
Qed.

Lemma restarted_consistent l i : consistent l -> table_ok l -> 0 <= i < count l -> ~ ready l i -> consistent (upd l i restarted).
Proof.
  intros Hc [_ Hok] Hi Hn k Hk Hr. rewrite count_upd in Hk. unfold dependency_ready, ready, SERVICE_NO_DEPENDENCY in *.
  destruct (decide (k = i)) as [->|Hne]; [by rewrite service_upd_eq in Hr|]. rewrite service_upd_ne in Hr by lia. rewrite (service_upd_ne l i _ k) by lia.
  destruct (Hok k Hk) as (_ & Hb & _). destruct (decide (dependency (service l k) = -1)); [by left|]. right.
  destruct (Hc k Hk Hr) as [|Hd]; [done|]. rewrite service_upd_ne; [done|lia|lia|congruence].
Qed.

(** What a table keeps when services are started. *)
Definition started_from l l' : Prop :=
  count l' = count l /\ table_ok l' /\ (consistent l -> consistent l') /\ forall j, 0 <= j -> ready l j -> ready l' j.

Lemma started_from_refl l : table_ok l -> started_from l l.
Proof. done. Qed.

Lemma started_from_trans l l1 l2 : started_from l l1 -> started_from l1 l2 -> started_from l l2.
Proof. intros (A & _ & D & B) (A1 & C & D1 & B1). split; [congruence|]. auto. Qed.

Lemma start_one_from w l id : table_ok l -> 0 <= id < count l ->
  exists w' l' rc, start_one w l id = Some (w', l', rc) /\ started_from l l' /\ (rc = 0 <-> ready l' id).
Proof.
  intros Ht Hi. destruct (start_one_spec w l id Ht Hi) as (w' & l' & rc & js & -> & Hr & _ & _ & Hrc).
  exists w', l', rc. split; [done|]. split; [|done]. pose proof (runs_evolves _ _ _ Hr) as He. split; [apply He|]. split; [by eapply evolves_ok|].
  split; [intros Hc; by apply (runs_consistent _ _ _ Hr)|]. intros j Hj Hrj. pose proof (runs_ready _ _ _ j Hr Hj Hrj) as E. cbn in E. unfold ready. by rewrite E.
Qed.

Lemma restarted_from l i : table_ok l -> 0 <= i < count l -> ~ ready l i -> started_from l (upd l i restarted).
Proof.
  intros Ht Hi Hn. split; [apply count_upd|]. split; [by apply restarted_ok|]. split; [intros Hc; by apply restarted_consistent|].
  intros j Hj Hr. assert (j <> i) by congruence. unfold ready. by rewrite service_upd_ne.
Qed.

Lemma retry_from n : forall w l i, table_ok l -> 0 <= i < count l -> exists w' l', retry n w l i = Some (w', l') /\ started_from l l'.
Proof.
  induction n as [|n IH]; intros w l i Ht Hi; cbn [retry]; [by exists w, l|]. split_if E; [|by exists w, l].
  apply andb_true_iff in E as [E _]. apply bool_decide_eq_true in E. assert (Hn : ~ ready l i) by (unfold ready; congruence).
  pose proof (restarted_from l i Ht Hi Hn) as Hs0. pose proof Hs0 as (A & B & _). change (fun x => set_state _ _) with restarted.
  destruct (start_one_from w (upd l i restarted) i B ltac:(lia)) as (w1 & l1 & rc & -> & Hs & _). cbn [mbind option_bind].
  assert (Hs1 : started_from l l1) by by eapply started_from_trans. destruct (rc =? 0); [by exists w1, l1|].
  pose proof Hs1 as (A1 & B1 & _). destruct (IH w1 l1 i B1 ltac:(lia)) as (w2 & l2 & -> & H2). exists w2, l2. split; [done|].
  by eapply started_from_trans.
Qed.

Lemma start_and_retry_from w l i : table_ok l -> 0 <= i < count l ->
  exists w' l' ok, start_and_retry w l i = Some (w', l', ok) /\ started_from l l' /\ (ok = true -> ready l' i).
Proof.
  intros Ht Hi. unfold start_and_retry. destruct (start_one_from w l i Ht Hi) as (w1 & l1 & rc & -> & Hs & Hrc). cbn [mbind option_bind].
  destruct (Z.eqb_spec rc 0) as [Hz|_]; [exists w1, l1, true; split_and!; try done; intros _; by apply Hrc|].
  pose proof Hs as (A & B & _). edestruct (retry_from (Z.to_nat (restart_limit (service l1 i) - restart_count (service l1 i))) w1 l1 i B) as (w2 & l2 & -> & Hs2); [lia|].
  cbn [mbind option_bind]. exists w2, l2, (is_ready (service l2 i)). split; [done|]. split; [by eapply started_from_trans|]. apply is_ready_spec.
Qed.

Lemma start_all_from n : forall w l i failures, table_ok l -> 0 <= i -> i + Z.of_nat n <= count l ->
  exists w' l' f, start_all_loop n w l i failures = Some (w', l', f) /\ started_from l l' /\ failures <= f /\
    (f = failures -> forall j, i <= j < i + Z.of_nat n -> ready l' j).
Proof.
  induction n as [|n IH]; intros w l i failures Ht Hi Hn; cbn [start_all_loop].
  { exists w, l, failures. split_and!; try done. lia. }
  destruct (start_and_retry_from w l i Ht ltac:(lia)) as (w1 & l1 & ok & -> & Hs & Hok). cbn [mbind option_bind].
  pose proof Hs as (A & B & _).
  destruct (IH w1 l1 (i + 1) (if ok then failures else failures + 1) B ltac:(lia) ltac:(lia)) as (w2 & l2 & f & -> & Hs2 & Hf & Hall).
  exists w2, l2, f. split_and!; [done|by eapply started_from_trans|destruct ok; lia|]. intros -> j Hj. destruct ok; [|lia].
  destruct (decide (j = i)) as [->|]; [|apply Hall; lia]. apply Hs2; [lia|]. by apply Hok.
Qed.

(** Every start function and every spawn succeeds. *)
Definition succeeds : Prop := (forall w f, snd (call_start w f) = 0) /\ (forall w p, is_Some (snd (process_spawn_path w p))).

Lemma launch_succeeds w l i : succeeds -> snd (launch w l i) = 0.
Proof.
  intros [Hs Hp]. unfold launch. cbv zeta. destruct (userspace _).
  - specialize (Hp w (s_path (service l i))). destruct (process_spawn_path _ _) as [? [?|]]; [done|]. by destruct Hp.
  - specialize (Hs w (start (service l i))). by destruct (call_start _ _).
Qed.

(** The services among [n] from [i] that are not ready. *)
Definition waiting l (i : Z) (n : nat) : list Z := List.filter (fun j => negb (is_ready (service l j))) (seqZ i (Z.of_nat n)).

Lemma waiting_S l i n : waiting l i (S n) = (if is_ready (service l i) then [] else [i]) ++ waiting l (i + 1) n.
Proof.
  unfold waiting. rewrite seqZ_cons by lia. cbn [List.filter]. replace (Z.pred (Z.of_nat (S n))) with (Z.of_nat n) by lia.
  change (Z.succ i) with (i + 1). by destruct (is_ready (service l i)).
Qed.

Lemma waiting_ext l l' i n : (forall j, i <= j -> service l' j = service l j) -> waiting l' i n = waiting l i n.
Proof.
  revert i. induction n as [|n IH]; intros i H; [done|]. rewrite !waiting_S, (H i), IH by lia || (intros; apply H; lia). done.
Qed.

Lemma start_all_succeeds n : forall w l i failures, succeeds -> table_ok l -> 0 <= i -> i + Z.of_nat n <= count l ->
  (forall j, 0 <= j < i -> ready l j) ->
  exists w' l', start_all_loop n w l i failures = Some (w', l', failures) /\ runs (w, l) (waiting l i n) (w', l').
Proof.
  induction n as [|n IH]; intros w l i failures Hsu Ht Hi Hn Hb; cbn [start_all_loop].
  { exists w, l. split; [done|]. apply runs_done. }
  rewrite waiting_S. unfold start_and_retry. destruct (is_ready (service l i)) eqn:Er.
  - unfold start_one, start_fuel. rewrite (service_start_one_S 16), (proj2 (Z.ltb_ge i 0)), (proj2 (Z.leb_gt (count l) i)), Er by lia. cbn [orb mbind option_bind Z.eqb app].
    apply IH; try done; [lia|lia|]. intros j Hj. destruct (decide (j = i)) as [->|]; [by apply is_ready_spec|]. apply Hb. lia.
  - apply not_ready_spec in Er. assert (Hd : dependency_ready l (service l i)).
    { destruct (proj2 Ht i ltac:(lia)) as (_ & Hd & _). destruct (decide (dependency (service l i) = -1)); [by left|]. right. apply Hb. lia. }
    rewrite (start_one_direct w l i) by (done || lia). set (l0 := upd l i (set_state SERVICE_STARTING)).
    assert (Hm : runs (w, l) [] (w, l0)) by (apply (runs_mark w l i SERVICE_STARTING); [lia|done|done|apply runs_done]).
    pose proof (runs_evolves _ _ _ Hm) as He. cbn in He. assert (Ht0 : table_ok l0) by by eapply evolves_ok.
    assert (Hi0 : 0 <= i < count l0) by (unfold l0; rewrite count_upd; lia).
    destruct (start_launch w l0 i Ht0 Hi0) as (w1 & l1 & rc & E & Hr & Hrc).
    { unfold ready, l0. by rewrite service_upd_eq by lia. }
    { apply dependency_ready_mark; try done. lia. }
    pose proof (launch_succeeds w l0 i Hsu) as Hz. rewrite E in Hz |- *. cbn in Hz. subst rc. cbn [mbind option_bind Z.eqb].
    pose proof (runs_app _ _ _ _ _ Hm Hr) as Hr1. cbn [app] in Hr1. pose proof (runs_evolves _ _ _ Hr1) as He1. cbn in He1.
    assert (Ho : forall j, 0 <= j -> j <> i -> service l1 j = service l j).
    { intros j Hj Hne. destruct (launch_spec w l0 i Hi0) as (w2 & l2 & rc & E2 & _ & _ & _ & Hj2). rewrite E in E2. injection E2 as <- <- <-.
      rewrite Hj2 by done. unfold l0. by rewrite service_upd_ne by lia. }
    destruct (IH w1 l1 (i + 1) failures) as (w2 & l2 & -> & Hr2); try done; [by eapply evolves_ok|lia|destruct He1; lia| |].
    { intros j Hj. destruct (decide (j = i)) as [->|]; [by apply Hrc|]. unfold ready. rewrite Ho by lia. apply Hb. lia. }
    exists w2, l2. split; [done|]. rewrite (waiting_ext l l1) in Hr2 by (intros; apply Ho; lia). by apply (runs_app _ _ _ _ _ Hr1 Hr2).
Qed.

(** ** Supervision *)

(** What one poll does to a service: it ends ready only with a ready dependency, and every
    launch counts as a restart within the limit. *)
Definition counted (x y : service_info) : Prop :=
  (restart_count y = restart_count x /\ start_count y = start_count x) \/
  (restart_count x < restart_limit x /\ restart_count y = restart_count x + 1 /\ start_count y = u32 (start_count x + 1)).

Definition polled (i : Z) l l' : Prop :=
  count l' = count l /\ (forall j, 0 <= j -> j <> i -> service l' j = service l j) /\ same_service (service l i) (service l' i) /\
  (ready l' i -> dependency_ready l (service l i)) /\ counted (service l i) (service l' i) /\
  (userspace (service l i) = false -> ready l' i -> ready l i).

Lemma polled_upd l i f : 0 <= i < count l -> same_service (service l i) (f (service l i)) ->
  (s_state (f (service l i)) = SERVICE_READY -> dependency_ready l (service l i) /\ ready l i) ->
  counted (service l i) (f (service l i)) -> polled i l (upd l i f).
Proof.
  intros Hi Hs Hr Hc. unfold polled, ready. rewrite count_upd, service_upd_eq by done. split_and!; try done; [|apply Hr|intros _; apply Hr].
  intros j Hj Hn. by rewrite service_upd_ne.
Qed.

Lemma polled_refl l i : 0 <= i < count l -> dependency_ready l (service l i) -> polled i l l.
Proof. intros Hi Hd. split_and!; try done. by left. Qed.

Lemma fail_polled l i t : 0 <= i < count l -> polled i l (upd l i (fail_until t)).
Proof. intros Hi. apply polled_upd; [done|by cbn|by cbn|]. by left. Qed.

Lemma dependency_down_spec l i : dependency_down l (service l i) = false <-> dependency_ready l (service l i).
Proof.
  unfold dependency_down, dependency_ready, ready. rewrite andb_false_iff, !negb_false_iff, is_ready_spec, Z.eqb_eq. done.
Qed.

Lemma poll_alive_cases w l i now :
  poll_alive w l i now = (w, l) \/ exists w' t, poll_alive w l i now = (w', upd l i (fail_until t)).
Proof. unfold poll_alive. cbv zeta. split_if E; [right; by eexists _, _|by left]. Qed.

(** A restart: marked stopped and counted, then launched. *)
Lemma poll_restart_polled w l i now : table_ok l -> 0 <= i < count l -> userspace (service l i) = true -> dependency_ready l (service l i) ->
  exists w' l', poll_restart w l i now = Some (w', l') /\ polled i l l'.
Proof.
  intros Ht Hi Hu Hd. unfold poll_restart. cbv zeta. split_if E; [|exists w, l; split; [done|by apply polled_refl]].
  rewrite !andb_true_iff, bool_decide_eq_true, Z.ltb_lt in E. destruct E as [[Es El] _]. change (fun x => set_state _ _) with restarted.
  set (l1 := upd l i restarted). assert (Hi1 : 0 <= i < count l1) by (unfold l1; by rewrite count_upd).
  destruct (proj2 Ht i Hi) as (_ & Hb & Hlim & Hcnt).
  assert (Hd1 : dependency_ready l1 (service l1 i)).
  { unfold dependency_ready, ready, l1, SERVICE_NO_DEPENDENCY in *. rewrite service_upd_eq by done. cbn.
    destruct (decide (dependency (service l i) = -1)); [by left|]. destruct Hd as [|Hd]; [done|]. right. by rewrite service_upd_ne by lia. }
  rewrite (start_one_direct w l1 i) by (done || (by apply restarted_ok) || (unfold ready, l1; by rewrite service_upd_eq)).
  set (l2 := upd l1 i (set_state SERVICE_STARTING)). assert (Hi2 : 0 <= i < count l2) by (unfold l2; by rewrite count_upd).
  destruct (launch_spec w l2 i Hi2) as (w' & l' & rc & -> & He & _ & Hsc & Ho). cbn [mbind option_bind]. exists w', l'. split; [done|].
  destruct He as [Hc He]. destruct (He i Hi2) as [Hs Hr]. unfold l2, l1 in *. autorewrite with service in *. cbn in Hr, Hsc. unfold polled. split_and!.
  - done.
  - intros j Hj Hn. rewrite Ho by done. by autorewrite with service.
  - etrans; [|exact Hs]. done.
  - done.
  - right. rewrite Hr, Hsc. split_and!; try done. apply uwrap_id. unfold fits. lia.
  - congruence.
Qed.

Lemma polled_fail_then l i t l' :
  0 <= i < count l -> dependency_ready l (service l i) -> polled i (upd l i (fail_until t)) l' -> userspace (service l i) = true -> polled i l l'.
Proof.
  intros Hi Hd (A & B & C & D & F & G) Hu. unfold polled. autorewrite with service in *. split_and!; try done.
  - intros j Hj Hn. rewrite B by done. by autorewrite with service.
  - congruence.
Qed.

Lemma poll_one_polled w l i now : table_ok l -> 0 <= i < count l -> exists w' l', poll_one w l i now = Some (w', l') /\ polled i l l'.
Proof.
  intros Ht Hi. unfold poll_one. cbv zeta. destruct (dependency_down l (service l i)) eqn:Ed.
  { eexists _, _. split; [done|]. by apply fail_polled. }
  apply dependency_down_spec in Ed. destruct (userspace (service l i)) eqn:Eu; cbn [negb]; [|exists w, l; split; [done|by apply polled_refl]].
  destruct (poll_alive_cases w l i now) as [->|(w1 & t & ->)]; [by apply poll_restart_polled|].
  assert (Ht1 : table_ok (upd l i (fail_until t))) by (eapply evolves_ok; [by apply (upd_evolves l i (fail_until t))|done]).
  destruct (poll_restart_polled w1 (upd l i (fail_until t)) i now Ht1) as (w2 & l2 & -> & Hp); autorewrite with service; try done.
  { destruct (proj2 Ht i Hi) as (_ & Hb & _). unfold dependency_ready, ready, SERVICE_NO_DEPENDENCY in *. cbn.
    destruct (decide (dependency (service l i) = -1)); [by left|]. destruct Ed as [|Ed]; [done|]. right. by rewrite service_upd_ne by lia. }
  exists w2, l2. split; [done|]. by eapply polled_fail_then.
Qed.

Lemma polled_ok i l l' : table_ok l -> 0 <= i < count l -> polled i l l' -> table_ok l'.
Proof.
  intros [Hm Hok] Hi (A & B & C & _ & F & _). split; [lia|]. intros j Hj. destruct (decide (j = i)) as [->|]; [|rewrite B by lia; apply Hok; lia].
  destruct (Hok i Hi) as (O1 & O2 & O3 & O4). destruct C as (E1&_&E2&_&E3&_). unfold entry_ok. rewrite E1, E2, E3. split_and!; try done; try lia;
  destruct F as [[-> _]|(? & -> & _)]; lia.
Qed.

(** A poll from [i] on: the services before it stay as they are. *)
Lemma poll_services_spec n : forall w l i now, table_ok l -> 0 <= i -> i + Z.of_nat n = count l ->
  exists w' l', poll_services n w l i now = Some (w', l') /\ count l' = count l /\ table_ok l' /\
    (forall j, 0 <= j < i -> service l' j = service l j) /\
    (forall j, i <= j < count l -> same_service (service l j) (service l' j) /\ counted (service l j) (service l' j) /\
      (userspace (service l j) = false -> ready l' j -> ready l j) /\ (ready l' j -> dependency_ready l' (service l' j))).
Proof.
  induction n as [|n IH]; intros w l i now Ht Hi Hn; cbn [poll_services].
  { exists w, l. split_and!; try done. lia. }
  destruct (poll_one_polled w l i now Ht ltac:(lia)) as (w1 & l1 & -> & Hp). cbn [mbind option_bind].
  pose proof (polled_ok i l l1 Ht ltac:(lia) Hp) as Ht1. destruct Hp as (A & B & C & D & F & G).
  destruct (IH w1 l1 (i + 1) now Ht1 ltac:(lia) ltac:(lia)) as (w2 & l2 & -> & Hc & Ht2 & Hlow & Hhigh).
  exists w2, l2. split_and!; [done|lia|done|intros j Hj; rewrite Hlow, B by lia; done|].
  intros j Hj. destruct (decide (j = i)) as [->|]; [|rewrite <-(B j) by lia; unfold ready in *; rewrite <-(B j) by lia; apply Hhigh; lia].
  assert (E : service l2 i = service l1 i) by (apply Hlow; lia). rewrite E. split_and!; try done; [unfold ready in *; rewrite E; done|].
  unfold ready. rewrite E. intros Hr. destruct (D Hr) as [Hd|Hd]; [left; by rewrite (proj1 (proj2 (proj2 C)))|].
  destruct (proj2 Ht i ltac:(lia)) as (_ & Hb & _). unfold dependency_ready, ready, SERVICE_NO_DEPENDENCY in *. rewrite (proj1 (proj2 (proj2 C))).
  destruct (decide (dependency (service l i) = -1)); [by left|]. right. rewrite Hlow, B by lia. done.
Qed.

(** Heartbeats only set the time. *)
Lemma service_heartbeat_cases w l pid :
  fst (service_heartbeat w l pid) = l \/ exists i t, 0 <= i < count l /\ fst (service_heartbeat w l pid) = upd l i (set_heartbeat t).
Proof.
  unfold service_heartbeat. destruct (list_find _ l) as [[i x]|] eqn:E; [|by left]. apply list_find_Some in E as (Hl & _ & _).
  right. exists (Z.of_nat i), (timer_millis w). split; [|done]. apply lookup_lt_Some in Hl. unfold count. lia.
Qed.

(** Polls and heartbeats, whatever happens to the rest of the world between them. *)
Inductive supervised : manager -> manager -> Prop :=
| sup_done m : supervised m m
| sup_poll w m w' m1 m' : service_poll w m = Some (w', m1) -> supervised m1 m' -> supervised m m'
| sup_heartbeat w pid m m' : supervised (Manager (fst (service_heartbeat w (g_services m) pid)) (next_poll_ms m)) m' -> supervised m m'.

(** One such event. *)
Definition event l l' : Prop :=
  count l' = count l /\ table_ok l' /\ forall i, 0 <= i < count l ->
    same_service (service l i) (service l' i) /\ counted (service l i) (service l' i) /\ (userspace (service l i) = false -> ready l' i -> ready l i).

Lemma service_poll_spec w m : table_ok (g_services m) ->
  exists w' m', service_poll w m = Some (w', m') /\ event (g_services m) (g_services m') /\
    (next_poll_ms m <= timer_millis w -> consistent (g_services m') /\ next_poll_ms m' = u64 (timer_millis w + 250)).
Proof.
  intros Ht. unfold service_poll. cbv zeta. destruct (Z.ltb_spec (timer_millis w) (next_poll_ms m)).
  { exists w, m. split; [done|]. split; [|lia]. split_and!; try done. intros i Hi. split_and!; try done. by left. }
  destruct (poll_services_spec (length (g_services m)) w (g_services m) 0 (timer_millis w) Ht ltac:(lia) ltac:(done)) as (w' & l' & -> & Hc & Ht' & _ & Hall).
  cbn [mbind option_bind]. eexists _, _. split; [done|]. cbn. split.
  - split_and!; try done. intros i Hi. destruct (Hall i Hi) as (A & B & C & _). done.
  - intros _. split; [|done]. intros i Hi Hr. rewrite Hc in Hi. by apply Hall.
Qed.

Lemma heartbeat_event w l pid : table_ok l -> event l (fst (service_heartbeat w l pid)).
Proof.
  intros Ht. destruct (service_heartbeat_cases w l pid) as [->|(i & t & Hi & ->)].
  { split_and!; try done. intros i Hi. split_and!; try done. by left. }
  split; [apply count_upd|]. split; [eapply evolves_ok; [|exact Ht]; by apply upd_evolves|]. intros j Hj. unfold ready. rewrite service_upd by lia.
  destruct (Z.eqb_spec j i) as [->|]; split_and!; try done; by left.
Qed.

(** [k] launches, each a restart within the limit. *)
Definition within_limit (x y : service_info) : Prop :=
  exists k, 0 <= k <= Z.max 0 (restart_limit x - restart_count x) /\ restart_count y = restart_count x + k /\ u32 (start_count y) = u32 (start_count x + k).

Lemma within_limit_counted x y z : same_service x y -> counted x y -> within_limit y z -> within_limit x z.
Proof.
  intros (_&_&_&_&E&_) Hc (k & Hk & Hr & Hs). destruct Hc as [[A B]|(A & B & C)].
  - exists k. rewrite <-E, <-A, <-B. done.
  - exists (k + 1). split; [lia|]. split; [lia|]. rewrite Hs, C. unfold uwrap. rewrite Zplus_mod_idemp_l. f_equal. lia.
Qed.

Lemma supervised_spec m m' : supervised m m' -> table_ok (g_services m) ->
  count (g_services m') = count (g_services m) /\ table_ok (g_services m') /\ forall i, 0 <= i < count (g_services m) ->
    within_limit (service (g_services m) i) (service (g_services m') i) /\ same_service (service (g_services m) i) (service (g_services m') i) /\
    (userspace (service (g_services m) i) = false -> ready (g_services m') i -> ready (g_services m) i).
Proof.
  assert (G : forall l l1 l', event l l1 -> (count l' = count l1 /\ table_ok l' /\ forall i, 0 <= i < count l1 ->
      within_limit (service l1 i) (service l' i) /\ same_service (service l1 i) (service l' i) /\ (userspace (service l1 i) = false -> ready l' i -> ready l1 i)) ->
    count l' = count l /\ table_ok l' /\ forall i, 0 <= i < count l ->
      within_limit (service l i) (service l' i) /\ same_service (service l i) (service l' i) /\ (userspace (service l i) = false -> ready l' i -> ready l i)).
  { intros l l1 l' (A & B & C) (A1 & B1 & C1). split; [congruence|]. split; [done|]. intros i Hi.
    destruct (C i Hi) as (D & F & G). destruct (C1 i ltac:(lia)) as (D1 & F1 & G1). split; [by eapply within_limit_counted|]. split; [by etrans|].
    intros Hu Hr. apply G; [done|]. apply G1; [|done]. destruct D as (_&_&_&_&_&->&_). done. }
  induction 1 as [m|w m w' m1 m' Hp _ IH|w pid m m' _ IH]; intros Ht.
  - split_and!; try done. intros i Hi. split_and!; try done. exists 0. rewrite !Z.add_0_r. split_and!; try done; lia.
  - destruct (service_poll_spec w m Ht) as (w2 & m2 & E & He & _). rewrite E in Hp. injection Hp as <- <-.
    apply (G _ (g_services m2)); [done|]. apply IH, He.
  - pose proof (heartbeat_event w (g_services m) pid Ht) as He. apply (G _ _ _ He). apply IH, He.
Qed.

(** ** The operations *)

Inductive operation :=
| Register (name : option (list Z)) (dep st : Z)
| RegisterUserspace (name : option (list Z)) (dep : Z) (path : option (list Z)) (timeout : Z)
| SetRestartLimit (id limit : Z)
| LoadManifest (path : option (list Z))
| StartAll
| Restart (id : Z)
| Heartbeat (pid : Z)
| Poll.

Definition on_table (m : manager) (l : list service_info) : manager := Manager l (next_poll_ms m).

(** The new state and the result of the call. *)
Definition exec (w : W) (m : manager) (o : operation) : option (W * manager * Z) :=
  let l := g_services m in
  match o with
  | Register name dep st => let '(l, rc) := service_register l name dep st in Some (w, on_table m l, rc)
  | RegisterUserspace name dep path timeout => let '(l, rc) := service_register_userspace l name dep path timeout in Some (w, on_table m l, rc)
  | SetRestartLimit id limit => let '(l, rc) := service_set_restart_limit l id limit in Some (w, on_table m l, rc)
  | LoadManifest path => '(w, l, rc) ← service_load_manifest w l path; Some (w, on_table m l, rc)
  | StartAll => '(w, l, rc) ← service_start_all w l; Some (w, on_table m l, rc)
  | Restart id => '(w, l, rc) ← service_restart w l id; Some (w, on_table m l, rc)
  | Heartbeat pid => let '(l, rc) := service_heartbeat w l pid in Some (w, on_table m l, rc)
  | Poll => '(w, m) ← service_poll w m; Some (w, m, 0)
  end.

Lemma count_snoc l x : count (l ++ [x]) = count l + 1.
Proof. unfold count. rewrite length_app. cbn. lia. Qed.

Lemma service_snoc l x : service (l ++ [x]) (count l) = x.
Proof. unfold service, at_z, count. by rewrite Nat2Z.id, app_nth2, Nat.sub_diag by lia. Qed.

Lemma service_old l x i : 0 <= i < count l -> service (l ++ [x]) i = service l i.
Proof. intros Hi. unfold service, at_z, count in *. rewrite app_nth1 by lia. done. Qed.

Lemma add_ok l x : table_ok l -> count l < SERVICE_MAX -> entry_ok (count l) x -> table_ok (l ++ [x]).
Proof.
  intros [Hm Hok] Hc Hx. split; [rewrite count_snoc; lia|]. intros i Hi. rewrite count_snoc in Hi.
  destruct (decide (i = count l)) as [->|]; [by rewrite service_snoc|]. rewrite service_old by lia. apply Hok. lia.
Qed.

Lemma register_userspace_ok l name dep path timeout : table_ok l -> table_ok (fst (service_register_userspace l name dep path timeout)).
Proof.
  intros Ht. unfold service_register_userspace, SERVICE_NO_DEPENDENCY. destruct name as [name|], path as [[|c rest]|]; try done. cbv zeta.
  split_if E; [done|]. split_if E1; [done|]. rewrite !orb_false_iff, !Z.leb_gt, !Z.ltb_ge in E. apply add_ok; [done|lia|]. unfold entry_ok. cbn. lia.
Qed.

Lemma register_ok l name dep st : table_ok l -> table_ok (fst (service_register l name dep st)).
Proof.
  intros Ht. unfold service_register, SERVICE_NO_DEPENDENCY. destruct name as [name|]; [|done].
  split_if E; [done|]. split_if E1; [done|]. rewrite orb_false_iff, ?Z.leb_gt, ?Z.ltb_ge in *. apply add_ok; [done|lia|]. unfold entry_ok. cbn. lia.
Qed.

Lemma set_limit_ok l id limit : table_ok l -> table_ok (fst (service_set_restart_limit l id limit)).
Proof.
  intros [Hm Hok]. unfold service_set_restart_limit. split_if E; [done|]. rewrite !orb_false_iff, !Z.leb_gt, !Z.ltb_ge in E.
  cbn [fst]. split; [by rewrite count_upd|]. intros i Hi. rewrite count_upd in Hi. rewrite service_upd by lia. destruct (Z.eqb_spec i id) as [->|]; [|by apply Hok].
  destruct (Hok id Hi) as (? & ? & ? & ?). unfold entry_ok. cbn. lia.
Qed.

Lemma restart_ok w l id : table_ok l -> exists w' l' rc, service_restart w l id = Some (w', l', rc) /\ table_ok l'.
Proof.
  intros Ht. unfold service_restart. split_if E; [by exists w, l, (-1)|]. rewrite orb_false_iff, Z.leb_gt, Z.ltb_ge in E.
  set (l1 := upd l id _). assert (Hc : count l1 = count l) by apply count_upd. assert (Ht1 : table_ok l1).
  { destruct Ht as [Hm Hok]. split; [by rewrite Hc|]. intros i Hi. rewrite Hc in Hi. unfold l1. rewrite service_upd by lia.
    destruct (Z.eqb_spec i id) as [->|]; [|by apply Hok]. destruct (Hok id Hi) as (? & ? & ? & ?). unfold entry_ok. cbn. lia. }
  destruct (start_one_from w l1 id Ht1 ltac:(lia)) as (w' & l' & rc & -> & (_ & Ho & _) & _). by exists w', l', rc.
Qed.
End Spec.
