(* ===== verification/ServiceManifest.v ===== *)
(** Service manifests: the parser ends on every input, keeps the table well formed, and
    registers exactly the records written in a manifest; the operations of the manager
    together. *)
From S2P Require Import Prelude Service ServiceSpec.

(** ** Scanning *)

Lemma length_skip p data : (length (skip p data) <= length data)%nat.
Proof. unfold skip. rewrite length_drop. lia. Qed.

Lemma skip_yes p c data : p c = true -> skip p (c :: data) = skip p data.
Proof. intros H. unfold skip. cbn [span_len]. by rewrite H. Qed.

Lemma skip_no p c data : p c = false -> skip p (c :: data) = c :: data.
Proof. intros H. unfold skip. cbn [span_len]. by rewrite H. Qed.

Lemma after_field (data : list Z) k :
  (length (match drop k data with c :: rest => if (c =? 10)%Z then c :: rest else rest | [] => [] end) <= length data - k)%nat.
Proof. rewrite <-length_drop. destruct (drop k data) as [|c rest]; [done|]. destruct (c =? 10); cbn; lia. Qed.

Lemma length_line_fields n : forall data, (length (snd (line_fields n data)) <= length data)%nat.
Proof.
  induction n as [|n IH]; intros [|c data]; cbn [line_fields]; try done. destruct (c =? 10); [done|]. cbv zeta.
  set (after := match drop _ _ with [] => _ | _ => _ end).
  pose proof (after_field (c :: data) (span_len (fun c => negb (is_white c)) (c :: data))) as Ha. fold after in Ha.
  specialize (IH (skip is_blank after)). destruct (line_fields n (skip is_blank after)) as [fs rest]. cbn [snd] in *.
  pose proof (length_skip is_blank after). lia.
Qed.

(** A line takes its first field at least. *)
Lemma line_fields_shrinks n c data : is_white c = false -> (length (snd (line_fields (S n) (c :: data))) < length (c :: data))%nat.
Proof.
  intros Hw. assert (Hc : (c =? 10) = false) by (unfold is_white in Hw; by apply orb_false_iff in Hw as [_ ?]).
  cbn [line_fields]. rewrite Hc. cbv zeta. set (after := match drop _ _ with [] => _ | _ => _ end).
  pose proof (after_field (c :: data) (span_len (fun c => negb (is_white c)) (c :: data))) as Ha. fold after in Ha.
  cbn [span_len] in Ha. rewrite Hw in Ha. cbn [negb length] in Ha.
  pose proof (length_line_fields n (skip is_blank after)) as Hl. destruct (line_fields n (skip is_blank after)) as [fs rest]. cbn [snd length] in *.
  pose proof (length_skip is_blank after). lia.
Qed.

Lemma manifest_record_ok l fs : table_ok l -> table_ok (fst (manifest_record l fs)).
Proof.
  intros Ht. unfold manifest_record. destruct fs as [|name [|path [|dep [|timeout [|limit [|? ?]]]]]]; try done. cbv zeta.
  destruct (parse_u64 timeout) as [t|], (parse_u64 limit) as [n|]; try done. split_if E; [done|].
  pose proof (register_userspace_ok l (Some name) (if bool_decide (dep = [45; 49]) then SERVICE_NO_DEPENDENCY else service_find l dep) (Some path) t Ht) as Hr.
  destruct (service_register_userspace _ _ _ _ _) as [l1 id]. cbn [fst] in Hr. destruct (id <? 0); [done|].
  pose proof (set_limit_ok l1 id n Hr) as Hs. by destruct (service_set_restart_limit l1 id n).
Qed.

Lemma manifest_loop_total fuel : forall l data loaded, table_ok l -> (length data < fuel)%nat ->
  exists l' n, manifest_loop fuel l data loaded = Some (l', n) /\ table_ok l' /\ loaded <= n.
Proof.
  induction fuel as [|fuel IH]; intros l data loaded Ht Hf; [lia|]. cbn [manifest_loop].
  pose proof (length_skip is_white data) as Hs. destruct (skip is_white data) as [|c rest] eqn:E; [by exists l, loaded|].
  assert (Hw : is_white c = false).
  { unfold skip in E. destruct (span_len_spec is_white data) as (l1 & l2 & -> & Hl & _ & Hh). rewrite drop_app_length' in E by done. by rewrite E in Hh. }
  destruct (Z.eqb_spec c 35) as [->|_].
  - apply IH; [done|]. rewrite skip_yes by done. pose proof (length_skip line_end rest). cbn in Hs. lia.
  - pose proof (line_fields_shrinks 4 c rest Hw) as Hl. destruct (line_fields 5 (c :: rest)) as [fs r]. cbn [snd] in Hl. cbv zeta.
    set (over := _ && _). set (r1 := if over then skip line_end r else r). set (r2 := match r1 with [] => [] | _ => _ end).
    assert (H2 : (length r2 <= length r)%nat).
    { assert (length r1 <= length r)%nat by (unfold r1; destruct over; [apply length_skip|done]). unfold r2. destruct r1 as [|d r1]; [cbn; lia|].
      destruct (d =? 10); cbn in *; lia. }
    pose proof (manifest_record_ok l (if over then [] else fs) Ht) as Hr. destruct (manifest_record l _) as [l1 ok].
    destruct (IH l1 r2 (loaded + b2z ok) Hr ltac:(lia)) as (l2 & n & -> & Ho & Hn). exists l2, n. split_and!; try done. destruct ok; cbn in Hn; lia.
Qed.

Section Operations.
Context {W : Type} `{SE : ServiceEnv W}.

Lemma load_manifest_ok (w : W) l path : table_ok l -> exists w' l' rc, service_load_manifest w l path = Some (w', l', rc) /\ table_ok l'.
Proof.
  intros Ht. unfold service_load_manifest. destruct path as [path|]; [|by exists w, l, (-1)].
  destruct (vfs_read w path 4095) as [[w1 bytes] out]. split_if E; [by exists w1, l, (-1)|].
  destruct (manifest_loop_total (S (length out)) l out 0 Ht ltac:(lia)) as (l' & n & -> & Ho & _). by exists w1, l', n.
Qed.

(** Every operation returns from every well-formed table and leaves one: at most
    [SERVICE_MAX] services, each under its own index, after its dependency, with a restart
    limit of at most 16.  So dependencies never form a cycle. *)
Theorem service_operations_total (w : W) (m : manager) (o : operation) :
  table_ok (g_services m) -> exists w' m' rc, exec w m o = Some (w', m', rc) /\ table_ok (g_services m').
Proof.
  intros Ht. destruct o as [name dep st|name dep path timeout|id limit|path| |id|pid|]; cbn [exec].
  - pose proof (register_ok (g_services m) name dep st Ht). destruct (service_register _ _ _ _) as [l rc]. by exists w, (on_table m l), rc.
  - pose proof (register_userspace_ok (g_services m) name dep path timeout Ht). destruct (service_register_userspace _ _ _ _ _) as [l rc]. by exists w, (on_table m l), rc.
  - pose proof (set_limit_ok (g_services m) id limit Ht). destruct (service_set_restart_limit _ _ _) as [l rc]. by exists w, (on_table m l), rc.
  - destruct (load_manifest_ok w (g_services m) path Ht) as (w' & l & rc & -> & Ho). by exists w', (on_table m l), rc.
  - unfold service_start_all. destruct (start_all_from (length (g_services m)) w (g_services m) 0 0 Ht ltac:(lia) ltac:(done)) as (w' & l & f & -> & (_ & Ho & _) & _).
    by exists w', (on_table m l), (- f).
  - destruct (restart_ok w (g_services m) id Ht) as (w' & l & rc & -> & Ho). by exists w', (on_table m l), rc.
  - destruct (heartbeat_event w (g_services m) pid Ht) as (_ & Ho & _). destruct (service_heartbeat _ _ _) as [l rc]. by exists w, (on_table m l), rc.
  - destruct (service_poll_spec w m Ht) as (w' & m' & -> & (_ & Ho & _) & _). by exists w', m', 0.
Qed.

(** C34. [service_start_one] returns; it launches services in the order of their ids, only
    what the service needs, and each only when its dependency is ready; it succeeds
    exactly when the service is ready in the end, and what was ready stays as it is. *)
Theorem service_start_ordered (w : W) (l : list service_info) (id : Z) :
  table_ok l -> consistent l -> 0 <= id < count l ->
  exists w' l' rc js, start_one w l id = Some (w', l', rc) /\ runs (w, l) js (w', l') /\ StronglySorted Z.lt js /\ Forall (needs l id) js /\
    (rc = 0 <-> ready l' id) /\ consistent l' /\ forall j, 0 <= j -> ready l j -> service l' j = service l j.
Proof.
  intros Ht Hc Hi. destruct (start_one_spec w l id Ht Hi) as (w' & l' & rc & js & E & Hr & Hs & Hj & Hrc).
  exists w', l', rc, js. split_and!; try done; [by apply (runs_consistent _ _ _ Hr)|]. intros j. by apply (runs_ready _ _ _ j Hr).
Qed.

(** [service_start_all] returns 0 only when every service is ready, keeps dependencies
    ready, and when every start succeeds it returns 0 after launching each service that
    was not ready once, in order. *)
Theorem service_start_all_ready (w : W) (l : list service_info) :
  table_ok l -> consistent l ->
  exists w' l' rc, service_start_all w l = Some (w', l', rc) /\ consistent l' /\ rc <= 0 /\
    (rc = 0 -> forall i, 0 <= i < count l -> ready l' i) /\ (succeeds -> rc = 0 /\ runs (w, l) (waiting l 0 (length l)) (w', l')).
Proof.
  intros Ht Hc. unfold service_start_all. destruct (start_all_from (length l) w l 0 0 Ht ltac:(lia) ltac:(done)) as (w' & l' & f & E & (_ & _ & Hc' & _) & Hf & Hall).
  rewrite E. exists w', l', (- f). split_and!; [done|by apply Hc'|lia|intros Hz i Hi; apply Hall; unfold count in *; lia|].
  intros Hsu. destruct (start_all_succeeds (length l) w l 0 0 Hsu Ht ltac:(lia) ltac:(done) ltac:(lia)) as (w2 & l2 & E2 & Hr).
  rewrite E in E2. injection E2 as <- <- ->. done.
Qed.

(** After a poll that is due, no service is ready whose dependency is not; the next
    one is due 250 ms later. *)
Theorem service_poll_consistent (w : W) (m : manager) :
  table_ok (g_services m) -> next_poll_ms m <= timer_millis w ->
  exists w' m', service_poll w m = Some (w', m') /\ consistent (g_services m') /\ next_poll_ms m' = u64 (timer_millis w + 250).
Proof.
  intros Ht Hn. destruct (service_poll_spec w m Ht) as (w' & m' & E & _ & H). exists w', m'. split; [done|]. by apply H.
Qed.

(** However the processes behave, polls and heartbeats launch a service at most as
    often as its restart limit still allows, and count every launch. *)
Theorem service_restarts_bounded (m m' : manager) (i : Z) :
  table_ok (g_services m) -> supervised m m' -> 0 <= i < count (g_services m) ->
  let x := service (g_services m) i in let y := service (g_services m') i in
  exists k, 0 <= k <= Z.max 0 (restart_limit x - restart_count x) /\ restart_count y = restart_count x + k /\ u32 (start_count y) = u32 (start_count x + k).
Proof. intros Ht Hs Hi x y. destruct (supervised_spec m m' Hs Ht) as (_ & _ & H). by apply H. Qed.

(** Supervision never brings back a service of the kernel that it took down with its
    dependency, not even when the dependency is ready again. *)
Theorem kernel_service_stays_down (m m' : manager) (i : Z) :
  table_ok (g_services m) -> supervised m m' -> 0 <= i < count (g_services m) -> userspace (service (g_services m) i) = false ->
  ~ ready (g_services m) i -> ~ ready (g_services m') i.
Proof. intros Ht Hs Hi Hu Hn Hr. destruct (supervised_spec m m' Hs Ht) as (_ & _ & H). apply Hn. by apply H. Qed.

(** ** Writing a manifest *)

(** Decimal digits. *)
Fixpoint decimal (fuel : nat) (n : Z) : list Z :=
  match fuel with
  | O => [48 + n mod 10]
  | S fuel => (if n <? 10 then [] else decimal fuel (n / 10)) ++ [48 + n mod 10]
  end.
Definition digits (n : Z) : list Z := decimal 19 n.

Lemma parse_digits_app a b v : parse_digits v (a ++ b) = parse_digits v a ≫= fun v => parse_digits v b.
Proof. revert v. induction a as [|c a IH]; intros v; cbn [app parse_digits mbind option_bind]; [done|]. by destruct (_ || _). Qed.

Lemma parse_last n : 0 <= n < 2 ^ 64 -> parse_digits (n / 10) [48 + n mod 10] = Some n.
Proof.
  intros Hn. pose proof (Z.mod_pos_bound n 10 ltac:(lia)) as Hm. pose proof (Z.div_mod n 10 ltac:(lia)) as Hd. cbn [parse_digits].
  replace (48 + n mod 10 - 48) with (n mod 10) by lia. rewrite (proj2 (Z.ltb_ge _ 48)), (proj2 (Z.ltb_ge 57 _)) by lia. cbn [orb].
  rewrite (proj2 (Z.ltb_ge _ (n / 10))) by (apply Z.div_le_lower_bound; lia). f_equal. lia.
Qed.

Lemma parse_u64_decimal fuel : forall n, 0 <= n < 2 ^ 64 -> n < 10 ^ (Z.of_nat fuel + 1) -> parse_digits 0 (decimal fuel n) = Some n.
Proof.
  assert (G : forall n, 0 <= n < 10 -> parse_digits 0 [48 + n mod 10] = Some n).
  { intros n Hn. rewrite <-(Z.div_small n 10) at 1 by lia. apply parse_last. lia. }
  induction fuel as [|fuel IH]; intros n Hn Hf; cbn [decimal]; [apply G; cbn in Hf; lia|].
  destruct (Z.ltb_spec n 10); [apply G; lia|]. rewrite parse_digits_app, IH; [|Z.to_euclidean_division_equations; lia|].
  - cbn [mbind option_bind]. by apply parse_last.
  - rewrite Nat2Z.inj_succ in Hf. replace (Z.succ (Z.of_nat fuel) + 1) with (Z.succ (Z.of_nat fuel + 1)) in Hf by lia.
    rewrite Z.pow_succ_r in Hf by lia. apply Z.div_lt_upper_bound; lia.
Qed.

Lemma parse_u64_digits n : 0 <= n < 2 ^ 64 -> parse_u64 (digits n) = Some n.
Proof.
  intros Hn. pose proof (parse_u64_decimal 19 n Hn) as H. unfold digits, parse_u64. rewrite H by (cbn; lia). cbn [decimal].
  by destruct (if n <? 10 then [] else _).
Qed.

(** A word a field can hold. *)
Definition word (t : list Z) : Prop := t <> [] /\ Forall (fun c => is_white c = false /\ c <> 0) t.

Lemma digits_word n : word (digits n).
Proof.
  assert (G : forall fuel n, Forall (fun c => is_white c = false /\ c <> 0) (decimal fuel n)).
  { assert (L : forall n, is_white (48 + n mod 10) = false /\ 48 + n mod 10 <> 0).
    { intros k. pose proof (Z.mod_pos_bound k 10 ltac:(lia)). unfold is_white, is_blank. split; [|lia].
      by rewrite !(proj2 (Z.eqb_neq _ _)) by lia. }
    induction fuel as [|fuel IH]; intros k; cbn [decimal]; [by constructor|]. apply Forall_app. split; [|by constructor]. by destruct (k <? 10). }
  split; [|apply G]. unfold digits. cbn [decimal]. by destruct (if n <? 10 then [] else _).
Qed.

Lemma span_all {A} (p : A -> bool) t rest : Forall (fun c => p c = true) t -> match rest with [] => True | c :: _ => p c = false end ->
  span_len p (t ++ rest) = length t.
Proof. induction 1 as [|c t Hc _ IH]; cbn; intros Hr; [destruct rest as [|d r]; cbn; [done|by rewrite Hr]|]. by rewrite Hc, IH. Qed.

Lemma word_span t c rest : word t -> is_white c = true -> span_len (fun c => negb (is_white c)) (t ++ c :: rest) = length t.
Proof. intros [_ Hf] Hc. apply span_all; [|by rewrite Hc]. eapply Forall_impl; [exact Hf|]. by intros x [-> _]. Qed.

Lemma word_cstr t : word t -> cstr t = t.
Proof.
  intros [_ Hf]. unfold cstr. rewrite <-(app_nil_r t) at 1. rewrite span_all; [by apply take_ge|eapply Forall_impl; [exact Hf|]|done].
  intros x [_ Hx]. by rewrite (proj2 (Z.eqb_neq x 0)).
Qed.

Lemma word_head t rest : word t -> exists c r, t ++ rest = c :: r /\ is_white c = false.
Proof. intros [Hn Hf]. destruct t as [|c t]; [done|]. inversion_clear Hf as [|? ? [Hc _]]. by exists c, (t ++ rest). Qed.

Lemma white_split c : is_white c = false -> is_blank c = false /\ (c =? 10) = false.
Proof. unfold is_white. by rewrite orb_false_iff. Qed.

(** One field and the separator after it. *)
Lemma line_fields_word n t rest : word t ->
  line_fields (S n) (t ++ 32 :: rest) = (let '(fs, r) := line_fields n (skip is_blank rest) in (t :: fs, r)).
Proof.
  intros Ht. destruct (word_head t (32 :: rest) Ht) as (c & r & E & Hw). apply white_split in Hw as [_ Hc]. pose proof (word_span t 32 rest Ht eq_refl) as Hs.
  rewrite E in *. cbn [line_fields]. rewrite Hc. cbv zeta. rewrite Hs, <-E, drop_app_length, take_app_length, (word_cstr t Ht). done.
Qed.

Lemma line_fields_last n t rest : word t -> line_fields (S n) (t ++ 10 :: rest) = ([t], 10 :: rest).
Proof.
  intros Ht. destruct (word_head t (10 :: rest) Ht) as (c & r & E & Hw). apply white_split in Hw as [_ Hc]. pose proof (word_span t 10 rest Ht eq_refl) as Hs.
  rewrite E in *. cbn [line_fields]. rewrite Hc. cbv zeta. rewrite Hs, <-E, drop_app_length, take_app_length, (word_cstr t Ht).
  change (skip is_blank (10 :: rest)) with (10 :: rest). by destruct n.
Qed.

Lemma skip_word t rest : word t -> skip is_blank (t ++ rest) = t ++ rest.
Proof. intros Ht. destruct (word_head t rest Ht) as (c & r & -> & Hw). apply skip_no. by apply white_split in Hw as [? _]. Qed.

(** A record of a manifest, as it is meant. *)
Record entry := Entry { en_name : list Z; en_path : list Z; en_dep : option (list Z); en_timeout : Z; en_limit : Z }.

Definition dep_text (x : entry) : list Z := default [45; 49] (en_dep x).
Definition print_entry (x : entry) : list Z :=
  en_name x ++ 32 :: en_path x ++ 32 :: dep_text x ++ 32 :: digits (en_timeout x) ++ 32 :: digits (en_limit x) ++ [10].

(** The service it stands for, behind the services [l]. *)
Definition entry_service (l : list service_info) (x : entry) : service_info :=
  ServiceInfo (count l) (en_name x) (match en_dep x with Some d => service_find l d | None => SERVICE_NO_DEPENDENCY end) 0 SERVICE_STOPPED 0 (en_limit x) 0
    (-1) true (en_timeout x) 0 0 (en_path x).
Definition add_entry (l : list service_info) (x : entry) : list service_info := l ++ [entry_service l x].

(** What can be written: words that fit, numbers in range, a dependency among the services
    before it. *)
Definition writable (l : list service_info) (x : entry) : Prop :=
  count l < SERVICE_MAX /\ word (en_name x) /\ head (en_name x) <> Some 35 /\ Z.of_nat (length (en_name x)) < SERVICE_NAME_MAX /\
  word (en_path x) /\ Z.of_nat (length (en_path x)) < SERVICE_PATH_MAX /\ 1000 <= en_timeout x < 2 ^ 64 /\ 0 <= en_limit x <= 16 /\
  match en_dep x with Some d => word d /\ d <> [45; 49] /\ exists i, (i < length l)%nat /\ s_name (service l (Z.of_nat i)) = d | None => True end.

Fixpoint all_writable (l : list service_info) (xs : list entry) : Prop :=
  match xs with [] => True | x :: xs => writable l x /\ all_writable (add_entry l x) xs end.

Lemma service_find_range l d : (exists i, (i < length l)%nat /\ s_name (service l (Z.of_nat i)) = d) -> 0 <= service_find l d < count l.
Proof.
  intros (i & Hi & Hn). unfold service_find, count. destruct (list_find _ l) as [[k x]|] eqn:E.
  - apply list_find_Some in E as (Hl & _ & _). apply lookup_lt_Some in Hl. lia.
  - apply list_find_None in E. rewrite Forall_lookup in E. exfalso. apply (E i (service l (Z.of_nat i))); [|done].
    unfold service. rewrite <-(Nat2Z.id i) at 1. apply at_z_lookup. lia.
Qed.

Lemma find_dependency l x : writable l x -> (if bool_decide (dep_text x = [45; 49]) then SERVICE_NO_DEPENDENCY else service_find l (dep_text x)) =
  match en_dep x with Some d => service_find l d | None => SERVICE_NO_DEPENDENCY end /\
  (negb (bool_decide (dep_text x = [45; 49])) && (match en_dep x with Some d => service_find l d | None => SERVICE_NO_DEPENDENCY end <? 0)) = false /\
  -1 <= match en_dep x with Some d => service_find l d | None => SERVICE_NO_DEPENDENCY end < count l.
Proof.
  intros (_ & _ & _ & _ & _ & _ & _ & _ & Hd). unfold dep_text, SERVICE_NO_DEPENDENCY. destruct (en_dep x) as [d|]; cbn [default from_option].
  - destruct Hd as (_ & Hn & Hr). apply service_find_range in Hr. rewrite bool_decide_eq_false_2 by done. cbn [negb andb].
    split_and!; [done|apply Z.ltb_ge; lia|lia|lia].
  - rewrite bool_decide_eq_true_2 by done. unfold count. split_and!; [done|done|lia|lia].
Qed.

Lemma manifest_record_writable l x : writable l x ->
  manifest_record l [en_name x; en_path x; dep_text x; digits (en_timeout x); digits (en_limit x)] = (add_entry l x, true).
Proof.
  intros Hw. destruct (find_dependency l x Hw) as (Hd & Hnn & Hr). destruct Hw as (Hc & _ & _ & Hnl & [Hpn _] & Hpl & Ht & Hl & _).
  unfold manifest_record. cbv zeta. rewrite !parse_u64_digits by lia. rewrite Hd, Hnn. rewrite (proj2 (Z.ltb_ge 16 _)) by lia. cbn [orb].
  unfold service_register_userspace. destruct (en_path x) as [|c p] eqn:Ep; [done|]. cbv zeta.
  rewrite (proj2 (Z.leb_gt SERVICE_MAX _)), (proj2 (Z.leb_gt (count l) _)), (proj2 (Z.ltb_ge _ SERVICE_NO_DEPENDENCY)), (proj2 (Z.ltb_ge (en_timeout x) 1000)) by (unfold SERVICE_NO_DEPENDENCY in *; lia).
  cbn [orb]. rewrite (proj2 (Z.leb_gt SERVICE_PATH_MAX _)) by done. unfold add_service. rewrite (proj2 (Z.ltb_ge (count l) 0)) by (unfold count; lia).
  unfold service_set_restart_limit. rewrite count_snoc, (proj2 (Z.ltb_ge (count l) 0)), (proj2 (Z.leb_gt (count l + 1) _)), (proj2 (Z.ltb_ge 16 _)) by (unfold count; lia).
  cbn [orb Z.eqb]. f_equal. unfold add_entry, upd. rewrite service_snoc. unfold count. rewrite Nat2Z.id, insert_app_r_alt, Nat.sub_diag by lia.
  cbn. f_equal. unfold entry_service, set_limit. cbn. rewrite Ep. f_equal. unfold copy_name. rewrite take_ge; [done|]. unfold SERVICE_NAME_MAX in *. lia.
Qed.

Lemma line_fields_entry l x rest : writable l x ->
  line_fields 5 (print_entry x ++ rest) = ([en_name x; en_path x; dep_text x; digits (en_timeout x); digits (en_limit x)], 10 :: rest).
Proof.
  intros (_ & Hn & _ & _ & Hp & _ & _ & _ & Hd). assert (Hdw : word (dep_text x)).
  { unfold dep_text. destruct (en_dep x) as [d|]; [apply Hd|]. split; [done|]. repeat constructor; done. }
  unfold print_entry. rewrite <-!app_assoc, <-!app_comm_cons, <-!app_assoc, <-!app_comm_cons, <-!app_assoc, <-!app_comm_cons, <-!app_assoc, <-!app_comm_cons, <-!app_assoc. cbn [app].
  rewrite (line_fields_word 4 (en_name x)), skip_word, (line_fields_word 3 (en_path x)), skip_word, (line_fields_word 2 (dep_text x)), skip_word by (done || apply digits_word).
  rewrite (line_fields_word 1), skip_word, (line_fields_last 0) by apply digits_word. done.
Qed.

Lemma print_entry_head l x rest : writable l x -> exists c r, print_entry x ++ rest = c :: r /\ is_white c = false /\ (c =? 35) = false.
Proof.
  intros (_ & [Hn Hf] & Hh & _). unfold print_entry. destruct (en_name x) as [|c name]; [done|]. inversion_clear Hf as [|? ? [Hc _]].
  eexists c, _. split; [done|]. split; [done|]. apply Z.eqb_neq. cbn in Hh. congruence.
Qed.

Lemma manifest_entry fuel l x rest loaded : writable l x ->
  manifest_loop (S fuel) l (print_entry x ++ rest) loaded = manifest_loop fuel (add_entry l x) rest (loaded + 1).
Proof.
  intros Hw. destruct (print_entry_head l x rest Hw) as (c & r & E & Hc & Hh). pose proof (line_fields_entry l x rest Hw) as Hf.
  cbn [manifest_loop]. rewrite E in *. rewrite (skip_no is_white c r Hc), Hh, Hf. cbv zeta. cbn [length Z.of_nat Z.eqb andb negb].
  change (Z.of_nat 5 =? 5) with true. cbn [andb negb Z.eqb Pos.eqb]. by rewrite (manifest_record_writable l x Hw).
Qed.

Lemma manifest_entries xs : forall fuel l loaded, all_writable l xs -> (length xs < fuel)%nat ->
  manifest_loop fuel l (flat_map print_entry xs) loaded = Some (fold_left add_entry xs l, loaded + Z.of_nat (length xs)).
Proof.
  induction xs as [|x xs IH]; intros [|fuel] l loaded Hw Hf; cbn [length] in Hf; try lia.
  - cbn. f_equal. f_equal. lia.
  - destruct Hw as [Hx Hw]. cbn [flat_map fold_left length]. rewrite (manifest_entry fuel l x _ loaded Hx), IH by (done || lia). f_equal. f_equal. lia.
Qed.

Lemma print_entry_length x : (0 < length (print_entry x))%nat.
Proof. unfold print_entry. rewrite length_app. cbn. lia. Qed.

(** Loading a manifest into which records were written registers exactly these, in
    their order, each stopped, with its path, dependency, timeout and restart limit. *)
Theorem service_manifest_roundtrip (w w' : W) (l : list service_info) (path : list Z) (xs : list entry) :
  all_writable l xs -> xs <> [] -> Z.of_nat (length (flat_map print_entry xs)) <= 4095 ->
  vfs_read w path 4095 = (w', Z.of_nat (length (flat_map print_entry xs)), flat_map print_entry xs) ->
  service_load_manifest w l (Some path) = Some (w', fold_left add_entry xs l, Z.of_nat (length xs)).
Proof.
  intros Hw Hn Hl Hr. unfold service_load_manifest. rewrite Hr.
  assert (Hp : 0 < Z.of_nat (length (flat_map print_entry xs))).
  { destruct xs as [|x xs]; [done|]. cbn [flat_map]. rewrite length_app. pose proof (print_entry_length x). lia. }
  rewrite (proj2 (Z.leb_gt _ 0)), (proj2 (Z.leb_gt 4096 _)) by lia. cbn [orb]. rewrite (manifest_entries xs); [done|done|].
  clear. induction xs as [|x xs IH]; cbn [flat_map length]; [lia|]. rewrite length_app. pose proof (print_entry_length x). lia.
Qed.
End Operations.

(** ** A small system *)

(** The time, the processes that run, the next id, and the manifest file. *)
Record demo_system := DemoSystem { d_time : Z; d_running : list Z; d_next : Z; d_file : list Z }.

#[export] Instance demo_services : ServiceEnv demo_system := {
  timer_millis := d_time;
  call_start w _ := (w, 0);
  process_spawn_path w _ := (DemoSystem (d_time w) (d_next w :: d_running w) (d_next w + 1) (d_file w), Some (d_next w));
  process_exists w pid := bool_decide (pid ∈ d_running w);
  process_kill w pid := DemoSystem (d_time w) (List.filter (fun p => negb (p =? pid)) (d_running w)) (d_next w) (d_file w);
  vfs_read w _ n := let bs := take (Z.to_nat n) (d_file w) in (w, Z.of_nat (length bs), bs)
}.

Definition demo_entries : list entry :=
  [Entry [97; 98] [47; 97] None 5000 3; Entry [99] [47; 99] (Some [97; 98]) 1000 16].
Definition demo_boot : demo_system := DemoSystem 1000 [] 7 (flat_map print_entry demo_entries).
Definition demo_table : list service_info := fold_left add_entry demo_entries [].

Lemma word_check t : t <> [] -> forallb (fun c => negb (is_white c) && negb (c =? 0)) t = true -> word t.
Proof.
  intros Hn H. split; [done|]. rewrite forallb_forall in H. apply Forall_forall. intros c Hc%list_elem_of_In. specialize (H c Hc).
  rewrite andb_true_iff, !negb_true_iff, Z.eqb_neq in H. done.
Qed.

Lemma demo_writable : all_writable [] demo_entries.
Proof.
  split; [|split; [|done]]; unfold writable, demo_entries, SERVICE_MAX, SERVICE_NAME_MAX, SERVICE_PATH_MAX; cbn [en_name en_path en_dep en_timeout en_limit head length];
    split_and!; try done; try (by apply word_check); try lia.
  exists 0%nat. split; [cbn; lia|done].
Qed.

Lemma table_check l : (count l <=? SERVICE_MAX) && forallb (fun '(i, x) => (s_id x =? Z.of_nat i) && (-1 <=? dependency x) && (dependency x <? Z.of_nat i)
    && (restart_limit x <=? 16) && (0 <=? restart_count x) && (restart_count x <? 2 ^ 32)) (imap (fun i x => (i, x)) l) = true -> table_ok l.
Proof.
  intros [Hc H]%andb_true_iff. apply Z.leb_le in Hc. split; [done|]. intros i Hi. rewrite forallb_forall in H. unfold count in Hi.
  specialize (H (Z.to_nat i, service l i)). cbn beta iota in H. unfold entry_ok.
  assert (Hin : In (Z.to_nat i, service l i) (imap (fun i x => (i, x)) l)).
  { apply list_elem_of_In, list_elem_of_lookup. exists (Z.to_nat i). rewrite list_lookup_imap. unfold service. by rewrite (at_z_lookup no_service l i Hi). }
  specialize (H Hin). rewrite !andb_true_iff, Z.eqb_eq, !Z.leb_le, !Z.ltb_lt, Z2Nat.id in H by lia. tauto.
Qed.

Lemma demo_table_ok : table_ok demo_table.
Proof. by apply table_check. Qed.

Lemma all_stopped_consistent l : forallb (fun x => negb (is_ready x)) l = true -> consistent l.
Proof.
  intros H i Hi Hr. exfalso. rewrite forallb_forall in H. unfold count in Hi. specialize (H (service l i)).
  rewrite negb_true_iff, not_ready_spec in H. apply H; [|exact Hr]. apply list_elem_of_In, list_elem_of_lookup. exists (Z.to_nat i). by apply at_z_lookup.
Qed.

Lemma demo_table_consistent : consistent demo_table.
Proof. by apply all_stopped_consistent. Qed.

Lemma service_manifest_roundtrip_witness : service_load_manifest demo_boot [] (Some [109]) = Some (demo_boot, demo_table, 2).
Proof. apply (service_manifest_roundtrip demo_boot demo_boot [] [109] demo_entries); [apply demo_writable|done|by vm_compute|by vm_compute]. Defined.

Lemma service_operations_total_witness : exists w' m' rc, exec demo_boot (Manager demo_table 0) (Restart 1) = Some (w', m', rc) /\ table_ok (g_services m').
Proof. apply (service_operations_total demo_boot (Manager demo_table 0) (Restart 1)). apply demo_table_ok. Defined.

Lemma service_start_ordered_witness : exists w' l' js, start_one demo_boot demo_table 1 = Some (w', l', 0) /\ runs (demo_boot, demo_table) js (w', l') /\ ready l' 1.
Proof.
  destruct (service_start_ordered demo_boot demo_table 1 demo_table_ok demo_table_consistent) as (w' & l' & rc & js & E & Hr & _ & _ & Hrc & _); [by vm_compute|].
  exists w', l', js. assert (rc = 0) as -> by (vm_compute in E; by injection E). split; [done|]. split; [done|]. by apply Hrc.
Defined.

Lemma service_start_all_ready_witness : exists w' l', service_start_all demo_boot demo_table = Some (w', l', 0) /\ runs (demo_boot, demo_table) [0; 1] (w', l').
Proof.
  destruct (service_start_all_ready demo_boot demo_table demo_table_ok demo_table_consistent) as (w' & l' & rc & E & _ & _ & _ & H).
  destruct H as [-> Hr]; [by split; intros; [|eexists]|]. exists w', l'. by split.
Defined.

(** A service whose process is gone takes what depends on it down. *)
Definition demo_after : demo_system := DemoSystem 2000 [8] 9 [].
Definition demo_running : manager := Manager (map (fun x => set_process (7 + s_id x) (set_state SERVICE_READY x)) demo_table) 1500.

Lemma service_poll_consistent_witness : exists w' m', service_poll demo_after demo_running = Some (w', m') /\ consistent (g_services m') /\ next_poll_ms m' = 2250.
Proof.
  destruct (service_poll_consistent demo_after demo_running) as (w' & m' & E & Hc & Hn); [by apply table_check|by vm_compute|].
  exists w', m'. split; [done|]. split; [done|]. by rewrite Hn.
Defined.

Lemma demo_supervised : exists m', supervised demo_running m' /\ restart_count (service (g_services m') 0) = 0.
Proof.
  destruct (service_poll demo_after demo_running) as [[w m']|] eqn:E; [|by vm_compute in E]. exists m'. split; [by eapply sup_poll, sup_done|].
  vm_compute in E. by injection E as <- <-.
Qed.

Lemma service_restarts_bounded_witness : exists m' k, supervised demo_running m' /\ 0 <= k <= 3 /\ restart_count (service (g_services m') 0) = k.
Proof.
  destruct demo_supervised as (m' & Hs & _). destruct (service_restarts_bounded demo_running m' 0) as (k & Hk & Hr & _); [by apply table_check|done|by vm_compute|].
  exists m', k. split; [done|]. split; [exact Hk|exact Hr].
Defined.
