(* ===== verification/Proc.v ===== *)
(** Processes, threads and the scheduler: [kernel/process.c], all but the memory calls
    of [ProcVm].

    The process table is a list of [MAX_PROCESSES] records.  Page tables and frames are
    those of [Vmm]; the services other kernel parts offer to this one are the interface
    [ProcEnv], whose state is [W]; running user code until it returns to the kernel is a
    parameter. *)
From S2P Require Import Prelude Pmm Vmm Elf Kea.

(** ** Constants of [process.h] *)

Definition PROCESS_STATE_UNUSED : Z := 0.
Definition PROCESS_STATE_READY : Z := 1.
Definition PROCESS_STATE_RUNNING : Z := 2.
Definition PROCESS_STATE_EXITED : Z := 3.
Definition PROCESS_STATE_STOPPED : Z := 4.
Definition THREAD_STATE_UNUSED : Z := 0.
Definition THREAD_STATE_READY : Z := 1.
Definition THREAD_STATE_RUNNING : Z := 2.
Definition THREAD_STATE_EXITED : Z := 3.
Definition MAX_PROCESSES : Z := 16.
Definition MAX_THREADS_PER_PROCESS : Z := 32.
Definition MAX_VM_REGIONS_PER_PROCESS : Z := 2048.
Definition KESH_UID_ROOT : Z := 0.
Definition KESH_UID_USER : Z := 1000.
Definition KESH_SIGINT : Z := 2.
Definition KESH_SIGKILL : Z := 9.
Definition KESH_SIGTERM : Z := 15.
Definition KESH_SIGCONT : Z := 18.
Definition KESH_SIGSTOP : Z := 19.
Definition PROCESS_VM_BASE : Z := 0x100000000.
Definition PROCESS_HEAP_BASE : Z := 0x30000000.
Definition FD_KIND_MEMFD : Z := 6.
Definition MSR_FS_BASE : Z := 0xC0000100.

(** ** Data *)

Record user_context := UserContext {
  c_rip : Z; c_rsp : Z; c_rflags : Z; c_rbp : Z; c_rbx : Z; c_r12 : Z; c_r13 : Z; c_r14 : Z; c_r15 : Z; c_cr3 : Z;
  c_is_started : Z; c_return_rax : Z; c_rdi : Z; c_rsi : Z; c_rdx : Z; c_r8 : Z; c_r9 : Z; c_r10 : Z
}.

Record thread := Thread {
  tid : Z; owner_pid : Z; t_state : Z; stack_base : Z; t_stack_pages : Z; wake_at_ms : Z; t_fs_base : Z;
  clear_child_tid : Z; t_ctx : user_context
}.
Definition set_t_state (v : Z) (t : thread) : thread :=
  Thread (tid t) (owner_pid t) v (stack_base t) (t_stack_pages t) (wake_at_ms t) (t_fs_base t) (clear_child_tid t)
    (t_ctx t).
Definition set_wake_at_ms (v : Z) (t : thread) : thread :=
  Thread (tid t) (owner_pid t) (t_state t) (stack_base t) (t_stack_pages t) v (t_fs_base t) (clear_child_tid t)
    (t_ctx t).
Definition set_t_fs_base (v : Z) (t : thread) : thread :=
  Thread (tid t) (owner_pid t) (t_state t) (stack_base t) (t_stack_pages t) (wake_at_ms t) v (clear_child_tid t)
    (t_ctx t).
Definition set_clear_child_tid (v : Z) (t : thread) : thread :=
  Thread (tid t) (owner_pid t) (t_state t) (stack_base t) (t_stack_pages t) (wake_at_ms t) (t_fs_base t) v (t_ctx t).
Definition set_t_ctx (v : user_context) (t : thread) : thread :=
  Thread (tid t) (owner_pid t) (t_state t) (stack_base t) (t_stack_pages t) (wake_at_ms t) (t_fs_base t)
    (clear_child_tid t) v.

Record credentials := Credentials {
  uid : Z; gid : Z; groups : Z
}.

Record vm_region := VmRegion {
  base : Z; r_size : Z; protection : Z; owns_physical : bool; backing_kind : Z; backing_ptr : Z; active : bool
}.

Record process := Process {
  pid : Z; pname : list Z; pml4_phys : Z; entry_point : Z; user_stack_top : Z; permissions : Z; cred :
  credentials; state : Z; ctx : user_context; threads : list thread; active_thread_idx : Z; vm_regions : list
  vm_region; vm_next_base : Z; heap_base : Z; heap_break : Z; heap_mapped_end : Z; controlling_pty : Z;
  process_group : Z; is_linux_abi : bool; fs_base : Z
}.
Definition set_permissions (v : Z) (p : process) : process :=
  Process (pid p) (pname p) (pml4_phys p) (entry_point p) (user_stack_top p) v (cred p) (state p) (ctx p) (threads
    p) (active_thread_idx p) (vm_regions p) (vm_next_base p) (heap_base p) (heap_break p) (heap_mapped_end p)
    (controlling_pty p) (process_group p) (is_linux_abi p) (fs_base p).
Definition set_state (v : Z) (p : process) : process :=
  Process (pid p) (pname p) (pml4_phys p) (entry_point p) (user_stack_top p) (permissions p) (cred p) v (ctx p)
    (threads p) (active_thread_idx p) (vm_regions p) (vm_next_base p) (heap_base p) (heap_break p)
    (heap_mapped_end p) (controlling_pty p) (process_group p) (is_linux_abi p) (fs_base p).
Definition set_ctx (v : user_context) (p : process) : process :=
  Process (pid p) (pname p) (pml4_phys p) (entry_point p) (user_stack_top p) (permissions p) (cred p) (state p) v
    (threads p) (active_thread_idx p) (vm_regions p) (vm_next_base p) (heap_base p) (heap_break p)
    (heap_mapped_end p) (controlling_pty p) (process_group p) (is_linux_abi p) (fs_base p).
Definition set_threads (v : list thread) (p : process) : process :=
  Process (pid p) (pname p) (pml4_phys p) (entry_point p) (user_stack_top p) (permissions p) (cred p) (state p)
    (ctx p) v (active_thread_idx p) (vm_regions p) (vm_next_base p) (heap_base p) (heap_break p) (heap_mapped_end
    p) (controlling_pty p) (process_group p) (is_linux_abi p) (fs_base p).
Definition set_active_thread_idx (v : Z) (p : process) : process :=
  Process (pid p) (pname p) (pml4_phys p) (entry_point p) (user_stack_top p) (permissions p) (cred p) (state p)
    (ctx p) (threads p) v (vm_regions p) (vm_next_base p) (heap_base p) (heap_break p) (heap_mapped_end p)
    (controlling_pty p) (process_group p) (is_linux_abi p) (fs_base p).
Definition set_vm_regions (v : list vm_region) (p : process) : process :=
  Process (pid p) (pname p) (pml4_phys p) (entry_point p) (user_stack_top p) (permissions p) (cred p) (state p)
    (ctx p) (threads p) (active_thread_idx p) v (vm_next_base p) (heap_base p) (heap_break p) (heap_mapped_end p)
    (controlling_pty p) (process_group p) (is_linux_abi p) (fs_base p).
Definition set_vm_next_base (v : Z) (p : process) : process :=
  Process (pid p) (pname p) (pml4_phys p) (entry_point p) (user_stack_top p) (permissions p) (cred p) (state p)
    (ctx p) (threads p) (active_thread_idx p) (vm_regions p) v (heap_base p) (heap_break p) (heap_mapped_end p)
    (controlling_pty p) (process_group p) (is_linux_abi p) (fs_base p).
Definition set_controlling_pty (v : Z) (p : process) : process :=
  Process (pid p) (pname p) (pml4_phys p) (entry_point p) (user_stack_top p) (permissions p) (cred p) (state p)
    (ctx p) (threads p) (active_thread_idx p) (vm_regions p) (vm_next_base p) (heap_base p) (heap_break p)
    (heap_mapped_end p) v (process_group p) (is_linux_abi p) (fs_base p).
Definition set_process_group (v : Z) (p : process) : process :=
  Process (pid p) (pname p) (pml4_phys p) (entry_point p) (user_stack_top p) (permissions p) (cred p) (state p)
    (ctx p) (threads p) (active_thread_idx p) (vm_regions p) (vm_next_base p) (heap_base p) (heap_break p)
    (heap_mapped_end p) (controlling_pty p) v (is_linux_abi p) (fs_base p).
Definition set_is_linux_abi (v : bool) (p : process) : process :=
  Process (pid p) (pname p) (pml4_phys p) (entry_point p) (user_stack_top p) (permissions p) (cred p) (state p)
    (ctx p) (threads p) (active_thread_idx p) (vm_regions p) (vm_next_base p) (heap_base p) (heap_break p)
    (heap_mapped_end p) (controlling_pty p) (process_group p) v (fs_base p).
Definition set_fs_base (v : Z) (p : process) : process :=
  Process (pid p) (pname p) (pml4_phys p) (entry_point p) (user_stack_top p) (permissions p) (cred p) (state p)
    (ctx p) (threads p) (active_thread_idx p) (vm_regions p) (vm_next_base p) (heap_base p) (heap_break p)
    (heap_mapped_end p) (controlling_pty p) (process_group p) (is_linux_abi p) v.
Definition set_heap (brk mapped : Z) (p : process) : process :=
  Process (pid p) (pname p) (pml4_phys p) (entry_point p) (user_stack_top p) (permissions p) (cred p) (state p)
    (ctx p) (threads p) (active_thread_idx p) (vm_regions p) (vm_next_base p) (heap_base p) brk mapped
    (controlling_pty p) (process_group p) (is_linux_abi p) (fs_base p).

Definition no_context : user_context := UserContext 0 0 0 0 0 0 0 0 0 0 0 0 0 0 0 0 0 0.
Definition no_thread : thread := Thread 0 0 0 0 0 0 0 0 no_context.
Definition no_region : vm_region := VmRegion 0 0 0 false 0 0 false.
Definition no_process : process :=
  Process 0 [] 0 0 0 0 (Credentials 0 0 0) 0 no_context (replicate (Z.to_nat MAX_THREADS_PER_PROCESS) no_thread) 0
    (replicate (Z.to_nat MAX_VM_REGIONS_PER_PROCESS) no_region) 0 0 0 0 0 0 false 0.

(** Thread [t] of a process. *)
Definition thread_at (p : process) (t : Z) : thread := at_z no_thread (threads p) t.
Definition upd_thread (t : Z) (f : thread -> thread) (p : process) : process :=
  set_threads (<[Z.to_nat t := f (thread_at p t)]> (threads p)) p.

Definition below (i n : Z) : bool := (0 <=? i) && (i <? n).

(** The globals: [g_processes], [g_active_proc_idx], [g_active_thread_idx], and the rest
    of the machine. *)
Record sys (A W : Type) := Sys { procs : list process; cur : Z; cur_thread : Z; machine : mm A; env : W }.
Arguments Sys {A W}.
Arguments procs {A W}.
Arguments cur {A W}.
Arguments cur_thread {A W}.
Arguments machine {A W}.
Arguments env {A W}.

(** The other parts of the kernel.  Closing an owner's objects may release frames. *)
Class ProcEnv (A W : Type) := {
  timer_millis : W -> Z;
  rdmsr : W -> Z -> Z;
  wrmsr : W -> Z -> Z -> W;
  socket_close_owner : mm A * W -> Z -> mm A * W;
  tty_close_owner : mm A * W -> Z -> mm A * W;
  fd_close_owner : mm A * W -> Z -> mm A * W;
  ipc_close_owner : mm A * W -> Z -> mm A * W;
  uwindow_destroy_process : mm A * W -> Z -> mm A * W;
  unix_memfd_release : mm A * W -> Z -> mm A * W;
  vfs_stat : W -> list Z -> option (Z * bool);
  (** Name and bytes of a node whose data is in memory. *)
  vfs_node_data : W -> list Z -> option (list Z * list Z);
  vfs_read : W -> list Z -> Z -> W * Z * list Z
}.

Section Proc.
Context {A W : Type} `{FA : FrameAllocator A} `{PE : !ProcEnv A W} `{CR : Crypto}.
Implicit Types s : sys A W.
Implicit Types me : mm A * W.

Definition proc s (i : Z) : process := at_z no_process (procs s) i.
Definition set_procs (l : list process) s : sys A W := Sys l (cur s) (cur_thread s) (machine s) (env s).
Definition set_cur (i : Z) s : sys A W := Sys (procs s) i (cur_thread s) (machine s) (env s).
Definition set_cur_thread (t : Z) s : sys A W := Sys (procs s) (cur s) t (machine s) (env s).
Definition set_machine (m : mm A) s : sys A W := Sys (procs s) (cur s) (cur_thread s) m (env s).
Definition set_env (w : W) s : sys A W := Sys (procs s) (cur s) (cur_thread s) (machine s) w.
Definition set_me me s : sys A W := set_env (snd me) (set_machine (fst me) s).
Definition upd s (i : Z) (f : process -> process) : sys A W := set_procs (<[Z.to_nat i := f (proc s i)]> (procs s)) s.

Definition upd_thread_of s (i t : Z) (f : thread -> thread) : sys A W := upd s i (upd_thread t f).

Definition user_credentials : credentials := Credentials KESH_UID_USER KESH_UID_USER 0.

Definition clear_thread (t : thread) : thread :=
  Thread (tid t) (owner_pid t) THREAD_STATE_UNUSED 0 0 0 0 0 (t_ctx t).

Definition set_active (v : bool) (r : vm_region) : vm_region :=
  VmRegion (base r) (r_size r) (protection r) (owns_physical r) (backing_kind r) (backing_ptr r) v.

(** ** Start-up *)

Definition init_thread (i : Z) (t : nat) (x : thread) : thread :=
  Thread (Z.of_nat t) i THREAD_STATE_UNUSED 0 0 0 0 0 (t_ctx x).

Definition init_process (i : nat) (p : process) : process :=
  let i := Z.of_nat i in
  Process i [] (pml4_phys p) (entry_point p) (user_stack_top p) (permissions p) user_credentials PROCESS_STATE_UNUSED (ctx p)
    (imap (init_thread i) (threads p)) 0 (map (set_active false) (vm_regions p)) PROCESS_VM_BASE PROCESS_HEAP_BASE
    PROCESS_HEAP_BASE PROCESS_HEAP_BASE (-1) i (is_linux_abi p) (fs_base p).

Definition process_init s : sys A W := Sys (imap init_process (procs s)) (-1) 0 (machine s) (env s).

(** ** Giving resources back *)

(** [n] pages from [va]. *)
Fixpoint unmap_pages (st : mm A) (root va : Z) (n : nat) (free_phys : bool) : mm A :=
  match n with
  | O => st
  | S n => unmap_pages (fst (vmm_unmap_page st root va free_phys)) root (u64 (va + PAGE_SIZE)) n free_phys
  end.

Definition pages_of (size : Z) : Z := (size + PAGE_SIZE - 1) / PAGE_SIZE.

Definition release_backing me (r : vm_region) : mm A * W :=
  if (backing_kind r =? FD_KIND_MEMFD) && negb (backing_ptr r =? 0) then unix_memfd_release me (backing_ptr r) else me.

Definition release_region (root : Z) me (r : vm_region) : mm A * W :=
  if negb (active r) then me
  else release_backing (unmap_pages (fst me) root (base r) (Z.to_nat (pages_of (r_size r))) (owns_physical r), snd me) r.

Definition release_space me (p : process) : mm A * W :=
  if pml4_phys p =? 0 then me
  else
    let me := uwindow_destroy_process me (pml4_phys p) in
    let me := fold_left (release_region (pml4_phys p)) (vm_regions p) me in
    (fst (vmm_destroy_user_pml4 (fst me) (pml4_phys p)), snd me).

Definition stop_context (c : user_context) : user_context :=
  UserContext (c_rip c) (c_rsp c) (c_rflags c) (c_rbp c) (c_rbx c) (c_r12 c) (c_r13 c) (c_r14 c) (c_r15 c) 0 0
    (c_return_rax c) (c_rdi c) (c_rsi c) (c_rdx c) (c_r8 c) (c_r9 c) (c_r10 c).

Definition released (p : process) : process :=
  let c := stop_context (ctx p) in
  Process (pid p) (pname p) 0 0 0 0 user_credentials (state p)
    (UserContext 0 0 (c_rflags c) (c_rbp c) (c_rbx c) (c_r12 c) (c_r13 c) (c_r14 c) (c_r15 c) 0 0
       (c_return_rax c) (c_rdi c) (c_rsi c) (c_rdx c) (c_r8 c) (c_r9 c) (c_r10 c))
    (map (fun t => set_t_ctx (stop_context (t_ctx t)) (clear_thread t)) (threads p)) 0
    (map (set_active false) (vm_regions p)) PROCESS_VM_BASE PROCESS_HEAP_BASE PROCESS_HEAP_BASE PROCESS_HEAP_BASE
    (controlling_pty p) (process_group p) false 0.

Definition process_release_resources s (i : Z) : sys A W :=
  let s := set_me (release_space (machine s, env s) (proc s i)) s in upd s i released.

(** Everything the other subsystems hold for a process. *)
Definition close_owner s (i : Z) : sys A W :=
  let me := (machine s, env s) in
  let me := socket_close_owner me i in
  let me := tty_close_owner me i in
  let me := fd_close_owner me i in
  set_me (ipc_close_owner me i) s.

Definition process_kill s (i : Z) : sys A W * Z :=
  if negb (below i MAX_PROCESSES) then (s, -1)
  else
    let st := state (proc s i) in
    if negb (st =? PROCESS_STATE_READY) && negb (st =? PROCESS_STATE_RUNNING) && negb (st =? PROCESS_STATE_STOPPED) then (s, -1)
    else
      let s := upd s i (set_state PROCESS_STATE_EXITED) in
      let s := close_owner s (pid (proc s i)) in
      (process_release_resources s i, 0).

Definition thread_live (t : thread) : bool := (t_state t =? THREAD_STATE_READY) || (t_state t =? THREAD_STATE_RUNNING).

Definition exited_thread (t : thread) : thread :=
  Thread (tid t) (owner_pid t) THREAD_STATE_EXITED 0 0 0 (t_fs_base t) (clear_child_tid t) (t_ctx t).

(** [clear_child_tid]: a zero word is stored through the address space in force. *)
Definition notify_exit s (i t : Z) : sys A W :=
  let th := thread_at (proc s i) t in
  if clear_child_tid th =? 0 then s
  else
    let '(m, _) := copy_to_user (machine s) (clear_child_tid th) (Some [0; 0; 0; 0]) 4 in
    upd_thread_of (set_machine m s) i t (set_clear_child_tid 0).

Definition process_exit_current_thread s : sys A W * Z :=
  let i := cur s in
  let t := cur_thread s in
  if negb (below i MAX_PROCESSES) then (s, -1)
  else if negb (below t MAX_THREADS_PER_PROCESS) then (s, -1)
  else
    let th := thread_at (proc s i) t in
    if (t_state th =? THREAD_STATE_UNUSED) || (t_state th =? THREAD_STATE_EXITED) then (s, -1)
    else
      let s := notify_exit s i t in
      let s := if negb (t =? 0) && negb (stack_base th =? 0)
               then set_machine (unmap_pages (machine s) (pml4_phys (proc s i)) (stack_base th) (Z.to_nat (t_stack_pages th)) true) s
               else s in
      let s := upd_thread_of s i t exited_thread in
      if existsb thread_live (threads (proc s i)) then (upd s i (set_state PROCESS_STATE_READY), 0)
      else
        let s := close_owner s (pid (proc s i)) in
        let s := process_release_resources s i in
        (upd s i (set_state PROCESS_STATE_EXITED), 1).

(** ** Starting programs *)

Definition free_slot s : option Z :=
  find_z (fun i => (state (proc s i) =? PROCESS_STATE_UNUSED) || (state (proc s i) =? PROCESS_STATE_EXITED)) 0 (Z.to_nat MAX_PROCESSES).

(** The name ends in ".elf". *)
Definition ends_in_elf (name : list Z) : bool :=
  (4 <=? Z.of_nat (length name)) && bool_decide (drop (length name - 4) name = [46; 101; 108; 102]).

(** The user address of the program headers. *)
Fixpoint phdr_user_va (img : list Z) (eh : ehdr) (p : Z) (n : nat) (va : Z) : option Z :=
  match n with
  | O => Some va
  | S n =>
      ph ← read_phdr img eh p;
      if p_type ph =? PT_PHDR then Some (p_vaddr ph)
      else
        let inside := (p_type ph =? PT_LOAD) && (p_offset ph <=? e_phoff eh) &&
          (u64 (e_phoff eh + e_phnum eh * e_phentsize eh) <=? u64 (p_offset ph + p_filesz ph)) in
        phdr_user_va img eh (p + 1) n (if inside then u64 (p_vaddr ph + (e_phoff eh - p_offset ph)) else va)
  end.

Definition STACK_PAGE : Z := 0x6FFFF000.

(** [argc], [argv], [envp] and the auxiliary vector. *)
Definition stack_words (eh : ehdr) (phdr_va ent : Z) : list Z :=
  let str := STACK_PAGE + 3800 in
  [1; str; 0; 0; 3; phdr_va; 4; e_phentsize eh; 5; e_phnum eh; 6; 4096; 25; STACK_PAGE + 3900; 9; ent;
   11; 0; 12; 0; 13; 0; 14; 0; 23; 0; 31; str; 0; 0].

Definition stack_image (m : memory) (page : Z) (name : list Z) (eh : ehdr) (phdr_va ent : Z) : memory :=
  let m := write_bytes m page (replicate 4096 0) in
  let m := write_bytes m (page + 3800) (take 63 name ++ [0]) in
  let m := write_bytes m (page + 3900) (map (fun r => u8 (0x42 + r * 7)) (seqZ 0 16)) in
  write_bytes m (page + 3520) (concat (map (le_put 8) (stack_words eh phdr_va ent))).

(** The stack page when it is mapped: the machine and the initial stack pointer. *)
Definition build_stack (st : mm A) (root : Z) (img name : list Z) (ent : Z) : option (mm A * Z) :=
  let phys := vmm_get_page_phys st root STACK_PAGE in
  if phys =? 0 then Some (st, 0x70000000 - 16)
  else
    eh ← read_ehdr img;
    va ← phdr_user_va img eh 0 (Z.to_nat (e_phnum eh)) 0;
    Some (set_mem (stack_image (mem st) phys name eh va ent) st, STACK_PAGE + 3520).

Definition start_context (c : user_context) (ent sp root : Z) : user_context :=
  UserContext ent sp 0x202 0 0 0 0 0 0 root 0 0 (c_rdi c) (c_rsi c) (c_rdx c) (c_r8 c) (c_r9 c) (c_r10 c).

Definition start_process (name : list Z) (root ent sp perms : Z) (trusted_root : bool) (p : process) : process :=
  let c := start_context (ctx p) ent sp root in
  let who := if trusted_root then KESH_UID_ROOT else KESH_UID_USER in
  let ts := map clear_thread (threads p) in
  Process (pid p) (take 31 name) root ent sp perms (Credentials who who 0) PROCESS_STATE_READY c
    (<[0%nat := Thread 0 (pid p) THREAD_STATE_READY 0 0 0 0 0 c]> ts) 0
    (map (set_active false) (vm_regions p)) PROCESS_VM_BASE PROCESS_HEAP_BASE PROCESS_HEAP_BASE PROCESS_HEAP_BASE
    (-1) (pid p) (ends_in_elf name) 0.

(** The result is the slot of the new process; the outer [None] is an access outside
    the image. *)
Definition process_spawn_elf_with_permissions s (name elf_data : option (list Z)) (perms : Z) (trusted_root : bool)
    : option (sys A W * option Z) :=
  match free_slot s with
  | None => Some (s, None)
  | Some slot =>
      '(m, res, loaded) ← elf_load (machine s) elf_data;
      let s := set_machine m s in
      match loaded, elf_data with
      | Some (user_pml4, ent), Some img =>
          let src_name := default [117; 115; 101; 114; 95; 97; 112; 112] name in
          '(m, sp) ← build_stack m user_pml4 img src_name ent;
          Some (upd (set_machine m s) slot (start_process src_name user_pml4 ent sp perms trusted_root), Some slot)
      | _, _ => Some (s, None)
      end
  end.

Definition process_spawn_elf s (name elf_data : option (list Z)) : option (sys A W * option Z) :=
  process_spawn_elf_with_permissions s name elf_data (Z.lor KEA_PERM_GUI KEA_PERM_FS) false.

(** A C string in an image. *)
Fixpoint take_nul (l : list Z) : option (list Z) :=
  match l with
  | [] => None
  | b :: l => if b =? 0 then Some [] else (cons b) <$> take_nul l
  end.

(** The name in a package header, or the caller's. *)
Definition kea_name (data : list Z) (name : option (list Z)) : option (option (list Z)) :=
  first ← rd data 12 1;
  if first =? 0 then Some name else Some <$> take_nul (drop 12 data).

Definition process_spawn_kea s (name kea_data : option (list Z)) : option (sys A W * option Z) :=
  match kea_data with
  | None => Some (s, None)
  | Some data =>
      if Z.of_nat (length data) <? HDR then Some (s, None)
      else
        hdr ← read_base data;
        if negb (magic hdr =? KEA_MAGIC) then
          if bool_decide (take 4 data = [0x7F; 69; 76; 70]) then process_spawn_elf s name kea_data else Some (s, None)
        else
          let signed_package := version hdr =? KEA_VERSION in
          verify_status ← kea_verify_package data signed_package;
          if negb (verify_status =? KEA_VERIFY_OK) then Some (s, None)
          else if has (Kea.permissions hdr) KEA_PERM_ROOT && negb signed_package then Some (s, None)
          else
            payload ← slice data (elf_offset hdr) (elf_size hdr);
            app_name ← kea_name data name;
            let trusted_root := signed_package && has (Kea.permissions hdr) KEA_PERM_ROOT in
            process_spawn_elf_with_permissions s app_name (Some payload) (Kea.permissions hdr) trusted_root
  end.

Definition process_spawn_path s (path : option (list Z)) : option (sys A W * option Z) :=
  match path with
  | None => Some (s, None)
  | Some path =>
      match vfs_stat (env s) path with
      | None => Some (s, None)
      | Some (st_size, is_dir) =>
          if is_dir || (st_size =? 0) then Some (s, None)
          else
            match vfs_node_data (env s) path with
            | Some (node_name, data) => process_spawn_kea s (Some node_name) (Some data)
            | None =>
                if 0x7FFFFFFF <? st_size then Some (s, None)
                else
                  let pages_needed := pages_of st_size in
                  let '(m, phys) := alloc_pages (machine s) pages_needed in
                  let s := set_machine m s in
                  if phys =? 0 then Some (s, None)
                  else
                    let '(w, read_bytes, bytes) := vfs_read (env s) path st_size in
                    let s := set_env w s in
                    let s := set_machine (set_mem (write_bytes (mem (machine s)) phys bytes) (machine s)) s in
                    let free s := let '(f, _) := fa_free_pages (frames (machine s)) phys pages_needed in
                                  set_machine (set_frames f (machine s)) s in
                    if read_bytes <=? 0 then Some (free s, None)
                    else
                      '(s, r) ← process_spawn_kea s (Some path) (Some (take (Z.to_nat read_bytes) bytes));
                      Some (free s, r)
            end
      end
  end.

(** ** The scheduler *)

(** May thread [t] run at time [now]? *)
Definition runnable (p : process) (now t : Z) : bool :=
  let th := thread_at p t in
  let main := thread_at p 0 in
  (t_state th =? THREAD_STATE_READY) && negb (c_cr3 (t_ctx th) =? 0) && (c_cr3 (t_ctx main) =? c_cr3 (t_ctx th)) &&
  negb (negb (t =? 0) && (t_state main =? THREAD_STATE_UNUSED)) &&
  negb (negb (wake_at_ms th =? 0) && (now <? wake_at_ms th)).

Definition rotate (p : process) (tstep : Z) : Z := (active_thread_idx p + tstep) mod MAX_THREADS_PER_PROCESS.

Definition next_thread (p : process) (now : Z) : option Z :=
  rotate p <$> find_z (fun tstep => runnable p now (rotate p tstep)) 0 (Z.to_nat MAX_THREADS_PER_PROCESS).

Section Scheduler.
(** [process_switch_to_user]: runs the thread [cur_thread] of process [cur] until it yields
    (1) or exits (2); system calls happen inside it. *)
Variable switch_to_user : sys A W -> sys A W * Z.

Definition load_fs s (p : process) (th : thread) : sys A W :=
  let target := if negb (t_fs_base th =? 0) then t_fs_base th else fs_base p in
  if is_linux_abi p && negb (target =? 0) then set_env (wrmsr (env s) MSR_FS_BASE target) s else s.

Definition save_fs s (i t : Z) : sys A W :=
  if is_linux_abi (proc s i) then
    let v := rdmsr (env s) MSR_FS_BASE in
    let s := upd_thread_of s i t (set_t_fs_base v) in
    if t =? 0 then upd s i (set_fs_base v) else s
  else s.

(** Before and after the thread runs. *)
Definition dispatch s (i t : Z) : sys A W :=
  let s := upd_thread_of s i t (set_wake_at_ms 0) in
  let s := set_cur_thread t (upd s i (set_active_thread_idx t)) in
  let s := upd s i (set_state PROCESS_STATE_RUNNING) in
  let s := upd_thread_of s i t (set_t_state THREAD_STATE_RUNNING) in
  load_fs s (proc s i) (thread_at (proc s i) t).

Definition resume s (i t res : Z) : sys A W :=
  let s := upd s i (fun p => set_ctx (t_ctx (thread_at p t)) p) in
  let s := save_fs s i t in
  let s :=
    if res =? 2 then fst (process_exit_current_thread s)
    else if t_state (thread_at (proc s i) t) =? THREAD_STATE_RUNNING then
      upd (upd_thread_of s i t (set_t_state THREAD_STATE_READY)) i (set_state PROCESS_STATE_READY)
    else s in
  upd s i (set_active_thread_idx ((t + 1) mod MAX_THREADS_PER_PROCESS)).

Definition run_thread s (i t : Z) : sys A W :=
  let '(s, res) := switch_to_user (dispatch s i t) in resume s i t res.

(** The loop over processes: [n] of them are left to look at. *)
Fixpoint step_from s (n : nat) : sys A W :=
  match n with
  | O => s
  | S n =>
      let s := set_cur ((cur s + 1) mod MAX_PROCESSES) s in
      let p := proc s (cur s) in
      if negb (state p =? PROCESS_STATE_READY) then step_from s n
      else
        match next_thread p (timer_millis (env s)) with
        | Some t => run_thread s (cur s) t
        | None => step_from s n
        end
  end.

Definition process_step_active s : sys A W := step_from s (Z.to_nat MAX_PROCESSES).
End Scheduler.

(** ** The running process *)

Definition active_proc s : bool := below (cur s) MAX_PROCESSES.
Definition active_thread s : bool := below (cur_thread s) MAX_THREADS_PER_PROCESS.
Definition this s : process := proc s (cur s).
Definition gone (p : process) : bool := (state p =? PROCESS_STATE_UNUSED) || (state p =? PROCESS_STATE_EXITED).

Definition process_current_is_linux s : bool := active_proc s && is_linux_abi (this s).
Definition process_set_current_linux s (is_linux : bool) : sys A W :=
  if active_proc s then upd s (cur s) (set_is_linux_abi is_linux) else s.

Definition process_set_current_fs_base s (v : Z) : sys A W :=
  if active_proc s then
    let s := upd s (cur s) (set_fs_base v) in
    if active_thread s then upd_thread_of s (cur s) (cur_thread s) (set_t_fs_base v) else s
  else s.

Definition process_get_current_fs_base s : Z :=
  if active_proc s then
    let t_fs := if active_thread s then t_fs_base (thread_at (this s) (cur_thread s)) else 0 in
    if negb (t_fs =? 0) then t_fs else fs_base (this s)
  else 0.

Definition process_current_id s : Z := if negb (active_proc s) || gone (this s) then -1 else pid (this s).

Definition process_sleep_current s (ms : Z) : sys A W :=
  if active_proc s && active_thread s &&
     ((state (this s) =? PROCESS_STATE_RUNNING) || (state (this s) =? PROCESS_STATE_READY))
  then upd_thread_of s (cur s) (cur_thread s) (set_wake_at_ms (u64 (timer_millis (env s) + ms))) else s.

Definition process_has_active s : bool :=
  existsb (fun p => (state p =? PROCESS_STATE_READY) || (state p =? PROCESS_STATE_RUNNING)) (procs s).

Definition process_current_thread_id s : Z := if active_proc s then cur_thread s else -1.
Definition process_current_name s : option (list Z) := if negb (active_proc s) || gone (this s) then None else Some (pname (this s)).
Definition process_current_permissions s : Z := if negb (active_proc s) || gone (this s) then 0 else permissions (this s).
Definition process_has_permission s (permission : Z) : bool := Z.land (process_current_permissions s) permission =? permission.
Definition process_current_credentials s : option credentials :=
  if negb (active_proc s) || gone (this s) then None else Some (cred (this s)).
Definition process_current_is_root s : bool :=
  match process_current_credentials s with Some c => uid c =? KESH_UID_ROOT | None => false end.
Definition process_current_pty s : Z := if active_proc s then controlling_pty (this s) else -1.

(** ** Any process *)

Definition process_exists s (i : Z) : bool := below i MAX_PROCESSES && negb (gone (proc s i)).

Definition process_set_controlling_pty s (i handle : Z) : sys A W * Z :=
  if negb (process_exists s i) then (s, -1) else (upd s i (set_controlling_pty handle), 0).

Definition process_get_group s (i : Z) : Z := if process_exists s i then process_group (proc s i) else -1.

Definition process_get_credentials s (i : Z) : option credentials := if process_exists s i then Some (cred (proc s i)) else None.

Definition process_set_group s (caller i group : Z) : sys A W * Z :=
  if negb (process_exists s caller) || negb (process_exists s i) || (group <? 0) then (s, -1)
  else if negb (caller =? i) && negb (uid (cred (proc s caller)) =? KESH_UID_ROOT) then (s, -1)
  else (upd s i (set_process_group (if negb (group =? 0) then group else i)), 0).

Definition stop_threads (p : process) : process :=
  set_threads (map (fun t => if t_state t =? THREAD_STATE_RUNNING then set_t_state THREAD_STATE_READY t else t) (threads p)) p.

Definition deliver s (i signal : Z) : sys A W * Z :=
  let st := state (proc s i) in
  if (signal =? KESH_SIGKILL) || (signal =? KESH_SIGTERM) || (signal =? KESH_SIGINT) then process_kill s i
  else if signal =? KESH_SIGSTOP then
    if st =? PROCESS_STATE_STOPPED then (s, 0)
    else if negb (st =? PROCESS_STATE_READY) && negb (st =? PROCESS_STATE_RUNNING) then (s, -1)
    else (upd (upd s i stop_threads) i (set_state PROCESS_STATE_STOPPED), 0)
  else if signal =? KESH_SIGCONT then
    if negb (st =? PROCESS_STATE_STOPPED) then (s, -1) else (upd s i (set_state PROCESS_STATE_READY), 0)
  else (s, -1).

Definition process_send_signal s (caller i signal : Z) : sys A W * Z :=
  if negb (process_exists s i) then (s, -1)
  else if 0 <=? caller then
    if negb (process_exists s caller) then (s, -1)
    else
      let sender := cred (proc s caller) in
      let target := cred (proc s i) in
      if negb (uid sender =? KESH_UID_ROOT) && negb (uid sender =? uid target) then (s, -1)
      else if (i =? caller) && (signal =? KESH_SIGSTOP) then (s, -1)
      else deliver s i signal
  else deliver s i signal.

Fixpoint signal_group s (caller group signal i : Z) (n : nat) (delivered : Z) : sys A W * Z :=
  match n with
  | O => (s, delivered)
  | S n =>
      if negb (process_exists s i) || negb (process_group (proc s i) =? group)
      then signal_group s caller group signal (i + 1) n delivered
      else
        let '(s, rc) := process_send_signal s caller i signal in
        signal_group s caller group signal (i + 1) n (if rc =? 0 then delivered + 1 else delivered)
  end.

Definition process_signal_group s (caller group signal : Z) : sys A W * Z :=
  if group <? 0 then (s, -1)
  else
    let '(s, delivered) := signal_group s caller group signal 0 (Z.to_nat MAX_PROCESSES) 0 in
    (s, if negb (delivered =? 0) then delivered else -1).

Definition process_revoke_permissions s (caller target mask : Z) : sys A W * Z :=
  if negb (process_exists s caller) || negb (process_exists s target) || (mask =? 0) then (s, -1)
  else if negb (uid (cred (proc s caller)) =? KESH_UID_ROOT) then (s, -1)
  else
    let before := permissions (proc s target) in
    let after := Z.land before (u32 (Z.lnot mask)) in
    (upd s target (set_permissions after), if negb (before =? after) then 0 else -1).

(** A line of the process table: id, state, memory, name. *)
Definition table_entry (p : process) : Z * Z * Z * list Z :=
  (pid p, state p, 64 * 1024, if bool_decide (pname p = []) then [112; 114; 111; 99] else take 31 (pname p)).

Definition process_get_table s (max_entries : Z) : list (Z * Z * Z * list Z) :=
  take (Z.to_nat max_entries) (map table_entry (List.filter (fun p => negb (state p =? PROCESS_STATE_UNUSED)) (procs s))).

(** ** Threads *)

Definition thread_entry_is_executable s (p : process) (ent : Z) : bool :=
  if (ent =? 0) || (USER_VA_LIMIT <=? ent) then false
  else
    let flags := vmm_get_page_flags (machine s) (pml4_phys p) (page_of ent) in
    has flags PTE_PRESENT && has flags PTE_USER && negb (has flags PTE_NO_EXECUTE).

(** A fresh zero page at [va], or no change of the space. *)
Definition map_new_page (st : mm A) (root va flags : Z) : mm A * bool :=
  let '(st, phys) := alloc_page st in
  if phys =? 0 then (st, false)
  else
    let '(st, rc) := vmm_map_page st root va phys flags in
    if negb (rc =? 0) then (fst (free_page st phys), false) else (zero_page st phys, true).

(** Pages [p .. p + n - 1] of a range; on failure the first [p] and the new ones are unmapped. *)
Fixpoint map_new_pages (st : mm A) (root va flags p : Z) (n : nat) : mm A * bool :=
  match n with
  | O => (st, true)
  | S n =>
      let '(st, ok) := map_new_page st root (u64 (va + p * PAGE_SIZE)) flags in
      if ok then map_new_pages st root va flags (p + 1) n else (unmap_pages st root va (Z.to_nat p) true, false)
  end.

Definition free_thread (p : process) : option Z :=
  find_z (fun t => (t_state (thread_at p t) =? THREAD_STATE_UNUSED) || (t_state (thread_at p t) =? THREAD_STATE_EXITED))
    1 (Z.to_nat (MAX_THREADS_PER_PROCESS - 1)).

Definition new_thread_context (c : user_context) (rip rsp : Z) : user_context :=
  UserContext rip rsp 0x202 0 0 0 0 0 0 (c_cr3 c) 0 0 0 0 0 0 0 0.

Definition data_flags : Z := Z.lor PTE_USER (Z.lor PTE_WRITABLE PTE_NO_EXECUTE).

Definition process_create_thread s (ent : Z) : sys A W * Z :=
  if negb (active_proc s) then (s, -1)
  else if (state (this s) =? PROCESS_STATE_UNUSED) || negb (thread_entry_is_executable s (this s) ent) then (s, -1)
  else
    match free_thread (this s) with
    | None => (s, -1)
    | Some t =>
        let pages := 8 in
        let stack_low := 0x6E000000 + (t - 1) * 0x20000 in
        let '(m, ok) := map_new_pages (machine s) (pml4_phys (this s)) stack_low data_flags 0 (Z.to_nat pages) in
        let s := set_machine m s in
        if negb ok then (s, -1)
        else
          let c := new_thread_context (t_ctx (thread_at (this s) 0)) ent (stack_low + pages * PAGE_SIZE - 16) in
          (upd_thread_of s (cur s) t (fun th =>
             Thread t (pid (this s)) THREAD_STATE_READY stack_low pages (wake_at_ms th) (t_fs_base th) (clear_child_tid th) c), t)
    end.

Definition process_create_linux_thread s (rip rsp fs fn : Z) : sys A W * Z :=
  if negb (active_proc s) then (s, -1)
  else if state (this s) =? PROCESS_STATE_UNUSED then (s, -1)
  else
    match free_thread (this s) with
    | None => (s, -1)
    | Some t =>
        let c := UserContext rip rsp 0x202 0 0 0 0 0 0 (pml4_phys (this s)) 1 0 0 0 0 0 fn 0 in
        (upd_thread_of s (cur s) t (fun _ => Thread t (pid (this s)) THREAD_STATE_READY 0 0 0 fs 0 c), t)
    end.

Definition process_set_thread_clear_child_tid s (t v : Z) : sys A W :=
  if active_proc s && below t MAX_THREADS_PER_PROCESS then upd_thread_of s (cur s) t (set_clear_child_tid v) else s.
Definition process_set_current_clear_child_tid s (v : Z) : sys A W :=
  if active_proc s && active_thread s then upd_thread_of s (cur s) (cur_thread s) (set_clear_child_tid v) else s.
Definition process_get_current_clear_child_tid s : Z :=
  if negb (active_proc s) || negb (active_thread s) then 0 else clear_child_tid (thread_at (this s) (cur_thread s)).
Definition process_has_other_live_threads s : bool :=
  active_proc s &&
  existsb (fun t => negb (t =? cur_thread s) && thread_live (thread_at (this s) t)) (seqZ 0 MAX_THREADS_PER_PROCESS).
End Proc.
