(* ===== verification/ProcSpec.v ===== *)
(** The process table: an operation on one process leaves the others alone, and the
    scheduler gives every thread that can run its turn. *)
From S2P Require Import Prelude Pmm Vmm Elf Kea Proc.

(** ** What an operation touches *)

Section Touches.
Context {A W : Type} `{FA : FrameAllocator A} `{PE : !ProcEnv A W}.
Implicit Types s : sys A W.

(** Between the two states the scheduler's position is the same, and so is every process
    but [i]. *)
Record touches (i : Z) s s' : Prop := Touches {
  to_cur : cur s' = cur s;
  to_table : length (procs s') = length (procs s);
  to_others j : 0 <= j -> j <> i -> proc s' j = proc s j
}.

#[export] Instance touches_preorder i : PreOrder (touches i).
Proof.
  split; [by constructor|]. intros s1 s2 s3 [C1 T1 O1] [C2 T2 O2].
  constructor; [congruence|congruence|]. intros j H1 H2. by rewrite O2, O1.
Qed.

Lemma proc_upd_ne s i f j : 0 <= i -> 0 <= j -> j <> i -> proc (upd s i f) j = proc s j.
Proof.
  intros Hi Hj Hne. unfold proc, upd, set_procs, at_z. cbn [procs]. rewrite !nth_lookup.
  rewrite list_lookup_insert_ne by lia. done.
Qed.

Lemma proc_upd_eq s i f : 0 <= i < Z.of_nat (length (procs s)) -> proc (upd s i f) i = f (proc s i).
Proof. intros Hi. unfold proc at 1, upd, set_procs. cbn [procs]. rewrite at_z_insert by lia. by rewrite Z.eqb_refl. Qed.

Lemma touches_upd i s f : 0 <= i -> touches i s (upd s i f).
Proof. intros Hi. constructor; [done|apply length_insert|intros; by apply proc_upd_ne]. Qed.

Lemma touches_thread i s t f : 0 <= i -> touches i s (upd_thread_of s i t f).
Proof. apply touches_upd. Qed.

Lemma touches_machine i s m : touches i s (set_machine m s).
Proof. by constructor. Qed.
Lemma touches_env i s w : touches i s (set_env w s).
Proof. by constructor. Qed.
Lemma touches_me i s me : touches i s (set_me me s).
Proof. by constructor. Qed.
Lemma touches_close i s p : touches i s (close_owner s p).
Proof. by constructor. Qed.

Lemma touches_release i s : 0 <= i -> touches i s (process_release_resources s i).
Proof. intros Hi. unfold process_release_resources. etransitivity; [apply touches_me|by apply touches_upd]. Qed.

Lemma touches_kill i s : 0 <= i -> touches i s (fst (process_kill s i)).
Proof.
  intros Hi. unfold process_kill. repeat case_match; cbn [fst]; try reflexivity.
  etransitivity; [by apply (touches_upd i s (set_state PROCESS_STATE_EXITED))|].
  etransitivity; [apply touches_close|by apply touches_release].
Qed.

Lemma touches_notify i s t : 0 <= i -> touches i s (notify_exit s i t).
Proof.
  intros Hi. unfold notify_exit. cbn zeta. split_if E; [reflexivity|]. destruct (copy_to_user _ _ _ _) as [m rc].
  etransitivity; [apply (touches_machine i s m)|by apply touches_thread].
Qed.

(** The running thread ends: only its process is touched. *)
Lemma touches_exit s : touches (cur s) s (fst (process_exit_current_thread s)).
Proof.
  unfold process_exit_current_thread. cbn zeta. unfold below. destruct (Z.leb_spec 0 (cur s)) as [Hi|]; [|reflexivity].
  cbn [andb]. split_if E1; [reflexivity|]. split_if E2; [reflexivity|]. split_if E3; [reflexivity|].
  set (s1 := notify_exit s (cur s) (cur_thread s)).
  assert (T1 : touches (cur s) s s1) by by apply touches_notify.
  match goal with |- context [upd_thread_of ?x _ _ exited_thread] => set (s2 := x) end.
  assert (T2 : touches (cur s) s1 s2) by (unfold s2; split_if E; [apply touches_machine|reflexivity]).
  set (s3 := upd_thread_of s2 (cur s) (cur_thread s) exited_thread).
  assert (T3 : touches (cur s) s2 s3) by by apply touches_thread.
  assert (T : touches (cur s) s s3) by (etransitivity; [exact T1|etransitivity; [exact T2|exact T3]]). clearbody s3.
  split_if E4; cbn [fst]; (etransitivity; [exact T|]); [by apply touches_upd|].
  etransitivity; [apply touches_close|]. etransitivity; [by apply touches_release|by apply touches_upd].
Qed.
End Touches.

(** ** The scheduler *)

Section Scheduler.
Context {A W : Type} `{FA : FrameAllocator A} `{PE : !ProcEnv A W}.
Implicit Types s : sys A W.
Variable switch_to_user : sys A W -> sys A W * Z.

Definition rotation s (q : Z) : Z := active_thread_idx (proc s q).

(** A process some thread of which can run. *)
Definition eligible s (i : Z) : bool :=
  (state (proc s i) =? PROCESS_STATE_READY) && match next_thread (proc s i) (timer_millis (env s)) with Some _ => true | None => false end.

(** The call runs thread [t] of process [i]. *)
Definition runs s (i t : Z) : Prop :=
  process_step_active switch_to_user s = run_thread switch_to_user (set_cur i s) i t.

(** Going round from [c] by the distance to [q] ends at [q]. *)
Lemma go_round c q n : 0 <= q < n -> (c + (q - c) mod n) mod n = q.
Proof. intros Hq. rewrite Z.add_mod_idemp_r by lia. replace (c + (q - c)) with q by lia. by apply Z.mod_small. Qed.

Lemma mod_sub_l a b n : 0 <= a mod n - b < n -> (a - b) mod n = a mod n - b.
Proof. intros H. rewrite <-Zminus_mod_idemp_l. by apply Z.mod_small. Qed.

(** The loop stops at the first eligible process after the last one that ran. *)
Lemma step_from_spec s n : forall j d k,
  d mod 16 = (cur s + j) mod 16 -> find_z (fun k => eligible s ((cur s + k) mod 16)) (j + 1) n = Some k ->
  exists t, next_thread (proc s ((cur s + k) mod 16)) (timer_millis (env s)) = Some t /\
    step_from switch_to_user (set_cur d s) n = run_thread switch_to_user (set_cur ((cur s + k) mod 16) s) ((cur s + k) mod 16) t.
Proof.
  induction n as [|n IH]; intros j d k Hd; cbn [find_z step_from]; [done|].
  assert (Hn : (d + 1) mod MAX_PROCESSES = (cur s + (j + 1)) mod 16).
  { unfold MAX_PROCESSES. rewrite Z.add_assoc, <-(Z.add_mod_idemp_l d), Hd, Z.add_mod_idemp_l by done. done. }
  cbn [cur set_cur]. rewrite Hn. set (i := (cur s + (j + 1)) mod 16). change (set_cur i (set_cur d s)) with (set_cur i s).
  change (proc (set_cur i s) i) with (proc s i). change (env (set_cur i s)) with (env s). unfold eligible at 1.
  destruct (Z.eqb_spec (state (proc s i)) PROCESS_STATE_READY) as [Hs|Hs]; cbn [negb andb]; [|apply IH; unfold i; by rewrite Z.mod_mod].
  destruct (next_thread (proc s i) _) as [t|] eqn:Ht; [|apply IH; unfold i; by rewrite Z.mod_mod].
  intros Hk. injection Hk as <-. by exists t.
Qed.

Lemma set_cur_same s : set_cur (cur s) s = s.
Proof. by destruct s. Qed.

(** Distances, in turns, to process [q] and to its thread [t]. *)
Definition turns s (q : Z) : Z := (q - cur s - 1) mod 16.
Definition thread_turns s (q t : Z) : Z := (t - rotation s q) mod 32.

Lemma step_picks s q :
  0 <= q < 16 -> eligible s q = true ->
  exists k t, 1 <= k <= turns s q + 1 /\ runs s ((cur s + k) mod 16) t /\
    next_thread (proc s ((cur s + k) mod 16)) (timer_millis (env s)) = Some t.
Proof.
  intros Hq He. unfold runs, process_step_active. change (Z.to_nat MAX_PROCESSES) with 16%nat.
  assert (Hd : (cur s + (turns s q + 1)) mod 16 = q).
  { unfold turns. rewrite <-(go_round (cur s + 1) q 16) at 2 by done.
    replace (q - (cur s + 1)) with (q - cur s - 1) by lia. f_equal. lia. }
  pose proof (Z.mod_pos_bound (q - cur s - 1) 16 ltac:(done)) as Hb. fold (turns s q) in Hb.
  destruct (find_z (fun k => eligible s ((cur s + k) mod 16)) (0 + 1) 16) as [k|] eqn:Hf.
  - destruct (find_z_Some _ _ _ _ Hf) as (H1 & _ & H3).
    destruct (step_from_spec s 16 0 (cur s) k) as (t & Ht & Hrun); [by rewrite Z.add_0_r|done|].
    rewrite set_cur_same in Hrun. exists k, t. split; [|split; [exact Hrun|exact Ht]]. split; [lia|]. destruct (Z.le_gt_cases k (turns s q + 1)) as [|Hgt]; [done|].
    specialize (H3 (turns s q + 1) ltac:(lia)). cbn beta in H3. by rewrite Hd, He in H3.
  - pose proof (find_z_None _ _ _ Hf (turns s q + 1) ltac:(lia)) as H3. cbn beta in H3. by rewrite Hd, He in H3.
Qed.

(** The thread chosen is the first that can run after the last one. *)
Lemma next_thread_picks p now t :
  0 <= t < 32 -> runnable p now t = true ->
  exists j, 0 <= j <= (t - active_thread_idx p) mod 32 /\ next_thread p now = Some ((active_thread_idx p + j) mod 32).
Proof.
  intros Ht Hr. unfold next_thread, rotate, MAX_THREADS_PER_PROCESS. set (e := (t - active_thread_idx p) mod 32).
  pose proof (Z.mod_pos_bound (t - active_thread_idx p) 32 ltac:(done)) as Hb. fold e in Hb.
  assert (He : (active_thread_idx p + e) mod 32 = t).
  { by apply go_round. }
  destruct (find_z _ 0 (Z.to_nat 32)) as [j|] eqn:Hf; cbn [fmap option_fmap option_map].
  - destruct (find_z_Some _ _ _ _ Hf) as (H1 & _ & H3). exists j. split; [|done]. split; [lia|].
    destruct (Z.le_gt_cases j e) as [|Hgt]; [done|]. specialize (H3 e ltac:(lia)). cbn beta in H3. by rewrite He, Hr in H3.
  - pose proof (find_z_None _ _ _ Hf e ltac:(lia)) as H3. cbn beta in H3. by rewrite He, Hr in H3.
Qed.

(** ** What a turn does to the positions *)

Lemma touches_load i s p th : touches i s (load_fs s p th).
Proof. unfold load_fs. cbn zeta. split_if E; [by constructor|reflexivity]. Qed.

Lemma touches_save s i t : 0 <= i -> touches i s (save_fs s i t).
Proof.
  intros Hi. unfold save_fs. cbn zeta. split_if E; [|reflexivity].
  split_if E1; [etransitivity; [by apply touches_thread|by apply touches_upd]|by apply touches_thread].
Qed.

Lemma touches_dispatch i s t : 0 <= i -> touches i s (dispatch s i t).
Proof.
  intros Hi. unfold dispatch. cbn zeta. etransitivity; [|apply touches_load].
  etransitivity; [|by apply touches_thread]. etransitivity; [|by apply touches_upd].
  etransitivity; [by apply (touches_thread i s t (set_wake_at_ms 0))|].
  etransitivity; [by apply (touches_upd i _ (set_active_thread_idx t))|]. by constructor.
Qed.

Lemma touches_resume s t res : 0 <= cur s -> touches (cur s) s (resume s (cur s) t res).
Proof.
  intros Hi. unfold resume. cbn zeta. set (i := cur s).
  set (s1 := upd s i _). assert (T1 : touches i s s1) by by apply touches_upd.
  set (s2 := save_fs s1 i t). assert (T2 : touches i s1 s2) by by apply touches_save.
  assert (T : touches i s s2) by by transitivity s1. clearbody s2. etransitivity; [|by apply touches_upd].
  etransitivity; [exact T|]. split_if E1; [|split_if E2; [|reflexivity]].
  - unfold i. rewrite <-(to_cur _ _ _ T). apply touches_exit.
  - etransitivity; [by apply touches_thread|by apply touches_upd].
Qed.

Lemma resume_rotation s t res :
  0 <= cur s < 16 -> length (procs s) = 16%nat -> rotation (resume s (cur s) t res) (cur s) = (t + 1) mod 32.
Proof.
  intros Hi Hl. pose proof (touches_resume s t res ltac:(lia)) as T. unfold resume in *. cbn zeta in *. unfold rotation.
  match goal with |- context [upd ?x _ (set_active_thread_idx _)] => set (s3 := x) in * end.
  rewrite proc_upd_eq; [done|]. apply to_table in T. cbn [procs upd set_procs] in T. rewrite length_insert in T. lia.
Qed.

(** User code, with the system calls it makes, leaves the scheduler's position and the
    rotation of process [q] alone. *)
Definition undisturbed (q : Z) s s' : Prop :=
  cur s' = cur s /\ length (procs s') = 16%nat /\ rotation s' q = rotation s q.

Lemma run_thread_spec s i t q :
  0 <= i < 16 -> 0 <= q < 16 -> length (procs s) = 16%nat ->
  (let d := dispatch (set_cur i s) i t in undisturbed q d (fst (switch_to_user d))) ->
  let s' := run_thread switch_to_user (set_cur i s) i t in
  cur s' = i /\ length (procs s') = 16%nat /\ rotation s' q = (if decide (q = i) then (t + 1) mod 32 else rotation s q).
Proof.
  intros Hi Hq Hl. cbn zeta. unfold run_thread. set (d := dispatch (set_cur i s) i t).
  assert (T1 : touches i (set_cur i s) d) by (apply touches_dispatch; lia).
  pose proof (to_cur _ _ _ T1) as C1. cbn [cur set_cur] in C1.
  destruct (switch_to_user d) as [s1 res]. cbn [fst]. intros (C2 & L2 & R2). rewrite C1 in C2.
  assert (T2 : touches i s1 (resume s1 i t res)) by (rewrite <-C2; apply touches_resume; lia).
  split; [by rewrite (to_cur _ _ _ T2)|]. split; [by rewrite (to_table _ _ _ T2)|]. case_decide as Hqi.
  - subst q. rewrite <-C2 at 2. rewrite <-C2 at 1. apply resume_rotation; [lia|done].
  - unfold rotation in *. rewrite (to_others _ _ _ T2) by (done || lia). rewrite R2.
    rewrite (to_others _ _ _ T1) by (done || lia). done.
Qed.

(** ** Fairness *)

(** States of the system at successive calls of the scheduler.  Between two calls, and
    while a thread runs, anything may happen but to the position of the scheduler and
    to the rotation of process [q]. *)
Record timeline (q : Z) (tr : nat -> sys A W) : Prop := Timeline {
  tl_table k : length (procs (tr k)) = 16%nat;
  tl_between k : undisturbed q (process_step_active switch_to_user (tr k)) (tr (S k));
  tl_during k i t : runs (tr k) i t ->
    let d := dispatch (set_cur i (tr k)) i t in undisturbed q d (fst (switch_to_user d))
}.

(** Thread [t] of process [q] can run. *)
Definition can_run s (q t : Z) : Prop :=
  state (proc s q) = PROCESS_STATE_READY /\ runnable (proc s q) (timer_millis (env s)) t = true.

Definition waiting s (q t : Z) : Z := 16 * thread_turns s q t + turns s q.

Lemma waiting_bound s q t : 0 <= waiting s q t < 512.
Proof.
  unfold waiting, thread_turns, turns. pose proof (Z.mod_pos_bound (q - cur s - 1) 16 ltac:(done)).
  pose proof (Z.mod_pos_bound (t - rotation s q) 32 ltac:(done)). lia.
Qed.

(** A turn given to another thread brings the thread's own turn nearer. *)
Lemma waiting_falls q t tr k :
  0 <= q < 16 -> 0 <= t < 32 -> timeline q tr -> can_run (tr k) q t ->
  runs (tr k) q t \/ waiting (tr (S k)) q t < waiting (tr k) q t.
Proof.
  intros Hq Ht [L B D] [Hs Hr]. destruct (next_thread_picks _ _ _ Ht Hr) as (e & He & Hn).
  destruct (step_picks (tr k) q Hq) as (n & t' & Hn1 & Hrun & Ht').
  { unfold eligible. by rewrite Hs, Hn. }
  set (i := (cur (tr k) + n) mod 16) in *.
  assert (Hi : 0 <= i < 16) by (apply Z.mod_pos_bound; done).
  destruct (run_thread_spec (tr k) i t' q Hi Hq (L k) (D k i t' Hrun)) as (C1 & _ & R1). cbn zeta in C1, R1.
  unfold runs in Hrun. destruct (B k) as (C2 & _ & R2). rewrite Hrun, C1 in C2. rewrite Hrun, R1 in R2.
  unfold waiting, thread_turns, turns. rewrite C2, R2.
  pose proof (Z.mod_pos_bound (q - cur (tr k) - 1) 16 ltac:(done)) as B1. fold (turns (tr k) q) in *.
  case_decide as Hqi.
  - rewrite <-Hqi in Ht', Hrun. rewrite Hn in Ht'. injection Ht' as Ht'. fold (rotation (tr k) q) in *.
    destruct (decide (t' = t)) as [->|Hne]; [by left|]. right.
    assert (Ee : (t - rotation (tr k) q) mod 32 <> e).
    { intros E. rewrite <-E in Ht'. rewrite go_round in Ht' by done. by subst. }
    assert (E : (t - (t' + 1) mod 32) mod 32 = (t - rotation (tr k) q) mod 32 - (e + 1)).
    { rewrite <-Ht', Z.add_mod_idemp_l, Zminus_mod_idemp_r by done. fold (rotation (tr k) q).
      rewrite <-mod_sub_l; [f_equal; lia|]. fold (rotation (tr k) q) in He.
      pose proof (Z.mod_pos_bound (t - rotation (tr k) q) 32 ltac:(done)). lia. }
    rewrite E, <-Hqi. replace (q - q - 1) with (-1) by lia. change (-1 mod 16) with 15. lia.
  - right. enough (E : (q - i - 1) mod 16 = turns (tr k) q - n) by lia.
    assert (Hlt : n <> turns (tr k) q + 1).
    { intros ->. apply Hqi. unfold i, turns. rewrite <-(go_round (cur (tr k) + 1) q 16) at 1 by done.
      f_equal. replace (q - (cur (tr k) + 1)) with (q - cur (tr k) - 1) by lia. lia. }
    unfold turns in *. rewrite <-mod_sub_l by lia. unfold i. replace (q - (cur (tr k) + n) mod 16 - 1) with (q - 1 - (cur (tr k) + n) mod 16) by lia.
    rewrite Zminus_mod_idemp_r. f_equal. lia.
Qed.

(** C6. No thread starves: as long as a thread of a process stays able to run, it is
    run within any 512 successive calls of the scheduler (16 processes of 32 threads),
    whatever other processes and threads do. *)
Theorem scheduler_fair q t tr :
  0 <= q < 16 -> 0 <= t < 32 -> timeline q tr -> (forall k, can_run (tr k) q t) ->
  forall m, exists k, (m <= k < m + 512)%nat /\ runs (tr k) q t.
Proof.
  intros Hq Ht T Hr m.
  enough (G : forall n m, waiting (tr m) q t < Z.of_nat n -> exists k, (m <= k < m + n)%nat /\ runs (tr k) q t).
  { apply G. pose proof (waiting_bound (tr m) q t). lia. }
  clear m. intros n. induction n as [|n IH]; intros m Hm.
  { pose proof (waiting_bound (tr m) q t). lia. }
  destruct (waiting_falls q t tr m Hq Ht T (Hr m)) as [H|H]; [exists m; split; [lia|exact H]|].
  destruct (IH (S m) ltac:(lia)) as (k & Hk & H'). exists k. split; [lia|exact H'].
Qed.
End Scheduler.

(** ** An example *)

Module Demo.
(** No frames, no services: threads only yield. *)
#[local] Instance no_frames : FrameAllocator unit := { fa_alloc_pages s _ := (s, 0); fa_free_pages s _ _ := (s, -1) }.
#[local] Instance no_services {A} : ProcEnv A unit := {
  timer_millis _ := 0; rdmsr _ _ := 0; wrmsr w _ _ := w;
  socket_close_owner me _ := me; tty_close_owner me _ := me; fd_close_owner me _ := me; ipc_close_owner me _ := me;
  uwindow_destroy_process me _ := me; unix_memfd_release me _ := me;
  vfs_stat _ _ := None; vfs_node_data _ _ := None; vfs_read w _ _ := (w, -1, [])
}.

(** A process with a main thread and, when asked, a thread 5. *)
Definition demo_process (ready two : bool) (i : nat) : process :=
  let c := start_context no_context 0x400000 0x6FFFFDC0 0x1000 in
  let th := fun t => Thread t (Z.of_nat i) THREAD_STATE_READY 0 0 0 0 0 c in
  let ts := <[0%nat := th 0]> (replicate 32 no_thread) in
  Process (Z.of_nat i) [] 0x1000 0 0 0 (Credentials 0 0 0) (if ready then PROCESS_STATE_READY else PROCESS_STATE_UNUSED) c
    (if two then <[5%nat := th 5]> ts else ts) 0 [] 0 0 0 0 (-1) 0 false 0.

(** Processes 0 and 3 are ready. *)
Definition demo_start : sys unit unit :=
  Sys (map (fun i => demo_process ((i =? 0)%nat || (i =? 3)%nat) (i =? 3)%nat i) (List.seq 0 16)) (-1) 0 (Mm tt ∅ 0 0) tt.

Definition demo_yield (s : sys unit unit) : sys unit unit * Z := (s, 1).
Abbreviation demo_step := (process_step_active demo_yield).
Definition demo_time (k : nat) : sys unit unit := Nat.iter k demo_step (Nat.iter 4 demo_step demo_start).

Definition demo_states : list (sys unit unit) := map demo_time (List.seq 0 4).

Lemma demo_period : demo_time 4 = demo_time 0.
Proof. vm_compute. reflexivity. Qed.

Lemma demo_next k : demo_time (S k) = demo_step (demo_time k).
Proof. reflexivity. Qed.

Lemma demo_in k : exists j, (j < 4)%nat /\ demo_time k = demo_time j.
Proof.
  induction k as [|k (j & Hj & IH)]; [exists 0%nat; split; [lia|reflexivity]|]. rewrite demo_next, IH, <-demo_next.
  destruct (decide (j = 3%nat)) as [->|]; [|exists (S j); split; [lia|reflexivity]].
  exists 0%nat. split; [lia|exact demo_period].
Qed.

Lemma demo_check (P : sys unit unit -> bool) k : forallb P demo_states = true -> P (demo_time k) = true.
Proof.
  rewrite forallb_forall. intros H. destruct (demo_in k) as (j & Hj & ->). apply H. unfold demo_states.
  apply in_map, in_seq. lia.
Qed.

Lemma demo_table k : length (procs (demo_time k)) = 16%nat.
Proof. apply Nat.eqb_eq. apply (demo_check (fun s => (length (procs s) =? 16)%nat)). vm_compute. reflexivity. Qed.

Lemma dispatch_length (s : sys unit unit) i t : length (procs (dispatch (set_cur i s) i t)) = length (procs s).
Proof.
  unfold dispatch. cbn zeta. unfold load_fs. cbn zeta. destruct (is_linux_abi _ && _); cbn [procs set_env];
    unfold upd_thread_of, upd, set_procs; cbn [procs set_cur_thread]; by rewrite !length_insert.
Qed.

#[local] Opaque demo_time.

Lemma undisturbed_refl q (s : sys unit unit) : length (procs s) = 16%nat -> undisturbed q s s.
Proof. by split. Qed.
Lemma demo_yield_fst (s : sys unit unit) : fst (demo_yield s) = s.
Proof. reflexivity. Qed.

Lemma demo_timeline : timeline demo_yield 3 demo_time.
Proof.
  constructor; [exact demo_table| |].
  - intros k. rewrite (demo_next k), <-(demo_next k). apply undisturbed_refl, demo_table.
  - intros k i t _. cbv zeta. rewrite demo_yield_fst. apply undisturbed_refl. rewrite dispatch_length. apply demo_table.
Qed.

Lemma demo_can_run k : can_run (demo_time k) 3 5.
Proof.
  enough (H : (state (proc (demo_time k) 3) =? PROCESS_STATE_READY) && runnable (proc (demo_time k) 3) 0 5 = true).
  { apply andb_true_iff in H as [H1 H2]. apply Z.eqb_eq in H1. by split. }
  apply (demo_check (fun s => (state (proc s 3) =? PROCESS_STATE_READY) && runnable (proc s 3) 0 5)). vm_compute. reflexivity.
Qed.

Lemma scheduler_fair_witness :
  timeline demo_yield 3 demo_time /\ exists k, (0 <= k < 0 + 512)%nat /\ runs demo_yield (demo_time k) 3 5.
Proof.
  split; [exact demo_timeline|].
  exact (scheduler_fair demo_yield 3 5 demo_time ltac:(lia) ltac:(lia) demo_timeline demo_can_run 0).
Defined.
End Demo.
