(* ===== verification/ProcSpawn.v ===== *)
(** Starting programs: no package and no program makes the kernel read outside it, and
    the rights of the new process are those its package was granted. *)
From S2P Require Import Prelude Pmm Vmm Elf ElfSpec Kea KeaSpec Proc ProcSpec.

(** ** Names *)

Lemma take_nul_some l j : (j < length l)%nat -> nth j l 0 = 0 -> exists n, take_nul l = Some n.
Proof.
  revert j. induction l as [|b l IH]; intros j Hj Hn; cbn in Hj; [lia|]. cbn [take_nul].
  destruct (Z.eqb_spec b 0) as [|Hb]; [by eexists|]. destruct j as [|j]; [done|].
  destruct (IH j) as (n & ->); [lia|done|]. by eexists.
Qed.

Lemma slice_image data off n bs : image data -> slice data off n = Some bs -> image bs.
Proof.
  intros [Hb Hl] Hs. destruct (slice_inv _ _ _ _ Hs) as (H1 & H2 & H3 & H4 & _). split; [|lia].
  unfold slice in Hs. case_match; [|done]. injection Hs as <-. by apply Forall_take, Forall_drop.
Qed.

(** The permissions of a package that is accepted are below 32, so their second byte ends
    every name in the header. *)
Lemma kea_name_some data b name : image data -> base_ok data b -> exists n, kea_name data name = Some n.
Proof.
  intros Hi [Hr Hs _ Hp _ _ _]. unfold HDR in Hs. unfold kea_name. read_field Hi. split_if E1; [by eexists|].
  destruct (slice data 172 4) as [bs|] eqn:Hsl; [|by rewrite slice_some in Hsl by lia].
  assert (Ep : Kea.permissions b = le_get bs).
  { assert (Er : rd data 172 4 = Some (le_get bs)) by (unfold rd; by rewrite Hsl).
    revert Hr. unfold read_base. do 4 read_field Hi. rewrite Er. cbn [mbind option_bind].
    do 5 read_field Hi. by intros [= <-]. }
  destruct (slice_inv _ _ _ _ Hsl) as (_ & _ & _ & Hl & Hn). destruct (slice_image _ _ _ _ Hi Hsl) as [Hb _].
  destruct bs as [|b0 [|b1 [|b2 [|b3 [|]]]]]; cbn [length] in Hl; try lia.
  rewrite !Forall_cons in Hb. destruct Hb as (B0 & B1 & B2 & B3 & _). rewrite Ep in Hp. cbn [le_get] in Hp.
  assert (Hb1 : b1 = 0).
  { change 31 with (2 ^ 5 - 1) in Hp. rewrite land_clear_low in Hp; [|lia|unfold fits; lia].
    pose proof (Z.mod_pos_bound (b0 + 256 * (b1 + 256 * (b2 + 256 * (b3 + 256 * 0)))) (2 ^ 5) ltac:(lia)). lia. }
  destruct (take_nul_some (drop 12 data) 161) as (n & ->); [rewrite length_drop; lia| |by eexists].
  rewrite nth_lookup, lookup_drop, <-nth_lookup. change (12 + 161)%nat with (Z.to_nat (172 + 1)). rewrite <-Hn by lia. done.
Qed.

Section Spawn.
Context {A W : Type} `{FA : FrameAllocator A} `{PE : !ProcEnv A W} `{CR : Crypto, !CryptoLaws}.
Implicit Types s : sys A W.

(** ** Programs *)

Lemma phdr_user_va_some img eh n : image img -> header_ok img eh -> forall p va,
  0 <= p -> p + Z.of_nat n <= e_phnum eh -> exists v, phdr_user_va img eh p n va = Some v.
Proof.
  intros Hi Hh. induction n as [|n IH]; intros p va Hp Hn; cbn [phdr_user_va]; [by eexists|].
  destruct (read_phdr_some img eh p Hi Hh ltac:(lia)) as (ph & -> & _). cbn [mbind option_bind].
  split_if E; [by eexists|]. apply IH; lia.
Qed.

(** What starting a program gives: nothing new, or a process in the first free slot that
    runs the image the loader was given. *)
Definition started s (name : option (list Z)) (img : list Z) (perms : Z) (trusted : bool) s' (r : option Z) : Prop :=
  match r with
  | None => procs s' = procs s
  | Some i =>
      free_slot s = Some i /\ touches i s s' /\
      exists m root ent sp m', elf_load (machine s) (Some img) = Some (m, 0, Some (root, ent)) /\
        build_stack m root img (default [117; 115; 101; 114; 95; 97; 112; 112] name) ent = Some (m', sp) /\ machine s' = m' /\
        proc s' i = start_process (default [117; 115; 101; 114; 95; 97; 112; 112] name) root ent sp perms trusted (proc s i)
  end.

Lemma free_slot_range s i : free_slot s = Some i -> 0 <= i < 16 /\ gone (proc s i) = true.
Proof. intros Hf. destruct (find_z_Some _ _ _ _ Hf) as (H1 & H2 & _). split; [unfold MAX_PROCESSES in H1; lia|exact H2]. Qed.

Lemma spawn_elf_spec s name img perms trusted :
  image img -> length (procs s) = 16%nat ->
  exists s' r, process_spawn_elf_with_permissions s name (Some img) perms trusted = Some (s', r) /\
    started s name img perms trusted s' r.
Proof.
  intros Hi Hl. unfold process_spawn_elf_with_permissions. destruct (free_slot s) as [slot|] eqn:Hs; [|by eexists s, None].
  destruct (free_slot_range s slot Hs) as [Hr _].
  destruct (elf_load_some (machine s) img Hi) as [[[m rc] out] El]. rewrite El. cbn [mbind option_bind].
  destruct out as [[root ent]|]; [|by exists (set_machine m s), None].
  destruct (elf_load_header _ _ _ _ _ _ Hi El) as (-> & eh & Eh & Hh & Hent). cbn [default].
  assert (Hb : exists m' sp, build_stack m root img (default [117; 115; 101; 114; 95; 97; 112; 112] name) ent = Some (m', sp)).
  { unfold build_stack. cbn zeta. split_if E; [by do 2 eexists|]. rewrite Eh. cbn [mbind option_bind].
    destruct Hh as (Hw & H1 & H2 & H3).
    destruct (phdr_user_va_some img eh (Z.to_nat (e_phnum eh)) Hi ltac:(done) 0 0) as (va & ->); [lia|lia|].
    cbn [mbind option_bind]. by do 2 eexists. }
  destruct Hb as (m' & sp & Hb). rewrite Hb. cbn [mbind option_bind]. do 2 eexists. split; [done|]. cbn [started].
  split; [done|]. split.
  - etransitivity; [apply (touches_machine slot s m')|]. apply touches_upd. lia.
  - exists m, root, ent, sp, m'. split; [done|]. split; [done|]. split; [done|].
    rewrite proc_upd_eq by (cbn [procs set_machine]; lia). done.
Qed.

(** ** Packages *)

(** The possible outcomes of starting a package. *)
Definition outcome s (name : option (list Z)) (data : list Z) s' (r : option Z) : Prop :=
  (r = None /\ procs s' = procs s \/
   take 4 data = [0x7F; 69; 76; 70] /\ started s name data (Z.lor KEA_PERM_GUI KEA_PERM_FS) false s' r \/
   exists b n, base_ok data b /\ crc32 (program data b) = checksum b /\
     started s n (program data b) (Kea.permissions b) (has (Kea.permissions b) KEA_PERM_ROOT) s' r) /\
  (forall i, r = Some i -> uid (cred (proc s' i)) = KESH_UID_ROOT ->
     exists b h key, signed data b h key /\ has (Kea.permissions b) KEA_PERM_ROOT = true).

(** C7. Whatever bytes it is given and whatever the state of the machine, starting a
    package returns and never reads outside the package.  It starts nothing and leaves the
    process table alone, or it starts, in the first free slot and without touching any
    other process, either a plain program with the rights of an ordinary user or the
    program of an accepted package with exactly the permissions of its header; and the
    process is root only when the package asks for it and carries a valid signature of a
    trusted key. *)
Theorem process_spawn_kea_correct s name data :
  image data -> length (procs s) = 16%nat ->
  exists s' r, process_spawn_kea s name (Some data) = Some (s', r) /\ outcome s name data s' r.
Proof.
  intros Hi Hl. unfold process_spawn_kea.
  assert (N : forall s', procs s' = procs s -> exists s'' r, Some (s', @None Z) = Some (s'', r) /\ outcome s name data s'' r).
  { intros s' Hs. exists s', None. split; [done|]. split; [by left|done]. }
  destruct (Z.ltb_spec (Z.of_nat (length data)) HDR) as [|Hs]; [by apply N|].
  destruct (read_base_some data Hi Hs) as (b & Hb & Hw). rewrite Hb. cbn [mbind option_bind]. split_if E1.
  { case_bool_decide as Em; [|by apply N]. unfold process_spawn_elf.
    destruct (spawn_elf_spec s name data (Z.lor KEA_PERM_GUI KEA_PERM_FS) false Hi Hl) as (s' & r & E & Hst).
    exists s', r. split; [done|]. split; [right; by left|]. intros i -> Hu.
    destruct Hst as (_ & _ & m & root & ent & sp & m' & _ & _ & _ & Hp). by rewrite Hp in Hu. }
  cbn zeta. destruct (kea_answers data (version b =? KEA_VERSION) Hi) as (rc & Hv & Hok). rewrite Hv. cbn [mbind option_bind].
  split_if E2; [by apply N|]. split_if E3; [by apply N|]. rewrite negb_false_iff, Z.eqb_eq in E2.
  destruct (proj1 Hok E2) as (b' & Hb' & Hc & Hsig). pose proof (bo_read _ _ Hb') as Hr. rewrite Hb in Hr. injection Hr as <-.
  rewrite slice_some by (destruct Hw; try done; apply Hb'). cbn [mbind option_bind]. fold (program data b).
  destruct (kea_name_some data b name Hi Hb') as (n & ->). cbn [mbind option_bind].
  assert (Hpi : image (program data b)).
  { apply (slice_image data (elf_offset b) (elf_size b) _ Hi), slice_some; try apply Hw; apply Hb'. }
  assert (Et : (version b =? KEA_VERSION) && has (Kea.permissions b) KEA_PERM_ROOT = has (Kea.permissions b) KEA_PERM_ROOT).
  { destruct (has (Kea.permissions b) KEA_PERM_ROOT), (version b =? KEA_VERSION); done. }
  rewrite Et. destruct (spawn_elf_spec s n (program data b) (Kea.permissions b) (has (Kea.permissions b) KEA_PERM_ROOT) Hpi Hl)
    as (s' & r & E & Hst).
  exists s', r. split; [done|]. split; [right; right; by exists b, n|]. intros i -> Hu.
  destruct Hst as (_ & _ & m & root & ent & sp & m' & _ & _ & _ & Hp). rewrite Hp in Hu. cbn [uid cred start_process] in Hu.
  destruct (has (Kea.permissions b) KEA_PERM_ROOT) eqn:Hroot; [|done].
  destruct Hsig as [(V & _ & Hreq)|(h & key & Hg)]; [|by exists b, h, key]. by rewrite Hreq in Et.
Qed.
End Spawn.

(** ** A root program *)

Module Demo.
#[local] Existing Instance toy_crypto.
#[local] Existing Instance toy_laws.
#[local] Existing Instance ProcSpec.Demo.no_services.

Definition demo_table : list process := replicate 16 (Process 0 [] 0 0 0 0 (Credentials 0 0 0) 0 no_context (replicate 32 no_thread) 0 [] 0 0 0 0 0 0 false 0).
Definition demo_sys : sys pmm unit := Sys demo_table (-1) 0 demo_kernel tt.
Definition demo_kea : list Z := Eval vm_compute in demo_signed demo_elf.

Lemma demo_kea_image : image demo_kea.
Proof. apply bytes_image; vm_compute; reflexivity. Qed.

Lemma demo_spawn : (fun r => (snd r, uid (cred (proc (fst r) 0)))) <$> process_spawn_kea demo_sys None (Some demo_kea) = Some (Some 0, KESH_UID_ROOT).
Proof. vm_compute. reflexivity. Qed.

(** It runs as root, and so it is signed. *)
Lemma process_spawn_kea_correct_witness :
  exists s', process_spawn_kea demo_sys None (Some demo_kea) = Some (s', Some 0) /\
    exists b h key, signed demo_kea b h key /\ has (Kea.permissions b) KEA_PERM_ROOT = true.
Proof.
  destruct (process_spawn_kea_correct demo_sys None demo_kea demo_kea_image eq_refl) as (s' & r & E & _ & H).
  pose proof demo_spawn as D. rewrite E in D. cbn [fmap option_fmap option_map fst snd] in D. injection D as -> Hu.
  exists s'. split; [exact E|]. exact (H 0 eq_refl Hu).
Defined.
End Demo.
