(* ===== verification/ProcSignals.v ===== *)
(** Who may act on whom: what a process can do to others with signals, groups and
    permissions. *)
From S2P Require Import Prelude Pmm Vmm Elf Kea Proc ProcSpec.

Section Signals.
Context {A W : Type} `{FA : FrameAllocator A} `{PE : !ProcEnv A W}.
Implicit Types s : sys A W.

(** The calls by which a process acts on processes. *)
Inductive call :=
  | Signal (i signal : Z)
  | SignalGroup (group signal : Z)
  | SetGroup (i group : Z)
  | Revoke (i mask : Z).

Definition issue s (caller : Z) (c : call) : sys A W * Z :=
  match c with
  | Signal i signal => process_send_signal s caller i signal
  | SignalGroup group signal => process_signal_group s caller group signal
  | SetGroup i group => process_set_group s caller i group
  | Revoke i mask => process_revoke_permissions s caller i mask
  end.

Definition issue_all s (caller : Z) (cs : list call) : sys A W := fold_left (fun s c => fst (issue s caller c)) cs s.

Definition owner s (i : Z) : Z := uid (cred (proc s i)).

(** No process of another user than [u] changes. *)
Definition spares (u : Z) s s' : Prop :=
  length (procs s') = length (procs s) /\ forall j, 0 <= j -> owner s j <> u -> proc s' j = proc s j.

#[export] Instance spares_preorder u : PreOrder (spares u).
Proof.
  split; [by split|]. intros s1 s2 s3 [L1 H1] [L2 H2]. split; [congruence|]. intros j Hj Hu.
  rewrite H2; [by apply H1|done|]. unfold owner in *. by rewrite H1.
Qed.

Lemma touches_spares u i s s' : touches i s s' -> owner s i = u -> spares u s s'.
Proof. intros [_ T O] Hu. split; [done|]. intros j Hj Hne. apply O; [done|]. by intros ->. Qed.

(** The caller is gone or still a process of [u]. *)
Definition as_user (caller u : Z) s : Prop := process_exists s caller = true -> owner s caller = u.

(** A signal delivered to [i] touches only [i], which keeps its owner or is gone. *)
Lemma touches_deliver i s signal : 0 <= i -> touches i s (fst (deliver s i signal)).
Proof.
  intros Hi. unfold deliver. cbn zeta. repeat case_match; cbn [fst]; try reflexivity; try by apply touches_upd.
  - by apply touches_kill.
  - etransitivity; by apply touches_upd.
Qed.

Lemma kill_gone s i : 0 <= i < 16 -> length (procs s) = 16%nat -> fst (process_kill s i) = s \/ gone (proc (fst (process_kill s i)) i) = true.
Proof.
  intros Hi Hl. unfold process_kill. split_if E1; [by left|]. cbn zeta. split_if E2; [by left|]. right. cbn [fst].
  unfold process_release_resources. rewrite proc_upd_eq; [|cbn [procs set_me set_env set_machine close_owner upd set_procs]; rewrite length_insert; lia].
  unfold gone. cbn [released state]. change (proc (set_me ?x ?y) i) with (proc y i). unfold close_owner.
  change (proc (set_me ?x ?y) i) with (proc y i). rewrite proc_upd_eq by lia. done.
Qed.

Lemma deliver_owner s i signal :
  0 <= i < 16 -> length (procs s) = 16%nat ->
  owner (fst (deliver s i signal)) i = owner s i \/ gone (proc (fst (deliver s i signal)) i) = true.
Proof.
  intros Hi Hl. unfold deliver, owner. cbn zeta. split_if E1; [destruct (kill_gone s i Hi Hl) as [->|]; auto|].
  repeat case_match; cbn [fst]; auto; left; rewrite !proc_upd_eq by (cbn [procs upd set_procs]; rewrite ?length_insert; lia); done.
Qed.

Section Caller.
Variables caller u : Z.
Hypothesis Hcaller : 0 <= caller.
Hypothesis Hu : u <> KESH_UID_ROOT.

(** What one call keeps. *)
Definition confined s s' : Prop := spares u s s' /\ as_user caller u s'.

Lemma confined_touches i s s' :
  0 <= i -> touches i s s' -> owner s i = u -> owner s' i = u \/ gone (proc s' i) = true -> as_user caller u s -> confined s s'.
Proof.
  intros Hi T Ho Ho' Hc. split; [exact (touches_spares u i s s' T Ho)|]. unfold as_user, process_exists, owner in *.
  destruct (decide (i = caller)) as [->|Hne]; [|rewrite (to_others _ _ _ T); [exact Hc|done|by intros ->]].
  destruct Ho' as [Ho'|Hg]; [done|]. by rewrite Hg, andb_false_r.
Qed.

Lemma confined_refl s : as_user caller u s -> confined s s.
Proof. by split. Qed.

Lemma confined_trans s1 s2 s3 : confined s1 s2 -> confined s2 s3 -> confined s1 s3.
Proof. intros [A1 _] [A2 C2]. split; [by transitivity s2|done]. Qed.

Lemma exists_range s i : process_exists s i = true -> 0 <= i < 16.
Proof. unfold process_exists, below, MAX_PROCESSES. intros [[H1 H2]%andb_true_iff _]%andb_true_iff. lia. Qed.

Lemma send_confined s i signal :
  length (procs s) = 16%nat -> as_user caller u s -> confined s (fst (process_send_signal s caller i signal)).
Proof.
  intros Hl Hc. unfold process_send_signal. cbn zeta. split_if E1; [by apply confined_refl|].
  rewrite negb_false_iff in E1. pose proof (exists_range _ _ E1) as Hi. rewrite (proj2 (Z.leb_le 0 caller)) by done.
  split_if E2; [by apply confined_refl|]. rewrite negb_false_iff in E2. pose proof (Hc E2) as Ho. unfold owner in Ho. rewrite Ho.
  rewrite (proj2 (Z.eqb_neq _ _) Hu). cbn [negb andb]. split_if E3; [by apply confined_refl|].
  split_if E4; [by apply confined_refl|]. rewrite negb_false_iff, Z.eqb_eq in E3.
  apply (confined_touches i); [lia|apply touches_deliver; lia|by rewrite E3| |done].
  destruct (deliver_owner s i signal Hi Hl) as [->|]; [left; by rewrite E3|by right].
Qed.

Lemma group_confined group signal n : forall s i delivered,
  length (procs s) = 16%nat -> as_user caller u s -> confined s (fst (signal_group s caller group signal i n delivered)).
Proof.
  induction n as [|n IH]; intros s i delivered Hl Hc; cbn [signal_group]; [by apply confined_refl|].
  split_if E; [by apply IH|]. pose proof (send_confined s i signal Hl Hc) as S1.
  destruct (process_send_signal s caller i signal) as [s1 rc]. cbn [fst] in S1. destruct S1 as [A1 C1].
  apply (confined_trans _ s1); [done|]. apply IH; [|done]. by rewrite (proj1 A1).
Qed.

Lemma issue_confined s c : length (procs s) = 16%nat -> as_user caller u s -> confined s (fst (issue s caller c)).
Proof.
  intros Hl Hc. destruct c as [i signal|group signal|i group|i mask]; cbn [issue].
  - by apply send_confined.
  - unfold process_signal_group. split_if E; [by apply confined_refl|].
    pose proof (group_confined group signal (Z.to_nat MAX_PROCESSES) s 0 0 Hl Hc) as G.
    destruct (signal_group _ _ _ _ _ _ _) as [s1 d]. exact G.
  - unfold process_set_group. split_if E1; [by apply confined_refl|]. split_if E2; [by apply confined_refl|].
    rewrite !orb_false_iff, !negb_false_iff in E1. destruct E1 as [[E1 E3] _]. pose proof (Hc E1) as Ho. unfold owner in Ho.
    rewrite Ho, (proj2 (Z.eqb_neq _ _) Hu), andb_true_r, negb_false_iff, Z.eqb_eq in E2. subst i.
    apply (confined_touches caller); [done|by apply touches_upd|done| |done]. left. unfold owner. cbn [fst].
    rewrite proc_upd_eq; [done|]. pose proof (exists_range _ _ E3). lia.
  - unfold process_revoke_permissions. split_if E1; [by apply confined_refl|]. split_if E2; [by apply confined_refl|].
    rewrite !orb_false_iff, !negb_false_iff in E1. destruct E1 as [[E1 _] _]. pose proof (Hc E1) as Ho. unfold owner in Ho.
    rewrite negb_false_iff, Z.eqb_eq in E2. congruence.
Qed.
End Caller.

(** C16. A process that is not root cannot touch the processes of other users: after any
    sequence of signals, group signals, group changes and permission revocations it
    issues, every process of another user is exactly as before. *)
Theorem unprivileged_cannot_touch s caller calls :
  length (procs s) = 16%nat -> 0 <= caller -> owner s caller <> KESH_UID_ROOT ->
  forall j, 0 <= j -> owner s j <> owner s caller -> proc (issue_all s caller calls) j = proc s j.
Proof.
  intros Hl Hc Hu. enough (G : forall cs s', confined caller (owner s caller) s s' ->
    confined caller (owner s caller) s (issue_all s' caller cs)).
  { apply (proj2 (proj1 (G calls s (confined_refl _ _ _ (fun _ => eq_refl))))). }
  intros cs. induction cs as [|c cs IH]; intros s' [Hs Hc']; [done|]. apply IH.
  eapply confined_trans; [done|]. apply issue_confined; try done. by rewrite (proj1 Hs).
Qed.
End Signals.

(** ** An example *)

Module Demo.
#[local] Existing Instance ProcSpec.Demo.no_frames.
#[local] Existing Instance ProcSpec.Demo.no_services.

Definition demo_user (u : Z) (i : nat) : process :=
  Process (Z.of_nat i) [] 0 0 0 31 (Credentials u u 0) PROCESS_STATE_READY no_context (replicate 32 no_thread) 0 [] 0 0 0 0 (-1) 7 false 0.

(** Processes 0 and 1 belong to user 1000, process 2 to root. *)
Definition demo_sys : sys unit unit :=
  Sys (map (fun i => if (i <? 2)%nat then demo_user 1000 i else if (i =? 2)%nat then demo_user 0 i else no_process) (List.seq 0 16))
    0 0 (Mm tt ∅ 0 0) tt.

Definition demo_calls : list call := [Revoke 2 31; Signal 2 KESH_SIGTERM; SetGroup 2 5; SignalGroup 7 KESH_SIGKILL].

(** Processes 0 and 1, the caller, are gone; root's process is untouched. *)
Lemma unprivileged_cannot_touch_witness :
  state (proc (issue_all demo_sys 1 demo_calls) 0) = PROCESS_STATE_EXITED /\
  proc (issue_all demo_sys 1 demo_calls) 2 = demo_user 0 2.
Proof.
  split; [vm_compute; reflexivity|].
  exact (unprivileged_cannot_touch demo_sys 1 demo_calls eq_refl ltac:(lia) ltac:(vm_compute; discriminate) 2 ltac:(lia)
    ltac:(vm_compute; discriminate)).
Defined.
End Demo.
