(* ===== verification/ProcVm.v ===== *)
(** Process memory: the [process_vm_*] calls of [kernel/process.c], which act on the
    running process. *)
From S2P Require Import Prelude Pmm Vmm Elf Proc.

Definition PROCESS_VM_MAX_SIZE : Z := 512 * 1024 * 1024.

Definition bad_protection (prot : Z) : bool := has prot (u32 (Z.lnot 7)) || (has prot 2 && has prot 4).

Definition page_flags_of (prot : Z) : Z :=
  let f := PTE_USER in
  let f := if has prot 2 then Z.lor f PTE_WRITABLE else f in
  if has prot 4 then f else Z.lor f PTE_NO_EXECUTE.

Definition page_up (x : Z) : Z := Z.land (u64 (x + PAGE_SIZE - 1)) (u64 (Z.lnot (PAGE_SIZE - 1))).

Section ProcVm.
Context {A W : Type} `{FA : FrameAllocator A} `{PE : !ProcEnv A W}.
Implicit Types s : sys A W.
Implicit Types st : mm A.

Definition region_at (p : process) (r : Z) : vm_region := at_z no_region (vm_regions p) r.
Definition set_region (r : Z) (x : vm_region) (p : process) : process := set_vm_regions (<[Z.to_nat r := x]> (vm_regions p)) p.
Definition this_pml4 s : Z := pml4_phys (this s).
Definition upd_this s (f : process -> process) : sys A W := upd s (cur s) f.

Definition free_region (p : process) : option Z :=
  find_z (fun r => negb (active (region_at p r))) 0 (Z.to_nat MAX_VM_REGIONS_PER_PROCESS).

(** ** Finding room *)

(** Is none of the [n] pages from [va] present? *)
Fixpoint range_clear st (root va : Z) (n : nat) : bool :=
  match n with
  | O => true
  | S n => if has (vmm_get_page_flags st root va) PTE_PRESENT then false else range_clear st root (u64 (va + PAGE_SIZE)) n
  end.

(** One round of the search for a base address. *)
Definition try_base st (root pages mapped_size base : Z) : Z + Z :=
  if negb ((base <? USER_VA_LIMIT) && (mapped_size <=? USER_VA_LIMIT - base)) then inr base
  else if range_clear st root base (Z.to_nat pages) then inr base
  else inl (u64 (base + mapped_size)).

(** The search; at most [2 ^ 35] bases of whole pages lie below the limit. *)
Definition find_base st (root pages mapped_size start : Z) : Z :=
  match iterate (try_base st root pages mapped_size) 36 start with inl b => b | inr b => b end.

Definition out_of_room (base mapped_size : Z) : bool := (USER_VA_LIMIT <=? base) || (USER_VA_LIMIT - base <? mapped_size).

(** ** Mapping *)

Definition process_vm_map s (size prot : Z) : sys A W * Z :=
  if negb (active_proc s) || (size =? 0) || (PROCESS_VM_MAX_SIZE <? size) then (s, 0)
  else if bad_protection prot then (s, 0)
  else
    let pages := (size + PAGE_SIZE - 1) / PAGE_SIZE in
    let mapped_size := pages * PAGE_SIZE in
    if mapped_size <? size then (s, 0)
    else
      match free_region (this s) with
      | None => (s, 0)
      | Some region_index =>
          let base := find_base (machine s) (this_pml4 s) pages mapped_size (page_up (vm_next_base (this s))) in
          if out_of_room base mapped_size then (s, 0)
          else
            let '(m, ok) := map_new_pages (machine s) (this_pml4 s) base (page_flags_of prot) 0 (Z.to_nat pages) in
            let s := set_machine m s in
            if negb ok then (s, 0)
            else
              let s := upd_this s (set_region region_index (VmRegion base mapped_size prot true 0 0 true)) in
              (upd_this s (set_vm_next_base (u64 (base + mapped_size))), base)
      end.

(** The frames [ps] from [base] on; on failure the [done] pages before are unmapped. *)
Fixpoint map_phys_pages st (root base flags done : Z) (ps : list Z) : mm A * bool :=
  match ps with
  | [] => (st, true)
  | phys :: ps =>
      let '(st, rc) := vmm_map_page st root (u64 (base + done * PAGE_SIZE)) phys flags in
      if negb (rc =? 0) then (unmap_pages st root base (Z.to_nat done) false, false)
      else map_phys_pages st root base flags (done + 1) ps
  end.

Definition process_vm_map_phys s (phys_pages : option (list Z)) (prot : Z) : sys A W * Z :=
  match phys_pages with
  | None => (s, 0)
  | Some ps =>
      let num_pages := Z.of_nat (length ps) in
      if negb (active_proc s) || (num_pages =? 0) then (s, 0)
      else if bad_protection prot || (PROCESS_VM_MAX_SIZE / PAGE_SIZE <? num_pages) then (s, 0)
      else
        let mapped_size := num_pages * PAGE_SIZE in
        match free_region (this s) with
        | None => (s, 0)
        | Some region_index =>
            let base := find_base (machine s) (this_pml4 s) num_pages mapped_size (page_up (vm_next_base (this s))) in
            if out_of_room base mapped_size then (s, 0)
            else
              let '(m, ok) := map_phys_pages (machine s) (this_pml4 s) base (page_flags_of prot) 0 ps in
              let s := set_machine m s in
              if negb ok then (s, 0)
              else
                let s := upd_this s (set_region region_index (VmRegion base mapped_size prot false 0 0 true)) in
                (upd_this s (set_vm_next_base (u64 (base + mapped_size))), base)
        end
  end.

(** Position of the active region that starts at [address]. *)
Definition region_based (p : process) (address : Z) : option Z :=
  find_z (fun r => active (region_at p r) && (base (region_at p r) =? address)) 0 (Z.to_nat MAX_VM_REGIONS_PER_PROCESS).

Definition set_backing (kind ptr : Z) (r : vm_region) : vm_region :=
  VmRegion (base r) (r_size r) (protection r) (owns_physical r) kind ptr (active r).

Definition process_vm_attach_backing s (address kind ptr : Z) : sys A W * Z :=
  if negb (active_proc s) || (address =? 0) || (ptr =? 0) then (s, -1)
  else
    match region_based (this s) address with
    | None => (s, -1)
    | Some r => (upd_this s (set_region r (set_backing kind ptr (region_at (this s) r))), 0)
    end.

(** ** Unmapping *)

(** The pages of a region, up to the first that cannot be unmapped. *)
Fixpoint unmap_region st (root va : Z) (n : nat) (free_phys : bool) : mm A * bool :=
  match n with
  | O => (st, true)
  | S n =>
      let '(st, rc) := vmm_unmap_page st root va free_phys in
      if negb (rc =? 0) then (st, false) else unmap_region st root (u64 (va + PAGE_SIZE)) n free_phys
  end.

Definition region_exact (p : process) (address mapped_size : Z) : option Z :=
  find_z (fun r => let x := region_at p r in active x && (base x =? address) && (r_size x =? mapped_size))
    0 (Z.to_nat MAX_VM_REGIONS_PER_PROCESS).

Definition process_vm_unmap s (address size : Z) : sys A W * Z :=
  if negb (active_proc s) || (address =? 0) || (size =? 0) then (s, -1)
  else
    let mapped_size := page_up size in
    if mapped_size <? size then (s, -1)
    else
      match region_exact (this s) address mapped_size with
      | None => (s, -1)
      | Some r =>
          let x := region_at (this s) r in
          let '(m, ok) := unmap_region (machine s) (this_pml4 s) (base x) (Z.to_nat (pages_of (r_size x))) (owns_physical x) in
          let s := set_machine m s in
          if negb ok then (s, -1)
          else
            let s := set_me (release_backing (machine s, env s) x) s in
            (upd_this s (set_region r (set_active false x)), 0)
      end.

(** ** Mapping at a fixed address *)

(** The loop over regions: the slot to use, or nothing when the call must fail. *)
Fixpoint fixed_slot s (address mapped_size r : Z) (n : nat) (slot : option Z) : sys A W * option Z :=
  match n with
  | O => (s, slot)
  | S n =>
      let x := region_at (this s) r in
      let slot := match slot with None => if active x then None else Some r | _ => slot end in
      if active x && (address <? u64 (base x + r_size x)) && (base x <? u64 (address + mapped_size)) then
        if negb (base x =? address) || negb (r_size x =? mapped_size) then (s, None)
        else
          let '(s, rc) := process_vm_unmap s address mapped_size in
          if negb (rc =? 0) then (s, None) else (s, Some r)
      else fixed_slot s address mapped_size (r + 1) n slot
  end.

(** A page already present is replaced; the new page holds what the allocator gives. *)
Definition replace_page st (root va flags : Z) : mm A * bool :=
  let st := if has (vmm_get_page_flags st root va) PTE_PRESENT then fst (vmm_unmap_page st root va true) else st in
  let '(st, phys) := alloc_page st in
  if phys =? 0 then (st, false)
  else
    let '(st, rc) := vmm_map_page st root va phys flags in
    if negb (rc =? 0) then (fst (free_page st phys), false) else (st, true).

Fixpoint replace_pages st (root address flags p : Z) (n : nat) : mm A * bool :=
  match n with
  | O => (st, true)
  | S n =>
      let '(st, ok) := replace_page st root (u64 (address + p * PAGE_SIZE)) flags in
      if ok then replace_pages st root address flags (p + 1) n else (unmap_pages st root address (Z.to_nat p) true, false)
  end.

Definition process_vm_map_fixed s (address size prot : Z) : sys A W * Z :=
  if negb (active_proc s) || (address =? 0) || (size =? 0) || has address (PAGE_SIZE - 1) ||
     (PROCESS_VM_MAX_SIZE <? size) || bad_protection prot then (s, 0)
  else
    let mapped_size := page_up size in
    if (mapped_size <? size) || (USER_VA_LIMIT <=? address) || (USER_VA_LIMIT - address <? mapped_size) then (s, 0)
    else
      let '(s, slot) := fixed_slot s address mapped_size 0 (Z.to_nat MAX_VM_REGIONS_PER_PROCESS) None in
      match slot with
      | None => (s, 0)
      | Some region_index =>
          let '(m, ok) := replace_pages (machine s) (this_pml4 s) address (page_flags_of prot) 0 (Z.to_nat (mapped_size / PAGE_SIZE)) in
          let s := set_machine m s in
          if negb ok then (s, 0)
          else (upd_this s (set_region region_index (VmRegion address mapped_size prot true 0 0 true)), address)
      end.

(** ** Protection *)

Definition page_covered (p : process) (page : Z) : bool :=
  existsb (fun x => active x && (base x <=? page) && (page <? u64 (base x + r_size x))) (vm_regions p).

Fixpoint pages_covered st (p : process) (page : Z) (n : nat) : bool :=
  match n with
  | O => true
  | S n =>
      if negb (page_covered p page) || negb (has (vmm_get_page_flags st (pml4_phys p) page) PTE_PRESENT) then false
      else pages_covered st p (u64 (page + PAGE_SIZE)) n
  end.

Fixpoint protect_pages st (root page flags : Z) (n : nat) : mm A * Z :=
  match n with
  | O => (st, 0)
  | S n =>
      let '(st, rc) := vmm_set_page_flags st root page flags in
      if negb (rc =? 0) then (st, -1) else protect_pages st root (u64 (page + PAGE_SIZE)) flags n
  end.

Definition process_vm_protect s (address size prot : Z) : sys A W * Z :=
  if negb (active_proc s) || (address =? 0) || (size =? 0) then (s, -1)
  else if has address (PAGE_SIZE - 1) || bad_protection prot then (s, -1)
  else
    let mapped_size := page_up size in
    if (mapped_size <? size) || (USER_VA_LIMIT <=? address) || (USER_VA_LIMIT - address <? mapped_size) then (s, -1)
    else
      let n := Z.to_nat (mapped_size / PAGE_SIZE) in
      if negb (pages_covered (machine s) (this s) address n) then (s, -1)
      else
        let '(m, rc) := protect_pages (machine s) (this_pml4 s) address (page_flags_of prot) n in (set_machine m s, rc).

(** ** The program break *)

(** Growing stops at the first page that is taken or cannot be had: the end reached. *)
Fixpoint grow_heap st (root mapped : Z) (n : nat) : mm A * Z :=
  match n with
  | O => (st, mapped)
  | S n =>
      if has (vmm_get_page_flags st root mapped) PTE_PRESENT then (st, mapped)
      else
        let '(st, ok) := map_new_page st root mapped data_flags in
        if ok then grow_heap st root (u64 (mapped + PAGE_SIZE)) n else (st, mapped)
  end.

(** [n] pages below [mapped], from the top. *)
Fixpoint unmap_down st (root mapped : Z) (n : nat) : mm A :=
  match n with
  | O => st
  | S n => unmap_down (fst (vmm_unmap_page st root (mapped - PAGE_SIZE) true)) root (mapped - PAGE_SIZE) n
  end.

Definition process_vm_brk s (address : Z) : sys A W * Z :=
  if negb (active_proc s) then (s, 0)
  else
    let p := this s in
    let kept := heap_break p in
    if address =? 0 then (s, kept)
    else if (address <? heap_base p) || (u64 (heap_base p + PROCESS_VM_MAX_SIZE) <? address) then (s, kept)
    else
      let target_end := page_up address in
      let old_end := heap_mapped_end p in
      if target_end <? address then (s, kept)
      else if old_end <? target_end then
        let '(m, mapped) := grow_heap (machine s) (pml4_phys p) old_end (Z.to_nat ((target_end - old_end) / PAGE_SIZE)) in
        if negb (mapped =? target_end) then
          (set_machine (unmap_down m (pml4_phys p) mapped (Z.to_nat ((mapped - old_end) / PAGE_SIZE))) s, kept)
        else (upd_this (set_machine m s) (set_heap address target_end), address)
      else
        let m := unmap_pages (machine s) (pml4_phys p) target_end (Z.to_nat ((old_end - target_end) / PAGE_SIZE)) true in
        (upd_this (set_machine m s) (set_heap address target_end), address).
End ProcVm.
