(* ===== verification/ProcVmSpec.v ===== *)
(** Process memory: mapping fresh memory gives zero pages in a free range and disturbs
    nothing else, or changes nothing at all. *)
From S2P Require Import Prelude Pmm Vmm VmmTree VmmSpec VmmUser UserSpace Elf ElfSpec Proc ProcSpec ProcVm.

(** The address lies in the [n] pages from [lo]. *)
Definition in_range (lo : Z) (n : nat) (v : Z) : bool := (lo <=? v) && (v <? lo + Z.of_nat n * PAGE_SIZE).

Lemma in_range_iff lo n v : in_range lo n v = true <-> lo <= v < lo + Z.of_nat n * PAGE_SIZE.
Proof. unfold in_range. rewrite andb_true_iff, Z.leb_le, Z.ltb_lt. done. Qed.

Lemma in_range_page lo v : lo mod PAGE_SIZE = 0 -> (v / PAGE_SIZE =? lo / PAGE_SIZE) = in_range lo 1 v.
Proof.
  intros Hl. apply eq_true_iff_eq. rewrite Z.eqb_eq, in_range_iff, page_mod_div by done. unfold PAGE_SIZE. lia.
Qed.

Lemma in_range_app lo n m v : in_range lo (n + m) v = in_range lo n v || in_range (lo + Z.of_nat n * PAGE_SIZE) m v.
Proof. apply eq_true_iff_eq. rewrite orb_true_iff, !in_range_iff. unfold PAGE_SIZE. lia. Qed.

Lemma in_range_0 lo v : in_range lo 0 v = false.
Proof. apply not_true_iff_false. rewrite in_range_iff. unfold PAGE_SIZE. lia. Qed.

Section ProcVmSpec.
Context {A : Type} `{FA : FrameAllocator A, !FrameAllocatorLaws A}.
Implicit Types st : mm A.

(** ** One page *)

Lemma free_space st st' root p rc :
  space_inv st root -> data_page st root p ->
  (forall v, user_addr v -> view st root v <> None -> vmm_get_page_phys st root v <> p) ->
  free_page st p = (st', rc) ->
  space_inv st' root /\ forall v, user_addr v -> cell st' root v = cell st root v.
Proof.
  intros Hs Hd Hn Hf. pose proof Hs as [S1 S2 S3 S4]. pose proof (dp_page _ _ _ Hd) as Hp.
  assert (E : Z.land p PTE_ADDR_MASK = p) by (destruct Hp as (? & ? & ?); apply land_addr_mask; unfold PAGE_SIZE in *; lia || done).
  assert (Hf' := Hf). rewrite <-E in Hf'.
  destruct (free_leaf_tree st st' root p rc S1) as (W' & _ & M'); [|done|].
  { intros q t Hq Hv Hw ->. rewrite E in Hw. by apply (dp_apart _ _ _ Hd q). }
  assert (Fl : forall v, vmm_get_page_flags st' root v = vmm_get_page_flags st root v)
    by (intros v; by rewrite !vmm_get_page_flags_leaf, M').
  split.
  - constructor; [done| | |].
    + intros v Hv. unfold path_not_huge, not_huge in *. pose proof (S2 v Hv) as H. rewrite M'.
      assert (He : forall t i, entry st' t i = entry st t i) by (intros; by rewrite !entry_ld64, M').
      destruct H as (H3 & H2 & H1). split_and!; intros t; rewrite He; auto.
    + intros v Hv. destruct (flags_view _ _ _ _ (Fl v)) as [-> ->]. intros Hm.
      by apply (free_data st st' root p rc _ (tree_frames _ _ S1) Hp Hf (S3 v Hv Hm) (Hn v Hv Hm)).
    + intros v v' Hv Hv'. destruct (flags_view _ _ _ _ (Fl v)) as [-> ->], (flags_view _ _ _ _ (Fl v')) as [-> ->]. by apply S4.
  - intros v Hv. destruct (flags_view _ _ _ _ (Fl v)) as [Ev Ep]. unfold cell. rewrite Ev. destruct (view st root v); [|done].
    unfold user_byte, translate. by rewrite Ep, M'.
Qed.

(** A new page reads as zeros; a failure leaves the space as it was. *)
Lemma map_new_page_cell st root va flags st' ok :
  space_inv st root -> user_addr va -> va mod PAGE_SIZE = 0 -> map_new_page st root va flags = (st', ok) ->
  space_inv st' root /\ (ok = true -> cell st root va = None) /\
  forall v, user_addr v -> cell st' root v = if ok && in_range va 1 v then Some (Z.land flags PROT, 0) else cell st root v.
Proof.
  intros Hs Hu Ha. unfold map_new_page. destruct (alloc_page st) as [st1 p] eqn:Ea.
  destruct (alloc_space st st1 root p Hs Ea) as (S1 & C1 & Hnew).
  destruct (Z.eqb_spec p 0) as [|Hp0]; [intros [= <- <-]; split; [done|]; split; [done|]; intros v Hv; by rewrite C1|].
  destruct (Hnew Hp0) as (D1 & N1 & Z1). destruct (vmm_map_page st1 root va p flags) as [st2 rc] eqn:Em.
  destruct (Z.eqb_spec rc 0) as [->|Hrc]; cbn [negb].
  - destruct (map_cell st1 root va p flags st2 S1 Hu D1 N1 Em) as (S2 & _ & V2 & Hph & _ & _ & C2). intros [= <- <-].
    assert (Hbyte : forall v, user_addr v -> v / PAGE_SIZE = va / PAGE_SIZE -> cell st2 root v = Some (Z.land flags PROT, 0)).
    { intros v Hv E. rewrite C2, E, Z.eqb_refl by done. do 2 f_equal. apply Z1.
      pose proof (Z.mod_pos_bound v PAGE_SIZE ltac:(done)). unfold in_block, PAGE_SIZE in *. lia. }
    destruct (zero_page_cell st2 root va S2 Hu Ha) as (S3 & _ & C3); [apply cell_view; by rewrite (Hbyte va)|intros v Hv E; by rewrite Hbyte|].
    rewrite Hph in S3, C3. split; [done|]. split.
    + intros _. rewrite <-C1 by done. unfold cell. by rewrite V2.
    + intros v Hv. rewrite C3 by done. cbn [andb]. rewrite <-in_range_page by done.
      destruct (Z.eqb_spec (v / PAGE_SIZE) (va / PAGE_SIZE)) as [E|E]; [by apply Hbyte|].
      rewrite C2, <-C1 by done. apply Z.eqb_neq in E. by rewrite E.
  - destruct (free_page st2 p) as [st3 rc3] eqn:Ef. cbn [fst]. intros [= <- <-].
    assert (Hpb : 0 <= p < 2 ^ 52) by (destruct (dp_page _ _ _ D1) as (? & ? & ?); unfold PAGE_SIZE in *; lia).
    pose proof (map_fails_safe _ _ _ _ _ _ _ (si_wf _ _ S1) (si_huge _ _ S1 va Hu) Em Hrc) as F.
    destruct (vmm_map_page_inv _ _ _ _ _ _ _ (si_wf _ _ S1) (si_huge _ _ S1 va Hu) Hpb Em) as [(_ & W2 & _ & U2)|(? & _)]; [|done].
    destruct (space_transport st1 st2 root S1 W2 (fun v => safe_path _ _ _ v F) (sf_keeps _ _ _ F)) as [S2 C2]; [auto|].
    destruct (free_space st2 st3 root p rc3 S2) as [S3 C3]; [by apply (sf_keeps _ _ _ F)| |done|].
    { intros v Hv. destruct (flags_view _ _ _ _ (U2 v)) as [-> ->]. by apply N1. }
    split; [done|]. split; [done|]. intros v Hv. cbn [andb]. by rewrite C3, C2, C1.
Qed.

(** ** Ranges *)

Lemma u64_small x : 0 <= x < 2 ^ 64 -> u64 x = x.
Proof. apply uwrap_id. Qed.

Lemma unmap_pages_cell root fp n : forall st va,
  space_inv st root -> va mod PAGE_SIZE = 0 -> 0 <= va -> va + Z.of_nat n * PAGE_SIZE <= USER_VA_LIMIT ->
  space_inv (unmap_pages st root va n fp) root /\
  forall v, user_addr v -> cell (unmap_pages st root va n fp) root v = if in_range va n v then None else cell st root v.
Proof.
  induction n as [|n IH]; intros st va Hs Ha H0 Hl; cbn [unmap_pages].
  { split; [done|]. intros v _. by rewrite in_range_0. }
  assert (Hu : user_addr va) by (unfold user_addr, PAGE_SIZE in *; lia).
  destruct (vmm_unmap_page st root va fp) as [st1 rc] eqn:E. cbn [fst].
  destruct (unmap_cell st root va fp st1 rc Hs Hu Ha E) as [S1 C1].
  rewrite u64_small by (unfold USER_VA_LIMIT, PAGE_SIZE in *; lia).
  destruct (IH st1 (va + PAGE_SIZE)) as [S2 C2]; auto using page_step; try (unfold PAGE_SIZE in *; lia).
  split; [done|]. intros v Hv. rewrite C2, C1, in_range_page by done. change (S n) with (1 + n)%nat. rewrite in_range_app.
  change (va + Z.of_nat 1 * PAGE_SIZE) with (va + 1 * PAGE_SIZE). rewrite Z.mul_1_l. by destruct (in_range va 1 v), (in_range (va + PAGE_SIZE) n v).
Qed.

(** Pages [p .. p + n - 1] are new; on failure pages [0 .. p - 1] are removed too. *)
Lemma map_new_pages_cell root va flags n : forall st p st' ok,
  space_inv st root -> va mod PAGE_SIZE = 0 -> 0 <= va -> 0 <= p -> va + (p + Z.of_nat n) * PAGE_SIZE <= USER_VA_LIMIT ->
  map_new_pages st root va flags p n = (st', ok) ->
  space_inv st' root /\
  (ok = true -> forall v, user_addr v -> in_range (va + p * PAGE_SIZE) n v = true -> cell st root v = None) /\
  forall v, user_addr v -> cell st' root v =
    if ok then (if in_range (va + p * PAGE_SIZE) n v then Some (Z.land flags PROT, 0) else cell st root v)
    else if in_range va (Z.to_nat p) v then None else cell st root v.
Proof.
  induction n as [|n IH]; intros st p st' ok Hs Ha H0 Hp Hl; cbn [map_new_pages].
  { intros [= <- <-]. split; [done|]. split; [intros _ v _; by rewrite in_range_0|]. intros v _. by rewrite in_range_0. }
  assert (Hal : (va + p * PAGE_SIZE) mod PAGE_SIZE = 0) by (rewrite Z.mod_add by done; done).
  assert (Hu : user_addr (va + p * PAGE_SIZE)) by (unfold user_addr, PAGE_SIZE in *; lia).
  rewrite u64_small by (unfold USER_VA_LIMIT, PAGE_SIZE in *; lia).
  destruct (map_new_page st root (va + p * PAGE_SIZE) flags) as [st1 ok1] eqn:E1.
  destruct (map_new_page_cell st root _ flags st1 ok1 Hs Hu Hal E1) as (S1 & N1 & C1). destruct ok1; cbn [andb] in C1.
  - intros E. destruct (IH st1 (p + 1) st' ok) as (S2 & N2 & C2); try done; try (unfold PAGE_SIZE in *; lia).
    replace (va + (p + 1) * PAGE_SIZE) with (va + p * PAGE_SIZE + Z.of_nat 1 * PAGE_SIZE) in N2, C2 by lia.
    assert (Hpage : forall v, user_addr v -> in_range (va + p * PAGE_SIZE) 1 v = true -> cell st root v = None).
    { intros v Hv Hr. rewrite <-in_range_page, Z.eqb_eq in Hr by done.
      destruct (cell st root v) eqn:Ec; [|done]. exfalso.
      assert (Hm : view st root v <> None) by (apply cell_view; by rewrite Ec). apply Hm.
      unfold view. unfold user_addr in *. rewrite (page_flags_same st root v (va + p * PAGE_SIZE)) by lia.
      pose proof (N1 eq_refl) as Hn. unfold cell, view in Hn. by destruct (has _ _). }
    split; [done|]. split.
    + intros -> v Hv. change (S n) with (1 + n)%nat. rewrite in_range_app. destruct (in_range (va + p * PAGE_SIZE) 1 v) eqn:Er; cbn [orb].
      * intros _. by apply Hpage.
      * intros Hr. specialize (N2 eq_refl v Hv Hr). by rewrite C1, Er in N2 by done.
    + intros v Hv. rewrite C2, C1 by done. change (S n) with (1 + n)%nat. rewrite in_range_app. destruct ok.
      * by destruct (in_range (va + p * PAGE_SIZE) 1 v), (in_range (va + p * PAGE_SIZE + Z.of_nat 1 * PAGE_SIZE) n v).
      * replace (Z.to_nat (p + 1)) with (Z.to_nat p + 1)%nat by lia. rewrite in_range_app, Z2Nat.id by lia.
        destruct (in_range va (Z.to_nat p) v); cbn [orb]; [done|]. destruct (in_range (va + p * PAGE_SIZE) 1 v) eqn:Er; [|done].
        symmetry. by apply Hpage.
  - intros [= <- <-]. destruct (unmap_pages_cell root true (Z.to_nat p) st1 va) as [S2 C2]; auto.
    { rewrite Z2Nat.id by lia. unfold PAGE_SIZE in *. lia. }
    split; [done|]. split; [done|]. intros v Hv. by rewrite C2, C1.
Qed.

(** ** Finding room *)

Lemma page_up_eq x : 0 <= x -> x + PAGE_SIZE < 2 ^ 64 ->
  page_up x mod PAGE_SIZE = 0 /\ x <= page_up x < x + PAGE_SIZE.
Proof.
  intros H0 H1. unfold page_up. rewrite u64_small by (unfold PAGE_SIZE in *; lia).
  change (PAGE_SIZE - 1) with (2 ^ 12 - 1). rewrite land_clear_low by (unfold fits, PAGE_SIZE in *; lia).
  change (2 ^ 12) with PAGE_SIZE. unfold PAGE_SIZE in *. Z.to_euclidean_division_equations; lia.
Qed.

(** The search ends: at a page boundary from [start] on where the pages are free, or
    past the last place they could be. *)
Lemma find_base_spec st root pages start :
  0 < pages -> start mod PAGE_SIZE = 0 -> 0 <= start <= USER_VA_LIMIT ->
  let b := find_base st root pages (pages * PAGE_SIZE) start in
  b mod PAGE_SIZE = 0 /\ start <= b <= USER_VA_LIMIT /\
  (out_of_room b (pages * PAGE_SIZE) = true \/ range_clear st root b (Z.to_nat pages) = true).
Proof.
  intros Hp Ha Hs. cbn zeta. unfold find_base.
  destruct (iterate_stops (try_base st root pages (pages * PAGE_SIZE))
    (fun b => b mod PAGE_SIZE = 0 /\ start <= b <= USER_VA_LIMIT) (fun b => (USER_VA_LIMIT - b) / PAGE_SIZE)) with (d := 36%nat) (s := start)
    as (b & r & -> & [Hb1 Hb2] & Hr).
  - intros b b' [Hb1 Hb2]. unfold try_base. split_if E1; [done|]. split_if E2; [done|]. intros E. injection E as <-.
    rewrite negb_false_iff, andb_true_iff, Z.ltb_lt, Z.leb_le in E1.
    rewrite u64_small by (unfold USER_VA_LIMIT, PAGE_SIZE in *; lia). rewrite Z.mod_add by done.
    split; [split; [done|unfold PAGE_SIZE in *; lia]|]. unfold PAGE_SIZE in *. Z.to_euclidean_division_equations; lia.
  - split; [done|lia].
  - unfold USER_VA_LIMIT, PAGE_SIZE in *. Z.to_euclidean_division_equations; lia.
  - revert Hr. unfold try_base, out_of_room. split_if E1.
    + intros E. injection E as <-. split; [done|]. split; [done|]. left. revert E1.
      rewrite negb_true_iff, andb_false_iff, orb_true_iff, Z.ltb_ge, Z.leb_gt, Z.leb_le, Z.ltb_lt. done.
    + split_if E2; [|done]. intros E. injection E as <-. split; [done|]. split; [done|by right].
Qed.

Lemma room_bound b m : out_of_room b m = false -> b + m <= USER_VA_LIMIT.
Proof. unfold out_of_room. intros [_ H]%orb_false_iff. apply Z.ltb_ge in H. lia. Qed.

Lemma page_flags_prot prot : Z.land (page_flags_of prot) PROT = page_flags_of prot.
Proof. unfold page_flags_of. cbn zeta. by destruct (has prot 2), (has prot 4). Qed.

(** ** The call *)

Context {W : Type} `{PE : !ProcEnv A W}.
Implicit Types s : sys A W.

Lemma this_upd s f : 0 <= cur s < Z.of_nat (length (procs s)) -> this (upd_this s f) = f (this s).
Proof. intros H. exact (proc_upd_eq s (cur s) f H). Qed.

(** What a successful call gives: [n] pages of zeros at [r]. *)
Record mapped s (size prot : Z) s' (r : Z) (n : nat) (slot : Z) : Prop := Mapped {
  mp_aligned : r mod PAGE_SIZE = 0;
  mp_range : PROCESS_VM_BASE <= r /\ r + Z.of_nat n * PAGE_SIZE <= USER_VA_LIMIT;
  mp_size : size <= Z.of_nat n * PAGE_SIZE < size + PAGE_SIZE;
  mp_wx : has prot 2 && has prot 4 = false;
  mp_free v : user_addr v -> in_range r n v = true -> cell (machine s) (this_pml4 s) v = None;
  mp_cells v : user_addr v -> cell (machine s') (this_pml4 s) v =
    if in_range r n v then Some (page_flags_of prot, 0) else cell (machine s) (this_pml4 s) v;
  mp_slot : 0 <= slot < MAX_VM_REGIONS_PER_PROCESS /\ active (region_at (this s) slot) = false;
  mp_process : this s' = set_vm_next_base (r + Z.of_nat n * PAGE_SIZE)
    (set_region slot (VmRegion r (Z.of_nat n * PAGE_SIZE) prot true 0 0 true) (this s))
}.

(** C15. Asking for memory is all or nothing.  On success the process has, at a page
    boundary inside the user half and past its earlier mappings, enough pages, which were
    free, all zero, with the protection asked for (never writable and executable), every
    other page as it was, and a region that records them; otherwise the result is 0 and no page of the space and no
    process has changed.  The search for a place always ends, no frame is shared and no
    other process is touched. *)
Theorem process_vm_map_correct s size prot s' r :
  active_proc s = true -> length (procs s) = 16%nat -> space_inv (machine s) (this_pml4 s) ->
  PROCESS_VM_BASE <= vm_next_base (this s) <= USER_VA_LIMIT -> 0 <= size ->
  process_vm_map s size prot = (s', r) ->
  space_inv (machine s') (this_pml4 s) /\ touches (cur s) s s' /\
  ((r = 0 /\ procs s' = procs s /\ forall v, user_addr v -> cell (machine s') (this_pml4 s) v = cell (machine s) (this_pml4 s) v) \/
   exists n slot, mapped s size prot s' r n slot).
Proof.
  intros Hact Hlen Hs Hnext Hsize. unfold process_vm_map. rewrite Hact. cbn [negb orb].
  assert (N : forall s'' x, (s, 0) = (s'', x) -> space_inv (machine s'') (this_pml4 s) /\ touches (cur s) s s'' /\
    ((x = 0 /\ procs s'' = procs s /\ forall v, user_addr v -> cell (machine s'') (this_pml4 s) v = cell (machine s) (this_pml4 s) v) \/
     exists n slot, mapped s size prot s'' x n slot)).
  { intros s'' x E. injection E as <- <-. split; [done|]. split; [reflexivity|by left]. }
  split_if E1; [apply N|]. split_if E2; [apply N|]. cbn zeta. split_if E3; [apply N|].
  destruct (free_region (this s)) as [slot|] eqn:Hslot; [|apply N].
  rewrite orb_false_iff, Z.eqb_neq, Z.ltb_ge in E1. destruct E1 as [E1 E1']. unfold bad_protection in E2. apply orb_false_iff in E2 as [_ E2].
  set (pages := (size + PAGE_SIZE - 1) / PAGE_SIZE) in *.
  assert (Hpages : 0 < pages /\ size <= pages * PAGE_SIZE < size + PAGE_SIZE).
  { unfold pages, PAGE_SIZE. Z.to_euclidean_division_equations; lia. }
  destruct (page_up_eq (vm_next_base (this s))) as [U1 U2]; [unfold PROCESS_VM_BASE in *; lia|unfold USER_VA_LIMIT, PAGE_SIZE in *; lia|].
  assert (U3 : page_up (vm_next_base (this s)) <= USER_VA_LIMIT).
  { unfold USER_VA_LIMIT, PAGE_SIZE in *. Z.to_euclidean_division_equations; lia. }
  destruct (find_base_spec (machine s) (this_pml4 s) pages (page_up (vm_next_base (this s)))) as (B1 & B2 & _);
    [lia|done|unfold PROCESS_VM_BASE in *; lia|].
  set (b := find_base _ _ _ _ _) in *. clearbody b. split_if E4; [apply N|].
  pose proof (room_bound _ _ E4) as Hroom.
  destruct (map_new_pages (machine s) (this_pml4 s) b (page_flags_of prot) 0 (Z.to_nat pages)) as [m ok] eqn:Em.
  destruct (map_new_pages_cell (this_pml4 s) b (page_flags_of prot) (Z.to_nat pages) (machine s) 0 m ok) as (S1 & F1 & C1);
    try done; try (unfold PROCESS_VM_BASE in *; lia). rewrite Z.mul_0_l, Z.add_0_r in F1, C1.
  destruct ok; cbn [negb]; intros E; injection E as <- <-.
  - assert (Hcur : 0 <= cur s < Z.of_nat (length (procs s))).
    { unfold active_proc, below, MAX_PROCESSES in Hact. lia. }
    split; [exact S1|]. split.
    { transitivity (set_machine m s); [by constructor|]. unfold upd_this.
      etransitivity; [apply (touches_upd (cur s)); lia|]. apply (touches_upd (cur s)). lia. }
    right. exists (Z.to_nat pages), slot. assert (Hn : Z.of_nat (Z.to_nat pages) = pages) by lia.
    constructor; rewrite ?Hn; try done; try (unfold PROCESS_VM_BASE in *; lia).
    + by apply F1.
    + intros v Hv. rewrite <-page_flags_prot at 1. by apply C1.
    + destruct (find_z_Some _ _ _ _ Hslot) as (H1 & H2 & _). apply negb_true_iff in H2.
      split; [unfold MAX_VM_REGIONS_PER_PROCESS in *; lia|done].
    + rewrite u64_small by (unfold PROCESS_VM_BASE, USER_VA_LIMIT in *; lia).
      rewrite !this_upd by (cbn [cur procs upd_this upd set_procs set_machine]; rewrite ?length_insert; done). done.
  - split; [exact S1|]. split; [by constructor|]. left. split; [done|]. split; [done|]. intros v Hv. cbn [machine set_machine].
    rewrite C1 by done. by rewrite in_range_0.
Qed.
End ProcVmSpec.

(** ** An example *)

Module Demo.
#[local] Existing Instance ProcSpec.Demo.no_services.

(** A fresh address space on the example memory, owned by process 0. *)
Definition demo_created : mm pmm * Z := vmm_create_user_pml4 demo_kernel.
Definition demo_sys : sys pmm unit :=
  Sys (Process 0 [] (snd demo_created) 0 0 0 (Credentials 1000 1000 0) PROCESS_STATE_RUNNING no_context (replicate 32 no_thread) 0
         (replicate 2 no_region) PROCESS_VM_BASE 0 0 0 (-1) 0 false 0 :: replicate 15 no_process)
    0 0 (fst demo_created) tt.

Lemma demo_space : space_inv (machine demo_sys) (this_pml4 demo_sys).
Proof.
  destruct (create_space demo_kernel (fst demo_created) (snd demo_created) demo_kernel_tree) as [S _];
    [exact (surjective_pairing demo_created)|vm_compute; discriminate|exact S].
Qed.

Lemma demo_mapping : exists s', process_vm_map demo_sys 5000 3 = (s', PROCESS_VM_BASE).
Proof.
  assert (E : snd (process_vm_map demo_sys 5000 3) = PROCESS_VM_BASE) by (vm_compute; reflexivity).
  exists (fst (process_vm_map demo_sys 5000 3)). rewrite <-E. apply surjective_pairing.
Qed.

(** 5000 bytes of writable memory. *)
Lemma process_vm_map_correct_witness :
  exists s' n slot, process_vm_map demo_sys 5000 3 = (s', PROCESS_VM_BASE) /\ mapped demo_sys 5000 3 s' PROCESS_VM_BASE n slot.
Proof.
  destruct demo_mapping as (s' & E). destruct (process_vm_map_correct demo_sys 5000 3 s' PROCESS_VM_BASE eq_refl eq_refl demo_space
    ltac:(vm_compute; split; discriminate) ltac:(lia) E) as (_ & _ & [(H & _)|(n & slot & H)]); [vm_compute in H; discriminate|].
  exists s', n, slot. split; [exact E|exact H].
Defined.
End Demo.
