(* ===== verification/Vfs.v ===== *)
(** The virtual file system: [kernel/vfs.c].

    A pointer to a node is its index in [g_nodes]; a node's [children] are the first
    [child_count] entries of its array.  Strings are their bytes up to the NUL.  The
    disk file systems, the block devices and the frames behind file data are the
    interface [DiskFs] over their state [W]; a node's [ndata] is the bytes its
    pointer gives access to. *)
From Stdlib Require Import String Ascii.
From S2P Require Import Prelude Pmm Vmm Fd.

Definition VFS_NAME_MAX : Z := 64.
Definition VFS_MAX_CHILDREN : Z := 32.
Definition MAX_NODES : Z := 256.

(** A string literal as its bytes. *)
Definition str (s : string) : path_t := map (fun c => Z.of_N (N_of_ascii c)) (list_ascii_of_string s).

Record vfs_node := VfsNode {
  name : path_t; is_dir : bool; size : Z; ndata : option (list Z); parent : Z; children : list Z;
  is_fat32 : bool; fat_cluster : Z; fat_populated : bool;
  is_iso9660 : bool; iso_lba : Z; iso_populated : bool
}.

Definition no_node : vfs_node := VfsNode [] false 0 None 0 [] false 0 false false 0 false.

(** Entries the disk file systems report: name, directory flag, size, first block. *)
Record disk_entry := DiskEntry { d_name : path_t; d_is_dir : bool; d_size : Z; d_first : Z }.

Record block_info := BlockInfo { writable : bool; block_size : Z; block_count : Z }.

Class DiskFs (W : Type) := {
  block_devices : W -> list block_info;
  fat32_init : W -> W * bool;
  fat32_root_cluster : W -> Z;
  fat32_list_dir : W -> Z -> list disk_entry;
  fat32_read_file : W -> Z -> Z -> Z -> Z * list Z;
  fat32_write_file : W -> Z -> path_t -> list Z -> W * bool;
  fat32_make_dir : W -> Z -> path_t -> W * bool;
  fat32_delete_file : W -> Z -> path_t -> W * bool;
  fat32_rename_file : W -> Z -> path_t -> path_t -> W * bool;
  fat32_get_stats : W -> Z * Z * Z;
  iso9660_init : W -> W * bool;
  iso9660_primary_info : W -> Z * Z * Z;
  iso9660_list_dir : W -> Z -> Z -> list disk_entry;
  iso9660_read_file_offset : W -> Z -> Z -> Z -> Z -> Z * list Z
}.

(** ** Strings *)

Definition str_copy (src : path_t) (max : Z) : path_t := take (Z.to_nat (max - 1)) src.
Definition str_eq (a b : path_t) : bool := bool_decide (a = b).
Definition lower (c : Z) : Z := if (65 <=? c) && (c <=? 90) then c + 32 else c.
Definition str_eq_ci (a b : path_t) : bool := bool_decide (map lower a = map lower b).
Definition is_sep (c : Z) : bool := (c =? 47) || (c =? 92).

(** The position of the last separator. *)
Fixpoint last_sep (p : path_t) : option Z :=
  match p with
  | [] => None
  | c :: p =>
      match last_sep p with
      | Some i => Some (i + 1)
      | None => if is_sep c then Some 0 else None
      end
  end.

(** [basename_copy]: the last component, trailing separators ignored, cut to [cap]. *)
Fixpoint drop_seps (p : path_t) : path_t :=
  match p with c :: p' => if is_sep c then drop_seps p' else p | [] => [] end.
Fixpoint take_name (p : path_t) : path_t :=
  match p with c :: p' => if is_sep c then [] else c :: take_name p' | [] => [] end.
Definition basename_copy (p : path_t) (cap : Z) : path_t :=
  str_copy (rev (take_name (drop_seps (rev p)))) cap.

(** ** The state *)

Record vfs (W : Type) := Vfs {
  nodes : list vfs_node; g_root : option Z; fat32_available : bool; iso9660_available : bool; disk : W
}.
Arguments Vfs {W}.
Arguments nodes {W}.
Arguments g_root {W}.
Arguments fat32_available {W}.
Arguments iso9660_available {W}.
Arguments disk {W}.

Section Vfs.
Context {W : Type} `{DF : DiskFs W, FA : FrameAllocator W}.
Implicit Types s : vfs W.

Definition node s (i : Z) : vfs_node := at_z no_node (nodes s) i.
Definition set_nodes (ns : list vfs_node) s : vfs W := Vfs ns (g_root s) (fat32_available s) (iso9660_available s) (disk s).
Definition set_disk (w : W) s : vfs W := Vfs (nodes s) (g_root s) (fat32_available s) (iso9660_available s) w.
Definition upd_node (i : Z) (f : vfs_node -> vfs_node) s : vfs W := set_nodes (<[Z.to_nat i := f (node s i)]> (nodes s)) s.

Definition set_children (cs : list Z) (n : vfs_node) : vfs_node :=
  VfsNode (name n) (is_dir n) (size n) (ndata n) (parent n) cs (is_fat32 n) (fat_cluster n) (fat_populated n)
    (is_iso9660 n) (iso_lba n) (iso_populated n).
Definition set_content (d : option (list Z)) (sz : Z) (n : vfs_node) : vfs_node :=
  VfsNode (name n) (is_dir n) sz d (parent n) (children n) (is_fat32 n) (fat_cluster n) (fat_populated n)
    (is_iso9660 n) (iso_lba n) (iso_populated n).
Definition set_name (nm : path_t) (n : vfs_node) : vfs_node :=
  VfsNode nm (is_dir n) (size n) (ndata n) (parent n) (children n) (is_fat32 n) (fat_cluster n) (fat_populated n)
    (is_iso9660 n) (iso_lba n) (iso_populated n).
Definition set_fat (b : bool) (c : Z) (pop : bool) (n : vfs_node) : vfs_node :=
  VfsNode (name n) (is_dir n) (size n) (ndata n) (parent n) (children n) b c pop
    (is_iso9660 n) (iso_lba n) (iso_populated n).
Definition set_iso (b : bool) (l : Z) (pop : bool) (n : vfs_node) : vfs_node :=
  VfsNode (name n) (is_dir n) (size n) (ndata n) (parent n) (children n) (is_fat32 n) (fat_cluster n) (fat_populated n)
    b l pop.

(** [alloc_node]: a full parent silently gets no new child. *)
Definition alloc_node s (nm : path_t) (dir : bool) (sz : Z) (d : option (list Z)) (par : option Z) : vfs W * option Z :=
  let i := Z.of_nat (length (nodes s)) in
  if MAX_NODES <=? i then (s, None)
  else
    let s := set_nodes (nodes s ++ [VfsNode (str_copy nm VFS_NAME_MAX) dir sz d (default i par) [] false 0 false false 0 false]) s in
    match par with
    | Some p =>
        if Z.of_nat (length (children (node s p))) <? VFS_MAX_CHILDREN
        then (upd_node p (fun n => set_children (children n ++ [i]) n) s, Some i) else (s, Some i)
    | None => (s, Some i)
    end.

(** The loops that add the entries of a disk directory, marking each new node. *)
Fixpoint add_entries (es : list disk_entry) (mark : disk_entry -> vfs_node -> vfs_node) (dir : Z) s : vfs W :=
  match es with
  | [] => s
  | e :: es =>
      if Z.of_nat (length (children (node s dir))) <? VFS_MAX_CHILDREN then
        let '(s, child) := alloc_node s (d_name e) (d_is_dir e) (d_size e) None (Some dir) in
        let s := match child with Some c => upd_node c (mark e) s | None => s end in
        add_entries es mark dir s
      else s
  end.

Definition listed (es : list disk_entry) : list disk_entry := take (Z.to_nat VFS_MAX_CHILDREN) es.

Definition populate_fat32_node s (dir : Z) : vfs W :=
  let n := node s dir in
  if negb (is_fat32 n) || fat_populated n then s
  else
    let s := upd_node dir (fun n => set_children [] (set_fat (is_fat32 n) (fat_cluster n) true n)) s in
    add_entries (listed (fat32_list_dir (disk s) (fat_cluster n))) (fun e => set_fat true (d_first e) false) dir s.

Definition populate_iso9660_node s (dir : Z) : vfs W :=
  let n := node s dir in
  if negb (is_iso9660 n) || iso_populated n then s
  else
    let s := upd_node dir (fun n => set_children [] (set_iso (is_iso9660 n) (iso_lba n) true n)) s in
    add_entries (listed (iso9660_list_dir (disk s) (iso_lba n) (size n))) (fun e => set_iso true (d_first e) false) dir s.

(** ** Path resolution *)

(** One component: up to a separator, at most [VFS_NAME_MAX - 1] bytes; a separator
    behind it is skipped. *)
Fixpoint component (max : nat) (p : path_t) : path_t * path_t :=
  match p, max with
  | [], _ => ([], [])
  | _, O => ([], p)
  | c :: p', S max =>
      if is_sep c then ([], p) else let '(comp, rest) := component max p' in (c :: comp, rest)
  end.

Definition skip_sep (p : path_t) : path_t := match p with c :: p' => if is_sep c then p' else p | [] => [] end.

Definition matches (s : vfs W) (curr : Z) (comp : path_t) (k : Z) : bool :=
  let nm := name (node s k) in
  str_eq nm comp || (is_iso9660 (node s curr) && str_eq_ci nm comp) ||
  (str_eq comp (str "c") && str_eq nm (str "hdd")) || (str_eq comp (str "hdd") && str_eq nm (str "c")).

Definition find_child (s : vfs W) (curr : Z) (comp : path_t) : option Z :=
  List.find (matches s curr comp) (children (node s curr)).

Definition child_named (s : vfs W) (dir : Z) (nm : path_t) : option Z :=
  List.find (fun k => str_eq (name (node s k)) nm) (children (node s dir)).

(** [/boot] falls back to the compact disc. *)
Definition find_boot s (root : Z) : vfs W * option Z :=
  match child_named s root (str "cdrom") with
  | None => (s, None)
  | Some cd =>
      let s := populate_iso9660_node s cd in
      (s, List.find (fun k => str_eq_ci (name (node s k)) (str "boot")) (children (node s cd)))
  end.

(** One step of the walk. *)
Definition walk_one s (root curr : Z) (comp : path_t) : vfs W * option Z :=
  if str_eq comp (str ".") then (s, Some curr)
  else if str_eq comp (str "..") then (s, Some (parent (node s curr)))
  else
    let s := populate_fat32_node s curr in
    let s := populate_iso9660_node s curr in
    match find_child s curr comp with
    | Some k => (s, Some k)
    | None => if (curr =? root) && str_eq comp (str "boot") then find_boot s root else (s, None)
    end.

Fixpoint walk_path (fuel : nat) s (root curr : Z) (p : path_t) : vfs W * option Z :=
  match fuel, p with
  | _, [] => (s, Some curr)
  | O, _ => (s, None)
  | S fuel, _ =>
      let '(comp, rest) := component (Z.to_nat (VFS_NAME_MAX - 1)) p in
      match walk_one s root curr comp with
      | (s, Some k) => walk_path fuel s root k (skip_sep rest)
      | (s, None) => (s, None)
      end
  end.

(** The leading separator and drive letter are skipped. *)
Definition skip_drive (p : path_t) : path_t :=
  match p with
  | c :: 58 :: p' => if (c =? 67) || (c =? 99) then skip_sep p' else p
  | _ => p
  end.

Definition find_node_by_path s (path : option path_t) : vfs W * option Z :=
  match path, g_root s with
  | Some path, Some root =>
      if bool_decide (path = []) || str_eq path [47] || str_eq path [92] then (s, Some root)
      else
        let p := skip_drive (skip_sep path) in
        if bool_decide (p = [])
        then (s, Some (default root (child_named s root (str "c"))))
        else walk_path (length p) s root root p
  | _, _ => (s, None)
  end.

(** ** Operations *)

Definition populate s (i : Z) : vfs W := populate_iso9660_node (populate_fat32_node s i) i.

Definition vfs_list s (path : option path_t) (null : bool) (max_entries : Z) : vfs W * Z * list dirent :=
  if null || (max_entries <=? 0) then (s, 0, [])
  else
    match find_node_by_path s path with
    | (s, None) => (s, -1, [])
    | (s, Some i) =>
        if negb (is_dir (node s i)) then (s, -1, [])
        else
          let s := populate s i in
          let cs := take (Z.to_nat max_entries) (children (node s i)) in
          (s, Z.of_nat (length cs),
           map (fun k => let c := node s k in Dirent (str_copy (name c) VFS_NAME_MAX) (size c) (is_dir c)) cs)
    end.

Definition vfs_read_at s (path : option path_t) (offset : Z) (null : bool) (max_bytes : Z) : vfs W * Z * list Z :=
  if null || (max_bytes <=? 0) then (s, -1, [])
  else
    match find_node_by_path s path with
    | (s, None) => (s, -2, [])
    | (s, Some i) =>
        let n := node s i in
        if is_dir n then (s, -2, [])
        else if is_fat32 n then
          let '(rc, out) := fat32_read_file (disk s) (fat_cluster n) (size n) max_bytes in (s, rc, out)
        else if is_iso9660 n then
          let '(rc, out) := iso9660_read_file_offset (disk s) (iso_lba n) (size n) offset max_bytes in (s, rc, out)
        else
          match ndata n with
          | None => (s, 0, [])
          | Some d =>
              if size n <=? offset then (s, 0, [])
              else
                let to_copy := Z.min (i32 (size n - offset)) max_bytes in
                (s, to_copy, take (Z.to_nat to_copy) (drop (Z.to_nat offset) d))
          end
    end.

Definition vfs_read s (path : option path_t) (null : bool) (max_bytes : Z) : vfs W * Z * list Z :=
  vfs_read_at s path 0 null max_bytes.

(** Zeroed frames for [bytes] bytes. *)
Definition alloc_data s (bytes : Z) : vfs W * option (list Z) :=
  let pages := (bytes + PAGE_SIZE - 1) / PAGE_SIZE in
  let n := if pages =? 0 then 1 else pages in
  let '(w, phys) := fa_alloc_pages (disk s) n in
  (set_disk w s, if phys =? 0 then None else Some (replicate (Z.to_nat (n * PAGE_SIZE)) 0)).

(** [for (i = 0; i < bytes; i++) dst[i] = buffer[i]] *)
Definition overwrite (dst bytes : list Z) : list Z := bytes ++ drop (length bytes) dst.

(** A write that goes through the FAT directory [dir]. *)
Definition write_fat s (dir : Z) (path : path_t) (bytes : list Z) (err : Z) : vfs W * Z :=
  let '(w, ok) := fat32_write_file (disk s) (fat_cluster (node s dir)) (basename_copy path VFS_NAME_MAX) bytes in
  let s := set_disk w s in
  if negb ok then (s, err)
  else
    let s := upd_node dir (fun n => set_fat (is_fat32 n) (fat_cluster n) false n) s in
    (populate_fat32_node s dir, Z.of_nat (length bytes)).

Definition write_memory s (i : Z) (bytes : list Z) : vfs W * Z :=
  let n := node s i in
  let len := Z.of_nat (length bytes) in
  let store d s := (upd_node i (set_content (Some (overwrite d bytes)) len) s, len) in
  match ndata n with
  | Some d =>
      if size n <? len then
        match alloc_data s len with
        | (s, None) => (s, -5)
        | (s, Some d) => store d s
        end
      else store d s
  | None =>
      match alloc_data s len with
      | (s, None) => (s, -5)
      | (s, Some d) => store d s
      end
  end.

Definition write_new s (path : path_t) (bytes : list Z) : vfs W * Z :=
  let slash := default (-1) (last_sep path) in
  if slash <? 1 then (s, -6)
  else if VFS_NAME_MAX <=? slash then (s, -6)
  else
    match find_node_by_path s (Some (take (Z.to_nat slash) path)) with
    | (s, None) => (s, -7)
    | (s, Some p) =>
        if is_fat32 (node s p) then write_fat s p path bytes (-8)
        else
          match alloc_data s (Z.of_nat (length bytes)) with
          | (s, None) => (s, -8)
          | (s, Some d) =>
              let len := Z.of_nat (length bytes) in
              match alloc_node s (basename_copy path VFS_NAME_MAX) false len (Some (overwrite d bytes)) (Some p) with
              | (s, None) => (s, -9)
              | (s, Some _) => (s, len)
              end
          end
    end.

Definition vfs_write s (path : option path_t) (buffer : option (list Z)) : vfs W * Z :=
  match path, buffer with
  | Some path, Some bytes =>
      match find_node_by_path s (Some path) with
      | (s, Some i) =>
          let n := node s i in
          if is_dir n then (s, -2)
          else if is_fat32 n then
            if negb (is_fat32 (node s (parent n))) then (s, -3) else write_fat s (parent n) path bytes (-4)
          else if negb (is_iso9660 n) then write_memory s i bytes
          else write_new s path bytes
      | (s, None) => write_new s path bytes
      end
  | _, _ => (s, -1)
  end.

Definition vfs_stat s (path : option path_t) : vfs W * option (Z * bool) :=
  match find_node_by_path s path with
  | (s, None) => (s, None)
  | (s, Some i) => (s, Some (size (node s i), is_dir (node s i)))
  end.

(** The parent part of a path is copied into [char parent_path[VFS_NAME_MAX]]
    without a bound: there is no answer when it does not fit. *)
Definition vfs_mkdir s (path : option path_t) : option (vfs W * Z) :=
  match path with
  | None | Some [] => Some (s, -1)
  | Some path =>
      if Z.of_nat (length path) <=? 1 then Some (s, -1)
      else
        match last_sep path with
        | None => Some (s, -1)
        | Some slash =>
            let new_name := drop (Z.to_nat (slash + 1)) path in
            if bool_decide (new_name = []) then Some (s, -1)
            else if (0 <? slash) && (VFS_NAME_MAX <=? slash) then None
            else
              let parent_path := if slash =? 0 then [47] else take (Z.to_nat slash) path in
              Some
                match find_node_by_path s (Some parent_path) with
                | (s, None) => (s, -2)
                | (s, Some p) =>
                    if negb (is_dir (node s p)) then (s, -2)
                    else
                      match child_named s p new_name with
                      | Some _ => (s, -3)
                      | None =>
                          let '(s, ok) :=
                            if is_fat32 (node s p) then
                              let '(w, ok) := fat32_make_dir (disk s) (fat_cluster (node s p)) new_name in (set_disk w s, ok)
                            else (s, true) in
                          if negb ok then (s, -4)
                          else
                            match alloc_node s new_name true 0 None (Some p) with
                            | (s, None) => (s, -5)
                            | (s, Some k) =>
                                let fat := is_fat32 (node s p) in
                                let s := upd_node k (fun n => set_fat fat (fat_cluster n) (fat_populated n) n) s in
                                let found := List.find (fun e => str_eq (d_name e) new_name)
                                               (listed (fat32_list_dir (disk s) (fat_cluster (node s p)))) in
                                (match found with
                                 | Some e => if fat then upd_node k (fun n => set_fat (is_fat32 n) (d_first e) (fat_populated n) n) s else s
                                 | None => s
                                 end, 0)
                            end
                      end
                end
        end
  end.

Definition vfs_delete s (path : option path_t) : vfs W * Z :=
  match path with
  | None => (s, -1)
  | Some p =>
      if str_eq p [47] || str_eq p [92] then (s, -1)
      else
        match find_node_by_path s (Some p) with
        | (s, None) => (s, -2)
        | (s, Some i) =>
            if bool_decide (g_root s = Some i) then (s, -2)
            else
              let par := parent (node s i) in
              let '(s, ok) :=
                if is_fat32 (node s i) then
                  let '(w, ok) := fat32_delete_file (disk s) (fat_cluster (node s par)) (name (node s i)) in (set_disk w s, ok)
                else (s, true) in
              if negb ok then (s, -6)
              else
                match list_find (fun k => k = i) (children (node s par)) with
                | None => (s, -4)
                | Some (j, _) => (upd_node par (fun n => set_children (remove_at j (children n)) n) s, 0)
                end
        end
  end.

(** The directory part of a path for [vfs_rename]. *)
Definition dir_part (p : path_t) (slash : Z) : path_t := if slash =? 0 then [47] else take (Z.to_nat slash) p.

Definition vfs_rename s (old_path new_path : option path_t) : vfs W * Z :=
  match old_path, new_path with
  | Some op, Some np =>
      match find_node_by_path s (Some np) with
      | (s, Some _) => (s, -1)
      | (s, None) =>
          match find_node_by_path s (Some op) with
          | (s, None) => (s, -2)
          | (s, Some i) =>
              if bool_decide (g_root s = Some i) then (s, -2)
              else
                let os := default (-1) (last_sep op) in
                let ns := default (-1) (last_sep np) in
                if (os <? 0) || (ns <? 0) || (VFS_NAME_MAX <=? os) || (VFS_NAME_MAX <=? ns) then (s, -3)
                else if negb (str_eq (dir_part op os) (dir_part np ns)) then (s, -4)
                else
                  let new_name := basename_copy np VFS_NAME_MAX in
                  if bool_decide (new_name = []) then (s, -5)
                  else
                    let '(s, ok) :=
                      if is_fat32 (node s i) then
                        let '(w, ok) := fat32_rename_file (disk s) (fat_cluster (node s (parent (node s i))))
                                          (name (node s i)) new_name in (set_disk w s, ok)
                      else (s, true) in
                    if negb ok then (s, -6) else (upd_node i (set_name (str_copy new_name VFS_NAME_MAX)) s, 0)
          end
      end
  | _, _ => (s, -1)
  end.

Definition vfs_get_disk_stats s : Z * Z * Z :=
  if fat32_available s then fat32_get_stats (disk s)
  else
    match List.find writable (block_devices (disk s)) with
    | Some d => let bytes := u64 (block_count d * block_size d) in (1, bytes, bytes)
    | None =>
        if iso9660_available s then let '(_, _, total) := iso9660_primary_info (disk s) in (1, total, 0) else (0, 0, 0)
    end.

(** ** Mounting *)

Definition mount_hdd s (root : Z) : vfs W :=
  let present := existsb (fun d => writable d && (block_size d =? 512)) (block_devices (disk s)) in
  if negb present then s
  else
    let existing := List.find (fun k => str_eq (name (node s k)) (str "hdd") || str_eq (name (node s k)) (str "c"))
                      (children (node s root)) in
    let '(s, hdd) := match existing with Some k => (s, Some k) | None => alloc_node s (str "hdd") true 0 None (Some root) end in
    match hdd with
    | None => s
    | Some k =>
        let s := upd_node k (fun n => set_children [] (set_name (str "hdd") n)) s in
        let '(w, ok) := fat32_init (disk s) in
        let s := Vfs (nodes s) (g_root s) ok (iso9660_available s) w in
        if ok then populate_fat32_node (upd_node k (set_fat true (fat32_root_cluster (disk s)) false) s) k
        else upd_node k (fun n => set_fat false (fat_cluster n) true n) s
    end.

Definition mount_cdrom s (root : Z) : vfs W :=
  let '(w, ok) := iso9660_init (disk s) in
  let s := Vfs (nodes s) (g_root s) (fat32_available s) ok w in
  let existing := child_named s root (str "cdrom") in
  if ok then
    let '(lba, sz, _) := iso9660_primary_info (disk s) in
    let '(s, cd) := match existing with Some k => (s, Some k) | None => alloc_node s (str "cdrom") true 0 None (Some root) end in
    match cd with
    | None => s
    | Some k =>
        let s := upd_node k (fun n => set_content (ndata n) sz (set_iso true lba false (set_children [] n))) s in
        populate_iso9660_node s k
    end
  else
    match existing with
    | Some k => upd_node k (fun n => set_iso (is_iso9660 n) (iso_lba n) true (set_children [] n)) s
    | None => s
    end.

Definition vfs_rescan_drives s : vfs W :=
  match g_root s with
  | None => s
  | Some root => mount_cdrom (mount_hdd s root) root
  end.

(** The images the linker embeds, by name. *)
Definition app_names : list string :=
  ["notepad.kea"; "explorer.kea"; "taskmgr.kea"; "paint.kea"; "shell.kea"; "settings.kea"; "about.kea"; "browser.kea"; "installer.kea"]%string.
Definition icon_names : list string :=
  ["settings.ico"; "picture.ico"; "file.ico"; "folder.ico"; "explorer.ico"; "terminal.ico"; "taskmgr.ico"; "browser.ico";
   "installer.ico"; "notepad.ico"; "paint.ico"; "doom.ico"]%string.
Definition bin_files : list (string * Z) := [("notepad.elf", 16384); ("explorer.elf", 32768); ("calc.elf", 12288)]%string.

Definition vfs_add_resource (resource : string -> option (list Z)) (dir : option Z) s (nm : string) : vfs W :=
  match dir, resource nm with
  | Some _, Some d => fst (alloc_node s (str nm) false (u32 (Z.of_nat (length d))) (Some d) dir)
  | _, _ => s
  end.

Definition vfs_init (resource : string -> option (list Z)) s : vfs W :=
  let s := set_nodes [] s in
  let '(s, root) := alloc_node s [47] true 0 None None in
  let s := Vfs (nodes s) root (fat32_available s) (iso9660_available s) (disk s) in
  let '(s, apps) := alloc_node s (str "apps") true 0 None root in
  let s := foldl (vfs_add_resource resource apps) s app_names in
  let '(s, icons) := alloc_node s (str "icons") true 0 None root in
  let s := foldl (vfs_add_resource resource icons) s icon_names in
  let '(s, bin) := alloc_node s (str "bin") true 0 None root in
  let s := foldl (fun s f => fst (alloc_node s (str (fst f)) false (snd f) None bin)) s bin_files in
  vfs_rescan_drives s.
End Vfs.
