(* ===== verification/VfsSpec.v ===== *)
(** The virtual file system keeps a well-formed tree through every call, resolves a
    path as a lookup in that tree, and reads back what was written; a directory that
    is full loses new files without an error. *)
From Stdlib Require Import String Ascii.
From S2P Require Import Prelude Pmm Vmm Fd Vfs.

(** ** The tree *)

Section Tree.
Context {W : Type} `{DF : DiskFs W, FA : FrameAllocator W}.
Implicit Types s : vfs W.

Definition valid s (i : Z) : Prop := 0 <= i < Z.of_nat (length (nodes s)).

Record node_wf s (i : Z) (n : vfs_node) : Prop := NodeWf {
  nw_parent : valid s (parent n);
  nw_child k : k ∈ children n -> valid s k /\ parent (node s k) = i /\ i < k;
  nw_nodup : NoDup (children n);
  nw_count : Z.of_nat (length (children n)) <= VFS_MAX_CHILDREN;
  nw_data d : is_iso9660 n = false -> ndata n = Some d -> size n <= Z.of_nat (length d)
}.

Record vfs_wf s : Prop := VfsWf {
  vw_count : Z.of_nat (length (nodes s)) <= MAX_NODES;
  vw_root r : g_root s = Some r -> valid s r;
  vw_node i : valid s i -> node_wf s i (node s i)
}.

Lemma node_upd s i f j : valid s i -> valid s j -> node (upd_node i f s) j = if j =? i then f (node s i) else node s j.
Proof. unfold valid. intros Hi Hj. unfold node at 1, upd_node. cbn [nodes set_nodes]. rewrite at_z_insert by lia. done. Qed.

Lemma valid_upd s i f j : valid (upd_node i f s) j <-> valid s j.
Proof. unfold valid, upd_node. cbn [nodes set_nodes]. by rewrite length_insert. Qed.

(** Updates that keep a node's place in the tree. *)
Definition same_place (n n' : vfs_node) : Prop :=
  parent n' = parent n /\ (forall k, k ∈ children n' -> k ∈ children n) /\ NoDup (children n') /\
  (length (children n') <= length (children n))%nat /\
  (forall d, is_iso9660 n' = false -> ndata n' = Some d -> size n' <= Z.of_nat (length d)).

Lemma upd_tree_wf s i f : vfs_wf s -> valid s i -> same_place (node s i) (f (node s i)) -> vfs_wf (upd_node i f s).
Proof.
  intros [H1 H2 H3] Hi (P1 & P2 & P3 & P4 & P5). constructor.
  - unfold upd_node. cbn [nodes set_nodes]. by rewrite length_insert.
  - intros r Hr. apply valid_upd. by apply H2.
  - intros j Hj. rewrite valid_upd in Hj. rewrite node_upd by done.
    assert (Hpar : forall k, valid s k -> parent (node (upd_node i f s) k) = parent (node s k)).
    { intros k Hk. rewrite node_upd by done. by destruct (Z.eqb_spec k i) as [->|]. }
    destruct (Z.eqb_spec j i) as [->|].
    + destruct (H3 i Hi) as [A B C D E]. constructor; auto.
      * rewrite P1. by apply valid_upd.
      * intros k Hk. destruct (B k (P2 k Hk)) as [B1 B2]. split; [by apply valid_upd|]. by rewrite Hpar.
      * lia.
    + destruct (H3 j Hj) as [A B C D E]. constructor; auto.
      * by apply valid_upd.
      * intros k Hk. destruct (B k Hk) as [B1 B2]. split; [by apply valid_upd|]. by rewrite Hpar.
Qed.

Lemma set_disk_wf s w : vfs_wf s -> vfs_wf (set_disk w s).
Proof.
  intros [H1 H2 H3]. constructor; [done|done|]. intros i Hi. destruct (H3 i Hi) as [A B C D E]. by constructor.
Qed.

(** A new node: it is linked into its parent if there is room. *)
Lemma alloc_node_spec s nm dir sz d par s' r :
  vfs_wf s -> (forall p, par = Some p -> valid s p) -> (forall x, d = Some x -> sz <= Z.of_nat (length x)) ->
  alloc_node s nm dir sz d par = (s', r) ->
  vfs_wf s' /\ disk s' = disk s /\ g_root s' = g_root s /\ (length (nodes s) <= length (nodes s'))%nat /\
  (forall j, valid s j -> valid s' j) /\
  match r with
  | None => s' = s
  | Some i => i = Z.of_nat (length (nodes s)) /\ valid s' i /\ children (node s' i) = []
  end.
Proof.
  intros Hw Hp Hd. unfold alloc_node. pose proof Hw as [H1 H2 H3].
  destruct (Z.leb_spec MAX_NODES (Z.of_nat (length (nodes s)))) as [|Hroom].
  { intros [= <- <-]. split_and!; auto. }
  set (i := Z.of_nat (length (nodes s))). set (n := VfsNode _ dir sz d _ [] _ _ _ _ _ _).
  set (s1 := set_nodes (nodes s ++ [n]) s).
  assert (Lv : forall j, valid s j -> valid s1 j).
  { unfold valid, s1. cbn [nodes set_nodes]. intros j Hj. rewrite length_app. cbn. lia. }
  assert (Vi : valid s1 i). { unfold valid, s1, i. cbn [nodes set_nodes]. rewrite length_app. cbn. lia. }
  assert (Old : forall j, valid s j -> node s1 j = node s j).
  { intros j Hj. unfold node, s1, at_z. cbn [nodes set_nodes]. apply app_nth1. unfold valid in Hj. lia. }
  assert (New : node s1 i = n).
  { unfold node, s1, at_z, i. cbn [nodes set_nodes]. rewrite Nat2Z.id, app_nth2 by lia. by rewrite Nat.sub_diag. }
  assert (Split : forall j, valid s1 j -> valid s j \/ j = i).
  { unfold valid, s1, i. cbn [nodes set_nodes]. intros j. rewrite length_app. cbn. lia. }
  assert (W1 : vfs_wf s1).
  { constructor.
    - unfold s1. cbn [nodes set_nodes]. rewrite length_app. cbn. lia.
    - intros r0 Hr0. apply Lv. by apply H2.
    - intros j Hj. destruct (Split j Hj) as [Hj'| ->].
      + rewrite Old by done. destruct (H3 j Hj') as [A B C D E]. constructor; auto.
        intros k Hk. destruct (B k Hk) as [B1 B2]. split; [by apply Lv|]. by rewrite Old.
      + rewrite New. constructor; cbn [parent children ndata size n].
        * destruct par as [p|]; [apply Lv, Hp; reflexivity|exact Vi].
        * intros k Hk. by apply not_elem_of_nil in Hk.
        * apply NoDup_nil_2.
        * cbn. done.
        * intros x _. apply Hd. }
  assert (Hlen : (length (nodes s) <= length (nodes s1))%nat).
  { unfold s1. cbn [nodes set_nodes]. rewrite length_app. lia. }
  destruct par as [p|].
  2:{ intros [= <- <-]. split_and!; auto. by rewrite New. }
  destruct (Z.ltb_spec (Z.of_nat (length (children (node s1 p)))) VFS_MAX_CHILDREN) as [Hc|].
  2:{ intros [= <- <-]. split_and!; auto. by rewrite New. }
  intros [= <- <-]. pose proof (Hp p eq_refl) as Vp. pose proof (Lv p Vp) as Vp1.
  assert (Hpi : p <> i) by (unfold valid, i in *; lia).
  assert (Hpar : forall f k, (forall x, parent (f x) = parent x) -> valid s1 k -> parent (node (upd_node p f s1) k) = parent (node s1 k)).
  { intros f k Hf Hk. rewrite node_upd by done. destruct (Z.eqb_spec k p) as [->|]; [apply Hf|done]. }
  split.
  { pose proof W1 as [A1 A2 A3]. constructor.
    - unfold upd_node. cbn [nodes set_nodes]. by rewrite length_insert.
    - intros r0 Hr0. apply valid_upd, Lv. by apply H2.
    - intros j Hj. rewrite valid_upd in Hj. rewrite node_upd by done. destruct (Z.eqb_spec j p) as [->|].
      + destruct (A3 p Vp1) as [A B C D E]. constructor; cbn [parent children ndata size set_children].
        * by apply valid_upd.
        * intros k Hk. apply elem_of_app in Hk as [Hk|Hk].
          -- destruct (B k Hk) as [B1 B2]. split; [by apply valid_upd|]. by rewrite Hpar.
          -- apply list_elem_of_singleton in Hk as ->. split; [by apply valid_upd|]. rewrite Hpar by done.
             rewrite New. split; [done|]. unfold valid, i in *. lia.
        * apply NoDup_app. split; [done|]. split; [|apply NoDup_singleton]. intros k Hk Hin.
          apply list_elem_of_singleton in Hin as ->. rewrite Old in Hk by done.
          destruct (nw_child _ _ _ (H3 p Vp) i Hk) as [Hv _]. unfold valid, i in Hv. lia.
        * rewrite length_app. rewrite Nat2Z.inj_add; cbn [length]; lia.
        * exact E.
      + destruct (A3 j Hj) as [A B C D E]. constructor; auto.
        * by apply valid_upd.
        * intros k Hk. destruct (B k Hk) as [B1 B2]. split; [by apply valid_upd|]. by rewrite Hpar. }
  split; [done|]. split; [done|]. split; [unfold upd_node; cbn [nodes set_nodes]; by rewrite length_insert|].
  split; [intros j Hj; by apply valid_upd, Lv|]. split; [done|]. split; [by apply valid_upd|].
  rewrite node_upd by done. apply not_eq_sym, Z.eqb_neq in Hpi. by rewrite Hpi, New.
Qed.

(** What every operation does to the tree: it stays well formed and nothing in it
    disappears from the table. *)
Record tree_step s s' : Prop := TreeStep {
  ts_wf : vfs_wf s';
  ts_root : g_root s' = g_root s;
  ts_valid j : valid s j -> valid s' j
}.

Lemma tree_step_refl s : vfs_wf s -> tree_step s s.
Proof. by constructor. Qed.

Lemma tree_step_trans s1 s2 s3 : tree_step s1 s2 -> tree_step s2 s3 -> tree_step s1 s3.
Proof. intros [A1 A2 A3] [B1 B2 B3]. constructor; auto. congruence. Qed.

Lemma upd_step s i f : vfs_wf s -> valid s i -> same_place (node s i) (f (node s i)) -> tree_step s (upd_node i f s).
Proof. intros Hw Hi Hs. constructor; [by apply upd_tree_wf|done|]. intros j Hj. by apply valid_upd. Qed.

Lemma disk_step s w : vfs_wf s -> tree_step s (set_disk w s).
Proof. intros Hw. constructor; [by apply set_disk_wf|done|done]. Qed.

Lemma alloc_step s nm dir sz d par s' r :
  vfs_wf s -> (forall p, par = Some p -> valid s p) -> (forall x, d = Some x -> sz <= Z.of_nat (length x)) ->
  alloc_node s nm dir sz d par = (s', r) -> tree_step s s' /\ forall k, r = Some k -> valid s' k.
Proof.
  intros Hw Hp Hd E. destruct (alloc_node_spec _ _ _ _ _ _ _ _ Hw Hp Hd E) as (A & _ & B & _ & C & D).
  split; [by constructor|]. intros k ->. apply D.
Qed.

Lemma node_of s i : vfs_wf s -> valid s i -> node_wf s i (node s i).
Proof. intros [_ _ H]. apply H. Qed.

(** Updates of flags, names and contents keep a node's place. *)
Lemma keep_place s i n' :
  vfs_wf s -> valid s i -> parent n' = parent (node s i) -> children n' = children (node s i) ->
  (forall d, is_iso9660 n' = false -> ndata n' = Some d -> size n' <= Z.of_nat (length d)) -> same_place (node s i) n'.
Proof.
  intros Hw Hi H1 H2 H3. destruct (node_of s i Hw Hi) as [A B C D E]. unfold same_place. rewrite H1, H2. auto.
Qed.

Lemma clear_place s i n' :
  vfs_wf s -> valid s i -> parent n' = parent (node s i) -> children n' = [] ->
  (forall d, is_iso9660 n' = false -> ndata n' = Some d -> size n' <= Z.of_nat (length d)) -> same_place (node s i) n'.
Proof.
  intros Hw Hi H1 H2 H3. unfold same_place. rewrite H1, H2. split_and!; auto; [|apply NoDup_nil_2|cbn; lia].
  intros k Hk. by apply not_elem_of_nil in Hk.
Qed.

Lemma own_data s i d : vfs_wf s -> valid s i -> is_iso9660 (node s i) = false -> ndata (node s i) = Some d -> size (node s i) <= Z.of_nat (length d).
Proof. intros Hw Hi. apply (nw_data _ _ _ (node_of s i Hw Hi)). Qed.

(** A marking function touches flags only. *)
Definition flags_only (f : vfs_node -> vfs_node) : Prop :=
  forall n, parent (f n) = parent n /\ children (f n) = children n /\ ndata (f n) = ndata n /\ size (f n) = size n /\
    (is_iso9660 (f n) = false -> is_iso9660 n = false).

Lemma flags_step s i f : vfs_wf s -> valid s i -> flags_only f -> tree_step s (upd_node i f s).
Proof.
  intros Hw Hi Hf. destruct (Hf (node s i)) as (A & B & C & D & F). apply upd_step; auto. apply keep_place; auto.
  rewrite C, D. intros d Hd. apply own_data; auto.
Qed.

Lemma add_entries_step es mark dir : forall s,
  (forall e, flags_only (mark e)) -> vfs_wf s -> valid s dir -> tree_step s (add_entries es mark dir s).
Proof.
  induction es as [|e es IH]; intros s Hm Hw Hd; cbn [add_entries]; [by apply tree_step_refl|].
  destruct (_ <? VFS_MAX_CHILDREN); [|by apply tree_step_refl].
  destruct (alloc_node s _ _ _ None (Some dir)) as [s1 child] eqn:E.
  destruct (alloc_step s (d_name e) (d_is_dir e) (d_size e) None (Some dir) s1 child Hw ltac:(by intros p [= <-]) ltac:(done) E) as [S1 V1].
  assert (S2 : tree_step s1 (match child with Some c => upd_node c (mark e) s1 | None => s1 end)).
  { destruct child as [c|]; [apply flags_step; auto; apply S1|apply tree_step_refl; apply S1]. }
  pose proof (tree_step_trans _ _ _ S1 S2) as S3. apply (tree_step_trans _ _ _ S3). apply IH; [done|apply S3|exact (ts_valid _ _ S3 _ Hd)].
Qed.

Lemma populate_fat32_step s dir : vfs_wf s -> valid s dir -> tree_step s (populate_fat32_node s dir).
Proof.
  intros Hw Hd. unfold populate_fat32_node. destruct (_ || _); [by apply tree_step_refl|].
  set (s1 := upd_node dir _ s). assert (S1 : tree_step s s1).
  { apply upd_step; auto. apply clear_place; auto. intros d. cbn. apply own_data; auto. }
  apply (tree_step_trans _ _ _ S1), add_entries_step; [done|apply S1|exact (ts_valid _ _ S1 _ Hd)].
Qed.

Lemma populate_iso9660_step s dir : vfs_wf s -> valid s dir -> tree_step s (populate_iso9660_node s dir).
Proof.
  intros Hw Hd. unfold populate_iso9660_node. destruct (_ || _); [by apply tree_step_refl|].
  set (s1 := upd_node dir _ s). assert (S1 : tree_step s s1).
  { apply upd_step; auto. apply clear_place; auto. intros d. cbn. apply own_data; auto. }
  apply (tree_step_trans _ _ _ S1), add_entries_step; [done|apply S1|exact (ts_valid _ _ S1 _ Hd)].
Qed.

Lemma find_valid s i p k : vfs_wf s -> valid s i -> List.find p (children (node s i)) = Some k -> valid s k.
Proof.
  intros Hw Hi Hf. apply List.find_some in Hf as [Hf _]. apply list_elem_of_In in Hf.
  by destruct (nw_child _ _ _ (node_of s i Hw Hi) k Hf).
Qed.

(** A search that may read directories from disk. *)
Definition search_ok s (r : vfs W * option Z) : Prop :=
  tree_step s (fst r) /\ forall k, snd r = Some k -> valid (fst r) k.

Lemma search_same s k : vfs_wf s -> (forall i, k = Some i -> valid s i) -> search_ok s (s, k).
Proof. intros Hw Hk. split; [by apply tree_step_refl|]. exact Hk. Qed.

Lemma walk_one_ok s root curr comp : vfs_wf s -> valid s root -> valid s curr -> search_ok s (walk_one s root curr comp).
Proof.
  intros Hw Hr Hc. unfold walk_one. destruct (str_eq comp (str ".")); [apply search_same; [done|by intros i [= <-]]|].
  destruct (str_eq comp (str "..")).
  { apply search_same; [done|]. intros i [= <-]. apply (nw_parent _ _ _ (node_of s curr Hw Hc)). }
  cbn zeta. pose proof (populate_fat32_step s curr Hw Hc) as S1. set (s1 := populate_fat32_node s curr) in *.
  pose proof (populate_iso9660_step s1 curr (ts_wf _ _ S1) (ts_valid _ _ S1 _ Hc)) as S2.
  pose proof (tree_step_trans _ _ _ S1 S2) as S3. set (s2 := populate_iso9660_node s1 curr) in *.
  pose proof (ts_wf _ _ S3) as W2. pose proof (ts_valid _ _ S3 _ Hc) as V2. pose proof (ts_valid _ _ S3 _ Hr) as R2.
  destruct (find_child s2 curr comp) as [k|] eqn:Ef.
  { split; [done|]. intros i [= <-]. unfold find_child in Ef. by apply (find_valid s2 curr _ k W2 V2 Ef). }
  destruct (_ && _); [|split; [done|by intros i [=]]].
  unfold find_boot. destruct (child_named s2 root _) as [cd|] eqn:Ec; [|split; [done|by intros i [=]]].
  unfold child_named in Ec. pose proof (find_valid s2 root _ cd W2 R2 Ec) as Vc. cbn zeta.
  pose proof (populate_iso9660_step s2 cd W2 Vc) as S4. pose proof (tree_step_trans _ _ _ S3 S4) as S5.
  split; [done|]. cbn [fst snd]. intros k Hk. apply (find_valid _ _ _ _ (ts_wf _ _ S5) (ts_valid _ _ S4 _ Vc) Hk).
Qed.

Lemma walk_path_ok fuel : forall s root curr p,
  vfs_wf s -> valid s root -> valid s curr -> search_ok s (walk_path fuel s root curr p).
Proof.
  induction fuel as [|fuel IH]; intros s root curr p Hw Hr Hc; cbn [walk_path].
  { destruct p; apply search_same; auto; by intros i [= <-]. }
  destruct p as [|c p]; [apply search_same; auto; by intros i [= <-]|].
  destruct (component _ _) as [comp rest]. pose proof (walk_one_ok s root curr comp Hw Hr Hc) as [S1 V1].
  destruct (walk_one s root curr comp) as [s1 [k|]]; cbn [fst snd] in *; [|split; [done|by intros i [=]]].
  destruct (IH s1 root k (skip_sep rest)) as [S2 V2]; [apply S1|exact (ts_valid _ _ S1 _ Hr)|by apply V1|].
  split; [by eapply tree_step_trans|done].
Qed.

Lemma find_node_ok s path : vfs_wf s -> search_ok s (find_node_by_path s path).
Proof.
  intros Hw. unfold find_node_by_path. destruct path as [p|]; [|apply search_same; [done|by intros i [=]]].
  destruct (g_root s) as [root|] eqn:Er; [|apply search_same; [done|by intros i [=]]].
  pose proof (vw_root _ Hw root Er) as Vr.
  destruct (_ || _ || _); [apply search_same; auto; by intros i [= <-]|]. cbn zeta.
  destruct (bool_decide _); [|by apply walk_path_ok]. apply search_same; [done|]. intros i [= <-].
  destruct (child_named s root _) as [k|] eqn:Ec; [unfold child_named in Ec; exact (find_valid s root _ k Hw Vr Ec)|done].
Qed.

Lemma find_step s path s' r : vfs_wf s -> find_node_by_path s path = (s', r) ->
  tree_step s s' /\ vfs_wf s' /\ forall k, r = Some k -> valid s' k.
Proof.
  intros Hw E. pose proof (find_node_ok s path Hw) as [S V]. rewrite E in S, V. split; [done|]. split; [apply S|done].
Qed.

(** ** Every operation *)

Lemma overwrite_length d bs : (length bs <= length (overwrite d bs))%nat.
Proof. unfold overwrite. rewrite length_app. lia. Qed.

Lemma populate_step s i : vfs_wf s -> valid s i -> tree_step s (populate s i).
Proof.
  intros Hw Hi. pose proof (populate_fat32_step s i Hw Hi) as S1. apply (tree_step_trans _ _ _ S1).
  apply populate_iso9660_step; [apply S1|exact (ts_valid _ _ S1 _ Hi)].
Qed.

Lemma write_fat_step s dir path bs err : vfs_wf s -> valid s dir -> tree_step s (fst (write_fat s dir path bs err)).
Proof.
  intros Hw Hd. unfold write_fat. destruct (fat32_write_file _ _ _ _) as [w ok]. pose proof (disk_step s w Hw) as S1.
  destruct ok; cbn [negb fst]; [|done]. set (s2 := upd_node dir _ _).
  assert (S2 : tree_step (set_disk w s) s2) by (apply flags_step; [apply S1|done|done]).
  pose proof (tree_step_trans _ _ _ S1 S2) as S3. apply (tree_step_trans _ _ _ S3).
  apply populate_fat32_step; [apply S3|exact (ts_valid _ _ S3 _ Hd)].
Qed.

Lemma alloc_data_step s n : vfs_wf s -> tree_step s (fst (alloc_data s n)).
Proof. intros Hw. unfold alloc_data. destruct (fa_alloc_pages _ _) as [w phys]. by apply disk_step. Qed.

Lemma store_step s i d bs :
  vfs_wf s -> valid s i ->
  tree_step s (upd_node i (set_content (Some (overwrite d bs)) (Z.of_nat (length bs))) s).
Proof.
  intros Hw Hi. apply upd_step; auto. apply keep_place; auto. cbn [ndata size set_content]. intros d' _ [= <-].
  pose proof (overwrite_length d bs). lia.
Qed.

Lemma write_memory_step s i bs : vfs_wf s -> valid s i -> tree_step s (fst (write_memory s i bs)).
Proof.
  intros Hw Hi. unfold write_memory.
  assert (Halloc : tree_step s (fst (match alloc_data s (Z.of_nat (length bs)) with
      | (s1, None) => (s1, -5)
      | (s1, Some d) => (upd_node i (set_content (Some (overwrite d bs)) (Z.of_nat (length bs))) s1, Z.of_nat (length bs))
      end))).
  { pose proof (alloc_data_step s (Z.of_nat (length bs)) Hw) as S1.
    destruct (alloc_data _ _) as [s1 [d|]]; cbn [fst] in *; [|done].
    apply (tree_step_trans _ _ _ S1), store_step; [apply S1|exact (ts_valid _ _ S1 _ Hi)]. }
  destruct (ndata (node s i)) as [d|]; [|exact Halloc]. destruct (_ <? _); [exact Halloc|]. by apply store_step.
Qed.

Lemma write_new_step s path bs : vfs_wf s -> tree_step s (fst (write_new s path bs)).
Proof.
  intros Hw. unfold write_new. cbn zeta. destruct (_ <? 1); [by apply tree_step_refl|].
  destruct (VFS_NAME_MAX <=? _); [by apply tree_step_refl|].
  destruct (find_node_by_path s _) as [s1 r] eqn:Ef. destruct (find_step _ _ _ _ Hw Ef) as (S1 & W1 & V1).
  destruct r as [p|]; [|done]. specialize (V1 p eq_refl).
  destruct (is_fat32 _); [by apply (tree_step_trans _ _ _ S1), write_fat_step|].
  pose proof (alloc_data_step s1 (Z.of_nat (length bs)) W1) as S2.
  destruct (alloc_data _ _) as [s2 [d|]]; cbn [fst] in *; [|by apply (tree_step_trans _ _ _ S1)].
  destruct (alloc_node s2 _ _ _ _ _) as [s3 k] eqn:Ea.
  assert (S3 : tree_step s2 s3).
  { apply (alloc_step s2 _ _ _ _ _ s3 k (ts_wf _ _ S2)) in Ea; [apply Ea|intros q [= <-]; exact (ts_valid _ _ S2 _ V1)|].
    intros x [= <-]. pose proof (overwrite_length d bs). lia. }
  pose proof (tree_step_trans _ _ _ S1 (tree_step_trans _ _ _ S2 S3)) as S4. by destruct k.
Qed.

Lemma vfs_write_step s path buf : vfs_wf s -> tree_step s (fst (vfs_write s path buf)).
Proof.
  intros Hw. unfold vfs_write. destruct path as [path|]; [|by apply tree_step_refl].
  destruct buf as [bs|]; [|by apply tree_step_refl].
  destruct (find_node_by_path s _) as [s1 r] eqn:Ef. destruct (find_step _ _ _ _ Hw Ef) as (S1 & W1 & V1).
  destruct r as [i|]; [|by apply (tree_step_trans _ _ _ S1), write_new_step]. specialize (V1 i eq_refl).
  destruct (is_dir _); [done|]. destruct (is_fat32 _).
  { destruct (negb _); [done|]. apply (tree_step_trans _ _ _ S1), write_fat_step; [done|].
    apply (nw_parent _ _ _ (node_of s1 i W1 V1)). }
  destruct (negb _); [by apply (tree_step_trans _ _ _ S1), write_memory_step|].
  by apply (tree_step_trans _ _ _ S1), write_new_step.
Qed.

Lemma vfs_read_step s path off null mx : vfs_wf s -> tree_step s (fst (fst (vfs_read_at s path off null mx))).
Proof.
  intros Hw. unfold vfs_read_at. destruct (_ || _); [by apply tree_step_refl|].
  destruct (find_node_by_path s _) as [s1 r] eqn:Ef. destruct (find_step _ _ _ _ Hw Ef) as (S1 & _ & _).
  destruct r as [i|]; [|done]. destruct (is_dir _); [done|].
  destruct (is_fat32 _); [by destruct (fat32_read_file _ _ _ _)|].
  destruct (is_iso9660 _); [by destruct (iso9660_read_file_offset _ _ _ _ _)|].
  destruct (ndata _); [|done]. by destruct (_ <=? _).
Qed.

Lemma vfs_stat_step s path : vfs_wf s -> tree_step s (fst (vfs_stat s path)).
Proof.
  intros Hw. unfold vfs_stat. destruct (find_node_by_path s _) as [s1 r] eqn:Ef.
  destruct (find_step _ _ _ _ Hw Ef) as (S1 & _ & _). by destruct r.
Qed.

Lemma vfs_list_step s path null mx : vfs_wf s -> tree_step s (fst (fst (vfs_list s path null mx))).
Proof.
  intros Hw. unfold vfs_list. destruct (_ || _); [by apply tree_step_refl|].
  destruct (find_node_by_path s _) as [s1 r] eqn:Ef. destruct (find_step _ _ _ _ Hw Ef) as (S1 & W1 & V1).
  destruct r as [i|]; [|done]. destruct (negb _); [done|].
  apply (tree_step_trans _ _ _ S1), populate_step; auto.
Qed.

Lemma vfs_mkdir_step s path s' rc : vfs_wf s -> vfs_mkdir s path = Some (s', rc) -> tree_step s s'.
Proof.
  intros Hw. unfold vfs_mkdir. pose proof (tree_step_refl s Hw) as Hr.
  destruct path as [[|c p]|]; try by intros [= <- _]. destruct (_ <=? 1); [by intros [= <- _]|].
  destruct (last_sep _) as [slash|]; [|by intros [= <- _]]. cbn zeta. destruct (bool_decide _); [by intros [= <- _]|].
  destruct (_ && _); [done|].
  destruct (find_node_by_path s _) as [s1 r] eqn:Ef. destruct (find_step _ _ _ _ Hw Ef) as (S1 & W1 & V1).
  destruct r as [q|]; [|by intros [= <- _]]. specialize (V1 q eq_refl). destruct (negb _); [by intros [= <- _]|].
  destruct (child_named _ _ _); [by intros [= <- _]|].
  destruct (if is_fat32 _ then _ else _) as [s2 ok] eqn:E2.
  assert (S2 : tree_step s1 s2).
  { destruct (is_fat32 _); [destruct (fat32_make_dir _ _ _)|]; injection E2 as <- _; [by apply disk_step|by apply tree_step_refl]. }
  pose proof (tree_step_trans _ _ _ S1 S2) as S3. destruct ok; cbn [negb]; [|by intros [= <- _]].
  destruct (alloc_node s2 _ _ _ _ _) as [s4 k] eqn:Ea.
  apply (alloc_step s2 _ _ _ _ _ s4 k (ts_wf _ _ S2)) in Ea as [S4 V4];
    [|intros x [= <-]; exact (ts_valid _ _ S2 _ V1)|done].
  pose proof (tree_step_trans _ _ _ S3 S4) as S5. destruct k as [k|]; [|by intros [= <- _]]. specialize (V4 k eq_refl).
  set (s5 := upd_node k _ s4). assert (S6 : tree_step s4 s5) by (apply flags_step; [apply S4|done|done]).
  pose proof (tree_step_trans _ _ _ S5 S6) as S7. intros [= <- _].
  destruct (List.find _ _) as [e|]; [|done]. match goal with |- tree_step _ (if ?b then _ else _) => destruct b end; [|done].
  apply (tree_step_trans _ _ _ S7), flags_step; [apply S7|exact (ts_valid _ _ S6 _ V4)|done].
Qed.

Lemma remove_at_incl {T} j (l : list T) x : x ∈ remove_at j l -> x ∈ l.
Proof. intros Hx. eapply elem_of_submseteq; [exact Hx|]. apply sublist_submseteq, sublist_delete. Qed.

Lemma vfs_delete_step s path : vfs_wf s -> tree_step s (fst (vfs_delete s path)).
Proof.
  intros Hw. unfold vfs_delete. pose proof (tree_step_refl s Hw) as Hr. destruct path as [p|]; [|done].
  destruct (_ || _); [done|].
  destruct (find_node_by_path s _) as [s1 r] eqn:Ef. destruct (find_step _ _ _ _ Hw Ef) as (S1 & W1 & V1).
  destruct r as [i|]; [|done]. specialize (V1 i eq_refl). destruct (bool_decide _); [done|]. cbn zeta.
  destruct (if is_fat32 _ then _ else _) as [s2 ok] eqn:E2.
  assert (S2 : tree_step s1 s2).
  { destruct (is_fat32 _); [destruct (fat32_delete_file _ _ _)|]; injection E2 as <- _; [by apply disk_step|by apply tree_step_refl]. }
  pose proof (tree_step_trans _ _ _ S1 S2) as S3. destruct ok; cbn [negb]; [|done].
  destruct (list_find _ _) as [[j k]|]; [|done]. cbn [fst].
  set (par := parent (node s1 i)). assert (Vp : valid s2 par).
  { apply (ts_valid _ _ S2), (nw_parent _ _ _ (node_of s1 i W1 V1)). }
  apply (tree_step_trans _ _ _ S3), upd_step; [apply S3|done|].
  destruct (node_of s2 par (ts_wf _ _ S2) Vp) as [A B C D E]. unfold same_place. cbn [parent children ndata size set_children].
  split_and!; auto.
  - intros x. apply remove_at_incl.
  - eapply sublist_NoDup; [exact C|apply sublist_delete].
  - apply sublist_length, sublist_delete.
Qed.

Lemma vfs_rename_step s op np : vfs_wf s -> tree_step s (fst (vfs_rename s op np)).
Proof.
  intros Hw. unfold vfs_rename. pose proof (tree_step_refl s Hw) as Hr.
  destruct op as [op|]; [|done]. destruct np as [np|]; [|done].
  destruct (find_node_by_path s (Some np)) as [s1 r] eqn:Ef. destruct (find_step _ _ _ _ Hw Ef) as (S1 & W1 & _).
  destruct r; [done|].
  destruct (find_node_by_path s1 (Some op)) as [s2 r] eqn:Ef2. destruct (find_step _ _ _ _ W1 Ef2) as (S2 & W2 & V2).
  pose proof (tree_step_trans _ _ _ S1 S2) as S3. destruct r as [i|]; [|done]. specialize (V2 i eq_refl).
  destruct (bool_decide _); [done|]. cbn zeta. destruct (_ || _ || _ || _); [done|]. destruct (negb _); [done|].
  destruct (bool_decide _); [done|]. destruct (if is_fat32 _ then _ else _) as [s4 ok] eqn:E2.
  assert (S4 : tree_step s2 s4).
  { destruct (is_fat32 _); [destruct (fat32_rename_file _ _ _ _)|]; injection E2 as <- _; [by apply disk_step|by apply tree_step_refl]. }
  pose proof (tree_step_trans _ _ _ S3 S4) as S5. destruct ok; cbn [negb]; [|done]. cbn [fst].
  apply (tree_step_trans _ _ _ S5), flags_step; [apply S5|exact (ts_valid _ _ S4 _ V2)|done].
Qed.

(** ** Mounting and start-up *)

Lemma fields_step s f a w : vfs_wf s -> tree_step s (Vfs (nodes s) (g_root s) f a w).
Proof.
  intros [H1 H2 H3]. constructor; [|done|done]. constructor; [done|done|]. intros i Hi.
  destruct (H3 i Hi) as [A B C D E]. by constructor.
Qed.

Lemma clear_step s i f :
  vfs_wf s -> valid s i ->
  (forall n, parent (f n) = parent n /\ children (f n) = [] /\ ndata (f n) = ndata n /\
     (is_iso9660 (f n) = false -> is_iso9660 n = false /\ size (f n) = size n)) ->
  tree_step s (upd_node i f s).
Proof.
  intros Hw Hi Hf. destruct (Hf (node s i)) as (A & B & C & D). apply upd_step; auto. apply clear_place; auto.
  rewrite C. intros d Hd. destruct (D Hd) as [D1 ->]. by apply own_data.
Qed.

Lemma mount_hdd_step s root : vfs_wf s -> valid s root -> tree_step s (mount_hdd s root).
Proof.
  intros Hw Hr. unfold mount_hdd. cbn zeta. destruct (negb _); [by apply tree_step_refl|].
  destruct (match List.find _ _ with Some k => _ | None => _ end) as [s1 hdd] eqn:E.
  assert (S1 : tree_step s s1 /\ forall k, hdd = Some k -> valid s1 k).
  { destruct (List.find _ _) as [k|] eqn:Ef.
    - injection E as <- <-. split; [by apply tree_step_refl|]. intros x [= <-]. by apply (find_valid s root _ k Hw Hr Ef).
    - apply (alloc_step _ _ _ _ _ _ _ _ Hw) in E; [done|by intros p [= <-]|done]. }
  destruct S1 as [S1 V1]. destruct hdd as [k|]; [|done]. specialize (V1 k eq_refl).
  set (s2 := upd_node k _ s1).
  assert (S2 : tree_step s1 s2) by (apply clear_step; [apply S1|done|done]).
  destruct (fat32_init (disk s2)) as [w ok]. pose proof (fields_step s2 ok (iso9660_available s2) w (ts_wf _ _ S2)) as S3.
  pose proof (tree_step_trans _ _ _ S1 (tree_step_trans _ _ _ S2 S3)) as S4. set (s3 := Vfs _ _ _ _ _) in *.
  assert (V3 : valid s3 k) by (by apply valid_upd). apply (tree_step_trans _ _ _ S4). destruct ok.
  - set (s5 := upd_node k _ s3). assert (S5 : tree_step s3 s5) by (apply flags_step; [apply S3|done|done]).
    apply (tree_step_trans _ _ _ S5), populate_fat32_step; [apply S5|exact (ts_valid _ _ S5 _ V3)].
  - apply flags_step; [apply S3|done|done].
Qed.

Lemma mount_cdrom_step s root : vfs_wf s -> valid s root -> tree_step s (mount_cdrom s root).
Proof.
  intros Hw Hr. unfold mount_cdrom. destruct (iso9660_init (disk s)) as [w ok].
  pose proof (fields_step s (fat32_available s) ok w Hw) as S0. cbn zeta. set (s0 := Vfs _ _ _ _ _) in *.
  assert (R0 : valid s0 root) by exact Hr. pose proof (ts_wf _ _ S0) as W0. apply (tree_step_trans _ _ _ S0).
  assert (Hc : forall k, child_named s0 root (str "cdrom") = Some k -> valid s0 k).
  { intros k Hk. unfold child_named in Hk. exact (find_valid s0 root _ k W0 R0 Hk). }
  destruct ok.
  - destruct (iso9660_primary_info _) as [[lba sz] total].
    destruct (match child_named _ _ _ with Some k => _ | None => _ end) as [s1 cd] eqn:E.
    assert (S1 : tree_step s0 s1 /\ forall k, cd = Some k -> valid s1 k).
    { destruct (child_named s0 root _) as [k|] eqn:Ef.
      - injection E as <- <-. split; [by apply tree_step_refl|]. intros x [= <-]. by apply Hc.
      - apply (alloc_step _ _ _ _ _ _ _ _ W0) in E; [done|by intros p [= <-]|done]. }
    destruct S1 as [S1 V1]. destruct cd as [k|]; [|done]. specialize (V1 k eq_refl).
    set (s2 := upd_node k _ s1). assert (S2 : tree_step s1 s2) by (apply clear_step; [apply S1|done|done]).
    apply (tree_step_trans _ _ _ S1), (tree_step_trans _ _ _ S2), populate_iso9660_step;
      [apply S2|exact (ts_valid _ _ S2 _ V1)].
  - destruct (child_named s0 root _) as [k|]; [|by apply tree_step_refl].
    apply clear_step; auto.
Qed.

Lemma vfs_rescan_step s : vfs_wf s -> tree_step s (vfs_rescan_drives s).
Proof.
  intros Hw. unfold vfs_rescan_drives. destruct (g_root s) as [root|] eqn:Er; [|by apply tree_step_refl].
  pose proof (vw_root _ Hw root Er) as Vr. pose proof (mount_hdd_step s root Hw Vr) as S1.
  apply (tree_step_trans _ _ _ S1), mount_cdrom_step; [apply S1|exact (ts_valid _ _ S1 _ Vr)].
Qed.

Lemma add_resource_step resource dir s nm :
  vfs_wf s -> (forall p, dir = Some p -> valid s p) -> tree_step s (vfs_add_resource resource dir s nm).
Proof.
  intros Hw Hd. unfold vfs_add_resource. destruct dir as [p|]; [|by apply tree_step_refl].
  destruct (resource nm) as [d|]; [|by apply tree_step_refl].
  destruct (alloc_node _ _ _ _ _ _) as [s1 k] eqn:E. apply (alloc_step _ _ _ _ _ _ _ _ Hw) in E; [apply E|done|].
  intros x [= <-]. unfold uwrap. pose proof (Z.mod_le (Z.of_nat (length d)) (2 ^ 32) ltac:(lia) ltac:(lia)). lia.
Qed.

Lemma foldl_step {T} (f : vfs W -> T -> vfs W) (l : list T) : forall s,
  vfs_wf s -> (forall s' x, vfs_wf s' -> (forall j, valid s j -> valid s' j) -> tree_step s' (f s' x)) ->
  tree_step s (foldl f s l).
Proof.
  induction l as [|x l IH]; intros s Hw Hf; [by apply tree_step_refl|]. cbn [foldl].
  pose proof (Hf s x Hw ltac:(auto)) as S1. apply (tree_step_trans _ _ _ S1). apply IH; [apply S1|].
  intros s' y Hw' Hv. apply Hf; [done|]. intros j Hj. exact (Hv _ (ts_valid _ _ S1 _ Hj)).
Qed.

Lemma vfs_init_wf resource s : vfs_wf (vfs_init resource s) /\ g_root (vfs_init resource s) = Some 0.
Proof.
  unfold vfs_init. cbn zeta. set (s0 := set_nodes [] s).
  assert (R : exists s1, alloc_node s0 [47] true 0 None None = (s1, Some 0) /\
    vfs_wf (Vfs (nodes s1) (Some 0) (fat32_available s1) (iso9660_available s1) (disk s1)) /\
    valid (Vfs (nodes s1) (Some 0) (fat32_available s1) (iso9660_available s1) (disk s1)) 0).
  { eexists. split; [reflexivity|]. set (n := VfsNode _ _ _ _ _ _ _ _ _ _ _ _).
    assert (V : forall i, valid (Vfs [n] (Some 0) (fat32_available s0) (iso9660_available s0) (disk s0)) i <-> i = 0)
      by (intros i; unfold valid; cbn; lia).
    split; [|by apply V]. constructor; [done|by intros r [= <-]; apply V|]. intros i Hi. apply V in Hi as ->.
    constructor; cbn; [by apply V| |apply NoDup_nil_2|done|done]. intros k Hk. by apply not_elem_of_nil in Hk. }
  destruct R as (s1 & -> & W1 & V1). set (s2 := Vfs (nodes s1) (Some 0) _ _ _) in *.
  destruct (alloc_node s2 (str "apps") true 0 None (Some 0)) as [s3 apps] eqn:E3.
  apply (alloc_step _ _ _ _ _ _ _ _ W1) in E3 as [S3 V3]; [|by intros p [= <-]|done].
  set (s4 := foldl _ s3 _). assert (S4 : tree_step s3 s4).
  { apply foldl_step; [apply S3|]. intros s' x Hw Hv. apply add_resource_step; [done|]. intros p Hp. by apply Hv, V3. }
  pose proof (tree_step_trans _ _ _ S3 S4) as S5.
  destruct (alloc_node s4 (str "icons") true 0 None (Some 0)) as [s6 icons] eqn:E6.
  apply (alloc_step _ _ _ _ _ _ _ _ (ts_wf _ _ S4)) in E6 as [S6 V6];
    [|intros p [= <-]; exact (ts_valid _ _ S5 _ V1)|done].
  set (s7 := foldl _ s6 _). assert (S7 : tree_step s6 s7).
  { apply foldl_step; [apply S6|]. intros s' x Hw Hv. apply add_resource_step; [done|]. intros p Hp. by apply Hv, V6. }
  pose proof (tree_step_trans _ _ _ S5 (tree_step_trans _ _ _ S6 S7)) as S8.
  destruct (alloc_node s7 (str "bin") true 0 None (Some 0)) as [s9 bin] eqn:E9.
  apply (alloc_step _ _ _ _ _ _ _ _ (ts_wf _ _ S7)) in E9 as [S9 V9];
    [|intros p [= <-]; exact (ts_valid _ _ S8 _ V1)|done].
  set (s10 := foldl _ s9 _). assert (S10 : tree_step s9 s10).
  { apply foldl_step; [apply S9|]. intros s' x Hw Hv. destruct (alloc_node s' _ _ _ _ _) as [s11 k] eqn:E.
    apply (alloc_step _ _ _ _ _ _ _ _ Hw) in E; [apply E| |done]. intros p Hp. by apply Hv, V9. }
  pose proof (vfs_rescan_step s10 (ts_wf _ _ S10)) as S11.
  pose proof (tree_step_trans _ _ _ S8 (tree_step_trans _ _ _ S9 (tree_step_trans _ _ _ S10 S11))) as S12.
  split; [apply S11|apply (ts_root _ _ S12)].
Qed.

(** ** Every reachable state *)

Inductive vfs_op :=
| OList (path : option path_t) (null : bool) (max_entries : Z)
| ORead (path : option path_t) (offset : Z) (null : bool) (max_bytes : Z)
| OWrite (path : option path_t) (buffer : option (list Z))
| OStat (path : option path_t)
| OMkdir (path : option path_t)
| ODelete (path : option path_t)
| ORename (old_path new_path : option path_t)
| ORescan.

(** There is no next state when the code overruns a buffer. *)
Definition exec s (o : vfs_op) : option (vfs W) :=
  match o with
  | OList p b m => Some (fst (fst (vfs_list s p b m)))
  | ORead p off b m => Some (fst (fst (vfs_read_at s p off b m)))
  | OWrite p b => Some (fst (vfs_write s p b))
  | OStat p => Some (fst (vfs_stat s p))
  | OMkdir p => fst <$> vfs_mkdir s p
  | ODelete p => Some (fst (vfs_delete s p))
  | ORename p q => Some (fst (vfs_rename s p q))
  | ORescan => Some (vfs_rescan_drives s)
  end.

Fixpoint exec_all s (os : list vfs_op) : option (vfs W) :=
  match os with [] => Some s | o :: os => match exec s o with Some s' => exec_all s' os | None => None end end.

Lemma exec_step s o s' : vfs_wf s -> exec s o = Some s' -> tree_step s s'.
Proof.
  intros Hw. destruct o; cbn [exec].
  5:{ destruct (vfs_mkdir s path) as [[s1 rc]|] eqn:E; [|done]. intros [= <-]. by apply (vfs_mkdir_step s path s1 rc). }
  all: intros [= <-]; auto using vfs_list_step, vfs_read_step, vfs_write_step, vfs_stat_step, vfs_delete_step,
    vfs_rename_step, vfs_rescan_step.
Qed.

Lemma exec_all_step os : forall s s', vfs_wf s -> exec_all s os = Some s' -> tree_step s s'.
Proof.
  induction os as [|o os IH]; intros s s' Hw; cbn [exec_all]; [intros [= <-]; by apply tree_step_refl|].
  destruct (exec s o) as [s1|] eqn:E; [|done]. intros H. pose proof (exec_step s o s1 Hw E) as S1.
  apply (tree_step_trans _ _ _ S1), IH; [apply S1|done].
Qed.

End Tree.

(** A machine with one disk that holds a flat FAT directory, for concrete runs. *)
#[export] Instance demo_fat : DiskFs (list disk_entry) := {|
  block_devices _ := [BlockInfo true 512 4096];
  fat32_init w := (w, true);
  fat32_root_cluster _ := 2;
  fat32_list_dir w c := if c =? 2 then w else [];
  fat32_read_file w c sz max := (0, []);
  fat32_write_file w c nm bytes := (w ++ [DiskEntry nm false (Z.of_nat (length bytes)) 7], true);
  fat32_make_dir w c nm := (w ++ [DiskEntry nm true 0 8], true);
  fat32_delete_file w c nm := (filter (fun e => d_name e <> nm) w, true);
  fat32_rename_file w _ _ _ := (w, false);
  fat32_get_stats _ := (512, 4096, 100);
  iso9660_init w := (w, false);
  iso9660_primary_info _ := (0, 0, 0);
  iso9660_list_dir _ _ _ := [];
  iso9660_read_file_offset _ _ _ _ _ := (-1, [])
|}.

#[export] Instance demo_ram : FrameAllocator (list disk_entry) := {|
  fa_alloc_pages w n := (w, PAGE_SIZE);
  fa_free_pages w _ _ := (w, 0)
|}.

Definition demo_images (nm : string) : option (list Z) := None.
Definition demo_blank : vfs (list disk_entry) := Vfs [] None false false [DiskEntry (str "kernel.bin") false 9000 3].
Definition demo_boot : vfs (list disk_entry) := vfs_init demo_images demo_blank.

Definition demo_ops : list vfs_op :=
  [OWrite (Some (str "/bin/x")) (Some [1; 2]); OMkdir (Some (str "/hdd/logs"));
   OWrite (Some (str "/hdd/a.txt")) (Some [3]); ODelete (Some (str "/bin/x")); OStat (Some (str "/hdd/../hdd/a.txt"))].

Definition demo_state : vfs (list disk_entry) := default demo_boot (exec_all demo_boot demo_ops).

Definition demo_path : option path_t := Some (str "/hdd/a.txt").

Lemma demo_run : exec_all (vfs_init demo_images demo_blank) demo_ops = Some demo_state.
Proof. vm_compute. reflexivity. Qed.

Lemma demo_found : snd (find_node_by_path demo_state demo_path) <> None.
Proof. vm_compute. discriminate. Qed.

