(* ===== verification/VfsFile.v ===== *)
(** Paths and files of the virtual file system: resolving a path is a lookup in the
    tree, a file reads back what was written to it, and where that fails. *)
From Stdlib Require Import String Ascii.
From S2P Require Import Prelude Pmm Vmm Fd Vfs VfsSpec.

(** ** Canonical paths *)

(** A component that the walk takes as it is.  [boot] is left out: the root falls
    back to the compact disc for it. *)
Record good_comp (c : path_t) : Prop := GoodComp {
  gc_nonempty : c <> [];
  gc_nosep : Forall (fun b => is_sep b = false) c;
  gc_short : (length c <= 63)%nat;
  gc_dot : c <> str ".";
  gc_dotdot : c <> str "..";
  gc_boot : c <> str "boot"
}.

Definition path_of (comps : list path_t) : path_t := flat_map (fun c => 47 :: c) comps.

(** The first component is not taken for a drive letter. *)
Definition no_drive (comps : list path_t) : Prop :=
  match comps with c :: _ => nth_error c 1 <> Some 58 | [] => True end.

Lemma name_cap : Z.to_nat (VFS_NAME_MAX - 1) = 63%nat.
Proof. done. Qed.

Lemma component_spec n c rest :
  Forall (fun b => is_sep b = false) c -> (length c <= n)%nat -> rest = [] \/ (exists r, rest = 47 :: r) ->
  (n = length c -> rest = [] \/ exists r, rest = 47 :: r) ->
  component n (c ++ rest) = (c, rest).
Proof.
  revert n. induction c as [|b c IH]; intros n Hs Hl Hr _.
  - destruct Hr as [->|[r ->]]; [by destruct n|]. by destruct n.
  - inversion_clear Hs as [|? ? Hb Hs']. destruct n as [|n]; [cbn in Hl; lia|]. cbn [app component]. rewrite Hb.
    by rewrite (IH n Hs' ltac:(cbn in Hl; lia) Hr ltac:(auto)).
Qed.

Lemma path_of_app a b : path_of (a ++ b) = path_of a ++ path_of b.
Proof. apply flat_map_app. Qed.

Lemma path_of_rest comps : path_of comps = [] \/ exists r, path_of comps = 47 :: r.
Proof. destruct comps as [|c comps]; [by left|]. right. by exists (c ++ path_of comps). Qed.

Lemma skip_sep_path comps : skip_sep (path_of comps) = match comps with [] => [] | c :: cs => c ++ path_of cs end.
Proof. by destruct comps. Qed.

Section Files.
Context {W : Type} `{DF : DiskFs W, FA : FrameAllocator W}.
Implicit Types s : vfs W.

(** No directory is waiting to be read from disk. *)
Definition read_in (n : vfs_node) : Prop :=
  (is_fat32 n = true -> fat_populated n = true) /\ (is_iso9660 n = true -> iso_populated n = true).

Definition settled s : Prop := Forall read_in (nodes s).

Lemma settled_node s i : settled s -> read_in (node s i).
Proof.
  intros H. unfold node, at_z. destruct (nth_in_or_default (Z.to_nat i) (nodes s) no_node) as [Hin|Hin]; [|by rewrite Hin].
  unfold settled in H. rewrite Forall_forall in H. by apply H, list_elem_of_In.
Qed.

Lemma populate_fat32_settled s i : settled s -> populate_fat32_node s i = s.
Proof.
  intros H. destruct (settled_node s i H) as [H1 _]. unfold populate_fat32_node. destruct (is_fat32 _); [by rewrite H1|done].
Qed.

Lemma populate_iso9660_settled s i : settled s -> populate_iso9660_node s i = s.
Proof.
  intros H. destruct (settled_node s i H) as [_ H1]. unfold populate_iso9660_node. destruct (is_iso9660 _); [by rewrite H1|done].
Qed.

(** The specification: a lookup in the tree. *)
Fixpoint resolve s (curr : Z) (comps : list path_t) : option Z :=
  match comps with
  | [] => Some curr
  | c :: cs => match find_child s curr c with Some k => resolve s k cs | None => None end
  end.

Lemma resolve_app s a : forall curr b,
  resolve s curr (a ++ b) = match resolve s curr a with Some k => resolve s k b | None => None end.
Proof.
  induction a as [|c a IH]; intros curr b; [done|]. cbn [app resolve]. by destruct (find_child s curr c).
Qed.

Lemma walk_one_settled s root curr c : settled s -> good_comp c -> walk_one s root curr c = (s, find_child s curr c).
Proof.
  intros Hs [_ _ _ H1 H2 H3]. unfold walk_one, str_eq. rewrite !bool_decide_eq_false_2 by done.
  cbn zeta. rewrite populate_fat32_settled, populate_iso9660_settled by done.
  rewrite andb_false_r. by destruct (find_child s curr c).
Qed.

Lemma walk_path_settled comps : forall fuel s root curr c,
  settled s -> Forall good_comp (c :: comps) -> (length (c ++ path_of comps) <= fuel)%nat ->
  walk_path fuel s root curr (c ++ path_of comps) = (s, resolve s curr (c :: comps)).
Proof.
  induction comps as [|c2 comps IH]; intros fuel s root curr c Hs Hg Hf;
    inversion_clear Hg as [|? ? Hc Hg']; pose proof Hc as [G1 G2 G3 _ _ _].
  - assert (Hne : exists b r, c ++ path_of [] = b :: r) by (destruct c as [|b r]; [done|by exists b, (r ++ [])]).
    destruct Hne as (b & r & Hne). rewrite length_app in Hf.
    destruct fuel as [|fuel]; [destruct c; [done|cbn in Hf; lia]|]. cbn [walk_path]. rewrite Hne. rewrite <-Hne.
    rewrite component_spec; [|done|rewrite name_cap; lia|by left|by left]. rewrite walk_one_settled by done. cbn [resolve].
    destruct (find_child s curr c) as [k|]; [|done]. change (skip_sep (path_of [])) with (@nil Z).
    by destruct fuel.
  - assert (Hne : exists b r, c ++ path_of (c2 :: comps) = b :: r) by (destruct c as [|b r]; [done|by eexists _, _]).
    destruct Hne as (b & r & Hne). rewrite length_app in Hf.
    destruct fuel as [|fuel]; [destruct c; [done|cbn in Hf; lia]|]. cbn [walk_path]. rewrite Hne. rewrite <-Hne.
    rewrite component_spec; [|done|rewrite name_cap; lia|right; by eexists|intros _; right; by eexists].
    rewrite walk_one_settled by done. cbn [resolve]. destruct (find_child s curr c) as [k|]; [|done].
    rewrite skip_sep_path. rewrite (IH fuel s root k c2 Hs Hg'); [done|].
    cbn [path_of flat_map length] in Hf. rewrite length_app in Hf |- *. fold (path_of comps) in Hf.
    destruct c; [done|]. cbn [length app] in Hf. rewrite ?length_app in Hf. lia.
Qed.

Lemma skip_drive_good c cs :
  good_comp c -> nth_error c 1 <> Some 58 -> skip_drive (c ++ path_of cs) = c ++ path_of cs.
Proof.
  intros [G1 _ _ _ _ _] Hd. destruct c as [|a [|b c]]; [done| |].
  - destruct cs as [|c2 cs]; [done|]. done.
  - cbn [app skip_drive]. destruct (Z.eq_dec b 58) as [->|Hb]; [by cbn in Hd|].
    destruct b as [|p|p]; try done. repeat (destruct p as [p|p|]; try done).
Qed.

(** Finding a node by a canonical path is a lookup; nothing changes. *)
Lemma find_canonical s root comps :
  settled s -> g_root s = Some root -> comps <> [] -> Forall good_comp comps -> no_drive comps ->
  find_node_by_path s (Some (path_of comps)) = (s, resolve s root comps).
Proof.
  intros Hs Hr Hne Hg Hd. destruct comps as [|c comps]; [done|]. cbn [no_drive] in Hd.
  pose proof Hg as Hg0. inversion_clear Hg0 as [|? ? Hc Hg']. pose proof Hc as [G1 G2 _ _ _ _].
  unfold find_node_by_path. rewrite Hr.
  assert (E : path_of (c :: comps) = 47 :: (c ++ path_of comps)) by done.
  assert (Hc2 : c ++ path_of comps <> []) by by destruct c.
  rewrite bool_decide_eq_false_2 by done. unfold str_eq. rewrite !bool_decide_eq_false_2.
  2:{ by rewrite skip_sep_path, skip_drive_good. }
  2,3: rewrite E; intros Ha; first [discriminate Ha | by injection Ha].
  cbn [orb]. rewrite skip_sep_path, skip_drive_good by done. by apply walk_path_settled.
Qed.

(** *** Parent and name of a canonical path *)

Lemma last_sep_nosep p : Forall (fun b => is_sep b = false) p -> last_sep p = None.
Proof. induction 1 as [|b p Hb Hp IH]; [done|]. cbn [last_sep]. by rewrite IH, Hb. Qed.

Lemma last_sep_app a b : Forall (fun x => is_sep x = false) b -> last_sep (a ++ 47 :: b) = Some (Z.of_nat (length a)).
Proof.
  intros Hb. induction a as [|x a IH].
  - cbn [app last_sep]. by rewrite (last_sep_nosep b Hb).
  - cbn [app last_sep length]. rewrite IH. f_equal. lia.
Qed.

Lemma take_name_app a b : Forall (fun x => is_sep x = false) a -> take_name (a ++ 47 :: b) = a.
Proof. induction 1 as [|x a Hx Ha IH]; [done|]. cbn [app take_name]. by rewrite Hx, IH. Qed.

Lemma basename_of dir nm : good_comp nm -> basename_copy (path_of (dir ++ [nm])) VFS_NAME_MAX = nm.
Proof.
  intros [G1 G2 G3 _ _ _]. unfold basename_copy. rewrite path_of_app. cbn [path_of flat_map]. rewrite app_nil_r.
  rewrite rev_app_distr. cbn [rev]. rewrite <-app_assoc. cbn [app].
  assert (Hr : Forall (fun b => is_sep b = false) (rev nm)) by (apply Forall_rev; done).
  assert (Ed : drop_seps (rev nm ++ 47 :: rev (path_of dir)) = rev nm ++ 47 :: rev (path_of dir)).
  { destruct (rev nm) as [|x l] eqn:E; [|inversion_clear Hr as [|? ? Hx]; cbn [app drop_seps]; by rewrite Hx].
    apply (f_equal (@rev Z)) in E. rewrite rev_involutive in E. done. }
  fold (path_of dir). rewrite Ed, take_name_app by done. rewrite rev_involutive. unfold str_copy. rewrite name_cap. by apply take_ge.
Qed.

(** *** What a write does to the tree *)

(** Directories may only grow at their end, and names stay. *)
Definition grows s s' : Prop :=
  forall j, valid s j ->
    name (node s' j) = name (node s j) /\ is_iso9660 (node s' j) = is_iso9660 (node s j) /\
    exists new, children (node s' j) = children (node s j) ++ new.

Lemma find_app_some {T} (f g : T -> bool) l l2 k :
  (forall x, x ∈ l -> g x = f x) -> List.find f l = Some k -> List.find g (l ++ l2) = Some k.
Proof.
  induction l as [|x l IH]; intros He; [done|]. cbn [List.find app]. rewrite (He x ltac:(constructor)).
  destruct (f x); [done|]. apply IH. intros y Hy. apply He. by constructor.
Qed.

Lemma resolve_grows s s' cs : forall curr k,
  vfs_wf s -> grows s s' -> valid s curr -> resolve s curr cs = Some k -> resolve s' curr cs = Some k.
Proof.
  induction cs as [|c cs IH]; intros curr k Hw Hg Hv; [done|]. cbn [resolve].
  destruct (find_child s curr c) as [j|] eqn:Ef; [|done]. unfold find_child in Ef |- *.
  pose proof (find_valid s curr _ j Hw Hv Ef) as Vj. destruct (Hg curr Hv) as (_ & Hi & new & ->).
  rewrite (find_app_some (matches s curr c) (matches s' curr c) _ new j); [by apply IH| |done].
  intros x Hx. destruct (nw_child _ _ _ (node_of s curr Hw Hv) x Hx) as [Vx _]. destruct (Hg x Vx) as (Hn & _).
  unfold matches. by rewrite Hi, Hn.
Qed.

Lemma resolve_valid s cs : forall curr k, vfs_wf s -> valid s curr -> resolve s curr cs = Some k -> valid s k.
Proof.
  induction cs as [|c cs IH]; intros curr k Hw Hv; [by intros [= <-]|]. cbn [resolve].
  destruct (find_child s curr c) as [j|] eqn:Ef; [|done]. apply IH; [done|]. exact (find_valid s curr _ j Hw Hv Ef).
Qed.

(** What a lookup sees of a node. *)
Definition file_of s (j : Z) : path_t * bool * Z * option (list Z) :=
  (name (node s j), is_dir (node s j), size (node s j), ndata (node s j)).

(** [s'] differs from [s] in the contents of file [k], which holds [bytes]. *)
Record written s s' (root k : Z) (p : list path_t) (bytes : list Z) : Prop := Written {
  wr_settled : settled s';
  wr_root : g_root s' = Some root;
  wr_found : resolve s' root p = Some k;
  wr_file : is_dir (node s' k) = false /\ is_fat32 (node s' k) = false /\ is_iso9660 (node s' k) = false;
  wr_size : size (node s' k) = Z.of_nat (length bytes);
  wr_data : exists d, ndata (node s' k) = Some (overwrite d bytes);
  wr_paths q j : resolve s root q = Some j -> resolve s' root q = Some j;
  wr_others j : valid s j -> j <> k -> file_of s' j = file_of s j
}.

Lemma alloc_data_shape s n s' r : alloc_data s n = (s', r) -> exists w, s' = set_disk w s.
Proof. unfold alloc_data. destruct (fa_alloc_pages _ _) as [w phys]. intros [= <- _]. by exists w. Qed.

Lemma resolve_same s s' : nodes s' = nodes s -> forall cs curr, resolve s' curr cs = resolve s curr cs.
Proof.
  intros Hn. assert (N : forall i, node s' i = node s i) by (intros i; unfold node; by rewrite Hn).
  induction cs as [|c cs IH]; intros curr; [done|]. cbn [resolve].
  assert (Hf : find_child s' curr c = find_child s curr c).
  { unfold find_child. rewrite N. induction (children (node s curr)) as [|x l IHl]; [done|]. cbn [List.find].
    unfold matches at 1 3. rewrite !N. by rewrite IHl. }
  rewrite Hf. by destruct (find_child s curr c).
Qed.

(** Replacing the contents of an existing file. *)
Lemma store_written s root p k d bytes :
  vfs_wf s -> settled s -> g_root s = Some root -> resolve s root p = Some k ->
  is_dir (node s k) = false -> is_fat32 (node s k) = false -> is_iso9660 (node s k) = false ->
  written s (upd_node k (set_content (Some (overwrite d bytes)) (Z.of_nat (length bytes))) s) root k p bytes.
Proof.
  intros Hw Hs Hr Hp Hd Hf Hi. pose proof (vw_root _ Hw root Hr) as Vr. pose proof (resolve_valid s p root k Hw Vr Hp) as Vk.
  set (f := set_content _ _). assert (N : forall j, valid s j -> node (upd_node k f s) j = if j =? k then f (node s k) else node s j)
    by (intros j Hj; by apply node_upd).
  assert (G : grows s (upd_node k f s)).
  { intros j Hj. rewrite N by done. destruct (Z.eqb_spec j k) as [->|]; (split; [done|]; split; [done|]; exists []; by rewrite app_nil_r). }
  pose proof (N k Vk) as Nk. rewrite Z.eqb_refl in Nk. constructor; try rewrite !Nk; try done.
  - unfold settled, upd_node. cbn [nodes set_nodes]. apply Forall_insert; [done|]. exact (settled_node s k Hs).
  - by apply (resolve_grows s _ p).
  - by exists d.
  - intros q j. by apply resolve_grows.
  - intros j Hj Hne. unfold file_of. rewrite N by done. apply Z.eqb_neq in Hne. by rewrite Hne.
Qed.

(** A node linked into a directory with room. *)
Lemma alloc_node_linked s nm sz d p s' k :
  vfs_wf s -> valid s p -> Z.of_nat (length (children (node s p))) < VFS_MAX_CHILDREN ->
  alloc_node s nm false sz d (Some p) = (s', Some k) ->
  k = Z.of_nat (length (nodes s)) /\ g_root s' = g_root s /\
  node s' k = VfsNode (str_copy nm VFS_NAME_MAX) false sz d p [] false 0 false false 0 false /\
  (forall j, valid s j -> node s' j = if j =? p then set_children (children (node s p) ++ [k]) (node s p) else node s j) /\
  (settled s -> settled s').
Proof.
  intros Hw Hp Hc. unfold alloc_node. destruct (_ <=? _); [done|]. cbn [default].
  set (i := Z.of_nat (length (nodes s))). set (n := VfsNode _ _ _ _ _ _ _ _ _ _ _ _). set (s1 := set_nodes _ s).
  assert (Old : forall j, valid s j -> node s1 j = node s j).
  { intros j Hj. unfold node, s1, at_z. cbn [nodes set_nodes]. apply app_nth1. unfold valid in Hj. lia. }
  assert (New : node s1 i = n).
  { unfold node, s1, at_z, i. cbn [nodes set_nodes]. rewrite Nat2Z.id, app_nth2 by lia. by rewrite Nat.sub_diag. }
  rewrite (Old p Hp). apply Z.ltb_lt in Hc as ->. intros [= <- <-].
  assert (V1 : forall j, valid s j -> valid s1 j).
  { unfold valid, s1. cbn [nodes set_nodes]. intros j Hj. rewrite length_app. cbn. lia. }
  assert (Vi : valid s1 i). { unfold valid, s1, i. cbn [nodes set_nodes]. rewrite length_app. cbn. lia. }
  assert (Hpi : (i =? p) = false) by (apply Z.eqb_neq; unfold valid, i in *; lia).
  split; [done|]. split; [done|]. split; [rewrite node_upd by auto; by rewrite Hpi|]. split.
  - intros j Hj. rewrite node_upd by auto. rewrite (Old p Hp). destruct (j =? p); [done|by apply Old].
  - intros Hs. unfold settled, upd_node. cbn [nodes set_nodes]. apply Forall_insert.
    + unfold s1. cbn [nodes set_nodes]. apply Forall_app. by repeat constructor.
    + rewrite (Old p Hp). exact (settled_node s p Hs).
Qed.

Lemma find_new {T} (f g : T -> bool) l x :
  (forall y, y ∈ l -> g y = f y) -> List.find f l = None -> g x = true -> List.find g (l ++ [x]) = Some x.
Proof.
  intros He Hn Hx. induction l as [|y l IH]; cbn [List.find app]; [by rewrite Hx|]. cbn [List.find] in Hn.
  rewrite (He y ltac:(constructor)). destruct (f y); [done|]. apply IH; [|done]. intros z Hz. apply He. by constructor.
Qed.

(** Creating a file in a directory with room. *)
Lemma create_written s root dir nm p d bytes s' k :
  vfs_wf s -> settled s -> g_root s = Some root -> good_comp nm ->
  resolve s root dir = Some p -> resolve s root (dir ++ [nm]) = None ->
  Z.of_nat (length (children (node s p))) < VFS_MAX_CHILDREN ->
  alloc_node s nm false (Z.of_nat (length bytes)) (Some (overwrite d bytes)) (Some p) = (s', Some k) ->
  written s s' root k (dir ++ [nm]) bytes.
Proof.
  intros Hw Hs Hr [_ _ Hlen _ _ _] Hp Hnone Hc E. pose proof (vw_root _ Hw root Hr) as Vr.
  pose proof (resolve_valid s dir root p Hw Vr Hp) as Vp.
  destruct (alloc_node_linked _ _ _ _ _ _ _ Hw Vp Hc E) as (Hk & Hr' & Nk & N & Hs').
  assert (G : grows s s').
  { intros j Hj. rewrite N by done. destruct (Z.eqb_spec j p) as [->|].
    - split; [done|]. split; [done|]. by exists [k].
    - split; [done|]. split; [done|]. exists []. by rewrite app_nil_r. }
  rewrite resolve_app, Hp in Hnone. cbn [resolve] in Hnone.
  assert (Hnm : str_copy nm VFS_NAME_MAX = nm) by (unfold str_copy; rewrite name_cap; by apply take_ge).
  constructor; try rewrite !Nk; try done.
  - by apply Hs'.
  - by rewrite Hr'.
  - rewrite resolve_app, (resolve_grows s s' dir root p) by done. cbn [resolve].
    enough (find_child s' p nm = Some k) as -> by done. unfold find_child. rewrite (N p Vp), Z.eqb_refl.
    cbn [children set_children]. apply (find_new (matches s p nm)).
    + intros y Hy. destruct (nw_child _ _ _ (node_of s p Hw Vp) y Hy) as [Vy _].
      destruct (G y Vy) as (Hn & _). destruct (G p Vp) as (_ & Hi & _). unfold matches. by rewrite Hi, Hn.
    + unfold find_child in Hnone. by destruct (List.find _ _).
    + unfold matches. rewrite Nk. cbn [name]. rewrite Hnm. unfold str_eq at 1. by rewrite bool_decide_eq_true_2.
  - by exists d.
  - intros q j. by apply resolve_grows.
  - intros j Hj Hne. unfold file_of. rewrite N by done. by destruct (Z.eqb_spec j p) as [->|].
Qed.

Lemma written_disk s w s' root k p bytes : written (set_disk w s) s' root k p bytes -> written s s' root k p bytes.
Proof.
  intros [A B C D E F G H]. constructor; try done. intros q j Hq. apply G. by rewrite (resolve_same s).
Qed.

Lemma set_disk_resolve w s root cs : resolve (set_disk w s) root cs = resolve s root cs.
Proof. by apply resolve_same. Qed.

Lemma write_memory_written s root p k bytes s' rc :
  vfs_wf s -> settled s -> g_root s = Some root -> resolve s root p = Some k ->
  is_dir (node s k) = false -> is_fat32 (node s k) = false -> is_iso9660 (node s k) = false ->
  write_memory s k bytes = (s', rc) ->
  (rc < 0 /\ nodes s' = nodes s) \/ (rc = Z.of_nat (length bytes) /\ written s s' root k p bytes).
Proof.
  intros Hw Hs Hr Hp Hd Hf Hi. unfold write_memory.
  assert (Hnew : match alloc_data s (Z.of_nat (length bytes)) with
      | (s1, None) => (s1, -5)
      | (s1, Some d) => (upd_node k (set_content (Some (overwrite d bytes)) (Z.of_nat (length bytes))) s1, Z.of_nat (length bytes))
      end = (s', rc) ->
    (rc < 0 /\ nodes s' = nodes s) \/ (rc = Z.of_nat (length bytes) /\ written s s' root k p bytes)).
  { intros E. destruct (alloc_data s _) as [s1 r] eqn:Ea. destruct (alloc_data_shape _ _ _ _ Ea) as [w ->].
    destruct r as [d|]; injection E as <- <-; [right|by left]. split; [done|]. apply (written_disk s w).
    by apply store_written; [apply set_disk_wf| | |rewrite set_disk_resolve| | |]. }
  destruct (ndata (node s k)) as [d|]; [|exact Hnew]. destruct (_ <? _); [exact Hnew|].
  intros [= <- <-]. right. split; [done|]. by apply store_written.
Qed.

Lemma no_drive_app dir x : dir <> [] -> no_drive (dir ++ [x]) -> no_drive dir.
Proof. by destruct dir. Qed.

(** Creating by a canonical path, with the parent found by a lookup. *)
Lemma write_new_eq s root dir nm bytes :
  settled s -> g_root s = Some root -> Forall good_comp (dir ++ [nm]) -> no_drive (dir ++ [nm]) ->
  let slash := Z.of_nat (length (path_of dir)) in
  write_new s (path_of (dir ++ [nm])) bytes =
    if (slash <? 1) || (VFS_NAME_MAX <=? slash) then (s, -6)
    else
      match resolve s root dir with
      | None => (s, -7)
      | Some p =>
          if is_fat32 (node s p) then write_fat s p (path_of (dir ++ [nm])) bytes (-8)
          else
            match alloc_data s (Z.of_nat (length bytes)) with
            | (s, None) => (s, -8)
            | (s, Some d) =>
                match alloc_node s nm false (Z.of_nat (length bytes)) (Some (overwrite d bytes)) (Some p) with
                | (s, None) => (s, -9)
                | (s, Some _) => (s, Z.of_nat (length bytes))
                end
            end
      end.
Proof.
  intros Hs Hr Hg Hdr slash. apply Forall_app in Hg as [Hgd Hgn]. rewrite Forall_singleton in Hgn.
  assert (E : path_of (dir ++ [nm]) = path_of dir ++ 47 :: nm)
    by (rewrite path_of_app; cbn [path_of flat_map]; by rewrite app_nil_r).
  unfold write_new. rewrite basename_of by done. rewrite E, last_sep_app by apply Hgn. cbn zeta. cbn [default id]. fold slash.
  destruct (Z.ltb_spec slash 1) as [|Hlen]; [done|]. cbn [orb]. destruct (_ <=? _); [done|].
  unfold slash. rewrite Nat2Z.id, take_app_length.
  assert (Hd : dir <> []) by (intros ->; unfold slash in Hlen; cbn in Hlen; lia).
  rewrite (find_canonical s root) by eauto using no_drive_app. done.
Qed.

Lemma write_new_written s root dir nm bytes s' rc :
  vfs_wf s -> settled s -> g_root s = Some root -> Forall good_comp (dir ++ [nm]) -> no_drive (dir ++ [nm]) ->
  resolve s root (dir ++ [nm]) = None ->
  (forall p, resolve s root dir = Some p ->
     is_fat32 (node s p) = false /\ Z.of_nat (length (children (node s p))) < VFS_MAX_CHILDREN) ->
  write_new s (path_of (dir ++ [nm])) bytes = (s', rc) ->
  (rc < 0 /\ nodes s' = nodes s) \/ (rc = Z.of_nat (length bytes) /\ exists k, written s s' root k (dir ++ [nm]) bytes).
Proof.
  intros Hw Hs Hr Hg Hdr Hnone Hroom. rewrite (write_new_eq s root) by done. apply Forall_app in Hg as [_ Hgn].
  rewrite Forall_singleton in Hgn. destruct (_ || _); [intros [= <- <-]; by left|].
  destruct (resolve s root dir) as [p|] eqn:Ep; [|intros [= <- <-]; by left]. destruct (Hroom p eq_refl) as [-> Hc].
  destruct (alloc_data s _) as [s1 r] eqn:Ea. destruct (alloc_data_shape _ _ _ _ Ea) as [w ->].
  destruct r as [d|]; [|intros [= <- <-]; by left].
  destruct (alloc_node _ _ _ _ _ _) as [s2 [k|]] eqn:En.
  - intros [= <- <-]. right. split; [done|]. exists k. apply (written_disk s w).
    apply (create_written (set_disk w s) root dir nm p d bytes s2 k); auto using set_disk_wf; by rewrite set_disk_resolve.
  - intros [= <- <-]. left. split; [done|]. unfold alloc_node in En. destruct (_ <=? _); [by injection En as <-|].
    cbn zeta in En. by destruct (_ <? _).
Qed.

(** Reading a written file. *)
Lemma written_read s s' root k p bytes off max :
  written s s' root k p bytes -> p <> [] -> Forall good_comp p -> no_drive p ->
  Z.of_nat (length bytes) < 2 ^ 31 -> 0 <= off -> 0 < max ->
  vfs_read_at s' (Some (path_of p)) off false max =
    (s', Z.min (Z.max 0 (Z.of_nat (length bytes) - off)) max, take (Z.to_nat max) (drop (Z.to_nat off) bytes)).
Proof.
  intros [A B C (D1 & D2 & D3) E (d & F) _ _] Hp Hg Hd Hl Ho Hm. unfold vfs_read_at. cbn [orb].
  destruct (Z.leb_spec max 0) as [|_]; [lia|]. rewrite (find_canonical s' root) by done. rewrite C. cbn zeta.
  rewrite D1, D2, D3, F, E. destruct (Z.leb_spec (Z.of_nat (length bytes)) off) as [Hge|Hlt].
  - rewrite drop_ge, take_nil by lia. f_equal. f_equal. lia.
  - assert (Hi : i32 (Z.of_nat (length bytes) - off) = Z.of_nat (length bytes) - off).
    { unfold swrap. change (2 ^ 32) with (2 * 2 ^ (32 - 1)). rewrite Z.mod_small by lia. lia. }
    rewrite Hi. f_equal; [f_equal; lia|]. unfold overwrite. rewrite drop_app_le, take_app_le by (rewrite ?length_drop; lia).
    destruct (Z.min_spec (Z.of_nat (length bytes) - off) max) as [[Hmin ->]|[_ ->]]; [|done].
    rewrite take_ge by (rewrite length_drop; lia). symmetry. apply take_ge. rewrite length_drop. lia.
Qed.


(** A directory that is full takes no new entry: the node is made but not linked. *)
Lemma alloc_node_unlinked s nm sz d p s' k :
  valid s p -> VFS_MAX_CHILDREN <= Z.of_nat (length (children (node s p))) ->
  alloc_node s nm false sz d (Some p) = (s', Some k) ->
  g_root s' = g_root s /\ (forall j, valid s j -> node s' j = node s j) /\ (settled s -> settled s').
Proof.
  intros Hp Hc. unfold alloc_node. destruct (_ <=? _); [done|]. cbn zeta. set (s1 := set_nodes _ s).
  assert (Old : forall j, valid s j -> node s1 j = node s j).
  { intros j Hj. unfold node, s1, at_z. cbn [nodes set_nodes]. apply app_nth1. unfold valid in Hj. lia. }
  rewrite (Old p Hp). destruct (Z.ltb_spec (Z.of_nat (length (children (node s p)))) VFS_MAX_CHILDREN); [lia|].
  intros [= <- <-]. split; [done|]. split; [done|]. intros Hs. unfold settled, s1. cbn [nodes set_nodes].
  apply Forall_app. by repeat constructor.
Qed.

Lemma resolve_local s s' cs : forall curr,
  vfs_wf s -> (forall j, valid s j -> node s' j = node s j) -> valid s curr -> resolve s' curr cs = resolve s curr cs.
Proof.
  induction cs as [|c cs IH]; intros curr Hw N Hv; [done|]. cbn [resolve].
  assert (Hf : find_child s' curr c = find_child s curr c).
  { unfold find_child. rewrite (N curr Hv). pose proof (fun x H => proj1 (nw_child _ _ _ (node_of s curr Hw Hv) x H)) as Hch.
    induction (children (node s curr)) as [|x l IHl]; [done|]. cbn [List.find].
    unfold matches at 1 3. rewrite (N curr Hv), (N x) by (apply Hch; constructor). rewrite IHl; [done|].
    intros y Hy. apply Hch. by constructor. }
  rewrite Hf. destruct (find_child s curr c) as [j|] eqn:Ef; [|done]. apply IH; auto. exact (find_valid s curr _ j Hw Hv Ef).
Qed.

(** Creating a file in a directory that already has [VFS_MAX_CHILDREN] entries
    reports that every byte was written, but no path names the file: the data is
    lost without an error. *)
Theorem full_directory_loses_files s root dir nm p bytes s' rc :
  vfs_wf s -> settled s -> g_root s = Some root -> Forall good_comp (dir ++ [nm]) -> no_drive (dir ++ [nm]) ->
  resolve s root dir = Some p -> resolve s root (dir ++ [nm]) = None -> is_fat32 (node s p) = false ->
  VFS_MAX_CHILDREN <= Z.of_nat (length (children (node s p))) ->
  vfs_write s (Some (path_of (dir ++ [nm]))) (Some bytes) = (s', rc) -> 0 <= rc ->
  rc = Z.of_nat (length bytes) /\ vfs_stat s' (Some (path_of (dir ++ [nm]))) = (s', None).
Proof.
  intros Hw Hs Hr Hg Hdr Hp Hnone Hfat Hfull E Hrc. assert (Hne : dir ++ [nm] <> []) by (by destruct dir).
  pose proof (vw_root _ Hw root Hr) as Vr. pose proof (resolve_valid s dir root p Hw Vr Hp) as Vp.
  unfold vfs_write in E. rewrite (find_canonical s root), Hnone, (write_new_eq s root), Hp, Hfat in E by done.
  destruct (_ || _) in E; [injection E as <- <-; lia|].
  destruct (alloc_data s _) as [s1 r] eqn:Ea. destruct (alloc_data_shape _ _ _ _ Ea) as [w ->].
  destruct r as [d|]; [|injection E as <- <-; lia].
  destruct (alloc_node _ _ _ _ _ _) as [s2 [k|]] eqn:En; [|injection E as <- <-; lia]. injection E as <- <-. split; [done|].
  destruct (alloc_node_unlinked (set_disk w s) _ _ _ _ _ _ Vp Hfull En) as (Hr2 & N & Hs2).
  unfold vfs_stat. rewrite (find_canonical s2 root); [|by apply Hs2|by rewrite Hr2|done..].
  by rewrite (resolve_local s s2), Hnone by done.
Qed.
End Files.

(** ** Concrete runs *)

Definition demo_mem : vfs (list disk_entry) := vfs_init demo_images (Vfs [] None false false []).
Definition demo_dir : list path_t := [str "bin"].
Definition demo_name : path_t := str "notes".

(** [/bin] after the [n] files [/bin/a], [/bin/b], ... *)
Definition fill (n : nat) : list vfs_op := map (fun i => OWrite (Some (path_of [str "bin"; [97 + Z.of_nat i]])) (Some [0])) (seq 0 n).
Definition demo_full : vfs (list disk_entry) := default demo_mem (exec_all demo_mem (fill 29)).

Lemma demo_good : Forall good_comp (demo_dir ++ [demo_name]).
Proof. repeat constructor; cbn; try lia; discriminate. Qed.

Lemma demo_mem_settled : settled demo_mem.
Proof. vm_compute. repeat constructor; discriminate. Qed.

Lemma demo_full_settled : settled demo_full.
Proof. vm_compute. repeat constructor; discriminate. Qed.

Definition demo_empty : vfs (list disk_entry) := Vfs [] None false false [].

Lemma demo_full_run : exec_all (vfs_init demo_images demo_empty) (fill 29) = Some demo_full.
Proof. vm_compute. reflexivity. Qed.

Lemma demo_full_wf : vfs_wf demo_full.
Proof. exact (ts_wf _ _ (exec_all_step _ _ _ (proj1 (vfs_init_wf demo_images demo_empty)) demo_full_run)). Qed.

Lemma demo_mem_wf : vfs_wf demo_mem.
Proof. exact (proj1 (vfs_init_wf demo_images demo_empty)). Qed.

Lemma demo_roots : g_root demo_mem = Some 0 /\ g_root demo_full = Some 0.
Proof. vm_compute. done. Qed.

Lemma demo_bin : resolve demo_mem 0 demo_dir = Some 3 /\ resolve demo_mem 0 (demo_dir ++ [demo_name]) = None.
Proof. vm_compute. done. Qed.

Lemma demo_full_bin :
  resolve demo_full 0 demo_dir = Some 3 /\ resolve demo_full 0 (demo_dir ++ [demo_name]) = None /\
  is_fat32 (node demo_full 3) = false /\ VFS_MAX_CHILDREN <= Z.of_nat (length (children (node demo_full 3))).
Proof. vm_compute. done. Qed.

Lemma demo_bin_no_drive : no_drive (demo_dir ++ [demo_name]).
Proof. cbn. discriminate. Qed.

Lemma demo_bin_room :
  is_fat32 (node demo_mem 3) = false /\ Z.of_nat (length (children (node demo_mem 3))) < VFS_MAX_CHILDREN.
Proof. split; vm_compute; reflexivity. Qed.

Definition demo_written : vfs (list disk_entry) * Z := vfs_write demo_mem (Some (path_of (demo_dir ++ [demo_name]))) (Some [1; 2; 3]).
Definition demo_lost : vfs (list disk_entry) * Z := vfs_write demo_full (Some (path_of (demo_dir ++ [demo_name]))) (Some [1; 2; 3]).


Lemma full_directory_loses_files_witness :
  snd demo_lost = 3 /\ vfs_stat (fst demo_lost) (Some (path_of (demo_dir ++ [demo_name]))) = (fst demo_lost, None).
Proof.
  destruct demo_full_bin as (Hp & Hn & Hf & Hc).
  refine (full_directory_loses_files demo_full 0 demo_dir demo_name 3 [1; 2; 3] (fst demo_lost) (snd demo_lost)
    demo_full_wf demo_full_settled (proj2 demo_roots) demo_good _ Hp Hn Hf Hc (surjective_pairing _) _).
  - exact demo_bin_no_drive.
  - vm_compute. discriminate.
Defined.
